(* ===== verification/_CoqProject ===== *)
-Q . S2P
Prelude.v
GoNum.v
GoText.v
GoFloat.v
Core.v
GoTime.v
Milestones.v
Reconcile.v
Market.v
Repo.v
MemoryRepo.v
App.v
Lifecycle.v
ProviderSettlement.v
Providers.v
Orders.v
Bidding.v
Directory.v
SettlementLedger.v
OrderHandlers.v
Credit.v
Awards.v
Vetting.v
Reports.v
System.v
RateLimit.v
CarrierService.v
CarrierEvents.v
Amounts.v
Funding.v
Deposits.v
DepositLedger.v
Http.v
Web.v
Settlement.v
SettlementAccess.v
SettlementSync.v
GoBytes.v
Signatures.v
DemoEnv.v
Gateway.v
GatewayOrders.v
Export.v
GatewayDirectory.v
GatewayCallbacks.v
AwardExecutor.v
DemoStatus.v
GatewayServe.v
GatewayHistory.v
GatewayFunds.v
GatewayAccess.v
GatewayDelivery.v
Identity.v
Iam.v
IamAccess.v
CodeAgent.v
Execution.v
Traces.v
Fnn.v
FnnChannels.v
FiberNode.v
FiberAdapter.v
FiberClient.v
FiberAccess.v
FiberFeed.v
CkbWallet.v
CkbSweeps.v
ClientAddress.v
Bech32.v
ReleaseClient.v
ReleaseSmoke.v
ReleaseFnn.v
ReleaseUsdi.v
RunCallbacks.v
RunPayouts.v
DemoReady.v
Notifications.v
Discord.v
Limits.v
Startup.v
