(* ===== verification/Prelude.v ===== *)
(** * 1-tok: a verification development for the Go marketplace

    The program (src/) is a marketplace in which buyers publish requests for
    quotation, providers bid on them, and an award turns a bid into an order with
    milestones that are executed by a provider's carrier and settled over a
    payment rail.  Its core is the package internal/platform, an [App] that HTTP
    services call, over the order workflow of internal/core; internal/carrier
    runs the jobs of an order, internal/ratelimit guards the entry points.
    internal/gateway is the HTTP server in front of them and of the callbacks of
    carriers.  internal/services/settlement keeps deposits and funding records and
    talks to the payment network, through internal/fiberadapter and through a wallet on
    the CKB chain; internal/services/iam says who a token belongs to;
    internal/services/execution is what carriers talk to.  internal/release drives all of
    it before a release, internal/bootstrap starts it.

    ** What models what

    The base:
    - [Prelude]: Go errors and results, the state-and-error monad the methods are
      written in, record update, frames, iteration over maps.
    - [GoNum], [GoFloat]: int64 with wrap-around, float64 (binary64), their conversions,
      formatting and parsing.  [GoText]: the functions of [strings] and [strconv], and
      environment variables.  [GoTime]: instants and their text.  [GoBytes]: SHA-256,
      HMAC, runes, base64.
    - [Traces]: computations over the history of what they ask of others, and how these
      histories grow.

    The platform:
    - [Core] (internal/core/workflow.go): orders, milestones, charges, ledger
      entries and the four operations on an order; the credit decision engine.
    - [Milestones] (platform/milestones.go): the default split of a budget.
    - [Reconcile] (internal/reconciliation/reconciler.go): deviation of a
      settlement from the recorded spend.
    - [Market] (platform/app.go, bids.go): the records of the marketplace.
    - [Repo]: the repository interfaces.  [Storage] bundles the operations an
      [App] is built over, any of which may fail; [KeyedStore] and [StorageLaws]
      are the contract the theorems rely on.  [MemoryRepo] (platform/app.go): the
      in-memory repositories, and the proof that they meet that contract.
    - [App] (platform/app.go, provider_settlement.go): the state of the platform
      and its collaborators.  Publisher, notifier, clock and liquidity
      provisioner are functions of the history of calls made to them.
    - [Lifecycle] (app.go, provider_settlement.go): what the platform does to one
      stored order, as pure functions, and histories of these operations: the
      abstract machine the handlers are shown to refine.
    - [ProviderSettlement] (platform/provider_settlement.go): settlement
      bindings, liquidity pools and reservations.  Where the source releases
      [a.mu] around a call of the provisioner (reserving, recovering, warming), the
      method is split in its locked sections; [turns] interleaves the sections of any
      number of requests, each going on with what it carried out of the lock.
    - [Providers], [Orders], [Bidding], [Directory] (app.go, bids.go): the
      handlers, each the whole method: guards, reads, saves, published events,
      notifications, in the order of the source.
    - [Fnn] (platform/provider_settlement_fnn.go): the liquidity provisioner over the
      payment nodes of the treasury and of a provider.
    - [Export] (platform/export.go): the CSV exports and the writer of encoding/csv.

    Beside the platform:
    - [RateLimit], [ClientAddress], [Limits] (internal/ratelimit/service.go): windows and
      counts; whom a limit counts, the headers of a decision, the Redis store over the
      script; the limits the environment sets.  The server behind the script is a class,
      [RedisServer], of the laws of its commands; what the service relies on in a store,
      [CountingStore], is an interface that the in-memory store and Redis discharge.
    - [CarrierService] (internal/carrier/service.go), [CarrierEvents] (carrier/ledger.go,
      evidence.go, profile.go, normalize.go), [Signatures] (carrier/callback.go,
      integration_callback.go, usageproof/verify.go): jobs, events, evidence, and what
      is signed.
    - [Notifications] (internal/notifications): the log, the webhooks and their registry.
    - [Discord] (internal/discord): interactions, commands, pushed messages.

    The services:
    - [Http]: requests, JSON bodies and how fields are decoded, service tokens
      (internal/serviceauth), the actor the IAM service answers with.  [Web]
      (httputil/pagination.go, validation/validators.go, gateway/server.go): pages,
      validators, the predicates and parsers of paths.
    - [Amounts], [Funding] (settlement/funding.go), [Deposits]
      (settlement/buyer_deposits.go): units and cents, the funding records and the
      deposit service, over any wallet and repositories.  [Settlement]
      (settlement/server.go): the routing and every handler of the service;
      [SettlementSync] (settlement/reconciler.go): the reconciler and its loop.
    - [CkbWallet] (settlement/buyer_deposit_wallet_ckb.go): the deposit service's
      wallet, from keys and addresses to the transaction of a sweep; the SDK of the
      chain, the curve and the chain's node are parameters.
    - [FiberNode], [FiberAdapter] (fiberadapter/server.go), [FiberClient]
      (integrations/fiber/client.go): the calls of a raw node, the signed JSON-RPC
      server in front of it, and the client that makes the settlement service's
      [FiberClient] of it.
    - [Gateway], [GatewayOrders], [GatewayDirectory], [GatewayCallbacks],
      [GatewayServe] (gateway/server.go, carrier_routes.go): the state of the
      gateway, who may do what, the handlers, the callbacks of carriers and the
      routing.  IAM service, settlement service, other services and clock are
      functions of the number of calls made to them.
    - [AwardExecutor] (gateway/carrier_award_executor.go): the execution that an
      award starts, the command it runs on the host and the callback script in it.
    - [DemoEnv] (demoenv/config.go, status.go), [DemoStatus]
      (gateway/demo_status.go): the status report of a demonstration.
    - [Identity] (identity/store.go, roles.go, validation.go), [Iam]
      (services/iam/server.go, integrations/iam/client.go): users, organizations and
      sessions as an interface with a contract and the in-memory store that keeps it;
      the handlers of the IAM service and the client that asks it.
    - [CodeAgent] (integrations/carrier/client.go), [Execution]
      (services/execution/server.go): URLs and the calls of a code agent; the service that
      turns what a carrier reports into requests to the gateway.
    - [Startup] (internal/bootstrap, internal/runtimeconfig, the constructors of the
      servers): what a service reads, opens and requires before it serves.

    The release tooling (internal/release):
    - [ReleaseClient] (smoke.go, idgen.go): requests to running services as a trace, and
      what is read of the answers.  [ReleaseSmoke] (smoke.go, abuse_smoke.go,
      external_preflight.go): the smoke check, the flood of logins, the preflight.
    - [Bech32], [ReleaseFnn] (demo_fnn_funding.go, fnn_dual_node_smoke.go,
      fnn_adapter_smoke.go): addresses and their checksum, funding wallets, channels
      between nodes, the check of the adapter.
    - [ReleaseUsdi] (usdi_marketplace_e2e.go): three whole orders over the running
      services.  [DemoReady] (demo_ready.go, demo_fnn_funding.go): preparing and
      verifying the demonstration.

    Definitions keep the names of the source; a method [App.F] is the function
    [F] into [M], the monad of the platform, and a field [x] of a struct is a
    projection with a short prefix ([o_Status], [ms_BudgetCents], [b_RFQID]).

    ** What the theorems show

    - [SettlementLedger]: a provider's pool has reserved exactly what its
      unreleased reservations hold, under every interleaving of locked sections, as long
      as the sums fit and no binding is verified meanwhile; a reservation fits what can be spent; releasing undoes reserving; outages
      and recoveries reach exactly the orders that hold a reservation.
    - [Lifecycle], [Core]: the ledger of an order balances over any history, an
      order stays well-formed, settling its milestones in order completes it, the
      budget wall rises exactly when the spend exceeds the budget.
    - [OrderHandlers], [Credit], [System]: the handlers refine the order machine
      over any repository that keeps the contract; creations are fresh; credit
      limits hold at creation, over the orders that can be listed; after any session of requests every stored order
      is a history of a created one, and no order is lost.
    - [Awards]: a bid fits its RFQ; an award makes one order of one bid and is
      final.
    - [Vetting], [Reports]: applications are decided once; an order is rated once;
      leaderboard and revenue are what they claim.
    - [CarrierService], [CarrierEvents]: jobs only progress, creations and
      recordings are idempotent, a milestone has one carrier, ledgers have no
      gaps after a positive number.
    - [RateLimit], [ClientAddress], [Limits]: at most twice the limit in any window's
      time, and the delay a denied caller is given is exact; behind trusted proxies a
      client cannot forge the address it is limited under; where limits are enforced, over
      Redis or in memory, so often at most is the password of an account tried, whatever
      is requested.
    - [Milestones], [Reconcile], [Core], [Amounts]: arithmetic without loss or
      overflow; amounts and their text.
    - [DepositLedger], [SettlementAccess], [SettlementSync]: no deposit is credited
      twice and the balance shown is what was swept; funding records, internal
      routes and withdrawals are open to those they belong to; payouts are on
      record; the reconciler brings records up to date and gives up as it should.
    - [GatewayServe], [GatewayHistory]: every request is answered, and whatever is
      requested, stored orders are histories of created ones.
    - [GatewayAccess], [GatewayFunds], [GatewayDelivery]: orders are shown to
      their parties, but for the routes that are open to all; without an execution token
      nothing is paid but by the callbacks of carriers; prepaid orders, created or
      awarded, stay within what was topped up; events of carriers are acted on once,
      whatever comes in between.
    - [Signatures], [Export], [Web], [AwardExecutor], [DemoEnv]: callbacks verify
      for five minutes; exports read back; pages cover their list; the shell reads
      the arguments it was meant to; a demonstration is ready when nothing is
      missing.
    - [IamAccess]: the client's answer for a token is the actor of a live session and of
      nobody else; a token needs the password; who signed up can log in.
    - [Execution]: what a carrier reports acts on its order in the platform behind
      the gateway as a settlement or a charge, and only with the service's tokens.
    - [FnnChannels]: liquidity stands on a channel that both nodes list ready; requests
      end and open a bounded number of channels; every reservation of a platform over
      FNN nodes has such a channel, and covers what was asked.
    - [FiberAccess], [FiberFeed]: client and adapter agree on signatures and amounts;
      the settled feed tells of settled invoices, of all of them without a limit; the
      listed withdrawals are the payouts made.
    - [CkbSweeps]: a sweep that is reported paid the treasury the confirmed deposits it
      reports and returned in full what they and the fee leave, in one signed transaction; it makes a bounded number
      of requests; addresses and amounts survive their encoding.
    - [Notifications], [Discord]: what is delivered goes to the address last registered,
      told apart by its signature; a keyed bot answers signed interactions only.
    - [Startup]: a start that fails leaves nothing open, and a service that starts has
      the tokens, the identity service and the stores its settings require of it.
    - [RunCallbacks], [RunPayouts]: the callbacks a release run signs are authentic at
      the gateway, where they are new, and acted on one by one, and its usage reports are
      charged; an order of
      a passed run was paid for in three payouts that make up its quote; waits end.
    - [ReleaseSmoke], [ReleaseFnn], [DemoReady], [Bech32]: what a passed check has seen;
      which requests a verification may send; an address names the script it was derived
      from.
    - Where the code does not do what it means to, a theorem says so on a concrete
      run: payments of disputed milestones, budget walls undone by top-ups,
      overcommitted pools, forgotten reservations, credit past the limit, also when orders
      cannot be listed, exports open to anybody, orders
      left by failed awards, suspensions escaped, budgets below zero that pay for
      others, callbacks that bring their secret or are lost, roles chosen at sign-up,
      retries after their deadline, payouts that can be replayed, feeds without a second
      page, large deposits that are burnt, addresses forged with a hop too many,
      notifications anybody with a session can redirect, waits that a failing service
      prolongs, top-ups that are reported and were not made.

    ** Bounds and fuel

    Amounts in cents are [Z] with every operator wrapped to int64; theorems about
    exact sums assume that these fit.  Sequence counters advance by one per call
    and are unbounded.  [trim_front] in [GoText] takes the length of its string as
    fuel and removes a byte per step; [ParseDuration] in [Limits] takes the length of
    its text, of which each round reads at least a byte; [exchange_sort] in [Directory]
    takes the number of entries and places one per step; loops over slices and maps are
    structural.  The wait for a channel in [Fnn] takes as fuel the ticks it may see: any
    more than come before the deadline are enough ([requests_end]).  Loops of retries,
    of pages and of key derivation take the number of tries the code makes.  The waits of
    the release tooling take the number of their polls: more than a context or a deadline
    leaves time for are enough ([order_and_record_waits_end]).  A map is visited in an
    arbitrary order ([MapOrder]).

    ** What is not modelled

    SQL, the publisher of the message bus, listening and shutting down, logging and error
    reporting, the middleware of internal/httputil, the mocks of other services, the
    check of web pages in a browser and the files the release tooling writes are left out:
    they are reached through the collaborators above or not at all.  Third-party
    code is a parameter: the SDK of the chain, random numbers, the Redis server, the tables
    of Unicode, the comparison of password hashes, Ed25519.  Of HTTP, headers of responses
    (but for those of a limit), request tags and logs are left out; two requests are
    served one after the other, except where a component releases its mutex.  The body of
    a request is given both as text and as the JSON value it parses to.  [or_respond]
    answers a panic inside called code like an error; [gateway_answers] says where that
    could matter.  An execution started by an award is launched with the state it is given
    and modelled by [AwardExecutor.Execute], with what the gateway does in the meantime as
    a parameter. *)

From stdpp Require Export base tactics option list strings pretty gmap sorting.
From Stdlib Require Export ZArith Lia.

Declare Scope go_scope.
Delimit Scope go_scope with go.
#[global] Open Scope Z_scope.
#[global] Open Scope go_scope.

(** The library's rewrite and resolution hints. *)
Create HintDb go.
Create Rewrite HintDb go.

(** ** Go errors

    One constructor per sentinel ([errors.New] at package level); [Errf] is a
    formatted error without wrapping, [EWrap e s] is ["%w: s"] and
    [EPrefix s e] is ["s: %w"].  [errors.Is] sees through the last two. *)

Inductive error : Set :=
  (* internal/core/errors.go *)
  | ErrOrderNotFound | ErrMilestoneNotFound
  (* internal/platform/errors.go *)
  | ErrRFQNotFound | ErrBidNotFound | ErrDisputeNotFound
  | ErrMembershipRequired | ErrOrgMismatch
  | ErrMissingRequiredFields | ErrDeadlineRequired | ErrDeadlineInPast
  | ErrMilestonesRequired
  | ErrRFQNotOpenForBids | ErrRFQNotOpenForAward | ErrBidIDRequired
  | ErrBidNotBelongToRFQ
  | ErrProviderCarrierBindingNotFound | ErrProviderSettlementBindingNotFound
  | ErrProviderSuspended | ErrProviderSettlementBindingRequired
  | ErrProviderSettlementPoolUnavailable
  | ErrProviderSettlementProvisionerMissing
  | ErrBidExceedsBudget
  | ErrInvalidScore | ErrOrderNotCompleted | ErrOrderAlreadyRated
  | ErrOrderNotRated
  (* internal/carrier *)
  | ErrBindingExists | ErrBindingNotFound | ErrJobNotFound
  | ErrInvalidTransition | ErrCarrierStale
  | ErrEventReplay | ErrEventReorder | ErrEventGap
  | ErrInvalidCallbackSignature | ErrExpiredCallback
  | ErrMissingCallbackSecret | ErrMissingCallbackSignature
  | ErrInvalidIntegrationCallbackSignature
  (* internal/usageproof *)
  | ErrMissingProof | ErrInvalidSignature | ErrExpiredProof
  (* internal/integrations, internal/serviceauth *)
  | ErrUnauthorized | ErrInvalidServiceToken
  | ErrIAMNotConfigured | ErrFiberNotConfigured
  (* internal/identity *)
  | ErrIdentityNotFound | ErrIdentityConflict
  | ErrPasswordTooShort | ErrPasswordNeedsLetter | ErrPasswordNeedsDigit
  | ErrEmailEmpty | ErrEmailInvalid
  (* internal/release *)
  | ErrDemoNotReady
  | statusError (StatusCode : Z)
  (* formatted and wrapped errors *)
  | Errf (msg : string)
  | EWrap (e : error) (msg : string)
  | EPrefix (msg : string) (e : error)
  (* not an error value: the goroutine panics *)
  | EPanic (msg : string).

#[export] Instance error_eq_dec : EqDecision error.
Proof. solve_decision. Defined.

(** [errors.Is]: the error or something it wraps is the sentinel. *)
Fixpoint is_error (e target : error) : bool :=
  bool_decide (e = target) ||
  match e with
  | EWrap e' _ | EPrefix _ e' => is_error e' target
  | _ => false
  end.

(** [err.Error()] *)
Fixpoint error_text (e : error) : string :=
  match e with
  | ErrOrderNotFound => "order not found"
  | ErrMilestoneNotFound => "milestone not found"
  | ErrRFQNotFound => "rfq not found"
  | ErrBidNotFound => "bid not found"
  | ErrDisputeNotFound => "dispute not found"
  | ErrMembershipRequired => "membership is required"
  | ErrOrgMismatch => "organization mismatch"
  | ErrMissingRequiredFields => "missing required fields"
  | ErrDeadlineRequired => "response deadline is required"
  | ErrDeadlineInPast => "response deadline must be in the future"
  | ErrMilestonesRequired => "milestones are required"
  | ErrRFQNotOpenForBids => "rfq is not open for bids"
  | ErrRFQNotOpenForAward => "rfq is not open for award"
  | ErrBidIDRequired => "bid id is required"
  | ErrBidNotBelongToRFQ => "bid does not belong to rfq"
  | ErrProviderCarrierBindingNotFound => "provider carrier binding not found"
  | ErrProviderSettlementBindingNotFound => "provider settlement binding not found"
  | ErrProviderSuspended => "provider carrier binding is suspended"
  | ErrProviderSettlementBindingRequired => "provider settlement binding is required"
  | ErrProviderSettlementPoolUnavailable => "provider settlement pool is unavailable"
  | ErrProviderSettlementProvisionerMissing =>
      "provider settlement provisioner is not configured"
  | ErrBidExceedsBudget => "bid milestone totals exceed RFQ budget"
  | ErrInvalidScore => "score must be between 1 and 5"
  | ErrOrderNotCompleted => "only completed orders can be rated"
  | ErrOrderAlreadyRated => "order already rated"
  | ErrOrderNotRated => "order not rated"
  | ErrBindingExists => "carrier already bound to this milestone"
  | ErrBindingNotFound => "carrier binding not found"
  | ErrJobNotFound => "execution job not found"
  | ErrInvalidTransition => "invalid job state transition"
  | ErrCarrierStale => "carrier heartbeat stale"
  | ErrEventReplay => "event already processed (replay)"
  | ErrEventReorder => "event sequence out of order"
  | ErrEventGap => "event sequence gap detected"
  | ErrInvalidCallbackSignature => "invalid callback signature"
  | ErrExpiredCallback => "callback timestamp expired"
  | ErrMissingCallbackSecret => "callback secret not configured"
  | ErrMissingCallbackSignature => "callback signature missing"
  | ErrInvalidIntegrationCallbackSignature => "invalid integration callback signature"
  | ErrMissingProof => "usage proof is required"
  | ErrInvalidSignature => "invalid usage proof signature"
  | ErrExpiredProof => "usage proof has expired"
  | ErrUnauthorized => "iam unauthorized"
  | ErrInvalidServiceToken => "invalid service token"
  | ErrIAMNotConfigured => "iam client is not configured"
  | ErrFiberNotConfigured => "fiber client is not configured"
  | ErrIdentityNotFound => "identity not found"
  | ErrIdentityConflict => "identity conflict"
  | ErrPasswordTooShort => "password must be at least 8 characters"
  | ErrPasswordNeedsLetter => "password must contain at least one letter"
  | ErrPasswordNeedsDigit => "password must contain at least one digit"
  | ErrEmailEmpty => "email is required"
  | ErrEmailInvalid => "invalid email address"
  | ErrDemoNotReady => "demo environment is not ready"
  | statusError code => "unexpected status " +:+ pretty code
  | Errf msg | EPanic msg => msg
  | EWrap e msg => error_text e +:+ ": " +:+ msg
  | EPrefix msg e => msg +:+ ": " +:+ error_text e
  end.

(** ** Results: the pair [(value, error)] a Go function returns *)

Inductive result (A : Type) : Type :=
  | Ok (a : A)
  | Err (e : error).
Arguments Ok {A} a.
Arguments Err {A} e.

#[export] Instance result_eq_dec {A} `{EqDecision A} : EqDecision (result A).
Proof. solve_decision. Defined.

#[export] Instance result_ret : MRet result := @Ok.
#[export] Instance result_bind : MBind result :=
  λ _ _ f r, match r with Ok a => f a | Err e => Err e end.

#[export] Instance result_fmap : FMap result :=
  λ _ _ f r, match r with Ok a => Ok (f a) | Err e => Err e end.

Definition is_ok {A} (r : result A) : bool :=
  match r with Ok _ => true | Err _ => false end.

(** ** The state-and-error monad

    A Go method with a pointer receiver: the state it leaves behind is kept
    whether or not it returns an error, exactly as in the source, where an
    early [return err] does not undo earlier writes. *)

Definition ST (S A : Type) : Type := S → S * result A.

#[export] Instance st_ret {S} : MRet (ST S) := λ _ a s, (s, Ok a).
#[export] Instance st_bind {S} : MBind (ST S) :=
  λ _ _ f m s, match m s with (s', Ok a) => f a s' | (s', Err e) => (s', Err e) end.

Definition throw {S A} (e : error) : ST S A := λ s, (s, Err e).
Definition get_st {S} : ST S S := λ s, (s, Ok s).
Definition modify {S} (f : S → S) : ST S () := λ s, (f s, Ok tt).
Definition lift {S A} (r : result A) : ST S A := λ s, (s, r).
(** [if b { return err }] *)
Definition fail_if {S} (b : bool) (e : error) : ST S () :=
  if b then throw e else mret tt.

(** Run a computation and look at its error instead of returning it:
    [x, err := f()] with [err] inspected by the caller. *)
Definition attempt {S A} (m : ST S A) : ST S (result A) :=
  λ s, let '(s', r) := m s in (s', Ok r).

(** A computation on one field of the state. *)
Definition zoom {S T A} (get : S → T) (set : T → S → S) (m : ST T A) : ST S A :=
  λ s, let '(t', r) := m (get s) in (set t' s, r).
(** A read of one field of the state that may return an error. *)
Definition query {S T A} (get : S → T) (f : T → result A) : ST S A :=
  λ s, (s, f (get s)).

(** [for _, x := range l { ... }] whose body may return an error. *)
Fixpoint for_each {S A} (l : list A) (f : A → ST S ()) : ST S () :=
  match l with
  | [] => mret tt
  | x :: l' => _ ← f x; for_each l' f
  end.

(** ** Lists *)

Lemma list_filter_ext {A} (P Q : A → Prop) `{!∀ x, Decision (P x), !∀ x, Decision (Q x)}
    (l : list A) :
  (∀ x, x ∈ l → P x ↔ Q x) → filter P l = filter Q l.
Proof.
  induction l as [|x l IH]; intros Hext; [done|]. rewrite !filter_cons, IH.
  - apply decide_ext, Hext. by left.
  - intros y Hy. apply Hext. by right.
Qed.

Lemma Forall2_elem_l {A B} (P : A → B → Prop) l k x :
  Forall2 P l k → x ∈ l → ∃ y, y ∈ k ∧ P x y.
Proof.
  intros H [i Hi]%list_elem_of_lookup_1. destruct (Forall2_lookup_l _ _ _ _ _ H Hi) as (y & Hy & ?).
  exists y. split; [by eapply list_elem_of_lookup_2|done].
Qed.

Lemma Forall2_elem_r {A B} (P : A → B → Prop) l k y :
  Forall2 P l k → y ∈ k → ∃ x, x ∈ l ∧ P x y.
Proof.
  intros H [i Hi]%list_elem_of_lookup_1. destruct (Forall2_lookup_r _ _ _ _ _ H Hi) as (x & Hx & ?).
  exists x. split; [by eapply list_elem_of_lookup_2|done].
Qed.

(** ** Iteration over a map *)

(** [for k, v := range m]: Go visits the entries of a map in an order of its
    choice. *)
Class MapOrder := {
  map_order {A : Type} : list (string * A) → list (string * A);
  map_order_perm {A} (l : list (string * A)) : map_order l ≡ₚ l;
}.

(** The order used to evaluate examples. *)
Definition plain_order : MapOrder := {| map_order _ l := l; map_order_perm _ _ := reflexivity _ |}.

(** ** Record update

    [r <| proj := v |>] is Go's [r.proj = v].  A record declares its field
    list once, as an [Eta] instance that rebuilds it from its projections;
    the update function of a projection is then derived by abstracting that
    projection in the rebuilt record. *)

Class Eta (R : Type) := eta : R → R.
Class Update {R T : Type} (proj : R → T) := update : (T → T) → R → R.
Arguments update {R T} proj {_} f r /.

Ltac derive_update :=
  lazymatch goal with
  | |- @Update ?R ?T ?p =>
      let rebuilt := constr:(_ : Eta R) in
      let f := fresh "f" in let r := fresh "r" in
      intros f r;
      let body := eval hnf in (rebuilt r) in
      let abstracted := eval pattern (p r) in body in
      lazymatch abstracted with
      | ?g _ => let t := eval cbv beta in (g (f (p r))) in exact t
      end
  end.
#[export] Hint Extern 1 (@Update _ _ _) => derive_update : typeclass_instances.

#[warnings="-postfix-notation-not-level-1"]
Notation "r <| p := v |>" := (update p (λ _, v) r)
  (at level 12, left associativity, p constr at level 9, v at level 99,
   format "r  <|  p  :=  v  |>") : go_scope.
#[warnings="-postfix-notation-not-level-1"]
Notation "r <| p ::= f |>" := (update p f r)
  (at level 12, left associativity, p constr at level 9, f at level 99,
   format "r  <|  p  ::=  f  |>") : go_scope.

(** Evaluate the comparisons of closed values ([bool_decide] of an equation
    between constructors or literals) in the goal and the hypotheses. *)
Ltac decide_closed :=
  repeat match goal with
  | |- context [bool_decide (?a = ?b)] =>
      let v := eval vm_compute in (bool_decide (a = b)) in
      lazymatch v with true => idtac | false => idtac end;
      change (bool_decide (a = b)) with v
  | H : context [bool_decide (?a = ?b)] |- _ =>
      let v := eval vm_compute in (bool_decide (a = b)) in
      lazymatch v with true => idtac | false => idtac end;
      change (bool_decide (a = b)) with v in H
  end.

(** ** Reasoning about stateful computations *)

(** [m ≫= f] returned a value: so did [m] and its continuation. *)
Lemma bind_Ok {S A B} (m : ST S A) (f : A → ST S B) s s' b :
  (m ≫= f) s = (s', Ok b) → ∃ s1 a, m s = (s1, Ok a) ∧ f a s1 = (s', Ok b).
Proof.
  unfold mbind, st_bind. destruct (m s) as [s1 [a|e]]; [|done]. by exists s1, a.
Qed.

Lemma bind_run {S A B} (m : ST S A) (f : A → ST S B) s s1 x :
  m s = (s1, Ok x) → (m ≫= f) s = f x s1.
Proof. intros Hm. unfold mbind, st_bind. by rewrite Hm. Qed.

Lemma fail_if_Ok {S} b e (s s' : S) r : fail_if b e s = (s', Ok r) → b = false ∧ s' = s.
Proof. destruct b; [done|]. by intros [= ->]. Qed.
Lemma fail_if_true {S} e (s : S) : fail_if true e s = (s, Err e).
Proof. done. Qed.
Lemma attempt_Ok {S A} (m : ST S A) s s' r :
  attempt m s = (s', Ok r) ↔ m s = (s', r).
Proof. unfold attempt. destruct (m s). naive_solver. Qed.

(** A run given by its result, for evaluation: the state is not displayed. *)
Lemma run_result {S A} (m : ST S A) s r : (m s).2 = r → m s = ((m s).1, r).
Proof. intros <-. by destruct (m s). Qed.
Lemma run_at {S A} (m : ST S A) s s' r : s' = (m s).1 → (m s).2 = r → m s = (s', r).
Proof. intros -> <-. by destruct (m s). Qed.

(** Take a successful run apart, one bind at a time: conditions become
    equations, reads become substitutions. *)
Ltac st_inv H :=
  lazymatch type of H with
  | (mbind _ _) _ = (_, Ok _) =>
      let s1 := fresh "s" in let x := fresh "x" in
      let H1 := fresh "Hm" in let H2 := fresh "Hk" in
      apply bind_Ok in H as (s1 & x & H1 & H2); st_inv H1; st_inv H2
  | fail_if _ _ _ = (_, Ok _) =>
      let Hb := fresh "Hguard" in apply fail_if_Ok in H as [Hb ->]
  | get_st _ = (_, Ok _) => injection H as <- <-
  | mret _ _ = (_, Ok _) => injection H as ? ?; subst
  | modify _ _ = (_, Ok _) => injection H as <- <-
  | throw _ _ = (_, Ok _) => discriminate H
  | attempt _ _ = (_, Ok _) => rewrite attempt_Ok in H
  | (match ?x with _ => _ end) _ = (_, Ok _) =>
      let E := fresh "Hcase" in destruct x eqn:E; st_inv H
  | _ => idtac
  end.

(** *** Frames: the relation between the states before and after, whatever the
    result *)

Definition frames {S A} (R : relation S) (m : ST S A) : Prop := ∀ s, R s (m s).1.

Create HintDb frames.

Section frames.
Context {S : Type} (R : relation S) `{!PreOrder R}.

Lemma frames_ret {A} (x : A) : frames R (mret x : ST S A).
Proof. intros s. reflexivity. Qed.
Lemma frames_throw {A} e : frames R (throw e : ST S A).
Proof. intros s. reflexivity. Qed.
Lemma frames_get : frames R (get_st : ST S S).
Proof. intros s. reflexivity. Qed.
Lemma frames_fail_if b e : frames R (fail_if b e : ST S ()).
Proof. destruct b; intros s; reflexivity. Qed.
Lemma frames_query {T A} (get : S → T) (f : T → result A) : frames R (query get f).
Proof. intros s. reflexivity. Qed.
Lemma frames_modify (f : S → S) : (∀ s, R s (f s)) → frames R (modify f).
Proof. intros H s. apply H. Qed.
Lemma frames_bind {A B} (m : ST S A) (f : A → ST S B) :
  frames R m → (∀ x, frames R (f x)) → frames R (m ≫= f).
Proof.
  intros Hm Hf s. unfold mbind, st_bind. specialize (Hm s).
  destruct (m s) as [s1 [a|e]]; [|done]. etransitivity; [exact Hm|apply Hf].
Qed.
Lemma frames_attempt {A} (m : ST S A) : frames R m → frames R (attempt m).
Proof. intros Hm s. unfold attempt. specialize (Hm s). by destruct (m s). Qed.
Lemma frames_for_each {A} (l : list A) f :
  (∀ x, frames R (f x)) → frames R (for_each l f).
Proof.
  intros Hf. induction l as [|x l IH]; cbn; [apply frames_ret|].
  by apply frames_bind.
Qed.
(** From one state: a bind, and a read whose value the rest relies on. *)
Lemma frames_bind_at {A B} (m : ST S A) (f : A → ST S B) s :
  R s (m s).1 → (∀ s' x, m s = (s', Ok x) → R s' (f x s').1) → R s ((m ≫= f) s).1.
Proof.
  intros Hm Hf. unfold mbind, st_bind. destruct (m s) as [s1 [a|e]]; [|done].
  etransitivity; [exact Hm|by apply Hf].
Qed.
Lemma frames_get_bind {A} (f : S → ST S A) :
  (∀ s, R s (f s s).1) → frames R (get_st ≫= f).
Proof. done. Qed.
Lemma frames_result {A} (m : ST S A) s s' r : frames R m → m s = (s', r) → R s s'.
Proof. intros H Hs. specialize (H s). by rewrite Hs in H. Qed.
End frames.

#[export] Hint Resolve frames_ret frames_throw frames_get frames_fail_if
  frames_query frames_bind frames_attempt frames_for_each : frames.
#[export] Hint Extern 0 (PreOrder _) => typeclasses eauto : frames.

(** Prove a frame by following the structure of the computation. *)
Ltac solve_frames :=
  repeat first
    [ match goal with |- ∀ _, _ => intro end
    | assumption
    | apply frames_bind | apply frames_ret | apply frames_throw
    | apply frames_get | apply frames_fail_if | apply frames_query
    | apply frames_attempt | apply frames_for_each
    | solve [eauto with frames]
    | match goal with |- frames _ (match ?x with _ => _ end) => destruct x end ];
  try typeclasses eauto.
