(* ===== verification/GoNum.v ===== *)
(** * Go's numbers: [int64] with wrap-around, [float64], and their formatting

    [int64] (and [int] on the 64-bit targets) values are [Z]s; every arithmetic
    operator of the source is the wrapping operator below, so overflow is part
    of each definition and absent only where a theorem assumes the operands
    are small.  [float64] is IEEE-754 binary64 through the axiom-free
    [SpecFloat] of the standard library. *)

From Stdlib Require Import SpecFloat.
From Stdlib Require Import Morphisms.
From S2P Require Import Prelude.

(** ** Wrapping 64-bit arithmetic *)

Definition max_int64 : Z := 2 ^ 63 - 1.
Definition min_int64 : Z := - 2 ^ 63.

Definition wrap64 (z : Z) : Z := (z + 2 ^ 63) mod 2 ^ 64 - 2 ^ 63.

Definition add64 (a b : Z) : Z := wrap64 (a + b).
Definition sub64 (a b : Z) : Z := wrap64 (a - b).
Definition mul64 (a b : Z) : Z := wrap64 (a * b).
(** Division truncates toward zero; the source never divides by zero. *)
Definition div64 (a b : Z) : Z := wrap64 (Z.quot a b).
Definition neg64 (a : Z) : Z := wrap64 (- a).

Infix "+w" := add64 (at level 50, left associativity) : go_scope.
Infix "-w" := sub64 (at level 50, left associativity) : go_scope.
Infix "*w" := mul64 (at level 40, left associativity) : go_scope.
Infix "/w" := div64 (at level 40, left associativity) : go_scope.

(** Being representable as an [int64]. *)
Definition in64 (z : Z) : Prop := min_int64 ≤ z ≤ max_int64.
#[export] Instance in64_dec z : Decision (in64 z).
Proof. unfold in64. apply _. Defined.

(** [total += x] over a slice, from zero. *)
Definition sum64 (l : list Z) : Z := foldl add64 0 l.
(** The sum over the integers that [sum64] wraps. *)
Fixpoint sumZ (l : list Z) : Z :=
  match l with [] => 0 | x :: l' => x + sumZ l' end.

Lemma wrap64_in64 z : in64 (wrap64 z).
Proof.
  unfold in64, min_int64, max_int64, wrap64.
  pose proof (Z.mod_pos_bound (z + 2 ^ 63) (2 ^ 64) eq_refl). lia.
Qed.

Lemma wrap64_id z : in64 z → wrap64 z = z.
Proof.
  unfold in64, min_int64, max_int64, wrap64. intros.
  rewrite Z.mod_small; lia.
Qed.

(** Congruence modulo [2^64]: the equivalence the wrapping operators respect,
    so that a chain of them is rewritten into one wrapped integer expression. *)
Definition eqm64 (a b : Z) : Prop := a mod 2 ^ 64 = b mod 2 ^ 64.

#[export] Instance eqm64_equiv : Equivalence eqm64.
Proof. unfold eqm64. split; red; congruence. Qed.

#[export] Instance eqm64_add : Proper (eqm64 ==> eqm64 ==> eqm64) Z.add.
Proof.
  intros a a' Ha b b' Hb. unfold eqm64 in *.
  rewrite Z.add_mod, Ha, Hb, <- Z.add_mod by lia. done.
Qed.

#[export] Instance eqm64_sub : Proper (eqm64 ==> eqm64 ==> eqm64) Z.sub.
Proof.
  intros a a' Ha b b' Hb. unfold eqm64 in *.
  rewrite Zminus_mod, Ha, Hb, <- Zminus_mod. done.
Qed.

#[export] Instance eqm64_mul : Proper (eqm64 ==> eqm64 ==> eqm64) Z.mul.
Proof.
  intros a a' Ha b b' Hb. unfold eqm64 in *.
  rewrite Z.mul_mod, Ha, Hb, <- Z.mul_mod by lia. done.
Qed.

Lemma wrap64_eqm z : eqm64 (wrap64 z) z.
Proof.
  unfold eqm64, wrap64. rewrite Zminus_mod_idemp_l.
  f_equal. lia.
Qed.

Lemma eqm64_wrap a b : eqm64 a b ↔ wrap64 a = wrap64 b.
Proof.
  unfold eqm64, wrap64. split; intros H.
  - f_equal. rewrite Z.add_mod, H, <- Z.add_mod by lia. done.
  - pose proof (wrap64_eqm a) as Ha. pose proof (wrap64_eqm b) as Hb.
    unfold eqm64, wrap64 in *. rewrite <- Ha, <- Hb, H. done.
Qed.

(** Two in-range integers that agree modulo [2^64] are equal. *)
Lemma eqm64_inj a b : in64 a → in64 b → eqm64 a b → a = b.
Proof. intros Ha Hb H%eqm64_wrap. by rewrite !wrap64_id in H. Qed.

Lemma wrap64_idemp z : wrap64 (wrap64 z) = wrap64 z.
Proof. apply wrap64_id, wrap64_in64. Qed.

Lemma add64_wrap_l a b : wrap64 a +w b = wrap64 (a + b).
Proof. apply eqm64_wrap. by rewrite wrap64_eqm. Qed.
Lemma add64_wrap_r a b : a +w wrap64 b = wrap64 (a + b).
Proof. apply eqm64_wrap. by rewrite wrap64_eqm. Qed.
Lemma sub64_wrap_l a b : wrap64 a -w b = wrap64 (a - b).
Proof. apply eqm64_wrap. by rewrite wrap64_eqm. Qed.
Lemma sub64_wrap_r a b : a -w wrap64 b = wrap64 (a - b).
Proof. apply eqm64_wrap. by rewrite wrap64_eqm. Qed.

#[export] Hint Rewrite add64_wrap_l add64_wrap_r sub64_wrap_l sub64_wrap_r
  wrap64_idemp : go.

Lemma add64_exact a b : in64 (a + b) → a +w b = a + b.
Proof. apply wrap64_id. Qed.
Lemma sub64_exact a b : in64 (a - b) → a -w b = a - b.
Proof. apply wrap64_id. Qed.
Lemma mul64_exact a b : in64 (a * b) → a *w b = a * b.
Proof. apply wrap64_id. Qed.

#[export] Hint Resolve wrap64_in64 : go.

Lemma in64_small z : - 2 ^ 62 ≤ z ≤ 2 ^ 62 → in64 z.
Proof. unfold in64, min_int64, max_int64. lia. Qed.

(** Remove the wrap-arounds of an expression whose intermediate values [lia]
    can bound, innermost first. *)
Ltac in64_lia := unfold in64, min_int64, max_int64 in *; lia.
Ltac exact64 :=
  unfold add64, sub64, mul64, div64, neg64 in *;
  repeat match goal with
    | |- context [wrap64 ?x] =>
        lazymatch x with context [wrap64 _] => fail | _ => idtac end;
        rewrite (wrap64_id x) by in64_lia
    end;
  try in64_lia.

Lemma foldl_add64 l acc : foldl add64 (wrap64 acc) l = wrap64 (acc + sumZ l).
Proof.
  revert acc. induction l as [|x l IH]; intros acc; cbn.
  - f_equal. lia.
  - rewrite add64_wrap_l, IH. f_equal. lia.
Qed.

Lemma sum64_wrap l : sum64 l = wrap64 (sumZ l).
Proof. unfold sum64. change 0 with (wrap64 0) at 1. by rewrite foldl_add64. Qed.

Lemma sumZ_app l k : sumZ (l ++ k) = sumZ l + sumZ k.
Proof. induction l as [|x l IH]; cbn; lia. Qed.

Lemma sumZ_nonneg l : Forall (λ x, 0 ≤ x) l → 0 ≤ sumZ l.
Proof. induction 1; cbn; lia. Qed.

Lemma sumZ_elem_le l x : Forall (λ x, 0 ≤ x) l → x ∈ l → x ≤ sumZ l.
Proof.
  induction 1 as [|y l Hy Hl IH]; intros Hin; cbn; [by apply not_elem_of_nil in Hin|].
  apply elem_of_cons in Hin as [->|Hin].
  - pose proof (sumZ_nonneg l Hl). lia.
  - specialize (IH Hin). lia.
Qed.

Lemma sumZ_perm l k : l ≡ₚ k → sumZ l = sumZ k.
Proof. induction 1; cbn; lia. Qed.

(** ** [float64] *)

Abbreviation float64 := spec_float.
Definition f64_of_int (z : Z) : float64 := binary_normalize 53 1024 z 0 false.
Definition f64_div : float64 → float64 → float64 := SFdiv 53 1024.
Definition f64_mul : float64 → float64 → float64 := SFmul 53 1024.
Definition f64_sub : float64 → float64 → float64 := SFsub 53 1024.
Definition f64_abs : float64 → float64 := SFabs.
(** Go's [x < y] and [x == y]: false as soon as one side is a NaN. *)
Definition f64_lt (x y : float64) : bool := SFltb x y.
Definition f64_eq (x y : float64) : bool := SFeqb x y.
(** The literal [0.10]: the binary64 nearest to one tenth. *)
Definition f64_tenth : float64 := f64_div (f64_of_int 1) (f64_of_int 10).

(** Rounding the non-negative rational [n / d] to an integer, ties to even. *)
Definition round_half_even (n d : Z) : Z :=
  let q := n / d in
  let r := n mod d in
  match 2 * r ?= d with
  | Lt => q
  | Gt => q + 1
  | Eq => if Z.even q then q else q + 1
  end.

(** The digits of a number below 100, padded: [%02d]. *)
Definition pad2 (z : Z) : string :=
  if z <? 10 then "0" +:+ pretty z else pretty z.

(** [fmt.Sprintf("%.2f", x)]: [strconv] formats the exact value of [x],
    correctly rounded to two decimals. *)
Definition fmt_2f (x : float64) : string :=
  match x with
  | S754_nan => "NaN"
  | S754_infinity s => if s then "-Inf" else "+Inf"
  | S754_zero s => (if s then "-" else "") +:+ "0.00"
  | S754_finite s m e =>
      let hundredths :=
        if e <? 0 then round_half_even (Zpos m * 100) (2 ^ (- e))
        else Zpos m * 2 ^ e * 100 in
      (if s then "-" else "") +:+
      pretty (hundredths / 100) +:+ "." +:+ pad2 (hundredths mod 100)
  end.

Example fmt_2f_third : fmt_2f (f64_div (f64_of_int 1) (f64_of_int 3)) = "0.33".
Proof. reflexivity. Qed.
Example fmt_2f_tenth : fmt_2f f64_tenth = "0.10".
Proof. reflexivity. Qed.
Example f64_tenth_bits : f64_tenth = S754_finite false 7205759403792794 (-56).
Proof. reflexivity. Qed.

(** The comparison on floats that are not NaN is a total preorder, which is
    what sorting by a [float64] key needs. *)
Definition f64_is_nan (x : float64) : bool :=
  match x with S754_nan => true | _ => false end.
