(* ===== verification/GoText.v ===== *)
(** * Text, and the environment: [strings], [strconv], [os.Getenv]

    Go's string functions used by the program, then parsing and cutting, then what the
    packages read from the environment.

    Strings are byte strings.  [TrimSpace] strips the Unicode white space of
    [unicode.IsSpace] in its UTF-8 encodings.  [ToLower], [EqualFold] and
    [Contains] act on ASCII, where they are exact; the program applies them to
    listing titles, tags, tiers and e-mail addresses. *)

From Stdlib Require Import Ascii.
From S2P Require Import Prelude GoNum.

Definition bytes (l : list nat) : string :=
  foldr (λ n s, String (ascii_of_nat n) s) EmptyString l.

(** The encodings of the runes [unicode.IsSpace] accepts. *)
Definition space_encodings : list string :=
  map bytes
    ([[9]; [10]; [11]; [12]; [13]; [32]; [194; 133]; [194; 160]; [225; 154; 128];
      [226; 128; 168]; [226; 128; 169]; [226; 128; 175]; [226; 129; 159];
      [227; 128; 128]]
     ++ map (λ k, [226; 128; 128 + k]) (seq 0 11))%nat.

Fixpoint strip_prefix (p s : string) : option string :=
  match p, s with
  | EmptyString, _ => Some s
  | String a p', String b s' => if Ascii.eqb a b then strip_prefix p' s' else None
  | _, _ => None
  end.

(** Drop one of the encodings from the front, while there is one. *)
Fixpoint trim_front (fuel : nat) (encodings : list string) (s : string) : string :=
  match fuel with
  | O => s
  | S fuel =>
      match omap (λ p, strip_prefix p s) encodings with
      | s' :: _ => trim_front fuel encodings s'
      | [] => s
      end
  end.

(** [strings.TrimSpace]: each step drops a byte at least, so the length is
    fuel enough. *)
Definition TrimSpace (s : string) : string :=
  let s := trim_front (String.length s) space_encodings s in
  String.rev
    (trim_front (String.length s) (map String.rev space_encodings)
       (String.rev s)).

(** [strings.TrimSpace(s) == ""] *)
Definition blank (s : string) : bool := String.eqb (TrimSpace s) "".

(** [strings.ToLower] on ASCII. *)
Definition lower_ascii (a : ascii) : ascii :=
  let n := nat_of_ascii a in
  if (65 <=? n)%nat && (n <=? 90)%nat then ascii_of_nat (n + 32) else a.
Fixpoint ToLower (s : string) : string :=
  match s with
  | EmptyString => EmptyString
  | String a s' => String (lower_ascii a) (ToLower s')
  end.

(** [strings.EqualFold] on ASCII. *)
Definition EqualFold (s t : string) : bool := String.eqb (ToLower s) (ToLower t).

(** [strings.Contains] *)
Fixpoint Contains (s sub : string) : bool :=
  match strip_prefix sub s with
  | Some _ => true
  | None => match s with EmptyString => false | String _ s' => Contains s' sub end
  end.

Example TrimSpace_ex : TrimSpace (" 	a b" +:+ bytes [226; 128; 137; 10]%nat) = "a b".
Proof. reflexivity. Qed.
Example blank_ex : blank (bytes [32; 194; 160]%nat) = true ∧ blank "x" = false.
Proof. split; reflexivity. Qed.
Example Contains_ex : Contains (ToLower "Managed Agent Operations") "agent" = true.
Proof. reflexivity. Qed.

Lemma blank_empty : blank "" = true.
Proof. reflexivity. Qed.

(** ** A string with a visible first byte is not blank *)

Fixpoint has_byte (c : ascii) (s : string) : bool :=
  match s with
  | EmptyString => false
  | String a s' => Ascii.eqb a c || has_byte c s'
  end.

(** The byte occurs in no encoding of white space. *)
Definition visible (c : ascii) : bool :=
  forallb (λ e, negb (has_byte c e)) space_encodings.

Lemma app_cons a s t : String a s +:+ t = String a (s +:+ t).
Proof. done. Qed.
Lemma string_app_assoc (s t u : string) : s +:+ (t +:+ u) = (s +:+ t) +:+ u.
Proof. induction s as [|a s IH]; [done|]. rewrite !app_cons. by rewrite IH. Qed.
Lemma app_empty_r (s : string) : s +:+ "" = s.
Proof. induction s as [|a s IH]; [done|]. by rewrite app_cons, IH. Qed.

Lemma rev_app_app s t u : String.rev_app s (t +:+ u) = String.rev_app s t +:+ u.
Proof. revert t. induction s as [|a s IH]; intros t; [done|]. exact (IH (String a t)). Qed.

Lemma rev_cons c s : String.rev (String c s) = String.rev s +:+ String c "".
Proof. apply (rev_app_app s "" (String c "")). Qed.

Lemma has_byte_app c s t : has_byte c (s +:+ t) = has_byte c s || has_byte c t.
Proof.
  induction s as [|a s IH]; [done|]. rewrite app_cons. cbn. by rewrite IH, orb_assoc.
Qed.

Lemma has_byte_rev c s : has_byte c (String.rev s) = has_byte c s.
Proof.
  induction s as [|a s IH]; [done|].
  rewrite rev_cons, has_byte_app, IH. cbn. rewrite orb_false_r. apply orb_comm.
Qed.

(** A prefix without the byte leaves the byte at the end. *)
Lemma strip_prefix_last c e t s :
  has_byte c e = false → strip_prefix e (t +:+ String c "") = Some s →
  ∃ t', s = t' +:+ String c "".
Proof.
  revert t. induction e as [|a e IH]; intros t He; cbn in *.
  - intros [= <-]. by exists t.
  - apply orb_false_iff in He as [Ha He]. destruct t as [|b t].
    + change ("" +:+ String c "") with (String c ""). cbn. by rewrite Ha.
    + rewrite app_cons. destruct (Ascii.eqb a b); [|done]. by apply IH.
Qed.

Lemma trim_front_last c fuel encodings t :
  forallb (λ e, negb (has_byte c e)) encodings = true →
  ∃ t', trim_front fuel encodings (t +:+ String c "") = t' +:+ String c "".
Proof.
  intros Hv. revert t. induction fuel as [|fuel IH]; intros t; [by exists t|].
  cbn [trim_front].
  destruct (omap _ encodings) as [|s l] eqn:Ho; [by exists t|].
  assert (Hs : s ∈ omap (λ p, strip_prefix p (t +:+ String c "")) encodings)
    by (rewrite Ho; by left).
  apply list_elem_of_omap in Hs as (e & He & Hs).
  apply strip_prefix_last in Hs as [t' ->]; [apply IH|].
  rewrite forallb_forall in Hv. apply negb_true_iff, Hv. by apply list_elem_of_In.
Qed.

Lemma trim_front_visible c fuel encodings s :
  forallb (λ e, negb (has_byte c e) && negb (String.eqb e "")) encodings = true →
  trim_front fuel encodings (String c s) = String c s.
Proof.
  intros Hv. destruct fuel as [|fuel]; [done|]. cbn [trim_front].
  replace (omap (λ p, strip_prefix p (String c s)) encodings) with (@nil string); [done|].
  symmetry. induction encodings as [|e l IH]; [done|]. cbn in *.
  apply andb_true_iff in Hv as [[He Hne]%andb_true_iff Hv].
  rewrite IH by done. destruct e as [|a e]; [done|]. cbn in *.
  apply negb_true_iff, orb_false_iff in He as [-> _]. done.
Qed.

Lemma blank_visible c s : visible c = true → blank (String c s) = false.
Proof.
  intros Hv. unfold blank, TrimSpace.
  rewrite trim_front_visible.
  - rewrite rev_cons. edestruct (trim_front_last c) as [t' ->]; cycle 1.
    + apply String.eqb_neq. intros Hr.
      apply (f_equal (has_byte c)) in Hr.
      rewrite has_byte_rev, has_byte_app in Hr. cbn in Hr.
      rewrite Ascii.eqb_refl, orb_true_r in Hr. done.
    + unfold visible in Hv. rewrite forallb_forall in Hv |- *.
      intros e [e' [<- He']]%in_map_iff. rewrite has_byte_rev. by apply Hv.
  - unfold visible in Hv. rewrite forallb_forall in Hv |- *. intros e He.
    rewrite (Hv e He). clear Hv. revert e He. apply forallb_forall. reflexivity.
Qed.

(** * Parsing and cutting text as Go's [strings] and [strconv] do

    [HasPrefix], [TrimPrefix], [Split] and [SplitN] on one-byte separators,
    [Trim] of one byte, [strconv.ParseUint] and [ParseInt] at 64 bits with their
    clamping on overflow, and [%02d].  The lemmas give the round trips between
    [pretty] (Go's [%d]) and the parsers. *)

(** ** Prefixes, separators *)

(** [strings.HasPrefix], [strings.TrimPrefix] *)
Definition HasPrefix (s prefix : string) : bool :=
  match strip_prefix prefix s with Some _ => true | None => false end.
Definition TrimPrefix (s prefix : string) : string :=
  default s (strip_prefix prefix s).

(** [strings.Cut] at a byte: what precedes its first occurrence, and what
    follows it. *)
Fixpoint cut_at (c : ascii) (s : string) : string * option string :=
  match s with
  | EmptyString => ("", None)
  | String a s' =>
      if Ascii.eqb a c then ("", Some s')
      else let '(before, after) := cut_at c s' in (String a before, after)
  end.

(** [strings.Split] at a byte. *)
Fixpoint Split (c : ascii) (s : string) : list string :=
  match s with
  | EmptyString => [""]
  | String a s' =>
      if Ascii.eqb a c then "" :: Split c s'
      else match Split c s' with
           | part :: parts => String a part :: parts
           | [] => [String a ""]
           end
  end.

(** [strings.Trim] and [strings.TrimRight] with a cutset of one byte. *)
Fixpoint trim_left (c : ascii) (s : string) : string :=
  match s with
  | String a s' => if Ascii.eqb a c then trim_left c s' else s
  | EmptyString => ""
  end.
Definition TrimRight (c : ascii) (s : string) : string :=
  String.rev (trim_left c (String.rev s)).
Definition Trim (c : ascii) (s : string) : string := TrimRight c (trim_left c s).

(** [strings.Join] *)
Fixpoint Join (sep : string) (l : list string) : string :=
  match l with
  | [] => ""
  | [s] => s
  | s :: l' => s +:+ sep +:+ Join sep l'
  end.

(** [s[:n]] within the bounds of [s]. *)
Definition prefix_bytes (n : nat) (s : string) : string := String.substring 0 n s.

(** [strings.ToUpper] on ASCII. *)
Definition upper_ascii (a : ascii) : ascii :=
  let n := nat_of_ascii a in
  if (97 <=? n)%nat && (n <=? 122)%nat then ascii_of_nat (n - 32) else a.
Fixpoint ToUpper (s : string) : string :=
  match s with
  | EmptyString => EmptyString
  | String a s' => String (upper_ascii a) (ToUpper s')
  end.

(** ** [strconv] *)

Definition max_uint64 : Z := 2 ^ 64 - 1.

(** The value of a digit, below 36. *)
Definition digit_of (a : ascii) : option Z :=
  let n := Z.of_nat (nat_of_ascii a) in
  if (48 <=? n) && (n <=? 57) then Some (n - 48)
  else if (97 <=? n) && (n <=? 122) then Some (n - 87)
  else if (65 <=? n) && (n <=? 90) then Some (n - 55)
  else None.

Inductive NumError : Set := ErrSyntax | ErrRange.
#[export] Instance NumError_eq_dec : EqDecision NumError.
Proof. solve_decision. Defined.

(** The loop of [ParseUint]: the value so far, the clamped value on overflow. *)
Fixpoint parse_digits (base n : Z) (s : string) : Z * option NumError :=
  match s with
  | EmptyString => (n, None)
  | String a s' =>
      match digit_of a with
      | Some d =>
          if base <=? d then (0, Some ErrSyntax)
          else if max_uint64 / base + 1 <=? n then (max_uint64, Some ErrRange)
          else if max_uint64 <? n * base + d then (max_uint64, Some ErrRange)
          else parse_digits base (n * base + d) s'
      | None => (0, Some ErrSyntax)
      end
  end.

(** [strconv.ParseUint(s, base, 64)], for a base given by the caller. *)
Definition ParseUint (base : Z) (s : string) : Z * option NumError :=
  match s with
  | EmptyString => (0, Some ErrSyntax)
  | _ => parse_digits base 0 s
  end.

(** The sign of a number and what follows it. *)
Definition split_sign (s : string) : bool * string :=
  match s with
  | String a s' =>
      if Ascii.eqb a "+" then (false, s')
      else if Ascii.eqb a "-" then (true, s')
      else (false, s)
  | EmptyString => (false, s)
  end.

(** [strconv.ParseInt(s, 10, 64)] *)
Definition ParseInt (s : string) : Z * option NumError :=
  match s with
  | EmptyString => (0, Some ErrSyntax)
  | _ =>
      let '(neg, digits) := split_sign s in
      match ParseUint 10 digits with
      | (_, Some ErrSyntax) => (0, Some ErrSyntax)
      | (un, err) =>
          if negb neg && (2 ^ 63 <=? un) then (max_int64, Some ErrRange)
          else if neg && (2 ^ 63 <? un) then (min_int64, Some ErrRange)
          else (if neg then - un else un, err)
      end
  end.

(** [fmt.Sprintf("%02d", z)]: the sign counts in the width. *)
Definition fmt_02d (z : Z) : string :=
  if (0 <=? z) && (z <? 10) then "0" +:+ pretty z else pretty z.

Example ParseInt_ex :
  ParseInt "-42" = (-42, None) ∧ ParseInt "4x" = (0, Some ErrSyntax) ∧
  ParseInt "99999999999999999999" = (max_int64, Some ErrRange).
Proof. repeat split; reflexivity. Qed.
Example Split_ex : Split "/" "v1//x" = ["v1"; ""; "x"].
Proof. reflexivity. Qed.
Example Trim_ex : Trim "/" "//v1/x/" = "v1/x".
Proof. reflexivity. Qed.

(** ** Bytes of a string *)

(** Every byte satisfies the predicate. *)
Fixpoint all_bytes (P : ascii → bool) (s : string) : bool :=
  match s with EmptyString => true | String a s' => P a && all_bytes P s' end.

Definition is_digit (a : ascii) : bool :=
  let n := Z.of_nat (nat_of_ascii a) in (48 <=? n) && (n <=? 57).

Lemma has_byte_all c P s : P c = false → all_bytes P s = true → has_byte c s = false.
Proof.
  intros Hc. induction s as [|a s IH]; [done|]. cbn. intros [Ha Hs]%andb_true_iff.
  rewrite IH, orb_false_r by done. apply Ascii.eqb_neq. intros ->. by rewrite Hc in Ha.
Qed.

Lemma cut_at_app c s t : has_byte c s = false → cut_at c (s +:+ String c t) = (s, Some t).
Proof.
  induction s as [|a s IH]; [intros _|].
  - change ("" +:+ String c t) with (String c t). cbn [cut_at]. by rewrite Ascii.eqb_refl.
  - cbn [has_byte]. intros [Ha Hs]%orb_false_iff. rewrite app_cons. cbn [cut_at].
    by rewrite Ha, IH.
Qed.

Lemma rev_rev s : String.rev (String.rev s) = s.
Proof.
  enough (H : ∀ s t, String.rev (String.rev_app s t) = String.rev_app t s) by apply (H s "").
  clear. intros s. induction s as [|a s IH]; intros t; [done|]. exact (IH (String a t)).
Qed.

Lemma trim_front_first fuel c s : visible c = true →
  trim_front fuel space_encodings (String c s) = String c s ∧
  trim_front fuel (map String.rev space_encodings) (String c s) = String c s.
Proof.
  intros Hv. unfold visible in Hv. rewrite forallb_forall in Hv.
  split; apply trim_front_visible; rewrite forallb_forall; intros e He.
  - rewrite (Hv e He). revert e He. apply forallb_forall. reflexivity.
  - apply andb_true_iff. split.
    + apply in_map_iff in He as (e' & <- & He). rewrite has_byte_rev. by apply Hv.
    + revert e He. apply forallb_forall. reflexivity.
Qed.

(** ** Trimming twice *)

Lemma strip_prefix_app p s s' : strip_prefix p s = Some s' ↔ s = p +:+ s'.
Proof.
  revert s. induction p as [|a p IH]; intros s; cbn [strip_prefix].
  { change ("" +:+ s') with s'. split; [by intros [= ->]|by intros ->]. }
  destruct s as [|b s]; rewrite app_cons; [done|].
  destruct (Ascii.eqb_spec a b) as [->|Hab]; [rewrite IH|]; split; try congruence.
Qed.

(** None of the encodings begins the string. *)
Definition unled (encodings : list string) (s : string) : Prop :=
  ∀ p, p ∈ encodings → strip_prefix p s = None.
Lemma length_app_string (s t : string) :
  String.length (s +:+ t) = (String.length s + String.length t)%nat.
Proof. induction s as [|a s IH]; [done|]. rewrite app_cons. cbn. by rewrite IH. Qed.

Lemma omap_nil {A B} (f : A → option B) l : omap f l = [] → ∀ x, x ∈ l → f x = None.
Proof.
  intros Ho x Hx. destruct (f x) as [y|] eqn:Hf; [|done].
  assert (Hy : y ∈ omap f l) by (apply list_elem_of_omap; eauto).
  rewrite Ho in Hy. by apply not_elem_of_nil in Hy.
Qed.
Lemma omap_none {A B} (f : A → option B) l : (∀ x, x ∈ l → f x = None) → omap f l = [].
Proof.
  induction l as [|x l IH]; intros Hf; [done|]. cbn. rewrite (Hf x) by (by left).
  apply IH. intros y Hy. apply Hf. by right.
Qed.

Lemma trim_front_spec encodings fuel s :
  "" ∉ encodings → (String.length s ≤ fuel)%nat →
  unled encodings (trim_front fuel encodings s) ∧ ∃ p, s = p +:+ trim_front fuel encodings s.
Proof.
  intros Hne. revert s. induction fuel as [|fuel IH]; intros s Hl.
  { destruct s; [|cbn in Hl; lia]. split; [|by exists ""]. intros [|a p] Hp; [done|done]. }
  cbn [trim_front]. destruct (omap _ encodings) as [|s' l] eqn:Ho.
  { split; [intros p; apply (omap_nil _ _ Ho)|by exists ""]. }
  assert (Hs' : s' ∈ omap (λ p, strip_prefix p s) encodings) by (rewrite Ho; by left).
  apply list_elem_of_omap in Hs' as (p & Hp & Hs%strip_prefix_app). subst s.
  rewrite length_app_string in Hl. destruct p as [|a p]; [done|]. cbn [String.length] in Hl.
  destruct (IH s') as [Hu [q Hq]]; [lia|]. split; [done|].
  exists (String a p +:+ q). by rewrite <- string_app_assoc, <- Hq.
Qed.

Lemma trim_front_unled encodings fuel s : unled encodings s → trim_front fuel encodings s = s.
Proof. intros Hu. destruct fuel; [done|]. cbn [trim_front]. by rewrite omap_none. Qed.

Lemma rev_app_string (s t : string) : String.rev (s +:+ t) = String.rev t +:+ String.rev s.
Proof.
  induction s as [|a s IH]; [by rewrite app_empty_r|].
  rewrite app_cons, !rev_cons, IH. by rewrite string_app_assoc.
Qed.

Lemma spaces_not_empty : ("" ∉ space_encodings) ∧ ("" ∉ map String.rev space_encodings).
Proof. split; apply (bool_decide_eq_true_1 (_ ∉ _)); vm_compute; reflexivity. Qed.

Lemma TrimSpace_idem s : TrimSpace (TrimSpace s) = TrimSpace s.
Proof.
  destruct spaces_not_empty as [H1 H2]. unfold TrimSpace at 2 3. unfold TrimSpace.
  destruct (trim_front_spec _ (String.length s) s H1 (le_n _)) as [Hu _].
  set (t := trim_front _ space_encodings s) in *.
  destruct (trim_front_spec _ (String.length t) (String.rev t) H2) as [Hv [q Hq]].
  { rewrite <- (rev_rev t) at 2. clear. generalize (String.rev t) as u. intros u.
    induction u as [|a u IH]; [done|]. rewrite rev_cons, length_app_string. cbn in *. lia. }
  set (u := trim_front _ (map String.rev space_encodings) (String.rev t)) in *.
  rewrite (trim_front_unled space_encodings).
  - by rewrite rev_rev, (trim_front_unled (map String.rev space_encodings)).
  - intros p Hp. destruct (strip_prefix p (String.rev u)) as [w|] eqn:Hw; [|done].
    apply strip_prefix_app in Hw. specialize (Hu p Hp).
    apply (f_equal String.rev) in Hq. rewrite rev_rev, rev_app_string, Hw, <- string_app_assoc in Hq.
    rewrite Hq in Hu. by rewrite (proj2 (strip_prefix_app p _ _) eq_refl) in Hu.
Qed.

(** A string between two visible bytes has no white space to trim. *)
Lemma TrimSpace_visible c s t d :
  String c s = t +:+ String d "" → visible c = true → visible d = true →
  TrimSpace (String c s) = String c s.
Proof.
  intros Heq Hc Hd. unfold TrimSpace.
  rewrite (proj1 (trim_front_first _ _ _ Hc)), Heq.
  assert (Hrev : String.rev (t +:+ String d "") = String d (String.rev t)).
  { rewrite <- (rev_rev t) at 1. by rewrite <- rev_cons, rev_rev. }
  rewrite Hrev, (proj2 (trim_front_first _ _ _ Hd)), <- Hrev. apply rev_rev.
Qed.

Lemma TrimSpace_space s : TrimSpace (" " +:+ s) = TrimSpace s.
Proof.
  unfold TrimSpace.
  assert (H : trim_front (String.length (" " +:+ s)) space_encodings (" " +:+ s) =
              trim_front (String.length s) space_encodings s) by reflexivity.
  by rewrite H.
Qed.

Lemma is_digit_visible a : is_digit a = true → visible a = true.
Proof.
  intros H. rewrite <- (ascii_nat_embedding a). revert H. unfold is_digit.
  set (n := nat_of_ascii a). intros [H1 H2]%andb_true_iff.
  assert (∃ k, n = (48 + k)%nat ∧ (k < 10)%nat) as (k & -> & Hk)
    by (exists (n - 48)%nat; lia).
  do 10 (destruct k as [|k]; [reflexivity|]). lia.
Qed.

(** ** Printing and parsing decimals *)

Lemma pretty_char_digit d : (d < 10)%N →
  digit_of (pretty_N_char d) = Some (Z.of_N d) ∧ is_digit (pretty_N_char d) = true.
Proof.
  intros Hd. rewrite <- (N2Nat.id d) in *. set (k := N.to_nat d) in *.
  assert (Hk : (k < 10)%nat) by lia. clearbody k. clear d Hd.
  do 10 (destruct k as [|k]; [split; reflexivity|]). lia.
Qed.

(** Induction over the digits of a number, the last one first. *)
Lemma pretty_go_ind (P : N → string → Prop) :
  (∀ s, P 0%N s) →
  (∀ x s, (0 < x)%N → P (x `div` 10)%N (String (pretty_N_char (x `mod` 10)) s) → P x s) →
  ∀ x s, P x s.
Proof.
  intros H0 HS x. induction (N.lt_wf_0 x) as [x _ IH]. intros s.
  destruct (decide (x = 0)%N) as [->|Hx]; [apply H0|].
  apply HS; [lia|]. apply IH, N.div_lt; lia.
Qed.

(** The digits [pretty] writes in front of [s] are read as the number. *)
Lemma parse_digits_pretty x s : Z.of_N x ≤ max_uint64 →
  parse_digits 10 0 (pretty_N_go x s) = parse_digits 10 (Z.of_N x) s.
Proof.
  revert x s. apply (pretty_go_ind (λ x s, Z.of_N x ≤ max_uint64 →
    parse_digits 10 0 (pretty_N_go x s) = parse_digits 10 (Z.of_N x) s)).
  - intros s _. by rewrite pretty_N_go_0.
  - intros x s Hx IH Hm. rewrite pretty_N_go_step by done.
    assert (Hmod : (x `mod` 10 < 10)%N) by (apply N.mod_lt; lia).
    pose proof (proj1 (pretty_char_digit _ Hmod)) as Hchar.
    assert (Hdiv : Z.of_N x = Z.of_N (x `div` 10) * 10 + Z.of_N (x `mod` 10))
      by (pose proof (N.div_mod' x 10); lia).
    revert IH Hchar Hmod Hdiv. generalize (x `div` 10)%N, (x `mod` 10)%N.
    intros q r IH Hchar Hr Hdiv. rewrite IH by lia. cbn [parse_digits].
    rewrite Hchar, <- Hdiv.
    assert (Hq : Z.of_N q ≤ max_uint64 / 10) by (apply Z.div_le_lower_bound; lia).
    destruct (Z.leb_spec 10 (Z.of_N r)); [lia|].
    destruct (Z.leb_spec (max_uint64 / 10 + 1) (Z.of_N q)); [lia|].
    destruct (Z.ltb_spec max_uint64 (Z.of_N x)); [lia|done].
Qed.

Lemma pretty_go_digits x s :
  all_bytes is_digit s = true → all_bytes is_digit (pretty_N_go x s) = true.
Proof.
  revert x s. apply (pretty_go_ind (λ x s, all_bytes is_digit s = true →
    all_bytes is_digit (pretty_N_go x s) = true)).
  - intros s. by rewrite pretty_N_go_0.
  - intros x s Hx IH Hs. rewrite pretty_N_go_step by done. apply IH. cbn.
    by rewrite (proj2 (pretty_char_digit _ (N.mod_lt x 10 ltac:(lia)))).
Qed.

Lemma pretty_go_head x s : s ≠ "" → ∃ a t, pretty_N_go x s = String a t.
Proof.
  revert x s. apply (pretty_go_ind (λ x s, s ≠ "" → ∃ a t, pretty_N_go x s = String a t)).
  - intros [|a s] Hs; [done|]. rewrite pretty_N_go_0. eauto.
  - intros x s Hx IH _. rewrite pretty_N_go_step by done. by apply IH.
Qed.

(** The decimal text of a natural number: digits, at least one, read back. *)
Lemma pretty_N_spec x :
  all_bytes is_digit (pretty x) = true ∧
  (∃ a t, pretty x = String a t ∧ is_digit a = true) ∧
  (Z.of_N x ≤ max_uint64 → ParseUint 10 (pretty x) = (Z.of_N x, None)).
Proof.
  assert (H : all_bytes is_digit (pretty x) = true ∧ ∃ a t, pretty x = String a t).
  { unfold pretty, pretty_N. case_decide as Hx; [by eauto|].
    split; [by apply pretty_go_digits|]. rewrite pretty_N_go_step by lia. by apply pretty_go_head. }
  destruct H as [Hd (a & t & Ht)]. split_and!; [done| |].
  - exists a, t. split; [done|]. rewrite Ht in Hd. by apply andb_true_iff in Hd as [? _].
  - intros Hm. unfold ParseUint. rewrite Ht, <- Ht. unfold pretty, pretty_N.
    case_decide as Hx; [by subst|]. by rewrite parse_digits_pretty.
Qed.

Lemma split_sign_digit a s : is_digit a = true → split_sign (String a s) = (false, String a s).
Proof.
  intros H. cbn [split_sign].
  destruct (Ascii.eqb_spec a "+") as [->|_]; [done|].
  by destruct (Ascii.eqb_spec a "-") as [->|_].
Qed.

Lemma pretty_nonneg z : 0 ≤ z → pretty z = pretty (Z.to_N z).
Proof. by destruct z. Qed.
Lemma pretty_neg z : z < 0 → pretty z = String "-" (pretty (Z.to_N (- z))).
Proof. by destruct z. Qed.

(** [ParseInt] reads back what [%d] prints, over the whole of int64. *)
Lemma ParseInt_pretty z : in64 z → ParseInt (pretty z) = (z, None).
Proof.
  intros Hz. unfold ParseInt. destruct (decide (0 ≤ z)) as [H0|H0].
  - rewrite pretty_nonneg by done.
    pose proof (pretty_N_spec (Z.to_N z)) as (_ & (a & t & Ht & Ha) & Hp).
    rewrite Ht, split_sign_digit, <- Ht, Hp by (done || (unfold max_uint64; in64_lia)). cbn [negb andb].
    destruct (Z.leb_spec (2 ^ 63) (Z.of_N (Z.to_N z))); [in64_lia|].
    cbn [andb]. by rewrite Z2N.id.
  - rewrite pretty_neg by lia.
    pose proof (pretty_N_spec (Z.to_N (- z))) as (_ & _ & Hp).
    cbn [split_sign].
    change (Ascii.eqb "-" "+") with false. change (Ascii.eqb "-" "-") with true. cbn iota.
    rewrite Hp by (unfold max_uint64; in64_lia). cbn [negb andb].
    destruct (Z.ltb_spec (2 ^ 63) (Z.of_N (Z.to_N (- z)))); [in64_lia|].
    rewrite Z2N.id by lia. f_equal. lia.
Qed.

#[export] Hint Rewrite ParseInt_pretty using (solve [in64_lia | done]) : go.

(** ** Splitting what was joined *)

Lemma Split_nonempty c s : Split c s ≠ [].
Proof. destruct s as [|a s]; cbn; [done|]. destruct (Ascii.eqb a c); [done|]. by destruct (Split c s). Qed.

Lemma Split_none c s : has_byte c s = false → Split c s = [s].
Proof.
  induction s as [|a s IH]; [done|]. cbn. intros [Ha Hs]%orb_false_iff.
  by rewrite Ha, IH.
Qed.

Lemma Split_app c s t : has_byte c s = false → Split c (s +:+ String c t) = s :: Split c t.
Proof.
  induction s as [|a s IH]; intros H.
  - change ("" +:+ String c t) with (String c t). cbn [Split]. by rewrite Ascii.eqb_refl.
  - cbn [has_byte] in H. apply orb_false_iff in H as [Ha Hs].
    rewrite app_cons. cbn [Split]. by rewrite Ha, IH.
Qed.

Lemma Split_Join c l : l ≠ [] → Forall (λ s, has_byte c s = false) l →
  Split c (Join (String c "") l) = l.
Proof.
  intros Hne Hl. induction Hl as [|s l Hs Hl IH]; [done|].
  destruct l as [|t l]; [by apply Split_none|].
  change (Join (String c "") (s :: t :: l)) with (s +:+ String c (Join (String c "") (t :: l))).
  by rewrite Split_app, IH.
Qed.

(** * Environment variables

    What the packages read from the environment in the same way; [getenv] is
    [os.Getenv].  A value that cannot be read is as good as none. *)

(** [strconv.ParseBool], its errors counted as false. *)
Definition parsed_true (value : string) : bool :=
  existsb (String.eqb value) ["1"; "t"; "T"; "TRUE"; "true"; "True"].

Section environment.
Context (getenv : string → string).
Definition trimmed_env (key : string) : string := TrimSpace (getenv key).
(** [strconv.Atoi] and [strconv.ParseInt] of a value, or the fallback. *)
Definition env_int (key : string) (fallback : Z) : Z :=
  let value := trimmed_env key in
  if String.eqb value "" then fallback
  else match ParseInt value with (parsed, None) => parsed | (_, Some _) => fallback end.
Definition env_bool (key : string) : bool := parsed_true (trimmed_env key).
(** The value, unless it is blank. *)
Definition envOrDefault (key fallback : string) : string :=
  let value := trimmed_env key in if String.eqb value "" then fallback else value.
(** The first value that is not blank, or none. *)
Definition firstNonEmptyEnv (keys : list string) : string :=
  default "" (List.find (λ value, negb (String.eqb value "")) (trimmed_env <$> keys)).
End environment.
