(* ===== verification/GoFloat.v ===== *)
(** * Reading floating-point numbers

    [strconv.ParseFloat(s, 64)]: the binary64 nearest to the decimal or
    hexadecimal number that is written, an error where it overflows; and Go's
    conversion of a float to [int64] on amd64. *)

From Stdlib Require Import Ascii SpecFloat.
From S2P Require Import Prelude GoNum GoText.

(** ** Rounding *)

(** The binary64 nearest to [n * b ^ e], for a base [b]. *)
Definition f64_round (negative : bool) (n : Z) (b e : Z) : float64 :=
  let magnitude :=
    match n with
    | Zpos m =>
        if 0 <=? e then binary_normalize 53 1024 (n * b ^ e) 0 false
        else match b ^ (- e) with
             | Zpos d => f64_div (S754_finite false m 0) (S754_finite false d 0)
             | _ => S754_nan
             end
    | _ => S754_zero false
    end in
  if negative then SFopp magnitude else magnitude.

Definition f64_is_inf (x : float64) : bool :=
  match x with S754_infinity _ => true | _ => false end.

(** ** Scanning *)

(** The digits of a mantissa: their value, how many came after the point, how
    many there were, and the rest. *)
Record mantissa := mkMantissa {
  mt_value : Z;
  mt_point : option Z;
  mt_digits : Z;
  mt_rest : string;
}.

Fixpoint scan_mantissa (base : Z) (value : Z) (point : option Z) (digits : Z) (s : string)
    : mantissa :=
  match s with
  | EmptyString => mkMantissa value point digits s
  | String a s' =>
      if Ascii.eqb a "."
      then match point with
           | None => scan_mantissa base value (Some 0) digits s'
           | Some _ => mkMantissa value point digits s
           end
      else match digit_of a with
           | Some d =>
               if d <? base
               then scan_mantissa base (value * base + d) (Z.succ <$> point) (digits + 1) s'
               else mkMantissa value point digits s
           | None => mkMantissa value point digits s
           end
  end.

(** The digits of an exponent, which stop growing past 10000. *)
Fixpoint scan_exponent (acc : Z) (s : string) : Z * string :=
  match s with
  | String a s' =>
      if is_digit a
      then scan_exponent (if acc <? 10000
                          then acc * 10 + (Z.of_nat (nat_of_ascii a) - 48) else acc) s'
      else (acc, s)
  | EmptyString => (acc, s)
  end.

(** An exponent after its letter: a sign, at least one digit. *)
Definition take_exponent (s : string) : option (Z * string) :=
  let '(negative, s) := split_sign s in
  match s with
  | String a _ =>
      if is_digit a
      then let '(e, rest) := scan_exponent 0 s in Some (if negative then - e else e, rest)
      else None
  | EmptyString => None
  end.

Definition special (s : string) : option float64 :=
  let '(negative, rest) := split_sign s in
  if EqualFold rest "inf" || EqualFold rest "infinity" then Some (S754_infinity negative)
  else if EqualFold s "nan" then Some S754_nan else None.

Definition read_decimal (s : string) : option (Z * Z) :=
  let m := scan_mantissa 10 0 None 0 s in
  if mt_digits m =? 0 then None
  else
    '(e, rest) ← match mt_rest m with
                 | String a rest =>
                     if (Ascii.eqb a "e" || Ascii.eqb a "E")%char then take_exponent rest
                     else Some (0, mt_rest m)
                 | EmptyString => Some (0, "")
                 end;
    if String.eqb rest "" then Some (mt_value m, e - default 0 (mt_point m)) else None.

Definition read_hexadecimal (s : string) : option (Z * Z) :=
  let m := scan_mantissa 16 0 None 0 s in
  if mt_digits m =? 0 then None
  else match mt_rest m with
       | String a rest =>
           if (Ascii.eqb a "p" || Ascii.eqb a "P")%char
           then '(e, rest) ← take_exponent rest;
                if String.eqb rest "" then Some (mt_value m, e - 4 * default 0 (mt_point m))
                else None
           else None
       | EmptyString => None
       end.

(** Underscores: [underscoreOK] wants each between two digits, or between a base
    prefix and a digit; the scanners skip them. *)
Definition underscore : ascii := "_".
Fixpoint underscores_ok (hex after_digit after_underscore : bool) (s : string) : bool :=
  match s with
  | EmptyString => negb after_underscore
  | String a s' =>
      if is_digit a || hex && match digit_of a with Some d => d <? 16 | None => false end
      then underscores_ok hex true false s'
      else if Ascii.eqb a underscore
      then after_digit && underscores_ok hex false true s'
      else negb after_underscore && underscores_ok hex false false s'
  end.
Definition base_prefixed (s : string) : bool :=
  existsb (λ p, HasPrefix (ToLower s) p) ["0b"; "0o"; "0x"].
Definition underscoreOK (s : string) : bool :=
  let s := (split_sign s).2 in
  if base_prefixed s
  then underscores_ok (HasPrefix (ToLower s) "0x") true false
         (String.substring 2 (String.length s) s)
  else underscores_ok false false false s.
Fixpoint drop_byte (c : ascii) (s : string) : string :=
  match s with
  | EmptyString => EmptyString
  | String a s' => if Ascii.eqb a c then drop_byte c s' else String a (drop_byte c s')
  end.

(** The value where there is no error. *)
Definition ParseFloat (s : string) : option float64 :=
  match special s with
  | Some x => Some x
  | None =>
      s ← (if has_byte underscore s
           then if underscoreOK s then Some (drop_byte underscore s) else None
           else Some s);
      let '(negative, digits) := split_sign s in
      x ← (if HasPrefix digits "0x" || HasPrefix digits "0X"
           then '(n, e) ← read_hexadecimal (String.substring 2 (String.length digits) digits);
                Some (f64_round negative n 2 e)
           else '(n, e) ← read_decimal digits; Some (f64_round negative n 10 e));
      if f64_is_inf x then None else Some x
  end.

(** [int64(x)]: truncation; the conversion instruction of amd64 gives the least
    integer where the value does not fit. *)
Definition f64_to_int64 (x : float64) : Z :=
  match x with
  | S754_finite s m e =>
      let magnitude := if 0 <=? e then Zpos m * 2 ^ e else Zpos m / 2 ^ (- e) in
      let z := if s then - magnitude else magnitude in
      if bool_decide (in64 z) then z else min_int64
  | S754_zero _ => 0
  | _ => min_int64
  end.

(** ** Checks *)

Example ParseFloat_tenth : ParseFloat "0.1" = Some f64_tenth.
Proof. vm_compute. reflexivity. Qed.
Example ParseFloat_forms :
  ParseFloat "-1e2" = Some (f64_of_int (-100)) ∧ ParseFloat "0x1p4" = Some (f64_of_int 16) ∧
  ParseFloat ".5e1" = Some (f64_of_int 5) ∧ ParseFloat "1_000" = Some (f64_of_int 1000) ∧ ParseFloat "+Infinity" = Some (S754_infinity false).
Proof. vm_compute. by split_and!. Qed.
Example ParseFloat_errors :
  ParseFloat "" = None ∧ ParseFloat "." = None ∧ ParseFloat "1e" = None ∧
  ParseFloat "1.2.3" = None ∧ ParseFloat "1e400" = None ∧ ParseFloat "1 " = None ∧
  ParseFloat "1__0" = None ∧ ParseFloat "_1" = None.
Proof. vm_compute. by split_and!. Qed.
Example f64_to_int64_ex :
  f64_to_int64 <$> ParseFloat "-1.9" = Some (-1) ∧
  f64_to_int64 <$> ParseFloat "1e30" = Some min_int64.
Proof. vm_compute. by split. Qed.
