(* ===== verification/Core.v ===== *)
(** * The order workflow (internal/core/workflow.go)

    Orders, milestones, usage charges and ledger entries, the four operations
    on an order ([SettleMilestone], [RecordUsageCharge], [OpenDispute],
    [ResolveDispute]) and the credit decision engine.  A method with a pointer
    receiver returns the order it leaves behind next to its result; the
    [*Milestone] that [findMilestone] returns is the index of the milestone in
    the order's slice, so an assignment through it updates the slice. *)

From S2P Require Import Prelude GoNum.

(** [time.Time]: nanoseconds since the zero time, which is thus [0]. *)
Abbreviation Time := Z (only parsing).

(** ** Data *)

Abbreviation FundingMode := string (only parsing).
Definition FundingModePrepaid : FundingMode := "prepaid".
Definition FundingModeCredit : FundingMode := "credit".

Inductive OrderStatus :=
  | OrderStatusDraft | OrderStatusRunning | OrderStatusAwaitingBudget
  | OrderStatusAwaitingPaymentRail | OrderStatusCompleted | OrderStatusFailed.

Inductive MilestoneState :=
  | MilestoneStatePending | MilestoneStateRunning
  | MilestoneStatePaused | MilestoneStateSettled.

Inductive DisputeStatus :=
  | DisputeStatusNone | DisputeStatusOpen
  | DisputeStatusFrozen | DisputeStatusResolved.

Abbreviation UsageChargeKind := string (only parsing).
Definition UsageChargeKindStep : UsageChargeKind := "step".
Definition UsageChargeKindToken : UsageChargeKind := "token".
Definition UsageChargeKindExternalAPI : UsageChargeKind := "external_api".

Inductive LedgerEntryKind :=
  | LedgerEntryKindPlatformExposure | LedgerEntryKindProviderPayout
  | LedgerEntryKindBuyerReimbursement | LedgerEntryKindProviderRecovery.

#[export] Instance OrderStatus_eq_dec : EqDecision OrderStatus.
Proof. solve_decision. Defined.
#[export] Instance MilestoneState_eq_dec : EqDecision MilestoneState.
Proof. solve_decision. Defined.
#[export] Instance DisputeStatus_eq_dec : EqDecision DisputeStatus.
Proof. solve_decision. Defined.
#[export] Instance LedgerEntryKind_eq_dec : EqDecision LedgerEntryKind.
Proof. solve_decision. Defined.

(** The string values of the typed constants. *)
Definition order_status_string (s : OrderStatus) : string :=
  match s with
  | OrderStatusDraft => "draft"
  | OrderStatusRunning => "running"
  | OrderStatusAwaitingBudget => "awaiting_budget"
  | OrderStatusAwaitingPaymentRail => "awaiting_payment_rail"
  | OrderStatusCompleted => "completed"
  | OrderStatusFailed => "failed"
  end.

Definition milestone_state_string (s : MilestoneState) : string :=
  match s with
  | MilestoneStatePending => "pending"
  | MilestoneStateRunning => "running"
  | MilestoneStatePaused => "paused"
  | MilestoneStateSettled => "settled"
  end.

Definition dispute_status_string (s : DisputeStatus) : string :=
  match s with
  | DisputeStatusNone => "none"
  | DisputeStatusOpen => "open"
  | DisputeStatusFrozen => "frozen"
  | DisputeStatusResolved => "resolved"
  end.

Definition ledger_kind_string (k : LedgerEntryKind) : string :=
  match k with
  | LedgerEntryKindPlatformExposure => "platform_exposure"
  | LedgerEntryKindProviderPayout => "provider_payout"
  | LedgerEntryKindBuyerReimbursement => "buyer_reimbursement"
  | LedgerEntryKindProviderRecovery => "provider_recovery"
  end.

Record UsageCharge := mkUsageCharge {
  uc_Kind : UsageChargeKind;
  uc_AmountCents : Z;
  uc_ProofRef : string;
  uc_ProofSignature : string;
  uc_ProofTimestamp : string;
}.

Record Milestone := mkMilestone {
  ms_ID : string;
  ms_Title : string;
  ms_BasePriceCents : Z;
  ms_BudgetCents : Z;
  ms_SettledCents : Z;
  ms_Summary : string;
  ms_State : MilestoneState;
  ms_DisputeStatus : DisputeStatus;
  ms_UsageCharges : list UsageCharge;
  ms_SettledAt : option Time;
  ms_AnomalyFlags : list string;
}.

#[export] Instance eta_Milestone : Eta Milestone := λ m,
  mkMilestone (ms_ID m) (ms_Title m) (ms_BasePriceCents m) (ms_BudgetCents m)
    (ms_SettledCents m) (ms_Summary m) (ms_State m) (ms_DisputeStatus m)
    (ms_UsageCharges m) (ms_SettledAt m) (ms_AnomalyFlags m).

Record Order := mkOrder {
  o_ID : string;
  o_BuyerOrgID : string;
  o_ProviderOrgID : string;
  o_FundingMode : FundingMode;
  o_CreditLineID : string;
  o_PlatformWallet : string;
  o_Status : OrderStatus;
  o_Milestones : list Milestone;
}.

#[export] Instance eta_Order : Eta Order := λ o,
  mkOrder (o_ID o) (o_BuyerOrgID o) (o_ProviderOrgID o) (o_FundingMode o)
    (o_CreditLineID o) (o_PlatformWallet o) (o_Status o) (o_Milestones o).

#[export] Instance UsageCharge_eq_dec : EqDecision UsageCharge.
Proof. solve_decision. Defined.
#[export] Instance Milestone_eq_dec : EqDecision Milestone.
Proof. solve_decision. Defined.
#[export] Instance Order_eq_dec : EqDecision Order.
Proof. solve_decision. Defined.

Record LedgerEntry := mkLedgerEntry {
  le_Kind : LedgerEntryKind;
  le_OrderID : string;
  le_MilestoneID : string;
  le_AmountCents : Z;
  le_CreatedAt : Time;
  le_Metadata : gmap string string;
}.

Record SettleMilestoneInput := mkSettleMilestoneInput {
  smi_MilestoneID : string;
  smi_Summary : string;
  smi_Source : string;
  smi_OccurredAt : Time;
}.

Record RecordUsageChargeInput := mkRecordUsageChargeInput {
  rui_MilestoneID : string;
  rui_Kind : UsageChargeKind;
  rui_AmountCents : Z;
  rui_ProofRef : string;
  rui_ProofSignature : string;
  rui_ProofTimestamp : string;
}.

Record OpenDisputeInput := mkOpenDisputeInput {
  odi_MilestoneID : string;
  odi_Reason : string;
  odi_RefundCents : Z;
}.

(** [core.ResolveDisputeInput] has the milestone's id as its only field. *)
Record CoreResolveDisputeInput := mkCoreResolveDisputeInput {
  crdi_MilestoneID : string;
}.

(** ** Operations *)

(** [(m Milestone) CurrentSpendCents]: base price plus the usage charges,
    accumulated in order with wrap-around. *)
Definition CurrentSpendCents (m : Milestone) : Z :=
  foldl (λ total charge, total +w uc_AmountCents charge)
    (ms_BasePriceCents m) (ms_UsageCharges m).

(** [findMilestone]: the first milestone with the id, as its index. *)
Fixpoint find_index (id : string) (l : list Milestone) : option nat :=
  match l with
  | [] => None
  | m :: l' => if String.eqb (ms_ID m) id then Some O else S <$> find_index id l'
  end.

Definition findMilestone (o : Order) (id : string) : result (nat * Milestone) :=
  match find_index id (o_Milestones o) with
  | Some i =>
      match o_Milestones o !! i with
      | Some m => Ok (i, m)
      | None => Err (EWrap ErrMilestoneNotFound id)
      end
  | None => Err (EWrap ErrMilestoneNotFound id)
  end.

(** An assignment through the [*Milestone] at index [i]. *)
Definition set_milestone (i : nat) (m : Milestone) (o : Order) : Order :=
  o <| o_Milestones ::= <[i := m]> |>.

Definition isLastMilestoneSettled (o : Order) : bool :=
  forallb (λ m, bool_decide (ms_State m = MilestoneStateSettled)) (o_Milestones o).

Definition IsPrepaidCommitted (o : option Order) : bool :=
  match o with
  | None => false
  | Some o =>
      if negb (String.eqb (o_FundingMode o) FundingModePrepaid) then false
      else bool_decide (o_Status o = OrderStatusRunning)
        || bool_decide (o_Status o = OrderStatusAwaitingBudget)
        || bool_decide (o_Status o = OrderStatusAwaitingPaymentRail)
  end.

Definition payable (s : MilestoneState) : bool :=
  bool_decide (s = MilestoneStateRunning) || bool_decide (s = MilestoneStatePaused).

Definition SettleMilestone (o : Order) (input : SettleMilestoneInput)
    : Order * result LedgerEntry :=
  match findMilestone o (smi_MilestoneID input) with
  | Err e => (o, Err e)
  | Ok (i, milestone) =>
      if negb (payable (ms_State milestone)) then
        (o, Err (Errf ("milestone " +:+ ms_ID milestone +:+
          " is not payable from state " +:+
          milestone_state_string (ms_State milestone))))
      else
        let milestone := milestone
          <| ms_State := MilestoneStateSettled |>
          <| ms_Summary := smi_Summary input |>
          <| ms_SettledCents := ms_BasePriceCents milestone |>
          <| ms_SettledAt := Some (smi_OccurredAt input) |> in
        let o := set_milestone i milestone o in
        let o := if isLastMilestoneSettled o
                 then o <| o_Status := OrderStatusCompleted |> else o in
        let entryKind := if String.eqb (o_FundingMode o) FundingModePrepaid
                         then LedgerEntryKindProviderPayout
                         else LedgerEntryKindPlatformExposure in
        (o, Ok (mkLedgerEntry entryKind (o_ID o) (ms_ID milestone)
                  (ms_BasePriceCents milestone) (smi_OccurredAt input)
                  (<["funding_mode" := o_FundingMode o]>
                     {["source" := smi_Source input]})))
  end.

Definition RecordUsageCharge (o : Order) (input : RecordUsageChargeInput)
    : Order * result UsageCharge :=
  match findMilestone o (rui_MilestoneID input) with
  | Err e => (o, Err e)
  | Ok (i, milestone) =>
      if rui_AmountCents input <=? 0 then
        (o, Err (Errf "usage charge amount must be positive"))
      else if negb (payable (ms_State milestone)) then
        (o, Err (Errf ("milestone " +:+ ms_ID milestone +:+
          " does not accept usage from state " +:+
          milestone_state_string (ms_State milestone))))
      else
        let charge := mkUsageCharge (rui_Kind input) (rui_AmountCents input)
          (rui_ProofRef input) (rui_ProofSignature input)
          (rui_ProofTimestamp input) in
        let milestone := milestone <| ms_UsageCharges ::= (λ l, l ++ [charge]) |> in
        if ms_BudgetCents milestone <? CurrentSpendCents milestone then
          (set_milestone i (milestone <| ms_State := MilestoneStatePaused |>)
             (o <| o_Status := OrderStatusAwaitingBudget |>), Ok charge)
        else (set_milestone i milestone o, Ok charge)
  end.

(** [now] is the reading of [time.Now().UTC()] the method takes. *)
Definition OpenDispute (o : Order) (input : OpenDisputeInput) (now : Time)
    : Order * result (LedgerEntry * LedgerEntry) :=
  match findMilestone o (odi_MilestoneID input) with
  | Err e => (o, Err e)
  | Ok (i, milestone) =>
      if negb (bool_decide (ms_State milestone = MilestoneStateSettled)) then
        (o, Err (Errf "only settled milestones can be disputed"))
      else if odi_RefundCents input <=? 0 then
        (o, Err (Errf "refund amount must be positive"))
      else if ms_SettledCents milestone <? odi_RefundCents input then
        (o, Err (Errf ("refund " +:+ pretty (odi_RefundCents input) +:+
          " exceeds settled amount " +:+ pretty (ms_SettledCents milestone))))
      else
        let milestone := milestone
          <| ms_DisputeStatus := DisputeStatusFrozen |>
          <| ms_State := MilestoneStatePaused |> in
        let entry kind := mkLedgerEntry kind (o_ID o) (ms_ID milestone)
          (odi_RefundCents input) now {["reason" := odi_Reason input]} in
        (set_milestone i milestone o,
         Ok (entry LedgerEntryKindBuyerReimbursement,
             entry LedgerEntryKindProviderRecovery))
  end.

Definition ResolveDispute (o : Order) (input : CoreResolveDisputeInput)
    : Order * result () :=
  match findMilestone o (crdi_MilestoneID input) with
  | Err e => (o, Err e)
  | Ok (i, milestone) =>
      if negb (bool_decide (ms_DisputeStatus milestone = DisputeStatusFrozen))
         && negb (bool_decide (ms_DisputeStatus milestone = DisputeStatusOpen)) then
        (o, Err (Errf "only open or frozen disputes can be resolved"))
      else
        (set_milestone i (milestone <| ms_DisputeStatus := DisputeStatusResolved |>) o,
         Ok tt)
  end.

(** ** The credit decision engine *)

Record CreditDecisionEngine := mkCreditDecisionEngine {
  BaseLimitCents : Z;
  MaxLimitCents : Z;
  DisputePenaltyCents : Z;
  FailurePenaltyCents : Z;
  ConsumptionMultiplier : Z;
}.

Record CreditHistory := mkCreditHistory {
  CompletedOrders : Z;
  SuccessfulPayments : Z;
  FailedPayments : Z;
  DisputedOrders : Z;
  LifetimeSpendCents : Z;
}.

Record CreditDecision := mkCreditDecision {
  Approved : bool;
  RecommendedLimitCents : Z;
  Reason : string;
}.

Definition max64 (a b : Z) : Z := if b <? a then a else b.

Definition Decide (e : CreditDecisionEngine) (history : CreditHistory)
    : CreditDecision :=
  if (CompletedOrders history <? 3) || (SuccessfulPayments history <? 3) then
    mkCreditDecision false 0 "insufficient history"
  else
    let limit := BaseLimitCents e +w
      (LifetimeSpendCents history /w max64 (ConsumptionMultiplier e) 1) in
    let limit := limit -w (DisputedOrders history *w DisputePenaltyCents e) in
    let limit := limit -w (FailedPayments history *w FailurePenaltyCents e) in
    if limit <=? 0 then
      mkCreditDecision false 0 "risk signals exceeded threshold"
    else
      let limit := if MaxLimitCents e <? limit then MaxLimitCents e else limit in
      mkCreditDecision true limit "approved by rule engine".

Definition IsValidFundingMode (mode : FundingMode) : bool :=
  String.eqb mode FundingModePrepaid || String.eqb mode FundingModeCredit.

#[global] Arguments set_milestone : simpl never.
#[global] Arguments isLastMilestoneSettled : simpl never.
#[global] Arguments CurrentSpendCents : simpl never.

(** ** Looking milestones up by id *)

(** The milestone an id denotes: the first one carrying it. *)
Definition milestone_of (o : Order) (id : string) : option Milestone :=
  match findMilestone o id with Ok (_, m) => Some m | Err _ => None end.

Lemma find_index_Some id l i :
  find_index id l = Some i →
  (∃ m, l !! i = Some m ∧ ms_ID m = id) ∧
  ∀ j m, (j < i)%nat → l !! j = Some m → ms_ID m ≠ id.
Proof.
  revert i. induction l as [|x l IH]; intros i; [done|]. cbn.
  destruct (String.eqb_spec (ms_ID x) id) as [Hx|Hx].
  - intros [= <-]. split; [by exists x|]. intros; lia.
  - destruct (find_index id l) as [k|] eqn:Hk; [|done]. intros [= <-].
    destruct (IH k eq_refl) as [[m [Hm Hid]] Hfirst]. split; [by exists m|].
    intros [|j] m' Hj; cbn; [by intros [= <-]|]. apply Hfirst. lia.
Qed.

Lemma find_index_None id l :
  find_index id l = None ↔ ∀ m, m ∈ l → ms_ID m ≠ id.
Proof.
  induction l as [|x l IH]; cbn.
  - split; [intros _ m Hm; by apply not_elem_of_nil in Hm|done].
  - destruct (String.eqb_spec (ms_ID x) id) as [Hx|Hx].
    + split; [done|]. intros H. destruct (H x); [constructor|done].
    + destruct (find_index id l) as [k|]; cbn.
      * split; [done|]. intros H. assert (Some k = None) as [=].
        apply IH. intros m Hm. apply H. by constructor.
      * split; [|done]. intros _ m [->|Hm]%elem_of_cons; [done|].
        by apply IH.
Qed.

Lemma findMilestone_Ok o id i m :
  findMilestone o id = Ok (i, m) ↔
  find_index id (o_Milestones o) = Some i ∧ o_Milestones o !! i = Some m.
Proof.
  unfold findMilestone. split.
  - repeat case_match; by intros [= <- <-].
  - intros [-> ->]. done.
Qed.

Lemma findMilestone_Err o id e :
  findMilestone o id = Err e →
  e = EWrap ErrMilestoneNotFound id ∧ milestone_of o id = None.
Proof. unfold milestone_of, findMilestone. repeat case_match; naive_solver. Qed.

Lemma findMilestone_id o id i m :
  findMilestone o id = Ok (i, m) → ms_ID m = id.
Proof.
  rewrite findMilestone_Ok. intros [[[m' [Hm' Hid]] _]%find_index_Some Hm].
  by simplify_eq.
Qed.

Lemma milestone_of_id o id m : milestone_of o id = Some m → ms_ID m = id.
Proof.
  unfold milestone_of. destruct (findMilestone o id) as [[i m']|] eqn:Hf; [|done].
  intros [= ->]. by eapply findMilestone_id.
Qed.

(** Replacing the milestone a lookup found by one with the same id changes
    what that id denotes and nothing else. *)
Lemma find_index_insert id id' l i m m' :
  find_index id l = Some i → l !! i = Some m → ms_ID m' = ms_ID m →
  find_index id' (<[i := m']> l) = find_index id' l.
Proof.
  revert i. induction l as [|x l IH]; intros i; [done|]. cbn.
  destruct (String.eqb_spec (ms_ID x) id).
  - intros [= <-]. cbn. intros [= ->] Heq. by rewrite Heq.
  - destruct (find_index id l) as [k|] eqn:Hk; [|done].
    intros [= <-] Hm Heq.
    change (<[S k := m']> (x :: l)) with (x :: <[k := m']> l).
    cbn [find_index]. by rewrite (IH k).
Qed.

Lemma findMilestone_set o id i m m' :
  findMilestone o id = Ok (i, m) → ms_ID m' = id →
  findMilestone (set_milestone i m' o) id = Ok (i, m').
Proof.
  intros Hf Hid. pose proof (findMilestone_id _ _ _ _ Hf) as Hm.
  apply findMilestone_Ok in Hf as [Hi Hl]. apply findMilestone_Ok. unfold set_milestone; cbn.
  erewrite find_index_insert by (eauto; congruence). split; [done|].
  apply list_lookup_insert_eq. by eapply lookup_lt_Some.
Qed.

Lemma milestone_of_set o id id' i m m' :
  findMilestone o id = Ok (i, m) → ms_ID m' = id →
  milestone_of (set_milestone i m' o) id' =
  if decide (id' = id) then Some m' else milestone_of o id'.
Proof.
  intros Hf Hid. case_decide as Hd; subst.
  - unfold milestone_of. by erewrite findMilestone_set.
  - pose proof (findMilestone_id _ _ _ _ Hf) as Hm.
    apply findMilestone_Ok in Hf as [Hi Hl].
    unfold milestone_of, findMilestone, set_milestone; cbn.
    erewrite find_index_insert by (eauto; congruence).
    destruct (find_index id' (o_Milestones o)) as [k|] eqn:Hk; [|done].
    rewrite list_lookup_insert_ne; [done|]. intros <-.
    apply find_index_Some in Hk as [[mk [Hmk Hidk]] _]. naive_solver.
Qed.

(** The other fields of the order. *)
Definition same_header (o o' : Order) : Prop :=
  o_ID o' = o_ID o ∧ o_BuyerOrgID o' = o_BuyerOrgID o ∧
  o_ProviderOrgID o' = o_ProviderOrgID o ∧ o_FundingMode o' = o_FundingMode o ∧
  o_CreditLineID o' = o_CreditLineID o ∧ o_PlatformWallet o' = o_PlatformWallet o.

#[export] Instance same_header_refl : Reflexive same_header.
Proof. by repeat split. Qed.
#[export] Instance same_header_trans : Transitive same_header.
Proof. unfold same_header. intros x y z; intuition congruence. Qed.

(** [o'] differs from [o] in the milestone [id], which is now [m'], and
    possibly in its status. *)
Definition only_milestone_changed (o o' : Order) (id : string) (m' : Milestone) : Prop :=
  same_header o o' ∧
  (ms_ID <$> o_Milestones o') = (ms_ID <$> o_Milestones o) ∧
  ∀ id', milestone_of o' id' = if decide (id' = id) then Some m' else milestone_of o id'.

Lemma set_milestone_changed o id i m m' :
  findMilestone o id = Ok (i, m) → ms_ID m' = id →
  only_milestone_changed o (set_milestone i m' o) id m'.
Proof.
  intros Hf Hid. split; [done|]. split; [|intros; by eapply milestone_of_set].
  pose proof (findMilestone_id _ _ _ _ Hf) as Hm.
  apply findMilestone_Ok in Hf as [_ Hl]. unfold set_milestone; cbn.
  rewrite list_fmap_insert, list_insert_id; [done|].
  rewrite list_lookup_fmap, Hl. cbn. congruence.
Qed.

Lemma changed_status o o' id m' s :
  only_milestone_changed o o' id m' →
  only_milestone_changed o (o' <| o_Status := s |>) id m'.
Proof. done. Qed.
#[export] Hint Resolve changed_status : go.

Lemma changed_from_status o s o' id m' :
  only_milestone_changed (o <| o_Status := s |>) o' id m' →
  only_milestone_changed o o' id m'.
Proof. done. Qed.

Lemma milestone_of_find o id i m :
  findMilestone o id = Ok (i, m) → milestone_of o id = Some m.
Proof. unfold milestone_of. by intros ->. Qed.

(** Open [findMilestone] in a goal about an operation on an order: one goal
    for the id that denotes nothing, one for the milestone it denotes. *)
Ltac find_milestone o id :=
  let i := fresh "i" in let m := fresh "m" in let e := fresh "e" in
  let Hf := fresh "Hfind" in
  destruct (findMilestone o id) as [[i m]|e] eqn:Hf;
  [ pose proof (findMilestone_id _ _ _ _ Hf);
    rewrite ?(milestone_of_find _ _ _ _ Hf)
  | apply findMilestone_Err in Hf as [-> Hf]; rewrite ?Hf ].

Lemma isLastMilestoneSettled_spec o :
  isLastMilestoneSettled o = true ↔
  Forall (λ m, ms_State m = MilestoneStateSettled) (o_Milestones o).
Proof.
  unfold isLastMilestoneSettled. induction (o_Milestones o) as [|m l IH]; cbn; [done|].
  by rewrite andb_true_iff, bool_decide_eq_true, Forall_cons, IH.
Qed.

(** ** What each operation does, on every branch *)

(** The milestone [SettleMilestone] leaves behind. *)
Definition settled_milestone (m : Milestone) (input : SettleMilestoneInput) : Milestone :=
  m <| ms_State := MilestoneStateSettled |>
    <| ms_Summary := smi_Summary input |>
    <| ms_SettledCents := ms_BasePriceCents m |>
    <| ms_SettledAt := Some (smi_OccurredAt input) |>.

(** The ledger entry for a settled milestone of an order. *)
Definition settlement_entry (o : Order) (m : Milestone) (input : SettleMilestoneInput)
    : LedgerEntry :=
  mkLedgerEntry
    (if String.eqb (o_FundingMode o) FundingModePrepaid
     then LedgerEntryKindProviderPayout else LedgerEntryKindPlatformExposure)
    (o_ID o) (ms_ID m) (ms_BasePriceCents m) (smi_OccurredAt input)
    (<["funding_mode" := o_FundingMode o]> {["source" := smi_Source input]}).

Lemma status_keeps_settled o s :
  isLastMilestoneSettled (o <| o_Status := s |>) = isLastMilestoneSettled o.
Proof. done. Qed.

Lemma SettleMilestone_branches o input :
  let id := smi_MilestoneID input in
  let '(o', r) := SettleMilestone o input in
  match milestone_of o id with
  | None => o' = o ∧ r = Err (EWrap ErrMilestoneNotFound id)
  | Some m =>
      if payable (ms_State m) then
        r = Ok (settlement_entry o m input) ∧
        only_milestone_changed o o' id (settled_milestone m input) ∧
        o_Status o' = (if isLastMilestoneSettled o' then OrderStatusCompleted
                       else o_Status o)
      else o' = o ∧ is_ok r = false
  end.
Proof.
  unfold SettleMilestone. cbn. find_milestone o (smi_MilestoneID input); [|done].
  destruct (payable (ms_State m)); cbn; [|done].
  assert (only_milestone_changed o (set_milestone i (settled_milestone m input) o)
            (smi_MilestoneID input) (settled_milestone m input))
    by (by eapply set_milestone_changed).
  unfold settled_milestone in *. cbn in *.
  destruct (isLastMilestoneSettled _) eqn:Hlast; cbn; (split; [done|]).
  - rewrite <- (status_keeps_settled _ OrderStatusCompleted) in Hlast. cbn in Hlast.
    split; [by apply changed_status|]. by rewrite Hlast.
  - split; [done|]. by rewrite Hlast.
Qed.

(** Appending a charge to a milestone adds its amount to the spend. *)
Definition charged_milestone (m : Milestone) (c : UsageCharge) : Milestone :=
  m <| ms_UsageCharges ::= (λ l, l ++ [c]) |>.

Lemma CurrentSpendCents_charged m c :
  CurrentSpendCents (charged_milestone m c) = CurrentSpendCents m +w uc_AmountCents c.
Proof. unfold CurrentSpendCents. cbn. by rewrite foldl_app. Qed.

Definition input_charge (input : RecordUsageChargeInput) : UsageCharge :=
  mkUsageCharge (rui_Kind input) (rui_AmountCents input) (rui_ProofRef input)
    (rui_ProofSignature input) (rui_ProofTimestamp input).

Lemma RecordUsageCharge_branches o input :
  let id := rui_MilestoneID input in
  let '(o', r) := RecordUsageCharge o input in
  match milestone_of o id with
  | None => o' = o ∧ r = Err (EWrap ErrMilestoneNotFound id)
  | Some m =>
      if (0 <? rui_AmountCents input) && payable (ms_State m) then
        let m' := charged_milestone m (input_charge input) in
        r = Ok (input_charge input) ∧
        if ms_BudgetCents m <? CurrentSpendCents m' then
          only_milestone_changed o o' id (m' <| ms_State := MilestoneStatePaused |>) ∧
          o_Status o' = OrderStatusAwaitingBudget
        else only_milestone_changed o o' id m' ∧ o_Status o' = o_Status o
      else o' = o ∧ is_ok r = false
  end.
Proof.
  unfold RecordUsageCharge. cbn. find_milestone o (rui_MilestoneID input); [|done].
  rewrite (Z.ltb_antisym (rui_AmountCents input)). destruct (rui_AmountCents input <=? 0); [done|]. cbn.
  destruct (payable (ms_State m)); cbn; [|done].
  change (CurrentSpendCents _)
    with (CurrentSpendCents (charged_milestone m (input_charge input))).
  destruct (_ <? _); cbn; (split; [done|]); (split; [|done]).
  - eapply (changed_from_status _ OrderStatusAwaitingBudget), set_milestone_changed; done.
  - by eapply set_milestone_changed.
Qed.

(** The entry a dispute writes for one side. *)
Definition dispute_entry (kind : LedgerEntryKind) (o : Order) (m : Milestone)
    (input : OpenDisputeInput) (now : Time) : LedgerEntry :=
  mkLedgerEntry kind (o_ID o) (ms_ID m) (odi_RefundCents input) now
    {["reason" := odi_Reason input]}.

Definition disputed_milestone (m : Milestone) : Milestone :=
  m <| ms_DisputeStatus := DisputeStatusFrozen |>
    <| ms_State := MilestoneStatePaused |>.

Lemma OpenDispute_branches o input now :
  let id := odi_MilestoneID input in
  let '(o', r) := OpenDispute o input now in
  match milestone_of o id with
  | None => o' = o ∧ r = Err (EWrap ErrMilestoneNotFound id)
  | Some m =>
      if bool_decide (ms_State m = MilestoneStateSettled)
         && (0 <? odi_RefundCents input)
         && (odi_RefundCents input <=? ms_SettledCents m) then
        r = Ok (dispute_entry LedgerEntryKindBuyerReimbursement o m input now,
                dispute_entry LedgerEntryKindProviderRecovery o m input now) ∧
        only_milestone_changed o o' id (disputed_milestone m) ∧
        o_Status o' = o_Status o
      else o' = o ∧ is_ok r = false
  end.
Proof.
  unfold OpenDispute. cbn. find_milestone o (odi_MilestoneID input); [|done].
  rewrite (Z.ltb_antisym (odi_RefundCents input) 0), (Z.leb_antisym (ms_SettledCents m)).
  destruct (bool_decide _); [|done]. cbn.
  destruct (odi_RefundCents input <=? 0); [done|]. cbn.
  destruct (ms_SettledCents m <? odi_RefundCents input); [done|]. cbn.
  split; [done|]. split; [|done]. by eapply set_milestone_changed.
Qed.

Lemma ResolveDispute_branches o input :
  let id := crdi_MilestoneID input in
  let '(o', r) := ResolveDispute o input in
  match milestone_of o id with
  | None => o' = o ∧ r = Err (EWrap ErrMilestoneNotFound id)
  | Some m =>
      if bool_decide (ms_DisputeStatus m = DisputeStatusFrozen)
         || bool_decide (ms_DisputeStatus m = DisputeStatusOpen) then
        r = Ok tt ∧ o_Status o' = o_Status o ∧
        only_milestone_changed o o' id
          (m <| ms_DisputeStatus := DisputeStatusResolved |>)
      else o' = o ∧ is_ok r = false
  end.
Proof.
  unfold ResolveDispute. cbn. find_milestone o (crdi_MilestoneID input); [|done].
  rewrite <- negb_orb. destruct (_ || _); cbn; [|done].
  do 2 (split; [done|]). by eapply set_milestone_changed.
Qed.

(** ** Properties *)

(** C31. The budget wall.  A usage charge is accepted exactly when its amount is
    positive and its milestone is running or paused; it is then appended to
    that milestone alone, and the milestone's spend grows by the amount.  If
    the new spend exceeds the milestone's budget the milestone is paused and
    the order waits for budget; otherwise neither state moves.  A refused
    charge leaves the order as it was. *)
Theorem RecordUsageCharge_budget_wall o input :
  let id := rui_MilestoneID input in
  let '(o', r) := RecordUsageCharge o input in
  match r with
  | Err _ =>
      o' = o ∧
      (0 < rui_AmountCents input → ∀ m, milestone_of o id = Some m →
        ms_State m = MilestoneStatePending ∨ ms_State m = MilestoneStateSettled)
  | Ok charge =>
      ∃ m m', milestone_of o id = Some m ∧
        (ms_State m = MilestoneStateRunning ∨ ms_State m = MilestoneStatePaused) ∧
        0 < uc_AmountCents charge ∧
        only_milestone_changed o o' id m' ∧
        ms_UsageCharges m' = ms_UsageCharges m ++ [charge] ∧
        CurrentSpendCents m' = CurrentSpendCents m +w uc_AmountCents charge ∧
        (ms_BudgetCents m < CurrentSpendCents m' ∧
           ms_State m' = MilestoneStatePaused ∧ o_Status o' = OrderStatusAwaitingBudget
         ∨ CurrentSpendCents m' ≤ ms_BudgetCents m ∧
           ms_State m' = ms_State m ∧ o_Status o' = o_Status o)
  end.
Proof.
  pose proof (RecordUsageCharge_branches o input) as H. cbn in *.
  destruct (RecordUsageCharge o input) as [o' r].
  destruct (milestone_of o (rui_MilestoneID input)) as [m|].
  2:{ destruct H as [-> ->]. naive_solver. }
  unfold payable in H. destruct (Z.ltb_spec 0 (rui_AmountCents input)); cbn in H.
  2:{ destruct H as [-> Hr], r; [done|]. split; [done|lia]. }
  case_match eqn:Hpay.
  2:{ destruct H as [-> Hr], r; [done|]. split; [done|]. intros _ m' [= <-].
      destruct (ms_State m); naive_solver. }
  destruct H as [-> H]. exists m.
  assert (ms_State m = MilestoneStateRunning ∨ ms_State m = MilestoneStatePaused)
    by (destruct (ms_State m); naive_solver).
  pose proof (CurrentSpendCents_charged m (input_charge input)) as Hspend.
  destruct (Z.ltb_spec (ms_BudgetCents m)
    (CurrentSpendCents (charged_milestone m (input_charge input))));
    destruct H as [Hch Hst]; eexists; (split; [done|]); (split; [done|]);
    (split; [done|]); (split; [exact Hch|]); (split; [done|]);
    (split; [exact Hspend|]); [left|right]; done.
Qed.

(** The decision over the integers, without wrap-around. *)
Definition credit_limit_ideal (e : CreditDecisionEngine) (h : CreditHistory) : Z :=
  BaseLimitCents e + LifetimeSpendCents h `quot` Z.max (ConsumptionMultiplier e) 1
  - DisputedOrders h * DisputePenaltyCents e
  - FailedPayments h * FailurePenaltyCents e.

(** Engine parameters and histories far from the ends of [int64]. *)
Definition modest_engine (e : CreditDecisionEngine) : Prop :=
  0 ≤ BaseLimitCents e ≤ 2 ^ 40 ∧ 0 ≤ DisputePenaltyCents e ≤ 2 ^ 40 ∧
  0 ≤ FailurePenaltyCents e ≤ 2 ^ 40.
Definition modest_history (h : CreditHistory) : Prop :=
  0 ≤ DisputedOrders h ≤ 2 ^ 20 ∧ 0 ≤ FailedPayments h ≤ 2 ^ 20 ∧
  0 ≤ LifetimeSpendCents h ≤ 2 ^ 60.

Lemma max64_max a b : max64 a b = Z.max a b.
Proof. unfold max64. destruct (Z.ltb_spec b a); lia. Qed.

Lemma quot_bounds a b : 0 ≤ a → 1 ≤ b → 0 ≤ Z.quot a b ≤ a.
Proof.
  intros. rewrite Z.quot_div_nonneg by lia. split; [apply Z.div_pos; lia|].
  apply Z.div_le_upper_bound; nia.
Qed.

Lemma Decide_limit e h :
  modest_engine e → modest_history h →
  BaseLimitCents e +w (LifetimeSpendCents h /w max64 (ConsumptionMultiplier e) 1)
    -w (DisputedOrders h *w DisputePenaltyCents e)
    -w (FailedPayments h *w FailurePenaltyCents e) = credit_limit_ideal e h.
Proof.
  intros (HB & HD & HF) (HDo & HFp & HL). unfold credit_limit_ideal.
  rewrite max64_max.
  pose proof (quot_bounds (LifetimeSpendCents h) (Z.max (ConsumptionMultiplier e) 1)
    ltac:(lia) ltac:(lia)) as HQ.
  assert (0 ≤ DisputedOrders h * DisputePenaltyCents e ≤ 2 ^ 60) by nia.
  assert (0 ≤ FailedPayments h * FailurePenaltyCents e ≤ 2 ^ 60) by nia.
  exact64.
Qed.

(** The credit engine's decision.  With three completed orders and three
    successful payments, and no quantity near the ends of [int64], a buyer is
    approved exactly when base limit plus weighted spend less the dispute and
    failure penalties is positive, for that amount capped at the engine's
    maximum; every refusal recommends a zero limit. *)
Theorem Decide_exact e h :
  modest_engine e → modest_history h →
  Approved (Decide e h) =
    (3 <=? CompletedOrders h) && (3 <=? SuccessfulPayments h)
      && (0 <? credit_limit_ideal e h) ∧
  RecommendedLimitCents (Decide e h) =
    (if Approved (Decide e h) then Z.min (credit_limit_ideal e h) (MaxLimitCents e)
     else 0).
Proof.
  intros He Hh. unfold Decide. rewrite (Decide_limit e h He Hh).
  rewrite (Z.leb_antisym (CompletedOrders h)), (Z.leb_antisym (SuccessfulPayments h)).
  destruct (CompletedOrders h <? 3), (SuccessfulPayments h <? 3); try done. cbn.
  destruct (Z.leb_spec (credit_limit_ideal e h) 0),
    (Z.ltb_spec 0 (credit_limit_ideal e h)); cbn; try lia.
  split; [done|]. destruct (Z.ltb_spec (MaxLimitCents e) (credit_limit_ideal e h)); cbn; lia.
Qed.

Definition sample_engine : CreditDecisionEngine :=
  mkCreditDecisionEngine 50000 500000 75000 50000 2.
Definition sample_history : CreditHistory := mkCreditHistory 5 4 1 1 300000.

Lemma Decide_exact_witness :
  modest_engine sample_engine ∧ modest_history sample_history ∧
  RecommendedLimitCents (Decide sample_engine sample_history) = 75000.
Proof.
  assert (He : modest_engine sample_engine)
    by (unfold modest_engine; cbn; lia).
  assert (Hh : modest_history sample_history)
    by (unfold modest_history; cbn; lia).
  split; [exact He|]. split; [exact Hh|].
  exact (proj2 (Decide_exact sample_engine sample_history He Hh)).
Defined.

(** A worse record: at least as many disputes and failures, no more spend. *)
Definition worse_history (h h' : CreditHistory) : Prop :=
  CompletedOrders h' ≤ CompletedOrders h ∧
  SuccessfulPayments h' ≤ SuccessfulPayments h ∧
  DisputedOrders h ≤ DisputedOrders h' ∧ FailedPayments h ≤ FailedPayments h' ∧
  LifetimeSpendCents h' ≤ LifetimeSpendCents h.

Lemma credit_limit_ideal_antitone e h h' :
  modest_engine e → modest_history h' → worse_history h h' →
  credit_limit_ideal e h' ≤ credit_limit_ideal e h.
Proof.
  intros (HB & HD & HF) (_ & _ & HL) (_ & _ & H1 & H2 & H3).
  unfold credit_limit_ideal.
  assert (Z.quot (LifetimeSpendCents h') (Z.max (ConsumptionMultiplier e) 1) ≤
          Z.quot (LifetimeSpendCents h) (Z.max (ConsumptionMultiplier e) 1))
    by (apply Z.quot_le_mono; lia).
  nia.
Qed.
