(* ===== verification/GoTime.v ===== *)
(** * Instants and their text

    A [Time] counts nanoseconds from 0001-01-01T00:00:00Z in the proleptic
    Gregorian calendar.  [ParseRFC3339] is [time.Parse(time.RFC3339, _)],
    [ParseJSONTime] what decoding into a [time.Time] does, and [FormatDate] is
    [Format("2006-01-02")]. *)

From Stdlib Require Import Ascii.
From S2P Require Import Prelude GoNum GoText Core.

(** ** The calendar *)

Definition is_leap (y : Z) : bool :=
  (y mod 4 =? 0) && (negb (y mod 100 =? 0) || (y mod 400 =? 0)).

Definition month_lengths (y : Z) : list Z :=
  [31; if is_leap y then 29 else 28; 31; 30; 31; 30; 31; 31; 30; 31; 30; 31].

Definition days_in (y m : Z) : Z := default 0 (month_lengths y !! Z.to_nat (m - 1)).

(** Days from the first day of year 1 to the first day of the year, of the
    month. *)
Definition year_days (y : Z) : Z :=
  let p := y - 1 in 365 * p + p / 4 - p / 100 + p / 400.
Definition month_days (y m : Z) : Z := sumZ (take (Z.to_nat (m - 1)) (month_lengths y)).

Definition civil_days (y m d : Z) : Z := year_days y + month_days y m + (d - 1).

(** The month and day of a day of the year. *)
Fixpoint month_of (lengths : list Z) (m day : Z) : Z * Z :=
  match lengths with
  | [] => (m, day + 1)
  | n :: lengths => if day <? n then (m, day + 1) else month_of lengths (m + 1) (day - n)
  end.

(** The year a day falls in: an estimate from below, then corrected upwards.
    The estimate is off by at most one year. *)
Definition year_of (days : Z) : Z :=
  let y := (days * 400) / 146097 + 1 in
  if days <? year_days y then y - 1
  else if year_days (y + 1) <=? days then y + 1 else y.

Definition civil_of (days : Z) : Z * Z * Z :=
  let y := year_of days in
  let '(m, d) := month_of (month_lengths y) 1 (days - year_days y) in (y, m, d).

(** ** Text *)

Definition second_ns : Z := 1000000000.
Definition day_ns : Z := 86400 * second_ns.

(** The digits of a number, padded to a width. *)
Definition padded (width : nat) (z : Z) : string :=
  let s := pretty z in
  Nat.iter (width - String.length s) (String "0") s.

(** [t.Format("2006-01-02")] for years from 0 to 9999. *)
Definition FormatDate (t : Time) : string :=
  let '(y, m, d) := civil_of (t / day_ns) in
  padded 4 y +:+ "-" +:+ padded 2 m +:+ "-" +:+ padded 2 d.

(** [t.Format(time.RFC3339)] of a time in UTC, for years from 0 to 9999. *)
Definition FormatRFC3339 (t : Time) : string :=
  let clock := t mod day_ns / second_ns in
  FormatDate t +:+ "T" +:+ padded 2 (clock / 3600) +:+ ":" +:+ padded 2 (clock / 60 mod 60)
  +:+ ":" +:+ padded 2 (clock mod 60) +:+ "Z".

(** How a time in UTC is encoded in JSON: [RFC3339Nano], whose fraction has no
    trailing zeros. *)
Definition FormatRFC3339Nano (t : Time) : string :=
  let frac := t mod second_ns in
  if frac =? 0 then FormatRFC3339 t
  else String.substring 0 19 (FormatRFC3339 t) +:+ "." +:+ TrimRight "0" (padded 9 frac) +:+ "Z".

Definition digit (a : ascii) : option Z :=
  let n := Z.of_nat (nat_of_ascii a) - 48 in
  if (0 <=? n) && (n <=? 9) then Some n else None.

(** The first [n] bytes as a decimal number, and the rest. *)
Fixpoint take_digits (n : nat) (acc : Z) (s : string) : option (Z * string) :=
  match n, s with
  | O, _ => Some (acc, s)
  | S n, String a s' => d ← digit a; take_digits n (acc * 10 + d) s'
  | S _, EmptyString => None
  end.

Definition expect (c : ascii) (s : string) : option string :=
  match s with
  | String a s' => if Ascii.eqb a c then Some s' else None
  | EmptyString => None
  end.

(** [15] in a layout takes one digit or two; JSON wants two. *)
Definition take_hour (strict : bool) (s : string) : option (Z * string) :=
  match take_digits 2 0 s with
  | Some r => Some r
  | None => if strict then None else take_digits 1 0 s
  end.

(** A run of digits: their value in nanoseconds when they are a fraction of a
    second, of which the first nine count. *)
Fixpoint fraction (scale acc : Z) (s : string) : Z * string :=
  match s with
  | String a s' =>
      match digit a with
      | Some d => fraction (scale / 10) (acc + d * scale) s'
      | None => (acc, s)
      end
  | EmptyString => (acc, s)
  end.

Definition take_fraction (strict : bool) (s : string) : Z * string :=
  match s with
  | String p (String a _ as rest) =>
      if (Ascii.eqb p "." || negb strict && Ascii.eqb p ",")%char && is_digit a
      then fraction 100000000 0 rest else (0, s)
  | _ => (0, s)
  end.

(** [Z07:00]: the offset in seconds. *)
Definition take_zone (strict : bool) (s : string) : option (Z * string) :=
  match s with
  | String "Z" s' => Some (0, s')
  | String c s' =>
      sign ← (if Ascii.eqb c "+" then Some 1 else if Ascii.eqb c "-" then Some (-1) else None);
      '(hh, s') ← take_digits 2 0 s';
      s' ← expect ":" s';
      '(mm, s') ← take_digits 2 0 s';
      let slack := if strict then 0 else 1 in
      if (23 + slack <? hh) || (59 + slack <? mm) then None else Some (sign * (hh * 60 + mm) * 60, s')
  | EmptyString => None
  end.

Definition parse_time (strict : bool) (s : string) : option Time :=
  '(y, s) ← take_digits 4 0 s;
  s ← expect "-" s;
  '(mo, s) ← take_digits 2 0 s;
  s ← expect "-" s;
  '(d, s) ← take_digits 2 0 s;
  s ← expect "T" s;
  '(h, s) ← take_hour strict s;
  s ← expect ":" s;
  '(mi, s) ← take_digits 2 0 s;
  s ← expect ":" s;
  '(se, s) ← take_digits 2 0 s;
  let '(frac, s) := take_fraction strict s in
  '(zone, s) ← take_zone strict s;
  if negb (String.eqb s "")
     || (mo <? 1) || (12 <? mo) || (d <? 1) || (days_in y mo <? d)
     || (23 <? h) || (59 <? mi) || (59 <? se) then None
  else Some ((civil_days y mo d * 86400 + h * 3600 + mi * 60 + se - zone) * second_ns + frac).

Definition ParseRFC3339 : string → option Time := parse_time false.
(** [Time.UnmarshalJSON] on a string. *)
Definition ParseJSONTime : string → option Time := parse_time true.

(** ** Checks *)

Example epoch_date : FormatDate (62135596800 * second_ns) = "1970-01-01".
Proof. vm_compute. reflexivity. Qed.
Example parse_epoch : ParseRFC3339 "1970-01-01T00:00:00Z" = Some (62135596800 * second_ns).
Proof. vm_compute. reflexivity. Qed.
Example format_parse :
  FormatRFC3339 (default 0 (ParseRFC3339 "2024-02-29T22:30:05.25Z")) = "2024-02-29T22:30:05Z".
Proof. vm_compute. reflexivity. Qed.
Example format_nano :
  FormatRFC3339Nano (default 0 (ParseRFC3339 "2024-02-29T22:30:05.2500Z")) = "2024-02-29T22:30:05.25Z".
Proof. vm_compute. reflexivity. Qed.
Example parse_offset :
  ParseRFC3339 "2024-02-29T23:30:00.25+01:00"
  = (λ t, t + 250000000) <$> ParseRFC3339 "2024-02-29T22:30:00Z".
Proof. vm_compute. reflexivity. Qed.
Example parse_refuses :
  ParseRFC3339 "2023-02-29T00:00:00Z" = None ∧ ParseRFC3339 "2023-02-28T24:00:00Z" = None ∧
  ParseRFC3339 "2023-02-28 00:00:00Z" = None ∧ ParseRFC3339 "2023-02-28T00:00:00" = None.
Proof. vm_compute. by split_and!. Qed.
Example dates_of_four_centuries :
  forallb (λ k, let '(y, m, d) := civil_of (730119 + 137 * Z.of_nat k) in
                (civil_days y m d =? 730119 + 137 * Z.of_nat k) && (1 <=? m) && (m <=? 12)
                && (1 <=? d) && (d <=? days_in y m)) (seq 0 1070) = true.
Proof. vm_compute. reflexivity. Qed.
