(* ===== verification/Milestones.v ===== *)
(** * The default milestone split (internal/platform/milestones.go)

    [DefaultMilestoneSplit] divides a budget into setup, execution and delivery
    milestones; execution takes the remainder, so that rounding loses nothing. *)

From S2P Require Import Prelude GoNum Core.

Record CreateMilestoneInput := mkCreateMilestoneInput {
  cmi_ID : string;
  cmi_Title : string;
  cmi_BasePriceCents : Z;
  cmi_BudgetCents : Z;
}.

#[export] Instance CreateMilestoneInput_eq_dec : EqDecision CreateMilestoneInput.
Proof. solve_decision. Defined.

Definition SmallBudgetThresholdCents : Z := 1000.
Definition SetupPercent : Z := 20.
Definition DeliveryPercent : Z := 20.

Definition percent (part total : Z) : Z :=
  if total =? 0 then 0 else part *w 100 /w total.

(** [fmt.Sprintf("<name> (%d%%)", percent)]. *)
Definition phase_title (name : string) (pct : Z) : string :=
  name +:+ " (" +:+ pretty pct +:+ "%)".

Definition DefaultMilestoneSplit (budgetCents : Z) : list CreateMilestoneInput :=
  if budgetCents <=? 0 then []
  else if budgetCents <? SmallBudgetThresholdCents then
    [mkCreateMilestoneInput "ms_1" "Execution" budgetCents budgetCents]
  else
    let setupCents := budgetCents *w SetupPercent /w 100 in
    let deliveryCents := budgetCents *w DeliveryPercent /w 100 in
    let executionCents := budgetCents -w setupCents -w deliveryCents in
    [ mkCreateMilestoneInput "ms_1"
        (phase_title "Setup" (percent setupCents budgetCents)) setupCents setupCents;
      mkCreateMilestoneInput "ms_2"
        (phase_title "Execution" (percent executionCents budgetCents))
        executionCents executionCents;
      mkCreateMilestoneInput "ms_3"
        (phase_title "Delivery" (percent deliveryCents budgetCents))
        deliveryCents deliveryCents ].

(** ** Properties *)

Definition total_budget (l : list CreateMilestoneInput) : Z :=
  sum64 (cmi_BudgetCents <$> l).

(** The largest budget whose percentages are computed without overflow. *)
Definition max_split_budget : Z := max_int64 / 20.

(** Nothing is lost or created by the split.  For every positive [int64]
    budget, however large, the milestone budgets add up to the budget, the base
    prices equal the budgets, and the ids are distinct. *)
Theorem DefaultMilestoneSplit_conserves budget :
  0 < budget → in64 budget →
  let l := DefaultMilestoneSplit budget in
  total_budget l = budget ∧
  Forall (λ m, cmi_BasePriceCents m = cmi_BudgetCents m) l ∧
  NoDup (cmi_ID <$> l).
Proof.
  intros Hpos Hin. cbn. unfold total_budget. rewrite sum64_wrap.
  unfold DefaultMilestoneSplit.
  destruct (Z.leb_spec budget 0); [lia|].
  destruct (budget <? SmallBudgetThresholdCents); cbn.
  - split; [by rewrite Z.add_0_r, wrap64_id|].
    split; [repeat constructor|apply NoDup_singleton].
  - split.
    + apply eqm64_inj; [apply wrap64_in64|done|].
      unfold sub64. rewrite !wrap64_eqm.
      match goal with |- eqm64 ?a ?b => replace a with b by lia end. done.
    + split; [repeat constructor|]. by apply (bool_decide_unpack _).
Qed.

Lemma DefaultMilestoneSplit_conserves_witness :
  total_budget (DefaultMilestoneSplit max_int64) = max_int64.
Proof. apply (DefaultMilestoneSplit_conserves max_int64); [done|in64_lia]. Defined.

(** The shares.  Below the overflow bound, a budget of at least ten dollars
    gives three milestones of positive budget: setup and delivery get a fifth
    of the budget rounded down, and execution never gets less than three
    fifths. *)
Theorem DefaultMilestoneSplit_shares budget :
  SmallBudgetThresholdCents ≤ budget ≤ max_split_budget →
  ∃ setup execution delivery,
    (cmi_BudgetCents <$> DefaultMilestoneSplit budget) = [setup; execution; delivery] ∧
    setup = budget / 5 ∧ delivery = budget / 5 ∧
    0 < setup ∧ 3 * budget ≤ 5 * execution.
Proof.
  unfold max_split_budget, SmallBudgetThresholdCents. intros Hb.
  assert (Hmax : max_int64 / 20 = 461168601842738790) by done. rewrite Hmax in Hb.
  assert (Hfifth : budget *w 20 /w 100 = budget / 5).
  { assert (Hq : Z.quot (budget * 20) 100 = budget / 5).
    { rewrite Z.quot_div_nonneg by lia. change 100 with (5 * 20).
      by rewrite Z.div_mul_cancel_r by lia. }
    pose proof (Z.div_le_upper_bound budget 5 budget ltac:(lia) ltac:(lia)).
    pose proof (Z.div_pos budget 5 ltac:(lia) ltac:(lia)).
    unfold mul64, div64. rewrite (wrap64_id (budget * 20)) by in64_lia.
    rewrite Hq. apply wrap64_id. in64_lia. }
  pose proof (Z.mul_div_le budget 5 ltac:(lia)).
  pose proof (Z.mul_succ_div_gt budget 5 ltac:(lia)).
  unfold DefaultMilestoneSplit.
  destruct (Z.leb_spec budget 0); [lia|].
  unfold SmallBudgetThresholdCents. destruct (Z.ltb_spec budget 1000); [lia|].
  unfold SetupPercent, DeliveryPercent. cbn. rewrite Hfifth.
  eexists _, _, _. split; [done|]. do 2 (split; [done|]). split; [lia|].
  exact64.
Qed.

Lemma DefaultMilestoneSplit_shares_witness :
  (cmi_BudgetCents <$> DefaultMilestoneSplit 1001) = [200; 601; 200] ∧
  ∃ s e d, (cmi_BudgetCents <$> DefaultMilestoneSplit 1001) = [s; e; d] ∧
    s = 1001 / 5 ∧ d = 1001 / 5 ∧ 0 < s ∧ 3 * 1001 ≤ 5 * e.
Proof. split; [done|]. apply (DefaultMilestoneSplit_shares 1001). split; done. Defined.
