(* ===== verification/Reconcile.v ===== *)
(** * Settlement reconciliation (internal/reconciliation/reconciler.go)

    [Reconcile] compares a milestone's settled amount with its spend, in
    binary64, and flags deviations beyond a threshold. *)

From Stdlib Require Import SpecFloat.
From S2P Require Import Prelude GoNum Core.

Definition DefaultThreshold : float64 := f64_tenth.

Record Result := mkResult {
  CumulativeCents : Z;
  SettledCents : Z;
  DeviationRatio : float64;
  Anomalies : list string;
}.

#[export] Instance eta_Result : Eta Result := λ r,
  mkResult (CumulativeCents r) (SettledCents r) (DeviationRatio r) (Anomalies r).

Definition f64_zero : float64 := S754_zero false.
Definition f64_le (x y : float64) : bool := SFleb x y.

Definition deviation_ratio (settled cumulative : Z) : float64 :=
  let base := f64_of_int cumulative in
  let base := if f64_eq base f64_zero then f64_of_int settled else base in
  f64_div (f64_abs (f64_sub (f64_of_int settled) (f64_of_int cumulative))) base.

Definition Reconcile (milestone : Milestone) (threshold : float64) : Result :=
  let threshold := if f64_le threshold f64_zero then DefaultThreshold else threshold in
  let cumulative := CurrentSpendCents milestone in
  let settled := ms_SettledCents milestone in
  let result := mkResult cumulative settled f64_zero [] in
  if (cumulative =? 0) && (settled =? 0) then result
  else
    let ratio := deviation_ratio settled cumulative in
    let result := result <| DeviationRatio := ratio |> in
    let result :=
      if f64_lt threshold ratio then
        result <| Anomalies ::= (λ l, l ++
          ["settlement_deviation: settled=" +:+ pretty settled +:+
           " cumulative=" +:+ pretty cumulative +:+
           " ratio=" +:+ fmt_2f ratio +:+
           " threshold=" +:+ fmt_2f threshold]) |>
      else result in
    if (cumulative =? 0) && (0 <? settled) then
      result <| Anomalies ::= (λ l, l ++
        ["zero_usage_settlement: settled=" +:+ pretty settled +:+
         " with no usage charges"]) |>
    else result.

(** ** Properties *)

(** A zero of either sign, or a NaN. *)
Definition f64_null (x : float64) : bool :=
  match x with S754_zero _ | S754_nan => true | _ => false end.

Lemma f64_sub_diag x : f64_null (f64_sub x x) = true.
Proof.
  destruct x as [[]|[]| |s m e]; try done.
  unfold f64_sub, SFsub. by rewrite Z.sub_diag.
Qed.

Lemma f64_div_null x y : f64_null x = true → f64_null (f64_div (f64_abs x) y) = true.
Proof. by destruct x, y. Qed.

(** No threshold in use is below a zero ratio. *)
Lemma f64_lt_null t x :
  f64_null x = true →
  f64_lt (if f64_le t f64_zero then DefaultThreshold else t) x = false.
Proof.
  intros Hx. destruct (f64_le t f64_zero) eqn:Hle.
  - by destruct x as [[]| | |].
  - by destruct t as [[]|[]| |[]], x as [[]| | |].
Qed.

Lemma deviation_ratio_diag c : f64_null (deviation_ratio c c) = true.
Proof. apply f64_div_null, f64_sub_diag. Qed.

(** A milestone settled for exactly its spend reconciles without any
    anomaly, at every threshold and for every amount, including those a
    [float64] cannot represent exactly. *)
Theorem Reconcile_exact_settlement m threshold :
  ms_SettledCents m = CurrentSpendCents m →
  Anomalies (Reconcile m threshold) = [].
Proof.
  intros Heq. unfold Reconcile. rewrite Heq.
  destruct (Z.eqb_spec (CurrentSpendCents m) 0) as [->|Hne]; [done|]. cbn.
  by rewrite f64_lt_null by apply deviation_ratio_diag.
Qed.

Definition sample_milestone : Milestone :=
  mkMilestone "ms_1" "Execution" 9007199254740993 9007199254740993
    9007199254740993 "" MilestoneStateSettled DisputeStatusNone [] None [].

Lemma Reconcile_exact_settlement_witness :
  Anomalies (Reconcile sample_milestone f64_zero) = [].
Proof. apply (Reconcile_exact_settlement sample_milestone f64_zero). reflexivity. Defined.

(** A milestone settled at its base price after usage worth a quarter of it is
    flagged under the default threshold; usage worth a tenth of it is not. *)
Example Reconcile_flags :
  Anomalies (Reconcile (mkMilestone "m" "" 400 1000 400 "" MilestoneStateSettled
    DisputeStatusNone [mkUsageCharge "step" 100 "" "" ""] None []) f64_zero) =
  ["settlement_deviation: settled=400 cumulative=500 ratio=0.20 threshold=0.10"].
Proof. vm_compute. reflexivity. Qed.

Example Reconcile_tolerates :
  Anomalies (Reconcile (mkMilestone "m" "" 400 1000 400 "" MilestoneStateSettled
    DisputeStatusNone [mkUsageCharge "step" 40 "" "" ""] None []) f64_zero) = [].
Proof. vm_compute. reflexivity. Qed.
