(* ===== verification/Market.v ===== *)
(** * Marketplace data (internal/platform/app.go and bids.go)

    The records the platform stores and the inputs its operations take.  The
    order-side inputs are aliases of those of [Core]. *)

From S2P Require Import Prelude GoNum Core Milestones.

Record ProviderProfile := mkProviderProfile {
  pp_ID : string;
  pp_Name : string;
  pp_Capabilities : list string;
  pp_ReputationTier : string;
  pp_Rating : float64;
  pp_RatingCount : Z;
}.

#[export] Instance eta_ProviderProfile : Eta ProviderProfile := λ p,
  mkProviderProfile (pp_ID p) (pp_Name p) (pp_Capabilities p)
    (pp_ReputationTier p) (pp_Rating p) (pp_RatingCount p).

Record OrderRating := mkOrderRating {
  or_OrderID : string;
  or_ProviderOrgID : string;
  or_BuyerOrgID : string;
  or_Score : Z;
  or_Comment : string;
  or_CreatedAt : Time;
}.

Record RateOrderInput := mkRateOrderInput {
  roi_Score : Z;
  roi_Comment : string;
}.

Record Listing := mkListing {
  l_ID : string;
  l_ProviderOrgID : string;
  l_Title : string;
  l_Category : string;
  l_BasePriceCents : Z;
  l_Tags : list string;
  l_ExecutionProfileID : string;
}.

Inductive RFQStatus := RFQStatusOpen | RFQStatusAwarded | RFQStatusClosed.
#[export] Instance RFQStatus_eq_dec : EqDecision RFQStatus.
Proof. solve_decision. Defined.

Definition rfq_status_string (s : RFQStatus) : string :=
  match s with
  | RFQStatusOpen => "open"
  | RFQStatusAwarded => "awarded"
  | RFQStatusClosed => "closed"
  end.

Record RFQMilestone := mkRFQMilestone {
  rm_ID : string;
  rm_Title : string;
  rm_BasePriceCents : Z;
  rm_BudgetCents : Z;
}.

Record RFQ := mkRFQ {
  rfq_ID : string;
  rfq_BuyerOrgID : string;
  rfq_Title : string;
  rfq_Category : string;
  rfq_Scope : string;
  rfq_BudgetCents : Z;
  rfq_DefaultMilestones : list RFQMilestone;
  rfq_Status : RFQStatus;
  rfq_AwardedBidID : string;
  rfq_AwardedProviderOrgID : string;
  rfq_OrderID : string;
  rfq_ResponseDeadlineAt : Time;
  rfq_CreatedAt : Time;
  rfq_UpdatedAt : Time;
}.

#[export] Instance eta_RFQ : Eta RFQ := λ r,
  mkRFQ (rfq_ID r) (rfq_BuyerOrgID r) (rfq_Title r) (rfq_Category r)
    (rfq_Scope r) (rfq_BudgetCents r) (rfq_DefaultMilestones r) (rfq_Status r)
    (rfq_AwardedBidID r) (rfq_AwardedProviderOrgID r) (rfq_OrderID r)
    (rfq_ResponseDeadlineAt r) (rfq_CreatedAt r) (rfq_UpdatedAt r).

Record Message := mkMessage {
  msg_ID : string;
  msg_OrderID : string;
  msg_RFQID : string;
  msg_Author : string;
  msg_Body : string;
  msg_CreatedAt : Time;
}.

Record Dispute := mkDispute {
  d_ID : string;
  d_OrderID : string;
  d_MilestoneID : string;
  d_Reason : string;
  d_RefundCents : Z;
  d_Status : DisputeStatus;
  d_Resolution : string;
  d_ResolvedBy : string;
  d_ResolvedAt : option Time;
  d_EvidenceIDs : list string;
  d_CreatedAt : Time;
}.

#[export] Instance eta_Dispute : Eta Dispute := λ d,
  mkDispute (d_ID d) (d_OrderID d) (d_MilestoneID d) (d_Reason d)
    (d_RefundCents d) (d_Status d) (d_Resolution d) (d_ResolvedBy d)
    (d_ResolvedAt d) (d_EvidenceIDs d) (d_CreatedAt d).

Inductive BidStatus := BidStatusOpen | BidStatusAwarded | BidStatusRejected.
#[export] Instance BidStatus_eq_dec : EqDecision BidStatus.
Proof. solve_decision. Defined.

Record BidMilestone := mkBidMilestone {
  bm_ID : string;
  bm_Title : string;
  bm_BasePriceCents : Z;
  bm_BudgetCents : Z;
}.

Record Bid := mkBid {
  b_ID : string;
  b_RFQID : string;
  b_ProviderOrgID : string;
  b_Message : string;
  b_QuoteCents : Z;
  b_Status : BidStatus;
  b_Milestones : list BidMilestone;
  b_ExecutionProfileID : string;
  b_CreatedAt : Time;
  b_UpdatedAt : Time;
}.

#[export] Instance eta_Bid : Eta Bid := λ b,
  mkBid (b_ID b) (b_RFQID b) (b_ProviderOrgID b) (b_Message b) (b_QuoteCents b)
    (b_Status b) (b_Milestones b) (b_ExecutionProfileID b) (b_CreatedAt b)
    (b_UpdatedAt b).

Record CreateOrderInput := mkCreateOrderInput {
  coi_BuyerOrgID : string;
  coi_ProviderOrgID : string;
  coi_Title : string;
  coi_FundingMode : FundingMode;
  coi_CreditLineID : string;
  coi_Milestones : list CreateMilestoneInput;
}.

Record CreateRFQInput := mkCreateRFQInput {
  cri_BuyerOrgID : string;
  cri_Title : string;
  cri_Category : string;
  cri_Scope : string;
  cri_BudgetCents : Z;
  cri_Milestones : list CreateMilestoneInput;
  cri_ResponseDeadlineAt : Time;
}.

Record ResolveDisputeInput := mkResolveDisputeInput {
  rdi_Resolution : string;
  rdi_ResolvedBy : string;
}.

Record OrderListFilter := mkOrderListFilter {
  olf_BuyerOrgID : string;
  olf_FundingMode : FundingMode;
  olf_Statuses : list OrderStatus;
}.

Record BidMilestoneInput := mkBidMilestoneInput {
  bmi_ID : string;
  bmi_Title : string;
  bmi_BasePriceCents : Z;
  bmi_BudgetCents : Z;
}.

Record CreateBidInput := mkCreateBidInput {
  cbi_ProviderOrgID : string;
  cbi_Message : string;
  cbi_QuoteCents : Z;
  cbi_Milestones : list BidMilestoneInput;
  cbi_ExecutionProfileID : string;
}.

Record AwardRFQInput := mkAwardRFQInput {
  ari_BidID : string;
  ari_FundingMode : FundingMode;
  ari_CreditLineID : string;
}.

Record TopUpInput := mkTopUpInput {
  tui_MilestoneID : string;
  tui_AdditionalCents : Z;
}.
