(* ===== verification/Repo.v ===== *)
(** * Repository interfaces (internal/platform/app.go)

    The platform reaches its data through seven repository interfaces.  [Storage]
    is the bundle of implementations an [App] is built over; [KeyedStore] is the
    contract its operations rely on, which the in-memory implementation of
    [MemoryRepo] meets and which allows every operation to fail, as the Postgres
    one does. *)

From S2P Require Import Prelude GoNum Core Market.

Class Storage := {
  (* OrderRepository *)
  orders_t : Type;
  order_NextID : ST orders_t string;
  order_Save : Order → ST orders_t ();
  order_Get : string → orders_t → result Order;
  order_List : orders_t → result (list Order);
  order_ListByFilter : OrderListFilter → orders_t → result (list Order);
  (* ProviderRepository *)
  providers_t : Type;
  provider_List : providers_t → result (list ProviderProfile);
  provider_Get : string → providers_t → result ProviderProfile;
  (* ListingRepository *)
  listings_t : Type;
  listing_List : listings_t → result (list Listing);
  listing_Get : string → listings_t → result Listing;
  (* RFQRepository *)
  rfqs_t : Type;
  rfq_NextID : ST rfqs_t string;
  rfq_Get : string → rfqs_t → result RFQ;
  rfq_Save : RFQ → ST rfqs_t ();
  rfq_List : rfqs_t → result (list RFQ);
  (* BidRepository *)
  bids_t : Type;
  bid_NextID : ST bids_t string;
  bid_Get : string → bids_t → result Bid;
  bid_Save : Bid → ST bids_t ();
  bid_ListByRFQ : string → bids_t → result (list Bid);
  (* MessageRepository *)
  messages_t : Type;
  message_NextID : ST messages_t string;
  message_Save : Message → ST messages_t ();
  message_ListByRFQ : string → messages_t → result (list Message);
  message_ListByOrder : string → messages_t → result (list Message);
  (* DisputeRepository *)
  disputes_t : Type;
  dispute_NextID : ST disputes_t string;
  dispute_Get : string → disputes_t → result Dispute;
  dispute_Save : Dispute → ST disputes_t ();
  dispute_List : disputes_t → result (list Dispute);
}.

(** ** The contract of a keyed repository

    [issued s id]: the repository has handed [id] out.  [valid s]: what it
    holds was saved under issued ids.  A save that succeeds is read back under
    its own id and touches no other; one that fails changes nothing visible. *)
Class KeyedStore {S V : Type} (id_of : V → string)
    (NextID : ST S string) (Save : V → ST S ()) (Get : string → S → result V) := {
  valid : S → Prop;
  issued : S → string → Prop;

  get_id s id v : valid s → Get id s = Ok v → id_of v = id;
  get_issued s id v : valid s → Get id s = Ok v → issued s id;

  next_valid s s' r : valid s → NextID s = (s', r) → valid s';
  next_get s s' r id : NextID s = (s', r) → Get id s' = Get id s;
  next_issued s s' r id : NextID s = (s', r) → issued s id → issued s' id;
  next_fresh s s' id :
    valid s → NextID s = (s', Ok id) → issued s' id ∧ ¬ issued s id;

  save_valid v s s' r :
    valid s → issued s (id_of v) → Save v s = (s', r) → valid s';
  save_issued v s s' r id : Save v s = (s', r) → issued s' id ↔ issued s id;
  save_get v s s' :
    valid s → Save v s = (s', Ok tt) → Get (id_of v) s' = Ok v;
  save_get_ne v s s' r id :
    Save v s = (s', r) → id ≠ id_of v → Get id s' = Get id s;
  save_err v s s' e : Save v s = (s', Err e) → ∀ id, Get id s' = Get id s;
}.

(** A listing shows exactly the stored records that satisfy the filter, each
    once. *)
Definition lists {S V : Type} (id_of : V → string) (Get : string → S → result V)
    (P : V → Prop) (s : S) (l : list V) : Prop :=
  NoDup (id_of <$> l) ∧ ∀ v, v ∈ l ↔ Get (id_of v) s = Ok v ∧ P v.

(** The orders a filter lets through. *)
Definition order_matches (filter : OrderListFilter) (order : Order) : bool :=
  (String.eqb (olf_BuyerOrgID filter) ""
     || String.eqb (o_BuyerOrgID order) (olf_BuyerOrgID filter)) &&
  (String.eqb (olf_FundingMode filter) ""
     || String.eqb (o_FundingMode order) (olf_FundingMode filter)) &&
  match olf_Statuses filter with
  | [] => true
  | statuses => existsb (λ s, bool_decide (o_Status order = s)) statuses
  end.

Class StorageLaws `{Storage} := {
  order_store :: KeyedStore o_ID order_NextID order_Save order_Get;
  rfq_store :: KeyedStore rfq_ID rfq_NextID rfq_Save rfq_Get;
  bid_store :: KeyedStore b_ID bid_NextID bid_Save bid_Get;
  dispute_store :: KeyedStore d_ID dispute_NextID dispute_Save dispute_Get;

  order_List_spec s l :
    valid s → order_List s = Ok l → lists o_ID order_Get (λ _, True) s l;
  order_ListByFilter_spec f s l :
    valid s → order_ListByFilter f s = Ok l →
    lists o_ID order_Get (λ o, order_matches f o = true) s l;
  rfq_List_spec s l :
    valid s → rfq_List s = Ok l → lists rfq_ID rfq_Get (λ _, True) s l;
  bid_ListByRFQ_spec id s l :
    valid s → bid_ListByRFQ id s = Ok l →
    lists b_ID bid_Get (λ b, b_RFQID b = id) s l;
  dispute_List_spec s l :
    valid s → dispute_List s = Ok l → lists d_ID dispute_Get (λ _, True) s l;
}.

Section keyed.
Context {S V : Type} {id_of : V → string} {NextID : ST S string}
  {Save : V → ST S ()} {Get : string → S → result V}
  {K : KeyedStore id_of NextID Save Get}.

(** A fresh id reads as an error. *)
Lemma next_absent s s' id :
  valid s → NextID s = (s', Ok id) → is_ok (Get id s') = false.
Proof.
  intros Hv Hn. rewrite (next_get _ _ _ _ Hn).
  destruct (Get id s) as [v|e] eqn:Hg; [|done].
  destruct (next_fresh _ _ _ Hv Hn) as [_ []]. by eapply get_issued.
Qed.

Lemma save_same v s s' id v' :
  valid s → Save v s = (s', Ok tt) → Get id s' = Ok v' →
  (id = id_of v ∧ v' = v) ∨ (id ≠ id_of v ∧ Get id s = Ok v').
Proof.
  intros Hv Hs Hg. destruct (decide (id = id_of v)) as [->|Hne].
  - left. rewrite (save_get _ _ _ Hv Hs) in Hg. by simplify_eq.
  - right. by rewrite <- (save_get_ne _ _ _ _ _ Hs Hne).
Qed.
End keyed.
