(* ===== verification/MemoryRepo.v ===== *)
(** * The in-memory repositories (internal/platform/app.go)

    [memoryOrderRepository] keeps a Go map, the others a slice searched by id.
    Each method runs under the repository's own mutex, so each is one atomic
    step.  Cloning on the way in and out is the identity on values.  [seq]
    counters are unbounded: they advance by one per call, so the [int] they are
    in the source would need 2^63 calls to wrap.  The instance at the end shows
    that these repositories meet the contract of [Repo]. *)

From S2P Require Import Prelude GoNum Core Market Repo.

(** ** Ordering by id *)

Definition compareStrings (a b : string) : Z :=
  if String.ltb a b then -1 else if String.ltb b a then 1 else 0.

(** [slices.SortFunc] by [compareStrings] on the ids.  The ids of a listing are
    distinct, so every correct sort gives the same list. *)
Definition by_id {V} (id_of : V → string) (a b : V) : Prop :=
  compareStrings (id_of a) (id_of b) ≤ 0.
#[export] Instance by_id_dec {V} (id_of : V → string) a b : Decision (by_id id_of a b).
Proof. unfold by_id. apply _. Defined.
Definition sort_by_id {V} (id_of : V → string) (l : list V) : list V :=
  merge_sort (by_id id_of) l.

(** ** Orders: a map *)

Record memoryOrderRepository := mkMemoryOrders {
  mo_seq : Z;
  mo_data : gmap string Order;
}.

Definition mem_order_NextID : ST memoryOrderRepository string := λ r,
  let seq := mo_seq r + 1 in
  (mkMemoryOrders seq (mo_data r), Ok ("ord_" +:+ pretty seq)).

Definition mem_order_Save (order : Order) : ST memoryOrderRepository () := λ r,
  (mkMemoryOrders (mo_seq r) (<[o_ID order := order]> (mo_data r)), Ok tt).

Definition mem_order_Get (id : string) (r : memoryOrderRepository) : result Order :=
  match mo_data r !! id with
  | Some order => Ok order
  | None => Err ErrOrderNotFound
  end.

(** [for _, order := range r.data]: the map's values; the sort makes the
    result independent of the iteration order. *)
Definition mem_order_List (r : memoryOrderRepository) : result (list Order) :=
  Ok (sort_by_id o_ID (snd <$> map_to_list (mo_data r))).

Definition mem_order_ListByFilter (filter : OrderListFilter)
    (r : memoryOrderRepository) : result (list Order) :=
  Ok (sort_by_id o_ID
        (List.filter (order_matches filter) (snd <$> map_to_list (mo_data r)))).

(** ** RFQs, bids, disputes: a slice searched by id *)

Section slice_repo.
Context {V : Type} (id_of : V → string) (prefix : string) (not_found : error).

Record sliceRepository := mkSlice { sl_seq : Z; sl_data : list V }.

Definition slice_NextID : ST sliceRepository string := λ r,
  let seq := sl_seq r + 1 in
  (mkSlice seq (sl_data r), Ok (prefix +:+ pretty seq)).

Definition slice_Get (id : string) (r : sliceRepository) : result V :=
  match List.find (λ v, String.eqb (id_of v) id) (sl_data r) with
  | Some v => Ok v
  | None => Err not_found
  end.

(** Replace the first element with the id, or append. *)
Fixpoint slice_put (v : V) (l : list V) : list V :=
  match l with
  | [] => [v]
  | x :: l' => if String.eqb (id_of x) (id_of v) then v :: l' else x :: slice_put v l'
  end.

Definition slice_Save (v : V) : ST sliceRepository () := λ r,
  (mkSlice (sl_seq r) (slice_put v (sl_data r)), Ok tt).

Definition slice_issued (r : sliceRepository) (id : string) : Prop :=
  ∃ k, 1 ≤ k ≤ sl_seq r ∧ id = prefix +:+ pretty k.

Definition slice_valid (r : sliceRepository) : Prop :=
  0 ≤ sl_seq r ∧ NoDup (id_of <$> sl_data r) ∧
  ∀ v, v ∈ sl_data r → slice_issued r (id_of v).

Lemma slice_Get_Ok id r v :
  slice_Get id r = Ok v → v ∈ sl_data r ∧ id_of v = id.
Proof.
  unfold slice_Get. destruct (List.find _ _) as [x|] eqn:Hf; [|done].
  intros [= ->]. apply List.find_some in Hf as [Hin Hid].
  split; [by apply list_elem_of_In|]. by apply String.eqb_eq.
Qed.

Lemma slice_Get_elem r v :
  NoDup (id_of <$> sl_data r) → v ∈ sl_data r → slice_Get (id_of v) r = Ok v.
Proof.
  unfold slice_Get. induction (sl_data r) as [|x l IH]; cbn.
  - intros _ H. by apply not_elem_of_nil in H.
  - intros [Hx Hl]%NoDup_cons [->|Hin]%elem_of_cons.
    + by rewrite String.eqb_refl.
    + destruct (String.eqb_spec (id_of x) (id_of v)) as [He|He]; [|by apply IH].
      destruct Hx. rewrite He. by apply list_elem_of_fmap_2.
Qed.

Lemma slice_put_elem v l x :
  x ∈ slice_put v l → x = v ∨ x ∈ l.
Proof.
  induction l as [|y l IH]; cbn; [by rewrite list_elem_of_singleton; left|].
  destruct (String.eqb _ _); rewrite !elem_of_cons; tauto.
Qed.

Lemma slice_put_NoDup v l :
  NoDup (id_of <$> l) → NoDup (id_of <$> slice_put v l).
Proof.
  induction l as [|y l IH]; cbn; [intros _; apply NoDup_singleton|].
  intros [Hy Hl]%NoDup_cons. destruct (String.eqb_spec (id_of y) (id_of v)) as [He|He].
  - cbn. rewrite <- He. by constructor.
  - cbn. constructor; [|by apply IH]. intros (x & Heq & Hx)%list_elem_of_fmap.
    apply slice_put_elem in Hx as [->|Hx]; [done|].
    destruct Hy. rewrite Heq. by apply list_elem_of_fmap_2.
Qed.

Lemma slice_put_find v l id :
  List.find (λ x, String.eqb (id_of x) id) (slice_put v l) =
  if decide (id = id_of v) then Some v
  else List.find (λ x, String.eqb (id_of x) id) l.
Proof.
  induction l as [|y l IH]; cbn.
  - case_decide; subst; [by rewrite String.eqb_refl|].
    by destruct (String.eqb_spec (id_of v) id).
  - destruct (String.eqb_spec (id_of y) (id_of v)) as [He|He]; cbn.
    + rewrite He. case_decide; subst; [by rewrite String.eqb_refl|].
      by destruct (String.eqb_spec (id_of v) id).
    + rewrite IH. case_decide; subst; [|done].
      by destruct (String.eqb_spec (id_of y) (id_of v)).
Qed.

Lemma slice_next_fresh s s' id :
  slice_valid s → slice_NextID s = (s', Ok id) →
  slice_issued s' id ∧ ¬ slice_issued s id.
Proof.
  intros [H0 _] [= <- <-]. split.
  - exists (sl_seq s + 1). cbn. split; [lia|done].
  - intros (k & Hk & Heq). simplify_eq. lia.
Qed.

Lemma slice_save_valid v s :
  slice_valid s → slice_issued s (id_of v) →
  slice_valid (mkSlice (sl_seq s) (slice_put v (sl_data s))).
Proof.
  intros (H0 & Hnd & Hi) Hv. split; [done|]. split; [by apply slice_put_NoDup|].
  intros x [->|Hx]%slice_put_elem; [done|by apply Hi].
Qed.

Lemma slice_Get_put id v s :
  slice_Get id (mkSlice (sl_seq s) (slice_put v (sl_data s))) =
  if decide (id = id_of v) then Ok v else slice_Get id s.
Proof.
  unfold slice_Get. cbn. rewrite slice_put_find. by case_decide.
Qed.

#[export] Instance slice_store : KeyedStore id_of slice_NextID slice_Save slice_Get.
Proof.
  refine {| valid := slice_valid; issued := slice_issued |}.
  - intros s id v _ Hg. by apply slice_Get_Ok in Hg as [_ ->].
  - intros s id v (_ & _ & Hi) [Hin <-]%slice_Get_Ok. by apply Hi.
  - intros s s' r (H0 & Hnd & Hi) [= <- _]. split; cbn; [lia|]. split; [done|].
    intros v Hv. destruct (Hi v Hv) as (k & Hk & Heq). exists k. cbn. split; [lia|done].
  - by intros s s' r id [= <- _].
  - intros s s' r id [= <- _] (k & Hk & ->). exists k. cbn. split; [lia|done].
  - exact slice_next_fresh.
  - intros v s s' r Hv Hi [= <- _]. by apply slice_save_valid.
  - by intros v s s' r id [= <- _].
  - intros v s s' _ [= <-]. rewrite slice_Get_put. by rewrite decide_True.
  - intros v s s' r id [= <- _] Hne. rewrite slice_Get_put. by rewrite decide_False.
  - done.
Defined.

(** A filtered slice, sorted by id, lists the stored records that match. *)
Lemma slice_lists (P : V → bool) s :
  slice_valid s →
  lists id_of slice_Get (λ v, P v = true) s (sort_by_id id_of (List.filter P (sl_data s))).
Proof.
  intros (_ & Hnd & _). unfold sort_by_id, lists. split.
  - rewrite merge_sort_Permutation. clear -Hnd.
    induction (sl_data s) as [|x l IH]; cbn; [constructor|].
    apply NoDup_cons in Hnd as [Hx Hl]. destruct (P x); [|by apply IH].
    cbn. constructor; [|by apply IH]. intros (y & Heq & Hy)%list_elem_of_fmap.
    apply list_elem_of_In, List.filter_In in Hy as [Hy _].
    destruct Hx. rewrite Heq. apply list_elem_of_fmap_2. by apply list_elem_of_In.
  - intros v. rewrite merge_sort_Permutation, list_elem_of_In, List.filter_In,
      <- list_elem_of_In. split; intros [H HP]; (split; [|done]).
    + by apply slice_Get_elem.
    + by apply slice_Get_Ok in H as [H _].
Qed.
End slice_repo.

Arguments sliceRepository V : clear implicits.

Abbreviation memoryRFQRepository := (sliceRepository RFQ).
Definition mem_rfq_NextID : ST memoryRFQRepository string := slice_NextID "rfq_".
Definition mem_rfq_Get : string → memoryRFQRepository → result RFQ :=
  slice_Get rfq_ID ErrRFQNotFound.
Definition mem_rfq_Save : RFQ → ST memoryRFQRepository () := slice_Save rfq_ID.
Definition mem_rfq_List (r : memoryRFQRepository) : result (list RFQ) :=
  Ok (sort_by_id rfq_ID (sl_data r)).

Abbreviation memoryBidRepository := (sliceRepository Bid).
Definition mem_bid_NextID : ST memoryBidRepository string := slice_NextID "bid_".
Definition mem_bid_Get : string → memoryBidRepository → result Bid :=
  slice_Get b_ID ErrBidNotFound.
Definition mem_bid_Save : Bid → ST memoryBidRepository () := slice_Save b_ID.
Definition mem_bid_ListByRFQ (rfqID : string) (r : memoryBidRepository)
    : result (list Bid) :=
  Ok (sort_by_id b_ID (List.filter (λ b, String.eqb (b_RFQID b) rfqID) (sl_data r))).

Abbreviation memoryDisputeRepository := (sliceRepository Dispute).
Definition mem_dispute_NextID : ST memoryDisputeRepository string :=
  slice_NextID "disp_".
Definition mem_dispute_Get : string → memoryDisputeRepository → result Dispute :=
  slice_Get d_ID ErrDisputeNotFound.
Definition mem_dispute_Save : Dispute → ST memoryDisputeRepository () :=
  slice_Save d_ID.
Definition mem_dispute_List (r : memoryDisputeRepository) : result (list Dispute) :=
  Ok (sort_by_id d_ID (sl_data r)).

(** ** Messages: an append-only slice *)

Record memoryMessageRepository := mkMemoryMessages {
  mm_seq : Z;
  mm_data : list Message;
}.

Definition mem_message_NextID : ST memoryMessageRepository string := λ r,
  let seq := mm_seq r + 1 in
  (mkMemoryMessages seq (mm_data r), Ok ("msg_" +:+ pretty seq)).
Definition mem_message_Save (message : Message) : ST memoryMessageRepository () := λ r,
  (mkMemoryMessages (mm_seq r) (mm_data r ++ [message]), Ok tt).
Definition mem_message_ListByRFQ (rfqID : string) (r : memoryMessageRepository)
    : result (list Message) :=
  Ok (List.filter (λ msg, String.eqb (msg_RFQID msg) rfqID) (mm_data r)).
Definition mem_message_ListByOrder (orderID : string) (r : memoryMessageRepository)
    : result (list Message) :=
  Ok (List.filter (λ msg, String.eqb (msg_OrderID msg) orderID) (mm_data r)).

(** ** Providers and listings: fixed slices *)

Definition mem_provider_List (data : list ProviderProfile)
    : result (list ProviderProfile) := Ok data.
Definition mem_provider_Get (id : string) (data : list ProviderProfile)
    : result ProviderProfile :=
  match List.find (λ p, String.eqb (pp_ID p) id) data with
  | Some p => Ok p
  | None => Err (Errf ("provider not found: " +:+ id))
  end.

Definition mem_listing_List (data : list Listing) : result (list Listing) := Ok data.
Definition mem_listing_Get (id : string) (data : list Listing) : result Listing :=
  match List.find (λ l, String.eqb (l_ID l) id) data with
  | Some l => Ok l
  | None => Err (Errf ("listing not found: " +:+ id))
  end.

(** ** The in-memory storage and its laws *)

#[export] Instance memory_storage : Storage := {|
  orders_t := memoryOrderRepository;
  order_NextID := mem_order_NextID;
  order_Save := mem_order_Save;
  order_Get := mem_order_Get;
  order_List := mem_order_List;
  order_ListByFilter := mem_order_ListByFilter;
  providers_t := list ProviderProfile;
  provider_List := mem_provider_List;
  provider_Get := mem_provider_Get;
  listings_t := list Listing;
  listing_List := mem_listing_List;
  listing_Get := mem_listing_Get;
  rfqs_t := memoryRFQRepository;
  rfq_NextID := mem_rfq_NextID;
  rfq_Get := mem_rfq_Get;
  rfq_Save := mem_rfq_Save;
  rfq_List := mem_rfq_List;
  bids_t := memoryBidRepository;
  bid_NextID := mem_bid_NextID;
  bid_Get := mem_bid_Get;
  bid_Save := mem_bid_Save;
  bid_ListByRFQ := mem_bid_ListByRFQ;
  messages_t := memoryMessageRepository;
  message_NextID := mem_message_NextID;
  message_Save := mem_message_Save;
  message_ListByRFQ := mem_message_ListByRFQ;
  message_ListByOrder := mem_message_ListByOrder;
  disputes_t := memoryDisputeRepository;
  dispute_NextID := mem_dispute_NextID;
  dispute_Get := mem_dispute_Get;
  dispute_Save := mem_dispute_Save;
  dispute_List := mem_dispute_List;
|}.

Definition mem_order_issued (r : memoryOrderRepository) (id : string) : Prop :=
  ∃ k, 1 ≤ k ≤ mo_seq r ∧ id = "ord_" +:+ pretty k.
Definition mem_order_valid (r : memoryOrderRepository) : Prop :=
  0 ≤ mo_seq r ∧
  ∀ id o, mo_data r !! id = Some o → o_ID o = id ∧ mem_order_issued r id.

Lemma mem_order_Get_Ok id r o : mem_order_Get id r = Ok o ↔ mo_data r !! id = Some o.
Proof. unfold mem_order_Get. case_match; naive_solver. Qed.

Lemma mem_order_Get_save v id s :
  mem_order_Get id (mkMemoryOrders (mo_seq s) (<[o_ID v := v]> (mo_data s))) =
  if decide (id = o_ID v) then Ok v else mem_order_Get id s.
Proof.
  unfold mem_order_Get. cbn. case_decide; subst; [by rewrite lookup_insert_eq|].
  by rewrite lookup_insert_ne.
Qed.

#[export] Instance mem_order_store :
  KeyedStore o_ID mem_order_NextID mem_order_Save mem_order_Get.
Proof.
  refine {| valid := mem_order_valid; issued := mem_order_issued |}.
  - intros s id v [_ H] Hg%mem_order_Get_Ok. by apply H in Hg as [? _].
  - intros s id v [_ H] Hg%mem_order_Get_Ok. by apply H in Hg as [_ ?].
  - intros s s' r [H0 H] [= <- _]. split; cbn; [lia|]. intros id o Ho.
    destruct (H _ _ Ho) as [? (k & Hk & ->)]. split; [done|].
    exists k. cbn. split; [lia|done].
  - by intros s s' r id [= <- _].
  - intros s s' r id [= <- _] (k & Hk & ->). exists k. cbn. split; [lia|done].
  - intros s s' id [H0 _] [= <- <-]. split.
    + exists (mo_seq s + 1). cbn. split; [lia|done].
    + intros (k & Hk & Heq). simplify_eq. lia.
  - intros v s s' r [H0 H] Hi [= <- _]. split; [done|]. intros id o. cbn.
    intros [[<- <-]|[Hne Ho]]%lookup_insert_Some; [done|by apply H].
  - by intros v s s' r id [= <- _].
  - intros v s s' _ [= <-]. rewrite mem_order_Get_save. by rewrite decide_True.
  - intros v s s' r id [= <- _] Hne. rewrite mem_order_Get_save. by rewrite decide_False.
  - done.
Defined.

Lemma map_values_NoDup (m : gmap string Order) :
  (∀ id o, m !! id = Some o → o_ID o = id) →
  NoDup (o_ID <$> (snd <$> map_to_list m)).
Proof.
  intros Hk. replace (o_ID <$> (snd <$> map_to_list m)) with (fst <$> map_to_list m).
  { apply NoDup_fst_map_to_list. }
  rewrite <- list_fmap_compose. apply list_fmap_ext. intros i [id o] Hio. cbn.
  symmetry. apply Hk, elem_of_map_to_list. by eapply list_elem_of_lookup_2.
Qed.

Lemma mem_order_List_spec s l :
  mem_order_valid s → mem_order_List s = Ok l →
  lists o_ID mem_order_Get (λ _, True) s l.
Proof.
  intros [_ Hv] [= <-]. unfold sort_by_id, lists. split.
  - rewrite merge_sort_Permutation. apply map_values_NoDup.
    intros id o Ho. by apply Hv in Ho as [? _].
  - intros o. rewrite merge_sort_Permutation, mem_order_Get_Ok, list_elem_of_fmap. split.
    + intros [[id o'] [-> Ho]]. apply elem_of_map_to_list in Ho. cbn.
      by destruct (Hv _ _ Ho) as [-> _].
    + intros [Ho _]. exists (o_ID o, o). split; [done|].
      by apply elem_of_map_to_list.
Qed.

Lemma mem_order_ListByFilter_spec f s l :
  mem_order_valid s → mem_order_ListByFilter f s = Ok l →
  lists o_ID mem_order_Get (λ o, order_matches f o = true) s l.
Proof.
  intros Hv [= <-]. destruct (mem_order_List_spec s _ Hv eq_refl) as [Hnd Hin].
  unfold sort_by_id in *. set (os := snd <$> map_to_list (mo_data s)) in *. split.
  - rewrite merge_sort_Permutation. rewrite merge_sort_Permutation in Hnd.
    apply (sublist_NoDup _ (o_ID <$> os)); [exact Hnd|]. clear.
    induction os as [|o os IH]; [done|]. cbn. destruct (order_matches f o); by constructor.
  - intros o. specialize (Hin o). rewrite merge_sort_Permutation in *.
    rewrite list_elem_of_In, List.filter_In, <- list_elem_of_In, Hin. tauto.
Qed.

Lemma filter_all {A} (l : list A) : List.filter (λ _, true) l = l.
Proof. induction l as [|x l IH]; cbn; [done|]. by rewrite IH. Qed.

Lemma slice_lists_all {V} (id_of : V → string) prefix nf (s : sliceRepository V) :
  slice_valid id_of prefix s →
  lists id_of (slice_Get id_of nf) (λ _, True) s (sort_by_id id_of (sl_data s)).
Proof.
  intros Hv. pose proof (slice_lists id_of prefix nf (λ _, true) s Hv) as [H1 H2].
  rewrite filter_all in *. split; [done|]. intros v. rewrite H2. tauto.
Qed.

(** The in-memory repositories meet the contract the platform is proved
    against. *)
#[export] Instance memory_laws : @StorageLaws memory_storage.
Proof.
  refine {|
    order_store := mem_order_store;
    rfq_store := slice_store rfq_ID "rfq_" ErrRFQNotFound;
    bid_store := slice_store b_ID "bid_" ErrBidNotFound;
    dispute_store := slice_store d_ID "disp_" ErrDisputeNotFound;
  |}.
  - exact mem_order_List_spec.
  - exact mem_order_ListByFilter_spec.
  - intros s l Hv [= <-]. exact (slice_lists_all rfq_ID "rfq_" ErrRFQNotFound s Hv).
  - intros id s l Hv [= <-].
    pose proof (slice_lists b_ID "bid_" ErrBidNotFound
      (λ b, String.eqb (b_RFQID b) id) s Hv) as [H1 H2].
    split; [exact H1|]. intros v. rewrite H2, String.eqb_eq. done.
  - intros s l Hv [= <-]. exact (slice_lists_all d_ID "disp_" ErrDisputeNotFound s Hv).
Defined.
