(* ===== verification/App.v ===== *)
(** * The platform's state (internal/platform/app.go, provider_settlement.go)

    The [App] struct, the records its fields hold, the collaborators it is
    given (publisher, notifier, clock, settlement provisioner) and the monad
    its methods run in.  A collaborator is a function of the history of calls
    made to it, so nothing is assumed of its answers; [ext] keeps those
    histories.  A method that takes [a.mu] for all or part of its body is one
    step here; [ProviderSettlement] treats the one place where the lock is
    released in the middle of a transaction. *)

From S2P Require Import Prelude GoNum Core Milestones Market Repo.

(** ** Collaborators *)

(** The values of a [map[string]any] payload. *)
Inductive value :=
  | VStr (s : string)
  | VInt (z : Z)
  | VTime (t : Time)
  | VStrs (l : list string).
Abbreviation payload := (list (string * value)).

Record Event := mkEvent {
  ev_subject : string;
  ev_payload : payload;
}.

Record Notification := mkNotification {
  nt_event : string;
  nt_target : string;
  nt_payload : payload;
}.

(** [EventPublisher.Publish]: the calls made before, the event, the error. *)
Definition Publisher : Type := list (Event * option error) → Event → option error.
Definition noopPublisher : Publisher := λ _ _, None.

(** [Clock]: the reading number [n]. *)
Definition Clock : Type := nat → Time.

(** ** Records of the registration flows *)

Inductive ProviderVettingStatus := VettingPending | VettingApproved | VettingRejected.
#[export] Instance ProviderVettingStatus_eq_dec : EqDecision ProviderVettingStatus.
Proof. solve_decision. Defined.

Definition vetting_string (s : ProviderVettingStatus) : string :=
  match s with
  | VettingPending => "pending"
  | VettingApproved => "approved"
  | VettingRejected => "rejected"
  end.

Record ProviderApplication := mkProviderApplication {
  pa_ID : string;
  pa_OrgID : string;
  pa_Name : string;
  pa_Capabilities : list string;
  pa_Status : ProviderVettingStatus;
  pa_ReviewedBy : string;
  pa_ReviewNote : string;
  pa_SubmittedAt : Time;
  pa_ReviewedAt : option Time;
}.

#[export] Instance eta_ProviderApplication : Eta ProviderApplication := λ p,
  mkProviderApplication (pa_ID p) (pa_OrgID p) (pa_Name p) (pa_Capabilities p)
    (pa_Status p) (pa_ReviewedBy p) (pa_ReviewNote p) (pa_SubmittedAt p)
    (pa_ReviewedAt p).

(** The bindings' [Status] is an untyped string in the source. *)
Record ProviderCarrierBinding := mkProviderCarrierBinding {
  pcb_ID : string;
  pcb_ProviderOrgID : string;
  pcb_CarrierBaseURL : string;
  pcb_IntegrationToken : string;
  pcb_HostID : string;
  pcb_AgentID : string;
  pcb_Backend : string;
  pcb_WorkspaceRoot : string;
  pcb_CallbackSecret : string;
  pcb_CallbackKeyID : string;
  pcb_Status : string;
  pcb_CreatedAt : Time;
  pcb_VerifiedAt : option Time;
}.

#[export] Instance eta_ProviderCarrierBinding : Eta ProviderCarrierBinding := λ b,
  mkProviderCarrierBinding (pcb_ID b) (pcb_ProviderOrgID b) (pcb_CarrierBaseURL b)
    (pcb_IntegrationToken b) (pcb_HostID b) (pcb_AgentID b) (pcb_Backend b)
    (pcb_WorkspaceRoot b) (pcb_CallbackSecret b) (pcb_CallbackKeyID b)
    (pcb_Status b) (pcb_CreatedAt b) (pcb_VerifiedAt b).

Record BuyerCreditLimit := mkBuyerCreditLimit {
  bcl_BuyerOrgID : string;
  bcl_LimitCents : Z;
  bcl_UsedCents : Z;
  bcl_AvailableCents : Z;
  bcl_SetBy : string;
  bcl_UpdatedAt : Time;
}.

(** ** Records of provider settlement *)

Record UDTTypeScript := mkUDTTypeScript {
  udt_CodeHash : string;
  udt_HashType : string;
  udt_Args : string;
}.

Record ProviderSettlementBinding := mkProviderSettlementBinding {
  psb_ID : string;
  psb_ProviderOrgID : string;
  psb_Asset : string;
  psb_PeerID : string;
  psb_P2PAddress : string;
  psb_NodeRPCURL : string;
  psb_PaymentRequestBaseURL : string;
  psb_UDTTypeScript : UDTTypeScript;
  psb_OwnershipProof : string;
  psb_Status : string;
  psb_CreatedAt : Time;
  psb_VerifiedAt : option Time;
  psb_LastIncidentAt : option Time;
}.

#[export] Instance eta_ProviderSettlementBinding : Eta ProviderSettlementBinding := λ b,
  mkProviderSettlementBinding (psb_ID b) (psb_ProviderOrgID b) (psb_Asset b)
    (psb_PeerID b) (psb_P2PAddress b) (psb_NodeRPCURL b)
    (psb_PaymentRequestBaseURL b) (psb_UDTTypeScript b) (psb_OwnershipProof b)
    (psb_Status b) (psb_CreatedAt b) (psb_VerifiedAt b) (psb_LastIncidentAt b).

(** [ProviderLiquidityPoolStatus]; the zero value of the string type, which a
    missing pool reads as, is [PoolStatusUnset]. *)
Inductive PoolStatus :=
  | PoolStatusUnset | PoolStatusHealthy | PoolStatusDegraded
  | PoolStatusDisconnected | PoolStatusRecovering | PoolStatusSuspended.
#[export] Instance PoolStatus_eq_dec : EqDecision PoolStatus.
Proof. solve_decision. Defined.

Record ProviderLiquidityPool := mkProviderLiquidityPool {
  pool_BindingID : string;
  pool_ProviderOrgID : string;
  pool_Asset : string;
  pool_Status : PoolStatus;
  pool_ReadyChannelCount : Z;
  pool_TotalSpendableCents : Z;
  pool_ReservedOutstandingCents : Z;
  pool_AvailableToAllocateCents : Z;
  pool_LastHealthyAt : option Time;
  pool_LastFailureAt : option Time;
  pool_WarmUntil : option Time;
  pool_DisconnectReason : string;
}.

#[export] Instance eta_ProviderLiquidityPool : Eta ProviderLiquidityPool := λ p,
  mkProviderLiquidityPool (pool_BindingID p) (pool_ProviderOrgID p) (pool_Asset p)
    (pool_Status p) (pool_ReadyChannelCount p) (pool_TotalSpendableCents p)
    (pool_ReservedOutstandingCents p) (pool_AvailableToAllocateCents p)
    (pool_LastHealthyAt p) (pool_LastFailureAt p) (pool_WarmUntil p)
    (pool_DisconnectReason p).

(** The zero value a map read gives for a missing pool. *)
Definition zero_pool : ProviderLiquidityPool :=
  mkProviderLiquidityPool "" "" "" PoolStatusUnset 0 0 0 0 None None None "".

Inductive ReuseSource := ReuseReused | ReuseNewChannel.

Record ProviderLiquidityReservation := mkProviderLiquidityReservation {
  plr_ID : string;
  plr_OrderID : string;
  plr_BindingID : string;
  plr_ProviderOrgID : string;
  plr_ReservedCents : Z;
  plr_ChannelID : string;
  plr_ReuseSource : ReuseSource;
  plr_Status : string;
  plr_CreatedAt : Time;
  plr_ReleasedAt : option Time;
}.

#[export] Instance eta_ProviderLiquidityReservation : Eta ProviderLiquidityReservation := λ r,
  mkProviderLiquidityReservation (plr_ID r) (plr_OrderID r) (plr_BindingID r)
    (plr_ProviderOrgID r) (plr_ReservedCents r) (plr_ChannelID r)
    (plr_ReuseSource r) (plr_Status r) (plr_CreatedAt r) (plr_ReleasedAt r).

Record EnsureProviderLiquidityInput := mkEnsureInput {
  epi_ProviderOrgID : string;
  epi_Binding : ProviderSettlementBinding;
  epi_NeededReserveCents : Z;
  epi_CurrentPool : ProviderLiquidityPool;
}.

Record EnsureProviderLiquidityResult := mkEnsureResult {
  epr_ChannelID : string;
  epr_ReuseSource : ReuseSource;
  epr_ReadyChannelCount : Z;
  epr_TotalSpendableCents : Z;
  epr_WarmUntil : option Time;
}.

(** [ProviderSettlementProvisioner]: the earlier requests, this one. *)
Definition Provisioner : Type :=
  list EnsureProviderLiquidityInput → EnsureProviderLiquidityInput →
  result EnsureProviderLiquidityResult.

(** ** The App struct *)

(** What the collaborators have been asked, and the system clock. *)
Record Ext := mkExt {
  ext_published : list (Event * option error);
  ext_sent : list Notification;
  ext_provisioned : list EnsureProviderLiquidityInput;
  ext_ticks : nat;
  ext_system_clock : Clock;
}.

#[export] Instance eta_Ext : Eta Ext := λ e,
  mkExt (ext_published e) (ext_sent e) (ext_provisioned e) (ext_ticks e)
    (ext_system_clock e).

(** [notifier] says whether one is set; what it answers is ignored.  The maps
    that the source creates lazily are [None] until then; [creditLimits] reads
    the same empty or nil. *)
Record App `{Storage} := mkApp {
  orders : orders_t;
  providers : providers_t;
  listings : listings_t;
  rfqs : rfqs_t;
  bids : bids_t;
  messages : messages_t;
  disputes : disputes_t;
  creditEngine : CreditDecisionEngine;
  publisher : Publisher;
  notifier : bool;
  ratings : list OrderRating;
  clock : option Clock;
  providerApplications : list ProviderApplication;
  carrierBindings : list ProviderCarrierBinding;
  carrierBindingsByOrg : option (gmap string nat);
  settlementBindings : list ProviderSettlementBinding;
  settlementBindingsByOrg : option (gmap string nat);
  settlementPools : gmap string ProviderLiquidityPool;
  settlementReservations : gmap string ProviderLiquidityReservation;
  settlementReservationByOrder : gmap string string;
  settlementProvisioner : option Provisioner;
  settlementBufferBPS : Z;
  settlementWarmTTL : Z;
  requireExecProfile : bool;
  profileValidator : option (string → bool);
  creditLimits : gmap string BuyerCreditLimit;
  ext : Ext;
}.

#[export] Instance eta_App `{Storage} : Eta App := λ a,
  mkApp _ (orders a) (providers a) (listings a) (rfqs a) (bids a) (messages a)
    (disputes a) (creditEngine a) (publisher a) (notifier a) (ratings a)
    (clock a) (providerApplications a) (carrierBindings a)
    (carrierBindingsByOrg a) (settlementBindings a) (settlementBindingsByOrg a)
    (settlementPools a) (settlementReservations a)
    (settlementReservationByOrder a) (settlementProvisioner a)
    (settlementBufferBPS a) (settlementWarmTTL a) (requireExecProfile a)
    (profileValidator a) (creditLimits a) (ext a).

(** The monad of the App's methods. *)
Abbreviation M := (ST App).

Section app.
Context `{Storage}.

(** [a.now()] *)
Definition now : M Time := λ a,
  let n := ext_ticks (ext a) in
  let t := match clock a with
           | Some c => c n
           | None => ext_system_clock (ext a) n
           end in
  (a <| ext := ext a <| ext_ticks := S n |> |>, Ok t).

(** [time.Now().UTC()] read directly, as [core] does. *)
Definition system_now : M Time := λ a,
  let n := ext_ticks (ext a) in
  (a <| ext := ext a <| ext_ticks := S n |> |>, Ok (ext_system_clock (ext a) n)).

(** [a.publish] *)
Definition publish (subject : string) (p : payload) : M () := λ a,
  let ev := mkEvent subject p in
  let answer := publisher a (ext_published (ext a)) ev in
  (a <| ext := ext a <| ext_published ::= (λ l, l ++ [(ev, answer)]) |> |>,
   match answer with None => Ok tt | Some e => Err e end).

(** [a.notify]: the notifier's error is dropped. *)
Definition notify (event target : string) (p : payload) : M () := λ a,
  if notifier a then
    (a <| ext := ext a
       <| ext_sent ::= (λ l, l ++ [mkNotification event target p]) |> |>, Ok tt)
  else (a, Ok tt).

(** A repository operation and a repository read. *)
Definition on_orders {A} (m : ST orders_t A) : M A :=
  zoom orders (λ s a, a <| orders := s |>) m.
Definition on_rfqs {A} (m : ST rfqs_t A) : M A :=
  zoom rfqs (λ s a, a <| rfqs := s |>) m.
Definition on_bids {A} (m : ST bids_t A) : M A :=
  zoom bids (λ s a, a <| bids := s |>) m.
Definition on_messages {A} (m : ST messages_t A) : M A :=
  zoom messages (λ s a, a <| messages := s |>) m.
Definition on_disputes {A} (m : ST disputes_t A) : M A :=
  zoom disputes (λ s a, a <| disputes := s |>) m.

(** ** Construction and configuration *)

Definition default_credit_engine : CreditDecisionEngine :=
  mkCreditDecisionEngine 50000 500000 75000 50000 2.

(** Thirty minutes, in nanoseconds. *)
Definition default_warm_ttl : Z := 30 * 60 * 1000000000.

Definition NewApp (sys : Clock) (o : orders_t) (p : providers_t) (l : listings_t)
    (r : rfqs_t) (b : bids_t) (m : messages_t) (d : disputes_t) : App :=
  mkApp _ o p l r b m d default_credit_engine noopPublisher false [] None
    [] [] None [] None ∅ ∅ ∅ None 1000 default_warm_ttl false None ∅
    (mkExt [] [] [] 0 sys).

Definition SetNotifier (set : bool) : M () := modify (λ a, a <| notifier := set |>).

Definition SetPublisher (p : option Publisher) : M () :=
  modify (λ a, a <| publisher := match p with None => noopPublisher | Some p => p end |>).

Definition SetClock (c : option Clock) : M () := modify (λ a, a <| clock := c |>).

Definition SetRequireExecutionProfile (validator : option (string → bool)) : M () :=
  modify (λ a, a <| requireExecProfile := true |> <| profileValidator := validator |>).

Definition SetProviderSettlementProvisioner (p : option Provisioner) : M () :=
  modify (λ a, a <| settlementProvisioner := p |>).

Definition validateExecutionProfile (profileID : string) : M () := λ a,
  (a, if negb (requireExecProfile a) then Ok tt
      else if String.eqb profileID "" then
        Err (Errf "execution profile ID is required")
      else match profileValidator a with
           | Some v =>
               if negb (v profileID) then
                 Err (Errf ("execution profile " +:+ profileID +:+
                   " not found or inactive"))
               else Ok tt
           | None => Ok tt
           end).
End app.
