(* ===== verification/Lifecycle.v ===== *)
(** * The life of one order

    What the platform's operations do to a stored order, as functions of the
    order alone: the settlement transaction of [App.SettleMilestone]
    (internal/platform/app.go), the budget top-up of [App.TopUpMilestone], and
    the pause and resume that a payment-rail outage causes
    (internal/platform/provider_settlement.go).  [run] executes a history of
    them; the theorems relate the ledger entries a history writes to the state
    it leaves. *)

From S2P Require Import Prelude GoNum Core Reconcile Market.

(** ** The functions *)

(** [advanceNextMilestone]: the first pending milestone found after the settled
    one starts running. *)
Fixpoint advance_list (foundSettled : bool) (settledMilestoneID : string)
    (l : list Milestone) : list Milestone :=
  match l with
  | [] => []
  | m :: l' =>
      if String.eqb (ms_ID m) settledMilestoneID then
        m :: advance_list true settledMilestoneID l'
      else if foundSettled && bool_decide (ms_State m = MilestoneStatePending) then
        m <| ms_State := MilestoneStateRunning |> :: l'
      else m :: advance_list foundSettled settledMilestoneID l'
  end.

Definition advanceNextMilestone (o : Order) (settledMilestoneID : string) : Order :=
  o <| o_Milestones ::= advance_list false settledMilestoneID |>.

(** The reconciliation check of [App.SettleMilestone]: the first milestone with
    the id gets the anomalies as its flags, if there are any. *)
Fixpoint reconcile_list (id : string) (l : list Milestone)
    : list Milestone * list string :=
  match l with
  | [] => ([], [])
  | m :: l' =>
      if String.eqb (ms_ID m) id then
        let anomalies := Anomalies (Reconcile m f64_zero) in
        match anomalies with
        | [] => (m :: l', [])
        | _ => (m <| ms_AnomalyFlags := anomalies |> :: l', anomalies)
        end
      else let '(l'', anomalies) := reconcile_list id l' in (m :: l'', anomalies)
  end.

Definition reconcile_order (o : Order) (id : string) : Order * list string :=
  let '(l, anomalies) := reconcile_list id (o_Milestones o) in
  (o <| o_Milestones := l |>, anomalies).

(** What [App.SettleMilestone] does to the order before it saves it. *)
Definition settle_order (o : Order) (input : SettleMilestoneInput)
    : Order * result (LedgerEntry * list string) :=
  match SettleMilestone o input with
  | (o, Err e) => (o, Err e)
  | (o, Ok entry) =>
      let '(o, anomalies) := reconcile_order o (smi_MilestoneID input) in
      (advanceNextMilestone o (smi_MilestoneID input), Ok (entry, anomalies))
  end.

(** The loop of [App.TopUpMilestone]; [None] when no milestone has the id. *)
Definition topup_order (o : Order) (input : TopUpInput) : option Order :=
  match findMilestone o (tui_MilestoneID input) with
  | Err _ => None
  | Ok (i, m) =>
      let m := m <| ms_BudgetCents ::= (λ b, b +w tui_AdditionalCents input) |> in
      Some (if bool_decide (ms_State m = MilestoneStatePaused) then
              set_milestone i (m <| ms_State := MilestoneStateRunning |>) o
                <| o_Status := OrderStatusRunning |>
            else set_milestone i m o)
  end.

Definition disconnect_flag : string := "provider_settlement_disconnected".
(** [slices.Contains(flags, "provider_settlement_disconnected")] *)
Definition flagged (flags : list string) : bool :=
  existsb (String.eqb disconnect_flag) flags.
Definition has_flag (m : Milestone) : bool := flagged (ms_AnomalyFlags m).
#[global] Arguments flagged : simpl never.

(** The body of the loop over reservations in
    [ReportProviderSettlementDisconnect]. *)
Definition disconnect_milestone (m : Milestone) : Milestone :=
  let m := if bool_decide (ms_State m = MilestoneStateRunning)
           then m <| ms_State := MilestoneStatePaused |> else m in
  if has_flag m then m
  else m <| ms_AnomalyFlags ::= (λ l, l ++ [disconnect_flag]) |>.

Definition disconnect_order (o : Order) : Order :=
  o <| o_Status := OrderStatusAwaitingPaymentRail |>
    <| o_Milestones ::= map disconnect_milestone |>.

(** The body of the loop in [resumeProviderSettlementOrdersLocked]. *)
Definition resume_milestone (m : Milestone) : Milestone :=
  if bool_decide (ms_State m = MilestoneStatePaused) && has_flag m then
    m <| ms_State := MilestoneStateRunning |>
      <| ms_AnomalyFlags ::= List.filter (λ f, negb (String.eqb f disconnect_flag)) |>
  else m.

Definition resume_order (o : Order) : Order :=
  (if bool_decide (o_Status o = OrderStatusAwaitingPaymentRail)
   then o <| o_Status := OrderStatusRunning |> else o)
    <| o_Milestones ::= map resume_milestone |>.

(** ** Histories *)

Inductive order_op :=
  | OpSettle (input : SettleMilestoneInput)
  | OpUsage (input : RecordUsageChargeInput)
  | OpDispute (input : OpenDisputeInput) (now : Time)
  | OpResolve (input : CoreResolveDisputeInput)
  | OpTopUp (input : TopUpInput)
  | OpDisconnect
  | OpResume.

(** The order an operation stores and the ledger entries it returns; one that
    fails stores nothing. *)
Definition apply_op (op : order_op) (o : Order) : Order * list LedgerEntry :=
  match op with
  | OpSettle input =>
      match settle_order o input with
      | (o', Ok (entry, _)) => (o', [entry])
      | (_, Err _) => (o, [])
      end
  | OpUsage input =>
      match RecordUsageCharge o input with
      | (o', Ok _) => (o', [])
      | (_, Err _) => (o, [])
      end
  | OpDispute input now =>
      match OpenDispute o input now with
      | (o', Ok (refund, recovery)) => (o', [refund; recovery])
      | (_, Err _) => (o, [])
      end
  | OpResolve input =>
      match ResolveDispute o input with
      | (o', Ok _) => (o', [])
      | (_, Err _) => (o, [])
      end
  | OpTopUp input =>
      if (tui_AdditionalCents input <=? 0) then (o, [])
      else match topup_order o input with Some o' => (o', []) | None => (o, []) end
  | OpDisconnect => (disconnect_order o, [])
  | OpResume => (resume_order o, [])
  end.

Fixpoint run (ops : list order_op) (o : Order) : Order * list LedgerEntry :=
  match ops with
  | [] => (o, [])
  | op :: ops =>
      let '(o1, l1) := apply_op op o in
      let '(o2, l2) := run ops o1 in
      (o2, l1 ++ l2)
  end.

(** ** Operations that touch milestones one by one *)

(** [o'] has the milestones of [o] in the same places under the same ids, each
    related to the old one by [R]. *)
Definition milestones_rel (R : Milestone → Milestone → Prop) (o o' : Order) : Prop :=
  Forall2 (λ m m', ms_ID m' = ms_ID m ∧ R m m') (o_Milestones o) (o_Milestones o').

Lemma find_index_rel R l l' id :
  Forall2 (λ m m', ms_ID m' = ms_ID m ∧ R m m') l l' →
  find_index id l' = find_index id l.
Proof.
  induction 1 as [|m m' l l' [Hid _] _ IH]; cbn; [done|]. by rewrite Hid, IH.
Qed.

Lemma milestone_of_rel R o o' id :
  milestones_rel R o o' →
  option_Forall2 R (milestone_of o id) (milestone_of o' id).
Proof.
  intros HR. unfold milestone_of, findMilestone. rewrite (find_index_rel _ _ _ _ HR).
  destruct (find_index id (o_Milestones o)) as [i|]; [|constructor].
  apply Forall2_lookup with (i := i) in HR.
  destruct HR as [m m' [_ Hm]|]; by constructor.
Qed.

Lemma milestones_rel_map R o f :
  (∀ m, ms_ID (f m) = ms_ID m ∧ R m (f m)) →
  milestones_rel R o (o <| o_Milestones ::= map f |>).
Proof.
  intros Hf. unfold milestones_rel. cbn.
  induction (o_Milestones o); constructor; auto.
Qed.

(** What advancing and reconciling may do to a milestone. *)
Definition advanced (m m' : Milestone) : Prop :=
  m' = m ∨ ms_State m = MilestoneStatePending ∧
           m' = m <| ms_State := MilestoneStateRunning |>.
Definition reflagged (m m' : Milestone) : Prop :=
  ∃ flags, m' = m <| ms_AnomalyFlags := flags |>.

Lemma milestones_refl (R : Milestone → Milestone → Prop) l :
  (∀ m, R m m) → Forall2 (λ m m', ms_ID m' = ms_ID m ∧ R m m') l l.
Proof. intros HR. induction l; constructor; auto. Qed.

Lemma advance_list_rel id b l :
  Forall2 (λ m m', ms_ID m' = ms_ID m ∧ advanced m m') l (advance_list b id l).
Proof.
  revert b. induction l as [|m l IH]; intros b; cbn [advance_list]; [constructor|].
  destruct (String.eqb _ _); [constructor; [by split; [|left]|done]|].
  destruct (b && _) eqn:Hb; [|constructor; [by split; [|left]|done]].
  apply andb_true_iff in Hb as [_ Hp%bool_decide_eq_true].
  constructor; [by split; [|right]|]. apply milestones_refl. by left.
Qed.

Lemma reflagged_refl m : reflagged m m.
Proof. exists (ms_AnomalyFlags m). by destruct m. Qed.

Lemma reconcile_list_rel id l :
  Forall2 (λ m m', ms_ID m' = ms_ID m ∧ reflagged m m') l (reconcile_list id l).1.
Proof.
  pose proof reflagged_refl.
  induction l as [|m l IH]; cbn [reconcile_list]; [constructor|].
  destruct (String.eqb _ _).
  - case_match; cbn [fst]; (constructor; [split; [done|]|by apply milestones_refl]);
      [done|by eexists].
  - destruct (reconcile_list id l). cbn in *. by constructor.
Qed.

(** ** The ledger of a history *)

Definition is_settlement (id : string) (e : LedgerEntry) : bool :=
  String.eqb (le_MilestoneID e) id &&
  match le_Kind e with
  | LedgerEntryKindProviderPayout | LedgerEntryKindPlatformExposure => true
  | _ => false
  end.
Definition is_reimbursement (id : string) (e : LedgerEntry) : bool :=
  String.eqb (le_MilestoneID e) id &&
  match le_Kind e with LedgerEntryKindBuyerReimbursement => true | _ => false end.

Definition count {A} (p : A → bool) (l : list A) : Z := Z.of_nat (length (List.filter p l)).
Definition settlements (id : string) (l : list LedgerEntry) : Z := count (is_settlement id) l.
Definition reimbursements (id : string) (l : list LedgerEntry) : Z :=
  count (is_reimbursement id) l.
(** The money paid out for a milestone. *)
Definition paid (id : string) (l : list LedgerEntry) : Z :=
  sumZ (le_AmountCents <$> List.filter (is_settlement id) l).

(** 1 when the milestone is settled, 0 otherwise. *)
Definition settled_now (o : Order) (id : string) : Z :=
  match milestone_of o id with
  | Some m => if bool_decide (ms_State m = MilestoneStateSettled) then 1 else 0
  | None => 0
  end.
Definition base_price (o : Order) (id : string) : Z :=
  match milestone_of o id with Some m => ms_BasePriceCents m | None => 0 end.

Lemma count_app {A} (p : A → bool) l k : count p (l ++ k) = count p l + count p k.
Proof. unfold count. rewrite List.filter_app, length_app. lia. Qed.
Lemma paid_app id l k : paid id (l ++ k) = paid id l + paid id k.
Proof. unfold paid. by rewrite List.filter_app, fmap_app, sumZ_app. Qed.

(** A change of a milestone that is invisible to the ledger. *)
Definition quiet (m m' : Milestone) : Prop :=
  ms_BasePriceCents m' = ms_BasePriceCents m ∧
  (ms_State m' = MilestoneStateSettled ↔ ms_State m = MilestoneStateSettled).

Definition quiet_order (o o' : Order) : Prop :=
  ∀ id, settled_now o' id = settled_now o id ∧ base_price o' id = base_price o id.

#[export] Instance quiet_order_refl : Reflexive quiet_order.
Proof. by intros o id. Qed.
#[export] Instance quiet_order_trans : Transitive quiet_order.
Proof. intros o1 o2 o3 H12 H23 id. destruct (H12 id), (H23 id). lia. Qed.

Lemma quiet_settled m m' :
  quiet m m' →
  bool_decide (ms_State m' = MilestoneStateSettled) =
  bool_decide (ms_State m = MilestoneStateSettled).
Proof. intros [_ H]. by apply bool_decide_ext. Qed.

Lemma milestones_rel_quiet R o o' :
  (∀ m m', R m m' → quiet m m') → milestones_rel R o o' → quiet_order o o'.
Proof.
  intros HR Hrel id. unfold settled_now, base_price.
  destruct (milestone_of_rel _ _ _ id Hrel) as [m m' [Hb Hs]%HR|]; [|done].
  by rewrite (quiet_settled m m').
Qed.

Lemma changed_quiet o o' id m m' :
  milestone_of o id = Some m → only_milestone_changed o o' id m' →
  quiet m m' → quiet_order o o'.
Proof.
  intros Hm (_ & _ & Hch) Hq id'. unfold settled_now, base_price. rewrite Hch.
  case_decide; subst; [|done]. rewrite Hm. split; [|apply Hq].
  by rewrite (quiet_settled m m').
Qed.

Lemma reconcile_quiet o id : quiet_order o (reconcile_order o id).1.
Proof.
  unfold reconcile_order. pose proof (reconcile_list_rel id (o_Milestones o)) as H.
  destruct (reconcile_list id (o_Milestones o)) as [l flags]. cbn in *.
  eapply milestones_rel_quiet; [|exact H]. cbn. intros m m' [fl ->]. done.
Qed.

Lemma advance_quiet o id : quiet_order o (advanceNextMilestone o id).
Proof.
  eapply milestones_rel_quiet; [|apply advance_list_rel].
  intros m m' [->|[Hp ->]]; [done|]. split; [done|]. cbn. by rewrite Hp.
Qed.

Lemma topup_quiet o input o' : topup_order o input = Some o' → quiet_order o o'.
Proof.
  unfold topup_order. find_milestone o (tui_MilestoneID input); [|done].
  intros [= <-]. case_bool_decide as Hp.
  - eapply changed_quiet; [by eapply milestone_of_find| |].
    + eapply (changed_status _ (set_milestone i _ o)), set_milestone_changed; done.
    + split; [done|]. cbn in *. by rewrite Hp.
  - eapply changed_quiet; [by eapply milestone_of_find| |].
    + by eapply set_milestone_changed.
    + done.
Qed.

Lemma disconnect_milestone_quiet m : quiet m (disconnect_milestone m).
Proof.
  unfold disconnect_milestone, quiet. repeat case_match; cbn; try done;
  match goal with H : bool_decide _ = true |- _ =>
    apply bool_decide_eq_true in H; rewrite H end; done.
Qed.

Lemma resume_milestone_quiet m : quiet m (resume_milestone m).
Proof.
  unfold resume_milestone, quiet. case_match eqn:H; cbn; [|done].
  apply andb_true_iff in H as [H%bool_decide_eq_true _]. by rewrite H.
Qed.

Lemma resume_milestone_id m : ms_ID (resume_milestone m) = ms_ID m.
Proof. unfold resume_milestone. by case_match. Qed.
Lemma disconnect_milestone_id m : ms_ID (disconnect_milestone m) = ms_ID m.
Proof. unfold disconnect_milestone. repeat case_match; done. Qed.

Lemma status_quiet o s : quiet_order o (o <| o_Status := s |>).
Proof. done. Qed.

Lemma map_quiet o f :
  (∀ m, ms_ID (f m) = ms_ID m) → (∀ m, quiet m (f m)) →
  quiet_order o (o <| o_Milestones ::= map f |>).
Proof.
  intros Hid Hq. eapply (milestones_rel_quiet quiet); [done|].
  by apply milestones_rel_map.
Qed.

Lemma disconnect_quiet o : quiet_order o (disconnect_order o).
Proof.
  unfold disconnect_order. etransitivity; [apply status_quiet|].
  apply map_quiet; [apply disconnect_milestone_id|apply disconnect_milestone_quiet].
Qed.

Lemma resume_quiet o : quiet_order o (resume_order o).
Proof.
  unfold resume_order.
  etransitivity; [|apply map_quiet; [apply resume_milestone_id|apply resume_milestone_quiet]].
  case_bool_decide; [apply status_quiet|done].
Qed.

(** The balance a step keeps, and the amount it pays. *)
Definition balanced (o o' : Order) (l : list LedgerEntry) : Prop :=
  ∀ id, settlements id l + settled_now o id = reimbursements id l + settled_now o' id
      ∧ base_price o' id = base_price o id
      ∧ paid id l = base_price o id * settlements id l.

Lemma quiet_balanced o o' : quiet_order o o' → balanced o o' [].
Proof.
  intros Hq id. destruct (Hq id) as [Hs Hb]. cbn.
  unfold settlements, reimbursements, paid, count. cbn. lia.
Qed.

Lemma balanced_app o1 o2 o3 l k :
  balanced o1 o2 l → balanced o2 o3 k → balanced o1 o3 (l ++ k).
Proof.
  intros H1 H2 id. destruct (H1 id) as (A1 & B1 & C1), (H2 id) as (A2 & B2 & C2).
  unfold settlements, reimbursements in *. rewrite paid_app, !count_app. nia.
Qed.

(** The kinds of entry, counted for one milestone. *)
Lemma is_settlement_settlement id o m input :
  is_settlement id (settlement_entry o m input) = String.eqb (ms_ID m) id.
Proof. unfold is_settlement, settlement_entry. cbn.
  destruct (String.eqb (o_FundingMode o) _); apply andb_true_r. Qed.
Lemma is_reimbursement_settlement id o m input :
  is_reimbursement id (settlement_entry o m input) = false.
Proof. unfold is_reimbursement, settlement_entry. cbn.
  destruct (String.eqb (o_FundingMode o) _); apply andb_false_r. Qed.

Lemma settled_now_changed o o' id id' m' :
  only_milestone_changed o o' id m' →
  settled_now o' id' = (if decide (id' = id) then
      if bool_decide (ms_State m' = MilestoneStateSettled) then 1 else 0
    else settled_now o id') ∧
  base_price o' id' = (if decide (id' = id) then ms_BasePriceCents m' else base_price o id').
Proof.
  intros (_ & _ & Hch). unfold settled_now, base_price. rewrite Hch. by case_decide.
Qed.

(** A settlement moves its milestone into the settled state and pays once. *)
Lemma settle_balanced o input entry flags o' :
  settle_order o input = (o', Ok (entry, flags)) → balanced o o' [entry].
Proof.
  unfold settle_order. pose proof (SettleMilestone_branches o input) as Hb.
  destruct (SettleMilestone o input) as [o1 [e|]]; [|done].
  pose proof (reconcile_quiet o1 (smi_MilestoneID input)) as Hrec.
  destruct (reconcile_order o1 _) as [o2 fl]. intros [= <- <- <-]. cbn in Hb, Hrec.
  destruct (milestone_of o (smi_MilestoneID input)) as [m|] eqn:Hm; [|by destruct Hb].
  destruct (payable (ms_State m)) eqn:Hpay; [|by destruct Hb].
  destruct Hb as ([= ->] & Hch & _).
  change [settlement_entry o m input] with ([settlement_entry o m input] ++ []).
  eapply balanced_app; [|apply quiet_balanced; etransitivity; [exact Hrec|apply advance_quiet]].
  intros id. destruct (settled_now_changed _ _ _ id _ Hch) as [-> ->].
  unfold settlements, reimbursements, paid, count. cbn.
  rewrite is_settlement_settlement, is_reimbursement_settlement.
  rewrite (milestone_of_id _ _ _ Hm).
  case_decide as Hid; subst; unfold settled_now, base_price; rewrite ?Hm.
  - rewrite String.eqb_refl. cbn.
    rewrite (bool_decide_eq_true_2 (MilestoneStateSettled = MilestoneStateSettled)) by done.
    assert (bool_decide (ms_State m = MilestoneStateSettled) = false) as ->
      by (by destruct (ms_State m)). lia.
  - destruct (String.eqb_spec (smi_MilestoneID input) id); [congruence|]. cbn. lia.
Qed.

Lemma dispute_balanced o input now refund recovery o' :
  OpenDispute o input now = (o', Ok (refund, recovery)) →
  balanced o o' [refund; recovery].
Proof.
  intros Hop. pose proof (OpenDispute_branches o input now) as Hb. rewrite Hop in Hb.
  cbn in Hb.
  destruct (milestone_of o (odi_MilestoneID input)) as [m|] eqn:Hm; [|by destruct Hb].
  destruct (_ && _) eqn:Hg; [|by destruct Hb].
  apply andb_true_iff in Hg as [[Hst%bool_decide_eq_true _]%andb_true_iff _].
  destruct Hb as ([= -> ->] & Hch & _). intros id.
  destruct (settled_now_changed _ _ _ id _ Hch) as [-> ->].
  unfold settlements, reimbursements, paid, count, is_settlement, is_reimbursement.
  cbn. rewrite (milestone_of_id _ _ _ Hm), !andb_false_r, andb_true_r.
  case_decide as Hid; subst; unfold settled_now, base_price; rewrite ?Hm.
  - rewrite String.eqb_refl, Hst. cbn.
    rewrite (bool_decide_eq_true_2 (MilestoneStateSettled = MilestoneStateSettled)) by done.
    rewrite (bool_decide_eq_false_2 (MilestoneStatePaused = MilestoneStateSettled)) by done.
    lia.
  - destruct (String.eqb_spec (odi_MilestoneID input) id); [congruence|]. cbn. lia.
Qed.

Lemma apply_op_balanced op o :
  let '(o', l) := apply_op op o in balanced o o' l.
Proof.
  assert (Hsame : balanced o o []) by (by apply quiet_balanced).
  destruct op as [input|input|input now|input|input| |]; cbn.
  - destruct (settle_order o input) as [o' [[entry flags]|]] eqn:H; [|done].
    by eapply settle_balanced.
  - pose proof (RecordUsageCharge_branches o input) as H. cbn in H.
    destruct (RecordUsageCharge o input) as [o' [c|]]; [|done].
    destruct (milestone_of o _) as [m|] eqn:Hm; [|by destruct H].
    destruct (_ && payable _) eqn:Hg; [|by destruct H].
    apply andb_true_iff in Hg as [_ Hg].
    apply quiet_balanced. destruct H as [_ H].
    case_match; destruct H as [H _]; (eapply changed_quiet; [exact Hm|exact H|]);
      split; cbn; try done. destruct (ms_State m); naive_solver.
  - destruct (OpenDispute o input now) as [o' [[refund recovery]|]] eqn:H; [|done].
    by eapply dispute_balanced.
  - pose proof (ResolveDispute_branches o input) as H. cbn in H.
    destruct (ResolveDispute o input) as [o' [[]|]]; [|done].
    destruct (milestone_of o _) as [m|] eqn:Hm; [|by destruct H].
    destruct (_ || _); [|by destruct H].
    apply quiet_balanced. by eapply changed_quiet; [exact Hm|apply H|].
  - destruct (tui_AdditionalCents input <=? 0); [done|].
    destruct (topup_order o input) eqn:H; [|done].
    apply quiet_balanced. by eapply topup_quiet.
  - apply quiet_balanced, disconnect_quiet.
  - apply quiet_balanced, resume_quiet.
Qed.

Lemma run_balanced ops o : let '(o', l) := run ops o in balanced o o' l.
Proof.
  revert o. induction ops as [|op ops IH]; intros o; cbn.
  - by apply quiet_balanced.
  - pose proof (apply_op_balanced op o) as H1.
    destruct (apply_op op o) as [o1 l1]. specialize (IH o1).
    destruct (run ops o1) as [o2 l2]. by eapply balanced_app.
Qed.

(** ** Well-formed orders *)

Definition milestone_paid_up (m : Milestone) : Prop :=
  ms_SettledCents m = ms_BasePriceCents m.

Record milestone_ok (m : Milestone) : Prop := {
  ok_amount : ms_SettledCents m = 0 ∨ milestone_paid_up m;
  ok_settled : ms_State m = MilestoneStateSettled →
    milestone_paid_up m ∧ ms_SettledAt m ≠ None;
  ok_pending : ms_State m = MilestoneStatePending →
    ms_SettledCents m = 0 ∧ ms_UsageCharges m = [];
  ok_disputed : ms_DisputeStatus m ≠ DisputeStatusNone → milestone_paid_up m;
  ok_charges : Forall (λ c, 0 < uc_AmountCents c) (ms_UsageCharges m);
}.

Definition order_ok (o : Order) : Prop :=
  Forall milestone_ok (o_Milestones o) ∧
  (o_Status o = OrderStatusCompleted → Forall milestone_paid_up (o_Milestones o)).

(** A change of one milestone that keeps it well formed and, if it was, paid up. *)
Definition safe (m m' : Milestone) : Prop :=
  milestone_ok m' ∧ (milestone_paid_up m → milestone_paid_up m').

Lemma order_ok_rel R o l s :
  (∀ m m', milestone_ok m → R m m' → safe m m') →
  Forall2 (λ m m', ms_ID m' = ms_ID m ∧ R m m') (o_Milestones o) l →
  s = o_Status o ∨ s ≠ OrderStatusCompleted →
  order_ok o → order_ok (o <| o_Milestones := l |> <| o_Status := s |>).
Proof.
  intros HR Hrel Hs [Hok Hc]. split; cbn.
  - clear Hs Hc. induction Hrel as [|m m' k k' [_ Hm] _ IH]; [done|].
    apply Forall_cons in Hok as [Hm0 Hok]. constructor; [|by apply IH].
    by eapply HR.
  - intros ->. destruct Hs as [Hs|Hs]; [|done]. specialize (Hc (eq_sym Hs)).
    clear Hs. induction Hrel as [|m m' k k' [_ Hm] _ IH]; [done|].
    apply Forall_cons in Hok as [Hm0 Hok], Hc as [Hm1 Hc].
    constructor; [|by apply IH]. by eapply HR.
Qed.

Lemma order_ok_set o id i m m' s :
  findMilestone o id = Ok (i, m) → safe m m' →
  s = o_Status o ∨ s ≠ OrderStatusCompleted →
  order_ok o → order_ok (set_milestone i m' o <| o_Status := s |>).
Proof.
  rewrite findMilestone_Ok. intros [_ Hl] [Hok' Hpaid] Hs [Hok Hc].
  unfold set_milestone. split; cbn.
  - by apply Forall_insert.
  - intros ->. destruct Hs as [Hs|Hs]; [|done]. specialize (Hc (eq_sym Hs)).
    apply Forall_insert; [done|]. apply Hpaid. by eapply Forall_lookup_1.
Qed.

Lemma order_ok_find o id i m :
  order_ok o → findMilestone o id = Ok (i, m) → milestone_ok m.
Proof. intros [Hok _] [_ Hl]%findMilestone_Ok. by eapply Forall_lookup_1. Qed.

Lemma order_ok_status o : order_ok o ↔ order_ok (o <| o_Status := o_Status o |>).
Proof. done. Qed.

Lemma settled_safe m input :
  milestone_ok m → payable (ms_State m) = true → safe m (settled_milestone m input).
Proof.
  intros [] Hp. split; [|done]. split; cbn; try done; try by right.
Qed.

Lemma SettleMilestone_ok o input :
  order_ok o → order_ok (SettleMilestone o input).1.
Proof.
  intros Hok. unfold SettleMilestone.
  find_milestone o (smi_MilestoneID input); [|done].
  destruct (payable (ms_State m)) eqn:Hpay; cbn [negb]; [|done]. cbn [fst].
  assert (order_ok (set_milestone i (settled_milestone m input) o)) as Hset.
  { eapply (order_ok_set _ _ _ _ _ (o_Status o)); [done|apply settled_safe| |done];
      [by eapply order_ok_find|done|by left]. }
  fold (settled_milestone m input) in *.
  destruct (isLastMilestoneSettled _) eqn:Hlast; [|exact Hset].
  split; [apply Hset|]. intros _. destruct Hset as [Hms _].
  apply isLastMilestoneSettled_spec in Hlast. cbn. clear -Hms Hlast.
  induction Hms as [|x l Hx _ IH]; [done|].
  apply Forall_cons in Hlast as [Hsx Hl]. constructor; [|by apply IH].
  by apply (ok_settled _ Hx).
Qed.

Lemma flags_safe m fl : milestone_ok m → safe m (m <| ms_AnomalyFlags := fl |>).
Proof. intros []. by split. Qed.

Lemma settle_order_ok o input o' r :
  order_ok o → settle_order o input = (o', Ok r) → order_ok o'.
Proof.
  intros Hok. unfold settle_order. pose proof (SettleMilestone_ok o input Hok) as H1.
  destruct (SettleMilestone o input) as [o1 [e|]]; [|done].
  unfold reconcile_order. pose proof (reconcile_list_rel (smi_MilestoneID input)
    (o_Milestones o1)) as Hrec.
  destruct (reconcile_list _ _) as [l fl]. intros [= <- <-]. cbn in *.
  apply (order_ok_rel reflagged o1 l (o_Status o1)) in Hrec; [| |by left|done].
  2:{ intros m m' Hm [flags ->]. by apply flags_safe. }
  refine (order_ok_rel advanced (o1 <| o_Milestones := l |>) _ (o_Status o1) _
    (advance_list_rel (smi_MilestoneID input) false l) (or_introl eq_refl) Hrec).
  intros m m' Hm [->|[Hp ->]]; [by split|]. destruct Hm. split; [|done].
  split; cbn; done.
Qed.

Lemma charged_safe m c s :
  milestone_ok m → payable (ms_State m) = true → 0 < uc_AmountCents c →
  s = ms_State m ∨ s = MilestoneStatePaused →
  safe m (charged_milestone m c <| ms_State := s |>).
Proof.
  intros [] Hp Hc Hs. split; [|done]. split; cbn; try done.
  - intros ->. destruct Hs as [Hs|Hs]; [|done]. by rewrite <- Hs in Hp.
  - intros ->. destruct Hs as [Hs|Hs]; [|done]. by rewrite <- Hs in Hp.
  - apply Forall_app. split; [done|]. by repeat constructor.
Qed.

Lemma RecordUsageCharge_ok o input o' c :
  order_ok o → RecordUsageCharge o input = (o', Ok c) → order_ok o'.
Proof.
  intros Hok. unfold RecordUsageCharge.
  find_milestone o (rui_MilestoneID input); [|done].
  destruct (Z.leb_spec (rui_AmountCents input) 0); [done|].
  destruct (payable (ms_State m)) eqn:Hpay; cbn [negb]; [|done].
  destruct (_ <? _); intros [= <- <-].
  - refine (order_ok_set o _ i m _ OrderStatusAwaitingBudget Hfind
      (charged_safe m (input_charge input) MilestoneStatePaused _ Hpay _ (or_intror eq_refl))
      (or_intror _) Hok); [by eapply order_ok_find|done|done].
  - refine (order_ok_set o _ i m _ (o_Status o) Hfind
      (charged_safe m (input_charge input) (ms_State m) _ Hpay _ (or_introl eq_refl))
      (or_introl eq_refl) Hok); [by eapply order_ok_find|done].
Qed.

Lemma OpenDispute_ok o input now o' r :
  order_ok o → OpenDispute o input now = (o', Ok r) → order_ok o'.
Proof.
  intros Hok. unfold OpenDispute.
  find_milestone o (odi_MilestoneID input); [|done].
  case_bool_decide as Hst; cbn [negb]; [|done].
  destruct (odi_RefundCents input <=? 0); [done|].
  destruct (ms_SettledCents m <? odi_RefundCents input); [done|].
  intros [= <- _].
  refine (order_ok_set o _ i m _ (o_Status o) Hfind _ (or_introl eq_refl) Hok).
  pose proof (order_ok_find _ _ _ _ Hok Hfind) as [].
  destruct (ok_settled0 Hst). split; [|done]. by split.
Qed.

Lemma ResolveDispute_ok o input o' r :
  order_ok o → ResolveDispute o input = (o', Ok r) → order_ok o'.
Proof.
  intros Hok. unfold ResolveDispute.
  find_milestone o (crdi_MilestoneID input); [|done].
  rewrite <- negb_orb. destruct (_ || _) eqn:Hd; cbn [negb]; [|done].
  intros [= <- _].
  refine (order_ok_set o _ i m _ (o_Status o) Hfind _ (or_introl eq_refl) Hok).
  pose proof (order_ok_find _ _ _ _ Hok Hfind) as [].
  assert (milestone_paid_up m).
  { apply ok_disputed0. intros Hn. by rewrite Hn in Hd. }
  split; [|done]. by split.
Qed.

Lemma topup_ok o input o' : order_ok o → topup_order o input = Some o' → order_ok o'.
Proof.
  intros Hok. unfold topup_order.
  find_milestone o (tui_MilestoneID input); [|done]. intros [= <-].
  pose proof (order_ok_find _ _ _ _ Hok Hfind) as [].
  case_bool_decide as Hst.
  - refine (order_ok_set o _ i m _ OrderStatusRunning Hfind _ (or_intror _) Hok); [|done].
    split; [|done]. by split.
  - refine (order_ok_set o _ i m _ (o_Status o) Hfind _ (or_introl eq_refl) Hok).
    split; [|done]. by split.
Qed.

Lemma map_safe o f s :
  (∀ m, ms_ID (f m) = ms_ID m) → (∀ m, milestone_ok m → safe m (f m)) →
  s = o_Status o ∨ s ≠ OrderStatusCompleted → order_ok o →
  order_ok (o <| o_Milestones ::= map f |> <| o_Status := s |>).
Proof.
  intros Hid Hf Hs Hok.
  refine (order_ok_rel (λ m m', m' = f m) o _ s _ _ Hs Hok).
  - intros m m' Hm ->. by apply Hf.
  - clear -Hid. induction (o_Milestones o); constructor; auto.
Qed.

Lemma disconnect_ok o : order_ok o → order_ok (disconnect_order o).
Proof.
  intros Hok. refine (map_safe o disconnect_milestone OrderStatusAwaitingPaymentRail
    disconnect_milestone_id _ (or_intror _) Hok); [|done].
  intros m []. unfold disconnect_milestone.
  repeat case_match; (split; [split; cbn; done|done]).
Qed.

Lemma resume_ok o : order_ok o → order_ok (resume_order o).
Proof.
  intros Hok. assert (∀ m, milestone_ok m → safe m (resume_milestone m)) as Hs.
  { intros m []. unfold resume_milestone. case_match; (split; [split; cbn; done|done]). }
  unfold resume_order. case_bool_decide.
  - refine (map_safe o resume_milestone OrderStatusRunning resume_milestone_id Hs
      (or_intror _) Hok). done.
  - refine (map_safe o resume_milestone (o_Status o) resume_milestone_id Hs
      (or_introl _) Hok). done.
Qed.

Lemma apply_op_ok op o : order_ok o → order_ok (apply_op op o).1.
Proof.
  intros Hok. destruct op as [input|input|input now|input|input| |]; cbn.
  - destruct (settle_order o input) as [o' [[e fl]|]] eqn:H; [|done].
    by eapply settle_order_ok.
  - destruct (RecordUsageCharge o input) as [o' [c|]] eqn:H; [|done].
    by eapply RecordUsageCharge_ok.
  - destruct (OpenDispute o input now) as [o' [[e1 e2]|]] eqn:H; [|done].
    by eapply OpenDispute_ok.
  - destruct (ResolveDispute o input) as [o' [[]|]] eqn:H; [|done].
    by eapply ResolveDispute_ok.
  - destruct (_ <=? 0); [done|]. destruct (topup_order o input) eqn:H; [|done].
    by eapply topup_ok.
  - by apply disconnect_ok.
  - by apply resume_ok.
Qed.

Lemma run_ok ops o : order_ok o → order_ok (run ops o).1.
Proof.
  revert o. induction ops as [|op ops IH]; intros o Hok; cbn; [done|].
  pose proof (apply_op_ok op o Hok) as H1. destruct (apply_op op o) as [o1 l1].
  specialize (IH o1 H1). by destruct (run ops o1).
Qed.

(** ** Settling an order from end to end *)

Lemma find_index_app id pre m post :
  ms_ID m = id → id ∉ (ms_ID <$> pre) →
  find_index id (pre ++ m :: post) = Some (length pre).
Proof.
  intros Hid. induction pre as [|x pre IH]; cbn; intros Hin.
  - by rewrite Hid, String.eqb_refl.
  - apply not_elem_of_cons in Hin as [Hne Hin].
    destruct (String.eqb_spec (ms_ID x) id); [congruence|]. by rewrite IH.
Qed.

Lemma advance_list_skip id b pre l :
  id ∉ (ms_ID <$> pre) → Forall (λ m, ms_State m ≠ MilestoneStatePending) pre →
  advance_list b id (pre ++ l) = pre ++ advance_list b id l.
Proof.
  revert b. induction pre as [|x pre IH]; intros b; cbn; [done|].
  intros [Hne Hin]%not_elem_of_cons [Hx Hpre]%Forall_cons.
  destruct (String.eqb_spec (ms_ID x) id); [congruence|].
  rewrite (bool_decide_eq_false_2 _ Hx), andb_false_r. by rewrite IH.
Qed.

Lemma advance_list_hit id b m l :
  ms_ID m = id → advance_list b id (m :: l) = m :: advance_list true id l.
Proof. intros <-. cbn. by rewrite String.eqb_refl. Qed.

Lemma reconcile_list_at id pre m post :
  ms_ID m = id → id ∉ (ms_ID <$> pre) →
  ∃ flags, (reconcile_list id (pre ++ m :: post)).1 =
           pre ++ (m <| ms_AnomalyFlags := flags |>) :: post.
Proof.
  intros Hid. induction pre as [|x pre IH]; intros Hin; cbn [app reconcile_list].
  - rewrite Hid, String.eqb_refl. destruct (Anomalies _) as [|a l].
    + exists (ms_AnomalyFlags m). by destruct m.
    + by exists (a :: l).
  - cbn in Hin. apply not_elem_of_cons in Hin as [Hne Hin].
    destruct (String.eqb_spec (ms_ID x) id); [congruence|].
    destruct (IH Hin) as [flags H]. exists flags.
    destruct (reconcile_list id _). cbn in *. by rewrite H.
Qed.

(** The next milestone, started. *)
Definition start_next (post : list Milestone) : list Milestone :=
  match post with
  | [] => []
  | p :: ps => (p <| ms_State := MilestoneStateRunning |>) :: ps
  end.

Definition all_settled (l : list Milestone) : Prop :=
  Forall (λ m, ms_State m = MilestoneStateSettled) l.
Definition all_pending (l : list Milestone) : Prop :=
  Forall (λ m, ms_State m = MilestoneStatePending) l.

Lemma settle_order_at o input pre m post :
  o_Milestones o = pre ++ m :: post →
  ms_ID m = smi_MilestoneID input →
  NoDup (ms_ID <$> o_Milestones o) →
  all_settled pre → payable (ms_State m) = true → all_pending post →
  ∃ o' m' flags,
    settle_order o input = (o', Ok (settlement_entry o m input, flags)) ∧
    o_Milestones o' = pre ++ m' :: start_next post ∧
    ms_State m' = MilestoneStateSettled ∧ ms_ID m' = ms_ID m ∧
    (post = [] → o_Status o' = OrderStatusCompleted).
Proof.
  intros Hms Hid Hnd Hpre Hpay Hpost.
  assert (Hnin : smi_MilestoneID input ∉ (ms_ID <$> pre)).
  { rewrite Hms, fmap_app in Hnd. apply NoDup_app in Hnd as (_ & Hd & _).
    intros Hin. apply (Hd _ Hin). rewrite <- Hid. constructor. }
  assert (Hf : findMilestone o (smi_MilestoneID input) = Ok (length pre, m)).
  { apply findMilestone_Ok. rewrite Hms. split; [by apply find_index_app|].
    by rewrite list_lookup_middle. }
  set (m1 := settled_milestone m input).
  assert (Hset : o_Milestones (set_milestone (length pre) m1 o) = pre ++ m1 :: post).
  { unfold set_milestone. cbn. rewrite Hms.
    rewrite insert_app_r_alt by done. by rewrite Nat.sub_diag. }
  unfold settle_order, SettleMilestone. rewrite Hf, Hpay. cbn [negb].
  fold (settled_milestone m input). fold m1.
  set (o1 := if isLastMilestoneSettled _ then _ else _).
  assert (Ho1 : o_Milestones o1 = pre ++ m1 :: post) by (unfold o1; by case_match).
  assert (Hst1 : post = [] → o_Status o1 = OrderStatusCompleted).
  { intros ->. unfold o1. rewrite (proj2 (isLastMilestoneSettled_spec _)); [done|].
    rewrite Hset. apply Forall_app. split; [exact Hpre|]. by repeat constructor. }
  assert (Hhead : o_FundingMode o1 = o_FundingMode o ∧ o_ID o1 = o_ID o)
    by (unfold o1; by case_match).
  destruct Hhead as [Hfm Hoid].
  unfold reconcile_order. rewrite Ho1.
  destruct (reconcile_list_at (smi_MilestoneID input) pre m1 post Hid Hnin) as [flags Hrec].
  destruct (reconcile_list _ _) as [l2 anomalies]. cbn [fst] in Hrec. subst l2.
  eexists _, (m1 <| ms_AnomalyFlags := flags |>), anomalies.
  split; [by rewrite Hfm, Hoid|]. split; [|done].
  unfold advanceNextMilestone. cbn [update o_Milestones].
  rewrite advance_list_skip;
    [|done|eapply Forall_impl; [exact Hpre|]; cbn; intros x Hx; by rewrite Hx].
  cbn [app]. rewrite advance_list_hit by exact Hid. do 2 f_equal.
  destruct post as [|p ps]; [done|]. cbn [advance_list start_next].
  apply Forall_cons in Hpost as [Hp _].
  rewrite (proj2 (String.eqb_neq (ms_ID p) _)); [by rewrite Hp|].
  rewrite Hms, fmap_app in Hnd. cbn in Hnd. apply NoDup_app in Hnd as (_ & _ & Hnd).
  apply NoDup_cons in Hnd as [Hn _]. intros He. apply Hn. rewrite Hid, <- He.
  constructor.
Qed.

(** Settling the milestones of [o] one after the other, whatever the summaries,
    sources and times. *)
Lemma settle_in_order o inputs pre m post :
  o_Milestones o = pre ++ m :: post →
  (ms_ID <$> (m :: post)) = (smi_MilestoneID <$> inputs) →
  NoDup (ms_ID <$> o_Milestones o) →
  all_settled pre → payable (ms_State m) = true → all_pending post →
  o_Status (run (OpSettle <$> inputs) o).1 = OrderStatusCompleted ∧
  (le_MilestoneID <$> (run (OpSettle <$> inputs) o).2) = (ms_ID <$> (m :: post)) ∧
  (le_AmountCents <$> (run (OpSettle <$> inputs) o).2) =
    (ms_BasePriceCents <$> (m :: post)).
Proof.
  revert o inputs pre m. induction post as [|p ps IH];
    intros o [|input inputs] pre m Hms Hids Hnd Hpre Hpay Hpost; try done;
    injection Hids as Hid Hids;
    destruct (settle_order_at _ _ _ _ _ Hms Hid Hnd Hpre Hpay Hpost)
      as (o' & m' & flags & Hs & Hms' & Hst' & Hid' & Hdone); cbn [fmap list_fmap run apply_op];
    rewrite Hs.
  - destruct inputs; [|done]. cbn. by rewrite Hdone.
  - apply Forall_cons in Hpost as [Hp Hps].
    destruct (IH o' inputs (pre ++ [m']) (p <| ms_State := MilestoneStateRunning |>))
      as (H1 & H2 & H3).
    + rewrite Hms'. cbn. by rewrite <- app_assoc.
    + exact Hids.
    + revert Hnd. rewrite Hms, Hms', !fmap_app. cbn. by rewrite Hid'.
    + apply Forall_app. by split; [|repeat constructor].
    + done.
    + done.
    + cbn [fmap list_fmap] in H1, H2, H3.
      destruct (run _ o') as [o2 l2]. cbn in *. by rewrite H2, H3.
Qed.

(** ** Properties *)

(** C9. The ledger of an order balances.  Over any history of operations, a
    milestone is paid once for each time it is disputed, plus once if it ends
    up settled, less once if it started settled; every payment is of its base
    price, which no operation changes.  In particular a history without
    disputes never pays a milestone twice. *)
Theorem order_ledger_balance ops o id :
  let '(o', l) := run ops o in
  settlements id l + settled_now o id = reimbursements id l + settled_now o' id ∧
  paid id l = base_price o id * settlements id l ∧
  base_price o' id = base_price o id.
Proof.
  pose proof (run_balanced ops o) as H. destruct (run ops o) as [o' l].
  by destruct (H id) as (H1 & H2 & H3).
Qed.

(** An order as [CreateOrder] builds it: the first milestone runs, the others
    wait, nothing is settled, charged or disputed. *)
Definition sample_order : Order :=
  mkOrder "ord_1" "buyer" "provider" FundingModePrepaid "" "platform_main"
    OrderStatusRunning
    [ mkMilestone "ms_1" "Setup" 200 200 0 "" MilestoneStateRunning
        DisputeStatusNone [] None [];
      mkMilestone "ms_2" "Execution" 600 600 0 "" MilestoneStatePending
        DisputeStatusNone [] None [];
      mkMilestone "ms_3" "Delivery" 200 200 0 "" MilestoneStatePending
        DisputeStatusNone [] None [] ].

Lemma sample_order_ok : order_ok sample_order.
Proof.
  split; [|done].
  repeat constructor; cbn; auto; try done; try (by intros []); by left.
Qed.

(** Well-formedness is an invariant of every history.  A milestone holds
    either nothing or exactly its base price; a settled one holds its base
    price and the time it was settled, a pending one has no usage, a disputed
    one was paid; usage charges are positive; and once an order is completed
    every milestone has been settled for its base price. *)
Theorem order_ok_invariant ops o :
  order_ok o → order_ok (run ops o).1.
Proof. apply run_ok. Qed.

Lemma order_ok_invariant_witness :
  order_ok (run [OpUsage (mkRecordUsageChargeInput "ms_1" "token" 50 "" "" "");
                 OpDisconnect; OpResume; OpTopUp (mkTopUpInput "ms_1" 100);
                 OpSettle (mkSettleMilestoneInput "ms_1" "done" "carrier" 7);
                 OpDispute (mkOpenDisputeInput "ms_1" "late" 150) 8] sample_order).1.
Proof. apply (order_ok_invariant _ sample_order). exact sample_order_ok. Defined.

(** C40. Every order can be carried through.  An order whose first milestone
    runs, whose other milestones are pending and whose ids are distinct is
    completed by settling its milestones in order, each settlement succeeds,
    and the ledger shows every milestone once, at its base price. *)
Theorem settling_in_order_completes o inputs m post :
  o_Milestones o = m :: post →
  ms_State m = MilestoneStateRunning → all_pending post →
  NoDup (ms_ID <$> o_Milestones o) →
  (smi_MilestoneID <$> inputs) = (ms_ID <$> o_Milestones o) →
  o_Status (run (OpSettle <$> inputs) o).1 = OrderStatusCompleted ∧
  (le_MilestoneID <$> (run (OpSettle <$> inputs) o).2) = (ms_ID <$> o_Milestones o) ∧
  (le_AmountCents <$> (run (OpSettle <$> inputs) o).2) =
    (ms_BasePriceCents <$> o_Milestones o).
Proof.
  intros Hms Hrun Hpost Hnd Hids. rewrite Hms in Hids |- *.
  apply (settle_in_order o inputs [] m post Hms (eq_sym Hids) Hnd);
    [constructor|by rewrite Hrun|done].
Qed.

Definition sample_settlements : list SettleMilestoneInput :=
  [ mkSettleMilestoneInput "ms_1" "a" "carrier" 1;
    mkSettleMilestoneInput "ms_2" "b" "carrier" 2;
    mkSettleMilestoneInput "ms_3" "c" "carrier" 3 ].

Lemma settling_in_order_completes_witness :
  o_Status (run (OpSettle <$> sample_settlements) sample_order).1 = OrderStatusCompleted.
Proof.
  eapply (settling_in_order_completes sample_order sample_settlements).
  - reflexivity.
  - reflexivity.
  - by repeat constructor.
  - by apply (bool_decide_unpack _).
  - reflexivity.
Defined.

(** A disputed milestone can be paid again.  Opening a dispute pauses the
    milestone, and a paused milestone is payable: whatever was disputed, the
    next settlement succeeds and writes a second entry for the full base
    price. *)
Theorem dispute_does_not_freeze o dispute now o1 entries input :
  OpenDispute o dispute now = (o1, Ok entries) →
  smi_MilestoneID input = odi_MilestoneID dispute →
  ∃ m o2 entry,
    milestone_of o (odi_MilestoneID dispute) = Some m ∧
    ms_State m = MilestoneStateSettled ∧
    SettleMilestone o1 input = (o2, Ok entry) ∧
    le_AmountCents entry = ms_BasePriceCents m.
Proof.
  intros Hop Hid. pose proof (OpenDispute_branches o dispute now) as Hd.
  rewrite Hop in Hd. cbn in Hd.
  destruct (milestone_of o (odi_MilestoneID dispute)) as [m|] eqn:Hm; [|by destruct Hd].
  destruct (_ && _) eqn:Hg; [|by destruct Hd].
  apply andb_true_iff in Hg as [[Hst%bool_decide_eq_true _]%andb_true_iff _].
  destruct Hd as (_ & (_ & _ & Hch) & _).
  pose proof (SettleMilestone_branches o1 input) as Hs. cbn in Hs.
  rewrite Hid, Hch, decide_True in Hs by done. cbn in Hs.
  destruct (SettleMilestone o1 input) as [o2 r]. destruct Hs as [-> _].
  by eexists _, _, _.
Qed.

Lemma dispute_does_not_freeze_witness :
  ∃ m o2 entry,
    milestone_of (run (OpSettle <$> sample_settlements) sample_order).1 "ms_2" = Some m ∧
    ms_State m = MilestoneStateSettled ∧
    SettleMilestone
      (OpenDispute (run (OpSettle <$> sample_settlements) sample_order).1
         (mkOpenDisputeInput "ms_2" "bad work" 1) 9).1
      (mkSettleMilestoneInput "ms_2" "again" "carrier" 10) = (o2, Ok entry) ∧
    le_AmountCents entry = ms_BasePriceCents m.
Proof.
  eapply (dispute_does_not_freeze _ (mkOpenDisputeInput "ms_2" "bad work" 1) 9).
  - vm_compute. reflexivity.
  - reflexivity.
Defined.

Lemma flagged_added l : flagged (l ++ [disconnect_flag]) = true.
Proof. unfold flagged. rewrite existsb_app. apply orb_true_r. Qed.

Lemma strip_added l :
  List.filter (λ f, negb (String.eqb f disconnect_flag)) (l ++ [disconnect_flag]) =
  List.filter (λ f, negb (String.eqb f disconnect_flag)) l.
Proof. rewrite List.filter_app. apply app_nil_r. Qed.

(** What a payment-rail outage leaves behind.  A milestone that was running
    or paused when the provider disconnected is running once it has recovered,
    without the outage's flag; a pending or settled one keeps its state and
    carries the flag for good. *)
Theorem outage_roundtrip m :
  let m' := resume_milestone (disconnect_milestone m) in
  if payable (ms_State m) then
    ms_State m' = MilestoneStateRunning ∧
    ms_AnomalyFlags m' =
      List.filter (λ f, negb (String.eqb f disconnect_flag)) (ms_AnomalyFlags m)
  else
    ms_State m' = ms_State m ∧ has_flag m' = true.
Proof.
  unfold disconnect_milestone, resume_milestone, has_flag, payable.
  destruct m as [? ? ? ? ? ? st ? ? ? flags]. cbn.
  destruct st; decide_closed; cbn; destruct (flagged flags) eqn:Hfl; cbn;
    decide_closed; rewrite ?flagged_added, ?Hfl; cbn;
    rewrite ?strip_added, ?flagged_added, ?Hfl; auto.
Qed.

(** The budget wall is not restored by a top-up.  Topping up a paused
    milestone restarts it and its order by however little it was topped up: an
    order in service reaches a state where its running milestone's spend is
    over its budget.  The same holds after an outage of the payment rail, with
    no top-up at all. *)
Theorem budget_wall_bypassed :
  let usage := OpUsage (mkRecordUsageChargeInput "ms_1" "token" 500 "" "" "") in
  let over_budget ops :=
    let o' := (run ops sample_order).1 in
    o_Status o' = OrderStatusRunning ∧
    ∃ m, milestone_of o' "ms_1" = Some m ∧ ms_State m = MilestoneStateRunning ∧
         ms_BudgetCents m < CurrentSpendCents m in
  over_budget [usage; OpTopUp (mkTopUpInput "ms_1" 1)] ∧
  over_budget [usage; OpDisconnect; OpResume].
Proof.
  split; (split; [reflexivity|]); eexists; (split; [reflexivity|]); by split.
Qed.
