(* ===== verification/ProviderSettlement.v ===== *)
(** * Provider settlement (internal/platform/provider_settlement.go)

    Settlement bindings, the liquidity pool of each provider, and the
    reservations that awards make against it.  The methods that call the
    provisioner release the mutex around the call: each is written as its two
    locked sections ([reserve_begin] and [reserve_commit] for an award, [recover_begin]
    and [recover_end], [warm_begin] and [warm_end]) with the call between them, and as
    their composition.  [turns] interleaves the sections of any number of requests. *)

From S2P Require Import Prelude GoNum GoText Core Market Repo App Lifecycle.

Section settlement.
Context `{Storage} `{MO : MapOrder}.

Definition reindexSettlementBindings (a : App) : App :=
  a <| settlementBindingsByOrg := Some
        (foldl (λ idx '(i, b), <[psb_ProviderOrgID b := i]> idx) ∅
           (zip (seq 0 (length (settlementBindings a))) (settlementBindings a))) |>.

Definition reindexCarrierBindings (a : App) : App :=
  a <| carrierBindingsByOrg := Some
        (foldl (λ idx '(i, b), <[pcb_ProviderOrgID b := i]> idx) ∅
           (zip (seq 0 (length (carrierBindings a))) (carrierBindings a))) |>.

(** [activeCarrierBindingLocked] *)
Definition activeCarrierBinding (providerOrgID : string)
    : M (option ProviderCarrierBinding) := λ a,
  let a := match carrierBindingsByOrg a with
           | None => reindexCarrierBindings a | Some _ => a end in
  let idx := default ∅ (carrierBindingsByOrg a) !! providerOrgID in
  (a, Ok (i ← idx; carrierBindings a !! i)).

(** [activeSettlementBindingLocked] *)
Definition activeSettlementBinding (providerOrgID : string)
    : M (option ProviderSettlementBinding) := λ a,
  let a := match settlementBindingsByOrg a with
           | None => reindexSettlementBindings a | Some _ => a end in
  let idx := default ∅ (settlementBindingsByOrg a) !! providerOrgID in
  (a, Ok (i ← idx; settlementBindings a !! i)).

(** A read of [settlementPools]: the zero pool when there is none. *)
Definition pool_of (a : App) (providerOrgID : string) : ProviderLiquidityPool :=
  default zero_pool (settlementPools a !! providerOrgID).

Definition put_pool (providerOrgID : string) (p : ProviderLiquidityPool) : M () :=
  modify (λ a, a <| settlementPools ::= <[providerOrgID := p]> |>).

(** A call of the provisioner. *)
Definition ensure (p : Provisioner) (input : EnsureProviderLiquidityInput)
    : M EnsureProviderLiquidityResult := λ a,
  (a <| ext := ext a <| ext_provisioned ::= (λ l, l ++ [input]) |> |>,
   p (ext_provisioned (ext a)) input).

(** ** Bindings *)

Definition RegisterProviderSettlementBinding (input : ProviderSettlementBinding)
    : M ProviderSettlementBinding :=
  _ ← fail_if (blank (psb_ProviderOrgID input) || blank (psb_Asset input)
               || blank (psb_PeerID input) || blank (psb_P2PAddress input))
        ErrMissingRequiredFields;
  a ← get_st;
  _ ← fail_if (existsb (λ b, String.eqb (psb_ProviderOrgID b) (psb_ProviderOrgID input)
                             && String.eqb (psb_Status b) "active")
                 (settlementBindings a))
        (Errf ("active settlement binding already exists for provider " +:+
           psb_ProviderOrgID input));
  createdAt ← now;
  let n := length (settlementBindings a) in
  let binding := mkProviderSettlementBinding
    ("psb_" +:+ pretty (Z.of_nat n + 1)) (psb_ProviderOrgID input)
    (psb_Asset input) (psb_PeerID input) (psb_P2PAddress input)
    (psb_NodeRPCURL input) (psb_PaymentRequestBaseURL input)
    (psb_UDTTypeScript input) (psb_OwnershipProof input)
    "pending_verification" createdAt None None in
  _ ← modify (λ a, a
    <| settlementBindings ::= (λ l, l ++ [binding]) |>
    <| settlementBindingsByOrg ::=
         (λ idx, Some (<[psb_ProviderOrgID binding := n]> (default ∅ idx))) |>);
  mret binding.

Definition GetProviderSettlementBinding (providerOrgID : string)
    : M ProviderSettlementBinding :=
  b ← activeSettlementBinding providerOrgID;
  match b with
  | Some b => mret b
  | None => throw (EWrap ErrProviderSettlementBindingNotFound providerOrgID)
  end.

(** The first binding with the id, as an index. *)
Definition find_binding (bindingID : string) (a : App)
    : option (nat * ProviderSettlementBinding) :=
  list_find (λ b, psb_ID b = bindingID) (settlementBindings a).

Definition VerifyProviderSettlementBinding (bindingID : string)
    : M ProviderSettlementBinding :=
  a ← get_st;
  match find_binding bindingID a with
  | None => throw (Errf ("settlement binding not found: " +:+ bindingID))
  | Some (i, b) =>
      now ← now;
      let b := b <| psb_Status := "active" |> <| psb_VerifiedAt := Some now |> in
      _ ← modify (λ a, a <| settlementBindings ::= <[i := b]> |>);
      _ ← put_pool (psb_ProviderOrgID b)
            (zero_pool <| pool_BindingID := psb_ID b |>
                       <| pool_ProviderOrgID := psb_ProviderOrgID b |>
                       <| pool_Asset := psb_Asset b |>
                       <| pool_Status := PoolStatusHealthy |>
                       <| pool_LastHealthyAt := Some now |>);
      mret b
  end.

Definition SuspendProviderSettlementBinding (bindingID : string)
    : M ProviderSettlementBinding :=
  a ← get_st;
  match find_binding bindingID a with
  | None => throw (Errf ("settlement binding not found: " +:+ bindingID))
  | Some (i, b) =>
      now ← now;
      let b := b <| psb_Status := "suspended" |> <| psb_LastIncidentAt := Some now |> in
      _ ← modify (λ a, a <| settlementBindings ::= <[i := b]> |>);
      _ ← put_pool (psb_ProviderOrgID b)
            (pool_of a (psb_ProviderOrgID b)
               <| pool_BindingID := psb_ID b |>
               <| pool_ProviderOrgID := psb_ProviderOrgID b |>
               <| pool_Asset := psb_Asset b |>
               <| pool_Status := PoolStatusSuspended |>
               <| pool_LastFailureAt := Some now |>);
      mret b
  end.

(** ** Reads *)

Definition GetProviderSettlementPool (providerOrgID : string)
    : M ProviderLiquidityPool :=
  a ← get_st;
  match settlementPools a !! providerOrgID with
  | Some pool => mret pool
  | None => throw (Errf ("no settlement pool for provider " +:+ providerOrgID))
  end.

Definition GetProviderSettlementReservation (orderID : string)
    : M ProviderLiquidityReservation :=
  a ← get_st;
  match settlementReservationByOrder a !! orderID with
  | None => throw (Errf ("no settlement reservation for order " +:+ orderID))
  | Some reservationID =>
      match settlementReservations a !! reservationID with
      | Some reservation => mret reservation
      | None => throw (Errf ("settlement reservation not found: " +:+ reservationID))
      end
  end.

(** ** Reservations *)

Definition providerSettlementBufferBPS (a : App) : Z :=
  if settlementBufferBPS a <=? 0 then 1000 else settlementBufferBPS a.

(** The statuses in which an award finds the pool unavailable. *)
Definition award_unavailable (s : PoolStatus) : bool :=
  bool_decide (s = PoolStatusDisconnected) || bool_decide (s = PoolStatusRecovering)
  || bool_decide (s = PoolStatusSuspended) || bool_decide (s = PoolStatusDegraded).

(** What the first locked section of a reservation carries out of the lock. *)
Record ReserveSnapshot := mkReserveSnapshot {
  rs_Binding : ProviderSettlementBinding;
  rs_Pool : ProviderLiquidityPool;
  rs_BufferBPS : Z;
  rs_WarmTTL : Z;
  rs_Provisioner : option Provisioner;
}.

(** First locked section; [None] when the provider has no carrier binding,
    for which nothing is reserved. *)
Definition reserve_begin (providerOrgID : string) : M (option ReserveSnapshot) :=
  carrierBinding ← activeCarrierBinding providerOrgID;
  match carrierBinding with
  | None => mret None
  | Some carrierBinding =>
      _ ← fail_if (String.eqb (pcb_Status carrierBinding) "suspended")
            ErrProviderSuspended;
      settlementBinding ← activeSettlementBinding providerOrgID;
      match settlementBinding with
      | None => throw ErrProviderSettlementBindingRequired
      | Some settlementBinding =>
          _ ← fail_if (negb (String.eqb (psb_Status settlementBinding) "active"))
                ErrProviderSettlementPoolUnavailable;
          a ← get_st;
          let currentPool := pool_of a providerOrgID in
          _ ← fail_if (award_unavailable (pool_Status currentPool))
                ErrProviderSettlementPoolUnavailable;
          mret (Some (mkReserveSnapshot settlementBinding currentPool
            (providerSettlementBufferBPS a) (settlementWarmTTL a)
            (settlementProvisioner a)))
      end
  end.

Definition needed_reserve (totalBudgetCents bufferBPS : Z) : Z :=
  totalBudgetCents +w totalBudgetCents *w bufferBPS /w 10000.

(** Between the locked sections: the call of the provisioner and the check of
    its answer against the pool as it was read. *)
Definition reserve_provision (providerOrgID : string) (totalBudgetCents : Z)
    (s : ReserveSnapshot) : M (Z * EnsureProviderLiquidityResult) :=
  match rs_Provisioner s with
  | None => throw ErrProviderSettlementProvisionerMissing
  | Some p =>
      let neededReserve := needed_reserve totalBudgetCents (rs_BufferBPS s) in
      r ← attempt (ensure p (mkEnsureInput providerOrgID (rs_Binding s) neededReserve
            (rs_Pool s)));
      match r with
      | Err e => throw (EPrefix "ensure provider liquidity" e)
      | Ok result =>
          _ ← fail_if (epr_TotalSpendableCents result <?
                       pool_ReservedOutstandingCents (rs_Pool s) +w neededReserve)
                ErrProviderSettlementPoolUnavailable;
          mret (neededReserve, result)
      end
  end.

(** The [WarmUntil] a provisioner's answer leaves in a pool. *)
Definition warm_until (result : EnsureProviderLiquidityResult) (warmTTL : Z) (now : Time)
    (old : option Time) : option Time :=
  match epr_WarmUntil result with
  | Some t => Some t
  | None => if 0 <? warmTTL then Some (now + warmTTL) else old
  end.

(** The fields every successful provisioning refreshes. *)
Definition refreshed_pool (pool : ProviderLiquidityPool) (providerOrgID : string)
    (binding : ProviderSettlementBinding) (result : EnsureProviderLiquidityResult)
    (warmTTL : Z) (now : Time) : ProviderLiquidityPool :=
  pool <| pool_BindingID := psb_ID binding |>
       <| pool_ProviderOrgID := providerOrgID |>
       <| pool_Asset := psb_Asset binding |>
       <| pool_Status := PoolStatusHealthy |>
       <| pool_ReadyChannelCount := epr_ReadyChannelCount result |>
       <| pool_TotalSpendableCents := epr_TotalSpendableCents result |>
       <| pool_LastHealthyAt := Some now |>
       <| pool_DisconnectReason := "" |>
       <| pool_WarmUntil := warm_until result warmTTL now (pool_WarmUntil pool) |>.

(** Second locked section. *)
Definition reserve_commit (providerOrgID : string) (s : ReserveSnapshot)
    (neededReserve : Z) (result : EnsureProviderLiquidityResult)
    : M ProviderLiquidityReservation :=
  now ← now;
  a ← get_st;
  let pool := pool_of a providerOrgID in
  let reserved := pool_ReservedOutstandingCents pool +w neededReserve in
  let pool := refreshed_pool pool providerOrgID (rs_Binding s) result (rs_WarmTTL s) now
    <| pool_ReservedOutstandingCents := reserved |>
    <| pool_AvailableToAllocateCents := epr_TotalSpendableCents result -w reserved |> in
  _ ← put_pool providerOrgID pool;
  let reservationID :=
    "plr_" +:+ pretty (Z.of_nat (size (settlementReservations a)) + 1) in
  let reservation := mkProviderLiquidityReservation reservationID ""
    (psb_ID (rs_Binding s)) providerOrgID neededReserve (epr_ChannelID result)
    (epr_ReuseSource result) "reserved" now None in
  _ ← modify (λ a, a <| settlementReservations ::= <[reservationID := reservation]> |>);
  mret reservation.

Definition maybeReserveProviderSettlementLiquidity (providerOrgID : string)
    (totalBudgetCents : Z) : M (option ProviderLiquidityReservation) :=
  s ← reserve_begin providerOrgID;
  match s with
  | None => mret None
  | Some s =>
      '(neededReserve, result) ← reserve_provision providerOrgID totalBudgetCents s;
      r ← reserve_commit providerOrgID s neededReserve result;
      mret (Some r)
  end.

Definition attachProviderSettlementReservation (reservationID orderID : string) : M () :=
  if blank reservationID || blank orderID then mret tt
  else
    a ← get_st;
    match settlementReservations a !! reservationID with
    | None => throw (Errf ("settlement reservation not found: " +:+ reservationID))
    | Some reservation =>
        let reservation := reservation <| plr_OrderID := orderID |>
                                       <| plr_Status := "active" |> in
        modify (λ a, a
          <| settlementReservations ::= <[reservationID := reservation]> |>
          <| settlementReservationByOrder ::= <[orderID := reservationID]> |>)
    end.

Definition releaseProviderSettlementReservation (reservationID : string) : M () :=
  if blank reservationID then mret tt
  else
    a ← get_st;
    match settlementReservations a !! reservationID with
    | None => mret tt
    | Some reservation =>
        if String.eqb (plr_Status reservation) "released" then mret tt
        else
          let pool := pool_of a (plr_ProviderOrgID reservation) in
          let reserved := pool_ReservedOutstandingCents pool
                            -w plr_ReservedCents reservation in
          let reserved := if reserved <? 0 then 0 else reserved in
          let pool := pool
            <| pool_ReservedOutstandingCents := reserved |>
            <| pool_AvailableToAllocateCents :=
                 pool_TotalSpendableCents pool -w reserved |> in
          _ ← put_pool (plr_ProviderOrgID reservation) pool;
          now ← now;
          let reservation := reservation <| plr_Status := "released" |>
                                         <| plr_ReleasedAt := Some now |> in
          modify (λ a, a
            <| settlementReservations ::= <[plr_ID reservation := reservation]> |>)
    end.

(** ** Outage and recovery *)

(** The reservations an outage of a provider concerns. *)
Definition concerns (providerOrgID : string) (r : ProviderLiquidityReservation) : bool :=
  String.eqb (plr_ProviderOrgID r) providerOrgID
  && negb (String.eqb (plr_OrderID r) "")
  && String.eqb (plr_Status r) "active".

(** The loops over the reservations: an order that cannot be read is skipped,
    a save that fails ends the loop. *)
Definition update_reserved_orders (providerOrgID : string) (f : Order → Order) : M () :=
  a ← get_st;
  for_each (map_order (map_to_list (settlementReservations a))) (λ '(_, reservation),
    if concerns providerOrgID reservation then
      r ← attempt (query orders (order_Get (plr_OrderID reservation)));
      match r with
      | Err _ => mret tt
      | Ok order => on_orders (order_Save (f order))
      end
    else mret tt).

Definition ReportProviderSettlementDisconnect (providerOrgID reason : string) : M () :=
  now ← now;
  _ ← modify (λ a,
    match default ∅ (settlementBindingsByOrg a) !! providerOrgID with
    | Some idx => a <| settlementBindings ::=
                         alter (λ b, b <| psb_LastIncidentAt := Some now |>) idx |>
    | None => a
    end);
  a ← get_st;
  match settlementPools a !! providerOrgID with
  | None => throw (Errf ("no settlement pool for provider " +:+ providerOrgID))
  | Some pool =>
      _ ← put_pool providerOrgID
            (pool <| pool_Status := PoolStatusDisconnected |>
                  <| pool_DisconnectReason := reason |>
                  <| pool_LastFailureAt := Some now |>
                  <| pool_WarmUntil := None |>);
      update_reserved_orders providerOrgID disconnect_order
  end.

Definition resumeProviderSettlementOrders (providerOrgID : string) : M () :=
  update_reserved_orders providerOrgID resume_order.

(** The checks that open [RecoverProviderSettlement] and
    [WarmProviderSettlementPool]. *)
Definition provisioning_begin (providerOrgID : string)
    : M (ProviderSettlementBinding * ProviderLiquidityPool * Provisioner) :=
  b ← activeSettlementBinding providerOrgID;
  match b with
  | None => throw ErrProviderSettlementPoolUnavailable
  | Some b =>
      _ ← fail_if (negb (String.eqb (psb_Status b) "active"))
            ErrProviderSettlementPoolUnavailable;
      a ← get_st;
      match settlementPools a !! providerOrgID with
      | None => throw (Errf ("no settlement pool for provider " +:+ providerOrgID))
      | Some pool =>
          match settlementProvisioner a with
          | None => throw ErrProviderSettlementProvisionerMissing
          | Some p => mret (b, pool, p)
          end
      end
  end.

(** The available amount after recovering or warming, never negative. *)
Definition available_after (result : EnsureProviderLiquidityResult) (reserved : Z) : Z :=
  let available := epr_TotalSpendableCents result -w reserved in
  if available <? 0 then 0 else available.

(** What the first locked section of a recovery or a warming carries out of the lock. *)
Record ProvisionSnapshot := mkProvisionSnapshot {
  ps_Binding : ProviderSettlementBinding;
  ps_Pool : ProviderLiquidityPool;
  ps_Provisioner : Provisioner;
  ps_WarmTTL : Z;
}.

(** First locked section of a recovery. *)
Definition recover_begin (providerOrgID : string) : M ProvisionSnapshot :=
  '(settlementBinding, currentPool, p) ← provisioning_begin providerOrgID;
  a ← get_st;
  let warmTTL := settlementWarmTTL a in
  failedAt ← now;
  let currentPool := currentPool <| pool_Status := PoolStatusRecovering |>
                                 <| pool_LastFailureAt := Some failedAt |> in
  _ ← put_pool providerOrgID currentPool;
  let recoveryPool := currentPool
    <| pool_AvailableToAllocateCents := pool_TotalSpendableCents currentPool |> in
  mret (mkProvisionSnapshot settlementBinding recoveryPool p warmTTL).

(** Between the locked sections, with the pool as it was read. *)
Definition recover_provision (providerOrgID : string) (s : ProvisionSnapshot)
    : M (result EnsureProviderLiquidityResult) :=
  attempt (ensure (ps_Provisioner s) (mkEnsureInput providerOrgID (ps_Binding s)
    (pool_ReservedOutstandingCents (ps_Pool s)) (ps_Pool s))).

(** Second locked section, on the pool as it is by then. *)
Definition recover_end (providerOrgID : string) (s : ProvisionSnapshot)
    (answer : result EnsureProviderLiquidityResult) : M ProviderLiquidityPool :=
  a ← get_st;
  let pool := pool_of a providerOrgID in
  match answer with
  | Err e =>
      failedAt ← now;
      _ ← put_pool providerOrgID
            (pool <| pool_Status := PoolStatusDisconnected |>
                  <| pool_LastFailureAt := Some failedAt |>);
      throw (EPrefix "ensure provider liquidity" e)
  | Ok result =>
      healthyAt ← now;
      let pool := refreshed_pool pool providerOrgID (ps_Binding s) result
                    (ps_WarmTTL s) healthyAt
        <| pool_AvailableToAllocateCents :=
             available_after result (pool_ReservedOutstandingCents pool) |> in
      _ ← resumeProviderSettlementOrders providerOrgID;
      _ ← put_pool providerOrgID pool;
      mret pool
  end.

(** The sections one after the other, nothing in between. *)
Definition RecoverProviderSettlement (providerOrgID : string) : M ProviderLiquidityPool :=
  s ← recover_begin providerOrgID;
  answer ← recover_provision providerOrgID s;
  recover_end providerOrgID s answer.

(** First locked section of a warming. *)
Definition warm_begin (providerOrgID : string) : M ProvisionSnapshot :=
  '(settlementBinding, currentPool, p) ← provisioning_begin providerOrgID;
  a ← get_st;
  mret (mkProvisionSnapshot settlementBinding currentPool p (settlementWarmTTL a)).

(** Between the locked sections: the checks and the request are about the pool as it
    was read. *)
Definition warm_provision (providerOrgID : string) (minimumAvailableCents : Z)
    (s : ProvisionSnapshot) : M EnsureProviderLiquidityResult :=
  let currentPool := ps_Pool s in
  let minimumAvailableCents :=
    if minimumAvailableCents <? 0 then 0 else minimumAvailableCents in
  _ ← fail_if (bool_decide (pool_Status currentPool = PoolStatusDisconnected)
               || bool_decide (pool_Status currentPool = PoolStatusRecovering)
               || bool_decide (pool_Status currentPool = PoolStatusSuspended))
        ErrProviderSettlementPoolUnavailable;
  let neededReserve :=
    if minimumAvailableCents <? pool_AvailableToAllocateCents currentPool
    then pool_AvailableToAllocateCents currentPool else minimumAvailableCents in
  r ← attempt (ensure (ps_Provisioner s) (mkEnsureInput providerOrgID (ps_Binding s)
        neededReserve currentPool));
  match r with
  | Err e => throw (EPrefix "ensure provider liquidity" e)
  | Ok result => mret result
  end.

(** Second locked section. *)
Definition warm_end (providerOrgID : string) (s : ProvisionSnapshot)
    (result : EnsureProviderLiquidityResult) : M ProviderLiquidityPool :=
  a ← get_st;
  let pool := pool_of a providerOrgID in
  now ← now;
  let pool := refreshed_pool pool providerOrgID (ps_Binding s) result (ps_WarmTTL s) now
    <| pool_AvailableToAllocateCents :=
         available_after result (pool_ReservedOutstandingCents pool) |> in
  _ ← put_pool providerOrgID pool;
  mret pool.

Definition WarmProviderSettlementPool (providerOrgID : string)
    (minimumAvailableCents : Z) : M ProviderLiquidityPool :=
  s ← warm_begin providerOrgID;
  result ← warm_provision providerOrgID minimumAvailableCents s;
  warm_end providerOrgID s result.

(** ** Requests in flight

    A request between two of its locked sections.  An award holds a reservation until it
    attaches it to its order or, where the award fails, releases it; an order that was
    completed looks its reservation up in one section and releases it in another. *)
Inductive Flight :=
  | Reserving (providerOrgID : string) (totalBudgetCents : Z) (s : ReserveSnapshot)
  | Provisioned (providerOrgID : string) (s : ReserveSnapshot) (neededReserve : Z)
      (result : EnsureProviderLiquidityResult)
  | Holding (reservationID : string)
  | Recovering (providerOrgID : string) (s : ProvisionSnapshot)
  | Recovered (providerOrgID : string) (s : ProvisionSnapshot)
      (answer : result EnsureProviderLiquidityResult)
  | Warming (providerOrgID : string) (minimumAvailableCents : Z) (s : ProvisionSnapshot)
  | Warmed (providerOrgID : string) (s : ProvisionSnapshot)
      (result : EnsureProviderLiquidityResult)
  | Releasing (reservationID : string).

Inductive Asked :=
  | AskRegister (input : ProviderSettlementBinding)
  | AskVerify (bindingID : string)
  | AskSuspend (bindingID : string)
  | AskDisconnect (providerOrgID reason : string)
  | AskReserve (providerOrgID : string) (totalBudgetCents : Z)
  | AskRecover (providerOrgID : string)
  | AskWarm (providerOrgID : string) (minimumAvailableCents : Z)
  | AskRelease (orderID : string).

(** A section that leaves the rest of its request, or nothing, in flight. *)
Definition leaves {A} (m : M A) (next : A → option Flight) (a : App) : App * option Flight :=
  match m a with (a', Ok x) => (a', next x) | (a', Err _) => (a', None) end.
Definition no_more {A} (_ : A) : option Flight := None.

(** The first section of a request. *)
Definition begins (q : Asked) : App → App * option Flight :=
  match q with
  | AskRegister input => leaves (RegisterProviderSettlementBinding input) no_more
  | AskVerify id => leaves (VerifyProviderSettlementBinding id) no_more
  | AskSuspend id => leaves (SuspendProviderSettlementBinding id) no_more
  | AskDisconnect org reason => leaves (ReportProviderSettlementDisconnect org reason) no_more
  | AskReserve org cents => leaves (reserve_begin org) (λ s, Reserving org cents <$> s)
  | AskRecover org => leaves (recover_begin org) (λ s, Some (Recovering org s))
  | AskWarm org c => leaves (warm_begin org) (λ s, Some (Warming org c s))
  | AskRelease orderID =>
      leaves (GetProviderSettlementReservation orderID) (λ r, Some (Releasing (plr_ID r)))
  end.

(** The next section of a request in flight; [order] is the order an award attaches its
    reservation to, if it comes that far. *)
Definition goes_on (order : option string) (f : Flight) : App → App * option Flight :=
  match f with
  | Reserving org cents s =>
      leaves (reserve_provision org cents s) (λ '(needed, result), Some (Provisioned org s needed result))
  | Provisioned org s needed result =>
      leaves (reserve_commit org s needed result) (λ r, Some (Holding (plr_ID r)))
  | Holding id =>
      match order with
      | Some orderID => λ a,
          match attachProviderSettlementReservation id orderID a with
          | (a', Ok _) => (a', None)
          | (a', Err _) => (a', Some (Releasing id))
          end
      | None => leaves (releaseProviderSettlementReservation id) no_more
      end
  | Recovering org s => leaves (recover_provision org s) (λ answer, Some (Recovered org s answer))
  | Recovered org s answer => leaves (recover_end org s answer) no_more
  | Warming org c s => leaves (warm_provision org c s) (λ result, Some (Warmed org s result))
  | Warmed org s result => leaves (warm_end org s result) no_more
  | Releasing id => leaves (releaseProviderSettlementReservation id) no_more
  end.

(** The platform and what is in flight; the [n]-th of these goes on, or a request
    begins, or something else of the platform happens. *)
Inductive Turn :=
  | Begins (q : Asked)
  | GoesOn (n : nat) (order : option string)
  | Elsewhere (f : App → App).
Definition Site : Type := App * list Flight.
Definition turn (x : Site) (t : Turn) : Site :=
  match t with
  | Begins q => let '(a, f) := begins q x.1 in (a, x.2 ++ option_list f)
  | GoesOn n order =>
      match x.2 !! n with
      | Some f => let '(a, f') := goes_on order f x.1 in
                  (a, take n x.2 ++ option_list f' ++ drop (S n) x.2)
      | None => x
      end
  | Elsewhere f => (f x.1, x.2)
  end.
Definition turns : list Turn → Site → Site := λ ts x, foldl turn x ts.
End settlement.
