(* ===== verification/Providers.v ===== *)
(** * Provider onboarding (internal/platform/app.go)

    Applications and their review, carrier bindings and their verification or
    suspension, the approval check and the creation of listings. *)

From S2P Require Import Prelude GoNum GoText Core Market Repo MemoryRepo App ProviderSettlement.

Record CreateListingInput := mkCreateListingInput {
  cli_ProviderOrgID : string;
  cli_Title : string;
  cli_Category : string;
  cli_BasePriceCents : Z;
  cli_Tags : list string;
  cli_ExecutionProfileID : string;
}.

(** [Time.UnixNano]: nanoseconds since 1970, as an [int64]. *)
Definition UnixNano (t : Time) : Z := wrap64 (t - 62135596800 * 1000000000).

Section providers.
Context `{Storage}.

(** ** Applications *)

Definition pending_for (orgID : string) (app : ProviderApplication) : bool :=
  String.eqb (pa_OrgID app) orgID && bool_decide (pa_Status app = VettingPending).

Definition SubmitProviderApplication (orgID name : string) (capabilities : list string)
    : M ProviderApplication :=
  _ ← fail_if (String.eqb orgID "" || String.eqb name "") ErrMissingRequiredFields;
  a ← get_st;
  _ ← fail_if (existsb (pending_for orgID) (providerApplications a))
        (Errf ("pending application already exists for org " +:+ orgID));
  submittedAt ← now;
  let app := mkProviderApplication
    ("app_" +:+ pretty (Z.of_nat (length (providerApplications a)) + 1))
    orgID name capabilities VettingPending "" "" submittedAt None in
  _ ← modify (λ a, a <| providerApplications ::= (λ l, l ++ [app]) |>);
  _ ← notify "provider.application.submitted" orgID [("applicationId", VStr (pa_ID app))];
  mret app.

Definition find_application (id : string) (l : list ProviderApplication)
    : option (nat * ProviderApplication) := list_find (λ app, pa_ID app = id) l.

Definition ReviewProviderApplication (applicationID reviewedBy note : string)
    (approve : bool) : M ProviderApplication :=
  a ← get_st;
  match find_application applicationID (providerApplications a) with
  | None => throw (Errf ("application not found: " +:+ applicationID))
  | Some (i, app) =>
      _ ← fail_if (negb (bool_decide (pa_Status app = VettingPending)))
            (Errf "application already reviewed");
      now ← now;
      let app := app <| pa_ReviewedBy := reviewedBy |> <| pa_ReviewNote := note |>
                     <| pa_ReviewedAt := Some now |>
                     <| pa_Status := if approve then VettingApproved
                                     else VettingRejected |> in
      _ ← modify (λ a, a <| providerApplications ::= <[i := app]> |>);
      _ ← notify (if approve then "provider.application.approved"
                  else "provider.application.rejected") (pa_OrgID app)
            [("applicationId", VStr applicationID); ("reviewedBy", VStr reviewedBy)];
      mret app
  end.

Definition ListProviderApplications (status : string) (a : App)
    : list ProviderApplication :=
  List.filter (λ app, String.eqb status ""
                      || String.eqb (vetting_string (pa_Status app)) status)
    (providerApplications a).

(** Every provider is approved while nobody has applied. *)
Definition IsProviderApproved (providerOrgID : string) (a : App) : bool :=
  match providerApplications a with
  | [] => true
  | l => existsb (λ app, String.eqb (pa_OrgID app) providerOrgID
                         && bool_decide (pa_Status app = VettingApproved)) l
  end.

(** ** Carrier bindings *)

Definition RegisterCarrierBinding (input : ProviderCarrierBinding)
    : M ProviderCarrierBinding :=
  _ ← fail_if (String.eqb (pcb_ProviderOrgID input) ""
               || String.eqb (pcb_CarrierBaseURL input) ""
               || String.eqb (pcb_HostID input) "") ErrMissingRequiredFields;
  a ← get_st;
  _ ← fail_if (existsb (λ b, String.eqb (pcb_ProviderOrgID b) (pcb_ProviderOrgID input)
                             && String.eqb (pcb_Status b) "active") (carrierBindings a))
        (Errf ("active binding already exists for provider " +:+
           pcb_ProviderOrgID input));
  createdAt ← now;
  let n := length (carrierBindings a) in
  let binding := mkProviderCarrierBinding ("pcb_" +:+ pretty (Z.of_nat n + 1))
    (pcb_ProviderOrgID input) (pcb_CarrierBaseURL input) (pcb_IntegrationToken input)
    (pcb_HostID input) (pcb_AgentID input) (pcb_Backend input)
    (pcb_WorkspaceRoot input) (pcb_CallbackSecret input) (pcb_CallbackKeyID input)
    "pending_verification" createdAt None in
  let binding :=
    if negb (String.eqb (pcb_CallbackSecret binding) "")
       && blank (pcb_CallbackKeyID binding)
    then binding <| pcb_CallbackKeyID := "cbk_" +:+ pretty (Z.of_nat n + 1) |>
    else binding in
  _ ← modify (λ a, a
    <| carrierBindings ::= (λ l, l ++ [binding]) |>
    <| carrierBindingsByOrg ::=
         (λ idx, Some (<[pcb_ProviderOrgID input := n]> (default ∅ idx))) |>);
  _ ← notify "provider.carrier.binding.registered" (pcb_ProviderOrgID input)
        [("bindingId", VStr (pcb_ID binding))];
  mret binding.

Definition GetProviderCarrierBinding (providerOrgID : string)
    : M ProviderCarrierBinding :=
  b ← activeCarrierBinding providerOrgID;
  match b with
  | Some b => mret b
  | None => throw (EWrap ErrProviderCarrierBindingNotFound providerOrgID)
  end.

Definition find_carrier_binding (id : string) (a : App)
    : option (nat * ProviderCarrierBinding) :=
  list_find (λ b, pcb_ID b = id) (carrierBindings a).

Definition VerifyCarrierBinding (bindingID : string) : M ProviderCarrierBinding :=
  a ← get_st;
  match find_carrier_binding bindingID a with
  | None => throw (Errf ("binding not found: " +:+ bindingID))
  | Some (i, b) =>
      now ← now;
      let b := b <| pcb_Status := "active" |> <| pcb_VerifiedAt := Some now |> in
      _ ← modify (λ a, a <| carrierBindings ::= <[i := b]> |>);
      mret b
  end.

Definition SuspendCarrierBinding (bindingID : string) : M ProviderCarrierBinding :=
  a ← get_st;
  match find_carrier_binding bindingID a with
  | None => throw (Errf ("binding not found: " +:+ bindingID))
  | Some (i, b) =>
      let b := b <| pcb_Status := "suspended" |> in
      _ ← modify (λ a, a <| carrierBindings ::= <[i := b]> |>);
      mret b
  end.

(** ** Listings *)

(** The listing is returned and not stored anywhere. *)
Definition CreateListing (input : CreateListingInput) : M Listing :=
  _ ← fail_if (String.eqb (cli_Title input) "" || String.eqb (cli_Category input) "")
        ErrMissingRequiredFields;
  _ ← validateExecutionProfile (cli_ExecutionProfileID input);
  now ← now;
  mret (mkListing ("listing_" +:+ pretty (UnixNano now)) (cli_ProviderOrgID input)
          (cli_Title input) (cli_Category input) (cli_BasePriceCents input)
          (cli_Tags input) (cli_ExecutionProfileID input)).
End providers.
