(* ===== verification/Orders.v ===== *)
(** * Orders on the platform (internal/platform/app.go)

    The handlers that create, settle, charge, dispute and top up orders, the
    credit limit that guards their creation, and the reports on their budgets.
    Each handler is the whole method: the reads, the change of the order
    ([Core], [Lifecycle]), the saves, the published event and the
    notifications, in the source's order. *)

From S2P Require Import Prelude GoNum GoText Core Milestones Market Repo App Lifecycle ProviderSettlement.

Record BudgetWallInfo := mkBudgetWallInfo {
  bwi_MilestoneID : string;
  bwi_MilestoneTitle : string;
  bwi_BudgetCents : Z;
  bwi_SpentCents : Z;
  bwi_OverageCents : Z;
}.

Record FiberExposure := mkFiberExposure {
  fe_TotalPrepaidUnsettledCents : Z;
  fe_TotalCreditUnsettledCents : Z;
  fe_TotalExposureCents : Z;
  fe_ActiveOrderCount : Z;
  fe_PausedOrderCount : Z;
}.

#[export] Instance eta_FiberExposure : Eta FiberExposure := λ e,
  mkFiberExposure (fe_TotalPrepaidUnsettledCents e) (fe_TotalCreditUnsettledCents e)
    (fe_TotalExposureCents e) (fe_ActiveOrderCount e) (fe_PausedOrderCount e).

(** The order holds credit of the buyer. *)
Definition uses_credit (buyerOrgID : string) (o : Order) : bool :=
  String.eqb (o_BuyerOrgID o) buyerOrgID && String.eqb (o_FundingMode o) "credit"
  && (bool_decide (o_Status o = OrderStatusRunning)
      || bool_decide (o_Status o = OrderStatusAwaitingBudget)).

(** The two nested loops over the orders and their milestones. *)
Definition used_credit (buyerOrgID : string) (os : list Order) : Z :=
  foldl (λ used o, if uses_credit buyerOrgID o
                   then foldl (λ used m, used +w ms_BudgetCents m) used (o_Milestones o)
                   else used) 0 os.

(** The milestones of a new order: the first one runs. *)
Definition new_milestone (index : nat) (m : CreateMilestoneInput) : Milestone :=
  mkMilestone (cmi_ID m) (cmi_Title m) (cmi_BasePriceCents m) (cmi_BudgetCents m) 0 ""
    (match index with O => MilestoneStateRunning | _ => MilestoneStatePending end)
    DisputeStatusNone [] None [].

Definition new_order (orderID : string) (input : CreateOrderInput) : Order :=
  mkOrder orderID (coi_BuyerOrgID input) (coi_ProviderOrgID input)
    (coi_FundingMode input) (coi_CreditLineID input) "platform_main"
    OrderStatusRunning (imap new_milestone (coi_Milestones input)).

Section orders.
Context `{Storage}.

(** [orders, _ := a.orders.List()]: no orders when the list fails. *)
Definition orders_or_none (a : App) : list Order :=
  match order_List (orders a) with Ok l => l | Err _ => [] end.

(** ** Credit limits *)

Definition SetCreditLimit (buyerOrgID : string) (limitCents : Z) (setBy : string)
    : M BuyerCreditLimit :=
  a ← get_st;
  let usedCents := used_credit buyerOrgID (orders_or_none a) in
  updatedAt ← now;
  let limit := mkBuyerCreditLimit buyerOrgID limitCents usedCents
    (limitCents -w usedCents) setBy updatedAt in
  _ ← modify (λ a, a <| creditLimits ::= <[buyerOrgID := limit]> |>);
  _ ← notify "credit.limit.updated" buyerOrgID
        [("limitCents", VInt limitCents); ("setBy", VStr setBy)];
  mret limit.

Definition GetCreditLimit (buyerOrgID : string) (a : App) : option BuyerCreditLimit :=
  creditLimits a !! buyerOrgID.

Definition CheckCreditAvailability (buyerOrgID : string) (requestedCents : Z) : M () :=
  a ← get_st;
  match creditLimits a !! buyerOrgID with
  | None => mret tt
  | Some limit =>
      let usedCents := used_credit buyerOrgID (orders_or_none a) in
      let available := bcl_LimitCents limit -w usedCents in
      fail_if (available <? requestedCents)
        (Errf ("insufficient credit: available " +:+ pretty available +:+
           ", requested " +:+ pretty requestedCents))
  end.

(** ** Creation *)

Definition CreateOrder (input : CreateOrderInput) : M Order :=
  _ ← fail_if (String.eqb (coi_BuyerOrgID input) ""
               || String.eqb (coi_ProviderOrgID input) ""
               || bool_decide (coi_Milestones input = []))
        ErrMissingRequiredFields;
  _ ← (if String.eqb (coi_FundingMode input) "credit" then
         CheckCreditAvailability (coi_BuyerOrgID input)
           (sum64 (cmi_BudgetCents <$> coi_Milestones input))
       else mret tt);
  orderID ← on_orders order_NextID;
  let order := new_order orderID input in
  _ ← on_orders (order_Save order);
  _ ← publish "market.order.created"
        [("orderId", VStr (o_ID order)); ("buyerOrgId", VStr (o_BuyerOrgID order));
         ("providerOrgId", VStr (o_ProviderOrgID order));
         ("fundingMode", VStr (o_FundingMode order))];
  _ ← notify "order.created" (o_BuyerOrgID order) [("orderId", VStr (o_ID order))];
  _ ← notify "order.created" (o_ProviderOrgID order) [("orderId", VStr (o_ID order))];
  query orders (order_Get (o_ID order)).

(** ** Settlement, usage, disputes, top-ups *)

Definition SettleMilestone (orderID : string) (input : SettleMilestoneInput)
    : M (Order * LedgerEntry) :=
  order ← query orders (order_Get orderID);
  let '(order, r) := settle_order order input in
  '(entry, anomalies) ← lift r;
  let milestone_payload := [("orderId", VStr (o_ID order));
                            ("milestoneId", VStr (smi_MilestoneID input))] in
  _ ← (match anomalies with
       | [] => mret tt
       | _ => notify "reconciliation.anomaly" (o_ProviderOrgID order)
                (milestone_payload ++ [("anomalies", VStrs anomalies)])
       end);
  _ ← on_orders (order_Save order);
  _ ← publish "market.milestone.settled"
        (milestone_payload ++
         [("ledgerKind", VStr (ledger_kind_string (le_Kind entry)));
          ("amountCents", VInt (le_AmountCents entry));
          ("occurredAt", VTime (smi_OccurredAt input));
          ("fundingMode", VStr (o_FundingMode order))]);
  _ ← notify "milestone.settled" (o_BuyerOrgID order) milestone_payload;
  _ ← notify "milestone.settled" (o_ProviderOrgID order) milestone_payload;
  _ ← (if isLastMilestoneSettled order
          && bool_decide (o_Status order = OrderStatusCompleted) then
         reservation ← attempt (GetProviderSettlementReservation (o_ID order));
         _ ← (match reservation with
              | Ok reservation => releaseProviderSettlementReservation (plr_ID reservation)
              | Err _ => mret tt
              end);
         _ ← notify "order.completed" (o_BuyerOrgID order) [("orderId", VStr (o_ID order))];
         notify "order.completed" (o_ProviderOrgID order) [("orderId", VStr (o_ID order))]
       else mret tt);
  updated ← query orders (order_Get orderID);
  mret (updated, entry).

Definition RecordUsageCharge (orderID : string) (input : RecordUsageChargeInput)
    : M (Order * UsageCharge) :=
  order ← query orders (order_Get orderID);
  let '(order, r) := Core.RecordUsageCharge order input in
  charge ← lift r;
  _ ← on_orders (order_Save order);
  _ ← publish "market.usage.recorded"
        [("orderId", VStr (o_ID order)); ("milestoneId", VStr (rui_MilestoneID input));
         ("kind", VStr (rui_Kind input)); ("amountCents", VInt (rui_AmountCents input));
         ("proofRef", VStr (rui_ProofRef input));
         ("orderStatus", VStr (order_status_string (o_Status order)))];
  let wall_payload := [("orderId", VStr (o_ID order));
                       ("milestoneId", VStr (rui_MilestoneID input))] in
  _ ← (if bool_decide (o_Status order = OrderStatusAwaitingBudget) then
         _ ← notify "budget_wall.hit" (o_BuyerOrgID order) wall_payload;
         notify "budget_wall.hit" (o_ProviderOrgID order) wall_payload
       else mret tt);
  updated ← query orders (order_Get orderID);
  mret (updated, charge).

Definition OpenDispute (orderID : string) (input : OpenDisputeInput)
    : M (Order * LedgerEntry * LedgerEntry) :=
  order ← query orders (order_Get orderID);
  coreNow ← system_now;
  let '(order, r) := Core.OpenDispute order input coreNow in
  '(refund, recovery) ← lift r;
  disputeID ← on_disputes dispute_NextID;
  createdAt ← now;
  _ ← on_disputes (dispute_Save (mkDispute disputeID orderID (odi_MilestoneID input)
        (odi_Reason input) (odi_RefundCents input) DisputeStatusOpen "" "" None []
        createdAt));
  _ ← on_orders (order_Save order);
  _ ← publish "market.dispute.opened"
        [("orderId", VStr (o_ID order)); ("milestoneId", VStr (odi_MilestoneID input));
         ("reason", VStr (odi_Reason input)); ("refundCents", VInt (odi_RefundCents input))];
  let p := [("orderId", VStr (o_ID order)); ("milestoneId", VStr (odi_MilestoneID input))] in
  _ ← notify "dispute.opened" (o_BuyerOrgID order) p;
  _ ← notify "dispute.opened" (o_ProviderOrgID order) p;
  updated ← query orders (order_Get orderID);
  mret (updated, refund, recovery).

Definition ResolveDispute (disputeID : string) (input : ResolveDisputeInput)
    : M (Dispute * Order) :=
  dispute ← query disputes (dispute_Get disputeID);
  order ← query orders (order_Get (d_OrderID dispute));
  let '(order, r) := Core.ResolveDispute order
    (mkCoreResolveDisputeInput (d_MilestoneID dispute)) in
  _ ← lift r;
  resolvedAt ← now;
  let dispute := dispute <| d_Status := DisputeStatusResolved |>
                         <| d_Resolution := rdi_Resolution input |>
                         <| d_ResolvedBy := rdi_ResolvedBy input |>
                         <| d_ResolvedAt := Some resolvedAt |> in
  _ ← on_disputes (dispute_Save dispute);
  _ ← on_orders (order_Save order);
  _ ← publish "market.dispute.resolved"
        [("disputeId", VStr (d_ID dispute)); ("orderId", VStr (d_OrderID dispute));
         ("milestoneId", VStr (d_MilestoneID dispute));
         ("resolvedBy", VStr (d_ResolvedBy dispute));
         ("resolution", VStr (d_Resolution dispute))];
  let p := [("disputeId", VStr (d_ID dispute)); ("orderId", VStr (d_OrderID dispute));
            ("resolution", VStr (d_Resolution dispute))] in
  _ ← notify "dispute.resolved" (o_BuyerOrgID order) p;
  _ ← notify "dispute.resolved" (o_ProviderOrgID order) p;
  resolvedDispute ← query disputes (dispute_Get disputeID);
  updated ← query orders (order_Get (d_OrderID dispute));
  mret (resolvedDispute, updated).

Definition TopUpMilestone (orderID : string) (input : TopUpInput) : M Order :=
  _ ← fail_if (String.eqb (tui_MilestoneID input) "") ErrMissingRequiredFields;
  _ ← fail_if (tui_AdditionalCents input <=? 0) ErrMissingRequiredFields;
  order ← query orders (order_Get orderID);
  match topup_order order input with
  | None => throw ErrMilestoneNotFound
  | Some order =>
      _ ← on_orders (order_Save order);
      _ ← notify "budget.topped_up" (o_BuyerOrgID order)
            [("orderId", VStr orderID); ("milestoneId", VStr (tui_MilestoneID input));
             ("additionalCents", VInt (tui_AdditionalCents input))];
      query orders (order_Get orderID)
  end.

(** ** Messages *)

Definition CreateMessage (orderID author body : string) : M Message :=
  messageID ← on_messages message_NextID;
  createdAt ← now;
  let message := mkMessage messageID orderID "" author body createdAt in
  _ ← on_messages (message_Save message);
  _ ← publish "market.message.created"
        [("messageId", VStr (msg_ID message)); ("orderId", VStr (msg_OrderID message));
         ("author", VStr (msg_Author message))];
  mret message.

Definition ListOrderMessages (orderID : string) : M (list Message) :=
  _ ← query orders (order_Get orderID);
  query messages (message_ListByOrder orderID).

Definition DecideCredit (history : CreditHistory) (a : App) : CreditDecision :=
  Decide (creditEngine a) history.

(** ** Reports *)

Definition GetBudgetWallInfo (orderID : string) (a : App)
    : result (option BudgetWallInfo) :=
  order ← order_Get orderID (orders a);
  if negb (bool_decide (o_Status order = OrderStatusAwaitingBudget)) then Ok None
  else
    match List.find (λ m, bool_decide (ms_State m = MilestoneStatePaused))
            (o_Milestones order) with
    | None => Ok None
    | Some m =>
        let spent := CurrentSpendCents m in
        Ok (Some (mkBudgetWallInfo (ms_ID m) (ms_Title m) (ms_BudgetCents m) spent
                    (spent -w ms_BudgetCents m)))
    end.

Definition exposure_milestone (fundingMode : string) (exp : FiberExposure)
    (m : Milestone) : FiberExposure :=
  if payable (ms_State m) then
    let unsettled := ms_BudgetCents m -w ms_SettledCents m in
    if String.eqb fundingMode "prepaid"
    then exp <| fe_TotalPrepaidUnsettledCents ::= (λ t, t +w unsettled) |>
    else exp <| fe_TotalCreditUnsettledCents ::= (λ t, t +w unsettled) |>
  else exp.

Definition exposure_order (exp : FiberExposure) (o : Order) : FiberExposure :=
  if negb (bool_decide (o_Status o = OrderStatusRunning))
     && negb (bool_decide (o_Status o = OrderStatusAwaitingBudget)) then exp
  else
    let exp := if bool_decide (o_Status o = OrderStatusRunning)
               then exp <| fe_ActiveOrderCount ::= (λ n, n + 1) |>
               else exp <| fe_PausedOrderCount ::= (λ n, n + 1) |> in
    foldl (exposure_milestone (o_FundingMode o)) exp (o_Milestones o).

Definition GetFiberExposure (a : App) : result FiberExposure :=
  os ← order_List (orders a);
  let exp := foldl exposure_order (mkFiberExposure 0 0 0 0 0) os in
  Ok (exp <| fe_TotalExposureCents :=
        fe_TotalPrepaidUnsettledCents exp +w fe_TotalCreditUnsettledCents exp |>).
End orders.
