(* ===== verification/Bidding.v ===== *)
(** * Requests for quotation, bids and awards (internal/platform/app.go, bids.go)

    A buyer opens an RFQ, providers bid on it, the buyer awards it to one bid.
    [AwardRFQ] is the transaction that ties the components together: it
    reserves settlement liquidity, settles the fate of every bid, creates the
    order under the buyer's credit limit, attaches the reservation to it and
    closes the RFQ, releasing the reservation on the way out of each failure
    that the source handles. *)

From S2P Require Import Prelude GoNum GoText Core Milestones Market Repo App Lifecycle ProviderSettlement.
From S2P Require Import Orders.

Definition rfq_milestone (m : CreateMilestoneInput) : RFQMilestone :=
  mkRFQMilestone (cmi_ID m) (cmi_Title m) (cmi_BasePriceCents m) (cmi_BudgetCents m).
Definition bid_input_of_rfq (m : RFQMilestone) : BidMilestoneInput :=
  mkBidMilestoneInput (rm_ID m) (rm_Title m) (rm_BasePriceCents m) (rm_BudgetCents m).
Definition bid_milestone (m : BidMilestoneInput) : BidMilestone :=
  mkBidMilestone (bmi_ID m) (bmi_Title m) (bmi_BasePriceCents m) (bmi_BudgetCents m).
Definition order_milestone (m : BidMilestone) : CreateMilestoneInput :=
  mkCreateMilestoneInput (bm_ID m) (bm_Title m) (bm_BasePriceCents m) (bm_BudgetCents m).

(** The milestones a bid gets: its own, or those of the RFQ. *)
Definition bid_milestones (rfq : RFQ) (input : CreateBidInput) : list BidMilestoneInput :=
  if bool_decide (cbi_Milestones input = [])
     && negb (bool_decide (rfq_DefaultMilestones rfq = []))
  then bid_input_of_rfq <$> rfq_DefaultMilestones rfq
  else cbi_Milestones input.

(** The order an award creates. *)
Definition award_order_input (rfq : RFQ) (bid : Bid) (input : AwardRFQInput)
    : CreateOrderInput :=
  mkCreateOrderInput (rfq_BuyerOrgID rfq) (b_ProviderOrgID bid) (rfq_Title rfq)
    (ari_FundingMode input) (ari_CreditLineID input)
    (order_milestone <$> b_Milestones bid).

Definition bid_budget (bid : Bid) : Z := sum64 (bm_BudgetCents <$> b_Milestones bid).

(** What an award makes of a bid of the RFQ. *)
Definition judged (awardedID : string) (now : Time) (candidate : Bid) : Bid :=
  candidate <| b_UpdatedAt := now |>
            <| b_Status := if String.eqb (b_ID candidate) awardedID
                           then BidStatusAwarded else BidStatusRejected |>.

Section bidding.
Context `{Storage}.

Definition CreateRFQ (input : CreateRFQInput) : M RFQ :=
  _ ← fail_if (String.eqb (cri_BuyerOrgID input) "" || String.eqb (cri_Title input) ""
               || String.eqb (cri_Category input) "" || String.eqb (cri_Scope input) ""
               || (cri_BudgetCents input <=? 0)) ErrMissingRequiredFields;
  _ ← fail_if (cri_ResponseDeadlineAt input =? 0) ErrDeadlineRequired;
  checkedAt ← now;
  _ ← fail_if (cri_ResponseDeadlineAt input <? checkedAt) ErrDeadlineInPast;
  rfqID ← on_rfqs rfq_NextID;
  let milestones := match cri_Milestones input with
                    | [] => DefaultMilestoneSplit (cri_BudgetCents input)
                    | l => l
                    end in
  now ← now;
  let rfq := mkRFQ rfqID (cri_BuyerOrgID input) (cri_Title input)
    (cri_Category input) (cri_Scope input) (cri_BudgetCents input)
    (rfq_milestone <$> milestones) RFQStatusOpen "" "" ""
    (cri_ResponseDeadlineAt input) now now in
  _ ← on_rfqs (rfq_Save rfq);
  _ ← publish "market.rfq.created"
        [("rfqId", VStr (rfq_ID rfq)); ("buyerOrgId", VStr (rfq_BuyerOrgID rfq));
         ("category", VStr (rfq_Category rfq)); ("budgetCents", VInt (rfq_BudgetCents rfq));
         ("responseDeadlineAt", VTime (rfq_ResponseDeadlineAt rfq))];
  mret rfq.

Definition CreateBid (rfqID : string) (input : CreateBidInput) : M Bid :=
  rfq ← query rfqs (rfq_Get rfqID);
  _ ← fail_if (negb (bool_decide (rfq_Status rfq = RFQStatusOpen))) ErrRFQNotOpenForBids;
  _ ← fail_if (String.eqb (cbi_ProviderOrgID input) ""
               || String.eqb (cbi_Message input) "") ErrMissingRequiredFields;
  _ ← validateExecutionProfile (cbi_ExecutionProfileID input);
  let quoteCents := if cbi_QuoteCents input <=? 0 then rfq_BudgetCents rfq
                    else cbi_QuoteCents input in
  let milestones := bid_milestones rfq input in
  _ ← fail_if (bool_decide (milestones = [])) ErrMilestonesRequired;
  let totalBudget := sum64 (bmi_BudgetCents <$> milestones) in
  _ ← fail_if (rfq_BudgetCents rfq <? totalBudget) ErrBidExceedsBudget;
  bidID ← on_bids bid_NextID;
  now ← now;
  let bid := mkBid bidID rfqID (cbi_ProviderOrgID input) (cbi_Message input)
    quoteCents BidStatusOpen (bid_milestone <$> milestones)
    (cbi_ExecutionProfileID input) now now in
  _ ← on_bids (bid_Save bid);
  _ ← publish "market.bid.submitted"
        [("bidId", VStr (b_ID bid)); ("rfqId", VStr (b_RFQID bid));
         ("providerOrgId", VStr (b_ProviderOrgID bid));
         ("quoteCents", VInt (b_QuoteCents bid))];
  mret bid.

(** The read of the carrier binding that opens an award; an index outside the
    slice would panic. *)
Definition check_carrier_suspended (providerOrgID : string) : M () :=
  a ← get_st;
  match default ∅ (carrierBindingsByOrg a) !! providerOrgID with
  | None => mret tt
  | Some idx =>
      match carrierBindings a !! idx with
      | None => throw (EPanic "index out of range")
      | Some b => fail_if (String.eqb (pcb_Status b) "suspended") ErrProviderSuspended
      end
  end.

(** [if reservation != nil { a.releaseProviderSettlementReservation(...) }] *)
Definition release_reservation (reservation : option ProviderLiquidityReservation)
    : M () :=
  match reservation with
  | None => mret tt
  | Some r => releaseProviderSettlementReservation (plr_ID r)
  end.

(** A step whose failure releases the reservation and ends the award. *)
Definition or_release {A} (reservation : option ProviderLiquidityReservation) (m : M A)
    : M A :=
  r ← attempt m;
  match r with
  | Ok x => mret x
  | Err e => _ ← release_reservation reservation; throw e
  end.

(** The loop over the bids of the RFQ. *)
Definition judge_bids (awardedID : string) (candidates : list Bid) : M () :=
  for_each candidates (λ candidate,
    updatedAt ← now;
    on_bids (bid_Save (judged awardedID updatedAt candidate))).

Definition AwardRFQ (rfqID : string) (input : AwardRFQInput) : M (RFQ * Order) :=
  rfq ← query rfqs (rfq_Get rfqID);
  _ ← fail_if (negb (bool_decide (rfq_Status rfq = RFQStatusOpen))) ErrRFQNotOpenForAward;
  _ ← fail_if (String.eqb (ari_BidID input) "") ErrBidIDRequired;
  bid ← query bids (bid_Get (ari_BidID input));
  _ ← fail_if (negb (String.eqb (b_RFQID bid) rfqID)) ErrBidNotBelongToRFQ;
  _ ← check_carrier_suspended (b_ProviderOrgID bid);
  reservation ← maybeReserveProviderSettlementLiquidity (b_ProviderOrgID bid)
                  (bid_budget bid);
  candidates ← or_release reservation (query bids (bid_ListByRFQ rfqID));
  _ ← or_release reservation (judge_bids (b_ID bid) candidates);
  order ← or_release reservation (CreateOrder (award_order_input rfq bid input));
  _ ← (match reservation with
       | None => mret tt
       | Some r => or_release reservation
                     (attachProviderSettlementReservation (plr_ID r) (o_ID order))
       end);
  updatedAt ← now;
  let rfq := rfq <| rfq_Status := RFQStatusAwarded |>
                 <| rfq_AwardedBidID := b_ID bid |>
                 <| rfq_AwardedProviderOrgID := b_ProviderOrgID bid |>
                 <| rfq_OrderID := o_ID order |>
                 <| rfq_UpdatedAt := updatedAt |> in
  _ ← on_rfqs (rfq_Save rfq);
  _ ← publish "market.rfq.awarded"
        [("rfqId", VStr (rfq_ID rfq)); ("bidId", VStr (b_ID bid));
         ("providerOrgId", VStr (b_ProviderOrgID bid)); ("orderId", VStr (o_ID order));
         ("fundingMode", VStr (o_FundingMode order));
         ("responseDeadlineAt", VTime (rfq_ResponseDeadlineAt rfq))];
  _ ← notify "rfq.awarded" (rfq_BuyerOrgID rfq)
        [("rfqId", VStr (rfq_ID rfq)); ("orderId", VStr (o_ID order))];
  _ ← notify "rfq.awarded" (b_ProviderOrgID bid)
        [("rfqId", VStr (rfq_ID rfq)); ("orderId", VStr (o_ID order))];
  mret (rfq, order).

Definition ListRFQBids (rfqID : string) (a : App) : result (list Bid) :=
  bid_ListByRFQ rfqID (bids a).
Definition ListBids (rfqID : string) (a : App) : result (list Bid) :=
  bid_ListByRFQ rfqID (bids a).

Definition CreateRFQMessage (rfqID author body : string) : M Message :=
  _ ← query rfqs (rfq_Get rfqID);
  messageID ← on_messages message_NextID;
  createdAt ← now;
  let message := mkMessage messageID "" rfqID author body createdAt in
  _ ← on_messages (message_Save message);
  _ ← publish "market.rfq.message.created"
        [("messageId", VStr (msg_ID message)); ("rfqId", VStr rfqID);
         ("author", VStr author)];
  mret message.

Definition ListRFQMessages (rfqID : string) : M (list Message) :=
  _ ← query rfqs (rfq_Get rfqID);
  query messages (message_ListByRFQ rfqID).
End bidding.
