(* ===== verification/Directory.v ===== *)
(** * Search, ratings and reports (internal/platform/app.go)

    The read side of the platform: listing and provider search, ratings,
    marketplace statistics, budgets, revenue, timelines, batch status and the
    leaderboard.  Averages are computed in binary64, as in the source. *)

From S2P Require Import Prelude GoNum GoText Core Market Repo App.

Record ListListingsInput := mkListListingsInput {
  lli_Query : string;
  lli_Category : string;
  lli_Tags : list string;
  lli_ProviderOrgID : string;
  lli_MinPriceCents : Z;
  lli_MaxPriceCents : Z;
}.

Record SearchProvidersInput := mkSearchProvidersInput {
  spi_Capability : string;
  spi_Tier : string;
  spi_MinRating : float64;
}.

Record MarketplaceStats := mkMarketplaceStats {
  st_TotalProviders : Z;
  st_TotalListings : Z;
  st_TotalRFQs : Z;
  st_OpenRFQs : Z;
  st_TotalOrders : Z;
  st_ActiveOrders : Z;
  st_TotalDisputes : Z;
  st_OpenDisputes : Z;
  st_TotalRatings : Z;
  st_AverageRating : float64;
}.

Record MilestoneBudget := mkMilestoneBudget {
  mb_ID : string;
  mb_Title : string;
  mb_BudgetCents : Z;
  mb_SpentCents : Z;
  mb_SettledCents : Z;
  mb_UsagePercent : float64;
  mb_State : string;
}.

Record OrderBudgetSummary := mkOrderBudgetSummary {
  obs_OrderID : string;
  obs_TotalBudget : Z;
  obs_TotalSpent : Z;
  obs_TotalSettled : Z;
  obs_OverallPercent : float64;
  obs_Milestones : list MilestoneBudget;
}.

Record ProviderRevenueSummary := mkProviderRevenueSummary {
  prs_ProviderOrgID : string;
  prs_TotalOrders : Z;
  prs_ActiveOrders : Z;
  prs_TotalRevenue : Z;
  prs_PendingRevenue : Z;
  prs_TotalDisputes : Z;
}.

#[export] Instance eta_ProviderRevenueSummary : Eta ProviderRevenueSummary := λ s,
  mkProviderRevenueSummary (prs_ProviderOrgID s) (prs_TotalOrders s)
    (prs_ActiveOrders s) (prs_TotalRevenue s) (prs_PendingRevenue s)
    (prs_TotalDisputes s).

Record TimelineEvent := mkTimelineEvent {
  te_Type : string;
  te_Timestamp : Time;
  te_Details : payload;
}.

Record OrderStatusBrief := mkOrderStatusBrief {
  osb_ID : string;
  osb_Status : string;
  osb_ProviderOrgID : string;
  osb_BuyerOrgID : string;
  osb_MilestoneCount : Z;
  osb_SettledCount : Z;
  osb_HasAnomaly : bool;
}.

Record LeaderboardEntry := mkLeaderboardEntry {
  lb_ProviderID : string;
  lb_Name : string;
  lb_Rating : float64;
  lb_RatingCount : Z;
  lb_TotalOrders : Z;
  lb_ReputationTier : string;
}.

(** The number of elements that satisfy a test. *)
Definition count_if {A} (p : A → bool) (l : list A) : Z :=
  Z.of_nat (length (List.filter p l)).

(** ** Listing search *)

Definition matchesListingFilter (listing : Listing) (input : ListListingsInput) : bool :=
  if negb (String.eqb (lli_Query input) "")
     && negb (Contains (ToLower (l_Title listing)) (ToLower (lli_Query input))) then false
  else if negb (String.eqb (lli_Category input) "")
     && negb (EqualFold (l_Category listing) (lli_Category input)) then false
  else if negb (String.eqb (lli_ProviderOrgID input) "")
     && negb (String.eqb (l_ProviderOrgID listing) (lli_ProviderOrgID input)) then false
  else if (0 <? lli_MinPriceCents input)
     && (l_BasePriceCents listing <? lli_MinPriceCents input) then false
  else if (0 <? lli_MaxPriceCents input)
     && (lli_MaxPriceCents input <? l_BasePriceCents listing) then false
  else match lli_Tags input with
       | [] => true
       | tags => existsb (λ filterTag, existsb (EqualFold filterTag) (l_Tags listing)) tags
       end.

(** ** Ratings *)

(** The sum and the number of a provider's scores. *)
Definition provider_scores (ratings : list OrderRating) (id : string) : Z * Z :=
  foldl (λ '(total, count) r, if String.eqb (or_ProviderOrgID r) id
                              then (total + or_Score r, count + 1)
                              else (total, count)) (0, 0) ratings.

(** The profile with the rating computed from the stored ratings. *)
Definition rated (ratings : list OrderRating) (id : string) (p : ProviderProfile)
    : ProviderProfile :=
  let '(total, count) := provider_scores ratings id in
  if 0 <? count then
    p <| pp_Rating := f64_div (f64_of_int total) (f64_of_int count) |>
      <| pp_RatingCount := count |>
  else p.

(** ** The leaderboard's exchange sort *)

(** The inner loop at [i]: the entry at [i] is exchanged with each later one
    that is rated higher. *)
Fixpoint exchange_pass (x : LeaderboardEntry) (l : list LeaderboardEntry)
    : LeaderboardEntry * list LeaderboardEntry :=
  match l with
  | [] => (x, [])
  | y :: l' =>
      if f64_lt (lb_Rating x) (lb_Rating y) then
        let '(top, rest) := exchange_pass y l' in (top, x :: rest)
      else
        let '(top, rest) := exchange_pass x l' in (top, y :: rest)
  end.

(** The outer loop; [fuel] is the number of positions left. *)
Fixpoint exchange_sort (fuel : nat) (l : list LeaderboardEntry) : list LeaderboardEntry :=
  match fuel, l with
  | S fuel, x :: l' =>
      let '(top, rest) := exchange_pass x l' in top :: exchange_sort fuel rest
  | _, _ => l
  end.

Definition sort_entries (l : list LeaderboardEntry) : list LeaderboardEntry :=
  exchange_sort (length l) l.

Section directory.
Context `{Storage}.

Definition SearchListings (input : ListListingsInput) (a : App) : result (list Listing) :=
  all ← listing_List (listings a);
  Ok (List.filter (λ l, matchesListingFilter l input) all).

Definition RateOrder (orderID : string) (input : RateOrderInput) : M OrderRating :=
  _ ← fail_if ((roi_Score input <? 1) || (5 <? roi_Score input)) ErrInvalidScore;
  order ← query orders (order_Get orderID);
  _ ← fail_if (negb (bool_decide (o_Status order = OrderStatusCompleted)))
        ErrOrderNotCompleted;
  a ← get_st;
  _ ← fail_if (existsb (λ r, String.eqb (or_OrderID r) orderID) (ratings a))
        ErrOrderAlreadyRated;
  createdAt ← now;
  let rating := mkOrderRating orderID (o_ProviderOrgID order) (o_BuyerOrgID order)
    (roi_Score input) (roi_Comment input) createdAt in
  _ ← modify (λ a, a <| ratings ::= (λ l, l ++ [rating]) |>);
  _ ← publish "market.order.rated"
        [("orderId", VStr orderID); ("providerOrgId", VStr (o_ProviderOrgID order));
         ("buyerOrgId", VStr (o_BuyerOrgID order)); ("score", VInt (roi_Score input))];
  _ ← notify "order.rated" (o_ProviderOrgID order)
        [("orderId", VStr orderID); ("score", VInt (roi_Score input))];
  mret rating.

Definition GetOrderRating (orderID : string) (a : App) : result OrderRating :=
  match List.find (λ r, String.eqb (or_OrderID r) orderID) (ratings a) with
  | Some r => Ok r
  | None => Err ErrOrderNotRated
  end.

Definition GetProvider (id : string) (a : App) : result ProviderProfile :=
  provider ← provider_Get id (providers a);
  Ok (rated (ratings a) id provider).

Definition provider_matches (input : SearchProvidersInput) (p : ProviderProfile) : bool :=
  if f64_lt (f64_of_int 0) (spi_MinRating input)
     && f64_lt (pp_Rating p) (spi_MinRating input) then false
  else if negb (String.eqb (spi_Tier input) "")
     && negb (EqualFold (pp_ReputationTier p) (spi_Tier input)) then false
  else if negb (String.eqb (spi_Capability input) "") then
    existsb (λ cap, Contains (ToLower cap) (ToLower (spi_Capability input)))
      (pp_Capabilities p)
  else true.

Definition SearchProviders (input : SearchProvidersInput) (a : App)
    : result (list ProviderProfile) :=
  all ← provider_List (providers a);
  Ok (List.filter (provider_matches input)
        ((λ p, rated (ratings a) (pp_ID p) p) <$> all)).

(** ** Reports *)

Definition GetMarketplaceStats (a : App) : result MarketplaceStats :=
  ps ← provider_List (providers a);
  ls ← listing_List (listings a);
  rs ← rfq_List (rfqs a);
  os ← order_List (orders a);
  ds ← dispute_List (disputes a);
  let totalRatings := Z.of_nat (length (ratings a)) in
  let total := foldl (λ t r, t + or_Score r) 0 (ratings a) in
  Ok (mkMarketplaceStats (Z.of_nat (length ps)) (Z.of_nat (length ls))
        (Z.of_nat (length rs))
        (count_if (λ r, bool_decide (rfq_Status r = RFQStatusOpen)) rs)
        (Z.of_nat (length os))
        (count_if (λ o, bool_decide (o_Status o = OrderStatusRunning)) os)
        (Z.of_nat (length ds))
        (count_if (λ d, bool_decide (d_Status d = DisputeStatusOpen)) ds)
        totalRatings
        (if 0 <? totalRatings
         then f64_div (f64_of_int total) (f64_of_int totalRatings)
         else f64_of_int 0)).

Definition percent_of (spent budget : Z) : float64 :=
  if 0 <? budget
  then f64_mul (f64_div (f64_of_int spent) (f64_of_int budget)) (f64_of_int 100)
  else f64_of_int 0.

Definition milestone_budget (m : Milestone) : MilestoneBudget :=
  let spent := CurrentSpendCents m in
  mkMilestoneBudget (ms_ID m) (ms_Title m) (ms_BudgetCents m) spent
    (ms_SettledCents m) (percent_of spent (ms_BudgetCents m))
    (milestone_state_string (ms_State m)).

Definition GetOrderBudget (orderID : string) (a : App) : result OrderBudgetSummary :=
  order ← order_Get orderID (orders a);
  let ms := milestone_budget <$> o_Milestones order in
  let totalBudget := sum64 (mb_BudgetCents <$> ms) in
  let totalSpent := sum64 (mb_SpentCents <$> ms) in
  let totalSettled := sum64 (mb_SettledCents <$> ms) in
  Ok (mkOrderBudgetSummary (o_ID order) totalBudget totalSpent totalSettled
        (percent_of totalSpent totalBudget) ms).

Definition revenue_milestone (s : ProviderRevenueSummary) (m : Milestone)
    : ProviderRevenueSummary :=
  let s := s <| prs_TotalRevenue ::= (λ t, t +w ms_SettledCents m) |> in
  if bool_decide (ms_State m = MilestoneStateRunning)
     || bool_decide (ms_State m = MilestoneStatePending)
  then s <| prs_PendingRevenue ::= (λ t, t +w (ms_BudgetCents m -w ms_SettledCents m)) |>
  else s.

Definition revenue_order (s : ProviderRevenueSummary) (o : Order)
    : ProviderRevenueSummary :=
  if negb (String.eqb (o_ProviderOrgID o) (prs_ProviderOrgID s)) then s
  else
    let s := s <| prs_TotalOrders ::= (λ n, n + 1) |> in
    let s := if bool_decide (o_Status o = OrderStatusRunning)
             then s <| prs_ActiveOrders ::= (λ n, n + 1) |> else s in
    foldl revenue_milestone s (o_Milestones o).

Definition GetProviderRevenue (providerOrgID : string) (a : App)
    : result ProviderRevenueSummary :=
  os ← order_List (orders a);
  let summary := foldl revenue_order
    (mkProviderRevenueSummary providerOrgID 0 0 0 0 0) os in
  match dispute_List (disputes a) with
  | Err _ => Ok summary
  | Ok ds =>
      let n := foldl (λ n d, n + count_if (λ o, String.eqb (o_ID o) (d_OrderID d)
                 && String.eqb (o_ProviderOrgID o) providerOrgID) os) 0 ds in
      Ok (summary <| prs_TotalDisputes := n |>)
  end.

(** The events of one milestone, with the clock readings they take. *)
Fixpoint charge_events (milestoneID : string) (l : list UsageCharge)
    : M (list TimelineEvent) :=
  match l with
  | [] => mret []
  | charge :: l' =>
      t ← now;
      rest ← charge_events milestoneID l';
      mret (mkTimelineEvent "usage.recorded" t
              [("milestoneId", VStr milestoneID); ("kind", VStr (uc_Kind charge));
               ("amountCents", VInt (uc_AmountCents charge))] :: rest)
  end.

Definition milestone_events (m : Milestone) : M (list TimelineEvent) :=
  let settled :=
    match ms_State m, ms_SettledAt m with
    | MilestoneStateSettled, Some t =>
        [mkTimelineEvent "milestone.settled" t
           [("milestoneId", VStr (ms_ID m)); ("title", VStr (ms_Title m));
            ("settledCents", VInt (ms_SettledCents m))]]
    | _, _ => []
    end in
  charges ← charge_events (ms_ID m) (ms_UsageCharges m);
  match ms_AnomalyFlags m with
  | [] => mret (settled ++ charges)
  | flags =>
      t ← now;
      mret (settled ++ charges ++
            [mkTimelineEvent "reconciliation.anomaly" t
               [("milestoneId", VStr (ms_ID m)); ("flags", VStrs flags)]])
  end.

Fixpoint milestones_events (l : list Milestone) : M (list TimelineEvent) :=
  match l with
  | [] => mret []
  | m :: l' =>
      e ← milestone_events m; rest ← milestones_events l'; mret (e ++ rest)
  end.

Definition GetOrderTimeline (orderID : string) : M (list TimelineEvent) :=
  order ← query orders (order_Get orderID);
  t ← now;
  let created := mkTimelineEvent "order.created" t
    [("buyerOrgId", VStr (o_BuyerOrgID order));
     ("providerOrgId", VStr (o_ProviderOrgID order));
     ("fundingMode", VStr (o_FundingMode order))] in
  events ← milestones_events (o_Milestones order);
  a ← get_st;
  let rated := (λ r, mkTimelineEvent "order.rated" (or_CreatedAt r)
                 [("score", VInt (or_Score r)); ("comment", VStr (or_Comment r))])
               <$> List.filter (λ r, String.eqb (or_OrderID r) orderID) (ratings a) in
  mret (created :: events ++ rated).

Definition status_brief (order : Order) : OrderStatusBrief :=
  mkOrderStatusBrief (o_ID order) (order_status_string (o_Status order))
    (o_ProviderOrgID order) (o_BuyerOrgID order)
    (Z.of_nat (length (o_Milestones order)))
    (count_if (λ m, bool_decide (ms_State m = MilestoneStateSettled)) (o_Milestones order))
    (existsb (λ m, negb (bool_decide (ms_AnomalyFlags m = []))) (o_Milestones order)).

(** Orders that cannot be read are skipped. *)
Definition BatchOrderStatus (orderIDs : list string) (a : App) : list OrderStatusBrief :=
  omap (λ id, match order_Get id (orders a) with
              | Ok order => Some (status_brief order)
              | Err _ => None
              end) orderIDs.

Definition leaderboard_entry (a : App) (os : list Order) (p : ProviderProfile)
    : LeaderboardEntry :=
  let '(total, count) := provider_scores (ratings a) (pp_ID p) in
  mkLeaderboardEntry (pp_ID p) (pp_Name p)
    (if 0 <? count then f64_div (f64_of_int total) (f64_of_int count)
     else f64_of_int 0)
    (if 0 <? count then count else 0)
    (count_if (λ o, String.eqb (o_ProviderOrgID o) (pp_ID p)) os)
    (pp_ReputationTier p).

Definition GetProviderLeaderboard (a : App) : result (list LeaderboardEntry) :=
  ps ← provider_List (providers a);
  os ← order_List (orders a);
  Ok (sort_entries (leaderboard_entry a os <$> ps)).
End directory.
