(* ===== verification/SettlementLedger.v ===== *)
(** * The liquidity ledger of provider settlement

    Theorems about [ProviderSettlement]: each provider's pool accounts for
    exactly the reservations that have not been released, whatever locked
    sections run in whatever order; a reservation made without interference
    stays within the pool's spendable amount; and the two places where the
    accounting can be broken. *)

From S2P Require Import Prelude GoNum GoText Core Market Repo MemoryRepo App Lifecycle ProviderSettlement.
From S2P Require Import Providers.

(** ** Sums over a map *)

Section sum_map.
Context {A : Type} (f : A → Z).

Definition sum_map (m : gmap string A) : Z := map_fold (λ _ x s, f x + s) 0 m.

#[global] Arguments sum_map : simpl never.

Lemma sum_map_empty : sum_map ∅ = 0.
Proof. apply map_fold_empty. Qed.

Lemma sum_map_insert m k x : m !! k = None → sum_map (<[k := x]> m) = f x + sum_map m.
Proof.
  intros Hk. unfold sum_map. rewrite map_fold_insert_L; [done| |done]. intros; lia.
Qed.

Lemma sum_map_update m k x y :
  m !! k = Some x → sum_map (<[k := y]> m) = sum_map m - f x + f y.
Proof.
  intros Hk. rewrite <- (insert_delete_id m k x Hk) at 2.
  rewrite <- (insert_delete_eq m k y), !sum_map_insert by apply lookup_delete_eq. lia.
Qed.

Lemma sum_map_nonneg m : (∀ k x, m !! k = Some x → 0 ≤ f x) → 0 ≤ sum_map m.
Proof.
  induction m as [|k x m Hk IH] using map_ind; intros Hm.
  - by rewrite sum_map_empty.
  - rewrite sum_map_insert by done. pose proof (Hm k x (lookup_insert_eq _ _ _)).
    enough (0 ≤ sum_map m) by lia. apply IH. intros k' x' Hx.
    apply (Hm k'). rewrite lookup_insert_ne; [done|]. naive_solver.
Qed.

Lemma sum_map_elem m k x :
  (∀ k x, m !! k = Some x → 0 ≤ f x) → m !! k = Some x → f x ≤ sum_map m.
Proof.
  intros Hm Hk. rewrite <- (insert_delete_id m k x Hk).
  rewrite sum_map_insert by apply lookup_delete_eq.
  enough (0 ≤ sum_map (delete k m)) by lia. apply sum_map_nonneg.
  intros k' x' [_ H]%lookup_delete_Some. by eapply Hm.
Qed.
End sum_map.

Section ledger.
Context `{Storage} `{MO : MapOrder}.

(** What a reservation takes from the pool of provider [p]. *)
Definition live (p : string) (r : ProviderLiquidityReservation) : Z :=
  if String.eqb (plr_ProviderOrgID r) p && negb (String.eqb (plr_Status r) "released")
  then plr_ReservedCents r else 0.

Definition outstanding (p : string) (a : App) : Z :=
  sum_map (live p) (settlementReservations a).
Definition reserved (p : string) (a : App) : Z :=
  pool_ReservedOutstandingCents (pool_of a p).

(** The accounting invariant. *)
Record ledger_ok (a : App) : Prop := {
  lk_balance p : reserved p a = outstanding p a;
  lk_bound p : reserved p a ≤ max_int64;
  lk_key k r : settlementReservations a !! k = Some r →
    plr_ID r = k ∧ 0 ≤ plr_ReservedCents r ∧
    ∃ n, 1 ≤ n ≤ Z.of_nat (size (settlementReservations a)) ∧ k = "plr_" +:+ pretty n;
}.

(** What most sections leave alone. *)
Definition same_ledger (a a' : App) : Prop :=
  settlementReservations a' = settlementReservations a ∧
  settlementReservationByOrder a' = settlementReservationByOrder a ∧
  ∀ p, reserved p a' = reserved p a.
Definition same_pools (a a' : App) : Prop :=
  settlementReservations a' = settlementReservations a ∧
  settlementReservationByOrder a' = settlementReservationByOrder a ∧
  settlementPools a' = settlementPools a ∧
  settlementBufferBPS a' = settlementBufferBPS a ∧
  settlementProvisioner a' = settlementProvisioner a.

#[export] Instance same_ledger_preorder : PreOrder same_ledger.
Proof.
  split; [by split|]. intros a b c (H1 & H2 & H3) (H4 & H5 & H6).
  split_and!; [congruence..|]. intros p. by rewrite H6, H3.
Qed.
#[export] Instance same_pools_preorder : PreOrder same_pools.
Proof. split; [done|]. intros a b c (?&?&?&?&?) (?&?&?&?&?). repeat split; congruence. Qed.

Lemma same_pools_ledger a a' : same_pools a a' → same_ledger a a'.
Proof. intros (? & ? & Hp & _). split_and!; [done..|]. intros p. unfold reserved, pool_of. by rewrite Hp. Qed.

Lemma frames_same_pools {A} (m : M A) : frames same_pools m → frames same_ledger m.
Proof. intros Hm a. apply same_pools_ledger, Hm. Qed.

Lemma ledger_ok_same a a' : same_ledger a a' → ledger_ok a → ledger_ok a'.
Proof.
  intros (Hr & _ & Hp) [Hb Hm Hk]. split.
  - intros p. unfold outstanding. by rewrite Hp, Hr.
  - intros p. by rewrite Hp.
  - intros k r. rewrite Hr. apply Hk.
Qed.

Lemma outstanding_nonneg p a : ledger_ok a → 0 ≤ outstanding p a.
Proof.
  intros Ha. apply sum_map_nonneg. intros k r Hr. unfold live.
  destruct (lk_key a Ha k r Hr) as (_ & ? & _). case_match; lia.
Qed.

(** *** Sections that touch neither pools nor reservations *)

Lemma now_pools : frames same_pools now.
Proof. done. Qed.
Lemma ensure_pools p i : frames same_pools (ensure p i).
Proof. done. Qed.
Lemma on_orders_pools {A} (m : ST orders_t A) : frames same_pools (on_orders m).
Proof. intros a. unfold on_orders, zoom. by destruct (m (orders a)). Qed.
Lemma active_pools org : frames same_pools (activeSettlementBinding org).
Proof. intros a. unfold activeSettlementBinding. by destruct (settlementBindingsByOrg a). Qed.
Lemma carrier_pools org : frames same_pools (activeCarrierBinding org).
Proof. intros a. unfold activeCarrierBinding. by destruct (carrierBindingsByOrg a). Qed.
Hint Resolve now_pools ensure_pools on_orders_pools active_pools carrier_pools : frames.

Lemma reserve_begin_pools org : frames same_pools (reserve_begin org).
Proof. unfold reserve_begin. solve_frames. Qed.
Lemma reserve_provision_pools org c s : frames same_pools (reserve_provision org c s).
Proof. unfold reserve_provision. solve_frames. Qed.
Lemma provisioning_begin_pools org : frames same_pools (provisioning_begin org).
Proof. unfold provisioning_begin. solve_frames. Qed.
Lemma update_reserved_orders_pools org f : frames same_pools (update_reserved_orders org f).
Proof. unfold update_reserved_orders. solve_frames. Qed.
Lemma Register_pools b : frames same_pools (RegisterProviderSettlementBinding b).
Proof.
  unfold RegisterProviderSettlementBinding. solve_frames.
Qed.
Hint Resolve reserve_begin_pools reserve_provision_pools provisioning_begin_pools
  update_reserved_orders_pools Register_pools : frames.

Hint Extern 2 (frames same_ledger _) =>
  apply frames_same_pools; solve [eauto with frames] : frames.

(** *** Sections that rewrite a pool *)

(** A pool whose reserved amount is kept. *)
Lemma put_pool_kept org p a :
  pool_ReservedOutstandingCents p = reserved org a →
  same_ledger a (put_pool org p a).1.
Proof.
  intros Hp. split_and!; [done..|]. intros q. unfold reserved, pool_of. cbn.
  destruct (decide (q = org)) as [->|Hq].
  - by rewrite lookup_insert_eq.
  - by rewrite lookup_insert_ne.
Qed.

Lemma reserved_lookup org p a :
  settlementPools a !! org = Some p → reserved org a = pool_ReservedOutstandingCents p.
Proof. intros Hp. unfold reserved, pool_of. by rewrite Hp. Qed.

Lemma Disconnect_ledger org reason :
  frames same_ledger (ReportProviderSettlementDisconnect org reason).
Proof.
  unfold ReportProviderSettlementDisconnect.
  apply frames_bind; [typeclasses eauto|by apply frames_same_pools, now_pools|].
  intros t. apply frames_bind; [typeclasses eauto| |].
  { intros a. cbn. repeat case_match; by split. }
  intros _. apply frames_get_bind. intros a.
  destruct (settlementPools a !! org) as [pool|] eqn:Hp; [|reflexivity].
  apply (frames_bind_at same_ledger).
  - apply put_pool_kept. by rewrite (reserved_lookup _ _ _ Hp).
  - intros. by apply frames_same_pools, update_reserved_orders_pools.
Qed.

Lemma Suspend_ledger id : frames same_ledger (SuspendProviderSettlementBinding id).
Proof.
  unfold SuspendProviderSettlementBinding. apply frames_get_bind. intros a.
  destruct (find_binding id a) as [[i b]|]; [|reflexivity].
  cbn -[put_pool reserved]. unfold mbind, st_bind. cbn.
  split_and!; [done..|]. intros q. unfold reserved, pool_of. cbn.
  destruct (decide (q = psb_ProviderOrgID b)) as [->|Hq].
  - by rewrite lookup_insert_eq.
  - by rewrite lookup_insert_ne.
Qed.

Lemma provisioning_begin_pool org a a' b pool p :
  provisioning_begin org a = (a', Ok (b, pool, p)) →
  settlementPools a' !! org = Some pool.
Proof.
  unfold provisioning_begin. intros Hr. st_inv Hr. by simplify_eq.
Qed.

(** Go on from a state whose pools are still those of [a]. *)
Lemma track {A B} (m : M A) (f : A → M B) a s :
  same_pools a s → frames same_pools m →
  (∀ s' x, same_pools a s' → same_ledger a (f x s').1) →
  same_ledger a ((m ≫= f) s).1.
Proof.
  intros Hs Hm Hf. unfold mbind, st_bind. specialize (Hm s).
  destruct (m s) as [s1 [x|e]]; cbn in *.
  - apply Hf. by etransitivity.
  - apply same_pools_ledger. by etransitivity.
Qed.

(** Write back a pool that was read with its reserved amount. *)
Lemma track_put {A} org pool pool' (f : () → M A) a s :
  same_pools a s → pool = pool_of a org →
  pool_ReservedOutstandingCents pool' = pool_ReservedOutstandingCents pool →
  (∀ x, frames same_ledger (f x)) →
  same_ledger a ((put_pool org pool' ≫= f) s).1.
Proof.
  intros Hs -> Hp Hf. etransitivity; [by apply same_pools_ledger|].
  apply (frames_bind_at same_ledger); [|by intros; apply Hf].
  apply put_pool_kept. rewrite Hp. destruct Hs as (_ & _ & Hs & _).
  unfold reserved, pool_of. by rewrite Hs.
Qed.

(** Go on past a computation that keeps the ledger. *)
Ltac past := apply (frames_bind same_ledger); [solve [eauto with frames]|].
Ltac tracked := apply track; [done|solve [eauto with frames]|].

Lemma recover_begin_ledger org : frames same_ledger (recover_begin org).
Proof.
  intros a. unfold recover_begin. apply (frames_bind_at same_ledger).
  { apply same_pools_ledger, provisioning_begin_pools. }
  intros a1 [[b pool] p] Hp%provisioning_begin_pool.
  tracked. intros a2 a' Ha2. tracked. intros a3 t Ha3.
  eapply (track_put org pool); [done| |done|].
  { unfold pool_of. by rewrite Hp. }
  intros _. eauto with frames.
Qed.
Lemma recover_provision_pools org s : frames same_pools (recover_provision org s).
Proof. unfold recover_provision. solve_frames. Qed.
Lemma recover_end_ledger org s answer : frames same_ledger (recover_end org s answer).
Proof.
  unfold recover_end. apply frames_get_bind. intros a. destruct answer as [result|e].
  - tracked. intros a1 t Ha1. unfold resumeProviderSettlementOrders.
    tracked. intros a2 [] Ha2. eapply track_put; eauto with frames.
  - tracked. intros a1 t Ha1. eapply track_put; eauto with frames.
Qed.
Lemma warm_begin_pools org : frames same_pools (warm_begin org).
Proof. unfold warm_begin. solve_frames. Qed.
Lemma warm_provision_pools org c s : frames same_pools (warm_provision org c s).
Proof. unfold warm_provision. solve_frames. Qed.
Lemma warm_end_ledger org s result : frames same_ledger (warm_end org s result).
Proof.
  unfold warm_end. apply frames_get_bind. intros a.
  tracked. intros a1 t Ha1. eapply track_put; eauto with frames.
Qed.
Lemma GetReservation_pools orderID : frames same_pools (GetProviderSettlementReservation orderID).
Proof. unfold GetProviderSettlementReservation. solve_frames. Qed.

(** *** Sections that change the ledger *)

Lemma put_pool_reserved org p a q :
  reserved q (put_pool org p a).1 =
  if String.eqb org q then pool_ReservedOutstandingCents p else reserved q a.
Proof.
  unfold reserved, pool_of. cbn. destruct (String.eqb_spec org q) as [->|Hne].
  - by rewrite lookup_insert_eq.
  - by rewrite lookup_insert_ne.
Qed.

(** The key of the next reservation is free. *)
Lemma next_reservation_free a :
  ledger_ok a →
  settlementReservations a !!
    ("plr_" +:+ pretty (Z.of_nat (size (settlementReservations a)) + 1)) = None.
Proof.
  intros Ha. apply eq_None_not_Some. intros [r Hr].
  destruct (lk_key a Ha _ _ Hr) as (_ & _ & n & Hn & Heq).
  apply (inj (String.app "plr_")), (inj pretty) in Heq. lia.
Qed.

(** Replacing a reservation by one that takes [d] more from its pool. *)
Lemma ledger_ok_update a a' k r r' :
  ledger_ok a → settlementReservations a !! k = Some r →
  settlementReservations a' = <[k := r']> (settlementReservations a) →
  plr_ID r' = plr_ID r → 0 ≤ plr_ReservedCents r' →
  (∀ p, live p r' ≤ live p r ∧ reserved p a' = reserved p a - live p r + live p r') →
  ledger_ok a'.
Proof.
  intros [Hb Hle Hk] Hr Hm Hid Hpos Hp. split.
  - intros p. unfold outstanding. rewrite Hm, (sum_map_update _ _ _ r) by done.
    destruct (Hp p) as [_ ->]. by rewrite Hb.
  - intros p. destruct (Hp p) as [? ->]. specialize (Hle p). lia.
  - intros k' r''. rewrite Hm, map_size_insert_Some by eauto.
    destruct (decide (k' = k)) as [->|Hne].
    + rewrite lookup_insert_eq. intros [= <-]. rewrite Hid.
      destruct (Hk _ _ Hr) as (? & _ & ?). done.
    + rewrite lookup_insert_ne by done. apply Hk.
Qed.

Lemma attach_ledger reservationID orderID a :
  ledger_ok a →
  (∀ r, settlementReservations a !! reservationID = Some r → plr_Status r ≠ "released") →
  ledger_ok (attachProviderSettlementReservation reservationID orderID a).1.
Proof.
  intros Ha Hlive. unfold attachProviderSettlementReservation.
  case_match; [done|]. unfold mbind, st_bind. cbn [get_st].
  destruct (settlementReservations a !! reservationID) as [r|] eqn:Hr; [|done].
  eapply ledger_ok_update; [done|exact Hr|done|done| |].
  - by destruct (lk_key a Ha _ _ Hr) as (_ & ? & _).
  - intros p. unfold live. cbn.
    destruct (String.eqb_spec (plr_Status r) "released"); [by destruct (Hlive r)|].
    unfold reserved, pool_of. cbn. split; lia.
Qed.

(** The amounts a release writes to the pool. *)
Lemma release_reserved a k r :
  ledger_ok a → settlementReservations a !! k = Some r →
  plr_Status r ≠ "released" →
  reserved (plr_ProviderOrgID r) a -w plr_ReservedCents r =
  reserved (plr_ProviderOrgID r) a - plr_ReservedCents r ∧
  0 ≤ reserved (plr_ProviderOrgID r) a - plr_ReservedCents r.
Proof.
  intros Ha Hr Hl.
  assert (Hle : live (plr_ProviderOrgID r) r ≤ outstanding (plr_ProviderOrgID r) a).
  { eapply sum_map_elem; [|exact Hr]. intros k' r' Hr'. unfold live.
    destruct (lk_key a Ha k' r' Hr') as (_ & ? & _). case_match; lia. }
  unfold live in Hle at 1. rewrite String.eqb_refl in Hle.
  destruct (String.eqb_spec (plr_Status r) "released"); [done|]. cbn in Hle.
  rewrite <- (lk_balance a Ha) in Hle.
  destruct (lk_key a Ha k r Hr) as (_ & ? & _).
  pose proof (lk_bound a Ha (plr_ProviderOrgID r)).
  rewrite sub64_exact by in64_lia. lia.
Qed.

Lemma release_ledger k a :
  ledger_ok a →
  ledger_ok (releaseProviderSettlementReservation k a).1.
Proof.
  intros Ha. unfold releaseProviderSettlementReservation.
  case_match; [done|]. unfold mbind, st_bind. cbn [get_st].
  destruct (settlementReservations a !! k) as [r|] eqn:Hr; [|done].
  destruct (String.eqb_spec (plr_Status r) "released") as [|Hl]; [done|].
  destruct (release_reserved a k r Ha Hr Hl) as [Hsub Hpos].
  destruct (lk_key a Ha k r Hr) as (Hid & Hr0 & _).
  fold (reserved (plr_ProviderOrgID r) a). rewrite Hsub.
  destruct (Z.ltb_spec (reserved (plr_ProviderOrgID r) a - plr_ReservedCents r) 0); [lia|].
  eapply ledger_ok_update; [done|exact Hr|cbn; by rewrite Hid|done|done|].
  intros p. unfold live, reserved, pool_of. cbn.
  destruct (String.eqb_spec (plr_Status r) "released"); [done|].
  destruct (String.eqb_spec (plr_ProviderOrgID r) p) as [->|Hne]; cbn.
  - rewrite lookup_insert_eq. cbn. split; [done|lia].
  - rewrite lookup_insert_ne by done. lia.
Qed.

(** What a commit leaves: it always succeeds. *)
Lemma reserve_commit_run org s needed result a :
  ∃ a' pool r,
    reserve_commit org s needed result a = (a', Ok r) ∧
    settlementPools a' = <[org := pool]> (settlementPools a) ∧
    settlementReservations a' = <[plr_ID r := r]> (settlementReservations a) ∧
    pool_ReservedOutstandingCents pool = reserved org a +w needed ∧
    pool_TotalSpendableCents pool = epr_TotalSpendableCents result ∧
    pool_AvailableToAllocateCents pool =
      epr_TotalSpendableCents result -w (reserved org a +w needed) ∧
    plr_ID r = "plr_" +:+ pretty (Z.of_nat (size (settlementReservations a)) + 1) ∧
    plr_ProviderOrgID r = org ∧ plr_ReservedCents r = needed ∧
    plr_OrderID r = "" ∧ plr_Status r = "reserved".
Proof.
  unfold reserve_commit, mbind, st_bind, now, get_st, put_pool, modify, mret, st_ret.
  cbv beta iota zeta. do 3 eexists. split; [reflexivity|]. by repeat split.
Qed.

Lemma commit_ledger org s needed result a :
  ledger_ok a → 0 ≤ needed → reserved org a + needed ≤ max_int64 →
  ledger_ok (reserve_commit org s needed result a).1.
Proof.
  intros Ha Hn Hmax. pose proof (outstanding_nonneg org a Ha) as Hpos.
  rewrite <- (lk_balance a Ha) in Hpos.
  pose proof (next_reservation_free a Ha) as Hfree.
  destruct (reserve_commit_run org s needed result a)
    as (a' & pool & r & -> & Hp & Hr & Hres & _ & _ & Hid & Horg & Hc & _ & Hst).
  rewrite add64_exact in Hres by in64_lia. rewrite <- Hid in Hfree. cbn [fst].
  assert (Hnew : ∀ p, reserved p a' = if String.eqb org p
    then reserved org a + needed else reserved p a).
  { intros p. unfold reserved, pool_of. rewrite Hp.
    destruct (String.eqb_spec org p) as [<-|Hne].
    - by rewrite lookup_insert_eq.
    - by rewrite lookup_insert_ne. }
  split.
  - intros p. unfold outstanding. rewrite Hnew, Hr, sum_map_insert by done.
    fold (outstanding p a). unfold live. rewrite Horg, Hst, Hc.
    pose proof (lk_balance a Ha p).
    destruct (String.eqb_spec org p) as [<-|Hne]; cbn; lia.
  - intros p. rewrite Hnew. pose proof (lk_bound a Ha p). case_match; lia.
  - intros k r'. rewrite Hr, map_size_insert_None by done.
    destruct (decide (k = plr_ID r)) as [->|Hne].
    + rewrite lookup_insert_eq. intros [= <-]. split; [done|]. split; [lia|].
      eexists. split; [|exact Hid]. lia.
    + rewrite lookup_insert_ne by done. intros Hk.
      destruct (lk_key a Ha k r' Hk) as (? & ? & n & ? & ?).
      split; [done|]. split; [done|]. exists n. split; [lia|done].
Qed.

Lemma verify_ledger id a :
  (∀ i b, find_binding id a = Some (i, b) → reserved (psb_ProviderOrgID b) a = 0) →
  same_ledger a (VerifyProviderSettlementBinding id a).1.
Proof.
  intros Hz. unfold VerifyProviderSettlementBinding, mbind, st_bind. cbn [get_st].
  destruct (find_binding id a) as [[i b]|] eqn:Hb; [|reflexivity]. cbn.
  specialize (Hz i b eq_refl).
  split_and!; [done..|]. intros q. unfold reserved, pool_of in *. cbn.
  destruct (decide (q = psb_ProviderOrgID b)) as [->|Hq].
  - by rewrite lookup_insert_eq, Hz.
  - by rewrite lookup_insert_ne.
Qed.

(** ** Requests in flight *)

Definition held (fl : list Flight) : list string :=
  omap (λ f, match f with Holding id => Some id | _ => None end) fl.
Definition freed (fl : list Flight) : list string :=
  omap (λ f, match f with Releasing id => Some id | _ => None end) fl.

(** The books of a platform with requests in flight: an award holds a reservation that
    is not released and that nobody else can name. *)
Record site_ok (x : Site) : Prop := {
  si_ledger : ledger_ok x.1;
  si_held id : id ∈ held x.2 →
    ∃ r, settlementReservations x.1 !! id = Some r ∧ plr_Status r ≠ "released";
  si_attached o id : settlementReservationByOrder x.1 !! o = Some id →
    is_Some (settlementReservations x.1 !! id) ∧ id ∉ held x.2;
  si_freed id : id ∈ freed x.2 →
    is_Some (settlementReservations x.1 !! id) ∧ id ∉ held x.2;
  si_nodup : NoDup (held x.2);
}.

(** What the books ask of a turn: the amount a commit adds is not negative and fits
    [int64]; a binding is verified while nothing is reserved from its provider; what
    happens elsewhere leaves pools and reservations alone. *)
Definition within (x : Site) (t : Turn) : Prop :=
  match t with
  | Begins (AskVerify id) =>
      ∀ i b, find_binding id x.1 = Some (i, b) → reserved (psb_ProviderOrgID b) x.1 = 0
  | GoesOn n _ =>
      match x.2 !! n with
      | Some (Provisioned org _ needed _) => 0 ≤ needed ∧ reserved org x.1 + needed ≤ max_int64
      | _ => True
      end
  | Elsewhere f => same_ledger x.1 (f x.1)
  | _ => True
  end.
Fixpoint all_within (ts : list Turn) (x : Site) : Prop :=
  match ts with [] => True | t :: ts => within x t ∧ all_within ts (turn x t) end.

Lemma leaves_frame {A} (m : M A) next a : frames same_ledger m →
  same_ledger a (leaves m next a).1.
Proof. intros Hm. specialize (Hm a). unfold leaves. by destruct (m a) as [a' [x|e]]. Qed.

(** A turn that leaves the ledger alone and what is held and freed as it was. *)
Lemma site_quiet x x' : site_ok x → same_ledger x.1 x'.1 →
  held x'.2 = held x.2 → (∀ id, id ∈ freed x'.2 → id ∈ freed x.2) → site_ok x'.
Proof.
  intros [Hl Hh Ha Hf Hn] (Hr & Hb & Hp) Hheld Hfreed. split.
  - by apply (ledger_ok_same x.1).
  - intros id. rewrite Hheld, Hr. apply Hh.
  - intros o id. rewrite Hb, Hheld, Hr. apply Ha.
  - intros id Hid%Hfreed. rewrite Hheld, Hr. by apply Hf.
  - by rewrite Hheld.
Qed.
Lemma held_flights_app l k : held (l ++ k) = held l ++ held k.
Proof. apply omap_app. Qed.
Lemma freed_app l k : freed (l ++ k) = freed l ++ freed k.
Proof. apply omap_app. Qed.

(** What a section leaves in flight that neither holds nor frees a reservation. *)
Definition plain_flight (f : option Flight) : Prop :=
  held (option_list f) = [] ∧ freed (option_list f) = [].
Lemma leaves_no_more {A} (m : M A) a : leaves m no_more a = ((m a).1, None).
Proof. unfold leaves. by destruct (m a) as [a' [x|e]]. Qed.
Lemma leaves_plain {A} (m : M A) next a : (∀ x, plain_flight (next x)) → plain_flight (leaves m next a).2.
Proof. intros Hn. unfold leaves. destruct (m a) as [a' [x|e]]; [apply Hn|done]. Qed.

Hint Resolve recover_begin_ledger recover_provision_pools recover_end_ledger warm_begin_pools
  warm_provision_pools warm_end_ledger GetReservation_pools Disconnect_ledger Suspend_ledger : frames.

Lemma begin_quiet x q : site_ok x → same_ledger x.1 (begins q x.1).1 →
  plain_flight (begins q x.1).2 → site_ok (turn x (Begins q)).
Proof.
  intros Hx Hs [Hh Hf]. cbn [turn]. destruct (begins q x.1) as [a f].
  apply (site_quiet x); [done|done| |]; cbn [fst snd] in *.
  - by rewrite held_flights_app, Hh, app_nil_r.
  - intros id. by rewrite freed_app, Hf, app_nil_r.
Qed.

Lemma begin_ok x q : site_ok x → within x (Begins q) → site_ok (turn x (Begins q)).
Proof.
  intros Hx Hw. destruct q as [i|id|id|org why|org c|org|org c|o]; try (apply begin_quiet;
    [done|apply leaves_frame; solve [eauto with frames]|apply leaves_plain; intros; by repeat case_match]).
  - apply begin_quiet; [done| |by apply leaves_plain]. cbn [within] in Hw.
    apply verify_ledger in Hw. cbn [begins]. unfold leaves. by destruct (VerifyProviderSettlementBinding id x.1) as [? []].
  - apply begin_quiet; [done|apply leaves_frame; eauto with frames|].
    apply leaves_plain. by intros [].
  - cbn [turn begins]. unfold leaves.
    destruct (GetProviderSettlementReservation o x.1) as [a [r|e]] eqn:Hg.
    2: { pose proof (frames_result same_pools _ _ _ _ (GetReservation_pools o) Hg) as Hs.
         apply (site_quiet x); [done|by apply same_pools_ledger| |]; cbn; by rewrite app_nil_r. }
    unfold GetProviderSettlementReservation in Hg. st_inv Hg; simplify_eq.
    destruct (lk_key _ (si_ledger _ Hx) _ _ Hcase0) as (Hid & _).
    destruct (si_attached _ Hx _ _ Hcase) as [_ Hfree]. rewrite Hid.
    destruct Hx as [Hl Hh Ha Hf Hn]. split; cbn [fst snd]; rewrite ?held_flights_app; cbn [held option_list omap list_omap];
      rewrite ?app_nil_r; [done..| |done].
    intros id. rewrite freed_app, elem_of_app. cbn. intros [Hin|Hin%list_elem_of_singleton]; [by apply Hf|subst; eauto].
Qed.

(** The flights before and after the one that goes on. *)
Lemma turn_at x n order f : x.2 !! n = Some f →
  ∃ l k, x.2 = l ++ f :: k ∧ turn x (GoesOn n order) = ((goes_on order f x.1).1, l ++ option_list (goes_on order f x.1).2 ++ k).
Proof.
  intros Hf. exists (take n x.2), (drop (S n) x.2). split; [symmetry; by apply take_drop_middle|].
  cbn [turn]. rewrite Hf. by destruct (goes_on order f x.1).
Qed.

Section flight.
Context (a a' : App) (l k : list Flight).

Lemma flight_quiet f f' : site_ok (a, l ++ f :: k) → same_ledger a a' →
  plain_flight (Some f) → plain_flight f' → site_ok (a', l ++ option_list f' ++ k).
Proof.
  intros Hx Hs [Hh Hf] [Hh' Hf']. change (held [f] = []) in Hh. change (freed [f] = []) in Hf.
  apply (site_quiet (a, l ++ f :: k)); [done|done| |]; cbn [snd]; rewrite (cons_middle f l k).
  - by rewrite !held_flights_app, Hh, Hh'.
  - intros id. by rewrite !freed_app, Hf, Hf'.
Qed.

(** A reservation that is released while nobody holds it, or by who held it. *)
Lemma flight_released f id : site_ok (a, l ++ f :: k) → f = Holding id ∨ f = Releasing id →
  site_ok ((releaseProviderSettlementReservation id a).1, l ++ k).
Proof.
  intros [Hl Hh Ha Hf Hn] Hkind. cbn [fst snd] in *. rewrite (cons_middle f l k) in *.
  assert (Hheld : ∀ i, i ∈ held (l ++ k) → i ∈ held (l ++ [f] ++ k) ∧ i ≠ id).
  { intros i. rewrite !held_flights_app, !elem_of_app. intros Hi. split; [tauto|]. intros ->.
    destruct Hkind as [-> | ->].
    - rewrite !held_flights_app in Hn. cbn in Hn. apply NoDup_app in Hn as (_ & Hlk & [Hk _]%NoDup_cons).
      destruct Hi as [Hi|Hi]; [|done]. apply (Hlk id Hi). by left.
    - destruct (Hf id) as [_ Hno]; [rewrite !freed_app, !elem_of_app; right; left; by left|].
      apply Hno. rewrite !held_flights_app, !elem_of_app. tauto. }
  assert (Hfreed : ∀ i, i ∈ freed (l ++ k) → i ∈ freed (l ++ [f] ++ k)).
  { intros i. rewrite !freed_app, !elem_of_app. tauto. }
  assert (Hnd : NoDup (held (l ++ k))).
  { rewrite !held_flights_app in *. destruct Hkind as [-> | ->]; cbn in Hn; [|done].
    apply NoDup_app in Hn as (? & Hd & [_ ?]%NoDup_cons). apply NoDup_app. split_and!; [done| |done].
    intros i Hi Hik. apply (Hd i Hi). by right. }
  pose proof (release_ledger id a Hl) as Hl'.
  assert (Hkeep : settlementReservationByOrder (releaseProviderSettlementReservation id a).1 = settlementReservationByOrder a ∧
    ∀ i, (i ≠ id → settlementReservations (releaseProviderSettlementReservation id a).1 !! i = settlementReservations a !! i) ∧
         (is_Some (settlementReservations a !! i) → is_Some (settlementReservations (releaseProviderSettlementReservation id a).1 !! i))).
  { clear Hl'. unfold releaseProviderSettlementReservation. case_match; [done|]. unfold mbind, st_bind. cbn [get_st].
    destruct (settlementReservations a !! id) as [r|] eqn:Hr; [|done].
    destruct (String.eqb (plr_Status r) "released"); [done|]. cbn. split; [done|].
    destruct (lk_key a Hl _ _ Hr) as (-> & _). intros i. split.
    - intros Hi. by rewrite lookup_insert_ne.
    - intros [r' Hr']. destruct (decide (i = id)) as [->|Hi]; [rewrite lookup_insert_eq|rewrite lookup_insert_ne by done]; eauto. }
  destruct Hkeep as [Hb Hk]. split; cbn [fst snd]; [done|..|done].
  - intros i Hi. destruct (Hheld i Hi) as [Hi' Hne]. destruct (Hk i) as [-> _]; [by apply Hh|done].
  - intros o i. rewrite Hb. intros [Hi Hno]%Ha. split; [by apply Hk|]. intros [Hin _]%Hheld. done.
  - intros i Hi%Hfreed. destruct (Hf i Hi) as [Hs Hno]. split; [by apply Hk|]. intros [Hin _]%Hheld. done.
Qed.

(** An award attaches what it holds: it is there, so that this cannot fail. *)
Lemma flight_attached id orderID : site_ok (a, l ++ Holding id :: k) →
  (attachProviderSettlementReservation id orderID a).2 = Ok tt ∧
  site_ok ((attachProviderSettlementReservation id orderID a).1, l ++ k).
Proof.
  intros [Hl Hh Ha Hf Hn]. cbn [fst snd] in *. rewrite (cons_middle _ l k) in *.
  destruct (Hh id) as (r & Hr & Hst); [rewrite !held_flights_app, !elem_of_app; right; left; by left|].
  assert (Hheld : ∀ i, i ∈ held (l ++ k) → i ∈ held (l ++ [Holding id] ++ k) ∧ i ≠ id).
  { intros i. rewrite !held_flights_app, !elem_of_app. intros Hi. split; [tauto|]. intros ->.
    rewrite !held_flights_app in Hn. cbn in Hn. apply NoDup_app in Hn as (_ & Hlk & [Hk _]%NoDup_cons).
    destruct Hi as [Hi|Hi]; [|done]. apply (Hlk id Hi). by left. }
  assert (Hfreed : ∀ i, i ∈ freed (l ++ k) → i ∈ freed (l ++ [Holding id] ++ k)).
  { intros i. rewrite !freed_app, !elem_of_app. tauto. }
  assert (Hnd : NoDup (held (l ++ k))).
  { rewrite !held_flights_app in *. cbn in Hn. apply NoDup_app in Hn as (? & Hd & [_ ?]%NoDup_cons).
    apply NoDup_app. split_and!; [done| |done]. intros i Hi Hik. apply (Hd i Hi). by right. }
  pose proof (attach_ledger id orderID a Hl) as Hl'.
  unfold attachProviderSettlementReservation in *. destruct (blank id || blank orderID).
  { split; [done|]. split; cbn [fst snd]; [done|..|done].
    - intros i [Hi _]%Hheld. by apply Hh.
    - intros o i [Hs Hno]%Ha. split; [done|]. by intros [Hi _]%Hheld.
    - intros i Hi%Hfreed. destruct (Hf i Hi) as [Hs Hno]. split; [done|]. by intros [Hi' _]%Hheld. }
  unfold mbind, st_bind in *. cbn [get_st] in *. rewrite Hr in *. split; [done|].
  assert (Hs : ∀ i, is_Some (settlementReservations a !! i) →
    is_Some (<[id := r <| plr_OrderID := orderID |> <| plr_Status := "active" |>]> (settlementReservations a) !! i)).
  { intros i [r' Hr']. destruct (decide (i = id)) as [->|Hi]; [rewrite lookup_insert_eq|rewrite lookup_insert_ne by done]; eauto. }
  split; cbn [fst snd].
  - apply Hl'. intros r' [= <-]. done.
  - intros i [Hi Hne]%Hheld. destruct (Hh i Hi) as (r' & Hr' & Hs'). exists r'. split; [|done].
    cbn. by rewrite lookup_insert_ne.
  - intros o i Ho. cbn in Ho. destruct (decide (o = orderID)) as [->|Hne].
    + rewrite lookup_insert_eq in Ho. injection Ho as <-. split; [apply Hs; eauto|]. by intros [_ ?]%Hheld.
    + rewrite lookup_insert_ne in Ho by done. apply Ha in Ho as [Hi Hno]. split; [by apply Hs|]. by intros [Hin _]%Hheld.
  - intros i Hi%Hfreed. destruct (Hf i Hi) as [Hs' Hno]. split; [by apply Hs|]. by intros [Hin _]%Hheld.
  - done.
Qed.
End flight.

Lemma flight_step_ok x n order : site_ok x → within x (GoesOn n order) → site_ok (turn x (GoesOn n order)).
Proof.
  intros Hx Hw. destruct (x.2 !! n) as [f|] eqn:Hf; [|cbn [turn]; by rewrite Hf].
  cbn [within] in Hw. rewrite Hf in Hw. destruct (turn_at x n order f Hf) as (l & k & Hl & ->).
  destruct x as [a fl]. cbn [fst snd] in *. subst fl. clear Hf n.
  destruct f as [org c s|org s needed result|id|org s|org s ans|org c s|org s result|id].
  all: try (eapply flight_quiet; [done|apply leaves_frame; solve [eauto with frames]|done|
    apply leaves_plain; by intros []]).
  - (* a commit *)
    destruct Hw as [Hn Hmax]. destruct Hx as [Hlg Hh Ha Hfr Hnd]. cbn [fst snd] in *.
    pose proof (commit_ledger org s needed result a Hlg Hn Hmax) as Hlg'.
    pose proof (next_reservation_free a Hlg) as Hfree.
    destruct (reserve_commit_run org s needed result a)
      as (a' & pool & r & Hrun & _ & Hr & _ & _ & _ & Hid & _ & _ & _ & Hst).
    assert (Hb : settlementReservationByOrder a' = settlementReservationByOrder a).
    { change a' with (a', Ok r).1. rewrite <- Hrun. reflexivity. }
    cbn [goes_on]. unfold leaves. rewrite Hrun in *. cbn [fst snd] in *. rewrite <- Hid in Hfree.
    set (id := plr_ID r) in *. rewrite (cons_middle _ l k) in Hh, Ha, Hfr, Hnd.
    change (held [Provisioned org s needed result]) with (@nil string) in *.
    assert (Hheld : ∀ i, i ∈ held (l ++ [Provisioned org s needed result] ++ k) → i ≠ id).
    { intros i (r' & Hr' & _)%Hh ->. congruence. }
    assert (Hsome : ∀ i, is_Some (settlementReservations a !! i) → is_Some (settlementReservations a' !! i) ∧ i ≠ id).
    { intros i [r' Hr']. assert (i ≠ id) by congruence. rewrite Hr, lookup_insert_ne by done. eauto. }
    assert (Hnew : ∀ i, i ∈ held (l ++ [Holding id] ++ k) → i = id ∨ i ∈ held (l ++ [Provisioned org s needed result] ++ k)).
    { intros i. rewrite !held_flights_app, !elem_of_app. cbn. rewrite list_elem_of_singleton. tauto. }
    split; cbn [fst snd]; [done|..].
    + intros i [->|Hi]%Hnew; [rewrite Hr, lookup_insert_eq; eexists; by rewrite Hst|].
      destruct (Hh i Hi) as (r' & Hr' & Hs'). exists r'. by rewrite Hr, lookup_insert_ne by (symmetry; by apply Hheld).
    + intros o i. rewrite Hb. intros [[Hs Hne]%Hsome Hno]%Ha. split; [done|]. by intros [->|Hi]%Hnew.
    + intros i Hi. destruct (Hfr i) as [[Hs Hne]%Hsome Hno].
      { revert Hi. rewrite !freed_app, !elem_of_app. cbn. tauto. }
      split; [done|]. by intros [->|Hi']%Hnew.
    + rewrite !held_flights_app in *. cbn in Hnd |- *. apply NoDup_app in Hnd as (? & Hd & ?).
      apply NoDup_app. split_and!; [done| |apply NoDup_cons; split; [|done]].
      * intros i Hi [->|Hik]%elem_of_cons; [|by apply (Hd i)]. apply (Hheld id); [|done].
        rewrite !elem_of_app. by left.
      * intros Hik. apply (Hheld id); [|done]. rewrite !elem_of_app. by right; right.
  - destruct order as [orderID|]; cbn [goes_on].
    + destruct (flight_attached a l k id orderID Hx) as [Hr Hok].
      rewrite (surjective_pairing (attachProviderSettlementReservation id orderID a)), Hr. exact Hok.
    + rewrite leaves_no_more. apply (flight_released a l k (Holding id)); auto.
  - cbn [goes_on]. rewrite leaves_no_more. apply (flight_released a l k (Releasing id)); auto.
Qed.

Lemma turns_ok ts x : site_ok x → all_within ts x → site_ok (turns ts x).
Proof.
  unfold turns. revert x. induction ts as [|t ts IH]; intros x Hx; [done|]. cbn [all_within foldl].
  intros [Ht Hts]. apply IH; [|done]. destruct t as [q|n order|f].
  - by apply begin_ok.
  - by apply flight_step_ok.
  - by apply (site_quiet x).
Qed.

(** *** What a successful reservation has read and written *)

Lemma reserve_begin_Ok org a a1 s :
  reserve_begin org a = (a1, Ok (Some s)) →
  same_pools a a1 ∧ rs_Pool s = pool_of a org ∧
  rs_BufferBPS s = providerSettlementBufferBPS a ∧
  rs_Provisioner s = settlementProvisioner a.
Proof.
  intros Hb. pose proof (frames_result same_pools _ _ _ _ (reserve_begin_pools org) Hb)
    as Hs.
  split; [done|]. destruct Hs as (_ & _ & Hp & Hbps & Hprov).
  unfold reserve_begin in Hb. st_inv Hb; simplify_eq.
  cbn. unfold pool_of, providerSettlementBufferBPS. by rewrite <- Hp, <- Hbps, <- Hprov.
Qed.

Lemma reserve_provision_Ok org c s a a1 needed result :
  reserve_provision org c s a = (a1, Ok (needed, result)) →
  needed = needed_reserve c (rs_BufferBPS s) ∧
  pool_ReservedOutstandingCents (rs_Pool s) +w needed ≤ epr_TotalSpendableCents result ∧
  ∃ p l i, rs_Provisioner s = Some p ∧ p l i = Ok result.
Proof.
  unfold reserve_provision. intros Hr. st_inv Hr; simplify_eq.
  split; [done|]. split; [by apply Z.ltb_ge|].
  unfold ensure in Hm. injection Hm as _ Hp. eauto.
Qed.

(** The three parts of an award's reservation. *)
Lemma maybeReserve_Ok org c a a' r :
  maybeReserveProviderSettlementLiquidity org c a = (a', Ok (Some r)) →
  ∃ s a1 a2 needed result,
    reserve_begin org a = (a1, Ok (Some s)) ∧
    reserve_provision org c s a1 = (a2, Ok (needed, result)) ∧
    reserve_commit org s needed result a2 = (a', Ok r).
Proof.
  unfold maybeReserveProviderSettlementLiquidity. intros Hr.
  st_inv Hr; simplify_eq. eauto 10.
Qed.

Lemma needed_reserve_exact c bps :
  0 ≤ c → 0 ≤ bps → c * bps ≤ max_int64 → c + c * bps / 10000 ≤ max_int64 →
  needed_reserve c bps = c + c * bps / 10000.
Proof.
  intros Hc Hb Hmul Hadd. unfold needed_reserve.
  rewrite mul64_exact by in64_lia. unfold div64.
  rewrite Z.quot_div_nonneg by lia.
  assert (0 ≤ c * bps / 10000 ≤ c * bps).
  { split; [apply Z.div_pos; lia|]. apply Z.div_le_upper_bound; nia. }
  rewrite (wrap64_id (c * bps / 10000)) by in64_lia.
  apply add64_exact. in64_lia.
Qed.

Lemma buffer_pos a : 0 < providerSettlementBufferBPS a.
Proof. unfold providerSettlementBufferBPS. destruct (Z.leb_spec (settlementBufferBPS a) 0); lia. Qed.

(** ** The orders an outage reaches *)

(** Some active reservation of the provider names the order. *)
Definition order_reserved (org k : string) (a : App) : Prop :=
  ∃ rid r, settlementReservations a !! rid = Some r ∧
           concerns org r = true ∧ plr_OrderID r = k.

Section outage.
Context `{!StorageLaws} (org : string) (f : Order → Order)
  (f_id : ∀ o, o_ID (f o) = o_ID o) (f_idem : ∀ o, f (f o) = f o).

Definition hits (k : string) (kr : string * ProviderLiquidityReservation) : bool :=
  concerns org kr.2 && String.eqb (plr_OrderID kr.2) k.

Definition get_order (k : string) (a : App) : result Order := order_Get k (orders a).

(** One turn of the loop. *)
Lemma update_one rid r a a' :
  (let m : M () := if concerns org r then
     x ← attempt (query orders (order_Get (plr_OrderID r)));
     match x with Err _ => mret tt | Ok o => on_orders (order_Save (f o)) end
   else mret tt in m a) = (a', Ok tt) →
  valid (orders a) →
  valid (orders a') ∧
  ∀ k o, get_order k a = Ok o →
    get_order k a' = Ok (if hits k (rid, r) then f o else o).
Proof.
  unfold hits. cbn. destruct (concerns org r) eqn:Hc; [|by intros [= <-]].
  unfold mbind, st_bind, attempt, query, on_orders, zoom.
  destruct (order_Get (plr_OrderID r) (orders a)) as [o|e] eqn:Hg.
  - destruct (order_Save (f o) (orders a)) as [s' res] eqn:Hs.
    intros [= <- ->] Hv. cbn.
    pose proof (get_id _ _ _ Hv Hg) as Hid.
    assert (Hkey : o_ID (f o) = plr_OrderID r) by congruence.
    split.
    { eapply save_valid; [exact Hv| |exact Hs]. rewrite Hkey.
      by apply (get_issued _ _ _ Hv Hg). }
    intros k o' Ho'. unfold get_order in *. cbn.
    destruct (String.eqb_spec (plr_OrderID r) k) as [<-|Hne].
    + rewrite Hg in Ho'. injection Ho' as <-. rewrite <- Hkey.
      by apply (save_get _ _ _ Hv Hs).
    + rewrite (save_get_ne _ _ _ _ _ Hs); [done|congruence].
  - intros [= <-] Hv. split; [done|]. intros k o' Ho'.
    destruct (String.eqb_spec (plr_OrderID r) k) as [<-|Hne]; [|done].
    unfold get_order in *. congruence.
Qed.

(** The whole loop, over any list of reservations. *)
Lemma update_all l a a' :
  for_each l (λ '(_, r), if concerns org r then
     x ← attempt (query orders (order_Get (plr_OrderID r)));
     match x with Err _ => mret tt | Ok o => on_orders (order_Save (f o)) end
   else mret tt) a = (a', Ok tt) →
  valid (orders a) →
  valid (orders a') ∧
  ∀ k o, get_order k a = Ok o →
    get_order k a' = Ok (if existsb (hits k) l then f o else o).
Proof.
  revert a. induction l as [|[rid r] l IH]; intros a.
  - by intros [= <-].
  - cbn [for_each]. intros Hl Hv.
    apply bind_Ok in Hl as (a1 & [] & Hone & Hrest).
    destruct (update_one rid r _ _ Hone Hv) as [Hv1 Hstep].
    destruct (IH _ Hrest Hv1) as [Hv2 Hall]. split; [done|]. intros k o Ho.
    rewrite (Hall k _ (Hstep k o Ho)). cbn [existsb].
    destruct (hits k (rid, r)), (existsb (hits k) l); cbn; by rewrite ?f_idem.
Qed.

Lemma hits_reserved k a :
  existsb (hits k) (map_order (map_to_list (settlementReservations a))) = true ↔
  order_reserved org k a.
Proof.
  unfold order_reserved, hits. rewrite existsb_exists. split.
  - intros [[rid r] [Hin%list_elem_of_In Hb]].
    rewrite map_order_perm in Hin. apply elem_of_map_to_list in Hin.
    apply andb_true_iff in Hb as [Hc Hk%String.eqb_eq]. eauto.
  - intros (rid & r & Hr & Hc & Hk). exists (rid, r).
    rewrite <- list_elem_of_In, map_order_perm, elem_of_map_to_list. cbn. by rewrite Hc, Hk, String.eqb_refl.
Qed.

(** Every reserved order is changed once, whatever the order Go visits the
    reservations in. *)
Lemma update_reserved_orders_all a a' :
  update_reserved_orders org f a = (a', Ok tt) → valid (orders a) →
  valid (orders a') ∧ ∀ k o, get_order k a = Ok o →
    (order_reserved org k a → get_order k a' = Ok (f o)) ∧
    (¬ order_reserved org k a → get_order k a' = Ok o).
Proof.
  intros Hr Hv. destruct (update_all _ _ _ Hr Hv) as [Hv' Hall].
  split; [done|]. intros k o Ho. rewrite <- hits_reserved, (Hall k o Ho).
  by destruct (existsb _ _).
Qed.
End outage.

Lemma disconnect_order_idem o : disconnect_order (disconnect_order o) = disconnect_order o.
Proof.
  destruct o as [? ? ? ? ? ? ? l]. unfold disconnect_order. cbn. f_equal.
  rewrite map_map. apply map_ext. intros m. unfold disconnect_milestone, has_flag.
  destruct m as [? ? ? ? ? ? st ? ? ? fl]. cbn.
  destruct st; decide_closed; cbn; destruct (flagged fl) eqn:Hfl; cbn;
    rewrite ?Hfl; cbn; decide_closed; cbn; rewrite ?flagged_added, ?Hfl; done.
Qed.

Lemma resume_order_id o : o_ID (resume_order o) = o_ID o.
Proof. unfold resume_order. cbn. by case_match. Qed.

Lemma resume_order_idem o : resume_order (resume_order o) = resume_order o.
Proof.
  destruct o as [? ? ? ? ? ? s l]. unfold resume_order. cbn.
  assert (Hm : map resume_milestone (map resume_milestone l) = map resume_milestone l).
  { rewrite map_map. apply map_ext. intros m. unfold resume_milestone.
    destruct (bool_decide (ms_State m = MilestoneStatePaused) && has_flag m) eqn:Hb;
      cbn; decide_closed; cbn; [done|by rewrite Hb]. }
  destruct s; decide_closed; cbn; decide_closed; cbn; by rewrite Hm.
Qed.
End ledger.

(** ** A concrete platform *)

(** A provisioner that can always spend 1000 cents. *)
Definition demo_provisioner : Provisioner := λ _ _,
  Ok (mkEnsureResult "channel_1" ReuseReused 1 1000 None).

Definition demo_carrier (org : string) : ProviderCarrierBinding :=
  mkProviderCarrierBinding "" org "https://carrier" "" "host_1" "agent_1" "" "" "" "" "" 0 None.

Definition demo_settlement (org : string) : ProviderSettlementBinding :=
  mkProviderSettlementBinding "" org "CKB" "peer_1" "/ip4/1" "" ""
    (mkUDTTypeScript "" "" "") "" "" 0 None None.

(** The memory repositories, empty. *)
Definition demo_app : App :=
  NewApp (λ n, 1000 + Z.of_nat n) (mkMemoryOrders 0 ∅) [] [] (mkSlice 0 []) (mkSlice 0 [])
    (mkMemoryMessages 0 []) (mkSlice 0 []).

(** Provider [p1] registers and is verified. *)
Definition onboard : M () :=
  _ ← SetProviderSettlementProvisioner (Some demo_provisioner);
  _ ← RegisterCarrierBinding (demo_carrier "p1");
  _ ← VerifyCarrierBinding "pcb_1";
  _ ← RegisterProviderSettlementBinding (demo_settlement "p1");
  _ ← VerifyProviderSettlementBinding "psb_1";
  mret tt.

Definition onboarded : App := (onboard demo_app).1.

Lemma ledger_ok_empty `{Storage} a :
  settlementReservations a = ∅ → (∀ p, reserved p a = 0) → ledger_ok a.
Proof.
  intros Hr Hp. split.
  - intros p. unfold outstanding. by rewrite Hr, sum_map_empty, Hp.
  - intros p. rewrite Hp. in64_lia.
  - intros k r. by rewrite Hr, lookup_empty.
Qed.

Lemma onboarded_ok : ledger_ok onboarded.
Proof.
  apply ledger_ok_empty; [by vm_compute|].
  intros p. unfold reserved, pool_of.
  assert (Hpools : settlementPools onboarded =
    {["p1" := zero_pool <| pool_BindingID := "psb_1" |> <| pool_ProviderOrgID := "p1" |>
        <| pool_Asset := "CKB" |> <| pool_Status := PoolStatusHealthy |>
        <| pool_LastHealthyAt := Some 1003 |>]}) by (vm_compute; reflexivity).
  rewrite Hpools. destruct (decide (p = "p1")) as [->|Hne].
  - by rewrite lookup_singleton_eq.
  - by rewrite lookup_singleton_ne.
Qed.

(** ** Properties *)

(** C1. The liquidity ledger balances under every interleaving.  Registrations,
    verifications, suspensions, outages, awards, recoveries, warmings and releases run
    section by section, in whatever order, with anything else of the platform in
    between; then a provider's pool has reserved exactly the sum of the reservations
    that are not released, and what an award still holds is among them.  It is asked of
    the run that the amounts reserved are not negative and fit [int64] together, and
    that no binding is verified while something is reserved from its provider. *)
Theorem liquidity_ledger_balances `{Storage} `{MO : MapOrder} ts x :
  site_ok x → all_within ts x →
  let x' := turns ts x in
  site_ok x' ∧ (∀ p, reserved p x'.1 = outstanding p x'.1 ∧ 0 ≤ reserved p x'.1) ∧
  ∀ id, id ∈ held x'.2 → ∃ r, settlementReservations x'.1 !! id = Some r ∧ plr_Status r ≠ "released".
Proof.
  intros Hx Hts x'. assert (Hx' : site_ok x') by by apply turns_ok.
  split_and!; [done| |apply (si_held x' Hx')]. intros p. rewrite (lk_balance _ (si_ledger x' Hx')).
  split; [done|by apply outstanding_nonneg, si_ledger].
Qed.

(** Two awards overlap; between the sections of a recovery the second commits; the
    first becomes an order that is completed. *)
Definition demo_snapshot : ReserveSnapshot :=
  mkReserveSnapshot (demo_settlement "p1") zero_pool 1000 0 None.
Definition demo_result : EnsureProviderLiquidityResult :=
  mkEnsureResult "channel_1" ReuseReused 1 1000 None.
Definition after_first : App :=
  (reserve_commit "p1" demo_snapshot 110 demo_result onboarded).1.
Definition overlapping : list Turn :=
  [Begins (AskReserve "p1" 100); Begins (AskReserve "p1" 200);
   GoesOn 0 None; GoesOn 1 None; GoesOn 0 None;
   Begins (AskDisconnect "p1" "down"); Begins (AskRecover "p1");
   GoesOn 1 None; GoesOn 2 None; GoesOn 2 None;
   GoesOn 0 (Some "ord_1"); Begins (AskRelease "ord_1"); GoesOn 1 None].
Definition overlapped : Site := turns (MO := plain_order) overlapping (onboarded, []).

Lemma onboarded_site : site_ok (onboarded, []).
Proof.
  assert (Hb : settlementReservationByOrder onboarded = ∅) by (vm_compute; reflexivity).
  split; cbn [fst snd held freed omap list_omap].
  - apply onboarded_ok.
  - by intros id ?%elem_of_nil.
  - intros o id. by rewrite Hb, lookup_empty.
  - by intros id ?%elem_of_nil.
  - constructor.
Qed.

Lemma liquidity_ledger_balances_witness :
  reserved "p1" overlapped.1 = 220 ∧ outstanding "p1" overlapped.1 = 220 ∧ held overlapped.2 = ["plr_2"].
Proof.
  assert (Hr : reserved "p1" overlapped.1 = 220) by (vm_compute; reflexivity).
  assert (Hw : all_within (MO := plain_order) overlapping (onboarded, []))
    by (vm_compute; repeat split; discriminate).
  split_and!; [exact Hr| |vm_compute; reflexivity]. rewrite <- Hr. symmetry.
  apply (liquidity_ledger_balances (MO := plain_order) overlapping (onboarded, []) onboarded_site Hw).
Defined.

(** C30. A reservation made without interference is covered.  When an award
    reserves liquidity, the provider's pool grows by the budget plus the
    configured buffer (ten per cent by default), what is reserved stays within
    what the provisioner said is spendable, and what is left is exactly the
    difference.  The provisioner is only asked to answer with an [int64]. *)
Theorem reserve_within_capacity `{Storage} a a' org c r :
  let bps := providerSettlementBufferBPS a in
  let needed := c + c * bps / 10000 in
  let pool := pool_of a' org in
  ledger_ok a → 0 ≤ c → c * bps ≤ max_int64 → reserved org a + needed ≤ max_int64 →
  (∀ p l i result, settlementProvisioner a = Some p → p l i = Ok result →
     in64 (epr_TotalSpendableCents result)) →
  maybeReserveProviderSettlementLiquidity org c a = (a', Ok (Some r)) →
  reserved org a' = reserved org a + needed ∧ plr_ReservedCents r = needed ∧
  reserved org a' ≤ pool_TotalSpendableCents pool ∧
  pool_AvailableToAllocateCents pool = pool_TotalSpendableCents pool - reserved org a'.
Proof.
  intros bps needed pool Ha Hc Hmul Hmax Hprov Hr.
  pose proof (outstanding_nonneg org a Ha) as Hpos.
  rewrite <- (lk_balance a Ha) in Hpos. assert (Hbps : 0 < bps) by apply buffer_pos.
  assert (0 ≤ c * bps / 10000) by (apply Z.div_pos; nia).
  assert (0 ≤ needed) by (unfold needed; lia).
  apply maybeReserve_Ok in Hr as (s & a1 & a2 & n & result & Hb & Hp & Hcm).
  destruct (reserve_begin_Ok _ _ _ _ Hb) as (Hs1 & Hpool & Hbuf & Hprv).
  pose proof (frames_result same_pools _ _ _ _ (reserve_provision_pools org c s) Hp) as Hs2.
  apply reserve_provision_Ok in Hp as (-> & Hcap & p & l & i & Hsp & Hres).
  fold bps in Hbuf. assert (Hn : needed_reserve c bps = needed).
  { apply needed_reserve_exact; fold needed; lia. }
  rewrite Hbuf, Hn in Hcm, Hcap.
  rewrite Hpool in Hcap. fold (reserved org a) in Hcap.
  assert (Hrs : reserved org a2 = reserved org a).
  { apply same_pools_ledger. by transitivity a1. }
  destruct (reserve_commit_run org s needed result a2)
    as (a3 & pool3 & r3 & Hrun & Hpools & _ & Hpr & Hpt & Hpa & _ & _ & Hrc & _).
  rewrite Hcm in Hrun. injection Hrun as <- <-.
  rewrite Hrs, add64_exact in Hpr, Hpa by in64_lia. rewrite add64_exact in Hcap by in64_lia.
  assert (Hin : in64 (epr_TotalSpendableCents result)) by (apply (Hprov p l i); congruence).
  rewrite sub64_exact in Hpa by in64_lia.
  assert (Hpe : pool = pool3).
  { unfold pool, pool_of. by rewrite Hpools, lookup_insert_eq. }
  assert (Hra : reserved org a' = reserved org a + needed).
  { unfold reserved at 1. fold pool. by rewrite Hpe. }
  rewrite Hra, Hpe. rewrite Hpa, Hpt. by repeat split.
Qed.

Lemma onboarded_int64 p l i result :
  settlementProvisioner onboarded = Some p → p l i = Ok result →
  in64 (epr_TotalSpendableCents result).
Proof.
  assert (Hp : settlementProvisioner onboarded = Some demo_provisioner)
    by (vm_compute; reflexivity).
  rewrite Hp. intros [= <-] [= <-]. by vm_compute.
Qed.

(** Provider [p1] reserves for a budget of 500. *)
Definition reserved_500 : App :=
  (maybeReserveProviderSettlementLiquidity "p1" 500 onboarded).1.

Lemma reserved_500_run :
  ∃ r, maybeReserveProviderSettlementLiquidity "p1" 500 onboarded =
       (reserved_500, Ok (Some r)).
Proof. eexists. apply run_at; [reflexivity|]. vm_compute. reflexivity. Qed.

Lemma reserve_within_capacity_witness :
  reserved "p1" reserved_500 = 0 + (500 + 500 * 1000 / 10000) ∧
  reserved "p1" reserved_500 ≤ pool_TotalSpendableCents (pool_of reserved_500 "p1").
Proof.
  assert (H0 : 0 ≤ 500) by done.
  assert (H1 : 500 * providerSettlementBufferBPS onboarded ≤ max_int64) by (vm_compute; done).
  assert (H2 : reserved "p1" onboarded +
    (500 + 500 * providerSettlementBufferBPS onboarded / 10000) ≤ max_int64) by (vm_compute; done).
  destruct reserved_500_run as [r Hr].
  destruct (reserve_within_capacity onboarded reserved_500 "p1" 500 r onboarded_ok
    H0 H1 H2 onboarded_int64 Hr) as (H3 & _ & H4 & _).
  exact (conj H3 H4).
Defined.

Lemma plr_visible s : blank ("plr_" +:+ s) = false.
Proof. refine (blank_visible _ _ _). reflexivity. Qed.

(** A release of a reservation that is not blank and not released. *)
Lemma release_run `{Storage} k r a :
  blank k = false → settlementReservations a !! k = Some r → plr_Status r ≠ "released" →
  ∃ a' t, releaseProviderSettlementReservation k a = (a', Ok tt) ∧
    settlementReservations a' = <[plr_ID r := r <| plr_Status := "released" |>
      <| plr_ReleasedAt := Some t |>]> (settlementReservations a).
Proof.
  intros Hk Hr Hl. unfold releaseProviderSettlementReservation. rewrite Hk.
  unfold mbind, st_bind. cbn [get_st]. rewrite Hr.
  destruct (String.eqb_spec (plr_Status r) "released"); [done|].
  do 2 eexists. split; reflexivity.
Qed.

Lemma release_released `{Storage} k r a :
  settlementReservations a !! k = Some r → plr_Status r = "released" →
  releaseProviderSettlementReservation k a = (a, Ok tt).
Proof.
  intros Hr Hl. unfold releaseProviderSettlementReservation. case_match; [done|].
  unfold mbind, st_bind. cbn [get_st]. by rewrite Hr, Hl.
Qed.

(** Releasing undoes reserving, once.  After a reservation is committed
    and released every provider's pool has reserved what it had before, the
    ledger still balances, and releasing the same reservation again changes
    nothing at all. *)
Theorem release_undoes_reservation `{Storage} a a1 org s needed result r :
  ledger_ok a → 0 ≤ needed → reserved org a + needed ≤ max_int64 →
  reserve_commit org s needed result a = (a1, Ok r) →
  let a2 := (releaseProviderSettlementReservation (plr_ID r) a1).1 in
  (∀ p, reserved p a2 = reserved p a) ∧ ledger_ok a2 ∧
  releaseProviderSettlementReservation (plr_ID r) a2 = (a2, Ok tt).
Proof.
  intros Ha Hn Hmax Hc a2.
  pose proof (next_reservation_free a Ha) as Hfree.
  pose proof (commit_ledger org s needed result a Ha Hn Hmax) as Ha1.
  destruct (reserve_commit_run org s needed result a)
    as (a1' & pool & r' & Hrun & _ & Hrs & _ & _ & _ & Hid & Horg & _ & _ & Hst).
  rewrite Hc in Hrun, Ha1. injection Hrun as <- <-. cbn [fst] in Ha1.
  assert (Hget : settlementReservations a1 !! plr_ID r = Some r)
    by (rewrite Hrs; apply lookup_insert_eq).
  assert (Ha2 : ledger_ok a2) by (by apply release_ledger).
  destruct (release_run (plr_ID r) r a1) as (a' & t & Hrel & Hres);
    [rewrite Hid; apply plr_visible|done|by rewrite Hst|].
  unfold a2 in *. rewrite Hrel in *. cbn [fst] in *.
  split; [|split; [done|]].
  - intros p. rewrite (lk_balance _ Ha2), (lk_balance _ Ha). unfold outstanding.
    rewrite Hres, (sum_map_update _ _ _ r _ Hget), Hrs, sum_map_insert by (by rewrite Hid).
    unfold live. cbn. rewrite andb_false_r. lia.
  - eapply release_released; [rewrite Hres; apply lookup_insert_eq|done].
Qed.

Lemma after_first_run :
  ∃ r, reserve_commit "p1" demo_snapshot 110 demo_result onboarded = (after_first, Ok r) ∧
       plr_ID r = "plr_1".
Proof.
  eexists. split; [apply run_at; [reflexivity|]; vm_compute; reflexivity|]. reflexivity.
Qed.

Lemma release_undoes_reservation_witness :
  reserved "p1" (releaseProviderSettlementReservation "plr_1" after_first).1 =
  reserved "p1" onboarded.
Proof.
  destruct after_first_run as (r & Hr & Hid).
  assert (H0 : 0 ≤ 110) by done.
  assert (H1 : reserved "p1" onboarded + 110 ≤ max_int64) by (vm_compute; done).
  rewrite <- Hid.
  exact (proj1 (release_undoes_reservation onboarded after_first "p1" demo_snapshot 110
    demo_result r onboarded_ok H0 H1 Hr) "p1").
Defined.

(** Two awards of 500 cents whose locked sections interleave: both read the
    pool, both are provisioned, both commit. *)
Definition interleaved_awards : M () :=
  s1 ← reserve_begin "p1";
  s2 ← reserve_begin "p1";
  match s1, s2 with
  | Some s1, Some s2 =>
      '(n1, r1) ← reserve_provision "p1" 500 s1;
      '(n2, r2) ← reserve_provision "p1" 500 s2;
      _ ← reserve_commit "p1" s1 n1 r1;
      _ ← reserve_commit "p1" s2 n2 r2;
      mret tt
  | _, _ => mret tt
  end.

(** Concurrent awards overcommit a pool.  The spendable amount is compared
    with the pool as it was before the mutex was released for the provisioner's
    answer, and not with the pool the reservation is added to: two awards that
    one after the other would not both fit are both granted, and the pool ends
    up with more reserved than it can spend. *)
Theorem interleaved_awards_overcommit :
  let sequential := (_ ← maybeReserveProviderSettlementLiquidity "p1" 500;
                     maybeReserveProviderSettlementLiquidity "p1" 500) in
  let pool := pool_of (interleaved_awards onboarded).1 "p1" in
  (sequential onboarded).2 = Err ErrProviderSettlementPoolUnavailable ∧
  (interleaved_awards onboarded).2 = Ok tt ∧
  pool_ReservedOutstandingCents pool = 1100 ∧ pool_TotalSpendableCents pool = 1000 ∧
  pool_AvailableToAllocateCents pool = - 100.
Proof. vm_compute. repeat split. Qed.

(** Verifying a settlement binding forgets its provider's reservations.
    The pool is replaced by a fresh one, so that after a second verification
    the ledger no longer balances and liquidity that is still reserved is
    granted a second time. *)
Theorem reverify_forgets_reservations :
  let again := (_ ← maybeReserveProviderSettlementLiquidity "p1" 500;
                _ ← VerifyProviderSettlementBinding "psb_1";
                maybeReserveProviderSettlementLiquidity "p1" 500) in
  let a' := (again onboarded).1 in
  is_ok (again onboarded).2 = true ∧
  reserved "p1" a' = 550 ∧ outstanding "p1" a' = 1100 ∧
  pool_TotalSpendableCents (pool_of a' "p1") = 1000.
Proof. vm_compute. repeat split. Qed.

(** ** Outages and the stored orders *)

Section outages.
Context `{StorageLaws} `{MO : MapOrder}.

(** What the sections around the loops over reservations leave alone. *)
Definition same_orders (a a' : App) : Prop :=
  orders a' = orders a ∧ settlementReservations a' = settlementReservations a.

#[export] Instance same_orders_preorder : PreOrder same_orders.
Proof. split; [done|]. intros a b c [] []. split; congruence. Qed.

Lemma now_orders : frames same_orders now.
Proof. done. Qed.
Lemma ensure_orders p i : frames same_orders (ensure p i).
Proof. done. Qed.
Lemma put_pool_orders org p : frames same_orders (put_pool org p).
Proof. done. Qed.
Lemma active_orders org : frames same_orders (activeSettlementBinding org).
Proof. intros a. unfold activeSettlementBinding. by destruct (settlementBindingsByOrg a). Qed.
Hint Resolve now_orders ensure_orders put_pool_orders active_orders : frames.
Lemma provisioning_begin_orders org : frames same_orders (provisioning_begin org).
Proof. unfold provisioning_begin. solve_frames. Qed.

Hint Resolve provisioning_begin_orders : frames.
Lemma recover_begin_orders org : frames same_orders (recover_begin org).
Proof. unfold recover_begin. solve_frames. Qed.
Lemma recover_provision_orders org s : frames same_orders (recover_provision org s).
Proof. unfold recover_provision. solve_frames. Qed.

(** Take the first computation of a run off, with what it keeps. *)
Ltac off H :=
  let a1 := fresh "a" in let x := fresh "x" in let Hm := fresh "Hm" in
  apply bind_Ok in H as (a1 & x & Hm & H);
  lazymatch type of Hm with
  | get_st _ = _ => injection Hm as <- <-
  | _ => apply (frames_result same_orders) in Hm; [|solve [eauto with frames]]
  end.

Lemma Disconnect_orders org reason a a' :
  ReportProviderSettlementDisconnect org reason a = (a', Ok tt) →
  ∃ a1, same_orders a a1 ∧ update_reserved_orders org disconnect_order a1 = (a', Ok tt).
Proof.
  unfold ReportProviderSettlementDisconnect. intros Hr.
  off Hr. apply bind_Ok in Hr as (a2 & [] & Hm2 & Hr). injection Hm2 as <-.
  off Hr. destruct (settlementPools _ !! org); [|discriminate Hr].
  apply bind_Ok in Hr as (a3 & [] & Hm3 & Hr). injection Hm3 as <-.
  eexists. split; [|exact Hr]. cbn. unfold same_orders in *. split; case_match; apply Hm.
Qed.

Lemma Recover_orders org a a' pool :
  RecoverProviderSettlement org a = (a', Ok pool) →
  ∃ a1 a2, same_orders a a1 ∧
    update_reserved_orders org resume_order a1 = (a2, Ok tt) ∧ same_orders a2 a'.
Proof.
  unfold RecoverProviderSettlement. intros Hr.
  apply bind_Ok in Hr as (a1 & s & Hb & Hr).
  apply (frames_result same_orders _ _ _ _ (recover_begin_orders org)) in Hb.
  apply bind_Ok in Hr as (a2 & answer & Hp & Hr).
  apply (frames_result same_orders _ _ _ _ (recover_provision_orders org s)) in Hp.
  unfold recover_end in Hr. off Hr. destruct answer as [result|e].
  - off Hr. apply bind_Ok in Hr as (a4 & [] & Hresume & Hr).
    off Hr. injection Hr as <- _.
    do 2 eexists. split; [|split; [exact Hresume|done]].
    repeat first [eassumption | etransitivity; [eassumption|]].
  - off Hr. off Hr. discriminate Hr.
Qed.
End outages.

(** An outage reaches every order it should and no other.  When the
    provider's disconnect is recorded, each stored order with an active
    reservation of the provider is paused and every other order is as it was;
    when the provider then recovers, the same orders are resumed.  This holds
    for every repository that keeps its contract and for every order in which
    Go visits the map of reservations, an order with several reservations
    included. *)
Theorem outage_reaches_reserved_orders `{StorageLaws} `{MO : MapOrder}
    org reason a a1 a2 pool k o :
  valid (orders a) → get_order k a = Ok o →
  ReportProviderSettlementDisconnect org reason a = (a1, Ok tt) →
  RecoverProviderSettlement org a1 = (a2, Ok pool) →
  (order_reserved org k a →
     get_order k a1 = Ok (disconnect_order o) ∧
     get_order k a2 = Ok (resume_order (disconnect_order o))) ∧
  (¬ order_reserved org k a → get_order k a1 = Ok o ∧ get_order k a2 = Ok o).
Proof.
  intros Hv Ho Hd Hr.
  destruct (Disconnect_orders _ _ _ _ Hd) as (a0 & [Ho0 Hr0] & Hd1).
  destruct (Recover_orders _ _ _ _ Hr) as (a3 & a4 & [Ho3 Hr3] & Hr1 & [Ho4 _]).
  assert (Hres : ∀ a a', settlementReservations a' = settlementReservations a →
    order_reserved org k a' ↔ order_reserved org k a).
  { intros b b' Hb. unfold order_reserved. by rewrite Hb. }
  destruct (update_reserved_orders_all org disconnect_order (λ _, eq_refl)
    disconnect_order_idem _ _ Hd1) as [Hv1 H1]; [by rewrite Ho0|].
  destruct (frames_result same_pools _ _ _ _ (update_reserved_orders_pools _ _) Hd1)
    as [Hr1' _].
  rewrite <- Ho3 in Hv1.
  destruct (update_reserved_orders_all org resume_order resume_order_id
    resume_order_idem _ _ Hr1 Hv1) as [_ H2].
  unfold get_order in *. rewrite Ho3 in H2. rewrite Ho0 in H1. rewrite <- Ho4 in H2.
  specialize (H1 k o Ho). rewrite (Hres a a0 Hr0) in H1.
  assert (Hr3a : order_reserved org k a3 ↔ order_reserved org k a).
  { by rewrite (Hres a1 a3 Hr3), (Hres a0 a1 Hr1'), (Hres a a0 Hr0). }
  split; intros Hc.
  - destruct H1 as [H1 _]. specialize (H1 Hc). split; [done|].
    by apply (proj1 (H2 k _ H1)), Hr3a.
  - destruct H1 as [_ H1]. specialize (H1 Hc). split; [done|].
    apply (proj2 (H2 k _ H1)). by rewrite Hr3a.
Qed.

(** The platform of [reserved_500] with an order that holds the reservation. *)
Definition with_order : App :=
  (attachProviderSettlementReservation "plr_1" "ord_1"
    (reserved_500 <| orders := mkMemoryOrders 1 {["ord_1" := sample_order]} |>)).1.

Definition after_disconnect : App :=
  (ReportProviderSettlementDisconnect (MO := plain_order) "p1" "down" with_order).1.
Definition after_recovery : App :=
  (RecoverProviderSettlement (MO := plain_order) "p1" after_disconnect).1.

Lemma with_order_store : orders with_order = mkMemoryOrders 1 {["ord_1" := sample_order]}.
Proof. vm_compute. reflexivity. Qed.
Lemma with_order_valid : valid (orders with_order).
Proof.
  rewrite with_order_store. split; [done|]. intros id o'. cbn [mo_data].
  intros [<- <-]%lookup_singleton_Some. split; [done|]. by exists 1.
Qed.
Lemma with_order_reserved : order_reserved "p1" "ord_1" with_order.
Proof.
  exists "plr_1". eexists. split; [vm_compute; reflexivity|]. split; reflexivity.
Qed.
Lemma with_order_get : get_order "ord_1" with_order = Ok sample_order.
Proof. unfold get_order. by rewrite with_order_store. Qed.
Lemma after_disconnect_run :
  ReportProviderSettlementDisconnect (MO := plain_order) "p1" "down" with_order =
  (after_disconnect, Ok tt).
Proof. apply run_at; [reflexivity|]. vm_compute. reflexivity. Qed.
Lemma after_recovery_run :
  ∃ pool, RecoverProviderSettlement (MO := plain_order) "p1" after_disconnect =
          (after_recovery, Ok pool).
Proof. eexists. apply run_at; [reflexivity|]. vm_compute. reflexivity. Qed.

Lemma outage_reaches_reserved_orders_witness :
  get_order "ord_1" after_recovery = Ok (resume_order (disconnect_order sample_order)).
Proof.
  destruct after_recovery_run as [pool Hr].
  exact (proj2 (proj1 (outage_reaches_reserved_orders (MO := plain_order) "p1" "down"
    with_order after_disconnect after_recovery pool "ord_1" sample_order with_order_valid
    with_order_get after_disconnect_run Hr) with_order_reserved)).
Defined.
