(* ===== verification/OrderHandlers.v ===== *)
(** * The order handlers refine the order machine

    [Orders] models each handler as the whole method: reads, saves, events and
    notifications over a fallible repository.  Here each is related to the
    operation of [Lifecycle] it performs: it changes the order it names by that
    operation or not at all, it changes no other order, and a success reports
    exactly what was stored.  The theorems hold for every repository that keeps
    the contract of [Repo]. *)

From S2P Require Import Prelude GoNum GoText Core Milestones Market Repo MemoryRepo App Lifecycle.
From S2P Require Import ProviderSettlement SettlementLedger Orders.

(** ** Requests *)

Inductive order_request :=
  | RSettle (orderID : string) (input : SettleMilestoneInput)
  | RUsage (orderID : string) (input : RecordUsageChargeInput)
  | RDispute (orderID : string) (input : OpenDisputeInput)
  | RResolve (disputeID : string) (input : ResolveDisputeInput)
  | RTopUp (orderID : string) (input : TopUpInput).

Section handlers.
Context `{StorageLaws}.

(** The handler of a request, with the order and the ledger entries it returns. *)
Definition handle (q : order_request) : M (Order * list LedgerEntry) :=
  match q with
  | RSettle id input => '(o, e) ← SettleMilestone id input; mret (o, [e])
  | RUsage id input => '(o, _) ← RecordUsageCharge id input; mret (o, [])
  | RDispute id input =>
      '(o, refund, recovery) ← OpenDispute id input; mret (o, [refund; recovery])
  | RResolve id input => '(_, o) ← ResolveDispute id input; mret (o, [])
  | RTopUp id input => o ← TopUpMilestone id input; mret (o, [])
  end.

(** The order a request names; a dispute is looked up. *)
Definition target (q : order_request) (a : App) : string :=
  match q with
  | RSettle id _ | RUsage id _ | RDispute id _ | RTopUp id _ => id
  | RResolve disputeID _ =>
      match dispute_Get disputeID (disputes a) with
      | Ok d => d_OrderID d
      | Err _ => ""
      end
  end.

(** The reading [time.Now] is about to give. *)
Definition system_time (a : App) : Time :=
  ext_system_clock (ext a) (ext_ticks (ext a)).

Definition operation (q : order_request) (a : App) : order_op :=
  match q with
  | RSettle _ input => OpSettle input
  | RUsage _ input => OpUsage input
  | RDispute _ input => OpDispute input (system_time a)
  | RResolve disputeID _ =>
      OpResolve (mkCoreResolveDisputeInput
        match dispute_Get disputeID (disputes a) with
        | Ok d => d_MilestoneID d
        | Err _ => ""
        end)
  | RTopUp _ input => OpTopUp input
  end.

(** ** The shape of a handler's run *)

(** The order [id] was [o] in [a] and is [o'] in [s]; the others are as they were. *)
Definition stored (a : App) (id : string) (o' : Order) (s : App) : Prop :=
  valid (orders s) ∧ (∀ k, k ≠ id → get_order k s = get_order k a) ∧
  get_order id s = Ok o'.

Definition same_store (a a' : App) : Prop := orders a' = orders a.
#[export] Instance same_store_preorder : PreOrder same_store.
Proof. unfold same_store. split; [done|]. intros a b c. congruence. Qed.

Definition unchanged (a s : App) : Prop :=
  valid (orders s) ∧ ∀ k, get_order k s = get_order k a.

(** What a run from [a] may end in, when it turns the order [o] into [o']. *)
Definition outcome {A} (a : App) (id : string) (o o' : Order) (P : A → Prop)
    (out : App * result A) : Prop :=
  match out.2 with
  | Ok x => stored a id o' out.1 ∧ P x
  | Err _ => unchanged a out.1 ∨ stored a id o' out.1
  end.

Section outcome.
Context {A : Type} (a : App) (id : string) (o o' : Order) (P : A → Prop)
  (Hvalid : valid (orders a)) (Hget : get_order id a = Ok o)
  (Hid : o_ID o' = o_ID o).

Lemma same_unchanged s : same_store a s → unchanged a s.
Proof. unfold same_store, unchanged, get_order. by intros ->. Qed.

Lemma outcome_before {B} (m : M B) (f : B → M A) s :
  same_store a s → frames same_store m →
  (∀ s' x, m s = (s', Ok x) → same_store a s' → outcome a id o o' P (f x s')) →
  outcome a id o o' P ((m ≫= f) s).
Proof.
  intros Hs Hm Hf. unfold mbind, st_bind. pose proof (Hm s) as Hms.
  destruct (m s) as [s1 [x|e]] eqn:Hr; cbn in Hms.
  - apply Hf; [done|]. by transitivity s.
  - left. apply same_unchanged. by transitivity s.
Qed.

Lemma outcome_throw e s : same_store a s → outcome a id o o' P (throw e s).
Proof. intros Hs. left. by apply same_unchanged. Qed.

Lemma stored_same s s' : stored a id o' s → same_store s s' → stored a id o' s'.
Proof. unfold stored, same_store, get_order. intros Hs ->. exact Hs. Qed.

Lemma outcome_after {B} (m : M B) (f : B → M A) s :
  stored a id o' s → frames same_store m →
  (∀ s' x, m s = (s', Ok x) → stored a id o' s' → outcome a id o o' P (f x s')) →
  outcome a id o o' P ((m ≫= f) s).
Proof.
  intros Hs Hm Hf. unfold mbind, st_bind. pose proof (Hm s) as Hms.
  destruct (m s) as [s1 [x|e]] eqn:Hr; cbn in Hms.
  - apply Hf; [done|]. exact (stored_same _ _ Hs Hms).
  - right. exact (stored_same _ _ Hs Hms).
Qed.

Lemma outcome_ret x s : stored a id o' s → P x → outcome a id o o' P ((mret x : M A) s).
Proof. by split. Qed.

Lemma outcome_save (f : () → M A) s :
  same_store a s → (∀ s', stored a id o' s' → outcome a id o o' P (f tt s')) →
  outcome a id o o' P ((on_orders (order_Save o') ≫= f) s).
Proof.
  unfold same_store. intros Hs Hf.
  pose proof (get_id _ _ _ Hvalid Hget) as Hoid.
  unfold mbind, st_bind, on_orders, zoom.
  destruct (order_Save o' (orders s)) as [s' r] eqn:Hr. rewrite Hs in Hr.
  assert (Hv' : valid s').
  { eapply save_valid; [exact Hvalid| |exact Hr]. rewrite Hid, Hoid.
    by eapply get_issued. }
  destruct r as [[]|e].
  - apply Hf. unfold stored, get_order. cbn. split; [done|]. split.
    + intros k Hk. eapply save_get_ne; [exact Hr|congruence].
    + rewrite <- Hoid, <- Hid. exact (save_get _ _ _ Hvalid Hr).
  - left. unfold unchanged, get_order. cbn. split; [done|].
    exact (save_err _ _ _ _ Hr).
Qed.

(** The read that ends most handlers gives what was saved. *)
Lemma outcome_read (f : Order → M A) s :
  stored a id o' s → (∀ s', stored a id o' s' → outcome a id o o' P (f o' s')) →
  outcome a id o o' P ((query orders (order_Get id) ≫= f) s).
Proof.
  intros Hs Hf. pose proof Hs as (_ & _ & Hg). unfold get_order in Hg.
  unfold mbind, st_bind, query. rewrite Hg. by apply Hf.
Qed.
End outcome.

(** *** What does not touch the orders *)

Lemma now_store : frames same_store now.
Proof. done. Qed.
Lemma system_now_store : frames same_store system_now.
Proof. done. Qed.
Lemma publish_store subject p : frames same_store (publish subject p).
Proof. done. Qed.
Lemma notify_store event tgt p : frames same_store (notify event tgt p).
Proof. intros a. unfold notify. by destruct (notifier a). Qed.
Lemma on_disputes_store {A} (m : ST disputes_t A) : frames same_store (on_disputes m).
Proof. intros a. unfold on_disputes, zoom. by destruct (m (disputes a)). Qed.
Lemma lift_store {A} (r : result A) : frames same_store (lift r).
Proof. done. Qed.
Lemma put_pool_store org p : frames same_store (put_pool org p).
Proof. done. Qed.
Lemma modify_store f : (∀ a, orders (f a) = orders a) → frames same_store (modify f).
Proof. intros Hf a. apply Hf. Qed.
Hint Resolve now_store put_pool_store : frames.
Lemma GetReservation_store id : frames same_store (GetProviderSettlementReservation id).
Proof. unfold GetProviderSettlementReservation. solve_frames. Qed.
Lemma release_store id : frames same_store (releaseProviderSettlementReservation id).
Proof. unfold releaseProviderSettlementReservation. solve_frames. Qed.
Hint Resolve system_now_store publish_store notify_store on_disputes_store lift_store
  GetReservation_store release_store : frames.

(** ** The handlers, one by one *)

(** A run that starts by reading the order. *)
Lemma reading {A} id a (f : Order → M A) :
  (query orders (order_Get id) ≫= f) a =
  match get_order id a with Ok o => f o a | Err e => (a, Err e) end.
Proof.
  unfold mbind, st_bind, query, get_order. by destruct (order_Get id (orders a)).
Qed.

Lemma apply_op_id op o : o_ID (apply_op op o).1 = o_ID o.
Proof.
  destruct op; cbn [apply_op]; unfold settle_order, Core.SettleMilestone,
    Core.RecordUsageCharge, Core.OpenDispute, Core.ResolveDispute, topup_order,
    reconcile_order, resume_order, disconnect_order, set_milestone, advanceNextMilestone.
  all: repeat case_match; simplify_eq; cbn; try done.
Qed.

Lemma lift_Ok {A B} (x : A) (f : A → M B) s : (lift (Ok x) ≫= f) s = f x s.
Proof. done. Qed.

(** The steps of a handler's proof: before the save, the save, after it, the
    read at the end.  [frame] proves that a step keeps the store. *)
Ltac frame := solve [eauto with frames | solve_frames].
Ltac before := eapply outcome_before; [eassumption | eassumption | frame | intros ? ? _ ?].
Ltac save := eapply outcome_save; [eassumption | eassumption | eassumption | eassumption
                                  | intros ? ?].
Ltac after := eapply outcome_after; [eassumption | frame | intros ? ? _ ?].
Ltac finish := eapply outcome_read; [eassumption | intros ? ?; by apply outcome_ret].

Lemma Settle_outcome id input a o :
  valid (orders a) → get_order id a = Ok o →
  outcome a id o (apply_op (OpSettle input) o).1
    (λ x, x.1 = (apply_op (OpSettle input) o).1 ∧ [x.2] = (apply_op (OpSettle input) o).2)
    (SettleMilestone id input a).
Proof.
  intros Hv Hg. pose proof (apply_op_id (OpSettle input) o) as Hid.
  unfold SettleMilestone. rewrite reading, Hg. revert Hid. cbn [apply_op].
  destruct (settle_order o input) as [o' [[entry anomalies]|e]] eqn:Hs;
    cbn [fst snd]; intros Hid; [|by left].
  assert (Hsame : same_store a a) by reflexivity.
  rewrite lift_Ok. before. save. after. after. after. after. finish.
Qed.

Lemma Usage_outcome id input a o :
  valid (orders a) → get_order id a = Ok o →
  outcome a id o (apply_op (OpUsage input) o).1
    (λ x, x.1 = (apply_op (OpUsage input) o).1) (RecordUsageCharge id input a).
Proof.
  intros Hv Hg. pose proof (apply_op_id (OpUsage input) o) as Hid.
  unfold RecordUsageCharge. rewrite reading, Hg. revert Hid. cbn [apply_op].
  destruct (Core.RecordUsageCharge o input) as [o' [charge|e]] eqn:Hs;
    cbn [fst snd]; intros Hid; [|by left].
  assert (Hsame : same_store a a) by reflexivity.
  rewrite lift_Ok. save. after. after. finish.
Qed.

Lemma Dispute_outcome id input a o :
  valid (orders a) → get_order id a = Ok o →
  let op := OpDispute input (system_time a) in
  outcome a id o (apply_op op o).1
    (λ x, x.1.1 = (apply_op op o).1 ∧ [x.1.2; x.2] = (apply_op op o).2)
    (OpenDispute id input a).
Proof.
  intros Hv Hg op. pose proof (apply_op_id op o) as Hid.
  unfold OpenDispute. rewrite reading, Hg. revert Hid. unfold op. cbn [apply_op].
  assert (Hsame : same_store a a) by reflexivity.
  intros Hid. eapply outcome_before; [done|exact Hsame|frame|].
  intros s t [= <- <-] Hs1. revert Hid. unfold system_time.
  destruct (Core.OpenDispute o input _) as [o' [[refund recovery]|e]] eqn:Hd;
    cbn [fst snd]; intros Hid; [|by left].
  rewrite lift_Ok. before. before. before. save. after. after. after. finish.
Qed.

Lemma Resolve_outcome disputeID input d a o :
  valid (orders a) → dispute_Get disputeID (disputes a) = Ok d →
  get_order (d_OrderID d) a = Ok o →
  let op := OpResolve (mkCoreResolveDisputeInput (d_MilestoneID d)) in
  outcome a (d_OrderID d) o (apply_op op o).1
    (λ x, x.2 = (apply_op op o).1) (ResolveDispute disputeID input a).
Proof.
  intros Hv Hd Hg op. pose proof (apply_op_id op o) as Hid.
  unfold ResolveDispute. unfold mbind at 1, st_bind at 1, query at 1. rewrite Hd.
  rewrite reading, Hg. revert Hid. unfold op. cbn [apply_op].
  destruct (Core.ResolveDispute o _) as [o' [[]|e]] eqn:Hr;
    cbn [fst snd]; intros Hid; [|by left].
  assert (Hsame : same_store a a) by reflexivity.
  rewrite lift_Ok. before. before. save. after. after. after. after. finish.
Qed.

Lemma TopUp_outcome id input a o :
  valid (orders a) → get_order id a = Ok o →
  outcome a id o (apply_op (OpTopUp input) o).1
    (λ x, x = (apply_op (OpTopUp input) o).1) (TopUpMilestone id input a).
Proof.
  intros Hv Hg. pose proof (apply_op_id (OpTopUp input) o) as Hid.
  unfold TopUpMilestone. revert Hid. cbn [apply_op].
  assert (Hsame : same_store a a) by reflexivity.
  destruct (String.eqb (tui_MilestoneID input) ""); [by left|].
  destruct (tui_AdditionalCents input <=? 0); [by left|].
  intros Hid. unfold fail_if. unfold mbind at 1, st_bind at 1, mbind at 1, st_bind at 1.
  cbn [mret st_ret]. rewrite reading, Hg. revert Hid.
  destruct (topup_order o input) as [o'|]; cbn [fst snd]; intros Hid; [|by left].
  save. after. match goal with Hst : stored _ _ _ _ |- _ =>
    pose proof Hst as (_ & _ & Hgo) end.
  unfold query. unfold get_order in Hgo. rewrite Hgo. by split.
Qed.

(** ** The refinement *)

(** [outcome] through the wrapper of [handle]. *)
Lemma outcome_map {A B} a id o o' (P : A → Prop) (Q : B → Prop) (m : M A) (f : A → M B) :
  outcome a id o o' P (m a) → (∀ x s, P x → ∃ y, f x s = (s, Ok y) ∧ Q y) →
  outcome a id o o' Q ((m ≫= f) a).
Proof.
  unfold outcome, mbind, st_bind. intros Hm HPQ. destruct (m a) as [s [x|e]]; cbn in *.
  - destruct Hm as [Hs HP]. by destruct (HPQ x s HP) as (y & -> & HQ).
  - exact Hm.
Qed.

(** The dispute a resolution names is there. *)
Definition found (q : order_request) (a : App) : bool :=
  match q with RResolve id _ => is_ok (dispute_Get id (disputes a)) | _ => true end.

Lemma handle_outcome q a o :
  valid (orders a) → get_order (target q a) a = Ok o → found q a = true →
  outcome a (target q a) o (apply_op (operation q a) o).1
    (λ x, x = apply_op (operation q a) o) (handle q a).
Proof.
  intros Hv Hg Hd. destruct q as [id input|id input|id input|id input|id input]; cbn [handle].
  - eapply outcome_map; [by apply Settle_outcome|].
    intros [o1 e] s [Ho He]. eexists. split; [done|]. cbn [fst snd] in *. subst o1.
    rewrite He. by destruct (apply_op _ o).
  - eapply outcome_map; [by apply Usage_outcome|].
    intros [o1 c] s Ho. eexists. split; [done|]. cbn [fst snd] in *. subst o1.
    cbn [operation apply_op]. by destruct (Core.RecordUsageCharge o input) as [? []].
  - eapply outcome_map; [by apply Dispute_outcome|].
    intros [[o1 r1] r2] s [Ho He]. eexists. split; [done|]. cbn [fst snd] in *. subst o1.
    rewrite He. by destruct (apply_op _ o).
  - cbn [target operation found] in *.
    destruct (dispute_Get id (disputes a)) as [d|e] eqn:Hgd; [|done].
    eapply outcome_map; [by apply Resolve_outcome|].
    intros [d1 o1] s Ho. eexists. split; [done|]. cbn [fst snd] in *. subst o1.
    cbn [apply_op]. by destruct (Core.ResolveDispute o _) as [? []].
  - eapply outcome_map; [by apply TopUp_outcome|].
    intros o1 s ->. eexists. split; [done|].
    cbn [operation apply_op]. case_match; [done|]. by destruct (topup_order o input).
Qed.

(** A request whose order cannot be read leaves everything as it was. *)
Lemma handle_missing q a e :
  get_order (target q a) a = Err e ∨ found q a = false → ∃ e', handle q a = (a, Err e').
Proof.
  intros Hg. destruct q as [id input|id input|id input|id input|id input];
    cbn [handle target found] in *;
    unfold SettleMilestone, RecordUsageCharge, OpenDispute, ResolveDispute, TopUpMilestone;
    unfold mbind at 1, st_bind at 1.
  1-3: destruct Hg as [Hg|?]; [|done]; rewrite reading, Hg; by eexists.
  - unfold mbind at 1, st_bind at 1, query at 1.
    destruct (dispute_Get id (disputes a)) as [d|e'] eqn:Hd; [|by eexists].
    destruct Hg as [Hg|?]; [|done].
    rewrite reading, Hg. by eexists.
  - destruct Hg as [Hg|?]; [|done].
    unfold mbind at 1, st_bind at 1, fail_if. destruct (String.eqb _ _); [by eexists|].
    cbn [mret st_ret]. unfold mbind at 1, st_bind at 1.
    destruct (_ <=? 0); [by eexists|]. cbn [mret st_ret]. rewrite reading, Hg. by eexists.
Qed.

(** ** Histories: what any sequence of requests makes of the stored orders *)

Lemma run_app_state ops1 ops2 o : (run (ops1 ++ ops2) o).1 = (run ops2 (run ops1 o).1).1.
Proof.
  revert o. induction ops1 as [|op ops1 IH]; intros o; [done|]. cbn [run app].
  destruct (apply_op op o) as [o1 l1]. specialize (IH o1).
  destruct (run (ops1 ++ ops2) o1), (run ops1 o1). cbn in *.
  by destruct (run ops2 _).
Qed.

Lemma run_one op o : (run [op] o).1 = (apply_op op o).1.
Proof. cbn. by destruct (apply_op op o). Qed.

Section histories.
Context (P : order_op → Prop).

(** Every order of [a] is in [a'] what a history of operations makes of it, all of
    them allowed by [P], and every other order of [a'] was created under its id in
    between. *)
Record evolved (a a' : App) : Prop := {
  ev_valid : valid (orders a');
  ev_old k o : get_order k a = Ok o → ∃ ops, Forall P ops ∧ get_order k a' = Ok (run ops o).1;
  ev_new k o' : get_order k a' = Ok o' →
    is_ok (get_order k a) = true ∨
    ∃ input ops, Forall P ops ∧ o' = (run ops (new_order k input)).1;
}.
Definition evolves (a a' : App) : Prop := valid (orders a) → evolved a a'.

Lemma evolves_unchanged a a' : unchanged a a' → evolved a a'.
Proof.
  intros [Hv Hu]. split; [done| |].
  - intros k o Hg. exists []. split; [constructor|]. by rewrite Hu.
  - intros k o' Hg. left. by rewrite <- Hu, Hg.
Qed.

#[export] Instance evolves_preorder : PreOrder evolves.
Proof.
  split.
  - intros a Hv. by apply evolves_unchanged.
  - intros a b c Hab Hbc Hv. specialize (Hab Hv). specialize (Hbc (ev_valid _ _ Hab)).
    split; [apply Hbc| |].
    + intros k o Hg. destruct (ev_old _ _ Hab k o Hg) as (ops1 & P1 & H1).
      destruct (ev_old _ _ Hbc k _ H1) as (ops2 & P2 & H2).
      exists (ops1 ++ ops2). split; [by apply Forall_app|]. by rewrite run_app_state.
    + intros k o' Hg.
      destruct (ev_new _ _ Hbc k o' Hg) as [Hb|]; [|by right].
      destruct (get_order k b) as [ob|e] eqn:Hgb; [|done].
      destruct (ev_new _ _ Hab k ob Hgb) as [|(input & ops & P1 & ->)]; [by left|].
      right. destruct (ev_old _ _ Hbc k _ Hgb) as (ops2 & P2 & H2).
      exists input, (ops ++ ops2). split; [by apply Forall_app|]. rewrite run_app_state. congruence.
Qed.

Lemma same_store_evolves a a' : same_store a a' → evolves a a'.
Proof.
  intros Hs Hv. apply evolves_unchanged. unfold same_store, unchanged, get_order in *.
  by rewrite Hs.
Qed.

Lemma frames_same_store {A} (m : M A) : frames same_store m → frames evolves m.
Proof. intros Hm a. apply same_store_evolves, Hm. Qed.
Hint Extern 2 (frames evolves _) =>
  apply frames_same_store; solve [eauto with frames] : frames.

(** A save of a stored order after one operation. *)
Lemma evolves_stored a id o op s :
  P op → get_order id a = Ok o → stored a id (apply_op op o).1 s → evolved a s.
Proof.
  intros HP Hg (Hv & Hne & Heq). split.
  - done.
  - intros k o' Hk. destruct (decide (k = id)) as [->|Hk'].
    + exists [op]. split; [by constructor|]. rewrite run_one. congruence.
    + exists []. split; [constructor|]. by rewrite (Hne k Hk').
  - intros k o' Hk. left. destruct (decide (k = id)) as [->|Hk'].
    + by rewrite Hg.
    + by rewrite <- (Hne k Hk'), Hk.
Qed.

Lemma outcome_evolves {A} a id o op (Q : A → Prop) out :
  P op → get_order id a = Ok o → outcome a id o (apply_op op o).1 Q out → evolved a out.1.
Proof.
  intros HP Hg. unfold outcome. destruct out as [s [x|e]]; cbn.
  - intros [Hs _]. by eapply evolves_stored.
  - intros [Hu|Hs]; [by apply evolves_unchanged|by eapply evolves_stored].
Qed.

(** What a request's handler leaves, by whether the order it names can be read. *)
Lemma handle_cases q a :
  valid (orders a) →
  (∃ e, handle q a = (a, Err e)) ∨
  ∃ o, get_order (target q a) a = Ok o ∧
       outcome a (target q a) o (apply_op (operation q a) o).1
         (λ x, x = apply_op (operation q a) o) (handle q a).
Proof.
  intros Hv. destruct (get_order (target q a) a) as [o|e] eqn:Hg.
  2: { left. eapply handle_missing. by left. }
  destruct (found q a) eqn:Hd.
  - right. exists o. split; [done|]. by apply handle_outcome.
  - left. apply (handle_missing q a ErrOrderNotFound). by right.
Qed.

Lemma handle_evolves q : (∀ a, P (operation q a)) → frames evolves (handle q).
Proof.
  intros HP a Hv. destruct (handle_cases q a Hv) as [[e ->]|(o & Hg & Ho)].
  - by apply evolves_unchanged.
  - by eapply outcome_evolves.
Qed.

(** *** Creation *)

(** What a creation may add: one order, under an id that read as an error. *)
Definition created (input : CreateOrderInput) (a s : App) (id : string) : Prop :=
  valid (orders s) ∧ is_ok (get_order id a) = false ∧
  get_order id s = Ok (new_order id input) ∧
  ∀ k, k ≠ id → get_order k s = get_order k a.

Lemma created_evolved input a s id : created input a s id → evolved a s.
Proof.
  intros (Hv & Hf & Hn & Hne). split; [done| |].
  - intros k o Hg. exists []. split; [constructor|].
    destruct (decide (k = id)) as [->|]; [by rewrite Hg in Hf|]. by rewrite Hne.
  - intros k o' Hg. destruct (decide (k = id)) as [->|].
    + right. exists input, []. split; [constructor|]. cbn. congruence.
    + left. by rewrite <- Hne, Hg.
Qed.

Lemma CheckCredit_store b c : frames same_store (CheckCreditAvailability b c).
Proof. unfold CheckCreditAvailability. solve_frames. Qed.
Hint Resolve CheckCredit_store : frames.

(** A run that ends in [Q] when it succeeds and in [E] when it fails. *)
Definition ends {A} (E : App → Prop) (Q : A → App → Prop) (out : App * result A) : Prop :=
  match out.2 with Ok x => Q x out.1 | Err _ => E out.1 end.

Lemma ends_step {A B} (I E : App → Prop) (Q : A → App → Prop) (m : M B) (f : B → M A) s :
  I s → frames same_store m → (∀ s s', I s → same_store s s' → I s') →
  (∀ s, I s → E s) → (∀ s' x, I s' → ends E Q (f x s')) →
  ends E Q ((m ≫= f) s).
Proof.
  intros Hs Hm HI HE Hf. unfold mbind, st_bind. pose proof (Hm s) as Hms.
  destruct (m s) as [s1 [x|e]]; cbn in Hms; [apply Hf|apply HE]; eauto.
Qed.

Lemma unchanged_same a s s' : unchanged a s → same_store s s' → unchanged a s'.
Proof. unfold unchanged, same_store, get_order. intros Hu ->. exact Hu. Qed.
Lemma created_same input a id s s' :
  created input a s id → same_store s s' → created input a s' id.
Proof. unfold created, same_store, get_order. intros Hu ->. exact Hu. Qed.

Lemma CreateOrder_cases input a :
  valid (orders a) →
  ends (λ s, unchanged a s ∨ ∃ id, created input a s id)
    (λ o s, ∃ id, o = new_order id input ∧ created input a s id) (CreateOrder input a).
Proof.
  intros Hv. unfold CreateOrder.
  assert (Hu : unchanged a a) by done.
  apply (ends_step (unchanged a)); [done|frame|apply unchanged_same|by left|].
  intros s1 _ Hs1.
  apply (ends_step (unchanged a)); [done|frame|apply unchanged_same|by left|].
  intros s2 _ [Hv2 Hs2].
  unfold mbind at 1, st_bind at 1, on_orders at 1, zoom at 1.
  destruct (order_NextID (orders s2)) as [t [id|e]] eqn:Hn.
  2: { left. split; [exact (next_valid _ _ _ Hv2 Hn)|]. intros k. rewrite <- Hs2.
       exact (next_get _ _ _ k Hn). }
  assert (Hvt : valid t) by exact (next_valid _ _ _ Hv2 Hn).
  destruct (next_fresh _ _ _ Hv2 Hn) as [Hi Hni].
  assert (Hfresh : is_ok (get_order id a) = false).
  { rewrite <- Hs2. unfold get_order. rewrite <- (next_get _ _ _ id Hn).
    exact (next_absent _ _ _ Hv2 Hn). }
  assert (Hall : ∀ k, order_Get k t = get_order k a).
  { intros k. rewrite <- Hs2. exact (next_get _ _ _ k Hn). }
  unfold mbind at 1, st_bind at 1, on_orders at 1, zoom at 1.
  change (orders (s2 <| orders := t |>)) with t.
  destruct (order_Save (new_order id input) t) as [t' r] eqn:Hsv.
  assert (Hvt' : valid t') by exact (save_valid (new_order id input) _ _ _ Hvt Hi Hsv).
  destruct r as [[]|e].
  2: { left. split; [exact Hvt'|]. intros k. rewrite <- Hall. exact (save_err _ _ _ _ Hsv k). }
  assert (Hcr : created input a (s2 <| orders := t |> <| orders := t' |>) id).
  { split; [exact Hvt'|]. split; [done|]. split; [exact (save_get _ _ _ Hvt Hsv)|].
    intros k Hk. rewrite <- Hall. by apply (save_get_ne _ _ _ _ _ Hsv). }
  set (s3 := s2 <| orders := t |> <| orders := t' |>) in *.
  do 3 (apply (ends_step (λ s, created input a s id));
    [done|frame|apply created_same|by right; exists id|intros ? _ ?]).
  match goal with Hc : created _ _ ?s id |- _ => destruct Hc as (? & ? & Hg & ?) end.
  unfold ends, query. unfold get_order in Hg. cbn [fst snd o_ID new_order]. rewrite Hg.
  by exists id.
Qed.

Lemma CreateOrder_evolves input : frames evolves (CreateOrder input).
Proof.
  intros a Hv. pose proof (CreateOrder_cases input a Hv) as Hc. unfold ends in Hc.
  destruct (CreateOrder input a) as [s [o|e]]; cbn in *.
  - destruct Hc as (id & _ & Hc). by eapply created_evolved.
  - destruct Hc as [Hu|[id Hc]]; [by apply evolves_unchanged|by eapply created_evolved].
Qed.

(** *** Outages *)

Context `{MO : MapOrder}.

Lemma update_one_evolves op (f : Order → Order) k :
  P op → (∀ o, (apply_op op o).1 = f o) →
  frames evolves (r ← attempt (query orders (order_Get k));
                  match r with
                  | Err _ => mret tt
                  | Ok order => on_orders (order_Save (f order))
                  end).
Proof.
  intros HP Hop a Hv. unfold mbind, st_bind, attempt, query.
  destruct (order_Get k (orders a)) as [o|e] eqn:Hg; [|by apply evolves_unchanged].
  apply (outcome_evolves a k o op (λ _ : (), True)); [done|done|].
  rewrite Hop. pose proof (apply_op_id op o) as Hid. rewrite Hop in Hid.
  pose proof (outcome_save a k o (f o) (λ _ : (), True) Hv Hg Hid (λ _, mret tt) a
    eq_refl (λ s' Hs', outcome_ret a k o (f o) (λ _, True) tt s' Hs' I)) as Ho.
  unfold mbind, st_bind in Ho. by destruct (on_orders _ a) as [s [[]|]].
Qed.

Lemma update_reserved_evolves op f org :
  P op → (∀ o, (apply_op op o).1 = f o) → frames evolves (update_reserved_orders org f).
Proof.
  intros HP Hop. unfold update_reserved_orders.
  apply (frames_bind evolves); [eauto with frames|]. intros a.
  apply (frames_for_each evolves). intros [rid r].
  destruct (concerns org r); [by apply (update_one_evolves op)|eauto with frames].
Qed.

Lemma active_store org : frames same_store (activeSettlementBinding org).
Proof. intros a. unfold activeSettlementBinding. by destruct (settlementBindingsByOrg a). Qed.
Lemma carrier_store org : frames same_store (activeCarrierBinding org).
Proof. intros a. unfold activeCarrierBinding. by destruct (carrierBindingsByOrg a). Qed.
Lemma ensure_store p i : frames same_store (ensure p i).
Proof. done. Qed.
Hint Resolve active_store carrier_store ensure_store : frames.
Lemma provisioning_begin_store org : frames same_store (provisioning_begin org).
Proof. unfold provisioning_begin. solve_frames. Qed.
Hint Resolve provisioning_begin_store : frames.

Lemma Disconnect_evolves org reason : P OpDisconnect →
  frames evolves (ReportProviderSettlementDisconnect org reason).
Proof.
  intros HP.
  unfold ReportProviderSettlementDisconnect.
  apply (frames_bind evolves); [eauto with frames|]. intros t.
  apply (frames_bind evolves).
  { apply frames_same_store, modify_store. intros a. by case_match. }
  intros _. apply (frames_bind evolves); [eauto with frames|]. intros a.
  destruct (settlementPools a !! org); [|eauto with frames].
  apply (frames_bind evolves); [eauto with frames|]. intros _.
  by apply (update_reserved_evolves OpDisconnect).
Qed.

Lemma Recover_evolves org : P OpResume → frames evolves (RecoverProviderSettlement org).
Proof.
  intros HP.
  unfold RecoverProviderSettlement, recover_begin, recover_provision, recover_end.
  assert (Hres : frames evolves (resumeProviderSettlementOrders org))
    by (by apply (update_reserved_evolves OpResume)).
  solve_frames.
Qed.
End histories.

(** No restriction. *)
Definition any_op (_ : order_op) : Prop := True.
End handlers.

#[export] Hint Resolve now_store system_now_store publish_store notify_store
  on_disputes_store lift_store put_pool_store GetReservation_store release_store
  CheckCredit_store active_store carrier_store ensure_store provisioning_begin_store
  : frames.
#[export] Hint Extern 2 (frames (evolves _) _) =>
  apply frames_same_store; solve [eauto with frames] : frames.

(** ** Properties *)

(** C2. Every order request refines the order machine.  Settling, charging,
    disputing, resolving and topping up, each with its repository calls that
    may fail, its event that may be refused and its notifications, changes no
    order but the one it names; a success returns and stores exactly what the
    operation of the order machine makes of it, with its ledger entries; a
    failure leaves the order either as it was or with the whole operation
    applied, never in between. *)
Theorem handlers_refine `{StorageLaws} q a :
  valid (orders a) →
  let id := target q a in
  let out := handle q a in
  valid (orders out.1) ∧
  (∀ k, k ≠ id → get_order k out.1 = get_order k a) ∧
  match out.2 with
  | Ok x => ∃ o, get_order id a = Ok o ∧ x = apply_op (operation q a) o ∧
                 get_order id out.1 = Ok x.1
  | Err _ => get_order id out.1 = get_order id a ∨
             ∃ o, get_order id a = Ok o ∧
                  get_order id out.1 = Ok (apply_op (operation q a) o).1
  end.
Proof.
  intros Hv id out. destruct (handle_cases q a Hv) as [[e He]|(o & Hg & Ho)].
  - unfold out. rewrite He. cbn. auto.
  - fold id out in Hg, Ho. unfold outcome in Ho. destruct out as [s [x|e]]; cbn in *.
    + destruct Ho as [(? & ? & ?) ->]. eauto 10.
    + destruct Ho as [[? Hu]|(? & ? & ?)]; eauto 10.
Qed.

Lemma handlers_refine_witness :
  get_order "ord_1" (handle (RUsage "ord_1" (mkRecordUsageChargeInput "ms_1" "token" 50
    "" "" "")) with_order).1 =
  Ok (apply_op (OpUsage (mkRecordUsageChargeInput "ms_1" "token" 50 "" "" ""))
        sample_order).1.
Proof.
  set (q := RUsage "ord_1" (mkRecordUsageChargeInput "ms_1" "token" 50 "" "" "")).
  destruct (handlers_refine (H0 := memory_laws) q with_order with_order_valid) as (_ & _ & Hout).
  assert (Hr : ∃ x, (handle q with_order).2 = Ok x) by (eexists; vm_compute; reflexivity).
  destruct Hr as [x Hr]. rewrite Hr in Hout.
  destruct Hout as (o & Hg & -> & Hs). change (target q with_order) with "ord_1" in Hg, Hs.
  rewrite with_order_get in Hg. injection Hg as <-. exact Hs.
Defined.
