(* ===== verification/Credit.v ===== *)
(** * Order creation and the buyer's credit limit

    [CreateOrder] stores one fresh, well-formed order and touches no other; an
    order on credit is only created within the limit that ops set for its
    buyer, over the orders that can be listed.  The last theorem is about what the
    limit does not cover. *)

From S2P Require Import Prelude GoNum GoText Core Milestones Market Repo MemoryRepo App Lifecycle.
From S2P Require Import ProviderSettlement Providers SettlementLedger Orders OrderHandlers.

(** The credit an order holds, and a buyer's, as exact integers. *)
Definition order_budget (o : Order) : Z := sumZ (ms_BudgetCents <$> o_Milestones o).
Definition holds_credit (buyer : string) (o : Order) : Prop :=
  o_BuyerOrgID o = buyer ∧ o_FundingMode o = "credit" ∧
  o_Status o ∈ [OrderStatusRunning; OrderStatusAwaitingBudget].
#[export] Instance holds_credit_dec buyer o : Decision (holds_credit buyer o).
Proof. unfold holds_credit. apply _. Defined.
Definition credit_of (buyer : string) (o : Order) : Z :=
  if decide (holds_credit buyer o) then order_budget o else 0.
Definition credit_in_use (buyer : string) (os : list Order) : Z :=
  sumZ (credit_of buyer <$> os).

(** The loop of the source looks for exactly the orders that hold credit. *)
Lemma uses_credit_holds buyer o : uses_credit buyer o = bool_decide (holds_credit buyer o).
Proof.
  apply eq_true_iff_eq. rewrite bool_decide_eq_true. unfold uses_credit, holds_credit.
  rewrite !andb_true_iff, orb_true_iff, !String.eqb_eq, !bool_decide_eq_true.
  rewrite !elem_of_cons, elem_of_nil. tauto.
Qed.

Lemma foldl_budgets l acc :
  foldl (λ used m, used +w ms_BudgetCents m) (wrap64 acc) l =
  wrap64 (acc + sumZ (ms_BudgetCents <$> l)).
Proof. rewrite <- foldl_add64. by rewrite foldl_fmap. Qed.

Lemma used_credit_wrap buyer os : used_credit buyer os = wrap64 (credit_in_use buyer os).
Proof.
  unfold used_credit, credit_in_use. change 0 with (wrap64 0) at 1.
  rewrite <- (Z.add_0_l (sumZ _)). generalize 0 as acc.
  induction os as [|o os IH]; intros acc; cbn [foldl fmap list_fmap sumZ].
  - by rewrite Z.add_0_r.
  - unfold credit_of at 1. rewrite uses_credit_holds, <- decide_bool_decide.
    destruct (decide (holds_credit buyer o)).
    + rewrite foldl_budgets, IH. f_equal. unfold order_budget. lia.
    + rewrite IH. f_equal.
Qed.

Section credit.
Context `{StorageLaws}.

(** A listing after one creation shows the new order and the old listing. *)
Lemma created_lists (P : Order → Prop) input a s id l l' :
  created input a s id → P (new_order id input) →
  lists o_ID order_Get P (orders a) l → lists o_ID order_Get P (orders s) l' →
  l' ≡ₚ new_order id input :: l.
Proof.
  intros (_ & Hfresh & Hnew & Hsame) HP [Hnd Hin] [Hnd' Hin'].
  apply NoDup_fmap_1 in Hnd, Hnd'.
  assert (Hni : new_order id input ∉ l).
  { rewrite Hin. intros [Hg _]. unfold get_order in Hfresh. cbn in Hg.
    by rewrite Hg in Hfresh. }
  apply NoDup_Permutation; [done|by constructor|].
  intros v. rewrite Hin', elem_of_cons, Hin. unfold get_order in *.
  destruct (decide (o_ID v = id)) as [Hid|Hne].
  - rewrite Hid, Hnew. split; [intros [[= <-] _]; by left|].
    intros [->|[Hg _]]; [done|]. by rewrite Hg in Hfresh.
  - rewrite (Hsame (o_ID v) Hne). split; [by right|].
    intros [->|]; [by destruct Hne|done].
Qed.
Lemma created_listing input a s id l l' :
  valid (orders a) → created input a s id →
  order_List (orders a) = Ok l → order_List (orders s) = Ok l' →
  l' ≡ₚ new_order id input :: l.
Proof.
  intros Hv Hc Hl Hl'. apply (created_lists (λ _, True) input a s); [done|done|..];
    [by apply order_List_spec|apply order_List_spec; [apply Hc|done]].
Qed.

Lemma new_order_budget id input :
  order_budget (new_order id input) = sumZ (cmi_BudgetCents <$> coi_Milestones input).
Proof.
  unfold order_budget, new_order. cbn [o_Milestones].
  f_equal. unfold new_milestone.
  generalize (coi_Milestones input). intros l.
  apply list_eq. intros i. rewrite !list_lookup_fmap, list_lookup_imap.
  by destruct (l !! i).
Qed.

(** A creation on credit has passed the check. *)
Lemma CreateOrder_checked input a a' o limit :
  CreateOrder input a = (a', Ok o) → coi_FundingMode input = "credit" →
  creditLimits a !! coi_BuyerOrgID input = Some limit →
  sum64 (cmi_BudgetCents <$> coi_Milestones input) ≤
  bcl_LimitCents limit -w used_credit (coi_BuyerOrgID input) (orders_or_none a).
Proof.
  unfold CreateOrder. intros Hr Hf Hl. rewrite Hf, String.eqb_refl in Hr.
  apply bind_Ok in Hr as (a1 & [] & Hg & Hr). apply fail_if_Ok in Hg as [_ ->].
  apply bind_Ok in Hr as (a2 & [] & Hc & _).
  unfold CheckCreditAvailability in Hc.
  apply bind_Ok in Hc as (a3 & x & [= <- <-] & Hc). rewrite Hl in Hc.
  apply fail_if_Ok in Hc as [Hc _]. by apply Z.ltb_ge.
Qed.
End credit.

Lemma new_order_ok id input : order_ok (new_order id input).
Proof.
  split; [|done]. unfold new_order. cbn. apply Forall_lookup. intros i m.
  rewrite list_lookup_imap. destruct (coi_Milestones input !! i) as [c|]; [|done].
  intros [= <-]. split; cbn; auto; try by destruct i.
Qed.

(** An order as a creation starts it: its parties and prices are those asked
    for, it is running on its first milestone, and nothing is settled, charged,
    disputed or flagged. *)
Record starts (id : string) (input : CreateOrderInput) (o : Order) : Prop := {
  starts_id : o_ID o = id;
  starts_parties : o_BuyerOrgID o = coi_BuyerOrgID input ∧
    o_ProviderOrgID o = coi_ProviderOrgID input ∧
    o_FundingMode o = coi_FundingMode input;
  starts_running : o_Status o = OrderStatusRunning;
  starts_prices : Forall2 (λ c m,
    ms_ID m = cmi_ID c ∧ ms_BasePriceCents m = cmi_BasePriceCents c ∧
    ms_BudgetCents m = cmi_BudgetCents c) (coi_Milestones input) (o_Milestones o);
  starts_untouched : ∀ i m, o_Milestones o !! i = Some m →
    ms_State m = (if decide (i = 0%nat) then MilestoneStateRunning
                  else MilestoneStatePending) ∧
    ms_SettledCents m = 0 ∧ ms_UsageCharges m = [] ∧ ms_SettledAt m = None ∧
    ms_DisputeStatus m = DisputeStatusNone ∧ ms_AnomalyFlags m = [];
}.

Lemma new_order_starts id input : starts id input (new_order id input).
Proof.
  split; [done..| |]; unfold new_order; cbn [o_Milestones].
  - apply Forall2_same_length_lookup. rewrite length_imap. split; [done|].
    intros i c m Hc. rewrite list_lookup_imap, Hc. by intros [= <-].
  - intros i m. rewrite list_lookup_imap.
    destruct (coi_Milestones input !! i) as [c|]; [|done]. intros [= <-]. by destruct i.
Qed.

(** ** Properties *)

(** Creating an order creates one order.  On success it is the one returned:
    stored under an id that named nothing before, running, its first milestone
    running and the others pending, nothing settled or charged and thus
    well-formed whatever the input.  No other order changes, on success or
    failure, and a failure adds at most that one order. *)
Theorem CreateOrder_fresh `{StorageLaws} input a :
  valid (orders a) →
  let out := CreateOrder input a in
  valid (orders out.1) ∧
  match out.2 with
  | Ok o => ∃ id, starts id input o ∧ order_ok o ∧
      is_ok (get_order id a) = false ∧ get_order id out.1 = Ok o ∧
      ∀ k, k ≠ id → get_order k out.1 = get_order k a
  | Err _ => (∀ k, get_order k out.1 = get_order k a) ∨
      ∃ id, is_ok (get_order id a) = false ∧
            (∃ o, get_order id out.1 = Ok o ∧ starts id input o) ∧
            ∀ k, k ≠ id → get_order k out.1 = get_order k a
  end.
Proof.
  intros Hv out. pose proof (CreateOrder_cases input a Hv) as Hc.
  fold out in Hc. unfold ends in Hc. destruct out as [s [o|e]]; cbn in *.
  - destruct Hc as (id & -> & Hvs & Hf & Hg & Hne). split; [done|].
    exists id. auto using new_order_ok, new_order_starts.
  - destruct Hc as [[Hvs Hu]|(id & Hvs & Hf & Hg & Hne)]; (split; [done|]);
      [by left|right]. exists id. eauto using new_order_starts.
Qed.

Definition demo_order_input : CreateOrderInput :=
  mkCreateOrderInput "buyer" "p1" "work" "credit" "line_1"
    [mkCreateMilestoneInput "ms_1" "Setup" 400 400;
     mkCreateMilestoneInput "ms_2" "Delivery" 600 600].

Lemma demo_valid : valid (orders demo_app).
Proof.
  split; [done|]. intros id o. change (mo_data (orders demo_app)) with (∅ : gmap string Order).
  by rewrite lookup_empty.
Qed.

Lemma CreateOrder_fresh_witness :
  valid (orders (CreateOrder demo_order_input demo_app).1).
Proof.
  exact (proj1 (CreateOrder_fresh (H0 := memory_laws) demo_order_input demo_app demo_valid)).
Defined.

(** C11.  The credit limit of a buyer is enforced at creation.  When ops set a limit
    for the buyer and an order on credit is created, its budget and the milestone
    budgets of all the buyer's running and budget-walled credit orders that the check
    saw stay within the limit; when the orders could be listed these are all there
    are, so that the orders after the creation, the new one included, stay within the
    limit.  The check takes orders that cannot be listed for none
    ([unreadable_orders_hold_no_credit]).  The sums are assumed to fit [int64]. *)
Theorem credit_limit_enforced `{StorageLaws} input a a' o limit :
  let buyer := coi_BuyerOrgID input in
  let requested := sumZ (cmi_BudgetCents <$> coi_Milestones input) in
  let seen := orders_or_none a in
  valid (orders a) → creditLimits a !! buyer = Some limit →
  coi_FundingMode input = "credit" →
  in64 requested → in64 (credit_in_use buyer seen) →
  in64 (bcl_LimitCents limit - credit_in_use buyer seen) →
  CreateOrder input a = (a', Ok o) →
  credit_in_use buyer seen + requested ≤ bcl_LimitCents limit ∧
  ∀ l l', order_List (orders a) = Ok l → order_List (orders a') = Ok l' →
    seen = l ∧ credit_in_use buyer l' = credit_in_use buyer l + requested ∧
    credit_in_use buyer l' ≤ bcl_LimitCents limit.
Proof.
  intros buyer requested seen Hv Hlim Hf Hreq Huse Hav Hr.
  pose proof (CreateOrder_checked input a a' o limit Hr Hf Hlim) as Hc.
  rewrite used_credit_wrap, sum64_wrap in Hc. fold buyer requested seen in Hc.
  rewrite (wrap64_id requested), (wrap64_id (credit_in_use _ _)), sub64_exact in Hc by done.
  split; [lia|]. intros l l' Hl Hl'.
  assert (Hseen : seen = l) by (unfold seen, orders_or_none; by rewrite Hl).
  rewrite Hseen in Hc. split; [done|].
  pose proof (CreateOrder_cases input a Hv) as Hcr. unfold ends in Hcr.
  rewrite Hr in Hcr. cbn in Hcr. destruct Hcr as (id & -> & Hcr).
  pose proof (created_listing _ _ _ _ _ _ Hv Hcr Hl Hl') as Hperm.
  assert (Hsum : credit_in_use buyer l' = credit_in_use buyer l + requested).
  { unfold credit_in_use. rewrite (sumZ_perm _ _ (fmap_Permutation _ _ _ Hperm)).
    cbn [fmap list_fmap sumZ]. unfold credit_of at 1.
    rewrite decide_True by (split_and!; [done|done|by left]).
    rewrite new_order_budget. fold requested. lia. }
  lia.
Qed.

(** The check fails open: when the orders cannot be listed, a buyer who has used up his
    limit passes it with any order that is itself within the limit. *)
Theorem unreadable_orders_hold_no_credit `{Storage} buyer requested (a : App) limit e :
  creditLimits a !! buyer = Some limit → order_List (orders a) = Err e →
  requested ≤ bcl_LimitCents limit → in64 (bcl_LimitCents limit) →
  CheckCreditAvailability buyer requested a = (a, Ok tt).
Proof.
  intros Hl He Hle Hin. unfold CheckCreditAvailability, mbind, st_bind, get_st.
  rewrite Hl. unfold orders_or_none. rewrite He.
  change (used_credit buyer []) with 0. rewrite sub64_exact, Z.sub_0_r by (by rewrite Z.sub_0_r).
  unfold fail_if. by rewrite (proj2 (Z.ltb_ge _ _) Hle).
Qed.

(** The platform of [demo_app] with a limit of 1000 cents for the buyer. *)
Definition with_limit : App := (SetCreditLimit "buyer" 1000 "ops" demo_app).1.
Definition with_credit_order : App := (CreateOrder demo_order_input with_limit).1.

Lemma credit_limit_enforced_witness :
  ∃ l', order_List (orders with_credit_order) = Ok l' ∧ credit_in_use "buyer" l' ≤ 1000.
Proof.
  assert (H1 : in64 (sumZ (cmi_BudgetCents <$> coi_Milestones demo_order_input)))
    by (vm_compute; done).
  assert (H2 : in64 (credit_in_use "buyer" [])) by (vm_compute; done).
  assert (H3 : in64 (1000 - credit_in_use "buyer" [])) by (vm_compute; done).
  assert (Hlim : ∃ limit, creditLimits with_limit !! "buyer" = Some limit ∧
    bcl_LimitCents limit = 1000) by (eexists; vm_compute; split; reflexivity).
  destruct Hlim as (limit & Hlim & Heq).
  assert (Hs : orders with_limit = mkMemoryOrders 0 ∅) by (vm_compute; reflexivity).
  assert (Hv : valid (orders with_limit)) by (rewrite Hs; exact demo_valid).
  assert (Hl : order_List (orders with_limit) = Ok []) by (rewrite Hs; reflexivity).
  assert (Hl' : ∃ l', order_List (orders with_credit_order) = Ok l')
    by (eexists; vm_compute; reflexivity).
  assert (Hr : ∃ o, CreateOrder demo_order_input with_limit = (with_credit_order, Ok o)).
  { eexists. apply run_at; [reflexivity|]. vm_compute. reflexivity. }
  destruct Hl' as [l' Hl'], Hr as [o Hr]. exists l'. split; [exact Hl'|]. rewrite <- Heq in H3 |- *.
  destruct (credit_limit_enforced (H0 := memory_laws) demo_order_input with_limit
    with_credit_order o limit Hv Hlim eq_refl H1) as [_ Hafter]; [..|exact Hr|].
  1, 2: unfold orders_or_none; rewrite Hl; assumption.
  apply (Hafter [] l' Hl Hl').
Defined.

(** What the credit limit does not cover.  Topping up a milestone is not
    checked against the limit; and an order that waits for its payment rail
    holds no credit, so that during an outage the buyer can spend the same
    limit again and is over it once the provider has recovered. *)
Theorem credit_limit_bypassed :
  let used a := credit_in_use "buyer" (orders_or_none a) in
  let topped_up := (TopUpMilestone "ord_1" (mkTopUpInput "ms_1" 500) with_credit_order) in
  let outage := (
    _ ← onboard;
    _ ← SetCreditLimit "buyer" 1000 "ops";
    _ ← CreateOrder demo_order_input;
    r ← maybeReserveProviderSettlementLiquidity "p1" 500;
    _ ← attachProviderSettlementReservation "plr_1" "ord_1";
    _ ← ReportProviderSettlementDisconnect (MO := plain_order) "p1" "down";
    _ ← CreateOrder demo_order_input;
    RecoverProviderSettlement (MO := plain_order) "p1") demo_app in
  (is_ok topped_up.2 = true ∧ used topped_up.1 = 1500) ∧
  (is_ok outage.2 = true ∧ used outage.1 = 2000).
Proof. vm_compute. repeat split. Qed.
