(* ===== verification/Awards.v ===== *)
(** * Bids and awards: what the marketplace guarantees

    A bid fits the budget it answers; a successful award judges every bid of
    the RFQ, creates exactly one order out of the winning bid and closes the
    RFQ for good; and the ways in which a failed award leaves traces. *)

From S2P Require Import Prelude GoNum GoText Core Milestones Market Repo MemoryRepo App Lifecycle.
From S2P Require Import ProviderSettlement Providers SettlementLedger Orders OrderHandlers Credit Bidding.

Section awards.
Context `{StorageLaws}.

Definition get_bid (k : string) (a : App) : result Bid := bid_Get k (bids a).
Definition get_rfq (k : string) (a : App) : result RFQ := rfq_Get k (rfqs a).

(** ** What leaves bids and RFQs alone *)

Definition same_market (a a' : App) : Prop := bids a' = bids a ∧ rfqs a' = rfqs a.
#[export] Instance same_market_preorder : PreOrder same_market.
Proof. split; [done|]. intros a b c [] []. split; congruence. Qed.

Lemma now_market : frames same_market now.
Proof. done. Qed.
Lemma publish_market subject p : frames same_market (publish subject p).
Proof. done. Qed.
Lemma notify_market event tgt p : frames same_market (notify event tgt p).
Proof. intros a. unfold notify. by destruct (notifier a). Qed.
Lemma on_orders_market {A} (m : ST orders_t A) : frames same_market (on_orders m).
Proof. intros a. unfold on_orders, zoom. by destruct (m (orders a)). Qed.
Lemma put_pool_market org p : frames same_market (put_pool org p).
Proof. done. Qed.
Lemma active_market org : frames same_market (activeSettlementBinding org).
Proof. intros a. unfold activeSettlementBinding. by destruct (settlementBindingsByOrg a). Qed.
Lemma carrier_market org : frames same_market (activeCarrierBinding org).
Proof. intros a. unfold activeCarrierBinding. by destruct (carrierBindingsByOrg a). Qed.
Lemma ensure_market p i : frames same_market (ensure p i).
Proof. done. Qed.
Hint Resolve now_market publish_market notify_market on_orders_market put_pool_market
  active_market carrier_market ensure_market : frames.

Lemma check_carrier_market org : frames same_market (check_carrier_suspended org).
Proof. unfold check_carrier_suspended. solve_frames. Qed.
Lemma reserve_commit_market org s n r : frames same_market (reserve_commit org s n r).
Proof. unfold reserve_commit. solve_frames. Qed.
Lemma reserve_market org c :
  frames same_market (maybeReserveProviderSettlementLiquidity org c).
Proof.
  unfold maybeReserveProviderSettlementLiquidity, reserve_begin, reserve_provision.
  pose proof reserve_commit_market. solve_frames.
Qed.
Lemma attach_market rid oid : frames same_market (attachProviderSettlementReservation rid oid).
Proof. unfold attachProviderSettlementReservation. solve_frames. Qed.
Lemma CheckCredit_market b c : frames same_market (CheckCreditAvailability b c).
Proof. unfold CheckCreditAvailability. solve_frames. Qed.
Hint Resolve CheckCredit_market : frames.
Lemma CreateOrder_market input : frames same_market (CreateOrder input).
Proof. unfold CreateOrder. solve_frames. Qed.
Hint Resolve check_carrier_market reserve_market attach_market CreateOrder_market : frames.

Lemma check_carrier_store org : frames same_store (check_carrier_suspended org).
Proof. unfold check_carrier_suspended. solve_frames. Qed.
Lemma reserve_commit_store org s n r : frames same_store (reserve_commit org s n r).
Proof. unfold reserve_commit. solve_frames. Qed.
Lemma reserve_store org c :
  frames same_store (maybeReserveProviderSettlementLiquidity org c).
Proof.
  unfold maybeReserveProviderSettlementLiquidity, reserve_begin, reserve_provision.
  pose proof reserve_commit_store. solve_frames.
Qed.
Lemma attach_store rid oid : frames same_store (attachProviderSettlementReservation rid oid).
Proof. unfold attachProviderSettlementReservation. solve_frames. Qed.
Lemma on_bids_store {A} (m : ST bids_t A) : frames same_store (on_bids m).
Proof. intros a. unfold on_bids, zoom. by destruct (m (bids a)). Qed.
Lemma on_rfqs_store {A} (m : ST rfqs_t A) : frames same_store (on_rfqs m).
Proof. intros a. unfold on_rfqs, zoom. by destruct (m (rfqs a)). Qed.
Hint Resolve check_carrier_store reserve_store attach_store on_bids_store on_rfqs_store
  : frames.
Lemma judge_bids_store id l : frames same_store (judge_bids id l).
Proof. unfold judge_bids. solve_frames. Qed.
Hint Resolve judge_bids_store : frames.

(** ** Judging the bids *)

Definition judged_as (id : string) (b b' : Bid) : Prop := ∃ t, b' = judged id t b.

Lemma judged_id id t b : b_ID (judged id t b) = b_ID b.
Proof. done. Qed.

Lemma on_bids_run {A} (m : ST bids_t A) a a' r :
  on_bids m a = (a', r) → ∃ s, m (bids a) = (s, r) ∧ a' = a <| bids := s |>.
Proof.
  unfold on_bids, zoom. destruct (m (bids a)) as [s r']. intros [= <- <-]. by exists s.
Qed.
Lemma on_rfqs_run {A} (m : ST rfqs_t A) a a' r :
  on_rfqs m a = (a', r) → ∃ s, m (rfqs a) = (s, r) ∧ a' = a <| rfqs := s |>.
Proof.
  unfold on_rfqs, zoom. destruct (m (rfqs a)) as [s r']. intros [= <- <-]. by exists s.
Qed.

(** One turn of the loop, then the whole loop: the listed bids are judged, the
    others are untouched. *)
Lemma judge_one id b a a' :
  (updatedAt ← now; on_bids (bid_Save (judged id updatedAt b))) a = (a', Ok tt) →
  valid (bids a) → issued (bids a) (b_ID b) →
  valid (bids a') ∧ rfqs a' = rfqs a ∧
  (∀ k, issued (bids a') k ↔ issued (bids a) k) ∧
  (∃ b', get_bid (b_ID b) a' = Ok b' ∧ judged_as id b b') ∧
  ∀ k, k ≠ b_ID b → get_bid k a' = get_bid k a.
Proof.
  intros Hr Hv Hi. apply bind_Ok in Hr as (a1 & now & Hn & Hr).
  apply (frames_result same_market _ _ _ _ now_market) in Hn as [Hb Hf].
  apply on_bids_run in Hr as (s & Hs & ->). rewrite Hb in Hs. unfold get_bid. cbn [bids rfqs].
  change (bids (a1 <| bids := s |>)) with s.
  assert (Hi' : issued (bids a) (b_ID (judged id now b))) by done.
  split; [exact (save_valid _ _ _ _ Hv Hi' Hs)|]. split; [exact Hf|].
  split; [intros k; exact (save_issued _ _ _ _ k Hs)|]. split.
  - exists (judged id now b). split; [|by exists now].
    exact (save_get _ _ _ Hv Hs).
  - intros k Hk. exact (save_get_ne _ _ _ _ _ Hs Hk).
Qed.

Lemma judge_all id l a a' :
  judge_bids id l a = (a', Ok tt) → valid (bids a) → NoDup (b_ID <$> l) →
  (∀ b, b ∈ l → issued (bids a) (b_ID b)) →
  valid (bids a') ∧ rfqs a' = rfqs a ∧
  (∀ b, b ∈ l → ∃ b', get_bid (b_ID b) a' = Ok b' ∧ judged_as id b b') ∧
  (∀ k, k ∉ (b_ID <$> l) → get_bid k a' = get_bid k a).
Proof.
  revert a. induction l as [|b l IH]; intros a.
  - intros [= <-] Hv _ _. split; [done|]. split; [done|].
    split; [by intros b ?%elem_of_nil|done].
  - unfold judge_bids. cbn [for_each fmap list_fmap]. intros Hr Hv Hnd Hi.
    apply bind_Ok in Hr as (a1 & [] & Hone & Hrest).
    apply NoDup_cons in Hnd as [Hnb Hnd].
    destruct (judge_one _ _ _ _ Hone Hv) as (Hv1 & Hr1 & Hi1 & Hb1 & Hne1);
      [apply Hi; by left|].
    destruct (IH a1 Hrest Hv1 Hnd) as (Hv2 & Hr2 & Hl2 & Hne2).
    { intros b' Hb'. apply Hi1, Hi. by right. }
    split; [done|]. split; [congruence|]. split.
    + intros b' [->|Hb']%elem_of_cons; [|by apply Hl2].
      destruct Hb1 as (b1 & Hg & Hj). exists b1. split; [|done]. by rewrite Hne2.
    + intros k [Hk Hkl]%not_elem_of_cons. rewrite Hne2 by done. by apply Hne1.
Qed.

(** ** Taking a successful award apart *)

Lemma or_release_Ok {A} res (m : M A) a a' x :
  or_release res m a = (a', Ok x) → m a = (a', Ok x).
Proof.
  unfold or_release. intros Hr. apply bind_Ok in Hr as (a1 & r & Hm & Hr).
  rewrite attempt_Ok in Hm. destruct r as [y|e].
  - injection Hr as <- <-. exact Hm.
  - apply bind_Ok in Hr as (a2 & [] & _ & Hr). discriminate Hr.
Qed.

Lemma query_Ok {T A} (get : App → T) (f : T → result A) a a' x :
  query get f a = (a', Ok x) → a' = a ∧ f (get a) = Ok x.
Proof. unfold query. by intros [= <- ->]. Qed.

Lemma reservation_step_Ok {res : option ProviderLiquidityReservation} orderID a a' :
  match res with
  | None => mret tt
  | Some r => or_release res (attachProviderSettlementReservation (plr_ID r) orderID)
  end a = (a', Ok tt) → same_market a a' ∧ same_store a a'.
Proof.
  destruct res as [r|].
  - intros Hr%or_release_Ok. split; eapply frames_result; [|exact Hr| |exact Hr]; eauto with frames.
  - by intros [= <-].
Qed.

(** The awarded RFQ. *)
Definition awarded (rfq : RFQ) (bid : Bid) (orderID : string) (t : Time) : RFQ :=
  rfq <| rfq_Status := RFQStatusAwarded |> <| rfq_AwardedBidID := b_ID bid |>
      <| rfq_AwardedProviderOrgID := b_ProviderOrgID bid |>
      <| rfq_OrderID := orderID |> <| rfq_UpdatedAt := t |>.

(** The steps of a successful award that touch bids, orders and RFQs. *)
Lemma AwardRFQ_Ok rfqID input a a' rfq' order :
  AwardRFQ rfqID input a = (a', Ok (rfq', order)) →
  ∃ rfq bid l t a1 a2 a3 a4 a5 s,
    get_rfq rfqID a = Ok rfq ∧ rfq_Status rfq = RFQStatusOpen ∧
    get_bid (ari_BidID input) a = Ok bid ∧ b_RFQID bid = rfqID ∧
    same_market a a1 ∧ same_store a a1 ∧
    bid_ListByRFQ rfqID (bids a1) = Ok l ∧
    judge_bids (b_ID bid) l a1 = (a2, Ok tt) ∧
    CreateOrder (award_order_input rfq bid input) a2 = (a3, Ok order) ∧
    same_market a3 a4 ∧ same_store a3 a4 ∧
    rfq' = awarded rfq bid (o_ID order) t ∧
    rfq_Save rfq' (rfqs a4) = (s, Ok tt) ∧ a5 = a4 <| rfqs := s |> ∧
    same_market a5 a' ∧ same_store a5 a'.
Proof.
  unfold AwardRFQ. intros Hr.
  apply bind_Ok in Hr as (b1 & rfq & [-> Hrfq]%query_Ok & Hr).
  apply bind_Ok in Hr as (b2 & [] & [Hopen ->]%fail_if_Ok & Hr).
  apply bind_Ok in Hr as (b3 & [] & [_ ->]%fail_if_Ok & Hr).
  apply bind_Ok in Hr as (b4 & bid & [-> Hbid]%query_Ok & Hr).
  apply bind_Ok in Hr as (b5 & [] & [Hbel ->]%fail_if_Ok & Hr).
  apply bind_Ok in Hr as (b6 & [] & Hck & Hr).
  apply bind_Ok in Hr as (b7 & res & Hres & Hr).
  apply bind_Ok in Hr as (b8 & l & [-> Hl]%or_release_Ok%query_Ok & Hr).
  apply bind_Ok in Hr as (b9 & [] & Hj%or_release_Ok & Hr).
  apply bind_Ok in Hr as (b10 & order' & Ho%or_release_Ok & Hr).
  apply bind_Ok in Hr as (b11 & [] & Hat & Hr).
  apply reservation_step_Ok in Hat as [Hat1 Hat2].
  apply bind_Ok in Hr as (b12 & t & Hn & Hr).
  apply bind_Ok in Hr as (b13 & [] & (s & Hs & ->)%on_rfqs_run & Hr).
  apply bind_Ok in Hr as (b14 & [] & Hp & Hr).
  apply bind_Ok in Hr as (b15 & [] & Hn1 & Hr).
  apply bind_Ok in Hr as (b16 & [] & Hn2 & Hr). injection Hr as <- <- <-.
  pose proof (frames_result same_market _ _ _ _ (check_carrier_market _) Hck).
  pose proof (frames_result same_store _ _ _ _ (check_carrier_store _) Hck).
  pose proof (frames_result same_market _ _ _ _ (reserve_market _ _) Hres).
  pose proof (frames_result same_store _ _ _ _ (reserve_store _ _) Hres).
  pose proof (frames_result same_market _ _ _ _ now_market Hn).
  pose proof (frames_result same_store _ _ _ _ now_store Hn).
  pose proof (frames_result same_market _ _ _ _ (publish_market _ _) Hp).
  pose proof (frames_result same_market _ _ _ _ (notify_market _ _ _) Hn1).
  pose proof (frames_result same_market _ _ _ _ (notify_market _ _ _) Hn2).
  pose proof (frames_result same_store _ _ _ _ (publish_store _ _) Hp).
  pose proof (frames_result same_store _ _ _ _ (notify_store _ _ _) Hn1).
  pose proof (frames_result same_store _ _ _ _ (notify_store _ _ _) Hn2).
  apply negb_false_iff, bool_decide_eq_true in Hopen.
  apply negb_false_iff, String.eqb_eq in Hbel.
  exists rfq, bid, l, t, b7, b9, b10, b12, (b12 <| rfqs := s |>), s.
  do 4 (split; [done|]). split; [by etransitivity|]. split; [by etransitivity|].
  do 3 (split; [done|]). split; [by etransitivity|]. split; [by etransitivity|].
  do 3 (split; [done|]). split; (etransitivity; [|eassumption]; etransitivity; eassumption).
Qed.
End awards.

(** ** Properties *)

(** A market: an RFQ of 1000 cents and two bids for it. *)
Definition demo_rfq : CreateRFQInput :=
  mkCreateRFQInput "buyer" "Run agents" "agent-ops" "all of it" 1000 [] 5000.
Definition demo_bid (org : string) : CreateBidInput :=
  mkCreateBidInput org "we can" 0 [] "".
Definition demo_award (bidID : string) : AwardRFQInput :=
  mkAwardRFQInput bidID FundingModePrepaid "".
Definition market : App :=
  ((_ ← CreateRFQ demo_rfq; _ ← CreateBid "rfq_1" (demo_bid "p1");
   CreateBid "rfq_1" (demo_bid "p2")) demo_app).1.
Definition awarded_market : App := (AwardRFQ "rfq_1" (demo_award "bid_1") market).1.

Lemma awarded_market_run :
  ∃ rfq order, AwardRFQ "rfq_1" (demo_award "bid_1") market =
               (awarded_market, Ok (rfq, order)).
Proof. do 2 eexists. apply run_at; [reflexivity|]. vm_compute. reflexivity. Qed.

Lemma market_valid :
  valid (KeyedStore := order_store (StorageLaws := memory_laws)) (orders market) ∧
  valid (KeyedStore := bid_store (StorageLaws := memory_laws)) (bids market) ∧
  valid (KeyedStore := rfq_store (StorageLaws := memory_laws)) (rfqs market).
Proof.
  assert (Ho : orders market = mkMemoryOrders 0 ∅) by (vm_compute; reflexivity).
  assert (Hb : ∃ b1 b2, bids market = mkSlice 2 [b1; b2] ∧ b_ID b1 = "bid_1" ∧ b_ID b2 = "bid_2")
    by (do 2 eexists; vm_compute; repeat split).
  assert (Hr : ∃ r, rfqs market = mkSlice 1 [r] ∧ rfq_ID r = "rfq_1")
    by (eexists; vm_compute; repeat split).
  destruct Hb as (b1 & b2 & -> & H1 & H2), Hr as (r & -> & H3). rewrite Ho. clear Ho.
  split; [exact demo_valid|]. split.
  - split; [done|]. split.
    + cbn. rewrite H1, H2. apply NoDup_cons. split; [by intros ?%list_elem_of_singleton|].
      apply NoDup_singleton.
    + intros v. cbn. intros [->|[->|[]%not_elem_of_nil]%elem_of_cons]%elem_of_cons.
      * rewrite H1. by exists 1.
      * rewrite H2. by exists 2.
  - split; [done|]. split; [cbn; apply NoDup_singleton|].
    intros v. cbn. intros [->|[]%not_elem_of_nil]%elem_of_cons. rewrite H3. by exists 1.
Qed.

(** The effects of a successful award, in the terms of its definition. *)
Lemma award_effects `{StorageLaws} rfqID input a a' rfq' order :
  valid (orders a) → valid (bids a) → valid (rfqs a) →
  AwardRFQ rfqID input a = (a', Ok (rfq', order)) →
  ∃ rfq bid,
    get_rfq rfqID a = Ok rfq ∧ rfq_Status rfq = RFQStatusOpen ∧
    get_bid (ari_BidID input) a = Ok bid ∧ b_RFQID bid = rfqID ∧
    (∃ t, rfq' = awarded rfq bid (o_ID order) t) ∧ get_rfq rfqID a' = Ok rfq' ∧
    order = new_order (o_ID order) (award_order_input rfq bid input) ∧
    is_ok (get_order (o_ID order) a) = false ∧ get_order (o_ID order) a' = Ok order ∧
    (∀ k, k ≠ o_ID order → get_order k a' = get_order k a) ∧
    (∀ b, get_bid (b_ID b) a = Ok b → b_RFQID b = rfqID →
       ∃ t, get_bid (b_ID b) a' = Ok (judged (ari_BidID input) t b)) ∧
    (∀ b, get_bid (b_ID b) a = Ok b → b_RFQID b ≠ rfqID →
       get_bid (b_ID b) a' = Ok b) ∧
    (∀ k, k ≠ rfqID → get_rfq k a' = get_rfq k a).
Proof.
  intros Hvo Hvb Hvr Hr.
  apply AwardRFQ_Ok in Hr as (rfq & bid & l & t & a1 & a2 & a3 & a4 & a5 & s & Hrfq & Hopen
    & Hbid & Hbel & [Hb1 Hr1] & Ho1 & Hl & Hj & Hc & [Hb4 Hr4] & Ho4 & -> & Hs & -> &
    [Hb5 Hr5] & Ho5).
  pose proof (get_id _ _ _ Hvb Hbid) as Hwin. pose proof (get_id _ _ _ Hvr Hrfq) as Hrid.
  rewrite Hb1 in Hl. destruct (bid_ListByRFQ_spec _ _ _ Hvb Hl) as [Hnd Hin].
  destruct (judge_all _ _ _ _ Hj) as (_ & Hr2 & Hjl & Hjn);
    [by rewrite Hb1|done| |].
  { intros b Hb. rewrite Hb1. apply Hin in Hb as [Hb _]. exact (get_issued _ _ _ Hvb Hb). }
  pose proof (frames_result same_store _ _ _ _ (judge_bids_store _ _) Hj) as Ho2.
  unfold same_store in *.
  assert (Hv2 : valid (orders a2)) by (rewrite Ho2, Ho1; exact Hvo).
  pose proof (CreateOrder_cases (award_order_input rfq bid input) a2 Hv2) as Hcr.
  unfold ends in Hcr. rewrite Hc in Hcr. cbn in Hcr.
  destruct Hcr as (id & Hord & _ & Hfresh & Hget & Hne).
  destruct (frames_result same_market _ _ _ _ (CreateOrder_market _) Hc) as [Hb3 Hr3].
  cbn [bids rfqs orders] in *.
  change (bids (a4 <| rfqs := s |>)) with (bids a4) in Hb5.
  change (rfqs (a4 <| rfqs := s |>)) with s in Hr5.
  change (orders (a4 <| rfqs := s |>)) with (orders a4) in Ho5.
  assert (Hid : o_ID order = id) by (by rewrite Hord).
  assert (Hbids : bids a' = bids a2) by congruence.
  assert (Hords : orders a' = orders a3) by congruence.
  assert (Hrfqs : rfqs a4 = rfqs a) by congruence.
  rewrite Hrfqs in Hs.
  assert (Hkey : rfq_ID (awarded rfq bid (o_ID order) t) = rfqID) by exact Hrid.
  exists rfq, bid. unfold get_order, get_bid, get_rfq in *.
  rewrite Hbids, Hords, Hr5, Hid.
  do 4 (split; [done|]). split; [by exists t|].
  split; [rewrite <- Hkey; rewrite Hid in *; exact (save_get _ _ _ Hvr Hs)|].
  split; [done|]. split; [by rewrite <- Ho1, <- Ho2|].
  split; [by rewrite Hget, Hord|].
  split; [intros k Hk; rewrite (Hne k Hk); by rewrite Ho2, Ho1|].
  split; [|split].
  - intros b Hb Hbr. destruct (Hjl b) as (b' & Hg & t' & ->); [by apply Hin|].
    exists t'. by rewrite <- Hwin.
  - intros b Hb Hbr. rewrite Hjn; [by rewrite Hb1|].
    intros (b' & Hk & Hb')%list_elem_of_fmap. apply Hin in Hb' as [Hg' Hbr'].
    rewrite <- Hk, Hb in Hg'. congruence.
  - intros k Hk. apply (save_get_ne _ _ _ _ _ Hs). by rewrite Hkey.
Qed.

(** An order that carries out a bid for an RFQ: its parties, and its milestones
    at the prices and budgets of the bid. *)
Record fulfils (rfq : RFQ) (bid : Bid) (order : Order) : Prop := {
  fulfils_parties : o_BuyerOrgID order = rfq_BuyerOrgID rfq ∧
    o_ProviderOrgID order = b_ProviderOrgID bid;
  fulfils_running : o_Status order = OrderStatusRunning;
  fulfils_milestones : Forall2 (λ c m,
    ms_ID m = bm_ID c ∧ ms_BasePriceCents m = bm_BasePriceCents c ∧
    ms_BudgetCents m = bm_BudgetCents c) (b_Milestones bid) (o_Milestones order);
}.

Lemma starts_fulfils id rfq bid input order :
  starts id (award_order_input rfq bid input) order → fulfils rfq bid order.
Proof.
  intros Hs. split; [|apply Hs|].
  - by destruct (starts_parties _ _ _ Hs) as (-> & -> & _).
  - exact (proj1 (Forall2_fmap_l _ _ _ _) (starts_prices _ _ _ Hs)).
Qed.

(** A bid whose offer has not changed. *)
Definition same_offer (b b' : Bid) : Prop :=
  b' = b <| b_UpdatedAt := b_UpdatedAt b' |> <| b_Status := b_Status b' |>.

(** C10. What a successful award does to orders, bids and RFQs.  The RFQ was open and the
    bid was for it; afterwards the RFQ is awarded to that bid, its provider and
    the new order; the order is fresh and is made of the bid's milestones; every
    bid for the RFQ is judged, the winner awarded and all others rejected; and no
    other order, bid or RFQ has changed.  (The liquidity that is reserved is in
    [SettlementLedger]; that the award is announced is not stated here.) *)
Theorem AwardRFQ_awards `{StorageLaws} rfqID input a a' rfq' order :
  valid (orders a) → valid (bids a) → valid (rfqs a) →
  AwardRFQ rfqID input a = (a', Ok (rfq', order)) →
  ∃ rfq bid,
    get_rfq rfqID a = Ok rfq ∧ rfq_Status rfq = RFQStatusOpen ∧
    get_bid (ari_BidID input) a = Ok bid ∧ b_RFQID bid = rfqID ∧
    (∃ t, rfq' = awarded rfq bid (o_ID order) t) ∧ get_rfq rfqID a' = Ok rfq' ∧
    fulfils rfq bid order ∧ o_FundingMode order = ari_FundingMode input ∧
    is_ok (get_order (o_ID order) a) = false ∧ get_order (o_ID order) a' = Ok order ∧
    (∀ k, k ≠ o_ID order → get_order k a' = get_order k a) ∧
    (∀ b, get_bid (b_ID b) a = Ok b → b_RFQID b = rfqID →
       ∃ b', get_bid (b_ID b) a' = Ok b' ∧ same_offer b b' ∧
         b_Status b' = if decide (b_ID b = ari_BidID input)
                       then BidStatusAwarded else BidStatusRejected) ∧
    (∀ b, get_bid (b_ID b) a = Ok b → b_RFQID b ≠ rfqID →
       get_bid (b_ID b) a' = Ok b) ∧
    (∀ k, k ≠ rfqID → get_rfq k a' = get_rfq k a).
Proof.
  intros Hvo Hvb Hvr Hr.
  destruct (award_effects _ _ _ _ _ _ Hvo Hvb Hvr Hr) as
    (rfq & bid & H1 & H2 & H3 & H4 & H5 & H6 & Hord & H7 & H8 & H9 & Hj & H10 & H11).
  pose proof (new_order_starts (o_ID order) (award_order_input rfq bid input)) as Hs.
  rewrite <- Hord in Hs. exists rfq, bid. do 6 (split; [done|]).
  split; [by eapply starts_fulfils|]. split; [by rewrite Hord|]. do 3 (split; [done|]).
  split; [|by split]. intros b Hb Hbr. destruct (Hj b Hb Hbr) as [t Hg].
  eexists. split; [exact Hg|]. split; [done|]. unfold judged; cbn.
  destruct (String.eqb_spec (b_ID b) (ari_BidID input));
    [by rewrite decide_True|by rewrite decide_False].
Qed.

(** An award is final.  Once an RFQ has been awarded, awarding it again and
    bidding on it fail with the errors for it and change nothing. *)
Theorem AwardRFQ_final `{StorageLaws} rfqID input a a' out again bid :
  valid (rfqs a) → AwardRFQ rfqID input a = (a', Ok out) →
  AwardRFQ rfqID again a' = (a', Err ErrRFQNotOpenForAward) ∧
  CreateBid rfqID bid a' = (a', Err ErrRFQNotOpenForBids).
Proof.
  intros Hvr Hr. destruct out as [rfq' order].
  apply AwardRFQ_Ok in Hr as (rfq & b & l & t & a1 & a2 & a3 & a4 & a5 & s & Hrfq & _
    & _ & _ & [_ Hr1] & _ & Hl & Hj & Hc & [_ Hr4] & _ & -> & Hs & -> & [_ Hr5] & _).
  pose proof (get_id _ _ _ Hvr Hrfq) as Hrid.
  assert (Hr2 : rfqs a2 = rfqs a1).
  { clear -Hj. revert a1 Hj. unfold judge_bids.
    induction l as [|c l IH]; intros a1; [by intros [= <-]|]. cbn [for_each]. intros Hj.
    apply bind_Ok in Hj as (a3 & [] & Hone & Hrest). rewrite (IH _ Hrest).
    apply bind_Ok in Hone as (a4 & t & Hn & (s & _ & ->)%on_bids_run).
    apply (frames_result same_market _ _ _ _ now_market) in Hn as [_ Hn]. exact Hn. }
  destruct (frames_result same_market _ _ _ _ (CreateOrder_market _) Hc) as [_ Hr3].
  change (rfqs (a4 <| rfqs := s |>)) with s in Hr5.
  rewrite Hr4, Hr3, Hr2, Hr1 in Hs.
  assert (Hg : rfq_Get rfqID (rfqs a') = Ok (awarded rfq b (o_ID order) t)).
  { rewrite Hr5. pose proof (save_get _ _ _ Hvr Hs) as Hg. cbn [rfq_ID awarded] in Hg.
    change (rfq_Get (rfq_ID rfq) s = Ok (awarded rfq b (o_ID order) t)) in Hg.
    by rewrite Hrid in Hg. }
  unfold AwardRFQ, CreateBid. unfold mbind at 1, st_bind at 1, query at 1. rewrite Hg.
  split; [done|]. unfold mbind at 1, st_bind at 1, query at 1. by rewrite Hg.
Qed.

Lemma AwardRFQ_awards_witness :
  ∃ order, get_order (o_ID order) awarded_market = Ok order.
Proof.
  destruct awarded_market_run as (rfq & order & Hr). exists order.
  destruct market_valid as (Ho & Hb & Hq).
  destruct (AwardRFQ_awards (H0 := memory_laws) "rfq_1" (demo_award "bid_1") market
    awarded_market rfq order Ho Hb Hq Hr) as (? & ? & _ & _ & _ & _ & _ & _ & _ & _ & _ & Hg & _).
  exact Hg.
Defined.

Lemma AwardRFQ_final_witness :
  AwardRFQ "rfq_1" (demo_award "bid_2") awarded_market =
  (awarded_market, Err ErrRFQNotOpenForAward).
Proof.
  destruct awarded_market_run as (rfq & order & Hr).
  destruct market_valid as (_ & _ & Hq).
  exact (proj1 (AwardRFQ_final (H0 := memory_laws) "rfq_1" (demo_award "bid_1") market
    awarded_market (rfq, order) (demo_award "bid_2") (demo_bid "p3") Hq Hr)).
Defined.

(** A broker that refuses the event of a new order. *)
Definition broken_publisher : Publisher := λ _ ev,
  if String.eqb (ev_subject ev) "market.order.created" then Some (Errf "broker down") else None.

(** A failed award can leave an order behind.  When the event of the new
    order is refused, the award fails and releases its reservation, but the bids
    stay judged and the order stays stored and running while the RFQ is still
    open: the buyer can then award the RFQ to the bid that was rejected, and two
    running orders answer one RFQ. *)
Theorem failed_award_leaves_order :
  let a1 := (SetPublisher (Some broken_publisher) market).1 in
  let first := AwardRFQ "rfq_1" (demo_award "bid_1") a1 in
  let second := (_ ← SetPublisher None; AwardRFQ "rfq_1" (demo_award "bid_2")) first.1 in
  let status id a := o_Status <$> get_order id a in
  let bid id a := b_Status <$> get_bid id a in
  is_ok first.2 = false ∧
  rfq_Status <$> get_rfq "rfq_1" first.1 = Ok RFQStatusOpen ∧
  bid "bid_1" first.1 = Ok BidStatusAwarded ∧ bid "bid_2" first.1 = Ok BidStatusRejected ∧
  status "ord_1" first.1 = Ok OrderStatusRunning ∧
  is_ok second.2 = true ∧
  status "ord_1" second.1 = Ok OrderStatusRunning ∧
  status "ord_2" second.1 = Ok OrderStatusRunning.
Proof. vm_compute. repeat split. Qed.

(** A bid answers an open RFQ within its budget.  A created bid is stored
    open, under an id that named no bid before, for an RFQ that was open; its
    milestones are those the provider gave or, when it gave none, those of the
    RFQ, at least one in any case; their budgets, summed in [int64], do not
    exceed the RFQ's; and no other bid changes. *)
Theorem CreateBid_fits `{StorageLaws} rfqID input a a' bid :
  valid (bids a) → CreateBid rfqID input a = (a', Ok bid) →
  ∃ rfq, get_rfq rfqID a = Ok rfq ∧ rfq_Status rfq = RFQStatusOpen ∧
    b_RFQID bid = rfqID ∧ b_Status bid = BidStatusOpen ∧
    b_Milestones bid = bid_milestone <$> bid_milestones rfq input ∧
    b_Milestones bid ≠ [] ∧ bid_budget bid ≤ rfq_BudgetCents rfq ∧
    is_ok (get_bid (b_ID bid) a) = false ∧ get_bid (b_ID bid) a' = Ok bid ∧
    ∀ k, k ≠ b_ID bid → get_bid k a' = get_bid k a.
Proof.
  intros Hv Hr. unfold CreateBid in Hr.
  apply bind_Ok in Hr as (b1 & rfq & [-> Hrfq]%query_Ok & Hr).
  apply bind_Ok in Hr as (b2 & [] & [Hopen ->]%fail_if_Ok & Hr).
  apply bind_Ok in Hr as (b3 & [] & [_ ->]%fail_if_Ok & Hr).
  apply bind_Ok in Hr as (b4 & [] & Hprof & Hr). injection Hprof as <- _.
  apply bind_Ok in Hr as (b5 & [] & [Hne ->]%fail_if_Ok & Hr).
  apply bind_Ok in Hr as (b6 & [] & [Hfit ->]%fail_if_Ok & Hr).
  apply bind_Ok in Hr as (b7 & id & (s1 & Hn & ->)%on_bids_run & Hr).
  apply bind_Ok in Hr as (b8 & t & Ht & Hr).
  apply bind_Ok in Hr as (b9 & [] & (s2 & Hs & ->)%on_bids_run & Hr).
  apply bind_Ok in Hr as (b10 & [] & Hp & Hr). injection Hr as <- <-.
  destruct (frames_result same_market _ _ _ _ now_market Ht) as [Hb8 _].
  destruct (frames_result same_market _ _ _ _ (publish_market _ _) Hp) as [Hb10 _].
  change (bids (a <| bids := s1 |>)) with s1 in Hb8. rewrite Hb8 in Hs.
  change (bids (b8 <| bids := s2 |>)) with s2 in Hb10.
  apply negb_false_iff, bool_decide_eq_true in Hopen.
  apply bool_decide_eq_false in Hne. apply Z.ltb_ge in Hfit.
  pose proof (next_valid _ _ _ Hv Hn) as Hv1.
  exists rfq. unfold get_bid, get_rfq. cbn [b_ID b_RFQID b_Status b_Milestones].
  rewrite Hb10. do 5 (split; [done|]).
  split; [by intros Hnil%fmap_nil_inv|]. split.
  { unfold bid_budget. cbn [b_Milestones]. rewrite <- list_fmap_compose. exact Hfit. }
  split; [rewrite <- (next_get _ _ _ id Hn); exact (next_absent _ _ _ Hv Hn)|].
  split; [exact (save_get (id_of := b_ID) _ _ _ Hv1 Hs)|].
  intros k Hk. rewrite (save_get_ne (id_of := b_ID) _ _ _ _ _ Hs Hk). exact (next_get _ _ _ k Hn).
Qed.

Lemma CreateBid_fits_witness :
  ∃ bid, is_ok (get_bid (b_ID bid) market) = false ∧ bid_budget bid ≤ 1000.
Proof.
  assert (Hr : ∃ bid, CreateBid "rfq_1" (demo_bid "p3") market =
    ((CreateBid "rfq_1" (demo_bid "p3") market).1, Ok bid)).
  { eexists. apply run_at; [reflexivity|]. vm_compute. reflexivity. }
  destruct Hr as [bid Hr]. exists bid.
  destruct (CreateBid_fits (H0 := memory_laws) "rfq_1" (demo_bid "p3") market _ bid
    (proj1 (proj2 market_valid)) Hr) as (rfq & Hq & _ & _ & _ & _ & _ & Hfit & Hf & _).
  split; [exact Hf|].
  assert (Hb : ∃ r, get_rfq "rfq_1" market = Ok r ∧ rfq_BudgetCents r = 1000)
    by (eexists; vm_compute; split; reflexivity).
  destruct Hb as (r & Hr1 & Hr2). rewrite Hr1 in Hq. injection Hq as <-.
  rewrite <- Hr2. exact Hfit.
Defined.
