(* ===== verification/Vetting.v ===== *)
(** * Provider vetting

    Theorems about [Providers]: applications are reviewed once, an organisation
    has at most one pending application, and what becomes of a suspended
    provider. *)

From S2P Require Import Prelude GoNum GoText Core Market Repo MemoryRepo App Lifecycle ProviderSettlement.
From S2P Require Import Providers SettlementLedger Bidding Awards.

Section vetting.
Context `{Storage}.

(** ** What leaves applications alone *)

Definition same_apps (a a' : App) : Prop :=
  providerApplications a' = providerApplications a.
#[export] Instance same_apps_preorder : PreOrder same_apps.
Proof. split; [done|]. intros a b c ? ?. unfold same_apps in *. congruence. Qed.

Lemma now_apps : frames same_apps now.
Proof. done. Qed.
Lemma notify_apps event tgt p : frames same_apps (notify event tgt p).
Proof. intros a. unfold notify. by destruct (notifier a). Qed.
Hint Resolve now_apps notify_apps : frames.

(** ** The applications of a platform *)

Definition pending (app : ProviderApplication) : Prop := pa_Status app = VettingPending.
#[export] Instance pending_dec app : Decision (pending app).
Proof. unfold pending. apply _. Defined.

Record applications_ok (l : list ProviderApplication) : Prop := {
  app_ids : ∀ i app, l !! i = Some app → pa_ID app = "app_" +:+ pretty (Z.of_nat i + 1);
  app_reviewed : Forall (λ app, pending app ↔ pa_ReviewedAt app = None) l;
  app_one_pending : NoDup (pa_OrgID <$> filter pending l);
}.

(** An application over time: it keeps its author and contents, and a reviewed
    one is not touched. *)
Record vetted (app app' : ProviderApplication) : Prop := {
  vetted_same : pa_ID app' = pa_ID app ∧ pa_OrgID app' = pa_OrgID app ∧
    pa_Name app' = pa_Name app ∧ pa_Capabilities app' = pa_Capabilities app ∧
    pa_SubmittedAt app' = pa_SubmittedAt app;
  vetted_final : ¬ pending app → app' = app;
}.
#[export] Instance vetted_preorder : PreOrder vetted.
Proof.
  split; [by intros app; split|]. intros a b c [Hs Hf] [Hs' Hf']. split.
  - destruct Hs as (-> & -> & -> & -> & ->) in Hs'. exact Hs'.
  - intros Hp. rewrite (Hf Hp) in Hf'. rewrite (Hf' Hp). reflexivity.
Qed.

(** Applications are added at the end and vetted in place. *)
Definition grows (l l' : list ProviderApplication) : Prop :=
  ∀ i app, l !! i = Some app → ∃ app', l' !! i = Some app' ∧ vetted app app'.
#[export] Instance grows_preorder : PreOrder grows.
Proof.
  split; [intros l i app Hi; by exists app|]. intros a b c H1 H2 i app Hi.
  destruct (H1 _ _ Hi) as (app1 & Hi1 & Hv1). destruct (H2 _ _ Hi1) as (app2 & Hi2 & Hv2).
  exists app2. split; [done|by etransitivity].
Qed.

(** Submissions, reviews, and anything that leaves the applications alone. *)
Inductive vetting_step (a : App) : App → Prop :=
  | step_submit org name caps :
      vetting_step a (SubmitProviderApplication org name caps a).1
  | step_review id by_ note approve :
      vetting_step a (ReviewProviderApplication id by_ note approve a).1
  | step_other a' : same_apps a a' → vetting_step a a'.

Lemma submitted_ok l app :
  applications_ok l → existsb (pending_for (pa_OrgID app)) l = false →
  pa_ID app = "app_" +:+ pretty (Z.of_nat (length l) + 1) →
  pa_ReviewedAt app = None → pending app →
  applications_ok (l ++ [app]) ∧ grows l (l ++ [app]).
Proof.
  intros [H1 H2 H3] Hnone Hid Hr Hp. split.
  - split.
    + intros i x [Hi|[Hlen Hi]]%lookup_app_Some; [by apply H1|].
      apply list_lookup_singleton_Some in Hi as [Hi <-]. rewrite Hid. do 3 f_equal. lia.
    + apply Forall_app. split; [done|]. by apply Forall_singleton.
    + rewrite filter_app, fmap_app, filter_cons_True, filter_nil by done.
      apply NoDup_app. split; [done|]. split; [|apply NoDup_singleton].
      intros org (x & -> & [Hx Hin]%list_elem_of_filter)%list_elem_of_fmap.
      intros Horg%list_elem_of_singleton. apply not_true_iff_false in Hnone.
      apply Hnone, existsb_exists. exists x. split; [by apply list_elem_of_In|].
      unfold pending_for. rewrite Horg, String.eqb_refl. by apply bool_decide_eq_true.
  - intros i x Hi. exists x. split; [by apply lookup_app_l_Some|done].
Qed.

Lemma reviewed_ok l i app app' :
  applications_ok l → l !! i = Some app → pending app → vetted app app' →
  ¬ pending app' → pa_ReviewedAt app' ≠ None →
  applications_ok (<[i := app']> l) ∧ grows l (<[i := app']> l).
Proof.
  intros [H1 H2 H3] Hi Hp Hv Hnp Hr. split.
  - split.
    + intros j x Hj. destruct (decide (i = j)) as [<-|Hne].
      * rewrite list_lookup_insert_eq in Hj by (by eapply lookup_lt_Some).
        injection Hj as <-. destruct (vetted_same _ _ Hv) as (-> & _). by apply H1.
      * rewrite list_lookup_insert_ne in Hj by done. by apply H1.
    + apply Forall_insert; [done|]. by split.
    + rewrite (insert_take_drop l i app') by (by eapply lookup_lt_Some).
      rewrite filter_app, filter_cons_False, <- filter_app by done.
      eapply sublist_NoDup; [exact H3|]. apply fmap_sublist.
      rewrite <- (take_drop_middle l i app Hi) at 3.
      rewrite !filter_app. apply sublist_app; [done|].
      rewrite filter_cons_True by done. by apply sublist_cons.
  - intros j x Hj. destruct (decide (i = j)) as [<-|Hne].
    + exists app'. rewrite list_lookup_insert_eq by (by eapply lookup_lt_Some).
      split; [done|]. congruence.
    + exists x. by rewrite list_lookup_insert_ne.
Qed.

(** Run to the final notification, which changes no application. *)
Ltac skip_notify :=
  cbn beta iota zeta delta [modify mret st_ret];
  lazymatch goal with
  | |- context [notify ?event ?tgt ?p ?s] =>
      pose proof (notify_apps event tgt p s) as Hsent; unfold same_apps in Hsent;
      destruct (notify event tgt p s) as [? [[]|?]];
      cbn [fst snd mret st_ret] in Hsent |- *
  end.

Lemma Submit_ok org name caps a :
  applications_ok (providerApplications a) →
  let a' := (SubmitProviderApplication org name caps a).1 in
  applications_ok (providerApplications a') ∧
  grows (providerApplications a) (providerApplications a').
Proof.
  intros Hok. unfold SubmitProviderApplication, mbind, st_bind, get_st.
  destruct (String.eqb org "" || String.eqb name ""); [by split|]. cbn [fail_if mret st_ret].
  destruct (existsb (pending_for org) (providerApplications a)) eqn:Hex; [by split|].
  cbn [fail_if mret st_ret]. destruct (now a) as [a1 [t|e]] eqn:Hn; [|discriminate Hn].
  pose proof (frames_result same_apps _ _ _ _ now_apps Hn) as Ha. skip_notify.
  all: rewrite Hsent; cbn; rewrite Ha; by apply submitted_ok.
Qed.

Lemma Review_ok id by_ note approve a :
  applications_ok (providerApplications a) →
  let a' := (ReviewProviderApplication id by_ note approve a).1 in
  applications_ok (providerApplications a') ∧
  grows (providerApplications a) (providerApplications a').
Proof.
  intros Hok. unfold ReviewProviderApplication, mbind, st_bind, get_st.
  destruct (find_application id (providerApplications a)) as [[i app]|] eqn:Hf; [|by split].
  apply list_find_Some in Hf as (Hi & _ & _).
  case_bool_decide as Hp; cbn [negb fail_if]; [|by split]. cbn [mret st_ret].
  destruct (now a) as [a1 [t|e]] eqn:Hn; [|discriminate Hn].
  pose proof (frames_result same_apps _ _ _ _ now_apps Hn) as Ha. skip_notify.
  all: rewrite Hsent; cbn; rewrite Ha.
  all:
    (apply (reviewed_ok _ i app); [done..| |by destruct approve|done]);
    (split; [done|]); intros Hnp; by destruct Hnp.
Qed.

Lemma vetting_step_ok a a' :
  vetting_step a a' → applications_ok (providerApplications a) →
  applications_ok (providerApplications a') ∧
  grows (providerApplications a) (providerApplications a').
Proof.
  intros [org name caps|id by_ note approve|a1 Ha1] Hok;
    [by apply Submit_ok|by apply Review_ok|].
  unfold same_apps in Ha1. by rewrite Ha1.
Qed.

Lemma vetting_steps_ok a a' :
  rtc vetting_step a a' → applications_ok (providerApplications a) →
  applications_ok (providerApplications a') ∧
  grows (providerApplications a) (providerApplications a').
Proof.
  induction 1 as [a|a a1 a2 Hs _ IH]; intros Hok; [by split|].
  destruct (vetting_step_ok _ _ Hs Hok) as [Hok1 Hg1]. destruct (IH Hok1) as [Hok2 Hg2].
  split; [done|by etransitivity].
Qed.
End vetting.

(** ** Properties *)

(**  Applications are vetted once.  Starting without applications, after any
    submissions and reviews, interleaved with anything else, applications are
    numbered in order, have a review time exactly when they are decided, and no
    organisation has two pending ones; and from then on an application keeps its
    author and contents, and a decided one never changes. *)
Theorem vetting_is_final `{Storage} a0 a a' :
  providerApplications a0 = [] → rtc vetting_step a0 a → rtc vetting_step a a' →
  applications_ok (providerApplications a) ∧
  ∀ i app, providerApplications a !! i = Some app →
    ∃ app', providerApplications a' !! i = Some app' ∧ vetted app app'.
Proof.
  intros Hnil H0 H1.
  assert (Hok0 : applications_ok (providerApplications a0)).
  { rewrite Hnil. split; [done|by constructor|constructor]. }
  destruct (vetting_steps_ok _ _ H0 Hok0) as [Hok _]. split; [done|].
  by apply (vetting_steps_ok _ _ H1 Hok).
Qed.

(** Two organisations apply and one is approved; reviewing it again is refused. *)
Definition applied : App :=
  ((_ ← SubmitProviderApplication "p1" "One" [];
    _ ← SubmitProviderApplication "p2" "Two" [];
    ReviewProviderApplication "app_1" "ops" "fine" true) demo_app).1.
Definition reviewed_again : App :=
  (ReviewProviderApplication "app_1" "ops" "no" false applied).1.

Lemma applied_steps : rtc vetting_step demo_app applied.
Proof.
  eapply rtc_l; [apply (step_submit demo_app "p1" "One" [])|].
  eapply rtc_l; [apply (step_submit _ "p2" "Two" [])|].
  eapply rtc_l; [apply (step_review _ "app_1" "ops" "fine" true)|].
  apply reflexive_eq. reflexivity.
Qed.

Lemma vetting_is_final_witness :
  ∃ app', providerApplications reviewed_again !! 0%nat = Some app' ∧
          pa_Status app' = VettingApproved ∧ pa_ReviewNote app' = "fine".
Proof.
  destruct (vetting_is_final demo_app applied reviewed_again eq_refl applied_steps
    (rtc_once _ _ (step_review applied "app_1" "ops" "no" false))) as [_ H].
  edestruct (H 0%nat) as (app' & Hi & Hv); [vm_compute; reflexivity|].
  exists app'. split; [exact Hi|]. by rewrite (vetted_final _ _ Hv).
Defined.

(**  A suspended provider can come back by itself.  Awards refuse a provider
    whose last carrier binding is suspended.  But a suspended binding does not keep
    its provider from registering a new one, which is then the last: although
    nobody has verified it, the award that was refused succeeds, settlement
    liquidity included. *)
Theorem suspension_is_escaped :
  let rfq := mkCreateRFQInput "buyer" "Run agents" "agent-ops" "all of it" 500 [] 5000 in
  let offered := ((_ ← onboard; _ ← CreateRFQ rfq; CreateBid "rfq_1" (demo_bid "p1"))
                    demo_app).1 in
  let suspended := (SuspendCarrierBinding "pcb_1" offered).1 in
  let refused := AwardRFQ "rfq_1" (demo_award "bid_1") suspended in
  let back := RegisterCarrierBinding (demo_carrier "p1") suspended in
  let award := AwardRFQ "rfq_1" (demo_award "bid_1") back.1 in
  (if refused.2 is Err e then is_error e ErrProviderSuspended else false) = true ∧
  is_ok back.2 = true ∧
  (pcb_Status <$> carrierBindings back.1) = ["suspended"; "pending_verification"] ∧
  is_ok award.2 = true ∧ size (settlementReservations award.1) = 1%nat.
Proof. vm_compute. repeat split. Qed.
