(* ===== verification/Reports.v ===== *)
(** * Ratings, the leaderboard and revenue

    Theorems about [Directory]: a completed order is rated once; the leaderboard
    lists every provider, best rated first; a provider's revenue is the sum over
    its orders. *)

From Stdlib Require Import SpecFloat.
From S2P Require Import Prelude GoNum GoText Core Milestones Market Repo MemoryRepo App Lifecycle.
From S2P Require Import ProviderSettlement SettlementLedger Orders OrderHandlers Credit Directory.

(** ** The order of ratings *)

(** A float that is not NaN, by sign and class, exponent and mantissa. *)
Definition rank (f : float64) : Z * (Z * Z) :=
  match f with
  | S754_infinity true => (-2, (0, 0))
  | S754_finite true m e => (-1, (- e, Z.neg m))
  | S754_zero _ | S754_nan => (0, (0, 0))
  | S754_finite false m e => (1, (e, Z.pos m))
  | S754_infinity false => (2, (0, 0))
  end.
Definition rank_lt (a b : Z * (Z * Z)) : Prop :=
  a.1 < b.1 ∨ a.1 = b.1 ∧ (a.2.1 < b.2.1 ∨ a.2.1 = b.2.1 ∧ a.2.2 < b.2.2).

Lemma f64_lt_rank f g :
  f ≠ S754_nan → g ≠ S754_nan → f64_lt f g = true ↔ rank_lt (rank f) (rank g).
Proof.
  intros Hf Hg. unfold f64_lt, SFltb, SFcompare, rank_lt, rank.
  destruct f as [[]|[]| |[] m e], g as [[]|[]| |[] n e']; try done; cbn;
    try (split; intros; done || lia).
  - destruct (Z.compare_spec e e') as [->|He|He]; cbn; [|split; intros; done || lia..].
    change (Pos.compare_cont Eq m n) with (m ?= n)%positive.
    destruct (Pos.compare_spec m n); cbn; split; intros; done || lia.
  - destruct (Z.compare_spec e e') as [->|He|He]; cbn; [|split; intros; done || lia..].
    change (Pos.compare_cont Eq m n) with (m ?= n)%positive.
    destruct (Pos.compare_spec m n); cbn; split; intros; done || lia.
Qed.

Lemma f64_lt_asym f g : f ≠ S754_nan → g ≠ S754_nan → f64_lt f g = true → f64_lt g f = false.
Proof.
  intros Hf Hg H%f64_lt_rank; [|done..]. apply not_true_iff_false.
  rewrite f64_lt_rank by done. unfold rank_lt in *. lia.
Qed.

Lemma f64_ge_trans f g h :
  f ≠ S754_nan → g ≠ S754_nan → h ≠ S754_nan →
  f64_lt f g = false → f64_lt g h = false → f64_lt f h = false.
Proof.
  intros Hf Hg Hh. rewrite <- !not_true_iff_false, !f64_lt_rank by done.
  unfold rank_lt. lia.
Qed.

(** ** The exchange sort *)

(** [x] may stand before [y]: it is not rated lower. *)
Definition above (x y : LeaderboardEntry) : Prop := f64_lt (lb_Rating x) (lb_Rating y) = false.
Definition rateable (x : LeaderboardEntry) : Prop := lb_Rating x ≠ S754_nan.

Lemma above_refl x : above x x.
Proof.
  unfold above, f64_lt, SFltb, SFcompare.
  destruct (lb_Rating x) as [[]|[]| |[] m e]; try done;
    rewrite Z.compare_refl; change (Pos.compare_cont Eq m m) with (m ?= m)%positive;
    by rewrite Pos.compare_refl.
Qed.

Lemma exchange_pass_perm x l :
  let '(top, rest) := exchange_pass x l in top :: rest ≡ₚ x :: l.
Proof.
  revert x. induction l as [|y l IH]; intros x; cbn; [done|].
  destruct (f64_lt (lb_Rating x) (lb_Rating y)).
  - specialize (IH y). destruct (exchange_pass y l) as [top rest].
    etransitivity; [apply perm_swap|]. by rewrite IH.
  - specialize (IH x). destruct (exchange_pass x l) as [top rest].
    etransitivity; [apply perm_swap|]. rewrite IH. apply perm_swap.
Qed.

(** The pass brings a best entry to the front. *)
Lemma exchange_pass_top x l :
  rateable x → Forall rateable l →
  let '(top, rest) := exchange_pass x l in
  rateable top ∧ above top x ∧ Forall (above top) rest.
Proof.
  revert x. induction l as [|y l IH]; intros x Hx Hl; cbn.
  { split; [done|]. split; [apply above_refl|done]. }
  apply Forall_cons in Hl as [Hy Hl].
  destruct (f64_lt (lb_Rating x) (lb_Rating y)) eqn:Hlt.
  - specialize (IH y Hy Hl). destruct (exchange_pass y l) as [top rest].
    destruct IH as (Htop & Hay & Hrest).
    assert (Hax : above top x).
    { apply (f64_ge_trans _ (lb_Rating y)); [done..|]. by apply f64_lt_asym. }
    split; [done|]. split; [done|]. by constructor.
  - specialize (IH x Hx Hl). destruct (exchange_pass x l) as [top rest].
    destruct IH as (Htop & Hax & Hrest). split; [done|]. split; [done|].
    constructor; [|done]. by apply (f64_ge_trans _ (lb_Rating x)).
Qed.

Lemma exchange_sort_spec n l :
  (length l ≤ n)%nat → Forall rateable l →
  exchange_sort n l ≡ₚ l ∧ StronglySorted above (exchange_sort n l).
Proof.
  revert l. induction n as [|n IH]; intros l Hn Hl; destruct l as [|x l];
    cbn [length] in Hn; try lia; try (split; [done|constructor]).
  apply Forall_cons in Hl as [Hx Hl]. cbn [exchange_sort].
  pose proof (exchange_pass_perm x l) as Hp. pose proof (exchange_pass_top x l Hx Hl) as Ht.
  destruct (exchange_pass x l) as [top rest]. destruct Ht as (Htop & _ & Hrest).
  assert (Hlen : length rest = length l).
  { apply Permutation_length in Hp. cbn in Hp. lia. }
  assert (Hall : Forall rateable rest).
  { assert (Hc : Forall rateable (top :: rest)) by (rewrite Hp; by constructor).
    by apply Forall_cons in Hc as [_ ?]. }
  destruct (IH rest ltac:(lia) Hall) as [Hperm Hsorted]. split.
  - by rewrite Hperm.
  - constructor; [done|]. by rewrite Hperm.
Qed.

(** ** Revenue *)

Section revenue.
Context `{Storage}.

Definition of_provider (id : string) (o : Order) : bool := String.eqb (o_ProviderOrgID o) id.

(** Settled cents, and what the budgets still to be settled leave. *)
Definition settled_cents (o : Order) : Z := sumZ (ms_SettledCents <$> o_Milestones o).
Definition open_cents (m : Milestone) : Z :=
  if decide (ms_State m = MilestoneStateRunning ∨ ms_State m = MilestoneStatePending)
  then ms_BudgetCents m - ms_SettledCents m else 0.
Definition pending_cents (o : Order) : Z := sumZ (open_cents <$> o_Milestones o).

(** A summary with wrapped sums. *)
Record sums_to (s : ProviderRevenueSummary) (id : string) (n k r p : Z) : Prop := {
  sums_provider : prs_ProviderOrgID s = id;
  sums_orders : prs_TotalOrders s = n;
  sums_active : prs_ActiveOrders s = k;
  sums_revenue : prs_TotalRevenue s = wrap64 r;
  sums_pending : prs_PendingRevenue s = wrap64 p;
}.

Lemma revenue_milestone_sums s id n k r p m :
  sums_to s id n k r p →
  sums_to (revenue_milestone s m) id n k (r + ms_SettledCents m) (p + open_cents m).
Proof.
  intros [H1 H2 H3 H4 H5].
  set (open := ms_State m = MilestoneStateRunning ∨ ms_State m = MilestoneStatePending).
  assert (Hopen : bool_decide (ms_State m = MilestoneStateRunning)
    || bool_decide (ms_State m = MilestoneStatePending) = bool_decide open).
  { unfold open. by rewrite bool_decide_or. }
  unfold revenue_milestone, open_cents. rewrite Hopen. fold open. clear Hopen.
  case_bool_decide as Ho; [rewrite decide_True by done|rewrite decide_False by done];
    split; cbn; try done; rewrite ?H4, ?H5, ?add64_wrap_l; try done.
  - exact (add64_wrap_r p (ms_BudgetCents m - ms_SettledCents m)).
  - by rewrite Z.add_0_r.
Qed.

Lemma revenue_milestones_sums ms s id n k r p :
  sums_to s id n k r p →
  sums_to (foldl revenue_milestone s ms) id n k
    (r + sumZ (ms_SettledCents <$> ms)) (p + sumZ (open_cents <$> ms)).
Proof.
  revert s r p. induction ms as [|m ms IH]; intros s r p Hs; cbn [foldl fmap list_fmap sumZ].
  - by rewrite !Z.add_0_r.
  - rewrite !Z.add_assoc. apply IH. by apply revenue_milestone_sums.
Qed.

Definition running (o : Order) : bool := bool_decide (o_Status o = OrderStatusRunning).

Lemma revenue_orders_sums id os s n k r p :
  sums_to s id n k r p →
  let mine := List.filter (of_provider id) os in
  sums_to (foldl revenue_order s os) id (n + Z.of_nat (length mine)) (k + count_if running mine)
    (r + sumZ (settled_cents <$> mine)) (p + sumZ (pending_cents <$> mine)).
Proof.
  revert s n k r p. induction os as [|o os IH]; intros s n k r p Hs; cbn zeta.
  { unfold count_if. cbn. by rewrite !Z.add_0_r. }
  cbn [foldl List.filter]. unfold revenue_order at 2. rewrite (sums_provider _ _ _ _ _ _ Hs).
  change (String.eqb (o_ProviderOrgID o) id) with (of_provider id o).
  destruct (of_provider id o); cbn [negb].
  - unfold count_if. cbn [List.filter length fmap list_fmap sumZ].
    assert (Hs' : sums_to
      (let s := s <| prs_TotalOrders ::= (λ n, n + 1) |> in
       if bool_decide (o_Status o = OrderStatusRunning)
       then s <| prs_ActiveOrders ::= (λ n, n + 1) |> else s)
      id (n + 1) (k + if running o then 1 else 0) r p).
    { destruct Hs as [H1 H2 H3 H4 H5]. unfold running.
      destruct (bool_decide _); split; cbn; try done; lia. }
    pose proof (revenue_milestones_sums (o_Milestones o) _ _ _ _ _ _ Hs') as Hm.
    pose proof (IH _ _ _ _ _ Hm) as Hout. cbn zeta in Hout. clear IH Hm Hs'.
    destruct Hout as [H1 H2 H3 H4 H5]. split; [done|..].
    + rewrite H2. lia.
    + rewrite H3. unfold count_if. destruct (running o); cbn [length]; lia.
    + rewrite H4. f_equal. unfold settled_cents at 2. lia.
    + rewrite H5. f_equal. unfold pending_cents at 2. lia.
  - by apply IH.
Qed.
End revenue.

(** ** Ratings *)

Section rating.
Context `{Storage}.

Definition same_ratings (a a' : App) : Prop := ratings a' = ratings a ∧ orders a' = orders a.
#[export] Instance same_ratings_preorder : PreOrder same_ratings.
Proof. split; [done|]. intros a b c [] []. split; congruence. Qed.

Lemma now_ratings : frames same_ratings now.
Proof. done. Qed.
Lemma publish_ratings subject p : frames same_ratings (publish subject p).
Proof. done. Qed.
Lemma notify_ratings event tgt p : frames same_ratings (notify event tgt p).
Proof. intros a. unfold notify. by destruct (notifier a). Qed.

(** The steps of a successful rating. *)
Lemma RateOrder_Ok orderID input a a' r :
  RateOrder orderID input a = (a', Ok r) →
  (roi_Score input <? 1) || (5 <? roi_Score input) = false ∧
  (∃ o t, order_Get orderID (orders a) = Ok o ∧ o_Status o = OrderStatusCompleted ∧
     r = mkOrderRating orderID (o_ProviderOrgID o) (o_BuyerOrgID o) (roi_Score input)
           (roi_Comment input) t) ∧
  existsb (λ r, String.eqb (or_OrderID r) orderID) (ratings a) = false ∧
  ratings a' = ratings a ++ [r] ∧ orders a' = orders a.
Proof.
  unfold RateOrder. intros Hr.
  apply bind_Ok in Hr as (a1 & [] & Hg & Hr). apply fail_if_Ok in Hg as [Hscore ->].
  apply bind_Ok in Hr as (a1 & o & Hq & Hr). injection Hq as <- Ho.
  apply bind_Ok in Hr as (a1 & [] & Hg & Hr). apply fail_if_Ok in Hg as [Hst ->].
  apply negb_false_iff, bool_decide_eq_true in Hst.
  apply bind_Ok in Hr as (a1 & x & Hx & Hr). injection Hx as <- <-.
  apply bind_Ok in Hr as (a1 & [] & Hg & Hr). apply fail_if_Ok in Hg as [Hnone ->].
  apply bind_Ok in Hr as (a1 & t & Hn & Hr).
  apply (frames_result same_ratings _ _ _ _ now_ratings) in Hn as [Hn1 Hn2].
  apply bind_Ok in Hr as (a2 & [] & Hm & Hr). injection Hm as <-.
  apply bind_Ok in Hr as (a3 & [] & Hp & Hr).
  apply (frames_result same_ratings _ _ _ _ (publish_ratings _ _)) in Hp as [Hp1 Hp2].
  apply bind_Ok in Hr as (a4 & [] & Hs & Hr).
  apply (frames_result same_ratings _ _ _ _ (notify_ratings _ _ _)) in Hs as [Hs1 Hs2].
  injection Hr as <- <-. split; [done|]. split; [by exists o, t|]. split; [done|].
  rewrite Hs1, Hs2, Hp1, Hp2. by rewrite <- Hn1, <- Hn2.
Qed.

Lemma find_rating id l r :
  existsb (λ r, String.eqb (or_OrderID r) id) l = false → or_OrderID r = id →
  List.find (λ r, String.eqb (or_OrderID r) id) l = None ∧
  List.find (λ r, String.eqb (or_OrderID r) id) (l ++ [r]) = Some r ∧
  existsb (λ r, String.eqb (or_OrderID r) id) (l ++ [r]) = true.
Proof.
  intros Hnone <-. induction l as [|x l IH]; cbn in *.
  - by rewrite String.eqb_refl.
  - apply orb_false_iff in Hnone as [-> Hnone]. by apply IH.
Qed.
End rating.

(** ** Properties *)

(**  A completed order is rated once.  A successful rating is of a completed
    order, with one to five stars, by an order nobody has rated; afterwards it is
    the order's rating, and rating the order again fails and changes nothing. *)
Theorem RateOrder_once `{Storage} orderID input a a' r :
  RateOrder orderID input a = (a', Ok r) →
  1 ≤ roi_Score input ≤ 5 ∧
  (∃ o, get_order orderID a = Ok o ∧ o_Status o = OrderStatusCompleted ∧
     or_OrderID r = orderID ∧ or_ProviderOrgID r = o_ProviderOrgID o ∧
     or_BuyerOrgID r = o_BuyerOrgID o ∧ or_Score r = roi_Score input) ∧
  GetOrderRating orderID a = Err ErrOrderNotRated ∧ GetOrderRating orderID a' = Ok r ∧
  ∀ again, 1 ≤ roi_Score again ≤ 5 →
    RateOrder orderID again a' = (a', Err ErrOrderAlreadyRated).
Proof.
  intros Hr. apply RateOrder_Ok in Hr as (Hscore & (o & t & Ho & Hst & ->) & Hnone & Hra & Hor).
  apply orb_false_iff in Hscore as [H1%Z.ltb_ge H2%Z.ltb_ge].
  lazymatch type of Hra with _ = _ ++ [?r] =>
    destruct (find_rating orderID (ratings a) r Hnone eq_refl) as (Hf & Hf' & Hex) end.
  split; [lia|]. split; [by exists o|]. unfold GetOrderRating. rewrite Hf, Hra, Hf'.
  split; [done|]. split; [done|]. intros again Hagain.
  unfold RateOrder, mbind, st_bind, query, get_st.
  destruct (Z.ltb_spec (roi_Score again) 1); [lia|].
  destruct (Z.ltb_spec 5 (roi_Score again)); [lia|]. cbn [orb fail_if mret st_ret].
  rewrite Hor, Ho, bool_decide_true by done. cbn [negb fail_if mret st_ret].
  by rewrite Hra, Hex.
Qed.

(** An order settled to the end, and rated. *)
Definition demo_settled : App := (
  let settle id := Orders.SettleMilestone "ord_1" (mkSettleMilestoneInput id "done" "ops" 7) in
  (_ ← CreateOrder demo_order_input; _ ← settle "ms_1"; settle "ms_2") demo_app).1.
Definition demo_rating : RateOrderInput := mkRateOrderInput 4 "good".

Lemma RateOrder_once_witness :
  ∃ r, or_Score r = 4 ∧ ∀ again, 1 ≤ roi_Score again ≤ 5 →
    (RateOrder "ord_1" again (RateOrder "ord_1" demo_rating demo_settled).1).2 =
    Err ErrOrderAlreadyRated.
Proof.
  edestruct (RateOrder_once "ord_1" demo_rating demo_settled) as (_ & (o & _ & _ & _ & _ & _ & Hs)
    & _ & _ & Hagain); [apply run_at; [reflexivity|vm_compute; reflexivity]|].
  eexists. split; [exact Hs|]. intros again H. by rewrite (Hagain again H).
Defined.

(** Two providers, the second of which has a rated order. *)
Definition demo_profile (id : string) : ProviderProfile :=
  mkProviderProfile id id [] "bronze" (f64_of_int 0) 0.
Definition board : App := (RateOrder "ord_1" demo_rating demo_settled).1
  <| providers := [demo_profile "p0"; demo_profile "p1"] |>.

(**  The leaderboard is the providers, best rated first.  It has exactly one
    entry for each stored provider, with its rating, number of ratings and number
    of orders, and no entry stands after one that is rated lower; as for any
    comparison of floats, this supposes that no rating is NaN. *)
Theorem leaderboard_sorted `{Storage} a ps os l :
  provider_List (providers a) = Ok ps → order_List (orders a) = Ok os →
  Forall rateable (leaderboard_entry a os <$> ps) →
  GetProviderLeaderboard a = Ok l →
  l ≡ₚ (leaderboard_entry a os <$> ps) ∧ StronglySorted above l.
Proof.
  intros Hps Hos Hr. unfold GetProviderLeaderboard. rewrite Hps, Hos.
  intros [= <-]. by apply exchange_sort_spec.
Qed.

Lemma leaderboard_sorted_witness :
  ∃ l, GetProviderLeaderboard board = Ok l ∧ (lb_ProviderID <$> l) = ["p1"; "p0"] ∧
       StronglySorted above l.
Proof.
  assert (Hl : ∃ l, GetProviderLeaderboard board = Ok l ∧ (lb_ProviderID <$> l) = ["p1"; "p0"])
    by (eexists; split; vm_compute; reflexivity).
  destruct Hl as (l & Hl & Hids). exists l. split; [exact Hl|]. split; [exact Hids|].
  edestruct (leaderboard_sorted board) as [_ Hs]; [reflexivity|vm_compute; reflexivity| |
    exact Hl|exact Hs].
  vm_compute. repeat constructor; discriminate.
Defined.

(**  A provider's revenue is the sum over its orders: what was settled, what
    the running and pending milestones leave of their budgets, modulo 2^64, and
    the numbers of orders and of running ones; a failing dispute listing only
    leaves the disputes out. *)
Theorem GetProviderRevenue_sums `{Storage} id a os :
  order_List (orders a) = Ok os →
  let mine := List.filter (of_provider id) os in
  ∃ s, GetProviderRevenue id a = Ok s ∧
    sums_to s id (Z.of_nat (length mine)) (count_if running mine)
      (sumZ (settled_cents <$> mine)) (sumZ (pending_cents <$> mine)).
Proof.
  intros Hos mine. unfold GetProviderRevenue. rewrite Hos. cbn [mbind result_bind].
  assert (H0 : sums_to (mkProviderRevenueSummary id 0 0 0 0 0) id 0 0 0 0) by done.
  pose proof (revenue_orders_sums id os _ _ _ _ _ H0) as Hs. cbn zeta in Hs.
  rewrite !Z.add_0_l in Hs. fold mine in Hs.
  destruct (dispute_List (disputes a)) as [ds|e]; eexists; (split; [reflexivity|]); [|done].
  by destruct Hs.
Qed.


Lemma GetProviderRevenue_sums_witness :
  ∃ s, GetProviderRevenue "p1" demo_settled = Ok s ∧ prs_TotalRevenue s = wrap64 1000.
Proof.
  edestruct (GetProviderRevenue_sums "p1" demo_settled) as (s & Hs & Hsum);
    [vm_compute; reflexivity|].
  exists s. split; [exact Hs|]. rewrite (sums_revenue _ _ _ _ _ _ Hsum). reflexivity.
Defined.
