(* ===== verification/System.v ===== *)
(** * The whole platform, request by request

    Every mutating entry point of the platform as a request, and the state after
    any sequence of them, successful or not.  The invariants of the components
    hold of every order the platform ever stores. *)

From S2P Require Import Prelude GoNum GoText Core Milestones Market Repo MemoryRepo App Lifecycle.
From S2P Require Import ProviderSettlement Providers SettlementLedger Orders OrderHandlers Credit Bidding.
From S2P Require Import Awards Directory.

Inductive request :=
  | QOrder (q : order_request)
  | QCreateOrder (input : CreateOrderInput)
  | QCreateRFQ (input : CreateRFQInput)
  | QCreateBid (rfqID : string) (input : CreateBidInput)
  | QAward (rfqID : string) (input : AwardRFQInput)
  | QMessage (orderID author body : string)
  | QRFQMessage (rfqID author body : string)
  | QRate (orderID : string) (input : RateOrderInput)
  | QCreditLimit (buyerOrgID : string) (limitCents : Z) (setBy : string)
  | QApply (orgID name : string) (capabilities : list string)
  | QReview (applicationID reviewedBy note : string) (approve : bool)
  | QRegisterCarrier (input : ProviderCarrierBinding)
  | QVerifyCarrier (bindingID : string)
  | QSuspendCarrier (bindingID : string)
  | QRegisterSettlement (input : ProviderSettlementBinding)
  | QVerifySettlement (bindingID : string)
  | QSuspendSettlement (bindingID : string)
  | QDisconnect (providerOrgID reason : string)
  | QRecover (providerOrgID : string)
  | QWarm (providerOrgID : string) (minimumAvailableCents : Z).

Section system.
Context `{StorageLaws} `{MO : MapOrder}.

(** The state a request leaves; its answer goes to the caller. *)
Definition serve (a : App) (q : request) : App :=
  match q with
  | QOrder q => (handle q a).1
  | QCreateOrder input => (CreateOrder input a).1
  | QCreateRFQ input => (CreateRFQ input a).1
  | QCreateBid rfqID input => (CreateBid rfqID input a).1
  | QAward rfqID input => (AwardRFQ rfqID input a).1
  | QMessage orderID author body => (CreateMessage orderID author body a).1
  | QRFQMessage rfqID author body => (CreateRFQMessage rfqID author body a).1
  | QRate orderID input => (RateOrder orderID input a).1
  | QCreditLimit buyer limit setBy => (SetCreditLimit buyer limit setBy a).1
  | QApply orgID name caps => (SubmitProviderApplication orgID name caps a).1
  | QReview id by_ note approve => (ReviewProviderApplication id by_ note approve a).1
  | QRegisterCarrier input => (RegisterCarrierBinding input a).1
  | QVerifyCarrier id => (VerifyCarrierBinding id a).1
  | QSuspendCarrier id => (SuspendCarrierBinding id a).1
  | QRegisterSettlement input => (RegisterProviderSettlementBinding input a).1
  | QVerifySettlement id => (VerifyProviderSettlementBinding id a).1
  | QSuspendSettlement id => (SuspendProviderSettlementBinding id a).1
  | QDisconnect org reason => (ReportProviderSettlementDisconnect org reason a).1
  | QRecover org => (RecoverProviderSettlement org a).1
  | QWarm org c => (WarmProviderSettlementPool org c a).1
  end.

Definition serve_all (qs : list request) (a : App) : App := foldl serve a qs.

(** ** Requests that do not touch orders *)

Lemma on_messages_store {A} (m : ST messages_t A) : frames same_store (on_messages m).
Proof. intros a. unfold on_messages, zoom. by destruct (m (messages a)). Qed.
Lemma validate_store id : frames same_store (validateExecutionProfile id).
Proof. done. Qed.
Hint Resolve on_messages_store validate_store on_bids_store on_rfqs_store
  judge_bids_store check_carrier_store reserve_store attach_store : frames.

Lemma CreateRFQ_store input : frames same_store (CreateRFQ input).
Proof. unfold CreateRFQ. solve_frames. Qed.
Lemma CreateBid_store rfqID input : frames same_store (CreateBid rfqID input).
Proof. unfold CreateBid. solve_frames. Qed.
Lemma CreateMessage_store o au b : frames same_store (CreateMessage o au b).
Proof. unfold CreateMessage. solve_frames. Qed.
Lemma CreateRFQMessage_store r au b : frames same_store (CreateRFQMessage r au b).
Proof. unfold CreateRFQMessage. solve_frames. Qed.
Lemma RateOrder_store id input : frames same_store (RateOrder id input).
Proof. unfold RateOrder. solve_frames. Qed.
Lemma SetCreditLimit_store b l s : frames same_store (SetCreditLimit b l s).
Proof. unfold SetCreditLimit. solve_frames. Qed.
Lemma Submit_store o n c : frames same_store (SubmitProviderApplication o n c).
Proof. unfold SubmitProviderApplication. solve_frames. Qed.
Lemma Review_store i r n b : frames same_store (ReviewProviderApplication i r n b).
Proof. unfold ReviewProviderApplication. solve_frames. Qed.
Lemma RegisterCarrier_store b : frames same_store (RegisterCarrierBinding b).
Proof. unfold RegisterCarrierBinding. solve_frames. Qed.
Lemma VerifyCarrier_store i : frames same_store (VerifyCarrierBinding i).
Proof. unfold VerifyCarrierBinding. solve_frames. Qed.
Lemma SuspendCarrier_store i : frames same_store (SuspendCarrierBinding i).
Proof. unfold SuspendCarrierBinding. solve_frames. Qed.
Lemma RegisterSettlement_store b : frames same_store (RegisterProviderSettlementBinding b).
Proof. unfold RegisterProviderSettlementBinding. solve_frames. Qed.
Lemma VerifySettlement_store i : frames same_store (VerifyProviderSettlementBinding i).
Proof. unfold VerifyProviderSettlementBinding. solve_frames. Qed.
Lemma SuspendSettlement_store i : frames same_store (SuspendProviderSettlementBinding i).
Proof. unfold SuspendProviderSettlementBinding. solve_frames. Qed.
Lemma Warm_store org c : frames same_store (WarmProviderSettlementPool org c).
Proof. unfold WarmProviderSettlementPool, warm_begin, warm_provision, warm_end. solve_frames. Qed.

Lemma release_reservation_store r : frames same_store (release_reservation r).
Proof. unfold release_reservation. solve_frames. Qed.
Hint Resolve release_reservation_store : frames.
Lemma or_release_evolves {A} P r (m : M A) : frames (evolves P) m → frames (evolves P) (or_release r m).
Proof. intros Hm. unfold or_release. solve_frames. Qed.
Hint Resolve CreateOrder_evolves : frames.

Lemma Award_evolves P rfqID input : frames (evolves P) (AwardRFQ rfqID input).
Proof.
  unfold AwardRFQ.
  repeat first
    [ match goal with |- ∀ _, _ => intro end
    | apply or_release_evolves
    | solve [eauto with frames]
    | apply (frames_bind (evolves P))
    | match goal with |- frames _ (match ?x with _ => _ end) => destruct x end ].
Qed.

Lemma serve_evolves a q : evolves any_op a (serve a q).
Proof.
  destruct q; cbn [serve].
  - by apply handle_evolves.
  - apply CreateOrder_evolves.
  - apply same_store_evolves, CreateRFQ_store.
  - apply same_store_evolves, CreateBid_store.
  - apply Award_evolves.
  - apply same_store_evolves, CreateMessage_store.
  - apply same_store_evolves, CreateRFQMessage_store.
  - apply same_store_evolves, RateOrder_store.
  - apply same_store_evolves, SetCreditLimit_store.
  - apply same_store_evolves, Submit_store.
  - apply same_store_evolves, Review_store.
  - apply same_store_evolves, RegisterCarrier_store.
  - apply same_store_evolves, VerifyCarrier_store.
  - apply same_store_evolves, SuspendCarrier_store.
  - apply same_store_evolves, RegisterSettlement_store.
  - apply same_store_evolves, VerifySettlement_store.
  - apply same_store_evolves, SuspendSettlement_store.
  - by apply Disconnect_evolves.
  - by apply Recover_evolves.
  - apply same_store_evolves, Warm_store.
Qed.

Lemma serve_all_evolves qs a : evolves any_op a (serve_all qs a).
Proof.
  unfold serve_all. revert a. induction qs as [|q qs IH]; intros a; cbn [foldl].
  - reflexivity.
  - etransitivity; [apply serve_evolves|apply IH].
Qed.
End system.

(** No operation changes who an order is between or how it is funded. *)
Lemma apply_op_header op o : same_header o (apply_op op o).1.
Proof.
  destruct op; cbn [apply_op]; unfold settle_order, Core.SettleMilestone,
    Core.RecordUsageCharge, Core.OpenDispute, Core.ResolveDispute, topup_order,
    reconcile_order, resume_order, disconnect_order, set_milestone, advanceNextMilestone.
  all: repeat case_match; simplify_eq; cbn; try done.
Qed.

Lemma run_header ops o : same_header o (run ops o).1.
Proof.
  revert o. induction ops as [|op ops IH]; intros o; [done|]. cbn [run].
  pose proof (apply_op_header op o) as Ho. destruct (apply_op op o) as [o1 l1].
  specialize (IH o1). destruct (run ops o1). cbn in *. by etransitivity.
Qed.

(** ** Properties *)

(** Every order the platform stores is a run of the order machine.  Starting
    without orders, after any sequence of requests to any of the handlers, each
    of which may fail at any repository call or event, a stored order carries its
    own id and is what some history of settlements, charges, disputes, top-ups
    and outages makes of an order as it is created; so it is well-formed: its
    settled amounts are its base prices, its pending milestones are untouched,
    and if it is completed every milestone has been paid. *)
Theorem stored_orders_have_histories `{StorageLaws} `{MO : MapOrder} qs a k o :
  valid (orders a) → (∀ k, is_ok (get_order k a) = false) →
  get_order k (serve_all qs a) = Ok o →
  ∃ input o0 ops, starts k input o0 ∧ o = (run ops o0).1 ∧ o_ID o = k ∧ order_ok o.
Proof.
  intros Hv Hnone Hg. pose proof (serve_all_evolves qs a Hv) as Hev.
  destruct (ev_new _ _ _ Hev k o Hg) as [Hk|(input & ops & _ & ->)]; [by rewrite Hnone in Hk|].
  exists input, (new_order k input), ops. split; [apply new_order_starts|].
  split; [done|]. split.
  - by destruct (run_header ops (new_order k input)) as [-> _].
  - apply run_ok, new_order_ok.
Qed.

(** A session: a market, an award, a charge over the budget, a top-up and a
    settlement. *)
Definition session : list request :=
  [QCreateRFQ demo_rfq; QCreateBid "rfq_1" (demo_bid "p1");
   QAward "rfq_1" (demo_award "bid_1");
   QOrder (RUsage "ord_1" (mkRecordUsageChargeInput "ms_1" "token" 50 "" "" ""));
   QOrder (RTopUp "ord_1" (mkTopUpInput "ms_1" 100));
   QOrder (RSettle "ord_1" (mkSettleMilestoneInput "ms_1" "done" "carrier" 2000))].
Abbreviation after_session := (serve_all (MO := plain_order) session demo_app).

Lemma demo_no_orders k : is_ok (get_order k demo_app) = false.
Proof.
  unfold get_order. change (order_Get k (orders demo_app)) with
    (match (∅ : gmap string Order) !! k with
     | Some o => Ok o | None => Err ErrOrderNotFound end).
  by rewrite lookup_empty.
Qed.

Lemma stored_orders_have_histories_witness :
  ∃ o, get_order "ord_1" after_session = Ok o ∧ order_ok o.
Proof.
  assert (Ho : ∃ o, get_order "ord_1" after_session = Ok o) by (eexists; vm_compute; reflexivity).
  destruct Ho as [o Ho]. exists o. split; [exact Ho|].
  destruct (stored_orders_have_histories (H0 := memory_laws) (MO := plain_order) session
    demo_app "ord_1" o demo_valid demo_no_orders Ho) as (input & o0 & ops & _ & _ & _ & Hok).
  exact Hok.
Defined.

(** Orders are never lost and never change hands.  Whatever requests are
    served, an order that is stored stays readable under its id, with the same
    buyer, provider, funding mode, credit line and wallet. *)
Theorem orders_are_kept `{StorageLaws} `{MO : MapOrder} qs a k o :
  valid (orders a) → get_order k a = Ok o →
  ∃ o', get_order k (serve_all qs a) = Ok o' ∧ same_header o o'.
Proof.
  intros Hv Hg. pose proof (serve_all_evolves qs a Hv) as Hev.
  destruct (ev_old _ _ _ Hev k o Hg) as (ops & _ & Ho). exists (run ops o).1.
  split; [done|apply run_header].
Qed.

Lemma orders_are_kept_witness :
  ∃ o', get_order "ord_1" (serve_all (MO := plain_order) session with_order) = Ok o' ∧
        o_BuyerOrgID o' = "buyer".
Proof.
  destruct (orders_are_kept (H0 := memory_laws) (MO := plain_order) session with_order
    "ord_1" sample_order with_order_valid with_order_get) as (o' & Hg & _ & Hb & _).
  exists o'. exact (conj Hg Hb).
Defined.
