(* ===== verification/RateLimit.v ===== *)
(** * Rate limiting (internal/ratelimit/service.go)

    Fixed windows per policy and scope: the service, its policies and keys, and
    the in-memory store.  The store of a service is a parameter (the Redis one
    is in [ClientAddress]); the theorems are about the in-memory store.  Times are far
    from the limits of [time.Duration], so that [Add] and [Sub] do not saturate, and a
    count of calls does not reach 2^63.  Limits set by the environment are in [Limits]. *)

From S2P Require Import Prelude GoNum GoText.

(** Times and durations in nanoseconds; the zero time is [0]. *)
Abbreviation Time := Z (only parsing).
Abbreviation Duration := Z (only parsing).
Definition second : Duration := 1000000000.
Definition minute : Duration := 60 * second.
Definition hour : Duration := 60 * minute.

Inductive Policy :=
  | PolicyIAMSignupIP | PolicyIAMSignupDailyIP | PolicyIAMLoginIP
  | PolicyIAMLoginSubject | PolicyIAMLogoutUser
  | PolicyGatewayCreateRFQ | PolicyGatewayCreateBid | PolicyGatewayAwardRFQ
  | PolicyGatewayCreateOrder | PolicyGatewayCreateMsg | PolicyGatewayCreateDisp
  | PolicyGatewayResolveDisp | PolicyGatewayCreditDec.

Definition policy_string (p : Policy) : string :=
  match p with
  | PolicyIAMSignupIP => "iam.signup.ip"
  | PolicyIAMSignupDailyIP => "iam.signup.daily_ip"
  | PolicyIAMLoginIP => "iam.login.ip"
  | PolicyIAMLoginSubject => "iam.login.subject"
  | PolicyIAMLogoutUser => "iam.logout.user"
  | PolicyGatewayCreateRFQ => "gateway.create_rfq"
  | PolicyGatewayCreateBid => "gateway.create_bid"
  | PolicyGatewayAwardRFQ => "gateway.award_rfq"
  | PolicyGatewayCreateOrder => "gateway.create_order"
  | PolicyGatewayCreateMsg => "gateway.create_message"
  | PolicyGatewayCreateDisp => "gateway.create_dispute"
  | PolicyGatewayResolveDisp => "gateway.resolve_dispute"
  | PolicyGatewayCreditDec => "gateway.credit_decision"
  end.

Inductive ScopePart := ScopeIP | ScopeSubject | ScopeOrg | ScopeUser.

Record Meta := mkMeta {
  m_IP : string;
  m_SubjectHash : string;
  m_OrgID : string;
  m_UserID : string;
}.

Record PolicyConfig := mkPolicyConfig {
  pc_Limit : Z;
  pc_Window : Duration;
  pc_Scope : list ScopePart;
}.

Record Decision := mkDecision {
  Allowed : bool;
  Limit : Z;
  Remaining : Z;
  ResetAt : Time;
  RetryAfter : Duration;
}.

(** [Decision{Allowed: true}] *)
Definition unlimited : Decision := mkDecision true 0 0 0 0.

Definition maxInt (value min : Z) : Z := if value <? min then min else value.
Definition maxDuration (value min : Duration) : Duration :=
  if value <? min then min else value.

Definition fallback (value defaultValue : string) : string :=
  if blank value then defaultValue else TrimSpace value.

(** [strings.Join(parts, ":")] *)
Definition join_colon (parts : list string) : string := String.concat ":" parts.

Definition scope_parts (meta : Meta) (part : ScopePart) : list string :=
  match part with
  | ScopeIP => ["ip"; fallback (m_IP meta) "unknown"]
  | ScopeSubject => ["subject"; fallback (m_SubjectHash meta) "unknown"]
  | ScopeOrg => ["org"; fallback (m_OrgID meta) "unknown"]
  | ScopeUser => ["user"; fallback (m_UserID meta) "unknown"]
  end.

Definition buildKey (policy : Policy) (scope : list ScopePart) (meta : Meta) : string :=
  join_colon (["rate"; policy_string policy] ++ (scope ≫= scope_parts meta)).

(** The table of [DefaultPolicies], where no environment variable overrides a
    limit or a window. *)
Definition default_policy (p : Policy) : PolicyConfig :=
  match p with
  | PolicyIAMSignupIP => mkPolicyConfig 5 minute [ScopeIP]
  | PolicyIAMSignupDailyIP => mkPolicyConfig 20 (24 * hour) [ScopeIP]
  | PolicyIAMLoginIP => mkPolicyConfig 10 (5 * minute) [ScopeIP]
  | PolicyIAMLoginSubject => mkPolicyConfig 5 (5 * minute) [ScopeSubject]
  | PolicyIAMLogoutUser => mkPolicyConfig 30 minute [ScopeUser]
  | PolicyGatewayCreateRFQ => mkPolicyConfig 10 (10 * minute) [ScopeOrg; ScopeUser; ScopeIP]
  | PolicyGatewayCreateBid => mkPolicyConfig 20 (10 * minute) [ScopeOrg; ScopeUser; ScopeIP]
  | PolicyGatewayAwardRFQ => mkPolicyConfig 10 hour [ScopeOrg; ScopeUser; ScopeIP]
  | PolicyGatewayCreateOrder => mkPolicyConfig 20 hour [ScopeOrg; ScopeUser; ScopeIP]
  | PolicyGatewayCreateMsg => mkPolicyConfig 60 minute [ScopeOrg; ScopeUser]
  | PolicyGatewayCreateDisp => mkPolicyConfig 10 hour [ScopeOrg; ScopeUser]
  | PolicyGatewayResolveDisp => mkPolicyConfig 30 hour [ScopeOrg; ScopeUser]
  | PolicyGatewayCreditDec => mkPolicyConfig 30 hour [ScopeOrg; ScopeUser]
  end.

(** ** The in-memory store *)

Record memoryEntry := mkMemoryEntry {
  me_count : Z;
  me_resetAt : Time;
}.

(** A missing entry reads as the zero entry. *)
Definition zero_entry : memoryEntry := mkMemoryEntry 0 0.
Abbreviation entries := (gmap string memoryEntry).

(** The entry a call at [now] finds, reset if its window has passed. *)
Definition current_entry (e : memoryEntry) (window : Duration) (now : Time) : memoryEntry :=
  if (me_resetAt e =? 0) || negb (now <? me_resetAt e)
  then mkMemoryEntry 0 (now + window) else e.

Definition counted (e : memoryEntry) : memoryEntry :=
  mkMemoryEntry (me_count e + 1) (me_resetAt e).

Definition decision_of (e : memoryEntry) (limit : Z) (now : Time) : Decision :=
  let remaining := limit - me_count e in
  mkDecision (me_count e <=? limit) limit (if remaining <? 0 then 0 else remaining)
    (me_resetAt e) (maxDuration (me_resetAt e - now) 0).

(** [MemoryStore.Allow] *)
Definition memory_Allow (key : string) (limit : Z) (window : Duration) (now : Time)
    : ST entries Decision := λ m,
  let entry := counted (current_entry (default zero_entry (m !! key)) window now) in
  (<[key := entry]> m, Ok (decision_of entry limit now)).

(** ** The service *)

Record Service (S : Type) := mkService {
  enforce : bool;
  store : option (string → Z → Duration → Time → ST S Decision);
  policies : Policy → option PolicyConfig;
}.
Arguments enforce {S}.
Arguments store {S}.
Arguments policies {S}.

(** [Service.Allow] of a service or nil; [now] is the reading of its clock. *)
Definition Service_Allow {S} (s : option (Service S)) (policy : Policy) (meta : Meta)
    (now : Time) : ST S Decision :=
  match s with
  | Some s =>
      if negb (enforce s) then mret unlimited
      else match store s, policies s policy with
           | Some allow, Some config =>
               if (pc_Limit config <=? 0) || (pc_Window config <=? 0) then mret unlimited
               else allow (buildKey policy (pc_Scope config) meta) (pc_Limit config)
                      (pc_Window config) now
           | _, _ => mret unlimited
           end
  | None => mret unlimited
  end.

(** ** Windows *)

(** The calls made of a store, each with its key and time, and which were
    allowed. *)
Fixpoint allowed_calls (limit : Z) (window : Duration) (calls : list (string * Time))
    (m : entries) : list (string * Time) :=
  match calls with
  | [] => []
  | (key, now) :: calls =>
      let '(m', r) := memory_Allow key limit window now m in
      let rest := allowed_calls limit window calls m' in
      match r with
      | Ok d => if Allowed d then (key, now) :: rest else rest
      | Err _ => rest
      end
  end.

(** The calls of one key in an interval. *)
Definition in_window (key : string) (lo hi : Time) (call : string * Time) : bool :=
  String.eqb call.1 key && (lo <=? call.2) && (call.2 <? hi).
Definition hits (key : string) (lo hi : Time) (calls : list (string * Time)) : Z :=
  Z.of_nat (length (List.filter (in_window key lo hi) calls)).

(** Non-decreasing times, none before [from]. *)
Fixpoint chronological (from : Time) (calls : list (string * Time)) : Prop :=
  match calls with
  | [] => True
  | call :: calls => from ≤ call.2 ∧ chronological call.2 calls
  end.

Definition entry_of (key : string) (m : entries) : memoryEntry :=
  default zero_entry (m !! key).

(** What is left to an entry. *)
Definition left_of (limit : Z) (e : memoryEntry) : Z := Z.max 0 (limit - me_count e).

(** Whether a call at [now] still finds the entry. *)
Definition outlives (e : memoryEntry) (now : Time) : Prop :=
  me_resetAt e ≠ 0 ∧ now < me_resetAt e.

Lemma current_entry_live e window now :
  outlives e now → current_entry e window now = e.
Proof.
  intros [Hnz Hlt]. unfold current_entry.
  destruct (Z.eqb_spec (me_resetAt e) 0); [done|].
  by destruct (Z.ltb_spec now (me_resetAt e)); [|lia].
Qed.

Lemma current_entry_reset e window now :
  ¬ outlives e now → current_entry e window now = mkMemoryEntry 0 (now + window).
Proof.
  intros Hout. unfold current_entry, outlives in *.
  destruct (Z.eqb_spec (me_resetAt e) 0); [done|].
  destruct (Z.ltb_spec now (me_resetAt e)); [|done]. by destruct Hout.
Qed.

#[global] Instance outlives_dec e now : base.Decision (outlives e now).
Proof. unfold outlives. apply _. Defined.

(** The cases of the entry a call finds. *)
Ltac entry_cases e window now :=
  destruct (decide (outlives e now)) as [Hlive|Hdead];
  [rewrite (current_entry_live e window now Hlive)
  |rewrite (current_entry_reset e window now Hdead)].

Lemma memory_Allow_run key limit window now m :
  let e := counted (current_entry (entry_of key m) window now) in
  memory_Allow key limit window now m = (<[key := e]> m, Ok (decision_of e limit now)).
Proof. done. Qed.

Lemma entry_of_insert key k e m :
  entry_of key (<[k := e]> m) = if String.eqb k key then e else entry_of key m.
Proof.
  unfold entry_of. destruct (String.eqb_spec k key) as [->|Hne].
  - by rewrite lookup_insert_eq.
  - by rewrite lookup_insert_ne.
Qed.

Section windows.
Context (limit window : Z) (Hlimit : 0 ≤ limit) (Hwindow : 0 < window)
  (key : string) (lo : Time) (Hlo : 0 ≤ lo).
Let hi : Time := lo + window.

Lemma hits_app l k : hits key lo hi (l ++ k) = hits key lo hi l + hits key lo hi k.
Proof. unfold hits. rewrite List.filter_app, length_app. lia. Qed.

Lemma hits_one k now (b : bool) :
  hits key lo hi (if b then [(k, now)] else []) =
  if b && in_window key lo hi (k, now) then 1 else 0.
Proof. unfold hits. destruct b; [|done]. cbn. by destruct (in_window _ _ _ _). Qed.

(** One call: it is counted when it is of the key, in the interval, and
    allowed; the rest runs from the entry it leaves. *)
Lemma hits_cons k now calls m :
  let e := counted (current_entry (entry_of k m) window now) in
  hits key lo hi (allowed_calls limit window ((k, now) :: calls) m) =
  (if (me_count e <=? limit) && in_window key lo hi (k, now) then 1 else 0) +
  hits key lo hi (allowed_calls limit window calls (<[k := e]> m)).
Proof.
  cbn zeta. rewrite <- hits_one, <- hits_app. cbn [allowed_calls].
  rewrite memory_Allow_run. cbn. by destruct (_ <=? limit).
Qed.

Lemma hits_late calls m from :
  hi ≤ from → chronological from calls →
  hits key lo hi (allowed_calls limit window calls m) = 0.
Proof.
  revert m from. induction calls as [|[k now] calls IH]; intros m from Hfrom; [done|].
  intros [Hnow Hrest]; cbn in Hnow, Hrest. rewrite hits_cons.
  rewrite (IH _ now) by (done || lia).
  unfold in_window; cbn. destruct (Z.ltb_spec now hi); [lia|].
  by rewrite !andb_false_r.
Qed.

(** Once the entry outlives the interval, only what it has left is allowed in
    it. *)
Lemma hits_outliving calls m from :
  0 ≤ from → chronological from calls →
  me_resetAt (entry_of key m) ≠ 0 → hi ≤ me_resetAt (entry_of key m) →
  hits key lo hi (allowed_calls limit window calls m) ≤ left_of limit (entry_of key m).
Proof.
  revert m from. induction calls as [|[k now] calls IH]; intros m from Hfrom Hchron Hnz Hre.
  { unfold hits, left_of. cbn. lia. }
  destruct (Z.le_gt_cases hi now) as [Hlate|Hnow].
  { rewrite (hits_late _ _ now); [unfold left_of; lia|done|]. cbn in *.
    destruct Hchron as [_ Hrest]. by split. }
  destruct Hchron as [Hle Hrest]; cbn in Hle, Hrest. rewrite hits_cons.
  destruct (String.eqb_spec k key) as [->|Hne].
  - rewrite current_entry_live by (split; [done|lia]).
    pose proof (IH (<[key := counted (entry_of key m)]> m) now) as IHm.
    rewrite entry_of_insert, String.eqb_refl in IHm. unfold left_of in *. cbn in *.
    specialize (IHm ltac:(lia) Hrest Hnz Hre).
    destruct (Z.leb_spec (me_count (entry_of key m) + 1) limit); cbn;
      [destruct (in_window _ _ _ _)|]; lia.
  - set (e := counted _). pose proof (IH (<[k := e]> m) now) as IHm.
    rewrite entry_of_insert in IHm. unfold in_window. cbn.
    destruct (String.eqb_spec k key); [done|]. cbn. rewrite andb_false_r.
    apply IHm; [lia|done..].
Qed.

(** From the start of the interval on: what the entry has left, and one
    window. *)
Lemma hits_within calls m from :
  lo ≤ from → chronological from calls →
  hits key lo hi (allowed_calls limit window calls m) ≤
  left_of limit (entry_of key m) + limit.
Proof.
  revert m from. induction calls as [|[k now] calls IH]; intros m from Hfrom Hchron.
  { unfold hits, left_of. cbn. lia. }
  destruct Hchron as [Hle Hrest]; cbn in Hle, Hrest. rewrite hits_cons.
  destruct (String.eqb_spec k key) as [->|Hne].
  - entry_cases (entry_of key m) window now.
    + pose proof (IH (<[key := counted (entry_of key m)]> m) now ltac:(lia) Hrest) as IHm.
      rewrite entry_of_insert, String.eqb_refl in IHm. unfold left_of in *. cbn in *.
      destruct (Z.leb_spec (me_count (entry_of key m) + 1) limit); cbn;
        [destruct (in_window _ _ _ _)|]; lia.
    + set (e := counted _).
      pose proof (hits_outliving calls (<[key := e]> m) now ltac:(lia) Hrest) as Hout.
      rewrite entry_of_insert, String.eqb_refl in Hout. unfold e, left_of, hi in *. cbn in *.
      specialize (Hout ltac:(lia) ltac:(lia)).
      destruct (Z.leb_spec (0 + 1) limit); cbn; [destruct (in_window _ _ _ _)|]; lia.
  - set (e := counted _). pose proof (IH (<[k := e]> m) now ltac:(lia) Hrest) as IHm.
    rewrite entry_of_insert in IHm. unfold in_window. cbn.
    destruct (String.eqb_spec k key); [done|]. cbn. by rewrite andb_false_r.
Qed.

Lemma hits_bound calls m from :
  0 ≤ from → chronological from calls → 0 ≤ me_count (entry_of key m) →
  hits key lo hi (allowed_calls limit window calls m) ≤ 2 * limit.
Proof.
  revert m from. induction calls as [|[k now] calls IH]; intros m from Hfrom Hchron Hcount.
  { unfold hits. cbn. lia. }
  destruct (Z.le_gt_cases lo now) as [Hin|Hearly].
  { destruct Hchron as [_ Hrest].
    pose proof (hits_within ((k, now) :: calls) m now Hin ltac:(split; [cbn; lia|done])).
    unfold left_of in *. lia. }
  destruct Hchron as [Hle Hrest]; cbn in Hle, Hrest. rewrite hits_cons.
  unfold in_window; cbn. destruct (Z.leb_spec lo now); [lia|]. cbn.
  rewrite !andb_false_r, Z.add_0_l. apply (IH _ now); [lia|done|].
  rewrite entry_of_insert. destruct (String.eqb_spec k key) as [->|]; [|done].
  entry_cases (entry_of key m) window now; cbn; lia.
Qed.
End windows.

(**  Fixed windows, a sliding bound: whatever sequence of calls reaches a
    fresh in-memory store, for whatever keys, at most twice the limit of one
    key's calls are allowed in any interval as long as the window. *)
Theorem window_bound key limit window lo calls :
  0 ≤ limit → 0 < window → 0 ≤ lo → chronological 0 calls →
  hits key lo (lo + window) (allowed_calls limit window calls ∅) ≤ 2 * limit.
Proof. intros. by apply (hits_bound limit window) with (from := 0). Qed.

(** The bound is met: two calls at the end of a window, two at the start of the
    next, and others of another key between them. *)
Definition burst : list (string * Time) :=
  [("a", 0); ("a", 59); ("b", 59); ("a", 60); ("a", 61); ("a", 62)].

Lemma window_bound_witness :
  chronological 0 burst ∧
  hits "a" 1 61 (allowed_calls 2 60 burst ∅) = 2 ∧
  hits "a" 1 61 (allowed_calls 2 60 burst ∅) ≤ 4.
Proof.
  split; [cbn; lia|split; [by vm_compute|]].
  apply (window_bound "a" 2 60 1 burst); cbn; lia.
Defined.

(**  A denied call says when to come back: [RetryAfter] is positive, another
    call of the same limit is denied before that delay and allowed after it
    (the first time), and no other key is affected by the call. *)
Theorem denied_until_reset key limit window now m m' d :
  1 ≤ limit → 0 < window → 0 ≤ now →
  memory_Allow key limit window now m = (m', Ok d) → Allowed d = false →
  0 < RetryAfter d ∧ ResetAt d = now + RetryAfter d ∧ Remaining d = 0 ∧
  (∀ now', now' < now + RetryAfter d →
    ∃ d', (memory_Allow key limit window now' m').2 = Ok d' ∧ Allowed d' = false) ∧
  (∀ now', now + RetryAfter d ≤ now' →
    ∃ d', (memory_Allow key limit window now' m').2 = Ok d' ∧ Allowed d' = true) ∧
  (∀ k, k ≠ key → m' !! k = m !! k).
Proof.
  intros Hlimit Hwindow Hnow. rewrite memory_Allow_run.
  set (e := counted _). intros [= <- <-] Hdenied.
  change ((me_count e <=? limit) = false) in Hdenied. apply Z.leb_gt in Hdenied.
  assert (outlives e now) as [Hnz Hlt].
  { unfold e in *. revert Hdenied.
    entry_cases (entry_of key m) window now; cbn; [done|lia]. }
  clearbody e. unfold decision_of, maxDuration, entry_of; cbn.
  destruct (Z.ltb_spec (me_resetAt e - now) 0); [lia|].
  split_and!; [lia|lia|destruct (Z.ltb_spec (limit - me_count e) 0); lia|..].
  - intros now' Hbefore. eexists. split; [done|]. cbn.
    rewrite lookup_insert_eq. cbn. rewrite current_entry_live by (split; [done|lia]).
    cbn. apply Z.leb_gt. lia.
  - intros now' Hafter. eexists. split; [done|]. cbn.
    rewrite lookup_insert_eq. cbn.
    rewrite current_entry_reset by (intros [_ ?]; lia). cbn. apply Z.leb_le. lia.
  - intros k Hk. by rewrite lookup_insert_ne.
Qed.

(** The store after the policy's calls at one time, and the next. *)
Fixpoint after_calls (n : nat) (key : string) (limit : Z) (window : Duration) (now : Time)
    (m : entries) : entries :=
  match n with
  | O => m
  | S n => after_calls n key limit window now (memory_Allow key limit window now m).1
  end.

Lemma denied_until_reset_witness :
  let m := after_calls 5 "rate:iam.signup.ip:ip:1.2.3.4" 5 minute 7 ∅ in
  ∃ m' d,
    memory_Allow "rate:iam.signup.ip:ip:1.2.3.4" 5 minute 9 m = (m', Ok d) ∧
    RetryAfter d = minute - 2 ∧ 0 < RetryAfter d.
Proof.
  cbn zeta. eexists _, _. split; [reflexivity|]. split; [by vm_compute|].
  eapply (denied_until_reset "rate:iam.signup.ip:ip:1.2.3.4" 5 minute 9);
    [lia|unfold minute, second; lia|lia|reflexivity|by vm_compute].
Defined.
