(* ===== verification/CarrierService.v ===== *)
(** * The carrier service (internal/carrier/service.go)

    Carriers are bound to milestones and run jobs for them.  Every method runs
    under the service's mutex, so each is one step; [now] is its reading of the
    clock.  The lines a logger would write are left out, and the counters are
    unbounded: they advance by one per call. *)

From S2P Require Import Prelude.

Abbreviation Time := Z (only parsing).
Abbreviation Duration := Z (only parsing).

(** ** Data *)

Inductive JobState :=
  | JobStatePending | JobStateRunning | JobStateCompleted | JobStateFailed
  | JobStateCancelled.
#[export] Instance JobState_eq_dec : EqDecision JobState.
Proof. solve_decision. Defined.

Definition job_state_string (s : JobState) : string :=
  match s with
  | JobStatePending => "pending"
  | JobStateRunning => "running"
  | JobStateCompleted => "completed"
  | JobStateFailed => "failed"
  | JobStateCancelled => "cancelled"
  end.

(** [2 * time.Minute] and [5 * time.Minute] in nanoseconds. *)
Definition HeartbeatTimeout : Duration := 2 * 60 * 1000000000.
Definition StaleJobTimeout : Duration := 5 * 60 * 1000000000.

Record Binding := mkBinding {
  cb_ID : string;
  cb_CarrierID : string;
  cb_OrderID : string;
  cb_MilestoneID : string;
  cb_Capabilities : list string;
  cb_BoundAt : Time;
  cb_LastHeartbeat : Time;
}.
#[export] Instance Binding_eta : Eta Binding := λ b,
  mkBinding (cb_ID b) (cb_CarrierID b) (cb_OrderID b) (cb_MilestoneID b)
    (cb_Capabilities b) (cb_BoundAt b) (cb_LastHeartbeat b).
(** [Binding{}] *)
Definition zero_binding : Binding := mkBinding "" "" "" "" [] 0 0.

Record Progress := mkProgress {
  pr_Step : Z;
  pr_Total : Z;
  pr_Message : string;
}.

Record ExecutionJob := mkExecutionJob {
  ej_ID : string;
  ej_BindingID : string;
  ej_MilestoneID : string;
  ej_State : JobState;
  ej_Input : string;
  ej_Output : string;
  ej_ErrorMessage : string;
  ej_Progress : option Progress;
  ej_CreatedAt : Time;
  ej_StartedAt : option Time;
  ej_CompletedAt : option Time;
}.
#[export] Instance ExecutionJob_eta : Eta ExecutionJob := λ j,
  mkExecutionJob (ej_ID j) (ej_BindingID j) (ej_MilestoneID j) (ej_State j) (ej_Input j)
    (ej_Output j) (ej_ErrorMessage j) (ej_Progress j) (ej_CreatedAt j) (ej_StartedAt j)
    (ej_CompletedAt j).

Record ExecutionAttempt := mkExecutionAttempt {
  ea_ID : string;
  ea_JobID : string;
  ea_AttemptNo : Z;
  ea_CarrierExecID : string;
  ea_BindingSnapshot : string;
  ea_State : JobState;
  ea_FailureCategory : string;
  ea_FailureCode : string;
  ea_StartedAt : option Time;
  ea_EndedAt : option Time;
  ea_ResultSummary : string;
}.
#[export] Instance ExecutionAttempt_eta : Eta ExecutionAttempt := λ a,
  mkExecutionAttempt (ea_ID a) (ea_JobID a) (ea_AttemptNo a) (ea_CarrierExecID a)
    (ea_BindingSnapshot a) (ea_State a) (ea_FailureCategory a) (ea_FailureCode a)
    (ea_StartedAt a) (ea_EndedAt a) (ea_ResultSummary a).

Record StaleJob := mkStaleJob {
  sj_Job : ExecutionJob;
  sj_BindingID : string;
  sj_LastHeartbeat : Time;
  sj_StaleSince : Duration;
}.

Inductive FailureCategory :=
  | FailureCategoryProviderFault | FailureCategoryPolicyDenied
  | FailureCategoryInfraUnavailable | FailureCategoryTimeout
  | FailureCategoryInvalidInput | FailureCategoryBuyerDependencyMissing
  | FailureCategoryUnknown.

Definition failure_string (c : FailureCategory) : string :=
  match c with
  | FailureCategoryProviderFault => "provider_fault"
  | FailureCategoryPolicyDenied => "policy_denied"
  | FailureCategoryInfraUnavailable => "infra_unavailable"
  | FailureCategoryTimeout => "timeout"
  | FailureCategoryInvalidInput => "invalid_input"
  | FailureCategoryBuyerDependencyMissing => "buyer_dependency_missing"
  | FailureCategoryUnknown => "unknown"
  end.

Definition ValidFailureCategories : list FailureCategory :=
  [FailureCategoryProviderFault; FailureCategoryPolicyDenied;
   FailureCategoryInfraUnavailable; FailureCategoryTimeout;
   FailureCategoryInvalidInput; FailureCategoryBuyerDependencyMissing;
   FailureCategoryUnknown].

Definition IsValidFailureCategory (category : string) : bool :=
  existsb (λ c, String.eqb (failure_string c) category) ValidFailureCategories.

(** ** The job state machine *)

Definition validTransitions (from : JobState) : list JobState :=
  match from with
  | JobStatePending => [JobStateRunning; JobStateCancelled]
  | JobStateRunning => [JobStateCompleted; JobStateFailed; JobStateCancelled]
  | JobStateCompleted | JobStateFailed | JobStateCancelled => []
  end.

Definition canTransition (from to : JobState) : bool :=
  existsb (λ s, bool_decide (s = to)) (validTransitions from).

(** ** The service *)

(** A nil [attempts] or [idempotencyKeys] reads as an empty map. *)
Record Service := mkService {
  bindingSeq : Z;
  jobSeq : Z;
  bindings : gmap string Binding;
  bindingIdx : gmap string string;
  jobs : gmap string ExecutionJob;
  jobsByBinding : gmap string (list string);
  attempts : gmap string (list ExecutionAttempt);
  idempotencyKeys : gmap string string;
}.
#[export] Instance Service_eta : Eta Service := λ s,
  mkService (bindingSeq s) (jobSeq s) (bindings s) (bindingIdx s) (jobs s)
    (jobsByBinding s) (attempts s) (idempotencyKeys s).

Definition NewService : Service := mkService 0 0 ∅ ∅ ∅ ∅ ∅ ∅.

(** [orderID + "|" + milestoneID] *)
Definition binding_key (orderID milestoneID : string) : string :=
  orderID +:+ "|" +:+ milestoneID.

Definition Bind (orderID milestoneID carrierID : string) (capabilities : list string)
    (now : Time) : ST Service Binding :=
  s ← get_st;
  let key := binding_key orderID milestoneID in
  match bindingIdx s !! key with
  | Some _ => throw ErrBindingExists
  | None =>
      let seq := bindingSeq s + 1 in
      let binding := mkBinding ("bind_" +:+ pretty seq) carrierID orderID milestoneID
        capabilities now now in
      _ ← modify (λ s, s
            <| bindingSeq := seq |>
            <| bindings ::= <[cb_ID binding := binding]> |>
            <| bindingIdx ::= <[key := cb_ID binding]> |>);
      mret binding
  end.

Definition GetBindingByID (bindingID : string) (s : Service) : result Binding :=
  match bindings s !! bindingID with
  | Some binding => Ok binding
  | None => Err ErrBindingNotFound
  end.

(** An index entry without its binding reads as the zero binding. *)
Definition GetBinding (orderID milestoneID : string) (s : Service) : result Binding :=
  match bindingIdx s !! binding_key orderID milestoneID with
  | Some id => Ok (default zero_binding (bindings s !! id))
  | None => Err ErrBindingNotFound
  end.

Definition Heartbeat (bindingID : string) (now : Time) : ST Service () :=
  s ← get_st;
  match bindings s !! bindingID with
  | Some b => modify (λ s, s
      <| bindings ::= <[bindingID := b <| cb_LastHeartbeat := now |>]> |>)
  | None => throw ErrBindingNotFound
  end.

(** [time.Since(t)] is [now - t]. *)
Definition IsStale (bindingID : string) (now : Time) (s : Service) : result bool :=
  match bindings s !! bindingID with
  | Some b => Ok (HeartbeatTimeout <? now - cb_LastHeartbeat b)
  | None => Err ErrBindingNotFound
  end.

Definition job_id (n : Z) : string := "job_" +:+ pretty n.

(** The creation shared by [CreateJob] and [CreateJobIdempotent]. *)
Definition add_job (bindingID milestoneID input : string) (now : Time)
    : ST Service ExecutionJob :=
  s ← get_st;
  let seq := jobSeq s + 1 in
  let job := mkExecutionJob (job_id seq) bindingID milestoneID JobStatePending input
    "" "" None now None None in
  _ ← modify (λ s, s
        <| jobSeq := seq |>
        <| jobs ::= <[ej_ID job := job]> |>
        <| jobsByBinding ::=
             (λ m, <[bindingID := default [] (m !! bindingID) ++ [ej_ID job]]> m) |>);
  mret job.

Definition CreateJob (bindingID milestoneID input : string) (now : Time)
    : ST Service ExecutionJob :=
  s ← get_st;
  match bindings s !! bindingID with
  | None => throw ErrBindingNotFound
  | Some _ => add_job bindingID milestoneID input now
  end.

(** The job, and whether it is a replay. *)
Definition CreateJobIdempotent (bindingID milestoneID input idempotencyKey : string)
    (now : Time) : ST Service (ExecutionJob * bool) :=
  if String.eqb idempotencyKey "" then
    job ← CreateJob bindingID milestoneID input now;
    mret (job, false)
  else
    s ← get_st;
    match id ← idempotencyKeys s !! idempotencyKey; jobs s !! id with
    | Some job => mret (job, true)
    | None =>
        match bindings s !! bindingID with
        | None => throw ErrBindingNotFound
        | Some _ =>
            job ← add_job bindingID milestoneID input now;
            _ ← modify (λ s, s <| idempotencyKeys ::= <[idempotencyKey := ej_ID job]> |>);
            mret (job, false)
        end
    end.

Definition GetJob (jobID : string) (s : Service) : result ExecutionJob :=
  match jobs s !! jobID with
  | Some job => Ok job
  | None => Err ErrJobNotFound
  end.

(** What a transition makes of a job. *)
Definition moved (job : ExecutionJob) (to : JobState) (output errMsg : string) (now : Time)
    : ExecutionJob :=
  let job := job <| ej_State := to |> in
  match to with
  | JobStateRunning => job <| ej_StartedAt := Some now |>
  | JobStateCompleted => job <| ej_CompletedAt := Some now |> <| ej_Output := output |>
  | JobStateFailed => job <| ej_CompletedAt := Some now |> <| ej_ErrorMessage := errMsg |>
  | JobStateCancelled => job <| ej_CompletedAt := Some now |>
  | JobStatePending => job
  end.

(** [transitionJobLocked], which [transitionJob] wraps in the mutex. *)
Definition transitionJob (jobID : string) (to : JobState) (output errMsg : string)
    (now : Time) : ST Service ExecutionJob :=
  s ← get_st;
  match jobs s !! jobID with
  | None => throw ErrJobNotFound
  | Some job =>
      if negb (canTransition (ej_State job) to) then
        if bool_decide (ej_State job = to) then mret job
        else throw (EWrap ErrInvalidTransition
               (job_state_string (ej_State job) +:+ " → " +:+ job_state_string to))
      else
        let job := moved job to output errMsg now in
        _ ← modify (λ s, s <| jobs ::= <[jobID := job]> |>);
        mret job
  end.

Definition StartJob (jobID : string) (now : Time) : ST Service ExecutionJob :=
  transitionJob jobID JobStateRunning "" "" now.
Definition CompleteJob (jobID output : string) (now : Time) : ST Service ExecutionJob :=
  transitionJob jobID JobStateCompleted output "" now.
Definition FailJob (jobID errMsg : string) (now : Time) : ST Service ExecutionJob :=
  transitionJob jobID JobStateFailed "" errMsg now.
Definition CancelJob (jobID : string) (now : Time) : ST Service ExecutionJob :=
  transitionJob jobID JobStateCancelled "" "" now.

Definition UpdateProgress (jobID : string) (step total : Z) (message : string)
    : ST Service ExecutionJob :=
  s ← get_st;
  match jobs s !! jobID with
  | None => throw ErrJobNotFound
  | Some job =>
      if negb (bool_decide (ej_State job = JobStateRunning)) then
        throw (Errf ("can only update progress on running jobs, current state: " +:+
                     job_state_string (ej_State job)))
      else
        let job := job <| ej_Progress := Some (mkProgress step total message) |> in
        _ ← modify (λ s, s <| jobs ::= <[jobID := job]> |>);
        mret job
  end.

Definition ListJobs (bindingID : string) (s : Service) : result (list ExecutionJob) :=
  Ok (omap (λ id, jobs s !! id) (default [] (jobsByBinding s !! bindingID))).

Definition stale_job (s : Service) (now : Time) (job : ExecutionJob) : option StaleJob :=
  if negb (bool_decide (ej_State job = JobStateRunning)) then None
  else
    binding ← bindings s !! ej_BindingID job;
    let elapsed := now - cb_LastHeartbeat binding in
    if StaleJobTimeout <? elapsed
    then Some (mkStaleJob job (ej_BindingID job) (cb_LastHeartbeat binding) elapsed)
    else None.

(** [now id] is the reading of the clock when the loop looks at the job. *)
Definition ReconcileStaleJobs `{MO : MapOrder} (now : string → Time) (s : Service)
    : list StaleJob :=
  omap (λ '(id, job), stale_job s (now id) job) (map_order (map_to_list (jobs s))).

Definition attempt_id (jobID : string) (attemptNo : Z) : string :=
  jobID +:+ "_att_" +:+ pretty attemptNo.

Definition CreateAttempt (jobID carrierExecID : string) (now : Time)
    : ST Service ExecutionAttempt :=
  s ← get_st;
  match jobs s !! jobID with
  | None => throw ErrJobNotFound
  | Some _ =>
      let l := default [] (attempts s !! jobID) in
      let attemptNo := Z.of_nat (length l) + 1 in
      let attempt := mkExecutionAttempt (attempt_id jobID attemptNo) jobID attemptNo
        carrierExecID "" JobStatePending "" "" (Some now) None "" in
      _ ← modify (λ s, s <| attempts ::= <[jobID := l ++ [attempt]]> |>);
      mret attempt
  end.

(** The source returns the slice of the service itself: its last element changes
    under a caller that keeps it when the job fails. *)
Definition ListAttempts (jobID : string) (s : Service) : list ExecutionAttempt :=
  default [] (attempts s !! jobID).

(** [last := &attempts[len-1]] and the assignments through it. *)
Definition fail_last (category : FailureCategory) (code : string) (now : Time)
    (l : list ExecutionAttempt) : list ExecutionAttempt :=
  alter (λ a, a <| ea_FailureCategory := failure_string category |>
                <| ea_FailureCode := code |>
                <| ea_State := JobStateFailed |>
                <| ea_EndedAt := Some now |>) (pred (length l)) l.

(** [now] and [endedAt] are the two readings of the clock. *)
Definition FailJobTyped (jobID : string) (category : FailureCategory)
    (code errMsg : string) (now endedAt : Time) : ST Service ExecutionJob :=
  job ← transitionJob jobID JobStateFailed "" errMsg now;
  _ ← modify (λ s, s <| attempts ::= alter (fail_last category code endedAt) jobID |>);
  mret job.

(** ** Runs of the service *)

Inductive op :=
  | OpBind (orderID milestoneID carrierID : string) (capabilities : list string) (now : Time)
  | OpHeartbeat (bindingID : string) (now : Time)
  | OpCreateJob (bindingID milestoneID input : string) (now : Time)
  | OpCreateJobIdempotent (bindingID milestoneID input key : string) (now : Time)
  | OpTransition (jobID : string) (to : JobState) (output errMsg : string) (now : Time)
  | OpProgress (jobID : string) (step total : Z) (message : string)
  | OpCreateAttempt (jobID carrierExecID : string) (now : Time)
  | OpFailTyped (jobID : string) (category : FailureCategory) (code errMsg : string)
      (now endedAt : Time).

(** The state a call leaves, whatever it returns. *)
Definition exec (q : op) (s : Service) : Service :=
  match q with
  | OpBind o m c caps now => (Bind o m c caps now s).1
  | OpHeartbeat b now => (Heartbeat b now s).1
  | OpCreateJob b m i now => (CreateJob b m i now s).1
  | OpCreateJobIdempotent b m i k now => (CreateJobIdempotent b m i k now s).1
  | OpTransition j to out err now => (transitionJob j to out err now s).1
  | OpProgress j step total msg => (UpdateProgress j step total msg s).1
  | OpCreateAttempt j e now => (CreateAttempt j e now s).1
  | OpFailTyped j c code err now ended => (FailJobTyped j c code err now ended s).1
  end.
Definition exec_all (qs : list op) (s : Service) : Service := foldl (λ s q, exec q s) s qs.

(** ** Jobs only progress *)

Definition terminal (s : JobState) : bool := bool_decide (validTransitions s = []).

(** One job over time: its identity is fixed, its state follows the transitions,
    and a finished job is not touched. *)
Record advances (j j' : ExecutionJob) : Prop := {
  adv_identity : ej_ID j' = ej_ID j ∧ ej_BindingID j' = ej_BindingID j ∧
    ej_MilestoneID j' = ej_MilestoneID j ∧ ej_Input j' = ej_Input j ∧
    ej_CreatedAt j' = ej_CreatedAt j;
  adv_state : rtc (λ a b, canTransition a b = true) (ej_State j) (ej_State j');
  adv_final : terminal (ej_State j) = true → j' = j;
}.

#[export] Instance advances_preorder : PreOrder advances.
Proof.
  split.
  - intros j. by split.
  - intros a b c [Hi Hs Hf] [Hi' Hs' Hf']. split.
    + destruct Hi as (-> & -> & -> & -> & ->) in Hi'. done.
    + by etransitivity.
    + intros Ht. rewrite (Hf Ht) in Hf'. exact (Hf' Ht).
Qed.

(** A service over time. *)
Record keeps (s s' : Service) : Prop := {
  keeps_jobs : ∀ id j, jobs s !! id = Some j →
    ∃ j', jobs s' !! id = Some j' ∧ advances j j';
  keeps_bindings : ∀ id b, bindings s !! id = Some b →
    ∃ t, bindings s' !! id = Some (b <| cb_LastHeartbeat := t |>);
  keeps_index : ∀ key id, bindingIdx s !! key = Some id → bindingIdx s' !! key = Some id;
  keeps_keys : ∀ key id, idempotencyKeys s !! key = Some id → is_Some (jobs s !! id) →
    idempotencyKeys s' !! key = Some id;
}.

#[export] Instance keeps_preorder : PreOrder keeps.
Proof.
  split.
  - intros s. split; [intros id j ->; by exists j| |done..].
    intros id b Hb. exists (cb_LastHeartbeat b). rewrite Hb. by destruct b.
  - intros a b c [Hj Hb Hi Hk] [Hj' Hb' Hi' Hk']. split.
    + intros id j (j1 & Hj1 & H1)%Hj. destruct (Hj' _ _ Hj1) as (j2 & Hj2 & H2).
      exists j2. split; [done|by etransitivity].
    + intros id x [t Ht]%Hb. destruct (Hb' _ _ Ht) as [t' Ht']. by exists t'.
    + intros key id H. by apply Hi', Hi.
    + intros key id H [j Hjob]. apply Hk'; [by apply Hk|].
      destruct (Hj _ _ Hjob) as (j1 & -> & _). done.
Qed.

(** ** The invariant *)

(** What the state of a job says of its other fields. *)
Definition job_ok (j : ExecutionJob) : Prop :=
  (ej_Output j ≠ "" → ej_State j = JobStateCompleted) ∧
  (ej_ErrorMessage j ≠ "" → ej_State j = JobStateFailed) ∧
  match ej_State j with
  | JobStatePending => ej_StartedAt j = None ∧ ej_CompletedAt j = None ∧ ej_Progress j = None
  | JobStateRunning => is_Some (ej_StartedAt j) ∧ ej_CompletedAt j = None
  | JobStateCompleted | JobStateFailed => is_Some (ej_StartedAt j) ∧ is_Some (ej_CompletedAt j)
  | JobStateCancelled => is_Some (ej_CompletedAt j)
  end.

(** The jobs created so far, in order. *)
Definition job_ids (s : Service) : list string := job_id <$> seqZ 1 (jobSeq s).
Definition bound_to (s : Service) (bid id : string) : Prop :=
  ej_BindingID <$> jobs s !! id = Some bid.
#[export] Instance bound_to_dec s bid id : Decision (bound_to s bid id).
Proof. unfold bound_to. apply _. Defined.

Definition attempt_ok (jobID : string) (i : nat) (a : ExecutionAttempt) : Prop :=
  ea_JobID a = jobID ∧ ea_AttemptNo a = Z.of_nat i + 1 ∧
  ea_ID a = attempt_id jobID (Z.of_nat i + 1).

Record service_ok (s : Service) : Prop := {
  ok_bindingSeq : 0 ≤ bindingSeq s;
  ok_jobSeq : 0 ≤ jobSeq s;
  ok_bindings : ∀ id b, bindings s !! id = Some b →
    cb_ID b = id ∧ (∃ n, 1 ≤ n ≤ bindingSeq s ∧ id = "bind_" +:+ pretty n) ∧
    bindingIdx s !! binding_key (cb_OrderID b) (cb_MilestoneID b) = Some id;
  ok_index : ∀ key id, bindingIdx s !! key = Some id →
    ∃ b, bindings s !! id = Some b ∧ key = binding_key (cb_OrderID b) (cb_MilestoneID b);
  ok_job_ids : ∀ id, is_Some (jobs s !! id) ↔ id ∈ job_ids s;
  ok_jobs : ∀ id j, jobs s !! id = Some j →
    ej_ID j = id ∧ is_Some (bindings s !! ej_BindingID j) ∧ job_ok j;
  ok_listed : ∀ bid, default [] (jobsByBinding s !! bid) = filter (bound_to s bid) (job_ids s);
  ok_keys : ∀ key id, idempotencyKeys s !! key = Some id → is_Some (jobs s !! id);
  ok_attempts : ∀ id l, attempts s !! id = Some l →
    is_Some (jobs s !! id) ∧ ∀ i a, l !! i = Some a → attempt_ok id i a;
}.

Lemma NewService_ok : service_ok NewService.
Proof. split; cbn; try done. intros id. split; [by intros [? ?]|]. by intros ?%elem_of_nil. Qed.

Lemma next_binding_free s :
  service_ok s → bindings s !! ("bind_" +:+ pretty (bindingSeq s + 1)) = None.
Proof.
  intros Hok. destruct (bindings s !! _) as [b|] eqn:Hb; [|done].
  apply (ok_bindings _ Hok) in Hb as (_ & (n & Hn & He) & _).
  apply (inj (String.app "bind_")), (inj pretty) in He. lia.
Qed.

Lemma next_job_free s : service_ok s → jobs s !! job_id (jobSeq s + 1) = None.
Proof.
  intros Hok. apply eq_None_not_Some. rewrite (ok_job_ids _ Hok). unfold job_ids, job_id.
  intros (n & He & Hn%elem_of_seqZ)%list_elem_of_fmap.
  apply (inj (String.app "job_")), (inj pretty) in He. lia.
Qed.

(** *** Updates that keep the invariant *)

(** A job replaced by one it advances to. *)
Lemma put_job_ok s id j j' :
  service_ok s → jobs s !! id = Some j → advances j j' → job_ok j' →
  let s' := s <| jobs ::= <[id := j']> |> in service_ok s' ∧ keeps s s'.
Proof.
  intros Hok Hj Hadv Hj' s'. destruct (adv_identity _ _ Hadv) as (Hid & Hbind & _).
  assert (Hdom : ∀ k, is_Some (jobs s' !! k) ↔ is_Some (jobs s !! k)).
  { intros k. cbn. destruct (decide (id = k)) as [<-|].
    - rewrite lookup_insert_eq, Hj. split; by intros _.
    - by rewrite lookup_insert_ne. }
  assert (Hbound : ∀ bid k, bound_to s' bid k ↔ bound_to s bid k).
  { intros bid k. unfold bound_to. cbn. destruct (decide (id = k)) as [<-|].
    - rewrite lookup_insert_eq, Hj. cbn. by rewrite Hbind.
    - by rewrite lookup_insert_ne. }
  split.
  - destruct Hok as [H1 H2 H3 H4 H5 H6 H7 H8 H9]. split; try done.
    + intros k. rewrite Hdom. apply H5.
    + intros k x. cbn. intros [[<- <-]|[_ Hx]]%lookup_insert_Some; [|by apply H6].
      rewrite Hid, Hbind. destruct (H6 _ _ Hj) as (-> & Hb & _). done.
    + intros bid. cbn [jobsByBinding]. change (jobsByBinding s') with (jobsByBinding s).
      rewrite H7. change (job_ids s') with (job_ids s).
      apply list_filter_iff. intros k. by rewrite Hbound.
    + intros k i Hk. apply Hdom. by apply (H8 k).
    + intros k l Hk. destruct (H9 _ _ Hk). split; [by apply Hdom|done].
  - split; try done.
    + intros k x Hk. cbn. destruct (decide (id = k)) as [<-|].
      * rewrite lookup_insert_eq. exists j'. by simplify_eq.
      * rewrite lookup_insert_ne by done. by exists x.
    + intros k b Hb. exists (cb_LastHeartbeat b). cbn. rewrite Hb. by destruct b.
Qed.

Lemma add_job_ok s bid ms input now :
  service_ok s → is_Some (bindings s !! bid) →
  let s' := (add_job bid ms input now s).1 in
  service_ok s' ∧ keeps s s' ∧
  (add_job bid ms input now s).2 = Ok (mkExecutionJob (job_id (jobSeq s + 1)) bid ms
     JobStatePending input "" "" None now None None) ∧
  jobs s' !! job_id (jobSeq s + 1) = Some (mkExecutionJob (job_id (jobSeq s + 1)) bid ms
     JobStatePending input "" "" None now None None) ∧
  idempotencyKeys s' = idempotencyKeys s.
Proof.
  intros Hok Hbid s'. pose proof (next_job_free s Hok) as Hfree.
  set (id := job_id (jobSeq s + 1)) in *.
  set (j := mkExecutionJob id bid ms JobStatePending input "" "" None now None None).
  assert (Hids : job_ids s' = job_ids s ++ [id]).
  { unfold job_ids. change (jobSeq s') with (jobSeq s + 1).
    rewrite seqZ_app by (pose proof (ok_jobSeq _ Hok); lia).
    by rewrite fmap_app, Z.add_comm. }
  assert (Hjobs : jobs s' = <[id := j]> (jobs s)) by done.
  assert (Hold : ∀ b k, k ∈ job_ids s → bound_to s' b k ↔ bound_to s b k).
  { intros b k Hk%(ok_job_ids _ Hok). unfold bound_to. rewrite Hjobs.
    rewrite lookup_insert_ne; [done|]. intros <-. rewrite Hfree in Hk. by destruct Hk. }
  assert (Hnew : ∀ b, bound_to s' b id ↔ bid = b).
  { intros b. unfold bound_to. rewrite Hjobs, lookup_insert_eq. cbn. clear. naive_solver. }
  split; [|split; [|split; [done|split; [by rewrite Hjobs, lookup_insert_eq|done]]]].
  - destruct Hok as [H1 H2 H3 H4 H5 H6 H7 H8 H9]. split; try done.
    + change (jobSeq s') with (jobSeq s + 1). lia.
    + intros k. rewrite Hids, elem_of_app, list_elem_of_singleton, <- H5, Hjobs.
      rewrite lookup_insert_is_Some'. clear. split; intros [H|H]; auto.
    + intros k x. rewrite Hjobs. intros [[<- <-]|[_ Hx]]%lookup_insert_Some; [|by apply H6].
      split; [done|]. split; [done|]. by repeat split.
    + intros b. rewrite Hids, filter_app.
      rewrite (list_filter_ext (bound_to s' b) (bound_to s b) (job_ids s))
        by (intros; by apply Hold).
      rewrite <- H7, filter_cons, filter_nil. change (jobsByBinding s') with
        (<[bid := default [] (jobsByBinding s !! bid) ++ [id]]> (jobsByBinding s)).
      destruct (decide (bound_to s' b id)) as [<-%Hnew|Hne].
      * by rewrite lookup_insert_eq.
      * rewrite Hnew in Hne. rewrite lookup_insert_ne by done. by rewrite app_nil_r.
    + intros k i Hk. rewrite Hjobs. apply lookup_insert_is_Some'. right. by apply (H8 k).
    + intros k l Hk. destruct (H9 _ _ Hk). split; [|done]. rewrite Hjobs.
      apply lookup_insert_is_Some'. by right.
  - split; try done.
    + intros k x Hk. exists x. split; [|done]. rewrite Hjobs, lookup_insert_ne; [done|].
      intros <-. by rewrite Hfree in Hk.
    + intros k b Hb. exists (cb_LastHeartbeat b). change (bindings s') with (bindings s).
      rewrite Hb. by destruct b.
Qed.

(** A counter and a binding added for a milestone that has none. *)
Lemma Bind_ok o m c caps now s :
  service_ok s →
  let '(s', r) := Bind o m c caps now s in
  service_ok s' ∧ keeps s s' ∧
  match r with
  | Ok b => bindingIdx s !! binding_key o m = None ∧
      b = mkBinding ("bind_" +:+ pretty (bindingSeq s + 1)) c o m caps now now ∧
      bindings s' !! cb_ID b = Some b ∧ bindingIdx s' !! binding_key o m = Some (cb_ID b)
  | Err e => e = ErrBindingExists ∧ s' = s ∧ is_Some (bindingIdx s !! binding_key o m)
  end.
Proof.
  intros Hok. unfold Bind, mbind, st_bind, get_st.
  destruct (bindingIdx s !! binding_key o m) as [id|] eqn:Hidx; cbn.
  { split; [done|]. split; [done|]. by eauto. }
  pose proof (next_binding_free s Hok) as Hfree.
  set (id := "bind_" +:+ pretty (bindingSeq s + 1)) in *.
  set (b := mkBinding id c o m caps now now). cbn.
  assert (Hkey : ∀ k i, bindingIdx s !! k = Some i → binding_key o m ≠ k) by congruence.
  assert (Hid : ∀ k x, bindings s !! k = Some x → id ≠ k) by congruence.
  split; [|split].
  - destruct Hok as [H1 H2 H3 H4 H5 H6 H7 H8 H9]. split; cbn; try done.
    + lia.
    + intros k x [[<- <-]|[_ Hx]]%lookup_insert_Some.
      * split; [done|]. split; [exists (bindingSeq s + 1); split; [lia|done]|].
        by rewrite lookup_insert_eq.
      * destruct (H3 _ _ Hx) as (Hk & (n & Hn & Hkn) & Hi). split; [done|].
        split; [exists n; split; [lia|done]|]. by rewrite lookup_insert_ne by eauto.
    + intros k i [[<- <-]|[_ Hx]]%lookup_insert_Some.
      * exists b. by rewrite lookup_insert_eq.
      * destruct (H4 _ _ Hx) as (x & Hb & Hk). exists x.
        by rewrite lookup_insert_ne by eauto.
    + intros k j Hj. destruct (H6 _ _ Hj) as (? & ? & ?). split; [done|]. split; [|done].
      apply lookup_insert_is_Some'. by right.
  - split; cbn; try done.
    + intros k j Hj. by exists j.
    + intros k x Hx. exists (cb_LastHeartbeat x). rewrite lookup_insert_ne, Hx by eauto.
      by destruct x.
    + intros k i Hi. by rewrite lookup_insert_ne by eauto.
  - by rewrite !lookup_insert_eq.
Qed.

Lemma Heartbeat_ok bid now s :
  service_ok s → let s' := (Heartbeat bid now s).1 in service_ok s' ∧ keeps s s'.
Proof.
  intros Hok. unfold Heartbeat, mbind, st_bind, get_st.
  destruct (bindings s !! bid) as [b|] eqn:Hb; cbn; [|by split].
  split.
  - destruct Hok as [H1 H2 H3 H4 H5 H6 H7 H8 H9]. split; cbn; try done.
    + intros k x [[<- <-]|[_ Hx]]%lookup_insert_Some; [|by apply H3].
      exact (H3 _ _ Hb).
    + intros k i Hi. destruct (H4 _ _ Hi) as (x & Hx & Hk).
      destruct (decide (bid = i)) as [<-|].
      * rewrite lookup_insert_eq. eexists. split; [done|]. by simplify_eq.
      * exists x. by rewrite lookup_insert_ne.
    + intros k j Hj. destruct (H6 _ _ Hj) as (? & ? & ?). split; [done|]. split; [|done].
      apply lookup_insert_is_Some'. by right.
  - split; cbn; try done.
    + intros k j Hj. by exists j.
    + intros k x Hx. destruct (decide (bid = k)) as [<-|].
      * rewrite lookup_insert_eq. exists now. by simplify_eq.
      * exists (cb_LastHeartbeat x). rewrite lookup_insert_ne, Hx by done. by destruct x.
Qed.

Lemma moved_advances j to out err now :
  canTransition (ej_State j) to = true → advances j (moved j to out err now).
Proof.
  intros Hto. split.
  - by destruct to.
  - apply rtc_once. by destruct to.
  - intros Hterm. unfold canTransition in Hto. apply bool_decide_eq_true in Hterm.
    by rewrite Hterm in Hto.
Qed.

Lemma moved_ok j to out err now :
  canTransition (ej_State j) to = true → job_ok j → job_ok (moved j to out err now).
Proof.
  intros Hto (Ho & He & Hst). unfold job_ok in *.
  destruct (ej_State j), to; try discriminate Hto; cbn; destruct_and?; split_and!;
    first [done | by eauto | intros Hne; first [done|by apply Ho in Hne|by apply He in Hne]].
Qed.

(** A transition, on every branch. *)
Lemma transitionJob_ok id to out err now s :
  service_ok s →
  let '(s', r) := transitionJob id to out err now s in
  service_ok s' ∧ keeps s s' ∧ attempts s' = attempts s ∧
  idempotencyKeys s' = idempotencyKeys s ∧
  match r with
  | Ok j' => jobs s' !! id = Some j' ∧ ej_State j' = to ∧
      ∃ j, jobs s !! id = Some j ∧
        (ej_State j = to ∧ j' = j ∧ s' = s ∨
         canTransition (ej_State j) to = true ∧ j' = moved j to out err now)
  | Err e => s' = s
  end.
Proof.
  intros Hok. unfold transitionJob, mbind, st_bind, get_st.
  destruct (jobs s !! id) as [j|] eqn:Hj; cbn; [|by split].
  destruct (canTransition (ej_State j) to) eqn:Hto; cbn.
  - destruct (put_job_ok s id j (moved j to out err now) Hok Hj) as [Hok' Hk];
      [by apply moved_advances| |].
    + apply moved_ok; [done|]. by apply (ok_jobs _ Hok _ _ Hj).
    + split; [exact Hok'|]. split; [exact Hk|]. do 2 (split; [done|]).
      rewrite lookup_insert_eq. split; [done|]. split; [by destruct to|]. eauto.
  - case_bool_decide as Hst; cbn; [|by split]. do 4 (split; [done|]). eauto 8.
Qed.

Lemma UpdateProgress_ok id step total msg s :
  service_ok s →
  let s' := (UpdateProgress id step total msg s).1 in service_ok s' ∧ keeps s s'.
Proof.
  intros Hok. unfold UpdateProgress, mbind, st_bind, get_st.
  destruct (jobs s !! id) as [j|] eqn:Hj; cbn; [|by split].
  case_bool_decide as Hst; cbn; [|by split].
  apply (put_job_ok s id j _ Hok Hj).
  - split; [done|done|]. unfold terminal. by rewrite Hst.
  - destruct (ok_jobs _ Hok _ _ Hj) as (_ & _ & Ho & He & Hs). unfold job_ok in *.
    cbn. by rewrite Hst in *.
Qed.

(** A change of the attempts only. *)
Lemma attempts_ok s f :
  service_ok s →
  (∀ id l, f (attempts s) !! id = Some l →
     is_Some (jobs s !! id) ∧ ∀ i a, l !! i = Some a → attempt_ok id i a) →
  let s' := s <| attempts ::= f |> in service_ok s' ∧ keeps s s'.
Proof.
  intros [H1 H2 H3 H4 H5 H6 H7 H8 H9] Hf s'. split; [by split|].
  destruct (reflexivity (R := keeps) s) as [K1 K2 K3 K4]. by split.
Qed.

Lemma CreateAttempt_ok id exe now s :
  service_ok s → let s' := (CreateAttempt id exe now s).1 in service_ok s' ∧ keeps s s'.
Proof.
  intros Hok. unfold CreateAttempt, mbind, st_bind, get_st.
  destruct (jobs s !! id) as [j|] eqn:Hj; cbn; [|by split].
  apply attempts_ok; [done|]. intros k l [[<- <-]|[_ Hl]]%lookup_insert_Some;
    [|by apply (ok_attempts _ Hok)].
  split; [done|]. intros i a [Ha|[Hi Ha]]%lookup_app_Some.
  - destruct (attempts s !! id) as [l|] eqn:Hl; [|done].
    by apply (ok_attempts _ Hok _ _ Hl).
  - apply list_lookup_singleton_Some in Ha as [Hlen <-]. unfold attempt_ok; cbn.
    by replace (length (default [] (attempts s !! id))) with i by lia.
Qed.

Lemma fail_last_ok id cat code ended l :
  (∀ i a, l !! i = Some a → attempt_ok id i a) →
  ∀ i a, fail_last cat code ended l !! i = Some a → attempt_ok id i a.
Proof.
  intros Hl i a. unfold fail_last. destruct (decide (pred (length l) = i)) as [<-|Hne].
  - rewrite list_lookup_alter_eq. intros (x & Hx & ->)%fmap_Some. exact (Hl _ _ Hx).
  - rewrite list_lookup_alter_ne by done. apply Hl.
Qed.

Lemma FailJobTyped_ok id cat code err now ended s :
  service_ok s →
  let s' := (FailJobTyped id cat code err now ended s).1 in service_ok s' ∧ keeps s s'.
Proof.
  intros Hok. pose proof (transitionJob_ok id JobStateFailed "" err now s Hok) as Ht.
  unfold FailJobTyped, mbind, st_bind.
  destruct (transitionJob _ _ _ _ _ s) as [s1 [j|e]]; [|by destruct Ht as (? & ? & _)].
  destruct Ht as (Hok1 & Hk1 & _). cbn.
  destruct (attempts_ok s1 (alter (fail_last cat code ended) id) Hok1) as [Hok2 Hk2].
  - intros k l. destruct (decide (id = k)) as [<-|Hne].
    + rewrite lookup_alter_eq. intros (x & Hx & ->)%fmap_Some.
      destruct (ok_attempts _ Hok1 _ _ Hx) as [Hj Hl]. split; [done|]. by apply fail_last_ok.
    + rewrite lookup_alter_ne by done. apply (ok_attempts _ Hok1).
  - split; [exact Hok2|]. by etransitivity.
Qed.

Lemma CreateJob_ok bid ms input now s :
  service_ok s →
  let s' := (CreateJob bid ms input now s).1 in service_ok s' ∧ keeps s s'.
Proof.
  intros Hok. unfold CreateJob, mbind, st_bind, get_st.
  destruct (bindings s !! bid) as [b|] eqn:Hb; [|by split].
  by destruct (add_job_ok s bid ms input now Hok) as (? & ? & _); [rewrite Hb|].
Qed.

(** With a key: a replay returns the job of the key and changes nothing; else a
    job is created and remembered under the key. *)
Lemma CreateJobIdempotent_key_ok bid ms input key now s :
  service_ok s → key ≠ "" →
  let '(s', r) := CreateJobIdempotent bid ms input key now s in
  service_ok s' ∧ keeps s s' ∧
  match r with
  | Ok (j, replay) => idempotencyKeys s' !! key = Some (ej_ID j) ∧ jobs s' !! ej_ID j = Some j ∧
      if replay then s' = s else idempotencyKeys s !! key = None ∧ jobs s !! ej_ID j = None
  | Err e => s' = s
  end.
Proof.
  intros Hok Hkey. unfold CreateJobIdempotent.
  destruct (String.eqb_spec key ""); [done|]. unfold mbind, st_bind, get_st, option_bind.
  destruct (idempotencyKeys s !! key) as [id|] eqn:Hid.
  - destruct (ok_keys _ Hok _ _ Hid) as [j Hj]. rewrite Hj. split; [done|].
    split; [done|]. destruct (ok_jobs _ Hok _ _ Hj) as (-> & _). done.
  - destruct (bindings s !! bid) as [b|] eqn:Hb; [|by cbn; split_and!].
    destruct (add_job_ok s bid ms input now Hok) as (Hok1 & Hk1 & Hr & Hj & Hkeys);
      [by rewrite Hb|].
    destruct (add_job bid ms input now s) as [s1 r]. cbn in Hr, Hok1, Hk1, Hj, Hkeys. subst r. cbn.
    rewrite lookup_insert_eq. split_and!; try done.
    + destruct Hok1 as [H1 H2 H3 H4 H5 H6 H7 H8 H9]. split; cbn; try done.
      intros k i [[<- <-]|[_ Hx]]%lookup_insert_Some; [by rewrite Hj|by eapply H8].
    + destruct Hk1 as [K1 K2 K3 K4]. split; cbn; try done.
      intros k i Hk Hi. rewrite lookup_insert_ne by congruence. by apply K4.
    + by apply next_job_free.
Qed.

Lemma exec_ok q s : service_ok s → service_ok (exec q s) ∧ keeps s (exec q s).
Proof.
  intros Hok. destruct q; cbn [exec].
  - pose proof (Bind_ok orderID milestoneID carrierID capabilities now s Hok) as H.
    destruct (Bind _ _ _ _ _ s). by destruct H as (? & ? & _).
  - by apply Heartbeat_ok.
  - by apply CreateJob_ok.
  - destruct (decide (key = "")) as [->|Hkey].
    + destruct (CreateJob_ok bindingID milestoneID input now s Hok). unfold CreateJobIdempotent.
      cbn. unfold mbind, st_bind in *. by destruct (CreateJob _ _ _ _ s) as [? [?|?]].
    + pose proof (CreateJobIdempotent_key_ok bindingID milestoneID input key now s Hok Hkey) as H.
      destruct (CreateJobIdempotent _ _ _ _ _ s). by destruct H as (? & ? & _).
  - pose proof (transitionJob_ok jobID to output errMsg now s Hok) as H.
    destruct (transitionJob _ _ _ _ _ s). by destruct H as (? & ? & _).
  - by apply UpdateProgress_ok.
  - by apply CreateAttempt_ok.
  - by apply FailJobTyped_ok.
Qed.

Lemma exec_all_ok qs s : service_ok s → service_ok (exec_all qs s) ∧ keeps s (exec_all qs s).
Proof.
  revert s. induction qs as [|q qs IH]; intros s Hok; [by split|].
  destruct (exec_ok q s Hok) as [Hok1 Hk1]. destruct (IH _ Hok1) as [Hok2 Hk2].
  split; [done|]. by etransitivity.
Qed.

Lemma exec_all_app qs qs' s : exec_all (qs ++ qs') s = exec_all qs' (exec_all qs s).
Proof. apply foldl_app. Qed.

(** The service after some calls. *)
Abbreviation after qs := (exec_all qs NewService).

Lemma after_ok qs : service_ok (after qs).
Proof. apply exec_all_ok, NewService_ok. Qed.

(** ** Properties *)

(** C33.  Jobs only progress.  Whatever calls are made of the service, a job keeps
    its identity and input, its state moves along the allowed transitions only, a
    completed, failed or cancelled job is never touched again, and its output,
    error and times always fit its state. *)
Theorem jobs_only_progress qs qs' id j :
  jobs (after qs) !! id = Some j →
  ∃ j', jobs (exec_all qs' (after qs)) !! id = Some j' ∧ advances j j' ∧ job_ok j'.
Proof.
  intros Hj. destruct (exec_all_ok qs' _ (after_ok qs)) as [Hok Hk].
  destruct (keeps_jobs _ _ Hk _ _ Hj) as (j' & Hj' & Hadv). exists j'.
  split; [done|]. split; [done|]. by apply (ok_jobs _ Hok _ _ Hj').
Qed.

(** A carrier is bound, a job fails after two attempts, a second one runs. *)
Definition carrier_session : list op :=
  [OpBind "ord_1" "ms_1" "carrier" ["codeagent"] 10;
   OpCreateJobIdempotent "bind_1" "ms_1" "build" "key" 11;
   OpTransition "job_1" JobStateRunning "" "" 12;
   OpCreateAttempt "job_1" "exec_1" 13; OpCreateAttempt "job_1" "exec_2" 14;
   OpFailTyped "job_1" FailureCategoryTimeout "504" "gateway timeout" 15 16].
Definition carrier_retry : list op :=
  [OpTransition "job_1" JobStateCompleted "late" "" 17;
   OpCreateJob "bind_1" "ms_1" "again" 18; OpTransition "job_2" JobStateRunning "" "" 19].

Lemma jobs_only_progress_witness :
  ∃ j, jobs (after carrier_session) !! "job_1" = Some j ∧ ej_State j = JobStateFailed ∧
       jobs (exec_all carrier_retry (after carrier_session)) !! "job_1" = Some j.
Proof.
  eexists. split; [vm_compute; reflexivity|]. split; [reflexivity|].
  edestruct (jobs_only_progress carrier_session carrier_retry "job_1") as (j' & Hj' & Hadv & _);
    [vm_compute; reflexivity|].
  rewrite Hj'. f_equal. by apply (adv_final _ _ Hadv).
Defined.

(**  [ListJobs] lists exactly the jobs of the binding, in the order of their
    creation, and the attempts of a job are numbered from one without gaps. *)
Theorem listings_are_complete qs bid :
  let s := after qs in
  ListJobs bid s =
    Ok (filter (λ j, ej_BindingID j = bid) (omap (λ id, jobs s !! id) (job_ids s))) ∧
  (∀ jobID i a, ListAttempts jobID s !! i = Some a →
     is_Some (jobs s !! jobID) ∧ attempt_ok jobID i a).
Proof.
  intros s. pose proof (after_ok qs) as Hok. fold s in Hok. split.
  - unfold ListJobs. rewrite (ok_listed _ Hok). f_equal.
    induction (job_ids s) as [|id l IH]; [done|]. rewrite filter_cons. cbn [omap list_omap].
    destruct (decide (bound_to s bid id)) as [Hb|Hb]; unfold bound_to in Hb.
    + apply fmap_Some in Hb as (j & Hj & Hb). cbn. rewrite Hj, filter_cons.
      by rewrite decide_True, IH.
    + rewrite IH. destruct (jobs s !! id) as [j|]; [|done].
      rewrite filter_cons, decide_False; [done|]. cbn in Hb. congruence.
  - intros jobID i a. unfold ListAttempts. destruct (attempts s !! jobID) as [l|] eqn:Hl; [|done].
    destruct (ok_attempts _ Hok _ _ Hl) as [Hj Ha]. intros Hi. by split; [|apply Ha].
Qed.

(**  A milestone has one carrier.  Once a carrier is bound to a milestone of
    an order, every further binding of it is refused without effect, whatever has
    happened since, and the binding found is the first one, its heartbeat
    apart. *)
Theorem one_carrier_per_milestone qs qs' orderID milestoneID carrierID caps now s b :
  Bind orderID milestoneID carrierID caps now (after qs) = (s, Ok b) →
  let s' := exec_all qs' s in
  (∀ c caps' t, Bind orderID milestoneID c caps' t s' = (s', Err ErrBindingExists)) ∧
  ∃ t, GetBinding orderID milestoneID s' = Ok (b <| cb_LastHeartbeat := t |>) ∧
       cb_CarrierID b = carrierID.
Proof.
  intros Hb s'. pose proof (Bind_ok orderID milestoneID carrierID caps now _ (after_ok qs)) as H.
  rewrite Hb in H. destruct H as (Hok & _ & _ & -> & Hget & Hidx).
  destruct (exec_all_ok qs' s Hok) as [_ Hk]. fold s' in Hk.
  pose proof (keeps_index _ _ Hk _ _ Hidx) as Hidx'.
  destruct (keeps_bindings _ _ Hk _ _ Hget) as [t Ht]. split.
  - intros c caps' t'. unfold Bind, mbind, st_bind, get_st. by rewrite Hidx'.
  - exists t. unfold GetBinding. rewrite Hidx', Ht. done.
Qed.

Lemma one_carrier_per_milestone_witness :
  ∃ t, GetBinding "ord_1" "ms_2"
    (exec_all [OpHeartbeat "bind_2" 30; OpBind "ord_1" "ms_2" "other" [] 31]
       (Bind "ord_1" "ms_2" "carrier" [] 20 (after carrier_session)).1) =
    Ok (mkBinding "bind_2" "carrier" "ord_1" "ms_2" [] 20 t).
Proof.
  edestruct (one_carrier_per_milestone carrier_session
    [OpHeartbeat "bind_2" 30; OpBind "ord_1" "ms_2" "other" [] 31] "ord_1" "ms_2" "carrier" [] 20)
    as [_ (t & Ht & _)]; [apply run_at; [reflexivity|vm_compute; reflexivity]|].
  exists t. exact Ht.
Defined.

(**  Creating a job is idempotent.  After a creation under a key, any later
    creation under it, for whatever binding and input and whatever has happened
    since, changes nothing and returns that same job as a replay. *)
Theorem creation_is_idempotent qs qs' bid ms input key now s j replay :
  key ≠ "" → CreateJobIdempotent bid ms input key now (after qs) = (s, Ok (j, replay)) →
  let s' := exec_all qs' s in
  ∃ j', advances j j' ∧ ∀ bid' ms' input' t,
    CreateJobIdempotent bid' ms' input' key t s' = (s', Ok (j', true)).
Proof.
  intros Hkey Hc s'.
  pose proof (CreateJobIdempotent_key_ok bid ms input key now _ (after_ok qs) Hkey) as H.
  rewrite Hc in H. destruct H as (Hok & _ & Hk & Hj & _).
  destruct (exec_all_ok qs' s Hok) as [Hok' Hkeeps]. fold s' in Hok', Hkeeps.
  assert (Hsome : is_Some (jobs s !! ej_ID j)) by eauto.
  pose proof (keeps_keys _ _ Hkeeps _ _ Hk Hsome) as Hk'.
  destruct (keeps_jobs _ _ Hkeeps _ _ Hj) as (j' & Hj' & Hadv). exists j'.
  split; [done|]. intros bid' ms' input' t. unfold CreateJobIdempotent.
  destruct (String.eqb_spec key ""); [done|]. unfold mbind, st_bind, get_st, option_bind.
  by rewrite Hk', Hj'.
Qed.

Lemma creation_is_idempotent_witness :
  ∃ j, (CreateJobIdempotent "bind_9" "ms_1" "other" "k2" 40
     (exec_all [OpTransition "job_2" JobStateCancelled "" "" 22]
        (CreateJobIdempotent "bind_1" "ms_1" "more" "k2" 21 (after carrier_session)).1)).2 =
   Ok (j, true).
Proof.
  edestruct (creation_is_idempotent carrier_session
    [OpTransition "job_2" JobStateCancelled "" "" 22] "bind_1" "ms_1" "more" "k2" 21)
    as (j' & _ & H); [done|apply run_at; [reflexivity|vm_compute; reflexivity]|].
  exists j'. by rewrite H.
Defined.

(** A failure delivered twice is reclassified.  A job that has failed accepts
    another typed failure, since a transition to its own state succeeds: the job
    keeps its first error message, but its last attempt takes the second category,
    code and end time. *)
Example failure_is_reclassified :
  let again := (FailJobTyped "job_1" FailureCategoryProviderFault "500" "crash" 20 21
                  (after carrier_session)) in
  let last s := ea_FailureCategory <$> list.last (ListAttempts "job_1" s) in
  is_ok again.2 = true ∧
  last (after carrier_session) = Some "timeout" ∧
  last again.1 = Some "provider_fault" ∧
  (ej_ErrorMessage <$> jobs again.1 !! "job_1") = Some "gateway timeout".
Proof. vm_compute. repeat split. Qed.
