(* ===== verification/CarrierEvents.v ===== *)
(** * Carrier callbacks: the event ledger and the evidence store
    (internal/carrier/ledger.go, evidence.go, profile.go, normalize.go)

    The ledger keeps each event once, on the heap: the list of an execution and
    the index by event id hold pointers to the same cell, so that a decision
    recorded later is seen through both.  The heap is part of the state here and
    a pointer is the number of its cell, [None] being nil. *)

From S2P Require Import Prelude GoNum GoText.
From Stdlib Require Import Ascii.

Abbreviation Time := Z (only parsing).

(** ** The event ledger *)

Record ExecutionEvent := mkExecutionEvent {
  ev_ID : string;
  ev_ExecutionID : string;
  ev_EventID : string;
  ev_Sequence : Z;
  ev_EventType : string;
  ev_AttemptID : string;
  ev_PayloadJSON : string;
  ev_DecisionJSON : string;
  ev_ReceivedAt : Time;
}.
#[export] Instance ExecutionEvent_eta : Eta ExecutionEvent := λ e,
  mkExecutionEvent (ev_ID e) (ev_ExecutionID e) (ev_EventID e) (ev_Sequence e)
    (ev_EventType e) (ev_AttemptID e) (ev_PayloadJSON e) (ev_DecisionJSON e)
    (ev_ReceivedAt e).
(** [ExecutionEvent{}] *)
Definition zero_event : ExecutionEvent := mkExecutionEvent "" "" "" 0 "" "" "" "" 0.

Abbreviation pointer := (option nat) (only parsing).

Record EventLedger := mkEventLedger {
  el_seq : Z;
  el_heap : list ExecutionEvent;
  el_events : gmap string (list pointer);
  el_eventIndex : gmap string pointer;
  el_lastSequence : gmap string Z;
}.
#[export] Instance EventLedger_eta : Eta EventLedger := λ l,
  mkEventLedger (el_seq l) (el_heap l) (el_events l) (el_eventIndex l) (el_lastSequence l).

Definition NewEventLedger : EventLedger := mkEventLedger 0 [] ∅ ∅ ∅.

(** [*p] of a pointer that is not nil. *)
Definition deref (l : EventLedger) (p : nat) : ExecutionEvent :=
  default zero_event (el_heap l !! p).

Definition LastSequence (executionID : string) (l : EventLedger) : Z :=
  default 0 (el_lastSequence l !! executionID).

(** [EventLedger.Record]; [now] is its reading of the clock. *)
Definition RecordEvent (executionID eventID : string) (sequence : Z)
    (eventType attemptID payloadJSON decisionJSON : string) (now : Time)
    : ST EventLedger (ExecutionEvent * bool) :=
  l ← get_st;
  match el_eventIndex l !! eventID with
  | Some (Some prev) => mret (deref l prev, true)
  | Some None => mret (zero_event, true)
  | None =>
      let lastSeq := LastSequence executionID l in
      _ ← fail_if ((0 <? lastSeq) && (sequence <=? lastSeq))
            (EWrap ErrEventReorder ("got " +:+ pretty sequence +:+
               ", last was " +:+ pretty lastSeq));
      _ ← fail_if ((0 <? lastSeq) && (lastSeq +w 1 <? sequence))
            (EWrap ErrEventGap ("got " +:+ pretty sequence +:+
               ", expected " +:+ pretty (lastSeq +w 1)));
      let seq := el_seq l + 1 in
      let event := mkExecutionEvent ("evt_" +:+ pretty seq) executionID eventID sequence
        eventType attemptID payloadJSON decisionJSON now in
      let p := length (el_heap l) in
      _ ← modify (λ l, l
            <| el_seq := seq |>
            <| el_heap ::= (λ h, h ++ [event]) |>
            <| el_events ::=
                 (λ m, <[executionID := default [] (m !! executionID) ++ [Some p]]> m) |>
            <| el_eventIndex ::= <[eventID := Some p]> |>
            <| el_lastSequence ::= <[executionID := sequence]> |>);
      mret (event, false)
  end.

(** [EventLedger.List] *)
Definition ListEvents (executionID : string) (l : EventLedger) : list ExecutionEvent :=
  deref l <$> omap id (default [] (el_events l !! executionID)).

Definition UpdateDecision (eventID decisionJSON : string) : ST EventLedger () :=
  l ← get_st;
  match el_eventIndex l !! eventID with
  | Some (Some p) => modify (λ l, l
      <| el_heap ::= alter (λ e, e <| ev_DecisionJSON := decisionJSON |>) p |>)
  | _ => mret tt
  end.

(** ** The evidence store *)

Record Artifact := mkArtifact {
  ar_Name : string;
  ar_Type : string;
  ar_URL : string;
  ar_SizeBytes : Z;
}.

Record UsageReport := mkUsageReport {
  ur_TokenCount : Z;
  ur_StepCount : Z;
  ur_APICallCount : Z;
  ur_TotalCostCents : Z;
}.

Record EvidencePackage := mkEvidencePackage {
  ep_ID : string;
  ep_JobID : string;
  ep_BindingID : string;
  ep_Summary : string;
  ep_Artifacts : list Artifact;
  ep_UsageReport : option UsageReport;
  ep_SubmittedAt : Time;
}.

Record EvidenceStore := mkEvidenceStore {
  es_seq : Z;
  es_data : gmap string EvidencePackage;
}.
#[export] Instance EvidenceStore_eta : Eta EvidenceStore := λ s,
  mkEvidenceStore (es_seq s) (es_data s).

Definition NewEvidenceStore : EvidenceStore := mkEvidenceStore 0 ∅.

(** [EvidenceStore.Submit] and [Get] *)
Definition SubmitEvidence (jobID bindingID summary : string) (artifacts : list Artifact)
    (usage : option UsageReport) (now : Time) : ST EvidenceStore EvidencePackage :=
  s ← get_st;
  match es_data s !! jobID with
  | Some _ => throw (Errf ("evidence already submitted for job " +:+ jobID))
  | None =>
      let seq := es_seq s + 1 in
      let pkg := mkEvidencePackage ("ev_" +:+ pretty seq) jobID bindingID summary artifacts
        usage now in
      _ ← modify (λ s, s <| es_seq := seq |> <| es_data ::= <[jobID := pkg]> |>);
      mret pkg
  end.

Definition GetEvidence (jobID : string) (s : EvidenceStore) : result EvidencePackage :=
  match es_data s !! jobID with
  | Some pkg => Ok pkg
  | None => Err (Errf ("no evidence for job " +:+ jobID))
  end.

(** ** Execution profiles *)

Record ExecutionProfile := mkExecutionProfile {
  ep_ProfileID : string;
  ep_Name : string;
  ep_CarrierID : string;
  ep_Host : string;
  ep_Agent : string;
  ep_Backend : string;
  ep_Workspace : string;
  ep_Environment : gmap string string;
  ep_MaxTimeout : string;
}.

(** [ProfileRegistry] and its methods. *)
Definition ProfileRegistry : Type := gmap string ExecutionProfile.
Definition RegisterProfile (profile : ExecutionProfile) (r : ProfileRegistry) : ProfileRegistry :=
  <[ep_ProfileID profile := profile]> r.
Definition GetProfile (id : string) (r : ProfileRegistry) : option ExecutionProfile := r !! id.
Definition ListProfiles `{MO : MapOrder} (carrierID : string) (r : ProfileRegistry)
    : list ExecutionProfile :=
  List.filter (λ p, String.eqb carrierID "" || String.eqb (ep_CarrierID p) carrierID)
    (snd <$> map_order (map_to_list r)).
Definition DeleteProfile (id : string) (r : ProfileRegistry) : ProfileRegistry := delete id r.

(** ** Event names *)

Definition canonicalEventNames : list (string * string) :=
  [("execution_accepted", "execution.accepted");
   ("execution_started", "execution.started");
   ("execution_heartbeat", "execution.heartbeat");
   ("execution_completed", "execution.completed");
   ("execution_failed", "execution.failed");
   ("execution_paused", "execution.paused");
   ("execution_resumed", "execution.resumed");
   ("execution_pause_requested", "execution.pause_requested");
   ("milestone_started", "milestone.started");
   ("milestone_ready", "milestone.ready");
   ("usage_reported", "usage.reported");
   ("artifact_ready", "artifact.ready");
   ("budget_low", "budget.low")].

(** [strings.ReplaceAll(name, "_", ".")] *)
Fixpoint dotted (name : string) : string :=
  match name with
  | EmptyString => EmptyString
  | String c name => String (if Ascii.eqb c "_" then "." else c)%char (dotted name)
  end.

Definition NormalizeEventName (name : string) : string :=
  match List.find (λ '(legacy, _), String.eqb legacy name) canonicalEventNames with
  | Some (_, canonical) => canonical
  | None => if Contains name "." then name else dotted name
  end.

(** ** Runs of the ledger *)

Inductive ledger_op :=
  | OpRecord (executionID eventID : string) (sequence : Z)
      (eventType attemptID payloadJSON decisionJSON : string) (now : Time)
  | OpDecide (eventID decisionJSON : string).

Definition record_op (q : ledger_op) (l : EventLedger) : EventLedger :=
  match q with
  | OpRecord x id s ty att pay dec now => (RecordEvent x id s ty att pay dec now l).1
  | OpDecide id dec => (UpdateDecision id dec l).1
  end.
Definition record_all (qs : list ledger_op) (l : EventLedger) : EventLedger :=
  foldl (λ l q, record_op q l) l qs.

(** What never changes of an event: execution, event id, sequence. *)
Definition key_of (e : ExecutionEvent) : string * string * Z :=
  (ev_ExecutionID e, ev_EventID e, ev_Sequence e).
Definition keys (l : EventLedger) : list (string * string * Z) := key_of <$> el_heap l.
Definition of_execution (x : string) (ks : list (string * string * Z)) (n : nat) : Prop :=
  (λ k, k.1.1) <$> ks !! n = Some x.
#[export] Instance of_execution_dec x ks n : Decision (of_execution x ks n).
Proof. unfold of_execution. apply _. Defined.
Definition cells (x : string) (ks : list (string * string * Z)) : list nat :=
  filter (of_execution x ks) (seq 0 (length ks)).
Definition sequences (x : string) (ks : list (string * string * Z)) : list Z :=
  omap (λ k, if decide (k.1.1 = x) then Some k.2 else None) ks.

(** Each number follows the one before, once that one is positive. *)
Definition gapless (ss : list Z) : Prop :=
  ∀ i a b, ss !! i = Some a → ss !! S i = Some b → 0 < a → b = a + 1.

Record ledger_ok (l : EventLedger) : Prop := {
  lk_events : ∀ x, default [] (el_events l !! x) = Some <$> cells x (keys l);
  lk_index : ∀ id p, el_eventIndex l !! id = Some p ↔
    ∃ n k, p = Some n ∧ keys l !! n = Some k ∧ k.1.2 = id;
  lk_last : ∀ x, LastSequence x l = default 0 (list.last (sequences x (keys l)));
  lk_gapless : ∀ x, gapless (sequences x (keys l));
}.

Lemma of_execution_app x ks k n :
  n ∈ seq 0 (length ks) → of_execution x (ks ++ [k]) n ↔ of_execution x ks n.
Proof.
  intros Hn%elem_of_seq. unfold of_execution. rewrite lookup_app_l by lia. done.
Qed.

Lemma cells_app x ks k :
  cells x (ks ++ [k]) = cells x ks ++ (if decide (k.1.1 = x) then [length ks] else []).
Proof.
  unfold cells. rewrite length_app. cbn [length]. rewrite seq_app, filter_app.
  rewrite (list_filter_ext (of_execution x (ks ++ [k])) (of_execution x ks) (seq 0 (length ks)))
    by (intros n Hn; by apply of_execution_app).
  f_equal. cbn [seq Nat.add]. rewrite filter_cons, filter_nil. apply decide_ext.
  unfold of_execution. rewrite list_lookup_middle by done. cbn. clear. naive_solver.
Qed.

Lemma sequences_app x ks k :
  sequences x (ks ++ [k]) = sequences x ks ++ (if decide (k.1.1 = x) then [k.2] else []).
Proof. unfold sequences. rewrite omap_app. cbn. by destruct (decide (k.1.1 = x)). Qed.

Lemma gapless_snoc ss s :
  gapless ss → (∀ a, list.last ss = Some a → 0 < a → s = a + 1) → gapless (ss ++ [s]).
Proof.
  intros Hg Hs i a b Ha Hb Hpos. apply lookup_app_Some in Hb as [Hb|[Hi Hb]].
  - rewrite lookup_app_l in Ha by (apply lookup_lt_Some in Hb; lia). by eapply Hg.
  - apply list_lookup_singleton_Some in Hb as [Hi' <-].
    rewrite lookup_app_l in Ha by lia. apply Hs; [|done].
    rewrite last_lookup. by replace (pred (length ss)) with i by lia.
Qed.

(** A list by the addresses of its cells. *)
Lemma deref_cells (h : list ExecutionEvent) x :
  (λ n, default zero_event (h !! n)) <$> cells x (key_of <$> h) =
  filter (λ e, ev_ExecutionID e = x) h.
Proof.
  induction h as [|e h IH] using rev_ind; [done|].
  rewrite fmap_app, filter_app, <- IH. cbn [fmap list_fmap]. rewrite cells_app, fmap_app.
  f_equal.
  - apply list_fmap_ext. intros i n Hn. rewrite lookup_app_l; [done|].
    apply list_elem_of_lookup_2, list_elem_of_filter in Hn as [_ Hn%elem_of_seq].
    rewrite length_fmap in Hn. lia.
  - rewrite filter_cons, filter_nil. cbn [key_of fst]. destruct (decide _); [|done].
    cbn. by rewrite length_fmap, list_lookup_middle.
Qed.

Lemma ListEvents_spec l x :
  ledger_ok l → ListEvents x l = filter (λ e, ev_ExecutionID e = x) (el_heap l).
Proof.
  intros Hok. unfold ListEvents. rewrite (lk_events _ Hok), <- deref_cells.
  unfold deref, keys. f_equal. generalize (cells x (key_of <$> el_heap l)).
  intros ns. induction ns as [|n ns IH]; [done|]. cbn. by f_equal.
Qed.

Lemma NewEventLedger_ok : ledger_ok NewEventLedger.
Proof.
  split; cbn; try done.
  intros id p. split; [done|]. by intros (n & k & _ & Hk & _).
Qed.

(** The checks of [RecordEvent] let through exactly the next number. *)
Lemma next_sequence last s :
  0 < last → (0 <? last) && (s <=? last) = false →
  (0 <? last) && (last +w 1 <? s) = false → s = last + 1.
Proof.
  intros Hpos. destruct (Z.ltb_spec 0 last); [|lia]. cbn.
  intros H1%Z.leb_gt H2%Z.ltb_ge. unfold add64 in H2.
  pose proof (wrap64_in64 (last + 1)) as Hw. unfold in64 in Hw.
  destruct (decide (in64 (last + 1))) as [Hin|Hout].
  - rewrite wrap64_id in H2 by done. lia.
  - in64_lia.
Qed.

(** A ledger with one more event. *)
Lemma append_ok l e :
  ledger_ok l → el_eventIndex l !! ev_EventID e = None →
  (0 < LastSequence (ev_ExecutionID e) l →
   ev_Sequence e = LastSequence (ev_ExecutionID e) l + 1) →
  let x := ev_ExecutionID e in let p := length (el_heap l) in
  ledger_ok (l
    <| el_heap ::= (λ h, h ++ [e]) |>
    <| el_events ::= (λ m, <[x := default [] (m !! x) ++ [Some p]]> m) |>
    <| el_eventIndex ::= <[ev_EventID e := Some p]> |>
    <| el_lastSequence ::= <[x := ev_Sequence e]> |>).
Proof.
  intros [H1 H2 H3 H4] Hnew Hseq x p.
  lazymatch goal with |- ledger_ok ?l0 => set (l' := l0) end.
  assert (Hkeys : keys l' = keys l ++ [key_of e]) by (unfold keys; by rewrite <- fmap_snoc).
  assert (He : el_events l' = <[x := default [] (el_events l !! x) ++ [Some p]]> (el_events l))
    by done.
  assert (Hi : el_eventIndex l' = <[ev_EventID e := Some p]> (el_eventIndex l)) by done.
  assert (Hl : el_lastSequence l' = <[x := ev_Sequence e]> (el_lastSequence l)) by done.
  assert (Hp : p = length (keys l)) by (unfold keys; by rewrite length_fmap).
  split; rewrite ?Hkeys, ?He, ?Hi.
  - intros y. rewrite cells_app, fmap_app, <- H1. cbn [key_of fst].
    destruct (decide (ev_ExecutionID e = y)) as [<-|Hne].
    + rewrite lookup_insert_eq. cbn. by rewrite Hp.
    + rewrite lookup_insert_ne by done. by rewrite app_nil_r.
  - intros id q. rewrite lookup_insert_Some. split.
    + intros [[<- <-]|[Hne (n & k & -> & Hk & <-)%H2]].
      * exists p, (key_of e). rewrite Hp, list_lookup_middle by done. done.
      * exists n, k. rewrite lookup_app_l by (by eapply lookup_lt_Some). done.
    + intros (n & k & -> & [Hk|[Hn Hk]]%lookup_app_Some & <-).
      * assert (Hold : el_eventIndex l !! k.1.2 = Some (Some n)) by (apply H2; eauto).
        right. split; [congruence|done].
      * apply list_lookup_singleton_Some in Hk as [Hn' <-]. left. split; [done|].
        f_equal. lia.
  - intros y. rewrite sequences_app. unfold LastSequence. rewrite Hl.
    cbn [key_of fst snd].
    destruct (decide (ev_ExecutionID e = y)) as [<-|Hne].
    + by rewrite lookup_insert_eq, last_snoc.
    + rewrite lookup_insert_ne, app_nil_r by done. apply H3.
  - intros y. rewrite sequences_app. cbn [key_of fst snd].
    destruct (decide (ev_ExecutionID e = y)) as [<-|Hne]; [|by rewrite app_nil_r].
    apply gapless_snoc; [apply H4|]. intros a Ha Hpos.
    specialize (H3 (ev_ExecutionID e)). rewrite Ha in H3. cbn in H3. rewrite H3 in Hseq.
    by apply Hseq.
Qed.

Lemma ledger_ok_seq l n : ledger_ok l → ledger_ok (l <| el_seq := n |>).
Proof. by intros [H1 H2 H3 H4]. Qed.

(** [RecordEvent] on every branch. *)
Lemma RecordEvent_ok x id s ty att pay dec now l :
  ledger_ok l →
  let '(l', r) := RecordEvent x id s ty att pay dec now l in
  ledger_ok l' ∧
  match r with
  | Ok (e, true) => l' = l ∧ e ∈ el_heap l ∧ ev_EventID e = id
  | Ok (e, false) => el_eventIndex l !! id = None ∧ el_heap l' = el_heap l ++ [e] ∧
      key_of e = (x, id, s)
  | Err e => l' = l ∧ el_eventIndex l !! id = None ∧ 0 < LastSequence x l ∧
      (in64 s → s ≠ LastSequence x l + 1)
  end.
Proof.
  intros Hok. unfold RecordEvent, mbind, st_bind, get_st.
  destruct (el_eventIndex l !! id) as [p|] eqn:Hid.
  - apply (lk_index _ Hok) in Hid as (n & k & -> & Hk & Hkid). cbn.
    apply list_lookup_fmap_Some in Hk as (e & -> & He). split; [done|]. split; [done|].
    unfold deref. rewrite He. split; [by eapply list_elem_of_lookup_2|done].
  - destruct ((0 <? LastSequence x l) && (s <=? LastSequence x l)) eqn:Hc1; cbn.
    { apply andb_true_iff in Hc1 as [H1%Z.ltb_lt H2%Z.leb_le]. split_and!; done || lia. }
    destruct ((0 <? LastSequence x l) && (LastSequence x l +w 1 <? s)) eqn:Hc2; cbn.
    { apply andb_true_iff in Hc2 as [H1%Z.ltb_lt H2%Z.ltb_lt]. split_and!; try done.
      intros Hs ->. by rewrite add64_exact in H2 by done; lia. }
    split; [|done].
    refine (append_ok _ (mkExecutionEvent _ x id s ty att pay dec now)
      (ledger_ok_seq l (el_seq l + 1) Hok) Hid _).
    intros Hpos. by apply next_sequence.
Qed.

(** Only decisions change, cell by cell. *)
Definition redecided (e e' : ExecutionEvent) : Prop :=
  e' = e <| ev_DecisionJSON := ev_DecisionJSON e' |>.

Lemma redecided_key e e' : redecided e e' → key_of e' = key_of e.
Proof. intros ->. done. Qed.

#[export] Instance redecided_preorder : PreOrder redecided.
Proof.
  split; [by intros []|]. unfold redecided. intros a b c Hb Hc.
  rewrite Hb in Hc. cbn in Hc. exact Hc.
Qed.

Definition evolves (l l' : EventLedger) : Prop :=
  ∀ n e, el_heap l !! n = Some e → ∃ e', el_heap l' !! n = Some e' ∧ redecided e e'.

#[export] Instance evolves_preorder : PreOrder evolves.
Proof.
  split; [intros l n e H; by exists e|]. intros a b c H1 H2 n e He.
  destruct (H1 _ _ He) as (e1 & He1 & Hr1). destruct (H2 _ _ He1) as (e2 & He2 & Hr2).
  exists e2. split; [done|by etransitivity].
Qed.

Lemma ledger_ok_heap l g :
  ledger_ok l → key_of <$> g (el_heap l) = keys l → ledger_ok (l <| el_heap ::= g |>).
Proof.
  intros [H1 H2 H3 H4] Hkeys.
  assert (Heq : keys (l <| el_heap ::= g |>) = keys l) by done.
  by split; rewrite ?Heq.
Qed.

Lemma indexed l n e :
  ledger_ok l → el_heap l !! n = Some e → el_eventIndex l !! ev_EventID e = Some (Some n).
Proof.
  intros Hok He. apply (lk_index _ Hok). exists n, (key_of e). unfold keys.
  by rewrite list_lookup_fmap, He.
Qed.

(** [UpdateDecision]: the cell of the event, if there is one. *)
Definition decided (id dec : string) (e : ExecutionEvent) : ExecutionEvent :=
  if decide (ev_EventID e = id) then e <| ev_DecisionJSON := dec |> else e.

Lemma decided_redecided id dec e : redecided e (decided id dec e).
Proof. unfold decided, redecided. destruct (decide _); [done|]. by destruct e. Qed.

Lemma decided_cell l n id dec :
  ledger_ok l → el_eventIndex l !! id = Some (Some n) →
  alter (λ e, e <| ev_DecisionJSON := dec |>) n (el_heap l) = decided id dec <$> el_heap l.
Proof.
  intros Hok Hid. apply list_eq. intros i. rewrite list_lookup_fmap. unfold decided.
  destruct (decide (n = i)) as [<-|Hne].
  - rewrite list_lookup_alter_eq. destruct (el_heap l !! n) as [e|] eqn:He; [|done]. cbn.
    apply (lk_index _ Hok) in Hid as (m & k & [= <-] & Hk & Hkid). unfold keys in Hk.
    rewrite list_lookup_fmap, He in Hk. injection Hk as <-. by rewrite decide_True.
  - rewrite list_lookup_alter_ne by done. destruct (el_heap l !! i) as [e|] eqn:He; [|done].
    cbn. rewrite decide_False; [done|]. intros Hev.
    pose proof (indexed _ _ _ Hok He). congruence.
Qed.

Lemma UpdateDecision_ok id dec l :
  ledger_ok l →
  let l' := (UpdateDecision id dec l).1 in
  ledger_ok l' ∧ evolves l l' ∧ el_heap l' = decided id dec <$> el_heap l.
Proof.
  intros Hok l'. assert (Hheap : el_heap l' = decided id dec <$> el_heap l).
  { unfold l', UpdateDecision, mbind, st_bind, get_st.
    destruct (el_eventIndex l !! id) as [p|] eqn:Hid.
    - destruct (proj1 (lk_index _ Hok _ _) Hid) as (n & _ & -> & _).
      by apply decided_cell.
    - symmetry. apply list_eq. intros i. rewrite list_lookup_fmap.
      destruct (el_heap l !! i) as [e|] eqn:He; [|done]. cbn. unfold decided.
      rewrite decide_False; [done|]. intros Hev.
      pose proof (indexed _ _ _ Hok He). congruence. }
  assert (Hkeys : key_of <$> el_heap l' = keys l).
  { rewrite Hheap. unfold keys. rewrite <- list_fmap_compose. apply list_fmap_ext.
    intros i e _. apply redecided_key, decided_redecided. }
  split; [|split; [|done]].
  - unfold l', UpdateDecision, mbind, st_bind, get_st in *.
    destruct (el_eventIndex l !! id) as [[p|]|]; [|done..].
    by apply ledger_ok_heap.
  - intros n e He. rewrite Hheap, list_lookup_fmap, He. eexists.
    split; [done|apply decided_redecided].
Qed.

Lemma RecordEvent_evolves x id s ty att pay dec now l :
  ledger_ok l → evolves l (RecordEvent x id s ty att pay dec now l).1.
Proof.
  intros Hok. pose proof (RecordEvent_ok x id s ty att pay dec now l Hok) as H.
  destruct (RecordEvent _ _ _ _ _ _ _ _ l) as [l' r]. destruct H as [_ H].
  destruct r as [[e []]|e]; [by destruct H as [-> _]| |by destruct H as [-> _]].
  destruct H as (_ & Hheap & _). intros n e' He. cbn. exists e'. rewrite Hheap.
  split; [by apply lookup_app_l_Some|done].
Qed.

Lemma record_all_ok qs l :
  ledger_ok l → ledger_ok (record_all qs l) ∧ evolves l (record_all qs l).
Proof.
  revert l. induction qs as [|q qs IH]; intros l Hok; [by split|].
  assert (Hq : ledger_ok (record_op q l) ∧ evolves l (record_op q l)).
  { destruct q; cbn [record_op].
    - pose proof (RecordEvent_ok executionID eventID sequence eventType attemptID payloadJSON
        decisionJSON now l Hok) as H.
      pose proof (RecordEvent_evolves executionID eventID sequence eventType attemptID
        payloadJSON decisionJSON now l Hok).
      destruct (RecordEvent _ _ _ _ _ _ _ _ l). by destruct H.
    - by destruct (UpdateDecision_ok eventID decisionJSON l Hok) as (? & ? & _). }
  destruct Hq as [Hok1 Hev1]. destruct (IH _ Hok1) as [Hok2 Hev2].
  split; [done|by etransitivity].
Qed.

Abbreviation recorded qs := (record_all qs NewEventLedger).
Lemma recorded_ok qs : ledger_ok (recorded qs).
Proof. apply record_all_ok, NewEventLedger_ok. Qed.

Lemma sequences_listed l x :
  ledger_ok l → ev_Sequence <$> ListEvents x l = sequences x (keys l).
Proof.
  intros Hok. rewrite (ListEvents_spec _ _ Hok). unfold sequences, keys.
  induction (el_heap l) as [|e h IH]; [done|]. rewrite filter_cons. cbn.
  destruct (decide (ev_ExecutionID e = x)); cbn; by rewrite IH.
Qed.

(** *** Event names *)

Lemma dotted_no_underscore s : has_byte "_" (dotted s) = false.
Proof.
  induction s as [|c s IH]; [done|]. cbn [dotted has_byte].
  destruct (Ascii.eqb_spec c "_") as [->|Hc]; cbn; [done|].
  destruct (Ascii.eqb_spec c "_"); [done|]. by rewrite ?orb_false_l, IH.
Qed.

Lemma dotted_id s : has_byte "_" s = false → dotted s = s.
Proof.
  induction s as [|c s IH]; [done|]. cbn [dotted has_byte].
  intros [Hc Hs]%orb_false_iff. destruct (Ascii.eqb_spec c "_") as [->|]; [done|].
  by rewrite IH.
Qed.

(** Legacy names carry an underscore. *)
Lemma canonical_only_legacy s :
  has_byte "_" s = false →
  List.find (λ '(legacy, _), String.eqb legacy s) canonicalEventNames = None.
Proof.
  intros Hs. destruct (List.find _ _) as [[legacy c]|] eqn:Hf; [|done].
  apply List.find_some in Hf as [Hin ->%String.eqb_eq]. exfalso. cbn in Hin.
  by repeat destruct Hin as [[= <- <-]|Hin].
Qed.

(** Names are normalised once and for all. *)
Lemma NormalizeEventName_idem s :
  NormalizeEventName (NormalizeEventName s) = NormalizeEventName s.
Proof.
  unfold NormalizeEventName at 2 3.
  destruct (List.find _ canonicalEventNames) as [[legacy canonical]|] eqn:Hf.
  - apply List.find_some in Hf as [Hin _]. unfold canonicalEventNames in Hin. cbn in Hin.
    by repeat destruct Hin as [[= <- <-]|Hin].
  - destruct (Contains s ".") eqn:Hd.
    + unfold NormalizeEventName. by rewrite Hf, Hd.
    + unfold NormalizeEventName. rewrite canonical_only_legacy by apply dotted_no_underscore.
      destruct (Contains (dotted s) "."); [done|]. apply dotted_id, dotted_no_underscore.
Qed.

(** ** Properties *)

(** C34. The ledger of an execution has no gaps once its numbers are positive.  Whatever is
    recorded, the events listed of an execution are its accepted events in their order of
    arrival, no event id occurs twice in the whole ledger, [LastSequence] is the number of
    the last one, and every positive number is followed by the next one; a number that is
    not positive may be followed by any. *)
Theorem ledger_in_sequence qs x :
  let l := recorded qs in
  let ss := ev_Sequence <$> ListEvents x l in
  ListEvents x l = filter (λ e, ev_ExecutionID e = x) (el_heap l) ∧
  NoDup (ev_EventID <$> el_heap l) ∧
  LastSequence x l = default 0 (list.last ss) ∧
  (∀ i a b, ss !! i = Some a → ss !! S i = Some b → 0 < a → b = a + 1).
Proof.
  intros l ss. pose proof (recorded_ok qs) as Hok. fold l in Hok.
  assert (Hss : ss = sequences x (keys l)) by (by apply sequences_listed).
  split; [by apply ListEvents_spec|]. split; [|split].
  - apply NoDup_alt. intros i j id Hi Hj.
    apply list_lookup_fmap_Some in Hi as (e & -> & Hi), Hj as (e' & Hid & Hj).
    pose proof (indexed _ _ _ Hok Hi) as H1. pose proof (indexed _ _ _ Hok Hj) as H2.
    rewrite Hid in H1. congruence.
  - rewrite Hss. apply (lk_last _ Hok).
  - rewrite Hss. apply (lk_gapless _ Hok).
Qed.

(**  Recording is idempotent.  Once an event has been accepted under an id,
    recording that id again, for whatever execution and number and whatever has
    happened since, changes nothing and replays the event as it was accepted, with
    the decision last taken on it. *)
Theorem recording_is_idempotent qs qs' x id s ty att pay dec now l e :
  RecordEvent x id s ty att pay dec now (recorded qs) = (l, Ok (e, false)) →
  let l' := record_all qs' l in
  ∃ e', redecided e e' ∧ e' ∈ el_heap l' ∧ ∀ x' s' ty' att' pay' dec' t,
    RecordEvent x' id s' ty' att' pay' dec' t l' = (l', Ok (e', true)).
Proof.
  intros Hr l'. pose proof (RecordEvent_ok x id s ty att pay dec now _ (recorded_ok qs)) as H.
  rewrite Hr in H. destruct H as (Hok & _ & Hheap & Hkey).
  destruct (record_all_ok qs' l Hok) as [Hok' Hev]. fold l' in Hok', Hev.
  set (n := length (el_heap (recorded qs))).
  assert (Hn : el_heap l !! n = Some e) by (rewrite Hheap; by apply list_lookup_middle).
  destruct (Hev _ _ Hn) as (e' & Hn' & Hre). exists e'. split; [done|].
  split; [by eapply list_elem_of_lookup_2|]. intros x' s' ty' att' pay' dec' t.
  assert (Hid : ev_EventID e' = id).
  { apply redecided_key in Hre. unfold key_of in *. congruence. }
  pose proof (indexed _ _ _ Hok' Hn') as Hi. rewrite Hid in Hi.
  unfold RecordEvent, mbind, st_bind, get_st. rewrite Hi. cbn.
  unfold deref. by rewrite Hn'.
Qed.

Definition callback_session : list ledger_op :=
  [OpRecord "exec_1" "e1" 1 "execution.started" "" "" "" 10;
   OpRecord "exec_2" "f1" 1 "execution.started" "" "" "" 11;
   OpRecord "exec_1" "e3" 3 "usage.reported" "" "" "" 12].

Lemma recording_is_idempotent_witness :
  ∃ e, (RecordEvent "exec_1" "e2" 9 "budget.low" "" "" "" 20
          (record_all [OpDecide "e2" "pause"]
             (RecordEvent "exec_1" "e2" 2 "usage.reported" "" "{}" "" 13
                (recorded callback_session)).1)).2 = Ok (e, true) ∧ ev_Sequence e = 2.
Proof.
  edestruct (recording_is_idempotent callback_session [OpDecide "e2" "pause"]
    "exec_1" "e2" 2 "usage.reported" "" "{}" "" 13) as (e' & Hre & _ & H);
    [apply run_at; [reflexivity|vm_compute; reflexivity]|].
  exists e'. rewrite H. split; [done|]. by rewrite Hre.
Defined.

(**  A decision is seen everywhere.  Deciding an event changes its decision
    and nothing else, in the listing of its execution and in later replays; the
    other events, of this and of other executions, keep theirs. *)
Theorem decision_is_shared qs id dec x :
  let l := recorded qs in
  let l' := (UpdateDecision id dec l).1 in
  ListEvents x l' = decided id dec <$> ListEvents x l ∧
  (∀ e, e ∈ el_heap l → ev_EventID e = id → ∀ x' s ty att pay dec' t,
     RecordEvent x' id s ty att pay dec' t l' =
       (l', Ok (e <| ev_DecisionJSON := dec |>, true))).
Proof.
  intros l l'. pose proof (recorded_ok qs) as Hok. fold l in Hok.
  destruct (UpdateDecision_ok id dec l Hok) as (Hok' & _ & Hheap). fold l' in Hok', Hheap.
  split.
  - rewrite !ListEvents_spec, Hheap by done. clear -l.
    induction (el_heap l) as [|e h IH]; [done|].
    cbn [fmap list_fmap]. rewrite !filter_cons.
    pose proof (decided_redecided id dec e) as Hx%redecided_key. injection Hx as Hx _ _.
    rewrite Hx. destruct (decide (ev_ExecutionID e = x)); cbn; [f_equal|]; apply IH.
  - intros e [n Hn]%list_elem_of_lookup_1 Hid x' s ty att pay dec' t.
    assert (Hn' : el_heap l' !! n = Some (e <| ev_DecisionJSON := dec |>)).
    { rewrite Hheap, list_lookup_fmap, Hn. cbn. unfold decided. by rewrite decide_True. }
    pose proof (indexed _ _ _ Hok' Hn') as Hi. cbn in Hi. rewrite Hid in Hi.
    unfold RecordEvent, mbind, st_bind, get_st. rewrite Hi. cbn. unfold deref. by rewrite Hn'.
Qed.

(** The checks start with the first positive number: an execution that opens with
    zero can skip any numbers after it, and repeat them below zero. *)
Example sequence_checks_start_late :
  ev_Sequence <$> ListEvents "x" (recorded
    [OpRecord "x" "a" 0 "t" "" "" "" 1; OpRecord "x" "b" (-3) "t" "" "" "" 2;
     OpRecord "x" "c" 100 "t" "" "" "" 3; OpRecord "x" "d" 101 "t" "" "" "" 4]) =
  [0; -3; 100; 101].
Proof. reflexivity. Qed.

(** An event id is known to the whole ledger: an event of a second execution that
    reuses one is answered with the event of the first and not recorded. *)
Example replay_crosses_executions :
  let l := recorded [OpRecord "x" "a" 1 "t" "" "" "go" 1] in
  let '(l', r) := RecordEvent "y" "a" 1 "t" "" "" "" 2 l in
  ListEvents "y" l' = [] ∧
  r = Ok (mkExecutionEvent "evt_1" "x" "a" 1 "t" "" "" "go" 1, true).
Proof. split; reflexivity. Qed.
