(* ===== verification/Amounts.v ===== *)
(** * Amounts: raw chain units, cents, decimal text, payment-channel units

    internal/services/settlement/buyer_deposits.go converts the raw units of a
    sweep to cents and stores amounts as decimal text;
    platform/provider_settlement_fnn.go converts cents to the units a payment
    channel is funded with.  All of it is int64 arithmetic with wrap-around. *)

From Stdlib Require Import Ascii.
From S2P Require Import Prelude GoNum GoText.

(** ** Deposits (buyer_deposits.go) *)

Definition defaultBuyerDepositRawUnitsPerWholeUSDI : Z := 1000000.

Definition rawUnitsToCents (rawUnits rawUnitsPerWholeUSDI : Z) : Z :=
  if (rawUnits <=? 0) || (rawUnitsPerWholeUSDI <=? 0) then 0
  else (rawUnits *w 100) /w rawUnitsPerWholeUSDI.

(** [%] truncates toward zero: [Z.rem]. *)
Definition centsToAmountString (cents : Z) : string :=
  let '(sign, cents) := if cents <? 0 then ("-", neg64 cents) else ("", cents) in
  sign +:+ pretty (cents /w 100) +:+ "." +:+ fmt_02d (Z.rem cents 100).

Definition rawUnitsToAmountString (rawUnits rawUnitsPerWholeUSDI : Z) : string :=
  centsToAmountString (rawUnitsToCents rawUnits rawUnitsPerWholeUSDI).

Definition parseAmountToCents64 (raw : string) : Z :=
  let raw := TrimSpace raw in
  if String.eqb raw "" then 0
  else
    let '(sign, raw) :=
      if HasPrefix raw "-" then (-1, TrimPrefix raw "-") else (1, raw) in
    let '(part0, part1) := cut_at "." raw in
    let whole := (ParseInt part0).1 in
    let fraction := match part1 with Some p => p +:+ "00" | None => "00" end in
    let fraction := prefix_bytes 2 fraction in
    let cents := (ParseInt fraction).1 in
    sign *w ((whole *w 100) +w cents).

Example amounts_ex :
  centsToAmountString (-1205) = "-12.05" ∧ parseAmountToCents64 " 12.5 " = 1250 ∧
  parseAmountToCents64 "-0.07" = -7 ∧ rawUnitsToAmountString 10000000 1000000 = "10.00".
Proof. repeat split; reflexivity. Qed.

(** ** Payment-channel units (provider_settlement_fnn.go) *)

Definition defaultProviderSettlementCentsPerUnit : Z := 100.

Definition neededReserveToFundingUnits
    (neededReserveCents centsPerUnit minFundingUnits : Z) : Z :=
  if neededReserveCents <=? 0 then minFundingUnits
  else
    let centsPerUnit := if centsPerUnit <=? 0 then defaultProviderSettlementCentsPerUnit
                        else centsPerUnit in
    let units := neededReserveCents /w centsPerUnit in
    let units := if bool_decide (Z.rem neededReserveCents centsPerUnit = 0) then units
                 else units +w 1 in
    if units <? minFundingUnits then minFundingUnits else units.

Definition fundingUnitsToCents (fundingUnits centsPerUnit : Z) : Z :=
  if fundingUnits <=? 0 then 0
  else
    let centsPerUnit := if centsPerUnit <=? 0 then defaultProviderSettlementCentsPerUnit
                        else centsPerUnit in
    fundingUnits *w centsPerUnit.

(** ** Lemmas *)

(** Two digits: what [%02d] writes below a hundred. *)
Lemma fmt_02d_spec r : 0 ≤ r < 100 →
  ∃ a b, fmt_02d r = String a (String b "") ∧ is_digit a = true ∧ is_digit b = true ∧
    ParseInt (fmt_02d r) = (r, None).
Proof.
  intros Hr. rewrite <- (Z2Nat.id r) by lia.
  assert (Hn : Z.to_nat r ∈ seq 0 100) by (apply elem_of_seq; lia).
  revert Hn. generalize (Z.to_nat r). apply Forall_forall.
  cbv [seq]. repeat constructor; do 2 eexists; split_and!; reflexivity.
Qed.

(** The text of a non-negative amount. *)
Definition amount_text (n : Z) : string := pretty (n / 100) +:+ "." +:+ fmt_02d (n mod 100).

Lemma amount_text_spec n : 0 ≤ n →
  (∃ a s, amount_text n = String a s ∧ is_digit a = true) ∧
  (∃ s b, amount_text n = s +:+ String b "" ∧ is_digit b = true) ∧
  cut_at "." (amount_text n) = (pretty (n / 100), Some (fmt_02d (n mod 100))).
Proof.
  intros Hn. unfold amount_text.
  assert (0 ≤ n / 100) by (apply Z.div_pos; lia).
  pose proof (fmt_02d_spec (n mod 100) (Z.mod_pos_bound n 100 eq_refl)) as (a & b & Hf & _ & Hb & _).
  pose proof (pretty_N_spec (Z.to_N (n / 100))) as (Hd & (c & t & Ht & Hc) & _).
  rewrite pretty_nonneg, Hf by done. split_and!.
  - rewrite Ht. by do 2 eexists.
  - exists (pretty (Z.to_N (n / 100)) +:+ "." +:+ String a ""), b. split; [|done].
    by rewrite <- !string_app_assoc.
  - change ("." +:+ ?s) with (String "." s). apply cut_at_app.
    by apply (has_byte_all _ is_digit).
Qed.

Lemma centsToAmountString_nonneg c : 0 ≤ c → in64 c → centsToAmountString c = amount_text c.
Proof.
  intros Hc H64. unfold centsToAmountString, amount_text.
  rewrite (proj2 (Z.ltb_ge _ _)) by lia. unfold div64.
  assert (0 ≤ c / 100 ≤ c)
    by (split; [apply Z.div_pos; lia|apply Z.div_le_upper_bound; lia]).
  rewrite Z.quot_div_nonneg, Z.rem_mod_nonneg by lia. by rewrite wrap64_id by in64_lia.
Qed.

Lemma centsToAmountString_neg c : min_int64 < c < 0 →
  centsToAmountString c = String "-" (amount_text (- c)).
Proof.
  intros Hc. rewrite <- centsToAmountString_nonneg by in64_lia.
  unfold centsToAmountString. rewrite (proj2 (Z.ltb_lt c 0)) by lia.
  rewrite (proj2 (Z.ltb_ge (- c) 0)) by lia.
  unfold neg64. by rewrite wrap64_id by in64_lia.
Qed.

(** Parsing the text of an amount after its sign. *)
Lemma parse_amount_text n : 0 ≤ n → in64 n →
  (ParseInt (cut_at "." (amount_text n)).1).1 *w 100
    +w (ParseInt (prefix_bytes 2 (default "" (cut_at "." (amount_text n)).2 +:+ "00"))).1 = n.
Proof.
  intros Hn H64. destruct (amount_text_spec n Hn) as (_ & _ & ->). cbn [fst snd default].
  pose proof (fmt_02d_spec (n mod 100) (Z.mod_pos_bound n 100 eq_refl))
    as (a & b & Hf & _ & _ & Hp).
  assert (Hpre : prefix_bytes 2 (fmt_02d (n mod 100) +:+ "00") = fmt_02d (n mod 100))
    by (rewrite Hf; reflexivity).
  cbn [from_option id]. rewrite Hpre, Hp. cbn [fst].
  pose proof (Z.div_mod n 100 ltac:(lia)). pose proof (Z.mod_pos_bound n 100 eq_refl).
  assert (0 ≤ n / 100) by (apply Z.div_pos; lia).
  rewrite ParseInt_pretty by in64_lia. cbn [fst]. exact64.
Qed.

(** Reading back a stored amount gives the cents that were stored, for every
    int64, the smallest one included (whose negation overflows). *)
Lemma parse_centsToAmountString (c : Z) : in64 c → parseAmountToCents64 (centsToAmountString c) = c.
Proof.
  intros Hc. destruct (decide (c = min_int64)) as [->|Hmin]; [by vm_compute|].
  assert (Hn : ∀ n, 0 ≤ n → in64 n → TrimSpace (amount_text n) = amount_text n ∧
    TrimSpace (String "-" (amount_text n)) = String "-" (amount_text n) ∧
    HasPrefix (amount_text n) "-" = false).
  { intros n Hn _. destruct (amount_text_spec n Hn) as ((a & s & Ha & Hda) & (t & b & Hb & Hdb) & _).
    split_and!.
    - rewrite Ha. apply (TrimSpace_visible a s t b); [by rewrite <- Ha| |];
        by apply is_digit_visible.
    - apply (TrimSpace_visible _ _ (String "-" t) b); [by rewrite Hb|reflexivity|].
      by apply is_digit_visible.
    - rewrite Ha. unfold HasPrefix. cbn [strip_prefix].
      destruct (Ascii.eqb_spec "-" a) as [<-|_]; [done|done]. }
  unfold parseAmountToCents64. destruct (decide (0 ≤ c)) as [H0|H0].
  - destruct (Hn c H0 Hc) as (Ht & _ & Hp). rewrite centsToAmountString_nonneg, Ht, Hp by done.
    destruct (amount_text_spec c H0) as ((a & s & Ha & _) & _ & Hcut).
    rewrite Ha at 1. cbn [String.eqb].
    pose proof (parse_amount_text c H0 Hc) as Hv. rewrite Hcut in *.
    cbn [fst snd default from_option id] in Hv. rewrite Hv. exact64.
  - destruct (Hn (- c)) as (_ & Ht & _); [lia|in64_lia|].
    rewrite centsToAmountString_neg, Ht by in64_lia. cbn [String.eqb].
    change (HasPrefix (String "-" ?s) "-") with true.
    change (TrimPrefix (String "-" ?s) "-") with s.
    destruct (amount_text_spec (- c)) as (_ & _ & Hcut); [lia|].
    pose proof (parse_amount_text (- c) ltac:(lia) ltac:(in64_lia)) as Hv. rewrite Hcut in *.
    cbn [fst snd default from_option id] in Hv. rewrite Hv. exact64.
Qed.

(** Amounts survive the record: the text written for any int64 of cents is
    read back as those cents, with white space around it or not, and no two
    amounts are written alike. *)
Theorem amount_roundtrip (c : Z) :
  in64 c →
  parseAmountToCents64 (centsToAmountString c) = c ∧
  parseAmountToCents64 (" " +:+ centsToAmountString c) = c ∧
  ∀ d, in64 d → centsToAmountString d = centsToAmountString c → d = c.
Proof.
  intros Hc. split_and!.
  - by apply parse_centsToAmountString.
  - rewrite <- (parse_centsToAmountString c Hc) at 2. unfold parseAmountToCents64.
    by rewrite TrimSpace_space.
  - intros d Hd Heq. rewrite <- (parse_centsToAmountString d Hd), Heq.
    by apply parse_centsToAmountString.
Qed.

Lemma amount_roundtrip_witness :
  in64 min_int64 ∧ parseAmountToCents64 (centsToAmountString min_int64) = min_int64.
Proof.
  assert (H : in64 min_int64) by in64_lia.
  split; [exact H|]. exact (proj1 (amount_roundtrip min_int64 H)).
Defined.

(** The cents of an amount of raw units, where the product by a hundred fits:
    the largest number of cents the units pay for. *)
Lemma rawUnitsToCents_exact raw per :
  0 ≤ raw → raw * 100 ≤ max_int64 → 0 < per → rawUnitsToCents raw per = raw * 100 / per.
Proof.
  intros Hr Hm Hp. unfold rawUnitsToCents.
  rewrite (proj2 (Z.leb_gt per 0)) by lia. rewrite orb_false_r.
  destruct (Z.leb_spec raw 0); [by replace raw with 0 by lia|].
  unfold div64, mul64. rewrite (wrap64_id (raw * 100)) by in64_lia.
  rewrite Z.quot_div_nonneg by lia. apply wrap64_id.
  pose proof (Z.div_pos (raw * 100) per ltac:(lia) Hp).
  assert (raw * 100 / per ≤ raw * 100) by (apply Z.div_le_upper_bound; nia). in64_lia.
Qed.

Lemma rawUnitsToCents_nonneg raw per :
  0 ≤ raw → raw * 100 ≤ max_int64 → 0 < per → 0 ≤ rawUnitsToCents raw per.
Proof. intros. rewrite rawUnitsToCents_exact by done. apply Z.div_pos; lia. Qed.

(** Crediting deposits one at a time never credits more than the units
    received, and loses less than a cent per deposit. *)
Theorem sweeps_lose_dust (per : Z) (raws : list Z) :
  0 < per → Forall (λ r, 0 ≤ r) raws → sumZ raws * 100 ≤ max_int64 →
  let credited := sumZ ((λ r, rawUnitsToCents r per) <$> raws) in
  credited * per ≤ sumZ raws * 100 < (credited + Z.of_nat (length raws) + 1) * per ∧
  credited ≤ rawUnitsToCents (sumZ raws) per.
Proof.
  intros Hp Hnn Hmax credited.
  assert (Hb : credited * per ≤ sumZ raws * 100 < (credited + Z.of_nat (length raws) + 1) * per).
  { subst credited. revert Hmax. induction Hnn as [|r l Hr Hl IH]; intros Hmax;
      cbn [sumZ fmap list_fmap length] in *; [lia|].
    pose proof (sumZ_nonneg l Hl). specialize (IH ltac:(lia)).
    rewrite rawUnitsToCents_exact by lia.
    pose proof (Z.div_mod (r * 100) per ltac:(lia)).
    pose proof (Z.mod_pos_bound (r * 100) per Hp).
    rewrite Nat2Z.inj_succ. nia. }
  split; [done|]. pose proof (sumZ_nonneg raws Hnn).
  rewrite rawUnitsToCents_exact by lia. apply Z.div_le_lower_bound; lia.
Qed.

Lemma sweeps_lose_dust_witness :
  let raws := [15000; 15000; 27500] in
  (0 < 1000000 ∧ Forall (λ r, 0 ≤ r) raws ∧ sumZ raws * 100 ≤ max_int64) ∧
  sumZ ((λ r, rawUnitsToCents r 1000000) <$> raws) ≤ rawUnitsToCents (sumZ raws) 1000000.
Proof.
  assert (H : Forall (λ r, 0 ≤ r) [15000; 15000; 27500]) by (repeat constructor; lia).
  split; [split_and!; [lia|exact H|by vm_compute]|].
  apply (sweeps_lose_dust 1000000 [15000; 15000; 27500]); [lia|exact H|by vm_compute].
Defined.

(** Here the dust is a cent and more: three deposits are credited 4 cents
    where their sum would be 5. *)
Example dust_is_lost :
  sumZ ((λ r, rawUnitsToCents r 1000000) <$> [15000; 15000; 27500]) = 4 ∧
  rawUnitsToCents (sumZ [15000; 15000; 27500]) 1000000 = 5.
Proof. split; reflexivity. Qed.

(** Above 2^63 / 100 raw units the product wraps, and a deposit is credited a
    negative amount. *)
Example rawUnitsToCents_overflows : rawUnitsToCents (2 ^ 57) 1000000 < 0.
Proof. reflexivity. Qed.

(** The units in closed form, and what they are worth. *)
Lemma funding_units_spec (needed per minimum : Z) :
  0 < needed ≤ 2 ^ 62 → 0 ≤ per ≤ 2 ^ 30 → 0 < minimum ≤ 2 ^ 30 →
  let units := neededReserveToFundingUnits needed per minimum in
  let rate := if per <=? 0 then defaultProviderSettlementCentsPerUnit else per in
  0 < rate ≤ 2 ^ 30 ∧ 0 < units ∧ units = Z.max minimum ((needed + rate - 1) / rate)
  ∧ needed ≤ units * rate ∧ units * rate ≤ Z.max (minimum * rate) (needed + rate)
  ∧ fundingUnitsToCents units per = units * rate.
Proof.
  intros Hn Hp Hm units rate.
  assert (Hrate : 0 < rate ≤ 2 ^ 30).
  { subst rate. unfold defaultProviderSettlementCentsPerUnit.
    destruct (Z.leb_spec per 0); lia. }
  assert (Hceil : needed ≤ (needed + rate - 1) / rate * rate ≤ needed + rate).
  { pose proof (Z.div_mod (needed + rate - 1) rate ltac:(lia)).
    pose proof (Z.mod_pos_bound (needed + rate - 1) rate ltac:(lia)). nia. }
  assert (Hunits : units = Z.max minimum ((needed + rate - 1) / rate)).
  { subst units. unfold neededReserveToFundingUnits. fold rate.
    rewrite (proj2 (Z.leb_gt needed 0)) by lia.
    pose proof (Z.div_mod needed rate ltac:(lia)) as Hdm.
    pose proof (Z.mod_pos_bound needed rate ltac:(lia)) as Hmb.
    assert (Hq : 0 ≤ needed / rate ≤ needed)
      by (split; [apply Z.div_pos; lia|apply Z.div_le_upper_bound; nia]).
    unfold div64. rewrite Z.quot_div_nonneg, Z.rem_mod_nonneg by lia.
    rewrite wrap64_id by in64_lia.
    case_bool_decide as Hz.
    - assert (Hc : (needed + rate - 1) / rate = needed / rate)
        by (symmetry; apply (Z.div_unique _ _ _ (rate - 1)); lia).
      rewrite Hc. destruct (Z.ltb_spec (needed / rate) minimum); lia.
    - assert (Hc : (needed + rate - 1) / rate = needed / rate + 1)
        by (symmetry; apply (Z.div_unique _ _ _ (needed mod rate - 1)); lia).
      rewrite add64_exact, Hc by in64_lia.
      destruct (Z.ltb_spec (needed / rate + 1) minimum); lia. }
  assert (Hbounds : 0 < units ∧ needed ≤ units * rate
                    ∧ units * rate ≤ Z.max (minimum * rate) (needed + rate)).
  { rewrite Hunits. destruct (Z.max_spec minimum ((needed + rate - 1) / rate)) as [[? ->]|[? ->]]; nia. }
  split_and!; try tauto. unfold fundingUnitsToCents. rewrite (proj2 (Z.leb_gt units 0)) by lia. fold rate.
  apply mul64_exact. assert (minimum * rate ≤ 2 ^ 60) by nia. in64_lia.
Qed.

(** The units a channel is funded with cover the reserve that is needed,
    and are the fewest that do and reach the minimum. *)
Theorem funding_covers_reserve (needed per minimum : Z) :
  0 < needed ≤ 2 ^ 62 → 0 ≤ per ≤ 2 ^ 30 → 0 < minimum ≤ 2 ^ 30 →
  let units := neededReserveToFundingUnits needed per minimum in
  let rate := if per <=? 0 then defaultProviderSettlementCentsPerUnit else per in
  needed ≤ fundingUnitsToCents units per ∧ minimum ≤ units ∧
  (∀ u, minimum ≤ u → needed ≤ u * rate → units ≤ u).
Proof.
  intros Hn Hp Hm units rate.
  destruct (funding_units_spec needed per minimum Hn Hp Hm) as (Hrate & _ & Hmax & Hcov & _ & Hworth).
  fold units rate in Hrate, Hmax, Hcov, Hworth. split_and!; [lia|lia|].
  intros u Hu Hu'. rewrite Hmax. apply Z.max_lub; [done|].
  assert ((needed + rate - 1) / rate < u + 1); [|lia].
  apply Z.div_lt_upper_bound; nia.
Qed.

Lemma funding_covers_reserve_witness :
  (0 < 12345 ≤ 2 ^ 62 ∧ 0 ≤ 0 ≤ 2 ^ 30 ∧ 0 < 100 ≤ 2 ^ 30) ∧
  12345 ≤ fundingUnitsToCents (neededReserveToFundingUnits 12345 0 100) 0.
Proof.
  split; [lia|]. apply (funding_covers_reserve 12345 0 100); lia.
Defined.
