(* ===== verification/Funding.v ===== *)
(** * Repositories over a Go map, and the funding records kept in one

    The settlement service's in-memory repositories keep a sequence counter and
    a map from ids to records (memoryFundingRecordRepository in funding.go,
    memoryBuyerDepositSweepRepository in buyer_deposits.go).  [mapRepository] is
    that structure once; it meets the [KeyedStore] contract of [Repo], and its
    listings show each matching record once, in the order the map is visited. *)

From S2P Require Import Prelude Repo GoNum Core.

Section map_repo.
Context {V : Type} (id_of : V → string) (prefix : string).

Record mapRepository := mkMapRepo { mr_seq : Z; mr_data : gmap string V }.

Definition map_NextID : ST mapRepository string := λ r,
  let seq := mr_seq r + 1 in
  (mkMapRepo seq (mr_data r), Ok (prefix +:+ pretty seq)).

Definition map_Save (v : V) : ST mapRepository () := λ r,
  (mkMapRepo (mr_seq r) (<[id_of v := v]> (mr_data r)), Ok tt).

(** [v, ok := r.data[id]] *)
Definition map_Get (id : string) (r : mapRepository) : result V :=
  match mr_data r !! id with Some v => Ok v | None => Err (Errf "not found") end.

(** [for id, v := range r.data { if p(v) { r.data[id] = f(v) } }]: each entry is
    visited once, and the body touches no other. *)
Definition map_Update (f : V → V) : ST mapRepository () := λ r,
  (mkMapRepo (mr_seq r) (f <$> mr_data r), Ok tt).

(** [for _, v := range r.data { if !p(v) { continue }; append }] *)
Definition map_ListBy `{MO : MapOrder} (p : V → bool) (r : mapRepository) : list V :=
  List.filter p (snd <$> map_order (map_to_list (mr_data r))).

Definition map_issued (r : mapRepository) (id : string) : Prop :=
  ∃ k, 1 ≤ k ≤ mr_seq r ∧ id = prefix +:+ pretty k.
Definition map_valid (r : mapRepository) : Prop :=
  0 ≤ mr_seq r ∧ ∀ id v, mr_data r !! id = Some v → id_of v = id ∧ map_issued r id.

Lemma map_Get_Ok id r v : map_Get id r = Ok v ↔ mr_data r !! id = Some v.
Proof. unfold map_Get. case_match; naive_solver. Qed.

Lemma map_Get_save id v r :
  map_Get id (mkMapRepo (mr_seq r) (<[id_of v := v]> (mr_data r))) =
  if decide (id = id_of v) then Ok v else map_Get id r.
Proof.
  unfold map_Get. cbn. case_decide; subst; [by rewrite lookup_insert_eq|].
  by rewrite lookup_insert_ne.
Qed.

#[export] Instance map_store : KeyedStore id_of map_NextID map_Save map_Get.
Proof.
  refine {| valid := map_valid; issued := map_issued |}.
  - intros s id v [_ H] Hg%map_Get_Ok. by apply H in Hg as [? _].
  - intros s id v [_ H] Hg%map_Get_Ok. by apply H in Hg as [_ ?].
  - intros s s' r [H0 H] [= <- _]. split; cbn; [lia|]. intros id o Ho.
    destruct (H _ _ Ho) as [? (k & Hk & ->)]. split; [done|].
    exists k. cbn. split; [lia|done].
  - by intros s s' r id [= <- _].
  - intros s s' r id [= <- _] (k & Hk & ->). exists k. cbn. split; [lia|done].
  - intros s s' id [H0 _] [= <- <-]. split.
    + exists (mr_seq s + 1). cbn. split; [lia|done].
    + intros (k & Hk & Heq). simplify_eq. lia.
  - intros v s s' r [H0 H] Hi [= <- _]. split; [done|]. intros id o. cbn.
    intros [[<- <-]|[Hne Ho]]%lookup_insert_Some; [done|by apply H].
  - by intros v s s' r id [= <- _].
  - intros v s s' _ [= <-]. rewrite map_Get_save. by rewrite decide_True.
  - intros v s s' r id [= <- _] Hne. rewrite map_Get_save. by rewrite decide_False.
  - done.
Defined.

Lemma map_values_elem `{MO : MapOrder} (m : gmap string V) v :
  v ∈ (snd <$> map_order (map_to_list m)) ↔ ∃ id, m !! id = Some v.
Proof.
  rewrite map_order_perm, list_elem_of_fmap. split.
  - intros [[id v'] [-> Hin]]. apply elem_of_map_to_list in Hin. by exists id.
  - intros [id Hv]. exists (id, v). split; [done|]. by apply elem_of_map_to_list.
Qed.

Lemma NoDup_filter_fmap {A} (g : A → string) (p : A → bool) (l : list A) :
  NoDup (g <$> l) → NoDup (g <$> List.filter p l).
Proof.
  induction l as [|x l IH]; cbn; [done|]. intros [Hx Hl]%NoDup_cons.
  destruct (p x); [|by apply IH]. cbn. constructor; [|by apply IH].
  intros (y & Heq & Hy)%list_elem_of_fmap. apply list_elem_of_In, List.filter_In in Hy as [Hy _].
  apply Hx. rewrite Heq. apply list_elem_of_fmap_2. by apply list_elem_of_In.
Qed.

Lemma map_lists `{MO : MapOrder} (p : V → bool) r :
  map_valid r → lists id_of map_Get (λ v, p v = true) r (map_ListBy p r).
Proof.
  intros [_ Hv]. unfold map_ListBy, lists. split.
  - apply NoDup_filter_fmap. rewrite map_order_perm.
    replace (id_of <$> (snd <$> map_to_list (mr_data r)))
      with (fst <$> map_to_list (mr_data r)); [apply NoDup_fst_map_to_list|].
    rewrite <- list_fmap_compose. apply list_fmap_ext. intros i [id o] Hio. cbn.
    symmetry. apply Hv, elem_of_map_to_list. by eapply list_elem_of_lookup_2.
  - intros v. rewrite list_elem_of_In, List.filter_In, <- list_elem_of_In,
      map_values_elem, map_Get_Ok. split; intros [H Hp]; (split; [|done]).
    + destruct H as [id Hid]. by destruct (Hv _ _ Hid) as [-> _].
    + eauto.
Qed.

Lemma map_Get_update f id r :
  map_Get id (mkMapRepo (mr_seq r) (f <$> mr_data r)) = f <$> map_Get id r.
Proof. unfold map_Get. cbn. rewrite lookup_fmap. by destruct (mr_data r !! id). Qed.

Lemma map_update_valid f r :
  (∀ v, id_of (f v) = id_of v) → map_valid r →
  map_valid (mkMapRepo (mr_seq r) (f <$> mr_data r)).
Proof.
  intros Hf [H0 Hv]. split; [done|]. intros id v. cbn.
  rewrite lookup_fmap, fmap_Some. intros (v' & Hv' & ->). rewrite Hf. by apply Hv.
Qed.
End map_repo.

Arguments mapRepository V : clear implicits.
Arguments mkMapRepo {V}.

(** * Funding records of the settlement service (services/settlement/funding.go)

    A funding record is one movement of money the service knows of: an invoice,
    a withdrawal, a top-up of a buyer, a payout to a provider.
    [FundingRecordRepository] is the interface; any of its operations may fail.
    [FundingLaws] is what the service relies on, [memory_funding] the in-memory
    implementation, which meets it. *)

Definition FundingRecordKindInvoice : string := "invoice".
Definition FundingRecordKindWithdrawal : string := "withdrawal".
Definition FundingRecordKindBuyerTopUp : string := "buyer_topup".
Definition FundingRecordKindProviderPayout : string := "provider_payout".

Record FundingRecord := mkFundingRecord {
  fr_ID : string;
  fr_Kind : string;
  fr_OrderID : string;
  fr_MilestoneID : string;
  fr_BuyerOrgID : string;
  fr_ProviderOrgID : string;
  fr_Asset : string;
  fr_Amount : string;
  fr_Invoice : string;
  fr_ExternalID : string;
  fr_State : string;
  fr_Destination : gmap string string;
  fr_CreatedAt : Time;
  fr_UpdatedAt : Time;
}.
#[export] Instance FundingRecord_eta : Eta FundingRecord := λ r,
  mkFundingRecord (fr_ID r) (fr_Kind r) (fr_OrderID r) (fr_MilestoneID r) (fr_BuyerOrgID r)
    (fr_ProviderOrgID r) (fr_Asset r) (fr_Amount r) (fr_Invoice r) (fr_ExternalID r)
    (fr_State r) (fr_Destination r) (fr_CreatedAt r) (fr_UpdatedAt r).

Record FundingRecordFilter := mkFundingFilter {
  ff_Kind : string;
  ff_OrderID : string;
  ff_BuyerOrgID : string;
  ff_ProviderOrgID : string;
}.
#[export] Instance FundingRecordFilter_eta : Eta FundingRecordFilter := λ f,
  mkFundingFilter (ff_Kind f) (ff_OrderID f) (ff_BuyerOrgID f) (ff_ProviderOrgID f).
#[export] Instance FundingRecordFilter_eq_dec : EqDecision FundingRecordFilter.
Proof. solve_decision. Defined.

(** [filter.X != "" && record.X != filter.X { continue }] *)
Definition field_matches (wanted actual : string) : bool :=
  String.eqb wanted "" || String.eqb actual wanted.
Definition funding_matches (filter : FundingRecordFilter) (record : FundingRecord) : bool :=
  field_matches (ff_Kind filter) (fr_Kind record) &&
  field_matches (ff_OrderID filter) (fr_OrderID record) &&
  field_matches (ff_BuyerOrgID filter) (fr_BuyerOrgID record) &&
  field_matches (ff_ProviderOrgID filter) (fr_ProviderOrgID record).

(** ** The interface *)

Class FundingRecordRepository := {
  funding_t : Type;
  funding_NextID : ST funding_t string;
  funding_Save : FundingRecord → ST funding_t ();
  (* the clock reading, the invoice or external id, the new state *)
  funding_UpdateInvoiceState : Time → string → string → ST funding_t ();
  funding_UpdateExternalState : Time → string → string → ST funding_t ();
  funding_List : FundingRecordFilter → funding_t → result (list FundingRecord);
}.

(** The record after an update of the records that satisfy [p]. *)
Definition with_state (p : FundingRecord → bool) (state : string) (now : Time)
    (r : FundingRecord) : FundingRecord :=
  if p r then r <| fr_State := state |> <| fr_UpdatedAt := now |> else r.
Definition of_invoice (invoice : string) (r : FundingRecord) : bool :=
  String.eqb (fr_Invoice r) invoice.
Definition of_external (externalID : string) (r : FundingRecord) : bool :=
  String.eqb (fr_ExternalID r) externalID.

(** The contract: records are kept under their ids ([funding_Get] is how the
    theorems look at them, the service never reads a single record), an update
    rewrites the state of the matching records or fails and changes none, a
    listing shows each matching record once. *)
Definition updates `{F : FundingRecordRepository} (get : string → funding_t → result FundingRecord)
    (p : FundingRecord → bool) (state : string) (now : Time) (s s' : funding_t)
    (r : result ()) : Prop :=
  ∀ id, get id s' =
    (if is_ok r then with_state p state now <$> get id s else get id s).

Class FundingLaws `{F : FundingRecordRepository} := {
  funding_Get : string → funding_t → result FundingRecord;
  funding_store :: KeyedStore fr_ID funding_NextID funding_Save funding_Get;
  funding_List_spec filter s l :
    valid s → funding_List filter s = Ok l →
    lists fr_ID funding_Get (λ r, funding_matches filter r = true) s l;
  update_invoice_spec now invoice state s s' r :
    valid s → funding_UpdateInvoiceState now invoice state s = (s', r) →
    valid s' ∧ updates funding_Get (of_invoice invoice) state now s s' r;
  update_external_spec now externalID state s s' r :
    valid s → funding_UpdateExternalState now externalID state s = (s', r) →
    valid s' ∧ updates funding_Get (of_external externalID) state now s s' r;
}.

(** ** The in-memory repository *)

Definition memoryFundingRecordRepository : Type := mapRepository FundingRecord.

Definition NewMemoryFundingRecordRepository : memoryFundingRecordRepository := mkMapRepo 0 ∅.

Definition mem_funding_NextID : ST memoryFundingRecordRepository string := map_NextID "fund_".
Definition mem_funding_Save : FundingRecord → ST memoryFundingRecordRepository () :=
  map_Save fr_ID.
Definition mem_funding_UpdateInvoiceState (now : Time) (invoice state : string)
    : ST memoryFundingRecordRepository () :=
  map_Update (with_state (of_invoice invoice) state now).
Definition mem_funding_UpdateExternalState (now : Time) (externalID state : string)
    : ST memoryFundingRecordRepository () :=
  map_Update (with_state (of_external externalID) state now).
Definition mem_funding_List `{MO : MapOrder} (filter : FundingRecordFilter)
    (r : memoryFundingRecordRepository) : result (list FundingRecord) :=
  Ok (map_ListBy (funding_matches filter) r).

#[export] Instance memory_funding `{MO : MapOrder} : FundingRecordRepository := {|
  funding_t := memoryFundingRecordRepository;
  funding_NextID := mem_funding_NextID;
  funding_Save := mem_funding_Save;
  funding_UpdateInvoiceState := mem_funding_UpdateInvoiceState;
  funding_UpdateExternalState := mem_funding_UpdateExternalState;
  funding_List := mem_funding_List;
|}.

Lemma with_state_id p state now r : fr_ID (with_state p state now r) = fr_ID r.
Proof. unfold with_state. by destruct (p r). Qed.

#[export] Instance memory_funding_laws `{MO : MapOrder} : FundingLaws (F := memory_funding).
Proof.
  refine {| funding_Get := (map_Get : string → mapRepository FundingRecord → _);
            funding_store := map_store fr_ID "fund_" |}.
  - intros filter s l Hv [= <-]. by apply (map_lists fr_ID "fund_").
  - intros now x state s s' r Hv [= <- <-]. split.
    + apply map_update_valid; [apply with_state_id|done].
    + intros id. apply map_Get_update.
  - intros now x state s s' r Hv [= <- <-]. split.
    + apply map_update_valid; [apply with_state_id|done].
    + intros id. apply map_Get_update.
Defined.
