(* ===== verification/Deposits.v ===== *)
(** * Buyer deposits (services/settlement/buyer_deposits.go)

    A buyer is given a deposit address; what arrives there is swept to the
    treasury and credited as a settled top-up.  The service runs over three
    repositories, each operation of which may fail, and a wallet, which is a
    function of the calls made to it before: nothing is assumed of the balances,
    transactions and errors it reports. *)

From S2P Require Import Prelude GoNum GoText Core Repo Funding Amounts.

Record BuyerDepositAddress := mkDepositAddress {
  da_ID : string;
  da_BuyerOrgID : string;
  da_Asset : string;
  da_Address : string;
  da_DerivationIndex : Z;
  da_CreatedAt : Time;
  da_UpdatedAt : Time;
}.

Record BuyerDepositChainBalance := mkChainBalance {
  cb_Address : string;
  cb_RawOnChainUnits : Z;
  cb_RawConfirmedUnits : Z;
  cb_ConfirmationBlocks : Z;
}.

Record BuyerDepositSweepResult := mkSweepResult {
  sr_SweepTxHash : string;
  sr_SweptRawUnits : Z;
  sr_TreasuryAddress : string;
}.

Record BuyerDepositSummary := mkDepositSummary {
  bs_BuyerOrgID : string;
  bs_Asset : string;
  bs_Address : string;
  bs_OnChainBalance : string;
  bs_ConfirmedBalance : string;
  bs_CreditedBalance : string;
  bs_CreditedBalanceCents : Z;
  bs_MinimumSweepAmount : string;
  bs_ConfirmationBlocks : Z;
  bs_RawOnChainUnits : Z;
  bs_RawConfirmedUnits : Z;
  bs_RawMinimumSweepUnits : Z;
  bs_TreasuryAddress : string;
}.

Record BuyerDepositSweepRecord := mkSweepRecord {
  sw_ID : string;
  sw_BuyerOrgID : string;
  sw_Asset : string;
  sw_DepositAddress : string;
  sw_TreasuryAddress : string;
  sw_AmountRaw : Z;
  sw_TxHash : string;
  sw_State : string;
  sw_CreatedAt : Time;
  sw_UpdatedAt : Time;
}.

(** [BuyerDepositSweepFilter] is its only field. *)
Definition sweep_matches (buyerOrgID : string) (record : BuyerDepositSweepRecord) : bool :=
  field_matches buyerOrgID (sw_BuyerOrgID record).

(** ** The interfaces *)

Class BuyerDepositAddressRepository := {
  addresses_t : Type;
  address_NextID : ST addresses_t string;
  address_NextDerivationIndex : ST addresses_t Z;
  address_Save : BuyerDepositAddress → ST addresses_t ();
  address_GetByBuyerOrgID : string → addresses_t → result BuyerDepositAddress;
  address_List : addresses_t → result (list BuyerDepositAddress);
}.

Class BuyerDepositSweepRepository := {
  sweeps_t : Type;
  sweep_NextID : ST sweeps_t string;
  sweep_Save : BuyerDepositSweepRecord → ST sweeps_t ();
  sweep_List : string → sweeps_t → result (list BuyerDepositSweepRecord);
}.

(** The contract of the addresses: kept per buyer; a derivation index is handed
    out once.  The read of a stored address may fail all the same. *)
Class AddressLaws `{A : BuyerDepositAddressRepository} := {
  address_valid : addresses_t → Prop;
  address_at : string → addresses_t → option BuyerDepositAddress;
  index_used : addresses_t → Z → Prop;

  address_at_spec s b v :
    address_valid s → address_at b s = Some v →
    da_BuyerOrgID v = b ∧ index_used s (da_DerivationIndex v);
  address_get_spec s b v :
    address_valid s → address_GetByBuyerOrgID b s = Ok v → address_at b s = Some v;
  address_list_spec s l :
    address_valid s → address_List s = Ok l →
    NoDup (da_BuyerOrgID <$> l) ∧
    ∀ v, v ∈ l ↔ address_at (da_BuyerOrgID v) s = Some v;
  address_id_spec s s' r :
    address_valid s → address_NextID s = (s', r) →
    address_valid s' ∧ (∀ b, address_at b s' = address_at b s) ∧
    (∀ i, index_used s' i ↔ index_used s i);
  address_index_spec s s' r :
    address_valid s → address_NextDerivationIndex s = (s', r) →
    address_valid s' ∧ (∀ b, address_at b s' = address_at b s) ∧
    (∀ i, index_used s i → index_used s' i) ∧
    (∀ i, r = Ok i → index_used s' i ∧ ¬ index_used s i);
  address_save_spec v s s' r :
    address_valid s → index_used s (da_DerivationIndex v) → address_Save v s = (s', r) →
    address_valid s' ∧ (∀ i, index_used s' i ↔ index_used s i) ∧
    ∀ b, address_at b s' =
      (if is_ok r && bool_decide (b = da_BuyerOrgID v) then Some v else address_at b s);
}.

Class SweepLaws `{S : BuyerDepositSweepRepository} := {
  sweep_Get : string → sweeps_t → result BuyerDepositSweepRecord;
  sweep_store :: KeyedStore sw_ID sweep_NextID sweep_Save sweep_Get;
  sweep_List_spec b s l :
    valid s → sweep_List b s = Ok l →
    lists sw_ID sweep_Get (λ r, sweep_matches b r = true) s l;
}.

(** ** The wallet *)

Inductive WalletCall :=
  | CallDerive (index : Z)
  | CallBalance (record : BuyerDepositAddress)
  | CallSweep (record : BuyerDepositAddress) (treasury : string) (confirmations : Z).

Record BuyerDepositWallet := mkWallet {
  DeriveAddress : list WalletCall → Z → result string;
  QueryBalance : list WalletCall → BuyerDepositAddress → result BuyerDepositChainBalance;
  SweepToTreasury : list WalletCall → BuyerDepositAddress → string → Z →
    result BuyerDepositSweepResult;
}.

(** ** The service: its configuration and the state it works on *)

Record BuyerDepositService := mkDepositService {
  bds_wallet : option BuyerDepositWallet;
  bds_asset : string;
  bds_treasuryAddress : string;
  bds_minSweepAmountRaw : Z;
  bds_confirmationBlocks : Z;
  bds_rawUnitsPerWholeUSDI : Z;
  bds_now : nat → Time;
}.

(** [NewBuyerDepositService]: the defaults of what the options leave out. *)
Definition NewBuyerDepositService (options : BuyerDepositService) : BuyerDepositService := {|
  bds_wallet := bds_wallet options;
  bds_asset := if String.eqb (bds_asset options) "" then "USDI" else bds_asset options;
  bds_treasuryAddress := bds_treasuryAddress options;
  bds_minSweepAmountRaw :=
    if bds_minSweepAmountRaw options <=? 0 then 10 *w defaultBuyerDepositRawUnitsPerWholeUSDI
    else bds_minSweepAmountRaw options;
  bds_confirmationBlocks :=
    if bds_confirmationBlocks options =? 0 then 24 else bds_confirmationBlocks options;
  bds_rawUnitsPerWholeUSDI :=
    if bds_rawUnitsPerWholeUSDI options <=? 0 then defaultBuyerDepositRawUnitsPerWholeUSDI
    else bds_rawUnitsPerWholeUSDI options;
  bds_now := bds_now options;
|}.

Record BuyerDepositSyncSummary := mkSyncSummary {
  ss_CreditedCents : Z;
  ss_SweepCount : Z;
}.

Definition findBuyerDepositSweepByTxHash (records : list BuyerDepositSweepRecord)
    (txHash : string) : option BuyerDepositSweepRecord :=
  if blank txHash then None
  else List.find (λ record, String.eqb (sw_TxHash record) txHash) records.

Definition firstNonEmptySweepAddress (value fallback : string) : string :=
  if negb (blank value) then TrimSpace value else TrimSpace fallback.

Section service.
Context `{A : BuyerDepositAddressRepository, W : BuyerDepositSweepRepository,
          F : FundingRecordRepository}.

Record Deposits := mkDeposits {
  dp_addresses : addresses_t;
  dp_sweeps : sweeps_t;
  dp_funding : funding_t;
  dp_calls : list WalletCall;
  dp_ticks : nat;
}.
#[export] Instance Deposits_eta : Eta Deposits := λ d,
  mkDeposits (dp_addresses d) (dp_sweeps d) (dp_funding d) (dp_calls d) (dp_ticks d).

Abbreviation M := (ST Deposits).

Definition on_addresses {T} : ST addresses_t T → M T :=
  zoom dp_addresses (λ x d, d <| dp_addresses := x |>).
Definition on_sweeps {T} : ST sweeps_t T → M T :=
  zoom dp_sweeps (λ x d, d <| dp_sweeps := x |>).
Definition on_funding {T} : ST funding_t T → M T :=
  zoom dp_funding (λ x d, d <| dp_funding := x |>).

(** A call of the wallet: recorded, then answered. *)
Definition ask {T} (call : WalletCall) (answer : list WalletCall → result T) : M T := λ d,
  (d <| dp_calls ::= (λ h, h ++ [call]) |>, answer (dp_calls d)).

Context (s : BuyerDepositService).

Definition now : M Time := λ d, (d <| dp_ticks ::= S |>, Ok (bds_now s (dp_ticks d))).

(** ** EnsureAddress *)

Definition EnsureAddress (buyerOrgID : string) : M BuyerDepositAddress :=
  _ ← fail_if (blank buyerOrgID) (Errf "buyerOrgId is required");
  existing ← attempt (query dp_addresses (address_GetByBuyerOrgID (TrimSpace buyerOrgID)));
  match existing with
  | Ok record => mret record
  | Err _ =>
      match bds_wallet s with
      | None => throw (Errf "buyer deposit wallet is required")
      | Some wallet =>
          index ← on_addresses address_NextDerivationIndex;
          address ← ask (CallDerive index) (λ h, DeriveAddress wallet h index);
          _ ← fail_if (blank address) (Errf "buyer deposit wallet returned empty address");
          id ← on_addresses address_NextID;
          now ← now;
          let record := mkDepositAddress id (TrimSpace buyerOrgID) (bds_asset s) address
                          index now now in
          _ ← on_addresses (address_Save record);
          mret record
      end
  end.

(** ** GetSummary *)

Definition is_settled (r : FundingRecord) : bool := EqualFold (fr_State r) "SETTLED".

Definition top_ups_of (buyerOrgID : string) : FundingRecordFilter :=
  mkFundingFilter FundingRecordKindBuyerTopUp "" buyerOrgID "".

(** [creditedCents += parseAmountToCents64(record.Amount)] over the settled. *)
Definition credited_cents (credits : list FundingRecord) : Z :=
  foldl (λ total r, if is_settled r then total +w parseAmountToCents64 (fr_Amount r) else total)
    0 credits.

Definition GetSummary (buyerOrgID : string) : M BuyerDepositSummary :=
  record ← EnsureAddress buyerOrgID;
  balance ← match bds_wallet s with
            | Some wallet => ask (CallBalance record) (λ h, QueryBalance wallet h record)
            | None => mret (mkChainBalance (da_Address record) 0 0 0)
            end;
  credits ← query dp_funding (funding_List (top_ups_of buyerOrgID));
  let creditedCents := credited_cents credits in
  mret {|
    bs_BuyerOrgID := buyerOrgID;
    bs_Asset := bds_asset s;
    bs_Address := da_Address record;
    bs_OnChainBalance :=
      rawUnitsToAmountString (cb_RawOnChainUnits balance) (bds_rawUnitsPerWholeUSDI s);
    bs_ConfirmedBalance :=
      rawUnitsToAmountString (cb_RawConfirmedUnits balance) (bds_rawUnitsPerWholeUSDI s);
    bs_CreditedBalance := centsToAmountString creditedCents;
    bs_CreditedBalanceCents := creditedCents;
    bs_MinimumSweepAmount :=
      rawUnitsToAmountString (bds_minSweepAmountRaw s) (bds_rawUnitsPerWholeUSDI s);
    bs_ConfirmationBlocks := bds_confirmationBlocks s;
    bs_RawOnChainUnits := cb_RawOnChainUnits balance;
    bs_RawConfirmedUnits := cb_RawConfirmedUnits balance;
    bs_RawMinimumSweepUnits := bds_minSweepAmountRaw s;
    bs_TreasuryAddress := bds_treasuryAddress s;
  |}.

(** ** SyncDeposits *)

Definition hasSettledBuyerTopUp (buyerOrgID externalID : string) : M bool :=
  if blank externalID then mret false
  else
    records ← query dp_funding (funding_List (top_ups_of buyerOrgID));
    mret (existsb (λ r, String.eqb (fr_ExternalID r) externalID && is_settled r) records).

Definition saveBuyerTopUpFunding (record : BuyerDepositAddress)
    (treasuryAddress externalID : string) (creditedCents : Z) : M () :=
  fundingID ← on_funding funding_NextID;
  now ← now;
  on_funding (funding_Save {|
    fr_ID := fundingID;
    fr_Kind := FundingRecordKindBuyerTopUp;
    fr_OrderID := ""; fr_MilestoneID := "";
    fr_BuyerOrgID := da_BuyerOrgID record;
    fr_ProviderOrgID := "";
    fr_Asset := bds_asset s;
    fr_Amount := centsToAmountString creditedCents;
    fr_Invoice := "";
    fr_ExternalID := externalID;
    fr_State := "SETTLED";
    fr_Destination := {[ "kind" := "CKB_ADDRESS_SWEEP";
                         "depositAddress" := da_Address record;
                         "treasuryAddress" := treasuryAddress ]};
    fr_CreatedAt := now;
    fr_UpdatedAt := now;
  |}).

(** [summary.CreditedCents += creditedCents; summary.SweepCount++] *)
Definition add_credit (creditedCents : Z) (summary : BuyerDepositSyncSummary)
    : BuyerDepositSyncSummary :=
  mkSyncSummary (ss_CreditedCents summary +w creditedCents) (ss_SweepCount summary +w 1).

(** The body of the loop over the addresses. *)
Definition sync_record (wallet : BuyerDepositWallet) (summary : BuyerDepositSyncSummary)
    (record : BuyerDepositAddress) : M BuyerDepositSyncSummary :=
  balance ← ask (CallBalance record) (λ h, QueryBalance wallet h record);
  if cb_RawConfirmedUnits balance <? bds_minSweepAmountRaw s then mret summary
  else
    sweepResult ← ask (CallSweep record (bds_treasuryAddress s) (bds_confirmationBlocks s))
      (λ h, SweepToTreasury wallet h record (bds_treasuryAddress s) (bds_confirmationBlocks s));
    if sr_SweptRawUnits sweepResult <=? 0 then mret summary
    else
      existingSweeps ← query dp_sweeps (sweep_List (da_BuyerOrgID record));
      match findBuyerDepositSweepByTxHash existingSweeps (sr_SweepTxHash sweepResult) with
      | Some existingSweep =>
          alreadyCredited ←
            hasSettledBuyerTopUp (da_BuyerOrgID record) (sr_SweepTxHash sweepResult);
          if (alreadyCredited : bool) then mret summary
          else
            let creditedCents :=
              rawUnitsToCents (sw_AmountRaw existingSweep) (bds_rawUnitsPerWholeUSDI s) in
            _ ← saveBuyerTopUpFunding record
                  (firstNonEmptySweepAddress (sw_TreasuryAddress existingSweep)
                     (bds_treasuryAddress s))
                  (sw_TxHash existingSweep) creditedCents;
            mret (add_credit creditedCents summary)
      | None =>
          now ← now;
          sweepID ← on_sweeps sweep_NextID;
          _ ← on_sweeps (sweep_Save {|
                sw_ID := sweepID;
                sw_BuyerOrgID := da_BuyerOrgID record;
                sw_Asset := bds_asset s;
                sw_DepositAddress := da_Address record;
                sw_TreasuryAddress :=
                  firstNonEmptySweepAddress (sr_TreasuryAddress sweepResult)
                    (bds_treasuryAddress s);
                sw_AmountRaw := sr_SweptRawUnits sweepResult;
                sw_TxHash := sr_SweepTxHash sweepResult;
                sw_State := "SETTLED";
                sw_CreatedAt := now;
                sw_UpdatedAt := now;
              |});
          let creditedCents :=
            rawUnitsToCents (sr_SweptRawUnits sweepResult) (bds_rawUnitsPerWholeUSDI s) in
          _ ← saveBuyerTopUpFunding record
                (firstNonEmptySweepAddress (sr_TreasuryAddress sweepResult)
                   (bds_treasuryAddress s))
                (sr_SweepTxHash sweepResult) creditedCents;
          mret (add_credit creditedCents summary)
      end.

Fixpoint sync_records (wallet : BuyerDepositWallet) (summary : BuyerDepositSyncSummary)
    (records : list BuyerDepositAddress) : M BuyerDepositSyncSummary :=
  match records with
  | [] => mret summary
  | record :: records' =>
      summary ← sync_record wallet summary record;
      sync_records wallet summary records'
  end.

(** On an error the source returns the summary so far as well; its callers
    drop it. *)
Definition SyncDeposits : M BuyerDepositSyncSummary :=
  match bds_wallet s with
  | None => mret (mkSyncSummary 0 0)
  | Some wallet =>
      records ← query dp_addresses address_List;
      sync_records wallet (mkSyncSummary 0 0) records
  end.

(** ** Histories *)

Inductive DepositOp := OpEnsure (buyerOrgID : string) | OpSummary (buyerOrgID : string) | OpSync.

(** An operation's effect on the state, whatever it returns. *)
Definition deposit_step (op : DepositOp) (d : Deposits) : Deposits :=
  match op with
  | OpEnsure b => (EnsureAddress b d).1
  | OpSummary b => (GetSummary b d).1
  | OpSync => (SyncDeposits d).1
  end.
Definition deposit_run (ops : list DepositOp) (d : Deposits) : Deposits :=
  foldl (λ d op, deposit_step op d) d ops.
End service.

(** ** The in-memory repositories *)

Record memoryBuyerDepositAddressRepository := mkMemAddresses {
  ma_seq : Z;
  ma_nextIndex : Z;
  ma_data : gmap string BuyerDepositAddress;
}.
Definition NewMemoryBuyerDepositAddressRepository := mkMemAddresses 0 0 ∅.

Definition mem_address_NextID : ST memoryBuyerDepositAddressRepository string := λ r,
  let seq := ma_seq r + 1 in
  (mkMemAddresses seq (ma_nextIndex r) (ma_data r), Ok ("depaddr_" +:+ pretty seq)).
Definition mem_address_NextDerivationIndex : ST memoryBuyerDepositAddressRepository Z := λ r,
  (mkMemAddresses (ma_seq r) (ma_nextIndex r + 1) (ma_data r), Ok (ma_nextIndex r)).
Definition mem_address_Save (record : BuyerDepositAddress)
    : ST memoryBuyerDepositAddressRepository () := λ r,
  (mkMemAddresses (ma_seq r) (ma_nextIndex r) (<[da_BuyerOrgID record := record]> (ma_data r)),
   Ok tt).
Definition mem_address_Get (buyerOrgID : string) (r : memoryBuyerDepositAddressRepository)
    : result BuyerDepositAddress :=
  match ma_data r !! buyerOrgID with
  | Some record => Ok record
  | None => Err (Errf "buyer deposit address not found")
  end.
Definition mem_address_List `{MO : MapOrder} (r : memoryBuyerDepositAddressRepository)
    : result (list BuyerDepositAddress) :=
  Ok (snd <$> map_order (map_to_list (ma_data r))).

#[export] Instance memory_addresses `{MO : MapOrder} : BuyerDepositAddressRepository := {|
  addresses_t := memoryBuyerDepositAddressRepository;
  address_NextID := mem_address_NextID;
  address_NextDerivationIndex := mem_address_NextDerivationIndex;
  address_Save := mem_address_Save;
  address_GetByBuyerOrgID := mem_address_Get;
  address_List := mem_address_List;
|}.

Definition memoryBuyerDepositSweepRepository : Type := mapRepository BuyerDepositSweepRecord.
Definition NewMemoryBuyerDepositSweepRepository : memoryBuyerDepositSweepRepository :=
  mkMapRepo 0 ∅.
Definition mem_sweep_NextID : ST memoryBuyerDepositSweepRepository string :=
  map_NextID "depsweep_".
Definition mem_sweep_Save : BuyerDepositSweepRecord → ST memoryBuyerDepositSweepRepository () :=
  map_Save sw_ID.
Definition mem_sweep_List `{MO : MapOrder} (buyerOrgID : string)
    (r : memoryBuyerDepositSweepRepository) : result (list BuyerDepositSweepRecord) :=
  Ok (map_ListBy (sweep_matches buyerOrgID) r).

#[export] Instance memory_sweeps `{MO : MapOrder} : BuyerDepositSweepRepository := {|
  sweeps_t := memoryBuyerDepositSweepRepository;
  sweep_NextID := mem_sweep_NextID;
  sweep_Save := mem_sweep_Save;
  sweep_List := mem_sweep_List;
|}.

#[export] Instance memory_sweep_laws `{MO : MapOrder} : SweepLaws (S := memory_sweeps).
Proof.
  refine {| sweep_Get := (map_Get : string → mapRepository BuyerDepositSweepRecord → _);
            sweep_store := map_store sw_ID "depsweep_" |}.
  intros filter s l Hv [= <-]. by apply (map_lists sw_ID "depsweep_").
Defined.

Definition mem_index_used (r : memoryBuyerDepositAddressRepository) (i : Z) : Prop :=
  0 ≤ i < ma_nextIndex r.
Definition mem_address_valid (r : memoryBuyerDepositAddressRepository) : Prop :=
  0 ≤ ma_nextIndex r ∧
  ∀ b v, ma_data r !! b = Some v →
    da_BuyerOrgID v = b ∧ mem_index_used r (da_DerivationIndex v).

#[export] Instance memory_address_laws `{MO : MapOrder} : AddressLaws (A := memory_addresses).
Proof.
  refine {| address_valid := mem_address_valid : addresses_t → Prop;
            address_at b (r : addresses_t) := ma_data r !! b;
            index_used := mem_index_used : addresses_t → Z → Prop |}.
  - intros s b v [_ H]. apply H.
  - intros s b v _. cbn. unfold mem_address_Get. case_match; naive_solver.
  - intros s l [_ H] [= <-]. split.
    + rewrite map_order_perm.
      replace (da_BuyerOrgID <$> (snd <$> map_to_list (ma_data s)))
        with (fst <$> map_to_list (ma_data s)); [apply NoDup_fst_map_to_list|].
      rewrite <- list_fmap_compose. apply list_fmap_ext. intros i [id o] Hio. cbn.
      symmetry. apply H, elem_of_map_to_list. by eapply list_elem_of_lookup_2.
    + intros v. rewrite map_values_elem. split; [|by eauto].
      intros [id Hid]. by destruct (H _ _ Hid) as [-> _].
  - by intros s s' r Hv [= <- _].
  - intros s s' r [H0 H] [= <- <-]. split_and!.
    + split; cbn; [lia|]. intros b v Hb. destruct (H b v Hb) as [? Hu]. split; [done|].
      unfold mem_index_used in *. cbn. lia.
    + done.
    + intros i. unfold mem_index_used. cbn. lia.
    + intros i [= <-]. unfold mem_index_used. cbn. lia.
  - intros v s s' r [H0 H] Hu [= <- <-]. split_and!.
    + split; [done|]. intros b v'. cbn.
      intros [[<- <-]|[Hne Hb]]%lookup_insert_Some; [done|by apply H].
    + done.
    + intros b. cbn. case_bool_decide; subst; cbn;
        [by rewrite lookup_insert_eq|by rewrite lookup_insert_ne].
Defined.
