(* ===== verification/DepositLedger.v ===== *)
(** * The books of the deposit service

    Whatever the wallet reports and whichever repository operations fail, the
    settled top-ups of a buyer are matched, one to one, with sweeps of that buyer:
    [ledger] is that matching.  It holds initially and is kept by every
    operation, so no transaction is credited twice, and the balance shown to the
    buyer is the sum of the cents of distinct sweeps. *)

From S2P Require Import Prelude GoNum GoText Core Repo Funding Amounts Deposits.

Section ledger.
Context `{AL : AddressLaws, SL : SweepLaws, FL : FundingLaws}.
Context (s : BuyerDepositService).

(** A settled top-up; the sweep that backs it. *)
Definition credit (f : FundingRecord) : Prop :=
  fr_Kind f = FundingRecordKindBuyerTopUp ∧ is_settled f = true.
Definition backs (w : BuyerDepositSweepRecord) (f : FundingRecord) : Prop :=
  sw_BuyerOrgID w = fr_BuyerOrgID f ∧ sw_TxHash w = fr_ExternalID f ∧
  fr_Amount f =
    centsToAmountString (rawUnitsToCents (sw_AmountRaw w) (bds_rawUnitsPerWholeUSDI s)).

Definition sweep_at (id : string) (d : Deposits) : result BuyerDepositSweepRecord :=
  sweep_Get id (dp_sweeps d).
Definition funding_at (id : string) (d : Deposits) : result FundingRecord :=
  funding_Get id (dp_funding d).

(** The matching, from ids of top-ups to ids of sweeps. *)
Record ledger (d : Deposits) (link : gmap string string) : Prop := mkLedger {
  lg_addresses : address_valid (dp_addresses d);
  lg_sweeps_valid : valid (dp_sweeps d);
  lg_funding_valid : valid (dp_funding d);
  lg_named : ∀ b v, address_at b (dp_addresses d) = Some v → b ≠ "";
  lg_backed : ∀ id f, funding_at id d = Ok f → credit f →
    ∃ wid w, link !! id = Some wid ∧ sweep_at wid d = Ok w ∧ backs w f;
  lg_credits : ∀ id wid, link !! id = Some wid → ∃ f, funding_at id d = Ok f ∧ credit f;
  lg_inj : ∀ i j wid, link !! i = Some wid → link !! j = Some wid → i = j;
  lg_once : ∀ i j v w, sweep_at i d = Ok v → sweep_at j d = Ok w →
    sw_BuyerOrgID v = sw_BuyerOrgID w → sw_TxHash v = sw_TxHash w →
    blank (sw_TxHash v) = false → i = j;
}.

(** Every sweep is credited. *)
Definition complete (d : Deposits) (link : gmap string string) : Prop :=
  ∀ wid w, sweep_at wid d = Ok w → ∃ id, link !! id = Some wid.

(** The funding repository never fails. *)
Definition funding_sure : Prop :=
  (∀ x, is_ok (funding_NextID x).2 = true) ∧ (∀ r x, is_ok (funding_Save r x).2 = true).

Definition books (d : Deposits) : Prop :=
  ∃ link, ledger d link ∧ (funding_sure → complete d link).

(** The relation every operation stays in. *)
Definition keeps (d d' : Deposits) : Prop := books d → books d'.
#[export] Instance keeps_preorder : PreOrder keeps.
Proof. unfold keeps. split; red; auto. Qed.

(** The funding records and the sweeps are left alone. *)
Definition same_books (d d' : Deposits) : Prop :=
  dp_sweeps d' = dp_sweeps d ∧ dp_funding d' = dp_funding d ∧
  dp_addresses d' = dp_addresses d.
#[export] Instance same_books_preorder : PreOrder same_books.
Proof. unfold same_books. split; red; [done|]. intros x y z (->&->&->) (->&->&->). done. Qed.

Lemma same_books_keeps d d' link :
  same_books d d' → (ledger d link → ledger d' link) ∧ (complete d link → complete d' link).
Proof.
  intros (Hs & Hf & Ha). unfold complete, sweep_at. rewrite Hs. split; [|done].
  intros [? ? ? ? H1 H2 ? H4]. unfold funding_at, sweep_at in *.
  rewrite <- Hf, <- Hs in *. split; rewrite ?Ha, ?Hf, ?Hs; unfold funding_at, sweep_at;
    rewrite <- ?Hf, <- ?Hs; congruence || eauto.
Qed.

Lemma frames_keeps {T} (m : ST Deposits T) : frames same_books m → frames keeps m.
Proof.
  intros Hm d (link & Hl & Hc). exists link. specialize (Hm d).
  pose proof (same_books_keeps _ _ link Hm) as [H1 H2]. auto.
Qed.

Lemma frames_now : frames same_books (now s).
Proof. by intros d. Qed.
Lemma frames_ask {T} call (answer : list WalletCall → result T) :
  frames same_books (ask call answer).
Proof. by intros d. Qed.
Lemma frames_hasSettled b e : frames same_books (hasSettledBuyerTopUp b e).
Proof. unfold hasSettledBuyerTopUp. solve_frames. Qed.
#[local] Hint Resolve frames_now frames_ask frames_hasSettled : frames.

(** ** Addresses *)

(** What [EnsureAddress] does: nothing but hand out ids and indices, or a new
    address for the buyer, under an index no address had. *)
Lemma EnsureAddress_spec b d d' r :
  address_valid (dp_addresses d) → EnsureAddress s b d = (d', r) →
  dp_sweeps d' = dp_sweeps d ∧ dp_funding d' = dp_funding d ∧
  address_valid (dp_addresses d') ∧
  (∀ i, index_used (dp_addresses d) i → index_used (dp_addresses d') i) ∧
  ((∀ x, address_at x (dp_addresses d') = address_at x (dp_addresses d)) ∧
     (∀ v, r = Ok v → address_at (TrimSpace b) (dp_addresses d') = Some v) ∨
   blank b = false ∧
   is_ok (address_GetByBuyerOrgID (TrimSpace b) (dp_addresses d)) = false ∧
   ∃ v, r = Ok v ∧ da_BuyerOrgID v = TrimSpace b ∧
     ¬ index_used (dp_addresses d) (da_DerivationIndex v) ∧
     ∀ x, address_at x (dp_addresses d') =
       (if decide (x = TrimSpace b) then Some v else address_at x (dp_addresses d))).
Proof.
  intros Hv. unfold EnsureAddress. unfold mbind, st_bind, fail_if, query, attempt, mret, st_ret, throw.
  destruct (blank b) eqn:Hb.
  { intros [= <- <-]. split_and!; try done. left. split; [done|by intros v]. }
  destruct (address_GetByBuyerOrgID (TrimSpace b) (dp_addresses d)) as [v|e] eqn:Hg.
  { intros [= <- <-]. split_and!; try done. left. split; [done|].
    intros v' [= <-]. by apply address_get_spec. }
  destruct (bds_wallet s) as [wallet|].
  2: { intros [= <- <-]. split_and!; try done. left. split; [done|by intros v]. }
  unfold on_addresses, zoom.
  destruct (address_NextDerivationIndex (dp_addresses d)) as [a1 r1] eqn:Hi.
  destruct (address_index_spec _ _ _ Hv Hi) as (Hv1 & Hat1 & Hu1 & Hn1).
  destruct r1 as [i|e1].
  2: { intros [= <- <-]. split_and!; try done. left. split; [done|by intros v]. }
  destruct (Hn1 i eq_refl) as [Hui Hni].
  unfold ask. cbn [dp_calls dp_addresses update].
  destruct (DeriveAddress wallet _ i) as [addr|e2].
  2: { intros [= <- <-]. split_and!; try done. left. split; [done|by intros v]. }
  destruct (blank addr).
  { intros [= <- <-]. split_and!; try done. left. split; [done|by intros v]. }
  cbn [dp_addresses update].
  destruct (address_NextID a1) as [a2 r2] eqn:Hid.
  destruct (address_id_spec _ _ _ Hv1 Hid) as (Hv2 & Hat2 & Hu2).
  destruct r2 as [id|e3].
  2: { intros [= <- <-]. cbn. split_and!; try done; [intros j Hj; by apply Hu2, Hu1|].
       left. split; [intros x; by rewrite Hat2, Hat1|by intros v]. }
  unfold now. cbn [dp_addresses dp_ticks update].
  set (rec := mkDepositAddress _ _ _ _ _ _ _).
  destruct (address_Save rec a2) as [a3 r3] eqn:Hs.
  destruct (address_save_spec rec a2 a3 r3 Hv2 (proj2 (Hu2 i) Hui) Hs) as (Hv3 & Hu3 & Hat3).
  destruct r3 as [[]|e4]; intros [= <- <-]; cbn [dp_addresses dp_sweeps dp_funding update];
    (split_and!; [done..| |]; [intros j Hj; by apply Hu3, Hu2, Hu1|]).
  - right. split_and!; [done..|]. exists rec. split_and!; [done..|].
    intros x. rewrite Hat3, Hat2, Hat1. cbn [is_ok andb].
    case_bool_decide as Hx; [by rewrite decide_True|by rewrite decide_False].
  - left. split; [|by intros v]. intros x. by rewrite Hat3, Hat2, Hat1.
Qed.

Lemma TrimSpace_named b : blank b = false → TrimSpace b ≠ "".
Proof. unfold blank. by intros H%String.eqb_neq. Qed.

Lemma EnsureAddress_keeps b : frames keeps (EnsureAddress s b).
Proof.
  intros d (link & Hl & Hc). exists link.
  destruct (EnsureAddress s b d) as [d' r] eqn:He.
  destruct (EnsureAddress_spec _ _ _ _ (lg_addresses _ _ Hl) He)
    as (Hsw & Hfu & Hva & _ & Hat). cbn [fst].
  unfold complete, sweep_at in *. rewrite Hsw. split; [|done].
  destruct Hl as [? ? ? Hn H1 H2 ? H4]. unfold funding_at, sweep_at in *.
  split; unfold funding_at, sweep_at; rewrite ?Hsw, ?Hfu; try done.
  intros x v Hx. destruct Hat as [[Hat _]|(Hb & _ & v' & _ & _ & _ & Hat)].
  - rewrite Hat in Hx. by eapply Hn.
  - rewrite Hat in Hx. case_decide as Hd; [|by eapply Hn].
    subst. by apply TrimSpace_named.
Qed.

Lemma GetSummary_keeps b : frames keeps (GetSummary s b).
Proof.
  unfold GetSummary. apply frames_bind; [typeclasses eauto|apply EnsureAddress_keeps|].
  intros record. apply frames_keeps. destruct (bds_wallet s); solve_frames.
Qed.

(** ** Crediting a sweep *)

Lemma ledger_same d d' link :
  ledger d link → dp_addresses d' = dp_addresses d → dp_sweeps d' = dp_sweeps d →
  valid (dp_funding d') → (∀ id, funding_at id d' = funding_at id d) → ledger d' link.
Proof.
  intros [? ? ? ? H1 H2 ? H4] Ha Hs Hv Hf. unfold sweep_at in *.
  split; unfold sweep_at; rewrite ?Ha, ?Hs; try done; intros id ?; rewrite Hf; eauto.
Qed.

Lemma saveBuyerTopUpFunding_books record treasury wid w d d' r link :
  ledger d link → sweep_at wid d = Ok w → (∀ id, link !! id ≠ Some wid) →
  sw_BuyerOrgID w = da_BuyerOrgID record →
  saveBuyerTopUpFunding s record treasury (sw_TxHash w)
    (rawUnitsToCents (sw_AmountRaw w) (bds_rawUnitsPerWholeUSDI s)) d = (d', r) →
  dp_sweeps d' = dp_sweeps d ∧ (funding_sure → is_ok r = true) ∧
  ∃ link', ledger d' link' ∧
    ∀ x, (∃ id, link !! id = Some x) ∨ (x = wid ∧ is_ok r = true) →
      ∃ id, link' !! id = Some x.
Proof.
  intros Hl Hw Hfree Hb. unfold saveBuyerTopUpFunding, mbind, st_bind, on_funding, zoom.
  pose proof Hl as [Hva Hvs Hvf Hn Hback Hcred Hinj Honce]. unfold funding_at in *.
  destruct (funding_NextID (dp_funding d)) as [f1 r1] eqn:Hid.
  pose proof (next_valid _ _ _ Hvf Hid) as Hv1.
  assert (Hg1 : ∀ id, funding_Get id f1 = funding_Get id (dp_funding d))
    by (intros id; by eapply next_get).
  destruct r1 as [fid|e].
  2: { intros [= <- <-]. split_and!; [done|intros [Hs _]|].
       - by specialize (Hs (dp_funding d)); rewrite Hid in Hs.
       - exists link. split; [|intros x [?|[_ ?]]; done].
         by apply (ledger_same d). }
  destruct (next_fresh _ _ _ Hvf Hid) as [Hiss Hnew].
  assert (Habs : link !! fid = None).
  { destruct (link !! fid) as [x|] eqn:Hx; [|done]. destruct (Hcred _ _ Hx) as (f & Hf & _).
    destruct Hnew. by eapply get_issued. }
  unfold now. cbn [dp_funding dp_ticks update]. set (f := mkFundingRecord _ _ _ _ _ _ _ _ _ _ _ _ _ _).
  destruct (funding_Save f f1) as [f2 r2] eqn:Hs.
  pose proof (save_valid f _ _ _ Hv1 Hiss Hs) as Hv2.
  intros [= <- <-]. cbn [dp_sweeps update]. split_and!; [done|intros [_ Hok]|].
  { specialize (Hok f f1). by rewrite Hs in Hok. }
  destruct r2 as [[]|e].
  2: { exists link. split; [|intros x [?|[_ ?]]; done].
       pose proof (save_err _ _ _ _ Hs) as Hsame.
       apply (ledger_same d); [done..|]. intros id. unfold funding_at. cbn.
       by rewrite Hsame, Hg1. }
  exists (<[fid := wid]> link). split.
  2: { intros x [[id Hx]|[-> _]]; [|exists fid; by rewrite lookup_insert_eq].
       exists id. rewrite lookup_insert_ne; [done|]. intros ->. by rewrite Habs in Hx. }
  pose proof (save_get f _ _ Hv1 Hs) as Hfid. change (fr_ID f) with fid in Hfid.
  assert (Hothers : ∀ id, id ≠ fid → funding_Get id f2 = funding_Get id (dp_funding d)).
  { intros id Hne. rewrite <- Hg1. eapply save_get_ne; [exact Hs|done]. }
  assert (Hc : credit f) by (split; reflexivity).
  split; unfold funding_at, sweep_at in *; cbn [dp_funding dp_sweeps dp_addresses update];
    [done..| | | |done].
  - intros id f' Hf' Hcf. destruct (decide (id = fid)) as [->|Hne].
    + rewrite Hfid in Hf'. injection Hf' as <-. exists wid, w.
      rewrite lookup_insert_eq. split_and!; [done..|]. by split_and!.
    + rewrite Hothers in Hf' by done. rewrite lookup_insert_ne by done. by apply Hback.
  - intros id x. destruct (decide (id = fid)) as [->|Hne].
    + intros _. eauto.
    + rewrite lookup_insert_ne, Hothers by done. apply Hcred.
  - intros i j x [[<- <-]|[Hi Hx]]%lookup_insert_Some [[<- Hy]|[Hj Hy]]%lookup_insert_Some;
      [done|by destruct (Hfree j)|subst; by destruct (Hfree i)|by eapply Hinj].
Qed.

(** A transaction the service has not credited yet. *)
Lemma hasSettledBuyerTopUp_false b e d d' :
  valid (dp_funding d) → hasSettledBuyerTopUp b e d = (d', Ok false) →
  d' = d ∧ (blank e = false → ∀ id f, funding_at id d = Ok f → credit f →
    fr_BuyerOrgID f = b → fr_ExternalID f ≠ e).
Proof.
  intros Hv. unfold hasSettledBuyerTopUp. destruct (blank e); [by intros [= <-]|].
  unfold mbind, st_bind, query.
  destruct (funding_List (top_ups_of b) (dp_funding d)) as [l|] eqn:Hl; [|done].
  intros [= <- Hex]. split; [done|]. intros _ id f Hf [Hk Hst] <- <-.
  destruct (funding_List_spec _ _ _ Hv Hl) as [_ Hin].
  unfold funding_at in Hf. pose proof (get_id _ _ _ Hv Hf) as <-.
  assert (Hfl : f ∈ l).
  { apply Hin. split; [done|]. unfold funding_matches, field_matches. cbn.
    by rewrite Hk, !String.eqb_refl, !orb_true_r. }
  apply not_true_iff_false in Hex. apply Hex, existsb_exists. exists f.
  split; [by apply list_elem_of_In|]. by rewrite String.eqb_refl.
Qed.

(** What the look-up by transaction says of the stored sweeps. *)
Lemma find_sweep_spec b h d l :
  valid (dp_sweeps d) → b ≠ "" → sweep_List b (dp_sweeps d) = Ok l →
  match findBuyerDepositSweepByTxHash l h with
  | Some w => sweep_at (sw_ID w) d = Ok w ∧ sw_BuyerOrgID w = b ∧ sw_TxHash w = h ∧
      blank h = false
  | None => blank h = false → ∀ id w, sweep_at id d = Ok w → sw_BuyerOrgID w = b →
      sw_TxHash w ≠ h
  end.
Proof.
  intros Hv Hb Hl. unfold findBuyerDepositSweepByTxHash.
  destruct (blank h) eqn:Hh; [done|].
  destruct (sweep_List_spec _ _ _ Hv Hl) as [_ Hin].
  destruct (List.find _ l) as [w|] eqn:Hf.
  - apply List.find_some in Hf as [Hw Ht]. apply list_elem_of_In, Hin in Hw as [Hw Hm].
    split_and!; [done| |by apply String.eqb_eq|done].
    unfold sweep_matches, field_matches in Hm. destruct (String.eqb_spec b ""); [done|].
    by apply String.eqb_eq.
  - intros _ id w Hw Hbw Ht. pose proof (get_id _ _ _ Hv Hw) as <-.
    assert (Hwl : w ∈ l).
    { apply Hin. split; [done|]. unfold sweep_matches, field_matches.
      by rewrite Hbw, String.eqb_refl, orb_true_r. }
    apply list_elem_of_In in Hwl. apply (List.find_none _ _ Hf) in Hwl.
    by rewrite Ht, String.eqb_refl in Hwl.
Qed.

(** ** The loop *)

Lemma sync_existing_keeps record w d :
  sweep_at (sw_ID w) d = Ok w → sw_BuyerOrgID w = da_BuyerOrgID record →
  (∀ id f, funding_at id d = Ok f → credit f → fr_BuyerOrgID f = sw_BuyerOrgID w →
     fr_ExternalID f ≠ sw_TxHash w) →
  ∀ treasury, keeps d (saveBuyerTopUpFunding s record treasury (sw_TxHash w)
    (rawUnitsToCents (sw_AmountRaw w) (bds_rawUnitsPerWholeUSDI s)) d).1.
Proof.
  intros Hw Hb Hnone treasury (link & Hl & Hc).
  destruct (saveBuyerTopUpFunding s record treasury _ _ d) as [d' r] eqn:Hrun. cbn [fst].
  assert (Hfree : ∀ id, link !! id ≠ Some (sw_ID w)).
  { intros id Hid. destruct (lg_credits _ _ Hl _ _ Hid) as (f & Hf & Hcf).
    destruct (lg_backed _ _ Hl _ _ Hf Hcf) as (wid & w' & Hwid & Hw' & Hb1 & Hb2 & _).
    rewrite Hid in Hwid. injection Hwid as <-. unfold sweep_at in *.
    rewrite Hw in Hw'. injection Hw' as <-. by apply (Hnone id f). }
  destruct (saveBuyerTopUpFunding_books record treasury (sw_ID w) w d d' r link Hl)
    as (Hsw & _ & link' & Hl' & Hmono); [done..|].
  exists link'. split; [done|]. intros Hs wid w' Hw'. unfold sweep_at in *.
    rewrite Hsw in Hw'. apply Hmono. left. by apply (Hc Hs wid w').
Qed.

(** Storing a sweep of a new transaction. *)
Lemma ledger_new_sweep w d link sw1 sw2 r :
  ledger d link → sweep_NextID (dp_sweeps d) = (sw1, Ok (sw_ID w)) →
  (blank (sw_TxHash w) = false → ∀ id v, sweep_at id d = Ok v →
     sw_BuyerOrgID v = sw_BuyerOrgID w → sw_TxHash v ≠ sw_TxHash w) →
  sweep_Save w sw1 = (sw2, r) →
  let d2 := d <| dp_sweeps := sw2 |> in
  ledger d2 link ∧ (∀ id, link !! id ≠ Some (sw_ID w)) ∧
  (∀ id, sweep_at id d2 =
     (if is_ok r && bool_decide (id = sw_ID w) then Ok w else sweep_at id d)).
Proof.
  intros Hl Hid Hnew Hsave d2. pose proof (lg_sweeps_valid _ _ Hl) as Hv.
  pose proof (next_valid _ _ _ Hv Hid) as Hv1.
  destruct (next_fresh _ _ _ Hv Hid) as [Hiss Hfresh].
  pose proof (save_valid w _ _ _ Hv1 Hiss Hsave) as Hv2.
  assert (Habs : ∀ v, sweep_at (sw_ID w) d ≠ Ok v).
  { intros v Hg. apply Hfresh. by eapply get_issued. }
  assert (Hat : ∀ id, sweep_at id d2 =
     (if is_ok r && bool_decide (id = sw_ID w) then Ok w else sweep_at id d)).
  { intros id. unfold sweep_at. cbn [d2 dp_sweeps update]. destruct r as [[]|e]; cbn [is_ok andb].
    - case_bool_decide as He; [rewrite He; exact (save_get w _ _ Hv1 Hsave)|].
      rewrite (save_get_ne _ _ _ _ _ Hsave He). by eapply next_get.
    - rewrite (save_err _ _ _ _ Hsave). by eapply next_get. }
  assert (Hkeep : ∀ id v, sweep_at id d = Ok v → sweep_at id d2 = Ok v).
  { intros id v Hg. rewrite Hat. destruct (is_ok r && _) eqn:Hb; [|done].
    apply andb_true_iff in Hb as [_ ->%bool_decide_eq_true]. by destruct (Habs v). }
  pose proof Hl as [Hva _ Hvf Hn Hback Hcred Hinj Honce].
  split_and!; [split; [done|by cbn|done|done| |done|done|]| |done].
  - intros id f Hf Hcf. destruct (Hback id f Hf Hcf) as (wid & w' & ? & ? & ?).
    exists wid, w'. eauto.
  - intros i j u v. rewrite !Hat. destruct r as [[]|e]; cbn [is_ok andb]; [|apply Honce].
    intros Hu Hw Hbu Ht Hbl.
    destruct (bool_decide_reflect (i = sw_ID w)) as [Hi|Hi],
      (bool_decide_reflect (j = sw_ID w)) as [Hj|Hj].
    + by rewrite Hi, Hj.
    + injection Hu as <-. by destruct (Hnew Hbl j v Hw).
    + injection Hw as <-. rewrite Ht in Hbl. by destruct (Hnew Hbl i u Hu).
    + by eapply Honce.
  - intros id Hx. destruct (Hcred _ _ Hx) as (f & Hf & Hcf).
    destruct (Hback _ _ Hf Hcf) as (wid & w' & Hwid & Hw' & _).
    rewrite Hx in Hwid. injection Hwid as <-. by destruct (Habs w').
Qed.

(** A new sweep is stored, then credited. *)
Lemma sync_new_keeps record w d treasury sw1 sw2 r :
  books d →
  sweep_NextID (dp_sweeps d) = (sw1, Ok (sw_ID w)) →
  sw_BuyerOrgID w = da_BuyerOrgID record →
  (blank (sw_TxHash w) = false → ∀ id v, sweep_at id d = Ok v →
     sw_BuyerOrgID v = sw_BuyerOrgID w → sw_TxHash v ≠ sw_TxHash w) →
  sweep_Save w sw1 = (sw2, r) →
  let d2 := d <| dp_sweeps := sw2 |> in
  match r with
  | Err _ => books d2
  | Ok tt => books (saveBuyerTopUpFunding s record treasury (sw_TxHash w)
      (rawUnitsToCents (sw_AmountRaw w) (bds_rawUnitsPerWholeUSDI s)) d2).1
  end.
Proof.
  intros (link & Hl & Hc) Hid Hb Hnew Hsave d2.
  destruct (ledger_new_sweep w d link sw1 sw2 r Hl Hid Hnew Hsave) as (Hl2 & Hfree & Hat).
  fold d2 in Hl2, Hat. destruct r as [[]|e]; cbn [is_ok andb] in Hat.
  - destruct (saveBuyerTopUpFunding s record treasury _ _ d2) as [d3 r3] eqn:Hrun. cbn [fst].
    destruct (saveBuyerTopUpFunding_books record treasury (sw_ID w) w d2 d3 r3 link Hl2)
      as (Hsw & Hok & link' & Hl' & Hmono); [by rewrite Hat, bool_decide_true|done..|].
    exists link'. split; [done|]. intros Hs x v Hx. unfold sweep_at in Hx.
    rewrite Hsw in Hx. fold (sweep_at x d2) in Hx. rewrite Hat in Hx. apply Hmono.
    case_bool_decide; [right; auto|left]. by apply (Hc Hs x v).
  - exists link. split; [done|]. intros Hs x v. rewrite Hat. by apply (Hc Hs).
Qed.

(** An id is drawn for the sweep. *)
Lemma sync_id_keeps d sw1 e :
  books d → sweep_NextID (dp_sweeps d) = (sw1, Err e) → books (d <| dp_sweeps := sw1 |>).
Proof.
  intros (link & Hl & Hc) Hid. pose proof (lg_sweeps_valid _ _ Hl) as Hv.
  assert (Hat : ∀ id, sweep_at id (d <| dp_sweeps := sw1 |>) = sweep_at id d)
    by (intros id; exact (next_get _ _ _ id Hid)).
  exists link. split; [|intros Hs x v; rewrite Hat; by apply (Hc Hs)].
  pose proof Hl as [Hva _ Hvf Hn Hback Hcred Hinj Honce].
  split; [done|exact (next_valid _ _ _ Hv Hid)|done|done| |done|done|].
  - intros id f Hf Hcf. destruct (Hback id f Hf Hcf) as (wid & w & ? & Hw & ?).
    exists wid, w. by rewrite Hat.
  - intros i j u v. rewrite !Hat. apply Honce.
Qed.

Lemma sync_record_keeps wallet summary record :
  da_BuyerOrgID record ≠ "" →
  frames keeps (sync_record s wallet summary record).
Proof.
  intros Hb. unfold sync_record.
  apply frames_bind; [typeclasses eauto|by apply frames_keeps, frames_ask|]. intros balance.
  destruct (_ <? _); [apply frames_ret; typeclasses eauto|].
  apply frames_bind; [typeclasses eauto|by apply frames_keeps, frames_ask|]. intros result.
  destruct (_ <=? 0); [apply frames_ret; typeclasses eauto|].
  intros d. apply (frames_bind_at keeps); [apply frames_query; typeclasses eauto|].
  intros d' sweeps [= <- Hsweeps] Hbooks.
  pose proof Hbooks as (link & Hl & _).
  pose proof (find_sweep_spec _ (sr_SweepTxHash result) _ _ (lg_sweeps_valid _ _ Hl) Hb Hsweeps)
    as Hfind. destruct (findBuyerDepositSweepByTxHash _ _) as [w|].
  - destruct Hfind as (Hw & Hbw & Hh & Hbl). revert Hbooks.
    apply (frames_bind_at keeps); [by apply frames_keeps, frames_hasSettled|].
    intros d' [] Hset; [intros H; apply H|].
    destruct (hasSettledBuyerTopUp_false _ _ _ _ (lg_funding_valid _ _ Hl) Hset) as [-> Hnone].
    apply (frames_bind_at keeps); [|intros d' [] _ H; apply H].
    rewrite <- Hh in Hnone. rewrite <- Hbw in Hnone.
    apply (sync_existing_keeps record w); [done..|]. apply Hnone. by rewrite Hh.
  - unfold mbind at 1, st_bind at 1, now at 1.
    set (d1 := d <| dp_ticks ::= Datatypes.S |>).
    assert (Hb1 : books d1) by (revert Hbooks; exact (frames_keeps (now s) frames_now d)).
    unfold on_sweeps, zoom. unfold mbind at 1, st_bind at 1.
    destruct (sweep_NextID (dp_sweeps d1)) as [sw1 [sid|e]] eqn:Hid;
      [|by apply (sync_id_keeps d1 sw1 e)].
    set (w := mkSweepRecord _ _ _ _ _ _ _ _ _ _).
    unfold mbind at 1, st_bind at 1. cbn [dp_sweeps update].
    destruct (sweep_Save w sw1) as [sw2 r] eqn:Hsave.
    pose proof (sync_new_keeps record w d1
      (firstNonEmptySweepAddress (sr_TreasuryAddress result) (bds_treasuryAddress s))
      sw1 sw2 r Hb1 Hid eq_refl Hfind Hsave) as Hk. cbn zeta in Hk.
    destruct r as [[]|e]; [|exact Hk].
    unfold mbind at 1, st_bind at 1. cbn [w sw_TxHash sw_AmountRaw] in Hk.
    change (d1 <| dp_sweeps := sw1 |> <| dp_sweeps := sw2 |>) with (d1 <| dp_sweeps := sw2 |>).
    destruct (saveBuyerTopUpFunding _ _ _ _ _ _) as [d3 [[]|e]]; exact Hk.
Qed.

Lemma sync_records_keeps wallet summary records :
  Forall (λ r, da_BuyerOrgID r ≠ "") records →
  frames keeps (sync_records s wallet summary records).
Proof.
  intros Hall. revert summary. induction Hall as [|r l Hr Hl IH]; intros summary.
  - apply frames_ret. typeclasses eauto.
  - cbn [sync_records]. apply frames_bind; [typeclasses eauto| |done].
    by apply sync_record_keeps.
Qed.

Lemma SyncDeposits_keeps : frames keeps (SyncDeposits s).
Proof.
  unfold SyncDeposits. destruct (bds_wallet s) as [wallet|];
    [|apply frames_ret; typeclasses eauto].
  intros d. apply (frames_bind_at keeps); [apply frames_query; typeclasses eauto|].
  intros d' records [= <- Hrec] Hbooks. pose proof Hbooks as (link & Hl & _). revert Hbooks.
  apply sync_records_keeps. apply Forall_forall. intros r Hr.
  destruct (address_list_spec _ _ (lg_addresses _ _ Hl) Hrec) as [_ Hin].
  apply Hin in Hr. by eapply lg_named.
Qed.

(** ** Histories *)

Lemma run_keeps (ops : list DepositOp) d :
  books d → books (deposit_run s ops d).
Proof.
  unfold deposit_run. revert d.
  induction ops as [|op ops IH]; intros d Hb; [done|]. apply IH.
  revert Hb. destruct op as [b|b|]; cbn.
  - apply EnsureAddress_keeps.
  - apply GetSummary_keeps.
  - apply SyncDeposits_keeps.
Qed.

(** The service starts with no addresses, sweeps and top-ups it knows of. *)
Definition opening (d : Deposits) : Prop :=
  address_valid (dp_addresses d) ∧ valid (dp_sweeps d) ∧ valid (dp_funding d) ∧
  (∀ b, address_at b (dp_addresses d) = None) ∧
  (∀ id, is_ok (sweep_at id d) = false) ∧
  (∀ id f, funding_at id d = Ok f → ¬ credit f).

Lemma opening_books d : opening d → books d.
Proof.
  intros (Ha & Hs & Hf & Hno & Hnosw & Hnof). exists ∅. split.
  - split; try done.
    + intros b v Hb. by rewrite Hno in Hb.
    + intros id f H Hc. by destruct (Hnof id f).
    + intros i j v w Hv. specialize (Hnosw i). by rewrite Hv in Hnosw.
  - intros _ wid w Hw. specialize (Hnosw wid). by rewrite Hw in Hnosw.
Qed.

(** ** The credited balance *)

Definition sweep_cents (w : BuyerDepositSweepRecord) : Z :=
  rawUnitsToCents (sw_AmountRaw w) (bds_rawUnitsPerWholeUSDI s).

Lemma sweep_cents_in64 w : in64 (sweep_cents w).
Proof.
  unfold sweep_cents, rawUnitsToCents. destruct (_ || _); [in64_lia|]. apply wrap64_in64.
Qed.

Lemma credited_cents_sum credits :
  credited_cents credits =
  sum64 ((λ r, parseAmountToCents64 (fr_Amount r)) <$> List.filter is_settled credits).
Proof.
  unfold credited_cents, sum64. generalize 0. induction credits as [|r l IH]; intros acc; [done|].
  cbn [foldl List.filter]. rewrite IH. by destruct (is_settled r).
Qed.

(** The sweeps that back a list of stored top-ups. *)
Lemma backing_sweeps d link l :
  ledger d link → NoDup (fr_ID <$> l) →
  Forall (λ f, funding_at (fr_ID f) d = Ok f ∧ credit f) l →
  ∃ ws, NoDup (sw_ID <$> ws) ∧
    Forall2 (λ f w, link !! fr_ID f = Some (sw_ID w) ∧ sweep_at (sw_ID w) d = Ok w ∧
      backs w f) l ws.
Proof.
  intros Hl. induction l as [|f l IH]; intros Hnd Hall.
  { exists []. split; constructor. }
  apply NoDup_cons in Hnd as [Hf Hnd]. apply Forall_cons in Hall as [[Hat Hc] Hall].
  destruct (IH Hnd Hall) as (ws & Hnw & H2).
  destruct (lg_backed _ _ Hl _ _ Hat Hc) as (wid & w & Hwid & Hw & Hback).
  pose proof (get_id _ _ _ (lg_sweeps_valid _ _ Hl) Hw) as <-.
  exists (w :: ws). split; [|by constructor]. cbn. constructor; [|done].
  intros (w' & Heq & Hin)%list_elem_of_fmap.
  destruct (Forall2_elem_r _ _ _ _ H2 Hin) as (f' & Hf' & Hlink & _).
  apply Hf. rewrite (lg_inj _ _ Hl (fr_ID f) (fr_ID f') (sw_ID w)); [|done|by rewrite Heq].
  by apply list_elem_of_fmap_2.
Qed.

(** C17. However the wallet and the repositories answer, over any history of the
    deposit service no transaction of a buyer is credited twice: settled top-ups
    of one buyer that carry the same transaction hash are one record. *)
Theorem credited_once (ops : list DepositOp) (d0 : Deposits) :
  opening d0 →
  let d := deposit_run s ops d0 in
  ∀ i j f g, funding_at i d = Ok f → funding_at j d = Ok g → credit f → credit g →
    fr_BuyerOrgID f = fr_BuyerOrgID g → fr_ExternalID f = fr_ExternalID g →
    blank (fr_ExternalID f) = false → i = j.
Proof.
  intros Hopen d i j f g Hf Hg Hcf Hcg Hb Hx Hbl.
  destruct (run_keeps ops d0 (opening_books d0 Hopen)) as (link & Hl & _).
  destruct (lg_backed _ _ Hl _ _ Hf Hcf) as (wi & v & Hi & Hv & Hvb & Hvt & _).
  destruct (lg_backed _ _ Hl _ _ Hg Hcg) as (wj & w & Hj & Hw & Hwb & Hwt & _).
  apply (lg_inj _ _ Hl i j wi Hi). rewrite Hj. f_equal.
  eapply (lg_once _ _ Hl); [exact Hw|exact Hv|congruence..].
Qed.

Lemma GetSummary_Ok b d d' sum :
  address_valid (dp_addresses d) → GetSummary s b d = (d', Ok sum) →
  b ≠ "" ∧ ∃ credits, funding_List (top_ups_of b) (dp_funding d) = Ok credits ∧
    bs_CreditedBalanceCents sum = credited_cents credits ∧
    bs_CreditedBalance sum = centsToAmountString (credited_cents credits).
Proof.
  intros Hv H. unfold GetSummary in H. apply bind_Ok in H as (d1 & record & He & H).
  destruct (EnsureAddress_spec _ _ _ _ Hv He) as (_ & Hfu & _).
  split.
  { intros ->. unfold EnsureAddress in He. by rewrite blank_empty in He. }
  apply bind_Ok in H as (d2 & balance & Hbal & H).
  assert (Hf2 : dp_funding d2 = dp_funding d).
  { rewrite <- Hfu. destruct (bds_wallet s); [|by injection Hbal as <- _].
    by injection Hbal as <- _. }
  apply bind_Ok in H as (d3 & credits & [= <- Hcr] & [= <- <-]).
  exists credits. by rewrite <- Hf2.
Qed.

(** C18. The balance shown to a buyer is the sum, in int64, of the cents of
    distinct sweeps of that buyer, and of all of them if the funding records
    can always be written. *)
Theorem balance_is_sweeps (ops : list DepositOp) (d0 : Deposits) (b : string) d' sum :
  opening d0 →
  let d := deposit_run s ops d0 in
  GetSummary s b d = (d', Ok sum) →
  ∃ ws, NoDup (sw_ID <$> ws) ∧
    (∀ w, w ∈ ws → sweep_at (sw_ID w) d = Ok w ∧ sw_BuyerOrgID w = b) ∧
    (funding_sure → ∀ id w, sweep_at id d = Ok w → sw_BuyerOrgID w = b → w ∈ ws) ∧
    bs_CreditedBalanceCents sum = wrap64 (sumZ (sweep_cents <$> ws)) ∧
    bs_CreditedBalance sum = centsToAmountString (wrap64 (sumZ (sweep_cents <$> ws))).
Proof.
  intros Hopen d Hsum.
  destruct (run_keeps ops d0 (opening_books d0 Hopen)) as (link & Hl & Hc). fold d in Hl, Hc.
  destruct (GetSummary_Ok _ _ _ _ (lg_addresses _ _ Hl) Hsum) as (Hb & l & Hlist & Hcents & Htext).
  destruct (funding_List_spec _ _ _ (lg_funding_valid _ _ Hl) Hlist) as [Hnd Hin].
  rewrite credited_cents_sum in Hcents, Htext.
  assert (Hmem : ∀ f, f ∈ List.filter is_settled l ↔
    funding_at (fr_ID f) d = Ok f ∧ credit f ∧ fr_BuyerOrgID f = b).
  { intros f. rewrite list_elem_of_In, List.filter_In, <- list_elem_of_In, Hin.
    unfold funding_matches, field_matches, credit, funding_at. cbn.
    rewrite !andb_true_r. destruct (String.eqb_spec b ""); [done|]. cbn [orb].
    rewrite andb_true_iff, !String.eqb_eq. tauto. }
  destruct (backing_sweeps d link (List.filter is_settled l) Hl) as (ws & Hnw & H2).
  { by apply NoDup_filter_fmap. }
  { apply Forall_forall. intros f Hf. apply Hmem in Hf as (? & ? & _). done. }
  assert (Hws : ∀ w, w ∈ ws → sweep_at (sw_ID w) d = Ok w ∧ sw_BuyerOrgID w = b).
  { intros w Hw. destruct (Forall2_elem_r _ _ _ _ H2 Hw) as (f & Hf & _ & Hat & Hbw & _).
    apply Hmem in Hf as (_ & _ & <-). done. }
  assert (Hsum' : (λ r, parseAmountToCents64 (fr_Amount r)) <$> List.filter is_settled l =
                  sweep_cents <$> ws).
  { clear -H2. induction H2 as [|f w fs ws' (_ & _ & _ & _ & Ha)]; [done|]. cbn. f_equal; [|done].
    rewrite Ha. apply parse_centsToAmountString, sweep_cents_in64. }
  rewrite Hsum', sum64_wrap in Hcents, Htext. exists ws. split_and!; try done.
  intros Hsure id w Hw Hbw. destruct (Hc Hsure id w Hw) as [fid Hfid].
  pose proof (get_id _ _ _ (lg_sweeps_valid _ _ Hl) Hw) as <-.
  destruct (lg_credits _ _ Hl _ _ Hfid) as (f & Hf & Hcf).
  pose proof (get_id _ _ _ (lg_funding_valid _ _ Hl) Hf) as <-.
  destruct (lg_backed _ _ Hl _ _ Hf Hcf) as (wid & w' & Hwid & Hw' & Hbw' & _).
  rewrite Hfid in Hwid. injection Hwid as <-. rewrite Hw in Hw'. injection Hw' as <-.
  assert (Hfl : f ∈ List.filter is_settled l) by (apply Hmem; split_and!; [done..|congruence]).
  destruct (Forall2_elem_l _ _ _ _ H2 Hfl) as (w' & Hw'l & Hlink & Hat & _).
  rewrite Hfid in Hlink. injection Hlink as Heq. rewrite <- Heq, Hw in Hat. by injection Hat as <-.
Qed.

(** ** Addresses *)

(** Two buyers never share a derivation index. *)
Definition distinct_indices (d : Deposits) : Prop :=
  address_valid (dp_addresses d) ∧
  ∀ x y u v, address_at x (dp_addresses d) = Some u → address_at y (dp_addresses d) = Some v →
    da_DerivationIndex u = da_DerivationIndex v → x = y.

Lemma EnsureAddress_distinct b d :
  distinct_indices d → distinct_indices (EnsureAddress s b d).1.
Proof.
  intros [Hv Hd]. destruct (EnsureAddress s b d) as [d' r] eqn:He. cbn [fst].
  destruct (EnsureAddress_spec _ _ _ _ Hv He) as (_ & _ & Hv' & _ & Hat).
  split; [done|]. intros x y u v.
  destruct Hat as [[Hat _]|(_ & _ & w & _ & _ & Hnew & Hat)]; rewrite !Hat; [apply Hd|].
  assert (Hused : ∀ z t, address_at z (dp_addresses d) = Some t →
    da_DerivationIndex t ≠ da_DerivationIndex w).
  { intros z t Ht Heq. apply Hnew. rewrite <- Heq. by apply address_at_spec in Ht as [_ ?]. }
  do 2 case_decide; intros Hx Hy Hi; simplify_eq; [done| | |by eapply Hd].
  - by destruct (Hused _ _ Hy).
  - by destruct (Hused _ _ Hx).
Qed.

Lemma sync_addresses : frames (λ d d', dp_addresses d' = dp_addresses d) (SyncDeposits s).
Proof.
  assert (PreOrder (λ d d' : Deposits, dp_addresses d' = dp_addresses d))
    by (split; red; congruence).
  assert (Hz : ∀ T (m : ST sweeps_t T),
    frames (λ d d', dp_addresses d' = dp_addresses d) (on_sweeps m))
    by (intros T m d; unfold on_sweeps, zoom; by destruct (m _)).
  assert (Hf : ∀ T (m : ST funding_t T),
    frames (λ d d', dp_addresses d' = dp_addresses d) (on_funding m))
    by (intros T m d; unfold on_funding, zoom; by destruct (m _)).
  assert (Hn : frames (λ d d', dp_addresses d' = dp_addresses d) (now s)) by (by intros d).
  assert (Ha : ∀ T call (answer : list WalletCall → result T),
    frames (λ d d', dp_addresses d' = dp_addresses d) (ask call answer)) by (by intros).
  unfold SyncDeposits. destruct (bds_wallet s) as [wallet|]; [|solve_frames].
  apply frames_bind; [done|solve_frames|]. intros records. generalize (mkSyncSummary 0 0).
  induction records as [|r l IH]; intros sum; cbn [sync_records]; [solve_frames|].
  apply frames_bind; [done| |done]. unfold sync_record, hasSettledBuyerTopUp, saveBuyerTopUpFunding.
  solve_frames; auto.
Qed.

(** Each buyer's deposit address is derived under an index of its own: over
    any history no two buyers are given the same one. *)
Theorem derivation_indices_distinct (ops : list DepositOp) (d0 : Deposits) :
  distinct_indices d0 → distinct_indices (deposit_run s ops d0).
Proof.
  unfold deposit_run. revert d0. induction ops as [|op ops IH]; intros d Hd; [done|]. apply IH.
  destruct op as [b|b|]; cbn [deposit_step].
  - by apply EnsureAddress_distinct.
  - pose proof (EnsureAddress_distinct b d Hd) as He. unfold GetSummary, mbind, st_bind.
    destruct (EnsureAddress s b d) as [d1 [record|e]]; [|done]. cbn [fst] in *.
    destruct (bds_wallet s) as [wallet|].
    + unfold ask. destruct (QueryBalance _ _ _); [|done]. unfold query.
      by destruct (funding_List _ _).
    + cbn. unfold query. by destruct (funding_List _ _).
  - unfold distinct_indices. by rewrite (sync_addresses d).
Qed.
End ledger.

#[export] Hint Resolve frames_now frames_ask frames_hasSettled : frames.

(** ** Concrete runs *)

Module Runs.

(** A wallet whose address always holds 12.34 confirmed units.  Its first two
    sweeps are one transaction, the next ones another. *)
Definition wallet : BuyerDepositWallet := {|
  DeriveAddress := λ _ i, Ok ("ckt1_" +:+ pretty i);
  QueryBalance := λ _ r, Ok (mkChainBalance (da_Address r) 12340000 12340000 24);
  SweepToTreasury := λ calls r t _,
    let sweeps := List.filter (λ c, match c with CallSweep _ _ _ => true | _ => false end) calls in
    Ok (mkSweepResult (if (2 <=? length sweeps)%nat then "0xbb" else "0xaa") 12340000 t);
|}.
Definition service : BuyerDepositService :=
  NewBuyerDepositService (mkDepositService (Some wallet) "" "ckt1_treasury" 0 0 0 (λ n, Z.of_nat n)).
Definition fresh : Deposits (A := @memory_addresses plain_order) (W := @memory_sweeps plain_order)
    (F := @memory_funding plain_order) :=
  mkDeposits (A := @memory_addresses plain_order) (W := @memory_sweeps plain_order)
    (F := @memory_funding plain_order)
    NewMemoryBuyerDepositAddressRepository NewMemoryBuyerDepositSweepRepository
    NewMemoryFundingRecordRepository [] 0.
Definition ops : list DepositOp := [OpEnsure " buyer_1 "; OpSync; OpSync; OpSync].

Lemma fresh_opening :
  opening (AL := memory_address_laws (MO := plain_order)) (SL := memory_sweep_laws (MO := plain_order))
    (FL := memory_funding_laws (MO := plain_order)) fresh.
Proof. split_and!; try done; (split; [done|intros id v H; by rewrite lookup_empty in H]). Defined.

Lemma credited_once_witness :
  opening (AL := memory_address_laws (MO := plain_order)) (SL := memory_sweep_laws (MO := plain_order))
    (FL := memory_funding_laws (MO := plain_order)) fresh ∧
  (∀ i f g, funding_at (FL := memory_funding_laws (MO := plain_order)) i
              (deposit_run service ops fresh) = Ok f →
     funding_at (FL := memory_funding_laws (MO := plain_order)) "fund_1"
       (deposit_run service ops fresh) = Ok g →
     credit f → credit g → fr_BuyerOrgID f = fr_BuyerOrgID g →
     fr_ExternalID f = fr_ExternalID g → blank (fr_ExternalID f) = false → i = "fund_1").
Proof.
  split; [exact fresh_opening|]. intros i f g.
  exact (credited_once (AL := memory_address_laws (MO := plain_order))
    (SL := memory_sweep_laws (MO := plain_order)) (FL := memory_funding_laws (MO := plain_order))
    service ops fresh fresh_opening i "fund_1" f g).
Defined.

(** Three syncs, two transactions: 24.68 credited. *)
Example two_credits :
  bs_CreditedBalance <$> (GetSummary service "buyer_1" (deposit_run service ops fresh)).2 = Ok "24.68".
Proof. vm_compute. reflexivity. Qed.

Lemma balance_is_sweeps_witness :
  ∃ d' sum, GetSummary service "buyer_1" (deposit_run service ops fresh) = (d', Ok sum) ∧
  ∃ ws, NoDup (sw_ID <$> ws) ∧
    bs_CreditedBalanceCents sum = wrap64 (sumZ (sweep_cents service <$> ws)).
Proof.
  destruct (GetSummary service "buyer_1" (deposit_run service ops fresh)) as [d' [sum|e]] eqn:Hs.
  2: { exfalso. apply (f_equal (λ x, is_ok x.2)) in Hs. vm_compute in Hs. discriminate Hs. }
  exists d', sum. split; [reflexivity|].
  destruct (balance_is_sweeps (AL := memory_address_laws (MO := plain_order))
    (SL := memory_sweep_laws (MO := plain_order)) (FL := memory_funding_laws (MO := plain_order))
    service ops fresh "buyer_1" d' sum fresh_opening Hs) as (ws & Hnd & _ & _ & Hc & _).
  exists ws. split; [exact Hnd|exact Hc].
Defined.

Lemma derivation_indices_distinct_witness :
  distinct_indices (AL := memory_address_laws (MO := plain_order)) fresh ∧
  distinct_indices (AL := memory_address_laws (MO := plain_order))
    (deposit_run service [OpEnsure "buyer_1"; OpSummary "buyer_2"; OpSync] fresh).
Proof.
  assert (H : distinct_indices (AL := memory_address_laws (MO := plain_order)) fresh).
  { split; [split; [done|intros b v Hb;
      change ((∅ : gmap string BuyerDepositAddress) !! b = Some v) in Hb; by rewrite lookup_empty in Hb]|].
    intros x y u v Hx. change ((∅ : gmap string BuyerDepositAddress) !! x = Some u) in Hx.
    by rewrite lookup_empty in Hx. }
  split; [exact H|].
  exact (derivation_indices_distinct (AL := memory_address_laws (MO := plain_order))
    service _ fresh H).
Defined.

(** *** Storage that is down for a while *)

(** The in-memory addresses behind a connection that may be down for reads. *)
#[local] Instance unsteady_addresses : BuyerDepositAddressRepository := {|
  addresses_t := bool * memoryBuyerDepositAddressRepository;
  address_NextID := λ '(down, r), let '(r', x) := mem_address_NextID r in ((down, r'), x);
  address_NextDerivationIndex :=
    λ '(down, r), let '(r', x) := mem_address_NextDerivationIndex r in ((down, r'), x);
  address_Save v := λ '(down, r), let '(r', x) := mem_address_Save v r in ((down, r'), x);
  address_GetByBuyerOrgID b :=
    λ '(down, r), if (down : bool) then Err (Errf "connection refused") else mem_address_Get b r;
  address_List := λ '(down, r), mem_address_List (MO := plain_order) r;
|}.

(** In-memory funding records whose next saves fail as the list says. *)
#[local] Instance unsteady_funding : FundingRecordRepository := {|
  funding_t := list bool * memoryFundingRecordRepository;
  funding_NextID := λ '(fails, r), let '(r', x) := mem_funding_NextID r in ((fails, r'), x);
  funding_Save v := λ '(fails, r),
    match fails with
    | true :: fails' => ((fails', r), Err (Errf "connection reset"))
    | _ => let '(r', x) := mem_funding_Save v r in ((List.tail fails, r'), x)
    end;
  funding_UpdateInvoiceState t i st := λ '(fails, r),
    let '(r', x) := mem_funding_UpdateInvoiceState t i st r in ((fails, r'), x);
  funding_UpdateExternalState t i st := λ '(fails, r),
    let '(r', x) := mem_funding_UpdateExternalState t i st r in ((fails, r'), x);
  funding_List f := λ '(_, r), mem_funding_List (MO := plain_order) f r;
|}.

Definition unsteady : Deposits (A := unsteady_addresses) (W := @memory_sweeps plain_order)
    (F := unsteady_funding) :=
  mkDeposits (A := unsteady_addresses) (W := @memory_sweeps plain_order) (F := unsteady_funding)
    (false, NewMemoryBuyerDepositAddressRepository) NewMemoryBuyerDepositSweepRepository
    ([true], NewMemoryFundingRecordRepository) [] 0.

Definition set_down (down : bool)
    (d : Deposits (A := unsteady_addresses) (W := @memory_sweeps plain_order)
       (F := unsteady_funding)) :=
  mkDeposits (A := unsteady_addresses) (W := @memory_sweeps plain_order) (F := unsteady_funding)
    (down, (dp_addresses d : bool * memoryBuyerDepositAddressRepository).2) (dp_sweeps d)
    (dp_funding d) (dp_calls d) (dp_ticks d).

(** The addresses a sync visits. *)
Definition known_addresses
    (d : Deposits (A := unsteady_addresses) (W := @memory_sweeps plain_order)
       (F := unsteady_funding)) : list string :=
  match address_List (dp_addresses d) with Ok l => map da_Address l | Err _ => [] end.

(** A read of the address that fails is taken for a missing address: the buyer
    gets another one, which replaces the address that was handed out before, and
    nothing sweeps what arrives there. *)
Example outage_replaces_address :
  let d1 := deposit_step service (OpEnsure "buyer_1") unsteady in
  let d2 := deposit_step service (OpEnsure "buyer_1") (set_down true d1) in
  known_addresses d1 = ["ckt1_0"] ∧ known_addresses (set_down false d2) = ["ckt1_1"].
Proof. split; vm_compute; reflexivity. Qed.

(** A wallet that has nothing left once it has swept. *)
Definition emptied_wallet : BuyerDepositWallet := {|
  DeriveAddress := DeriveAddress wallet;
  QueryBalance := λ calls r,
    if existsb (λ c, match c with CallSweep _ _ _ => true | _ => false end) calls
    then Ok (mkChainBalance (da_Address r) 0 0 24) else QueryBalance wallet calls r;
  SweepToTreasury := SweepToTreasury wallet;
|}.
Definition emptied_service : BuyerDepositService :=
  mkDepositService (Some emptied_wallet) (bds_asset service) (bds_treasuryAddress service)
    (bds_minSweepAmountRaw service) (bds_confirmationBlocks service)
    (bds_rawUnitsPerWholeUSDI service) (bds_now service).

(** A sweep whose top-up could not be written is credited by a later sync that
    is given the same transaction again ... *)
Example lost_credit_repaired :
  bs_CreditedBalance <$>
    (GetSummary service "buyer_1"
       (deposit_run service [OpEnsure "buyer_1"; OpSync; OpSync] unsteady)).2 = Ok "12.34".
Proof. vm_compute. reflexivity. Qed.

(** ... and never, once the address is empty: the sync skips the buyer before it
    looks at the stored sweeps. *)
Example lost_credit_forgotten :
  let d := deposit_run emptied_service [OpEnsure "buyer_1"; OpSync; OpSync; OpSync] unsteady in
  match sweep_List "buyer_1" (dp_sweeps d) with
  | Ok l => map sw_AmountRaw l
  | Err _ => []
  end = [12340000] ∧
  bs_CreditedBalance <$> (GetSummary emptied_service "buyer_1" d).2 = Ok "0.00".
Proof. split; vm_compute; reflexivity. Qed.

(** The balance is looked up under the buyer's id as it is given, the address
    under the trimmed one. *)
Example balance_of_padded_id :
  bs_CreditedBalance <$>
    (GetSummary service " buyer_1" (deposit_run service ops fresh)).2 = Ok "0.00".
Proof. vm_compute. reflexivity. Qed.
End Runs.
