(* ===== verification/Http.v ===== *)
(** * Requests, credentials and roles

    What the HTTP handlers of the services share: requests and responses, the
    service tokens of internal/serviceauth, bearer tokens, the actors the IAM
    service answers with and their roles, the status codes of
    internal/httputil/auth_error.go.  A request's body is the JSON value its
    bytes decode to, if they do; a handler reads the fields of its payload from it. *)

From Stdlib Require Import Ascii.
From S2P Require Import Prelude GoNum GoText.

(** ** JSON bodies *)

#[warnings="-register-all"]
Inductive json :=
  | JNull
  | JBool (b : bool)
  | JInt (z : Z)          (* a number without fraction or exponent *)
  | JFloat (x : float64)  (* any other number *)
  | JStr (s : string)
  | JArr (l : list json)
  | JObj (fields : list (string * json)).

(** Decoding into a field of a struct: keys match their name without regard to
    case, null leaves the field as it is, the last value counts, and a value of
    another type is an error. *)
Definition decode_field {T} (zero : T) (dec : json → option T) (key : string)
    (fields : list (string * json)) : option T :=
  foldl (λ acc f,
    old ← acc;
    if EqualFold f.1 key
    then match f.2 with JNull => Some old | v => dec v end
    else Some old) (Some zero) fields.

Definition as_string (v : json) : option string :=
  match v with JStr s => Some s | _ => None end.
Definition as_int (v : json) : option Z :=
  match v with JInt z => if bool_decide (in64 z) then Some z else None | _ => None end.
Definition as_bool (v : json) : option bool :=
  match v with JBool b => Some b | _ => None end.
Definition as_object (v : json) : option (list (string * json)) :=
  match v with JObj fields => Some fields | JNull => Some [] | _ => None end.
(** A slice: null elements are zero values. *)
Definition as_list {T} (zero : T) (dec : json → option T) (v : json) : option (list T) :=
  match v with
  | JArr l => mapM (λ e, match e with JNull => Some zero | _ => dec e end) l
  | _ => None
  end.

Definition string_field : string → list (string * json) → option string :=
  decode_field "" as_string.
Definition int_field : string → list (string * json) → option Z := decode_field 0 as_int.
Definition bool_field : string → list (string * json) → option bool :=
  decode_field false as_bool.
Definition object_field : string → list (string * json) → option (list (string * json)) :=
  decode_field [] as_object.
Definition strings_field : string → list (string * json) → option (list string) :=
  decode_field [] (as_list "" as_string).
(** The fields of a body that decodes into a struct: an object or null. *)
Definition body_fields (body : option json) : option (list (string * json)) :=
  v ← body; as_object v.

(** ** Requests and responses *)

Record Request := mkRequest {
  rq_Method : string;
  rq_Path : string;
  rq_Header : string → string;
  rq_Values : string → list string;
  rq_Body : option json;
  rq_RawBody : string;
}.

(** [r.URL.Query().Get(key)] *)
Definition rq_Query (r : Request) (key : string) : string := default "" (head (rq_Values r key)).
(** A parameter given once, or not at all. *)
Definition one_value (s : string) : list string := if String.eqb s "" then [] else [s].

Record Response (B : Type) := mkResponse {
  rs_Status : Z;
  rs_Body : B;
}.
Arguments mkResponse {B}.
Arguments rs_Status {B}.
Arguments rs_Body {B}.

Definition StatusOK : Z := 200.
Definition StatusCreated : Z := 201.
Definition StatusBadRequest : Z := 400.
Definition StatusUnauthorized : Z := 401.
Definition StatusPaymentRequired : Z := 402.
Definition StatusForbidden : Z := 403.
Definition StatusNotFound : Z := 404.
Definition StatusConflict : Z := 409.
Definition StatusTooManyRequests : Z := 429.
Definition StatusInternalServerError : Z := 500.
Definition StatusBadGateway : Z := 502.
Definition StatusServiceUnavailable : Z := 503.

(** [x, err := m; if err != nil { h(err); return }; k] *)
Definition or_respond {S A R} (m : ST S A) (h : error → R) (k : A → ST S R) : ST S R :=
  r ← attempt m;
  match r with Ok a => k a | Err e => mret (h e) end.
Notation "'let?' x := m 'orelse' h 'in' k" := (or_respond m h (λ x, k))
  (at level 10, x binder, m at level 199, h at level 199, k at level 200,
   format "'[v' 'let?'  x  :=  m  'orelse'  h  'in'  '/' k ']'") : go_scope.

Lemma or_respond_eq {S A R} (m : ST S A) (h : error → R) k s :
  or_respond m h k s =
  match m s with (s', Ok a) => k a s' | (s', Err e) => (s', Ok (h e)) end.
Proof. unfold or_respond, mbind, st_bind, attempt. by destruct (m s) as [s' [a|e]]. Qed.

(** A response that is not the refusal of a step comes from what follows it. *)
Lemma respond_inv {S A R} (m : ST S A) (h : error → R) (k : A → ST S R) s s' a :
  or_respond m h k s = (s', Ok a) → (∀ e, h e ≠ a) →
  ∃ s1 x, m s = (s1, Ok x) ∧ k x s1 = (s', Ok a).
Proof.
  rewrite or_respond_eq. destruct (m s) as [s1 [x|e]]; [eauto|].
  intros [= _ He] Hh. by destruct (Hh e).
Qed.

(** [WriteAuthError]: the status and the error that is shown. *)
Definition WriteAuthError (err : error) : Z * error :=
  if is_error err ErrUnauthorized || is_error err ErrInvalidServiceToken
  then (StatusUnauthorized, Errf "unauthorized")
  else if is_error err ErrOrgMismatch || is_error err ErrMembershipRequired
  then (StatusForbidden, err)
  else (StatusBadGateway, err).

(** ** Service tokens (internal/serviceauth) *)

Definition HeaderName : string := "X-One-Tok-Service-Token".

Record TokenSet := mkTokenSet {
  ts_primary : string;
  ts_values : gset string;
}.

Definition add_token (ts : TokenSet) (token : string) : TokenSet :=
  let token := TrimSpace token in
  if String.eqb token "" then ts
  else mkTokenSet (if String.eqb (ts_primary ts) "" then token else ts_primary ts)
         ({[token]} ∪ ts_values ts).
Definition NewTokenSet (rawValues : list string) : TokenSet :=
  foldl add_token (mkTokenSet "" ∅) (rawValues ≫= Split ",").

Definition TokenSet_Empty (ts : TokenSet) : bool := bool_decide (ts_values ts = ∅).
Definition MatchesRequest (ts : TokenSet) (r : Request) : bool :=
  TokenSet_Empty ts || bool_decide (TrimSpace (rq_Header r HeaderName) ∈ ts_values ts).

(** ** Bearer tokens *)

(** [bearerToken(header)]: the token and whether there is one. *)
Definition bearerToken (header : string) : option string :=
  if negb (HasPrefix header "Bearer ") then None
  else let token := TrimSpace (TrimPrefix header "Bearer ") in
       if String.eqb token "" then None else Some token.

(** ** Actors (internal/integrations/iam) *)

Record ActorMembership := mkMembership {
  am_OrganizationID : string;
  am_OrganizationName : string;
  am_OrganizationKind : string;
  am_Role : string;
}.
Record Actor := mkActor {
  ac_UserID : string;
  ac_Email : string;
  ac_Name : string;
  ac_Memberships : list ActorMembership;
}.

(** The IAM client: none (nil or [NoopClient]), or one whose answer to a token
    may change from call to call. *)
Definition IAMClient : Type := option (nat → string → result Actor).

(** ** Properties *)

Example decode_field_ex :
  let fields := [("Amount", JInt 3); ("note", JNull); ("AMOUNT", JInt 4)] in
  int_field "amount" fields = Some 4 ∧ string_field "note" fields = Some "" ∧
  string_field "amount" fields = None.
Proof. split_and!; reflexivity. Qed.

Example NewTokenSet_ex :
  ts_primary (NewTokenSet [" current-token , next-token "; ""]) = "current-token" ∧
  MatchesRequest (NewTokenSet ["a, b"])
    (mkRequest "GET" "/" (λ h, if String.eqb h HeaderName then " b " else "") (λ _, []) None "") = true.
Proof. split; vm_compute; reflexivity. Qed.

Lemma add_token_values ts token :
  ts_values (add_token ts token) =
    (if String.eqb (TrimSpace token) "" then ts_values ts
     else {[TrimSpace token]} ∪ ts_values ts).
Proof. unfold add_token. by destruct (String.eqb _ _). Qed.

(** A token is accepted exactly when it is one of the comma-separated parts,
    trimmed; an empty header never is, unless no token is configured. *)
Lemma NewTokenSet_elem rawValues t :
  t ∈ ts_values (NewTokenSet rawValues) ↔
  t ≠ "" ∧ ∃ part, part ∈ (rawValues ≫= Split ",") ∧ TrimSpace part = t.
Proof.
  unfold NewTokenSet. generalize (rawValues ≫= Split ",") as parts. intros parts.
  assert (H : ∀ ts, t ∈ ts_values (foldl add_token ts parts) ↔
    t ∈ ts_values ts ∨ (t ≠ "" ∧ ∃ part, part ∈ parts ∧ TrimSpace part = t)).
  { induction parts as [|p parts IH]; intros ts; cbn [foldl].
    { split; [by left|]. intros [?|(_ & q & Hq & _)]; [done|by apply not_elem_of_nil in Hq]. }
    rewrite IH, add_token_values. clear IH.
    destruct (String.eqb_spec (TrimSpace p) "") as [He|He]; rewrite ?elem_of_union, ?elem_of_singleton.
    - split; (intros [Hts|(Hne & q & Hq & Hqt)]; [by left|right; split; [done|exists q]]).
      + split; [by right|done].
      + apply elem_of_cons in Hq as [->|Hq]; [by rewrite He in Hqt; subst|done].
    - split.
      + intros [[->|Hts]|(Hne & q & Hq & Hqt)]; [right; split; [done|]|by left|right; split; [done|]].
        * exists p. split; [by left|done].
        * exists q. split; [by right|done].
      + intros [Hts|(Hne & q & [->|Hq]%elem_of_cons & Hqt)]; [by left; right|by left; left|].
        right. split; [done|by exists q]. }
  rewrite H. cbn [ts_values]. rewrite elem_of_empty. tauto.
Qed.

Lemma MatchesRequest_blank ts r rawValues :
  ts = NewTokenSet rawValues → TokenSet_Empty ts = false →
  blank (rq_Header r HeaderName) = true → MatchesRequest ts r = false.
Proof.
  intros -> Hne Hb. unfold MatchesRequest. rewrite Hne. cbn [orb].
  apply bool_decide_eq_false. intros [Ht _]%NewTokenSet_elem.
  unfold blank in Hb. by apply String.eqb_eq in Hb.
Qed.
