(* ===== verification/Web.v ===== *)
(** * Pages, validated fields and paths

    Pagination of lists (internal/httputil/pagination.go) and the validators of
    request fields (internal/validation/validators.go), and the paths of the gateway.
    The theorem is that the pages of a list are the list: every item is on exactly one page. *)

From Stdlib Require Import Ascii.
From S2P Require Import Prelude GoNum GoText Http.

(** ** Pagination *)

Definition DefaultPageLimit : Z := 50.
Definition MaxPageLimit : Z := 200.

Record Pagination := mkPagination {
  pg_Limit : Z;
  pg_Offset : Z;
}.

Definition intParam (r : Request) (key : string) (fallback : Z) : Z :=
  let raw := rq_Query r key in
  if String.eqb raw "" then fallback
  else match ParseInt raw with (v, None) => v | _ => fallback end.

Definition ParsePagination (r : Request) : Pagination :=
  let limit := intParam r "limit" DefaultPageLimit in
  let limit := if MaxPageLimit <? limit then MaxPageLimit
               else if limit <=? 0 then DefaultPageLimit else limit in
  let offset := intParam r "offset" 0 in
  mkPagination limit (if offset <? 0 then 0 else offset).

(** [items[from:to]] within the bounds of [items]. *)
Definition slice {T} (items : list T) (from to : Z) : list T :=
  take (Z.to_nat (to - from)) (drop (Z.to_nat from) items).

Definition Apply {T} (items : list T) (p : Pagination) : list T :=
  let n := Z.of_nat (length items) in
  if n <=? pg_Offset p then []
  else let stop := pg_Offset p +w pg_Limit p in
       slice items (pg_Offset p) (if n <? stop then n else stop).

(** ** Validation *)

(** The fields that failed, with their messages. *)
Definition Builder : Type := gmap string string.
Definition New : Builder := ∅.

Definition complain (field message : string) (failed : bool) (b : Builder) : Builder :=
  if failed then <[field := message]> b else b.
Definition Required (field value : string) : Builder → Builder :=
  complain field "is required" (blank value).
Definition MinLength (field value : string) (min : Z) : Builder → Builder :=
  complain field ("must be at least " +:+ pretty min +:+ " characters")
    (Z.of_nat (String.length value) <? min).
Definition MaxLength (field value : string) (max : Z) : Builder → Builder :=
  complain field ("must be at most " +:+ pretty max +:+ " characters")
    (max <? Z.of_nat (String.length value)).
Definition Range (field : string) (value min max : Z) : Builder → Builder :=
  complain field ("must be between " +:+ pretty min +:+ " and " +:+ pretty max)
    ((value <? min) || (max <? value)).
Definition Positive (field : string) (value : Z) : Builder → Builder :=
  complain field "must be positive" (value <=? 0).

(** [^[a-z0-9][a-z0-9-]*[a-z0-9]$] *)
Definition slug_byte (a : ascii) : bool :=
  is_digit a || (let n := nat_of_ascii a in (97 <=? n)%nat && (n <=? 122)%nat).
Fixpoint slug_tail (s : string) : bool :=
  match s with
  | EmptyString => false
  | String a EmptyString => slug_byte a
  | String a s' => (slug_byte a || Ascii.eqb a "-") && slug_tail s'
  end.
Definition is_slug (s : string) : bool :=
  match s with String a s' => slug_byte a && slug_tail s' | EmptyString => false end.
Definition Slug (field value : string) : Builder → Builder :=
  complain field "must be a valid slug (lowercase alphanumeric with hyphens)"
    (negb (is_slug value)).

Definition Build (b : Builder) : option (gmap string string) :=
  if bool_decide (b = ∅) then None else Some b.

(** ** Properties *)

Example validation_ex :
  Build (Range "score" 6 1 5 (Positive "amount" 1 (Required "name" " " New)))
  = Some {["score" := "must be between 1 and 5"; "name" := "is required"]} ∧
  Build (Slug "id" "a-b2" (MaxLength "x" "abc" 3 New)) = None.
Proof. split; vm_compute; reflexivity. Qed.

Lemma complain_None field message failed b :
  Build (complain field message failed b) = None ↔ failed = false ∧ Build b = None.
Proof.
  unfold Build, complain. destruct failed; [|tauto].
  rewrite bool_decide_eq_false_2; [by split; [|intros [? _]]|]. apply insert_non_empty.
Qed.

Lemma slice_length {T} (items : list T) from to :
  0 ≤ from → Z.of_nat (length (slice items from to)) ≤ Z.max 0 (to - from).
Proof. intros. unfold slice. rewrite length_take. lia. Qed.

Lemma slice_app {T} (items : list T) a b c :
  0 ≤ a ≤ b → b ≤ c → slice items a b ++ slice items b c = slice items a c.
Proof.
  intros Ha Hb. unfold slice.
  replace (Z.to_nat (c - a)) with (Z.to_nat (b - a) + Z.to_nat (c - b))%nat by lia.
  replace (drop (Z.to_nat b) items) with (drop (Z.to_nat (b - a)) (drop (Z.to_nat a) items))
    by (rewrite drop_drop; f_equal; lia).
  apply take_take_drop.
Qed.

(** What lies past the end adds nothing. *)
Lemma slice_clip {T} (items : list T) a b :
  0 ≤ a → slice items a (Z.min (Z.of_nat (length items)) b) = slice items a b.
Proof.
  intros Ha. unfold slice. set (n := Z.of_nat (length items)).
  assert (Hd : Z.of_nat (length (drop (Z.to_nat a) items)) = Z.max 0 (n - a))
    by (rewrite length_drop; lia).
  destruct (Z.leb_spec b n); [by rewrite Z.min_r by lia|].
  rewrite Z.min_l by lia.
  by rewrite (take_ge _ (Z.to_nat (n - a))), (take_ge _ (Z.to_nat (b - a))) by lia.
Qed.

Lemma Apply_slice {T} (items : list T) p :
  0 ≤ pg_Offset p → 0 ≤ pg_Limit p ≤ MaxPageLimit →
  Z.of_nat (length items) ≤ max_int64 - MaxPageLimit →
  Apply items p = slice items (pg_Offset p) (pg_Offset p + pg_Limit p).
Proof.
  unfold MaxPageLimit. intros Ho Hl Hn. unfold Apply. destruct (Z.leb_spec (Z.of_nat (length items)) (pg_Offset p)).
  - unfold slice. rewrite drop_ge by lia. by rewrite take_nil.
  - rewrite add64_exact by in64_lia. rewrite <- (slice_clip items _ (pg_Offset p + pg_Limit p)) by done. f_equal.
    destruct (Z.ltb_spec (Z.of_nat (length items)) (pg_Offset p + pg_Limit p)); lia.
Qed.

Lemma elem_of_Apply {T} (items : list T) p x : x ∈ Apply items p → x ∈ items.
Proof.
  unfold Apply, slice. destruct (_ <=? _); [by intros ?%elem_of_nil|].
  intros Hx. eapply subseteq_drop, subseteq_take, Hx.
Qed.

Lemma ParsePagination_bounds r :
  1 ≤ pg_Limit (ParsePagination r) ≤ MaxPageLimit ∧ 0 ≤ pg_Offset (ParsePagination r).
Proof.
  unfold ParsePagination, MaxPageLimit, DefaultPageLimit. cbn [pg_Limit pg_Offset].
  split; repeat case_match; repeat match goal with
    | H : (_ <? _) = true |- _ => apply Z.ltb_lt in H
    | H : (_ <? _) = false |- _ => apply Z.ltb_ge in H
    | H : (_ <=? _) = true |- _ => apply Z.leb_le in H
    | H : (_ <=? _) = false |- _ => apply Z.leb_gt in H end; lia.
Qed.

(** The requests for the pages of a list, one after the other. *)
Definition page_request (limit : Z) (k : nat) : Request :=
  mkRequest "GET" "" (λ _, "")
    (λ key, if String.eqb key "limit" then [pretty limit]
            else if String.eqb key "offset" then [pretty (Z.of_nat k * limit)] else []) None "".

Lemma ParsePagination_page limit k :
  1 ≤ limit ≤ MaxPageLimit → Z.of_nat k * limit ≤ max_int64 →
  ParsePagination (page_request limit k) = mkPagination limit (Z.of_nat k * limit).
Proof.
  unfold MaxPageLimit. intros Hl Hk. unfold ParsePagination, intParam.
  assert (Hq : ∀ key, rq_Query (page_request limit k) key =
    if String.eqb key "limit" then pretty limit
    else if String.eqb key "offset" then pretty (Z.of_nat k * limit) else "").
  { intros key. unfold rq_Query, page_request. cbn [rq_Values]. by repeat case_match. }
  rewrite !Hq.
  assert (Hpretty : ∀ z d, in64 z → (if String.eqb (pretty z) "" then d
    else match ParseInt (pretty z) with (v, None) => v | _ => d end) = z).
  { intros z d Hz. rewrite ParseInt_pretty by done.
    destruct (String.eqb_spec (pretty z) "") as [He|]; [|done].
    pose proof (ParseInt_pretty z Hz) as Hp. by rewrite He in Hp. }
  rewrite String.eqb_refl. cbn [String.eqb Ascii.eqb eqb]. rewrite !Hpretty by in64_lia.
  unfold MaxPageLimit.
  destruct (Z.ltb_spec 200 limit); [lia|]. destruct (Z.leb_spec limit 0); [lia|].
  by destruct (Z.ltb_spec (Z.of_nat k * limit) 0); [lia|].
Qed.

(** Paging through a list visits every item once, in order: the answers to
    the requests for consecutive pages are consecutive pieces of the list, none
    longer than the limit, and enough of them make up the whole. *)
Theorem pages_cover {T} (items : list T) (limit : Z) (pages : nat) :
  1 ≤ limit ≤ MaxPageLimit →
  Z.of_nat (length items) ≤ max_int64 - MaxPageLimit →
  (Z.of_nat pages * limit ≤ max_int64) →
  let answer k := Apply items (ParsePagination (page_request limit k)) in
  mjoin (answer <$> seq 0 pages) = take (pages * Z.to_nat limit) items ∧
  (Z.of_nat (length items) ≤ Z.of_nat pages * limit →
     mjoin (answer <$> seq 0 pages) = items) ∧
  ∀ k, (k < pages)%nat → Z.of_nat (length (answer k)) ≤ limit.
Proof.
  intros Hl Hn Hp answer.
  assert (Ha : ∀ k, (k < pages)%nat →
    answer k = slice items (Z.of_nat k * limit) (Z.of_nat k * limit + limit)).
  { intros k Hk. unfold answer. rewrite ParsePagination_page by nia.
    by rewrite Apply_slice by (cbn; nia). }
  assert (Hj : mjoin (answer <$> seq 0 pages) = take (pages * Z.to_nat limit) items).
  { clear Hp. induction pages as [|n IH]; [done|].
    rewrite seq_S, fmap_app, join_app, IH by (intros; apply Ha; lia).
    cbn [fmap list_fmap mjoin list_join foldr]. rewrite app_nil_r, Nat.add_0_l, Ha by lia.
    replace (take (n * Z.to_nat limit) items) with (slice items 0 (Z.of_nat n * limit))
      by (unfold slice; cbn [drop Z.to_nat]; rewrite drop_0; f_equal; lia).
    rewrite slice_app by lia. unfold slice. rewrite drop_0. f_equal. lia. }
  split_and!; [done| |].
  - intros Hall. rewrite Hj, take_ge; [done|lia].
  - intros k Hk. rewrite Ha by done. etransitivity; [by apply slice_length; lia|lia].
Qed.

Lemma pages_cover_witness :
  let answer k := Apply [1; 2; 3; 4; 5] (ParsePagination (page_request 2 k)) in
  answer 1%nat = [3; 4] ∧ mjoin (answer <$> seq 0 3) = [1; 2; 3; 4; 5].
Proof.
  split; [vm_compute; reflexivity|].
  apply (pages_cover [1; 2; 3; 4; 5] 2 3); vm_compute; intuition discriminate.
Defined.

(** * The gateway's paths (internal/gateway/server.go, carrier_routes.go)

    The predicates the router tries in order and the functions that take the
    identifiers out of a path.  A path is cut at its slashes, those at its ends
    dropped. *)

Definition segments (path : string) : list string := Split "/" (Trim "/" path).

Definition has_len (parts : list string) (n : nat) : bool := Nat.eqb (length parts) n.
(** [parts[i] == s], where the length was checked. *)
Definition at_ (parts : list string) (i : nat) (s : string) : bool :=
  match parts !! i with Some p => String.eqb p s | None => false end.
(** [parts[i]]: an index out of range panics. *)
Definition part (i : nat) (parts : list string) : result string :=
  match parts !! i with
  | Some p => Ok p
  | None => Err (EPanic "index out of range")
  end.

(** ** Identifiers in a path *)

Definition orderIDFromPath (path : string) : result string :=
  let parts := segments path in
  if negb (has_len parts 4) then Err (Errf "invalid order path") else part 3 parts.
Definition rfqIDFromBidsPath (path : string) : result string :=
  let parts := segments path in
  if negb (has_len parts 5 && at_ parts 2 "rfqs" && at_ parts 4 "bids") then Err (Errf "invalid bid path") else part 3 parts.
Definition rfqIDFromAwardPath (path : string) : result string :=
  let parts := segments path in
  if negb (has_len parts 5 && at_ parts 2 "rfqs" && at_ parts 4 "award") then Err (Errf "invalid award path") else part 3 parts.
Definition orderIDFromDisputePath (path : string) : result string :=
  let parts := segments path in
  if negb (has_len parts 5 && at_ parts 4 "disputes") then Err (Errf "invalid dispute path") else part 3 parts.
Definition disputeIDFromResolvePath (path : string) : result string :=
  let parts := segments path in
  if negb (has_len parts 5 && at_ parts 2 "disputes" && at_ parts 4 "resolve") then Err (Errf "invalid dispute resolution path") else part 3 parts.
Definition orderIDFromRatingPath (path : string) : result string :=
  let parts := segments path in
  if negb (has_len parts 5 && at_ parts 4 "rating") then Err (Errf "invalid rating path") else part 3 parts.
Definition rfqIDFromMessagesPath (path : string) : result string :=
  let parts := segments path in
  if negb (has_len parts 5 && at_ parts 4 "messages") then Err (Errf "invalid rfq messages path") else part 3 parts.
Definition orderMilestoneFromSettlePath (path : string) : result (string * string) :=
  let parts := segments path in
  if negb (has_len parts 7 && at_ parts 4 "milestones" && at_ parts 6 "settle") then Err (Errf "invalid settlement path")
  else order ← part 3 parts; milestone ← part 5 parts; Ok (order, milestone).
Definition orderMilestoneFromUsagePath (path : string) : result (string * string) :=
  let parts := segments path in
  if negb (has_len parts 7 && at_ parts 4 "milestones" && at_ parts 6 "usage") then Err (Errf "invalid usage path")
  else order ← part 3 parts; milestone ← part 5 parts; Ok (order, milestone).
Definition orderMilestoneFromBindPath (path : string) : result (string * string) :=
  let parts := segments path in
  if (length parts <? 6)%nat then Err (Errf "invalid bind path")
  else order ← part 3 parts; milestone ← part 5 parts; Ok (order, milestone).
Definition jobIDFromPath (path : string) : result string :=
  let parts := segments path in
  if (length parts <? 4)%nat || negb (at_ parts 2 "jobs") then Err (Errf "invalid job path")
  else part 3 parts.

(** ** Route predicates *)

Definition isRFQBidsPath (path : string) : bool := is_ok (rfqIDFromBidsPath path).
Definition isRFQAwardPath (path : string) : bool := is_ok (rfqIDFromAwardPath path).
Definition isOrderSettlePath (path : string) : bool := is_ok (orderMilestoneFromSettlePath path).
Definition isOrderUsagePath (path : string) : bool := is_ok (orderMilestoneFromUsagePath path).
Definition isOrderDisputesPath (path : string) : bool := is_ok (orderIDFromDisputePath path).
Definition isDisputeResolvePath (path : string) : bool := is_ok (disputeIDFromResolvePath path).
Definition isProviderPath (path : string) : bool :=
  let parts := segments path in has_len parts 4 && at_ parts 0 "api" && at_ parts 1 "v1" && at_ parts 2 "providers".
Definition isListingPath (path : string) : bool :=
  let parts := segments path in has_len parts 4 && at_ parts 0 "api" && at_ parts 1 "v1" && at_ parts 2 "listings".
Definition isRFQDetailPath (path : string) : bool :=
  let parts := segments path in has_len parts 4 && at_ parts 0 "api" && at_ parts 1 "v1" && at_ parts 2 "rfqs".
Definition isDisputeDetailPath (path : string) : bool :=
  let parts := segments path in has_len parts 4 && at_ parts 0 "api" && at_ parts 1 "v1" && at_ parts 2 "disputes".
Definition isGetCreditLimitPath (path : string) : bool :=
  let parts := segments path in has_len parts 4 && at_ parts 0 "api" && at_ parts 1 "v1" && at_ parts 2 "credit-limits".
Definition isCarrierBindingPath (path : string) : bool :=
  let parts := segments path in has_len parts 4 && at_ parts 0 "api" && at_ parts 1 "v1" && at_ parts 2 "carrier-bindings".
Definition isProviderSettlementBindingPath (path : string) : bool :=
  let parts := segments path in has_len parts 4 && at_ parts 0 "api" && at_ parts 1 "v1" && at_ parts 2 "provider-settlement-bindings".
Definition isJobPath (path : string) : bool :=
  let parts := segments path in has_len parts 4 && at_ parts 0 "api" && at_ parts 1 "v1" && at_ parts 2 "jobs".
Definition isOrderRatingPath (path : string) : bool :=
  let parts := segments path in has_len parts 5 && at_ parts 0 "api" && at_ parts 1 "v1" && at_ parts 2 "orders" && at_ parts 4 "rating".
Definition isOrderMessagesPath (path : string) : bool :=
  let parts := segments path in has_len parts 5 && at_ parts 0 "api" && at_ parts 1 "v1" && at_ parts 2 "orders" && at_ parts 4 "messages".
Definition isOrderBudgetPath (path : string) : bool :=
  let parts := segments path in has_len parts 5 && at_ parts 0 "api" && at_ parts 1 "v1" && at_ parts 2 "orders" && at_ parts 4 "budget".
Definition isOrderProviderSettlementReservationPath (path : string) : bool :=
  let parts := segments path in has_len parts 5 && at_ parts 0 "api" && at_ parts 1 "v1" && at_ parts 2 "orders" && at_ parts 4 "provider-settlement-reservation".
Definition isOrderTimelinePath (path : string) : bool :=
  let parts := segments path in has_len parts 5 && at_ parts 0 "api" && at_ parts 1 "v1" && at_ parts 2 "orders" && at_ parts 4 "timeline".
Definition isOrderTopUpPath (path : string) : bool :=
  let parts := segments path in has_len parts 5 && at_ parts 0 "api" && at_ parts 1 "v1" && at_ parts 2 "orders" && at_ parts 4 "top-up".
Definition isRFQMessagesPath (path : string) : bool :=
  let parts := segments path in has_len parts 5 && at_ parts 0 "api" && at_ parts 1 "v1" && at_ parts 2 "rfqs" && at_ parts 4 "messages".
Definition isProviderRevenuePath (path : string) : bool :=
  let parts := segments path in has_len parts 5 && at_ parts 0 "api" && at_ parts 1 "v1" && at_ parts 2 "providers" && at_ parts 4 "revenue".
Definition isApplicationReviewPath (path : string) : bool :=
  let parts := segments path in has_len parts 5 && at_ parts 0 "api" && at_ parts 1 "v1" && at_ parts 2 "provider-applications" && at_ parts 4 "review".
Definition isProviderSettlementBindingPoolPath (path : string) : bool :=
  let parts := segments path in has_len parts 5 && at_ parts 0 "api" && at_ parts 1 "v1" && at_ parts 2 "provider-settlement-bindings" && at_ parts 4 "pool".
Definition isJobEvidencePath (path : string) : bool :=
  let parts := segments path in has_len parts 5 && at_ parts 0 "api" && at_ parts 1 "v1" && at_ parts 2 "jobs" && at_ parts 4 "evidence".
Definition isCarrierBindingVerifyPath (path : string) : bool :=
  let parts := segments path in has_len parts 5 && at_ parts 2 "carrier-bindings" && at_ parts 4 "verify".
Definition isCarrierBindingSuspendPath (path : string) : bool :=
  let parts := segments path in has_len parts 5 && at_ parts 2 "carrier-bindings" && at_ parts 4 "suspend".
Definition isProviderSettlementBindingVerifyPath (path : string) : bool :=
  let parts := segments path in has_len parts 5 && at_ parts 2 "provider-settlement-bindings" && at_ parts 4 "verify".
Definition isProviderSettlementBindingSuspendPath (path : string) : bool :=
  let parts := segments path in has_len parts 5 && at_ parts 2 "provider-settlement-bindings" && at_ parts 4 "suspend".
Definition isProviderSettlementBindingDisconnectPath (path : string) : bool :=
  let parts := segments path in has_len parts 5 && at_ parts 2 "provider-settlement-bindings" && at_ parts 4 "disconnect".
Definition isProviderSettlementBindingRecoverPath (path : string) : bool :=
  let parts := segments path in has_len parts 5 && at_ parts 2 "provider-settlement-bindings" && at_ parts 4 "recover".
Definition isBindCarrierPath (path : string) : bool :=
  let parts := segments path in has_len parts 7 && at_ parts 0 "api" && at_ parts 1 "v1" && at_ parts 2 "orders" && at_ parts 4 "milestones" && at_ parts 6 "bind-carrier".
Definition isCreateJobPath (path : string) : bool :=
  let parts := segments path in has_len parts 7 && at_ parts 0 "api" && at_ parts 1 "v1" && at_ parts 2 "orders" && at_ parts 4 "milestones" && at_ parts 6 "jobs".
Definition isJobActionPath (path action : string) : bool :=
  let parts := segments path in
  has_len parts 5 && at_ parts 0 "api" && at_ parts 1 "v1" && at_ parts 2 "jobs" && at_ parts 4 action.

(** ** Properties *)

Lemma at_Some parts i s : at_ parts i s = true ↔ parts !! i = Some s.
Proof.
  unfold at_. destruct (parts !! i) as [p|]; [|done].
  rewrite String.eqb_eq. split; [by intros ->|by intros [= ->]].
Qed.

Lemma part_Ok parts i n : (i < n)%nat → has_len parts n = true → ∃ p, part i parts = Ok p.
Proof.
  intros Hi Hl%Nat.eqb_eq. unfold part.
  destruct (lookup_lt_is_Some_2 parts i) as [p Hp]; [lia|]. rewrite Hp. by exists p.
Qed.

Example paths_ex :
  orderIDFromPath "/api/v1/orders/order_1/" = Ok "order_1" ∧
  orderMilestoneFromSettlePath "/api/v1/orders/o/milestones/m/settle" = Ok ("o", "m") ∧
  isOrderDisputesPath "/api/v1/anything/o/disputes" = true ∧
  isRFQDetailPath "/api/v1/rfqs/r/bids" = false.
Proof. vm_compute. by split_and!. Qed.

(** What the predicates say of the segments. *)
Lemma is_ok_guard {A} b e (x : result A) : is_ok (if negb b then Err e else x) = true → b = true.
Proof. by destruct b. Qed.
Lemma at_conflict parts i s s' : at_ parts i s = true → at_ parts i s' = true → s = s'.
Proof. rewrite !at_Some. congruence. Qed.
Lemma len_conflict parts n n' : has_len parts n = true → has_len parts n' = true → n = n'.
Proof. unfold has_len. rewrite !Nat.eqb_eq. congruence. Qed.
(** The head of an application. *)
Ltac head t := match t with ?f _ => head f | _ => t end.
Ltac path_facts H :=
  match type of H with ?p = true => let h := head p in try unfold h in H end; cbv zeta in H;
  try (match type of H with is_ok ?x = true => let h := head x in unfold h in H; cbv zeta in H end;
       apply is_ok_guard in H);
  repeat (apply andb_prop in H as [H ?]).
Ltac conflict :=
  match goal with
  | H1 : has_len ?p ?n = true, H2 : has_len ?p ?n' = true |- _ =>
      discriminate (len_conflict _ _ _ H1 H2)
  | H1 : at_ ?p ?i ?s = true, H2 : at_ ?p ?i ?s' = true |- _ =>
      discriminate (at_conflict _ _ _ _ H1 H2)
  | H1 : String.eqb ?s ?p = true, H2 : has_len (segments ?p) _ = true |- _ =>
      apply String.eqb_eq in H1; rewrite <- H1 in H2; discriminate H2
  | H1 : String.eqb ?s ?p = true, H2 : at_ (segments ?p) _ _ = true |- _ =>
      apply String.eqb_eq in H1; rewrite <- H1 in H2; discriminate H2
  end.
