(* ===== verification/Settlement.v ===== *)
(** * The settlement service's HTTP interface (services/settlement/server.go)

    Invoices, top-ups, withdrawals and payouts over a Fiber client, the buyer
    deposits of [Deposits], and the records of [Funding].  The Fiber and IAM
    clients are functions of the calls made to them.  Each handler is the whole
    method; [ServeHTTP] dispatches as the source does. *)

From Stdlib Require Import Ascii.
From S2P Require Import Prelude GoNum GoText Core Repo Funding Amounts Deposits Http.

(** ** The Fiber client (internal/integrations/fiber) *)

Record WithdrawalDestination := mkDestination {
  wd_Kind : string;
  wd_Address : string;
  wd_PaymentRequest : string;
}.
Record CreateInvoiceInput := mkInvoiceInput {
  ci_PostID : string; ci_FromUserID : string; ci_ToUserID : string;
  ci_Asset : string; ci_Amount : string; ci_Message : string;
}.
(** [QuotePayoutInput] and [RequestPayoutInput] have the same fields. *)
Record PayoutInput := mkPayoutInput {
  po_UserID : string; po_Asset : string; po_Amount : string;
  po_Destination : WithdrawalDestination;
}.
Record QuotePayoutResult := mkQuote {
  qp_Asset : string; qp_Amount : string; qp_MinimumAmount : string;
  qp_AvailableBalance : string; qp_LockedBalance : string; qp_NetworkFee : string;
  qp_ReceiveAmount : string; qp_DestinationValid : bool; qp_ValidationMessage : option string;
}.
Record RequestPayoutResult := mkPayoutResult { pr_ID : string; pr_State : string }.
Record SettledFeedCursor := mkFeedCursor { fc_SettledAt : string; fc_ID : string }.
Record SettledFeedInput := mkFeedInput { fi_Limit : Z; fi_After : option SettledFeedCursor }.
Record SettledFeedItem := mkFeedItem {
  si_TipIntentID : string; si_PostID : string; si_Invoice : string; si_Amount : string;
  si_Asset : string; si_FromUserID : string; si_ToUserID : string; si_Message : string;
  si_SettledAt : string;
}.
Record SettledFeedResult := mkFeedResult {
  sf_Items : list SettledFeedItem; sf_NextCursor : option SettledFeedCursor;
}.
Record WithdrawalStatusItem := mkStatusItem {
  wi_ID : string; wi_UserID : string; wi_Asset : string; wi_Amount : string; wi_State : string;
}.

Inductive FiberCall :=
  | FCreateInvoice (i : CreateInvoiceInput)
  | FInvoiceStatus (invoice : string)
  | FQuote (i : PayoutInput)
  | FPayout (i : PayoutInput)
  | FFeed (i : SettledFeedInput)
  | FStatuses (userID : string).

Record FiberClient := mkFiber {
  CreateInvoice : list FiberCall → CreateInvoiceInput → result string;
  GetInvoiceStatus : list FiberCall → string → result string;
  QuotePayout : list FiberCall → PayoutInput → result QuotePayoutResult;
  RequestPayout : list FiberCall → PayoutInput → result RequestPayoutResult;
  ListSettledFeed : list FiberCall → SettledFeedInput → result SettledFeedResult;
  ListWithdrawalStatuses : list FiberCall → string → result (list WithdrawalStatusItem);
}.

(** ** Roles *)

Definition isProviderFinanceRole (role : string) : bool :=
  existsb (String.eqb role) ["org_owner"; "sales"; "delivery_operator"; "finance_viewer"].
Definition isBuyerTreasuryRole (role : string) : bool :=
  existsb (String.eqb role) ["org_owner"; "procurement"; "operator"].
Definition isOpsRole (role : string) : bool :=
  existsb (String.eqb role) ["ops_reviewer"; "risk_admin"; "finance_admin"; "super_admin"].

Definition is_ops (m : ActorMembership) : bool :=
  String.eqb (am_OrganizationKind m) "ops" && isOpsRole (am_Role m).
Definition is_buyer_treasury (m : ActorMembership) : bool :=
  String.eqb (am_OrganizationKind m) "buyer" && isBuyerTreasuryRole (am_Role m).
Definition is_provider_finance (m : ActorMembership) : bool :=
  String.eqb (am_OrganizationKind m) "provider" && isProviderFinanceRole (am_Role m).

(** The loop over the memberships of [scopeFundingFilter]. *)
Fixpoint scope_memberships (ms : list ActorMembership) (filter : FundingRecordFilter)
    : result FundingRecordFilter :=
  match ms with
  | [] => Err (Errf "buyer, provider, or ops membership is required")
  | m :: ms' =>
      if is_ops m then Ok filter
      else if is_buyer_treasury m then
        if negb (String.eqb (ff_BuyerOrgID filter) "")
           && negb (String.eqb (ff_BuyerOrgID filter) (am_OrganizationID m))
        then Err (Errf "buyer org mismatch")
        else Ok (filter <| ff_BuyerOrgID := am_OrganizationID m |> <| ff_ProviderOrgID := "" |>)
      else if is_provider_finance m then
        if negb (String.eqb (ff_ProviderOrgID filter) "")
           && negb (String.eqb (ff_ProviderOrgID filter) (am_OrganizationID m))
        then Err (Errf "provider org mismatch")
        else Ok (filter <| ff_ProviderOrgID := am_OrganizationID m |>)
      else scope_memberships ms' filter
  end.

(** The loops of [resolveProviderOrg] and [resolveBuyerOrg]. *)
Fixpoint resolve_memberships (member : ActorMembership → bool) (mismatch required : error)
    (ms : list ActorMembership) (requested : string) : result string :=
  match ms with
  | [] => Err required
  | m :: ms' =>
      if is_ops m then Ok requested
      else if member m then
        if negb (String.eqb requested "") && negb (String.eqb requested (am_OrganizationID m))
        then Err mismatch
        else Ok (am_OrganizationID m)
      else resolve_memberships member mismatch required ms' requested
  end.

(** ** Paths and payloads *)

Definition invoiceFromPath (path : string) : result string :=
  match Split "/" (Trim "/" path) with
  | ["v1"; "invoices"; invoice] =>
      if String.eqb invoice "" then Err (Errf "invalid invoice path") else Ok invoice
  | _ => Err (Errf "invalid invoice path")
  end.

Record InvoicePayload := mkInvoicePayload {
  ip_OrderID : string; ip_MilestoneID : string; ip_BuyerOrgID : string;
  ip_ProviderOrgID : string; ip_Asset : string; ip_Amount : string; ip_Memo : string;
}.
Definition decode_invoice (body : option json) : option InvoicePayload :=
  f ← body_fields body;
  o ← string_field "orderId" f; m ← string_field "milestoneId" f;
  b ← string_field "buyerOrgId" f; p ← string_field "providerOrgId" f;
  a ← string_field "asset" f; n ← string_field "amount" f; t ← string_field "memo" f;
  Some (mkInvoicePayload o m b p a n t).

Record TopUpPayload := mkTopUpPayload {
  tp_BuyerOrgID : string; tp_Asset : string; tp_Amount : string; tp_Memo : string;
}.
Definition decode_topup (body : option json) : option TopUpPayload :=
  f ← body_fields body;
  b ← string_field "buyerOrgId" f; a ← string_field "asset" f;
  n ← string_field "amount" f; t ← string_field "memo" f;
  Some (mkTopUpPayload b a n t).

Record withdrawalRequest := mkWithdrawalRequest {
  wr_ProviderOrgID : string; wr_Asset : string; wr_Amount : string;
  wr_Destination : WithdrawalDestination;
}.
Definition decode_destination (f : list (string * json)) : option WithdrawalDestination :=
  d ← object_field "destination" f;
  k ← string_field "kind" d; a ← string_field "address" d;
  p ← string_field "paymentRequest" d;
  Some (mkDestination k a p).
Definition decode_withdrawal (body : option json) : option withdrawalRequest :=
  f ← body_fields body;
  p ← string_field "providerOrgId" f; a ← string_field "asset" f;
  n ← string_field "amount" f; d ← decode_destination f;
  Some (mkWithdrawalRequest p a n d).

Definition parseWithdrawalRequest (r : Request) : result withdrawalRequest :=
  match decode_withdrawal (rq_Body r) with
  | None => Err (Errf "invalid json")
  | Some payload =>
      if String.eqb (wr_Asset payload) "" || String.eqb (wr_Amount payload) ""
         || String.eqb (wd_Kind (wr_Destination payload)) ""
      then Err (Errf "missing required fields") else Ok payload
  end.

Record PayoutPayload := mkPayoutPayload {
  pp_OrderID : string; pp_MilestoneID : string; pp_BuyerOrgID : string;
  pp_ProviderOrgID : string; pp_Asset : string; pp_Amount : string;
  pp_PaymentRequest : string;
}.
Definition decode_payout (body : option json) : option PayoutPayload :=
  f ← body_fields body;
  o ← string_field "orderId" f; m ← string_field "milestoneId" f;
  b ← string_field "buyerOrgId" f; p ← string_field "providerOrgId" f;
  a ← string_field "asset" f; n ← string_field "amount" f;
  q ← string_field "paymentRequest" f;
  Some (mkPayoutPayload o m b p a n q).

(** ** Responses *)

Inductive SettlementBody :=
  | BHealth
  | BNotFound
  | BForwarded (path : string)
  | BError (e : error)
  | BFields (fields : list (string * string))
  | BTopUp (fields : list (string * string)) (confirmationBlocks : Z)
  | BSummary (summary : BuyerDepositSummary)
  | BSync (summary : BuyerDepositSyncSummary)
  | BQuote (quote : QuotePayoutResult)
  | BPayout (payout : RequestPayoutResult)
  | BRecords (records : list FundingRecord)
  | BFeed (feed : SettledFeedResult)
  | BStatuses (items : list WithdrawalStatusItem).

Definition respond (status : Z) (body : SettlementBody) : Response SettlementBody :=
  mkResponse status body.
Definition fail_with (status : Z) (e : error) : Response SettlementBody :=
  respond status (BError e).
Definition auth_error (e : error) : Response SettlementBody :=
  let '(status, shown) := WriteAuthError e in fail_with status shown.
Definition writeFiberError (e : error) : Response SettlementBody :=
  fail_with (if is_error e ErrFiberNotConfigured then StatusServiceUnavailable
             else StatusBadGateway) e.
Definition internal_error (e : error) : Response SettlementBody :=
  fail_with StatusInternalServerError e.
Definition bad_request (msg : string) : Response SettlementBody :=
  fail_with StatusBadRequest (Errf msg).

(** ** The server *)

Section server.
Context `{A : BuyerDepositAddressRepository, W : BuyerDepositSweepRepository,
          F : FundingRecordRepository}.

Record ServerConfig := mkServerConfig {
  sc_fiber : FiberClient;
  sc_deposits : option BuyerDepositService;
  sc_auth : IAMClient;
  sc_serviceTokens : TokenSet;
  sc_getenv : string → string;
  sc_now : nat → Time;
}.

(** [s.funding] is the repository the deposit service credits as well. *)
Record Server := mkServer {
  sv_deposits : Deposits;
  sv_fiber : list FiberCall;
  sv_actors : nat;
  sv_ticks : nat;
}.
#[export] Instance Server_eta : Eta Server := λ s,
  mkServer (sv_deposits s) (sv_fiber s) (sv_actors s) (sv_ticks s).

Abbreviation M := (ST Server).
Abbreviation Handler := (Request → M (Response SettlementBody)).

Definition with_deposits {T} : ST Deposits T → M T :=
  zoom sv_deposits (λ d s, s <| sv_deposits := d |>).
Definition with_funding {T} (m : ST funding_t T) : M T := with_deposits (on_funding m).
Definition list_funding (filter : FundingRecordFilter) : M (list FundingRecord) :=
  query (λ s, dp_funding (sv_deposits s)) (funding_List filter).
Definition fiber {T} (call : FiberCall) (answer : list FiberCall → result T) : M T := λ s,
  (s <| sv_fiber ::= (λ h, h ++ [call]) |>, answer (sv_fiber s)).
Definition get_actor (iam : nat → string → result Actor) (token : string) : M Actor := λ s,
  (s <| sv_actors ::= S |>, iam (sv_actors s) token).

Context (c : ServerConfig).

Definition server_now : M Time := λ s, (s <| sv_ticks ::= S |>, Ok (sc_now c (sv_ticks s))).

Definition marketplaceTreasuryUserID : string :=
  let value := TrimSpace (sc_getenv c "MARKETPLACE_TREASURY_USER_ID") in
  if negb (String.eqb value "") then value else "platform_treasury".
Definition defaultSettlementAsset (value : string) : string :=
  let trimmed := TrimSpace value in
  if negb (String.eqb trimmed "") then trimmed
  else
    let env := TrimSpace (sc_getenv c "MARKETPLACE_SETTLEMENT_ASSET") in
    if negb (String.eqb env "") then env else "USDI".

(** *** Authorization *)

Definition authorizeInternalRoute (r : Request) : result () :=
  if TokenSet_Empty (sc_serviceTokens c) then Ok tt
  else if MatchesRequest (sc_serviceTokens c) r then Ok tt
  else Err ErrInvalidServiceToken.

(** The actor behind the request's bearer token. *)
Definition request_actor (iam : nat → string → result Actor) (r : Request) : M Actor :=
  match bearerToken (rq_Header r "Authorization") with
  | None => throw ErrUnauthorized
  | Some token => get_actor iam token
  end.

Definition scopeFundingFilter (r : Request) (filter : FundingRecordFilter)
    : M FundingRecordFilter :=
  match sc_auth c with
  | None => mret filter
  | Some iam => actor ← request_actor iam r; lift (scope_memberships (ac_Memberships actor) filter)
  end.

Definition resolveProviderOrg (r : Request) (requested : string) : M string :=
  match sc_auth c with
  | None => mret requested
  | Some iam =>
      actor ← request_actor iam r;
      lift (resolve_memberships is_provider_finance (Errf "provider org mismatch")
        (Errf "provider or ops membership is required") (ac_Memberships actor) requested)
  end.

Definition resolveBuyerOrg (r : Request) (requested : string) : M string :=
  match sc_auth c with
  | None => mret requested
  | Some iam =>
      actor ← request_actor iam r;
      lift (resolve_memberships is_buyer_treasury (Errf "buyer org mismatch")
        (Errf "buyer or ops membership is required") (ac_Memberships actor) requested)
  end.

Definition no_auth : bool := match sc_auth c with None => true | Some _ => false end.

Definition resolveBuyerOrgOrInternal (r : Request) (requested : string) : M string :=
  if (negb (TokenSet_Empty (sc_serviceTokens c)) && MatchesRequest (sc_serviceTokens c) r)
     || (TokenSet_Empty (sc_serviceTokens c) && no_auth)
  then if blank requested then throw (Errf "buyer org is required") else mret (TrimSpace requested)
  else resolveBuyerOrg r requested.

(** *** Invoices *)

Definition save_record (record : string → Time → FundingRecord)
    (k : string → M (Response SettlementBody)) : M (Response SettlementBody) :=
  let? recordID := with_funding funding_NextID orelse internal_error in
  now ← server_now;
  let? _ := with_funding (funding_Save (record recordID now)) orelse internal_error in
  k recordID.

Definition handleCreateInvoice : Handler := λ r,
  let? _ := lift (authorizeInternalRoute r) orelse auth_error in
  match decode_invoice (rq_Body r) with
  | None => mret (bad_request "invalid json")
  | Some p =>
      if String.eqb (ip_OrderID p) "" || String.eqb (ip_BuyerOrgID p) ""
         || String.eqb (ip_ProviderOrgID p) "" || String.eqb (ip_Asset p) ""
         || String.eqb (ip_Amount p) ""
      then mret (bad_request "missing required fields")
      else
        let postID := if negb (String.eqb (ip_MilestoneID p) "")
                      then ip_OrderID p +:+ ":" +:+ ip_MilestoneID p else ip_OrderID p in
        let input := mkInvoiceInput postID (ip_BuyerOrgID p) (ip_ProviderOrgID p) (ip_Asset p)
                       (ip_Amount p) (ip_Memo p) in
        let? invoice := fiber (FCreateInvoice input) (λ h, CreateInvoice (sc_fiber c) h input)
          orelse writeFiberError in
        save_record (λ id now, {|
            fr_ID := id; fr_Kind := FundingRecordKindInvoice;
            fr_OrderID := ip_OrderID p; fr_MilestoneID := ip_MilestoneID p;
            fr_BuyerOrgID := ip_BuyerOrgID p; fr_ProviderOrgID := ip_ProviderOrgID p;
            fr_Asset := ip_Asset p; fr_Amount := ip_Amount p;
            fr_Invoice := invoice; fr_ExternalID := ""; fr_State := "UNPAID";
            fr_Destination := ∅; fr_CreatedAt := now; fr_UpdatedAt := now |})
          (λ _, mret (respond StatusCreated (BFields [("invoice", invoice)])))
  end.

Definition handleGetInvoiceStatus : Handler := λ r,
  let? _ := lift (authorizeInternalRoute r) orelse auth_error in
  let? invoice := lift (invoiceFromPath (rq_Path r)) orelse (fail_with StatusBadRequest) in
  let? state := fiber (FInvoiceStatus invoice) (λ h, GetInvoiceStatus (sc_fiber c) h invoice)
    orelse writeFiberError in
  now ← server_now;
  let? _ := with_funding (funding_UpdateInvoiceState now invoice state) orelse internal_error in
  mret (respond StatusOK (BFields [("invoice", invoice); ("state", state)])).

(** *** Buyer deposits *)

Definition deposits_missing : Response SettlementBody :=
  fail_with StatusServiceUnavailable (Errf "buyer deposits are not configured").

Definition handleCreateTopUp : Handler := λ r,
  match decode_topup (rq_Body r) with
  | None => mret (bad_request "invalid json")
  | Some p =>
      let? buyerOrgID := resolveBuyerOrgOrInternal r (tp_BuyerOrgID p) orelse auth_error in
      match sc_deposits c with
      | None => mret deposits_missing
      | Some deposits =>
          let asset := defaultSettlementAsset (tp_Asset p) in
          let? record := with_deposits (EnsureAddress deposits buyerOrgID) orelse internal_error in
          let? summary := with_deposits (GetSummary deposits buyerOrgID) orelse internal_error in
          mret (respond StatusCreated (BTopUp
            [("buyerOrgId", buyerOrgID); ("asset", asset); ("address", da_Address record);
             ("minimumSweepAmount", bs_MinimumSweepAmount summary);
             ("onChainBalance", bs_OnChainBalance summary);
             ("confirmedBalance", bs_ConfirmedBalance summary);
             ("creditedBalance", bs_CreditedBalance summary)] (bs_ConfirmationBlocks summary)))
      end
  end.

Definition handleGetBuyerDepositAddress : Handler := λ r,
  match sc_deposits c with
  | None => mret deposits_missing
  | Some deposits =>
      let? buyerOrgID := resolveBuyerOrgOrInternal r (rq_Query r "buyerOrgId") orelse auth_error in
      let? summary := with_deposits (GetSummary deposits buyerOrgID) orelse internal_error in
      mret (respond StatusOK (BSummary summary))
  end.

Definition handleSyncBuyerDeposits : Handler := λ r,
  let? _ := lift (authorizeInternalRoute r) orelse auth_error in
  match sc_deposits c with
  | None => mret deposits_missing
  | Some deposits =>
      let? summary := with_deposits (SyncDeposits deposits) orelse internal_error in
      mret (respond StatusOK (BSync summary))
  end.

(** *** Withdrawals and payouts *)

Definition payout_input (userID : string) (input : withdrawalRequest) : PayoutInput :=
  mkPayoutInput userID (wr_Asset input) (wr_Amount input) (wr_Destination input).

Definition handleQuoteWithdrawal : Handler := λ r,
  let? input := lift (parseWithdrawalRequest r) orelse (fail_with StatusBadRequest) in
  let? provider := resolveProviderOrg r (wr_ProviderOrgID input) orelse auth_error in
  let call := payout_input provider input in
  let? quote := fiber (FQuote call) (λ h, QuotePayout (sc_fiber c) h call) orelse writeFiberError in
  mret (respond StatusOK (BQuote quote)).

Definition destination_map (d : WithdrawalDestination) : gmap string string :=
  let m : gmap string string := {[ "kind" := wd_Kind d ]} in
  let m := if negb (String.eqb (wd_Address d) "") then <["address" := wd_Address d]> m else m in
  if negb (String.eqb (wd_PaymentRequest d) "")
  then <["paymentRequest" := wd_PaymentRequest d]> m else m.

Definition handleRequestWithdrawal : Handler := λ r,
  let? input := lift (parseWithdrawalRequest r) orelse (fail_with StatusBadRequest) in
  let? provider := resolveProviderOrg r (wr_ProviderOrgID input) orelse auth_error in
  let call := payout_input provider input in
  let? payout := fiber (FPayout call) (λ h, RequestPayout (sc_fiber c) h call)
    orelse writeFiberError in
  save_record (λ id now, {|
      fr_ID := id; fr_Kind := FundingRecordKindWithdrawal;
      fr_OrderID := ""; fr_MilestoneID := ""; fr_BuyerOrgID := "";
      fr_ProviderOrgID := provider;
      fr_Asset := wr_Asset input; fr_Amount := wr_Amount input;
      fr_Invoice := ""; fr_ExternalID := pr_ID payout; fr_State := pr_State payout;
      fr_Destination := destination_map (wr_Destination input);
      fr_CreatedAt := now; fr_UpdatedAt := now |})
    (λ _, mret (respond StatusCreated (BPayout payout))).

Definition handleRequestProviderPayout : Handler := λ r,
  let? _ := lift (authorizeInternalRoute r) orelse auth_error in
  match decode_payout (rq_Body r) with
  | None => mret (bad_request "invalid json")
  | Some p =>
      if blank (pp_ProviderOrgID p) || blank (pp_Amount p) || blank (pp_PaymentRequest p)
      then mret (bad_request "missing required fields")
      else
        let asset := defaultSettlementAsset (pp_Asset p) in
        let call := mkPayoutInput marketplaceTreasuryUserID asset (TrimSpace (pp_Amount p))
          (mkDestination "PAYMENT_REQUEST" "" (TrimSpace (pp_PaymentRequest p))) in
        let? payout := fiber (FPayout call) (λ h, RequestPayout (sc_fiber c) h call)
          orelse writeFiberError in
        save_record (λ id now, {|
            fr_ID := id; fr_Kind := FundingRecordKindProviderPayout;
            fr_OrderID := TrimSpace (pp_OrderID p);
            fr_MilestoneID := TrimSpace (pp_MilestoneID p);
            fr_BuyerOrgID := TrimSpace (pp_BuyerOrgID p);
            fr_ProviderOrgID := TrimSpace (pp_ProviderOrgID p);
            fr_Asset := asset; fr_Amount := TrimSpace (pp_Amount p);
            fr_Invoice := ""; fr_ExternalID := pr_ID payout; fr_State := pr_State payout;
            fr_Destination := {[ "kind" := "PAYMENT_REQUEST";
                                 "paymentRequest" := TrimSpace (pp_PaymentRequest p) ]};
            fr_CreatedAt := now; fr_UpdatedAt := now |})
          (λ recordID, mret (respond StatusCreated (BFields
            [("id", pr_ID payout); ("state", pr_State payout); ("recordId", recordID);
             ("asset", asset)])))
  end.

(** *** Listings and feeds *)

Definition handleListFundingRecords : Handler := λ r,
  let filter := mkFundingFilter (rq_Query r "kind") (rq_Query r "orderId")
                  (rq_Query r "buyerOrgId") (rq_Query r "providerOrgId") in
  let? filter := scopeFundingFilter r filter orelse auth_error in
  let? records := list_funding filter orelse internal_error in
  mret (respond StatusOK (BRecords records)).

(** A loop over items, each of which updates the records of one id. *)
Definition update_each {I} (items : list I) (key : I → string)
    (step : Time → I → ST funding_t ()) : M () :=
  for_each items (λ item,
    if blank (key item) then mret tt
    else now ← server_now; with_funding (step now item)).

Definition feed_input (r : Request) : result SettledFeedInput :=
  let limit := TrimSpace (rq_Query r "limit") in
  limit ← (if String.eqb limit "" then Ok 0
           else match ParseInt limit with
                | (z, None) => Ok z
                | (_, Some _) => Err (Errf "invalid limit")
                end);
  let afterSettledAt := TrimSpace (rq_Query r "afterSettledAt") in
  let afterID := TrimSpace (rq_Query r "afterId") in
  Ok (mkFeedInput limit
    (if negb (String.eqb afterSettledAt "") || negb (String.eqb afterID "")
     then Some (mkFeedCursor afterSettledAt afterID) else None)).

Definition handleSettledFeed : Handler := λ r,
  let? _ := lift (authorizeInternalRoute r) orelse auth_error in
  let? input := lift (feed_input r) orelse (fail_with StatusBadRequest) in
  let? feed := fiber (FFeed input) (λ h, ListSettledFeed (sc_fiber c) h input)
    orelse writeFiberError in
  let? _ := update_each (sf_Items feed) si_Invoice
      (λ now item, funding_UpdateInvoiceState now (si_Invoice item) "SETTLED")
    orelse internal_error in
  mret (respond StatusOK (BFeed feed)).

Definition handleWithdrawalStatuses : Handler := λ r,
  let? userID := resolveProviderOrg r (TrimSpace (rq_Query r "providerOrgId")) orelse auth_error in
  if String.eqb userID "" then mret (bad_request "missing providerOrgId")
  else
    let? items := fiber (FStatuses userID) (λ h, ListWithdrawalStatuses (sc_fiber c) h userID)
      orelse writeFiberError in
    let? _ := update_each items wi_ID
        (λ now item, funding_UpdateExternalState now (wi_ID item) (wi_State item))
      orelse internal_error in
    mret (respond StatusOK (BStatuses items)).

(** *** Dispatch *)

Definition is_request (method path : string) (r : Request) : bool :=
  String.eqb (rq_Method r) method && String.eqb (rq_Path r) path.

(** Under [/v1/orders/] the request goes to the gateway, at
    ["/api/v1" + path[3:]]. *)
Definition ServeHTTP : Handler := λ r,
  if String.eqb (rq_Path r) "/healthz" then mret (respond StatusOK BHealth)
  else if is_request "POST" "/v1/invoices" r then handleCreateInvoice r
  else if is_request "POST" "/v1/topups" r then handleCreateTopUp r
  else if is_request "GET" "/v1/buyer/deposit-address" r then handleGetBuyerDepositAddress r
  else if is_request "POST" "/v1/buyer/deposits/sync" r then handleSyncBuyerDeposits r
  else if String.eqb (rq_Method r) "GET" && HasPrefix (rq_Path r) "/v1/invoices/"
  then handleGetInvoiceStatus r
  else if is_request "POST" "/v1/withdrawals/quote" r then handleQuoteWithdrawal r
  else if is_request "POST" "/v1/withdrawals" r then handleRequestWithdrawal r
  else if is_request "POST" "/v1/provider-payouts" r then handleRequestProviderPayout r
  else if is_request "GET" "/v1/funding-records" r then handleListFundingRecords r
  else if is_request "GET" "/v1/settled-feed" r then handleSettledFeed r
  else if is_request "GET" "/v1/withdrawals/status" r then handleWithdrawalStatuses r
  else if HasPrefix (rq_Path r) "/v1/orders/"
  then mret (respond 0 (BForwarded ("/api/v1" +:+ String.substring 3 (String.length (rq_Path r) - 3) (rq_Path r))))
  else mret (respond StatusNotFound BNotFound).
End server.
