(* ===== verification/SettlementAccess.v ===== *)
(** * Who may do what on the settlement service

    Funding records are shown to the organizations they belong to, withdrawals
    are made for the caller's own organization, the internal routes are closed
    to requests without a service token, and what a payout creates is recorded.
    Runs at the end show where the service is open or answers with the wrong
    status. *)

From S2P Require Import Prelude GoNum GoText Core Repo Funding Amounts Deposits DepositLedger Http.
From S2P Require Import Settlement.

(** Evaluate the dispatch on a given method and path. *)
Ltac dispatch Hm Hp :=
  unfold ServeHTTP, is_request; rewrite Hm, Hp;
  repeat match goal with
  | |- context [String.eqb ?a ?b] =>
      let v := eval vm_compute in (String.eqb a b) in change (String.eqb a b) with v
  | |- context [HasPrefix ?a ?b] =>
      let v := eval vm_compute in (HasPrefix a b) in change (HasPrefix a b) with v
  end; cbn [andb orb negb].

Lemma scope_memberships_Ok ms filter filter' :
  scope_memberships ms filter = Ok filter' →
  ∃ m, m ∈ ms ∧
    (is_ops m = true ∧ filter' = filter ∨
     is_buyer_treasury m = true ∧ ff_BuyerOrgID filter' = am_OrganizationID m ∨
     is_provider_finance m = true ∧ ff_ProviderOrgID filter' = am_OrganizationID m).
Proof.
  induction ms as [|m ms IH]; [done|]. cbn [scope_memberships].
  destruct (is_ops m) eqn:Ho; [intros [= ->]; exists m; split; [by left|by left]|].
  destruct (is_buyer_treasury m) eqn:Hb.
  { destruct (_ && _); [done|]. intros [= <-]. exists m. split; [by left|]. right. by left. }
  destruct (is_provider_finance m) eqn:Hp.
  { destruct (_ && _); [done|]. intros [= <-]. exists m. split; [by left|]. right. by right. }
  intros (m' & Hin & H)%IH. exists m'. split; [by right|done].
Qed.

Lemma resolve_memberships_Ok member e1 e2 ms requested org :
  resolve_memberships member e1 e2 ms requested = Ok org →
  ∃ m, m ∈ ms ∧
    (is_ops m = true ∧ org = requested ∨
     member m = true ∧ org = am_OrganizationID m ∧ (requested = "" ∨ requested = org)).
Proof.
  induction ms as [|m ms IH]; [done|]. cbn [resolve_memberships].
  destruct (is_ops m) eqn:Ho; [intros [= ->]; exists m; split; [by left|by left]|].
  destruct (member m) eqn:Hb.
  { destruct (_ && _) eqn:Hr; [done|]. intros [= <-]. exists m. split; [by left|]. right.
    split_and!; [done..|]. apply andb_false_iff in Hr as [H|H]; apply negb_false_iff, String.eqb_eq in H;
      auto. }
  intros (m' & Hin & H)%IH. exists m'. split; [by right|done].
Qed.

Section access.
Context `{A : BuyerDepositAddressRepository, W : BuyerDepositSweepRepository, FL : FundingLaws}.
Context (c : ServerConfig).

Lemma request_actor_Ok iam r (s s' : Server) actor :
  request_actor iam r s = (s', Ok actor) →
  s' = s <| sv_actors ::= Datatypes.S |> ∧
  ∃ token, bearerToken (rq_Header r "Authorization") = Some token ∧
    iam (sv_actors s) token = Ok actor.
Proof.
  unfold request_actor. destruct (bearerToken _) as [token|]; [|done].
  unfold get_actor. intros [= <- Ha]. by eauto.
Qed.

Lemma lift_result {S T} (x : result T) (s s' : S) a : lift x s = (s', Ok a) → s' = s ∧ x = Ok a.
Proof. by intros [= <- ->]. Qed.

(** The IAM service never leaves the id of an organization empty. *)
Definition names_organizations (iam : nat → string → result Actor) : Prop :=
  ∀ n token actor m, iam n token = Ok actor → m ∈ ac_Memberships actor →
    am_OrganizationID m ≠ "".

(** The caller is an operator of the platform. *)
Definition operator (actor : Actor) : Prop := ∃ m, m ∈ ac_Memberships actor ∧ is_ops m = true.
(** The record belongs to an organization in which the actor handles money. *)
Definition own_record (actor : Actor) (f : FundingRecord) : Prop :=
  ∃ m, m ∈ ac_Memberships actor ∧
    (is_buyer_treasury m = true ∧ fr_BuyerOrgID f = am_OrganizationID m ∨
     is_provider_finance m = true ∧ fr_ProviderOrgID f = am_OrganizationID m).

(** With an IAM service configured, the funding records of the service are
    shown to an authenticated actor only, and to one who is not an operator
    only those of his own organizations, whatever the query asks for. *)
Theorem funding_records_are_private iam (r : Request) (s s' : Server) records :
  sc_auth c = Some iam → names_organizations iam →
  rq_Method r = "GET" → rq_Path r = "/v1/funding-records" →
  valid (dp_funding (sv_deposits s)) →
  ServeHTTP c r s = (s', Ok (respond StatusOK (BRecords records))) →
  ∃ token actor, bearerToken (rq_Header r "Authorization") = Some token ∧
    iam (sv_actors s) token = Ok actor ∧
    (operator actor ∨ ∀ f, f ∈ records → own_record actor f).
Proof.
  intros Hauth Hnames Hm Hp Hv. dispatch Hm Hp.
  unfold handleListFundingRecords. rewrite or_respond_eq. unfold scopeFundingFilter.
  rewrite Hauth. set (filter := mkFundingFilter _ _ _ _).
  destruct (mbind (M := ST Server) _ _ s) as [s1 [filter'|e]] eqn:Hscope.
  2: { unfold mret, st_ret, auth_error. by destruct (WriteAuthError e). }
  apply bind_Ok in Hscope as (s2 & actor & Ha & Hscope).
  apply request_actor_Ok in Ha as (-> & token & Htok & Hactor).
  apply lift_result in Hscope as [-> Hscope].
  rewrite or_respond_eq. unfold list_funding, query. cbn [sv_deposits update].
  destruct (funding_List filter' _) as [l|e] eqn:Hl; [|done].
  intros [= _ <-]. exists token, actor. split_and!; [done..|].
  destruct (scope_memberships_Ok _ _ _ Hscope) as (m & Hin & Hm').
  destruct Hm' as [[Ho _]|Hm']; [left; by exists m|right].
  intros f Hf. destruct (funding_List_spec _ _ _ Hv Hl) as [_ Hmem].
  apply Hmem in Hf as [_ Hf]. unfold funding_matches, field_matches in Hf.
  rewrite !andb_true_iff, !orb_true_iff, !String.eqb_eq in Hf. destruct Hf as [[[_ _] Hbf] Hpf].
  pose proof (Hnames _ _ _ _ Hactor Hin) as Hne. exists m. split; [done|].
  destruct Hm' as [[Hb Ho]|[Hb Ho]]; rewrite Ho in *; [left|right]; (split; [done|]).
  - by destruct Hbf.
  - by destruct Hpf.
Qed.

(** The routes that take a service token. *)
Definition internal_route (r : Request) : Prop :=
  (rq_Method r = "POST" ∧ (rq_Path r = "/v1/invoices" ∨ rq_Path r = "/v1/buyer/deposits/sync" ∨
     rq_Path r = "/v1/provider-payouts")) ∨
  (rq_Method r = "GET" ∧ (rq_Path r = "/v1/settled-feed")).

(** Once service tokens are configured, a request without one to an internal
    route is answered 401 and changes nothing: no invoice, no payout, no sweep. *)
Theorem internal_routes_closed (r : Request) (s : Server) :
  TokenSet_Empty (sc_serviceTokens c) = false →
  MatchesRequest (sc_serviceTokens c) r = false → internal_route r →
  ServeHTTP c r s = (s, Ok (fail_with StatusUnauthorized (Errf "unauthorized"))).
Proof.
  intros He Hn Hr.
  assert (Ha : authorizeInternalRoute c r = Err ErrInvalidServiceToken)
    by (unfold authorizeInternalRoute; by rewrite He, Hn).
  destruct Hr as [[Hm [Hp|[Hp|Hp]]]|[Hm Hp]]; dispatch Hm Hp;
    [unfold handleCreateInvoice|unfold handleSyncBuyerDeposits|
     unfold handleRequestProviderPayout|unfold handleSettledFeed];
    rewrite or_respond_eq; unfold lift; by rewrite Ha.
Qed.

(** C24. An actor who is not an operator withdraws only for a provider he handles
    the finances of, and a request makes one payout at most: whatever the payload names,
    the payout that reaches the payment network is made for his own organization. *)
Theorem withdrawals_are_own iam (r : Request) (s s' : Server) x :
  sc_auth c = Some iam → rq_Method r = "POST" → rq_Path r = "/v1/withdrawals" →
  ServeHTTP c r s = (s', x) →
  sv_fiber s' = sv_fiber s ∨
  ∃ token actor input, bearerToken (rq_Header r "Authorization") = Some token ∧
    iam (sv_actors s) token = Ok actor ∧ sv_fiber s' = sv_fiber s ++ [FPayout input] ∧
    (operator actor ∨ ∃ m, m ∈ ac_Memberships actor ∧ is_provider_finance m = true ∧
       po_UserID input = am_OrganizationID m).
Proof.
  intros Hauth Hm Hp. dispatch Hm Hp. unfold handleRequestWithdrawal.
  rewrite or_respond_eq. unfold lift at 1.
  destruct (parseWithdrawalRequest r) as [w|e]; [|intros [= <- _]; by left].
  rewrite or_respond_eq. unfold resolveProviderOrg. rewrite Hauth.
  destruct (mbind (M := ST Server) _ _ s) as [s1 [org|e]] eqn:Hres.
  2: { intros [= <- _]. left. unfold mbind, st_bind, request_actor, get_actor in Hres.
       destruct (bearerToken _); [|by injection Hres as <- _].
       destruct (iam _ _); by injection Hres as <- _. }
  apply bind_Ok in Hres as (s2 & actor & Ha & Hres).
  apply request_actor_Ok in Ha as (-> & token & Htok & Hactor).
  apply lift_result in Hres as [-> Hres].
  rewrite or_respond_eq. unfold fiber. cbn [sv_fiber update].
  set (call := payout_input org w).
  set (s1 := s <| sv_actors ::= Datatypes.S |> <| sv_fiber ::= (λ h, h ++ [FPayout call]) |>).
  assert (Hin : ∃ m, m ∈ ac_Memberships actor ∧ (is_ops m = true ∨
      is_provider_finance m = true ∧ po_UserID call = am_OrganizationID m)).
  { destruct (resolve_memberships_Ok _ _ _ _ _ _ Hres) as (m & Hin & [[Ho _]|(Hf & Hn & _)]);
      exists m; auto. }
  assert (Hfiber : ∀ s2, sv_fiber s2 = sv_fiber s1 → sv_fiber s2 = sv_fiber s ++ [FPayout call] ∧
    (operator actor ∨ ∃ m, m ∈ ac_Memberships actor ∧ is_provider_finance m = true ∧
       po_UserID call = am_OrganizationID m)).
  { intros s2 ->. split; [done|]. destruct Hin as (m & Hin & [Ho|[Hf Hn]]);
      [left; by exists m|right; eauto]. }
  intros Hrun. right. exists token, actor, call.
  enough (Hs' : sv_fiber s' = sv_fiber s1) by (destruct (Hfiber s' Hs'); auto).
  destruct (RequestPayout _ _ _) as [payout|e]; [|by injection Hrun as <- _].
  revert Hrun. clear. unfold save_record. rewrite or_respond_eq.
  unfold with_funding, with_deposits, on_funding, zoom.
  destruct (funding_NextID _) as [f1 [id|e]]; [|by intros [= <- _]].
  unfold mbind, st_bind, server_now. rewrite or_respond_eq. cbn [sv_deposits update dp_funding].
  destruct (funding_Save _ _) as [f2 [[]|e]]; by intros [= <- _].
Qed.

(** A record is saved and the handler goes on. *)
Lemma save_record_created record k (s s' : Server) status body :
  valid (dp_funding (sv_deposits s)) → (∀ id now, fr_ID (record id now) = id) →
  save_record c record k s = (s', Ok (respond status body)) → status ≠ StatusInternalServerError →
  ∃ id now s1, k id s1 = (s', Ok (respond status body)) ∧ sv_fiber s1 = sv_fiber s ∧
    funding_Get id (dp_funding (sv_deposits s1)) = Ok (record id now) ∧
    (∀ j, j ≠ id → funding_Get j (dp_funding (sv_deposits s1)) =
       funding_Get j (dp_funding (sv_deposits s))).
Proof.
  intros Hv Hid Hrun Hst. unfold save_record in Hrun. rewrite or_respond_eq in Hrun.
  unfold with_funding, with_deposits, on_funding, zoom in Hrun.
  destruct (funding_NextID _) as [f1 [id|e]] eqn:Hn; [|by injection Hrun as _ <- _].
  unfold mbind, st_bind, server_now in Hrun. rewrite or_respond_eq in Hrun.
  cbn [sv_deposits update dp_funding] in Hrun.
  destruct (funding_Save _ f1) as [f2 [[]|e]] eqn:Hs; [|by injection Hrun as _ <- _].
  pose proof (next_valid _ _ _ Hv Hn) as Hv1.
  eexists id, _, _. split_and!; [exact Hrun|done| |].
  - cbn [sv_deposits update dp_funding].
    rewrite <- (Hid id (sc_now c (sv_ticks s))) at 1. exact (save_get _ _ _ Hv1 Hs).
  - intros j Hj. cbn [sv_deposits update dp_funding].
    rewrite (save_get_ne _ _ _ _ j Hs) by (by rewrite Hid). exact (next_get _ _ _ j Hn).
Qed.

(** A payout to a provider that is answered with success was made once, from
    the treasury, and is on record under the payment network's id and state,
    with the amount and the provider of the request; no other record changed. *)
Theorem payout_is_recorded (r : Request) (s s' : Server) fields :
  valid (dp_funding (sv_deposits s)) →
  rq_Method r = "POST" → rq_Path r = "/v1/provider-payouts" →
  ServeHTTP c r s = (s', Ok (respond StatusCreated (BFields fields))) →
  ∃ p call payout f, decode_payout (rq_Body r) = Some p ∧
    sv_fiber s' = sv_fiber s ++ [FPayout call] ∧
    RequestPayout (sc_fiber c) (sv_fiber s) call = Ok payout ∧
    po_UserID call = marketplaceTreasuryUserID c ∧
    funding_Get (fr_ID f) (dp_funding (sv_deposits s')) = Ok f ∧
    fr_Kind f = FundingRecordKindProviderPayout ∧ fr_ExternalID f = pr_ID payout ∧
    fr_State f = pr_State payout ∧ fr_Amount f = po_Amount call ∧ fr_Asset f = po_Asset call ∧
    fr_ProviderOrgID f = TrimSpace (pp_ProviderOrgID p) ∧
    (∀ j, j ≠ fr_ID f → funding_Get j (dp_funding (sv_deposits s')) =
       funding_Get j (dp_funding (sv_deposits s))).
Proof.
  intros Hv Hm Hp. dispatch Hm Hp. unfold handleRequestProviderPayout.
  rewrite or_respond_eq. unfold lift at 1.
  destruct (authorizeInternalRoute c r) as [[]|e].
  2: { unfold auth_error. destruct (WriteAuthError e). intros [=]. }
  destruct (decode_payout (rq_Body r)) as [p|]; [|intros [=]].
  destruct (_ || _); [intros [=]|].
  rewrite or_respond_eq. unfold fiber. set (call := mkPayoutInput _ _ _ _).
  destruct (RequestPayout (sc_fiber c) (sv_fiber s) call) as [payout|e] eqn:Hpay.
  2: { unfold writeFiberError. destruct (is_error _ _); intros [=]. }
  intros Hrun. apply save_record_created in Hrun as (id & now & s1 & Hk & Hfib & Hat & Hoth);
    [|done..].
  injection Hk as <- _. exists p, call, payout.
  match type of Hat with _ = Ok ?f => exists f end.
  split_and!; [done|done|done|done|exact Hat|done..].
Qed.
End access.

(** ** Concrete requests *)

Module Requests.
Import DepositLedger.Runs.

Abbreviation memory_server :=
  (Server (A := @memory_addresses plain_order) (W := @memory_sweeps plain_order)
     (F := @memory_funding plain_order)).

Definition start : memory_server :=
  mkServer (A := @memory_addresses plain_order) (W := @memory_sweeps plain_order)
    (F := @memory_funding plain_order) fresh [] 0 0.

(** A payment network that pays, and has something to say. *)
Definition payments : FiberClient := {|
  CreateInvoice := λ h i, Ok ("inv_" +:+ ci_PostID i);
  GetInvoiceStatus := λ _ _, Ok "PAID";
  QuotePayout := λ _ i,
    Ok (mkQuote (po_Asset i) (po_Amount i) "1" "100" "0" "0.1" (po_Amount i) true None);
  RequestPayout := λ h _, Ok (mkPayoutResult ("wd_" +:+ pretty (length h)) "PENDING");
  ListSettledFeed := λ _ _, Ok (mkFeedResult [] None);
  ListWithdrawalStatuses := λ _ _, Ok [];
|}.

Definition buyer_actor : Actor :=
  mkActor "user_1" "b@x.io" "B" [mkMembership "org_1" "Buyer" "buyer" "procurement"].
Definition provider_actor : Actor :=
  mkActor "user_2" "p@x.io" "P" [mkMembership "org_2" "Provider" "provider" "sales"].
Definition iam : nat → string → result Actor := λ _ token,
  if String.eqb token "buyer" then Ok buyer_actor
  else if String.eqb token "provider" then Ok provider_actor else Err ErrUnauthorized.

Lemma iam_names_organizations : names_organizations iam.
Proof.
  intros n token actor m. unfold iam.
  destruct (String.eqb token "buyer"); [|destruct (String.eqb token "provider"); [|done]];
    intros [= <-] Hm%list_elem_of_singleton; by rewrite Hm.
Qed.

Definition config (auth : IAMClient) (tokens : list string) : ServerConfig :=
  mkServerConfig payments (Some service) auth (NewTokenSet tokens) (λ _, "") (λ n, Z.of_nat n).

Definition request (method path bearer token : string) (query : string → string)
    (body : option json) : Request :=
  mkRequest method path
    (λ h, if String.eqb h "Authorization" then bearer
          else if String.eqb h HeaderName then token else "") (λ key, one_value (query key)) body "".

Definition withdrawal (org : string) : option json :=
  Some (JObj [("providerOrgId", JStr org); ("asset", JStr "USDI"); ("amount", JStr "5");
              ("destination", JObj [("kind", JStr "CKB_ADDRESS"); ("address", JStr "ckt1")])]).
Definition payout : option json :=
  Some (JObj [("providerOrgId", JStr " org_2 "); ("amount", JStr "5");
              ("paymentRequest", JStr "lnusdi1")]).

(** A withdrawal of the provider, a payout to it, then the buyer asks for all
    records, and sees none. *)
Definition busy : memory_server :=
  let s1 := (ServeHTTP (config (Some iam) ["secret"])
    (request "POST" "/v1/withdrawals" "Bearer provider" "" (λ _, "") (withdrawal "")) start).1 in
  (ServeHTTP (config (Some iam) ["secret"])
    (request "POST" "/v1/provider-payouts" "" "secret" (λ _, "") payout) s1).1.

Definition listing (bearer : string) : Request :=
  request "GET" "/v1/funding-records" bearer "" (λ _, "") None.

Definition shown (x : result (Response SettlementBody)) : list (string * string) :=
  match x with
  | Ok (mkResponse _ (BRecords l)) => map (λ f, (fr_ID f, fr_ProviderOrgID f)) l
  | _ => []
  end.

Example provider_sees_own :
  shown (ServeHTTP (config (Some iam) ["secret"]) (listing "Bearer provider") busy).2
    = [("fund_1", "org_2"); ("fund_2", "org_2")] ∧
  shown (ServeHTTP (config (Some iam) ["secret"]) (listing "Bearer buyer") busy).2 = [].
Proof. split; vm_compute; reflexivity. Qed.

(** A store given by its entries is valid if each of them passes the test. *)
Lemma stored_check (r : memoryFundingRecordRepository) :
  forallb (λ p, String.eqb (fr_ID p.2) p.1 &&
    existsb (λ k, String.eqb p.1 ("fund_" +:+ pretty k)) (seqZ 1 (mr_seq r)))
    (map_to_list (mr_data r)) && (0 <=? mr_seq r) = true →
  map_valid fr_ID "fund_" r.
Proof.
  intros [Hall H0]%andb_true_iff. split; [lia|]. intros id v Hv. rewrite forallb_forall in Hall.
  specialize (Hall (id, v)). apply andb_true_iff in Hall as [Hid (k & Hk & Heq)%existsb_exists].
  - apply String.eqb_eq in Hid, Heq. split; [exact Hid|]. exists k. split; [|exact Heq].
    apply list_elem_of_In, elem_of_seqZ in Hk. lia.
  - by apply list_elem_of_In, elem_of_map_to_list.
Qed.

Lemma busy_valid : valid (KeyedStore := funding_store (FundingLaws := memory_funding_laws
  (MO := plain_order))) (dp_funding (sv_deposits busy)).
Proof. apply stored_check. vm_compute. reflexivity. Qed.

Lemma funding_records_are_private_witness :
  names_organizations iam ∧
  ∃ s' records, ServeHTTP (config (Some iam) ["secret"]) (listing "Bearer provider") busy
      = (s', Ok (respond StatusOK (BRecords records))) ∧ length records = 2%nat ∧
    (operator provider_actor ∨ ∀ f, f ∈ records → own_record provider_actor f).
Proof.
  split; [exact iam_names_organizations|].
  assert (Hlen : length (shown (ServeHTTP (config (Some iam) ["secret"])
    (listing "Bearer provider") busy).2) = 2%nat) by (vm_compute; reflexivity).
  assert (Hok : match (ServeHTTP (config (Some iam) ["secret"]) (listing "Bearer provider") busy).2 with
    | Ok (mkResponse st (BRecords l)) => st = StatusOK | _ => False end) by (vm_compute; reflexivity).
  destruct (ServeHTTP (config (Some iam) ["secret"]) (listing "Bearer provider") busy)
    as [s' [[st [| | | | | | | | | |l| |]]|e]] eqn:Hrun; cbn [snd] in *; try contradiction.
  subst st. exists s', l. split; [reflexivity|].
  split; [cbn in Hlen; by rewrite length_map in Hlen|].
  destruct (funding_records_are_private (FL := memory_funding_laws (MO := plain_order))
    (config (Some iam) ["secret"]) iam (listing "Bearer provider") busy s' l
    eq_refl iam_names_organizations eq_refl eq_refl busy_valid Hrun)
    as (token & actor & Htok & Hactor & Hrec).
  assert (Htoken : token = "provider") by (vm_compute in Htok; congruence). subst token.
  assert (Hact : actor = provider_actor) by (unfold iam in Hactor; cbn in Hactor; congruence).
  rewrite <- Hact. exact Hrec.
Defined.

Lemma internal_routes_closed_witness :
  internal_route (request "POST" "/v1/provider-payouts" "" "guess" (λ _, "") payout) ∧
  ServeHTTP (config (Some iam) ["secret"])
    (request "POST" "/v1/provider-payouts" "" "guess" (λ _, "") payout) busy
  = (busy, Ok (fail_with StatusUnauthorized (Errf "unauthorized"))).
Proof.
  assert (H : internal_route (request "POST" "/v1/provider-payouts" "" "guess" (λ _, "") payout))
    by (left; split; [reflexivity|right; right; reflexivity]).
  split; [exact H|]. apply (internal_routes_closed (config (Some iam) ["secret"]));
    [vm_compute; reflexivity|vm_compute; reflexivity|exact H].
Defined.

Lemma withdrawals_are_own_witness :
  ∃ s' x, ServeHTTP (config (Some iam) [])
      (request "POST" "/v1/withdrawals" "Bearer provider" "" (λ _, "") (withdrawal "")) start = (s', x) ∧
    (sv_fiber s' = [] ∨ ∃ token actor input, bearerToken "Bearer provider" = Some token ∧
      iam 0 token = Ok actor ∧ sv_fiber s' = [] ++ [FPayout input] ∧
      (operator actor ∨ ∃ m, m ∈ ac_Memberships actor ∧ is_provider_finance m = true ∧
        po_UserID input = am_OrganizationID m)).
Proof.
  destruct (ServeHTTP (config (Some iam) [])
    (request "POST" "/v1/withdrawals" "Bearer provider" "" (λ _, "") (withdrawal "")) start)
    as [s' x] eqn:Hrun.
  exists s', x. split; [reflexivity|].
  exact (withdrawals_are_own (config (Some iam) []) iam
    (request "POST" "/v1/withdrawals" "Bearer provider" "" (λ _, "") (withdrawal "")) start s' x
    eq_refl eq_refl eq_refl Hrun).
Defined.

Lemma start_valid : valid (KeyedStore := funding_store (FundingLaws := memory_funding_laws
  (MO := plain_order))) (dp_funding (sv_deposits start)).
Proof. apply stored_check. vm_compute. reflexivity. Qed.

Lemma payout_is_recorded_witness :
  ∃ s' fields, ServeHTTP (config None ["secret"])
      (request "POST" "/v1/provider-payouts" "" "secret" (λ _, "") payout) start
      = (s', Ok (respond StatusCreated (BFields fields))) ∧
    ∃ f, fr_ProviderOrgID f = "org_2" ∧ fr_Kind f = FundingRecordKindProviderPayout.
Proof.
  set (r := request "POST" "/v1/provider-payouts" "" "secret" (λ _, "") payout).
  assert (Hok : match (ServeHTTP (config None ["secret"]) r start).2 with
    | Ok (mkResponse st (BFields l)) => st = StatusCreated | _ => False end)
    by (vm_compute; reflexivity).
  destruct (ServeHTTP (config None ["secret"]) r start)
    as [s' [[st [| | | |l| | | | | | | |]]|e]] eqn:Hrun; cbn [snd] in Hok; try contradiction.
  subst st. exists s', l. split; [reflexivity|].
  destruct (payout_is_recorded (FL := memory_funding_laws (MO := plain_order))
    (config None ["secret"]) r start s' l start_valid eq_refl eq_refl Hrun)
    as (p & call & po & f & Hp & _ & _ & _ & _ & Hk & _ & _ & _ & _ & Hprov & _).
  exists f. split; [|exact Hk]. rewrite Hprov. injection Hp as <-. vm_compute. reflexivity.
Defined.

(** ** Where the service is open, or answers wrongly *)

(** With service tokens but no IAM service configured, the deposit account of
    any buyer is given to a request that carries no credentials at all. *)
Example deposits_open_without_iam :
  match (ServeHTTP (config None ["secret"])
    (request "GET" "/v1/buyer/deposit-address" "" "" (λ _, "org_1") None) start).2 with
  | Ok (mkResponse status (BSummary summary)) =>
      status = StatusOK ∧ bs_BuyerOrgID summary = "org_1" ∧ bs_Address summary = "ckt1_0"
  | _ => False
  end.
Proof. vm_compute. auto. Qed.

(** Asking for another organization's records is answered 502, as an upstream
    failure, not 403: the mismatch is not [platform.ErrOrgMismatch]. *)
Example mismatch_is_bad_gateway :
  (ServeHTTP (config (Some iam) ["secret"])
    (request "GET" "/v1/funding-records" "Bearer buyer" ""
       (λ q, if String.eqb q "buyerOrgId" then "org_9" else "") None) start).2
  = Ok (fail_with StatusBadGateway (Errf "buyer org mismatch")).
Proof. vm_compute. reflexivity. Qed.

(** An actor of two organizations is served as a member of the first: his
    provider's records are a mismatch if the buyer comes first. *)
Example first_membership_wins :
  let both := mkActor "user_3" "c@x.io" "C" [mkMembership "org_1" "B" "buyer" "org_owner";
    mkMembership "org_2" "P" "provider" "org_owner"] in
  shown (ServeHTTP (config (Some (λ _ _, Ok both)) ["secret"]) (listing "Bearer any") busy).2 = [].
Proof. vm_compute. reflexivity. Qed.
End Requests.
