(* ===== verification/SettlementSync.v ===== *)
(** * The settlement reconciler (services/settlement/reconciler.go)

    A loop that asks the payment network for the state of pending invoices and
    withdrawals, and sweeps the buyer deposits.  It runs over the same records as
    the service, so it is written in the service's monad. *)

From S2P Require Import Prelude GoNum GoText Core Repo Funding Amounts Deposits DepositLedger Http.
From S2P Require Import Settlement SettlementAccess.

Definition isSettledInvoiceState (state : string) : bool := EqualFold (TrimSpace state) "SETTLED".
Definition isTerminalWithdrawalState (state : string) : bool :=
  existsb (String.eqb (ToUpper (TrimSpace state))) ["COMPLETED"; "FAILED"; "CANCELLED"; "REJECTED"].

Record ReconcileSummary := mkReconcileSummary {
  rc_InvoiceUpdates : Z;
  rc_WithdrawalUpdates : Z;
  rc_DepositSweepUpdates : Z;
}.

(** The record has an invoice whose state may still change. *)
Definition invoice_pending (f : FundingRecord) : bool :=
  negb (blank (fr_Invoice f) || isSettledInvoiceState (fr_State f)).
(** The withdrawal belongs to a provider and may still change. *)
Definition withdrawal_pending (f : FundingRecord) : bool :=
  negb (blank (fr_ProviderOrgID f) || isTerminalWithdrawalState (fr_State f)).

(** [providers[record.ProviderOrgID] = struct{}{}] *)
Definition pending_providers (records : list FundingRecord) : gmap string () :=
  foldl (λ m f, if withdrawal_pending f then <[fr_ProviderOrgID f := tt]> m else m) ∅ records.

Section reconciler.
Context `{A : BuyerDepositAddressRepository, W : BuyerDepositSweepRepository,
          F : FundingRecordRepository, MO : MapOrder}.
Context (c : ServerConfig).
Abbreviation M := (ST Server).

(** ** Invoices *)

Definition sync_invoice (updates : Z) (record : FundingRecord) : M Z :=
  if invoice_pending record then
    state ← fiber (FInvoiceStatus (fr_Invoice record))
              (λ h, GetInvoiceStatus (sc_fiber c) h (fr_Invoice record));
    if blank state || EqualFold state (fr_State record) then mret updates
    else
      now ← server_now c;
      _ ← with_funding (funding_UpdateInvoiceState now (fr_Invoice record) state);
      mret (updates +w 1)
  else mret updates.

Fixpoint sync_invoices (updates : Z) (records : list FundingRecord) : M Z :=
  match records with
  | [] => mret updates
  | record :: records' =>
      updates ← sync_invoice updates record; sync_invoices updates records'
  end.

Definition syncPendingInvoices : M Z :=
  records ← list_funding (mkFundingFilter "" "" "" "");
  sync_invoices 0 records.

(** ** Withdrawals *)

Fixpoint apply_statuses (updates : Z) (items : list WithdrawalStatusItem) : M Z :=
  match items with
  | [] => mret updates
  | item :: items' =>
      if blank (wi_ID item) || blank (wi_State item) then apply_statuses updates items'
      else
        now ← server_now c;
        _ ← with_funding (funding_UpdateExternalState now (wi_ID item) (wi_State item));
        apply_statuses (updates +w 1) items'
  end.

Fixpoint sync_providers (updates : Z) (providers : list string) : M Z :=
  match providers with
  | [] => mret updates
  | provider :: providers' =>
      items ← fiber (FStatuses provider) (λ h, ListWithdrawalStatuses (sc_fiber c) h provider);
      updates ← apply_statuses updates items;
      sync_providers updates providers'
  end.

Definition syncPendingWithdrawals : M Z :=
  records ← list_funding (mkFundingFilter FundingRecordKindWithdrawal "" "" "");
  sync_providers 0 (fst <$> map_order (map_to_list (pending_providers records))).

(** ** Deposits, and all three *)

Definition syncBuyerDeposits : M Z :=
  match sc_deposits c with
  | None => mret 0
  | Some deposits => summary ← with_deposits (SyncDeposits deposits); mret (ss_SweepCount summary)
  end.

Definition Sync : M ReconcileSummary :=
  invoiceUpdates ← syncPendingInvoices;
  withdrawalUpdates ← syncPendingWithdrawals;
  depositSweepUpdates ← syncBuyerDeposits;
  mret (mkReconcileSummary invoiceUpdates withdrawalUpdates depositSweepUpdates).

(** ** The loop *)

Definition MaxConsecutiveErrors : nat := 5.

(** What [select] finds ready, in turn. *)
Inductive LoopEvent := CtxDone | Tick.

(** The loop over a number of events: [None] while it is still waiting for the
    next one, else the error it returned. *)
Fixpoint reconciler_loop (events : list LoopEvent) (consecutiveErrors : nat) : M (option error) :=
  match events with
  | [] => mret None
  | CtxDone :: _ => mret (Some (Errf "context canceled"))
  | Tick :: events' =>
      summary ← attempt Sync;
      match summary with
      | Ok _ => reconciler_loop events' 0
      | Err e =>
          let consecutiveErrors := S consecutiveErrors in
          if (MaxConsecutiveErrors <=? consecutiveErrors)%nat
          then mret (Some (EPrefix ("reconciler exceeded " +:+ pretty MaxConsecutiveErrors +:+
                 " consecutive errors, last") e))
          else reconciler_loop events' consecutiveErrors
      end
  end.

(** [RunReconcilerLoop] with a reconciler: the first run must succeed. *)
Definition RunReconcilerLoop (events : list LoopEvent) : M (option error) :=
  summary ← attempt Sync;
  match summary with
  | Err e => mret (Some e)
  | Ok _ => reconciler_loop events 0
  end.

(** ** When the loop gives up *)

(** The state after [n] runs, and whether run number [n] fails. *)
Definition after_syncs (n : nat) (s : Server) : Server := Nat.iter n (λ s, (Sync s).1) s.
Definition sync_fails (n : nat) (s : Server) : bool := negb (is_ok (Sync (after_syncs n s)).2).

Lemma after_syncs_S n s : after_syncs (S n) s = after_syncs n (Sync s).1.
Proof.
  unfold after_syncs. induction n as [|n IH]; [done|].
  change (Nat.iter (S (S n)) ?f s) with (f (Nat.iter (S n) f s)). by rewrite IH.
Qed.
Lemma sync_fails_S n s : sync_fails (S n) s = sync_fails n (Sync s).1.
Proof. unfold sync_fails. by rewrite after_syncs_S. Qed.

(** With [k] failures behind it, the loop stops on one of the next [n] ticks if
    and only if the first [5 - k] of them fail or five in a row do. *)
Lemma loop_stops n k s : (k < MaxConsecutiveErrors)%nat →
  (∃ s' e, reconciler_loop (replicate n Tick) k s = (s', Ok (Some e))) ↔
  ((MaxConsecutiveErrors - k ≤ n)%nat ∧
     (∀ j, (j < MaxConsecutiveErrors - k)%nat → sync_fails j s = true)) ∨
  (∃ i, (i + MaxConsecutiveErrors ≤ n)%nat ∧
     ∀ j, (j < MaxConsecutiveErrors)%nat → sync_fails (i + j) s = true).
Proof.
  revert k s. induction n as [|n IH]; intros k s Hk.
  { cbn [replicate reconciler_loop]. unfold MaxConsecutiveErrors in *. split.
    - intros (s' & e & [=]).
    - intros [[H _]|(i & H & _)]; lia. }
  cbn [replicate reconciler_loop]. unfold mbind, st_bind, attempt.
  assert (Hf0 : sync_fails 0 s = negb (is_ok (Sync s).2)) by done.
  assert (HfS : ∀ j, sync_fails (S j) s = sync_fails j (Sync s).1) by (intros; apply sync_fails_S).
  destruct (Sync s) as [s1 [a|e]]; cbn [fst snd is_ok negb] in *.
  - rewrite IH by (unfold MaxConsecutiveErrors; lia). unfold MaxConsecutiveErrors in *. split.
    + intros [[Hn Hall]|(i & Hn & Hall)].
      * right. exists 1%nat. split; [lia|]. intros j Hj. cbn [Nat.add]. rewrite HfS. apply Hall. lia.
      * right. exists (S i). split; [lia|]. intros j Hj. cbn [Nat.add]. rewrite HfS. by apply Hall.
    + intros [[Hn Hall]|(i & Hn & Hall)].
      * specialize (Hall 0%nat ltac:(lia)). congruence.
      * destruct i as [|i]; [specialize (Hall 0%nat ltac:(lia)); cbn in Hall; congruence|].
        right. exists i. split; [lia|]. intros j Hj. rewrite <- HfS. by apply (Hall j).
  - destruct (Nat.leb_spec MaxConsecutiveErrors (S k)) as [Hle|Hlt].
    + unfold MaxConsecutiveErrors in *. split; [|by eauto]. intros _. left. split; [lia|].
      intros j Hj. by replace j with 0%nat by lia.
    + rewrite IH by done. unfold MaxConsecutiveErrors in *. split.
      * intros [[Hn Hall]|(i & Hn & Hall)].
        -- left. split; [lia|]. intros [|j] Hj; [done|]. rewrite HfS. apply Hall. lia.
        -- right. exists (S i). split; [lia|]. intros j Hj. cbn [Nat.add]. rewrite HfS. by apply Hall.
      * intros [[Hn Hall]|(i & Hn & Hall)].
        -- left. split; [lia|]. intros j Hj. rewrite <- HfS. apply Hall. lia.
        -- destruct i as [|i].
           ++ left. split; [lia|]. intros j Hj. rewrite <- HfS. apply (Hall (S j)). lia.
           ++ right. exists i. split; [lia|]. intros j Hj. rewrite <- HfS. by apply (Hall j).
Qed.

(** Unless it is cancelled, the reconciler stops within [n] ticks if and only
    if its first run fails or five runs in a row fail; a failure between
    successes never stops it. *)
Theorem reconciler_gives_up (n : nat) (s : Server) :
  (∃ s' e, RunReconcilerLoop (replicate n Tick) s = (s', Ok (Some e))) ↔
  sync_fails 0 s = true ∨
  ∃ i, (1 ≤ i)%nat ∧ (i + MaxConsecutiveErrors ≤ S n)%nat ∧
    ∀ j, (j < MaxConsecutiveErrors)%nat → sync_fails (i + j) s = true.
Proof.
  unfold RunReconcilerLoop, mbind, st_bind, attempt.
  assert (Hf0 : sync_fails 0 s = negb (is_ok (Sync s).2)) by done.
  assert (HfS : ∀ j, sync_fails (S j) s = sync_fails j (Sync s).1) by (intros; apply sync_fails_S).
  destruct (Sync s) as [s1 [a|e]]; cbn [fst snd is_ok negb] in *.
  2: { split; [by left|by eauto]. }
  rewrite loop_stops by (unfold MaxConsecutiveErrors; lia).
  unfold MaxConsecutiveErrors in *. split.
  - intros [[Hn Hall]|(i & Hn & Hall)]; right.
    + exists 1%nat. split_and!; [lia..|]. intros j Hj. cbn [Nat.add]. rewrite HfS. apply Hall. lia.
    + exists (S i). split_and!; [lia..|]. intros j Hj. cbn [Nat.add]. rewrite HfS. by apply Hall.
  - intros [H|(i & Hi & Hn & Hall)]; [congruence|]. right. destruct i as [|i]; [lia|].
    exists i. split; [lia|]. intros j Hj. rewrite <- HfS. by apply (Hall j).
Qed.
End reconciler.

(** ** What a run asks, and what it leaves behind *)

Section sync.
Context `{A : BuyerDepositAddressRepository, W : BuyerDepositSweepRepository, FL : FundingLaws,
          MO : MapOrder}.
Context (c : ServerConfig).

Definition record_at (id : string) (s : Server) : result FundingRecord :=
  funding_Get id (dp_funding (sv_deposits s)).
Definition records_valid (s : Server) : Prop := valid (dp_funding (sv_deposits s)).

Lemma pending_providers_elem records p :
  p ∈ (fst <$> map_order (map_to_list (pending_providers records))) →
  ∃ f, f ∈ records ∧ withdrawal_pending f = true ∧ fr_ProviderOrgID f = p.
Proof.
  rewrite map_order_perm. intros ([q []] & -> & Hin)%list_elem_of_fmap.
  apply elem_of_map_to_list in Hin. cbn. revert Hin. unfold pending_providers.
  assert (H : ∀ m : gmap string (), foldl (λ m f, if withdrawal_pending f then <[fr_ProviderOrgID f := tt]> m else m)
      m records !! q = Some () →
    m !! q = Some () ∨ ∃ f, f ∈ records ∧ withdrawal_pending f = true ∧ fr_ProviderOrgID f = q).
  { induction records as [|f l IH]; intros m; cbn [foldl]; [by left|].
    intros [Hm|(g & Hg & Hp & Hq)]%IH; [|right; exists g; split; [by right|done]].
    destruct (withdrawal_pending f) eqn:Hw; [|by left].
    apply lookup_insert_Some in Hm as [[Hq _]|[_ Hm]]; [|by left].
    right. exists f. split; [by left|done]. }
  intros [Hm|Hf]%H; [by rewrite lookup_empty in Hm|exact Hf].
Qed.

(** The calls of a computation all satisfy [P]. *)
Definition calls_only (P : FiberCall → Prop) (s s' : Server) : Prop :=
  ∃ l, sv_fiber s' = sv_fiber s ++ l ∧ Forall P l.
#[export] Instance calls_only_preorder P : PreOrder (calls_only P).
Proof.
  split; [intros s; exists []; by rewrite app_nil_r|].
  intros s1 s2 s3 (l & Hl & Hp) (k & Hk & Hq). exists (l ++ k).
  by rewrite Hk, Hl, app_assoc, Forall_app.
Qed.

Lemma calls_with_deposits {T} (m : ST Deposits T) P : frames (calls_only P) (with_deposits m).
Proof.
  intros s. exists []. unfold with_deposits, zoom. destruct (m _). by rewrite app_nil_r.
Qed.
Lemma calls_now P : frames (calls_only P) (server_now c).
Proof. intros s. exists []. by rewrite app_nil_r. Qed.
Lemma calls_fiber {T} call (answer : list FiberCall → result T) (P : FiberCall → Prop) :
  P call → frames (calls_only P) (fiber call answer).
Proof. intros Hp s. exists [call]. split; [done|by constructor]. Qed.
#[local] Hint Resolve calls_with_deposits calls_now calls_fiber : frames.

Lemma calls_statuses P updates items : frames (calls_only P) (apply_statuses c updates items).
Proof.
  revert updates. induction items as [|i l IH]; intros u; cbn [apply_statuses];
    [apply frames_ret; typeclasses eauto|]. destruct (_ || _); [apply IH|].
  unfold with_funding. solve_frames; auto with frames.
Qed.

(** The states of withdrawals are asked for the providers that have one
    pending, and for nobody else: the treasury's own account, from which the
    payouts of orders are made, is never asked about. *)
Theorem only_pending_providers_asked (s s' : Server) r :
  records_valid s → syncPendingWithdrawals c s = (s', r) →
  ∃ calls, sv_fiber s' = sv_fiber s ++ calls ∧
    ∀ call, call ∈ calls → ∃ id f, record_at id s = Ok f ∧
      fr_Kind f = FundingRecordKindWithdrawal ∧ withdrawal_pending f = true ∧
      call = FStatuses (fr_ProviderOrgID f).
Proof.
  intros Hv. unfold syncPendingWithdrawals, mbind, st_bind, list_funding, query.
  destruct (funding_List _ _) as [records|e] eqn:Hl.
  2: { intros [= <- _]. exists []. split; [by rewrite app_nil_r|]. intros ? []%not_elem_of_nil. }
  destruct (funding_List_spec _ _ _ Hv Hl) as [_ Hin].
  set (P call := ∃ id f, record_at id s = Ok f ∧ fr_Kind f = FundingRecordKindWithdrawal ∧
    withdrawal_pending f = true ∧ call = FStatuses (fr_ProviderOrgID f)).
  assert (Hp : Forall (λ p, P (FStatuses p))
    (fst <$> map_order (map_to_list (pending_providers records)))).
  { apply Forall_forall. intros p (f & Hf & Hw & <-)%pending_providers_elem.
    apply Hin in Hf as [Hat Hm]. exists (fr_ID f), f. split_and!; [done| |done..].
    unfold funding_matches, field_matches in Hm. cbn in Hm.
    rewrite !andb_true_r in Hm. by apply String.eqb_eq. }
  revert Hp. generalize (fst <$> map_order (map_to_list (pending_providers records))).
  intros providers Hp Hrun.
  enough (H : frames (calls_only P) (sync_providers c 0 providers)).
  { destruct (frames_result _ _ _ _ _ H Hrun) as (calls & Hc & Hall). exists calls.
    split; [done|]. by apply Forall_forall. }
  clear -Hp. generalize 0. induction Hp as [|p l Hpp Hl IH]; intros u; cbn [sync_providers];
    [apply frames_ret; typeclasses eauto|].
  apply frames_bind; [typeclasses eauto|by apply calls_fiber|]. intros items.
  apply frames_bind; [typeclasses eauto|apply calls_statuses|]. intros u'. apply IH.
Qed.

(** ** Invoices are brought up to date *)

(** The state a pending record is left in, against what the network says. *)
Definition moved (state : string → string) (f f' : FundingRecord) : Prop :=
  fr_Invoice f' = fr_Invoice f ∧
  (fr_State f' = fr_State f ∨
   blank (state (fr_Invoice f)) = false ∧ fr_State f' = state (fr_Invoice f)).
Definition current (state : string → string) (f f' : FundingRecord) : Prop :=
  blank (state (fr_Invoice f)) = true ∨ EqualFold (fr_State f') (state (fr_Invoice f)) = true.

Lemma EqualFold_sym a b : EqualFold a b = EqualFold b a.
Proof. unfold EqualFold. apply String.eqb_sym. Qed.

Lemma update_invoice_at now invoice state (s s' : Server) r id :
  records_valid s → with_funding (funding_UpdateInvoiceState now invoice state) s = (s', r) →
  records_valid s' ∧
  record_at id s' = (if is_ok r then with_state (of_invoice invoice) state now <$> record_at id s
                     else record_at id s).
Proof.
  intros Hv. unfold with_funding, with_deposits, on_funding, zoom.
  destruct (funding_UpdateInvoiceState _ _ _ _) as [f1 r1] eqn:Hu. intros [= <- <-].
  destruct (update_invoice_spec _ _ _ _ _ _ Hv Hu) as [Hv1 Hat]. split; [exact Hv1|]. apply Hat.
Qed.

(** One record of the loop: what was moved stays so, the record is current. *)
Lemma sync_invoice_moves state updates record (s0 s s' : Server) n :
  (∀ h i, GetInvoiceStatus (sc_fiber c) h i = Ok (state i)) →
  records_valid s → sync_invoice c updates record s = (s', Ok n) →
  record_at (fr_ID record) s0 = Ok record →
  (∀ id f, record_at id s0 = Ok f → ∃ f', record_at id s = Ok f' ∧ moved state f f') →
  records_valid s' ∧
  (∀ id f f1, record_at id s0 = Ok f → record_at id s = Ok f1 → moved state f f1 →
     ∃ f', record_at id s' = Ok f' ∧ moved state f f' ∧
       (current state f f1 → current state f f') ∧
       (id = fr_ID record → invoice_pending record = true → current state f f')).
Proof.
  intros Hnet Hv Hrun Hrec Hmoved. unfold sync_invoice in Hrun.
  destruct (invoice_pending record) eqn:Hp.
  2: { injection Hrun as <- _. split; [done|]. intros id f f1 Hf Hf1 Hm. exists f1. by split_and!. }
  unfold mbind, st_bind, fiber in Hrun. rewrite Hnet in Hrun.
  set (inv := fr_Invoice record) in *.
  destruct (blank (state inv)) eqn:Hb; cbn [orb] in Hrun.
  { injection Hrun as <- _. split; [done|]. intros id f f1 Hf Hf1 Hm. exists f1.
    split_and!; [done..|]. intros -> _. left. rewrite Hrec in Hf. by injection Hf as <-. }
  destruct (EqualFold (state inv) (fr_State record)) eqn:He.
  { injection Hrun as <- _. split; [done|]. intros id f f1 Hf Hf1 Hm. exists f1.
    split_and!; [done..|]. intros -> _. right. rewrite Hrec in Hf. injection Hf as <-.
    destruct Hm as [_ [->|[_ ->]]]; [by rewrite EqualFold_sym|].
    unfold EqualFold. apply String.eqb_refl. }
  unfold server_now in Hrun.
  destruct (with_funding _ _) as [s1 [[]|e]] eqn:Hu; [|done]. injection Hrun as <- _.
  set (s2 := _ <| sv_ticks ::= _ |>) in Hu.
  split; [exact (proj1 (update_invoice_at _ _ _ s2 s1 (Ok tt) "" Hv Hu))|].
  intros id f f1 Hf Hf1 Hm.
  destruct (update_invoice_at _ _ _ s2 s1 (Ok tt) id Hv Hu) as [_ Hat]. cbn [is_ok] in Hat.
  change (record_at id s2) with (record_at id s) in Hat. rewrite Hf1 in Hat.
  eexists. split; [exact Hat|]. destruct Hm as [Hi Hst].
  unfold with_state, of_invoice, moved, current. rewrite Hi.
  destruct (String.eqb_spec (fr_Invoice f) inv) as [Heq|Hne]; cbn [fr_Invoice fr_State update].
  - rewrite Heq in *.
    assert (Hcur : blank (state inv) = true ∨ EqualFold (state inv) (state inv) = true)
      by (right; apply String.eqb_refl).
    split_and!; [done|by right|done|done].
  - split_and!; [done|done|done|]. intros -> _. rewrite Hrec in Hf. by injection Hf as <-.
Qed.

(** After a run whose calls all succeed, over a network that answers the same
    for the same invoice, every record that was pending on an invoice shows the
    state the network reports for it, and no record shows any other new state. *)
Theorem invoices_brought_up_to_date (state : string → string) (s s' : Server) n :
  (∀ h i, GetInvoiceStatus (sc_fiber c) h i = Ok (state i)) →
  records_valid s → syncPendingInvoices c s = (s', Ok n) →
  ∀ id f, record_at id s = Ok f →
    ∃ f', record_at id s' = Ok f' ∧ moved state f f' ∧
      (invoice_pending f = true → current state f f').
Proof.
  intros Hnet Hv Hrun. unfold syncPendingInvoices, list_funding in Hrun.
  apply bind_Ok in Hrun as (s1 & records & [= <- Hl] & Hrun).
  destruct (funding_List_spec _ _ _ Hv Hl) as [_ Hin].
  enough (H : ∀ records u s1, Forall (λ f, record_at (fr_ID f) s = Ok f) records →
    records_valid s1 → sync_invoices c u records s1 = (s', Ok n) →
    (∀ id f, record_at id s = Ok f → ∃ f1, record_at id s1 = Ok f1 ∧ moved state f f1) →
    ∀ id f f1, record_at id s = Ok f → record_at id s1 = Ok f1 → moved state f f1 →
    ∃ f', record_at id s' = Ok f' ∧ moved state f f' ∧
      (current state f f1 ∨ f ∈ records ∧ invoice_pending f = true → current state f f')).
  { intros id f Hf.
    destruct (H records 0 s) with (id := id) (f := f) (f1 := f) as (f' & Hf' & Hm & Hc); try done.
    - apply Forall_forall. intros g Hg. by apply Hin in Hg as [? _].
    - intros j g Hg. exists g. split; [done|]. split; [done|by left].
    - split; [done|by left].
    - exists f'. split_and!; [done..|]. intros Hp. apply Hc. right. split; [|done].
      pose proof (get_id _ _ _ Hv Hf) as <-. apply Hin. by split. }
  rename Hv into Hv0. clear -Hnet Hv0. intros records. induction records as [|g l IH]; intros u s1 Hall Hv Hrun Hmv id f f1 Hf Hf1 Hm.
  { injection Hrun as <- _. exists f1. split_and!; [done..|].
    intros [?|[[]%not_elem_of_nil _]]; done. }
  apply Forall_cons in Hall as [Hg Hall]. cbn [sync_invoices] in Hrun.
  apply bind_Ok in Hrun as (s2 & u' & Hone & Hrun).
  destruct (sync_invoice_moves state u g s s1 s2 u' Hnet Hv Hone Hg Hmv) as [Hv2 Hstep].
  destruct (Hstep id f f1 Hf Hf1 Hm) as (f2 & Hf2 & Hm2 & Hc2 & Hg2).
  destruct (IH u' s2 Hall Hv2 Hrun) with (id := id) (f := f) (f1 := f2)
    as (f' & Hf' & Hm' & Hc'); [|done..|].
  { intros j h Hh. destruct (Hmv j h Hh) as (h1 & Hh1 & Hmh).
    destruct (Hstep j h h1 Hh Hh1 Hmh) as (h2 & ? & ? & _). by exists h2. }
  exists f'. split_and!; [done..|].
  intros [H|[[->|H]%elem_of_cons Hp]]; apply Hc'; [left; auto|left|by right].
  apply Hg2; [|done]. symmetry. exact (get_id _ _ _ Hv0 Hf).
Qed.
End sync.

(** ** Concrete runs *)

Module SyncRuns.
Import DepositLedger.Runs SettlementAccess.Requests.

(** The service's records with an invoice added: a pending withdrawal and a
    payout of the provider org_2, an unpaid invoice. *)
Definition invoiced : memory_server :=
  (ServeHTTP (config None ["secret"]) (request "POST" "/v1/invoices" "" "secret" (λ _, "")
    (Some (JObj [("orderId", JStr "ord_1"); ("buyerOrgId", JStr "org_1");
                 ("providerOrgId", JStr "org_2"); ("asset", JStr "USDI");
                 ("amount", JStr "5")]))) busy).1.

Lemma invoiced_valid :
  records_valid (FL := memory_funding_laws (MO := plain_order)) invoiced.
Proof. apply stored_check. vm_compute. reflexivity. Qed.

Definition states (s : memory_server) : list (string * string) :=
  match funding_List (mkFundingFilter "" "" "" "") (dp_funding (sv_deposits s)) with
  | Ok l => map (λ f, (fr_Kind f, fr_State f)) l
  | Err _ => []
  end.

Example sync_run :
  states invoiced = [("invoice", "UNPAID"); ("withdrawal", "PENDING"); ("provider_payout", "PENDING")] ∧
  states (syncPendingInvoices (config None []) invoiced).1
    = [("invoice", "PAID"); ("withdrawal", "PENDING"); ("provider_payout", "PENDING")].
Proof. split; vm_compute; reflexivity. Qed.

Lemma invoices_brought_up_to_date_witness :
  ∃ s' n, syncPendingInvoices (config None []) invoiced = (s', Ok n) ∧
  ∀ id f, record_at (FL := memory_funding_laws (MO := plain_order)) id invoiced = Ok f →
    ∃ f', record_at (FL := memory_funding_laws (MO := plain_order)) id s' = Ok f' ∧
      moved (λ _, "PAID") f f' ∧ (invoice_pending f = true → current (λ _, "PAID") f f').
Proof.
  assert (Hok : is_ok (syncPendingInvoices (config None []) invoiced).2 = true)
    by (vm_compute; reflexivity).
  destruct (syncPendingInvoices (config None []) invoiced) as [s' [n|e]] eqn:Hrun; [|discriminate Hok].
  exists s', n. split; [reflexivity|].
  refine (invoices_brought_up_to_date (FL := memory_funding_laws (MO := plain_order))
    (config None []) (λ _, "PAID") invoiced s' n _ invoiced_valid Hrun).
  intros h i. reflexivity.
Defined.

Lemma only_pending_providers_asked_witness :
  ∃ s' r, syncPendingWithdrawals (MO := plain_order) (config None []) invoiced = (s', r) ∧
  ∃ calls, sv_fiber s' = sv_fiber invoiced ++ calls ∧
    ∀ call, call ∈ calls → ∃ id f,
      record_at (FL := memory_funding_laws (MO := plain_order)) id invoiced = Ok f ∧
      fr_Kind f = FundingRecordKindWithdrawal ∧ withdrawal_pending f = true ∧
      call = FStatuses (fr_ProviderOrgID f).
Proof.
  destruct (syncPendingWithdrawals (MO := plain_order) (config None []) invoiced) as [s' r] eqn:Hrun.
  exists s', r. split; [reflexivity|].
  exact (only_pending_providers_asked (FL := memory_funding_laws (MO := plain_order))
    (MO := plain_order) (config None []) invoiced s' r invoiced_valid Hrun).
Defined.

(** A network that reports every withdrawal of the account it is asked about as
    completed, the payouts among those of the treasury. *)
Definition completing : FiberClient := {|
  CreateInvoice := CreateInvoice payments; GetInvoiceStatus := GetInvoiceStatus payments;
  QuotePayout := QuotePayout payments; RequestPayout := RequestPayout payments;
  ListSettledFeed := ListSettledFeed payments;
  ListWithdrawalStatuses := λ _ user,
    if String.eqb user "org_2" then Ok [mkStatusItem "wd_0" user "USDI" "5" "COMPLETED"]
    else if String.eqb user "platform_treasury"
    then Ok [mkStatusItem "wd_1" user "USDI" "5" "COMPLETED"] else Ok [];
|}.

(** The withdrawal is completed, the payout of the order stays pending: no run
    asks about the treasury's account. *)
Example payouts_stay_pending :
  let c := mkServerConfig completing (Some service) None (NewTokenSet []) (λ _, "")
             (λ n, Z.of_nat n) in
  states (after_syncs (MO := plain_order) c 3 invoiced)
    = [("invoice", "PAID"); ("withdrawal", "COMPLETED"); ("provider_payout", "PENDING")].
Proof. vm_compute. reflexivity. Qed.
End SyncRuns.
