(* ===== verification/GoBytes.v ===== *)
(** * Bytes: SHA-256 and HMAC (crypto/sha256, crypto/hmac), runes and base64

    The hash the services sign callbacks and usage reports with, on strings of
    bytes, with the digest in lower-case hexadecimal as [hex.EncodeToString] gives
    it.  Words are [Z]s below [2^32]. *)

From Stdlib Require Import Ascii.
From S2P Require Import Prelude GoText.

(** ** Words *)

Definition mask32 : Z := 2 ^ 32 - 1.
Definition add32 (a b : Z) : Z := Z.land (a + b) mask32.
Definition rotr (n x : Z) : Z :=
  Z.lor (Z.shiftr x n) (Z.land (Z.shiftl x (32 - n)) mask32).
Definition xor3 (a b c : Z) : Z := Z.lxor a (Z.lxor b c).

Definition small_sigma0 (x : Z) : Z := xor3 (rotr 7 x) (rotr 18 x) (Z.shiftr x 3).
Definition small_sigma1 (x : Z) : Z := xor3 (rotr 17 x) (rotr 19 x) (Z.shiftr x 10).
Definition big_sigma0 (x : Z) : Z := xor3 (rotr 2 x) (rotr 13 x) (rotr 22 x).
Definition big_sigma1 (x : Z) : Z := xor3 (rotr 6 x) (rotr 11 x) (rotr 25 x).
Definition choose (x y z : Z) : Z := Z.lxor (Z.land x y) (Z.land (Z.lxor x mask32) z).
Definition majority (x y z : Z) : Z := xor3 (Z.land x y) (Z.land x z) (Z.land y z).

(** The fractional parts of the cube roots of the first 64 primes, of the square
    roots of the first 8. *)
Definition round_constants : list Z :=
  [1116352408; 1899447441; 3049323471; 3921009573; 961987163; 1508970993;
   2453635748; 2870763221; 3624381080; 310598401; 607225278; 1426881987;
   1925078388; 2162078206; 2614888103; 3248222580; 3835390401; 4022224774;
   264347078; 604807628; 770255983; 1249150122; 1555081692; 1996064986;
   2554220882; 2821834349; 2952996808; 3210313671; 3336571891; 3584528711;
   113926993; 338241895; 666307205; 773529912; 1294757372; 1396182291;
   1695183700; 1986661051; 2177026350; 2456956037; 2730485921; 2820302411;
   3259730800; 3345764771; 3516065817; 3600352804; 4094571909; 275423344;
   430227734; 506948616; 659060556; 883997877; 958139571; 1322822218;
   1537002063; 1747873779; 1955562222; 2024104815; 2227730452; 2361852424;
   2428436474; 2756734187; 3204031479; 3329325298].
Definition initial_state : list Z :=
  [1779033703; 3144134277; 1013904242; 2773480762; 1359893119; 2600822924;
   528734635; 1541459225].

(** ** Compression *)

(** The next word of the schedule, from the last sixteen. *)
Definition next_word (w : list Z) : Z :=
  let at_ i := default 0 (w !! i) in
  add32 (add32 (small_sigma1 (at_ 14%nat)) (at_ 9%nat))
        (add32 (small_sigma0 (at_ 1%nat)) (at_ 0%nat)).

Definition round (k w : Z) (state : list Z) : list Z :=
  match state with
  | [a; b; c; d; e; f; g; h] =>
      let t1 := add32 (add32 (add32 h (big_sigma1 e)) (add32 (choose e f g) k)) w in
      let t2 := add32 (big_sigma0 a) (majority a b c) in
      [add32 t1 t2; a; b; c; add32 d t1; e; f; g]
  | _ => state
  end.

Fixpoint rounds (ks window : list Z) (state : list Z) : list Z :=
  match ks, window with
  | k :: ks, w :: rest => rounds ks (rest ++ [next_word window]) (round k w state)
  | _, _ => state
  end.

Definition compress (state block : list Z) : list Z :=
  zip_with add32 state (rounds round_constants block state).

(** ** Messages *)

Definition bytes_of (s : string) : list Z :=
  (λ a, Z.of_nat (nat_of_ascii a)) <$> String.list_ascii_of_string s.
Definition string_of (l : list Z) : string :=
  String.string_of_list_ascii ((λ b, ascii_of_nat (Z.to_nat b)) <$> l).

(** A number in big-endian bytes. *)
Fixpoint big_endian (n : nat) (z : Z) : list Z :=
  match n with
  | O => []
  | S n => Z.land (Z.shiftr z (8 * Z.of_nat n)) 255 :: big_endian n z
  end.

Definition padded_message (msg : list Z) : list Z :=
  let n := Z.of_nat (length msg) in
  msg ++ [128] ++ replicate (Z.to_nat ((55 - n) mod 64)) 0 ++ big_endian 8 (8 * n).

Fixpoint words (l : list Z) : list Z :=
  match l with
  | a :: b :: c :: d :: l' => ((a * 256 + b) * 256 + c) * 256 + d :: words l'
  | _ => []
  end.

(** Sixteen words at a time; there are as many blocks as the fuel says. *)
Fixpoint digest_blocks (blocks : nat) (ws : list Z) (state : list Z) : list Z :=
  match blocks with
  | O => state
  | S n => digest_blocks n (drop 16 ws) (compress state (take 16 ws))
  end.

Definition sha256 (msg : list Z) : list Z :=
  let ws := words (padded_message msg) in
  digest_blocks (length ws / 16) ws initial_state ≫= big_endian 4.

(** ** HMAC *)

Definition block_key (key : list Z) : list Z :=
  let key := if (64 <? length key)%nat then sha256 key else key in
  key ++ replicate (64 - length key) 0.
Definition hmac (key msg : list Z) : list Z :=
  let k := block_key key in
  sha256 ((Z.lxor 92 <$> k) ++ sha256 ((Z.lxor 54 <$> k) ++ msg)).

Definition hex_digit (z : Z) : ascii :=
  ascii_of_nat (Z.to_nat (if z <? 10 then 48 + z else 87 + z)).
Fixpoint hex_encode (l : list Z) : string :=
  match l with
  | [] => ""
  | b :: l => String (hex_digit (b / 16)) (String (hex_digit (b mod 16)) (hex_encode l))
  end.

(** [mac := hmac.New(sha256.New, key); mac.Write(msg); hex.EncodeToString(mac.Sum(nil))] *)
Definition hmac_sha256 (key msg : string) : string :=
  hex_encode (hmac (bytes_of key) (bytes_of msg)).

(** ** Test vectors *)

Example sha256_abc :
  hex_encode (sha256 (bytes_of "abc"))
  = "ba7816bf8f01cfea414140de5dae2223b00361a396177a9cb410ff61f20015ad".
Proof. vm_compute. reflexivity. Qed.
Example sha256_two_blocks :
  hex_encode (sha256 (bytes_of "abcdbcdecdefdefgefghfghighijhijkijkljklmklmnlmnomnopnopq"))
  = "248d6a61d20638b8e5c026930c3e6039a33ce45964ff2167f6ecedd419db06c1".
Proof. vm_compute. reflexivity. Qed.
Example hmac_fox :
  hmac_sha256 "key" "The quick brown fox jumps over the lazy dog"
  = "f7bc83f430538424b13298e6aa6fb143ef4d59a14946175997479dbc2d1a3cd8".
Proof. vm_compute. reflexivity. Qed.

(** * Runes and the base64 of tokens

    What ranging over a string yields (unicode/utf8), the classes of runes the
    program asks for (package unicode: exact up to U+00FF, the tables above that
    are a parameter), and [base64.RawURLEncoding], with a decoder to read it back. *)

(** ** UTF-8 *)

Definition byte_val (a : ascii) : Z := Z.of_nat (nat_of_ascii a).
Definition between (lo hi x : Z) : bool := (lo <=? x) && (x <=? hi).
(** A byte 10xxxxxx. *)
Definition continues (a : ascii) : bool := between 128 191 (byte_val a).
(** The second bytes that may follow a first byte of a rune of three or of four. *)
Definition second_of_three (a b : ascii) : bool :=
  let a := byte_val a in
  if a =? 224 then between 160 191 (byte_val b)
  else if a =? 237 then between 128 159 (byte_val b)
  else between 225 239 a && continues b.
Definition second_of_four (a b : ascii) : bool :=
  let a := byte_val a in
  if a =? 240 then between 144 191 (byte_val b)
  else if a =? 244 then between 128 143 (byte_val b)
  else between 241 243 a && continues b.

Definition RuneError : Z := 65533.
Definition low6 (a : ascii) : Z := Z.land (byte_val a) 63.

(** [for _, c := range s]: a byte that begins no rune counts for [RuneError]. *)
Fixpoint runes (s : string) : list Z :=
  match s with
  | EmptyString => []
  | String a s1 =>
      if byte_val a <? 128 then byte_val a :: runes s1
      else match s1 with
      | EmptyString => [RuneError]
      | String b s2 =>
          if between 194 223 (byte_val a) && continues b
          then Z.lor (Z.shiftl (Z.land (byte_val a) 31) 6) (low6 b) :: runes s2
          else match s2 with
          | EmptyString => RuneError :: runes s1
          | String c s3 =>
              if second_of_three a b && continues c
              then Z.lor (Z.shiftl (Z.land (byte_val a) 15) 12)
                     (Z.lor (Z.shiftl (low6 b) 6) (low6 c)) :: runes s3
              else match s3 with
              | EmptyString => RuneError :: runes s1
              | String d s4 =>
                  if second_of_four a b && continues c && continues d
                  then Z.lor (Z.shiftl (Z.land (byte_val a) 7) 18)
                         (Z.lor (Z.shiftl (low6 b) 12)
                            (Z.lor (Z.shiftl (low6 c) 6) (low6 d))) :: runes s4
                  else RuneError :: runes s1
              end
          end
      end
  end.

(** ** Classes of runes *)

(** The tables of package unicode for runes above U+00FF. *)
Class Unicode := {
  letter_table : Z → bool;
  digit_table : Z → bool;
}.
Definition ascii_letter (r : Z) : bool := between 65 90 r || between 97 122 r.
Definition latin1_letter (r : Z) : bool :=
  ascii_letter r || (r =? 170) || (r =? 181) || (r =? 186)
  || between 192 214 r || between 216 246 r || between 248 255 r.
Definition IsLetter `{Unicode} (r : Z) : bool :=
  if r <=? 255 then latin1_letter r else letter_table r.
Definition IsDigit `{Unicode} (r : Z) : bool :=
  if r <=? 255 then between 48 57 r else digit_table r.

Definition no_tables : Unicode := {| letter_table _ := false; digit_table _ := false |}.

(** ** Base64 for URLs, without padding *)

Definition sextet (n : Z) : ascii :=
  ascii_of_nat (Z.to_nat
    (if n <? 26 then 65 + n else if n <? 52 then 71 + n else if n <? 62 then n - 4
     else if n =? 62 then 45 else 95)).
Fixpoint base64_url (l : list Z) : string :=
  match l with
  | [] => ""
  | [a] => String (sextet (a / 4)) (String (sextet (a mod 4 * 16)) "")
  | [a; b] => String (sextet (a / 4)) (String (sextet (a mod 4 * 16 + b / 16))
                (String (sextet (b mod 16 * 4)) ""))
  | a :: b :: c :: l => String (sextet (a / 4)) (String (sextet (a mod 4 * 16 + b / 16))
                (String (sextet (b mod 16 * 4 + c / 64)) (String (sextet (c mod 64)) (base64_url l))))
  end.

Definition sextet_value (a : ascii) : Z :=
  let n := byte_val a in
  if between 65 90 n then n - 65 else if between 97 122 n then n - 71
  else if between 48 57 n then n + 4 else if n =? 45 then 62 else 63.
(** Reads the text of whole groups, and of a last one or two bytes. *)
Fixpoint unbase64_url (s : string) : list Z :=
  match s with
  | String p (String q (String r (String t s))) =>
      let '(p, q, r, t) := (sextet_value p, sextet_value q, sextet_value r, sextet_value t) in
      p * 4 + q / 16 :: q mod 16 * 16 + r / 4 :: r mod 4 * 64 + t :: unbase64_url s
  | String p (String q (String r "")) =>
      let '(p, q, r) := (sextet_value p, sextet_value q, sextet_value r) in
      [p * 4 + q / 16; q mod 16 * 16 + r / 4]
  | String p (String q "") => [sextet_value p * 4 + sextet_value q / 16]
  | _ => []
  end.

(** ** Properties *)

Example runes_ex :
  runes (bytes [97; 195; 169; 226; 130; 172; 240; 159; 152; 128; 255; 226; 130]%nat)
  = [97; 233; 8364; 128512; RuneError; RuneError; RuneError].
Proof. vm_compute. reflexivity. Qed.
Example base64_ex :
  base64_url [255; 239; 1; 62] = "_-8BPg" ∧ base64_url [1; 2] = "AQI".
Proof. vm_compute. done. Qed.

(** The runes of ASCII text are its bytes. *)
Fixpoint is_ascii (s : string) : bool :=
  match s with
  | EmptyString => true
  | String a s => (byte_val a <? 128) && is_ascii s
  end.
Lemma runes_ascii s : is_ascii s = true → runes s = bytes_of s.
Proof.
  induction s as [|a s IH]; [done|]. cbn [is_ascii]. intros [Ha Hs]%andb_true_iff.
  cbn [runes]. rewrite Ha. rewrite (IH Hs). done.
Qed.

Lemma sextet_bounded n : 0 ≤ n < 64 → sextet_value (sextet n) = n.
Proof.
  intros Hn. assert (Hall : forallb (λ k, sextet_value (sextet (Z.of_nat k)) =? Z.of_nat k)
    (seq 0 64) = true) by (vm_compute; reflexivity).
  rewrite forallb_forall in Hall. specialize (Hall (Z.to_nat n)).
  rewrite Z2Nat.id in Hall by lia. apply Z.eqb_eq, Hall, in_seq. lia.
Qed.

Definition is_byte (b : Z) : Prop := 0 ≤ b < 256.

Ltac sextets := rewrite !sextet_bounded by (Z.div_mod_to_equations; lia).
Lemma base64_roundtrip l : Forall is_byte l → unbase64_url (base64_url l) = l.
Proof.
  unfold is_byte.
  induction l as [l IH] using (induction_ltof1 _ (@length Z)). unfold ltof in IH.
  destruct l as [|a [|b [|c l]]]; intros Hl; [done|..].
  - apply Forall_cons in Hl as [Ha _]. cbn. sextets. f_equal. Z.div_mod_to_equations; lia.
  - apply Forall_cons in Hl as [Ha [Hb _]%Forall_cons]. cbn. sextets.
    f_equal; [|f_equal]; Z.div_mod_to_equations; lia.
  - apply Forall_cons in Hl as [Ha [Hb [Hc Hl]%Forall_cons]%Forall_cons].
    cbn. rewrite IH by (done || (cbn; lia)). sextets.
    f_equal; [|f_equal; [|f_equal]]; Z.div_mod_to_equations; lia.
Qed.

Lemma base64_inj l k :
  Forall is_byte l → Forall is_byte k → base64_url l = base64_url k → l = k.
Proof. intros Hl Hk He. by rewrite <- (base64_roundtrip l Hl), He, base64_roundtrip. Qed.

(** The text has no white space. *)
Lemma TrimSpace_all_visible s : all_bytes visible s = true → TrimSpace s = s.
Proof.
  intros Hs. destruct s as [|c s]; [done|].
  assert (Hl : ∃ t d, String c s = t +:+ String d "" ∧ visible d = true).
  { clear -Hs. revert c Hs. induction s as [|b s IH]; intros c; cbn [all_bytes].
    - rewrite andb_true_r. intros Hc. by exists "", c.
    - intros [Hc Hs]%andb_true_iff. destruct (IH b Hs) as (t & d & Ht & Hd).
      exists (String c t), d. by rewrite app_cons, <- Ht. }
  destruct Hl as (t & d & He & Hd). cbn [all_bytes] in Hs. apply andb_true_iff in Hs as [Hc _].
  by eapply TrimSpace_visible.
Qed.
Lemma sextet_visible n : 0 ≤ n < 64 → visible (sextet n) = true.
Proof.
  intros Hn. assert (Hall : forallb (λ k, visible (sextet (Z.of_nat k))) (seq 0 64) = true)
    by (vm_compute; reflexivity).
  rewrite forallb_forall in Hall. specialize (Hall (Z.to_nat n)).
  rewrite Z2Nat.id in Hall by lia. apply Hall, in_seq. lia.
Qed.
Lemma base64_visible l : Forall is_byte l → all_bytes visible (base64_url l) = true.
Proof.
  unfold is_byte.
  induction l as [l IH] using (induction_ltof1 _ (@length Z)). unfold ltof in IH.
  destruct l as [|a [|b [|c l]]]; intros Hl; [done|..];
    repeat match goal with H : Forall _ (_ :: _) |- _ => apply Forall_cons in H as [? H] end;
    cbn [base64_url all_bytes];
    rewrite !sextet_visible by (Z.div_mod_to_equations; lia); [done..|].
  by rewrite IH by (done || (cbn; lia)).
Qed.
Lemma base64_trimmed l : Forall is_byte l → TrimSpace (base64_url l) = base64_url l.
Proof. intros Hl. by apply TrimSpace_all_visible, base64_visible. Qed.

Lemma big_endian_bytes n z : Forall is_byte (big_endian n z).
Proof.
  induction n as [|n IH]; cbn; constructor; [|done]. unfold is_byte.
  change 255 with (Z.ones 8). rewrite Z.land_ones by lia. apply Z.mod_pos_bound. lia.
Qed.
Lemma sha256_bytes msg : Forall is_byte (sha256 msg).
Proof.
  unfold sha256. apply Forall_bind, Forall_true. intros x. apply big_endian_bytes.
Qed.

(** ** Texts of visible bytes *)

Lemma all_bytes_app P s t : all_bytes P (s +:+ t) = all_bytes P s && all_bytes P t.
Proof. induction s as [|a s IH]; [done|]. rewrite app_cons. cbn. by rewrite IH, andb_assoc. Qed.
Lemma all_bytes_impl (P Q : ascii → bool) s :
  (∀ a, P a = true → Q a = true) → all_bytes P s = true → all_bytes Q s = true.
Proof.
  intros HPQ. induction s as [|a s IH]; [done|]. cbn. intros [Ha Hs]%andb_true_iff.
  by rewrite HPQ, IH.
Qed.

Lemma hex_digit_visible b : 0 ≤ b < 16 → visible (hex_digit b) = true.
Proof.
  intros Hb. assert (Hall : forallb (λ k, visible (hex_digit (Z.of_nat k))) (seq 0 16) = true)
    by (vm_compute; reflexivity).
  rewrite forallb_forall in Hall. specialize (Hall (Z.to_nat b)).
  rewrite Z2Nat.id in Hall by lia. apply Hall, in_seq. lia.
Qed.
Lemma hex_visible l : Forall is_byte l → all_bytes visible (hex_encode l) = true.
Proof.
  unfold is_byte. induction 1 as [|b l Hb _ IH]; [done|]. cbn [hex_encode all_bytes].
  rewrite !hex_digit_visible, IH by (Z.div_mod_to_equations; lia). done.
Qed.
Lemma pretty_visible (z : Z) : all_bytes visible (pretty z) = true.
Proof.
  assert (Hd : ∀ x : N, all_bytes visible (pretty x) = true).
  { intros x. eapply all_bytes_impl; [apply is_digit_visible|]. apply pretty_N_spec. }
  destruct (decide (0 ≤ z)); [by rewrite pretty_nonneg|].
  rewrite pretty_neg by lia. cbn [all_bytes]. by rewrite Hd.
Qed.

Lemma cut_at_none c s : has_byte c s = false → cut_at c s = (s, None).
Proof.
  induction s as [|a s IH]; [done|]. cbn [has_byte cut_at]. intros [-> Hs]%orb_false_iff. by rewrite IH.
Qed.
Lemma all_ascii (P : ascii → bool) :
  forallb (λ n, P (ascii_of_nat n)) (seq 0 256) = true → ∀ a, P a = true.
Proof.
  intros Hall a. rewrite forallb_forall in Hall. rewrite <- (ascii_nat_embedding a).
  apply Hall, in_seq. pose proof (nat_ascii_bounded a). lia.
Qed.
