(* ===== verification/Signatures.v ===== *)
(** * Signed callbacks and usage reports (internal/carrier/callback.go,
    integration_callback.go, internal/usageproof/verify.go)

    Events a carrier sends back, in the two forms they take, and the signatures
    by which they are recognised; signed usage reports.  Signatures are the
    HMAC-SHA256 of [GoBytes].  The theorems say what a check accepts, and what the
    signed text pins down: the four fields of an event if none holds the
    separator, and never its payload. *)

From Stdlib Require Import Ascii.
From S2P Require Import Prelude GoNum GoText GoFloat Core GoTime CarrierEvents GoBytes Http.

(** ** Events *)

Definition minute_ns : Z := 60 * second_ns.
Definition CallbackMaxAge : Z := 5 * minute_ns.
Definition MaxProofAge : Z := 5 * minute_ns.

(** A [map[string]any]. *)
Abbreviation Payload := (gmap string json).

Record CallbackEvent := mkCallbackEvent {
  ce_Type : string;
  ce_JobID : string;
  ce_BindingID : string;
  ce_Timestamp : string;
  ce_Signature : string;
  ce_Payload : Payload;
}.
#[export] Instance CallbackEvent_eta : Eta CallbackEvent := λ e,
  mkCallbackEvent (ce_Type e) (ce_JobID e) (ce_BindingID e) (ce_Timestamp e)
    (ce_Signature e) (ce_Payload e).

Record IntegrationCallbackEnvelope := mkEnvelope {
  ie_EventID : string;
  ie_Sequence : Z;
  ie_EventType : string;
  ie_BindingID : string;
  ie_CarrierExecutionID : string;
  ie_AttemptID : string;
  ie_CreatedAt : string;
  ie_Payload : json;
}.

(** The numbers of an [any] are floats: one too large is an error. *)
Fixpoint decodes (v : json) : bool :=
  match v with
  | JInt z => negb (f64_is_inf (f64_of_int z))
  | JArr l => forallb decodes l
  | JObj fields => forallb (λ f, decodes f.2) fields
  | _ => true
  end.

(** Decoding an object into a map keeps the entries that are there. *)
Definition into_map (fields : list (string * json)) (m : Payload) : Payload :=
  foldl (λ m f, <[f.1 := f.2]> m) m fields.
Definition payload_field (key : string) (fields : list (string * json)) : option Payload :=
  foldl (λ acc f,
    old ← acc;
    if EqualFold f.1 key
    then match f.2 with
         | JNull => Some ∅
         | JObj entries => if decodes f.2 then Some (into_map entries old) else None
         | _ => None
         end
    else Some old) (Some ∅) fields.
Definition any_field (key : string) (fields : list (string * json)) : option json :=
  decode_field JNull (λ v, if decodes v then Some v else None) key fields.

Definition decode_event (v : json) : option CallbackEvent :=
  f ← as_object v;
  t ← string_field "type" f; j ← string_field "jobId" f; b ← string_field "bindingId" f;
  ts ← string_field "timestamp" f; s ← string_field "signature" f;
  p ← payload_field "payload" f;
  Some (mkCallbackEvent t j b ts s p).
Definition decode_envelope (v : json) : option IntegrationCallbackEnvelope :=
  f ← as_object v;
  i ← string_field "eventId" f; s ← int_field "sequence" f; t ← string_field "eventType" f;
  b ← string_field "bindingId" f; x ← string_field "carrierExecutionId" f;
  a ← string_field "attemptId" f; ca ← string_field "createdAt" f;
  p ← any_field "payload" f;
  Some (mkEnvelope i s t b x a ca p).

(** [payload[key].(string)], [payload[key].(float64)] *)
Definition payload_string (p : Payload) (key : string) : option string :=
  match p !! key with Some (JStr s) => Some s | _ => None end.
Definition payload_float (p : Payload) (key : string) : option float64 :=
  match p !! key with
  | Some (JInt z) => Some (f64_of_int z)
  | Some (JFloat x) => Some x
  | _ => None
  end.

(** The first of the keys that holds a string that is not blank, trimmed. *)
Fixpoint firstNonEmptyPayloadValue (p : Payload) (keys : list string) : string :=
  match keys with
  | [] => ""
  | key :: keys =>
      match payload_string p key with
      | Some s => if blank s then firstNonEmptyPayloadValue p keys else TrimSpace s
      | None => firstNonEmptyPayloadValue p keys
      end
  end.

Definition set_unless_blank (key value : string) (p : Payload) : Payload :=
  if blank value then p else <[key := JStr (TrimSpace value)]> p.

Definition ToCallbackEvent (e : IntegrationCallbackEnvelope) : CallbackEvent :=
  let p : Payload := match ie_Payload e with JObj fields => into_map fields ∅ | _ => ∅ end in
  let p := set_unless_blank "eventId" (ie_EventID e) p in
  let p := if 0 <? ie_Sequence e
           then <["sequence" := JFloat (f64_of_int (ie_Sequence e))]> p else p in
  let p := set_unless_blank "attemptId" (ie_AttemptID e) p in
  let p := set_unless_blank "carrierExecutionId" (ie_CarrierExecutionID e) p in
  mkCallbackEvent (NormalizeEventName (ie_EventType e))
    (firstNonEmptyPayloadValue p ["jobId"; "externalExecutionId"; "oneTokJobId"; "orderJobId";
                                  "executionJobId"; "carrierExecutionId"])
    (TrimSpace (ie_BindingID e)) (TrimSpace (ie_CreatedAt e)) "" p.

(** ** Signatures of events *)

Definition bar : string := "|".
Definition callback_text (e : CallbackEvent) : string :=
  Join bar [ce_Type e; ce_JobID e; ce_BindingID e; ce_Timestamp e].
Definition SignCallback (secret : string) (e : CallbackEvent) : string :=
  hmac_sha256 secret (callback_text e).

Definition expired (now maxAge ts : Time) : bool := maxAge <? now - ts.

Definition VerifyCallback (secret : string) (e : CallbackEvent) (now : Time) : result () :=
  if String.eqb secret ""
  then if blank (ce_Signature e) then Ok tt else Err ErrMissingCallbackSecret
  else if blank (ce_Signature e) then Err ErrMissingCallbackSignature
  else if negb (String.eqb (SignCallback secret e) (ce_Signature e))
  then Err ErrInvalidCallbackSignature
  else match ParseRFC3339 (ce_Timestamp e) with
       | None => Err (EPrefix "invalid callback timestamp" (Errf "parsing time"))
       | Some ts => if expired now CallbackMaxAge ts then Err ErrExpiredCallback else Ok tt
       end.

Definition SignIntegrationCallbackBody (secret body : string) : string :=
  "sha256=" +:+ hmac_sha256 (TrimSpace secret) body.
Definition VerifyIntegrationCallbackBody (secret body signature : string) : result () :=
  if blank secret
  then if blank signature then Ok tt else Err ErrMissingCallbackSecret
  else if blank signature then Err ErrMissingCallbackSignature
  else if negb (String.eqb (SignIntegrationCallbackBody secret body) (TrimSpace signature))
  then Err ErrInvalidIntegrationCallbackSignature
  else Ok tt.

(** ** Usage proofs *)

Record Proof_ := mkProof {
  pf_ExecutionID : string;
  pf_MilestoneID : string;
  pf_Kind : string;
  pf_AmountCents : Z;
  pf_Timestamp : string;
  pf_Signature : string;
}.

Definition proof_text (p : Proof_) : string :=
  Join bar [pf_ExecutionID p; pf_MilestoneID p; pf_Kind p; pretty (pf_AmountCents p);
            pf_Timestamp p].
Definition Sign (secret : string) (p : Proof_) : string := hmac_sha256 secret (proof_text p).

Definition Verify (secret : string) (p : Proof_) (now : Time) : result () :=
  if blank secret then Ok tt
  else if blank (pf_Signature p) then Err ErrMissingProof
  else if negb (String.eqb (Sign secret p) (pf_Signature p)) then Err ErrInvalidSignature
  else match ParseRFC3339 (pf_Timestamp p) with
       | None => Err (EPrefix "invalid proof timestamp" (Errf "parsing time"))
       | Some ts => if expired now MaxProofAge ts then Err ErrExpiredProof else Ok tt
       end.

(** ** Digests are not blank *)

Lemma round_length k w state : length (round k w state) = length state.
Proof. unfold round. by repeat case_match; subst. Qed.
Lemma rounds_length ks window state : length (rounds ks window state) = length state.
Proof.
  revert window state. induction ks as [|k ks IH]; intros [|w window] state; [done..|].
  cbn. by rewrite IH, round_length.
Qed.
Lemma digest_length blocks ws state : length (digest_blocks blocks ws state) = length state.
Proof.
  revert ws state. induction blocks as [|n IH]; intros ws state; [done|]. cbn.
  rewrite IH. unfold compress. rewrite length_zip_with, rounds_length. lia.
Qed.
Lemma sha256_cons msg : ∃ b l, sha256 msg = Z.land b 255 :: l.
Proof.
  unfold sha256. set (state := digest_blocks _ _ _).
  assert (Hl : length state = 8%nat) by apply digest_length.
  destruct state as [|w state]; [done|]. cbn. by eexists _, _.
Qed.

Lemma hmac_not_blank key msg : blank (hmac_sha256 key msg) = false.
Proof.
  unfold hmac_sha256, hmac. destruct (sha256_cons ((Z.lxor 92 <$> block_key (bytes_of key)) ++
    sha256 ((Z.lxor 54 <$> block_key (bytes_of key)) ++ bytes_of msg))) as (b & l & ->).
  cbn [hex_encode]. apply blank_visible, hex_digit_visible.
  assert (0 ≤ Z.land b 255 < 256).
  { change 255 with (Z.ones 8). rewrite Z.land_ones by lia. by apply Z.mod_pos_bound. }
  split; [apply Z.div_pos; lia|apply Z.div_lt_upper_bound; lia].
Qed.

(** ** What a check accepts *)

Lemma VerifyCallback_Ok secret e now : secret ≠ "" →
  VerifyCallback secret e now = Ok tt ↔
  ce_Signature e = SignCallback secret e ∧
  ∃ ts, ParseRFC3339 (ce_Timestamp e) = Some ts ∧ now - ts ≤ CallbackMaxAge.
Proof.
  intros Hs%String.eqb_neq. unfold VerifyCallback. rewrite Hs.
  destruct (String.eqb_spec (SignCallback secret e) (ce_Signature e)) as [<-|Hne].
  - unfold SignCallback. rewrite hmac_not_blank. cbn [negb].
    destruct (ParseRFC3339 (ce_Timestamp e)) as [ts|]; [|by split; [|intros (_ & ? & ? & _)]].
    unfold expired. destruct (Z.ltb_spec CallbackMaxAge (now - ts)).
    + split; [done|]. intros (_ & ? & [= <-] & ?). lia.
    + split; [|done]. intros _. split; [done|]. by exists ts.
  - split; [by destruct (blank _)|]. by intros [? _].
Qed.

(** With a secret, a callback is accepted exactly when it carries its own
    signature and a readable time that is at most five minutes past: what a
    carrier signs is accepted until then and refused after, and a time that has
    yet to come is never refused. *)
Theorem callbacks_verify (secret : string) (e : CallbackEvent) (now : Time) :
  secret ≠ "" →
  let signed := e <| ce_Signature := SignCallback secret e |> in
  (∀ ts, ParseRFC3339 (ce_Timestamp e) = Some ts →
     VerifyCallback secret signed now = Ok tt ↔ now ≤ ts + 5 * 60 * 1000000000) ∧
  (VerifyCallback secret e now = Ok tt →
     e = signed ∧ ∃ ts, ParseRFC3339 (ce_Timestamp e) = Some ts) ∧
  (ParseRFC3339 (ce_Timestamp e) = None → is_ok (VerifyCallback secret e now) = false).
Proof.
  intros Hs signed. assert (Ht : SignCallback secret signed = SignCallback secret e) by done.
  assert (HA : CallbackMaxAge = 5 * 60 * 1000000000) by reflexivity.
  split_and!.
  - intros ts Hts. rewrite VerifyCallback_Ok by done. rewrite Ht. cbn [signed]. split.
    + intros (_ & ts' & Hts' & ?). change (ce_Timestamp signed) with (ce_Timestamp e) in Hts'.
      simplify_eq. lia.
    + intros ?. split; [done|]. exists ts. split; [done|lia].
  - intros (Hsig & ts & Hts & _)%VerifyCallback_Ok; [|done]. split; [|by exists ts].
    unfold signed. rewrite <- Hsig. by destruct e.
  - intros Hts. destruct (VerifyCallback secret e now) as [[]|] eqn:Hv; [|done].
    apply VerifyCallback_Ok in Hv as (_ & ts & ? & _); [congruence|done].
Qed.

(** The separator joins the fields of an event. *)
Definition no_bar (s : string) : Prop := has_byte "|" s = false.
Definition fields_plain (e : CallbackEvent) : Prop :=
  Forall no_bar [ce_Type e; ce_JobID e; ce_BindingID e; ce_Timestamp e].

(** The signed text pins an event down: two events none of whose signed fields
    holds the separator sign the same text only if these fields agree, so that an
    accepted signature cannot be moved to another job, binding or time; and the
    text of a usage report, with its amount, is never the text of an event. *)
Theorem signed_text_pins_event (e e' : CallbackEvent) (p : Proof_) :
  fields_plain e → fields_plain e' →
  Forall no_bar [pf_ExecutionID p; pf_MilestoneID p; pf_Kind p; pf_Timestamp p] →
  (callback_text e = callback_text e' →
     ce_Type e = ce_Type e' ∧ ce_JobID e = ce_JobID e' ∧
     ce_BindingID e = ce_BindingID e' ∧ ce_Timestamp e = ce_Timestamp e') ∧
  callback_text e ≠ proof_text p.
Proof.
  intros He He' Hp. unfold callback_text, proof_text. split.
  - intros Heq. apply (f_equal (Split "|")) in Heq. rewrite !Split_Join in Heq by done.
    by simplify_eq.
  - intros Heq. apply (f_equal (Split "|")) in Heq. rewrite !Split_Join in Heq; [done|done| |done..].
    repeat (apply Forall_cons in Hp as [? Hp]). repeat (constructor; [done|]).
    constructor; [|by constructor].
    destruct (decide (0 ≤ pf_AmountCents p)).
    + rewrite pretty_nonneg by done. eapply has_byte_all; [|apply pretty_N_spec]. done.
    + rewrite pretty_neg by lia. cbn [has_byte].
      change (Ascii.eqb "-" "|") with false. eapply has_byte_all; [|apply pretty_N_spec]. done.
Qed.

(** ** Runs *)

Module Signed.
Definition started : CallbackEvent :=
  mkCallbackEvent "job.started" "job_1" "bind_1" "2024-01-01T00:00:00Z" "" ∅.
Definition noon : Time := default 0 (ParseRFC3339 "2024-01-01T00:04:00Z").

Lemma callbacks_verify_witness :
  is_ok (VerifyCallback "k" (started <| ce_Signature := SignCallback "k" started |>) noon) = true ∧
  is_ok (VerifyCallback "k" started noon) = false ∧
  VerifyCallback "k" (started <| ce_Signature := SignCallback "k" started |>) noon = Ok tt.
Proof.
  split_and!; [vm_compute; reflexivity..|].
  refine (proj2 (proj1 (callbacks_verify "k" started noon ltac:(discriminate))
    (default 0 (ParseRFC3339 "2024-01-01T00:00:00Z")) ltac:(vm_compute; reflexivity)) _).
  vm_compute. discriminate.
Defined.

Lemma signed_text_pins_event_witness :
  callback_text started ≠ callback_text (started <| ce_JobID := "job_2" |>) ∧
  callback_text started ≠ proof_text (mkProof "job_1" "ms_1" "token" 5 "" "").
Proof.
  pose proof (signed_text_pins_event started (started <| ce_JobID := "job_2" |>)
    (mkProof "job_1" "ms_1" "token" 5 "" "")
    ltac:(repeat constructor) ltac:(repeat constructor) ltac:(repeat constructor)) as [H1 H2].
  split; [|exact H2]. intros H. by destruct (H1 H) as (_ & ? & _).
Defined.

(** The payload is not signed: a usage report keeps its signature under another
    amount.  A separator inside a field moves text from one field to the next. *)
Example payload_is_unsigned :
  let report n := mkCallbackEvent "usage.reported" "job_1" "bind_1" "2024-01-01T00:00:00Z"
    (SignCallback "k" (mkCallbackEvent "usage.reported" "job_1" "bind_1" "2024-01-01T00:00:00Z"
                         "" {["amountCents" := JInt 100]}))
    {["amountCents" := JInt n]} in
  VerifyCallback "k" (report 100) noon = Ok tt ∧ VerifyCallback "k" (report 999999) noon = Ok tt.
Proof. split; vm_compute; reflexivity. Qed.
Example separator_is_ambiguous :
  callback_text (mkCallbackEvent "a" "b|c" "d" "t" "" ∅)
  = callback_text (mkCallbackEvent "a|b" "c" "d" "t" "" ∅).
Proof. reflexivity. Qed.
Example envelope_event :
  option_map (λ v, let e := ToCallbackEvent v in (ce_Type e, ce_JobID e, ce_BindingID e))
    (decode_envelope (JObj [("eventId", JStr "e1"); ("sequence", JInt 1);
      ("eventType", JStr "milestone_ready"); ("bindingId", JStr " bind_1 ");
      ("carrierExecutionId", JStr "x"); ("payload", JObj [("jobId", JStr "job_7")])]))
  = Some ("milestone.ready", "job_7", "bind_1").
Proof. vm_compute. reflexivity. Qed.
End Signed.
