(* ===== verification/DemoEnv.v ===== *)
(** * The demonstration's configuration and status (internal/demoenv)

    The settings of the demonstration, what its status is made of and how its verdict
    follows. *)

From S2P Require Import Prelude GoNum GoText Core Market App.

Record ActorConfig := mkActorConfig {
  acf_Email : string;
  acf_Password : string;
  acf_Name : string;
  acf_OrganizationName : string;
  acf_OrganizationKind : string;
  acf_OrganizationID : string;
}.

Record demoenv_Config := mkDemoConfig {
  dc_APIBaseURL : string;
  dc_IAMBaseURL : string;
  dc_SettlementBaseURL : string;
  dc_ExecutionBaseURL : string;
  dc_CarrierBaseURL : string;
  dc_FiberAdapterBaseURL : string;
  dc_SettlementServiceToken : string;
  dc_Buyer : ActorConfig;
  dc_Provider : ActorConfig;
  dc_Ops : ActorConfig;
  dc_MinBuyerBalanceCents : Z;
  dc_MinProviderLiquidityCents : Z;
  dc_BuyerTopUpAmount : string;
  dc_ResourcePrefix : string;
}.

(** [ConfigFromEnv]; [getenv] is [os.Getenv]. *)
Section environment.
Context (getenv : string → string).
Definition actor_env (prefix email name organization kind : string) : ActorConfig :=
  let setting key fallback := envOrDefault getenv ("DEMO_" +:+ prefix +:+ key) fallback in
  mkActorConfig (setting "_EMAIL" email) (setting "_PASSWORD" "correct horse battery staple 123")
    (setting "_NAME" name) (setting "_ORG_NAME" organization) (setting "_ORG_KIND" kind)
    (trimmed_env getenv ("DEMO_" +:+ prefix +:+ "_ORG_ID")).
Definition demoenv_ConfigFromEnv : demoenv_Config :=
  mkDemoConfig
    (firstNonEmptyEnv getenv ["DEMO_API_BASE_URL"; "RELEASE_USDI_E2E_API_BASE_URL"; "RELEASE_SMOKE_API_BASE_URL"])
    (firstNonEmptyEnv getenv ["DEMO_IAM_BASE_URL"; "RELEASE_USDI_E2E_IAM_BASE_URL"; "RELEASE_SMOKE_IAM_BASE_URL"])
    (firstNonEmptyEnv getenv ["DEMO_SETTLEMENT_BASE_URL"; "RELEASE_USDI_E2E_SETTLEMENT_BASE_URL";
                              "RELEASE_SMOKE_SETTLEMENT_BASE_URL"])
    (firstNonEmptyEnv getenv ["DEMO_EXECUTION_BASE_URL"; "RELEASE_USDI_E2E_EXECUTION_BASE_URL";
                              "RELEASE_SMOKE_EXECUTION_BASE_URL"])
    (firstNonEmptyEnv getenv ["DEMO_CARRIER_BASE_URL"; "RELEASE_USDI_E2E_CARRIER_BASE_URL"; "CARRIER_GATEWAY_URL"])
    (firstNonEmptyEnv getenv ["DEMO_FIBER_ADAPTER_BASE_URL"; "RELEASE_USDI_E2E_FIBER_ADAPTER_BASE_URL";
                              "FIBER_RPC_URL"])
    (firstNonEmptyEnv getenv ["DEMO_SETTLEMENT_SERVICE_TOKEN"; "RELEASE_USDI_E2E_SETTLEMENT_SERVICE_TOKEN";
                              "RELEASE_SMOKE_SETTLEMENT_SERVICE_TOKEN"; "SETTLEMENT_SERVICE_TOKEN"])
    (actor_env "BUYER" "demo-buyer@example.com" "Demo Buyer" "Demo Buyer Org" "buyer")
    (actor_env "PROVIDER" "demo-provider@example.com" "Demo Provider" "Demo Provider Org" "provider")
    (actor_env "OPS" "demo-ops@example.com" "Demo Ops" "Demo Ops Org" "ops")
    (env_int getenv "DEMO_MIN_BUYER_BALANCE_CENTS" 5000)
    (env_int getenv "DEMO_MIN_PROVIDER_LIQUIDITY_CENTS" 88000)
    (envOrDefault getenv "DEMO_BUYER_TOPUP_AMOUNT" "50.00")
    (envOrDefault getenv "DEMO_RESOURCE_PREFIX" "demo-live").
End environment.

Inductive Verdict := VerdictReady | VerdictBlocked.
#[export] Instance Verdict_eq_dec : EqDecision Verdict.
Proof. solve_decision. Defined.

Record ServiceStatus := mkServiceStatus {
  ss_ID : string;
  ss_Label : string;
  ss_BaseURL : string;
  ss_Healthy : bool;
  ss_Detail : string;
}.

Record ActorStatus := mkActorStatus {
  as_Role : string;
  as_Email : string;
  as_OrgID : string;
  as_Ready : bool;
  as_Detail : string;
}.

Record BuyerBalanceStatus := mkBuyerBalance {
  bb_BuyerOrgID : string;
  bb_SettledTopUpCents : Z;
  bb_SettledTopUpCount : Z;
  bb_PendingTopUpCount : Z;
  bb_MinimumRequiredCents : Z;
  bb_MeetsMinimumThreshold : bool;
}.
#[export] Instance BuyerBalanceStatus_eta : Eta BuyerBalanceStatus := λ b,
  mkBuyerBalance (bb_BuyerOrgID b) (bb_SettledTopUpCents b) (bb_SettledTopUpCount b)
    (bb_PendingTopUpCount b) (bb_MinimumRequiredCents b) (bb_MeetsMinimumThreshold b).

(** [string(pool.Status)] *)
Definition pool_status_text (s : PoolStatus) : string :=
  match s with
  | PoolStatusUnset => ""
  | PoolStatusHealthy => "healthy"
  | PoolStatusDegraded => "degraded"
  | PoolStatusDisconnected => "disconnected"
  | PoolStatusRecovering => "recovering"
  | PoolStatusSuspended => "suspended"
  end.

Record ProviderSettlementStatus := mkProviderStatus {
  pss_ProviderOrgID : string;
  pss_CarrierBindingStatus : string;
  pss_SettlementBindingStatus : string;
  pss_PoolStatus : string;
  pss_ReadyChannelCount : Z;
  pss_AvailableToAllocateCents : Z;
  pss_ReservedOutstandingCents : Z;
  pss_MinimumRequiredCents : Z;
  pss_MeetsMinimumThreshold : bool;
}.

(** [st_CheckedAt] is [None] for the zero time. *)
Record demoenv_Status := mkDemoStatus {
  st_CheckedAt : option Time;
  st_ResourcePrefix : string;
  st_Verdict : option Verdict;
  st_BlockerReasons : list string;
  st_Services : list ServiceStatus;
  st_Actors : list ActorStatus;
  st_BuyerBalance : BuyerBalanceStatus;
  st_ProviderSettlement : ProviderSettlementStatus;
}.
#[export] Instance demoenv_Status_eta : Eta demoenv_Status := λ s,
  mkDemoStatus (st_CheckedAt s) (st_ResourcePrefix s) (st_Verdict s) (st_BlockerReasons s)
    (st_Services s) (st_Actors s) (st_BuyerBalance s) (st_ProviderSettlement s).

(** [dedupeNonEmpty]: the first of each, in order. *)
Fixpoint dedupe_from (seen : gset string) (values : list string) : list string :=
  match values with
  | [] => []
  | value :: values =>
      if String.eqb value "" || bool_decide (value ∈ seen) then dedupe_from seen values
      else value :: dedupe_from ({[value]} ∪ seen) values
  end.
Definition dedupeNonEmpty (values : list string) : list string := dedupe_from ∅ values.

Definition when (b : bool) (s : string) : list string := if b then [s] else [].
(** [FinalizeStatus]; [now] is its reading of the clock. *)
Definition FinalizeStatus (now : Time) (status : demoenv_Status) : demoenv_Status :=
  let blockers := st_BlockerReasons status
    ++ (st_Services status ≫= λ s, when (negb (ss_Healthy s)) (ss_Label s +:+ " is not healthy"))
    ++ (st_Actors status ≫= λ a, when (negb (as_Ready a)) (as_Role a +:+ " actor is not ready"))
    ++ when (negb (bb_MeetsMinimumThreshold (st_BuyerBalance status)))
         "buyer prefund balance is below the demo threshold"
    ++ when (negb (pss_MeetsMinimumThreshold (st_ProviderSettlement status)))
         "provider liquidity pool is below the demo threshold" in
  let blockers := dedupeNonEmpty blockers in
  status <| st_BlockerReasons := blockers |>
         <| st_Verdict := Some (if bool_decide (blockers = []) then VerdictReady
                                else VerdictBlocked) |>
         <| st_CheckedAt := Some (default now (st_CheckedAt status)) |>.

(** ** Properties *)

Lemma dedupe_elem seen values v :
  v ∈ dedupe_from seen values ↔ v ∈ values ∧ v ≠ "" ∧ v ∉ seen.
Proof.
  revert seen. induction values as [|x values IH]; intros seen; cbn [dedupe_from].
  { rewrite elem_of_nil. tauto. }
  rewrite elem_of_cons. destruct (String.eqb_spec x "") as [->|Hx]; cbn [orb].
  { rewrite IH. intuition congruence. }
  destruct (bool_decide_reflect (x ∈ seen)).
  { rewrite IH. intuition congruence. }
  rewrite elem_of_cons, IH, elem_of_union, elem_of_singleton.
  destruct (decide (v = x)) as [->|]; tauto.
Qed.
Lemma dedupe_NoDup seen values : NoDup (dedupe_from seen values).
Proof.
  revert seen. induction values as [|x values IH]; intros seen; cbn [dedupe_from]; [constructor|].
  destruct (_ || _); [apply IH|]. constructor; [|apply IH].
  rewrite dedupe_elem. intros (_ & _ & []). apply elem_of_union. left. by apply elem_of_singleton.
Qed.

Lemma no_blockers values : dedupe_from ∅ values = [] ↔ ∀ v, v ∈ values → v = "".
Proof.
  split.
  - intros Hn v Hv. destruct (decide (v = "")) as [|Hne]; [done|].
    assert (v ∈ dedupe_from ∅ values) as Hin by (apply dedupe_elem; set_solver).
    rewrite Hn in Hin. by apply elem_of_nil in Hin.
  - intros Hall. apply elem_of_nil_inv. intros v (Hv & Hne & _)%dedupe_elem.
    by apply Hne, Hall.
Qed.
Lemma append_nonempty s t : t ≠ "" → s +:+ t ≠ "".
Proof. by destruct s. Qed.

(** The demonstration is ready exactly when nothing stands in its way: no reason was
    found before, every service is healthy, every actor is ready, and both the
    buyer's balance and the provider's pool meet their thresholds.  The reasons
    that are given are the reasons there are, each once. *)
Theorem demo_verdict now status :
  let final := FinalizeStatus now status in
  (st_Verdict final = Some VerdictReady ↔
     (∀ r, r ∈ st_BlockerReasons status → r = "") ∧
     (∀ s, s ∈ st_Services status → ss_Healthy s = true) ∧
     (∀ a, a ∈ st_Actors status → as_Ready a = true) ∧
     bb_MeetsMinimumThreshold (st_BuyerBalance status) = true ∧
     pss_MeetsMinimumThreshold (st_ProviderSettlement status) = true) ∧
  NoDup (st_BlockerReasons final) ∧
  (∀ r, r ≠ "" → r ∈ st_BlockerReasons status → r ∈ st_BlockerReasons final) ∧
  (st_Verdict final = Some VerdictBlocked ↔ st_BlockerReasons final ≠ []).
Proof.
  intros final. unfold final, FinalizeStatus. cbn. set (all := _ ++ _ ++ _ ++ _ ++ _).
  unfold dedupeNonEmpty.
  assert (Hall : ∀ v, v ∈ all ↔ v ∈ st_BlockerReasons status
    ∨ (∃ s, (ss_Healthy s = false ∧ v = ss_Label s +:+ " is not healthy") ∧ s ∈ st_Services status)
    ∨ (∃ a, (as_Ready a = false ∧ v = as_Role a +:+ " actor is not ready") ∧ a ∈ st_Actors status)
    ∨ bb_MeetsMinimumThreshold (st_BuyerBalance status) = false ∧
        v = "buyer prefund balance is below the demo threshold"
    ∨ pss_MeetsMinimumThreshold (st_ProviderSettlement status) = false ∧
        v = "provider liquidity pool is below the demo threshold").
  { intros v. unfold all. rewrite !elem_of_app, !list_elem_of_bind.
    assert (Hw : ∀ b s, v ∈ when (negb b) s ↔ b = false ∧ v = s).
    { intros b s. unfold when. destruct b; cbn; rewrite ?list_elem_of_singleton, ?elem_of_nil;
        intuition discriminate. }
    rewrite !Hw. setoid_rewrite Hw. reflexivity. }
  split_and!; [|apply dedupe_NoDup| |].
  - assert (Hv : (if bool_decide (dedupe_from ∅ all = []) then VerdictReady else VerdictBlocked)
      = VerdictReady ↔ ∀ v, v ∈ all → v = "").
    { rewrite <- no_blockers. case_bool_decide; split; done. }
    assert (Hinj : ∀ x y : Verdict, Some x = Some y ↔ x = y) by (split; congruence).
    rewrite Hinj, Hv. clear Hv Hinj. setoid_rewrite Hall. split.
    + intros Hnone. split_and!.
      * intros r Hr. apply Hnone. by left.
      * intros s Hs. apply not_false_is_true. intros Hh.
        by apply (append_nonempty (ss_Label s) " is not healthy"), Hnone; eauto 10.
      * intros a Ha. apply not_false_is_true. intros Hh.
        by apply (append_nonempty (as_Role a) " actor is not ready"), Hnone; eauto 10.
      * apply not_false_is_true. intros Hh.
        by assert ("buyer prefund balance is below the demo threshold" = "")
          by (apply Hnone; eauto 10).
      * apply not_false_is_true. intros Hh.
        by assert ("provider liquidity pool is below the demo threshold" = "")
          by (apply Hnone; eauto 10).
    + intros (Hr & Hs & Ha & Hb & Hp) v [Hv|[(s & [Hh _] & Hin)|[(a & [Hh _] & Hin)|[[Hh _]|[Hh _]]]]].
      * by apply Hr.
      * by rewrite Hs in Hh.
      * by rewrite Ha in Hh.
      * congruence.
      * congruence.
  - intros r Hr Hin. apply dedupe_elem. split; [apply Hall; by left|]. split; [done|apply not_elem_of_empty].
  - case_bool_decide; split; congruence.
Qed.
