(* ===== verification/Gateway.v ===== *)
(** * The API gateway: state, identity, admission (internal/gateway/server.go)

    What the handlers of the gateway share: the server and what it is built
    from, the actor behind a request and the organization it acts for, what an
    actor may see, rate limits, the prepaid balance, and the status a failure is
    answered with.

    The platform, the carrier service, the evidence store and the event ledger
    are the models of the other files; the IAM service, the settlement service,
    the rate limiter and the clock are functions of the calls made before. *)

From Stdlib Require Import Ascii.
From S2P Require Import Prelude GoNum GoText GoFloat Core Milestones Market Repo App ProviderSettlement.
From S2P Require Import Providers Orders Bidding Directory RateLimit CarrierService CarrierEvents Funding.
From S2P Require Import Http Web DemoEnv.

(** ** Roles *)

Definition isBuyerRole (role : string) : bool :=
  existsb (String.eqb role) ["org_owner"; "procurement"; "operator"].
Definition isProviderRole (role : string) : bool :=
  existsb (String.eqb role) ["org_owner"; "sales"; "delivery_operator"].
Definition isOpsRole (role : string) : bool :=
  existsb (String.eqb role) ["ops_reviewer"; "risk_admin"; "finance_admin"; "super_admin"].

Definition ops_member (m : ActorMembership) : bool :=
  String.eqb (am_OrganizationKind m) "ops" && isOpsRole (am_Role m).
Definition buyer_member (m : ActorMembership) : bool :=
  String.eqb (am_OrganizationKind m) "buyer" && isBuyerRole (am_Role m).
Definition provider_member (m : ActorMembership) : bool :=
  String.eqb (am_OrganizationKind m) "provider" && isProviderRole (am_Role m).

(** ** What an actor may see *)

(** The loop over the memberships of the filters: [None] once an operator's
    membership is met, else the organizations acted for as a buyer and as a
    provider. *)
Fixpoint visible_orgs (ms : list ActorMembership) (buyers providers : gset string)
    : option (gset string * gset string) :=
  match ms with
  | [] => Some (buyers, providers)
  | m :: ms =>
      if ops_member m then None
      else if buyer_member m then visible_orgs ms ({[am_OrganizationID m]} ∪ buyers) providers
      else if provider_member m
      then visible_orgs ms buyers ({[am_OrganizationID m]} ∪ providers)
      else visible_orgs ms buyers providers
  end.

Definition filterOrdersForActor (orders : list Order) (actor : Actor) : result (list Order) :=
  if bool_decide (ac_Memberships actor = []) then Err ErrMembershipRequired
  else match visible_orgs (ac_Memberships actor) ∅ ∅ with
       | None => Ok orders
       | Some (buyers, providers) =>
           let filtered := List.filter (λ o, bool_decide (o_BuyerOrgID o ∈ buyers)
                                     || bool_decide (o_ProviderOrgID o ∈ providers)) orders in
           if bool_decide (filtered = []) && bool_decide (buyers = ∅)
              && bool_decide (providers = ∅)
           then Err ErrMembershipRequired else Ok filtered
       end.

Definition may_act_on (order : Order) (m : ActorMembership) : bool :=
  ops_member m
  || buyer_member m && String.eqb (am_OrganizationID m) (o_BuyerOrgID order)
  || provider_member m && String.eqb (am_OrganizationID m) (o_ProviderOrgID order).
Definition authorizeOrderForActor (order : Order) (actor : Actor) : result () :=
  if existsb (may_act_on order) (ac_Memberships actor) then Ok tt
  else Err ErrMembershipRequired.

Definition filterRFQsForActor (rfqs : list RFQ) (actor : Actor) : result (list RFQ) :=
  if bool_decide (ac_Memberships actor = []) then Err ErrMembershipRequired
  else match visible_orgs (ac_Memberships actor) ∅ ∅ with
       | None => Ok rfqs
       | Some (buyers, providers) =>
           let filtered := List.filter (λ rfq,
             bool_decide (rfq_BuyerOrgID rfq ∈ buyers)
             || negb (bool_decide (providers = ∅))
                && (bool_decide (rfq_Status rfq = RFQStatusOpen)
                    || bool_decide (rfq_AwardedProviderOrgID rfq ∈ providers))) rfqs in
           if bool_decide (filtered = []) && bool_decide (buyers = ∅)
              && bool_decide (providers = ∅)
           then Err ErrMembershipRequired else Ok filtered
       end.

(** The loop of [filterBidsForActor]: [None] where every bid is shown. *)
Fixpoint bidding_orgs (rfq : RFQ) (ms : list ActorMembership) (providers : gset string)
    : option (gset string) :=
  match ms with
  | [] => Some providers
  | m :: ms =>
      if ops_member m then None
      else if buyer_member m && String.eqb (am_OrganizationID m) (rfq_BuyerOrgID rfq)
      then None
      else if provider_member m
      then bidding_orgs rfq ms ({[am_OrganizationID m]} ∪ providers)
      else bidding_orgs rfq ms providers
  end.
Definition filterBidsForActor (rfq : RFQ) (bids : list Bid) (actor : Actor)
    : result (list Bid) :=
  if bool_decide (ac_Memberships actor = []) then Err ErrMembershipRequired
  else match bidding_orgs rfq (ac_Memberships actor) ∅ with
       | None => Ok bids
       | Some providers =>
           if bool_decide (providers = ∅) then Err ErrMembershipRequired
           else Ok (List.filter (λ b, bool_decide (b_ProviderOrgID b ∈ providers)) bids)
       end.

Definition actorBelongsToOrg (actor : Actor) (orgID : string) : bool :=
  existsb (λ m, String.eqb (am_OrganizationID m) orgID) (ac_Memberships actor)
  || existsb (λ m, isOpsRole (am_Role m)) (ac_Memberships actor).

(** ** Acting for an organization *)

(** The loop of [resolveBuyerOrg] and [resolveProviderOrg]: the first membership
    with the kind and a fitting role decides. *)
Fixpoint resolve_org (member : ActorMembership → bool) (mismatch required : error)
    (requested : string) (ms : list ActorMembership) : result string :=
  match ms with
  | [] => Err required
  | m :: ms =>
      if negb (member m) then resolve_org member mismatch required requested ms
      else if negb (String.eqb requested "")
              && negb (String.eqb requested (am_OrganizationID m)) then Err mismatch
      else Ok (am_OrganizationID m)
  end.

(** ** Amounts *)

(** [parseAmountToCents], through a float. *)
Definition parseAmountToCents (raw : string) : Z :=
  let raw := TrimSpace raw in
  if String.eqb raw "" then 0
  else match ParseFloat raw with
       | None => 0
       | Some parsed => f64_to_int64 (f64_mul parsed (f64_of_int 100))
       end.

Definition totalBidBudgetCents (milestones : list BidMilestone) : Z :=
  sum64 (bm_BudgetCents <$> milestones).
Definition totalMilestoneBudgetCents (milestones : list CreateMilestoneInput) : Z :=
  sum64 (cmi_BudgetCents <$> milestones).

Definition committedStatuses : list OrderStatus :=
  [OrderStatusRunning; OrderStatusAwaitingBudget; OrderStatusAwaitingPaymentRail].
Definition unsettled_cents (m : Milestone) : Z :=
  if bool_decide (ms_State m = MilestoneStateSettled) then 0
  else let unsettled := ms_BudgetCents m -w ms_SettledCents m in
       if 0 <? unsettled then unsettled else 0.
Definition buyerCommittedPrepaidCents (orders : list Order) (buyerOrgID : string) : Z :=
  foldl (λ committed o,
    if negb (String.eqb (o_BuyerOrgID o) buyerOrgID) || negb (IsPrepaidCommitted (Some o))
       || negb (bool_decide (o_Status o ∈ committedStatuses)) then committed
    else foldl (λ c m, c +w unsettled_cents m) committed (o_Milestones o)) 0 orders.

(** ** Responses *)

Definition ErrCodeBadRequest : string := "BAD_REQUEST".
Definition ErrCodeUnauthorized : string := "UNAUTHORIZED".
Definition ErrCodeForbidden : string := "FORBIDDEN".
Definition ErrCodeNotFound : string := "NOT_FOUND".
Definition ErrCodeConflict : string := "CONFLICT".
Definition ErrCodeValidation : string := "VALIDATION_ERROR".

(** [writeGatewayError]: the status and the code of an error. *)
Definition writeGatewayError (err : error) : Z * string :=
  let one_of := existsb (is_error err) in
  if one_of [ErrOrderNotFound; ErrMilestoneNotFound; ErrRFQNotFound; ErrBidNotFound;
         ErrDisputeNotFound; ErrProviderCarrierBindingNotFound;
         ErrProviderSettlementBindingNotFound]
  then (StatusNotFound, ErrCodeNotFound)
  else if one_of [ErrProviderSuspended] then (StatusForbidden, ErrCodeForbidden)
  else if one_of [ErrMissingRequiredFields; ErrInvalidScore; ErrBidIDRequired;
              ErrDeadlineRequired; ErrDeadlineInPast; ErrMilestonesRequired]
  then (StatusBadRequest, ErrCodeValidation)
  else (StatusConflict, ErrCodeConflict).

(** What the recommended next step of a callback's sender is. *)
Record RecommendedAction := mkAction { ra_Type : string; ra_Reason : string }.
Record CallbackResponse := mkCallbackResponse {
  cr_Accepted : bool;
  cr_ContinueAllowed : bool;
  cr_RecommendedAction : RecommendedAction;
}.

(** The values that are encoded in the answers. *)
Inductive GatewayBody :=
  | GError (code : string) (e : error)
  | GInvalid (fields : gmap string string)
  | GStatus (status : string)
  | GOrders (orders : list Order) (page : Pagination) (total : nat)
  | GRFQs (rfqs : list RFQ) (page : Pagination) (total : nat)
  | GBids (bids : list Bid) (page : Pagination) (total : nat)
  | GDisputes (disputes : list Dispute) (page : Pagination) (total : nat)
  | GProviders (providers : list ProviderProfile) (page : Pagination) (total : nat)
  | GListings (listings : list Listing) (page : Pagination) (total : nat)
  | GOrder (order : Order) (budgetWall : option BudgetWallInfo)
  | GRFQ (rfq : RFQ)
  | GBid (bid : Bid)
  | GAward (rfq : RFQ) (order : Order)
  | GSettled (order : Order) (entry : LedgerEntry)
  | GUsage (order : Order) (charge : UsageCharge)
  | GRefund (order : Order) (refund recovery : LedgerEntry)
  | GResolved (dispute : Dispute) (order : Order)
  | GDispute (dispute : Dispute) (evidence : list EvidencePackage)
  | GDecision (decision : CreditDecision)
  | GMessage (message : Message)
  | GMessages (messages : list Message)
  | GRating (rating : OrderRating)
  | GProvider (provider : ProviderProfile)
  | GListing (listing : Listing)
  | GWebhooks (webhooks : list (string * string))
  | GStats (stats : MarketplaceStats)
  | GBudget (budget : OrderBudgetSummary)
  | GRevenue (revenue : ProviderRevenueSummary)
  | GTimeline (timeline : list TimelineEvent)
  | GStatuses (orders : list OrderStatusBrief)
  | GLeaderboard (entries : list LeaderboardEntry)
  | GExposure (exposure : FiberExposure)
  | GNotifications
  | GApplication (application : ProviderApplication)
  | GApplications (applications : list ProviderApplication)
  | GCarrierBinding (binding : ProviderCarrierBinding)
  | GSettlementBinding (binding : ProviderSettlementBinding)
  | GPool (pool : ProviderLiquidityPool)
  | GReservation (reservation : ProviderLiquidityReservation)
  | GCreditLimit (limit : BuyerCreditLimit)
  | GStaleJobs (jobs : list StaleJob)
  | GBinding (binding : Binding) (stale : option bool)
  | GJob (job : ExecutionJob)
  | GJobs (jobs : list ExecutionJob)
  | GEvidence (evidence : EvidencePackage)
  | GCallback (response : CallbackResponse)
  | GReplay (decision : string)
  | GDemoStatus (status : demoenv_Status)
  | GDemoSummary (summary : json) (err : option error)
  | GSystem (enforcement : option bool)
  | GText (csv : string).

Abbreviation Answer := (Response GatewayBody).
Definition answer (status : Z) (body : GatewayBody) : Answer := mkResponse status body.
Definition ok (body : GatewayBody) : Answer := answer StatusOK body.
Definition created (body : GatewayBody) : Answer := answer StatusCreated body.
(** [WriteJSON(w, status, {"error": err.Error()})] *)
Definition plain (status : Z) (e : error) : Answer := answer status (GError "" e).
Definition bad_request (e : error) : Answer := plain StatusBadRequest e.
Definition internal_error (e : error) : Answer := plain StatusInternalServerError e.
Definition coded (status : Z) (code : string) (e : error) : Answer :=
  answer status (GError code e).
Definition auth_error (e : error) : Answer :=
  let '(status, e) := WriteAuthError e in plain status e.
Definition gateway_error (e : error) : Answer :=
  let '(status, code) := writeGatewayError e in coded status code e.
Definition invalid_json : error := Errf "invalid json".
Definition validation_failed (fields : gmap string string) : Answer :=
  answer StatusBadRequest (GInvalid fields).

(** ** The server *)

Record carrierAwardExecutionInput := mkExecutionInput {
  cae_RFQ : RFQ;
  cae_Order : Order;
  cae_Binding : ProviderCarrierBinding;
}.

(** What the server is built from.  [gc_settlement] is the HTTP service behind
    [gc_SettlementBaseURL]: the status it answers a request with and the records
    its body decodes to, if it does; [gc_fetch] is every other service that is asked
    over HTTP, a request's path being the whole URL; [gc_demoPrepare] is the run of
    the release tooling, its summary as it is encoded; [gc_callbackSecret] is the environment's
    [CARRIER_CALLBACK_SECRET]; a scan of the jobs reads the clock at each of them. *)
Record GatewayConfig (L : Type) := mkGatewayConfig {
  gc_auth : IAMClient;
  gc_executionTokens : TokenSet;
  gc_rateLimiter : option (Policy → Meta → Time → ST L Decision);
  gc_ClientIP : Request → string;
  gc_executor : bool;
  gc_demo : demoenv_Config;
  gc_settlement : list Request → Request → result (Z * option (list FundingRecord));
  gc_fetch : list Request → Request → result (Z * option json);
  gc_demoPrepare : nat → json * option error;
  gc_callbackSecret : string;
  gc_now : nat → Time;
  gc_scan_now : nat → string → Time;
}.
Arguments gc_auth {L}.
Arguments gc_executionTokens {L}.
Arguments gc_rateLimiter {L}.
Arguments gc_ClientIP {L}.
Arguments gc_executor {L}.
Arguments gc_demo {L}.
Arguments gc_fetch {L}.
Arguments gc_demoPrepare {L}.
Arguments gc_settlement {L}.
Arguments gc_callbackSecret {L}.
Arguments gc_now {L}.
Arguments gc_scan_now {L}.

Definition gc_SettlementBaseURL {L} (c : GatewayConfig L) : string :=
  dc_SettlementBaseURL (gc_demo c).

(** [gw_actor] is the actor kept in the context of the request being served;
    [gw_dispatched] are the executions handed to goroutines. *)
Record Gateway `{Storage} (L : Type) := mkGateway {
  gw_app : App;
  gw_carrier : CarrierService.Service;
  gw_evidence : EvidenceStore;
  gw_ledger : EventLedger;
  gw_webhooks : gmap string string;
  gw_limits : L;
  gw_actor : option Actor;
  gw_actor_calls : nat;
  gw_settlement_calls : list Request;
  gw_fetches : list Request;
  gw_prepares : nat;
  gw_dispatched : list carrierAwardExecutionInput;
  gw_ticks : nat;
}.
Arguments gw_app {_ L}.
Arguments gw_carrier {_ L}.
Arguments gw_evidence {_ L}.
Arguments gw_ledger {_ L}.
Arguments gw_webhooks {_ L}.
Arguments gw_limits {_ L}.
Arguments gw_actor {_ L}.
Arguments gw_actor_calls {_ L}.
Arguments gw_settlement_calls {_ L}.
Arguments gw_fetches {_ L}.
Arguments gw_prepares {_ L}.
Arguments gw_dispatched {_ L}.
Arguments gw_ticks {_ L}.

#[export] Instance Gateway_eta `{Storage} {L} : Eta (Gateway L) := λ g,
  mkGateway _ L (gw_app g) (gw_carrier g) (gw_evidence g) (gw_ledger g) (gw_webhooks g)
    (gw_limits g) (gw_actor g) (gw_actor_calls g) (gw_settlement_calls g)
    (gw_fetches g) (gw_prepares g) (gw_dispatched g) (gw_ticks g).

Section gateway.
Context `{Storage} {L : Type} (c : GatewayConfig L).
Abbreviation G := (ST (Gateway L)).
Abbreviation Handler := (Request → G Answer).

(** ** Reaching the components *)

Definition on_app {T} : M T → G T := zoom gw_app (λ a g, g <| gw_app := a |>).
Definition ask_app {T} : (App → result T) → G T := query gw_app.
Definition see_app {T} (f : App → T) : G T := query gw_app (λ a, Ok (f a)).
Definition on_carrier {T} : ST CarrierService.Service T → G T :=
  zoom gw_carrier (λ s g, g <| gw_carrier := s |>).
Definition ask_carrier {T} : (CarrierService.Service → result T) → G T := query gw_carrier.
Definition on_evidence {T} : ST EvidenceStore T → G T :=
  zoom gw_evidence (λ s g, g <| gw_evidence := s |>).
Definition on_ledger {T} : ST EventLedger T → G T :=
  zoom gw_ledger (λ s g, g <| gw_ledger := s |>).
Definition time_now : G Time := λ g,
  (g <| gw_ticks ::= S |>, Ok (gc_now c (gw_ticks g))).

(** ** Identity *)

Definition no_auth : bool := match gc_auth c with None => true | Some _ => false end.

Definition GetActor (token : string) : G Actor := λ g,
  match gc_auth c with
  | None => (g, Err ErrIAMNotConfigured)
  | Some iam => (g <| gw_actor_calls ::= S |>, iam (gw_actor_calls g) token)
  end.

(** The actor of the request; asked for once. *)
Definition authenticatedActor (r : Request) : G Actor :=
  if no_auth then mret (mkActor "" "" "" [])
  else
    g ← get_st;
    match gw_actor g with
    | Some cached => mret cached
    | None =>
        match bearerToken (rq_Header r "Authorization") with
        | None => throw ErrUnauthorized
        | Some token =>
            actor ← GetActor token;
            _ ← modify (λ g, g <| gw_actor := Some actor |>);
            mret actor
        end
    end.

Definition actorUserID (r : Request) : G string :=
  if no_auth then mret ""
  else
    actor ← attempt (authenticatedActor r);
    mret (match actor with Ok actor => ac_UserID actor | Err _ => "" end).

Definition token_actor (r : Request) : G Actor :=
  match bearerToken (rq_Header r "Authorization") with
  | None => throw ErrUnauthorized
  | Some token => GetActor token
  end.

Definition resolveBuyerOrg (r : Request) (requested : string) : G string :=
  if no_auth then mret requested
  else
    actor ← token_actor r;
    lift (resolve_org buyer_member (EPrefix "buyer org mismatch" ErrOrgMismatch)
            (EPrefix "buyer membership is required" ErrMembershipRequired)
            requested (ac_Memberships actor)).

Definition resolveProviderOrg (r : Request) (requested : string) : G string :=
  if no_auth then mret requested
  else
    actor ← token_actor r;
    lift (resolve_org provider_member (EPrefix "provider org mismatch" ErrOrgMismatch)
            (EPrefix "provider membership is required" ErrMembershipRequired)
            requested (ac_Memberships actor)).

Definition resolveOpsUser (r : Request) : G string :=
  if no_auth then mret ""
  else
    actor ← authenticatedActor r;
    if existsb ops_member (ac_Memberships actor) then mret (ac_UserID actor)
    else throw (EPrefix "ops membership is required" ErrMembershipRequired).

Definition authorizeExecutionMutation (r : Request) : G () :=
  if TokenSet_Empty (gc_executionTokens c) then mret tt
  else if MatchesRequest (gc_executionTokens c) r then mret tt
  else throw ErrInvalidServiceToken.

(** A participant of an RFQ: operators, the buyer, the awarded and the bidding
    providers; the kind of an organization is not looked at. *)
Definition authorizeRFQForActor (rfq : RFQ) (actor : Actor) : G () :=
  bids ← attempt (ask_app (ListBids (rfq_ID rfq)));
  let has p := existsb p (ac_Memberships actor) in
  let acts_for orgID (m : ActorMembership) :=
    String.eqb (am_OrganizationID m) orgID && isProviderRole (am_Role m) in
  if has (λ m, isOpsRole (am_Role m))
     || has (λ m, String.eqb (am_OrganizationID m) (rfq_BuyerOrgID rfq)
                  && isBuyerRole (am_Role m))
     || negb (String.eqb (rfq_AwardedProviderOrgID rfq) "")
        && has (acts_for (rfq_AwardedProviderOrgID rfq))
     || match bids with
        | Ok bids => existsb (λ b, has (acts_for (b_ProviderOrgID b))) bids
        | Err _ => false
        end
  then mret tt else throw ErrOrgMismatch.

(** ** Rate limits *)

(** The answer to a request that is not let through. *)
Definition applyRateLimit (policy : Policy) (meta : Meta) : G (option Answer) :=
  match gc_rateLimiter c with
  | None => mret None
  | Some allow =>
      now ← time_now;
      decision ← attempt (zoom gw_limits (λ l g, g <| gw_limits := l |>) (allow policy meta now));
      mret (match decision with
            | Err _ => Some (internal_error (Errf "rate limiter unavailable"))
            | Ok decision =>
                if Allowed decision then None
                else Some (plain StatusTooManyRequests (Errf "rate limit exceeded"))
            end)
  end.
Definition limited (policy : Policy) (meta : Meta) (k : G Answer) : G Answer :=
  blocked ← applyRateLimit policy meta;
  match blocked with Some response => mret response | None => k end.
Definition org_meta (r : Request) (orgID userID : string) : Meta :=
  mkMeta (gc_ClientIP c r) "" orgID userID.

(** ** The prepaid balance *)

Definition fetchSettlementFundingRecords (authHeader : string)
    (filters : list (string * string)) : G (list FundingRecord) := λ g,
  let request := mkRequest "GET" "/v1/funding-records"
    (λ h, if String.eqb h "Authorization"
          then if blank authHeader then "" else authHeader
          else if String.eqb h "Accept" then "application/json" else "")
    (λ key, match List.find (λ f, String.eqb f.1 key && negb (blank f.2)) filters with
            | Some f => [f.2] | None => [] end) None "" in
  (g <| gw_settlement_calls ::= (λ l, l ++ [request]) |>,
   '(status, records) ← gc_settlement c (gw_settlement_calls g) request;
   if StatusBadRequest <=? status then Err (Errf ("status " +:+ pretty status))
   else match records with Some records => Ok records | None => Err invalid_json end).

Definition ensureBuyerPrepaidAvailability (authHeader buyerOrgID : string)
    (requestedCents : Z) : G () :=
  if requestedCents <=? 0 then mret tt
  else if blank (gc_SettlementBaseURL c) then mret tt
  else
    records ← attempt (fetchSettlementFundingRecords authHeader
      [("buyerOrgId", buyerOrgID); ("kind", FundingRecordKindBuyerTopUp);
       ("state", "SETTLED")]);
    records ← match records with
              | Ok records => mret records
              | Err e => throw (EPrefix "load buyer prepaid balance" e)
              end;
    let creditedCents := sum64 ((λ record, parseAmountToCents (fr_Amount record)) <$> records) in
    orders ← attempt (ask_app (λ a, order_ListByFilter
      (mkOrderListFilter buyerOrgID FundingModePrepaid committedStatuses) (orders a)));
    orders ← match orders with
             | Ok orders => mret orders
             | Err e => throw (EPrefix "load buyer prepaid commitments" e)
             end;
    let availableCents := creditedCents -w buyerCommittedPrepaidCents orders buyerOrgID in
    fail_if (availableCents <? requestedCents)
      (Errf ("insufficient prepaid balance: available " +:+ pretty availableCents +:+
             ", requested " +:+ pretty requestedCents)).

Definition findBidBudgetCents (rfqID bidID : string) (a : App) : result (option Z) :=
  if blank bidID then Ok None
  else
    bids ← ListRFQBids rfqID a;
    Ok ((λ b, totalBidBudgetCents (b_Milestones b))
          <$> List.find (λ b, String.eqb (b_ID b) bidID) bids).

(** ** Execution of awards *)

(** The execution itself runs in a goroutine of its own. *)
Definition dispatchCarrierExecution (rfq : RFQ) (order : Order) : G () :=
  if negb (gc_executor c) then mret tt
  else
    binding ← attempt (on_app (GetProviderCarrierBinding (o_ProviderOrgID order)));
    match binding with
    | Ok binding =>
        if String.eqb (pcb_Status binding) "active"
        then modify (λ g, g <| gw_dispatched ::=
               (λ l, l ++ [mkExecutionInput rfq order binding]) |>)
        else mret tt
    | Err _ => mret tt
    end.
End gateway.
