(* ===== verification/GatewayOrders.v ===== *)
(** * The gateway's handlers of orders, requests and disputes
    (internal/gateway/server.go)

    Each handler is the whole method: the guards and decodings in their order,
    the authorisation, the rate limit, the call of the platform, the answer. *)

From Stdlib Require Import Ascii.
From S2P Require Import Prelude GoNum GoText GoFloat Core GoTime Milestones Market Repo App.
From S2P Require Import ProviderSettlement Providers Orders Bidding Directory RateLimit CarrierService.
From S2P Require Import CarrierEvents Http Web Gateway.

(** ** Payloads *)

(** [json.NewDecoder(r.Body).Decode(&payload)] *)
Definition decode {T} (dec : list (string * json) → option T) (r : Request) : result T :=
  match f ← body_fields (rq_Body r); dec f with
  | Some payload => Ok payload
  | None => Err invalid_json
  end.

Record MilestonePayload := mkMilestonePayload {
  mp_ID : string; mp_Title : string; mp_BasePriceCents : Z; mp_BudgetCents : Z;
}.
Definition decode_milestone (v : json) : option MilestonePayload :=
  f ← as_object v;
  i ← string_field "id" f; t ← string_field "title" f;
  p ← int_field "basePriceCents" f; b ← int_field "budgetCents" f;
  Some (mkMilestonePayload i t p b).
Definition milestones_field : string → list (string * json) → option (list MilestonePayload) :=
  decode_field [] (as_list (mkMilestonePayload "" "" 0 0) decode_milestone).

Record OrderPayload := mkOrderPayload {
  op_BuyerOrgID : string; op_ProviderOrgID : string; op_Title : string;
  op_FundingMode : string; op_CreditLineID : string; op_Milestones : list MilestonePayload;
}.
Definition decode_order (f : list (string * json)) : option OrderPayload :=
  b ← string_field "buyerOrgId" f; p ← string_field "providerOrgId" f;
  t ← string_field "title" f; m ← string_field "fundingMode" f;
  l ← string_field "creditLineId" f; ms ← milestones_field "milestones" f;
  Some (mkOrderPayload b p t m l ms).

Record RFQPayload := mkRFQPayload {
  qp_BuyerOrgID : string; qp_Title : string; qp_Category : string; qp_Scope : string;
  qp_BudgetCents : Z; qp_ResponseDeadlineAt : string;
}.
Definition decode_rfq (f : list (string * json)) : option RFQPayload :=
  b ← string_field "buyerOrgId" f; t ← string_field "title" f;
  a ← string_field "category" f; s ← string_field "scope" f;
  n ← int_field "budgetCents" f; d ← string_field "responseDeadlineAt" f;
  Some (mkRFQPayload b t a s n d).

Record BidPayload := mkBidPayload {
  bp_ProviderOrgID : string; bp_Message : string; bp_QuoteCents : Z;
  bp_ExecutionProfileID : string; bp_Milestones : list MilestonePayload;
}.
Definition decode_bid (f : list (string * json)) : option BidPayload :=
  p ← string_field "providerOrgId" f; m ← string_field "message" f;
  q ← int_field "quoteCents" f; e ← string_field "executionProfileId" f;
  ms ← milestones_field "milestones" f;
  Some (mkBidPayload p m q e ms).

Definition decode_award (f : list (string * json)) : option AwardRFQInput :=
  b ← string_field "bidId" f; m ← string_field "fundingMode" f;
  l ← string_field "creditLineId" f;
  Some (mkAwardRFQInput b m l).

Definition decode_settle (f : list (string * json)) : option (string * string) :=
  _ ← string_field "milestoneId" f; s ← string_field "summary" f;
  o ← string_field "source" f;
  Some (s, o).

Definition decode_usage (milestoneID : string) (f : list (string * json))
    : option RecordUsageChargeInput :=
  k ← string_field "kind" f; n ← int_field "amountCents" f;
  r ← string_field "proofRef" f; s ← string_field "proofSignature" f;
  t ← string_field "proofTimestamp" f;
  Some (mkRecordUsageChargeInput milestoneID k n r s t).

Definition decode_dispute (f : list (string * json)) : option OpenDisputeInput :=
  m ← string_field "milestoneId" f; r ← string_field "reason" f;
  n ← int_field "refundCents" f;
  Some (mkOpenDisputeInput m r n).

Definition decode_history (f : list (string * json)) : option CreditHistory :=
  o ← int_field "CompletedOrders" f; s ← int_field "SuccessfulPayments" f;
  p ← int_field "FailedPayments" f; d ← int_field "DisputedOrders" f;
  l ← int_field "LifetimeSpendCents" f;
  Some (mkCreditHistory o s p d l).

Definition decode_message (f : list (string * json)) : option (string * string * string) :=
  o ← string_field "orderId" f; a ← string_field "author" f; b ← string_field "body" f;
  Some (o, a, b).
Definition decode_rfq_message (f : list (string * json)) : option (string * string) :=
  a ← string_field "author" f; b ← string_field "body" f; Some (a, b).
Definition decode_rating (f : list (string * json)) : option RateOrderInput :=
  s ← int_field "score" f; m ← string_field "comment" f; Some (mkRateOrderInput s m).

Definition order_milestone_input (m : MilestonePayload) : CreateMilestoneInput :=
  mkCreateMilestoneInput (mp_ID m) (mp_Title m) (mp_BasePriceCents m) (mp_BudgetCents m).
Definition bid_milestone_input (m : MilestonePayload) : BidMilestoneInput :=
  mkBidMilestoneInput (mp_ID m) (mp_Title m) (mp_BasePriceCents m) (mp_BudgetCents m).

(** [if verr := ...Build(); verr != nil] *)
Notation "'validate' b 'in' k" :=
  (match Build b with Some fields => mret (validation_failed fields) | None => k end)
  (at level 10, b at level 199, k at level 200, format "'[v' 'validate'  b  'in'  '/' k ']'")
  : go_scope.
(** [if b { respond; return }] *)
Notation "'refuse_if' b 'with' response 'in' k" := (if b then mret response else k)
  (at level 10, b at level 199, response at level 199, k at level 200,
   format "'[v' 'refuse_if'  b  'with'  response  'in'  '/' k ']'") : go_scope.

Section handlers.
Context `{Storage} `{MO : MapOrder} {L : Type} (c : GatewayConfig L).
Abbreviation G := (ST (Gateway L)).
Abbreviation Handler := (Request → G Answer).

(** The status filter of a list. *)
Definition with_status {T} (status_of : T → string) (r : Request) (items : list T) : list T :=
  let status := rq_Query r "status" in
  if String.eqb status "" then items
  else List.filter (λ x, String.eqb (status_of x) status) items.

(** ** Orders *)

Definition visible {T} (r : Request) (filter : list T → Actor → result (list T))
    (items : list T) : G (list T) :=
  if no_auth c then mret items
  else actor ← authenticatedActor c r; lift (filter items actor).

Definition handleListOrders : Handler := λ r,
  let? os := ask_app (λ a, order_List (orders a)) orelse internal_error in
  let? os := visible r filterOrdersForActor os orelse auth_error in
  let os := with_status (λ o, order_status_string (o_Status o)) r os in
  let page := ParsePagination r in
  mret (ok (GOrders (Apply os page) page (length os))).

(** The authorisation shared by the handlers of one order. *)
Definition authorize_order (r : Request) (order : Order) : G () :=
  if no_auth c then mret tt
  else actor ← authenticatedActor c r; lift (authorizeOrderForActor order actor).

Definition handleGetOrder : Handler := λ r,
  let? orderID := lift (orderIDFromPath (rq_Path r))
    orelse coded StatusBadRequest ErrCodeBadRequest in
  let? order := ask_app (λ a, order_Get orderID (orders a))
    orelse λ e, if is_error e ErrOrderNotFound then plain StatusNotFound e
                else internal_error e in
  let? _ := authorize_order r order orelse auth_error in
  budgetWall ← attempt (ask_app (GetBudgetWallInfo (o_ID order)));
  mret (ok (GOrder order (match budgetWall with Ok w => w | Err _ => None end))).

Definition handleCreateOrder : Handler := λ r,
  let? payload := lift (decode decode_order r) orelse bad_request in
  validate Required "fundingMode" (op_FundingMode payload) New in
  refuse_if bool_decide (op_Milestones payload = [])
    with coded StatusBadRequest ErrCodeValidation (Errf "at least one milestone is required") in
  refuse_if negb (IsValidFundingMode (op_FundingMode payload))
    with coded StatusBadRequest ErrCodeValidation
           (Errf "fundingMode must be 'prepaid' or 'credit'") in
  refuse_if String.eqb (op_FundingMode payload) "credit"
            && String.eqb (op_CreditLineID payload) ""
    with coded StatusBadRequest ErrCodeValidation
           (Errf "creditLineId is required for credit funding mode") in
  let? buyerOrgID := resolveBuyerOrg c r (op_BuyerOrgID payload) orelse auth_error in
  userID ← actorUserID c r;
  limited c PolicyGatewayCreateOrder (org_meta c r buyerOrgID userID) (
  refuse_if String.eqb buyerOrgID "" || String.eqb (op_ProviderOrgID payload) ""
            || bool_decide (op_Milestones payload = [])
    with bad_request (Errf "missing required fields") in
  let input := mkCreateOrderInput buyerOrgID (op_ProviderOrgID payload) (op_Title payload)
    (op_FundingMode payload) (op_CreditLineID payload)
    (order_milestone_input <$> op_Milestones payload) in
  let? _ := (if String.eqb (coi_FundingMode input) FundingModePrepaid
             then ensureBuyerPrepaidAvailability c (rq_Header r "Authorization") buyerOrgID
                    (totalMilestoneBudgetCents (coi_Milestones input))
             else mret tt) orelse coded StatusConflict ErrCodeConflict in
  let? order := on_app (CreateOrder input)
    orelse coded StatusBadRequest ErrCodeBadRequest in
  mret (created (GOrder order None))).

(** ** Requests for quotation and bids *)

Definition handleListRFQs : Handler := λ r,
  let? rs := ask_app (λ a, rfq_List (rfqs a)) orelse internal_error in
  let? rs := visible r filterRFQsForActor rs orelse auth_error in
  let rs := with_status (λ q, rfq_status_string (rfq_Status q)) r rs in
  let page := ParsePagination r in
  mret (ok (GRFQs (Apply rs page) page (length rs))).

Definition handleGetRFQ : Handler := λ r,
  rfqID ← lift (part 3 (segments (rq_Path r)));
  let? rfq := ask_app (λ a, rfq_Get rfqID (rfqs a)) orelse gateway_error in
  mret (ok (GRFQ rfq)).

Definition handleCreateRFQ : Handler := λ r,
  let? payload := lift (decode decode_rfq r) orelse bad_request in
  validate Required "responseDeadlineAt" (qp_ResponseDeadlineAt payload)
    (Positive "budgetCents" (qp_BudgetCents payload)
    (Required "scope" (qp_Scope payload)
    (Required "category" (qp_Category payload)
    (Required "title" (qp_Title payload) New)))) in
  let? buyerOrgID := resolveBuyerOrg c r (qp_BuyerOrgID payload) orelse auth_error in
  userID ← actorUserID c r;
  limited c PolicyGatewayCreateRFQ (org_meta c r buyerOrgID userID)
  match ParseRFC3339 (qp_ResponseDeadlineAt payload) with
  | None => mret (bad_request (Errf "invalid responseDeadlineAt"))
  | Some responseDeadlineAt =>
      let? rfq := on_app (CreateRFQ (mkCreateRFQInput buyerOrgID (qp_Title payload)
          (qp_Category payload) (qp_Scope payload) (qp_BudgetCents payload) []
          responseDeadlineAt)) orelse bad_request in
      mret (created (GRFQ rfq))
  end.

Definition handleListRFQBids : Handler := λ r,
  let? rfqID := lift (rfqIDFromBidsPath (rq_Path r)) orelse bad_request in
  let? bs := ask_app (ListRFQBids rfqID) orelse gateway_error in
  let respond bs :=
    let page := ParsePagination r in
    mret (ok (GBids (Apply bs page) page (length bs))) in
  if no_auth c then respond bs
  else
    let? actor := authenticatedActor c r orelse auth_error in
    let? rfq := ask_app (λ a, rfq_Get rfqID (rfqs a)) orelse gateway_error in
    let? bs := lift (filterBidsForActor rfq bs actor) orelse auth_error in
    respond bs.

Definition handleCreateBid : Handler := λ r,
  let? rfqID := lift (rfqIDFromBidsPath (rq_Path r)) orelse bad_request in
  let? payload := lift (decode decode_bid r) orelse bad_request in
  validate Positive "quoteCents" (bp_QuoteCents payload)
    (Required "message" (bp_Message payload) New) in
  let? providerOrgID := resolveProviderOrg c r (bp_ProviderOrgID payload) orelse auth_error in
  userID ← actorUserID c r;
  limited c PolicyGatewayCreateBid (org_meta c r providerOrgID userID) (
  let input := mkCreateBidInput providerOrgID (bp_Message payload) (bp_QuoteCents payload)
    (bid_milestone_input <$> bp_Milestones payload) (bp_ExecutionProfileID payload) in
  let? bid := on_app (CreateBid rfqID input) orelse gateway_error in
  mret (created (GBid bid))).

Definition handleAwardRFQ : Handler := λ r,
  let? rfqID := lift (rfqIDFromAwardPath (rq_Path r)) orelse bad_request in
  let? payload := lift (decode decode_award r) orelse bad_request in
  refuse_if String.eqb (ari_FundingMode payload) "credit"
            && String.eqb (ari_CreditLineID payload) ""
    with coded StatusBadRequest ErrCodeValidation
           (Errf "creditLineId is required for credit funding mode") in
  let? rfq := ask_app (λ a, rfq_Get rfqID (rfqs a)) orelse gateway_error in
  let? buyerOrgID := resolveBuyerOrg c r (rfq_BuyerOrgID rfq) orelse auth_error in
  refuse_if negb (String.eqb buyerOrgID (rfq_BuyerOrgID rfq))
    with plain StatusForbidden (Errf "buyer org mismatch") in
  userID ← actorUserID c r;
  limited c PolicyGatewayAwardRFQ (org_meta c r buyerOrgID userID) (
  let proceed : G Answer :=
    let? awarded := on_app (AwardRFQ rfqID payload) orelse gateway_error in
    _ ← dispatchCarrierExecution c awarded.1 awarded.2;
    mret (ok (GAward awarded.1 awarded.2)) in
  if negb (String.eqb (ari_FundingMode payload) FundingModePrepaid) then proceed
  else
    let? budget := ask_app (findBidBudgetCents rfqID (ari_BidID payload)) orelse gateway_error in
    match budget with
    | None => mret (coded StatusBadRequest ErrCodeBadRequest
                      (Errf "bid not found for prepaid balance check"))
    | Some bidBudgetCents =>
        let? _ := ensureBuyerPrepaidAvailability c (rq_Header r "Authorization") buyerOrgID
            bidBudgetCents orelse coded StatusConflict ErrCodeConflict in
        proceed
    end).

(** ** Milestones *)

Definition handleSettleMilestone : Handler := λ r,
  let? _ := authorizeExecutionMutation c r orelse auth_error in
  let? ids := lift (orderMilestoneFromSettlePath (rq_Path r)) orelse bad_request in
  let? payload := lift (decode decode_settle r) orelse bad_request in
  now ← time_now c;
  let? settled := on_app (SettleMilestone ids.1
      (mkSettleMilestoneInput ids.2 payload.1 payload.2 now)) orelse gateway_error in
  mret (ok (GSettled settled.1 settled.2)).

Definition handleRecordUsage : Handler := λ r,
  let? _ := authorizeExecutionMutation c r orelse auth_error in
  let? ids := lift (orderMilestoneFromUsagePath (rq_Path r)) orelse bad_request in
  let? input := lift (decode (decode_usage ids.2) r) orelse bad_request in
  let? charged := on_app (RecordUsageCharge ids.1 input) orelse gateway_error in
  mret (ok (GUsage charged.1 charged.2)).

Definition handleTopUpMilestone : Handler := λ r,
  orderID ← lift (part 3 (segments (rq_Path r)));
  let? input := lift (decode (λ f,
      m ← string_field "milestoneId" f; n ← int_field "additionalCents" f;
      Some (mkTopUpInput m n)) r) orelse bad_request in
  let? order := on_app (TopUpMilestone orderID input) orelse gateway_error in
  mret (ok (GOrder order None)).

(** ** Disputes *)

Definition handleListDisputes : Handler := λ r,
  let? _ := resolveOpsUser c r orelse auth_error in
  let? ds := ask_app (λ a, dispute_List (disputes a)) orelse internal_error in
  let ds := with_status (λ d, dispute_status_string (d_Status d)) r ds in
  let page := ParsePagination r in
  mret (ok (GDisputes (Apply ds page) page (length ds))).

(** The evidence of the jobs of the disputed milestone. *)
Definition milestone_evidence (order : Order) (milestoneID : string) (g : Gateway L)
    : list EvidencePackage :=
  List.filter (λ m, String.eqb (ms_ID m) milestoneID) (o_Milestones order) ≫= λ m,
    match GetBinding (o_ID order) (ms_ID m) (gw_carrier g) with
    | Ok binding =>
        match ListJobs (cb_ID binding) (gw_carrier g) with
        | Ok jobs => omap (λ job, match GetEvidence (ej_ID job) (gw_evidence g) with
                                  | Ok evidence => Some evidence | Err _ => None end) jobs
        | Err _ => []
        end
    | Err _ => []
    end.

Definition handleGetDispute : Handler := λ r,
  disputeID ← lift (part 3 (segments (rq_Path r)));
  let? dispute := ask_app (λ a, dispute_Get disputeID (disputes a)) orelse gateway_error in
  g ← get_st;
  let evidence := match order_Get (d_OrderID dispute) (orders (gw_app g)) with
                  | Ok order => milestone_evidence order (d_MilestoneID dispute) g
                  | Err _ => []
                  end in
  mret (ok (GDispute dispute evidence)).

Definition handleCreateDispute : Handler := λ r,
  let? orderID := lift (orderIDFromDisputePath (rq_Path r)) orelse bad_request in
  let? input := lift (decode decode_dispute r) orelse bad_request in
  validate Positive "refundCents" (odi_RefundCents input)
    (Required "reason" (odi_Reason input)
    (Required "milestoneId" (odi_MilestoneID input) New)) in
  let proceed : G Answer :=
    let? opened := on_app (OpenDispute orderID input) orelse gateway_error in
    let '(order, refund, recovery) := opened in
    mret (created (GRefund order refund recovery)) in
  if no_auth c then proceed
  else
    let? order := ask_app (λ a, order_Get orderID (orders a)) orelse gateway_error in
    let? buyerOrgID := resolveBuyerOrg c r (o_BuyerOrgID order) orelse auth_error in
    refuse_if negb (String.eqb buyerOrgID (o_BuyerOrgID order))
      with plain StatusForbidden (Errf "buyer org mismatch") in
    userID ← actorUserID c r;
    limited c PolicyGatewayCreateDisp (mkMeta "" "" (o_BuyerOrgID order) userID) proceed.

Definition handleResolveDispute : Handler := λ r,
  let? disputeID := lift (disputeIDFromResolvePath (rq_Path r)) orelse bad_request in
  let? resolution := lift (decode (string_field "resolution") r) orelse bad_request in
  refuse_if blank resolution with bad_request (Errf "resolution is required") in
  let? resolvedBy := resolveOpsUser c r orelse auth_error in
  limited c PolicyGatewayResolveDisp (mkMeta "" "" "ops" resolvedBy) (
  let? resolved := on_app (ResolveDispute disputeID
      (mkResolveDisputeInput resolution resolvedBy)) orelse gateway_error in
  mret (ok (GResolved resolved.1 resolved.2))).

Definition handleCreditDecision : Handler := λ r,
  let? _ := resolveOpsUser c r orelse auth_error in
  userID ← actorUserID c r;
  limited c PolicyGatewayCreditDec (mkMeta "" "" "ops" userID) (
  let? history := lift (decode decode_history r) orelse bad_request in
  decision ← see_app (DecideCredit history);
  mret (ok (GDecision decision))).

(** ** Messages and ratings *)

(** The organization a message about an order is counted for. *)
Definition message_org (order : Order) (actor : Actor) : string :=
  if existsb (λ m, String.eqb (am_OrganizationID m) (o_ProviderOrgID order))
       (ac_Memberships actor)
  then o_ProviderOrgID order else o_BuyerOrgID order.

Definition handleCreateMessage : Handler := λ r,
  let? payload := lift (decode decode_message r) orelse bad_request in
  let '(orderID, author, body) := payload in
  let required := Required "body" body (Required "orderId" orderID New) in
  validate (if no_auth c then Required "author" author required else required) in
  let proceed author : G Answer :=
    let? message := on_app (CreateMessage orderID author body) orelse internal_error in
    mret (created (GMessage message)) in
  if no_auth c then proceed author
  else
    let? actor := authenticatedActor c r orelse auth_error in
    let? order := ask_app (λ a, order_Get orderID (orders a)) orelse gateway_error in
    let? _ := lift (authorizeOrderForActor order actor) orelse auth_error in
    limited c PolicyGatewayCreateMsg
      (mkMeta "" "" (message_org order actor) (ac_UserID actor))
      (proceed (ac_UserID actor)).

(** The order of a path, once the actor may act on it. *)
Definition with_order (r : Request) (orderID : string) (k : G Answer) : G Answer :=
  if no_auth c then k
  else
    let? actor := authenticatedActor c r orelse auth_error in
    let? order := ask_app (λ a, order_Get orderID (orders a)) orelse gateway_error in
    let? _ := lift (authorizeOrderForActor order actor) orelse auth_error in
    k.

Definition handleListOrderMessages : Handler := λ r,
  let parts := segments (rq_Path r) in
  refuse_if (length parts <? 4)%nat with bad_request (Errf "invalid path") in
  orderID ← lift (part 3 parts);
  with_order r orderID (
    let? messages := on_app (ListOrderMessages orderID) orelse gateway_error in
    mret (ok (GMessages messages))).

(** The RFQ of a path: [rfqIDFromMessagesPath] with its error dropped. *)
Definition with_rfq (r : Request) (k : Actor → G Answer) (open : G Answer) : G Answer :=
  if no_auth c then open
  else
    let? actor := authenticatedActor c r orelse auth_error in
    let rfqID := match rfqIDFromMessagesPath (rq_Path r) with Ok id => id | Err _ => "" end in
    let? rfq := ask_app (λ a, rfq_Get rfqID (rfqs a)) orelse gateway_error in
    let? _ := authorizeRFQForActor rfq actor orelse auth_error in
    k actor.

Definition handleListRFQMessages : Handler := λ r,
  let proceed : G Answer :=
    let? rfqID := lift (rfqIDFromMessagesPath (rq_Path r)) orelse bad_request in
    let? messages := on_app (ListRFQMessages rfqID) orelse gateway_error in
    mret (ok (GMessages messages)) in
  with_rfq r (λ _, proceed) proceed.

Definition handleCreateRFQMessage : Handler := λ r,
  let proceed (actorID : string) : G Answer :=
    let? rfqID := lift (rfqIDFromMessagesPath (rq_Path r)) orelse bad_request in
    let? payload := lift (decode decode_rfq_message r) orelse bad_request in
    let author := if String.eqb actorID "" then payload.1 else actorID in
    validate Required "author" author (Required "body" payload.2 New) in
    let? message := on_app (CreateRFQMessage rfqID author payload.2) orelse gateway_error in
    mret (created (GMessage message)) in
  with_rfq r (λ actor, proceed (ac_UserID actor)) (proceed "").

Definition handleRateOrder : Handler := λ r,
  let? orderID := lift (orderIDFromRatingPath (rq_Path r)) orelse bad_request in
  with_order r orderID (
    let? input := lift (decode decode_rating r) orelse bad_request in
    validate Range "score" (roi_Score input) 1 5 New in
    let? rating := on_app (RateOrder orderID input) orelse gateway_error in
    mret (created (GRating rating))).

Definition handleGetOrderRating : Handler := λ r,
  let? orderID := lift (orderIDFromRatingPath (rq_Path r)) orelse bad_request in
  let? rating := ask_app (GetOrderRating orderID) orelse gateway_error in
  mret (ok (GRating rating)).
End handlers.
