(* ===== verification/Export.v ===== *)
(** * Reports as CSV (internal/platform/export.go)

    The writer of encoding/csv and the four exports of the platform.  The theorem
    is that no cell can break out of its place: reading a file by the rules of
    RFC 4180 gives back the rows it was made of, whatever titles, reasons and
    names hold. *)

From Stdlib Require Import Ascii.
From S2P Require Import Prelude GoNum GoText Core GoTime Milestones Market Repo App.

(** ** The writer *)

Definition dquote : ascii := ascii_of_nat 34.
Definition comma : ascii := ",".
Definition newline : ascii := ascii_of_nat 10.
Definition return_ : ascii := ascii_of_nat 13.

Definition csv_special (a : ascii) : bool :=
  Ascii.eqb a newline || Ascii.eqb a return_ || Ascii.eqb a dquote || Ascii.eqb a comma.

Definition starts_with_space (s : string) : bool := existsb (HasPrefix s) space_encodings.

Definition fieldNeedsQuotes (field : string) : bool :=
  if String.eqb field "" then false
  else String.eqb field "\." || negb (all_bytes (λ a, negb (csv_special a)) field)
       || starts_with_space field.

Fixpoint double_quotes (s : string) : string :=
  match s with
  | EmptyString => ""
  | String a s' =>
      if Ascii.eqb a dquote then String dquote (String dquote (double_quotes s'))
      else String a (double_quotes s')
  end.

Definition write_field (field : string) : string :=
  if fieldNeedsQuotes field
  then String dquote (double_quotes field +:+ String dquote "") else field.
Definition write_row (row : list string) : string :=
  Join (String comma "") (write_field <$> row) +:+ String newline "".
Definition toCSV (rows : list (list string)) : string :=
  foldr (λ row s, write_row row +:+ s) "" rows.

(** ** The exports *)

Definition order_row (o : Order) : list string :=
  [o_ID o; o_BuyerOrgID o; o_ProviderOrgID o; order_status_string (o_Status o);
   o_FundingMode o; pretty (Z.of_nat (length (o_Milestones o)));
   pretty (sum64 (ms_BudgetCents <$> o_Milestones o));
   pretty (sum64 (ms_SettledCents <$> o_Milestones o))].
Definition dispute_row (d : Dispute) : list string :=
  [d_ID d; d_OrderID d; d_MilestoneID d; dispute_status_string (d_Status d); d_Reason d;
   pretty (d_RefundCents d); FormatDate (d_CreatedAt d)].
Definition rfq_row (r : RFQ) : list string :=
  [rfq_ID r; rfq_BuyerOrgID r; rfq_Title r; rfq_Category r; pretty (rfq_BudgetCents r);
   rfq_status_string (rfq_Status r); FormatDate (rfq_CreatedAt r)].
Definition application_row (p : ProviderApplication) : list string :=
  [pa_ID p; pa_OrgID p; pa_Name p; vetting_string (pa_Status p); pa_ReviewedBy p;
   FormatDate (pa_SubmittedAt p)].

Section exports.
Context `{Storage}.

Definition ExportOrdersCSV (a : App) : result string :=
  os ← order_List (orders a);
  Ok (toCSV (["OrderID"; "BuyerOrgID"; "ProviderOrgID"; "Status"; "FundingMode"; "Milestones";
              "TotalBudgetCents"; "TotalSettledCents"] :: (order_row <$> os))).
Definition ExportDisputesCSV (a : App) : result string :=
  ds ← dispute_List (disputes a);
  Ok (toCSV (["DisputeID"; "OrderID"; "MilestoneID"; "Status"; "Reason"; "RefundCents";
              "CreatedAt"] :: (dispute_row <$> ds))).
Definition ExportRFQsCSV (a : App) : result string :=
  rs ← rfq_List (rfqs a);
  Ok (toCSV (["RFQID"; "BuyerOrgID"; "Title"; "Category"; "BudgetCents"; "Status";
              "CreatedAt"] :: (rfq_row <$> rs))).
Definition ExportProviderApplicationsCSV (a : App) : string :=
  toCSV (["ApplicationID"; "OrgID"; "Name"; "Status"; "ReviewedBy"; "SubmittedAt"]
         :: (application_row <$> providerApplications a)).
End exports.

(** ** A reader *)

Inductive reading := AtStart | InPlain | InQuotes | AfterQuote.

(** RFC 4180: rows end with a newline, a field that starts with a quote runs to
    the next quote that is not doubled. *)
Fixpoint read_csv (st : reading) (field : string) (row : list string) (s : string)
    : option (list (list string)) :=
  match s with
  | EmptyString =>
      match st, row with AtStart, [] => Some [] | _, _ => None end
  | String a s' =>
      let next_field := read_csv AtStart "" (row ++ [field]) s' in
      let next_row := cons (row ++ [field]) <$> read_csv AtStart "" [] s' in
      let add st b := read_csv st (field +:+ String b "") row s' in
      match st with
      | AtStart =>
          if Ascii.eqb a dquote then read_csv InQuotes "" row s'
          else if Ascii.eqb a comma then next_field
          else if Ascii.eqb a newline then next_row else add InPlain a
      | InPlain =>
          if Ascii.eqb a dquote then None
          else if Ascii.eqb a comma then next_field
          else if Ascii.eqb a newline then next_row else add InPlain a
      | InQuotes => if Ascii.eqb a dquote then read_csv AfterQuote field row s' else add InQuotes a
      | AfterQuote =>
          if Ascii.eqb a dquote then add InQuotes dquote
          else if Ascii.eqb a comma then next_field
          else if Ascii.eqb a newline then next_row else None
      end
  end.
Definition parseCSV (s : string) : option (list (list string)) := read_csv AtStart "" [] s.

(** ** Properties *)

Lemma app_snoc s a t : (s +:+ String a "") +:+ t = s +:+ String a t.
Proof. induction s as [|b s IH]; [done|]. by rewrite !app_cons, IH. Qed.

Definition terminator (a : ascii) : bool := Ascii.eqb a comma || Ascii.eqb a newline.

(** Where a field stands when its terminator comes. *)
Lemma read_plain s field row a rest :
  all_bytes (λ a, negb (csv_special a)) s = true → terminator a = true →
  read_csv InPlain field row (s +:+ String a rest)
  = read_csv AfterQuote (field +:+ s) row (String a rest).
Proof.
  intros Hs Ha. revert field. induction s as [|b s IH]; intros field.
  - rewrite app_empty_r. change ("" +:+ String a rest) with (String a rest). cbn [read_csv].
    unfold terminator in Ha. destruct (Ascii.eqb_spec a dquote) as [->|]; [done|].
    destruct (Ascii.eqb a comma); [done|]. by destruct (Ascii.eqb a newline).
  - cbn [all_bytes] in Hs. apply andb_true_iff in Hs as [Hb Hs].
    unfold csv_special in Hb. rewrite app_cons. cbn [read_csv].
    destruct (Ascii.eqb b newline); [done|]. destruct (Ascii.eqb b return_); [done|].
    destruct (Ascii.eqb b dquote); [done|]. destruct (Ascii.eqb b comma); [done|].
    rewrite IH by done. by rewrite app_snoc.
Qed.

Lemma read_quoted s field row rest :
  read_csv InQuotes field row (double_quotes s +:+ String dquote rest)
  = read_csv AfterQuote (field +:+ s) row rest.
Proof.
  revert field. induction s as [|b s IH]; intros field.
  - rewrite app_empty_r. change (double_quotes "" +:+ String dquote rest) with (String dquote rest).
    cbn [read_csv]. by rewrite Ascii.eqb_refl.
  - cbn [double_quotes]. destruct (Ascii.eqb_spec b dquote) as [->|Hb].
    + rewrite !app_cons. cbn [read_csv]. rewrite !Ascii.eqb_refl, IH. by rewrite app_snoc.
    + rewrite app_cons. cbn [read_csv]. rewrite (proj2 (Ascii.eqb_neq _ _) Hb), IH.
      by rewrite app_snoc.
Qed.

Lemma read_field s row a rest : terminator a = true →
  read_csv AtStart "" row (write_field s +:+ String a rest)
  = read_csv AfterQuote s row (String a rest).
Proof.
  intros Ha. unfold write_field, fieldNeedsQuotes.
  destruct (String.eqb_spec s "") as [->|Hne].
  { change ("" +:+ String a rest) with (String a rest). cbn [read_csv].
    unfold terminator in Ha. destruct (Ascii.eqb_spec a dquote) as [->|]; [done|].
    destruct (Ascii.eqb a comma); [done|]. by destruct (Ascii.eqb a newline). }
  destruct (_ || starts_with_space s) eqn:Hq.
  - rewrite app_cons. cbn [read_csv]. rewrite Ascii.eqb_refl, app_snoc.
    by rewrite read_quoted.
  - apply orb_false_iff in Hq as [[_ Hq%negb_false_iff]%orb_false_iff _].
    destruct s as [|b s]; [done|]. pose proof Hq as Hs.
    cbn [all_bytes] in Hs. apply andb_true_iff in Hs as [Hb Hs].
    unfold csv_special in Hb. rewrite app_cons. cbn [read_csv].
    destruct (Ascii.eqb b newline); [done|]. destruct (Ascii.eqb b return_); [done|].
    destruct (Ascii.eqb b dquote); [done|]. destruct (Ascii.eqb b comma); [done|].
    by rewrite read_plain.
Qed.

Lemma read_row fields row rest : fields ≠ [] →
  read_csv AtStart "" row (Join (String comma "") (write_field <$> fields) +:+ String newline rest)
  = cons (row ++ fields) <$> read_csv AtStart "" [] rest.
Proof.
  intros Hne. revert row. induction fields as [|f fields IH]; intros row; [done|].
  destruct fields as [|g fields].
  - cbn [fmap list_fmap Join]. rewrite read_field by done. done.
  - change (Join (String comma "") (write_field <$> f :: g :: fields))
      with (write_field f +:+ String comma "" +:+ Join (String comma "") (write_field <$> g :: fields)).
    assert (Ha : ∀ s t u, (s +:+ String comma "" +:+ t) +:+ u = s +:+ String comma (t +:+ u)).
    { intros s t u. induction s as [|b s IHs]; [done|]. rewrite !(app_cons b). by rewrite IHs. }
    rewrite Ha, read_field by done. cbn [read_csv].
    change (Ascii.eqb comma dquote) with false. change (Ascii.eqb comma comma) with true.
    cbn iota. rewrite IH by done. by rewrite <- app_assoc.
Qed.

(** C39. A file reads back as the rows it was written from, whatever bytes the
    cells hold: quotes, commas and line breaks in a title or a reason stay in
    their cell. *)
Theorem csv_roundtrip (rows : list (list string)) :
  Forall (λ row, row ≠ []) rows → parseCSV (toCSV rows) = Some rows.
Proof.
  unfold parseCSV. induction 1 as [|row rows Hr Hrs IH]; [done|].
  unfold toCSV in *. cbn [foldr]. unfold write_row at 1. rewrite app_snoc.
  by rewrite read_row, IH.
Qed.

Lemma csv_roundtrip_witness :
  let rows := [["DisputeID"; "Reason"];
               ["disp_1"; "late, " +:+ String dquote "very" +:+ String newline "=1+1"]; [""]] in
  String.length (toCSV rows) = 45%nat ∧ parseCSV (toCSV rows) = Some rows.
Proof.
  split; [vm_compute; reflexivity|]. apply csv_roundtrip. repeat constructor; discriminate.
Defined.
