(* ===== verification/GatewayDirectory.v ===== *)
(** * The gateway's handlers of providers, reports and carrier jobs
    (internal/gateway/server.go, carrier_routes.go)

    Search and listings, applications, carrier and settlement bindings, credit
    limits, webhooks, reports, and the routes by which an execution reports on
    its jobs. *)

From Stdlib Require Import Ascii.
From S2P Require Import Prelude GoNum GoText GoFloat Core GoTime Milestones Market Repo App.
From S2P Require Import ProviderSettlement Providers Orders Bidding Directory RateLimit CarrierService.
From S2P Require Import CarrierEvents Http Web Gateway GatewayOrders Export.

(** ** Payloads *)

(** Timestamps in JSON. *)
Definition as_time (v : json) : option Time := s ← as_string v; ParseJSONTime s.
Definition time_field : string → list (string * json) → option Time := decode_field 0 as_time.
Definition time_pointer : string → list (string * json) → option (option Time) :=
  decode_field None (λ v, Some <$> as_time v).

Definition decode_carrier_binding (f : list (string * json)) : option ProviderCarrierBinding :=
  i ← string_field "id" f; p ← string_field "providerOrgId" f;
  u ← string_field "carrierBaseUrl" f; t ← string_field "integrationToken" f;
  h ← string_field "hostId" f; a ← string_field "agentId" f; b ← string_field "backend" f;
  w ← string_field "workspaceRoot" f; s ← string_field "callbackSecret" f;
  k ← string_field "callbackKeyId" f; st ← string_field "status" f;
  ca ← time_field "createdAt" f; va ← time_pointer "verifiedAt" f;
  Some (mkProviderCarrierBinding i p u t h a b w s k st ca va).

Definition decode_script (f : list (string * json)) : option UDTTypeScript :=
  c ← string_field "codeHash" f; h ← string_field "hashType" f; a ← string_field "args" f;
  Some (mkUDTTypeScript c h a).

Definition decode_settlement_binding (f : list (string * json))
    : option ProviderSettlementBinding :=
  i ← string_field "id" f; p ← string_field "providerOrgId" f; a ← string_field "asset" f;
  e ← string_field "peerId" f; d ← string_field "p2pAddress" f;
  n ← string_field "nodeRpcUrl" f; u ← string_field "paymentRequestBaseUrl" f;
  s ← object_field "udtTypeScript" f; s ← decode_script s;
  o ← string_field "ownershipProof" f; st ← string_field "status" f;
  ca ← time_field "createdAt" f; va ← time_pointer "verifiedAt" f;
  la ← time_pointer "lastIncidentAt" f;
  Some (mkProviderSettlementBinding i p a e d n u s o st ca va la).

Definition decode_listing (f : list (string * json)) : option CreateListingInput :=
  p ← string_field "providerOrgId" f; t ← string_field "title" f;
  a ← string_field "category" f; n ← int_field "basePriceCents" f;
  g ← strings_field "tags" f; e ← string_field "executionProfileId" f;
  Some (mkCreateListingInput p t a n g e).

Definition decode_application (f : list (string * json))
    : option (string * string * list string) :=
  o ← string_field "orgId" f; n ← string_field "name" f;
  k ← strings_field "capabilities" f;
  Some (o, n, k).
Definition decode_review (f : list (string * json)) : option (string * string * bool) :=
  r ← string_field "reviewedBy" f; n ← string_field "note" f; a ← bool_field "approve" f;
  Some (r, n, a).
Definition decode_limit (f : list (string * json)) : option (string * Z * string) :=
  b ← string_field "buyerOrgId" f; n ← int_field "limitCents" f; s ← string_field "setBy" f;
  Some (b, n, s).
Definition decode_webhook (f : list (string * json)) : option (string * string) :=
  t ← string_field "target" f; u ← string_field "url" f; Some (t, u).

Definition decode_artifact (v : json) : option Artifact :=
  f ← as_object v;
  n ← string_field "name" f; t ← string_field "type" f; u ← string_field "url" f;
  s ← int_field "sizeBytes" f;
  Some (mkArtifact n t u s).
Definition decode_usage_report (v : json) : option UsageReport :=
  f ← as_object v;
  t ← int_field "tokenCount" f; s ← int_field "stepCount" f;
  a ← int_field "apiCallCount" f; n ← int_field "totalCostCents" f;
  Some (mkUsageReport t s a n).
Definition artifacts_field : string → list (string * json) → option (list Artifact) :=
  decode_field [] (as_list (mkArtifact "" "" "" 0) decode_artifact).
Definition decode_evidence (f : list (string * json))
    : option (string * list Artifact * option UsageReport) :=
  s ← string_field "summary" f; a ← artifacts_field "artifacts" f;
  u ← decode_field None (λ v, Some <$> decode_usage_report v) "usageReport" f;
  Some (s, a, u).

(** ** What is shown of a binding *)

Definition sanitizeCarrierBindingForPublic (b : ProviderCarrierBinding)
    : ProviderCarrierBinding :=
  b <| pcb_IntegrationToken := "" |> <| pcb_CallbackSecret := "" |>.
Definition sanitizeProviderSettlementBindingForPublic (b : ProviderSettlementBinding)
    : ProviderSettlementBinding :=
  b <| psb_OwnershipProof := "" |>.

(** The comparisons of the three orders of listings. *)
Definition listing_order (sortBy : string) : option (Listing → Listing → Z) :=
  if String.eqb sortBy "price_asc" then
    Some (λ a b, l_BasePriceCents a -w l_BasePriceCents b)
  else if String.eqb sortBy "price_desc" then
    Some (λ a b, l_BasePriceCents b -w l_BasePriceCents a)
  else if String.eqb sortBy "title" then
    Some (λ a b, if String.ltb (l_Title a) (l_Title b) then -1
                 else if String.ltb (l_Title b) (l_Title a) then 1 else 0)
  else None.

Section handlers.
Context `{Storage} `{MO : MapOrder} {L : Type} (c : GatewayConfig L).
(** [slices.SortFunc] leaves the order of equal elements open. *)
Context (SortFunc : (Listing → Listing → Z) → list Listing → list Listing).
Abbreviation G := (ST (Gateway L)).
Abbreviation Handler := (Request → G Answer).

(** ** Providers and listings *)

(** [if v := q.Get(key); v != "" { if parsed, err := parse(v); err == nil {...} }] *)
Definition parsed_query {T} (parse : string → option T) (zero : T) (r : Request)
    (key : string) : T :=
  let v := rq_Query r key in
  if String.eqb v "" then zero else default zero (parse v).
Definition parse_int (s : string) : option Z :=
  match ParseInt s with (v, None) => Some v | _ => None end.

Definition handleListProviders : Handler := λ r,
  let input := mkSearchProvidersInput (rq_Query r "capability") (rq_Query r "tier")
    (parsed_query ParseFloat (f64_of_int 0) r "minRating") in
  let? ps := ask_app (SearchProviders input) orelse internal_error in
  let page := ParsePagination r in
  mret (ok (GProviders (Apply ps page) page (length ps))).

Definition handleGetProvider : Handler := λ r,
  providerID ← lift (part 3 (segments (rq_Path r)));
  let? provider := ask_app (GetProvider providerID) orelse gateway_error in
  mret (ok (GProvider provider)).

Definition handleListListings : Handler := λ r,
  let input := mkListListingsInput (rq_Query r "q") (rq_Query r "category") (rq_Values r "tag")
    (rq_Query r "providerOrgId") (parsed_query parse_int 0 r "minPrice")
    (parsed_query parse_int 0 r "maxPrice") in
  let? ls := ask_app (SearchListings input) orelse internal_error in
  let ls := match listing_order (rq_Query r "sort") with
            | Some cmp => SortFunc cmp ls | None => ls end in
  let page := ParsePagination r in
  mret (ok (GListings (Apply ls page) page (length ls))).

Definition handleGetListing : Handler := λ r,
  listingID ← lift (part 3 (segments (rq_Path r)));
  let? listing := ask_app (λ a, listing_Get listingID (listings a)) orelse gateway_error in
  mret (ok (GListing listing)).

Definition handleCreateListing : Handler := λ r,
  let? input := lift (decode decode_listing r) orelse bad_request in
  let? listing := on_app (CreateListing input) orelse gateway_error in
  mret (created (GListing listing)).

(** ** Applications *)

Definition handleSubmitApplication : Handler := λ r,
  let? payload := lift (decode decode_application r) orelse bad_request in
  let '(orgID, name, capabilities) := payload in
  let? app := on_app (SubmitProviderApplication orgID name capabilities) orelse gateway_error in
  mret (created (GApplication app)).

Definition handleListApplications : Handler := λ r,
  apps ← see_app (ListProviderApplications (rq_Query r "status"));
  mret (ok (GApplications apps)).

Definition handleReviewApplication : Handler := λ r,
  appID ← lift (part 3 (segments (rq_Path r)));
  let? payload := lift (decode decode_review r) orelse bad_request in
  let '(reviewedBy, note, approve) := payload in
  let? app := on_app (ReviewProviderApplication appID reviewedBy note approve)
    orelse gateway_error in
  mret (ok (GApplication app)).

(** ** Carrier bindings *)

Definition show_carrier (status : Z) (m : M ProviderCarrierBinding) : G Answer :=
  let? binding := on_app m orelse gateway_error in
  mret (answer status (GCarrierBinding (sanitizeCarrierBindingForPublic binding))).

Definition handleRegisterCarrierBinding : Handler := λ r,
  let? input := lift (decode decode_carrier_binding r) orelse bad_request in
  show_carrier StatusCreated (RegisterCarrierBinding input).
Definition handleGetCarrierBinding : Handler := λ r,
  providerOrgID ← lift (part 3 (segments (rq_Path r)));
  show_carrier StatusOK (GetProviderCarrierBinding providerOrgID).
Definition handleVerifyCarrierBinding : Handler := λ r,
  bindingID ← lift (part 3 (segments (rq_Path r)));
  show_carrier StatusOK (VerifyCarrierBinding bindingID).
Definition handleSuspendCarrierBinding : Handler := λ r,
  bindingID ← lift (part 3 (segments (rq_Path r)));
  show_carrier StatusOK (SuspendCarrierBinding bindingID).

(** ** Settlement bindings *)

Definition show_settlement (status : Z) (m : M ProviderSettlementBinding) : G Answer :=
  let? binding := on_app m orelse gateway_error in
  mret (answer status
          (GSettlementBinding (sanitizeProviderSettlementBindingForPublic binding))).

Definition handleRegisterProviderSettlementBinding : Handler := λ r,
  let? input := lift (decode decode_settlement_binding r) orelse bad_request in
  show_settlement StatusCreated (RegisterProviderSettlementBinding input).
Definition handleGetProviderSettlementBinding : Handler := λ r,
  providerOrgID ← lift (part 3 (segments (rq_Path r)));
  show_settlement StatusOK (GetProviderSettlementBinding providerOrgID).
Definition handleVerifyProviderSettlementBinding : Handler := λ r,
  bindingID ← lift (part 3 (segments (rq_Path r)));
  show_settlement StatusOK (VerifyProviderSettlementBinding bindingID).
Definition handleSuspendProviderSettlementBinding : Handler := λ r,
  bindingID ← lift (part 3 (segments (rq_Path r)));
  show_settlement StatusOK (SuspendProviderSettlementBinding bindingID).

Definition handleGetProviderSettlementPool : Handler := λ r,
  providerOrgID ← lift (part 3 (segments (rq_Path r)));
  let? pool := on_app (GetProviderSettlementPool providerOrgID) orelse gateway_error in
  mret (ok (GPool pool)).

(** An absent body stands for one without a reason. *)
Definition decode_reason (r : Request) : result string :=
  if blank (rq_RawBody r) then Ok "" else decode (string_field "reason") r.

Definition handleDisconnectProviderSettlementBinding : Handler := λ r,
  let? _ := authorizeExecutionMutation c r orelse auth_error in
  providerOrgID ← lift (part 3 (segments (rq_Path r)));
  let? reason := lift (decode_reason r) orelse bad_request in
  let reason := TrimSpace reason in
  let reason := if String.eqb reason "" then "provider settlement disconnected" else reason in
  let? _ := on_app (ReportProviderSettlementDisconnect providerOrgID reason)
    orelse gateway_error in
  let? pool := on_app (GetProviderSettlementPool providerOrgID) orelse gateway_error in
  mret (ok (GPool pool)).

Definition handleRecoverProviderSettlementBinding : Handler := λ r,
  let? _ := authorizeExecutionMutation c r orelse auth_error in
  providerOrgID ← lift (part 3 (segments (rq_Path r)));
  let? pool := on_app (RecoverProviderSettlement providerOrgID) orelse gateway_error in
  mret (ok (GPool pool)).

Definition handleGetOrderProviderSettlementReservation : Handler := λ r,
  orderID ← lift (part 3 (segments (rq_Path r)));
  let? order := ask_app (λ a, order_Get orderID (orders a)) orelse gateway_error in
  let? _ := authorize_order c r order orelse auth_error in
  let? reservation := on_app (GetProviderSettlementReservation orderID) orelse gateway_error in
  mret (ok (GReservation reservation)).

(** ** Credit limits *)

Definition handleSetCreditLimit : Handler := λ r,
  let? payload := lift (decode decode_limit r) orelse bad_request in
  let '(buyerOrgID, limitCents, setBy) := payload in
  limit ← on_app (SetCreditLimit buyerOrgID limitCents setBy);
  mret (ok (GCreditLimit limit)).

Definition handleGetCreditLimit : Handler := λ r,
  buyerOrgID ← lift (part 3 (segments (rq_Path r)));
  limit ← see_app (GetCreditLimit buyerOrgID);
  mret (match limit with
        | Some limit => ok (GCreditLimit limit)
        | None => plain StatusNotFound (Errf "no credit limit set")
        end).

(** ** Webhooks and notifications *)

Definition authenticate (r : Request) : G () :=
  if no_auth c then mret tt else _ ← authenticatedActor c r; mret tt.
(** The actor belongs to the organization a path names. *)
Definition with_target (r : Request) (k : string → G Answer) : G Answer :=
  let parts := segments (rq_Path r) in
  refuse_if (length parts <? 4)%nat with bad_request (Errf "invalid path") in
  target ← lift (part 3 parts);
  if no_auth c then k target
  else
    let? actor := authenticatedActor c r orelse auth_error in
    refuse_if negb (actorBelongsToOrg actor target)
      with plain StatusForbidden (Errf "not authorized for this target") in
    k target.

Definition handleListWebhooks : Handler := λ r,
  let? _ := authenticate r orelse auth_error in
  g ← get_st;
  mret (ok (GWebhooks (map_order (map_to_list (gw_webhooks g))))).

Definition handleRegisterWebhook : Handler := λ r,
  let? _ := authenticate r orelse auth_error in
  let? payload := lift (decode decode_webhook r) orelse bad_request in
  refuse_if String.eqb payload.1 "" || String.eqb payload.2 ""
    with bad_request (Errf "target and url required") in
  _ ← modify (λ g, g <| gw_webhooks ::= <[payload.1 := payload.2]> |>);
  mret (created (GStatus "registered")).

Definition handleUnregisterWebhook : Handler := λ r,
  with_target r (λ target,
    _ ← modify (λ g, g <| gw_webhooks ::= delete target |>);
    mret (ok (GStatus "unregistered"))).

Definition handleListNotifications : Handler := λ r,
  with_target r (λ _, mret (ok GNotifications)).

(** ** Reports *)

Definition handleMarketplaceStats : Handler := λ r,
  let? stats := ask_app GetMarketplaceStats orelse internal_error in
  mret (ok (GStats stats)).
Definition handleOrderBudget : Handler := λ r,
  orderID ← lift (part 3 (segments (rq_Path r)));
  let? budget := ask_app (GetOrderBudget orderID) orelse gateway_error in
  mret (ok (GBudget budget)).
Definition handleProviderRevenue : Handler := λ r,
  providerID ← lift (part 3 (segments (rq_Path r)));
  let? revenue := ask_app (GetProviderRevenue providerID) orelse gateway_error in
  mret (ok (GRevenue revenue)).
Definition handleOrderTimeline : Handler := λ r,
  orderID ← lift (part 3 (segments (rq_Path r)));
  let? timeline := on_app (GetOrderTimeline orderID) orelse gateway_error in
  mret (ok (GTimeline timeline)).
Definition handleBatchOrderStatus : Handler := λ r,
  let? orderIDs := lift (decode (strings_field "orderIds") r) orelse bad_request in
  statuses ← see_app (BatchOrderStatus orderIDs);
  mret (ok (GStatuses statuses)).
Definition handleLeaderboard : Handler := λ r,
  let? entries := ask_app GetProviderLeaderboard orelse internal_error in
  mret (ok (GLeaderboard entries)).
Definition handleFiberExposure : Handler := λ r,
  let? exposure := ask_app GetFiberExposure orelse internal_error in
  mret (ok (GExposure exposure)).
Definition handleRateLimitConfig : Handler := λ r,
  mret (ok (GSystem (Some (match gc_rateLimiter c with Some _ => true | None => false end)))).
Definition handleSystemInfo : Handler := λ r, mret (ok (GSystem None)).

Definition handleStaleJobs : Handler := λ r,
  g ← get_st;
  _ ← time_now c;
  mret (ok (GStaleJobs (ReconcileStaleJobs (gc_scan_now c (gw_ticks g)) (gw_carrier g)))).

(** ** Exports *)

Definition csv_export (m : App → result string) : Handler := λ _,
  let? csv := ask_app m orelse internal_error in
  mret (ok (GText csv)).
Definition handleExportOrders : Handler := csv_export ExportOrdersCSV.
Definition handleExportDisputes : Handler := csv_export ExportDisputesCSV.
Definition handleExportRFQs : Handler := csv_export ExportRFQsCSV.
Definition handleExportApplications : Handler :=
  csv_export (λ a, Ok (ExportProviderApplicationsCSV a)).

(** ** Carrier routes *)

Definition handleBindCarrier : Handler := λ r,
  let? _ := authorizeExecutionMutation c r orelse auth_error in
  let? ids := lift (orderMilestoneFromBindPath (rq_Path r)) orelse bad_request in
  let? payload := lift (decode (λ f,
      i ← string_field "carrierId" f; k ← strings_field "capabilities" f;
      Some (i, k)) r) orelse bad_request in
  now ← time_now c;
  let? binding := on_carrier (Bind ids.1 ids.2 payload.1 payload.2 now) orelse gateway_error in
  mret (created (GBinding binding None)).

Definition handleGetBinding : Handler := λ r,
  let? ids := lift (orderMilestoneFromBindPath (rq_Path r)) orelse bad_request in
  let? binding := ask_carrier (GetBinding ids.1 ids.2)
    orelse λ _, plain StatusNotFound (Errf "no carrier bound") in
  now ← time_now c;
  stale ← attempt (ask_carrier (IsStale (cb_ID binding) now));
  mret (ok (GBinding binding (Some (match stale with Ok b => b | Err _ => false end)))).

Definition handleCreateJob : Handler := λ r,
  let? _ := authorizeExecutionMutation c r orelse auth_error in
  let? ids := lift (orderMilestoneFromBindPath (rq_Path r)) orelse bad_request in
  let? payload := lift (decode (λ f,
      b ← string_field "bindingId" f; i ← string_field "input" f; Some (b, i)) r)
    orelse bad_request in
  now ← time_now c;
  let? job := on_carrier (CreateJob payload.1 ids.2 payload.2 now) orelse gateway_error in
  mret (created (GJob job)).

Definition handleListJobs : Handler := λ r,
  let? ids := lift (orderMilestoneFromBindPath (rq_Path r)) orelse bad_request in
  let? binding := ask_carrier (GetBinding ids.1 ids.2) orelse λ _, ok (GJobs []) in
  let? jobs := ask_carrier (ListJobs (cb_ID binding)) orelse gateway_error in
  mret (ok (GJobs jobs)).

Definition handleGetJob : Handler := λ r,
  let? jobID := lift (jobIDFromPath (rq_Path r)) orelse bad_request in
  let? job := ask_carrier (GetJob jobID) orelse gateway_error in
  mret (ok (GJob job)).

(** The frame of the routes that move a job. *)
Definition job_route {P} (r : Request) (dec : list (string * json) → option P)
    (reads : bool) (zero : P) (act : string → P → G ExecutionJob) : G Answer :=
  let? _ := authorizeExecutionMutation c r orelse auth_error in
  let? jobID := lift (jobIDFromPath (rq_Path r)) orelse bad_request in
  let? payload := (if reads then lift (decode dec r) else mret zero) orelse bad_request in
  let? job := act jobID payload orelse gateway_error in
  mret (ok (GJob job)).
Definition timed {T} (m : Time → ST CarrierService.Service T) : G T :=
  now ← time_now c; on_carrier (m now).

Definition handleStartJob : Handler := λ r,
  job_route r (λ _, Some tt) false tt (λ jobID _, timed (StartJob jobID)).
Definition handleCompleteJob : Handler := λ r,
  job_route r (string_field "output") true "" (λ jobID output, timed (CompleteJob jobID output)).
Definition handleFailJob : Handler := λ r,
  job_route r (string_field "error") true "" (λ jobID msg, timed (FailJob jobID msg)).
Definition handleCancelJob : Handler := λ r,
  job_route r (λ _, Some tt) false tt (λ jobID _, timed (CancelJob jobID)).
Definition handleJobProgress : Handler := λ r,
  job_route r (λ f, s ← int_field "step" f; t ← int_field "total" f;
                    m ← string_field "message" f; Some (s, t, m)) true (0, 0, "")
    (λ jobID '(step, total, message), on_carrier (UpdateProgress jobID step total message)).

Definition handleJobHeartbeat : Handler := λ r,
  let? _ := authorizeExecutionMutation c r orelse auth_error in
  let? jobID := lift (jobIDFromPath (rq_Path r)) orelse bad_request in
  let? job := ask_carrier (GetJob jobID) orelse gateway_error in
  let? _ := timed (Heartbeat (ej_BindingID job)) orelse gateway_error in
  mret (ok (GStatus "ok")).

Definition handleSubmitEvidence : Handler := λ r,
  let? _ := authorizeExecutionMutation c r orelse auth_error in
  let? jobID := lift (jobIDFromPath (rq_Path r)) orelse bad_request in
  let? job := ask_carrier (GetJob jobID) orelse gateway_error in
  let? payload := lift (decode decode_evidence r) orelse bad_request in
  let '(summary, artifacts, usage) := payload in
  now ← time_now c;
  let? pkg := on_evidence (SubmitEvidence jobID (ej_BindingID job) summary artifacts usage now)
    orelse gateway_error in
  mret (created (GEvidence pkg)).

Definition handleGetEvidence : Handler := λ r,
  let? jobID := lift (jobIDFromPath (rq_Path r)) orelse bad_request in
  let? pkg := query gw_evidence (GetEvidence jobID) orelse gateway_error in
  mret (ok (GEvidence pkg)).
End handlers.
