(* ===== verification/GatewayCallbacks.v ===== *)
(** * Carrier callbacks (internal/gateway/server.go)

    [handleCarrierCallback]: an event of a carrier is authenticated, recorded in
    the event ledger, acted on, answered with a recommendation, and the
    recommendation is kept for redeliveries. *)

From Stdlib Require Import Ascii SpecFloat.
From S2P Require Import Prelude GoNum GoText GoFloat Core GoTime Milestones Market Repo App.
From S2P Require Import ProviderSettlement Providers Orders Bidding Directory RateLimit CarrierService.
From S2P Require Import CarrierEvents Http Web Signatures Gateway GatewayOrders GatewayDirectory.

(** ** Values encoded again *)

(** A quoted JSON string: the escapes of [encoding/json] on valid UTF-8. *)
Definition hex4 (n : nat) : string :=
  "\u00" +:+ GoBytes.hex_encode [Z.of_nat n].
Definition escape (a : ascii) : string :=
  let n := nat_of_ascii a in
  match n with
  | 34 => "\" +:+ String a ""
  | 92 => "\\"
  | 8 => "\b" | 9 => "\t" | 10 => "\n" | 12 => "\f" | 13 => "\r"
  | 38 | 60 | 62 => hex4 n
  | _ => if (n <? 32)%nat then hex4 n else String a ""
  end%nat.
Fixpoint escaped (s : string) : string :=
  match s with
  | EmptyString => ""
  | String a s' =>
      (* U+2028 and U+2029 *)
      match strip_prefix (bytes [226; 128; 168]%nat) s, strip_prefix (bytes [226; 128; 169]%nat) s with
      | Some _, _ => "\u2028" +:+ match s' with String _ (String _ s'') => escaped s'' | _ => "" end
      | _, Some _ => "\u2029" +:+ match s' with String _ (String _ s'') => escaped s'' | _ => "" end
      | None, None => escape a +:+ escaped s'
      end
  end.
Definition dquote : string := String (ascii_of_nat 34) "".
Definition quoted (s : string) : string := dquote +:+ escaped s +:+ dquote.

(** [json.Marshal(response.RecommendedAction)] *)
Definition marshal_action (a : RecommendedAction) : string :=
  "{" +:+ quoted "type" +:+ ":" +:+ quoted (ra_Type a) +:+
  (if String.eqb (ra_Reason a) "" then ""
   else "," +:+ quoted "reason" +:+ ":" +:+ quoted (ra_Reason a)) +:+ "}".

(** An integral float is written with as few significant digits as identify it. *)
Definition stands_for (x z : Z) : bool := f64_eq (f64_of_int z) (f64_of_int x).
Fixpoint shortest_from (k : nat) (x : Z) : Z :=
  match k with
  | O => x
  | S k' =>
      let d := 10 ^ Z.of_nat k in
      let below := x / d * d in
      let above := if below =? x then x else below + d in
      let '(near, far) := if x - below <=? above - x then (below, above) else (above, below) in
      if stands_for x near then near else if stands_for x far then far
      else shortest_from k' x
  end.
Definition integral_value (x : float64) : option Z :=
  match x with
  | S754_zero _ => Some 0
  | S754_finite s m e =>
      let v := if 0 <=? e then Zpos m * 2 ^ e else Zpos m / 2 ^ (- e) in
      if (0 <=? e) || (Zpos m mod 2 ^ (- e) =? 0)
      then Some (if s then - v else v) else None
  | _ => None
  end.
Definition encode_float (x : float64) : json :=
  match integral_value x with
  | Some z => if Z.abs z <? 10 ^ 21
              then JInt (Z.sgn z * shortest_from 20 (Z.abs z)) else JFloat x
  | None => JFloat x
  end.

(** Maps are written with their keys in order, each once. *)
Fixpoint insert_key (k : string) (v : json) (l : list (string * json)) : list (string * json) :=
  match l with
  | [] => [(k, v)]
  | (k', v') :: l' =>
      if String.eqb k k' then (k, v) :: l'
      else if String.ltb k k' then (k, v) :: l
      else (k', v') :: insert_key k v l'
  end.

(** A decoded [any], marshalled and decoded again. *)
Fixpoint reencode (v : json) : json :=
  match v with
  | JInt z => encode_float (f64_of_int z)
  | JFloat x => encode_float x
  | JArr l => JArr (map reencode l)
  | JObj fields =>
      JObj (fold_left (λ acc f, insert_key f.1 (reencode f.2) acc) fields [])
  | _ => v
  end.

(** ** Reading a payload *)

Definition eventPayloadStringFromKeys : Payload → list string → string :=
  firstNonEmptyPayloadValue.
Definition eventPayloadString (p : Payload) (key : string) : string :=
  eventPayloadStringFromKeys p [key].

Definition getPayloadInt64 (p : Payload) (key : string) : option Z :=
  match payload_float p key, payload_string p key with
  | Some x, _ => Some (f64_to_int64 x)
  | None, Some s => match ParseInt (TrimSpace s) with (v, None) => Some v | _ => None end
  | None, None => None
  end.

Definition payload_bool (p : Payload) (key : string) : bool :=
  match p !! key with Some (JBool b) => b | _ => false end.

Definition jobInputDefaultUsageKind (p : Payload) : UsageChargeKind :=
  let pick key old := match payload_string p key with
                      | Some raw => if String.eqb raw "" then old else raw
                      | None => old end in
  pick "usageKind" (pick "kind" UsageChargeKindExternalAPI).

Definition explicit_action (p : Payload) : option string :=
  match payload_string p "recommendedAction" with
  | Some action => if String.eqb action "" then None else Some action
  | None => None
  end.
Definition continue : RecommendedAction := mkAction "continue" "".
Definition eventUsageBasedAction (p : Payload) : RecommendedAction :=
  match explicit_action p with
  | Some action => mkAction action ""
  | None => if payload_bool p "pause" then mkAction "pause" (eventPayloadString p "reason")
            else continue
  end.
Definition eventBudgetRecommendedAction (p : Payload) : RecommendedAction :=
  let reason := default "" (payload_string p "reason") in
  match explicit_action p with
  | Some action => mkAction action reason
  | None => if payload_bool p "pause" then mkAction "pause" reason else continue
  end.

(** The proof of a usage report: all of its three parts or none. *)
Definition parseUsageProofPayload (p : Payload) : result (string * string * string) :=
  let get key := default "" (payload_string p key) in
  let proofRef := get "proofRef" in
  let proofSig := get "proofSignature" in
  let proofTS := get "proofTimestamp" in
  if blank proofRef && blank proofSig && blank proofTS then Ok ("", "", "")
  else if blank proofRef || blank proofSig || blank proofTS
  then Err (Errf ("invalid usage proof payload: proofRef, proofSignature and "
                  +:+ "proofTimestamp are required together"))
  else match ParseRFC3339 proofTS with
       | None => Err (Errf "invalid usage proof payload: proofTimestamp must be RFC3339")
       | Some _ => Ok (TrimSpace proofRef, TrimSpace proofSig, TrimSpace proofTS)
       end.

Definition evidence_error : error := Errf "json: cannot unmarshal".
Definition recordEvidenceFromCallbackPayload (rawArtifacts rawUsage : option json)
    : result (list Artifact * option UsageReport) :=
  artifacts ← match rawArtifacts with
              | None | Some JNull => Ok []
              | Some (JArr l) =>
                  match mapM (λ v, decode_artifact (reencode v)) l with
                  | Some artifacts => Ok artifacts | None => Err evidence_error end
              | Some _ => Err (Errf "invalid artifacts payload")
              end;
  usage ← match rawUsage with
          | None | Some JNull => Ok None
          | Some v => match decode_usage_report (reencode v) with
                      | Some usage => Ok (Some usage) | None => Err evidence_error end
          end;
  Ok (artifacts, usage).

Definition isEvidenceAlreadySubmittedError (e : error) : bool :=
  Contains (error_text e) "evidence already submitted".

(** ** The envelope *)

(** [parseCarrierCallback]: the event, and whether it came in the integration
    form. *)
Definition parseCarrierCallback (body : option json) : option (CallbackEvent * bool) :=
  v ← body;
  let legacy := (λ e, (e, false)) <$> decode_event v in
  match decode_envelope v with
  | Some envelope =>
      if blank (ie_EventType envelope) && blank (ie_EventID envelope)
         && blank (ie_CarrierExecutionID envelope) then legacy
      else Some (ToCallbackEvent envelope, true)
  | None => legacy
  end.

Definition applyCarrierCallbackAuthHeaders (e : CallbackEvent) (r : Request) : CallbackEvent :=
  let sig := TrimSpace (rq_Header r "X-One-Tok-Signature") in
  let ts := TrimSpace (rq_Header r "X-One-Tok-Timestamp") in
  let e := if String.eqb sig "" then e else e <| ce_Signature := sig |> in
  if String.eqb ts "" then e else e <| ce_Timestamp := ts |>.

Section callbacks.
Context `{Storage} {L : Type} (c : GatewayConfig L).
Abbreviation G := (ST (Gateway L)).
Abbreviation Handler := (Request → G Answer).

(** ** Authentication *)

(** The key id named in the headers. *)
Definition override_key (r : Request) : string :=
  let keys := TrimSpace <$> (rq_Header r <$>
    ["X-One-Tok-Callback-Key-Id"; "X-One-Tok-Key-Id"; "X-Carrier-Key-Id"]) in
  default "" (List.find (λ k, negb (String.eqb k "")) keys).

(** The carrier binding of the provider of an event's order, where each step of
    the way to it succeeds. *)
Definition provider_binding (bindingID : string) : G (option ProviderCarrierBinding) :=
  b ← attempt (
    binding ← ask_carrier (GetBindingByID bindingID);
    order ← ask_app (λ a, order_Get (cb_OrderID binding) (orders a));
    on_app (GetProviderCarrierBinding (o_ProviderOrgID order)));
  mret (match b with Ok b => Some b | Err _ => None end).

Definition no_binding_secret : error :=
  Errf "callback key id provided but no binding secret configured".

Definition resolveCarrierCallbackSecret (r : Request) (e : CallbackEvent) : G string :=
  let overrideSecret := TrimSpace (rq_Header r "X-One-Tok-Callback-Secret") in
  if negb (String.eqb overrideSecret "") then mret overrideSecret
  else
    let overrideKeyID := override_key r in
    let fallback : G string :=
      if negb (String.eqb overrideKeyID "") then throw no_binding_secret
      else mret (gc_callbackSecret c) in
    if String.eqb (ce_BindingID e) "" then fallback
    else
      b ← provider_binding (ce_BindingID e);
      match b with
      | None => fallback
      | Some b =>
          if negb (String.eqb overrideKeyID "") && negb (String.eqb (pcb_CallbackKeyID b) "")
             && negb (String.eqb overrideKeyID (pcb_CallbackKeyID b))
          then throw (Errf "unknown callback key id")
          else
            let secret := TrimSpace (pcb_CallbackSecret b) in
            if negb (String.eqb secret "") then mret secret else fallback
      end.

Definition authenticate_callback (r : Request) (e : CallbackEvent) (integration : bool) : G () :=
  if integration then
    let sig := TrimSpace (rq_Header r "X-Carrier-Signature") in
    if String.eqb sig "" then mret tt
    else
      secret ← resolveCarrierCallbackSecret r e;
      lift (VerifyIntegrationCallbackBody secret (rq_RawBody r) sig)
  else
    secret ← resolveCarrierCallbackSecret r e;
    now ← time_now c;
    lift (VerifyCallback secret e now).

(** ** Acting on an event *)

Definition verifyUsageProofBindingSecret (job : ExecutionJob) (binding : Binding)
    (kind : UsageChargeKind) (amountCents : Z) (proof : string * string * string) : G () :=
  let '(proofRef, proofSig, proofTS) := proof in
  if String.eqb proofRef "" && String.eqb proofSig "" && String.eqb proofTS "" then mret tt
  else
    b ← attempt (order ← ask_app (λ a, order_Get (cb_OrderID binding) (orders a));
                 on_app (GetProviderCarrierBinding (o_ProviderOrgID order)));
    match b with
    | Err _ => mret tt
    | Ok b =>
        let secret := TrimSpace (pcb_CallbackSecret b) in
        let secret := if String.eqb secret "" then gc_callbackSecret c else secret in
        if String.eqb secret "" then mret tt
        else
          now ← time_now c;
          lift (Verify secret (mkProof (ej_ID job) (ej_MilestoneID job) kind amountCents
                                 proofTS proofSig) now)
    end.

Definition recordUsageFromCallback (e : CallbackEvent) : G (Order * UsageCharge) :=
  job ← ask_carrier (GetJob (ce_JobID e));
  binding ← ask_carrier (GetBindingByID (ej_BindingID job));
  let kind := jobInputDefaultUsageKind (ce_Payload e) in
  amountCents ← lift match getPayloadInt64 (ce_Payload e) "amountCents" with
                     | Some n => Ok n | None => Err (Errf "invalid usage amount") end;
  proof ← lift (parseUsageProofPayload (ce_Payload e));
  _ ← verifyUsageProofBindingSecret job binding kind amountCents proof;
  on_app (RecordUsageCharge (cb_OrderID binding)
    (mkRecordUsageChargeInput (ej_MilestoneID job) kind amountCents
       proof.1.1 proof.1.2 proof.2)).

Definition recordArtifactFromCallback (e : CallbackEvent) : G EvidencePackage :=
  let p := ce_Payload e in
  job ← ask_carrier (GetJob (ce_JobID e));
  let summary := eventPayloadStringFromKeys p ["summary"; "result"; "output"] in
  '(artifacts, usage) ← lift (recordEvidenceFromCallbackPayload (p !! "artifacts")
                                (p !! "usageReport"));
  usage ← lift match p !! "usageSnapshot", usage with
               | Some (JObj fields), None =>
                   match decode_usage_report (reencode (JObj fields)) with
                   | Some usage => Ok (Some usage) | None => Err evidence_error end
               | _, _ => Ok usage
               end;
  _ ← fail_if (bool_decide (artifacts = []) && blank summary
               && match usage with None => true | Some _ => false end)
        (Errf "artifact.ready requires evidence payload");
  now ← time_now c;
  on_evidence (SubmitEvidence (ej_ID job) (ej_BindingID job) summary artifacts usage now).

(** Evidence that is there already is no failure. *)
Definition keep_evidence (e : CallbackEvent) : G () :=
  r ← attempt (recordArtifactFromCallback e);
  match r with
  | Ok _ => mret tt
  | Err err => if isEvidenceAlreadySubmittedError err then mret tt else throw err
  end.

Definition milestone_ready (e : CallbackEvent) : G () :=
  let summary := eventPayloadStringFromKeys (ce_Payload e) ["summary"; "result"; "output"] in
  _ ← keep_evidence e;
  _ ← timed c (CompleteJob (ce_JobID e) summary);
  job ← ask_carrier (GetJob (ce_JobID e));
  binding ← ask_carrier (GetBindingByID (ej_BindingID job));
  now ← time_now c;
  _ ← on_app (SettleMilestone (cb_OrderID binding)
        (mkSettleMilestoneInput (ej_MilestoneID job) summary "carrier" now));
  mret tt.

Inductive EventKind :=
  | EvStarted | EvCompleted | EvReady | EvFailed | EvHeartbeat | EvPaused | EvResumed
  | EvUsage | EvArtifact | EvBudgetLow.
Definition event_kinds : list (string * EventKind) :=
  [("job.started", EvStarted); ("execution.started", EvStarted); ("milestone.started", EvStarted);
   ("job.completed", EvCompleted); ("execution.completed", EvCompleted);
   ("milestone.ready", EvReady);
   ("job.failed", EvFailed); ("execution.failed", EvFailed);
   ("heartbeat", EvHeartbeat); ("execution.heartbeat", EvHeartbeat);
   ("execution.pause_requested", EvPaused); ("execution.paused", EvPaused);
   ("execution.resumed", EvResumed); ("usage.reported", EvUsage);
   ("artifact.ready", EvArtifact); ("budget.low", EvBudgetLow)].
Definition event_kind (type : string) : option EventKind :=
  snd <$> List.find (λ k, String.eqb k.1 type) event_kinds.

(** The recommendation an event leads to, or the answer to its failure. *)
Definition process_event (e : CallbackEvent) : G (Answer + RecommendedAction) :=
  let p := ce_Payload e in
  let then_ {T} (m : G T) (action : RecommendedAction) : G (Answer + RecommendedAction) :=
    let? _ := m orelse λ err, inl (gateway_error err) in mret (inr action) in
  match event_kind (ce_Type e) with
  | Some EvStarted => then_ (timed c (StartJob (ce_JobID e))) continue
  | Some EvCompleted =>
      then_ (timed c (CompleteJob (ce_JobID e)
                        (eventPayloadStringFromKeys p ["output"; "result"]))) continue
  | Some EvReady => then_ (milestone_ready e) continue
  | Some EvFailed =>
      then_ (timed c (FailJob (ce_JobID e) (default "" (payload_string p "error")))) continue
  | Some EvHeartbeat => then_ (timed c (Heartbeat (ce_BindingID e))) continue
  | Some EvPaused =>
      then_ (timed c (CancelJob (ce_JobID e))) (mkAction "pause" "pause requested by carrier")
  | Some EvResumed => mret (inr continue)
  | Some EvUsage =>
      let? _ := recordUsageFromCallback e orelse λ err, inl (bad_request err) in
      mret (inr (eventUsageBasedAction p))
  | Some EvArtifact => then_ (keep_evidence e) (eventBudgetRecommendedAction p)
  | Some EvBudgetLow => mret (inr (eventBudgetRecommendedAction p))
  | None => mret (inl (coded StatusBadRequest ErrCodeBadRequest (Errf "unknown callback type")))
  end.

(** ** The answer *)

Definition finished (job : ExecutionJob) : bool :=
  bool_decide (ej_State job ∈ [JobStateCompleted; JobStateFailed; JobStateCancelled]).

Definition order_exhausted (job : ExecutionJob) (g : Gateway L) : bool :=
  match GetBindingByID (ej_BindingID job) (gw_carrier g) with
  | Ok binding =>
      match order_Get (cb_OrderID binding) (orders (gw_app g)) with
      | Ok order => bool_decide (o_Status order = OrderStatusAwaitingBudget)
      | Err _ => false
      end
  | Err _ => false
  end.

Definition buildCallbackResponse (e : CallbackEvent) : G CallbackResponse :=
  let go_on := mkCallbackResponse true true continue in
  if String.eqb (ce_JobID e) "" then mret go_on
  else
    job ← attempt (ask_carrier (GetJob (ce_JobID e)));
    match job with
    | Err _ => mret go_on
    | Ok job =>
        if finished job then mret go_on
        else
          g ← get_st;
          let resp := if order_exhausted job g
                      then mkCallbackResponse true false
                             (mkAction "pause" "order budget exhausted")
                      else go_on in
          now ← time_now c;
          stale ← attempt (ask_carrier (IsStale (ej_BindingID job) now));
          mret (match stale with
                | Ok true => mkCallbackResponse true false
                               (mkAction "cancel" "carrier heartbeat stale")
                | _ => resp
                end)
    end.

Definition with_action (resp : CallbackResponse) (action : RecommendedAction) : CallbackResponse :=
  if String.eqb (ra_Type action) "" then resp
  else mkCallbackResponse (cr_Accepted resp)
         (if String.eqb (ra_Type action) "continue" then cr_ContinueAllowed resp else false)
         action.

(** What follows the ledger's check. *)
Definition act_on_event (e : CallbackEvent) (eventID : string) : G Answer :=
  outcome ← process_event e;
  match outcome with
  | inl response => mret response
  | inr action =>
      response ← buildCallbackResponse e;
      let response := with_action response action in
      _ ← (if String.eqb eventID "" then mret tt
           else on_ledger (UpdateDecision eventID
                  (marshal_action (cr_RecommendedAction response))));
      mret (ok (GCallback response))
  end.

Definition unauthorized (e : error) : Answer := coded StatusUnauthorized ErrCodeUnauthorized e.

(** An authenticated event, under its canonical name. *)
Definition accept_event (e : CallbackEvent) : G Answer :=
  let eventID := default "" (payload_string (ce_Payload e) "eventId") in
  let sequence := match payload_float (ce_Payload e) "sequence" with
                  | Some x => f64_to_int64 x | None => 0 end in
  if String.eqb eventID "" then act_on_event e eventID
  else
    now ← time_now c;
    let? recorded := on_ledger (RecordEvent (ce_JobID e) eventID sequence (ce_Type e) "" "" "" now)
        orelse λ err, coded StatusConflict ErrCodeConflict err in
    if recorded.2 then mret (ok (GReplay (ev_DecisionJSON recorded.1)))
    else act_on_event e eventID.

Definition handleCarrierCallback : Handler := λ r,
  match parseCarrierCallback (rq_Body r) with
  | None => mret (bad_request invalid_json)
  | Some (e, integration) =>
      let e := if integration then e else applyCarrierCallbackAuthHeaders e r in
      let? _ := authenticate_callback r e integration orelse unauthorized in
      accept_event (e <| ce_Type ::= NormalizeEventName |>)
  end.
End callbacks.
