(* ===== verification/AwardExecutor.v ===== *)
(** * Executions of awards (internal/gateway/carrier_award_executor.go)

    When an award is made and its provider has an active carrier binding, a goroutine
    binds the carrier to the first milestone, creates and starts a job, has the
    provider's agent run a shell command on the provider's host, and completes and
    settles, or waits for the callback that the command sends.

    The agent is a parameter; what other requests do to the server while the
    goroutine waits for it is [meanwhile]. *)

From Stdlib Require Import Ascii.
From S2P Require Import Prelude GoNum GoText GoFloat Core GoTime Milestones Market Repo App.
From S2P Require Import ProviderSettlement Providers Orders Bidding Directory RateLimit CarrierService.
From S2P Require Import CarrierEvents Http Web Gateway GatewayOrders GatewayDirectory GatewayCallbacks.

Definition defaultCarrierWorkspaceRoot : string := "/workspace".
Definition defaultCarrierBackend : string := "codex".
Definition carrierRunCapability : string := "run_shell".
Definition carrierRunTimeoutSec : Z := 900.

(** ** The agent's client (internal/integrations/carrier) *)

Record CodeAgentInstallInput := mkInstallInput {
  cai_HostID : string; cai_AgentID : string; cai_Backend : string; cai_WorkspaceRoot : string;
}.
Record CodeAgentVersionInput := mkVersionInput {
  cav_HostID : string; cav_AgentID : string; cav_Backend : string;
}.
Record CodeAgentRunInput := mkRunInput {
  car_HostID : string; car_AgentID : string; car_Backend : string; car_WorkspaceRoot : string;
  car_Capability : string; car_Command : string; car_CWD : string; car_TimeoutSec : Z;
  car_StdoutPath : string; car_StderrPath : string;
}.
Record CodeAgentRunOutput := mkRunOutput { cro_OK : bool; cro_PolicyDecision : string }.

(** The calls an execution makes, by their place in it. *)
Inductive stage := FirstVersion | Install | SecondVersion | Run.
Record CodeAgentClient := mkCodeAgentClient {
  InstallCodeAgent : CodeAgentInstallInput → result ();
  GetCodeAgentVersion : stage → CodeAgentVersionInput → result string;
  RunCodeAgent : CodeAgentRunInput → result CodeAgentRunOutput;
}.

(** ** Paths *)

(** The segments of [path.Clean]: empty ones and dots go, a double dot takes the one
    before it. *)
Fixpoint clean_segments (rooted : bool) (done segs : list string) : list string :=
  match segs with
  | [] => rev done
  | s :: segs =>
      if String.eqb s "" || String.eqb s "." then clean_segments rooted done segs
      else if String.eqb s ".." then
        match done with
        | d :: done' => if String.eqb d ".." then clean_segments rooted (s :: done) segs
                        else clean_segments rooted done' segs
        | [] => if rooted then clean_segments rooted [] segs
                else clean_segments rooted [s] segs
        end
      else clean_segments rooted (s :: done) segs
  end.
Definition Clean (path : string) : string :=
  let rooted := HasPrefix path "/" in
  let segs := clean_segments rooted [] (Split "/" path) in
  if rooted then "/" +:+ Join "/" segs
  else if bool_decide (segs = []) then "." else Join "/" segs.
(** [path.Join] and [path.Dir] *)
Definition path_Join (elems : list string) : string :=
  let elems := List.filter (λ e, negb (String.eqb e "")) elems in
  if bool_decide (elems = []) then "" else Clean (Join "/" elems).
Definition path_Dir (path : string) : string :=
  Clean (Join "/" (removelast (Split "/" path)) +:+
         (if (1 <? length (Split "/" path))%nat then "/" else "")).

Definition firstNonEmptyString (values : list string) : string :=
  default "" (List.find (λ v, negb (String.eqb v "")) (TrimSpace <$> values)).

Definition carrierReportPath (workspaceRoot orderID milestoneID : string) : string :=
  let root := firstNonEmptyString [TrimSpace workspaceRoot; defaultCarrierWorkspaceRoot] in
  path_Join [root; "1tok"; TrimSpace orderID; TrimSpace milestoneID; "result.md"].
(** An id is a segment of the path as it stands, so one with separators leads out of
    the workspace. *)
Example report_path_escapes :
  carrierReportPath "/workspace" "ord_1" "../../../etc" = "/etc/result.md".
Proof. reflexivity. Qed.
Definition carrierStdoutPath (reportPath : string) : string :=
  TrimSpace reportPath +:+ ".stdout.log".
Definition carrierStderrPath (reportPath : string) : string :=
  TrimSpace reportPath +:+ ".stderr.log".

(** ** The command *)

Definition dq (s : string) : string := dquote +:+ s +:+ dquote.
Definition newline : string := String (ascii_of_nat 10) "".

(** [strings.ReplaceAll(value, "'", `'\''`)] *)
Fixpoint escape_quotes (s : string) : string :=
  match s with
  | EmptyString => ""
  | String a s' => (if Ascii.eqb a "'" then "'\''" else String a "") +:+ escape_quotes s'
  end.
Definition shellQuote (value : string) : string :=
  if String.eqb value "" then "''" else "'" +:+ escape_quotes value +:+ "'".

Definition mustJSONJS (value : string) : string := quoted value.

Definition orderTitle (order : Order) : string :=
  match o_Milestones order with
  | m :: _ => if blank (ms_Title m) then o_ID order else ms_Title m
  | [] => o_ID order
  end.

Definition carrierJobInput (rfq : RFQ) (order : Order) (m : Milestone) : string :=
  if blank (rfq_Scope rfq) then o_ID order +:+ " :: " +:+ ms_Title m
  else o_ID order +:+ " :: " +:+ ms_Title m +:+ " :: " +:+ rfq_Scope rfq.

Definition lines (l : list string) : string := Join newline l.
Definition buildCarrierPrompt (rfq : RFQ) (order : Order) (m : Milestone) : string :=
  let scope := TrimSpace (rfq_Scope rfq) in
  lines (
    ["You are the awarded provider on 1 Tok.";
     "Produce a concise buyer-facing delivery note in markdown.";
     "Sections: Summary, Findings, Recommendation.";
     "Keep it under 500 words.";
     "Do not browse the web or use external network tools.";
     "Work only from the request brief and your general knowledge.";
     "If a detail is uncertain, label it as a directional recommendation instead of a verified fact.";
     "";
     "Request title: " +:+ TrimSpace (firstNonEmptyString [rfq_Title rfq; orderTitle order])] ++
    (if String.eqb scope "" then [] else ["Scope: " +:+ scope]) ++
    ["Milestone: " +:+ TrimSpace (ms_Title m);
     "Return only the delivery note markdown."]).

Record carrierReportCallbackConfig := mkCallbackConfig {
  crc_BaseURL : string;
  crc_BindingID : string;
  crc_JobID : string;
  crc_ReportPath : string;
  crc_CallbackSecret : string;
  crc_CallbackKeyID : string;
}.
Definition Enabled (c : carrierReportCallbackConfig) : bool :=
  negb (blank (crc_BaseURL c)) && negb (blank (crc_BindingID c)) && negb (blank (crc_JobID c))
  && negb (blank (crc_ReportPath c)) && negb (blank (crc_CallbackSecret c)).

(** [environment] holds the values of the three variables that may name the server. *)
Definition resolveCarrierReportCallbackConfig (environment : list string)
    (binding : ProviderCarrierBinding) (carrierBindingID jobID reportPath : string)
    : carrierReportCallbackConfig :=
  let callbackSecret := TrimSpace (pcb_CallbackSecret binding) in
  let baseURL := TrimSpace (firstNonEmptyString environment) in
  if String.eqb callbackSecret "" || String.eqb baseURL "" || blank carrierBindingID
     || blank jobID
  then mkCallbackConfig "" "" "" "" "" ""
  else mkCallbackConfig (TrimRight "/" baseURL) (TrimSpace carrierBindingID) (TrimSpace jobID)
         (TrimSpace reportPath) callbackSecret (TrimSpace (pcb_CallbackKeyID binding)).

(** The script that posts the report; a tilde stands for a double quote. *)
Fixpoint untilde (s : string) : string :=
  match s with
  | EmptyString => ""
  | String a s' => (if Ascii.eqb a "~" then dquote else String a "") +:+ untilde s'
  end.
Definition callback_script (c : carrierReportCallbackConfig) : string :=
  lines (
    [untilde "(() => {";
     untilde "  const fs = require(~node:fs~);";
     untilde "  const crypto = require(~node:crypto~);";
     "  const callbackBaseUrl = " +:+ mustJSONJS (crc_BaseURL c) +:+ ";";
     "  const jobId = " +:+ mustJSONJS (crc_JobID c) +:+ ";";
     "  const bindingId = " +:+ mustJSONJS (crc_BindingID c) +:+ ";";
     "  const reportPath = " +:+ mustJSONJS (crc_ReportPath c) +:+ ";";
     "  const callbackSecret = " +:+ mustJSONJS (crc_CallbackSecret c) +:+ ";";
     "  const callbackKeyId = " +:+ mustJSONJS (crc_CallbackKeyID c) +:+ ";"] ++
    (untilde <$> [
     "  const report = fs.readFileSync(reportPath, ~utf8~).trim();";
     "  const summary = report || (~Carrier execution completed. Result saved to ~ + reportPath);";
     "  const output = report || reportPath;";
     "  const envelope = {";
     "    eventId: jobId + ~-ready~,";
     "    sequence: 1,";
     "    eventType: ~milestone.ready~,";
     "    bindingId,";
     "    carrierExecutionId: jobId,";
     "    createdAt: new Date().toISOString(),";
     "    payload: {";
     "      jobId,";
     "      output,";
     "      summary,";
     "    },";
     "  };";
     "  const body = JSON.stringify(envelope);";
     "  const headers = {";
     "    ~Accept~: ~application/json~,";
     "    ~Content-Type~: ~application/json~,";
     "    ~X-Carrier-Signature~: ~sha256=~ + crypto.createHmac(~sha256~, callbackSecret).update(body).digest(~hex~),";
     "  };";
     "  if (callbackKeyId) headers[~X-Carrier-Key-Id~] = callbackKeyId;";
     "  Promise.resolve()";
     "    .then(() => fetch(callbackBaseUrl.replace(/\/$/, ~~) + ~/api/v1/carrier/callbacks/events~, {";
     "      method: ~POST~,";
     "      headers,";
     "      body,";
     "    }))";
     "    .then((response) => {";
     "      if (response.ok) return null;";
     "      return response.text().then((message) => {";
     "        throw new Error(~carrier callback failed: ~ + response.status + ~ ~ + message);";
     "      });";
     "    })";
     "    .catch((error) => {";
     "      console.error(error && error.stack ? error.stack : String(error));";
     "      process.exit(1);";
     "    });";
     "})();"])).
Definition buildCarrierCallbackCommand (c : carrierReportCallbackConfig) : string :=
  "node -e " +:+ shellQuote (callback_script c).

Definition run_segments (reportDir reportPath prompt : string) (c : carrierReportCallbackConfig)
    : list string :=
  ["set -e";
   "export HOME=/home/carrier";
   "export CODEX_HOME=/home/carrier/.codex";
   ". /home/carrier/.bash_profile >/dev/null 2>&1 || true";
   "mkdir -p " +:+ shellQuote reportDir;
   "cd " +:+ shellQuote reportDir;
   "codex exec --cd " +:+ shellQuote reportDir +:+
     " --skip-git-repo-check --full-auto --output-last-message " +:+ shellQuote reportPath +:+
     " " +:+ shellQuote prompt] ++
  (if Enabled c then [buildCarrierCallbackCommand c] else []).
Definition buildCarrierRunCommand (reportDir reportPath prompt : string)
    (c : carrierReportCallbackConfig) : string :=
  "bash -lc " +:+ shellQuote (Join "; " (run_segments reportDir reportPath prompt c)).

(** ** The execution *)

Definition is_running (m : Milestone) : bool := bool_decide (ms_State m = MilestoneStateRunning).
Definition runningMilestone (order : Order) : option Milestone :=
  match List.find is_running (o_Milestones order) with
  | Some m => Some m
  | None => List.find (λ m, negb (bool_decide (ms_State m = MilestoneStateSettled)))
              (o_Milestones order)
  end.

Definition preflight (hostID agentID backend what : string) : error :=
  Errf ("carrier codeagent " +:+ what +:+ " for host=" +:+ hostID +:+ " agent=" +:+ agentID +:+
        " backend=" +:+ backend).
Definition failing (e : error) (detail : string) : error :=
  Errf (error_text e +:+ ": " +:+ detail).
Definition buildCarrierCommandFailure (stdoutPath stderrPath : string) : error :=
  Errf ("carrier command failed: stdout=" +:+ stdoutPath +:+ " stderr=" +:+ stderrPath).

Section executor.
Context `{Storage} {L : Type} (c : GatewayConfig L).
Context (clientForBinding : ProviderCarrierBinding → CodeAgentClient).
Context (environment : list string) (meanwhile : stage → Gateway L → Gateway L).
Abbreviation G := (ST (Gateway L)).

(** A call to the agent: the server goes on serving until it is answered. *)
Definition wait_for {T} (s : stage) (answer : result T) : G T := λ g, (meanwhile s g, answer).

Definition ensureCarrierCodeAgentReady (client : CodeAgentClient)
    (hostID agentID backend workspaceRoot : string) : G () :=
  let input := mkVersionInput hostID agentID backend in
  let fails := preflight hostID agentID backend in
  version ← attempt (wait_for FirstVersion (GetCodeAgentVersion client FirstVersion input));
  let ready := match version with Ok value => negb (blank value) | Err _ => false end in
  if ready then mret tt
  else
    installed ← attempt (wait_for Install (InstallCodeAgent client
                  (mkInstallInput hostID agentID backend workspaceRoot)));
    match installed with
    | Err installErr =>
        throw (failing (fails "preflight failed")
          (match version with Err e => "version=" +:+ error_text e +:+ " " | Ok _ => "" end
           +:+ "install=" +:+ error_text installErr))
    | Ok _ =>
        version ← attempt (wait_for SecondVersion
                    (GetCodeAgentVersion client SecondVersion input));
        match version with
        | Err e => throw (EPrefix (error_text (fails "version after install failed")) e)
        | Ok value => fail_if (blank value) (fails "version after install is empty")
        end
    end.

(** [_, _ = e.carrier.FailJob(job.ID, err.Error()); return err] *)
Definition fail_job {T} (jobID : string) (e : error) : G T :=
  _ ← attempt (timed c (FailJob jobID (error_text e))); throw e.
(** The step whose failure fails the job. *)
Definition or_fail_job {T} (jobID : string) (m : G T) : G T :=
  r ← attempt m; match r with Ok x => mret x | Err e => fail_job jobID e end.

Definition bound_carrier (orderID milestoneID carrierID : string) : G Binding :=
  bound ← attempt (timed c (Bind orderID milestoneID carrierID ["codeagent"]));
  match bound with
  | Ok binding => mret binding
  | Err e => if bool_decide (e = ErrBindingExists)
             then ask_carrier (CarrierService.GetBinding orderID milestoneID) else throw e
  end.

(** What the agent's answer to the run amounts to. *)
Definition judge_run (stdoutPath stderrPath : string) (run : CodeAgentRunOutput) : result () :=
  if negb (EqualFold (TrimSpace (cro_PolicyDecision run)) "allow")
  then Err (Errf ("carrier policy decision rejected run: ok="
                  +:+ (if cro_OK run then "true" else "false")
                  +:+ " decision=" +:+ cro_PolicyDecision run))
  else if negb (cro_OK run) then Err (buildCarrierCommandFailure stdoutPath stderrPath)
  else Ok tt.

Definition Execute (input : carrierAwardExecutionInput) : G () :=
  let order := cae_Order input in
  let provider := cae_Binding input in
  match runningMilestone order with
  | None => throw (Errf ("order " +:+ o_ID order +:+ " has no running milestone"))
  | Some milestone =>
      binding ← bound_carrier (o_ID order) (ms_ID milestone) (pcb_ID provider);
      job ← timed c (CreateJob (cb_ID binding) (ms_ID milestone)
                       (carrierJobInput (cae_RFQ input) order milestone));
      _ ← timed c (StartJob (ej_ID job));
      let reportPath := carrierReportPath (pcb_WorkspaceRoot provider) (o_ID order)
                          (ms_ID milestone) in
      let stdoutPath := carrierStdoutPath reportPath in
      let stderrPath := carrierStderrPath reportPath in
      let reportDir := path_Dir reportPath in
      let callback := resolveCarrierReportCallbackConfig environment provider (cb_ID binding)
                        (ej_ID job) reportPath in
      let command := buildCarrierRunCommand reportDir reportPath
                       (buildCarrierPrompt (cae_RFQ input) order milestone) callback in
      let hostID := TrimSpace (pcb_HostID provider) in
      let agentID := firstNonEmptyString [TrimSpace (pcb_AgentID provider); "main"] in
      let backend := firstNonEmptyString [TrimSpace (pcb_Backend provider);
                                          defaultCarrierBackend] in
      let workspaceRoot := firstNonEmptyString [TrimSpace (pcb_WorkspaceRoot provider);
                                                defaultCarrierWorkspaceRoot] in
      let client := clientForBinding provider in
      _ ← or_fail_job (ej_ID job)
            (ensureCarrierCodeAgentReady client hostID agentID backend workspaceRoot);
      run ← or_fail_job (ej_ID job) (wait_for Run (RunCodeAgent client
              (mkRunInput hostID agentID backend workspaceRoot carrierRunCapability command
                 reportDir carrierRunTimeoutSec stdoutPath stderrPath)));
      _ ← or_fail_job (ej_ID job) (lift (judge_run stdoutPath stderrPath run));
      if Enabled callback then
        updatedJob ← ask_carrier (GetJob (ej_ID job));
        if bool_decide (ej_State updatedJob = JobStateCompleted) then mret tt
        else fail_job (ej_ID job)
               (Errf ("carrier run finished without milestone.ready callback: job="
                      +:+ ej_ID job +:+ " state=" +:+ job_state_string (ej_State updatedJob)))
      else
        _ ← timed c (CompleteJob (ej_ID job) reportPath);
        now ← time_now c;
        _ ← on_app (SettleMilestone (o_ID order) (mkSettleMilestoneInput (ms_ID milestone)
              ("Carrier execution completed. Result saved to " +:+ reportPath)
              "carrier-auto" now));
        mret tt
  end.
End executor.

(** ** The shell's reading of a command

    A reference for what a POSIX shell makes of a simple command: words separated by
    blanks, single quotes, backslashes outside them.  Any other character with a
    meaning for the shell is no part of a word. *)

Inductive quoting := Plain | Single | Escape.

Definition word_byte (a : ascii) : bool :=
  let n := nat_of_ascii a in
  (48 <=? n)%nat && (n <=? 57)%nat || (65 <=? n)%nat && (n <=? 90)%nat
  || (97 <=? n)%nat && (n <=? 122)%nat || existsb (Ascii.eqb a) ["-"; "_"; "/"; "."; "="]%char.

Definition push (word : option string) (a : ascii) : option string :=
  Some (default "" word +:+ String a "").
Definition flush (word : option string) : list string :=
  match word with Some w => [w] | None => [] end.

Fixpoint sh_lex (q : quoting) (word : option string) (s : string) : option (list string) :=
  match s with
  | EmptyString => match q with Plain => Some (flush word) | _ => None end
  | String a s =>
      match q with
      | Single => if Ascii.eqb a "'" then sh_lex Plain word s else sh_lex Single (push word a) s
      | Escape => sh_lex Plain (push word a) s
      | Plain =>
          if Ascii.eqb a "'" then sh_lex Single (Some (default "" word)) s
          else if Ascii.eqb a "\" then sh_lex Escape (Some (default "" word)) s
          else if Ascii.eqb a " " then app (flush word) <$> sh_lex Plain None s
          else if word_byte a then sh_lex Plain (push word a) s else None
      end
  end.
Definition sh_words (s : string) : option (list string) := sh_lex Plain None s.

(** A list of commands is cut at its unquoted semicolons. *)
Definition sh_step (q : quoting) (a : ascii) : quoting :=
  match q with
  | Plain => if Ascii.eqb a "'" then Single else if Ascii.eqb a "\" then Escape else Plain
  | Single => if Ascii.eqb a "'" then Plain else Single
  | Escape => Plain
  end.
Definition is_plain (q : quoting) : bool := match q with Plain => true | _ => false end.
Definition prepend (s : string) (l : list string) : list string :=
  match l with [] => [s] | h :: t => (s +:+ h) :: t end.
Fixpoint sh_split (q : quoting) (s : string) : list string :=
  match s with
  | EmptyString => [""]
  | String a s =>
      if is_plain q && Ascii.eqb a ";" then "" :: sh_split Plain s
      else prepend (String a "") (sh_split (sh_step q a) s)
  end.

(** *** Quoted values *)

Lemma app_byte a s : String a "" +:+ s = String a s.
Proof. done. Qed.

Lemma lex_escaped v w rest :
  sh_lex Single (Some w) (escape_quotes v +:+ String "'" rest) = sh_lex Plain (Some (w +:+ v)) rest.
Proof.
  revert w. induction v as [|a v IH]; intros w; cbn [escape_quotes].
  { rewrite app_empty_r. reflexivity. }
  rewrite <- string_app_assoc. destruct (Ascii.eqb_spec a "'") as [->|Ha].
  - change ("'\''" +:+ (escape_quotes v +:+ String "'" rest)) with
      (String "'" (String "\" (String "'" (String "'" (escape_quotes v +:+ String "'" rest))))).
    cbn [sh_lex Ascii.eqb]. cbn. unfold push. cbn [default]. rewrite IH.
    by rewrite <- string_app_assoc, app_byte.
  - rewrite app_byte. cbn [sh_lex]. apply Ascii.eqb_neq in Ha. rewrite Ha. unfold push.
    cbn [default]. rewrite IH. by rewrite <- string_app_assoc, app_byte.
Qed.
Lemma lex_quoted v word rest :
  sh_lex Plain word (shellQuote v +:+ rest) = sh_lex Plain (Some (default "" word +:+ v)) rest.
Proof.
  unfold shellQuote. destruct (String.eqb_spec v "") as [->|_].
  - rewrite app_empty_r. reflexivity.
  - rewrite <- !string_app_assoc. change ("'" +:+ (escape_quotes v +:+ ("'" +:+ rest))) with
      (String "'" (escape_quotes v +:+ String "'" rest)).
    cbn [sh_lex]. cbn. apply lex_escaped.
Qed.
Lemma lex_quoted_end v : sh_lex Plain None (shellQuote v) = Some [v].
Proof. rewrite <- (app_empty_r (shellQuote v)), lex_quoted. done. Qed.

(** Text that leaves the shell outside quotes and ends no command. *)
Definition closed (s : string) : Prop :=
  ∀ rest, sh_split Plain (s +:+ rest) = prepend s (sh_split Plain rest).

Lemma prepend_app s t l : prepend s (prepend t l) = prepend (s +:+ t) l.
Proof. destruct l; cbn [prepend]; by rewrite <- ?string_app_assoc. Qed.
Lemma closed_app s t : closed s → closed t → closed (s +:+ t).
Proof. intros Hs Ht rest. by rewrite <- string_app_assoc, Hs, Ht, prepend_app. Qed.
Lemma split_escaped v rest :
  sh_split Single (escape_quotes v +:+ String "'" rest)
  = prepend (escape_quotes v +:+ "'") (sh_split Plain rest).
Proof.
  induction v as [|a v IH]; cbn [escape_quotes]; [done|].
  rewrite <- !string_app_assoc. destruct (Ascii.eqb_spec a "'") as [->|Ha].
  - change ("'\''" +:+ (escape_quotes v +:+ String "'" rest)) with
      (String "'" (String "\" (String "'" (String "'" (escape_quotes v +:+ String "'" rest))))).
    cbn [sh_split is_plain sh_step]. cbn. rewrite IH, !prepend_app. done.
  - rewrite !app_byte. cbn [sh_split is_plain sh_step]. apply Ascii.eqb_neq in Ha.
    rewrite Ha. cbn [andb]. rewrite IH, prepend_app. done.
Qed.
Lemma closed_quote v : closed (shellQuote v).
Proof.
  intros rest. unfold shellQuote. destruct (String.eqb v "").
  - change ("''" +:+ rest) with (String "'" (String "'" rest)).
    cbn [sh_split is_plain sh_step]. cbn. by rewrite prepend_app.
  - rewrite <- !string_app_assoc. change ("'" +:+ (escape_quotes v +:+ ("'" +:+ rest))) with
      (String "'" (escape_quotes v +:+ String "'" rest)).
    cbn [sh_split is_plain sh_step]. cbn. rewrite split_escaped, prepend_app. done.
Qed.

(** Text without quotes, backslashes and semicolons. *)
Definition calm (a : ascii) : bool := negb (existsb (Ascii.eqb a) ["'"; "\"; ";"]%char).
Lemma sh_split_cons q s : ∃ h t, sh_split q s = h :: t.
Proof.
  destruct s as [|a s]; cbn [sh_split]; [by eexists _, _|].
  destruct (is_plain q && Ascii.eqb a ";"); [by eexists _, _|].
  destruct (sh_split (sh_step q a) s); by eexists _, _.
Qed.
Lemma closed_calm s : all_bytes calm s = true → closed s.
Proof.
  induction s as [|a s IH].
  { intros _ rest. destruct (sh_split_cons Plain rest) as (h & t & H).
    change ("" +:+ rest) with rest. by rewrite H. }
  cbn [all_bytes]. intros [Ha Hs]%andb_true_iff rest. rewrite app_cons.
  unfold calm in Ha. cbn [existsb] in Ha. rewrite !negb_orb in Ha.
  apply andb_true_iff in Ha as [Hq Ha]. apply andb_true_iff in Ha as [Hb Ha].
  apply andb_true_iff in Ha as [Hc _]. apply negb_true_iff in Hq, Hb, Hc.
  cbn [sh_split is_plain sh_step]. rewrite Hq, Hb, Hc. cbn [andb].
  rewrite (IH Hs rest), prepend_app. by rewrite app_byte.
Qed.
Ltac solve_closed :=
  repeat first [apply closed_quote | apply closed_calm; vm_compute; reflexivity | apply closed_app].

Lemma run_segments_closed dir path prompt c : Forall closed (run_segments dir path prompt c).
Proof.
  unfold run_segments, buildCarrierCallbackCommand. apply Forall_app. split.
  - repeat (apply Forall_cons; split; [solve_closed|]). constructor.
  - destruct (Enabled c); repeat constructor. solve_closed.
Qed.

(** Commands joined by semicolons are read one by one, each after a blank. *)
Definition indent (l : list string) : list string :=
  match l with [] => [""] | s :: l => s :: ((λ t, " " +:+ t) <$> l) end.
Lemma split_joined l : Forall closed l → sh_split Plain (Join "; " l) = indent l.
Proof.
  assert (H : ∀ l s, closed s → Forall closed l →
    sh_split Plain (Join "; " (s :: l)) = s :: ((λ t, " " +:+ t) <$> l)).
  { clear l. induction l as [|t l IH]; intros s Hs Hl.
    - cbn [Join]. rewrite <- (app_empty_r s) at 1. rewrite Hs. cbn [sh_split prepend].
      by rewrite app_empty_r.
    - apply Forall_cons in Hl as [Ht Hl]. change (Join "; " (s :: t :: l)) with
        (s +:+ ("; " +:+ Join "; " (t :: l))).
      rewrite Hs. change (sh_split Plain ("; " +:+ Join "; " (t :: l))) with
        ("" :: prepend " " (sh_split Plain (Join "; " (t :: l)))).
      rewrite (IH t Ht Hl). cbn [prepend]. by rewrite app_empty_r. }
  intros Hl. destruct Hl as [|s l Hs Hl]; [reflexivity|by apply H].
Qed.

(** Words before a quoted one. *)
Lemma lex_word w word rest :
  all_bytes word_byte w = true →
  sh_lex Plain word (w +:+ String " " rest)
  = app (flush (if String.eqb w "" then word else Some (default "" word +:+ w)))
      <$> sh_lex Plain None rest.
Proof.
  revert word. induction w as [|a w IH]; intros word; [done|].
  cbn [all_bytes]. intros [Ha Hw]%andb_true_iff. rewrite app_cons. cbn [sh_lex String.eqb].
  destruct (Ascii.eqb_spec a "'") as [->|_]; [done|].
  destruct (Ascii.eqb_spec a "\") as [->|_]; [done|].
  destruct (Ascii.eqb_spec a " ") as [->|_]; [done|].
  rewrite Ha, (IH _ Hw). unfold push. cbn [default].
  destruct (String.eqb_spec w "") as [->|_]; [done|].
  unfold id. by rewrite <- string_app_assoc, app_byte.
Qed.
Lemma words_word w rest : all_bytes word_byte w = true → w ≠ "" →
  sh_words (w +:+ " " +:+ rest) = cons w <$> sh_words rest.
Proof.
  intros Hw Hne%String.eqb_neq. unfold sh_words. change (" " +:+ rest) with (String " " rest).
  rewrite lex_word by done. by rewrite Hne.
Qed.
Lemma words_quoted v rest : sh_words (shellQuote v +:+ " " +:+ rest) = cons v <$> sh_words rest.
Proof.
  unfold sh_words. rewrite lex_quoted. change (" " +:+ rest) with (String " " rest). reflexivity.
Qed.
Lemma words_last v : sh_words (shellQuote v) = Some [v].
Proof. apply lex_quoted_end. Qed.

(**  The command run on the provider's host keeps its arguments.  Whatever the
    paths, the prompt (in which the buyer's title and scope stand) and the callback's
    values hold, quotes and semicolons included, the shell reads the command as
    [bash -lc] with one argument; that argument is the commands that were joined,
    cut at no other place; and of these the directory, the report, the prompt and the
    callback script each reach their program as one argument, unchanged. *)
Theorem run_command_keeps_arguments dir path prompt cfg :
  let commands := run_segments dir path prompt cfg in
  sh_words (buildCarrierRunCommand dir path prompt cfg)
    = Some ["bash"; "-lc"; Join "; " commands] ∧
  sh_split Plain (Join "; " commands) = indent commands ∧
  sh_words (nth 4 commands "") = Some ["mkdir"; "-p"; dir] ∧
  sh_words (nth 5 commands "") = Some ["cd"; dir] ∧
  sh_words (nth 6 commands "") = Some ["codex"; "exec"; "--cd"; dir; "--skip-git-repo-check";
    "--full-auto"; "--output-last-message"; path; prompt] ∧
  (Enabled cfg = true → ∃ command, nth_error commands 7 = Some command ∧
     sh_words command = Some ["node"; "-e"; callback_script cfg]).
Proof.
  intros commands. split_and!.
  - unfold buildCarrierRunCommand. fold commands.
    change ("bash -lc " +:+ shellQuote (Join "; " commands)) with
      ("bash" +:+ " " +:+ ("-lc" +:+ " " +:+ shellQuote (Join "; " commands))).
    by rewrite 2!words_word, words_last.
  - apply split_joined, run_segments_closed.
  - change (nth 4 commands "") with
      ("mkdir" +:+ " " +:+ ("-p" +:+ " " +:+ shellQuote dir)).
    by rewrite 2!words_word, words_last.
  - change (nth 5 commands "") with ("cd" +:+ " " +:+ shellQuote dir).
    by rewrite words_word, words_last.
  - change (nth 6 commands "") with
      ("codex" +:+ " " +:+ ("exec" +:+ " " +:+ ("--cd" +:+ " " +:+ (shellQuote dir +:+ " " +:+
       ("--skip-git-repo-check" +:+ " " +:+ ("--full-auto" +:+ " " +:+
        ("--output-last-message" +:+ " " +:+
         (shellQuote path +:+ " " +:+ shellQuote prompt)))))))).
    rewrite 3!words_word, words_quoted, 3!words_word, words_quoted, words_last by done. done.
  - intros He. exists (buildCarrierCallbackCommand cfg). split.
    + unfold commands, run_segments. by rewrite He.
    + change (buildCarrierCallbackCommand cfg) with
        ("node" +:+ " " +:+ ("-e" +:+ " " +:+ shellQuote (callback_script cfg))).
      by rewrite 2!words_word, words_last.
Qed.
