(* ===== verification/DemoStatus.v ===== *)
(** * The gateway's demonstration routes (internal/gateway/demo_status.go)

    The status of the demonstration, its preparation and the warming of the
    provider's pool.  Services asked over HTTP are [gc_fetch]; the preparation is
    the release tooling's, [gc_demoPrepare]. *)

From Stdlib Require Import Ascii.
From S2P Require Import Prelude GoNum GoText GoFloat Core GoTime Milestones Market Repo App.
From S2P Require Import ProviderSettlement Providers Orders Bidding Directory Funding RateLimit.
From S2P Require Import CarrierService CarrierEvents Http Web DemoEnv Gateway GatewayOrders.

Record demoResolvedActors := mkResolvedActors {
  dra_BuyerOrgID : string;
  dra_ProviderOrgID : string;
  dra_OpsOrgID : string;
  dra_Actors : list ActorStatus;
  dra_Blockers : list string;
}.

(** A membership in the answer to [/v1/me]: the organization's id and kind. *)
Definition decode_membership (v : json) : option (string * string) :=
  f ← as_object v; org ← object_field "organization" f;
  i ← string_field "id" org; k ← string_field "kind" org;
  Some (i, k).
Definition decode_me (f : list (string * json)) : option (list (string * string)) :=
  decode_field [] (as_list ("", "") decode_membership) "memberships" f.
Definition decode_session (f : list (string * json)) : option string :=
  session ← object_field "session" f; string_field "token" session.

Definition is_top_up (record : FundingRecord) : bool :=
  String.eqb (fr_Kind record) FundingRecordKindBuyerTopUp.
(** One record of the loop of [loadBuyerBalanceStatus]. *)
Definition count_record (status : BuyerBalanceStatus) (record : FundingRecord)
    : BuyerBalanceStatus :=
  if negb (is_top_up record) then status
  else if EqualFold (fr_State record) "SETTLED"
  then status <| bb_SettledTopUpCount ::= (λ n, n +w 1) |>
              <| bb_SettledTopUpCents ::= (λ n, n +w parseAmountToCents (fr_Amount record)) |>
  else status <| bb_PendingTopUpCount ::= (λ n, n +w 1) |>.

Section demo.
Context `{Storage} {L : Type} (c : GatewayConfig L).
Abbreviation G := (ST (Gateway L)).
Abbreviation Handler := (Request → G Answer).
Abbreviation demoConfig := (gc_demo c).

Definition fetch (request : Request) : G (Z * option json) := λ g,
  (g <| gw_fetches ::= (λ l, l ++ [request]) |>, gc_fetch c (gw_fetches g) request).
Definition url (baseURL path : string) : string := TrimRight "/" baseURL +:+ path.
Definition json_request (method address token : string) (body : option json) : Request :=
  mkRequest method address
    (λ h, if String.eqb h "Accept" then "application/json"
          else if String.eqb h "Authorization" && negb (String.eqb token "")
               then "Bearer " +:+ token
          else if String.eqb h "Content-Type" && negb (bool_decide (body = None))
               then "application/json" else "")
    (λ _, []) body "".

Definition checkHealth (id label baseURL : string) : G ServiceStatus :=
  let baseURL := TrimSpace baseURL in
  if String.eqb baseURL ""
  then mret (mkServiceStatus id label baseURL false "base url is not configured")
  else
    res ← attempt (fetch (mkRequest "GET" (url baseURL "/healthz") (λ _, "") (λ _, []) None ""));
    mret (match res with
          | Err e => mkServiceStatus id label baseURL false (error_text e)
          | Ok (status, _) =>
              if negb (status =? StatusOK)
              then mkServiceStatus id label baseURL false ("unexpected status " +:+ pretty status)
              else mkServiceStatus id label baseURL true ""
          end).

(** A body that must decode. *)
Definition decoded {T} (dec : list (string * json) → option T) (body : option json) : result T :=
  match f ← body_fields body; dec f with Some x => Ok x | None => Err invalid_json end.

Definition fetchDemoActorOrgID (baseURL : string) (cfg : ActorConfig) : G string :=
  '(status, body) ← fetch (json_request "POST" (url baseURL "/v1/sessions") ""
    (Some (JObj [("email", JStr (acf_Email cfg)); ("password", JStr (acf_Password cfg))])));
  _ ← fail_if (StatusBadRequest <=? status) (Errf ("iam session status " +:+ pretty status));
  token ← lift (decoded decode_session body);
  _ ← fail_if (blank token) (Errf "iam session token missing");
  '(status, body) ← fetch (json_request "GET" (url baseURL "/v1/me") token None);
  _ ← fail_if (StatusBadRequest <=? status) (Errf ("iam me status " +:+ pretty status));
  memberships ← lift (decoded decode_me body);
  match List.find (λ m, String.eqb m.2 (acf_OrganizationKind cfg) && negb (blank m.1))
          memberships with
  | Some m => mret m.1
  | None => throw (Errf ("no " +:+ acf_OrganizationKind cfg +:+ " membership found"))
  end.

Definition resolveDemoActor (cfg : ActorConfig) : G (string * ActorStatus * list string) :=
  let role := TrimSpace (acf_OrganizationKind cfg) in
  let role := if String.eqb role "" then "unknown" else role in
  let org := TrimSpace (acf_OrganizationID cfg) in
  let status := mkActorStatus role (acf_Email cfg) in
  if negb (String.eqb org "")
  then mret (org, status org true "configured from demo environment", [])
  else if blank (dc_IAMBaseURL demoConfig)
  then mret ("", status "" false "iam base url is not configured",
             ["DEMO_IAM_BASE_URL is not configured"])
  else if blank (acf_Email cfg) || blank (acf_Password cfg)
  then mret ("", status "" false "email or password is not configured",
             [role +:+ " demo credentials are not configured"])
  else
    org ← attempt (fetchDemoActorOrgID (dc_IAMBaseURL demoConfig) cfg);
    mret (match org with
          | Err e => ("", status "" false (error_text e),
                      [role +:+ " actor lookup failed: " +:+ error_text e])
          | Ok org => (org, status org true "resolved via IAM login", [])
          end).

Definition resolveDemoActors : G demoResolvedActors :=
  '(buyer, buyerStatus, buyerBlockers) ← resolveDemoActor (dc_Buyer demoConfig);
  '(provider, providerStatus, providerBlockers) ← resolveDemoActor (dc_Provider demoConfig);
  '(ops, opsStatus, opsBlockers) ← resolveDemoActor (dc_Ops demoConfig);
  mret (mkResolvedActors buyer provider ops [buyerStatus; providerStatus; opsStatus]
          (buyerBlockers ++ providerBlockers ++ opsBlockers)).

Definition no_balance (buyerOrgID : string) : BuyerBalanceStatus :=
  mkBuyerBalance buyerOrgID 0 0 0 (dc_MinBuyerBalanceCents demoConfig) false.
Definition loadBuyerBalanceStatus (authHeader buyerOrgID : string)
    : G (BuyerBalanceStatus * list string) :=
  let status := no_balance buyerOrgID in
  if blank (dc_SettlementBaseURL demoConfig)
  then mret (status, ["DEMO_SETTLEMENT_BASE_URL is not configured"])
  else
    records ← attempt (fetchSettlementFundingRecords c authHeader
                [("buyerOrgId", buyerOrgID); ("kind", FundingRecordKindBuyerTopUp)]);
    mret (match records with
          | Err e => (status, ["load buyer topups: " +:+ error_text e])
          | Ok records =>
              let status := foldl count_record status records in
              (status <| bb_MeetsMinimumThreshold :=
                 bb_MinimumRequiredCents status <=? bb_SettledTopUpCents status |>, [])
          end).

Definition no_pool (providerOrgID carrier settlement : string) : ProviderSettlementStatus :=
  mkProviderStatus providerOrgID carrier settlement "" 0 0 0
    (dc_MinProviderLiquidityCents demoConfig) false.
Definition loadProviderSettlementStatus (providerOrgID : string)
    : G (ProviderSettlementStatus * list string) :=
  carrier ← attempt (on_app (GetProviderCarrierBinding providerOrgID));
  settlement ← attempt (on_app (GetProviderSettlementBinding providerOrgID));
  pool ← attempt (on_app (GetProviderSettlementPool providerOrgID));
  let carrierStatus := match carrier with Ok b => pcb_Status b | Err _ => "" end in
  let settlementStatus := match settlement with Ok b => psb_Status b | Err _ => "" end in
  let blockers := when (negb (is_ok carrier)) "provider carrier binding is missing"
    ++ when (negb (is_ok settlement)) "provider settlement binding is missing" in
  mret (match pool with
        | Err _ => (no_pool providerOrgID carrierStatus settlementStatus,
                    blockers ++ ["provider liquidity pool is missing"])
        | Ok pool =>
            let required := dc_MinProviderLiquidityCents demoConfig in
            (mkProviderStatus providerOrgID carrierStatus settlementStatus
              (pool_status_text (pool_Status pool))
               (pool_ReadyChannelCount pool) (pool_AvailableToAllocateCents pool)
               (pool_ReservedOutstandingCents pool) required
               (String.eqb carrierStatus "active" && String.eqb settlementStatus "active"
                && bool_decide (pool_Status pool = PoolStatusHealthy)
                && (required <=? pool_AvailableToAllocateCents pool)), blockers)
        end).

Definition buildDemoStatus (authHeader : string) : G demoenv_Status :=
  actors ← resolveDemoActors;
  settlement ← checkHealth "settlement" "Settlement" (dc_SettlementBaseURL demoConfig);
  execution ← checkHealth "execution" "Execution" (dc_ExecutionBaseURL demoConfig);
  carrier ← checkHealth "carrier" "Carrier" (dc_CarrierBaseURL demoConfig);
  fiber ← checkHealth "fiber-adapter" "Fiber Adapter" (dc_FiberAdapterBaseURL demoConfig);
  iam ← (if blank (dc_IAMBaseURL demoConfig) then mret []
         else s ← checkHealth "iam" "IAM" (dc_IAMBaseURL demoConfig); mret [s]);
  '(balance, balanceBlockers) ← (if blank (dra_BuyerOrgID actors)
    then mret (no_balance (dra_BuyerOrgID actors), ["buyer demo actor could not be resolved"])
    else loadBuyerBalanceStatus authHeader (dra_BuyerOrgID actors));
  '(provider, providerBlockers) ← (if blank (dra_ProviderOrgID actors)
    then mret (no_pool (dra_ProviderOrgID actors) "" "",
               ["provider demo actor could not be resolved"])
    else loadProviderSettlementStatus (dra_ProviderOrgID actors));
  now ← time_now c;
  mret (FinalizeStatus now (mkDemoStatus None (dc_ResourcePrefix demoConfig) None
    (dra_Blockers actors ++ balanceBlockers ++ providerBlockers)
    (mkServiceStatus "api-gateway" "API Gateway" (dc_APIBaseURL demoConfig) true
       "current request reached api-gateway" :: settlement :: execution :: carrier :: fiber :: iam)
    (dra_Actors actors) balance provider)).

Definition handleDemoStatus : Handler := λ r,
  let? _ := resolveOpsUser c r orelse auth_error in
  status ← buildDemoStatus (rq_Header r "Authorization");
  mret (ok (GDemoStatus status)).

Definition handleDemoPrepare : Handler := λ r,
  let? _ := resolveOpsUser c r orelse auth_error in
  g ← get_st;
  _ ← modify (λ g, g <| gw_prepares ::= S |>);
  let '(summary, err) := gc_demoPrepare c (gw_prepares g) in
  mret (match err with
        | None => ok (GDemoSummary summary None)
        | Some e => answer (if is_error e ErrDemoNotReady then StatusConflict
                            else StatusBadGateway) (GDemoSummary summary (Some e))
        end).

(** An absent body stands for an empty payload. *)
Definition decode_warmup (r : Request) : result (string * Z) :=
  if blank (rq_RawBody r) && bool_decide (rq_Body r = None) then Ok ("", 0)
  else decode (λ f, p ← string_field "providerOrgId" f;
                    m ← int_field "minimumAvailableCents" f; Some (p, m)) r.

Definition handleDemoWarmup : Handler := λ r,
  let? _ := resolveOpsUser c r orelse auth_error in
  let? payload := lift (decode_warmup r) orelse coded StatusBadRequest ErrCodeValidation in
  providerOrgID ← (if blank payload.1
                   then actors ← resolveDemoActors; mret (dra_ProviderOrgID actors)
                   else mret payload.1);
  let minimum := if payload.2 <=? 0 then dc_MinProviderLiquidityCents demoConfig
                 else payload.2 in
  if blank providerOrgID
  then mret (coded StatusBadRequest ErrCodeValidation (Errf "providerOrgId is required"))
  else
    let? pool := on_app (WarmProviderSettlementPool providerOrgID minimum)
      orelse λ e, plain (if is_error e ErrProviderSettlementPoolUnavailable
                            || is_error e ErrProviderSettlementProvisionerMissing
                         then StatusConflict else StatusBadRequest) e in
    mret (ok (GPool pool)).
End demo.
