(* ===== verification/GatewayServe.v ===== *)
(** * The gateway's router (internal/gateway/server.go)

    [ServeHTTP]: the routes in the order they are tried, and the handler of the
    first one that fits.

    The theorem of this file is that every request is answered: whatever its
    path, no handler reaches outside the segments it was routed by.  A gateway to run
    the other files' examples on comes last. *)

From Stdlib Require Import Ascii.
From S2P Require Import Prelude GoNum GoText Core Milestones Market Repo App ProviderSettlement Providers.
From S2P Require Import Orders Bidding Directory RateLimit CarrierService CarrierEvents Http Web DemoEnv.
From S2P Require Import Gateway GatewayOrders GatewayDirectory GatewayCallbacks DemoStatus Funding.
From S2P Require Import MemoryRepo Lifecycle SettlementLedger Credit Awards.

Section serve.
Context `{Storage} `{MO : MapOrder} {L : Type} (c : GatewayConfig L).
Context (SortFunc : (Listing → Listing → Z) → list Listing → list Listing).
Abbreviation G := (ST (Gateway L)).
Abbreviation Handler := (Request → G Answer).

(** [NewServerWithOptions], on an application and a carrier service. *)
Definition NewServer (app : App) (carrier : CarrierService.Service) (limits : L) : Gateway L :=
  mkGateway _ L (app <| notifier := true |>) carrier NewEvidenceStore NewEventLedger ∅ limits
    None 0 [] [] 0 [] 0.

Record route := mkRoute {
  rt_Method : string;
  rt_Fits : string → bool;
  rt_Handler : Handler;
}.
Definition fits (r : Request) (rt : route) : bool :=
  String.eqb (rq_Method r) (rt_Method rt) && rt_Fits rt (rq_Path r).

Definition exactly (path : string) : string → bool := String.eqb path.
Definition get_ := mkRoute "GET".
Definition post := mkRoute "POST".
Definition patch := mkRoute "PATCH".

Definition handleHealth : Handler := λ _, mret (ok (GStatus "ok")).
Definition routes : list route :=
  [get_ (exactly "/healthz") handleHealth;
   get_ (exactly "/api/v1/system") handleSystemInfo;
   get_ (exactly "/api/v1/system/ratelimits") (handleRateLimitConfig c);
   get_ (exactly "/api/v1/system/stale-jobs") (handleStaleJobs c);
   get_ (exactly "/api/v1/system/exposure") handleFiberExposure;
   get_ (exactly "/api/v1/ops/demo/status") (handleDemoStatus c);
   post (exactly "/api/v1/ops/demo/prepare") (handleDemoPrepare c);
   post (exactly "/api/v1/ops/demo/warmup") (handleDemoWarmup c);
   post (exactly "/api/v1/provider-applications") handleSubmitApplication;
   get_ (exactly "/api/v1/provider-applications") handleListApplications;
   post isApplicationReviewPath handleReviewApplication;
   post (exactly "/api/v1/carrier-bindings") handleRegisterCarrierBinding;
   get_ isCarrierBindingPath handleGetCarrierBinding;
   post isCarrierBindingVerifyPath handleVerifyCarrierBinding;
   post isCarrierBindingSuspendPath handleSuspendCarrierBinding;
   post (exactly "/api/v1/provider-settlement-bindings") handleRegisterProviderSettlementBinding;
   get_ isProviderSettlementBindingPoolPath handleGetProviderSettlementPool;
   get_ isProviderSettlementBindingPath handleGetProviderSettlementBinding;
   post isProviderSettlementBindingVerifyPath handleVerifyProviderSettlementBinding;
   post isProviderSettlementBindingSuspendPath handleSuspendProviderSettlementBinding;
   post isProviderSettlementBindingDisconnectPath (handleDisconnectProviderSettlementBinding c);
   post isProviderSettlementBindingRecoverPath (handleRecoverProviderSettlementBinding c);
   post (λ p, exactly "/api/v1/carrier/callback" p || exactly "/api/v1/carrier/callbacks/events" p)
     (handleCarrierCallback c);
   post (exactly "/api/v1/credit-limits") handleSetCreditLimit;
   get_ isGetCreditLimitPath handleGetCreditLimit;
   post isJobEvidencePath (handleSubmitEvidence c);
   get_ isJobEvidencePath handleGetEvidence;
   get_ (exactly "/api/v1/stats") handleMarketplaceStats;
   get_ (exactly "/api/v1/leaderboard") handleLeaderboard;
   get_ (exactly "/api/v1/export/orders") handleExportOrders;
   get_ (exactly "/api/v1/export/disputes") handleExportDisputes;
   get_ (exactly "/api/v1/export/rfqs") handleExportRFQs;
   get_ (exactly "/api/v1/export/applications") handleExportApplications;
   post (exactly "/api/v1/orders/batch-status") handleBatchOrderStatus;
   post (exactly "/api/v1/listings") handleCreateListing;
   post isOrderTopUpPath handleTopUpMilestone;
   get_ (exactly "/api/v1/providers") handleListProviders;
   get_ isProviderPath handleGetProvider;
   get_ isProviderRevenuePath handleProviderRevenue;
   get_ (exactly "/api/v1/listings") (handleListListings SortFunc);
   get_ isListingPath handleGetListing;
   get_ (exactly "/api/v1/rfqs") (handleListRFQs c);
   get_ isRFQDetailPath handleGetRFQ;
   get_ (exactly "/api/v1/disputes") (handleListDisputes c);
   get_ isDisputeDetailPath handleGetDispute;
   get_ isRFQBidsPath (handleListRFQBids c);
   get_ (exactly "/api/v1/orders") (handleListOrders c);
   post (exactly "/api/v1/rfqs") (handleCreateRFQ c);
   post isRFQBidsPath (handleCreateBid c);
   post isRFQAwardPath (handleAwardRFQ c);
   get_ isRFQMessagesPath (handleListRFQMessages c);
   post isRFQMessagesPath (handleCreateRFQMessage c);
   get_ isOrderRatingPath handleGetOrderRating;
   get_ isOrderMessagesPath (handleListOrderMessages c);
   get_ isOrderBudgetPath handleOrderBudget;
   get_ isOrderTimelinePath handleOrderTimeline;
   get_ isOrderProviderSettlementReservationPath (handleGetOrderProviderSettlementReservation c);
   get_ isBindCarrierPath (handleGetBinding c);
   get_ isCreateJobPath handleListJobs;
   get_ (λ p, HasPrefix p "/api/v1/orders/") (handleGetOrder c);
   post (exactly "/api/v1/orders") (handleCreateOrder c);
   post isOrderSettlePath (handleSettleMilestone c);
   post isOrderUsagePath (handleRecordUsage c);
   post isOrderDisputesPath (handleCreateDispute c);
   post isDisputeResolvePath (handleResolveDispute c);
   post (exactly "/api/v1/credits/decision") (handleCreditDecision c);
   post (exactly "/api/v1/messages") (handleCreateMessage c);
   post isOrderRatingPath (handleRateOrder c);
   post isBindCarrierPath (handleBindCarrier c);
   post isCreateJobPath (handleCreateJob c);
   get_ isJobPath handleGetJob;
   patch (λ p, isJobActionPath p "start") (handleStartJob c);
   patch (λ p, isJobActionPath p "complete") (handleCompleteJob c);
   patch (λ p, isJobActionPath p "fail") (handleFailJob c);
   post (λ p, isJobActionPath p "progress") (handleJobProgress c);
   post (λ p, isJobActionPath p "heartbeat") (handleJobHeartbeat c);
   post (λ p, isJobActionPath p "cancel") (handleCancelJob c);
   get_ (exactly "/api/v1/webhooks") (handleListWebhooks c);
   post (exactly "/api/v1/webhooks") (handleRegisterWebhook c);
   get_ (λ p, HasPrefix p "/api/v1/notifications/") (handleListNotifications c);
   mkRoute "DELETE" (λ p, HasPrefix p "/api/v1/webhooks/") (handleUnregisterWebhook c)].

Definition serve (r : Request) : G Answer :=
  match List.find (fits r) routes with
  | Some rt => rt_Handler rt r
  | None => mret (coded StatusNotFound ErrCodeNotFound (Errf "route not found"))
  end.

(** The actor found for a request is forgotten with it. *)
Definition ServeHTTP (r : Request) : G Answer :=
  _ ← modify (λ g, g <| gw_actor := None |>);
  response ← serve r;
  _ ← modify (λ g, g <| gw_actor := None |>);
  mret response.

Definition serve_all (rs : list Request) (g : Gateway L) : Gateway L :=
  foldl (λ g r, (ServeHTTP r g).1) g rs.

Lemma ServeHTTP_eq r g :
  ServeHTTP r g = match serve r (g <| gw_actor := None |>) with
                  | (g', Ok response) => (g' <| gw_actor := None |>, Ok response)
                  | (g', Err e) => (g', Err e)
                  end.
Proof.
  unfold ServeHTTP, modify, mbind, st_bind. destruct (serve r _) as [g' [a|e]]; done.
Qed.
Lemma ServeHTTP_inv r g g' response :
  ServeHTTP r g = (g', Ok response) →
  ∃ g1, serve r (g <| gw_actor := None |>) = (g1, Ok response) ∧ g' = g1 <| gw_actor := None |>.
Proof.
  rewrite ServeHTTP_eq. destruct (serve r _) as [g1 [a|e]]; [|done]. intros [= <- ->]. eauto.
Qed.
End serve.

(** ** Every request is answered *)

Section answered.
Context {S : Type}.

Definition answered {R} (m : ST S R) : Prop := ∀ s, ∃ s' a, m s = (s', Ok a).

Lemma answered_ret {R} (a : R) : answered (mret a).
Proof. intros s. by eexists _, _. Qed.
Lemma answered_bind {A R} (m : ST S A) (k : A → ST S R) :
  answered m → (∀ x, answered (k x)) → answered (m ≫= k).
Proof.
  intros Hm Hk s. destruct (Hm s) as (s1 & a & Hs). destruct (Hk a s1) as (s2 & b & Hs2).
  exists s2, b. unfold mbind, st_bind. by rewrite Hs.
Qed.
Lemma answered_respond {A R} (m : ST S A) (h : error → R) (k : A → ST S R) :
  (∀ x, answered (k x)) → answered (or_respond m h k).
Proof.
  intros Hk s. rewrite or_respond_eq. destruct (m s) as [s1 [a|e]]; [apply Hk|by eexists _, _].
Qed.
Lemma answered_attempt {A} (m : ST S A) : answered (attempt m).
Proof. intros s. unfold attempt. destruct (m s). by eexists _, _. Qed.
Lemma answered_get : answered (get_st : ST S S).
Proof. intros s. by eexists _, _. Qed.
Lemma answered_modify (f : S → S) : answered (modify f).
Proof. intros s. by eexists _, _. Qed.
Lemma answered_query {T A} (get : S → T) (f : T → A) : answered (query get (λ t, Ok (f t))).
Proof. intros s. by eexists _, _. Qed.
Lemma answered_part {R} i n parts (k : string → ST S R) :
  has_len parts n = true → (i < n)%nat → (∀ p, answered (k p)) →
  answered (lift (part i parts) ≫= k).
Proof.
  intros Hl Hi Hk s. destruct (part_Ok _ _ _ Hi Hl) as [p Hp].
  unfold mbind, st_bind, lift. rewrite Hp. apply Hk.
Qed.
Lemma answered_part_ge {R} i parts (k : string → ST S R) :
  (i < length parts)%nat → (∀ p, answered (k p)) → answered (lift (part i parts) ≫= k).
Proof. intros Hl. apply (answered_part i (length parts)); [|done]. apply Nat.eqb_refl. Qed.
End answered.
Lemma answered_zoom {S T A} (get : S → T) (set : T → S → S) (m : ST T A) : answered m → answered (zoom get set m).
Proof. intros Hm s. unfold zoom. destruct (Hm (get s)) as (t & a & ->). by eexists _, _. Qed.

Create HintDb answered.
#[export] Hint Resolve answered_ret answered_attempt answered_get answered_modify : answered.

Section gateway_answered.
Context `{Storage} `{MO : MapOrder} {L : Type} (c : GatewayConfig L).
Abbreviation G := (ST (Gateway L)).

Lemma answered_time : answered (time_now c : G Time).
Proof. intros s. by eexists _, _. Qed.
Lemma answered_see {T} (f : App → T) : answered (see_app f : G T).
Proof. apply answered_query. Qed.
Hint Resolve answered_time answered_see : answered.

Lemma answered_user r : answered (actorUserID c r : G string).
Proof.
  unfold actorUserID. destruct (no_auth c); [apply answered_ret|].
  apply answered_bind; auto with answered.
Qed.
Lemma answered_limited policy meta (k : G Answer) : answered k → answered (limited c policy meta k).
Proof.
  intros Hk. unfold limited. apply answered_bind.
  - unfold applyRateLimit. destruct (gc_rateLimiter c); [|apply answered_ret].
    repeat (apply answered_bind; [by auto with answered|]; intros ?). apply answered_ret.
  - intros [r|]; [apply answered_ret|done].
Qed.
Lemma answered_dispatch rfq order : answered (dispatchCarrierExecution c rfq order : G ()).
Proof.
  unfold dispatchCarrierExecution. destruct (gc_executor c); cbn [negb]; [|apply answered_ret].
  apply answered_bind; [apply answered_attempt|]. intros [b|e]; [|apply answered_ret].
  destruct (String.eqb _ _); auto with answered.
Qed.
Lemma answered_limit b n s : answered (on_app (SetCreditLimit b n s) : G BuyerCreditLimit).
Proof.
  apply answered_zoom. unfold SetCreditLimit.
  repeat (apply answered_bind; [first [by auto with answered|intros a; unfold notify;
    destruct (notifier a); by eexists _, _]|]; intros ?).
  apply answered_ret.
Qed.
Lemma answered_ledger id d : answered (on_ledger (UpdateDecision id d) : G ()).
Proof.
  intros g. unfold on_ledger, zoom, UpdateDecision, mbind, st_bind, get_st.
  destruct (_ !! id) as [[p|]|]; by eexists _, _.
Qed.
End gateway_answered.
#[export] Hint Resolve answered_time answered_see answered_user answered_dispatch
  answered_limit answered_ledger : answered.

(** Follow the structure of a handler; a segment is there because the route that
    leads to the handler has counted the segments. *)
Ltac solve_answered :=
  repeat first
    [ match goal with |- ∀ _, _ => intro end
    | apply answered_respond
    | apply answered_limited
    | solve [auto with answered]
    | eapply answered_part; [eassumption|lia|]
    | apply answered_part_ge; [assumption|]
    | apply answered_bind; [solve [auto with answered]|]
    | match goal with
      | |- answered (match ?x with _ => _ end) => destruct x eqn:?
      | |- answered (mbind _ _) => apply answered_bind
      end ].

(** Open a handler and count the segments its route's predicate counts. *)
Ltac open_handler := match goal with |- answered ?m => let h := head m in unfold h end.
Lemma counted n parts b :
  has_len parts n && b = true → (3 < n)%nat → (3 < length parts)%nat.
Proof. intros [->%Nat.eqb_eq _]%andb_prop Hn. done. Qed.
Ltac open_path H :=
  match type of H with ?p = true => let h := head p in try unfold h in H end;
  cbv zeta in H; rewrite <- ?andb_assoc in H;
  try first [apply (counted 4) in H; [|lia] | apply (counted 5) in H; [|lia]].

Section routes_answered.
Context `{Storage} `{MO : MapOrder} {L : Type} (c : GatewayConfig L).
Context (SortFunc : (Listing → Listing → Z) → list Listing → list Listing).
Abbreviation G := (ST (Gateway L)).

Lemma answered_with_order r id (k : G Answer) : answered k → answered (GatewayOrders.with_order c r id k).
Proof. intros Hk. unfold GatewayOrders.with_order. solve_answered; done. Qed.
Lemma answered_with_rfq r (k : Actor → G Answer) (o : G Answer) :
  (∀ a, answered (k a)) → answered o → answered (with_rfq c r k o).
Proof. intros Hk Ho. unfold with_rfq. solve_answered; auto. Qed.
Lemma answered_with_target r (k : string → G Answer) :
  (∀ t, answered (k t)) → answered (with_target c r k).
Proof.
  intros Hk. unfold with_target. cbv zeta.
  destruct (Nat.ltb_spec (length (segments (rq_Path r))) 4); [apply answered_ret|].
  apply answered_part_ge; [lia|]. intros t. solve_answered; apply Hk.
Qed.
Lemma answered_act e id : answered (act_on_event c e id : G Answer).
Proof.
  unfold act_on_event. apply answered_bind; [unfold process_event; solve_answered|].
  intros [r|a]; [apply answered_ret|].
  apply answered_bind; [unfold buildCallbackResponse; solve_answered|].
  intros resp. apply answered_bind; [|intros; apply answered_ret].
  destruct (String.eqb id ""); [apply answered_ret|apply answered_ledger].
Qed.
Lemma answered_accept e : answered (accept_event c e : G Answer).
Proof. unfold accept_event. cbv zeta. solve_answered; apply answered_act. Qed.

(** The status of the demonstration fails at nothing it reads. *)
Lemma answered_demo_actor cfg : answered (resolveDemoActor c cfg : G _).
Proof. unfold resolveDemoActor. cbv zeta. solve_answered. Qed.
Hint Resolve answered_demo_actor : answered.
Lemma answered_demo_actors : answered (resolveDemoActors c : G demoResolvedActors).
Proof. unfold resolveDemoActors. solve_answered. Qed.
Lemma answered_health id label url : answered (checkHealth c id label url : G ServiceStatus).
Proof. unfold checkHealth. cbv zeta. solve_answered. Qed.
Lemma answered_balance auth org : answered (loadBuyerBalanceStatus c auth org : G _).
Proof. unfold loadBuyerBalanceStatus. cbv zeta. solve_answered. Qed.
Lemma answered_provider org : answered (loadProviderSettlementStatus c org : G _).
Proof. unfold loadProviderSettlementStatus. solve_answered. Qed.
Hint Resolve answered_demo_actors answered_health answered_balance answered_provider : answered.
Lemma answered_demo_status auth : answered (buildDemoStatus c auth : G demoenv_Status).
Proof.
  unfold buildDemoStatus. solve_answered.
Qed.
Hint Resolve answered_demo_status : answered.

(** Every route's handler answers what the route lets through. *)
Lemma routes_answered : Forall (λ rt : route, ∀ r,
  rt_Fits rt (rq_Path r) = true → answered (rt_Handler rt r)) (routes c SortFunc).
Proof.
  unfold routes. repeat (apply Forall_cons; split); [..|apply Forall_nil; done].
  all: intros r Hf; cbv [rt_Handler rt_Fits get_ post patch] in Hf |- *.
  all: open_path Hf; open_handler; cbv zeta; solve_answered.
  all: first [apply answered_accept | apply answered_with_order | apply answered_with_rfq
             | apply answered_with_target]; solve_answered.
Qed.

(**  The gateway answers every request: whatever its method, path, headers and
    body and whatever state it meets, the handler the router picks ends with a
    response; in particular no handler takes a segment of the path that its route
    has not counted.  (An index outside a slice inside the platform would be a
    panic that the model answers as an error; the one there is, the binding an
    award reads, goes through an index that was stored with the binding.) *)
Theorem gateway_answers r (g : Gateway L) :
  ∃ g' response, ServeHTTP c SortFunc r g = (g', Ok response).
Proof.
  assert (H0 : answered (serve c SortFunc r)).
  { unfold serve. destruct (List.find _ _) as [rt|] eqn:Hrt; [|apply answered_ret].
    apply List.find_some in Hrt as [Hin [_ Hf]%andb_prop].
    apply list_elem_of_In in Hin.
    exact (proj1 (Forall_forall _ _) routes_answered rt Hin r Hf). }
  unfold ServeHTTP. apply answered_bind; [apply answered_modify|]. intros _.
  apply answered_bind; [done|]. intros response.
  apply answered_bind; [apply answered_modify|]. intros _. apply answered_ret.
Qed.
End routes_answered.

(** * A gateway to run

    A gateway over the in-memory repositories with two tokens: Bo buys for the
    organization [buyer], Pat delivers for [p1]; [exec] is the token of executions.
    The settlement service knows one top-up of 12.50. *)

Definition bo : Actor := mkActor "u_bo" "" "Bo" [mkMembership "buyer" "" "buyer" "procurement"].
Definition pat : Actor := mkActor "u_pat" "" "Pat" [mkMembership "p1" "" "provider" "sales"].
Definition demo_iam (_ : nat) (token : string) : result Actor :=
  if String.eqb token "bo" then Ok bo
  else if String.eqb token "pat" then Ok pat else Err ErrUnauthorized.
Definition topped_up : FundingRecord :=
  mkFundingRecord "fr_1" FundingRecordKindBuyerTopUp "" "" "buyer" "" "USDI" "12.5" "" ""
    "SETTLED" ∅ 0 0.
Definition nobody : ActorConfig := mkActorConfig "" "" "" "" "" "".
Definition demo_env : demoenv_Config :=
  mkDemoConfig "" "" "http://settlement" "" "" "" "" nobody nobody nobody 5000 88000 "50.00" "demo".
Definition demo_config : GatewayConfig () :=
  mkGatewayConfig () (Some demo_iam) (NewTokenSet ["exec"]) None (λ _, "") true
    demo_env (λ _ _, Ok (StatusOK, Some [topped_up])) (λ _ _, Ok (StatusOK, None))
    (λ _, (JNull, None)) "" (λ n, Z.of_nat n)
    (λ n _, Z.of_nat n).

(** Requests with a bearer token, a service token and a body. *)
Definition headers (token service : string) (h : string) : string :=
  if String.eqb h "Authorization" then "Bearer " +:+ token
  else if String.eqb h HeaderName then service else "".
Definition request_as (token service method path : string) (body : option json) : Request :=
  mkRequest method path (headers token service) (λ _, []) body "".
Definition demo_gateway : Gateway () := NewServer demo_app NewService ().
Definition demo_serve (r : Request) : Gateway () → Gateway () * result Answer :=
  ServeHTTP (MO := plain_order) demo_config (λ _ l, l) r.
Definition demo_serve_all (rs : list Request) : Gateway () → Gateway () :=
  serve_all (MO := plain_order) demo_config (λ _ l, l) rs.

Definition milestone_json (id : string) (cents : Z) : json :=
  JObj [("id", JStr id); ("title", JStr "work"); ("basePriceCents", JInt cents);
        ("budgetCents", JInt cents)].
Definition create_order (token mode : string) (cents : Z) : Request :=
  request_as token "" "POST" "/api/v1/orders" (Some (JObj
    [("providerOrgId", JStr "p1"); ("title", JStr "t"); ("fundingMode", JStr mode);
     ("creditLineId", JStr "line"); ("milestones", JArr [milestone_json "ms_1" cents])])).
Definition settle (service order milestone : string) : Request :=
  request_as "" service "POST"
    ("/api/v1/orders/" +:+ order +:+ "/milestones/" +:+ milestone +:+ "/settle")
    (Some (JObj [("summary", JStr "done"); ("source", JStr "carrier")])).

Definition first_order : Request := create_order "bo" "prepaid" 1000.

Definition first_stored : Order :=
  mkOrder "ord_1" "buyer" "p1" FundingModePrepaid "line" "platform_main" OrderStatusRunning
    [mkMilestone "ms_1" "work" 1000 1000 0 "" MilestoneStateRunning DisputeStatusNone [] None []].

(** The prepaid order is created, settled by an execution, then refused for want of
    balance. *)
Example demo_run :
  let g1 := demo_serve (create_order "bo" "prepaid" 1000) demo_gateway in
  let g2 := demo_serve (settle "nope" "ord_1" "ms_1") g1.1 in
  let g3 := demo_serve (settle "exec" "ord_1" "ms_1") g1.1 in
  let g4 := demo_serve (create_order "bo" "prepaid" 300) g1.1 in
  let status (x : Gateway () * result Answer) := match x.2 with Ok r => rs_Status r | _ => 0 end in
  (status g1, status g2, status g3, status g4) = (201, 401, 200, 409).
Proof. vm_compute. reflexivity. Qed.
