(* ===== verification/GatewayHistory.v ===== *)
(** * Orders behind the gateway

    What the platform guarantees of its orders (System.v) holds of the orders of a
    platform that is reached through the gateway: whatever requests arrive, no
    handler touches an order other than through the operations of the platform. *)

From S2P Require Import RateLimit CarrierService CarrierEvents Http Web Prelude GoNum GoText Core.
From S2P Require Import Milestones Market Repo MemoryRepo App Lifecycle ProviderSettlement Providers.
From S2P Require Import SettlementLedger Orders Bidding OrderHandlers Credit Awards Directory System.
From S2P Require Import DemoEnv Gateway GatewayOrders Export GatewayDirectory GatewayCallbacks DemoStatus.
From S2P Require Import GatewayServe.

(** ** The operations of the platform the gateway calls *)

Section platform.
Context `{StorageLaws} `{MO : MapOrder}.

Lemma bind_state {S A B} (m : ST S A) (f : A → ST S B) s :
  (∀ x s, (f x s).1 = s) → ((m ≫= f) s).1 = (m s).1.
Proof. intros Hf. unfold mbind, st_bind. destruct (m s) as [s' [x|e]]; [apply Hf|done]. Qed.

Lemma Settle_evolves P id input : P (OpSettle input) → frames (evolves P) (SettleMilestone id input).
Proof.
  intros HP a. rewrite <- (bind_state (SettleMilestone id input)
    (λ '(o, e), mret (o, [e])) a) by (by intros [] ?). apply (handle_evolves P (RSettle id input)); intros ?; apply HP.
Qed.
Lemma Usage_evolves P id input : P (OpUsage input) → frames (evolves P) (RecordUsageCharge id input).
Proof.
  intros HP a. rewrite <- (bind_state (RecordUsageCharge id input)
    (λ '(o, _), mret (o, @nil LedgerEntry)) a) by (by intros [] ?).
  apply (handle_evolves P (RUsage id input)); intros ?; apply HP.
Qed.
Lemma Dispute_evolves P id input : (∀ i t, P (OpDispute i t)) → frames (evolves P) (OpenDispute id input).
Proof.
  intros HP a. rewrite <- (bind_state (OpenDispute id input)
    (λ '(o, refund, recovery), mret (o, [refund; recovery])) a) by (by intros [[] ?] ?).
  apply (handle_evolves P (RDispute id input)); intros ?; apply HP.
Qed.
Lemma Resolve_evolves P id input : (∀ i, P (OpResolve i)) → frames (evolves P) (ResolveDispute id input).
Proof.
  intros HP a. rewrite <- (bind_state (ResolveDispute id input)
    (λ '(_, o), mret (o, @nil LedgerEntry)) a) by (by intros [] ?).
  apply (handle_evolves P (RResolve id input)); intros ?; apply HP.
Qed.
Lemma TopUp_evolves P id input : (∀ i, P (OpTopUp i)) → frames (evolves P) (TopUpMilestone id input).
Proof.
  intros HP a. rewrite <- (bind_state (TopUpMilestone id input)
    (λ o, mret (o, @nil LedgerEntry)) a) by done.
  apply (handle_evolves P (RTopUp id input)); intros ?; apply HP.
Qed.

Hint Resolve on_messages_store validate_store on_bids_store on_rfqs_store carrier_store
  active_store : frames.
Lemma CreateListing_store i : frames same_store (CreateListing i).
Proof. unfold CreateListing. solve_frames; intros a; by repeat case_match. Qed.
Lemma ListMessages_store i : frames same_store (ListOrderMessages i).
Proof. unfold ListOrderMessages. solve_frames. Qed.
Lemma ListRFQMessages_store i : frames same_store (ListRFQMessages i).
Proof. unfold ListRFQMessages. solve_frames. Qed.
Lemma GetCarrier_store org : frames same_store (GetProviderCarrierBinding org).
Proof. unfold GetProviderCarrierBinding. solve_frames. Qed.
Lemma GetSettlement_store org : frames same_store (GetProviderSettlementBinding org).
Proof. unfold GetProviderSettlementBinding. solve_frames. Qed.
Lemma GetPool_store org : frames same_store (GetProviderSettlementPool org).
Proof. unfold GetProviderSettlementPool. solve_frames. Qed.
Lemma charge_events_store id l : frames same_store (charge_events id l).
Proof. induction l as [|u l IH]; cbn [charge_events]; solve_frames; apply IH. Qed.
Hint Resolve charge_events_store : frames.
Lemma milestone_events_store m : frames same_store (milestone_events m).
Proof. unfold milestone_events. solve_frames. Qed.
Hint Resolve milestone_events_store : frames.
Lemma milestones_events_store l : frames same_store (milestones_events l).
Proof. induction l as [|m l IH]; cbn [milestones_events]; solve_frames; apply IH. Qed.
Hint Resolve milestones_events_store : frames.
Lemma Timeline_store i : frames same_store (GetOrderTimeline i).
Proof. unfold GetOrderTimeline. solve_frames. Qed.
End platform.

(** ** What a handler leaves *)

Create HintDb platform.
Create HintDb gateway.

(** The operations that pay: settlements and charges. *)
Definition pays (op : order_op) : bool :=
  match op with OpSettle _ | OpUsage _ => true | _ => false end.

(** Where carriers call back. *)
Definition callback_path (p : string) : bool :=
  exactly "/api/v1/carrier/callback" p || exactly "/api/v1/carrier/callbacks/events" p.

Section gateway.
Context `{StorageLaws} `{MO : MapOrder} {L : Type} (c : GatewayConfig L).
Context (P : order_op → Prop) (HP : ∀ op, pays op = false → P op).
Context (SortFunc : (Listing → Listing → Z) → list Listing → list Listing).
Abbreviation G := (ST (Gateway L)).

Definition gateway_evolves (g g' : Gateway L) : Prop := evolves P (gw_app g) (gw_app g').
#[local] Instance gateway_evolves_preorder : PreOrder gateway_evolves.
Proof. split; unfold gateway_evolves; [intros g; reflexivity|].
  intros g g1 g2 H1 H2. exact (transitivity H1 H2). Qed.

Lemma on_app_evolves {T} (m : M T) : frames (evolves P) m → frames gateway_evolves (on_app m : G T).
Proof.
  intros Hm g. unfold on_app, zoom. specialize (Hm (gw_app g)).
  destruct (m (gw_app g)). exact Hm.
Qed.
Lemma on_app_store {T} (m : M T) : frames same_store m → frames gateway_evolves (on_app m : G T).
Proof. intros Hm. by apply on_app_evolves, frames_same_store. Qed.
Lemma aside_evolves {T} (m : G T) :
  (∀ g, gw_app (m g).1 = gw_app g) → frames gateway_evolves m.
Proof. intros Hm g. unfold gateway_evolves. by rewrite Hm. Qed.
Lemma zoom_evolves {T A} (get : Gateway L → T) (set : T → Gateway L → Gateway L) (m : ST T A) :
  (∀ t g, gw_app (set t g) = gw_app g) → frames gateway_evolves (zoom get set m).
Proof. intros Hs. apply aside_evolves. intros g. unfold zoom. destruct (m (get g)). apply Hs. Qed.
Lemma respond_evolves {A R} (m : G A) (h : error → R) (k : A → G R) :
  frames gateway_evolves m → (∀ a, frames gateway_evolves (k a)) →
  frames gateway_evolves (or_respond m h k).
Proof.
  intros Hm Hk g. rewrite or_respond_eq. specialize (Hm g). destruct (m g) as [g1 [a|e]]; [|done].
  etransitivity; [exact Hm|apply Hk].
Qed.
Lemma modify_evolves f : (∀ g, gw_app (f g) = gw_app g) →
  frames gateway_evolves (modify f : G ()).
Proof. intros Hf. by apply aside_evolves. Qed.

(** Follow the structure of a handler: calls of the platform by the lemmas above,
    everything else leaves it alone. *)
Ltac gateway_step :=
  lazymatch goal with
  | |- ∀ _, _ => intro
  | |- frames _ (or_respond _ _ _) => apply respond_evolves
  | |- frames _ (mbind _ _) => apply frames_bind
  | |- frames _ (mret _) => apply frames_ret
  | |- frames _ (throw _) => apply frames_throw
  | |- frames _ get_st => apply frames_get
  | |- frames _ (query _ _) => apply frames_query
  | |- frames _ (attempt _) => apply frames_attempt
  | |- frames _ (fail_if _ _) => apply frames_fail_if
  | |- frames _ (modify _) => apply modify_evolves; done
  | |- frames _ (zoom _ _ _) => apply zoom_evolves; done
  | |- frames _ (on_app _) =>
      first [ apply on_app_store; solve [auto with platform]
            | apply on_app_evolves; solve [auto with platform] | assumption ]
  | |- frames _ (match ?x with _ => _ end) => destruct x
  | |- frames _ (λ g, _) => apply aside_evolves; intros ?
  | |- gw_app (match ?x with _ => _ end).1 = _ => destruct x
  | |- gw_app _ = _ => done
  | |- PreOrder _ => typeclasses eauto
  | |- frames _ ?m =>
      first [ solve [auto with gateway] | let h := head m in unfold h; cbv zeta ]
  end.
Ltac solve_gateway := repeat gateway_step.

Lemma dispute_gateway id i : frames (evolves P) (OpenDispute id i).
Proof. apply Dispute_evolves. intros. by apply HP. Qed.
Lemma resolve_gateway id i : frames (evolves P) (ResolveDispute id i).
Proof. apply Resolve_evolves. intros. by apply HP. Qed.
Lemma topup_gateway id i : frames (evolves P) (TopUpMilestone id i).
Proof. apply TopUp_evolves. intros. by apply HP. Qed.
Lemma disconnect_gateway org reason : frames (evolves P) (ReportProviderSettlementDisconnect org reason).
Proof. by apply Disconnect_evolves, HP. Qed.
Lemma recover_gateway org : frames (evolves P) (RecoverProviderSettlement org).
Proof. by apply Recover_evolves, HP. Qed.

Hint Resolve dispute_gateway resolve_gateway topup_gateway CreateOrder_evolves Award_evolves
  disconnect_gateway recover_gateway
  CreateRFQ_store CreateBid_store CreateMessage_store CreateRFQMessage_store RateOrder_store
  SetCreditLimit_store Submit_store Review_store RegisterCarrier_store VerifyCarrier_store
  SuspendCarrier_store RegisterSettlement_store VerifySettlement_store SuspendSettlement_store
  CreateListing_store ListMessages_store ListRFQMessages_store GetCarrier_store
  GetSettlement_store GetPool_store GetReservation_store Timeline_store Warm_store : platform.

Lemma actor_evolves r : frames gateway_evolves (authenticatedActor c r : G Actor).
Proof. unfold authenticatedActor, GetActor. solve_gateway. Qed.
Hint Resolve actor_evolves : gateway.

(** The handlers that pay; no other does. *)
Definition paying (rt : route (L := L)) : Prop :=
  rt_Handler rt = handleSettleMilestone c ∨ rt_Handler rt = handleRecordUsage c ∨
  rt_Handler rt = handleCarrierCallback c ∧ rt_Fits rt = callback_path.
Lemma routes_pay : Forall (λ rt : route, paying rt ∨ ∀ r, frames gateway_evolves (rt_Handler rt r))
  (routes c SortFunc).
Proof.
  unfold routes. repeat (apply Forall_cons; split); [..|apply Forall_nil; done].
  all: unfold paying; cbv [rt_Handler get_ post patch].
  all: lazymatch goal with
    | |- context [handleSettleMilestone c = handleSettleMilestone c] => by left; left
    | |- context [handleRecordUsage c = handleRecordUsage c] => by left; right; left
    | |- context [handleCarrierCallback c = handleCarrierCallback c] => by left; right; right; split
    | _ => right; intros r; solve_gateway
    end.
Qed.

Section paid.
Context (Hpaid : ∀ op, P op).

Lemma settle_gateway id i : frames (evolves P) (SettleMilestone id i).
Proof. by apply Settle_evolves. Qed.
Lemma usage_gateway id i : frames (evolves P) (RecordUsageCharge id i).
Proof. by apply Usage_evolves. Qed.
Hint Resolve settle_gateway usage_gateway : platform.
Lemma process_evolves e : frames gateway_evolves (process_event c e : G (Answer + RecommendedAction)).
Proof. unfold process_event. solve_gateway. Qed.
Hint Resolve process_evolves : gateway.
Lemma accept_evolves e : frames gateway_evolves (accept_event c e : G Answer).
Proof. unfold accept_event, act_on_event. cbv zeta. solve_gateway. Qed.
Hint Resolve accept_evolves : gateway.
Lemma callback_evolves r : frames gateway_evolves (handleCarrierCallback c r : G Answer).
Proof. unfold handleCarrierCallback, authenticate_callback. solve_gateway. Qed.

Lemma routing_evolves r : frames gateway_evolves (serve c SortFunc r : G Answer).
Proof.
  unfold serve. destruct (List.find _ _) as [rt|] eqn:Hrt; [|apply frames_ret, _].
  apply List.find_some in Hrt as [Hin%list_elem_of_In _].
  destruct (proj1 (Forall_forall _ _) routes_pay rt Hin) as [[->|[->|[-> _]]]|Hev]; [..|apply Hev].
  - unfold handleSettleMilestone. solve_gateway.
  - unfold handleRecordUsage. solve_gateway.
  - apply callback_evolves.
Qed.
Lemma ServeHTTP_evolves r : frames gateway_evolves (ServeHTTP c SortFunc r : G Answer).
Proof. pose proof (routing_evolves r). unfold ServeHTTP. solve_gateway. Qed.
Lemma requests_evolve rs g : gateway_evolves g (serve_all c SortFunc rs g).
Proof.
  unfold serve_all. revert g. induction rs as [|r rs IH]; intros g; cbn [foldl]; [reflexivity|].
  etransitivity; [apply (ServeHTTP_evolves r)|apply IH].
Qed.
End paid.
End gateway.

Section histories.
Context `{StorageLaws} `{MO : MapOrder} {L : Type} (c : GatewayConfig L).
Context (SortFunc : (Listing → Listing → Z) → list Listing → list Listing).

(** C3.  Through the gateway, orders have histories.  Whatever requests are sent,
    by whomever, a stored order stays readable under its id, between the same
    parties and funded the same way, and what becomes of it is some history of
    settlements, charges, disputes, top-ups and outages; and an order that was not
    there before is such a history of an order as it is created, so it is
    well-formed: what is settled is the base price, and if it is completed every
    milestone has been paid. *)
Theorem gateway_orders_have_histories rs (g : Gateway L) :
  valid (orders (gw_app g)) →
  let g' := serve_all c SortFunc rs g in
  (∀ k o, get_order k (gw_app g) = Ok o →
     ∃ o' ops, get_order k (gw_app g') = Ok o' ∧ o' = (run ops o).1 ∧ same_header o o') ∧
  (∀ k o', get_order k (gw_app g) = Err ErrOrderNotFound →
     get_order k (gw_app g') = Ok o' →
     ∃ input ops, o' = (run ops (new_order k input)).1 ∧ o_ID o' = k ∧ order_ok o').
Proof.
  intros Hv g'. pose proof (requests_evolve c any_op (λ _ _, I) SortFunc (λ _, I) rs g Hv) as Hev. split.
  - intros k o Hg. destruct (ev_old _ _ _ Hev k o Hg) as (ops & _ & Ho).
    exists (run ops o).1, ops. split_and!; [done|done|apply run_header].
  - intros k o' Hn Hg. destruct (ev_new _ _ _ Hev k o' Hg) as [Hk|(input & ops & _ & ->)];
      [by rewrite Hn in Hk|].
    exists input, ops. split; [done|]. split; [|apply run_ok, new_order_ok].
    by destruct (run_header ops (new_order k input)) as [-> _].
Qed.
End histories.

(** An order created and settled by requests. *)
Definition traffic : list Request :=
  [create_order "bo" "prepaid" 1000; settle "nope" "ord_1" "ms_1"; settle "exec" "ord_1" "ms_1"].

Lemma gateway_orders_have_histories_witness :
  ∃ o, get_order "ord_1" (gw_app (demo_serve_all traffic demo_gateway)) = Ok o ∧
       o_Status o = OrderStatusCompleted ∧ order_ok o.
Proof.
  assert (Ho : ∃ o, get_order "ord_1" (gw_app (demo_serve_all traffic demo_gateway)) = Ok o ∧
    o_Status o = OrderStatusCompleted) by (eexists; vm_compute; split; reflexivity).
  destruct Ho as (o & Ho & Hs). exists o. split; [exact Ho|]. split; [exact Hs|].
  destruct (gateway_orders_have_histories (H0 := memory_laws) (MO := plain_order) demo_config
    (λ _ l, l) traffic demo_gateway demo_valid) as [_ Hnew].
  destruct (Hnew "ord_1" o eq_refl Ho) as (_ & _ & _ & _ & Hok). exact Hok.
Defined.
