(* ===== verification/GatewayFunds.v ===== *)
(** * Prepaid orders and the buyer's balance

    The gateway makes a prepaid order, created or awarded, within what the settlement service says
    the buyer has topped up, less what his open prepaid orders still commit.  The
    run at the end shows the one way around it. *)

From S2P Require Import RateLimit CarrierService CarrierEvents Http Web Funding Prelude GoNum GoText Core.
From S2P Require Import Milestones Market Repo MemoryRepo App Lifecycle ProviderSettlement Providers.
From S2P Require Import SettlementLedger Orders Bidding OrderHandlers Credit Awards Directory Gateway.
From S2P Require Import GatewayOrders System GatewayServe.

(** ** Commitments as exact integers *)

Definition commits (buyer : string) (o : Order) : Prop :=
  o_BuyerOrgID o = buyer ∧ o_FundingMode o = FundingModePrepaid ∧
  o_Status o ∈ committedStatuses.
#[export] Instance commits_dec buyer o : Decision (commits buyer o).
Proof. unfold commits. apply _. Defined.
Definition commitment (buyer : string) (o : Order) : Z :=
  if decide (commits buyer o) then sumZ (unsettled_cents <$> o_Milestones o) else 0.
Definition committed (buyer : string) (os : list Order) : Z := sumZ (commitment buyer <$> os).
Definition credited (records : list FundingRecord) : Z :=
  sumZ ((λ record, parseAmountToCents (fr_Amount record)) <$> records).

(** The loop's three conditions. *)
Lemma skips_uncommitted buyer o :
  negb (String.eqb (o_BuyerOrgID o) buyer) || negb (IsPrepaidCommitted (Some o))
    || negb (bool_decide (o_Status o ∈ committedStatuses)) = negb (bool_decide (commits buyer o)).
Proof.
  rewrite <- !negb_andb. f_equal. apply eq_true_iff_eq.
  rewrite !andb_true_iff, !bool_decide_eq_true. unfold commits, IsPrepaidCommitted.
  rewrite String.eqb_eq. destruct (String.eqb_spec (o_FundingMode o) FundingModePrepaid); cbn [negb].
  - rewrite !orb_true_iff, !bool_decide_eq_true. unfold committedStatuses.
    rewrite !elem_of_cons, elem_of_nil. tauto.
  - intuition done.
Qed.

Lemma committed_wrap buyer os :
  buyerCommittedPrepaidCents os buyer = wrap64 (committed buyer os).
Proof.
  unfold buyerCommittedPrepaidCents, committed. change 0 with (wrap64 0) at 1.
  rewrite <- (Z.add_0_l (sumZ _)). generalize 0 as acc.
  induction os as [|o os IH]; intros acc; cbn [foldl fmap list_fmap sumZ].
  - by rewrite Z.add_0_r.
  - unfold commitment at 1. rewrite skips_uncommitted.
    destruct (decide (commits buyer o)) as [Hc|Hc];
      [rewrite bool_decide_true by done|rewrite bool_decide_false by done]; cbn [negb].
    + assert (Hf : ∀ l acc, foldl (λ c m, c +w unsettled_cents m) (wrap64 acc) l
        = wrap64 (acc + sumZ (unsettled_cents <$> l))).
      { intros l acc'. rewrite <- foldl_add64. by rewrite foldl_fmap. }
      rewrite Hf, IH. f_equal. lia.
    + rewrite IH. f_equal.
Qed.

(** What a new order commits: its budget, none of which is negative. *)
Lemma unsettled_new i m :
  0 ≤ cmi_BudgetCents m → in64 (cmi_BudgetCents m) →
  unsettled_cents (new_milestone i m) = cmi_BudgetCents m.
Proof.
  intros Hn Hi. unfold unsettled_cents, new_milestone. cbn [ms_State ms_BudgetCents ms_SettledCents].
  rewrite bool_decide_false by (by destruct i).
  rewrite sub64_exact by (by rewrite Z.sub_0_r). rewrite Z.sub_0_r.
  destruct (Z.ltb_spec 0 (cmi_BudgetCents m)); lia.
Qed.
Lemma new_commitment id input :
  coi_FundingMode input = FundingModePrepaid →
  Forall (λ m, 0 ≤ cmi_BudgetCents m) (coi_Milestones input) →
  in64 (sumZ (cmi_BudgetCents <$> coi_Milestones input)) →
  commitment (coi_BuyerOrgID input) (new_order id input)
  = sumZ (cmi_BudgetCents <$> coi_Milestones input).
Proof.
  intros Hm Hn Hi. unfold commitment. rewrite decide_True by (split_and!; [done|done|by left]).
  unfold new_order. cbn [o_Milestones]. revert Hn Hi. generalize (coi_Milestones input) as l.
  assert (H : ∀ l (f : nat → CreateMilestoneInput → Milestone),
    (∀ i m, 0 ≤ cmi_BudgetCents m → in64 (cmi_BudgetCents m) →
       unsettled_cents (f i m) = cmi_BudgetCents m) →
    Forall (λ m, 0 ≤ cmi_BudgetCents m) l → in64 (sumZ (cmi_BudgetCents <$> l)) →
    sumZ (unsettled_cents <$> imap f l) = sumZ (cmi_BudgetCents <$> l)).
  { induction l as [|m l IH]; intros f Hf Hn Hi; [done|].
    apply Forall_cons in Hn as [Hm0 Hn]. cbn [imap fmap list_fmap sumZ] in *.
    assert (0 ≤ sumZ (cmi_BudgetCents <$> l)) by (apply sumZ_nonneg; by apply Forall_fmap).
    assert (in64 (cmi_BudgetCents m) ∧ in64 (sumZ (cmi_BudgetCents <$> l))) as [? ?]
      by (unfold in64, min_int64, max_int64 in *; lia).
    rewrite Hf by done. f_equal. apply (IH (f ∘ S)); [|done..].
    intros i x. apply (Hf (S i)). }
  intros l Hn Hi. apply H; [|done..]. intros i m. apply unsettled_new.
Qed.

Section funds.
Context `{StorageLaws} `{MO : MapOrder} {L : Type} (c : GatewayConfig L).
Context (SortFunc : (Listing → Listing → Z) → list Listing → list Listing).
Abbreviation G := (ST (Gateway L)).

Definition open_prepaid (buyer : string) : OrderListFilter :=
  mkOrderListFilter buyer FundingModePrepaid committedStatuses.

(** The records the settlement service answers the next request with. *)
Definition answered_with (g : Gateway L) (records : list FundingRecord) : Prop :=
  ∃ request status, gc_settlement c (gw_settlement_calls g) request = Ok (status, Some records) ∧
    status < StatusBadRequest.

Lemma fetch_Ok auth filters (g g' : Gateway L) records :
  fetchSettlementFundingRecords c auth filters g = (g', Ok records) →
  answered_with g records ∧ gw_app g' = gw_app g.
Proof.
  unfold fetchSettlementFundingRecords, answered_with. set (request := mkRequest _ _ _ _ _ _).
  intros [= <- Hr]. split; [|done]. exists request.
  destruct (gc_settlement c _ request) as [[status [rs|]]|e]; cbn in Hr; try done;
    destruct (StatusBadRequest <=? status) eqn:Hs; try done. simplify_eq. exists status. split; [done|]. by apply Z.leb_gt.
Qed.

Lemma ensure_Ok auth buyer n (g g' : Gateway L) :
  ensureBuyerPrepaidAvailability c auth buyer n g = (g', Ok tt) →
  0 < n → blank (gc_SettlementBaseURL c) = false →
  gw_app g' = gw_app g ∧
  ∃ records os, answered_with g records ∧
    order_ListByFilter (open_prepaid buyer) (orders (gw_app g)) = Ok os ∧
    n ≤ wrap64 (credited records) -w wrap64 (committed buyer os).
Proof.
  intros Hr Hn Hb. unfold ensureBuyerPrepaidAvailability in Hr.
  destruct (Z.leb_spec n 0); [lia|]. rewrite Hb in Hr.
  apply bind_Ok in Hr as (g1 & fetched & Hf & Hr). rewrite attempt_Ok in Hf.
  apply bind_Ok in Hr as (g2 & records & Hrec & Hr).
  destruct fetched as [rs|]; [|done]. injection Hrec as <- <-.
  apply fetch_Ok in Hf as [Ha Hg1].
  apply bind_Ok in Hr as (g3 & listed & Hl & Hr). rewrite attempt_Ok in Hl.
  injection Hl as <- Hl.
  apply bind_Ok in Hr as (g4 & os & Hos & Hr).
  destruct listed as [os'|]; [|done]. injection Hos as <- <-.
  apply fail_if_Ok in Hr as [Hlt ->]. split; [done|]. exists rs, os'. rewrite Hg1 in Hl.
  split_and!; [done|done|]. rewrite sum64_wrap, committed_wrap in Hlt. by apply Z.ltb_ge.
Qed.

Definition same_app (g g' : Gateway L) : Prop := gw_app g' = gw_app g.
#[local] Instance same_app_preorder : PreOrder same_app.
Proof. unfold same_app. split; [done|]. intros g g1 g2. congruence. Qed.
Lemma fetch_same auth filters :
  frames same_app (fetchSettlementFundingRecords c auth filters : G (list FundingRecord)).
Proof. done. Qed.
Hint Resolve fetch_same : frames.
Lemma ensure_same auth buyer n :
  frames same_app (ensureBuyerPrepaidAvailability c auth buyer n : G ()).
Proof. unfold ensureBuyerPrepaidAvailability. solve_frames. Qed.

Lemma limited_inv policy meta (k : G Answer) g g' a :
  limited c policy meta k g = (g', Ok a) → rs_Status a < StatusBadRequest →
  ∃ g1, gw_app g1 = gw_app g ∧ gw_settlement_calls g1 = gw_settlement_calls g ∧
        k g1 = (g', Ok a).
Proof.
  unfold limited. intros Hr Ha. apply bind_Ok in Hr as (g1 & blocked & Hb & Hr).
  assert (Hg : gw_app g1 = gw_app g ∧ gw_settlement_calls g1 = gw_settlement_calls g ∧
    ∀ x, blocked = Some x → StatusBadRequest ≤ rs_Status x).
  { unfold applyRateLimit in Hb. destruct (gc_rateLimiter c) as [allow|]; [|by injection Hb as <- <-].
    apply bind_Ok in Hb as (g2 & t & [= <- <-] & Hb).
    apply bind_Ok in Hb as (g3 & d & Hd & [= <- <-]). rewrite attempt_Ok in Hd.
    unfold zoom in Hd. cbn [gw_limits update] in Hd. destruct (allow policy meta _ _) as [l r].
    injection Hd as <- <-. split_and!; [done|done|].
    intros x. destruct r as [dec|]; [destruct (Allowed dec)|]; by intros [= <-]. }
  destruct Hg as (Hg & Hc & Hne). destruct blocked as [x|]; [|eauto].
  injection Hr as _ ->. specialize (Hne a eq_refl). lia.
Qed.

Lemma serve_create r :
  rq_Method r = "POST" → rq_Path r = "/api/v1/orders" →
  serve c SortFunc r = handleCreateOrder c r.
Proof. destruct r. cbn. intros -> ->. reflexivity. Qed.

(** Steps that reach neither the platform nor the settlement service. *)
Definition aside (g g' : Gateway L) : Prop :=
  gw_app g' = gw_app g ∧ gw_settlement_calls g' = gw_settlement_calls g.
#[local] Instance aside_preorder : PreOrder aside.
Proof. split; [done|]. intros g g1 g2 [] []. split; congruence. Qed.
Lemma get_actor_aside token : frames aside (GetActor c token : G Actor).
Proof. intros g. unfold GetActor. by destruct (gc_auth c). Qed.
Lemma lift_aside {A} (x : result A) : frames aside (lift x : G A).
Proof. done. Qed.
Lemma modify_aside f : (∀ g, aside g (f g)) → frames aside (modify f : G ()).
Proof. intros Hf g. apply Hf. Qed.
Hint Resolve get_actor_aside lift_aside : frames.
Lemma token_actor_aside r : frames aside (token_actor c r : G Actor).
Proof. unfold token_actor. solve_frames. Qed.
Hint Resolve token_actor_aside : frames.
Lemma buyer_aside r requested : frames aside (resolveBuyerOrg c r requested : G string).
Proof. unfold resolveBuyerOrg. solve_frames. Qed.
Lemma user_aside r : frames aside (actorUserID c r : G string).
Proof.
  unfold actorUserID, authenticatedActor. solve_frames. by apply modify_aside.
Qed.

(** A prepaid order that is created has passed the check of the balance. *)
Lemma handleCreateOrder_inv r (g g' : Gateway L) o w :
  handleCreateOrder c r g = (g', Ok (created (GOrder o w))) →
  ∃ input g1 g2, gw_app g1 = gw_app g ∧ gw_settlement_calls g1 = gw_settlement_calls g ∧
    gw_app g2 = gw_app g ∧ coi_BuyerOrgID input ≠ "" ∧
    (coi_FundingMode input = FundingModePrepaid →
     ensureBuyerPrepaidAvailability c (rq_Header r "Authorization") (coi_BuyerOrgID input)
       (totalMilestoneBudgetCents (coi_Milestones input)) g1 = (g2, Ok tt)) ∧
    on_app (CreateOrder input) g2 = (g', Ok o).
Proof.
  unfold handleCreateOrder. cbv zeta. intros Hr.
  apply respond_inv in Hr as (g1 & payload & [= <- _] & Hr); [|done].
  destruct (Build _); [done|]. destruct (bool_decide _); [done|].
  destruct (negb _); [done|]. destruct (_ && _); [done|].
  apply respond_inv in Hr as (g1 & buyer & Hb & Hr).
  2: { intros e. unfold auth_error. by destruct (WriteAuthError e). }
  pose proof (frames_result _ _ _ _ _ (buyer_aside r _) Hb) as [Hb1 Hb2].
  apply bind_Ok in Hr as (g2 & user & Hu & Hr).
  pose proof (frames_result _ _ _ _ _ (user_aside r) Hu) as [Hu1 Hu2].
  apply limited_inv in Hr as (g3 & Hl1 & Hl2 & Hr); [|done].
  destruct (_ || _ || _) eqn:Hne; [done|].
  apply orb_false_iff in Hne as [[Hne _]%orb_false_iff _]. apply String.eqb_neq in Hne.
  apply respond_inv in Hr as (g4 & [] & He & Hr); [|done].
  apply respond_inv in Hr as (g5 & o' & Hc & [= -> ->]); [|done].
  match type of Hc with on_app (CreateOrder ?input) _ = _ => exists input, g3, g4 end.
  assert (gw_app g4 = gw_app g3).
  { destruct (String.eqb _ _) in He; [|by injection He as <-].
    exact (frames_result _ _ _ _ _ (ensure_same _ _ _) He). }
  split_and!; [congruence|congruence|congruence|exact Hne| |exact Hc].
  intros Hm. cbn [coi_FundingMode] in *. by rewrite Hm in He.
Qed.

(** What the order an award makes will cost, as the gateway reads it off the bid. *)
Lemma bid_budget rfqID bidID a n bid :
  valid (bids a) → findBidBudgetCents rfqID bidID a = Ok (Some n) →
  get_bid bidID a = Ok bid → n = totalBidBudgetCents (b_Milestones bid).
Proof.
  intros Hv Hf Hb. unfold findBidBudgetCents, ListRFQBids in Hf. destruct (blank bidID); [done|].
  destruct (bid_ListByRFQ rfqID (bids a)) as [l|] eqn:Hl; [|done].
  destruct (bid_ListByRFQ_spec _ _ _ Hv Hl) as [_ Hin]. cbn in Hf.
  destruct (List.find _ _) as [b|] eqn:Hfind; [|done]. injection Hf as <-.
  apply List.find_some in Hfind as [Hbl%list_elem_of_In Hid%String.eqb_eq].
  apply Hin in Hbl as [Hg _]. unfold get_bid in Hb. rewrite Hid in Hg. cbn in Hg. congruence.
Qed.

(** Calls of the platform that leave the orders alone. *)
Definition same_orders (g g' : Gateway L) : Prop := orders (gw_app g') = orders (gw_app g).
#[local] Instance same_orders_preorder : PreOrder same_orders.
Proof. unfold same_orders. split; [done|]. intros g g1 g2. congruence. Qed.
Lemma dispatch_orders rfq o : frames same_orders (dispatchCarrierExecution c rfq o : G ()).
Proof.
  unfold dispatchCarrierExecution. destruct (negb _); [by apply frames_ret, _|].
  apply frames_bind; [apply _| |].
  - apply frames_attempt. intros g. unfold on_app, zoom, same_orders.
    assert (Hs : frames same_store (GetProviderCarrierBinding (o_ProviderOrgID o)))
      by (unfold GetProviderCarrierBinding; solve_frames).
    specialize (Hs (gw_app g)). by destruct (GetProviderCarrierBinding _ _).
  - intros [b|]; [destruct (String.eqb _ _)|]; try apply frames_ret, _. by intros g.
Qed.

(** An award on prepaid funds has passed the check of the balance too. *)
Lemma handleAwardRFQ_inv r (g g' : Gateway L) rfq' o :
  handleAwardRFQ c r g = (g', Ok (ok (GAward rfq' o))) → valid (bids (gw_app g)) →
  ∃ rfqID input rfq g1 g2 a',
    gw_app g1 = gw_app g ∧ gw_settlement_calls g1 = gw_settlement_calls g ∧
    get_rfq rfqID (gw_app g) = Ok rfq ∧
    (ari_FundingMode input = FundingModePrepaid →
     ∀ bid, get_bid (ari_BidID input) (gw_app g) = Ok bid →
       ensureBuyerPrepaidAvailability c (rq_Header r "Authorization") (rfq_BuyerOrgID rfq)
         (totalBidBudgetCents (b_Milestones bid)) g1 = (g2, Ok tt)) ∧
    AwardRFQ rfqID input (gw_app g) = (a', Ok (rfq', o)) ∧ orders (gw_app g') = orders a'.
Proof.
  unfold handleAwardRFQ. cbv zeta. intros Hr Hv.
  apply respond_inv in Hr as (g1 & rfqID & [= <- _] & Hr); [|done].
  apply respond_inv in Hr as (g1 & input & [= <- _] & Hr); [|done].
  destruct (_ && _); [done|].
  apply respond_inv in Hr as (g1 & rfq & [= <- Hrfq] & Hr).
  2: { intros e. unfold gateway_error. by destruct (writeGatewayError e). }
  apply respond_inv in Hr as (g1 & buyer & Hb & Hr).
  2: { intros e. unfold auth_error. by destruct (WriteAuthError e). }
  pose proof (frames_result _ _ _ _ _ (buyer_aside r _) Hb) as [Hb1 Hb2].
  destruct (String.eqb_spec buyer (rfq_BuyerOrgID rfq)) as [->|]; cbn [negb] in Hr; [|done].
  apply bind_Ok in Hr as (g2 & user & Hu & Hr).
  pose proof (frames_result _ _ _ _ _ (user_aside r) Hu) as [Hu1 Hu2].
  apply limited_inv in Hr as (g3 & Hl1 & Hl2 & Hr); [|done].
  assert (Happ : gw_app g3 = gw_app g) by congruence.
  assert (Hend : ∀ g4 : Gateway L, gw_app g4 = gw_app g3 →
    or_respond (on_app (AwardRFQ rfqID input)) gateway_error (λ awarded,
      _ ← dispatchCarrierExecution c awarded.1 awarded.2;
      mret (ok (GAward awarded.1 awarded.2))) g4 = (g', Ok (ok (GAward rfq' o))) →
    ∃ a', AwardRFQ rfqID input (gw_app g) = (a', Ok (rfq', o)) ∧ orders (gw_app g') = orders a').
  { intros g4 H4 Hend. apply respond_inv in Hend as (g5 & [rfq1 o1] & Ha & Hend).
    2: { intros e. unfold gateway_error. by destruct (writeGatewayError e). }
    unfold on_app, zoom in Ha. rewrite H4, Happ in Ha.
    destruct (AwardRFQ rfqID input (gw_app g)) as [a' x]. injection Ha as <- ->. exists a'.
    apply bind_Ok in Hend as (g6 & [] & Hd & [= <- <- <-]). split; [done|].
    exact (frames_result _ _ _ _ _ (dispatch_orders _ _) Hd). }
  destruct (String.eqb_spec (ari_FundingMode input) FundingModePrepaid) as [Hm|Hm]; cbn [negb] in Hr.
  - apply respond_inv in Hr as (g4 & budget & [= <- Hbud] & Hr).
    2: { intros e. unfold gateway_error. by destruct (writeGatewayError e). }
    destruct budget as [n|]; [|done].
    apply respond_inv in Hr as (g5 & [] & He & Hr); [|done].
    pose proof (frames_result _ _ _ _ _ (ensure_same _ _ _) He) as Hs.
    destruct (Hend g5 Hs Hr) as (a' & Ha & Ho). rewrite Happ in Hbud.
    exists rfqID, input, rfq, g3, g5, a'. split_and!; [done|congruence|done| |done|done].
    intros _ bid Hbid. by rewrite <- (bid_budget _ _ _ _ _ Hv Hbud Hbid).
  - destruct (Hend g3 eq_refl Hr) as (a' & Ha & Ho).
    exists rfqID, input, rfq, g3, g3, a'. split_and!; [done|congruence|done|done|done|done].
Qed.

(** What either way of ordering comes to: the check was passed for the new order's
    budget, and the order is the only one that is new. *)
Definition orders_within auth (g : Gateway L) (a' : App) (o : Order) : Prop :=
  ∃ id input g1 g2, o = new_order id input ∧ OrderHandlers.created input (gw_app g) a' id ∧
    gw_app g1 = gw_app g ∧ gw_settlement_calls g1 = gw_settlement_calls g ∧
    (coi_FundingMode input = FundingModePrepaid →
     ensureBuyerPrepaidAvailability c auth (coi_BuyerOrgID input)
       (totalMilestoneBudgetCents (coi_Milestones input)) g1 = (g2, Ok tt)).

Lemma create_within r (g g' : Gateway L) o w :
  valid (orders (gw_app g)) →
  handleCreateOrder c r g = (g', Ok (created (GOrder o w))) →
  orders_within (rq_Header r "Authorization") g (gw_app g') o.
Proof.
  intros Hv (input & g4 & g5 & Ha4 & Hs4 & Ha5 & Hne & Hcheck & Hc)%handleCreateOrder_inv.
  unfold on_app, zoom in Hc. rewrite Ha5 in Hc.
  destruct (CreateOrder input (gw_app g)) as [a' x] eqn:Ho. injection Hc as <- ->.
  pose proof (CreateOrder_cases input (gw_app g) Hv) as Hcr. unfold ends in Hcr.
  rewrite Ho in Hcr. destruct Hcr as (id & -> & Hcr). by exists id, input, g4, g5.
Qed.
Lemma award_within r (g g' : Gateway L) rfq' o :
  valid (orders (gw_app g)) → valid (bids (gw_app g)) → valid (rfqs (gw_app g)) →
  handleAwardRFQ c r g = (g', Ok (ok (GAward rfq' o))) →
  orders_within (rq_Header r "Authorization") g (gw_app g') o.
Proof.
  intros Hvo Hvb Hvr Hr. apply handleAwardRFQ_inv in Hr
    as (rfqID & input & rfq & g1 & g2 & a' & Hg1 & Hs1 & Hrfq & Hcheck & Ha & Ho'); [|done].
  destruct (award_effects _ _ _ _ _ _ Hvo Hvb Hvr Ha)
    as (rfq1 & bid & Hq & _ & Hbid & _ & _ & _ & Hord & Hfresh & Hget & Hsame & _).
  assert (rfq1 = rfq) as -> by congruence.
  exists (o_ID o), (award_order_input rfq bid input), g1, g2. split_and!; [done| |done|done|].
  - unfold OrderHandlers.created, get_order in *. rewrite Ho'. split_and!; [|done|by rewrite <- Hord|done].
    apply (ev_valid any_op (gw_app g)). pose proof (Award_evolves any_op rfqID input (gw_app g) Hvo) as He.
    by rewrite Ha in He.
  - intros Hm. specialize (Hcheck Hm bid Hbid). unfold totalMilestoneBudgetCents.
    cbn [award_order_input coi_Milestones]. unfold totalBidBudgetCents in Hcheck.
    rewrite <- list_fmap_compose. exact Hcheck.
Qed.

(** The two ways of ordering: an order is created, or an RFQ is awarded. *)
Definition ordering (r : Request) (response : Answer) (o : Order) : Prop :=
  rq_Method r = "POST" ∧
  (rq_Path r = "/api/v1/orders" ∧ (∃ w, response = created (GOrder o w)) ∨
   isRFQAwardPath (rq_Path r) = true ∧ (∃ rfq, response = ok (GAward rfq o))).

Lemma routes_award : Forall (λ rt : route, ∀ r, fits r rt = true → rq_Method r = "POST" →
  isRFQAwardPath (rq_Path r) = true → rt_Handler rt = handleAwardRFQ c) (routes c SortFunc).
Proof.
  unfold routes. repeat (apply Forall_cons; split); [..|apply Forall_nil; done].
  all: intros r Hf Hm Ha; unfold fits in Hf; cbv [rt_Handler rt_Method rt_Fits get_ post patch] in *;
    rewrite Hm in Hf; try discriminate Hf; try reflexivity; exfalso; cbn [andb String.eqb] in Hf.
  all: apply andb_prop in Hf as [_ Hf].
  all: try (apply orb_true_iff in Hf as [Hf|Hf]).
  all: path_facts Hf; path_facts Ha; conflict.
Qed.
Lemma ordering_within r (g g' : Gateway L) response o :
  valid (orders (gw_app g)) → valid (bids (gw_app g)) → valid (rfqs (gw_app g)) →
  ServeHTTP c SortFunc r g = (g', Ok response) → ordering r response o →
  orders_within (rq_Header r "Authorization") g (gw_app g') o.
Proof.
  intros Hvo Hvb Hvr Hr [Hm Hord]. apply ServeHTTP_inv in Hr as (g1 & Hr & ->).
  set (g0 := update gw_actor _ g) in Hr.
  change (orders_within (rq_Header r "Authorization") g0 (gw_app g1) o).
  destruct Hord as [[Hp [w ->]]|[Hp [rfq ->]]].
  - rewrite (serve_create _ Hm Hp) in Hr. by apply create_within in Hr.
  - unfold serve in Hr. destruct (List.find _ _) as [rt|] eqn:Hrt; [|done].
    apply List.find_some in Hrt as [Hin%list_elem_of_In Hf].
    rewrite (proj1 (Forall_forall _ _) routes_award rt Hin r Hf Hm Hp) in Hr.
    by apply award_within in Hr.
Qed.

(** C12.  Prepaid orders stay within what was topped up.  Where a settlement service
    is configured, a prepaid order with a positive budget and no negative
    milestone that the gateway creates, or makes by awarding an RFQ, leaves the
    buyer's open prepaid orders, the new one included, committing no more than the
    sum of the top-ups the settlement service reported for this request; sums are
    assumed to fit [int64].  The buyer's commitments grow by exactly the new order's
    budget. *)
Theorem prepaid_balance_enforced r (g g' : Gateway L) response o os' :
  ordering r response o →
  blank (gc_SettlementBaseURL c) = false →
  valid (orders (gw_app g)) → valid (bids (gw_app g)) → valid (rfqs (gw_app g)) →
  ServeHTTP c SortFunc r g = (g', Ok response) →
  o_FundingMode o = FundingModePrepaid →
  Forall (λ m, 0 ≤ ms_BudgetCents m) (o_Milestones o) → 0 < order_budget o →
  in64 (order_budget o) →
  let buyer := o_BuyerOrgID o in
  order_ListByFilter (open_prepaid buyer) (orders (gw_app g')) = Ok os' →
  ∃ records os, answered_with g records ∧
    order_ListByFilter (open_prepaid buyer) (orders (gw_app g)) = Ok os ∧
    committed buyer os' = committed buyer os + order_budget o ∧
    (in64 (credited records) → in64 (committed buyer os) →
     in64 (credited records - committed buyer os) → committed buyer os' ≤ credited records).
Proof.
  intros Hord Hurl Hvo Hvb Hvr Hr Hmode Hnn Hpos Hin buyer Hos'.
  destruct (ordering_within r g g' response o Hvo Hvb Hvr Hr Hord)
    as (id & input & g4 & g5 & -> & Hcr & Ha4 & Hs4 & Hcheck).
  change (coi_FundingMode input = FundingModePrepaid) in Hmode.
  rewrite new_order_budget in *. set (n := sumZ _) in *.
  destruct (ensure_Ok _ _ _ _ _ (Hcheck Hmode)) as (_ & records & os & Hans & Hos & Hle).
  { unfold totalMilestoneBudgetCents. rewrite sum64_wrap. by rewrite wrap64_id. }
  { done. }
  assert (Hrec : answered_with g records).
  { unfold answered_with in *. by rewrite Hs4 in Hans. }
  rewrite Ha4 in Hos. exists records, os.
  change (o_BuyerOrgID (new_order id input)) with (coi_BuyerOrgID input) in *.
  assert (Hperm : os' ≡ₚ new_order id input :: os).
  { eapply (created_lists (λ o, order_matches (open_prepaid buyer) o = true)); [exact Hcr| |..];
      [|by apply order_ListByFilter_spec|apply order_ListByFilter_spec; [apply Hcr|done]].
    unfold order_matches. rewrite !andb_true_iff, !orb_true_iff, !String.eqb_eq.
    split_and!; [by right|by right|done]. }
  assert (Hsum : committed buyer os' = committed buyer os + n).
  { unfold committed. rewrite (sumZ_perm _ _ (fmap_Permutation _ _ _ Hperm)).
    cbn [fmap list_fmap sumZ]. unfold buyer at 1. rewrite new_commitment; [fold n; lia|done| |done].
    apply Forall_lookup. intros i m Hi.
    apply (proj1 (Forall_lookup _ _) Hnn i (new_milestone i m)). cbn [new_order o_Milestones].
    by rewrite list_lookup_imap, Hi. }
  split_and!; [done|done|done|]. intros Hi1 Hi2 Hi3.
  unfold totalMilestoneBudgetCents in Hle. rewrite sum64_wrap in Hle. fold n in Hle.
  rewrite (wrap64_id n), (wrap64_id (credited _)), (wrap64_id (committed _ _)), sub64_exact in Hle
    by done. fold buyer in Hle. lia.
Qed.
End funds.

(** *** Runs *)

(** An RFQ whose award is asked for on prepaid funds. *)
Definition award_request : Request :=
  request_as "bo" "" "POST" "/api/v1/rfqs/rfq_1/award"
    (Some (JObj [("bidId", JStr "bid_1"); ("fundingMode", JStr "prepaid")])).
Definition at_market : Gateway () := demo_gateway <| gw_app := market |>.
Lemma award_served : ∃ rfq o,
  (demo_serve award_request at_market).2 = Ok (ok (GAward rfq o)) ∧
  order_ListByFilter (open_prepaid "buyer") (orders (gw_app (demo_serve award_request at_market).1))
    = Ok [o] ∧
  (o_BuyerOrgID o, o_FundingMode o) = ("buyer", FundingModePrepaid) ∧ order_budget o = 1000 ∧
  Forall (λ m, 0 ≤ ms_BudgetCents m) (o_Milestones o).
Proof.
  do 2 eexists. split; [vm_compute; reflexivity|]. split; [vm_compute; reflexivity|].
  do 2 (split; [reflexivity|]). repeat constructor; discriminate.
Qed.

Lemma prepaid_balance_enforced_witness :
  ∃ os', order_ListByFilter (open_prepaid "buyer")
           (orders (gw_app (demo_serve award_request at_market).1)) = Ok os' ∧
         committed "buyer" os' = 1000.
Proof.
  destruct award_served as (rfq & o & Hr & Hos & [= Hb Hm] & Hn & Hnn).
  destruct market_valid as (Hvo & Hvb & Hvr). exists [o]. split; [exact Hos|].
  assert (Hold : order_ListByFilter (open_prepaid "buyer") (orders (gw_app at_market)) = Ok [])
    by (vm_compute; reflexivity).
  assert (Hrun : demo_serve award_request at_market
    = ((demo_serve award_request at_market).1, Ok (ok (GAward rfq o)))) by exact (run_result _ _ _ Hr).
  clear Hr. revert Hrun Hos. generalize ((demo_serve award_request at_market).1) as g'. intros g' Hrun Hos.
  rewrite <- Hb in Hos, Hold |- *.
  destruct (prepaid_balance_enforced (H0 := memory_laws) (MO := plain_order) demo_config (λ _ l, l)
    award_request at_market g' _ o [o]
    (conj eq_refl (or_intror (conj eq_refl (ex_intro _ rfq eq_refl)))) eq_refl Hvo Hvb Hvr
    Hrun Hm Hnn ltac:(rewrite Hn; reflexivity)
    ltac:(rewrite Hn; vm_compute; split; discriminate) Hos)
    as (records & os & _ & Hold' & Hsum & _).
  assert (os = []) as -> by congruence.
  rewrite Hsum, Hn. reflexivity.
Defined.

Definition hedged_order : Request :=
  request_as "bo" "" "POST" "/api/v1/orders" (Some (JObj
    [("providerOrgId", JStr "p1"); ("title", JStr "t"); ("fundingMode", JStr "prepaid");
     ("milestones", JArr [milestone_json "ms_1" 5000; milestone_json "ms_2" (-5000)])])).
Definition running_budget (a : App) : Z :=
  match order_List (orders a) with
  | Ok os => sumZ ((λ m, if bool_decide (ms_State m = MilestoneStateRunning)
                         then ms_BudgetCents m else 0) <$> (os ≫= o_Milestones))
  | Err _ => 0
  end.
(**  The balance check adds up the budgets of an order, so that a milestone with
    a negative budget pays for the others: with 12.50 topped up, an order whose
    milestones ask for 5000 and for -5000 cents is created without the settlement
    service being asked, and its first milestone runs with a budget of 5000 cents. *)
Theorem negative_budget_escapes_balance :
  let out := demo_serve hedged_order demo_gateway in
  match out.2 with Ok response => rs_Status response = StatusCreated | Err _ => False end ∧
  gw_settlement_calls out.1 = [] ∧
  running_budget (gw_app out.1) = 5000 ∧ credited [topped_up] = 1250.
Proof. vm_compute. repeat split. Qed.
