(* ===== verification/GatewayAccess.v ===== *)
(** * Who may see and do what through the gateway

    The lists an actor is shown are what his memberships allow; an order is shown
    to its parties only, except by the routes that are open to all; the routes of
    executions are closed to requests without a service token, and without one nothing
    is paid but by the callbacks of carriers. *)

From S2P Require Import RateLimit CarrierService CarrierEvents Http Web Funding Prelude GoNum GoText Core.
From S2P Require Import Milestones Market Repo MemoryRepo App Providers Orders Bidding Directory Lifecycle.
From S2P Require Import SettlementLedger Credit Awards Gateway GatewayOrders Export GatewayDirectory.
From S2P Require Import OrderHandlers System GatewayCallbacks GatewayServe GatewayHistory.

(** ** The filters *)

Definition has (p : ActorMembership → bool) (actor : Actor) : bool :=
  existsb p (ac_Memberships actor).

(** Acting for someone at all. *)
Definition acts (m : ActorMembership) : bool := ops_member m || buyer_member m || provider_member m.
(** What one membership lets its holder see. *)
Definition sees_rfq (rfq : RFQ) (m : ActorMembership) : bool :=
  ops_member m
  || buyer_member m && String.eqb (am_OrganizationID m) (rfq_BuyerOrgID rfq)
  || provider_member m && (bool_decide (rfq_Status rfq = RFQStatusOpen)
       || String.eqb (am_OrganizationID m) (rfq_AwardedProviderOrgID rfq)).
Definition judges_bids (rfq : RFQ) (m : ActorMembership) : bool :=
  ops_member m || buyer_member m && String.eqb (am_OrganizationID m) (rfq_BuyerOrgID rfq).
Definition sees_bid (rfq : RFQ) (b : Bid) (m : ActorMembership) : bool :=
  judges_bids rfq m || provider_member m && String.eqb (am_OrganizationID m) (b_ProviderOrgID b).

Lemma existsb_elem {A} (p : A → bool) l : existsb p l = true ↔ ∃ x, x ∈ l ∧ p x = true.
Proof. rewrite existsb_exists. by setoid_rewrite <- list_elem_of_In. Qed.

(** The organizations of the memberships that pass a test. *)
Definition orgs (p : ActorMembership → bool) (ms : list ActorMembership) : gset string :=
  list_to_set (am_OrganizationID <$> List.filter p ms).
Lemma elem_orgs p ms x :
  bool_decide (x ∈ orgs p ms) = existsb (λ m, p m && String.eqb (am_OrganizationID m) x) ms.
Proof.
  apply eq_true_iff_eq. rewrite bool_decide_eq_true, existsb_elem. unfold orgs.
  rewrite elem_of_list_to_set, list_elem_of_fmap. split.
  - intros (m & -> & Hm). rewrite list_elem_of_In, List.filter_In, <- list_elem_of_In in Hm.
    exists m. destruct Hm as [? ->]. by rewrite String.eqb_refl.
  - intros (m & Hm & [Hp Hx]%andb_true_iff). apply String.eqb_eq in Hx. exists m.
    by rewrite list_elem_of_In, List.filter_In, <- list_elem_of_In.
Qed.
Lemma orgs_empty p ms : bool_decide (orgs p ms = ∅) = negb (existsb p ms).
Proof.
  unfold orgs. induction ms as [|m ms IH]; [done|]. cbn [List.filter existsb].
  destruct (p m); [|exact IH]. cbn [orb negb]. apply bool_decide_eq_false.
  cbn. intros [Hm _]%empty_union_L. by apply non_empty_singleton_L in Hm.
Qed.

Lemma provider_not_buyer m : buyer_member m = true → provider_member m = false.
Proof.
  unfold buyer_member, provider_member. intros [->%String.eqb_eq _]%andb_true_iff. done.
Qed.

Lemma union_front (X B : gset string) x : X ∪ ({[x]} ∪ B) = {[x]} ∪ X ∪ B.
Proof. by rewrite !(assoc_L _), (comm_L _ X). Qed.

Lemma visible_orgs_spec ms B P :
  visible_orgs ms B P =
  if existsb ops_member ms then None
  else Some (orgs buyer_member ms ∪ B, orgs provider_member ms ∪ P).
Proof.
  revert B P. induction ms as [|m ms IH]; intros B P; cbn [visible_orgs existsb].
  { unfold orgs. cbn. by rewrite !(left_id_L ∅ _). }
  destruct (ops_member m); [done|]. cbn [orb]. unfold orgs in *. cbn [List.filter].
  destruct (buyer_member m) eqn:Hb; [|destruct (provider_member m) eqn:Hp]; rewrite IH;
    destruct (existsb ops_member ms); try done.
  - rewrite (provider_not_buyer _ Hb). cbn. by rewrite union_front.
  - cbn. by rewrite union_front.
Qed.

Lemma bidding_orgs_spec rfq ms P :
  bidding_orgs rfq ms P =
  if existsb (judges_bids rfq) ms then None else Some (orgs provider_member ms ∪ P).
Proof.
  revert P. induction ms as [|m ms IH]; intros P; cbn [bidding_orgs existsb].
  { unfold orgs. cbn. by rewrite !(left_id_L ∅ _). }
  unfold judges_bids at 1. destruct (ops_member m); [done|]. cbn [orb].
  destruct (buyer_member m && _); [done|]. cbn [orb]. unfold orgs in *. cbn [List.filter].
  destruct (provider_member m); rewrite IH; destruct (existsb _ ms); try done.
  cbn. by rewrite union_front.
Qed.

(** A list of the platform, cut down to what one of the memberships lets be seen. *)
Definition shown {T} (sees : T → ActorMembership → bool) (items : list T) (actor : Actor) : list T :=
  List.filter (λ x, has (sees x) actor) items.

Lemma filter_orb {A} (f g : A → bool) l :
  (∀ x, f x = g x) → List.filter f l = List.filter g l.
Proof. intros Hf. induction l as [|x l IH]; [done|]. cbn. by rewrite Hf, IH. Qed.
Lemma existsb_orb {A} (f g : A → bool) l :
  existsb (λ x, f x || g x) l = existsb f l || existsb g l.
Proof.
  induction l as [|x l IH]; [done|]. cbn. rewrite IH.
  destruct (f x), (g x), (existsb f l); done.
Qed.
Lemma existsb_ext' {A} (f g : A → bool) l : (∀ x, f x = g x) → existsb f l = existsb g l.
Proof. intros Hf. induction l as [|x l IH]; [done|]. cbn. by rewrite Hf, IH. Qed.
Lemma filter_all_seen {T} (p : ActorMembership → bool) (sees : T → ActorMembership → bool) items ms :
  (∀ x m, p m = true → sees x m = true) → existsb p ms = true →
  List.filter (λ x, existsb (sees x) ms) items = items.
Proof.
  intros Hs (m & Hm & Ho)%existsb_elem. induction items as [|x items IH]; [done|]. cbn.
  assert (existsb (sees x) ms = true) as -> by (apply existsb_elem; eauto). by rewrite IH.
Qed.

Lemma scoped {T} (f g : T → bool) items (no_buyer no_provider : bool) (e : error) :
  (∀ x, f x = g x) → (no_buyer = true → no_provider = true → ∀ x, f x = false) →
  (if bool_decide (List.filter f items = []) && no_buyer && no_provider
   then Err e else Ok (List.filter f items)) =
  if negb no_buyer || negb no_provider then Ok (List.filter g items) else Err e.
Proof.
  intros Hfg Hnone. rewrite (filter_orb _ _ _ Hfg).
  destruct no_buyer, no_provider; cbn; rewrite ?andb_false_r; try done.
  rewrite <- (filter_orb _ _ _ Hfg), bool_decide_true; [done|].
  induction items as [|x items IH]; [done|]. cbn. by rewrite Hnone.
Qed.

Lemma no_orgs p ms x : negb (existsb p ms) = true →
  existsb (λ m, p m && String.eqb (am_OrganizationID m) x) ms = false.
Proof.
  intros Hn%negb_true_iff. apply not_true_iff_false. intros (m & Hm & [Hp _]%andb_true_iff)%existsb_elem.
  apply not_true_iff_false in Hn. apply Hn, existsb_elem. eauto.
Qed.

Lemma order_filter orders ms i1 i2 i3 :
  filterOrdersForActor orders (mkActor i1 i2 i3 ms) =
  if existsb acts ms then Ok (List.filter (λ o, existsb (may_act_on o) ms) orders)
  else Err ErrMembershipRequired.
Proof.
  unfold filterOrdersForActor, acts. cbn [ac_Memberships].
  destruct (bool_decide_reflect (ms = [])) as [->|_]; [done|].
  rewrite visible_orgs_spec, !existsb_orb. destruct (existsb ops_member ms) eqn:Ho.
  { cbn [orb]. rewrite (filter_all_seen ops_member); [done| |done]. intros x m Hm. unfold may_act_on. by rewrite Hm. }
  rewrite !(right_id_L ∅ _), !orgs_empty. cbn [orb]. rewrite scoped with
    (g := λ o, existsb (may_act_on o) ms).
  - by rewrite !negb_involutive.
  - intros o. unfold may_act_on. rewrite !existsb_orb, Ho. cbn [orb]. by rewrite !elem_orgs.
  - intros Hb Hp o. rewrite !elem_orgs. by rewrite !no_orgs.
Qed.

Lemma rfq_filter rfqs ms i1 i2 i3 :
  filterRFQsForActor rfqs (mkActor i1 i2 i3 ms) =
  if existsb acts ms then Ok (List.filter (λ q, existsb (sees_rfq q) ms) rfqs)
  else Err ErrMembershipRequired.
Proof.
  unfold filterRFQsForActor, acts. cbn [ac_Memberships].
  destruct (bool_decide_reflect (ms = [])) as [->|_]; [done|].
  rewrite visible_orgs_spec, !existsb_orb. destruct (existsb ops_member ms) eqn:Ho.
  { cbn [orb]. rewrite (filter_all_seen ops_member); [done| |done]. intros x m Hm. unfold sees_rfq. by rewrite Hm. }
  rewrite !(right_id_L ∅ _), !orgs_empty. cbn [orb]. rewrite scoped with
    (g := λ q, existsb (sees_rfq q) ms).
  - by rewrite !negb_involutive.
  - intros q. unfold sees_rfq. rewrite !existsb_orb, Ho. cbn [orb]. rewrite elem_orgs. f_equal.
    rewrite negb_involutive. destruct (bool_decide (rfq_Status q = _)); cbn [orb].
    + rewrite andb_true_r. apply existsb_ext'. intros m. by rewrite andb_true_r.
    + rewrite elem_orgs. destruct (existsb provider_member ms) eqn:Hp; [done|].
      symmetry. apply no_orgs. by rewrite Hp.
  - intros Hb Hp q. rewrite !elem_orgs, no_orgs by done. by rewrite Hp.
Qed.

(** C15.  What an actor is shown is what one of his memberships lets him see: every
    order for operators of the platform, and otherwise the orders bought or
    provided by an organization he acts for, which are exactly the orders he may
    open; the RFQs of an organization he buys for, and as a provider those that are
    open or that his organization won; the bids of an RFQ he bought or judges, and
    otherwise those of his organizations.  An actor without a role that fits is
    refused, and so is a buyer asking for the bids of someone else's RFQ. *)
Theorem lists_show_what_memberships_allow orders rfqs rfq bids actor :
  filterOrdersForActor orders actor =
    (if has acts actor then Ok (shown may_act_on orders actor) else Err ErrMembershipRequired) ∧
  (∀ o, is_ok (authorizeOrderForActor o actor) = has (may_act_on o) actor) ∧
  filterRFQsForActor rfqs actor =
    (if has acts actor then Ok (shown sees_rfq rfqs actor) else Err ErrMembershipRequired) ∧
  filterBidsForActor rfq bids actor =
    (if has (λ m, judges_bids rfq m || provider_member m) actor
     then Ok (shown (sees_bid rfq) bids actor) else Err ErrMembershipRequired).
Proof.
  unfold shown, has, filterBidsForActor. destruct actor as [id email name ms].
  rewrite order_filter, rfq_filter. cbn [ac_Memberships].
  split_and!; [done| |done|].
  - intros o. unfold authorizeOrderForActor. cbn. by destruct (existsb _ ms).
  - destruct (bool_decide_reflect (ms = [])) as [->|_]; [done|].
    rewrite bidding_orgs_spec, existsb_orb. destruct (existsb (judges_bids rfq) ms) eqn:Hj.
    { cbn [orb]. rewrite (filter_all_seen (judges_bids rfq)); [done| |done].
      intros b m Hm. unfold sees_bid. by rewrite Hm. }
    rewrite (right_id_L ∅ _), orgs_empty. cbn [orb].
    destruct (existsb provider_member ms); [|done]. cbn [negb]. f_equal. apply filter_orb.
    intros b. unfold sees_bid. by rewrite elem_orgs, existsb_orb, Hj.
Qed.

(** ** Orders are shown to their parties *)

Section access.
Context `{Storage} `{MO : MapOrder} {L : Type} (c : GatewayConfig L).
Context (SortFunc : (Listing → Listing → Z) → list Listing → list Listing).
Abbreviation G := (ST (Gateway L)).

(** The routes that tell anybody about orders: the four exports, and the rating, the
    budget and the timeline of one order.  The messages of an RFQ are about no order,
    but are answered in the same form. *)
Definition open_to_all (p : string) : bool :=
  existsb (String.eqb p) ["/api/v1/export/orders"; "/api/v1/export/disputes";
    "/api/v1/export/rfqs"; "/api/v1/export/applications"]
  || isOrderRatingPath p || isOrderBudgetPath p || isOrderTimelinePath p || isRFQMessagesPath p.

(** What an actor may be shown: an order, alone or in a list, whose party he is, and
    the messages and the liquidity of such an order, which the path names. *)
Definition may_see (actor : Actor) (r : Request) (g : Gateway L) (body : GatewayBody) : Prop :=
  match body with
  | GOrder o _ => has (may_act_on o) actor = true
  | GOrders os _ _ => ∀ o, o ∈ os → has (may_act_on o) actor = true
  | GMessages _ | GReservation _ =>
      ∃ id o, part 3 (segments (rq_Path r)) = Ok id ∧
        order_Get id (orders (gw_app g)) = Ok o ∧ has (may_act_on o) actor = true
  | GText _ | GRating _ | GBudget _ | GTimeline _ | GStatuses _ | GAward _ _ | GSettled _ _
  | GUsage _ _ | GRefund _ _ _ | GResolved _ _ => False
  | _ => True
  end.
(** An answer that anybody may have: it is about no order. *)
Definition no_order (a : Answer) : Prop := ∀ actor r g, may_see actor r g (rs_Body a).

Definition showing (Q : Answer → Prop) (m : G Answer) : Prop :=
  ∀ g g' a, m g = (g', Ok a) → Q a.

Lemma showing_ret (Q : Answer → Prop) a : Q a → showing Q (mret a).
Proof. by intros Ha g g' a' [= _ <-]. Qed.
Lemma showing_bind {A} Q (m : G A) k : (∀ x, showing Q (k x)) → showing Q (m ≫= k).
Proof. intros Hk g g' a (g1 & x & _ & Hx)%bind_Ok. by eapply Hk. Qed.
Lemma showing_respond {A} (Q : Answer → Prop) (m : G A) h k :
  (∀ e, Q (h e)) → (∀ x, showing Q (k x)) → showing Q (or_respond m h k).
Proof.
  intros Hh Hk g g' a. rewrite or_respond_eq. destruct (m g) as [g1 [x|e]]; [apply Hk|].
  by intros [= _ <-].
Qed.

Ltac showing_step :=
  lazymatch goal with
  | |- ∀ _, _ => intro
  | |- showing _ (or_respond _ _ _) => apply showing_respond
  | |- showing _ (mbind _ _) => apply showing_bind
  | |- showing _ (mret _) => apply showing_ret
  | |- showing _ (match ?x with _ => _ end) => destruct x
  | |- showing _ ?m => let h := head m in unfold h; cbv zeta
  | |- no_order (auth_error ?e) => unfold auth_error; destruct (WriteAuthError e)
  | |- no_order (gateway_error ?e) => unfold gateway_error; destruct (writeGatewayError e)
  | |- no_order (if ?b then _ else _) => destruct b
  | |- no_order (match ?b with _ => _ end) => destruct b
  | |- no_order _ => intros ? ? ?; exact I
  end.

(** The handlers that ask who the caller is before they tell about orders. *)
Definition asks_who (rt : route (L := L)) : Prop :=
  rt_Handler rt = handleListOrders c ∨ rt_Handler rt = handleGetOrder c ∨
  rt_Handler rt = handleListOrderMessages c ∨
  rt_Handler rt = handleGetOrderProviderSettlementReservation c.
Definition open_route (rt : route (L := L)) : Prop := ∀ p, rt_Fits rt p = true → open_to_all p = true.

Lemma routes_show_no_order : Forall (λ rt, rt_Method rt = "GET" →
  asks_who rt ∨ open_route rt ∨ ∀ r, showing no_order (rt_Handler rt r)) (routes c SortFunc).
Proof.
  unfold routes. repeat (apply Forall_cons; split); [..|apply Forall_nil; done].
  all: unfold asks_who, open_route; cbv [rt_Handler rt_Method rt_Fits get_ post patch];
    intros Hm; try discriminate Hm; clear Hm.
  all: first
    [ left; tauto
    | right; left; intros p; unfold open_to_all, exactly; cbn [existsb];
      rewrite ?orb_true_iff; solve [tauto | rewrite String.eqb_sym; tauto]
    | do 2 right; repeat showing_step ].
Qed.

(** The actor of a request that carries a token. *)
Definition caller iam (r : Request) (g : Gateway L) (actor : Actor) : Prop :=
  ∃ token, bearerToken (rq_Header r "Authorization") = Some token ∧
    iam (gw_actor_calls g) token = Ok actor.

Lemma actor_Ok iam r (g g' : Gateway L) actor :
  gc_auth c = Some iam → gw_actor g = None →
  authenticatedActor c r g = (g', Ok actor) → caller iam r g actor ∧ gw_app g' = gw_app g.
Proof.
  intros Hauth Hnone. unfold authenticatedActor, no_auth. rewrite Hauth. intros Hr.
  apply bind_Ok in Hr as (g1 & x & [= <- <-] & Hr). rewrite Hnone in Hr.
  destruct (bearerToken _) as [token|] eqn:Ht; [|done].
  apply bind_Ok in Hr as (g1 & actor' & Ha & Hr).
  apply bind_Ok in Hr as (g2 & [] & Hg2 & [= <- <-]).
  unfold GetActor in Ha. rewrite Hauth in Ha. injection Ha as <- Ha. injection Hg2 as <-.
  split; [by exists token|done].
Qed.

Lemma no_order_sees a actor r g : no_order a → may_see actor r g (rs_Body a).
Proof. intros Ha. apply Ha. Qed.
Lemma auth_error_no_order e : no_order (auth_error e).
Proof. unfold auth_error. by destruct (WriteAuthError e). Qed.
Lemma gateway_error_no_order e : no_order (gateway_error e).
Proof. unfold gateway_error. by destruct (writeGatewayError e). Qed.
Hint Resolve auth_error_no_order gateway_error_no_order : core.

(** What a guarded answer is: about no order, or what the caller may see. *)
Definition guarded_answer iam (r : Request) (g : Gateway L) (a : Answer) : Prop :=
  no_order a ∨ ∃ actor, caller iam r g actor ∧ may_see actor r g (rs_Body a).

(** A step that can refuse, of a guarded handler. *)
Lemma guarded_respond {A} (Q : Answer → Prop) (m : G A) h k (g g' : Gateway L) a :
  or_respond m h k g = (g', Ok a) → (∀ e, Q (h e)) →
  (∀ g1 x, m g = (g1, Ok x) → k x g1 = (g', Ok a) → Q a) → Q a.
Proof.
  rewrite or_respond_eq. destruct (m g) as [g1 [x|e]] eqn:Hm; [eauto|].
  intros [= _ <-] Hh _. apply Hh.
Qed.

Lemma authorized iam r o (g g' : Gateway L) :
  gc_auth c = Some iam → gw_actor g = None → authorize_order c r o g = (g', Ok tt) →
  gw_app g' = gw_app g ∧ ∃ actor, caller iam r g actor ∧ has (may_act_on o) actor = true.
Proof.
  intros Hauth Hnone Ha. unfold authorize_order, no_auth in Ha. rewrite Hauth in Ha.
  apply bind_Ok in Ha as (g3 & actor & Ha & [= <- Hf]).
  apply (actor_Ok iam) in Ha as [Ha Hg]; [|done..]. split; [done|]. exists actor. split; [done|].
  unfold authorizeOrderForActor in Hf. unfold has. by destruct (existsb _ _).
Qed.

Lemma list_shows iam r (g g' : Gateway L) a :
  gc_auth c = Some iam → gw_actor g = None →
  handleListOrders c r g = (g', Ok a) → guarded_answer iam r g a.
Proof.
  intros Hauth Hnone Hr. unfold handleListOrders in Hr.
  eapply guarded_respond; [exact Hr|by intros e; left|]. clear Hr. intros g1 os [= <- _] Hr.
  eapply guarded_respond; [exact Hr|by intros e; left|]. clear Hr. intros g1 os' Hv [= _ <-].
  right. unfold visible, no_auth in Hv. rewrite Hauth in Hv.
  apply bind_Ok in Hv as (g2 & actor & Ha & [= _ Hf]). exists actor.
  split; [by eapply actor_Ok|]. intros o Ho.
  assert (Hin : o ∈ os').
  { apply elem_of_Apply in Ho. unfold with_status in Ho. destruct (String.eqb _ _); [done|].
    apply list_elem_of_In, List.filter_In in Ho as [Ho _]. by apply list_elem_of_In. }
  destruct actor as [i1 i2 i3 ms]. rewrite order_filter in Hf.
  destruct (existsb acts ms); [|done]. injection Hf as <-.
  apply list_elem_of_In, List.filter_In in Hin as [_ Hin]. exact Hin.
Qed.

Lemma get_shows iam r (g g' : Gateway L) a :
  gc_auth c = Some iam → gw_actor g = None →
  handleGetOrder c r g = (g', Ok a) → guarded_answer iam r g a.
Proof.
  intros Hauth Hnone Hr. unfold handleGetOrder in Hr.
  eapply guarded_respond; [exact Hr|by intros e; left|]. clear Hr. intros g1 id [= <- _] Hr.
  eapply guarded_respond; [exact Hr| |].
  { intros e. left. by destruct (is_error e _). }
  clear Hr. intros g1 order [= <- _] Hr.
  eapply guarded_respond; [exact Hr|by intros e; left|]. clear Hr. intros g1 [] Ha Hr.
  right. apply bind_Ok in Hr as (g2 & wall & _ & [= _ <-]).
  apply (authorized iam) in Ha as [_ Ha]; [exact Ha|done..].
Qed.

Lemma reservation_shows iam r (g g' : Gateway L) a :
  gc_auth c = Some iam → gw_actor g = None →
  handleGetOrderProviderSettlementReservation c r g = (g', Ok a) → guarded_answer iam r g a.
Proof.
  intros Hauth Hnone Hr. unfold handleGetOrderProviderSettlementReservation in Hr.
  apply bind_Ok in Hr as (g0 & id & [= <- Hid] & Hr).
  eapply guarded_respond; [exact Hr|by intros e; left|]. clear Hr. intros g1 o [= <- Ho] Hr.
  eapply guarded_respond; [exact Hr|by intros e; left|]. clear Hr. intros g1 [] Ha Hr.
  eapply guarded_respond; [exact Hr|by intros e; left|]. clear Hr. intros g2 res _ [= _ <-].
  right. apply (authorized iam) in Ha as [_ (actor & Hc & Hm)]; [|done..]. exists actor.
  split; [done|]. cbn. eauto.
Qed.

Lemma messages_show iam r (g g' : Gateway L) a :
  gc_auth c = Some iam → gw_actor g = None →
  handleListOrderMessages c r g = (g', Ok a) → guarded_answer iam r g a.
Proof.
  intros Hauth Hnone Hr. unfold handleListOrderMessages in Hr. cbv zeta in Hr.
  destruct (_ <? 4)%nat; [injection Hr as _ <-; by left|].
  apply bind_Ok in Hr as (g0 & id & [= <- Hid] & Hr).
  unfold with_order, no_auth in Hr. rewrite Hauth in Hr.
  eapply guarded_respond; [exact Hr|by intros e; left|]. clear Hr. intros g1 actor Ha Hr.
  apply (actor_Ok iam) in Ha as [Ha Hg]; [|done..].
  eapply guarded_respond; [exact Hr|by intros e; left|]. clear Hr. intros g2 o [= <- Ho] Hr.
  eapply guarded_respond; [exact Hr|by intros e; left|]. clear Hr. intros g2 [] [= _ Hf] Hr.
  eapply guarded_respond; [exact Hr|by intros e; left|]. clear Hr. intros g3 res _ [= _ <-].
  right. exists actor. split; [done|]. exists id, o. rewrite <- Hg. split_and!; [done|done|].
  unfold authorizeOrderForActor in Hf. unfold has. by destruct (existsb _ _).
Qed.

(** C4.  Orders are shown to their parties.  With an IAM service configured, an answer
    to a GET that tells about an order is for the caller: the IAM service vouches for
    the token of the request, and an order that is shown, alone or in a list, and the
    order whose messages or liquidity reservation are shown, has the caller as a party:
    one of the actor's memberships is an operator's, or acts as a buyer or as a provider
    for the order's own organization.  The routes that do without are those listed in
    [open_to_all]: the CSV exports and the rating, the budget and the timeline of an
    order.  (The figures summed over all orders and the disputes are not orders.) *)
Theorem orders_are_shown_to_their_parties iam r (g g' : Gateway L) response :
  gc_auth c = Some iam → rq_Method r = "GET" → open_to_all (rq_Path r) = false →
  ServeHTTP c SortFunc r g = (g', Ok response) →
  (∀ actor, may_see actor r g (rs_Body response)) ∨
  ∃ token actor, bearerToken (rq_Header r "Authorization") = Some token ∧
    iam (gw_actor_calls g) token = Ok actor ∧ may_see actor r g (rs_Body response).
Proof.
  intros Hauth Hm Hopen Hr. apply ServeHTTP_inv in Hr as (g1 & Hr & _).
  set (g0 := update gw_actor _ g) in Hr.
  assert (H0 : guarded_answer iam r g0 response).
  { unfold serve in Hr. destruct (List.find _ _) as [rt|] eqn:Hrt; [|injection Hr as _ <-; by left].
    apply List.find_some in Hrt as [Hin%list_elem_of_In Hf].
    unfold fits in Hf. rewrite Hm in Hf. apply andb_prop in Hf as [Hf%String.eqb_eq Hp].
    destruct (proj1 (Forall_forall _ _) routes_show_no_order rt Hin (eq_sym Hf))
      as [Hh|[Ho|Hno]].
    - destruct Hh as [Hh|[Hh|[Hh|Hh]]]; rewrite Hh in Hr;
        [eapply list_shows|eapply get_shows|eapply messages_show|eapply reservation_shows]; done.
    - by rewrite (Ho _ Hp) in Hopen.
    - left. by eapply Hno. }
  destruct H0 as [Hn|(actor & (token & Ht & Ha) & Hs)]; [left; intros actor; apply Hn|].
  right. exists token, actor. done.
Qed.

(** The export of the orders asks nobody who he is. *)
Theorem exports_are_open r (g : Gateway L) csv :
  rq_Method r = "GET" → rq_Path r = "/api/v1/export/orders" →
  ExportOrdersCSV (gw_app g) = Ok csv →
  ServeHTTP c SortFunc r g = (g <| gw_actor := None |>, Ok (ok (GText csv))).
Proof.
  intros Hm Hp He. rewrite ServeHTTP_eq. set (g0 := update gw_actor _ g). unfold serve.
  assert (List.find (fits r) (routes c SortFunc) =
          Some (get_ (exactly "/api/v1/export/orders") handleExportOrders)) as ->.
  { destruct r. cbn in Hm, Hp. subst. reflexivity. }
  cbn [rt_Handler get_]. unfold handleExportOrders, csv_export.
  rewrite or_respond_eq. unfold ask_app, query. cbn. change (gw_app g0) with (gw_app g). by rewrite He.
Qed.

(** ** The routes of executions *)








End access.

(** ** Paying takes a token *)

Section unpaid.
Context `{StorageLaws} `{MO : MapOrder} {L : Type} (c : GatewayConfig L).
Context (SortFunc : (Listing → Listing → Z) → list Listing → list Listing).



End unpaid.

Lemma orders_are_shown_to_their_parties_witness :
  has (may_act_on first_stored) pat = true.
Proof.
  assert (Hr : (demo_serve (request_as "pat" "" "GET" "/api/v1/orders/ord_1" None)
     (demo_serve first_order demo_gateway).1).2 = Ok (ok (GOrder first_stored None)))
    by (vm_compute; reflexivity).
  destruct (orders_are_shown_to_their_parties (MO := plain_order) demo_config (λ _ l, l) demo_iam
    (request_as "pat" "" "GET" "/api/v1/orders/ord_1" None) _ _ _ eq_refl eq_refl
    ltac:(vm_compute; reflexivity) (run_result _ _ _ Hr)) as [Hs|(token & actor & Ht & Ha & Hs)].
  - exact (Hs pat).
  - assert (token = "pat") as -> by (vm_compute in Ht; by injection Ht as <-).
    assert (actor = pat) as -> by (vm_compute in Ha; by injection Ha as <-). exact Hs.
Defined.

