(* ===== verification/GatewayDelivery.v ===== *)
(** * Callbacks are acted on once

    An event of a carrier is acted on at its first delivery, whatever comes of it;
    every later one, after whatever other requests and events, is answered with what
    was decided then.  A failure is therefore final, which the run at the end shows;
    so is what a sender can sign for itself. *)

From S2P Require Import RateLimit CarrierService CarrierEvents Http Web Signatures Prelude GoNum GoText.
From S2P Require Import GoFloat Core GoTime Milestones Market Repo MemoryRepo App Providers Orders Bidding.
From S2P Require Import Directory Lifecycle Credit Awards SettlementLedger Gateway GatewayOrders.
From S2P Require Import GatewayDirectory GatewayCallbacks GatewayServe.

Section delivery.
Context `{Storage} `{MO : MapOrder} {L : Type} (c : GatewayConfig L).
Context (SortFunc : (Listing → Listing → Z) → list Listing → list Listing).
Abbreviation G := (ST (Gateway L)).

(** ** Acting on an event does not touch the ledger *)

Definition same_ledger (g g' : Gateway L) : Prop := gw_ledger g' = gw_ledger g.
#[export] Instance same_ledger_preorder : PreOrder same_ledger.
Proof. unfold same_ledger. split; [done|]. intros g g1 g2. congruence. Qed.

Lemma zoom_ledger {T A} (get : Gateway L → T) (set : T → Gateway L → Gateway L) (m : ST T A) :
  (∀ t g, gw_ledger (set t g) = gw_ledger g) → frames same_ledger (zoom get set m).
Proof. intros Hs g. unfold zoom, same_ledger. destruct (m (get g)). apply Hs. Qed.
Lemma respond_ledger {A R} (m : G A) (h : error → R) (k : A → G R) :
  frames same_ledger m → (∀ a, frames same_ledger (k a)) → frames same_ledger (or_respond m h k).
Proof.
  intros Hm Hk g. rewrite or_respond_eq. specialize (Hm g). destruct (m g) as [g1 [a|e]]; [|done].
  etransitivity; [exact Hm|apply Hk].
Qed.

Ltac ledger_step :=
  lazymatch goal with
  | |- ∀ _, _ => intro
  | |- frames _ (or_respond _ _ _) => apply respond_ledger
  | |- frames _ (mbind _ _) => apply frames_bind
  | |- frames _ (mret _) => apply frames_ret
  | |- frames _ (throw _) => apply frames_throw
  | |- frames _ get_st => apply frames_get
  | |- frames _ (query _ _) => apply frames_query
  | |- frames _ (attempt _) => apply frames_attempt
  | |- frames _ (fail_if _ _) => apply frames_fail_if
  | |- frames _ (zoom _ _ _) => apply zoom_ledger; done
  | |- frames _ (match ?x with _ => _ end) => destruct x
  | |- frames _ (λ g, _) => first [done | intros ?; unfold same_ledger; by repeat case_match]
  | |- PreOrder _ => typeclasses eauto
  | |- frames _ ?m => let h := head m in unfold h; cbv zeta
  end.

Lemma process_ledger e : frames same_ledger (process_event c e : G (Answer + RecommendedAction)).
Proof. repeat ledger_step. Qed.
Lemma response_ledger e : frames same_ledger (buildCallbackResponse c e : G CallbackResponse).
Proof. repeat ledger_step. Qed.
(** No other handler touches it either. *)
Lemma routes_ledger : Forall (λ rt : route, rt_Handler rt = handleCarrierCallback c ∨
  ∀ r, frames same_ledger (rt_Handler rt r)) (routes c SortFunc).
Proof.
  unfold routes. repeat (apply Forall_cons; split); [..|apply Forall_nil; done].
  all: cbv [rt_Handler get_ post patch].
  all: first [by left | right; intros r; repeat ledger_step].
Qed.

(** ** The ledger *)

Definition event_id (e : CallbackEvent) : string :=
  default "" (payload_string (ce_Payload e) "eventId").
Definition decided_on (l : EventLedger) (id decision : string) : Prop :=
  ∃ p ev, el_eventIndex l !! id = Some (Some p) ∧ el_heap l !! p = Some ev ∧
    ev_DecisionJSON ev = decision.
(** The index leads from an id to the event with that id: two ids never share a cell. *)
Definition indexed (l : EventLedger) : Prop :=
  ∀ id p, el_eventIndex l !! id = Some (Some p) →
    ∃ ev, el_heap l !! p = Some ev ∧ ev_EventID ev = id.

Lemma new_indexed : indexed NewEventLedger.
Proof. intros id p Hp. cbn in Hp. by rewrite lookup_empty in Hp. Qed.

(** What [RecordEvent] does: nothing, or it adds one cell for a new id. *)
Lemma record_cases x id s ty t l l' r :
  RecordEvent x id s ty "" "" "" t l = (l', r) →
  l' = l ∧ (∀ ev, r = Ok (ev, false) → False) ∨
  el_eventIndex l !! id = None ∧ ∃ ev, r = Ok (ev, false) ∧
    el_heap l' = el_heap l ++ [ev] ∧ ev_EventID ev = id ∧ ev_DecisionJSON ev = "" ∧
    el_eventIndex l' = <[id := Some (length (el_heap l))]> (el_eventIndex l).
Proof.
  unfold RecordEvent, mbind, st_bind, get_st.
  destruct (el_eventIndex l !! id) as [[p|]|] eqn:Hl; [intros [= <- <-]; by left..|]. unfold fail_if.
  destruct (_ && _); [intros [= <- <-]; by left|]. destruct (_ && _); [intros [= <- <-]; by left|].
  intros [= <- <-]. right. split; [done|]. eexists. split_and!; reflexivity.
Qed.
Lemma record_fresh x id s ty t l l' ev :
  RecordEvent x id s ty "" "" "" t l = (l', Ok (ev, false)) → decided_on l' id "".
Proof.
  intros [(_ & Hno)|(_ & ev' & _ & Hh & _ & Hd & Hi)]%record_cases; [by destruct (Hno ev)|].
  exists (length (el_heap l)), ev'. rewrite Hi, Hh, lookup_insert_eq. split; [done|].
  by rewrite list_lookup_middle.
Qed.
Lemma record_keeps x id s ty t l l' r id' d :
  RecordEvent x id s ty "" "" "" t l = (l', r) →
  (indexed l → indexed l') ∧ (decided_on l id' d → decided_on l' id' d).
Proof.
  intros [(-> & _)|(Hn & ev & _ & Hh & He & _ & Hi)]%record_cases; [done|]. split.
  - intros Hl k p Hp. rewrite Hi in Hp. rewrite Hh.
    apply lookup_insert_Some in Hp as [[<- [= <-]]|[_ Hp]].
    + exists ev. split; [by apply list_lookup_middle|done].
    + destruct (Hl k p Hp) as (ev' & Hev & Hk). exists ev'.
      split; [by apply lookup_app_l_Some|done].
  - intros (p & ev' & Hp & Hev & Hd). exists p, ev'. rewrite Hi, Hh. split_and!; [|by apply lookup_app_l_Some|done].
    rewrite lookup_insert_ne; [done|]. intros ->. by rewrite Hn in Hp.
Qed.
Lemma record_again l id decision x s ty t :
  decided_on l id decision → ∃ ev, ev_DecisionJSON ev = decision ∧
    RecordEvent x id s ty "" "" "" t l = (l, Ok (ev, true)).
Proof.
  intros (p & ev & Hp & Hev & Hd). exists ev. split; [done|].
  unfold RecordEvent, mbind, st_bind, get_st, deref. by rewrite Hp, Hev.
Qed.
Lemma update_eq id decision l : (UpdateDecision id decision l).1 =
  match el_eventIndex l !! id with
  | Some (Some p) => l <| el_heap ::= alter (λ e, e <| ev_DecisionJSON := decision |>) p |>
  | _ => l
  end.
Proof. unfold UpdateDecision, mbind, st_bind, get_st. by destruct (el_eventIndex l !! id) as [[p|]|]. Qed.
Lemma decide_event l id d decision l' r :
  decided_on l id d → UpdateDecision id decision l = (l', r) → decided_on l' id decision.
Proof.
  intros (p & ev & Hp & Hev & _) Hu. apply (f_equal fst) in Hu. rewrite update_eq, Hp in Hu.
  cbn [fst] in Hu. subst l'. exists p, (ev <| ev_DecisionJSON := decision |>). split; [exact Hp|].
  split; [|reflexivity]. cbn. by rewrite list_lookup_alter, decide_True, Hev.
Qed.
(** A decision on one event is not seen through another's id. *)
Lemma update_keeps id decision l id' d :
  let l' := (UpdateDecision id decision l).1 in
  (indexed l → indexed l') ∧
  (id' ≠ id → indexed l → decided_on l id' d → decided_on l' id' d).
Proof.
  intros l'. unfold l'. rewrite update_eq.
  destruct (el_eventIndex l !! id) as [[p|]|] eqn:Hp; [|done..]. split.
  - intros Hl k q Hq. destruct (Hl k q Hq) as (ev & Hev & Hk). cbn.
    rewrite list_lookup_alter. case_decide; subst; rewrite Hev; eexists; (split; [reflexivity|done]).
  - intros Hne Hl (q & ev & Hq & Hev & Hd). exists q, ev. split_and!; [exact Hq| |done].
    cbn. rewrite list_lookup_alter, decide_False; [done|]. intros <-.
    destruct (Hl _ _ Hp) as (ev1 & H1 & <-), (Hl _ _ Hq) as (ev2 & H2 & <-). congruence.
Qed.

(** ** What is decided stays decided *)

Definition remembers (id d : string) (g g' : Gateway L) : Prop :=
  indexed (gw_ledger g) → indexed (gw_ledger g') ∧
    (decided_on (gw_ledger g) id d → decided_on (gw_ledger g') id d).
#[local] Instance remembers_preorder id d : PreOrder (remembers id d).
Proof.
  unfold remembers. split; [done|]. intros g g1 g2 H1 H2 Hg.
  destruct (H1 Hg) as [Hg1 Hd1], (H2 Hg1) as [Hg2 Hd2]. auto.
Qed.
Lemma same_remembers id d (g g' : Gateway L) : same_ledger g g' → remembers id d g g'.
Proof. unfold same_ledger, remembers. by intros ->. Qed.
Lemma frames_same_ledger {A} id d (m : G A) : frames same_ledger m → frames (remembers id d) m.
Proof. intros Hm g. apply same_remembers, Hm. Qed.

Lemma act_remembers e eid id d : id ≠ eid → frames (remembers id d) (act_on_event c e eid : G Answer).
Proof.
  intros Hne. unfold act_on_event.
  apply frames_bind; [apply _|apply frames_same_ledger, process_ledger|]. intros [a|action]; [apply frames_ret, _|].
  apply frames_bind; [apply _|apply frames_same_ledger, response_ledger|]. intros response.
  apply frames_bind; [apply _| |intros ?; apply frames_ret, _].
  destruct (String.eqb _ _); [apply frames_ret, _|]. intros g Hg.
  unfold on_ledger, zoom. destruct (update_keeps eid
    (marshal_action (cr_RecommendedAction (with_action response action))) (gw_ledger g) id d) as [Hi Hd].
  destruct (UpdateDecision _ _ _) as [l r]. cbn in *. auto.
Qed.

Lemma accept_remembers e id d : id ≠ "" → frames (remembers id d) (accept_event c e : G Answer).
Proof.
  intros Hid. unfold accept_event. cbv zeta.
  destruct (String.eqb_spec (default "" (payload_string (ce_Payload e) "eventId")) "") as [He|He].
  { apply act_remembers. by rewrite He. }
  apply frames_bind; [apply _|by apply frames_same_ledger; repeat ledger_step|]. intros t g. rewrite or_respond_eq.
  unfold on_ledger, zoom. destruct (RecordEvent _ _ _ _ _ _ _ _ _) as [l r] eqn:Hrec.
  pose proof (record_cases _ _ _ _ _ _ _ _ Hrec) as Hcases.
  assert (Hrem : remembers id d g (g <| gw_ledger := l |>)).
  { intros Hg. apply (record_keeps _ _ _ _ _ _ _ _ id d) in Hrec as [Hi Hd]. cbn. auto. }
  destruct r as [[ev replay]|err]; [|exact Hrem]. cbn [snd]. destruct replay; [exact Hrem|].
  destruct Hcases as [(_ & Hno)|(Hnew & _)]; [by destruct (Hno ev)|].
  destruct (decide (id = default "" (payload_string (ce_Payload e) "eventId"))) as [->|Hne].
  - intros Hg. destruct (Hrem Hg) as [Hl _].
    destruct (act_remembers e _ "" d (λ Hn, He (eq_sym Hn)) (g <| gw_ledger := l |>) Hl) as [Hi _].
    split; [exact Hi|]. intros (p & _ & Hp & _). by rewrite Hnew in Hp.
  - etransitivity; [exact Hrem|by apply act_remembers].
Qed.

(** What is kept of an answer for redeliveries. *)
Definition kept_decision (a : Answer) : string :=
  match rs_Body a with
  | GCallback response => marshal_action (cr_RecommendedAction response)
  | _ => ""
  end.

Lemma process_answers e (g g' : Gateway L) a :
  process_event c e g = (g', Ok (inl a)) → ∀ response, rs_Body a ≠ GCallback response.
Proof.
  unfold process_event. cbv zeta. intros Hr response Hb.
  assert (Hg : ∀ err, rs_Body (gateway_error err) ≠ GCallback response).
  { intros err. unfold gateway_error. by destruct (writeGatewayError err). }
  destruct (event_kind _) as [[]|]; rewrite ?or_respond_eq in Hr; unfold mret, st_ret in Hr;
    try match type of Hr with match ?m with _ => _ end = _ => destruct m as [g2 [z|err]] end;
    first [discriminate Hr | injection Hr as _ <-];
    first [discriminate Hb | by apply Hg in Hb].
Qed.

Lemma act_decides e id (g g' : Gateway L) a :
  id ≠ "" → decided_on (gw_ledger g) id "" → act_on_event c e id g = (g', Ok a) →
  decided_on (gw_ledger g') id (kept_decision a).
Proof.
  intros Hid Hd Hr. unfold act_on_event in Hr.
  apply bind_Ok in Hr as (g1 & outcome & Hp & Hr).
  pose proof (frames_result _ _ _ _ _ (process_ledger e) Hp) as Hl1.
  unfold same_ledger in Hl1. destruct outcome as [a'|action].
  { injection Hr as <- <-. rewrite Hl1. unfold kept_decision.
    destruct (rs_Body a') eqn:Hb; try done. by destruct (process_answers _ _ _ _ Hp response). }
  apply bind_Ok in Hr as (g2 & response & Hb & Hr).
  pose proof (frames_result _ _ _ _ _ (response_ledger e) Hb) as Hl2. unfold same_ledger in Hl2.
  apply bind_Ok in Hr as (g3 & [] & Hu & [= <- <-]).
  apply String.eqb_neq in Hid. rewrite Hid in Hu. unfold on_ledger, zoom in Hu.
  destruct (UpdateDecision _ _ _) as [l x] eqn:Hupd. injection Hu as <- _.
  change (decided_on l id (marshal_action (cr_RecommendedAction (with_action response action)))).
  eapply decide_event; [|exact Hupd]. by rewrite Hl2, Hl1.
Qed.

(** ** Whatever arrives *)

Lemma serve_remembers r id d : id ≠ "" → frames (remembers id d) (serve c SortFunc r : G Answer).
Proof.
  intros Hid. unfold serve. destruct (List.find _ _) as [rt|] eqn:Hrt; [|apply frames_ret, _].
  apply List.find_some in Hrt as [Hin%list_elem_of_In _].
  destruct (proj1 (Forall_forall _ _) routes_ledger rt Hin) as [->|Hs];
    [|apply frames_same_ledger, Hs].
  unfold handleCarrierCallback. destruct (parseCarrierCallback _) as [[e []]|]; [..|apply frames_ret, _].
  all: intros g; rewrite or_respond_eq;
    match goal with |- context [authenticate_callback ?c ?r ?e ?i g] =>
      assert (Ha : frames same_ledger (authenticate_callback c r e i : G ())) by (repeat ledger_step);
      specialize (Ha g); destruct (authenticate_callback c r e i g) as [g1 [[]|err]] end;
    apply (same_remembers id d) in Ha; [|exact Ha].
  all: etransitivity; [exact Ha|by apply accept_remembers].
Qed.
Lemma requests_remember rs id d (g : Gateway L) :
  id ≠ "" → remembers id d g (serve_all c SortFunc rs g).
Proof.
  intros Hid. unfold serve_all. revert g. induction rs as [|r rs IH]; intros g; cbn [foldl]; [reflexivity|].
  etransitivity; [|apply IH]. rewrite ServeHTTP_eq. set (g0 := update gw_actor _ g).
  pose proof (serve_remembers r id d Hid g0) as Hr.
  destruct (serve c SortFunc r g0) as [g' [response|e]]; exact Hr.
Qed.

(** A first delivery that the ledger takes in is decided. *)
Lemma first_decides e (g g1 : Gateway L) first :
  event_id e ≠ "" → el_eventIndex (gw_ledger g) !! event_id e = None →
  accept_event c e g = (g1, Ok first) →
  is_Some (el_eventIndex (gw_ledger g1) !! event_id e) →
  decided_on (gw_ledger g1) (event_id e) (kept_decision first).
Proof.
  intros Hid Hnew Hr Hin. unfold accept_event in Hr. cbv zeta in Hr. fold (event_id e) in Hr.
  apply String.eqb_neq in Hid as Hid'. rewrite Hid' in Hr.
  apply bind_Ok in Hr as (g3 & t & [= <- <-] & Hr). rewrite or_respond_eq in Hr.
  unfold on_ledger, zoom in Hr. destruct (RecordEvent _ _ _ _ _ _ _ _ _) as [l x] eqn:Hrec in Hr.
  pose proof (record_cases _ _ _ _ _ _ _ _ Hrec) as [(Hl & Hno)|(_ & ev & Hx & _)].
  - exfalso. destruct x as [[ev []]|err]; [| |injection Hr as <- _].
    + unfold RecordEvent, mbind, st_bind, get_st in Hrec.
      change (el_eventIndex (gw_ledger g) !! event_id e = None) in Hnew.
      match type of Hrec with context [el_eventIndex ?k] => change k with (gw_ledger g) in Hrec end.
      rewrite Hnew in Hrec. unfold fail_if in Hrec. repeat case_match; simplify_eq.
    + by apply (Hno ev).
    + destruct Hin as [p Hp]. subst l. change (el_eventIndex (gw_ledger g) !! event_id e = Some p) in Hp.
      by rewrite Hnew in Hp.
  - subst x. apply record_fresh in Hrec. cbn [snd] in Hr. eapply act_decides; [exact Hid| |exact Hr].
    exact Hrec.
Qed.
Lemma redelivered e d (g : Gateway L) :
  event_id e ≠ "" → decided_on (gw_ledger g) (event_id e) d →
  accept_event c e g = (g <| gw_ticks ::= S |>, Ok (ok (GReplay d))).
Proof.
  intros Hid Hdec. unfold accept_event. cbv zeta. fold (event_id e).
  apply String.eqb_neq in Hid. rewrite Hid. unfold mbind, st_bind, time_now.
  rewrite or_respond_eq. unfold on_ledger, zoom.
  destruct (record_again _ _ _ (ce_JobID e)
    match payload_float (ce_Payload e) "sequence" with Some x => f64_to_int64 x | None => 0 end
    (ce_Type e) (gc_now c (gw_ticks g)) Hdec) as (ev & Hev & Hrec).
  match goal with |- context [RecordEvent _ _ _ _ _ _ _ _ (gw_ledger ?x)] =>
    change (gw_ledger x) with (gw_ledger g) end.
  rewrite Hrec. rewrite <- Hev. reflexivity.
Qed.

(** C25.  An event is acted on once.  When a gateway that started with an empty ledger
    and has answered whatever requests takes in an event with an id that is new to it,
    then whatever comes of the event, and whatever requests, other events among them,
    are answered afterwards, every later authentic event with this id is
    answered 200 with the recommendation that was given, and changes nothing; if the
    first delivery ended in an error there is none, and the answer is empty: the
    event is never tried again. *)
Theorem events_are_acted_on_once e e' before after (g0 g1 : Gateway L) first :
  gw_ledger g0 = NewEventLedger →
  let g := serve_all c SortFunc before g0 in
  event_id e ≠ "" → el_eventIndex (gw_ledger g) !! event_id e = None →
  accept_event c e g = (g1, Ok first) →
  is_Some (el_eventIndex (gw_ledger g1) !! event_id e) →
  event_id e' = event_id e →
  let g2 := serve_all c SortFunc after g1 in
  accept_event c e' g2 = (g2 <| gw_ticks ::= S |>, Ok (ok (GReplay (kept_decision first)))).
Proof.
  intros H0 g Hid Hnew Hr Hin He' g2.
  apply redelivered; rewrite He'; [done|].
  assert (Hg : indexed (gw_ledger g)).
  { apply (requests_remember before (event_id e) "" g0 Hid). rewrite H0. apply new_indexed. }
  apply (requests_remember after (event_id e) (kept_decision first) g1 Hid).
  - pose proof (accept_remembers e (event_id e) "" Hid g Hg) as [Hg1 _]. by rewrite Hr in Hg1.
  - by apply (first_decides e g g1 first).
Qed.

(** ** Who may deliver *)

(**  A sender may bring its own secret.  Whatever secrets are configured for the
    provider's carrier binding and for the gateway, an event of the plain form is
    authentic once it is signed under the secret that the request itself names in
    [X-One-Tok-Callback-Secret] and its time is not five minutes past; and an event
    of the integration form is authentic when it is not signed at all. *)
Theorem senders_bring_their_secret r e ts (g : Gateway L) :
  let secret := TrimSpace (rq_Header r "X-One-Tok-Callback-Secret") in
  let signed := e <| ce_Signature := SignCallback secret e |> in
  secret ≠ "" → ParseRFC3339 (ce_Timestamp e) = Some ts →
  gc_now c (gw_ticks g) ≤ ts + 5 * 60 * 1000000000 →
  (authenticate_callback c r signed false g).2 = Ok tt ∧
  (TrimSpace (rq_Header r "X-Carrier-Signature") = "" →
     authenticate_callback c r e true g = (g, Ok tt)).
Proof.
  intros secret signed Hs Hts Hnow. split.
  - unfold authenticate_callback, resolveCarrierCallbackSecret. fold secret.
    apply String.eqb_neq in Hs as Hs'. rewrite Hs'. cbn [negb].
    change (VerifyCallback secret signed (gc_now c (gw_ticks g)) = Ok tt).
    apply VerifyCallback_Ok; [done|]. split; [done|]. exists ts. split; [done|].
    assert (CallbackMaxAge = 5 * 60 * 1000000000) by reflexivity. lia.
  - intros Hc. unfold authenticate_callback. by rewrite Hc.
Qed.
End delivery.

(** ** Runs *)

Definition callback (id type : string) (payload : list (string * json)) : Request :=
  request_as "" "" "POST" "/api/v1/carrier/callback" (Some (JObj
    [("type", JStr type); ("jobId", JStr "job_1"); ("bindingId", JStr "bind_1");
     ("payload", JObj (("eventId", JStr id) :: payload))])).
Definition carrier_route (name : string) (body : json) : Request :=
  request_as "" "exec" "POST" ("/api/v1/orders/ord_1/milestones/ms_1/" +:+ name) (Some body).
(** A milestone bound to a carrier, with a job that waits. *)
Definition working : Gateway () :=
  demo_serve_all
    [first_order; carrier_route "bind-carrier" (JObj [("carrierId", JStr "car_1")]);
     carrier_route "jobs" (JObj [("bindingId", JStr "bind_1"); ("input", JStr "do")])]
    demo_gateway.
Definition started : Request := callback "e2" "job.started" [].
Definition ready : Request := callback "e1" "milestone.ready" [("summary", JStr "done")].
Definition started_event : CallbackEvent :=
  mkCallbackEvent "job.started" "job_1" "bind_1" "" "" {["eventId" := JStr "e2"]}.

(** The start of the job, delivered again after it was reported ready. *)
Lemma events_are_acted_on_once_witness :
  (accept_event demo_config started_event (demo_serve_all [ready]
     (accept_event demo_config started_event working).1)).2
  = Ok (ok (GReplay (marshal_action continue))).
Proof.
  set (run := accept_event demo_config started_event).
  assert (Hr : (run working).2 = Ok (ok (GCallback (mkCallbackResponse true true continue))))
    by (vm_compute; reflexivity).
  assert (Hin : is_Some (el_eventIndex (gw_ledger (run working).1) !! event_id started_event))
    by (vm_compute; eexists; reflexivity).
  assert (Hnew : el_eventIndex (gw_ledger working) !! event_id started_event = None)
    by (vm_compute; reflexivity).
  exact (f_equal snd (events_are_acted_on_once (MO := plain_order) demo_config (λ _ l, l)
    started_event started_event
    [first_order; carrier_route "bind-carrier" (JObj [("carrierId", JStr "car_1")]);
     carrier_route "jobs" (JObj [("bindingId", JStr "bind_1"); ("input", JStr "do")])] [ready]
    demo_gateway (run working).1 _ eq_refl ltac:(discriminate) Hnew (run_result _ _ _ Hr) Hin
    eq_refl)).
Defined.

Lemma senders_bring_their_secret_witness :
  let e := mkCallbackEvent "job.failed" "job_1" "bind_1" "2024-01-01T00:00:00Z" "" ∅ in
  let r := mkRequest "POST" "" (λ h, if String.eqb h "X-One-Tok-Callback-Secret" then "mine" else "")
             (λ _, []) None "" in
  (authenticate_callback demo_config r (e <| ce_Signature := SignCallback "mine" e |>) false
     working).2 = Ok tt.
Proof.
  intros e r.
  exact (proj1 (senders_bring_their_secret demo_config r e
    (default 0 (ParseRFC3339 "2024-01-01T00:00:00Z")) working ltac:(vm_compute; discriminate)
    ltac:(vm_compute; reflexivity) ltac:(vm_compute; discriminate))).
Defined.

Definition status_of (out : Gateway () * result Answer) : Z :=
  match out.2 with Ok a => rs_Status a | Err _ => 0 end.
Definition order_1_status (g : Gateway ()) : option OrderStatus :=
  match order_Get "ord_1" (orders (gw_app g)) with Ok o => Some (o_Status o) | Err _ => None end.

(**  A failed event is lost.  The result of a milestone that arrives before the
    start of its job is refused with 409; sent again once the job has started it is
    answered 200, with an empty decision, and the milestone stays unsettled, though
    the same two events in order settle it. *)
Theorem failed_event_is_lost :
  let early := demo_serve ready working in
  let later := demo_serve started early.1 in
  let again := demo_serve ready later.1 in
  (status_of early, status_of later) = (409, 200) ∧
  again.2 = Ok (ok (GReplay "")) ∧ order_1_status again.1 = Some OrderStatusRunning ∧
  order_1_status (demo_serve_all [started; ready] working) = Some OrderStatusCompleted.
Proof. vm_compute. repeat split. Qed.
