(* ===== verification/Identity.v ===== *)
(** * Users, organizations and sessions (internal/identity)

    The data of the identity store, its interface with the contract the IAM service
    relies on, and the in-memory store with the proof that it keeps the contract.
    A store reads its own clock: [clock n] is the answer to the [n]-th reading. *)

From Stdlib Require Import Ascii.
From S2P Require Import Prelude GoText GoBytes.

Abbreviation Time := Z (only parsing).

(** ** Data (store.go) *)

Record User := mkUser {
  u_ID : string;
  u_Email : string;
  u_Name : string;
  u_PasswordHash : string;
  u_CreatedAt : Time;
}.
Record Organization := mkOrganization {
  org_ID : string;
  org_Name : string;
  org_Kind : string;
  org_CreatedAt : Time;
}.
Record Membership := mkStoredMembership {
  mb_UserID : string;
  mb_OrganizationID : string;
  mb_Role : string;
  mb_CreatedAt : Time;
}.
Record Session := mkSession {
  se_ID : string;
  se_UserID : string;
  se_TokenDigest : string;
  se_ExpiresAt : Time;
  se_CreatedAt : Time;
  se_RevokedAt : option Time;
}.
#[export] Instance Session_eta : Eta Session := λ s,
  mkSession (se_ID s) (se_UserID s) (se_TokenDigest s) (se_ExpiresAt s) (se_CreatedAt s)
    (se_RevokedAt s).

Record ActorMembership := mkActorMembership {
  mp_Organization : Organization;
  mp_Role : string;
}.
Record ActorProfile := mkProfile {
  ap_User : User;
  ap_Memberships : list ActorMembership;
}.
Record AuthenticatedActor := mkAuthenticated {
  aa_Profile : ActorProfile;
  aa_Session : Session;
}.
Record Signup := mkSignup {
  su_Email : string;
  su_Name : string;
  su_PasswordHash : string;
  su_OrganizationName : string;
  su_OrganizationKind : string;
}.
Record NewSession := mkNewSession {
  ns_UserID : string;
  ns_TokenDigest : string;
  ns_ExpiresAt : Time;
}.

(** The form under which an e-mail address is kept. *)
Definition email_key (email : string) : string := ToLower (TrimSpace email).

(** ** Roles and validation (roles.go, validation.go) *)

Definition DefaultMembershipRoleForOrganizationKind (kind : string) : string :=
  let kind := TrimSpace kind in
  if String.eqb kind "buyer" then "org_owner"
  else if String.eqb kind "provider" then "org_owner"
  else if String.eqb kind "ops" then "ops_reviewer"
  else "org_owner".

Definition MinPasswordLength : nat := 8.

Definition ValidatePassword `{Unicode} (password : string) : result () :=
  if (String.length password <? MinPasswordLength)%nat then Err ErrPasswordTooShort
  else if negb (existsb IsLetter (runes password)) then Err ErrPasswordNeedsLetter
  else if negb (existsb IsDigit (runes password)) then Err ErrPasswordNeedsDigit
  else Ok tt.

(** [strings.IndexByte(trimmed, '@')] splits the address: [at < 1] where the first
    part is the whole or empty, [at == len(trimmed)-1] where the second is empty. *)
Definition ValidateEmail (email : string) : result () :=
  let trimmed := TrimSpace email in
  if String.eqb trimmed "" then Err ErrEmailEmpty
  else match cut_at "@"%char trimmed with
       | (_, None) => Err ErrEmailInvalid
       | (local, Some domain) =>
           if String.eqb local "" || String.eqb domain "" then Err ErrEmailInvalid
           else if negb (Contains domain ".") then Err ErrEmailInvalid
           else Ok tt
       end.

(** A separator is cut at where it occurs first. *)
Lemma cut_at_Some c s s1 s2 :
  cut_at c s = (s1, Some s2) ↔ s = s1 +:+ String c s2 ∧ has_byte c s1 = false.
Proof.
  split; [|intros [-> Hc]; by apply cut_at_app].
  revert s1. induction s as [|a s IH]; intros s1; cbn [cut_at]; [done|].
  destruct (Ascii.eqb_spec a c) as [->|Ha]; [by intros [= <- <-]|].
  destruct (cut_at c s) as [t u]. intros [= <- ->]. destruct (IH t eq_refl) as [-> Ht].
  split; [done|]. cbn [has_byte]. rewrite Ht. by destruct (Ascii.eqb_spec a c).
Qed.

(**  An address is accepted exactly when it is, between white space, a local part
    without an at sign, an at sign, and a domain with a dot in it; further at signs
    may stand in the domain.  A password is accepted exactly when it has at least
    eight bytes, a letter and a digit. *)
Theorem credentials_accepted `{Unicode} email password :
  (ValidateEmail email = Ok tt ↔ ∃ local domain,
     TrimSpace email = local +:+ String "@" domain ∧ local ≠ "" ∧ has_byte "@" local = false ∧
     Contains domain "." = true) ∧
  (ValidatePassword password = Ok tt ↔ (8 ≤ String.length password)%nat ∧
     (∃ r, r ∈ runes password ∧ IsLetter r = true) ∧ ∃ r, r ∈ runes password ∧ IsDigit r = true).
Proof.
  split.
  - unfold ValidateEmail. destruct (String.eqb_spec (TrimSpace email) "") as [->|Hne].
    { split; [done|]. intros ([|a l] & d & Hx & ? & _); done. }
    destruct (cut_at "@"%char (TrimSpace email)) as [local [domain|]] eqn:Hcut.
    + pose proof Hcut as [Heq Hl]%cut_at_Some. split.
      * destruct (String.eqb_spec local "") as [?|Hl1]; [done|].
        destruct (String.eqb_spec domain "") as [?|Hl2]; [done|]. cbn [orb].
        destruct (Contains domain ".") eqn:Hd; [|done]. intros _. by exists local, domain.
      * intros (l & d & Hx & Hl1 & Hl2 & Hd). rewrite Hx, cut_at_app in Hcut by done.
        injection Hcut as <- <-. rewrite (proj2 (String.eqb_neq _ _) Hl1).
        destruct d; [done|]. by rewrite Hd.
    + split; [done|]. intros (l & d & Hx & _ & Hl2 & _). by rewrite Hx, cut_at_app in Hcut.
  - unfold ValidatePassword, MinPasswordLength.
    assert (Hex : ∀ p, existsb p (runes password) = true ↔ ∃ r, r ∈ runes password ∧ p r = true).
    { intros p. rewrite existsb_exists. by setoid_rewrite <- list_elem_of_In. }
    rewrite <- !Hex. destruct (Nat.ltb_spec (String.length password) 8) as [Hl|Hl]; [split; [done|lia]|].
    destruct (existsb IsLetter _), (existsb IsDigit _); cbn; intuition congruence.
Qed.

(** ** The interface *)

Class IdentityStore := {
  IState : Type;
  CreateSignup : Signup → ST IState ActorProfile;
  FindUserByEmail : string → ST IState User;
  CreateSession : NewSession → ST IState Session;
  GetAuthenticatedActorBySessionDigest : string → ST IState AuthenticatedActor;
  RevokeSession : string → ST IState ();
}.

(** What the contract speaks of: an account, and a session, without the times at
    which they were written. *)
Record Account := mkAccount {
  acc_ID : string;
  acc_Email : string;
  acc_Name : string;
  acc_PasswordHash : string;
  acc_Memberships : list (string * string * string * string); (* id, name, kind, role *)
}.
Record Grant := mkGrant {
  gr_UserID : string;
  gr_ExpiresAt : Time;
  gr_Revoked : bool;
}.
Definition membership_view (m : ActorMembership) : string * string * string * string :=
  (org_ID (mp_Organization m), org_Name (mp_Organization m), org_Kind (mp_Organization m),
   mp_Role m).
Definition account_of (p : ActorProfile) : Account :=
  let u := ap_User p in
  mkAccount (u_ID u) (u_Email u) (u_Name u) (u_PasswordHash u)
    (membership_view <$> ap_Memberships p).
Definition grant_of (s : Session) : Grant :=
  mkGrant (se_UserID s) (se_ExpiresAt s) (bool_decide (se_RevokedAt s ≠ None)).
Definition revoked (g : Grant) : Grant := mkGrant (gr_UserID g) (gr_ExpiresAt g) true.

(** The account a signup asks for, under the ids it is given. *)
Definition new_account (userID orgID : string) (i : Signup) : Account :=
  mkAccount userID (email_key (su_Email i)) (TrimSpace (su_Name i)) (su_PasswordHash i)
    [(orgID, TrimSpace (su_OrganizationName i), TrimSpace (su_OrganizationKind i),
      DefaultMembershipRoleForOrganizationKind (su_OrganizationKind i))].

(** An operation that leaves accounts and sessions as they are, in a good state. *)
Class IdentityLaws (Store : IdentityStore) := {
  store_ok : IState → Prop;
  accounts : IState → gmap string Account;
  grants : IState → gmap string Grant;
  accounts_keyed s k a : store_ok s → accounts s !! k = Some a → acc_Email a = k;
  accounts_distinct s k k' a a' : store_ok s → accounts s !! k = Some a →
    accounts s !! k' = Some a' → acc_ID a = acc_ID a' → k = k';
  signup_law i s s' r : store_ok s → CreateSignup i s = (s', r) →
    store_ok s' ∧ grants s' = grants s ∧
    match r with
    | Ok p => accounts s !! email_key (su_Email i) = None ∧
        accounts s' = <[email_key (su_Email i) := account_of p]> (accounts s) ∧
        ∃ userID orgID, account_of p = new_account userID orgID i
    | Err e => accounts s' = accounts s ∧
        (is_error e ErrIdentityConflict = true →
         email_key (su_Email i) = "" ∨ is_Some (accounts s !! email_key (su_Email i)))
    end;
  find_law email s s' r : store_ok s → FindUserByEmail email s = (s', r) →
    store_ok s' ∧ grants s' = grants s ∧ accounts s' = accounts s ∧
    match r with
    | Ok u => ∃ a, accounts s !! email_key email = Some a ∧
        acc_ID a = u_ID u ∧ acc_Email a = u_Email u ∧ acc_Name a = u_Name u ∧
        acc_PasswordHash a = u_PasswordHash u
    | Err e => is_error e ErrIdentityNotFound = true → accounts s !! email_key email = None
    end;
  session_law i s s' r : store_ok s → CreateSession i s = (s', r) →
    store_ok s' ∧ accounts s' = accounts s ∧
    match r with
    | Ok _ =>
        grants s' = <[ns_TokenDigest i := mkGrant (ns_UserID i) (ns_ExpiresAt i) false]> (grants s)
    | Err _ => grants s' = grants s
    end;
  actor_law digest s s' r : store_ok s →
    GetAuthenticatedActorBySessionDigest digest s = (s', r) →
    store_ok s' ∧ grants s' = grants s ∧ accounts s' = accounts s ∧
    match r with
    | Ok actor => grants s !! digest = Some (grant_of (aa_Session actor)) ∧
        accounts s !! u_Email (ap_User (aa_Profile actor)) = Some (account_of (aa_Profile actor)) ∧
        u_ID (ap_User (aa_Profile actor)) = se_UserID (aa_Session actor)
    | Err e => is_error e ErrIdentityNotFound = true → grants s !! digest = None
    end;
  revoke_law digest s s' r : store_ok s → RevokeSession digest s = (s', r) →
    store_ok s' ∧ accounts s' = accounts s ∧
    match r with
    | Ok _ => ∃ g, grants s !! digest = Some g ∧ grants s' = <[digest := revoked g]> (grants s)
    | Err e => grants s' = grants s
    end;
}.

(** ** The in-memory store *)

Record MemoryStore := mkMemoryStore {
  ids_userSeq : Z;
  ids_orgSeq : Z;
  ids_sessionSeq : Z;
  ids_usersByID : gmap string User;
  ids_userIDsByEmail : gmap string string;
  ids_organizationsByID : gmap string Organization;
  ids_membershipsByUserID : gmap string (list Membership);
  ids_sessionsByDigest : gmap string Session;
  ids_ticks : nat;
}.
#[export] Instance MemoryStore_eta : Eta MemoryStore := λ s,
  mkMemoryStore (ids_userSeq s) (ids_orgSeq s) (ids_sessionSeq s) (ids_usersByID s)
    (ids_userIDsByEmail s) (ids_organizationsByID s) (ids_membershipsByUserID s)
    (ids_sessionsByDigest s) (ids_ticks s).
Definition NewMemoryStore : MemoryStore := mkMemoryStore 0 0 0 ∅ ∅ ∅ ∅ ∅ 0.

Section memory.
Context (clock : nat → Time).
Abbreviation I := (ST MemoryStore).

(** [time.Now().UTC()] *)
Definition store_now : I Time := λ s, (s <| ids_ticks ::= S |>, Ok (clock (ids_ticks s))).

Definition memory_CreateSignup (input : Signup) : I ActorProfile :=
  let emailKey := email_key (su_Email input) in
  _ ← fail_if (String.eqb emailKey "") (EWrap ErrIdentityConflict "missing email");
  s ← get_st;
  _ ← fail_if (bool_decide (is_Some (ids_userIDsByEmail s !! emailKey))) ErrIdentityConflict;
  now ← store_now;
  _ ← modify (λ s, s <| ids_userSeq ::= Z.succ |> <| ids_orgSeq ::= Z.succ |>);
  s ← get_st;
  let user := mkUser ("usr_" +:+ pretty (ids_userSeq s)) emailKey (TrimSpace (su_Name input))
                (su_PasswordHash input) now in
  let organization := mkOrganization ("org_" +:+ pretty (ids_orgSeq s))
                        (TrimSpace (su_OrganizationName input))
                        (TrimSpace (su_OrganizationKind input)) now in
  let membership := mkStoredMembership (u_ID user) (org_ID organization)
                      (DefaultMembershipRoleForOrganizationKind (org_Kind organization)) now in
  _ ← modify (λ s, s
        <| ids_usersByID ::= <[u_ID user := user]> |>
        <| ids_userIDsByEmail ::= <[emailKey := u_ID user]> |>
        <| ids_organizationsByID ::= <[org_ID organization := organization]> |>
        <| ids_membershipsByUserID ::= (λ m,
             <[u_ID user := default [] (m !! u_ID user) ++ [membership]]> m) |>);
  mret (mkProfile user [mkActorMembership organization (mb_Role membership)]).

Definition memory_FindUserByEmail (email : string) : I User := λ s, (s,
  match ids_userIDsByEmail s !! email_key email with
  | None => Err ErrIdentityNotFound
  | Some userID =>
      match ids_usersByID s !! userID with
      | None => Err ErrIdentityNotFound
      | Some user => Ok user
      end
  end).

Definition memory_CreateSession (input : NewSession) : I Session :=
  s ← get_st;
  _ ← fail_if (negb (bool_decide (is_Some (ids_usersByID s !! ns_UserID input)))) ErrIdentityNotFound;
  _ ← modify (λ s, s <| ids_sessionSeq ::= Z.succ |>);
  s ← get_st;
  now ← store_now;
  let session := mkSession ("sess_" +:+ pretty (ids_sessionSeq s)) (ns_UserID input)
                   (ns_TokenDigest input) (ns_ExpiresAt input) now None in
  _ ← modify (λ s, s <| ids_sessionsByDigest ::= <[ns_TokenDigest input := session]> |>);
  mret session.

(** The loop over the memberships of a user. *)
Definition known_memberships (orgs : gmap string Organization) (ms : list Membership)
    : list ActorMembership :=
  omap (λ m, org ← orgs !! mb_OrganizationID m; Some (mkActorMembership org (mb_Role m))) ms.

Definition memory_GetAuthenticatedActorBySessionDigest (tokenDigest : string)
    : I AuthenticatedActor := λ s, (s,
  match ids_sessionsByDigest s !! tokenDigest with
  | None => Err ErrIdentityNotFound
  | Some session =>
      match ids_usersByID s !! se_UserID session with
      | None => Err ErrIdentityNotFound
      | Some user =>
          let memberships := default [] (ids_membershipsByUserID s !! u_ID user) in
          Ok (mkAuthenticated
                (mkProfile user (known_memberships (ids_organizationsByID s) memberships))
                session)
      end
  end).

Definition memory_RevokeSession (tokenDigest : string) : I () :=
  s ← get_st;
  match ids_sessionsByDigest s !! tokenDigest with
  | None => throw ErrIdentityNotFound
  | Some session =>
      now ← store_now;
      modify (λ s, s <| ids_sessionsByDigest ::=
                <[tokenDigest := session <| se_RevokedAt := Some now |>]> |>)
  end.

Definition memory_store : IdentityStore := {|
  IState := MemoryStore;
  CreateSignup := memory_CreateSignup;
  FindUserByEmail := memory_FindUserByEmail;
  CreateSession := memory_CreateSession;
  GetAuthenticatedActorBySessionDigest := memory_GetAuthenticatedActorBySessionDigest;
  RevokeSession := memory_RevokeSession;
|}.
End memory.

(** ** The in-memory store keeps the contract *)

Section memory_laws.
Context (clock : nat → Time).

(** The account of a user as a session of his would show it. *)
Definition user_account (m : MemoryStore) (id : string) : option Account :=
  u ← ids_usersByID m !! id;
  Some (account_of (mkProfile u (known_memberships (ids_organizationsByID m)
    (default [] (ids_membershipsByUserID m !! u_ID u))))).
Definition memory_accounts (m : MemoryStore) : gmap string Account :=
  omap (user_account m) (ids_userIDsByEmail m).
Definition memory_grants (m : MemoryStore) : gmap string Grant :=
  grant_of <$> ids_sessionsByDigest m.

(** An id given out by a counter. *)
Definition numbered (prefix : string) (seq : Z) (id : string) : Prop :=
  ∃ n, 1 ≤ n ≤ seq ∧ id = prefix +:+ pretty n.

Record memory_ok (m : MemoryStore) : Prop := {
  ok_users id u : ids_usersByID m !! id = Some u → u_ID u = id ∧
    numbered "usr_" (ids_userSeq m) id ∧ ids_userIDsByEmail m !! u_Email u = Some id;
  ok_emails k id : ids_userIDsByEmail m !! k = Some id →
    ∃ u, ids_usersByID m !! id = Some u ∧ u_Email u = k;
  ok_orgs id o : ids_organizationsByID m !! id = Some o →
    org_ID o = id ∧ numbered "org_" (ids_orgSeq m) id;
  ok_memberships id l : ids_membershipsByUserID m !! id = Some l →
    is_Some (ids_usersByID m !! id) ∧
    ∃ mb, l = [mb] ∧ mb_UserID mb = id ∧
          is_Some (ids_organizationsByID m !! mb_OrganizationID mb);
  ok_sessions d s : ids_sessionsByDigest m !! d = Some s →
    se_TokenDigest s = d ∧ is_Some (ids_usersByID m !! se_UserID s);
  ok_counters : 0 ≤ ids_userSeq m ∧ 0 ≤ ids_orgSeq m;
}.

Lemma numbered_fresh prefix seq : 0 ≤ seq → ¬ numbered prefix seq (prefix +:+ pretty (Z.succ seq)).
Proof.
  intros Hs (n & Hn & He). apply (inj (String.append prefix)), (inj pretty) in He. lia.
Qed.
Lemma numbered_succ prefix seq id : numbered prefix seq id → numbered prefix (Z.succ seq) id.
Proof. intros (n & Hn & ->). exists n. split; [lia|done]. Qed.

(** What a signup leaves behind. *)
Definition signed_up (m : MemoryStore) (i : Signup) (now : Time) : MemoryStore :=
  let user := mkUser ("usr_" +:+ pretty (Z.succ (ids_userSeq m))) (email_key (su_Email i))
                (TrimSpace (su_Name i)) (su_PasswordHash i) now in
  let organization := mkOrganization ("org_" +:+ pretty (Z.succ (ids_orgSeq m)))
                        (TrimSpace (su_OrganizationName i))
                        (TrimSpace (su_OrganizationKind i)) now in
  let membership := mkStoredMembership (u_ID user) (org_ID organization)
                      (DefaultMembershipRoleForOrganizationKind (org_Kind organization)) now in
  mkMemoryStore (Z.succ (ids_userSeq m)) (Z.succ (ids_orgSeq m)) (ids_sessionSeq m)
    (<[u_ID user := user]> (ids_usersByID m))
    (<[email_key (su_Email i) := u_ID user]> (ids_userIDsByEmail m))
    (<[org_ID organization := organization]> (ids_organizationsByID m))
    (<[u_ID user := default [] (ids_membershipsByUserID m !! u_ID user) ++ [membership]]>
       (ids_membershipsByUserID m))
    (ids_sessionsByDigest m) (S (ids_ticks m)).

Lemma memory_signup_inv i m m' r : memory_CreateSignup clock i m = (m', r) →
  (m' = m ∧ ∃ e, r = Err e ∧
     (email_key (su_Email i) = "" ∨ is_Some (ids_userIDsByEmail m !! email_key (su_Email i)))) ∨
  (ids_userIDsByEmail m !! email_key (su_Email i) = None ∧
   ∃ now p, m' = signed_up m i now ∧ r = Ok p ∧
   account_of p = new_account ("usr_" +:+ pretty (Z.succ (ids_userSeq m)))
                    ("org_" +:+ pretty (Z.succ (ids_orgSeq m))) i).
Proof.
  unfold memory_CreateSignup, mbind, st_bind, fail_if, get_st, modify, store_now.
  destruct (String.eqb_spec (email_key (su_Email i)) "") as [He|He].
  { intros [= <- <-]. left. eauto. }
  cbn. case_bool_decide as Hk.
  { intros [= <- <-]. left. eauto. }
  intros [= <- <-]. right. split; [by apply eq_None_not_Some|].
  eexists _, _. split; [reflexivity|split; [reflexivity|]].
  unfold account_of, new_account, membership_view. cbn.
  by unfold DefaultMembershipRoleForOrganizationKind; rewrite TrimSpace_idem.
Qed.

Lemma user_account_id m id a : memory_ok m → user_account m id = Some a → acc_ID a = id.
Proof.
  intros Hok Ha. unfold user_account in Ha. destruct (ids_usersByID m !! id) as [u|] eqn:Hu; [|done].
  injection Ha as <-. by apply (ok_users _ Hok).
Qed.

Section signed_up.
Context (m : MemoryStore) (i : Signup) (now : Time) (Hok : memory_ok m)
  (Hfree : ids_userIDsByEmail m !! email_key (su_Email i) = None).
Let uid := "usr_" +:+ pretty (Z.succ (ids_userSeq m)).
Let oid := "org_" +:+ pretty (Z.succ (ids_orgSeq m)).

Lemma uid_fresh : ids_usersByID m !! uid = None.
Proof.
  destruct (ids_usersByID m !! uid) as [u|] eqn:Hu; [|done].
  apply (ok_users _ Hok) in Hu as (_ & Hn & _). exfalso.
  eapply numbered_fresh; [|exact Hn]. apply (ok_counters _ Hok).
Qed.
Lemma oid_fresh : ids_organizationsByID m !! oid = None.
Proof.
  destruct (ids_organizationsByID m !! oid) as [o|] eqn:Ho; [|done].
  apply (ok_orgs _ Hok) in Ho as (_ & Hn). exfalso.
  eapply numbered_fresh; [|exact Hn]. apply (ok_counters _ Hok).
Qed.
Lemma uid_members : ids_membershipsByUserID m !! uid = None.
Proof.
  destruct (ids_membershipsByUserID m !! uid) as [l|] eqn:Hl; [|done].
  apply (ok_memberships _ Hok) in Hl as [Hs _]. rewrite uid_fresh in Hs. by destruct Hs.
Qed.

Lemma signed_up_new :
  user_account (signed_up m i now) uid = Some (new_account uid oid i).
Proof.
  unfold user_account, signed_up. cbn [ids_usersByID ids_organizationsByID ids_membershipsByUserID].
  cbn [u_ID]. fold uid oid. rewrite lookup_insert_eq. cbn. rewrite uid_members, lookup_insert_eq. cbn.
  rewrite lookup_insert_eq. cbn. unfold account_of, new_account, membership_view. cbn.
  by unfold DefaultMembershipRoleForOrganizationKind; rewrite TrimSpace_idem.
Qed.
Lemma signed_up_other id : id ≠ uid →
  user_account (signed_up m i now) id = user_account m id.
Proof.
  intros Hid. unfold user_account, signed_up.
  cbn [ids_usersByID ids_organizationsByID ids_membershipsByUserID u_ID org_ID]. fold uid oid.
  rewrite lookup_insert_ne by done. destruct (ids_usersByID m !! id) as [u|] eqn:Hu; [|done]. cbn.
  destruct (ok_users _ Hok _ _ Hu) as [-> _]. rewrite lookup_insert_ne by done.
  destruct (ids_membershipsByUserID m !! id) as [l|] eqn:Hl; [|done].
  apply (ok_memberships _ Hok) in Hl as (_ & mb & -> & _ & Ho). cbn.
  rewrite lookup_insert_ne; [done|]. intros He. rewrite <- He, oid_fresh in Ho. by destruct Ho.
Qed.

Lemma signed_up_accounts :
  memory_accounts (signed_up m i now)
  = <[email_key (su_Email i) := new_account uid oid i]> (memory_accounts m).
Proof.
  apply map_eq. intros k. unfold memory_accounts. rewrite lookup_omap.
  unfold signed_up at 2. cbn [ids_userIDsByEmail u_ID].
  destruct (decide (k = email_key (su_Email i))) as [->|Hk].
  - rewrite !lookup_insert_eq. cbn. apply signed_up_new.
  - rewrite !lookup_insert_ne, lookup_omap by done.
    destruct (ids_userIDsByEmail m !! k) as [id|] eqn:Hid; [|done]. cbn.
    apply signed_up_other. apply (ok_emails _ Hok) in Hid as (u & Hu & _).
    intros ->. by rewrite uid_fresh in Hu.
Qed.

Lemma signed_up_ok : memory_ok (signed_up m i now).
Proof.
  destruct (ok_counters _ Hok) as [Hc1 Hc2].
  constructor; unfold signed_up; cbn [ids_usersByID ids_organizationsByID ids_membershipsByUserID
    ids_userIDsByEmail ids_sessionsByDigest ids_userSeq ids_orgSeq u_ID org_ID]; fold uid oid.
  - intros id u [[<- <-]|[Hne Hu]]%lookup_insert_Some; cbn.
    + rewrite lookup_insert_eq. split_and!; [done| |done]. eexists. split; [|reflexivity]. lia.
    + destruct (ok_users _ Hok _ _ Hu) as (Hid & Hn & He). split_and!; [done|by apply numbered_succ|].
      rewrite lookup_insert_ne; [done|]. intros Hk. by rewrite <- Hk, Hfree in He.
  - intros k id [[<- <-]|[Hne Hk]]%lookup_insert_Some.
    + rewrite lookup_insert_eq. eauto.
    + destruct (ok_emails _ Hok _ _ Hk) as (u & Hu & He). exists u. split; [|done].
      rewrite lookup_insert_ne; [done|]. intros <-. by rewrite uid_fresh in Hu.
  - intros id o [[<- <-]|[Hne Ho]]%lookup_insert_Some; cbn.
    + split; [done|]. eexists. split; [|reflexivity]. lia.
    + destruct (ok_orgs _ Hok _ _ Ho). split; [done|by apply numbered_succ].
  - intros id l [[<- <-]|[Hne Hl]]%lookup_insert_Some.
    + rewrite lookup_insert_eq, uid_members. split; [eauto|]. eexists. split; [reflexivity|]. cbn.
      rewrite lookup_insert_eq. eauto.
    + destruct (ok_memberships _ Hok _ _ Hl) as (Hu & mb & -> & Hm & Ho). split.
      * rewrite lookup_insert_is_Some'. by right.
      * exists mb. rewrite lookup_insert_is_Some'. eauto.
  - intros d s Hs. destruct (ok_sessions _ Hok _ _ Hs). split; [done|].
    rewrite lookup_insert_is_Some'. by right.
  - lia.
Qed.
End signed_up.

Lemma memory_ok_session m d s seq ticks : memory_ok m →
  se_TokenDigest s = d → is_Some (ids_usersByID m !! se_UserID s) →
  memory_ok (m <| ids_sessionsByDigest ::= <[d := s]> |> <| ids_sessionSeq := seq |>
               <| ids_ticks := ticks |>).
Proof.
  intros [] <- Hu. constructor; try done.
  intros d' s' Hs. change (<[se_TokenDigest s := s]> (ids_sessionsByDigest m) !! d' = Some s') in Hs.
  apply lookup_insert_Some in Hs as [[<- <-]|[_ Hs]]; eauto.
Qed.

Lemma memory_accounts_lookup m k a : memory_accounts m !! k = Some a →
  ∃ id, ids_userIDsByEmail m !! k = Some id ∧ user_account m id = Some a.
Proof.
  unfold memory_accounts. rewrite lookup_omap.
  destruct (_ !! k) as [id|]; [|done]. cbn. eauto.
Qed.

Lemma memory_accounts_distinct m k k' a a' : memory_ok m →
  memory_accounts m !! k = Some a → memory_accounts m !! k' = Some a' → acc_ID a = acc_ID a' → k = k'.
Proof.
  intros Hok (id & Hk & Ha)%memory_accounts_lookup (id' & Hk' & Ha')%memory_accounts_lookup.
  rewrite (user_account_id _ _ _ Hok Ha), (user_account_id _ _ _ Hok Ha'). intros <-.
  destruct (ok_emails _ Hok _ _ Hk) as (u & Hu & <-).
  destruct (ok_emails _ Hok _ _ Hk') as (u' & Hu' & <-). congruence.
Qed.

Lemma memory_accounts_keyed m k a :
  memory_ok m → memory_accounts m !! k = Some a → acc_Email a = k.
Proof.
  intros Hok (id & Hk & Ha)%memory_accounts_lookup.
  destruct (ok_emails _ Hok _ _ Hk) as (u & Hu & He). unfold user_account in Ha.
  rewrite Hu in Ha. by injection Ha as <-.
Qed.

Lemma memory_accounts_none m k : memory_ok m →
  ids_userIDsByEmail m !! k = None ↔ memory_accounts m !! k = None.
Proof.
  intros Hok. unfold memory_accounts. rewrite lookup_omap.
  destruct (ids_userIDsByEmail m !! k) as [id|] eqn:Hk; [|done]. split; [done|].
  destruct (ok_emails _ Hok _ _ Hk) as (u & Hu & _). cbn. unfold user_account. by rewrite Hu.
Qed.

Lemma memory_signup_law i m m' r : memory_ok m → memory_CreateSignup clock i m = (m', r) →
  memory_ok m' ∧ memory_grants m' = memory_grants m ∧
  match r with
  | Ok p => memory_accounts m !! email_key (su_Email i) = None ∧
      memory_accounts m' = <[email_key (su_Email i) := account_of p]> (memory_accounts m) ∧
      ∃ userID orgID, account_of p = new_account userID orgID i
  | Err e => memory_accounts m' = memory_accounts m ∧
      (is_error e ErrIdentityConflict = true →
       email_key (su_Email i) = "" ∨ is_Some (memory_accounts m !! email_key (su_Email i)))
  end.
Proof.
  intros Hok Hm. apply memory_signup_inv in Hm
    as [(-> & e & -> & He)|(Hfree & now & p & -> & -> & Hp)].
  - split_and!; [done..|]. intros _. destruct He as [He|He]; [by left|right].
    apply not_eq_None_Some in He. apply not_eq_None_Some. by rewrite <- memory_accounts_none.
  - split_and!; [by apply signed_up_ok|done|by apply memory_accounts_none| |eauto].
    rewrite Hp. by apply signed_up_accounts.
Qed.

Lemma memory_find_law email m m' r : memory_ok m → memory_FindUserByEmail email m = (m', r) →
  memory_ok m' ∧ memory_grants m' = memory_grants m ∧ memory_accounts m' = memory_accounts m ∧
  match r with
  | Ok u => ∃ a, memory_accounts m !! email_key email = Some a ∧
      acc_ID a = u_ID u ∧ acc_Email a = u_Email u ∧ acc_Name a = u_Name u ∧
      acc_PasswordHash a = u_PasswordHash u
  | Err e => is_error e ErrIdentityNotFound = true → memory_accounts m !! email_key email = None
  end.
Proof.
  intros Hok [= <- <-]. split_and!; [done..|]. unfold memory_accounts. rewrite lookup_omap.
  destruct (ids_userIDsByEmail m !! email_key email) as [id|] eqn:Hid; [|done]. cbn.
  destruct (ok_emails _ Hok _ _ Hid) as (u & Hu & _). unfold user_account. rewrite Hu. cbn.
  by eexists.
Qed.

Lemma memory_session_law i m m' r : memory_ok m → memory_CreateSession clock i m = (m', r) →
  memory_ok m' ∧ memory_accounts m' = memory_accounts m ∧
  match r with
  | Ok _ => memory_grants m' =
      <[ns_TokenDigest i := mkGrant (ns_UserID i) (ns_ExpiresAt i) false]> (memory_grants m)
  | Err _ => memory_grants m' = memory_grants m
  end.
Proof.
  intros Hok. unfold memory_CreateSession, mbind, st_bind, get_st, fail_if, modify, store_now.
  case_bool_decide as Hu; cbn [negb]; [|by intros [= <- <-]].
  intros [= <- <-]. split_and!; [|done|].
  - by apply (memory_ok_session m (ns_TokenDigest i) (mkSession _ _ _ _ _ _)).
  - unfold memory_grants. cbn. by rewrite fmap_insert.
Qed.

Lemma memory_actor_law digest m m' r : memory_ok m →
  memory_GetAuthenticatedActorBySessionDigest digest m = (m', r) →
  memory_ok m' ∧ memory_grants m' = memory_grants m ∧ memory_accounts m' = memory_accounts m ∧
  match r with
  | Ok actor => memory_grants m !! digest = Some (grant_of (aa_Session actor)) ∧
      memory_accounts m !! u_Email (ap_User (aa_Profile actor)) = Some (account_of (aa_Profile actor)) ∧
      u_ID (ap_User (aa_Profile actor)) = se_UserID (aa_Session actor)
  | Err e => is_error e ErrIdentityNotFound = true → memory_grants m !! digest = None
  end.
Proof.
  intros Hok [= <- <-]. split_and!; [done..|]. unfold memory_grants. rewrite lookup_fmap.
  destruct (ids_sessionsByDigest m !! digest) as [s|] eqn:Hs; [|done]. cbn.
  destruct (ok_sessions _ Hok _ _ Hs) as [_ [u Hu]]. rewrite Hu. cbn.
  destruct (ok_users _ Hok _ _ Hu) as (Hid & _ & He). split_and!; [done| |done].
  unfold memory_accounts. rewrite lookup_omap, He. cbn. unfold user_account. by rewrite Hu.
Qed.

Lemma memory_revoke_law digest m m' r : memory_ok m → memory_RevokeSession clock digest m = (m', r) →
  memory_ok m' ∧ memory_accounts m' = memory_accounts m ∧
  match r with
  | Ok _ => ∃ g, memory_grants m !! digest = Some g ∧
                 memory_grants m' = <[digest := revoked g]> (memory_grants m)
  | Err _ => memory_grants m' = memory_grants m
  end.
Proof.
  intros Hok. unfold memory_RevokeSession, mbind, st_bind, get_st, modify, store_now.
  destruct (ids_sessionsByDigest m !! digest) as [s|] eqn:Hs; [|by intros [= <- <-]].
  intros [= <- <-]. split_and!; [|done|].
  - destruct (ok_sessions _ Hok _ _ Hs) as [Hd Hu].
    refine (memory_ok_session m digest (s <| se_RevokedAt := Some (clock (ids_ticks m)) |>)
             (ids_sessionSeq m) (S (ids_ticks m)) Hok _ _); [exact Hd|exact Hu].
  - unfold memory_grants. rewrite lookup_fmap, Hs. eexists. split; [done|]. cbn.
    by rewrite fmap_insert.
Qed.

#[export] Instance memory_store_laws : IdentityLaws (memory_store clock) := {|
  store_ok := memory_ok : @IState (memory_store clock) → Prop;
  accounts := memory_accounts : @IState (memory_store clock) → _;
  grants := memory_grants : @IState (memory_store clock) → _;
  accounts_keyed := memory_accounts_keyed;
  accounts_distinct := memory_accounts_distinct;
  signup_law := memory_signup_law;
  find_law := memory_find_law;
  session_law := memory_session_law;
  actor_law := memory_actor_law;
  revoke_law := memory_revoke_law;
|}.

Lemma memory_empty_ok : memory_ok NewMemoryStore.
Proof. by constructor. Qed.
End memory_laws.
