(* ===== verification/Iam.v ===== *)
(** * The IAM service and its client (services/iam, integrations/iam)

    Sign-up, log-in, log-out and the question who a bearer token belongs to, over
    any identity store.  The rate limiter has a clock of its own; the server's clock,
    the random bytes and the password hashes (golang.org/x/crypto/bcrypt) are
    functions of the number of calls made.  [GetActor] is the client through which
    the other services ask. *)

From Stdlib Require Import Ascii.
From S2P Require Import Prelude GoNum GoText Core GoTime RateLimit Http GoBytes Identity.

Abbreviation Time := Z (only parsing).

Definition defaultSessionTTL : Z := 30 * 24 * hour.

(** [ic_rand n] are the 32 bytes of the [n]-th call of [rand.Read]. *)
Record IamConfig (L : Type) := mkIamConfig {
  ic_sessionTTL : Z;
  ic_rateLimiter : option (Policy → Meta → ST L Decision);
  ic_ClientIP : Request → string;
  ic_now : nat → Time;
  ic_rand : nat → result (list Z);
  ic_GenerateFromPassword : nat → string → result string;
  ic_CompareHashAndPassword : string → string → bool;
}.
Arguments ic_sessionTTL {L}.
Arguments ic_rateLimiter {L}.
Arguments ic_ClientIP {L}.
Arguments ic_now {L}.
Arguments ic_rand {L}.
Arguments ic_GenerateFromPassword {L}.
Arguments ic_CompareHashAndPassword {L}.

Record IamServer `{IdentityStore} (L : Type) := mkIamServer {
  iam_store : IState;
  iam_limits : L;
  iam_ticks : nat;
  iam_draws : nat;
  iam_hashes : nat;
}.
Arguments iam_store {_ L}.
Arguments iam_limits {_ L}.
Arguments iam_ticks {_ L}.
Arguments iam_draws {_ L}.
Arguments iam_hashes {_ L}.
#[export] Instance IamServer_eta `{IdentityStore} {L} : Eta (IamServer L) := λ s,
  mkIamServer _ L (iam_store s) (iam_limits s) (iam_ticks s) (iam_draws s) (iam_hashes s).

(** [NewServerWithOptions] over a store: a missing time to live becomes the default. *)
Definition NewServerWithOptions `{IdentityStore} {L} (options : IamConfig L) (store : IState)
    (limits : L) : IamConfig L * IamServer L :=
  (mkIamConfig L
     (if ic_sessionTTL options <=? 0 then defaultSessionTTL else ic_sessionTTL options)
     (ic_rateLimiter options) (ic_ClientIP options) (ic_now options) (ic_rand options)
     (ic_GenerateFromPassword options) (ic_CompareHashAndPassword options),
   mkIamServer _ L store limits 0 0 0).

(** ** Tokens *)

Definition tokenDigest (token : string) : string := hex_encode (sha256 (bytes_of token)).
#[global] Arguments tokenDigest : simpl never.

(** [SubjectHash] of internal/ratelimit: eight bytes of the hash of the address. *)
Definition SubjectHash (value : string) : string :=
  let normalized := ToLower (TrimSpace value) in
  if String.eqb normalized "" then "" else hex_encode (take 8 (sha256 (bytes_of normalized))).

(** ** Payloads and answers *)

Record SignupPayload := mkSignupPayload {
  sp_Email : string;
  sp_Password : string;
  sp_Name : string;
  sp_OrganizationName : string;
  sp_OrganizationKind : string;
}.
Definition decode_signup (r : Request) : option SignupPayload :=
  f ← body_fields (rq_Body r);
  email ← string_field "email" f; password ← string_field "password" f;
  name ← string_field "name" f; org ← string_field "organizationName" f;
  kind ← string_field "organizationKind" f;
  Some (mkSignupPayload email password name org kind).
Definition decode_login (r : Request) : option (string * string) :=
  f ← body_fields (rq_Body r);
  email ← string_field "email" f; password ← string_field "password" f;
  Some (email, password).

Definition validSignupPayload `{Unicode} (p : SignupPayload) : string :=
  match ValidateEmail (sp_Email p) with
  | Err e => error_text e
  | Ok _ =>
      match ValidatePassword (sp_Password p) with
      | Err e => error_text e
      | Ok _ =>
          if blank (sp_Name p) then "name is required"
          else if blank (sp_OrganizationName p) then "organization name is required"
          else if existsb (String.eqb (TrimSpace (sp_OrganizationKind p)))
                    ["buyer"; "provider"; "ops"] then ""
          else "invalid organization kind"
      end
  end.

Abbreviation IamAnswer := (Response json).
Definition write (status : Z) (body : json) : IamAnswer := mkResponse status body.
Definition refusal (status : Z) (reason : string) : IamAnswer :=
  write status (JObj [("error", JStr reason)]).
Definition failure (e : error) : IamAnswer := refusal StatusInternalServerError (error_text e).
(** The answer to an error of the store: [status] where it is the sentinel. *)
Definition store_refusal (sentinel : error) (status : Z) (reason : string) (e : error) : IamAnswer :=
  if is_error e sentinel then refusal status reason else failure e.

Definition user_json (id email name : string) : json :=
  JObj [("id", JStr id); ("email", JStr email); ("name", JStr name)].
Definition organization_json (o : Organization) : json :=
  JObj [("id", JStr (org_ID o)); ("name", JStr (org_Name o)); ("kind", JStr (org_Kind o))].
Definition session_json (s : Session) (token : string) : json :=
  JObj [("id", JStr (se_ID s)); ("token", JStr token);
        ("expiresAt", JStr (FormatRFC3339 (se_ExpiresAt s)))].
Definition roles_json : json :=
  JObj [("roles", JObj
    [("buyer", JArr (JStr <$> ["org_owner"; "procurement"; "operator"; "finance_viewer"]));
     ("provider", JArr (JStr <$> ["org_owner"; "sales"; "delivery_operator"; "finance_viewer"]));
     ("ops", JArr (JStr <$> ["ops_reviewer"; "risk_admin"; "finance_admin"; "super_admin"]))])].

(** What a sign-up shows of the first membership. *)
Definition first_membership (ms : list ActorMembership) : json * json :=
  match ms with
  | [] => (JObj [], JObj [])
  | m :: _ => (organization_json (mp_Organization m), JObj [("role", JStr (mp_Role m))])
  end.

(** ** Handlers *)

Section server.
Context `{Unicode} `{IdentityStore} {L : Type} (c : IamConfig L).
Abbreviation A := (ST (IamServer L)).

Definition on_store {T} : ST IState T → A T :=
  zoom iam_store (λ store s, s <| iam_store := store |>).
(** [s.now()] *)
Definition time_now : A Time := λ s, (s <| iam_ticks ::= S |>, Ok (ic_now c (iam_ticks s))).
Definition randomToken : A string := λ s,
  (s <| iam_draws ::= S |>, base64_url <$> ic_rand c (iam_draws s)).
Definition GenerateFromPassword (password : string) : A string := λ s,
  (s <| iam_hashes ::= S |>, ic_GenerateFromPassword c (iam_hashes s) password).

(** The answer to a request that is not let through; the clock is read for the
    headers of a denial. *)
Definition applyRateLimit (policy : Policy) (meta : Meta) : A (option IamAnswer) :=
  match ic_rateLimiter c with
  | None => mret None
  | Some allow =>
      decision ← attempt (zoom iam_limits (λ l s, s <| iam_limits := l |>) (allow policy meta));
      match decision with
      | Err _ => mret (Some (refusal StatusInternalServerError "rate limiter unavailable"))
      | Ok decision =>
          if Allowed decision then mret None
          else _ ← time_now;
               mret (Some (refusal StatusTooManyRequests "rate limit exceeded"))
      end
  end.
Definition limited (policy : Policy) (meta : Meta) (k : A IamAnswer) : A IamAnswer :=
  blocked ← applyRateLimit policy meta;
  match blocked with Some response => mret response | None => k end.
Definition ip_meta (r : Request) : Meta := mkMeta (ic_ClientIP c r) "" "" "".

Definition issueSession (userID : string) : A (Session * string) :=
  token ← randomToken;
  now ← time_now;
  let expiresAt := now + ic_sessionTTL c in
  session ← on_store (CreateSession (mkNewSession userID (tokenDigest token) expiresAt));
  mret (session <| se_ExpiresAt := expiresAt |>, token).

Definition handleSignup (r : Request) : A IamAnswer :=
  match decode_signup r with
  | None => mret (refusal StatusBadRequest "invalid json")
  | Some p =>
      if negb (String.eqb (validSignupPayload p) "")
      then mret (refusal StatusBadRequest (validSignupPayload p))
      else
      limited PolicyIAMSignupIP (ip_meta r) (
      limited PolicyIAMSignupDailyIP (ip_meta r) (
        let? passwordHash := GenerateFromPassword (sp_Password p) orelse failure in
        let? actor := on_store (CreateSignup (mkSignup (sp_Email p) (sp_Name p) passwordHash
                        (sp_OrganizationName p) (sp_OrganizationKind p)))
          orelse store_refusal ErrIdentityConflict StatusConflict "email already exists" in
        let? issued := issueSession (u_ID (ap_User actor)) orelse failure in
        let '(organization, membership) := first_membership (ap_Memberships actor) in
        let u := ap_User actor in
        mret (write StatusCreated (JObj
          [("user", user_json (u_ID u) (u_Email u) (u_Name u));
           ("organization", organization); ("membership", membership);
           ("session", session_json issued.1 issued.2)]))))
  end.

Definition handleCreateSession (r : Request) : A IamAnswer :=
  match decode_login r with
  | None => mret (refusal StatusBadRequest "invalid json")
  | Some (email, password) =>
      if blank email || blank password
      then mret (refusal StatusBadRequest "missing required fields")
      else
      limited PolicyIAMLoginIP (ip_meta r) (
      limited PolicyIAMLoginSubject (mkMeta "" (SubjectHash email) "" "") (
        let? user := on_store (FindUserByEmail email)
          orelse store_refusal ErrIdentityNotFound StatusUnauthorized "invalid credentials" in
        if negb (ic_CompareHashAndPassword c (u_PasswordHash user) password)
        then mret (refusal StatusUnauthorized "invalid credentials")
        else
          let? issued := issueSession (u_ID user) orelse failure in
          mret (write StatusCreated (JObj
            [("user", user_json (u_ID user) (u_Email user) (u_Name user));
             ("session", session_json issued.1 issued.2)]))))
  end.

Definition handleMe (r : Request) : A IamAnswer :=
  match bearerToken (rq_Header r "Authorization") with
  | None => mret (refusal StatusUnauthorized "missing bearer token")
  | Some token =>
      let? actor := on_store (GetAuthenticatedActorBySessionDigest (tokenDigest token))
        orelse store_refusal ErrIdentityNotFound StatusUnauthorized "invalid session" in
      if bool_decide (se_RevokedAt (aa_Session actor) ≠ None)
      then mret (refusal StatusUnauthorized "session revoked")
      else
        now ← time_now;
        if se_ExpiresAt (aa_Session actor) <? now
        then mret (refusal StatusUnauthorized "session expired")
        else
          let u := ap_User (aa_Profile actor) in
          mret (write StatusOK (JObj
            [("user", user_json (u_ID u) (u_Email u) (u_Name u));
             ("memberships", JArr ((λ m,
                JObj [("role", JStr (mp_Role m));
                      ("organization", organization_json (mp_Organization m))])
                <$> ap_Memberships (aa_Profile actor)))]))
  end.

Definition handleLogout (r : Request) : A IamAnswer :=
  match bearerToken (rq_Header r "Authorization") with
  | None => mret (refusal StatusUnauthorized "missing bearer token")
  | Some token =>
      let? actor := on_store (GetAuthenticatedActorBySessionDigest (tokenDigest token))
        orelse store_refusal ErrIdentityNotFound StatusUnauthorized "invalid session" in
      limited PolicyIAMLogoutUser (mkMeta "" "" "" (u_ID (ap_User (aa_Profile actor)))) (
        let? _ := on_store (RevokeSession (tokenDigest token))
          orelse store_refusal ErrIdentityNotFound StatusUnauthorized "invalid session" in
        mret (write StatusOK (JObj [("revoked", JBool true)])))
  end.

Definition ServeHTTP (r : Request) : A IamAnswer :=
  let asks method path := String.eqb (rq_Method r) method && String.eqb (rq_Path r) path in
  if String.eqb (rq_Path r) "/healthz"
  then mret (write StatusOK (JObj [("status", JStr "ok"); ("service", JStr "iam")]))
  else if asks "GET" "/v1/roles" then mret (write StatusOK roles_json)
  else if asks "POST" "/v1/signup" then handleSignup r
  else if asks "POST" "/v1/sessions" then handleCreateSession r
  else if asks "POST" "/v1/logout" then handleLogout r
  else if asks "GET" "/v1/me" then handleMe r
  else mret (write StatusNotFound JNull).
End server.

(** ** The client *)

Definition decode_actor_membership (v : json) : option Http.ActorMembership :=
  f ← as_object v;
  role ← string_field "role" f; org ← object_field "organization" f;
  id ← string_field "id" org; name ← string_field "name" org; kind ← string_field "kind" org;
  Some (mkMembership id name kind role).
Definition decode_actor (body : option json) : option Actor :=
  f ← body_fields body;
  user ← object_field "user" f;
  id ← string_field "id" user; email ← string_field "email" user;
  name ← string_field "name" user;
  memberships ← decode_field [] (as_list (mkMembership "" "" "" "") decode_actor_membership)
                  "memberships" f;
  Some (mkActor id email name memberships).

Definition me_request (bearerToken : string) : Request :=
  mkRequest "GET" "/v1/me"
    (λ h, if String.eqb h "Authorization" then "Bearer " +:+ TrimSpace bearerToken
          else if String.eqb h "Accept" then "application/json" else "")
    (λ _, []) None "".

(** What becomes of the response, if the call returned one. *)
Definition read_actor (res : result (Z * option json)) : result Actor :=
  '(status, body) ← res;
  if status =? StatusUnauthorized then Err ErrUnauthorized
  else if StatusBadRequest <=? status then Err (Errf ("iam me status " +:+ pretty status))
  else match decode_actor body with
       | Some actor => Ok actor
       | None => Err (Errf "invalid json")
       end.
(** [HTTPClient.GetActor]; [do] sends a request to the service at [baseURL]. *)
Definition client_GetActor (baseURL : string) (do : Request → result (Z * option json))
    (token : string) : result Actor :=
  if String.eqb baseURL "" then Err ErrIAMNotConfigured
  else read_actor (do (me_request token)).

(** A service behind the client: its answer in state [s]. *)
Definition answer_of `{Unicode} `{IdentityStore} {L} (c : IamConfig L) (s : IamServer L)
    (r : Request) : result (Z * option json) :=
  match (ServeHTTP c r s).2 with
  | Ok response => Ok (rs_Status response, Some (rs_Body response))
  | Err e => Err e
  end.
