(* ===== verification/IamAccess.v ===== *)
(** * Whom the IAM service vouches for

    Sessions over any history of requests: the client is told about an actor exactly
    while a token issued to him is neither logged out nor expired.  Who is issued
    one, what roles he has, and what an operator's role opens at the gateway. *)

From Stdlib Require Import Ascii.
From S2P Require Import Prelude GoNum GoText Core GoTime RateLimit Http GoBytes Gateway GatewayServe.
From S2P Require Import Identity Iam.

Section sessions.
Context `{Unicode} `{SL : IdentityLaws} {L : Type} (c : IamConfig L).
Abbreviation Server := (IamServer L).
Implicit Types s : Server.
Implicit Types r : Request.
Implicit Types a : IamAnswer.

(** ** Histories *)

(** A request, the state it met and its answer. *)
Record exchange := mkExchange {
  ex_before : Server;
  ex_request : Request;
  ex_answer : IamAnswer;
}.

(** The exchanges of a run, the latest first, and the state it ends in. *)
Definition serve_logged (run : list exchange * Server) (r : Request) : list exchange * Server :=
  match Iam.ServeHTTP c r run.2 with
  | (s', Ok a) => (mkExchange run.2 r a :: run.1, s')
  | (s', Err _) => (run.1, s')
  end.
Definition serve_history (rs : list Request) (s : Server) : list exchange * Server :=
  foldl serve_logged ([], s) rs.

(** The token an answer hands out, and to whom. *)
Definition token_of (body : json) : option (string * string) :=
  f ← as_object body;
  user ← object_field "user" f; session ← object_field "session" f;
  id ← string_field "id" user; token ← string_field "token" session;
  Some (id, token).
Definition issued_by (x : exchange) : option (string * Grant) :=
  if rs_Status (ex_answer x) =? StatusCreated
  then '(id, token) ← token_of (rs_Body (ex_answer x));
       Some (tokenDigest token,
             mkGrant id (ic_now c (iam_ticks (ex_before x)) + ic_sessionTTL c) false)
  else None.
(** The session a request closes. *)
Definition closed_by (x : exchange) : option string :=
  if String.eqb (rq_Method (ex_request x)) "POST" && String.eqb (rq_Path (ex_request x)) "/v1/logout"
     && (rs_Status (ex_answer x) =? StatusOK)
  then tokenDigest <$> bearerToken (rq_Header (ex_request x) "Authorization") else None.

(** The session of a digest after a history. *)
Fixpoint standing (log : list exchange) (digest : string) : option Grant :=
  match log with
  | [] => None
  | x :: log =>
      match issued_by x with
      | Some (d, g) => if String.eqb d digest then Some g else standing log digest
      | None => if bool_decide (closed_by x = Some digest)
                then revoked <$> standing log digest else standing log digest
      end
  end.

(** ** Every request is answered *)

Lemma answered_iam_limited policy meta (k : ST Server IamAnswer) :
  answered k → answered (Iam.limited c policy meta k).
Proof.
  intros Hk. unfold Iam.limited. apply answered_bind; [|intros [r|]; [apply answered_ret|done]].
  unfold Iam.applyRateLimit. destruct (ic_rateLimiter c); [|apply answered_ret].
  apply answered_bind; [apply answered_attempt|]. intros [d|e]; [|apply answered_ret].
  destruct (Allowed d); [apply answered_ret|]. apply answered_bind; [|intros; apply answered_ret].
  intros s1. by eexists _, _.
Qed.
Hint Resolve answered_iam_limited answered_respond : answered.
Lemma iam_answered r : answered (Iam.ServeHTTP c r).
Proof.
  unfold Iam.ServeHTTP. destruct (String.eqb _ _); [auto with answered|].
  destruct (_ && _); [auto with answered|].
  destruct (_ && _); [|destruct (_ && _); [|destruct (_ && _); [|destruct (_ && _)]]];
    auto with answered.
  - unfold handleSignup. destruct (decode_signup r); [|auto with answered].
    destruct (negb _); [auto with answered|]. repeat apply answered_iam_limited.
    apply answered_respond; intros hash. apply answered_respond; intros actor.
    apply answered_respond; intros issued. destruct (first_membership _). auto with answered.
  - unfold handleCreateSession. destruct (decode_login r) as [[email password]|]; [|auto with answered].
    destruct (_ || _); [auto with answered|]. repeat apply answered_iam_limited.
    apply answered_respond; intros user. destruct (negb _); auto with answered.
  - unfold handleLogout. destruct (bearerToken _); auto 6 with answered.
  - unfold handleMe. destruct (bearerToken _); [|auto with answered].
    apply answered_respond; intros actor. case_bool_decide; [auto with answered|].
    apply answered_bind; [intros s1; by eexists _, _|]. intros now. destruct (_ <? _); auto with answered.
Qed.

(** ** What a request does to the store *)

Definition grants_after (x : exchange) (m : gmap string Grant) : gmap string Grant :=
  match issued_by x with
  | Some (d, g) => <[d := g]> m
  | None => match closed_by x with Some d => alter revoked d m | None => m end
  end.
(** The account a sign-up adds. *)
Definition account_added (r : Request) (m m' : gmap string Account) : Prop :=
  ∃ p userID orgID hash, rq_Method r = "POST" ∧ rq_Path r = "/v1/signup" ∧ decode_signup r = Some p ∧
    validSignupPayload p = "" ∧ m !! email_key (sp_Email p) = None ∧
    m' = <[email_key (sp_Email p) := new_account userID orgID
             (mkSignup (sp_Email p) (sp_Name p) hash (sp_OrganizationName p)
                (sp_OrganizationKind p))]> m.

Lemma on_store_eq {T} (m : ST IState T) s :
  on_store m s = let '(store, x) := m (iam_store s) in (s <| iam_store := store |>, x).
Proof. done. Qed.

(** A request that is let through meets the state with new limits. *)
Lemma limited_iam_inv policy meta (k : ST Server IamAnswer) s s' a :
  limited c policy meta k s = (s', Ok a) →
  (iam_store s' = iam_store s ∧ rs_Status a ≠ StatusCreated ∧ rs_Status a ≠ StatusOK) ∨
  ∃ l, k (s <| iam_limits := l |>) = (s', Ok a).
Proof.
  unfold limited, applyRateLimit, mbind, st_bind, attempt, zoom, Iam.time_now.
  destruct (ic_rateLimiter c) as [allow|]; [|intros Hk; right; exists (iam_limits s); by destruct s].
  destruct (allow policy meta (iam_limits s)) as [l [d|e]].
  - destruct (Allowed d); cbn; [eauto|]. intros [= <- <-]. by left.
  - cbn. intros [= <- <-]. by left.
Qed.

(** One who is not let through is not told that his credentials are wrong. *)
Lemma limited_passes policy meta (k : ST Server IamAnswer) s s' a (P : IamAnswer → Prop) :
  P (refusal StatusInternalServerError "rate limiter unavailable") →
  P (refusal StatusTooManyRequests "rate limit exceeded") →
  (∀ l s' a, k (s <| iam_limits := l |>) = (s', Ok a) → P a) →
  limited c policy meta k s = (s', Ok a) → P a.
Proof.
  intros H1 H2 Hk. unfold limited, applyRateLimit, mbind, st_bind, attempt, zoom, Iam.time_now.
  destruct (ic_rateLimiter c) as [allow|]; [|intros Hs; apply (Hk (iam_limits s) s'); by destruct s].
  destruct (allow policy meta (iam_limits s)) as [l [d|e]]; cbn; [|by intros [= <- <-]].
  destruct (Allowed d); cbn; [apply Hk|by intros [= <- <-]].
Qed.

(** A session is stored for the user exactly when one is issued. *)
Lemma issueSession_inv userID s s' x : store_ok (iam_store s) → issueSession c userID s = (s', x) →
  store_ok (iam_store s') ∧ accounts (iam_store s') = accounts (iam_store s) ∧
  match x with
  | Ok (_, token) => grants (iam_store s') =
      <[tokenDigest token := mkGrant userID (ic_now c (iam_ticks s) + ic_sessionTTL c) false]>
        (grants (iam_store s))
  | Err _ => grants (iam_store s') = grants (iam_store s)
  end.
Proof.
  intros Hok. unfold issueSession, randomToken, Iam.time_now, mbind, st_bind.
  destruct (base64_url <$> _) as [token|e]; [|by intros [= <- <-]]. rewrite on_store_eq. cbn [iam_store].
  change (iam_store (s <| iam_draws ::= S |> <| iam_ticks ::= S |>)) with (iam_store s).
  destruct (CreateSession _ (iam_store s)) as [store y] eqn:Hc.
  apply session_law in Hc as (Hok' & Ha & Hg); [|done]. destruct y; intros [= <- <-]; done.
Qed.

(** The store after an exchange: sessions as the answer says, and at most the account
    of a sign-up more. *)
Definition exchanged s r a s' : Prop :=
  store_ok (iam_store s') ∧
  grants (iam_store s') = grants_after (mkExchange s r a) (grants (iam_store s)) ∧
  (accounts (iam_store s') = accounts (iam_store s) ∨
   account_added r (accounts (iam_store s)) (accounts (iam_store s'))).

Lemma exchanged_quiet s r a s' : store_ok (iam_store s') →
  grants (iam_store s') = grants (iam_store s) →
  (accounts (iam_store s') = accounts (iam_store s) ∨
   account_added r (accounts (iam_store s)) (accounts (iam_store s'))) →
  rs_Status a ≠ StatusCreated → rs_Status a ≠ StatusOK → exchanged s r a s'.
Proof.
  intros Hok Hg Ha H1 H2. split_and!; [done| |done]. rewrite Hg. unfold grants_after, issued_by, closed_by.
  cbn [ex_answer ex_request].
  rewrite (proj2 (Z.eqb_neq _ _) H1), (proj2 (Z.eqb_neq _ _) H2). by rewrite andb_false_r.
Qed.
Lemma failure_quiet e : rs_Status (failure e) ≠ StatusCreated ∧ rs_Status (failure e) ≠ StatusOK.
Proof. done. Qed.
Lemma store_refusal_quiet sentinel status reason e : status ≠ StatusCreated → status ≠ StatusOK →
  rs_Status (store_refusal sentinel status reason e) ≠ StatusCreated ∧
  rs_Status (store_refusal sentinel status reason e) ≠ StatusOK.
Proof. unfold store_refusal. by destruct (is_error e sentinel). Qed.
Lemma quiet_same s r a s' : store_ok (iam_store s) → iam_store s' = iam_store s →
  rs_Status a ≠ StatusCreated → rs_Status a ≠ StatusOK → exchanged s r a s'.
Proof. intros Hok Hs. apply exchanged_quiet; rewrite Hs; auto. Qed.

Lemma handed_out s r a s' id token : store_ok (iam_store s') →
  rs_Status a = StatusCreated → token_of (rs_Body a) = Some (id, token) →
  grants (iam_store s') = <[tokenDigest token :=
    mkGrant id (ic_now c (iam_ticks s) + ic_sessionTTL c) false]> (grants (iam_store s)) →
  (accounts (iam_store s') = accounts (iam_store s) ∨
   account_added r (accounts (iam_store s)) (accounts (iam_store s'))) →
  exchanged s r a s'.
Proof.
  intros Hok Hst Htok Hg Ha. split_and!; [done| |done]. rewrite Hg. unfold grants_after, issued_by.
  cbn [ex_answer ex_before]. by rewrite Hst, Htok.
Qed.

Lemma signup_exchanged r s s' a : store_ok (iam_store s) →
  rq_Method r = "POST" → rq_Path r = "/v1/signup" →
  handleSignup c r s = (s', Ok a) → exchanged s r a s'.
Proof.
  intros Hok Hm Hp. unfold handleSignup.
  destruct (decode_signup r) as [p|] eqn:Hd; [|intros [= <- <-]; by apply quiet_same].
  destruct (String.eqb_spec (validSignupPayload p) "") as [Hv|Hv]; cbn [negb];
    [|intros [= <- <-]; by apply quiet_same].
  intros [(Hs & H1 & H2)|[l1 Hk]]%limited_iam_inv; [by apply quiet_same|].
  apply limited_iam_inv in Hk as [(Hs & H1 & H2)|[l2 Hk]]; [by apply quiet_same|].
  rewrite or_respond_eq in Hk. unfold GenerateFromPassword at 1 in Hk.
  destruct (ic_GenerateFromPassword c _ _) as [hash|e]; [|injection Hk as <- <-; by apply quiet_same].
  rewrite or_respond_eq, on_store_eq in Hk.
  destruct (CreateSignup _ _) as [st x] eqn:Hc. apply signup_law in Hc as (Hok1 & Hg1 & Hx); [|done].
  change (grants st = grants (iam_store s)) in Hg1.
  destruct x as [actor|e]; cycle 1.
  { injection Hk as <- <-. destruct Hx as [Hx _]. apply exchanged_quiet; try by apply store_refusal_quiet.
    - done. - done. - by left. }
  destruct Hx as (Hnone & Hx & userID & orgID & Hacc). rewrite or_respond_eq in Hk.
  assert (Hadd : account_added r (accounts (iam_store s)) (accounts st)).
  { exists p, userID, orgID, hash. split_and!; [done..|]. by rewrite Hx, Hacc. }
  destruct (issueSession _ _ _) as [s2 [[ses token]|e]] eqn:Hi;
    apply issueSession_inv in Hi as (Hok2 & Ha2 & Hg2); [|done| |done].
  - cbn in Hk. destruct (first_membership _) as [o m]. injection Hk as <- <-.
    eapply handed_out; [done..| |].
    + by rewrite Hg2, <- Hg1.
    + right. by rewrite Ha2.
  - injection Hk as <- <-. apply exchanged_quiet; [done| |right; by rewrite Ha2|done..].
    by rewrite Hg2, <- Hg1.
Qed.

Lemma login_exchanged r s s' a : store_ok (iam_store s) →
  handleCreateSession c r s = (s', Ok a) → exchanged s r a s'.
Proof.
  intros Hok. unfold handleCreateSession.
  destruct (decode_login r) as [[email password]|]; [|intros [= <- <-]; by apply quiet_same].
  destruct (blank email || blank password); [intros [= <- <-]; by apply quiet_same|].
  intros [(Hs & H1 & H2)|[l1 Hk]]%limited_iam_inv; [by apply quiet_same|].
  apply limited_iam_inv in Hk as [(Hs & H1 & H2)|[l2 Hk]]; [by apply quiet_same|].
  rewrite or_respond_eq, on_store_eq in Hk.
  destruct (FindUserByEmail _ _) as [st x] eqn:Hf. apply find_law in Hf as (Hok1 & Hg1 & Ha1 & _); [|done].
  change (grants st = grants (iam_store s)) in Hg1. change (accounts st = accounts (iam_store s)) in Ha1.
  destruct x as [user|e]; cycle 1.
  { injection Hk as <- <-. apply exchanged_quiet; try by apply store_refusal_quiet.
    - done. - done. - by left. }
  destruct (negb _); [injection Hk as <- <-; apply exchanged_quiet; [done..|by left|done|done]|].
  rewrite or_respond_eq in Hk.
  destruct (issueSession _ _ _) as [s2 [[ses token]|e]] eqn:Hi;
    apply issueSession_inv in Hi as (Hok2 & Ha2 & Hg2); [|done| |done]; injection Hk as <- <-.
  - eapply handed_out; [done..| |].
    + by rewrite Hg2, <- Hg1.
    + left. by rewrite Ha2.
  - apply exchanged_quiet; [done| |left; by rewrite Ha2|done..]. by rewrite Hg2, <- Hg1.
Qed.
Lemma logout_exchanged r s s' a : store_ok (iam_store s) →
  rq_Method r = "POST" → rq_Path r = "/v1/logout" →
  handleLogout c r s = (s', Ok a) → exchanged s r a s'.
Proof.
  intros Hok Hm Hp. unfold handleLogout.
  destruct (bearerToken _) as [token|] eqn:Hb; [|intros [= <- <-]; by apply quiet_same].
  rewrite or_respond_eq, on_store_eq.
  destruct (GetAuthenticatedActorBySessionDigest _ _) as [st x] eqn:Hf.
  apply actor_law in Hf as (Hok1 & Hg1 & Ha1 & _); [|done]. destruct x as [actor|e]; cycle 1.
  { intros [= <- <-]. apply exchanged_quiet; try by apply store_refusal_quiet.
    - done. - done. - by left. }
  intros [(Hs & H1 & H2)|[l1 Hk]]%limited_iam_inv.
  { apply exchanged_quiet; rewrite ?Hs; auto. }
  rewrite or_respond_eq, on_store_eq in Hk. destruct (RevokeSession _ _) as [st2 y] eqn:Hr.
  apply revoke_law in Hr as (Hok2 & Ha2 & Hg2); [|done].
  change (accounts st2 = accounts st) in Ha2. destruct y; injection Hk as <- <-.
  - destruct Hg2 as (g & Hg & Hg2). change (grants st !! tokenDigest token = Some g) in Hg.
    change (grants st2 = <[tokenDigest token:=revoked g]> (grants st)) in Hg2.
    split_and!; [done| |left; by rewrite <- Ha1, <- Ha2].
    unfold grants_after, issued_by, closed_by. cbn [ex_answer ex_request rs_Status write].
    rewrite Hm, Hp, Hb. cbn. rewrite Hg2, Hg1 in *. apply map_eq. intros d.
    destruct (decide (d = tokenDigest token)) as [->|Hd].
    + by rewrite lookup_insert_eq, lookup_alter, decide_True, Hg.
    + by rewrite lookup_insert_ne, lookup_alter_ne.
  - change (grants st2 = grants st) in Hg2.
    apply exchanged_quiet; try by apply store_refusal_quiet.
    + done. + by rewrite <- Hg1, <- Hg2. + left. by rewrite <- Ha1, <- Ha2.
Qed.

Lemma exchanged_reading s r a s' : store_ok (iam_store s') →
  grants (iam_store s') = grants (iam_store s) → accounts (iam_store s') = accounts (iam_store s) →
  rs_Status a ≠ StatusCreated → rq_Path r ≠ "/v1/logout" → exchanged s r a s'.
Proof.
  intros Hok Hg Ha H1 Hp. split_and!; [done| |by left]. rewrite Hg.
  unfold grants_after, issued_by, closed_by. cbn [ex_answer ex_request].
  rewrite (proj2 (Z.eqb_neq _ _) H1), (proj2 (String.eqb_neq _ _) Hp). by rewrite andb_false_r.
Qed.

(** The answer of [handleMe]. *)
Definition actor_of (a : Account) : Actor :=
  mkActor (acc_ID a) (acc_Email a) (acc_Name a)
    ((λ '(id, name, kind, role), mkMembership id name kind role) <$> acc_Memberships a).
Definition me_json (p : ActorProfile) : json :=
  JObj [("user", user_json (u_ID (ap_User p)) (u_Email (ap_User p)) (u_Name (ap_User p)));
        ("memberships", JArr ((λ m, JObj [("role", JStr (mp_Role m));
           ("organization", organization_json (mp_Organization m))]) <$> ap_Memberships p))].

(** What the client reads is the account. *)
Lemma decode_me_json p : decode_actor (Some (me_json p)) = Some (actor_of (account_of p)).
Proof.
  destruct p as [u ms]. unfold decode_actor, actor_of, account_of. cbn [body_fields mbind option_bind].
  assert (Hms : mapM (λ e, match e with JNull => Some (mkMembership "" "" "" "")
                           | _ => decode_actor_membership e end)
      ((λ m, JObj [("role", JStr (mp_Role m));
                   ("organization", organization_json (mp_Organization m))]) <$> ms)
    = Some ((λ '(id, name, kind, role), mkMembership id name kind role) <$> (membership_view <$> ms))).
  { induction ms as [|m ms IH]; [done|]. cbn [fmap list_fmap mapM]. rewrite IH. reflexivity. }
  cbn -[mapM fmap]. rewrite Hms. reflexivity.
Qed.

Lemma me_inv r s s' a : store_ok (iam_store s) → handleMe c r s = (s', Ok a) →
  store_ok (iam_store s') ∧ grants (iam_store s') = grants (iam_store s) ∧
  accounts (iam_store s') = accounts (iam_store s) ∧
  let now := ic_now c (iam_ticks s) in
  let grant := token ← bearerToken (rq_Header r "Authorization");
               grants (iam_store s) !! tokenDigest token in
  (∃ p g, rs_Status a = StatusOK ∧ rs_Body a = me_json p ∧ grant = Some g ∧
     gr_Revoked g = false ∧ now ≤ gr_ExpiresAt g ∧ u_ID (ap_User p) = gr_UserID g ∧
     accounts (iam_store s) !! u_Email (ap_User p) = Some (account_of p)) ∨
  (rs_Status a = StatusUnauthorized ∧
     (grant = None ∨ ∃ g, grant = Some g ∧ (gr_Revoked g = true ∨ gr_ExpiresAt g < now))) ∨
  rs_Status a = StatusInternalServerError.
Proof.
  intros Hok. unfold handleMe.
  destruct (bearerToken _) as [token|] eqn:Hb; [|intros [= <- <-]; split_and!; try done; right; left; by auto].
  rewrite or_respond_eq, on_store_eq.
  destruct (GetAuthenticatedActorBySessionDigest _ _) as [st x] eqn:Hf.
  apply actor_law in Hf as (Hok1 & Hg1 & Ha1 & Hx); [|done]. destruct x as [actor|e]; cycle 1.
  { intros [= <- <-]. split_and!; try done. unfold store_refusal. cbn.
    destruct (is_error e ErrIdentityNotFound); [right; left|by right; right]. split; [done|left; auto]. }
  destruct Hx as (Hg & Ha & Hid). cbn [mbind option_bind].
  case_bool_decide as Hrev.
  { intros [= <- <-]. split_and!; try done. right. left. split; [done|]. right. eexists.
    split; [exact Hg|]. left. by apply bool_decide_eq_true. }
  unfold Iam.time_now, mbind, st_bind. cbn [iam_ticks].
  change (iam_ticks (s <| iam_store := st |>)) with (iam_ticks s).
  destruct (Z.ltb_spec (se_ExpiresAt (aa_Session actor)) (ic_now c (iam_ticks s))) as [He|He];
    intros [= <- <-]; split_and!; try done.
  - right. left. split; [done|]. right. eexists. split; [exact Hg|]. by right.
  - left. eexists (aa_Profile actor), _. split_and!; [done|done|exact Hg| |done|done|done].
    apply bool_decide_eq_false. rewrite Hrev. by intros [].
Qed.

Lemma serve_exchanged r s s' a : store_ok (iam_store s) →
  Iam.ServeHTTP c r s = (s', Ok a) → exchanged s r a s'.
Proof.
  intros Hok. unfold Iam.ServeHTTP.
  destruct (String.eqb_spec (rq_Path r) "/healthz") as [Hp|_].
  { intros [= <- <-]. apply exchanged_reading; [done..|]. by rewrite Hp. }
  destruct (String.eqb (rq_Method r) "GET" && String.eqb (rq_Path r) "/v1/roles") eqn:Hroles.
  { apply andb_true_iff in Hroles as [_ Hp%String.eqb_eq].
    intros [= <- <-]. apply exchanged_reading; [done..|]. by rewrite Hp. }
  destruct (String.eqb (rq_Method r) "POST" && String.eqb (rq_Path r) "/v1/signup") eqn:Hsign.
  { apply andb_true_iff in Hsign as [Hm%String.eqb_eq Hp%String.eqb_eq]. by apply signup_exchanged. }
  destruct (_ && String.eqb (rq_Path r) "/v1/sessions"); [by apply login_exchanged|].
  destruct (String.eqb (rq_Method r) "POST" && String.eqb (rq_Path r) "/v1/logout") eqn:Hout.
  { apply andb_true_iff in Hout as [Hm%String.eqb_eq Hp%String.eqb_eq]. by apply logout_exchanged. }
  destruct (String.eqb (rq_Method r) "GET" && String.eqb (rq_Path r) "/v1/me") eqn:Hme.
  { apply andb_true_iff in Hme as [_ Hp%String.eqb_eq].
    intros (Hok' & Hg & Ha & Hx)%me_inv; [|done]. apply exchanged_reading; try done.
    - destruct Hx as [(p & g & -> & _)|[[-> _]| ->]]; done.
    - by rewrite Hp. }
  intros [= <- <-]. by apply quiet_same.
Qed.

(** ** Sessions of a history *)

Lemma standing_spec rs s log s' : store_ok (iam_store s) → grants (iam_store s) = ∅ →
  serve_history rs s = (log, s') →
  store_ok (iam_store s') ∧ ∀ d, grants (iam_store s') !! d = standing log d.
Proof.
  intros Hok Hg. revert log s'. unfold serve_history.
  induction rs as [|r rs IH] using rev_ind; intros log s'.
  { intros [= <- <-]. split; [done|]. intros d. by rewrite Hg, lookup_empty. }
  rewrite foldl_app. cbn [foldl]. destruct (foldl _ _ rs) as [log1 s1].
  destruct (IH _ _ eq_refl) as [Hok1 Hst]. unfold serve_logged. cbn [fst snd].
  destruct (Iam.ServeHTTP c r s1) as [s2 [a|e]] eqn:Hr; intros [= <- <-].
  - destruct (serve_exchanged _ _ _ _ Hok1 Hr) as (Hok2 & Hg2 & _). split; [done|]. intros d.
    rewrite Hg2. unfold grants_after. cbn [standing].
    destruct (issued_by _) as [[d' g]|].
    + destruct (String.eqb_spec d' d) as [->|Hd]; [by rewrite lookup_insert_eq|].
      by rewrite lookup_insert_ne.
    + destruct (closed_by _) as [d'|]; [|by rewrite bool_decide_false].
      case_bool_decide as Hd; [injection Hd as ->; by rewrite lookup_alter, decide_True, Hst|].
      rewrite lookup_alter_ne; [done|congruence].
  - destruct (iam_answered r s1) as (? & ? & Hx). by rewrite Hx in Hr.
Qed.

(** An account is the one of a sign-up of the history. *)
Definition signed_up_by (r : Request) (k : string) (acc : Account) : Prop :=
  ∃ p userID orgID hash, rq_Method r = "POST" ∧ rq_Path r = "/v1/signup" ∧ decode_signup r = Some p ∧
    validSignupPayload p = "" ∧ k = email_key (sp_Email p) ∧
    acc = new_account userID orgID (mkSignup (sp_Email p) (sp_Name p) hash
            (sp_OrganizationName p) (sp_OrganizationKind p)).

Lemma accounts_spec rs s log s' : store_ok (iam_store s) → accounts (iam_store s) = ∅ →
  serve_history rs s = (log, s') →
  store_ok (iam_store s') ∧
  ∀ k acc, accounts (iam_store s') !! k = Some acc → ∃ r, r ∈ rs ∧ signed_up_by r k acc.
Proof.
  intros Hok Ha. revert log s'. unfold serve_history.
  induction rs as [|r rs IH] using rev_ind; intros log s'.
  { intros [= <- <-]. split; [done|]. intros k acc. by rewrite Ha, lookup_empty. }
  rewrite foldl_app. cbn [foldl]. destruct (foldl _ _ rs) as [log1 s1].
  destruct (IH _ _ eq_refl) as [Hok1 Hst]. unfold serve_logged. cbn [fst snd].
  destruct (iam_answered r s1) as (s2 & a & Hr). rewrite Hr. intros [= <- <-].
  destruct (serve_exchanged _ _ _ _ Hok1 Hr) as (Hok2 & _ & Hadd). split; [done|].
  intros k acc Hk. setoid_rewrite elem_of_app. destruct Hadd as [Hs|Hs].
  - rewrite Hs in Hk. destruct (Hst _ _ Hk) as (r' & Hr' & Hby). exists r'. by split; [left|].
  - destruct Hs as (p & uid & oid & hash & Hm & Hp & Hd & Hv & _ & Hs). rewrite Hs in Hk.
    apply lookup_insert_Some in Hk as [[<- <-]|[_ Hk]].
    + exists r. split; [right; by left|]. by exists p, uid, oid, hash.
    + destruct (Hst _ _ Hk) as (r' & Hr' & Hby). exists r'. by split; [left|].
Qed.

(** ** The client *)

Lemma me_bearer token : bearerToken (rq_Header (me_request token) "Authorization") =
  if blank token then None else Some (TrimSpace token).
Proof.
  unfold bearerToken, me_request, blank. cbn [rq_Header].
  change (if String.eqb "Authorization" "Authorization" then ?x else ?y) with x.
  unfold HasPrefix, TrimPrefix. rewrite (proj2 (strip_prefix_app "Bearer " _ _) eq_refl).
  cbn [negb default from_option id]. rewrite TrimSpace_idem. by destruct (String.eqb _ _).
Qed.

(** What the client is told in a state, of a token that stands for the grant, or for
    nothing. *)
Definition told s (grant : option Grant) (answer : result Actor) : Prop :=
  match answer with
  | Ok actor => ∃ g acc, grant = Some g ∧ gr_Revoked g = false ∧
      ic_now c (iam_ticks s) ≤ gr_ExpiresAt g ∧ acc_ID acc = gr_UserID g ∧
      accounts (iam_store s) !! acc_Email acc = Some acc ∧ actor = actor_of acc
  | Err e =>
      e = ErrUnauthorized ∧
        (∀ g, grant = Some g → gr_Revoked g = true ∨ gr_ExpiresAt g < ic_now c (iam_ticks s)) ∨
      e = Errf "iam me status 500"
  end.

Lemma client_told s baseURL token : store_ok (iam_store s) → baseURL ≠ "" →
  told s (if blank token then None else grants (iam_store s) !! tokenDigest (TrimSpace token))
    (client_GetActor baseURL (answer_of c s) token).
Proof.
  intros Hok Hurl. unfold client_GetActor. rewrite (proj2 (String.eqb_neq _ _) Hurl).
  unfold answer_of. change (Iam.ServeHTTP c (me_request token)) with (handleMe c (me_request token)).
  destruct (handleMe c (me_request token) s) as [s' [a|e]] eqn:Hme; cycle 1.
  { destruct (iam_answered (me_request token) s) as (? & ? & Hx).
    change (handleMe c (me_request token) s = (x, Ok x0)) in Hx. congruence. }
  apply me_inv in Hme as (_ & _ & _ & Hx); [|done]. rewrite me_bearer in Hx.
  replace (token0 ← if blank token then None else Some (TrimSpace token);
           grants (iam_store s) !! tokenDigest token0)
    with (if blank token then None else grants (iam_store s) !! tokenDigest (TrimSpace token)) in Hx
    by by destruct (blank token).
  cbn [snd]. unfold read_actor, mbind, result_bind.
  destruct Hx as [(p & g & -> & -> & Hg & Hr & Hn & Hid & Ha)|[(-> & Hg)| ->]].
  - cbn [Z.eqb Z.leb]. rewrite decode_me_json. exists g, (account_of p). by split_and!.
  - left. split; [done|]. intros g Hgg. destruct Hg as [Hg|(g' & Hg & Hc)]; congruence.
  - by right.
Qed.

(** C7.  Whatever is requested of the service, a client that asks about a token
    afterwards is told the account of the user it was issued to, while the session
    has neither been logged out nor expired, and otherwise that the token is not
    good; the only other answer is that the store failed. *)
Theorem client_knows_live_sessions rs s log s' baseURL token :
  store_ok (iam_store s) → grants (iam_store s) = ∅ → serve_history rs s = (log, s') →
  baseURL ≠ "" →
  told s' (if blank token then None else standing log (tokenDigest (TrimSpace token)))
    (client_GetActor baseURL (answer_of c s') token).
Proof.
  intros Hok Hg Hrun Hurl. destruct (standing_spec _ _ _ _ Hok Hg Hrun) as [Hok' <-].
  by apply client_told.
Qed.

(** C28.  A log-in hands out a token only for the account of its e-mail address and
    a password that matches the stored hash. *)
Theorem tokens_need_the_password r s s' a : store_ok (iam_store s) →
  rq_Path r = "/v1/sessions" → Iam.ServeHTTP c r s = (s', Ok a) → rs_Status a = StatusCreated →
  ∃ email password acc token, decode_login r = Some (email, password) ∧
    accounts (iam_store s) !! email_key email = Some acc ∧
    ic_CompareHashAndPassword c (acc_PasswordHash acc) password = true ∧
    token_of (rs_Body a) = Some (acc_ID acc, token).
Proof.
  intros Hok Hp. unfold Iam.ServeHTTP. rewrite Hp. cbn [String.eqb]. cbn. rewrite !andb_false_r, andb_true_r.
  destruct (String.eqb (rq_Method r) "POST"); [|by intros [= <- <-]].
  unfold handleCreateSession.
  destruct (decode_login r) as [[email password]|] eqn:Hd; [|by intros [= <- <-]].
  destruct (blank email || blank password); [by intros [= <- <-]|].
  intros [(_ & Hc & _)|[l1 Hk]]%limited_iam_inv; [done|].
  apply limited_iam_inv in Hk as [(_ & Hc & _)|[l2 Hk]]; [done|].
  rewrite or_respond_eq, on_store_eq in Hk. destruct (FindUserByEmail _ _) as [st x] eqn:Hf.
  apply find_law in Hf as (_ & _ & _ & Hx); [|done]. destruct x as [user|e]; cycle 1.
  { injection Hk as <- <-. by intros ?%store_refusal_quiet. }
  destruct Hx as (acc & Ha & Hid & _ & _ & Hh).
  destruct (ic_CompareHashAndPassword c (u_PasswordHash user) password) eqn:Hcmp; cbn [negb] in Hk;
    [|by injection Hk as <- <-].
  rewrite or_respond_eq in Hk.
  destruct (issueSession _ _ _) as [s2 [[ses token]|e]]; injection Hk as <- <-; [|done]. intros _.
  exists email, password, acc, token. rewrite Hh, Hid. by split_and!.
Qed.

(** ** From sign-up on *)

(** [rand.Read] fills its 32 bytes. *)
Definition random_bytes : Prop :=
  ∀ n l, ic_rand c n = Ok l → l ≠ [] ∧ Forall is_byte l.

Lemma issued_token userID s s' ses token :
  random_bytes → issueSession c userID s = (s', Ok (ses, token)) →
  TrimSpace token = token ∧ token ≠ "".
Proof.
  intros Hr. unfold issueSession, randomToken, Iam.time_now, mbind, st_bind.
  destruct (ic_rand c (iam_draws s)) as [l|e] eqn:Hl; [|done]. cbn [fmap result_fmap].
  rewrite on_store_eq. destruct (CreateSession _ _) as [store [y|e]]; [|done].
  intros [= _ _ <-]. destruct (Hr _ _ Hl) as [Hne Hb]. split; [by apply base64_trimmed|].
  destruct l as [|a1 [|a2 [|a3 l]]]; done.
Qed.

Lemma valid_kind p : validSignupPayload p = "" →
  TrimSpace (sp_OrganizationKind p) ∈ ["buyer"; "provider"; "ops"].
Proof.
  unfold validSignupPayload. destruct (ValidateEmail _) as [u|e] eqn:He.
  - destruct (ValidatePassword _) as [u'|e] eqn:Hp.
    + do 2 (destruct (blank _); [done|]). destruct (existsb _ _) eqn:Hk; [|done]. intros _.
      apply existsb_exists in Hk as (x & Hx & ->%String.eqb_eq). by apply list_elem_of_In.
    + unfold ValidatePassword in Hp. by repeat case_match; simplify_eq.
  - unfold ValidateEmail in He. by repeat case_match; simplify_eq.
Qed.

(** The account that a sign-up answered with 201 has stored, and its session. *)
Lemma signup_stored r s s' a : random_bytes → store_ok (iam_store s) →
  rq_Path r = "/v1/signup" → Iam.ServeHTTP c r s = (s', Ok a) → rs_Status a = StatusCreated →
  ∃ p id orgID hash token, decode_signup r = Some p ∧ validSignupPayload p = "" ∧
    token_of (rs_Body a) = Some (id, token) ∧ TrimSpace token = token ∧ token ≠ "" ∧
    (∃ n, ic_GenerateFromPassword c n (sp_Password p) = Ok hash) ∧ store_ok (iam_store s') ∧
    grants (iam_store s') !! tokenDigest token =
      Some (mkGrant id (ic_now c (iam_ticks s) + ic_sessionTTL c) false) ∧
    accounts (iam_store s') !! email_key (sp_Email p) =
      Some (new_account id orgID (mkSignup (sp_Email p) (sp_Name p) hash
              (sp_OrganizationName p) (sp_OrganizationKind p))).
Proof.
  intros Hrand Hok Hp. unfold Iam.ServeHTTP. rewrite Hp. cbn. rewrite !andb_false_r, andb_true_r.
  destruct (String.eqb (rq_Method r) "POST"); [|by intros [= <- <-]]. unfold handleSignup.
  destruct (decode_signup r) as [p|] eqn:Hd; [|by intros [= <- <-]].
  destruct (String.eqb_spec (validSignupPayload p) "") as [Hv|Hv]; cbn [negb]; [|by intros [= <- <-]].
  intros [(_ & Hc & _)|[l1 Hk]]%limited_iam_inv; [done|].
  apply limited_iam_inv in Hk as [(_ & Hc & _)|[l2 Hk]]; [done|].
  rewrite or_respond_eq in Hk. unfold GenerateFromPassword at 1 in Hk.
  destruct (ic_GenerateFromPassword c _ _) as [hash|e] eqn:Hh; [|by injection Hk as <- <-].
  rewrite or_respond_eq, on_store_eq in Hk.
  destruct (CreateSignup _ _) as [st x] eqn:Hc. apply signup_law in Hc as (Hok1 & Hg1 & Hx); [|done].
  destruct x as [actor|e]; cycle 1.
  { injection Hk as <- <-. by intros ?%store_refusal_quiet. }
  destruct Hx as (_ & Hx & id & orgID & Hacc). rewrite or_respond_eq in Hk.
  destruct (issueSession _ _ _) as [s2 [[ses token]|e]] eqn:Hi; [|by injection Hk as <- <-].
  destruct (issued_token _ _ _ _ _ Hrand Hi) as [Htrim Hne].
  apply issueSession_inv in Hi as (Hok2 & Ha2 & Hg2); [|done].
  cbn in Hk. destruct (first_membership _) as [o m]. injection Hk as <- <-. intros _.
  assert (Hid : u_ID (ap_User actor) = id) by exact (f_equal acc_ID Hacc).
  subst id. eexists p, _, orgID, hash, token. split_and!; try done; [eauto|..].
  - by rewrite Hg2, lookup_insert_eq.
  - rewrite Ha2. change (accounts st !! email_key (sp_Email p) = Some (new_account
      (u_ID (ap_User actor)) orgID (mkSignup (sp_Email p) (sp_Name p) hash
         (sp_OrganizationName p) (sp_OrganizationKind p)))).
    by rewrite Hx, lookup_insert_eq, Hacc.
Qed.

Lemma signup_told r s s' a baseURL : random_bytes → store_ok (iam_store s) →
  rq_Path r = "/v1/signup" → Iam.ServeHTTP c r s = (s', Ok a) → rs_Status a = StatusCreated →
  baseURL ≠ "" → ic_now c (iam_ticks s') ≤ ic_now c (iam_ticks s) + ic_sessionTTL c →
  ∃ p id orgID token, decode_signup r = Some p ∧ token_of (rs_Body a) = Some (id, token) ∧
    let kind := TrimSpace (sp_OrganizationKind p) in
    let answer := client_GetActor baseURL (answer_of c s') token in
    kind ∈ ["buyer"; "provider"; "ops"] ∧
    (answer = Ok (mkActor id (email_key (sp_Email p)) (TrimSpace (sp_Name p))
       [mkMembership orgID (TrimSpace (sp_OrganizationName p)) kind
          (DefaultMembershipRoleForOrganizationKind kind)]) ∨
     answer = Err (Errf "iam me status 500")).
Proof.
  intros Hrand Hok Hp Hr Ha Hurl Hnow.
  destruct (signup_stored _ _ _ _ Hrand Hok Hp Hr Ha)
    as (p & id & orgID & hash & token & Hd & Hv & Ht & Htrim & Hne & _ & Hok' & Hg & Hacc).
  exists p, id, orgID, token. do 2 (split; [done|]). cbn zeta. split; [by apply valid_kind|].
  pose proof (client_told s' baseURL token Hok' Hurl) as Htold. unfold blank in Htold.
  rewrite Htrim, (proj2 (String.eqb_neq _ _) Hne), Hg in Htold.
  destruct (client_GetActor _ _ _) as [actor|e]; cbn [told] in Htold.
  - left. f_equal. destruct Htold as (g & acc & [= <-] & _ & _ & Hid & Hacc' & ->). cbn in Hid.
    assert (Hk : acc_Email acc = email_key (sp_Email p)) by
      (eapply accounts_distinct; [done|exact Hacc'|exact Hacc|done]).
    rewrite Hk, Hacc in Hacc'. injection Hacc' as <-. unfold actor_of. cbn.
    unfold DefaultMembershipRoleForOrganizationKind. by rewrite TrimSpace_idem.
  - right. destruct Htold as [[_ Hx]|Hx]; [|by f_equal].
    destruct (Hx _ eq_refl) as [?|Hlt]; [done|]. cbn in Hlt. lia.
Qed.

(**  The token of a sign-up speaks for the new account from then on: a client
    that asks about it is told the user under the trimmed and lowered address, with
    one membership, in the organization that was named and with the role of its
    kind.  The kind is what the request says; one who calls it ops is told to be a
    reviewer of the platform, whom the gateway shows and opens every order. *)
Theorem signups_choose_their_role r s s' a baseURL : random_bytes → store_ok (iam_store s) →
  rq_Path r = "/v1/signup" → Iam.ServeHTTP c r s = (s', Ok a) → rs_Status a = StatusCreated →
  baseURL ≠ "" → ic_now c (iam_ticks s') ≤ ic_now c (iam_ticks s) + ic_sessionTTL c →
  ∃ p id token, decode_signup r = Some p ∧ token_of (rs_Body a) = Some (id, token) ∧
    let kind := TrimSpace (sp_OrganizationKind p) in
    match client_GetActor baseURL (answer_of c s') token with
    | Ok actor => ac_UserID actor = id ∧ ac_Email actor = email_key (sp_Email p) ∧
        (∃ orgID, ac_Memberships actor =
           [mkMembership orgID (TrimSpace (sp_OrganizationName p)) kind
              (if String.eqb kind "ops" then "ops_reviewer" else "org_owner")]) ∧
        (kind = "ops" → ∀ orders, filterOrdersForActor orders actor = Ok orders ∧
           ∀ order, authorizeOrderForActor order actor = Ok tt)
    | Err e => e = Errf "iam me status 500"
    end.
Proof.
  intros Hrand Hok Hp Hr Ha Hurl Hnow.
  destruct (signup_told _ _ _ _ _ Hrand Hok Hp Hr Ha Hurl Hnow)
    as (p & id & orgID & token & Hd & Ht & Hkind & Hx).
  exists p, id, token. do 2 (split; [done|]). cbn zeta in *. destruct Hx as [-> | ->]; [|done].
  cbn [ac_UserID ac_Email ac_Memberships].
  split_and!; [done|done| |by intros ->].
  exists orgID. do 2 f_equal. clear -Hkind. unfold DefaultMembershipRoleForOrganizationKind.
  rewrite TrimSpace_idem. apply list_elem_of_In in Hkind. cbn in Hkind.
  by destruct Hkind as [<-|[<-|[<-|[]]]].
Qed.

(** Accounts are never lost. *)
Lemma accounts_kept rs s log s' k acc : store_ok (iam_store s) →
  serve_history rs s = (log, s') → accounts (iam_store s) !! k = Some acc →
  store_ok (iam_store s') ∧ accounts (iam_store s') !! k = Some acc.
Proof.
  intros Hok. revert log s'. unfold serve_history.
  induction rs as [|r rs IH] using rev_ind; intros log s'; [by intros [= <- <-]|].
  rewrite foldl_app. cbn [foldl]. destruct (foldl _ _ rs) as [log1 s1]. unfold serve_logged. cbn [fst snd].
  destruct (iam_answered r s1) as (s2 & a & Hr). rewrite Hr. intros [= <- <-] Ha.
  destruct (IH _ _ eq_refl Ha) as [Hok1 Hk1].
  destruct (serve_exchanged _ _ _ _ Hok1 Hr) as (Hok2 & _ & [-> |Hs]); split; try done.
  destruct Hs as (p & uid & oid & hash & _ & _ & _ & _ & Hnone & ->).
  rewrite lookup_insert_ne; [done|]. congruence.
Qed.

(**  Who has signed up can log in: whatever is requested in between, the
    password of the sign-up and any spelling of its address are never answered with
    wrong credentials, and the token handed out is for the account signed up.  (A
    call may still be turned away by the limiter, or fail.) *)
Theorem signed_up_users_log_in r s s1 a rs log s2 login s3 b email password :
  random_bytes → (∀ n h, ic_GenerateFromPassword c n password = Ok h →
                         ic_CompareHashAndPassword c h password = true) →
  store_ok (iam_store s) → rq_Path r = "/v1/signup" → Iam.ServeHTTP c r s = (s1, Ok a) →
  rs_Status a = StatusCreated → (∀ p, decode_signup r = Some p →
    sp_Password p = password ∧ email_key (sp_Email p) = email_key email) →
  serve_history rs s1 = (log, s2) →
  rq_Method login = "POST" → rq_Path login = "/v1/sessions" →
  decode_login login = Some (email, password) → Iam.ServeHTTP c login s2 = (s3, Ok b) →
  rs_Status b ≠ StatusUnauthorized ∧
  (rs_Status b = StatusCreated →
   ∃ id t t', token_of (rs_Body a) = Some (id, t) ∧ token_of (rs_Body b) = Some (id, t')).
Proof.
  intros Hrand Hbcrypt Hok Hp Hr Ha Hsame Hrun Hm2 Hp2 Hd2.
  destruct (signup_stored _ _ _ _ Hrand Hok Hp Hr Ha)
    as (p & id & orgID & hash & token & Hd & Hv & Ht & _ & _ & [n Hn] & Hok1 & _ & Hacc).
  destruct (Hsame _ Hd) as [Hpw Hk]. rewrite Hk in Hacc. rewrite Hpw in Hn.
  destruct (accounts_kept _ _ _ _ _ _ Hok1 Hrun Hacc) as [Hok2 Hacc2].
  unfold Iam.ServeHTTP. rewrite Hm2, Hp2. cbn. unfold handleCreateSession. rewrite Hd2.
  destruct (blank email || blank password); [by intros [= <- <-]|].
  set (P := λ b : IamAnswer, rs_Status b ≠ StatusUnauthorized ∧
    (rs_Status b = StatusCreated → ∃ t', token_of (rs_Body b) = Some (id, t'))).
  assert (Hx : P b → rs_Status b ≠ StatusUnauthorized ∧ (rs_Status b = StatusCreated →
    ∃ id t t', token_of (rs_Body a) = Some (id, t) ∧ token_of (rs_Body b) = Some (id, t'))).
  { intros [Hu Hc]. split; [done|]. intros Hb. destruct (Hc Hb) as [t' Ht']. by exists id, token, t'. }
  intros Hlog. apply Hx. clear Hx. revert Hlog. apply limited_passes; [by split|by split|].
  intros l1. clear s3 b. intros s3 b. apply limited_passes; [by split|by split|].
  intros l2. clear s3 b. intros s3 b.
  rewrite or_respond_eq, on_store_eq. destruct (FindUserByEmail _ _) as [st x] eqn:Hf.
  apply find_law in Hf as (Hok3 & _ & Ha3 & Hx); [|done].
  change (accounts st = accounts (iam_store s2)) in Ha3.
  destruct x as [user|e].
  - destruct Hx as (acc & Hacc3 & Hid & _ & _ & Hh).
    change (accounts (iam_store s2) !! email_key email = Some acc) in Hacc3.
    rewrite Hacc2 in Hacc3. injection Hacc3 as <-. cbn in Hh, Hid.
    rewrite <- Hh, (Hbcrypt _ _ Hn). cbn [negb]. rewrite or_respond_eq.
    destruct (issueSession _ _ _) as [s4 [[ses t']|e]]; intros [= <- <-]; [|by split].
    split; [done|]. intros _. exists t'. by rewrite Hid.
  - intros [= <- <-]. unfold store_refusal. destruct (is_error e _) eqn:He; [|by split].
    specialize (Hx eq_refl). change (accounts (iam_store s2) !! email_key email = None) in Hx. congruence.
Qed.
End sessions.

(** ** A service to run *)

(** Hashes are the passwords behind a dollar sign; the third draw of random bytes
    fails. *)
Definition demo_hash (password : string) : result string :=
  if (String.length password <=? 72)%nat then Ok ("$" +:+ password)
  else Err (Errf "bcrypt: password length exceeds 72 bytes").
Definition iam_demo : IamConfig () :=
  mkIamConfig () 1000 None (λ _, "") (λ n, Z.of_nat n)
    (λ n, if bool_decide (n = 2)%nat then Err (Errf "no entropy") else Ok (replicate 32 (Z.of_nat (n mod 256))))
    (λ _, demo_hash) (λ h password, String.eqb h ("$" +:+ password)).
Definition demo_clock (n : nat) : Z := Z.of_nat n.
#[local] Instance demo_store : IdentityStore := memory_store demo_clock.
#[local] Instance demo_unicode : Unicode := no_tables.
Definition demo_start : IamServer () := mkIamServer _ () NewMemoryStore tt 0 0 0.

Definition post (path : string) (fields : list (string * json)) : Request :=
  mkRequest "POST" path (λ _, "") (λ _, []) (Some (JObj fields)) "".
Definition signup_request (email kind : string) : Request :=
  post "/v1/signup" [("email", JStr email); ("password", JStr "correct horse 1");
    ("name", JStr "Eve"); ("organizationName", JStr "Eve Ltd"); ("organizationKind", JStr kind)].
Definition login_request (email : string) : Request :=
  post "/v1/sessions" [("email", JStr email); ("password", JStr "correct horse 1")].
Definition logout_request (token : string) : Request :=
  mkRequest "POST" "/v1/logout" (λ h, if String.eqb h "Authorization" then "Bearer " +:+ token else "")
    (λ _, []) None "".
Definition demo_token (n : Z) : string := base64_url (replicate 32 n).

Definition demo_run (rs : list Request) : list exchange * IamServer () :=
  serve_history iam_demo rs demo_start.
Definition demo_requests : list Request :=
  [signup_request " Eve@Mail.org" "ops"; login_request "eve@mail.org"; logout_request (demo_token 0)].

Lemma demo_random : random_bytes iam_demo.
Proof.
  intros n l. change (ic_rand iam_demo n) with (if bool_decide (n = 2)%nat
    then Err (Errf "no entropy") else Ok (replicate 32 (Z.of_nat (n mod 256)))).
  pose proof (Nat.mod_upper_bound n 256). generalize dependent (n mod 256)%nat. intros k Hk.
  case_bool_decide; [done|]. intros Hl.
  assert (l = replicate 32 (Z.of_nat k)) as -> by congruence.
  split; [done|]. apply Forall_replicate. unfold is_byte. lia.
Qed.
Lemma demo_ok : store_ok (iam_store demo_start) ∧ grants (iam_store demo_start) = ∅.
Proof. split; [exact memory_empty_ok|]. vm_compute. reflexivity. Qed.

Example demo_statuses :
  (λ x, rs_Status (ex_answer x)) <$> (demo_run demo_requests).1 = [200; 201; 201] ∧
  (λ t, is_ok (client_GetActor "http://iam" (answer_of iam_demo (demo_run demo_requests).2) t))
    <$> [demo_token 0; demo_token 1; demo_token 7; ""] = [false; true; false; false].
Proof. vm_compute. done. Qed.

Lemma client_knows_live_sessions_witness :
  ∃ log s', demo_run demo_requests = (log, s') ∧
    is_ok (client_GetActor "http://iam" (answer_of iam_demo s') (demo_token 1)) = true ∧
    told iam_demo s'
      (if blank (demo_token 1) then None
       else standing iam_demo log (tokenDigest (TrimSpace (demo_token 1))))
      (client_GetActor "http://iam" (answer_of iam_demo s') (demo_token 1)).
Proof.
  eexists _, _. split; [apply surjective_pairing|]. split; [vm_compute; reflexivity|].
  apply (client_knows_live_sessions iam_demo demo_requests demo_start);
    [apply demo_ok|apply demo_ok|apply surjective_pairing|done].
Defined.

(** A request that is answered in the demo. *)
Definition demo_answer (rs : list Request) (r : Request) : IamServer () * IamAnswer :=
  match Iam.ServeHTTP iam_demo r (demo_run rs).2 with
  | (s, Ok a) => (s, a)
  | (s, Err _) => (s, refusal 0 "")
  end.
Lemma demo_served rs r : Iam.ServeHTTP iam_demo r (demo_run rs).2 =
  ((demo_answer rs r).1, Ok (demo_answer rs r).2).
Proof.
  unfold demo_answer. destruct (iam_answered iam_demo r (demo_run rs).2) as (s & a & Hs).
  by rewrite Hs.
Qed.
Lemma demo_run_ok rs : store_ok (iam_store (demo_run rs).2).
Proof.
  eapply (standing_spec iam_demo rs demo_start); [apply demo_ok|apply demo_ok|apply surjective_pairing].
Qed.

Lemma tokens_need_the_password_witness : ∃ email password acc token,
  decode_login (login_request "eve@mail.org") = Some (email, password) ∧
  accounts (iam_store (demo_run [signup_request "Eve@mail.org" "buyer"]).2) !! email_key email = Some acc ∧
  ic_CompareHashAndPassword iam_demo (acc_PasswordHash acc) password = true ∧
  token_of (rs_Body (demo_answer [signup_request "Eve@mail.org" "buyer"]
                       (login_request "eve@mail.org")).2) = Some (acc_ID acc, token).
Proof.
  eapply (tokens_need_the_password iam_demo);
    [apply demo_run_ok|reflexivity|apply demo_served|vm_compute; reflexivity].
Defined.

Lemma signups_choose_their_role_witness : ∃ p id token,
  decode_signup (signup_request "eve@mail.org" "ops") = Some p ∧
  token_of (rs_Body (demo_answer [] (signup_request "eve@mail.org" "ops")).2) = Some (id, token) ∧
  let kind := TrimSpace (sp_OrganizationKind p) in
  match client_GetActor "http://iam"
          (answer_of iam_demo (demo_answer [] (signup_request "eve@mail.org" "ops")).1) token with
  | Ok actor => ac_UserID actor = id ∧ ac_Email actor = email_key (sp_Email p) ∧
      (∃ orgID, ac_Memberships actor =
         [mkMembership orgID (TrimSpace (sp_OrganizationName p)) kind
            (if String.eqb kind "ops" then "ops_reviewer" else "org_owner")]) ∧
      (kind = "ops" → ∀ orders, filterOrdersForActor orders actor = Ok orders ∧
         ∀ order, authorizeOrderForActor order actor = Ok tt)
  | Err e => e = Errf "iam me status 500"
  end.
Proof.
  eapply (signups_choose_their_role iam_demo _ (demo_run []).2);
    [exact demo_random|apply demo_run_ok|reflexivity|apply demo_served|vm_compute; reflexivity|done|].
  vm_compute. discriminate.
Defined.

Lemma signed_up_users_log_in_witness :
  let r := signup_request "Eve@mail.org" "buyer" in
  let login := login_request " eve@MAIL.org" in
  let first := demo_answer [] r in
  let between := serve_history iam_demo [logout_request (demo_token 0)] first.1 in
  let second := match Iam.ServeHTTP iam_demo login between.2 with
                | (s, Ok b) => (s, b) | (s, Err _) => (s, refusal 0 "") end in
  rs_Status second.2 = StatusCreated ∧ rs_Status second.2 ≠ StatusUnauthorized ∧
  (rs_Status second.2 = StatusCreated → ∃ id t t',
     token_of (rs_Body first.2) = Some (id, t) ∧ token_of (rs_Body second.2) = Some (id, t')).
Proof.
  intros r login first between second. split; [vm_compute; reflexivity|].
  apply (signed_up_users_log_in iam_demo r demo_start first.1 first.2
    [logout_request (demo_token 0)] between.1 between.2 login second.1 second.2
    " eve@MAIL.org" "correct horse 1").
  - exact demo_random.
  - intros n h Hh. vm_compute in Hh. assert (h = "$correct horse 1") as -> by congruence.
    reflexivity.
  - apply demo_ok.
  - reflexivity.
  - apply (demo_served []).
  - vm_compute. reflexivity.
  - intros p. vm_compute. by intros [= <-].
  - apply surjective_pairing.
  - reflexivity.
  - reflexivity.
  - reflexivity.
  - subst second. destruct (iam_answered iam_demo login between.2) as (s3 & b & ->). reflexivity.
Defined.

(**  A sign-up whose session cannot be issued is answered 500 and yet keeps the
    address: trying again is answered as a conflict, and the account that the caller
    was told nothing of can be logged in to. *)
Theorem failed_signup_takes_the_address :
  let log := (demo_run
    [signup_request "ann@mail.org" "buyer"; login_request "ann@mail.org";
     signup_request "bob@mail.org" "buyer"; signup_request "bob@mail.org" "buyer";
     login_request "bob@mail.org"]).1 in
  rev ((λ x, rs_Status (ex_answer x)) <$> log) = [201; 201; 500; 409; 201].
Proof. vm_compute. reflexivity. Qed.
