(* ===== verification/CodeAgent.v ===== *)
(** * URLs (net/url), and the client of a code agent that is built on them

    Escaping of path segments and query strings, and how the target of a request is
    taken apart: the path without its escapes and the values of the query. *)

From Stdlib Require Import Ascii.
From S2P Require Import Prelude GoText GoBytes GoNum GoFloat Http.

(** ** Escaping *)

Definition unreserved (a : ascii) : bool :=
  let n := byte_val a in
  between 65 90 n || between 97 122 n || between 48 57 n || has_byte a "-_.~".
Definition upper_hex (n : Z) : ascii := ascii_of_nat (Z.to_nat (if n <? 10 then 48 + n else 55 + n)).
Definition escape_byte (a : ascii) : string :=
  String "%" (String (upper_hex (byte_val a / 16)) (String (upper_hex (byte_val a mod 16)) "")).
Fixpoint escape (keep : ascii → bool) (s : string) : string :=
  match s with
  | EmptyString => ""
  | String a s => (if keep a then String a "" else escape_byte a) +:+ escape keep s
  end.
Definition segment_byte (a : ascii) : bool := unreserved a || has_byte a "$&+=:@".
Definition PathEscape (s : string) : string := escape segment_byte s.
(** [QueryEscape]: a space is written as a plus sign. *)
Fixpoint QueryEscape (s : string) : string :=
  match s with
  | EmptyString => ""
  | String a s => (if Ascii.eqb a " " then "+" else if unreserved a then String a ""
                   else escape_byte a) +:+ QueryEscape s
  end.

(** [unescape]: a percent sign that two hexadecimal digits do not follow is an error. *)
Definition hex_value (a : ascii) : option Z :=
  match digit_of a with Some d => if d <? 16 then Some d else None | None => None end.
Fixpoint unescape (plus : bool) (s : string) : option string :=
  match s with
  | EmptyString => Some ""
  | String "%" s =>
      match s with
      | String a (String b s) =>
          hi ← hex_value a; lo ← hex_value b; rest ← unescape plus s;
          Some (String (ascii_of_nat (Z.to_nat (hi * 16 + lo))) rest)
      | _ => None
      end
  | String a s => rest ← unescape plus s;
      Some (String (if plus && Ascii.eqb a "+" then " "%char else a) rest)
  end.
Definition PathUnescape : string → option string := unescape false.
Definition QueryUnescape : string → option string := unescape true.

(** ** Targets *)

(** [url.Values.Encode] of a query given in the order of its keys. *)
Definition encode_query (query : list (string * string)) : string :=
  Join "&" ((λ kv, QueryEscape kv.1 +:+ "=" +:+ QueryEscape kv.2) <$> query).

(** [ParseQuery]: pairs that cannot be read are dropped. *)
Definition query_pair (text : string) : option (string * string) :=
  if String.eqb text "" || has_byte ";" text then None
  else let '(k, v) := cut_at "=" text in
       k ← QueryUnescape k; v ← QueryUnescape (default "" v); Some (k, v).
Definition query_values (query : string) (key : string) : list string :=
  omap (λ kv, if String.eqb kv.1 key then Some kv.2 else None)
    (omap query_pair (Split "&" query)).

Definition control_byte (a : ascii) : bool := (byte_val a <? 32) || (byte_val a =? 127).
(** The path and the query values of a target that begins with a slash, of an address
    whose host is fixed: what follows a number sign is read and dropped, a question
    mark begins the query. *)
Definition parse_target (target : string) : option (string * (string → list string)) :=
  let '(target, fragment) := cut_at "#" target in
  if negb (all_bytes (λ a, negb (control_byte a)) target) then None
  else let '(path, query) := cut_at "?" target in
       path ← PathUnescape path; _ ← PathUnescape (default "" fragment);
       Some (path, query_values (default "" query)).

(** ** Properties *)

Example escape_ex :
  PathEscape "a/b c?d" = "a%2Fb%20c%3Fd" ∧ PathEscape "x:1@y" = "x:1@y" ∧
  QueryEscape "a b&c" = "a+b%26c" ∧ PathUnescape "%zz" = None.
Proof. vm_compute. done. Qed.
Example target_ex :
  (λ '(p, q), (p, q "x")) <$> parse_target "/a%20b?x=1+2&y&x=%33#z" = Some ("/a b", ["1 2"; "3"]).
Proof. vm_compute. reflexivity. Qed.

(** The two digits of a byte stand for it. *)
Definition digits_stand (a : ascii) : bool :=
  bool_decide (hex_value (upper_hex (byte_val a / 16)) = Some (byte_val a / 16)) &&
  bool_decide (hex_value (upper_hex (byte_val a mod 16)) = Some (byte_val a mod 16)) &&
  bool_decide (ascii_of_nat (Z.to_nat (byte_val a / 16 * 16 + byte_val a mod 16)) = a).
Lemma escaped_digits a :
  hex_value (upper_hex (byte_val a / 16)) = Some (byte_val a / 16) ∧
  hex_value (upper_hex (byte_val a mod 16)) = Some (byte_val a mod 16) ∧
  ascii_of_nat (Z.to_nat (byte_val a / 16 * 16 + byte_val a mod 16)) = a.
Proof.
  assert (H : digits_stand a = true) by (revert a; apply all_ascii; vm_compute; reflexivity).
  apply andb_true_iff in H as [[H1 H2]%andb_true_iff H3].
  by rewrite !bool_decide_eq_true in *.
Qed.

Lemma unescape_cons plus a s :
  a ≠ "%"%char → unescape plus (String a s) =
    (λ rest, String (if plus && Ascii.eqb a "+" then " "%char else a) rest) <$> unescape plus s.
Proof.
  intros Ha. destruct (Ascii.eqb_spec a "%") as [|Hb]; [done|]. clear Hb.
  destruct a as [[] [] [] [] [] [] [] []]; try reflexivity. by destruct Ha.
Qed.
Lemma unescape_escaped plus a s :
  unescape plus (escape_byte a +:+ s) = String a <$> unescape plus s.
Proof.
  destruct (escaped_digits a) as (H1 & H2 & H3). unfold escape_byte. rewrite !app_cons.
  cbn [unescape]. rewrite H1, H2. cbn [mbind option_bind]. change ("" +:+ s) with s.
  rewrite H3. done.
Qed.
Lemma unescape_escape keep s : (∀ a, keep a = true → a ≠ "%"%char) →
  unescape false (escape keep s) = Some s.
Proof.
  intros Hk. induction s as [|a s IH]; [done|]. cbn [escape]. destruct (keep a) eqn:Ha.
  - change (String a "" +:+ escape keep s) with (String a (escape keep s)).
    rewrite unescape_cons by auto. by rewrite IH.
  - by rewrite unescape_escaped, IH.
Qed.
Lemma PathUnescape_escape s : PathUnescape (PathEscape s) = Some s.
Proof. apply unescape_escape. intros a Ha ->. done. Qed.
Lemma QueryUnescape_escape s : QueryUnescape (QueryEscape s) = Some s.
Proof.
  induction s as [|a s IH]; [done|]. cbn [QueryEscape].
  destruct (Ascii.eqb_spec a " ") as [->|Hs].
  - change ("+" +:+ QueryEscape s) with (String "+" (QueryEscape s)). unfold QueryUnescape in *.
    rewrite unescape_cons by done. by rewrite IH.
  - unfold QueryUnescape in *. destruct (unreserved a) eqn:Ha.
    + change (String a "" +:+ QueryEscape s) with (String a (QueryEscape s)).
      rewrite unescape_cons by (by intros ->). rewrite IH. cbn.
      destruct (Ascii.eqb_spec a "+") as [->|]; done.
    + by rewrite unescape_escaped, IH.
Qed.

(** An escaped text has no byte but those kept and those of escapes. *)
Lemma escape_bytes keep (P : ascii → bool) s :
  (∀ a, keep a = true → P a = true) → (∀ a, all_bytes P (escape_byte a) = true) →
  all_bytes P (escape keep s) = true.
Proof.
  intros Hk He. assert (Happ : ∀ t u, all_bytes P (t +:+ u) = all_bytes P t && all_bytes P u).
  { intros t u. induction t as [|b t IH]; [done|]. rewrite app_cons. cbn. by rewrite IH, andb_assoc. }
  induction s as [|a s IH]; [done|]. cbn [escape]. rewrite Happ, IH, andb_true_r.
  destruct (keep a) eqn:Ha; [cbn; by rewrite Hk|done].
Qed.
Lemma PathEscape_no c s : segment_byte c = false → (∀ a, has_byte c (escape_byte a) = false) →
  has_byte c (PathEscape s) = false.
Proof.
  intros Hc He. apply has_byte_all with (P := λ a, negb (Ascii.eqb a c)); [by rewrite Ascii.eqb_refl|].
  apply escape_bytes.
  - intros a Ha. destruct (Ascii.eqb_spec a c) as [->|]; [congruence|done].
  - intros a. specialize (He a). revert He. unfold escape_byte. cbn.
    rewrite !orb_false_r. intros [H1 [H2 H3]%orb_false_iff]%orb_false_iff. by rewrite H1, H2, H3.
Qed.

(** * The client of the carrier gateway (internal/integrations/carrier)

    The four calls of a code agent on a host, as the requests that are sent and what
    is read from the answers.  The gateway is a parameter: it answers a request with
    a status and a body, given as its text and as the JSON value it parses to. *)

Record CodeAgentInstallInput := mkInstallInput {
  ci_HostID : string;
  ci_AgentID : string;
  ci_Backend : string;
  ci_WorkspaceRoot : string;
}.
Record CodeAgentHealthInput := mkHealthInput {
  ch_HostID : string;
  ch_AgentID : string;
  ch_Backend : string;
  ch_WorkspaceRoot : string;
}.
Record CodeAgentHealthResult := mkHealthResult {
  chr_Backend : string;
  chr_WorkspaceRoot : string;
  chr_Healthy : bool;
}.
Record CodeAgentVersionInput := mkVersionInput {
  cv_HostID : string;
  cv_AgentID : string;
  cv_Backend : string;
}.
Record CodeAgentVersionResult := mkVersionResult {
  cvr_Backend : string;
  cvr_Value : string;
}.
Record CodeAgentRunInput := mkRunInput {
  cr_HostID : string;
  cr_AgentID : string;
  cr_Backend : string;
  cr_WorkspaceRoot : string;
  cr_Capability : string;
  cr_Path : string;
  cr_Content : string;
  cr_WriteMode : string;
  cr_Command : string;
  cr_CWD : string;
  cr_TimeoutSec : Z;
  cr_StdoutPath : string;
  cr_StderrPath : string;
  cr_AppendOutput : bool;
  cr_ResumeSessionID : string;
}.
Record CodeAgentRunOutput := mkRunOutput {
  co_OK : bool;
  co_PolicyDecision : string;
  co_CostEstimateUSD : json;
}.
Record CodeAgentRunResult := mkRunResult {
  crr_Backend : string;
  crr_Result : CodeAgentRunOutput;
}.

(** ** The client *)

Record Client := mkClient { cl_baseURL : string; cl_apiToken : string }.
Definition NewClient (baseURL apiToken : string) : Client :=
  let trimmed := TrimRight "/" (TrimSpace baseURL) in
  mkClient (if String.eqb trimmed "" then "http://127.0.0.1:8787" else trimmed)
    (TrimSpace apiToken).

Definition codeAgentPath (hostID agentID action : string) : string :=
  "/api/v1/remote/hosts/" +:+ PathEscape (TrimSpace hostID) +:+ "/instances/" +:+
  PathEscape (TrimSpace agentID) +:+ "/codeagent/" +:+ action.

(** A call as it goes out: the address after the base, the query not yet encoded. *)
Record Call := mkCall {
  call_Method : string;
  call_Path : string;
  call_Query : list (string * string);
  call_Authorization : string;
  call_Body : option json;
}.
(** The status, the text of the body and the value it parses to. *)
Abbreviation Reply := (result (Z * string * option json)).

Section client.
Context (c : Client) (do : Call → Reply).

Definition authorization : string :=
  if String.eqb (cl_apiToken c) "" then "" else "Bearer " +:+ cl_apiToken c.
Definition gateway_refusal (status : Z) (text : string) : error :=
  Errf ("carrier gateway returned " +:+ pretty status +:+ ": " +:+ TrimSpace text).

Definition doJSON {T} (method path : string) (query : list (string * string))
    (body : option json) (target : list (string * json) → option T) : result T :=
  '(status, text, value) ← do (mkCall method path query authorization body);
  if StatusBadRequest <=? status then Err (gateway_refusal status text)
  else match f ← body_fields value; target f with
       | Some x => Ok x
       | None => Err (Errf "invalid json")
       end.

Definition InstallCodeAgent (input : CodeAgentInstallInput) : result () :=
  '(status, text, _) ← do (mkCall "POST"
    (codeAgentPath (ci_HostID input) (ci_AgentID input) "install") [] authorization
    (Some (JObj [("backend", JStr (ci_Backend input));
                 ("workspaceRoot", JStr (ci_WorkspaceRoot input))])));
  if StatusBadRequest <=? status then Err (gateway_refusal status text) else Ok tt.

Definition unless_blank (key value : string) : list (string * string) :=
  if blank value then [] else [(key, value)].

Definition decode_health (f : list (string * json)) : option CodeAgentHealthResult :=
  h ← object_field "health" f;
  b ← string_field "backend" h; w ← string_field "workspaceRoot" h; ok ← bool_field "healthy" h;
  Some (mkHealthResult b w ok).
Definition GetCodeAgentHealth (input : CodeAgentHealthInput) : result CodeAgentHealthResult :=
  doJSON "GET" (codeAgentPath (ch_HostID input) (ch_AgentID input) "health")
    (unless_blank "backend" (ch_Backend input) ++ unless_blank "workspaceRoot" (ch_WorkspaceRoot input))
    None decode_health.

Definition decode_version (f : list (string * json)) : option CodeAgentVersionResult :=
  v ← object_field "version" f; b ← string_field "backend" v; x ← string_field "value" v;
  Some (mkVersionResult b x).
Definition GetCodeAgentVersion (input : CodeAgentVersionInput) : result CodeAgentVersionResult :=
  doJSON "GET" (codeAgentPath (cv_HostID input) (cv_AgentID input) "version")
    (unless_blank "backend" (cv_Backend input)) None decode_version.

(** A float field: any number. *)
Definition as_number (v : json) : option json :=
  match v with JInt _ | JFloat _ => Some v | _ => None end.
Definition decode_output (f : list (string * json)) : option CodeAgentRunOutput :=
  ok ← bool_field "ok" f; d ← string_field "policy_decision" f;
  cost ← decode_field (JInt 0) as_number "cost_estimate_usd" f; Some (mkRunOutput ok d cost).
Definition decode_run (f : list (string * json)) : option CodeAgentRunResult :=
  run ← object_field "run" f; b ← string_field "backend" run;
  out ← object_field "result" run; out ← decode_output out; Some (mkRunResult b out).
Definition run_body (input : CodeAgentRunInput) : json :=
  JObj [("backend", JStr (cr_Backend input)); ("workspaceRoot", JStr (cr_WorkspaceRoot input));
        ("capability", JStr (cr_Capability input)); ("path", JStr (cr_Path input));
        ("content", JStr (cr_Content input)); ("writeMode", JStr (cr_WriteMode input));
        ("command", JStr (cr_Command input)); ("cwd", JStr (cr_CWD input));
        ("timeoutSec", JInt (cr_TimeoutSec input)); ("stdoutPath", JStr (cr_StdoutPath input));
        ("stderrPath", JStr (cr_StderrPath input)); ("appendOutput", JBool (cr_AppendOutput input));
        ("resumeSessionId", JStr (cr_ResumeSessionID input))].
Definition RunCodeAgent (input : CodeAgentRunInput) : result CodeAgentRunResult :=
  doJSON "POST" (codeAgentPath (cr_HostID input) (cr_AgentID input) "run") []
    (Some (run_body input)) decode_run.
End client.

(** The fields of a run's input in a request body. *)
Definition decode_run_input (f : list (string * json)) : option CodeAgentRunInput :=
  host ← string_field "hostId" f; agent ← string_field "agentId" f;
  backend ← string_field "backend" f; root ← string_field "workspaceRoot" f;
  capability ← string_field "capability" f; path ← string_field "path" f;
  content ← string_field "content" f; mode ← string_field "writeMode" f;
  command ← string_field "command" f; cwd ← string_field "cwd" f;
  timeout ← int_field "timeoutSec" f; out ← string_field "stdoutPath" f;
  err ← string_field "stderrPath" f; append ← bool_field "appendOutput" f;
  resume ← string_field "resumeSessionId" f;
  Some (mkRunInput host agent backend root capability path content mode command cwd timeout
          out err append resume).

(** ** Addresses *)

Lemma escaped_no_slash a : has_byte "/" (escape_byte a) = false.
Proof.
  revert a. assert (H : ∀ a, negb (has_byte "/" (escape_byte a)) = true)
    by (apply all_ascii; vm_compute; reflexivity).
  intros a. by apply negb_true_iff.
Qed.

(**  Whatever text a host and an agent are called by, the address of a call has
    the nine segments it was meant to have, and the host and the agent are read back
    from it: no identifier can redirect a call to another route or host. *)
Theorem agent_address hostID agentID action : has_byte "/" action = false →
  ∃ host agent,
    Split "/" (codeAgentPath hostID agentID action) =
      [""; "api"; "v1"; "remote"; "hosts"; host; "instances"; agent; "codeagent"; action] ∧
    PathUnescape host = Some (TrimSpace hostID) ∧ PathUnescape agent = Some (TrimSpace agentID).
Proof.
  intros Ha. exists (PathEscape (TrimSpace hostID)), (PathEscape (TrimSpace agentID)).
  split; [|split; apply PathUnescape_escape].
  unfold codeAgentPath.
  assert (Hs : ∀ s, has_byte "/" (PathEscape s) = false)
    by (intros s; apply PathEscape_no; [reflexivity|apply escaped_no_slash]).
  change ("/api/v1/remote/hosts/" +:+ ?x) with
    ("" +:+ String "/" ("api" +:+ String "/" ("v1" +:+ String "/" ("remote" +:+ String "/"
       ("hosts" +:+ String "/" x))))).
  rewrite !Split_app by done. do 5 f_equal.
  change ("/instances/" +:+ ?x) with (String "/" ("instances" +:+ String "/" x)).
  rewrite !Split_app by done. do 2 f_equal.
  change ("/codeagent/" +:+ action) with (String "/" ("codeagent" +:+ String "/" action)).
  rewrite !Split_app by done. by rewrite Split_none.
Qed.
Lemma agent_address_witness : has_byte "/" "run" = false ∧ ∃ host agent,
  Split "/" (codeAgentPath " ../x " "a?b" "run") =
    [""; "api"; "v1"; "remote"; "hosts"; host; "instances"; agent; "codeagent"; "run"] ∧
  PathUnescape host = Some (TrimSpace " ../x ") ∧ PathUnescape agent = Some (TrimSpace "a?b").
Proof. split; [done|]. by apply (agent_address " ../x " "a?b" "run"). Defined.
