(* ===== verification/Execution.v ===== *)
(** * The execution service (internal/services/execution), alone and before a gateway

    The service through which carriers reach the platform: it passes events of a
    milestone on to the gateway as settlements and charges, and calls of a code agent
    on to the carrier gateway.

    The gateway and the code agents are functions of the requests sent to them before;
    an answer is a status, a body's text and the JSON value it parses to. *)

From Stdlib Require Import Ascii SpecFloat.
From S2P Require Import Prelude GoNum GoText GoFloat Core GoTime Http CodeAgent RateLimit CarrierService.
From S2P Require Import CarrierEvents Web Funding Milestones Market Repo MemoryRepo App Providers Orders.
From S2P Require Import Bidding Directory Lifecycle SettlementLedger Credit Awards Gateway GatewayOrders.
From S2P Require Import Export GatewayDirectory GatewayCallbacks GatewayServe GatewayAccess GoBytes.

Abbreviation Time := Z (only parsing).

Record carrierEventPayload := mkCarrierEvent {
  cep_OrderID : string;
  cep_MilestoneID : string;
  cep_EventType : string;
  cep_UsageKind : string;
  cep_AmountCents : Z;
  cep_ProofRef : string;
  cep_Summary : string;
}.
Definition decode_carrier_event (f : list (string * json)) : option carrierEventPayload :=
  o ← string_field "orderId" f; m ← string_field "milestoneId" f; e ← string_field "eventType" f;
  k ← string_field "usageKind" f; a ← int_field "amountCents" f; p ← string_field "proofRef" f;
  s ← string_field "summary" f; Some (mkCarrierEvent o m e k a p s).

(** The calls of the code agent interface. *)
Inductive AgentCall :=
  | HealthCall (input : CodeAgentHealthInput)
  | VersionCall (input : CodeAgentVersionInput)
  | RunCall (input : CodeAgentRunInput).

(** [xc_gateway] is the HTTP client towards the service at [upstream]. *)
Record ExecutionConfig := mkExecutionConfig {
  xc_inboundTokens : TokenSet;
  xc_gatewayToken : string;
  xc_gateway : list Request → Request → Reply;
  xc_health : list AgentCall → CodeAgentHealthInput → result CodeAgentHealthResult;
  xc_version : list AgentCall → CodeAgentVersionInput → result CodeAgentVersionResult;
  xc_run : list AgentCall → CodeAgentRunInput → result CodeAgentRunResult;
  xc_now : nat → Time;
}.
Record ExecutionServer := mkExecutionServer {
  xs_sent : list Request;
  xs_agent_calls : list AgentCall;
  xs_ticks : nat;
}.
#[export] Instance ExecutionServer_eta : Eta ExecutionServer := λ s,
  mkExecutionServer (xs_sent s) (xs_agent_calls s) (xs_ticks s).
Definition fresh_server : ExecutionServer := mkExecutionServer [] [] 0.

(** Values decoded into [any]: a number beyond 2^53 becomes the nearest float. *)
Fixpoint any_value (v : json) : json :=
  match v with
  | JInt z => if Z.abs z <=? 2 ^ 53 then JInt z else JFloat (f64_of_int z)
  | JArr l => JArr (any_value <$> l)
  | JObj fields => JObj ((λ f, (f.1, any_value f.2)) <$> fields)
  | _ => v
  end.

Definition actionForEvent (eventType : string) : string :=
  if String.eqb eventType "budget_low" then "pause"
  else if String.eqb eventType "milestone_ready" then "settle"
  else if String.eqb eventType "usage_reported" then "continue"
  else "continue".

Definition order_route (orderID milestoneID action : string) : string :=
  "/api/v1/orders/" +:+ orderID +:+ "/milestones/" +:+ milestoneID +:+ "/" +:+ action.

Abbreviation Answer := (Response json).
Definition write (status : Z) (body : json) : Answer := mkResponse status body.
Definition refusal (status : Z) (reason : string) : Answer :=
  write status (JObj [("error", JStr reason)]).
Definition bad_gateway (e : error) : Answer := refusal StatusBadGateway (error_text e).

Section server.
Context (c : ExecutionConfig).
Abbreviation X := (ST ExecutionServer).

Definition time_now : X Time := λ s, (s <| xs_ticks ::= S |>, Ok (xc_now c (xs_ticks s))).

(** [postJSON]: the request line holds the path as it was put together; the value of
    the answer is handed to [target]. *)
Definition postJSON {T} (path : string) (payload : json) (target : option json → option T) : X T :=
  match parse_target path with
  | None => throw (Errf "invalid URL")
  | Some (path, values) =>
      let token := TrimSpace (xc_gatewayToken c) in
      let r := mkRequest "POST" path
        (λ h, if String.eqb h "Content-Type" then "application/json"
              else if String.eqb h "Accept" then "application/json"
              else if String.eqb h HeaderName then token else "")
        values (Some payload) "" in
      λ s, (s <| xs_sent ::= (λ l, l ++ [r]) |>,
        '(status, text, body) ← xc_gateway c (xs_sent s) r;
        if StatusBadRequest <=? status
        then Err (Errf ("gateway returned " +:+ pretty status +:+ ": " +:+ text))
        else match target body with Some x => Ok x | None => Err (Errf "invalid json") end)
  end.

(** [map[string]any] *)
Definition target_map (body : option json) : option json :=
  v ← body; match v with JObj _ => Some (any_value v) | JNull => Some JNull | _ => None end.
(** [struct { Order struct { Status string } }] *)
Definition target_order (body : option json) : option string :=
  f ← body_fields body; order ← object_field "order" f; string_field "status" order.

Definition recommended (type : string) (now : Time) : json :=
  JObj [("type", JStr type); ("timestamp", JStr (FormatRFC3339Nano now))].
Definition event_result (action : json) (continueAllowed : bool) (rest : list (string * json)) : json :=
  JObj ([("accepted", JBool true); ("recommendedAction", action);
         ("continueAllowed", JBool continueAllowed)] ++ rest).

Definition handleCarrierEvent (payload : carrierEventPayload) : X json :=
  now ← time_now;
  let action := recommended (actionForEvent (cep_EventType payload)) now in
  let route := order_route (cep_OrderID payload) (cep_MilestoneID payload) in
  if String.eqb (cep_EventType payload) "milestone_ready" then
    response ← postJSON (route "settle")
      (JObj [("milestoneId", JStr (cep_MilestoneID payload)); ("summary", JStr (cep_Summary payload));
             ("source", JStr "carrier")]) target_map;
    mret (event_result action true [("result", response)])
  else if String.eqb (cep_EventType payload) "usage_reported" then
    status ← postJSON (route "usage")
      (JObj [("kind", JStr (cep_UsageKind payload)); ("amountCents", JInt (cep_AmountCents payload));
             ("proofRef", JStr (cep_ProofRef payload))]) target_order;
    let result := [("result", JObj [("order", JObj [("status", JStr status)])])] in
    if negb (String.eqb status (order_status_string OrderStatusAwaitingBudget))
    then mret (event_result action true result)
    else now ← time_now; mret (event_result (recommended "pause" now) false result)
  else if String.eqb (cep_EventType payload) "budget_low" then mret (event_result action false [])
  else mret (event_result action true []).

(** A call of the agent with the calls made before. *)
Definition call_agent {T} (call : AgentCall) (answer : list AgentCall → result T) : X T :=
  λ s, (s <| xs_agent_calls ::= (λ l, l ++ [call]) |>, answer (xs_agent_calls s)).
Definition missing_fields : Answer := refusal StatusBadRequest "missing required fields".

Definition handleCodeAgentHealth (r : Request) : X Answer :=
  let input := mkHealthInput (rq_Query r "hostId") (rq_Query r "agentId") (rq_Query r "backend")
                 (rq_Query r "workspaceRoot") in
  if String.eqb (ch_HostID input) "" || String.eqb (ch_AgentID input) "" then mret missing_fields
  else
    let? h := call_agent (HealthCall input) (λ l, xc_health c l input) orelse bad_gateway in
    mret (write StatusOK (JObj [("health", JObj
      [("backend", JStr (chr_Backend h)); ("workspaceRoot", JStr (chr_WorkspaceRoot h));
       ("healthy", JBool (chr_Healthy h))])])).

Definition handleCodeAgentVersion (r : Request) : X Answer :=
  let input := mkVersionInput (rq_Query r "hostId") (rq_Query r "agentId") (rq_Query r "backend") in
  if String.eqb (cv_HostID input) "" || String.eqb (cv_AgentID input) "" then mret missing_fields
  else
    let? v := call_agent (VersionCall input) (λ l, xc_version c l input) orelse bad_gateway in
    mret (write StatusOK (JObj [("version", JObj
      [("backend", JStr (cvr_Backend v)); ("value", JStr (cvr_Value v))])])).

Definition output_json (out : CodeAgentRunOutput) : json :=
  JObj ([("ok", JBool (co_OK out)); ("policy_decision", JStr (co_PolicyDecision out))]
        ++ match co_CostEstimateUSD out with
           | JInt 0 | JFloat (S754_zero _) => []
           | cost => [("cost_estimate_usd", cost)]
           end).
Definition handleCodeAgentRun (r : Request) : X Answer :=
  match f ← body_fields (rq_Body r); decode_run_input f with
  | None => mret (refusal StatusBadRequest "invalid json")
  | Some input =>
      if String.eqb (cr_HostID input) "" || String.eqb (cr_AgentID input) ""
         || String.eqb (cr_Capability input) "" then mret missing_fields
      else
        let? run := call_agent (RunCall input) (λ l, xc_run c l input) orelse bad_gateway in
        mret (write StatusOK (JObj [("run", JObj
          [("backend", JStr (crr_Backend run)); ("result", output_json (crr_Result run))])]))
  end.

Definition ServeHTTP (r : Request) : X Answer :=
  let asks method path := String.eqb (rq_Method r) method && String.eqb (rq_Path r) path in
  if String.eqb (rq_Path r) "/healthz"
  then mret (write StatusOK (JObj [("status", JStr "ok"); ("service", JStr "execution")]))
  else if asks "GET" "/v1/carrier/codeagent/health" then handleCodeAgentHealth r
  else if asks "GET" "/v1/carrier/codeagent/version" then handleCodeAgentVersion r
  else if asks "POST" "/v1/carrier/codeagent/run" then handleCodeAgentRun r
  else if asks "POST" "/v1/carrier/events" then
    if negb (MatchesRequest (xc_inboundTokens c) r) then mret (refusal StatusUnauthorized "unauthorized")
    else match f ← body_fields (rq_Body r); decode_carrier_event f with
         | None => mret (refusal StatusBadRequest "invalid json")
         | Some payload =>
             let? response := handleCarrierEvent payload orelse bad_gateway in
             mret (write StatusOK response)
         end
  else mret (write StatusNotFound JNull).
End server.

(** A client of the carrier gateway as the agent of the service. *)
Definition agent_config (tokens : TokenSet) (gatewayToken : string)
    (gateway : list Request → Request → Reply) (client : Client)
    (do : list AgentCall → Call → Reply) (now : nat → Time) : ExecutionConfig :=
  mkExecutionConfig tokens gatewayToken gateway
    (λ l, GetCodeAgentHealth client (do l)) (λ l, GetCodeAgentVersion client (do l))
    (λ l, RunCodeAgent client (do l)) now.

(** * What carriers reach through the execution service

    The execution service in front of the gateway: an event of a carrier is the
    settlement or the charge it announces, and the answer tells the carrier to stop
    exactly when the order waits for budget.  Who is let through, and what is not
    checked. *)

(** ** Paths of orders *)

Lemma TrimRight_last c s d : d ≠ c → TrimRight c (s +:+ String d "") = s +:+ String d "".
Proof.
  intros Hd. unfold TrimRight. rewrite rev_app_string. change (String.rev (String d "")) with (String d "").
  rewrite app_cons. cbn [trim_left]. destruct (Ascii.eqb_spec d c) as [|_]; [done|].
  rewrite rev_cons. change ("" +:+ String.rev s) with (String.rev s). by rewrite rev_rev.
Qed.

(** An identifier that passes through a path unchanged. *)
Definition plain (id : string) : Prop := all_bytes unreserved id = true.
Lemma plain_no c id : unreserved c = false → plain id → has_byte c id = false.
Proof. intros Hc Hid. by apply (has_byte_all _ unreserved). Qed.
Lemma unescape_plain s : all_bytes (λ a, unreserved a || Ascii.eqb a "/") s = true →
  PathUnescape s = Some s.
Proof.
  unfold PathUnescape. induction s as [|a s IH]; [done|]. cbn [all_bytes].
  intros [Ha Hs]%andb_true_iff. rewrite unescape_cons by (intros ->; done). by rewrite IH.
Qed.
Lemma unreserved_visible a : unreserved a || Ascii.eqb a "/" = true → negb (control_byte a) = true.
Proof.
  assert (H := all_ascii (λ a, negb (unreserved a || Ascii.eqb a "/") || negb (control_byte a))
                 ltac:(vm_compute; reflexivity) a).
  intros Ha. cbn beta in H. rewrite Ha in H. exact H.
Qed.
Lemma order_route_target o m action : plain o → plain m → plain action →
  ∃ values, parse_target (order_route o m action) = Some (order_route o m action, values).
Proof.
  intros Ho Hm Ha.
  assert (Hall : all_bytes (λ a, unreserved a || Ascii.eqb a "/") (order_route o m action) = true).
  { assert (Hp : ∀ s, plain s → all_bytes (λ a, unreserved a || Ascii.eqb a "/") s = true).
    { intros s. apply all_bytes_impl. by intros a ->. }
    unfold order_route. by rewrite !all_bytes_app, (Hp o Ho), (Hp m Hm), (Hp action Ha). }
  assert (Hno : ∀ c, unreserved c || Ascii.eqb c "/" = false → has_byte c (order_route o m action) = false)
    by (intros c Hc; exact (has_byte_all _ _ _ Hc Hall)).
  unfold parse_target. rewrite !cut_at_none by (by apply Hno).
  rewrite (all_bytes_impl _ _ _ unreserved_visible Hall). cbn [negb].
  rewrite (unescape_plain _ Hall). by eexists.
Qed.

Lemma order_route_segments o m action : plain o → plain m → plain action → action ≠ "" →
  segments (order_route o m action) = ["api"; "v1"; "orders"; o; "milestones"; m; action].
Proof.
  intros Ho Hm Ha Hne. unfold segments, Trim, order_route.
  change (trim_left "/" ("/api/v1/orders/" +:+ ?x)) with ("api/v1/orders/" +:+ x).
  assert (Hlast : ∃ t d, action = t +:+ String d "" ∧ d ≠ "/"%char).
  { clear -Ha Hne. destruct action as [|b action]; [done|]. clear Hne. revert b Ha. unfold plain.
    induction action as [|b' action IH]; intros b; cbn [all_bytes].
    - rewrite andb_true_r. intros Hb. exists "", b. split; [done|]. by intros ->.
    - intros [Hb Hs]%andb_true_iff. destruct (IH b' Hs) as (t & d & -> & Hd).
      exists (String b t), d. done. }
  destruct Hlast as (t & d & Hact & Hd).
  replace ("api/v1/orders/" +:+ o +:+ "/milestones/" +:+ m +:+ "/" +:+ action)
    with (("api/v1/orders/" +:+ o +:+ "/milestones/" +:+ m +:+ "/" +:+ t) +:+ String d "")
    by (rewrite Hact, <- !string_app_assoc; done).
  rewrite TrimRight_last by done. rewrite <- !string_app_assoc, <- Hact.
  assert (Hs : ∀ s, plain s → has_byte "/" s = false) by (intros s; by apply plain_no).
  change ("api/v1/orders/" +:+ ?x) with
    ("api" +:+ String "/" ("v1" +:+ String "/" ("orders" +:+ String "/" x))).
  change ("/milestones/" +:+ ?x) with (String "/" ("milestones" +:+ String "/" x)).
  change ("/" +:+ action) with (String "/" action).
  rewrite !Split_app by (done || by apply Hs). by rewrite Split_none by (by apply Hs).
Qed.

(** ** Routing *)

Section gateway.
Context `{Storage} `{MO : MapOrder} {L : Type} (c : GatewayConfig L).
Context (SortFunc : (Listing → Listing → Z) → list Listing → list Listing).
Abbreviation G := (ST (Gateway L)).

(** The first route that fits is the one, when every route that fits is handled alike. *)
Lemma routed r (h : G Gateway.Answer) : existsb (fits r) (routes c SortFunc) = true →
  Forall (λ rt, fits r rt = true → rt_Handler rt r = h) (routes c SortFunc) →
  GatewayServe.serve c SortFunc r = h.
Proof.
  intros (rt' & Hin & Hf)%existsb_elem Hall. unfold GatewayServe.serve.
  destruct (List.find _ _) as [rt|] eqn:Hrt.
  - apply List.find_some in Hrt as [Hin'%list_elem_of_In Hf'].
    by apply (proj1 (Forall_forall _ _) Hall rt Hin').
  - apply list_elem_of_In in Hin. pose proof (List.find_none _ _ Hrt _ Hin). congruence.
Qed.

Ltac only_route Hm Hp rt :=
  apply routed;
  [ apply existsb_elem; exists rt; split;
    [ unfold routes; repeat first [left; reflexivity | right]
    | unfold fits; rewrite Hm; exact Hp ]
  | unfold routes; repeat (apply Forall_cons; split); [..|by apply Forall_nil];
    intros Hf; first [reflexivity | exfalso; unfold fits in Hf; rewrite Hm in Hf;
      cbv [rt_Method rt_Fits get_ post patch] in Hf; apply andb_prop in Hf as [Hf1 Hf];
      try discriminate Hf1; path_facts Hp; try (apply orb_true_iff in Hf as [Hf|Hf]);
      path_facts Hf; conflict] ].
Lemma settle_routed r : rq_Method r = "POST" → isOrderSettlePath (rq_Path r) = true →
  GatewayServe.serve c SortFunc r = handleSettleMilestone c r.
Proof.
  intros Hm Hp. only_route Hm Hp (post isOrderSettlePath (handleSettleMilestone c)).
Qed.
Lemma usage_routed r : rq_Method r = "POST" → isOrderUsagePath (rq_Path r) = true →
  GatewayServe.serve c SortFunc r = handleRecordUsage c r.
Proof.
  intros Hm Hp. only_route Hm Hp (post isOrderUsagePath (handleRecordUsage c)).
Qed.

(** ** The gateway as the service's upstream *)

(** The fields of an order in an answer; the milestones, which the service does not
    look at, are left out. *)
Definition order_json (o : Order) : json :=
  JObj [("id", JStr (o_ID o)); ("buyerOrgId", JStr (o_BuyerOrgID o));
        ("providerOrgId", JStr (o_ProviderOrgID o)); ("status", JStr (order_status_string (o_Status o)))].
Definition body_json (body : GatewayBody) : json :=
  match body with
  | GSettled o _ | GUsage o _ => JObj [("order", order_json o)]
  | GError _ e => JObj [("error", JStr (error_text e))]
  | _ => JNull
  end.
Definition reply_of (a : Gateway.Answer) : Reply := Ok (rs_Status a, "", Some (body_json (rs_Body a))).
Definition gateway_upstream (g0 : Gateway L) (sent : list Request) (r : Request) : Reply :=
  a ← (GatewayServe.ServeHTTP c SortFunc r (serve_all c SortFunc sent g0)).2; reply_of a.

Section composed.
Context (x : ExecutionConfig) (g0 : Gateway L).
Context (Hup : xc_gateway x = gateway_upstream g0).
(** The gateway accepts the token the service sends. *)
Context (Htoken : TokenSet_Empty (gc_executionTokens c) = true ∨
                  TrimSpace (xc_gatewayToken x) ∈ ts_values (gc_executionTokens c)).

Definition gateway_of (s : ExecutionServer) : Gateway L := serve_all c SortFunc (xs_sent s) g0.

(** The request the service sends for a path. *)
Definition outgoing (path : string) (values : string → list string) (payload : json) : Request :=
  mkRequest "POST" path
    (λ h, if String.eqb h "Content-Type" then "application/json"
          else if String.eqb h "Accept" then "application/json"
          else if String.eqb h HeaderName then TrimSpace (xc_gatewayToken x) else "")
    values (Some payload) "".

Lemma outgoing_authorized path values payload (g : Gateway L) :
  authorizeExecutionMutation c (outgoing path values payload) g = (g, Ok tt).
Proof.
  unfold authorizeExecutionMutation, MatchesRequest.
  destruct (TokenSet_Empty (gc_executionTokens c)) eqn:He; [done|]. cbn [orb].
  rewrite bool_decide_true; [done|]. destruct Htoken as [Ht|Ht]; [congruence|].
  change (rq_Header _ HeaderName) with (TrimSpace (xc_gatewayToken x)). by rewrite TrimSpace_idem.
Qed.

Lemma gateway_error_status e : (StatusBadRequest <=? rs_Status (gateway_error e)) = true.
Proof.
  unfold gateway_error, writeGatewayError. by repeat (destruct (existsb _ _); [done|]).
Qed.

Lemma plain_paths o m : plain o → plain m →
  orderMilestoneFromSettlePath (order_route o m "settle") = Ok (o, m) ∧
  orderMilestoneFromUsagePath (order_route o m "usage") = Ok (o, m).
Proof.
  intros Ho Hm. unfold orderMilestoneFromSettlePath, orderMilestoneFromUsagePath.
  by rewrite !order_route_segments.
Qed.

(** What a settlement sent by the service does at the gateway. *)
Lemma settle_sent o m values summary g : plain o → plain m →
  let q := outgoing (order_route o m "settle") values
    (JObj [("milestoneId", JStr m); ("summary", JStr summary); ("source", JStr "carrier")]) in
  let run := SettleMilestone o (mkSettleMilestoneInput m summary "carrier" (gc_now c (gw_ticks g)))
               (gw_app g) in
  ∃ g', GatewayServe.ServeHTTP c SortFunc q g =
    (g', Ok (match run.2 with
             | Ok (order, entry) => ok (GSettled order entry)
             | Err e => gateway_error e
             end)) ∧ gw_app g' = run.1.
Proof.
  intros Ho Hm. destruct (plain_paths o m Ho Hm) as [Hp _]. cbv zeta.
  rewrite ServeHTTP_eq, settle_routed; [|done|by unfold isOrderSettlePath; cbn [rq_Path outgoing]; rewrite Hp].
  unfold handleSettleMilestone. rewrite or_respond_eq, outgoing_authorized, or_respond_eq.
  cbn [rq_Path outgoing]. unfold lift. rewrite Hp, or_respond_eq.
  change (decode decode_settle _) with (Ok (summary, "carrier")). unfold mbind, st_bind, Gateway.time_now.
  rewrite or_respond_eq. unfold on_app, zoom.
  change (gw_app (g <| gw_actor := None |> <| gw_ticks ::= S |>)) with (gw_app g).
  change (gw_ticks (g <| gw_actor := None |>)) with (gw_ticks g). cbn [fst snd].
  destruct (SettleMilestone _ _ _) as [app' [[order entry]|e]]; by eexists.
Qed.
Lemma usage_sent o m values kind cents ref g : plain o → plain m → in64 cents →
  let q := outgoing (order_route o m "usage") values
    (JObj [("kind", JStr kind); ("amountCents", JInt cents); ("proofRef", JStr ref)]) in
  let run := RecordUsageCharge o (mkRecordUsageChargeInput m kind cents ref "" "") (gw_app g) in
  ∃ g', GatewayServe.ServeHTTP c SortFunc q g =
    (g', Ok (match run.2 with
             | Ok (order, charge) => ok (GUsage order charge)
             | Err e => gateway_error e
             end)) ∧ gw_app g' = run.1.
Proof.
  intros Ho Hm Hc. destruct (plain_paths o m Ho Hm) as [_ Hp]. cbv zeta.
  rewrite ServeHTTP_eq, usage_routed; [|done|by unfold isOrderUsagePath; cbn [rq_Path outgoing]; rewrite Hp].
  unfold handleRecordUsage. rewrite or_respond_eq, outgoing_authorized, or_respond_eq.
  cbn [rq_Path outgoing]. unfold lift. rewrite Hp, or_respond_eq.
  replace (decode (decode_usage _) _) with (Ok (mkRecordUsageChargeInput m kind cents ref "" "")).
  2: { unfold decode, decode_usage. cbn -[in64]. by rewrite bool_decide_true. }
  rewrite or_respond_eq. unfold on_app, zoom.
  change (gw_app (g <| gw_actor := None |>)) with (gw_app g). cbn [fst].
  destruct (RecordUsageCharge _ _ _) as [app' [[order charge]|e]]; by eexists.
Qed.

(** What the service makes of the gateway's answer. *)
Lemma post_sent {T} o m action payload (target : option json → option T) s :
  plain o → plain m → plain action →
  ∃ values s', let served := GatewayServe.ServeHTTP c SortFunc
      (outgoing (order_route o m action) values payload) (gateway_of s) in
    postJSON x (order_route o m action) payload target s =
      (s', '(status, text, body) ← (a ← served.2; reply_of a);
       if StatusBadRequest <=? status
       then Err (Errf ("gateway returned " +:+ pretty status +:+ ": " +:+ text))
       else match target body with Some x => Ok x | None => Err (Errf "invalid json") end) ∧
    gateway_of s' = served.1.
Proof.
  intros Ho Hm Ha. destruct (order_route_target o m action Ho Hm Ha) as [values Ht].
  assert (Hs : ∀ q, gateway_of (s <| xs_sent ::= (λ l, l ++ [q]) |>) =
                    (GatewayServe.ServeHTTP c SortFunc q (gateway_of s)).1).
  { intros q. unfold gateway_of at 1. change (xs_sent (s <| xs_sent ::= _ |>)) with (xs_sent s ++ [q]).
    unfold serve_all. by rewrite foldl_app. }
  exists values. unfold postJSON. rewrite Ht, Hup. eexists. split; [reflexivity|apply Hs].
Qed.

(** A decoded field has what its decoder ensures. *)
Lemma decode_field_ensures {T} (P : T → Prop) zero dec key f t :
  P zero → (∀ v t, dec v = Some t → P t) → decode_field zero dec key f = Some t → P t.
Proof.
  intros Hz Hd. unfold decode_field.
  assert (Hgen : ∀ acc, (∀ t, acc = Some t → P t) → ∀ t,
    foldl (λ acc f, old ← acc; if EqualFold f.1 key
      then match f.2 with JNull => Some old | v => dec v end else Some old) acc f = Some t → P t).
  { induction f as [|[k v] f IH]; intros acc Hacc u; cbn [foldl]; [apply Hacc|].
    apply IH. intros u'. destruct acc as [old|]; [|done]. cbn [mbind option_bind fst snd].
    destruct (EqualFold k key); [|apply Hacc]. destruct v; try apply Hd. intros [= <-]. by apply Hacc. }
  apply Hgen. by intros t' [= <-].
Qed.
Lemma decoded_amount body p : (f ← body_fields body; decode_carrier_event f) = Some p →
  in64 (cep_AmountCents p).
Proof.
  destruct (body_fields body) as [f|]; [|done]. cbn [mbind option_bind]. unfold decode_carrier_event.
  repeat match goal with |- ?m ≫= _ = _ → _ => destruct m eqn:?; cbn [mbind option_bind]; [|by intros ?] end.
  intros [= <-]. cbn [cep_AmountCents].
  match goal with Hn : int_field _ _ = Some _ |- _ => rename Hn into Hamount end.
  eapply (decode_field_ensures in64 0); [done| |exact Hamount].
  intros v t. unfold as_int. destruct v; try done. case_bool_decide; [by intros [= <-]|done].
Qed.

Lemma events_served r s p :
  rq_Method r = "POST" → rq_Path r = "/v1/carrier/events" →
  MatchesRequest (xc_inboundTokens x) r = true →
  (f ← body_fields (rq_Body r); decode_carrier_event f) = Some p →
  Execution.ServeHTTP x r s =
  match handleCarrierEvent x p s with
  | (s', Ok v) => (s', Ok (write StatusOK v))
  | (s', Err e) => (s', Ok (bad_gateway e))
  end.
Proof.
  destruct r as [method path hdr values body raw]. cbn [rq_Method rq_Path]. intros -> -> Htok Hdec.
  unfold Execution.ServeHTTP. rewrite Htok, Hdec. apply (or_respond_eq (handleCarrierEvent x p)).
Qed.

(** What becomes of the platform, and what the carrier is told, after an event. *)
Definition acted_on (p : carrierEventPayload) (s s' : ExecutionServer) (a : Execution.Answer) : Prop :=
  let o := cep_OrderID p in let m := cep_MilestoneID p in
  let g := gateway_of s in
  let continues b := rs_Status a = StatusOK ∧
    (f ← as_object (rs_Body a); bool_field "continueAllowed" f) = Some b in
  if String.eqb (cep_EventType p) "milestone_ready" then
    let run := SettleMilestone o (mkSettleMilestoneInput m (cep_Summary p) "carrier"
                 (gc_now c (gw_ticks g))) (gw_app g) in
    gw_app (gateway_of s') = run.1 ∧
    if is_ok run.2 then continues true else rs_Status a = StatusBadGateway
  else if String.eqb (cep_EventType p) "usage_reported" then
    let run := RecordUsageCharge o (mkRecordUsageChargeInput m (cep_UsageKind p)
                 (cep_AmountCents p) (cep_ProofRef p) "" "") (gw_app g) in
    gw_app (gateway_of s') = run.1 ∧
    match run.2 with
    | Ok (order, _) => continues (negb (bool_decide (o_Status order = OrderStatusAwaitingBudget)))
    | Err _ => rs_Status a = StatusBadGateway
    end
  else gateway_of s' = g ∧ continues (negb (String.eqb (cep_EventType p) "budget_low")).

(** C26. An event that the service accepts, whose order and milestone ids are plain (they
    hold nothing with a meaning in an address), is acted on as it says, on the platform
    the gateway is in front of: a finished milestone is settled as the carrier's, a report
    of usage is charged, and nothing else reaches the platform.  The carrier is told
    502 when the platform refuses, and otherwise may continue, except with a budget
    that runs low, or with a charge that leaves the order waiting for budget. *)
Theorem carrier_events_act_on_the_order r s s' a p :
  rq_Method r = "POST" → rq_Path r = "/v1/carrier/events" →
  MatchesRequest (xc_inboundTokens x) r = true →
  (f ← body_fields (rq_Body r); decode_carrier_event f) = Some p →
  plain (cep_OrderID p) → plain (cep_MilestoneID p) →
  Execution.ServeHTTP x r s = (s', Ok a) → acted_on p s s' a.
Proof.
  intros Hmethod Hpath Htok Hdec Ho Hm. rewrite (events_served _ _ _ Hmethod Hpath Htok Hdec).
  unfold acted_on, handleCarrierEvent. unfold mbind at 1, st_bind at 1. unfold Execution.time_now at 1.
  set (s1 := s <| xs_ticks ::= S |>). change (gateway_of s) with (gateway_of s1). cbv zeta.
  destruct (String.eqb (cep_EventType p) "milestone_ready").
  { unfold mbind at 1, st_bind at 1.
    destruct (post_sent (cep_OrderID p) (cep_MilestoneID p) "settle"
      (JObj [("milestoneId", JStr (cep_MilestoneID p)); ("summary", JStr (cep_Summary p));
             ("source", JStr "carrier")]) target_map s1 Ho Hm eq_refl) as (values & s2 & Hpost & Hg).
    rewrite Hpost. clear Hpost.
    destruct (settle_sent (cep_OrderID p) (cep_MilestoneID p) values (cep_Summary p)
      (gateway_of s1) Ho Hm) as (g' & Hserve & Happ).
    rewrite Hserve in Hg |- *. cbn [fst snd] in Hg |- *.
    destruct (SettleMilestone _ _ _) as [app' [[order entry]|e]]; cbn [fst snd is_ok] in *.
    - intros [= <- <-]. rewrite Hg. by split_and!.
    - unfold mbind at 1 2, result_bind at 1 2, reply_of. rewrite gateway_error_status.
      intros [= <- <-]. by rewrite Hg. }
  destruct (String.eqb (cep_EventType p) "usage_reported").
  { unfold mbind at 1, st_bind at 1.
    destruct (post_sent (cep_OrderID p) (cep_MilestoneID p) "usage"
      (JObj [("kind", JStr (cep_UsageKind p)); ("amountCents", JInt (cep_AmountCents p));
             ("proofRef", JStr (cep_ProofRef p))]) target_order s1 Ho Hm eq_refl)
      as (values & s2 & Hpost & Hg).
    rewrite Hpost. clear Hpost.
    edestruct (usage_sent (cep_OrderID p) (cep_MilestoneID p) values (cep_UsageKind p)
      (cep_AmountCents p) (cep_ProofRef p) (gateway_of s1) Ho Hm) as (g' & Hserve & Happ).
    { by eapply decoded_amount. }
    rewrite Hserve in Hg |- *. cbn [fst snd] in Hg |- *.
    destruct (RecordUsageCharge _ _ _) as [app' [[order charge]|e]]; cbn [fst snd is_ok] in *.
    - unfold mbind at 1 2, result_bind at 1 2, reply_of, ok, answer.
      cbn [rs_Status rs_Body body_json]. change (StatusBadRequest <=? StatusOK) with false. cbv iota.
      change (target_order _) with (Some (order_status_string (o_Status order))). cbv iota.
      destruct (o_Status order); intros [= <- <-]; try rewrite <- Hg in Happ; by split_and!.
    - unfold mbind at 1 2, result_bind at 1 2, reply_of. rewrite gateway_error_status.
      intros [= <- <-]. by rewrite Hg. }
  destruct (String.eqb (cep_EventType p) "budget_low"); intros [= <- <-]; by split_and!.
Qed.
End composed.
End gateway.

(** ** Who is let through *)

(**  Events need a token of the service once one is configured: a request without
    one is answered 401, and nothing is sent and nothing changes.  The calls of code
    agents do not: whatever tokens are configured and whatever headers a request has,
    a complete request to run a capability is handed to the agent. *)
Theorem events_need_a_token_agents_do_not (x : ExecutionConfig) r s :
  rq_Method r = "POST" →
  (rq_Path r = "/v1/carrier/events" → TokenSet_Empty (xc_inboundTokens x) = false →
   TrimSpace (rq_Header r HeaderName) ∉ ts_values (xc_inboundTokens x) →
   Execution.ServeHTTP x r s = (s, Ok (Execution.refusal StatusUnauthorized "unauthorized"))) ∧
  (∀ input, rq_Path r = "/v1/carrier/codeagent/run" →
   (f ← body_fields (rq_Body r); decode_run_input f) = Some input →
   cr_HostID input ≠ "" → cr_AgentID input ≠ "" → cr_Capability input ≠ "" →
   ∃ a, Execution.ServeHTTP x r s =
     (s <| xs_agent_calls ::= (λ l, l ++ [RunCall input]) |>, Ok a) ∧
     (rs_Status a = StatusOK ↔ is_ok (xc_run x (xs_agent_calls s) input) = true)).
Proof.
  destruct r as [method path hdr values body raw]. cbn [rq_Method rq_Path]. intros ->. split.
  - intros -> He Hn. unfold Execution.ServeHTTP, MatchesRequest.
    change (String.eqb _ "/healthz") with false. rewrite He, bool_decide_false by done. done.
  - intros input -> Hd H1 H2 H3.
    set (r := mkRequest _ _ _ _ _ _) in *. change (Execution.ServeHTTP x r s) with (handleCodeAgentRun x r s).
    unfold handleCodeAgentRun. rewrite Hd, !(proj2 (String.eqb_neq _ _)) by done. cbn [orb].
    rewrite or_respond_eq. unfold call_agent.
    destruct (xc_run x (xs_agent_calls s) input) as [out|e]; eexists; by split.
Qed.

(** ** A gateway behind the service *)

Definition funded_gateway : Gateway () := (demo_serve first_order demo_gateway).1.
Definition demo_execution : ExecutionConfig :=
  mkExecutionConfig (NewTokenSet ["carrier"]) "exec"
    (gateway_upstream (MO := plain_order) demo_config (λ _ l, l) funded_gateway)
    (λ _ _, Err (Errf "no agent")) (λ _ _, Err (Errf "no agent")) (λ _ _, Err (Errf "no agent"))
    (λ n, Z.of_nat n).
Definition event_request (event milestone : string) (cents : Z) : Request :=
  mkRequest "POST" "/v1/carrier/events" (λ h, if String.eqb h HeaderName then "carrier" else "")
    (λ _, []) (Some (JObj [("orderId", JStr "ord_1"); ("milestoneId", JStr milestone);
      ("eventType", JStr event); ("usageKind", JStr "step"); ("amountCents", JInt cents);
      ("proofRef", JStr "p"); ("summary", JStr "done")])) "".
Definition after_event (r : Request) : ExecutionServer * result Execution.Answer :=
  Execution.ServeHTTP demo_execution r fresh_server.
Definition order_after (r : Request) : result (OrderStatus * list MilestoneState) :=
  let g := serve_all (MO := plain_order) demo_config (λ _ l, l) (xs_sent (after_event r).1) funded_gateway in
  order ← order_Get "ord_1" (orders (gw_app g));
  Ok (o_Status order, ms_State <$> o_Milestones order).

Example demo_events :
  order_after (event_request "milestone_ready" "ms_1" 0) = Ok (OrderStatusCompleted, [MilestoneStateSettled]) ∧
  order_after (event_request "usage_reported" "ms_1" 1500) = Ok (OrderStatusAwaitingBudget, [MilestoneStatePaused]).
Proof. vm_compute. done. Qed.

(**  The identifiers of an event are put into the address of the gateway as they
    are: a report of usage of the milestone [ms_1/settle?] settles the milestone
    [ms_1]. *)
Theorem usage_report_settles :
  order_after (event_request "usage_reported" "ms_1/settle?" 1) = Ok (OrderStatusCompleted, [MilestoneStateSettled]).
Proof. vm_compute. reflexivity. Qed.

Lemma carrier_events_act_on_the_order_witness :
  let r := event_request "usage_reported" "ms_1" 1500 in
  ∃ a p, (after_event r).2 = Ok a ∧ rs_Status a = StatusOK ∧
    acted_on (MO := plain_order) demo_config (λ _ l, l) funded_gateway p fresh_server (after_event r).1 a.
Proof.
  intros r.
  assert (Hr : ∃ a, (after_event r).2 = Ok a ∧ rs_Status a = StatusOK)
    by (eexists; split; vm_compute; reflexivity).
  destruct Hr as (a & Ha & Hst).
  exists a, (mkCarrierEvent "ord_1" "ms_1" "usage_reported" "step" 1500 "p" "done").
  split_and!; [done..|].
  assert (Htok : TrimSpace (xc_gatewayToken demo_execution) ∈ ts_values (gc_executionTokens demo_config)).
  { apply (bool_decide_unpack _). vm_compute. exact I. }
  apply (carrier_events_act_on_the_order (MO := plain_order) demo_config (λ _ l, l) demo_execution
    funded_gateway eq_refl (or_intror Htok) r); try reflexivity.
  rewrite <- Ha. apply surjective_pairing.
Defined.
Lemma events_need_a_token_agents_do_not_witness :
  let r := mkRequest "POST" "/v1/carrier/events" (λ _, "") (λ _, []) None "" in
  Execution.ServeHTTP demo_execution r fresh_server =
    (fresh_server, Ok (Execution.refusal StatusUnauthorized "unauthorized")).
Proof.
  intros r. apply (events_need_a_token_agents_do_not demo_execution r fresh_server);
    [reflexivity|reflexivity|reflexivity|].
  apply (bool_decide_unpack _). vm_compute. exact I.
Defined.
