(* ===== verification/Traces.v ===== *)
(** * Computations that record what they ask for

    A service that talks to others runs over the history of its requests, and is
    answered by functions of that history.  How the histories of its computations grow,
    by how many requests of a kind at most, and by which requests only. *)

From S2P Require Import Prelude.

(** An error of a call, prefixed. *)
Definition or_fail {S T} (m : ST S T) (msg : string) : ST S T :=
  r ← attempt m; match r with Ok x => mret x | Err e => throw (EPrefix msg e) end.

Lemma lifted_Ok {S A} (r : result A) (s s' : S) x : lift r s = (s', Ok x) → s' = s ∧ r = Ok x.
Proof. by intros [= -> ->]. Qed.
Lemma bind_Err {S A B} (m : ST S A) (f : A → ST S B) h h' e : (m ≫= f) h = (h', Err e) →
  m h = (h', Err e) ∨ ∃ x h1, m h = (h1, Ok x) ∧ f x h1 = (h', Err e).
Proof.
  unfold mbind, st_bind. destruct (m h) as [h1 [x|e']]; intros Hm; [by right; exists x, h1|].
  left. by injection Hm as -> ->.
Qed.
Lemma attempt_run {S A B} (m : ST S A) (f : result A → ST S B) h h1 r : m h = (h1, r) →
  (attempt m ≫= f) h = f r h1.
Proof. intros Hm. apply bind_run. by rewrite attempt_Ok. Qed.
Lemma or_fail_run {S A} (m : ST S A) msg h h1 x : m h = (h1, Ok x) → or_fail m msg h = (h1, Ok x).
Proof. intros Hm. unfold or_fail. by rewrite (attempt_run _ _ _ _ _ Hm). Qed.
Lemma or_fail_Err {S A} (m : ST S A) msg h h' e :
  or_fail m msg h = (h', Err e) → ∃ e', e = EPrefix msg e'.
Proof.
  intros [Ha|(r & h1 & _ & Hr)]%bind_Err; [unfold attempt in Ha; by destruct (m h)|].
  destruct r as [x|e']; [done|]. injection Hr as _ <-. by exists e'.
Qed.
Lemma or_fail_Ok {S A} (m : ST S A) msg h h' x : or_fail m msg h = (h', Ok x) → m h = (h', Ok x).
Proof.
  unfold or_fail. intros Hm. apply bind_Ok in Hm as (h1 & r & Ha & Hr). rewrite attempt_Ok in Ha.
  destruct r; [|done]. injection Hr as <- <-. done.
Qed.

Section spends.
Context {E : Type} (counted : E → bool).
Abbreviation F := (ST (list E)).

Definition count (h : list E) : nat := length (List.filter counted h).
Lemma counted_app h t : count (h ++ t) = (count h + count t)%nat.
Proof. unfold count. by rewrite List.filter_app, length_app. Qed.

Lemma count_all h : (∀ e, counted e = true) → count h = length h.
Proof.
  intros Hall. unfold count. induction h as [|e h IH]; [done|]. cbn. by rewrite Hall; cbn; rewrite IH.
Qed.

(** A computation only adds to the history, at most [k] of what is counted. *)
Definition spends {A} (k : nat) (m : F A) : Prop := ∀ h, ∃ t, (m h).1 = h ++ t ∧ (count t ≤ k)%nat.

Lemma spends_weaken {A} k k' (m : F A) : spends k m → (k ≤ k')%nat → spends k' m.
Proof. intros Hm Hk h. destruct (Hm h) as (t & Ht & Ho). exists t. split; [done|lia]. Qed.
Lemma spends_ret {A} (x : A) : spends 0 (mret x).
Proof. intros h. exists []. by rewrite app_nil_r. Qed.
Lemma spends_throw {A} e : spends 0 (throw e : F A).
Proof. intros h. exists []. by rewrite app_nil_r. Qed.
Lemma spends_lift {A} (r : result A) : spends 0 (lift r).
Proof. intros h. exists []. by rewrite app_nil_r. Qed.
Lemma spends_fail_if b e : spends 0 (fail_if b e).
Proof. destruct b; [apply spends_throw|apply spends_ret]. Qed.
(** One request, answered by a function of the history. *)
Lemma spends_event {A} e (answer : list E → result A) :
  spends (if counted e then 1 else 0) (λ h, (h ++ [e], answer h)).
Proof. intros h. exists [e]. split; [done|]. unfold count. cbn. by destruct (counted e). Qed.
Lemma spends_bind {A B} j k (m : F A) (f : A → F B) :
  spends j m → (∀ x, spends k (f x)) → spends (j + k) (m ≫= f).
Proof.
  intros Hm Hf h. unfold mbind, st_bind. destruct (Hm h) as (t & Ht & Ho).
  destruct (m h) as [h1 [x|e]]; cbn in Ht; subst h1.
  - destruct (Hf x (h ++ t)) as (t' & -> & Ho'). exists (t ++ t').
    rewrite counted_app, app_assoc. split; [done|lia].
  - exists t. split; [done|lia].
Qed.
Lemma spends_bind0 {A B} k (m : F A) (f : A → F B) :
  spends 0 m → (∀ x, spends k (f x)) → spends k (m ≫= f).
Proof. apply (spends_bind 0 k). Qed.
Lemma spends_attempt {A} k (m : F A) : spends k m → spends k (attempt m).
Proof. intros Hm h. destruct (Hm h) as (t & Ht & Ho). exists t. unfold attempt. by destruct (m h). Qed.
Lemma spends_or_fail {A} k (m : F A) msg : spends k m → spends k (or_fail m msg).
Proof.
  intros Hm. apply (spends_weaken (k + 0)); [|lia]. apply spends_bind; [by apply spends_attempt|].
  intros []; [apply spends_ret|apply spends_throw].
Qed.
Lemma spends_prefix {A} k (m : F A) h h' r : spends k m → m h = (h', r) → h `prefix_of` h'.
Proof. intros Hm Hr. destruct (Hm h) as (t & Ht & _). rewrite Hr in Ht. cbn in Ht. subst. by exists t. Qed.
Lemma spends_count {A} k (m : F A) h h' r :
  spends k m → k = 0%nat → m h = (h', r) → count h' = count h.
Proof.
  intros Hm -> Hr. destruct (Hm h) as (t & Ht & Hc). rewrite Hr in Ht. cbn in Ht. subst.
  rewrite counted_app. lia.
Qed.
End spends.

Create HintDb spends.
#[export] Hint Resolve spends_ret spends_throw spends_lift spends_fail_if spends_bind0
  spends_attempt spends_or_fail : spends.
(** A computation that asks for nothing that is counted, by its structure. *)
Ltac solve_spends :=
  repeat first
    [ match goal with |- ∀ _, _ => intro end
    | solve [auto with spends]
    | apply spends_bind0
    | match goal with |- spends _ _ (match ?x with _ => _ end) => destruct x end ].

(** ** What a computation may ask for *)

Section emits.
Context {E : Type} (allowed : E → Prop).

(** A computation only adds to the history, and only what is allowed. *)
Definition emits {A} (m : ST (list E) A) : Prop := ∀ h, ∃ t, (m h).1 = h ++ t ∧ Forall allowed t.

Lemma emits_ret {A} (x : A) : emits (mret x).
Proof. intros h. exists []. by rewrite app_nil_r. Qed.
Lemma emits_throw {A} e : emits (throw e : ST (list E) A).
Proof. intros h. exists []. by rewrite app_nil_r. Qed.
Lemma emits_lift {A} (r : result A) : emits (lift r).
Proof. intros h. exists []. by rewrite app_nil_r. Qed.
Lemma emits_fail_if b e : emits (fail_if b e).
Proof. destruct b; [apply emits_throw|apply emits_ret]. Qed.
Lemma emits_event {A} e (answer : list E → result A) : allowed e → emits (λ h, (h ++ [e], answer h)).
Proof. intros He h. exists [e]. split; [done|]. by constructor. Qed.
Lemma emits_bind {A B} (m : ST (list E) A) (f : A → ST (list E) B) :
  emits m → (∀ x, emits (f x)) → emits (m ≫= f).
Proof.
  intros Hm Hf h. unfold mbind, st_bind. destruct (Hm h) as (t & Ht & Ha).
  destruct (m h) as [h1 [x|e]]; cbn in Ht; subst h1; [|by exists t].
  destruct (Hf x (h ++ t)) as (t' & -> & Ha'). exists (t ++ t').
  rewrite app_assoc. split; [done|]. by apply Forall_app.
Qed.
Lemma emits_attempt {A} (m : ST (list E) A) : emits m → emits (attempt m).
Proof. intros Hm h. destruct (Hm h) as (t & Ht & Ha). exists t. unfold attempt. by destruct (m h). Qed.
Lemma emits_or_fail {A} (m : ST (list E) A) msg : emits m → emits (or_fail m msg).
Proof.
  intros Hm. apply emits_bind; [by apply emits_attempt|].
  intros []; [apply emits_ret|apply emits_throw].
Qed.
Lemma emits_run {A} (m : ST (list E) A) h h' r : emits m → m h = (h', r) →
  ∃ t, h' = h ++ t ∧ Forall allowed t.
Proof. intros Hm Hr. destruct (Hm h) as (t & Ht & Ha). rewrite Hr in Ht. by exists t. Qed.
End emits.

Lemma emits_weaken {E A} (P Q : E → Prop) (m : ST (list E) A) :
  emits P m → (∀ e, P e → Q e) → emits Q m.
Proof.
  intros Hm HPQ h. destruct (Hm h) as (t & Ht & Ha). exists t. split; [done|].
  by eapply Forall_impl.
Qed.
(** Whatever it may ask for, it forgets nothing. *)
Lemma emits_prefix {E A} (P : E → Prop) (m : ST (list E) A) h h' r :
  emits P m → m h = (h', r) → h `prefix_of` h'.
Proof. intros Hm Hr. destruct (emits_run P m h h' r Hm Hr) as (t & -> & _). by exists t. Qed.

Create HintDb emits.
#[export] Hint Resolve emits_ret emits_throw emits_lift emits_fail_if emits_attempt
  emits_or_fail : emits.
(** By the structure of a computation; what is left are the requests themselves. *)
Ltac solve_emits :=
  repeat first
    [ match goal with |- ∀ _, _ => intro end
    | solve [auto with emits]
    | apply emits_bind
    | apply emits_attempt
    | apply emits_or_fail
    | match goal with |- emits _ (match ?x with _ => _ end) => destruct x end ].
