(* ===== verification/Fnn.v ===== *)
(** * The liquidity provisioner over FNN nodes (platform/provider_settlement_fnn.go)

    The provisioner that opens payment channels from the treasury's node to a
    provider's: its configuration, the calls of a node, what channel lists are read
    for, the retries, the wait for a channel to become ready, and the whole of
    [EnsureProviderLiquidity].

    The nodes, the resolver and the context's deadline are functions of what happened
    before: a call is answered with a body, or fails; a timer or a tick comes before
    the deadline or does not.  The identifier of a call, a reading of the clock, is
    left out.  Conversions of cents to funding units are in [Amounts]. *)

From Stdlib Require Import Ascii.
From S2P Require Import Prelude GoNum GoText Core Market Repo App Amounts GoFloat Http GoBytes Traces.

(** ** Configuration *)

Definition millisecond : Z := 1000000.
Definition second : Z := 1000 * millisecond.
Definition defaultProviderSettlementP2PPort : Z := 8228.
Definition defaultProviderSettlementPollInterval : Z := 2 * second.
Definition defaultProviderSettlementWaitTimeout : Z := 90 * second.
Definition defaultProviderSettlementOpenChannelRetries : Z := 10.
Definition defaultProviderSettlementAcceptRetries : Z := 10.
Definition defaultProviderSettlementAcceptRetryEvery : Z := 6.
Definition defaultProviderSettlementMinFundingUnits : Z := 1.

Record FNNProviderSettlementProvisionerConfig := mkFnnConfig {
  fc_TreasuryRPCURL : string;
  fc_TreasuryP2PHost : string;
  fc_TreasuryP2PPort : Z;
  fc_PollInterval : Z;
  fc_WaitTimeout : Z;
  fc_OpenChannelRetries : Z;
  fc_AcceptChannelRetries : Z;
  fc_AcceptRetryEvery : Z;
  fc_CentsPerUnit : Z;
  fc_MinFundingUnits : Z;
}.

Definition if_positive (value default : Z) : Z := if value <=? 0 then default else value.
Definition NewFNNProviderSettlementProvisioner (cfg : FNNProviderSettlementProvisionerConfig)
    : result FNNProviderSettlementProvisionerConfig :=
  if blank (fc_TreasuryRPCURL cfg) then Err (Errf "treasury rpc url is required")
  else if blank (fc_TreasuryP2PHost cfg) then Err (Errf "treasury p2p host is required")
  else Ok (mkFnnConfig (fc_TreasuryRPCURL cfg) (fc_TreasuryP2PHost cfg)
    (if_positive (fc_TreasuryP2PPort cfg) defaultProviderSettlementP2PPort)
    (if_positive (fc_PollInterval cfg) defaultProviderSettlementPollInterval)
    (if_positive (fc_WaitTimeout cfg) defaultProviderSettlementWaitTimeout)
    (if_positive (fc_OpenChannelRetries cfg) defaultProviderSettlementOpenChannelRetries)
    (if_positive (fc_AcceptChannelRetries cfg) defaultProviderSettlementAcceptRetries)
    (if_positive (fc_AcceptRetryEvery cfg) defaultProviderSettlementAcceptRetryEvery)
    (if_positive (fc_CentsPerUnit cfg) defaultProviderSettlementCentsPerUnit)
    (if_positive (fc_MinFundingUnits cfg) defaultProviderSettlementMinFundingUnits)).

(** The readers of environment variables; [env] is [os.Getenv]. *)
Section environment.
Context (env : string → string).
Definition envInt64OrDefault (key : string) (fallback : Z) : Z :=
  let raw := TrimSpace (env key) in
  if String.eqb raw "" then fallback
  else match ParseInt raw with
       | (parsed, None) => if parsed <=? 0 then fallback else parsed
       | (_, Some _) => fallback
       end.
Definition envIntOrDefault : string → Z → Z := envInt64OrDefault.
Definition envDurationMillisOrDefault (key : string) (fallback : Z) : Z :=
  envIntOrDefault key (fallback /w millisecond) *w millisecond.
Definition envDurationSecondsOrDefault (key : string) (fallback : Z) : Z :=
  envIntOrDefault key (fallback /w second) *w second.

(** [None]: no provisioner is configured. *)
Definition NewFNNProviderSettlementProvisionerFromEnv
    : result (option FNNProviderSettlementProvisionerConfig) :=
  let key s := "PROVIDER_SETTLEMENT_FNN_" +:+ s in
  let treasuryRPCURL := TrimSpace (env (key "TREASURY_RPC_URL")) in
  if String.eqb treasuryRPCURL "" then Ok None
  else
    let treasuryP2PHost := TrimSpace (env (key "TREASURY_P2P_HOST")) in
    if String.eqb treasuryP2PHost "" then Err (Errf
      "PROVIDER_SETTLEMENT_FNN_TREASURY_P2P_HOST is required when PROVIDER_SETTLEMENT_FNN_TREASURY_RPC_URL is set")
    else Some <$> NewFNNProviderSettlementProvisioner (mkFnnConfig treasuryRPCURL treasuryP2PHost
      (envIntOrDefault (key "TREASURY_P2P_PORT") defaultProviderSettlementP2PPort)
      (envDurationMillisOrDefault (key "POLL_INTERVAL_MILLISECONDS") defaultProviderSettlementPollInterval)
      (envDurationSecondsOrDefault (key "WAIT_TIMEOUT_SECONDS") defaultProviderSettlementWaitTimeout)
      (envIntOrDefault (key "OPEN_CHANNEL_RETRIES") defaultProviderSettlementOpenChannelRetries)
      (envIntOrDefault (key "ACCEPT_CHANNEL_RETRIES") defaultProviderSettlementAcceptRetries)
      (envIntOrDefault (key "ACCEPT_RETRY_INTERVAL_ATTEMPTS") defaultProviderSettlementAcceptRetryEvery)
      (envInt64OrDefault (key "CENTS_PER_UNIT") defaultProviderSettlementCentsPerUnit)
      (envInt64OrDefault (key "MIN_FUNDING_UNITS") defaultProviderSettlementMinFundingUnits)).
End environment.

(** ** What nodes answer *)

Record RawUDTTypeScript := mkRawScript {
  rs_CodeHash : string;
  rs_HashType : string;
  rs_Args : string;
}.
Record NodeUDTCfgInfo := mkUDTCfgInfo {
  uc_Name : string;
  uc_Script : RawUDTTypeScript;
  uc_AutoAcceptAmount : string;
}.
Record NodeInfo := mkNodeInfo {
  ni_NodeID : string;
  ni_AutoAcceptChannelCKBFundingAmount : string;
  ni_UDTCfgInfos : list NodeUDTCfgInfo;
}.
Record RawChannel := mkRawChannel {
  rc_ChannelID : string;
  rc_State : json;
  rc_Enabled : bool;
  rc_FundingUDTTypeScript : RawUDTTypeScript;
}.

Definition decode_script (f : list (string * json)) : option RawUDTTypeScript :=
  c ← string_field "code_hash" f; h ← string_field "hash_type" f; a ← string_field "args" f;
  Some (mkRawScript c h a).
Definition no_script : RawUDTTypeScript := mkRawScript "" "" "".
Definition decode_cfg (v : json) : option NodeUDTCfgInfo :=
  f ← as_object v; n ← string_field "name" f; s ← object_field "script" f; s ← decode_script s;
  a ← string_field "auto_accept_amount" f; Some (mkUDTCfgInfo n s a).
Definition decode_node_info (f : list (string * json)) : option NodeInfo :=
  n ← string_field "node_id" f; a ← string_field "auto_accept_channel_ckb_funding_amount" f;
  u ← decode_field [] (as_list (mkUDTCfgInfo "" no_script "") decode_cfg) "udt_cfg_infos" f;
  Some (mkNodeInfo n a u).
Definition decode_channel (v : json) : option RawChannel :=
  f ← as_object v; c ← string_field "channel_id" f; s ← decode_field JNull Some "state" f;
  e ← bool_field "enabled" f; u ← object_field "funding_udt_type_script" f; u ← decode_script u;
  Some (mkRawChannel c s e u).
Definition decode_channels (f : list (string * json)) : option (list RawChannel) :=
  decode_field [] (as_list (mkRawChannel "" JNull false no_script) decode_channel) "channels" f.

(** ** Reading channel lists *)

(** [typed[key].(string)] of a decoded map. *)
Definition string_entry (key : string) (fields : list (string * json)) : option string :=
  match List.find (λ f, String.eqb f.1 key) (rev fields) with
  | Some (_, JStr s) => Some s
  | _ => None
  end.
Definition normalizeProviderSettlementChannelState (state : json) : string :=
  match state with
  | JStr typed => ToUpper (TrimSpace typed)
  | JObj typed =>
      match string_entry "state_name" typed with
      | Some name => ToUpper (TrimSpace name)
      | None => match string_entry "state" typed with
                | Some name => ToUpper (TrimSpace name)
                | None => ""
                end
      end
  | _ => ""
  end.

Definition same_script (eqb : string → string → bool) (left : RawUDTTypeScript)
    (right : UDTTypeScript) : bool :=
  eqb (TrimSpace (rs_CodeHash left)) (TrimSpace (udt_CodeHash right))
  && eqb (TrimSpace (rs_HashType left)) (TrimSpace (udt_HashType right))
  && eqb (TrimSpace (rs_Args left)) (TrimSpace (udt_Args right)).
Definition providerSettlementUDTScriptsMatch : RawUDTTypeScript → UDTTypeScript → bool :=
  same_script EqualFold.
Definition providerSettlementUDTScriptsEqual : RawUDTTypeScript → UDTTypeScript → bool :=
  same_script String.eqb.
Definition hasProviderSettlementUDTScript (script : UDTTypeScript) : bool :=
  negb (blank (udt_CodeHash script)) && negb (blank (udt_HashType script))
  && negb (blank (udt_Args script)).

(** The channel is not of another asset. *)
Definition of_asset (udtTypeScript : UDTTypeScript) (channel : RawChannel) : bool :=
  negb (hasProviderSettlementUDTScript udtTypeScript
        && negb (providerSettlementUDTScriptsMatch (rc_FundingUDTTypeScript channel) udtTypeScript)).
Definition channel_ready (udtTypeScript : UDTTypeScript) (channel : RawChannel) : bool :=
  String.eqb (normalizeProviderSettlementChannelState (rc_State channel)) "CHANNEL_READY"
  && of_asset udtTypeScript channel.

(** One loop of [commonReadyChannelIDs]: the ids of ready channels that pass. *)
Definition ready_ids (udtTypeScript : UDTTypeScript) (admit_id : string → bool)
    (channels : list RawChannel) : gmap string () :=
  foldl (λ ids channel,
    if negb (channel_ready udtTypeScript channel) then ids
    else
      let channelID := TrimSpace (rc_ChannelID channel) in
      if String.eqb channelID "" then ids
      else if admit_id channelID then <[channelID := tt]> ids else ids) ∅ channels.
Definition commonReadyChannelIDs (treasuryChannels providerChannels : list RawChannel)
    (udtTypeScript : UDTTypeScript) : gmap string () :=
  let readyOnTreasury := ready_ids udtTypeScript (λ _, true) treasuryChannels in
  ready_ids udtTypeScript (λ id, bool_decide (is_Some (readyOnTreasury !! id))) providerChannels.

Section channels.
Context `{MapOrder}.
Definition matchingReadyChannelIDExcluding (treasuryChannels providerChannels : list RawChannel)
    (udtTypeScript : UDTTypeScript) (excluded : gmap string ()) : option string :=
  fst <$> List.find (λ e, negb (bool_decide (is_Some (excluded !! e.1))))
    (map_order (map_to_list (commonReadyChannelIDs treasuryChannels providerChannels udtTypeScript))).
Definition matchingReadyChannelID (treasuryChannels providerChannels : list RawChannel)
    (udtTypeScript : UDTTypeScript) : option string :=
  matchingReadyChannelIDExcluding treasuryChannels providerChannels udtTypeScript ∅.
End channels.

Definition providerSettlementSpecificChannelReady (channels : list RawChannel)
    (channelID : string) (udtTypeScript : UDTTypeScript) : bool :=
  let target := TrimSpace channelID in
  if String.eqb target "" then false
  else match List.find (λ c, String.eqb (TrimSpace (rc_ChannelID c)) target) channels with
       | Some channel => channel_ready udtTypeScript channel
       | None => false
       end.
Definition providerSettlementChannelReadyOnBothSides (channelID : string)
    (treasuryChannels providerChannels : list RawChannel) (udtTypeScript : UDTTypeScript) : bool :=
  let target := TrimSpace channelID in
  if String.eqb target "" then false
  else providerSettlementSpecificChannelReady treasuryChannels target udtTypeScript
       && providerSettlementSpecificChannelReady providerChannels target udtTypeScript.
Definition firstReadyProviderSettlementChannelID (channels : list RawChannel)
    (udtTypeScript : UDTTypeScript) : string :=
  match List.find (channel_ready udtTypeScript) channels with
  | Some channel => TrimSpace (rc_ChannelID channel)
  | None => ""
  end.
Definition firstProviderSettlementChannelState (channels : list RawChannel)
    (udtTypeScript : UDTTypeScript) : string :=
  match List.find (of_asset udtTypeScript) channels with
  | Some channel => normalizeProviderSettlementChannelState (rc_State channel)
  | None => ""
  end.
Definition countReadyChannels (channels : list RawChannel) (udtTypeScript : UDTTypeScript) : Z :=
  Z.of_nat (length (List.filter (channel_ready udtTypeScript) channels)).

Definition providerSettlementAcceptFundingHex (info : NodeInfo) (udtTypeScript : UDTTypeScript)
    : string :=
  let own := TrimSpace (ni_AutoAcceptChannelCKBFundingAmount info) in
  if hasProviderSettlementUDTScript udtTypeScript
  then match List.find (λ cfg, providerSettlementUDTScriptsEqual (uc_Script cfg) udtTypeScript)
               (ni_UDTCfgInfos info) with
       | Some cfg => TrimSpace (uc_AutoAcceptAmount cfg)
       | None => own
       end
  else own.

(** ** Text *)

(** [big.Int.Text(16)] of a positive number; a digit per step. *)
Fixpoint hex_text (fuel : nat) (n : Z) (acc : string) : string :=
  match fuel with
  | O => acc
  | S fuel => if n <=? 0 then acc else hex_text fuel (n / 16) (String (hex_digit (n mod 16)) acc)
  end.
Definition providerSettlementDecimalToHexQuantity (value : Z) : result string :=
  if value <=? 0 then Err (Errf "amount must be positive")
  else Ok ("0x" +:+ hex_text 16 value "").

(** [hex.DecodeString] *)
Definition hex_nibble (a : ascii) : option Z :=
  match digit_of a with Some d => if d <? 16 then Some d else None | None => None end.
Fixpoint hex_decode (s : string) : result (list Z) :=
  match s with
  | EmptyString => Ok []
  | String a EmptyString =>
      match hex_nibble a with
      | Some _ => Err (Errf "encoding/hex: odd length hex string")
      | None => Err (Errf "encoding/hex: invalid byte")
      end
  | String a (String b s) =>
      match hex_nibble a, hex_nibble b with
      | Some hi, Some lo => rest ← hex_decode s; Ok (hi * 16 + lo :: rest)
      | _, _ => Err (Errf "encoding/hex: invalid byte")
      end
  end.

Definition alphabet : string := "123456789ABCDEFGHJKLMNPQRSTUVWXYZabcdefghijkmnopqrstuvwxyz".
Definition base58_digit (d : Z) : ascii := default "1"%char (String.get (Z.to_nat d) alphabet).
(** The loop of divisions, last digit first: two digits to a byte are enough. *)
Fixpoint base58_digits (fuel : nat) (number : Z) : list Z :=
  match fuel with
  | O => []
  | S fuel => if 0 <? number then number mod 58 :: base58_digits fuel (number / 58) else []
  end.
Definition number_of (data : list Z) : Z := foldl (λ n b, n * 256 + b) 0 data.
Fixpoint leading_zeros (data : list Z) : nat :=
  match data with
  | b :: data => if b =? 0 then S (leading_zeros data) else 0
  | [] => 0
  end.
Definition encodeProviderSettlementBase58 (data : list Z) : string :=
  let encoded := base58_digits (2 * length data) (number_of data) ++ replicate (leading_zeros data) 0 in
  if bool_decide (encoded = []) then "1"
  else String.string_of_list_ascii (base58_digit <$> rev encoded).

Definition deriveProviderSettlementPeerIDFromNodeID (nodeID : string) : result string :=
  match hex_decode (TrimPrefix (TrimSpace nodeID) "0x") with
  | Err e => Err (EPrefix "decode node id" e)
  | Ok pubkey =>
      if negb (Nat.eqb (length pubkey) 33)
      then Err (Errf ("expected 33-byte compressed pubkey, got " +:+
                      pretty (Z.of_nat (length pubkey)) +:+ " bytes"))
      else Ok (encodeProviderSettlementBase58 ([18; 32] ++ sha256 pubkey))
  end.

Definition providerSettlementMultiaddrForP2P (host : string) (port : Z) (peerID : string) : string :=
  "/dns4/" +:+ host +:+ "/tcp/" +:+ pretty port +:+ "/p2p/" +:+ peerID.

(** ** Which failures are worth another try *)

Definition mentions (err : error) (texts : list string) : bool :=
  existsb (Contains (ToLower (error_text err))) texts.
Definition isProviderSettlementOpenChannelRetryable (err : error) : bool :=
  mentions err ["peer not found"; "peer not ready"; "temporarily unavailable";
                "waiting for peer to send init message"].
Definition isProviderSettlementConnectRetryableSuccess (err : error) : bool :=
  mentions err ["already connected"; "already exists"].
Definition isProviderSettlementAcceptRetryable (err : error) : bool :=
  mentions err ["no channel with temp id"]
  || mentions err ["temporary_channel_id"] && mentions err ["not found"].
Definition isProviderSettlementProvisionRetryable (err : error) : bool :=
  isProviderSettlementAcceptRetryable err
  || mentions err ["timeout waiting provider settlement channel to reach channel_ready";
                   "failed to fund channel"; "error decoding response body"].

(** ** The nodes *)

Inductive NetEvent :=
  | ECall (endpoint method : string) (params : json)
  | EResolve (host : string)
  | ETimer (delay : Z)
  | ETick.

(** [fe_call]: the body a call is answered with, if it is JSON, or the failure of the
    request.  [fe_resolve]: the addresses of a host, the IPv4 ones with their text.
    [fe_timer], [fe_tick]: the timer or the ticker comes before [ctx.Done()]. *)
Record FnnEnv := mkFnnEnv {
  fe_call : list NetEvent → string → string → json → result (option json);
  fe_resolve : list NetEvent → string → result (list (option string));
  fe_timer : list NetEvent → Z → bool;
  fe_tick : list NetEvent → bool;
}.

(** [json.RawMessage]: the value of the last field of the name, null included. *)
Definition raw_field (key : string) (fields : list (string * json)) : option json :=
  snd <$> List.find (λ f, EqualFold f.1 key) (rev fields).
(** The error of an answer: none, or its message. *)
Definition rpc_error (fields : list (string * json)) : option (option string) :=
  decode_field None (λ v, f ← as_object v; m ← string_field "message" f; Some (Some m)) "error" fields.

Definition string_json (fields : list (string * string)) : json :=
  JObj ((λ f, (f.1, JStr f.2)) <$> fields).
Definition decode_error : error := Errf "invalid json".
(** The JSON-RPC answer in a body, its result decoded into the target of the call. *)
Definition rpc_answer {T} (method : string) (target : json → option T) (body : option json)
    : result T :=
  match fields ← body_fields body; e ← rpc_error fields; Some (fields, e) with
  | None => Err decode_error
  | Some (_, Some message) => Err (Errf (method +:+ ": " +:+ message))
  | Some (fields, None) =>
      match raw_field "result" fields with
      | None => Err (Errf "unexpected end of JSON input")
      | Some v => match target v with Some x => Ok x | None => Err decode_error end
      end
  end.

Section nodes.
Context `{MapOrder} (env : FnnEnv).
Abbreviation F := (ST (list NetEvent)).

Definition fnn_endpoint (endpoint : string) : string := TrimRight "/" (TrimSpace endpoint).

(** [Call], once the body is there: the decoding of the result into its target. *)
Definition rpc_Call {T} (endpoint method : string) (params : json) (target : json → option T) : F T :=
  λ h, (h ++ [ECall endpoint method params],
    body ← fe_call env h endpoint method params; rpc_answer method target body).
Definition target_struct {T} (dec : list (string * json) → option T) (v : json) : option T :=
  f ← as_object v; dec f.
Definition target_any (v : json) : option () := _ ← as_object v; Some tt.

Definition NodeInfo_ (node : string) : F NodeInfo :=
  rpc_Call node "node_info" (JArr []) (target_struct decode_node_info).
Definition ConnectPeer (node address : string) : F () :=
  rpc_Call node "connect_peer" (JArr [string_json [("address", address)]]) target_any.
Definition OpenChannel (node peerID fundingAmountHex : string) (udtTypeScript : UDTTypeScript)
    : F string :=
  let script := if hasProviderSettlementUDTScript udtTypeScript
    then [("funding_udt_type_script", string_json [("code_hash", udt_CodeHash udtTypeScript);
           ("hash_type", udt_HashType udtTypeScript); ("args", udt_Args udtTypeScript)])]
    else [] in
  id ← rpc_Call node "open_channel"
    (JArr [JObj ([("peer_id", JStr peerID); ("funding_amount", JStr fundingAmountHex);
                  ("tlc_fee_proportional_millionths", JStr "0x0")] ++ script)])
    (target_struct (string_field "temporary_channel_id"));
  mret (TrimSpace id).
Definition AcceptChannel (node temporaryChannelID fundingAmountHex : string) : F () :=
  rpc_Call node "accept_channel"
    (JArr [string_json [("temporary_channel_id", temporaryChannelID);
                        ("funding_amount", fundingAmountHex)]]) target_any.
Definition ListChannels (node peerID : string) : F (list RawChannel) :=
  rpc_Call node "list_channels" (JArr [string_json [("peer_id", peerID)]])
    (target_struct decode_channels).

(** [select] between a timer, or a tick, and the end of the context. *)
Definition wait_timer (delay : Z) : F bool := λ h, (h ++ [ETimer delay], Ok (fe_timer env h delay)).
Definition wait_tick : F bool := λ h, (h ++ [ETick], Ok (fe_tick env h)).
Definition deadline_exceeded : error := Errf "context deadline exceeded".

Definition connect (node address msg : string) : F () :=
  r ← attempt (ConnectPeer node address);
  match r with
  | Ok _ => mret tt
  | Err e => if isProviderSettlementConnectRetryableSuccess e then mret tt else throw (EPrefix msg e)
  end.
Definition connectProviderSettlementPeers
    (treasuryNode providerNode providerP2PAddress treasuryP2PAddress : string) : F () :=
  _ ← connect treasuryNode providerP2PAddress "connect treasury -> provider";
  connect providerNode treasuryP2PAddress "connect provider -> treasury".

(** The loop of attempts; [tries] are those still to be made. *)
Fixpoint openProviderSettlementChannelWithRetry (tries : nat)
    (treasuryNode peerID fundingHex : string) (udtTypeScript : UDTTypeScript) (delay : Z)
    (reconnect : F ()) : F string :=
  match tries with
  | O => mret ""
  | S tries =>
      r ← attempt (OpenChannel treasuryNode peerID fundingHex udtTypeScript);
      match r with
      | Ok channelID => mret channelID
      | Err e =>
          if negb (isProviderSettlementOpenChannelRetryable e) || Nat.eqb tries 0 then throw e
          else
            _ ← reconnect;
            fired ← wait_timer delay;
            match fired with
            | true => openProviderSettlementChannelWithRetry tries treasuryNode peerID fundingHex
                        udtTypeScript delay reconnect
            | false => throw deadline_exceeded
            end
      end
  end.
Fixpoint acceptProviderSettlementChannelWithRetry (tries : nat)
    (providerNode temporaryChannelID fundingHex : string) (delay : Z) : F () :=
  match tries with
  | O => mret tt
  | S tries =>
      r ← attempt (AcceptChannel providerNode temporaryChannelID fundingHex);
      match r with
      | Ok _ => mret tt
      | Err e =>
          if negb (isProviderSettlementAcceptRetryable e) || Nat.eqb tries 0 then throw e
          else
            fired ← wait_timer delay;
            match fired with
            | true => acceptProviderSettlementChannelWithRetry tries providerNode temporaryChannelID
                        fundingHex delay
            | false => throw deadline_exceeded
            end
      end
  end.

(** What the wait for a channel is made with. *)
Record WaitInput := mkWaitInput {
  wi_treasuryNode : string;
  wi_providerNode : string;
  wi_providerPeerID : string;
  wi_treasuryPeerID : string;
  wi_temporaryChannelID : string;
  wi_acceptFundingHex : string;
  wi_udtTypeScript : UDTTypeScript;
  wi_existingReadyChannelIDs : gmap string ();
  wi_pollInterval : Z;
  wi_acceptRetryEvery : Z;
  wi_acceptRetries : Z;
}.
Definition both_channels (treasuryNode providerNode providerPeerID treasuryPeerID : string)
    : F (list RawChannel * list RawChannel) :=
  treasuryChannels ← or_fail (ListChannels treasuryNode providerPeerID) "list treasury channels";
  providerChannels ← or_fail (ListChannels providerNode treasuryPeerID) "list provider channels";
  mret (treasuryChannels, providerChannels).

(** The channel an iteration ends with. *)
Definition ready_channel (i : WaitInput) (treasuryChannels providerChannels : list RawChannel)
    : option string :=
  if negb (blank (wi_temporaryChannelID i))
     && providerSettlementChannelReadyOnBothSides (wi_temporaryChannelID i) treasuryChannels
          providerChannels (wi_udtTypeScript i)
  then Some (wi_temporaryChannelID i)
  else matchingReadyChannelIDExcluding treasuryChannels providerChannels (wi_udtTypeScript i)
         (wi_existingReadyChannelIDs i).
Definition accept_again (i : WaitInput) (attempts : Z) (providerChannels : list RawChannel) : bool :=
  negb (blank (wi_temporaryChannelID i)) && negb (blank (wi_acceptFundingHex i))
  && (0 <? wi_acceptRetryEvery i) && (Z.rem attempts (wi_acceptRetryEvery i) =? 0)
  && String.eqb (firstProviderSettlementChannelState providerChannels (wi_udtTypeScript i))
       "AWAITING_CHANNEL_READY".

(** The polling loop.  [fuel] bounds the iterations; the deadline ends it before. *)
Definition out_of_fuel : error := EPanic "out of fuel".
Fixpoint waitForProviderSettlementChannelReady (fuel : nat) (attempts : Z) (i : WaitInput)
    : F string :=
  match fuel with
  | O => throw out_of_fuel
  | S fuel =>
      let attempts := attempts + 1 in
      '(treasuryChannels, providerChannels) ← both_channels (wi_treasuryNode i) (wi_providerNode i)
          (wi_providerPeerID i) (wi_treasuryPeerID i);
      match ready_channel i treasuryChannels providerChannels with
      | Some id => mret id
      | None =>
          _ ← (if accept_again i attempts providerChannels then
                 r ← attempt (acceptProviderSettlementChannelWithRetry (Z.to_nat (wi_acceptRetries i))
                       (wi_providerNode i) (wi_temporaryChannelID i) (wi_acceptFundingHex i)
                       (wi_pollInterval i));
                 match r with
                 | Ok _ => mret tt
                 | Err e => if isProviderSettlementAcceptRetryable e then mret tt
                            else throw (EPrefix "re-accept channel" e)
                 end
               else mret tt);
          ticked ← wait_tick;
          match ticked with
          | true => waitForProviderSettlementChannelReady fuel attempts i
          | false =>
              throw (Errf "timeout waiting provider settlement channel to reach CHANNEL_READY")
          end
      end
  end.

(** ** Addresses *)

Definition quoted (s : string) : string := String (ascii_of_nat 34) (s +:+ String (ascii_of_nat 34) "").
Definition providerSettlementResolveIPv4 (host : string) : F string :=
  λ h, (h ++ [EResolve (TrimSpace host)],
    match fe_resolve env h (TrimSpace host) with
    | Err e => Err (EPrefix ("resolve host " +:+ quoted host) e)
    | Ok addresses =>
        match omap id addresses with
        | ipv4 :: _ => Ok ipv4
        | [] => Err (Errf ("resolve host " +:+ quoted host +:+ ": no ipv4 address found"))
        end
    end).
Definition providerSettlementNormalizeP2PAddress (address : string) : F string :=
  let trimmed := TrimSpace address in
  if negb (HasPrefix trimmed "/dns4/") then mret trimmed
  else match Split "/" trimmed with
       | _ :: dns4 :: host :: tcp :: port :: p2p :: peer :: _ =>
           if negb (String.eqb dns4 "dns4" && String.eqb tcp "tcp" && String.eqb p2p "p2p")
           then throw (Errf ("unsupported dns4 multiaddr " +:+ quoted address))
           else
             ip ← providerSettlementResolveIPv4 host;
             mret ("/ip4/" +:+ ip +:+ "/tcp/" +:+ port +:+ "/p2p/" +:+ peer)
       | _ => throw (Errf ("unsupported dns4 multiaddr " +:+ quoted address))
       end.

(** ** The provisioner *)

Definition maxInt (a b : Z) : Z := if b <? a then a else b.
Definition maxInt64 (a b : Z) : Z := if b <? a then a else b.

(** What an attempt to provision is made with. *)
Record ProvisionInput := mkProvisionInput {
  pi_cfg : FNNProviderSettlementProvisionerConfig;
  pi_fundingHex : string;
  pi_wait : WaitInput;
  pi_reconnect : F ();
}.
Definition open_retries (cfg : FNNProviderSettlementProvisionerConfig) : nat :=
  Z.to_nat (fc_OpenChannelRetries cfg).
Definition wait_for (i : ProvisionInput) (temporaryChannelID : string) : WaitInput :=
  let w := pi_wait i in
  mkWaitInput (wi_treasuryNode w) (wi_providerNode w) (wi_providerPeerID w)
    (wi_treasuryPeerID w) temporaryChannelID (wi_acceptFundingHex w) (wi_udtTypeScript w)
    (wi_existingReadyChannelIDs w) (wi_pollInterval w) (wi_acceptRetryEvery w) (wi_acceptRetries w).
(** A failed attempt is followed by another one, or is final. *)
Definition retry_provision (i : ProvisionInput) (tries : nat) (e final : error) (again : F string)
    : F string :=
  if negb (Nat.eqb tries 0) && isProviderSettlementProvisionRetryable e
  then _ ← pi_reconnect i; again else throw final.
Fixpoint provision (fuel tries : nat) (i : ProvisionInput) : F string :=
  match tries with
  | O => mret ""
  | S tries =>
      let w := pi_wait i in
      temporaryChannelID ← or_fail (openProviderSettlementChannelWithRetry (open_retries (pi_cfg i))
          (wi_treasuryNode w) (wi_providerPeerID w) (pi_fundingHex i) (wi_udtTypeScript w)
          (fc_PollInterval (pi_cfg i)) (pi_reconnect i)) "open channel";
      accepted ← attempt (acceptProviderSettlementChannelWithRetry
          (Z.to_nat (fc_AcceptChannelRetries (pi_cfg i))) (wi_providerNode w) temporaryChannelID
          (wi_acceptFundingHex w) (fc_PollInterval (pi_cfg i)));
      match accepted with
      | Err e => retry_provision i tries e (EPrefix "accept channel" e) (provision fuel tries i)
      | Ok _ =>
          ready ← attempt (waitForProviderSettlementChannelReady fuel 0 (wait_for i temporaryChannelID));
          match ready with
          | Err e => retry_provision i tries e e (provision fuel tries i)
          | Ok readyChannelID =>
              mret (if blank readyChannelID then temporaryChannelID else readyChannelID)
          end
      end
  end.

(** The two nodes, connected, and what they list before anything is opened. *)
Record Meeting := mkMeeting {
  mt_treasuryNode : string;
  mt_providerNode : string;
  mt_providerInfo : NodeInfo;
  mt_treasuryPeerID : string;
  mt_providerPeerID : string;
  mt_reconnect : F ();
  mt_treasuryChannels : list RawChannel;
  mt_providerChannels : list RawChannel;
}.
(** [EnsureProviderLiquidity] until the lists of channels. *)
Definition meet (cfg : FNNProviderSettlementProvisionerConfig) (binding : ProviderSettlementBinding)
    : F Meeting :=
  _ ← fail_if (blank (psb_NodeRPCURL binding))
        (Errf "provider settlement binding nodeRpcUrl is required");
  _ ← fail_if (blank (psb_P2PAddress binding))
        (Errf "provider settlement binding p2pAddress is required");
  let treasuryNode := fnn_endpoint (fc_TreasuryRPCURL cfg) in
  let providerNode := fnn_endpoint (psb_NodeRPCURL binding) in
  treasuryInfo ← or_fail (NodeInfo_ treasuryNode) "treasury node info";
  providerInfo ← or_fail (NodeInfo_ providerNode) "provider node info";
  treasuryPeerID ← or_fail (lift (deriveProviderSettlementPeerIDFromNodeID (ni_NodeID treasuryInfo)))
    "derive treasury peer id";
  providerPeerID ← or_fail (lift (deriveProviderSettlementPeerIDFromNodeID (ni_NodeID providerInfo)))
    "derive provider peer id";
  let expected := TrimSpace (psb_PeerID binding) in
  _ ← fail_if (negb (String.eqb expected "") && negb (String.eqb expected providerPeerID))
        (Errf ("provider settlement binding peerId mismatch: binding=" +:+ expected +:+
               " actual=" +:+ providerPeerID));
  providerP2PAddress ← or_fail (providerSettlementNormalizeP2PAddress (psb_P2PAddress binding))
    "normalize provider p2p address";
  treasuryP2PAddress ← or_fail (providerSettlementNormalizeP2PAddress
      (providerSettlementMultiaddrForP2P (fc_TreasuryP2PHost cfg) (fc_TreasuryP2PPort cfg) treasuryPeerID))
    "normalize treasury p2p address";
  let reconnect := connectProviderSettlementPeers treasuryNode providerNode providerP2PAddress
                     treasuryP2PAddress in
  _ ← reconnect;
  '(treasuryChannels, providerChannels) ← both_channels treasuryNode providerNode providerPeerID
      treasuryPeerID;
  mret (mkMeeting treasuryNode providerNode providerInfo treasuryPeerID providerPeerID reconnect
          treasuryChannels providerChannels).

(** The result for a channel the nodes already share. *)
Definition reused_liquidity (m : Meeting) (input : EnsureProviderLiquidityInput)
    (readyChannelID : string) : EnsureProviderLiquidityResult :=
  let pool := epi_CurrentPool input in
  mkEnsureResult readyChannelID ReuseReused
    (countReadyChannels (mt_treasuryChannels m) (psb_UDTTypeScript (epi_Binding input)))
    (maxInt64 (pool_TotalSpendableCents pool)
       (pool_ReservedOutstandingCents pool +w pool_AvailableToAllocateCents pool))
    (pool_WarmUntil pool).

(** What a channel is opened with. *)
Definition provision_input (cfg : FNNProviderSettlementProvisionerConfig) (m : Meeting)
    (script : UDTTypeScript) (fundingHex : string) : ProvisionInput :=
  let acceptFundingHex := providerSettlementAcceptFundingHex (mt_providerInfo m) script in
  let acceptFundingHex := if String.eqb acceptFundingHex "" then "0x1" else acceptFundingHex in
  mkProvisionInput cfg fundingHex
    (mkWaitInput (mt_treasuryNode m) (mt_providerNode m) (mt_providerPeerID m) (mt_treasuryPeerID m) ""
       acceptFundingHex script
       (commonReadyChannelIDs (mt_treasuryChannels m) (mt_providerChannels m) script)
       (fc_PollInterval cfg) (fc_AcceptRetryEvery cfg) (fc_AcceptChannelRetries cfg))
    (mt_reconnect m).
(** A new channel for the reserve that is needed. *)
Definition new_liquidity (fuel : nat) (cfg : FNNProviderSettlementProvisionerConfig) (m : Meeting)
    (input : EnsureProviderLiquidityInput) : F EnsureProviderLiquidityResult :=
  let script := psb_UDTTypeScript (epi_Binding input) in
  let fundingUnits := neededReserveToFundingUnits (epi_NeededReserveCents input)
                        (fc_CentsPerUnit cfg) (fc_MinFundingUnits cfg) in
  fundingHex ← or_fail (lift (providerSettlementDecimalToHexQuantity fundingUnits)) "funding amount";
  channelID ← provision fuel (Z.to_nat (maxInt 1 (fc_OpenChannelRetries cfg)))
    (provision_input cfg m script fundingHex);
  mret (mkEnsureResult channelID ReuseNewChannel
          (maxInt (countReadyChannels (mt_treasuryChannels m) script +w 1) 1)
          (pool_TotalSpendableCents (epi_CurrentPool input)
             +w fundingUnitsToCents fundingUnits (fc_CentsPerUnit cfg))
          None).

Definition EnsureProviderLiquidity (fuel : nat) (cfg : FNNProviderSettlementProvisionerConfig)
    (input : EnsureProviderLiquidityInput) : F EnsureProviderLiquidityResult :=
  m ← meet cfg (epi_Binding input);
  match matchingReadyChannelID (mt_treasuryChannels m) (mt_providerChannels m)
          (psb_UDTTypeScript (epi_Binding input)) with
  | Some readyChannelID =>
      if epi_NeededReserveCents input <=? pool_AvailableToAllocateCents (epi_CurrentPool input)
      then mret (reused_liquidity m input readyChannelID)
      else new_liquidity fuel cfg m input
  | None => new_liquidity fuel cfg m input
  end.
End nodes.

(** The provisioner of a platform: the state of the network a request meets may
    depend on the requests made before. *)
Definition fnn_provisioner `{MapOrder} (fuel : nat) (cfg : FNNProviderSettlementProvisionerConfig)
    (envs : list EnsureProviderLiquidityInput → FnnEnv) : Provisioner :=
  λ asked input, (EnsureProviderLiquidity (envs asked) fuel cfg input []).2.
