(* ===== verification/FnnChannels.v ===== *)
(** * What the liquidity provisioner promises

    Peer ids decode to the digests of keys.  A channel the provisioner returns was
    listed ready, for the binding's asset, by both nodes; it opens a bounded number of
    channels, ends once the deadline passes, and does not retry what it calls
    retryable when the wait for a channel times out.  At the end, the platform that
    provisions through it. *)

From Stdlib Require Import Ascii.
From S2P Require Import Prelude GoNum GoText Core Market Repo App Amounts GoFloat Http GoBytes Traces Fnn.
From S2P Require Import MemoryRepo Providers ProviderSettlement SettlementLedger.

(** ** Positional numbers *)

Section positional.
Context (base : Z) (Hbase : 1 < base).

(** The digits of a number, the lowest first. *)
Definition digits : nat → Z → list Z :=
  fix go fuel n :=
    match fuel with
    | O => []
    | S fuel => if 0 <? n then n mod base :: go fuel (n / base) else []
    end.
Definition value (l : list Z) : Z := foldr (λ d n, d + base * n) 0 l.
(** Digits of the base, the highest not zero. *)
Definition canonical (l : list Z) : Prop := Forall (λ d, 0 ≤ d < base) l ∧ last l ≠ Some 0.

Lemma value_nonneg l : Forall (λ d, 0 ≤ d < base) l → 0 ≤ value l.
Proof using Hbase. induction 1 as [|d l Hd _ IH]; cbn; [done|]. fold (value l). nia. Qed.
Lemma value_bound l : Forall (λ d, 0 ≤ d < base) l → value l < base ^ Z.of_nat (length l).
Proof using Hbase.
  induction 1 as [|d l Hd _ IH]; [done|]. cbn [value foldr length]. fold (value l).
  rewrite Nat2Z.inj_succ, Z.pow_succ_r by lia. nia.
Qed.
Lemma canonical_tail d l : canonical (d :: l) → canonical l.
Proof. intros [Hl Hlast]. split; [by inversion Hl|]. destruct l; [done|]. exact Hlast. Qed.
Lemma value_pos d l : canonical (d :: l) → 0 < value (d :: l).
Proof using Hbase.
  revert d. induction l as [|d' l IH]; intros d Hc.
  - destruct Hc as [Hl Hlast]. inversion Hl; subst. cbn in *. assert (d ≠ 0) by congruence. lia.
  - pose proof (IH d' (canonical_tail _ _ Hc)). destruct Hc as [Hl _]. inversion Hl; subst.
    cbn [value foldr] in *. nia.
Qed.
Lemma value_inj l l' : canonical l → canonical l' → value l = value l' → l = l'.
Proof using Hbase.
  revert l'. induction l as [|d l IH]; intros [|d' l'] Hl Hl' Heq; [done| | |].
  - pose proof (value_pos _ _ Hl'). cbn in *. lia.
  - pose proof (value_pos _ _ Hl). cbn in *. lia.
  - cbn [value foldr] in Heq. fold (value l) (value l') in Heq.
    assert (0 ≤ d < base) by (destruct Hl as [Hf _]; by inversion Hf).
    assert (0 ≤ d' < base) by (destruct Hl' as [Hf _]; by inversion Hf).
    destruct (Z.div_mod_unique base (value l) (value l') d d') as [Hq ->]; [lia..|].
    f_equal. apply IH; [by eapply canonical_tail..|done].
Qed.

Lemma digits_spec fuel n : 0 ≤ n < base ^ Z.of_nat fuel →
  canonical (digits fuel n) ∧ value (digits fuel n) = n.
Proof using Hbase.
  revert n. induction fuel as [|fuel IH]; intros n Hn.
  { cbn in *. split; [by split|lia]. }
  rewrite Nat2Z.inj_succ, Z.pow_succ_r in Hn by lia. cbn [digits].
  destruct (Z.ltb_spec 0 n) as [Hpos|]; [|cbn; split; [by split|lia]].
  pose proof (Z.div_mod n base ltac:(lia)) as Hdiv.
  pose proof (Z.mod_pos_bound n base ltac:(lia)).
  destruct (IH (n / base)) as [[Hf Hlast] Hv].
  { split; [apply Z.div_pos; lia|]. apply Z.div_lt_upper_bound; lia. }
  fold (digits fuel (n / base)). split; [split|].
  - by constructor.
  - destruct (digits fuel (n / base)) as [|x l] eqn:Hd; [|exact Hlast].
    cbn in Hv |- *. rewrite <- Hv in Hdiv. intros [= Hz]. lia.
  - cbn [value foldr]. fold (value (digits fuel (n / base))). rewrite Hv. lia.
Qed.
End positional.

(** ** Base58 *)

Definition digit58 (a : ascii) : Z :=
  match list_find (eq a) (String.list_ascii_of_string alphabet) with
  | Some (i, _) => Z.of_nat i
  | None => 0
  end.
(** The decoder of the alphabet: a zero byte for every leading 1, then the number. *)
Definition unbase58 (s : string) : list Z :=
  let ds := digit58 <$> String.list_ascii_of_string s in
  replicate (leading_zeros ds) 0 ++ rev (digits 256 (length ds) (value 58 (rev ds))).

Lemma digit58_spec d : 0 ≤ d < 58 → digit58 (base58_digit d) = d.
Proof.
  intros Hd. assert (Hall : forallb (λ i, digit58 (base58_digit (Z.of_nat i)) =? Z.of_nat i) (seq 0 58) = true)
    by (vm_compute; reflexivity).
  rewrite forallb_forall in Hall. specialize (Hall (Z.to_nat d)).
  rewrite Z2Nat.id in Hall by lia. apply Z.eqb_eq, Hall, in_seq. lia.
Qed.
Lemma base58_digits_eq fuel n : base58_digits fuel n = digits 58 fuel n.
Proof. revert n. induction fuel as [|fuel IH]; intros n; [done|]. cbn. by rewrite IH. Qed.
Lemma number_of_value data : number_of data = value 256 (rev data).
Proof.
  unfold number_of. induction data as [|b data IH] using rev_ind; [done|].
  rewrite foldl_app, rev_app_distr, IH. cbn [foldl rev app value foldr]. fold (value 256 (rev data)). lia.
Qed.
Lemma value_zeros base l z : value base (l ++ replicate z 0) = value base l.
Proof.
  unfold value. rewrite foldr_app. f_equal. induction z as [|z IH]; [done|]. cbn. rewrite IH. lia.
Qed.
(** Leading zeros, then a list that begins with another digit. *)
Lemma leading_zeros_split data :
  ∃ rest, data = replicate (leading_zeros data) 0 ++ rest ∧ last (rev rest) ≠ Some 0.
Proof.
  induction data as [|b data (rest & Hrest & Hlast)]; [by exists []|].
  cbn. destruct (Z.eqb_spec b 0) as [->|Hb].
  - exists rest. cbn. by rewrite <- Hrest.
  - exists (b :: data). split; [done|]. cbn. rewrite last_snoc. congruence.
Qed.
Lemma leading_zeros_replicate z l : last (rev l) ≠ Some 0 →
  leading_zeros (replicate z 0 ++ l) = z.
Proof.
  intros Hl. induction z as [|z IH]; cbn; [|by rewrite IH]. destruct l as [|d l]; [done|].
  cbn in *. rewrite last_snoc in Hl. destruct (Z.eqb_spec d 0) as [->|]; done.
Qed.
Lemma rev_replicate z (x : Z) : rev (replicate z x) = replicate z x.
Proof. rewrite rev_alt. apply reverse_replicate. Qed.
Lemma Forall_zeros z base : 1 < base → Forall (λ d, 0 ≤ d < base) (replicate z 0).
Proof. intros. apply Forall_replicate. lia. Qed.

Lemma value_high_zeros base z l : 1 < base → last l ≠ Some 0 →
  Forall (λ d, 0 ≤ d < base) (replicate z 0 ++ rev l) →
  value base (rev (replicate z 0 ++ rev l)) = value base l ∧ canonical base l.
Proof.
  intros Hb Hl [_ Hf]%Forall_app. rewrite rev_app_distr, rev_replicate, rev_involutive, value_zeros.
  split; [done|]. split; [|done]. rewrite <- (rev_involutive l). by apply Forall_rev.
Qed.

(** Every non-empty list of bytes is what its text decodes to. *)
Lemma unbase58_encode data : Forall is_byte data → data ≠ [] →
  unbase58 (encodeProviderSettlementBase58 data) = data.
Proof.
  intros Hbytes Hne. destruct (leading_zeros_split data) as (rest & Hdata & Hlast).
  set (z := leading_zeros data) in *. set (n := number_of data).
  assert (Hn : n = value 256 (rev rest) ∧ canonical 256 (rev rest)).
  { unfold n. rewrite number_of_value, Hdata.
    destruct (value_high_zeros 256 z (rev rest)) as [Hv Hc]; [lia|done| |].
    { by rewrite rev_involutive, <- Hdata. }
    rewrite rev_involutive in Hv. done. }
  destruct Hn as [Hn Hcan].
  pose proof (value_nonneg 256 ltac:(lia) (rev rest) (proj1 Hcan)) as Hpos.
  assert (Hbig : 0 ≤ n < 58 ^ Z.of_nat (2 * length data)).
  { rewrite Hn. split; [done|]. pose proof (value_bound 256 ltac:(lia) _ (proj1 Hcan)) as Hv.
    rewrite length_rev in Hv. eapply Z.lt_le_trans; [exact Hv|].
    replace (58 ^ Z.of_nat (2 * length data)) with (3364 ^ Z.of_nat (length data))
      by (rewrite Nat2Z.inj_mul, Z.pow_mul_r by lia; done).
    transitivity (256 ^ Z.of_nat (length data)); [|apply Z.pow_le_mono_l; lia]. apply Z.pow_le_mono_r; [lia|].
    rewrite Hdata, length_app. lia. }
  destruct (digits_spec 58 ltac:(lia) _ _ Hbig) as [[Hf Hl] Hv].
  assert (Hall : Forall (λ d, 0 ≤ d < 58)
      (replicate z 0 ++ rev (digits 58 (2 * length data) n))).
  { apply Forall_app. split; [by apply Forall_zeros|by apply Forall_rev]. }
  unfold encodeProviderSettlementBase58. fold n z. rewrite base58_digits_eq.
  set (ds := digits 58 (2 * length data) n) in *.
  rewrite bool_decide_eq_false_2.
  2:{ intros [Hds Hz]%app_eq_nil. apply Hne. rewrite Hdata. rewrite Hds in Hv. cbn in Hv.
      destruct (rev rest) as [|x l] eqn:Hr.
      - apply (f_equal (@rev Z)) in Hr. rewrite rev_involutive in Hr. by rewrite Hr, Hz.
      - pose proof (value_pos 256 ltac:(lia) x l Hcan). lia. }
  unfold unbase58. rewrite String.list_ascii_of_string_of_list_ascii, <- list_fmap_compose.
  rewrite rev_app_distr, rev_replicate.
  replace ((digit58 ∘ base58_digit) <$> (replicate z 0 ++ rev ds)) with (replicate z 0 ++ rev ds).
  2:{ symmetry. transitivity (id <$> (replicate z 0 ++ rev ds)); [|apply list_fmap_id].
      apply Forall_fmap_ext_1. eapply Forall_impl; [exact Hall|]. intros d. apply digit58_spec. }
  rewrite (leading_zeros_replicate z) by (by rewrite rev_involutive).
  destruct (value_high_zeros 58 z ds) as [-> _]; [lia|done..|].
  rewrite Hv. transitivity (replicate z 0 ++ rest); [|done]. f_equal.
  transitivity (rev (rev rest)); [|apply rev_involutive]. f_equal.
  destruct (digits_spec 256 ltac:(lia) (length (replicate z 0 ++ rev ds)) n) as [Hc Hn'].
  { split; [lia|]. pose proof (value_bound 58 ltac:(lia) _ Hf) as Hb. rewrite Hv in Hb.
    eapply Z.lt_le_trans; [exact Hb|].
    transitivity (256 ^ Z.of_nat (length ds)); [apply Z.pow_le_mono_l; lia|]. apply Z.pow_le_mono_r; [lia|].
    rewrite length_app, length_rev. lia. }
  apply (value_inj 256); [lia|done|done|]. by rewrite Hn'.
Qed.

(** ** Peer ids *)

(** A node's peer id decodes, in base58, to the multihash header followed by the
    SHA-256 digest of the 33 bytes of its key: nodes that share a peer id have keys of
    the same digest. *)
Theorem peer_ids_name_keys nodeID peerID :
  deriveProviderSettlementPeerIDFromNodeID nodeID = Ok peerID →
  ∃ key, hex_decode (TrimPrefix (TrimSpace nodeID) "0x") = Ok key ∧ length key = 33%nat
    ∧ unbase58 peerID = [18; 32] ++ sha256 key.
Proof.
  unfold deriveProviderSettlementPeerIDFromNodeID.
  destruct (hex_decode _) as [key|e]; [|done].
  destruct (Nat.eqb_spec (length key) 33) as [Hlen|]; [|done]. cbn [negb]. intros [= <-].
  exists key. split; [done|]. split; [done|]. apply unbase58_encode; [|done].
  apply Forall_app. split; [|apply sha256_bytes]. repeat constructor; done.
Qed.
Lemma peer_ids_name_keys_witness :
  let nodeID := "0x0279be667ef9dcbbac55a06295ce870b07029bfcdb2dce28d959f2815b16f81798" in
  ∃ peerID key, deriveProviderSettlementPeerIDFromNodeID nodeID = Ok peerID
    ∧ hex_decode (TrimPrefix (TrimSpace nodeID) "0x") = Ok key ∧ length key = 33%nat
    ∧ unbase58 peerID = [18; 32] ++ sha256 key.
Proof.
  intros nodeID. eexists.
  assert (H : deriveProviderSettlementPeerIDFromNodeID nodeID = Ok _) by (vm_compute; reflexivity).
  destruct (peer_ids_name_keys nodeID _ H) as (key & Hkey). exists key. split; [exact H|exact Hkey].
Defined.

(** ** Channel lists *)

(** The node lists a ready channel of the asset under the id. *)
Definition listed_ready (script : UDTTypeScript) (channelID : string) (channels : list RawChannel)
    : Prop :=
  channelID ≠ "" ∧ ∃ c, c ∈ channels ∧ TrimSpace (rc_ChannelID c) = channelID
    ∧ channel_ready script c = true.

Lemma ready_ids_spec script admit_id channels id :
  is_Some (ready_ids script admit_id channels !! id)
  ↔ admit_id id = true ∧ listed_ready script id channels.
Proof.
  unfold ready_ids, listed_ready.
  induction channels as [|c channels IH] using rev_ind.
  { cbn. rewrite lookup_empty. split; [by intros []|]. intros (_ & _ & c & Hc & _). by apply elem_of_nil in Hc. }
  rewrite foldl_app. cbn [foldl]. set (ids := foldl _ _ _) in *.
  assert (Hsnoc : (∃ c', c' ∈ channels ++ [c] ∧ TrimSpace (rc_ChannelID c') = id ∧ channel_ready script c' = true)
    ↔ (∃ c', c' ∈ channels ∧ TrimSpace (rc_ChannelID c') = id ∧ channel_ready script c' = true)
      ∨ TrimSpace (rc_ChannelID c) = id ∧ channel_ready script c = true).
  { clear. setoid_rewrite elem_of_app. setoid_rewrite list_elem_of_singleton.
    split; [intros (? & [? | ->] & ? & ?)|intros [(? & ? & ? & ?)|[? ?]]]; eauto 6. }
  rewrite Hsnoc. clear Hsnoc. set (P := ∃ c', _) in *. clearbody ids P.
  destruct (channel_ready script c) eqn:Hr; cbn [negb]; [|rewrite IH; intuition congruence].
  destruct (String.eqb_spec (TrimSpace (rc_ChannelID c)) ""); [rewrite IH; intuition congruence|].
  destruct (admit_id (TrimSpace (rc_ChannelID c))) eqn:Ha; [|rewrite IH; intuition congruence].
  destruct (decide (TrimSpace (rc_ChannelID c) = id)) as [<-|Hne].
  - rewrite lookup_insert_eq. split; [intuition|by eexists].
  - rewrite lookup_insert_ne by done. rewrite IH. intuition.
Qed.

Lemma commonReady_spec tc pc script id : is_Some (commonReadyChannelIDs tc pc script !! id)
  ↔ listed_ready script id tc ∧ listed_ready script id pc.
Proof.
  unfold commonReadyChannelIDs. rewrite ready_ids_spec, bool_decide_eq_true, ready_ids_spec. tauto.
Qed.

Lemma matching_excluding `{MapOrder} tc pc script excluded :
  match matchingReadyChannelIDExcluding tc pc script excluded with
  | Some id => listed_ready script id tc ∧ listed_ready script id pc ∧ excluded !! id = None
  | None => ∀ id, listed_ready script id tc → listed_ready script id pc → is_Some (excluded !! id)
  end.
Proof.
  unfold matchingReadyChannelIDExcluding.
  set (l := map_order _). assert (Hl : ∀ e, e ∈ l ↔ commonReadyChannelIDs tc pc script !! e.1 = Some e.2).
  { intros [id u]. unfold l. rewrite map_order_perm. apply elem_of_map_to_list. }
  destruct (List.find _ l) as [[id u]|] eqn:Hf; cbn.
  - apply find_some in Hf as [Hin Hx]. apply list_elem_of_In, Hl in Hin. cbn in *.
    apply negb_true_iff, bool_decide_eq_false in Hx. apply eq_None_not_Some in Hx.
    destruct (proj1 (commonReady_spec tc pc script id)) as [? ?]; [by eexists|]. done.
  - intros id Ht Hp. destruct (proj2 (commonReady_spec tc pc script id) (conj Ht Hp)) as [u Hu].
    assert (Hin : (id, u) ∈ l) by (by apply Hl). apply list_elem_of_In in Hin.
    pose proof (find_none _ _ Hf _ Hin) as Hn. cbn in Hn.
    apply negb_false_iff, bool_decide_eq_true in Hn. exact Hn.
Qed.

Lemma specific_ready channels id script :
  providerSettlementSpecificChannelReady channels id script = true →
  listed_ready script (TrimSpace id) channels.
Proof.
  unfold providerSettlementSpecificChannelReady. destruct (String.eqb_spec (TrimSpace id) ""); [done|].
  destruct (List.find _ channels) as [c|] eqn:Hf; [|done]. intros Hr. apply find_some in Hf as [Hin He].
  apply String.eqb_eq in He. split; [done|]. exists c. split; [by apply list_elem_of_In|]. done.
Qed.
Lemma both_sides_ready id tc pc script :
  providerSettlementChannelReadyOnBothSides id tc pc script = true →
  listed_ready script (TrimSpace id) tc ∧ listed_ready script (TrimSpace id) pc.
Proof.
  unfold providerSettlementChannelReadyOnBothSides. destruct (String.eqb_spec (TrimSpace id) ""); [done|].
  intros [Ht%specific_ready Hp%specific_ready]%andb_true_iff. by rewrite TrimSpace_idem in Ht, Hp.
Qed.

(** ** Traces *)

Abbreviation F := (ST (list NetEvent)).

Definition opens_channel (e : NetEvent) : bool :=
  match e with ECall _ method _ => String.eqb method "open_channel" | _ => false end.
(** The channels a trace asks for. *)
Abbreviation opens := (count opens_channel).
Definition is_tick (e : NetEvent) : bool := match e with ETick => true | _ => false end.
Abbreviation ticks := (count is_tick).

Abbreviation spends := (Traces.spends opens_channel).

Section traces.
Context `{MapOrder} (env : FnnEnv).

Lemma rpc_spends {T} node method params (target : json → option T) :
  spends (if String.eqb method "open_channel" then 1 else 0) (rpc_Call env node method params target).
Proof. intros h. eexists. split; [done|]. cbn. by destruct (String.eqb method _). Qed.
Lemma NodeInfo_spends node : spends 0 (NodeInfo_ env node).
Proof. apply (rpc_spends node "node_info"). Qed.
Lemma ListChannels_spends node peer : spends 0 (ListChannels env node peer).
Proof. apply (rpc_spends node "list_channels"). Qed.
Lemma AcceptChannel_spends node id hex : spends 0 (AcceptChannel env node id hex).
Proof. apply (rpc_spends node "accept_channel"). Qed.
Lemma connect_spends node address msg : spends 0 (connect env node address msg).
Proof.
  apply spends_bind0; [apply spends_attempt, (rpc_spends node "connect_peer")|]. solve_spends.
Qed.
Lemma OpenChannel_spends node peer hex script : spends 1 (OpenChannel env node peer hex script).
Proof.
  apply (spends_bind _ 1 0); [apply (rpc_spends node "open_channel")|]. intros. apply spends_ret.
Qed.
Lemma wait_timer_spends delay : spends 0 (wait_timer env delay).
Proof. intros h. by exists [ETimer delay]. Qed.
Lemma wait_tick_spends : spends 0 (wait_tick env).
Proof. intros h. by exists [ETick]. Qed.
Hint Resolve NodeInfo_spends ListChannels_spends AcceptChannel_spends connect_spends
  wait_timer_spends wait_tick_spends : spends.
Lemma reconnect_spends t p pa ta : spends 0 (connectProviderSettlementPeers env t p pa ta).
Proof. unfold connectProviderSettlementPeers. solve_spends. Qed.
Lemma both_channels_spends t p pp tp : spends 0 (both_channels env t p pp tp).
Proof. unfold both_channels. solve_spends. Qed.
Lemma accept_spends tries node id hex delay :
  spends 0 (acceptProviderSettlementChannelWithRetry env tries node id hex delay).
Proof. induction tries as [|tries IH]; cbn; solve_spends. Qed.
Lemma normalize_spends address : spends 0 (providerSettlementNormalizeP2PAddress env address).
Proof.
  unfold providerSettlementNormalizeP2PAddress. solve_spends. intros h. by eexists [_].
Qed.
Hint Resolve reconnect_spends both_channels_spends accept_spends normalize_spends : spends.
Lemma wait_spends fuel attempts i :
  spends 0 (waitForProviderSettlementChannelReady env fuel attempts i).
Proof. revert attempts. induction fuel as [|fuel IH]; intros; cbn; solve_spends. Qed.
Hint Resolve wait_spends : spends.
Lemma open_spends tries node peer hex script delay reconnect : spends 0 reconnect →
  spends tries (openProviderSettlementChannelWithRetry env tries node peer hex script delay reconnect).
Proof.
  intros Hr. induction tries as [|tries IH]; cbn; [apply spends_ret|].
  apply (spends_bind _ 1 tries); [apply spends_attempt, OpenChannel_spends|].
  assert (∀ e, spends tries (throw e : F string)).
  { intros e. eapply spends_weaken; [apply spends_throw|lia]. }
  intros [id|e]; [eapply spends_weaken; [apply spends_ret|lia]|]. solve_spends.
Qed.
Lemma provision_spends fuel tries i : spends 0 (pi_reconnect i) →
  spends (tries * open_retries (pi_cfg i)) (provision env fuel tries i).
Proof.
  intros Hr. induction tries as [|tries IH]; cbn; [apply spends_ret|].
  assert (H0 : ∀ m : F string, spends 0 m → spends (tries * open_retries (pi_cfg i)) m).
  { intros m Hm. eapply spends_weaken; [exact Hm|lia]. }
  assert (Hretry : ∀ e final, spends (tries * open_retries (pi_cfg i))
      (retry_provision i tries e final (provision env fuel tries i))).
  { intros e final. unfold retry_provision. destruct (_ && _); [by apply spends_bind0|].
    apply H0, spends_throw. }
  apply spends_bind; [apply spends_or_fail, open_spends, Hr|]. intros id.
  apply spends_bind0; [auto with spends|]. intros [|]; [|auto].
  apply spends_bind0; [auto with spends|]. intros [|]; [|auto]. apply H0, spends_ret.
Qed.
Lemma meet_spends cfg binding : spends 0 (meet env cfg binding).
Proof. unfold meet. solve_spends. Qed.
Lemma meet_reconnect cfg binding h h' m : meet env cfg binding h = (h', Ok m) →
  spends 0 (mt_reconnect m).
Proof.
  unfold meet. intros Hm. st_inv Hm. subst. apply reconnect_spends.
Qed.
End traces.
#[export] Hint Resolve accept_spends both_channels_spends wait_spends reconnect_spends : spends.

(** ** What a returned channel is *)

Section ready.
Context `{MapOrder} (env : FnnEnv).

(** In the trace, the node answered with these channels to the peer. *)
Definition saw (h : list NetEvent) (node peer : string) (channels : list RawChannel) : Prop :=
  ∃ h0 h1, ListChannels env node peer h0 = (h1, Ok channels) ∧ h1 `prefix_of` h.
(** Both nodes listed the channel ready, for the asset of the wait. *)
Definition seen_ready (h : list NetEvent) (i : WaitInput) (channelID : string) : Prop :=
  ∃ tc pc, saw h (wi_treasuryNode i) (wi_providerPeerID i) tc
    ∧ saw h (wi_providerNode i) (wi_treasuryPeerID i) pc
    ∧ listed_ready (wi_udtTypeScript i) channelID tc
    ∧ listed_ready (wi_udtTypeScript i) channelID pc.

Lemma saw_prefix h h' node peer channels : saw h node peer channels → h `prefix_of` h' →
  saw h' node peer channels.
Proof. intros (h0 & h1 & Hl & Hp) Hh. exists h0, h1. split; [done|]. by etransitivity. Qed.
Lemma both_channels_Ok t p pp tp h h' tc pc :
  both_channels env t p pp tp h = (h', Ok (tc, pc)) → saw h' t pp tc ∧ saw h' p tp pc.
Proof.
  unfold both_channels. intros Hb. apply bind_Ok in Hb as (h1 & tc' & Ht%or_fail_Ok & Hb).
  apply bind_Ok in Hb as (h2 & pc' & Hp%or_fail_Ok & Hb). injection Hb as -> -> ->.
  pose proof (spends_prefix _ _ _ _ _ _ (ListChannels_spends env _ _) Hp).
  split; eexists _, _; eauto.
Qed.
Lemma ready_channel_spec i tc pc id : ready_channel i tc pc = Some id →
  TrimSpace (wi_temporaryChannelID i) = wi_temporaryChannelID i →
  listed_ready (wi_udtTypeScript i) id tc ∧ listed_ready (wi_udtTypeScript i) id pc
  ∧ (id = wi_temporaryChannelID i ∨ wi_existingReadyChannelIDs i !! id = None).
Proof.
  unfold ready_channel. intros Hr Htrim. destruct (_ && _) eqn:Hb.
  - injection Hr as <-. apply andb_true_iff in Hb as [_ Hb%both_sides_ready]. rewrite Htrim in Hb. tauto.
  - pose proof (matching_excluding tc pc (wi_udtTypeScript i) (wi_existingReadyChannelIDs i)) as Hm.
    rewrite Hr in Hm. tauto.
Qed.
Lemma wait_ready fuel attempts i h h' id :
  waitForProviderSettlementChannelReady env fuel attempts i h = (h', Ok id) →
  TrimSpace (wi_temporaryChannelID i) = wi_temporaryChannelID i →
  seen_ready h' i id ∧ (id = wi_temporaryChannelID i ∨ wi_existingReadyChannelIDs i !! id = None).
Proof.
  intros Hw Htrim. revert attempts h Hw. induction fuel as [|fuel IH]; intros attempts h Hw; [done|].
  cbn in Hw. apply bind_Ok in Hw as (h1 & [tc pc] & Hb & Hw).
  apply both_channels_Ok in Hb as [Ht Hp].
  destruct (ready_channel i tc pc) as [id'|] eqn:Hr.
  - injection Hw as -> ->. apply ready_channel_spec in Hr as (Hlt & Hlp & Hnew); [|done].
    split; [|done]. by exists tc, pc.
  - apply bind_Ok in Hw as (h2 & ? & _ & Hw). apply bind_Ok in Hw as (h3 & [] & _ & Hw); [|done].
    by eapply IH.
Qed.

Lemma open_trimmed tries node peer hex script delay reconnect h h' id :
  openProviderSettlementChannelWithRetry env tries node peer hex script delay reconnect h = (h', Ok id) →
  TrimSpace id = id.
Proof.
  revert h. induction tries as [|tries IH]; intros h Ho; cbn in Ho; [by injection Ho as <- <-|].
  apply bind_Ok in Ho as (h1 & r & Ha & Ho). destruct r as [id'|e].
  - injection Ho as -> ->. rewrite attempt_Ok in Ha. unfold OpenChannel in Ha.
    apply bind_Ok in Ha as (h2 & raw & _ & Ha). injection Ha as _ <-. apply TrimSpace_idem.
  - destruct (_ || _); [done|]. apply bind_Ok in Ho as (h2 & ? & _ & Ho).
    apply bind_Ok in Ho as (h3 & [] & _ & Ho); [|done]. by eapply IH.
Qed.

(** The channel is new: the treasury opened it, or the nodes did not share it before. *)
Definition fresh_channel (h : list NetEvent) (i : ProvisionInput) (id : string) : Prop :=
  wi_existingReadyChannelIDs (pi_wait i) !! id = None
  ∨ ∃ h0 h1, OpenChannel env (wi_treasuryNode (pi_wait i)) (wi_providerPeerID (pi_wait i))
      (pi_fundingHex i) (wi_udtTypeScript (pi_wait i)) h0 = (h1, Ok id) ∧ h1 `prefix_of` h.
Lemma open_returned tries node peer hex script delay reconnect h h' id : spends 0 reconnect →
  (0 < tries)%nat →
  openProviderSettlementChannelWithRetry env tries node peer hex script delay reconnect h = (h', Ok id) →
  ∃ h0, OpenChannel env node peer hex script h0 = (h', Ok id).
Proof.
  intros Hrec. revert h. induction tries as [|tries IH]; intros h Hpos Ho; cbn in Ho; [lia|].
  apply bind_Ok in Ho as (h1 & r & Ha & Ho). rewrite attempt_Ok in Ha. destruct r as [id'|e].
  - injection Ho as -> ->. by exists h.
  - destruct (_ || Nat.eqb tries 0) eqn:Hlast; [done|]. apply orb_false_iff in Hlast as [_ Hlast%Nat.eqb_neq].
    apply bind_Ok in Ho as (h2 & ? & _ & Ho).
    apply bind_Ok in Ho as (h3 & [] & _ & Ho); [|done]. eapply IH; [lia|done].
Qed.

Lemma provision_ready fuel tries i h h' id : spends 0 (pi_reconnect i) →
  (0 < tries)%nat → (0 < open_retries (pi_cfg i))%nat →
  provision env fuel tries i h = (h', Ok id) →
  seen_ready h' (pi_wait i) id ∧ fresh_channel h' i id.
Proof.
  intros Hrec Ht Hretries. revert h Ht. induction tries as [|tries IH]; intros h Ht Hp; [lia|].
  assert (Hretry : ∀ e final h1, retry_provision i tries e final (provision env fuel tries i) h1 = (h', Ok id) →
      seen_ready h' (pi_wait i) id ∧ fresh_channel h' i id).
  { unfold retry_provision. intros e final h1 Hr. destruct (_ && _) eqn:Hb; [|done].
    apply andb_true_iff in Hb as [Hb%negb_true_iff%Nat.eqb_neq _].
    apply bind_Ok in Hr as (h2 & ? & _ & Hr). eapply IH; [lia|done]. }
  cbn in Hp. apply bind_Ok in Hp as (h1 & temp & Hopen%or_fail_Ok & Hp).
  pose proof (open_trimmed _ _ _ _ _ _ _ _ _ _ Hopen) as Htrim.
  apply open_returned in Hopen as (h0 & Hopen); [|done..].
  apply bind_Ok in Hp as (h2 & acc & Hacc & Hp). rewrite attempt_Ok in Hacc. destruct acc as [|e]; [|by eapply Hretry].
  apply bind_Ok in Hp as (h3 & rdy & Hw & Hp). rewrite attempt_Ok in Hw. destruct rdy as [id'|e]; [|by eapply Hretry].
  injection Hp as -> Hid.
  pose proof (spends_prefix _ _ _ _ _ _ (accept_spends env _ _ _ _ _) Hacc).
  pose proof (spends_prefix _ _ _ _ _ _ (wait_spends env _ _ _) Hw).
  apply wait_ready in Hw as [(tc & pc & Hst & Hsp & Hlt & Hlp) Hnew]; [|done]. cbn in *.
  assert (blank id' = false) as Hb.
  { destruct Hlt as (Hne & c & _ & Hc & _). unfold blank. subst id'. rewrite TrimSpace_idem.
    by apply String.eqb_neq. }
  rewrite Hb in Hid. subst id'. split; [by exists tc, pc|].
  destruct Hnew as [->|Hnew]; [right|by left]. exists h0, h1. split; [done|]. by etransitivity.
Qed.
End ready.

(** ** Liquidity *)

Section liquidity.
Context `{MapOrder} (env : FnnEnv) (fuel : nat) (cfg : FNNProviderSettlementProvisionerConfig)
  (input : EnsureProviderLiquidityInput).
Abbreviation binding := (epi_Binding input).
Abbreviation script := (psb_UDTTypeScript binding).
Abbreviation treasury := (fnn_endpoint (fc_TreasuryRPCURL cfg)).
Abbreviation provider := (fnn_endpoint (psb_NodeRPCURL binding)).
(** The most channels one request may ask for. *)
Definition most_opens : nat := Z.to_nat (maxInt 1 (fc_OpenChannelRetries cfg)) * open_retries cfg.

Lemma meet_Ok h h' m : meet env cfg binding h = (h', Ok m) →
  mt_treasuryNode m = treasury ∧ mt_providerNode m = provider
  ∧ (blank (psb_PeerID binding) = false → mt_providerPeerID m = TrimSpace (psb_PeerID binding))
  ∧ saw env h' treasury (mt_providerPeerID m) (mt_treasuryChannels m)
  ∧ saw env h' provider (mt_treasuryPeerID m) (mt_providerChannels m).
Proof.
  unfold meet. intros Hm. st_inv Hm. subst. cbn.
  match goal with Hb : both_channels _ _ _ _ _ _ = _ |- _ => apply both_channels_Ok in Hb as [Ht Hp] end.
  split_and!; [done..| |done|done]. unfold blank. intros Hb. rewrite Hb in *. cbn [negb andb] in *.
  match goal with He : negb (String.eqb _ _) = false |- _ => apply negb_false_iff, String.eqb_eq in He end.
  done.
Qed.

Lemma new_liquidity_spends m : spends 0 (mt_reconnect m) →
  spends most_opens (new_liquidity env fuel cfg m input).
Proof.
  intros Hr. unfold new_liquidity. apply spends_bind0; [auto with spends|]. intros hex.
  eapply spends_weaken; [|apply Nat.eq_le_incl, Nat.add_0_r].
  apply spends_bind; [by apply (provision_spends env)|intros; apply spends_ret].
Qed.
Lemma new_liquidity_Ok m h h' r : 0 < fc_OpenChannelRetries cfg → spends 0 (mt_reconnect m) →
  new_liquidity env fuel cfg m input h = (h', Ok r) →
  let units := neededReserveToFundingUnits (epi_NeededReserveCents input)
                 (fc_CentsPerUnit cfg) (fc_MinFundingUnits cfg) in
  epr_ReuseSource r = ReuseNewChannel
  ∧ epr_TotalSpendableCents r = pool_TotalSpendableCents (epi_CurrentPool input)
      +w fundingUnitsToCents units (fc_CentsPerUnit cfg)
  ∧ ∃ hex, providerSettlementDecimalToHexQuantity units = Ok hex
    ∧ seen_ready env h' (pi_wait (provision_input cfg m script hex)) (epr_ChannelID r)
    ∧ fresh_channel env h' (provision_input cfg m script hex) (epr_ChannelID r).
Proof.
  intros Hpos Hr Hn units. unfold new_liquidity in Hn. fold units in Hn.
  apply bind_Ok in Hn as (h1 & hex & Hhex%or_fail_Ok & Hn). injection Hhex as <- Hhex.
  apply bind_Ok in Hn as (h2 & id & Hp & Hn). injection Hn as <- <-.
  split; [done|]. split; [done|]. exists hex. split; [done|].
  apply (provision_ready env) in Hp; [exact Hp|done| |].
  - unfold maxInt. destruct (_ <? _) eqn:He; lia.
  - unfold open_retries. cbn. lia.
Qed.

(** A request that succeeded met the nodes, and either reused a channel or made one. *)
Inductive ensured (h : list NetEvent) (r : EnsureProviderLiquidityResult) : Prop :=
  | ensured_by h1 m (Hm : meet env cfg binding [] = (h1, Ok m)) (Hrec : spends 0 (mt_reconnect m))
      (Hpre : h1 `prefix_of` h)
      (Hcase : (∃ id, matchingReadyChannelID (mt_treasuryChannels m) (mt_providerChannels m) script = Some id
          ∧ epi_NeededReserveCents input ≤ pool_AvailableToAllocateCents (epi_CurrentPool input)
          ∧ r = reused_liquidity m input id ∧ h = h1)
        ∨ new_liquidity env fuel cfg m input h1 = (h, Ok r)).
Lemma ensure_cases h r : EnsureProviderLiquidity env fuel cfg input [] = (h, Ok r) → ensured h r.
Proof.
  intros He. unfold EnsureProviderLiquidity in He. apply bind_Ok in He as (h1 & m & Hm & He).
  pose proof (meet_reconnect env _ _ _ _ _ Hm) as Hrec.
  assert (Hnew : new_liquidity env fuel cfg m input h1 = (h, Ok r) → ensured h r).
  { intros Hn. apply (ensured_by h r h1 m); [done|done| |by right].
    exact (spends_prefix _ _ _ _ _ _ (new_liquidity_spends m Hrec) Hn). }
  revert He. destruct (matchingReadyChannelID _ _ _) as [id|] eqn:Hid; [|exact Hnew].
  destruct (Z.leb_spec (epi_NeededReserveCents input)
              (pool_AvailableToAllocateCents (epi_CurrentPool input))); [|exact Hnew].
  intros [= <- <-]. apply (ensured_by _ _ h1 m); [done|done|done|]. left. by exists id.
Qed.
Lemma matching_ready tc pc s id : matchingReadyChannelID tc pc s = Some id →
  listed_ready s id tc ∧ listed_ready s id pc.
Proof.
  unfold matchingReadyChannelID. intros Hid. pose proof (matching_excluding tc pc s ∅) as Hx.
  rewrite Hid in Hx. tauto.
Qed.

(** In the trace, both nodes listed the channel ready. *)
Definition backed (h : list NetEvent) (channelID : string) : Prop :=
  ∃ treasuryPeer providerPeer tc pc,
    saw env h treasury providerPeer tc ∧ saw env h provider treasuryPeer pc
    ∧ listed_ready script channelID tc ∧ listed_ready script channelID pc.
Lemma ensure_backed h r : 0 < fc_OpenChannelRetries cfg →
  EnsureProviderLiquidity env fuel cfg input [] = (h, Ok r) → backed h (epr_ChannelID r).
Proof.
  intros Hpos [h1 m Hm Hrec Hpre [(id & Hid & _ & -> & ->)|Hn]]%ensure_cases;
    destruct (meet_Ok _ _ _ Hm) as (Htn & Hpn & _ & Hst & Hsp).
  - apply matching_ready in Hid as [? ?]. by eexists _, _, _, _.
  - apply new_liquidity_Ok in Hn as (_ & _ & hex & _ & (tc & pc & H1 & H2 & H3 & H4) & _); [|done..].
    cbn in *. rewrite Htn, Hpn in *. by eexists _, _, _, _.
Qed.

(** However the nodes behave, one request for liquidity asks the treasury's node
    for at most the square of the configured retries channels: retries of opening, in
    each of the attempts to provision.  It holds of failed requests too. *)
Theorem openings_bounded :
  (opens (EnsureProviderLiquidity env fuel cfg input []).1
     ≤ Z.to_nat (maxInt 1 (fc_OpenChannelRetries cfg)) * Z.to_nat (fc_OpenChannelRetries cfg))%nat.
Proof.
  unfold EnsureProviderLiquidity, mbind, st_bind.
  destruct (meet_spends env cfg binding []) as (t & Ht & Ho).
  destruct (meet env cfg binding []) as [h1 [m|e]] eqn:Hm; cbn in Ht; subst h1; [|cbn [fst]; lia].
  assert (Hnew : (opens (new_liquidity env fuel cfg m input t).1 ≤ most_opens)%nat).
  { destruct (new_liquidity_spends m (meet_reconnect env _ _ _ _ _ Hm) t) as (t' & -> & Ho').
    rewrite counted_app. lia. }
  repeat case_match; try exact Hnew. change (opens t ≤ most_opens)%nat. lia.
Qed.

(** C27. Liquidity is only reported on a channel that both nodes, in this request,
    listed as ready and of the binding's asset, under one and the same identifier; the
    provider's node is the one the binding names when it names one.  A channel is
    reused only when the pool has what is needed, and then nothing was opened; a new
    one was opened by the treasury in this request, or was not ready on both sides when
    the request began. *)
Theorem liquidity_channels_are_ready h r :
  0 < fc_OpenChannelRetries cfg →
  EnsureProviderLiquidity env fuel cfg input [] = (h, Ok r) →
  ∃ treasuryPeer providerPeer tc pc,
    saw env h treasury providerPeer tc ∧ saw env h provider treasuryPeer pc
    ∧ listed_ready script (epr_ChannelID r) tc ∧ listed_ready script (epr_ChannelID r) pc
    ∧ (blank (psb_PeerID binding) = false → providerPeer = TrimSpace (psb_PeerID binding))
    ∧ match epr_ReuseSource r with
      | ReuseReused =>
          epi_NeededReserveCents input ≤ pool_AvailableToAllocateCents (epi_CurrentPool input)
          ∧ opens h = 0%nat
      | ReuseNewChannel =>
          (∃ hex h0 h1, OpenChannel env treasury providerPeer hex script h0 = (h1, Ok (epr_ChannelID r))
             ∧ h1 `prefix_of` h)
          ∨ ∃ tc0 pc0, saw env h treasury providerPeer tc0 ∧ saw env h provider treasuryPeer pc0
             ∧ ¬ (listed_ready script (epr_ChannelID r) tc0 ∧ listed_ready script (epr_ChannelID r) pc0)
      end.
Proof.
  intros Hpos [h1 m Hm Hrec Hpre [(id & Hid & Hle & -> & ->)|Hn]]%ensure_cases;
    destruct (meet_Ok _ _ _ Hm) as (Htn & Hpn & Hpeer & Hst & Hsp).
  - apply matching_ready in Hid as [Hlt Hlp].
    exists (mt_treasuryPeerID m), (mt_providerPeerID m), (mt_treasuryChannels m), (mt_providerChannels m).
    split_and!; try done. split; [exact Hle|].
    destruct (meet_spends env cfg binding []) as (t & Ht & Ho).
    rewrite Hm in Ht. cbn in Ht. subst. by apply Nat.le_0_r.
  - apply new_liquidity_Ok in Hn as (Hsrc & _ & hex & _ & (tc & pc & H1 & H2 & H3 & H4) & Hf); [|done..].
    unfold fresh_channel in Hf. cbn in *. rewrite Htn, Hpn in *.
    exists (mt_treasuryPeerID m), (mt_providerPeerID m), tc, pc. split_and!; try done.
    rewrite Hsrc. destruct Hf as [Hf|(h0 & h2 & Ho & Hp)]; [right|left; by exists hex, h0, h2].
    exists (mt_treasuryChannels m), (mt_providerChannels m).
    split_and!; [by eapply saw_prefix..|]. intros [Ht Hp].
    destruct (proj2 (commonReady_spec _ _ _ _) (conj Ht Hp)) as [u Hu]. congruence.
Qed.
End liquidity.

(** ** The end of a request *)

(** From a trace, the computation does not run out of fuel. *)
Definition ends {A} (m : F A) (h : list NetEvent) : Prop := (m h).2 ≠ Err out_of_fuel.

Lemma ends_bind {A B} (m : F A) (f : A → F B) h :
  ends m h → (∀ x h', m h = (h', Ok x) → ends (f x) h') → ends (m ≫= f) h.
Proof.
  unfold ends, mbind, st_bind. destruct (m h) as [h1 [x|e]]; intros Hm Hf; [by apply Hf|].
  cbn in *. congruence.
Qed.
Lemma ends_attempt {A} (m : F A) h : ends (attempt m) h.
Proof. unfold ends, attempt. by destruct (m h). Qed.
Lemma ends_or_fail {A} (m : F A) msg h : ends (or_fail m msg) h.
Proof. apply ends_bind; [apply ends_attempt|]. by intros [x|e] h' _. Qed.

Section ends.
Context `{MapOrder} (env : FnnEnv).

Lemma ends_connect node address msg h : ends (connect env node address msg) h.
Proof. apply ends_bind; [apply ends_attempt|]. intros [x|e] h' _; [done|]. by case_match. Qed.
Lemma ends_reconnect t p pa ta h : ends (connectProviderSettlementPeers env t p pa ta) h.
Proof. apply ends_bind; [apply ends_connect|]. intros. apply ends_connect. Qed.
Lemma ends_both t p pp tp h : ends (both_channels env t p pp tp) h.
Proof.
  apply ends_bind; [apply ends_or_fail|]. intros. apply ends_bind; [apply ends_or_fail|]. done.
Qed.
Lemma ends_meet cfg binding h : ends (meet env cfg binding) h.
Proof.
  unfold meet. repeat (apply ends_bind; [first [apply ends_or_fail|apply ends_reconnect|apply ends_both
    |unfold ends; by destruct (_ : bool)]|intros ? ? _]). by case_match.
Qed.
Lemma meet_reconnect_ends cfg binding h h' m : meet env cfg binding h = (h', Ok m) →
  ∀ h, ends (mt_reconnect m) h.
Proof. unfold meet. intros Hm. st_inv Hm. subst. intros. apply ends_reconnect. Qed.

(** There is a last tick. *)
Context (N : nat) (Htick : ∀ h, fe_tick env h = true → (ticks h < N)%nat).

Lemma ends_wait fuel attempts i h : (0 < fuel)%nat → (N < fuel + ticks h)%nat →
  ends (waitForProviderSettlementChannelReady env fuel attempts i) h.
Proof using Htick.
  revert attempts h. induction fuel as [|fuel IH]; intros attempts h Hpos HN; [lia|]. cbn.
  apply ends_bind; [apply ends_both|]. intros [tc pc] h1 Hb.
  destruct (ready_channel i tc pc); [done|]. apply ends_bind.
  { case_match; [|done]. apply ends_bind; [apply ends_attempt|]. intros [x|e] ? _; [done|]. by case_match. }
  intros u h2 Ha. apply ends_bind; [done|]. intros ticked h3 Ht. injection Ht as <- Hticked.
  destruct ticked; [|done]. pose proof (Htick _ Hticked).
  assert (Hgrow : (ticks h ≤ ticks h2)%nat).
  { pose proof (spends_prefix _ _ _ _ _ _ (both_channels_spends env _ _ _ _) Hb) as [t1 ->].
    assert (Hp : h ++ t1 `prefix_of` h2).
    { eapply (spends_prefix _ 0); [|exact Ha]. solve_spends. }
    destruct Hp as [t2 ->]. rewrite !counted_app. lia. }
  apply IH; rewrite ?counted_app; cbn [ticks]; change (ticks [ETick]) with 1%nat; lia.
Qed.
Lemma ends_provision fuel tries i h : (∀ h, ends (pi_reconnect i) h) → (N < fuel)%nat →
  ends (provision env fuel tries i) h.
Proof using Htick.
  intros Hrec HN. revert h. induction tries as [|tries IH]; intros h; [done|]. cbn.
  assert (Hretry : ∀ e final h, final ≠ out_of_fuel →
      ends (retry_provision i tries e final (provision env fuel tries i)) h).
  { intros e final h' Hf. unfold retry_provision. destruct (_ && _); [apply ends_bind; auto|].
    by intros [= ?]. }
  apply ends_bind; [apply ends_or_fail|]. intros temp h1 _.
  apply ends_bind; [apply ends_attempt|]. intros [x|e] h2 _; [|by apply Hretry].
  apply ends_bind; [apply ends_attempt|]. intros [x'|e] h3 Hw; [done|].
  apply Hretry. rewrite attempt_Ok in Hw. intros ->.
  eapply (ends_wait fuel 0 _ h2); [lia|lia|]. by rewrite Hw.
Qed.

(** C37. A request for liquidity ends.  Its loop of polling has no bound of its own:
    once the context's deadline is past, [select] takes no further tick, so if at most
    [N] ticks come before it, more than [N] units of fuel are enough, however many
    times the wait is started again. *)
Theorem requests_end fuel cfg input : (N < fuel)%nat →
  (EnsureProviderLiquidity env fuel cfg input []).2 ≠ Err out_of_fuel.
Proof using Htick.
  intros HN. apply ends_bind; [apply ends_meet|]. intros m h1 Hm.
  assert (Hnew : ends (new_liquidity env fuel cfg m input) h1).
  { apply ends_bind; [apply ends_or_fail|]. intros hex h2 _. apply ends_bind; [|done].
    apply ends_provision; [by eapply meet_reconnect_ends|done]. }
  by repeat case_match.
Qed.
End ends.

(** ** Timeouts *)

Definition wait_timeout : error :=
  Errf "timeout waiting provider settlement channel to reach CHANNEL_READY".

Section deadline.
Context `{MapOrder} (env : FnnEnv).

(** Once [ctx.Done()] is what the wait saw, every request made with the context fails. *)
Definition after_deadline (e : error) : Prop := ∀ h h' endpoint method params,
  fe_tick env h = false → (h ++ [ETick]) `prefix_of` h' →
  fe_call env h' endpoint method params = Err e.

Lemma wait_timeout_tick fuel attempts i h h' :
  waitForProviderSettlementChannelReady env fuel attempts i h = (h', Err wait_timeout) →
  ∃ h0, fe_tick env h0 = false ∧ h' = h0 ++ [ETick].
Proof.
  revert attempts h. induction fuel as [|fuel IH]; intros attempts h Hw; [done|].
  cbn in Hw. apply bind_Err in Hw as [Hb|([tc pc] & h1 & _ & Hw)].
  { apply bind_Err in Hb as [[? Hb]%or_fail_Err|(? & ? & _ & Hb)]; [done|].
    by apply bind_Err in Hb as [[? Hb]%or_fail_Err|(? & ? & _ & Hb)]. }
  destruct (ready_channel i tc pc); [done|]. apply bind_Err in Hw as [Ha|(u & h2 & _ & Hw)].
  { destruct (accept_again _ _ _); [|done]. apply bind_Err in Ha as [Ha|([] & ? & _ & Ha)].
    - unfold attempt in Ha. by destruct (acceptProviderSettlementChannelWithRetry _ _ _ _ _ _ _).
    - done.
    - by destruct (isProviderSettlementAcceptRetryable e). }
  unfold wait_tick in Hw. apply bind_Err in Hw as [Hw|([] & h3 & Ht & Hw)]; [done|by eapply IH|].
  injection Ht as <- Ht. injection Hw as <-. by exists h2.
Qed.

(** A channel that does not become ready is not tried again, although its timeout
    is among the errors the provisioner retries and attempts remain.  The wait ends
    with the deadline of the whole request, not one of its own, so the peers cannot be
    connected again: the request fails there, with the error of the first call. *)
Theorem timeouts_are_not_retried fuel tries i e t p pa ta h h1 h2 h3 temporaryChannelID :
  after_deadline e → isProviderSettlementConnectRetryableSuccess e = false →
  pi_reconnect i = connectProviderSettlementPeers env t p pa ta →
  openProviderSettlementChannelWithRetry env (open_retries (pi_cfg i)) (wi_treasuryNode (pi_wait i))
    (wi_providerPeerID (pi_wait i)) (pi_fundingHex i) (wi_udtTypeScript (pi_wait i))
    (fc_PollInterval (pi_cfg i)) (pi_reconnect i) h = (h1, Ok temporaryChannelID) →
  acceptProviderSettlementChannelWithRetry env (Z.to_nat (fc_AcceptChannelRetries (pi_cfg i)))
    (wi_providerNode (pi_wait i)) temporaryChannelID (wi_acceptFundingHex (pi_wait i))
    (fc_PollInterval (pi_cfg i)) h1 = (h2, Ok tt) →
  waitForProviderSettlementChannelReady env fuel 0 (wait_for i temporaryChannelID) h2
    = (h3, Err wait_timeout) →
  provision env fuel (S (S tries)) i h
    = (h3 ++ [ECall t "connect_peer" (JArr [string_json [("address", pa)]])],
       Err (EPrefix "connect treasury -> provider" e)).
Proof.
  intros Hlaw He Hrec Hopen Hacc Hwait.
  destruct (wait_timeout_tick _ _ _ _ _ Hwait) as (h0 & Ht & ->).
  cbn [provision]. rewrite (bind_run _ _ _ _ _ (or_fail_run _ "open channel" _ _ _ Hopen)).
  rewrite (attempt_run _ _ _ _ _ Hacc), (attempt_run _ _ _ _ _ Hwait).
  unfold retry_provision. change (isProviderSettlementProvisionRetryable wait_timeout) with true.
  cbn [Nat.eqb negb andb]. rewrite Hrec.
  set (ev := ECall _ _ _).
  assert (Hcall : ConnectPeer env t pa (h0 ++ [ETick]) = ((h0 ++ [ETick]) ++ [ev], Err e)).
  { unfold ConnectPeer, rpc_Call. by rewrite (Hlaw h0). }
  unfold connectProviderSettlementPeers, connect.
  pose proof (attempt_run _ (λ r, match r with
    | Ok _ => mret tt
    | Err e => if isProviderSettlementConnectRetryableSuccess e then mret tt
               else throw (EPrefix "connect treasury -> provider" e) end) _ _ _ Hcall) as Hrun.
  cbn beta iota in Hrun. rewrite He in Hrun. unfold mbind, st_bind in Hrun |- *. by rewrite Hrun.
Qed.
End deadline.

(** ** Two nodes *)

Definition demo_script : UDTTypeScript := mkUDTTypeScript "0xC0DE" "type" "0x01".
Definition demo_fnn_config : FNNProviderSettlementProvisionerConfig :=
  mkFnnConfig "http://treasury/" "10.0.0.1" 8228 1 2 2 2 1 100 1.
Definition demo_binding : ProviderSettlementBinding :=
  mkProviderSettlementBinding "psb_1" "p1" "CKB" "QmaJf9VYSWHF41qhopp1WJESx9uCrLyEHVFQVryx4PE3iE"
    "/ip4/10.0.0.2/tcp/8228/p2p/x" "http://provider" ""
    demo_script "" "active" 0 None None.
Definition demo_pool (available : Z) : ProviderLiquidityPool :=
  mkProviderLiquidityPool "psb_1" "p1" "CKB" PoolStatusHealthy 0 available 0 available None None None "".
Definition demo_input (needed available : Z) : EnsureProviderLiquidityInput :=
  mkEnsureInput "p1" demo_binding needed (demo_pool available).

Definition node_key (endpoint : string) : string :=
  if String.eqb endpoint "http://treasury"
  then "0x0279be667ef9dcbbac55a06295ce870b07029bfcdb2dce28d959f2815b16f81798"
  else "0x02c6047f9441ed7d6d3045406e95c07cd85c778e4b8cef3ca7abac09b95c709ee5".
Definition channel_json (id state : string) : json :=
  JObj [("channel_id", JStr id); ("state", JObj [("state_name", JStr state)]);
        ("funding_udt_type_script",
          JObj [("code_hash", JStr "0xc0de"); ("hash_type", JStr "type"); ("args", JStr "0x01")])].
(** A channel that is opened is ready one tick later; requests fail past the deadline,
    which comes after [limit] ticks. *)
Definition demo_call (limit : nat) (h : list NetEvent) (method : string) : result (option json) :=
  let answer v := Ok (Some (JObj [("result", v)])) in
  if (limit <? ticks h)%nat then Err deadline_exceeded
  else if String.eqb method "open_channel" then answer (JObj [("temporary_channel_id", JStr "0xt1")])
  else if String.eqb method "list_channels" then
    answer (JObj [("channels", JArr
      (if Nat.eqb (opens h) 0 then []
       else [channel_json "0xc1" (if Nat.eqb (ticks h) 0 then "AWAITING_CHANNEL_READY" else "CHANNEL_READY")]))])
  else answer (JObj []).
Definition demo_env (limit : nat) : FnnEnv := mkFnnEnv
  (λ h endpoint method _,
    if String.eqb method "node_info"
    then if (limit <? ticks h)%nat then Err deadline_exceeded
         else Ok (Some (JObj [("result", JObj [("node_id", JStr (node_key endpoint))])]))
    else demo_call limit h method)
  (λ _ host, Ok [Some host])
  (λ _ _, true)
  (λ h, (ticks h <? limit)%nat).

#[local] Existing Instance plain_order.
Definition demo_run (limit : nat) : list NetEvent * result EnsureProviderLiquidityResult :=
  EnsureProviderLiquidity (demo_env limit) 5 demo_fnn_config (demo_input 250 100) [].

Lemma demo_deadline limit : after_deadline (demo_env limit) deadline_exceeded.
Proof.
  intros h h' endpoint method params Ht [t ->]. cbn -[Nat.ltb ticks] in *.
  apply Nat.ltb_ge in Ht. unfold demo_call.
  assert (Hl : (limit <? ticks ((h ++ [ETick]) ++ t))%nat = true).
  { apply Nat.ltb_lt. rewrite !counted_app. change (ticks [ETick]) with 1%nat. lia. }
  rewrite Hl. by destruct (String.eqb method _).
Qed.

Definition demo_liquidity : EnsureProviderLiquidityResult :=
  mkEnsureResult "0xc1" ReuseNewChannel 1 400 None.
Lemma demo_liquidity_run : EnsureProviderLiquidity (demo_env 2) 5 demo_fnn_config (demo_input 250 100) []
  = ((demo_run 2).1, Ok demo_liquidity).
Proof. vm_compute. reflexivity. Qed.
Lemma liquidity_channels_are_ready_witness :
  ∃ treasuryPeer providerPeer tc pc,
    saw (demo_env 2) (demo_run 2).1 (fnn_endpoint (fc_TreasuryRPCURL demo_fnn_config)) providerPeer tc
    ∧ saw (demo_env 2) (demo_run 2).1 (fnn_endpoint (psb_NodeRPCURL demo_binding)) treasuryPeer pc
    ∧ listed_ready demo_script (epr_ChannelID demo_liquidity) tc
    ∧ listed_ready demo_script (epr_ChannelID demo_liquidity) pc.
Proof.
  destruct (liquidity_channels_are_ready (demo_env 2) 5 demo_fnn_config (demo_input 250 100)
    (demo_run 2).1 demo_liquidity eq_refl demo_liquidity_run) as (tp & pp & tc & pc & H1 & H2 & H3 & H4 & _).
  exists tp, pp, tc, pc. exact (conj H1 (conj H2 (conj H3 H4))).
Defined.

Lemma requests_end_witness :
  (∀ h, fe_tick (demo_env 2) h = true → (ticks h < 2)%nat)
  ∧ (EnsureProviderLiquidity (demo_env 2) 5 demo_fnn_config (demo_input 250 100) []).2 ≠ Err out_of_fuel.
Proof.
  assert (Ht : ∀ h, fe_tick (demo_env 2) h = true → (ticks h < 2)%nat).
  { intros h. apply Nat.ltb_lt. }
  split; [exact Ht|]. apply (requests_end (demo_env 2) 2 Ht 5 demo_fnn_config (demo_input 250 100)). lia.
Defined.

(** The channel of the first attempt, and what the wait for it meets. *)
Definition demo_meeting : Meeting :=
  mkMeeting "http://treasury" "http://provider" (mkNodeInfo "" "" []) "t" "p"
    (connectProviderSettlementPeers (demo_env 0) "http://treasury" "http://provider" "pa" "ta") [] [].
Definition demo_provision : ProvisionInput :=
  provision_input demo_fnn_config demo_meeting demo_script "0x3".
Definition demo_opened : list NetEvent := Eval vm_compute in
  (openProviderSettlementChannelWithRetry (demo_env 0) 2 "http://treasury" "p" "0x3"
    demo_script 1 (pi_reconnect demo_provision) []).1.
Definition demo_accepted : list NetEvent := Eval vm_compute in
  (acceptProviderSettlementChannelWithRetry (demo_env 0) 2 "http://provider" "0xt1" "0x1" 1
    demo_opened).1.
Definition demo_waited : list NetEvent := Eval vm_compute in
  (waitForProviderSettlementChannelReady (demo_env 0) 5 0 (wait_for demo_provision "0xt1") demo_accepted).1.
Lemma timeouts_are_not_retried_witness :
  provision (demo_env 0) 5 2 demo_provision []
  = (demo_waited ++ [ECall "http://treasury" "connect_peer" (JArr [string_json [("address", "pa")]])],
     Err (EPrefix "connect treasury -> provider" deadline_exceeded)).
Proof.
  refine (timeouts_are_not_retried (demo_env 0) 5 0 demo_provision deadline_exceeded "http://treasury"
    "http://provider" "pa" "ta" [] demo_opened demo_accepted demo_waited "0xt1" (demo_deadline 0)
    eq_refl eq_refl _ _ _); vm_compute; reflexivity.
Defined.

(** * A platform that provisions over FNN nodes

    The platform of [ProviderSettlement] with the provisioner of [Fnn]: what backs a
    reservation, and that the reserve an award asks for is covered. *)

(** ** What the answer is worth *)

(** Amounts the wrapping arithmetic carries exactly. *)
Definition moderate_pool (pool : ProviderLiquidityPool) : Prop :=
  0 ≤ pool_ReservedOutstandingCents pool ≤ pool_TotalSpendableCents pool
  ∧ pool_TotalSpendableCents pool ≤ 2 ^ 61
  ∧ 0 ≤ pool_AvailableToAllocateCents pool ≤ 2 ^ 61.
Definition moderate_config (cfg : FNNProviderSettlementProvisionerConfig) : Prop :=
  0 < fc_OpenChannelRetries cfg ∧ 0 ≤ fc_CentsPerUnit cfg ≤ 2 ^ 30 ∧ 0 < fc_MinFundingUnits cfg ≤ 2 ^ 30.

Section worth.
Context `{MapOrder} (env : FnnEnv) (fuel : nat) (cfg : FNNProviderSettlementProvisionerConfig).

(** An answer of the provisioner covers what the platform asked for on top of what
    it had reserved, whether the channel is reused or new, so the platform's own check
    of the answer never refuses it; and the answer is an [int64]. *)
Theorem answers_cover_the_reserve input h r :
  moderate_config cfg → moderate_pool (epi_CurrentPool input) →
  0 < epi_NeededReserveCents input ≤ 2 ^ 61 →
  EnsureProviderLiquidity env fuel cfg input [] = (h, Ok r) →
  pool_ReservedOutstandingCents (epi_CurrentPool input) + epi_NeededReserveCents input
    ≤ epr_TotalSpendableCents r ≤ max_int64.
Proof.
  intros (Hpos & Hper & Hmin) (Hres & Htot & Hav) Hneed
    [h1 m Hm Hrec Hpre [(id & _ & Hle & -> & _)|Hn]]%ensure_cases.
  - cbn. unfold maxInt64. rewrite add64_exact by in64_lia. case_match; in64_lia.
  - apply new_liquidity_Ok in Hn as (_ & -> & _); [|done..].
    destruct (funding_units_spec (epi_NeededReserveCents input) (fc_CentsPerUnit cfg)
      (fc_MinFundingUnits cfg)) as (Hrate & _ & _ & Hcov & Hmax & ->); [lia..|].
    set (rate := if _ <=? 0 then _ else _) in *.
    assert (fc_MinFundingUnits cfg * rate ≤ 2 ^ 60) by nia.
    rewrite add64_exact by in64_lia. in64_lia.
Qed.
End worth.

Lemma answers_cover_the_reserve_witness :
  (moderate_config demo_fnn_config ∧ moderate_pool (demo_pool 100)) ∧
  0 + 250 ≤ epr_TotalSpendableCents demo_liquidity ≤ max_int64.
Proof.
  assert (Hc : moderate_config demo_fnn_config) by (unfold moderate_config; cbn; lia).
  assert (Hp : moderate_pool (demo_pool 100)) by (unfold moderate_pool; cbn; lia).
  split; [exact (conj Hc Hp)|].
  exact (answers_cover_the_reserve (demo_env 2) 5 demo_fnn_config (demo_input 250 100)
    (demo_run 2).1 demo_liquidity Hc Hp ltac:(cbn; lia) demo_liquidity_run).
Defined.

(** ** What backs a reservation *)

Section platform.
Context `{Storage} `{MapOrder} (fuel : nat) (cfg : FNNProviderSettlementProvisionerConfig)
  (envs : list EnsureProviderLiquidityInput → FnnEnv).

Lemma reserve_begin_binding org a a1 s : reserve_begin org a = (a1, Ok (Some s)) →
  rs_Binding s ∈ settlementBindings a ∧ psb_Status (rs_Binding s) = "active".
Proof.
  intros Hb. unfold reserve_begin in Hb. st_inv Hb; simplify_eq. cbn.
  assert (Hsame : settlementBindings s0 = settlementBindings a).
  { unfold activeCarrierBinding in Hm. injection Hm as <- _. by case_match. }
  match goal with Ha : activeSettlementBinding _ _ = (_, Ok (Some _)) |- _ =>
    unfold activeSettlementBinding in Ha; injection Ha as <- Hl end.
  apply bind_Some in Hl as (i & _ & Hi). apply list_elem_of_lookup_2 in Hi.
  match goal with Hs : negb (String.eqb _ _) = false |- _ => apply negb_false_iff, String.eqb_eq in Hs end.
  split; [|done]. rewrite <- Hsame. by case_match.
Qed.

(** C6. Every reservation a platform makes over FNN nodes stands on a channel: for an
    active binding of the platform, the reservation's, the treasury's node and the
    binding's both listed the reservation's channel ready, and of the binding's asset,
    while the reservation was made. *)
Theorem reservations_have_channels org c a a' r :
  0 < fc_OpenChannelRetries cfg → settlementProvisioner a = Some (fnn_provisioner fuel cfg envs) →
  maybeReserveProviderSettlementLiquidity org c a = (a', Ok (Some r)) →
  ∃ input asked h, epi_Binding input ∈ settlementBindings a
    ∧ psb_ID (epi_Binding input) = plr_BindingID r ∧ psb_Status (epi_Binding input) = "active"
    ∧ epi_NeededReserveCents input = plr_ReservedCents r
    ∧ backed (envs asked) cfg input h (plr_ChannelID r).
Proof.
  intros Hpos Hprov Hr. apply maybeReserve_Ok in Hr as (s & a1 & a2 & needed & result & Hb & Hp & Hc).
  destruct (reserve_begin_Ok _ _ _ _ Hb) as (_ & _ & _ & Hsp). rewrite Hprov in Hsp.
  apply reserve_begin_binding in Hb as [Hin Hst].
  unfold reserve_provision in Hp. rewrite Hsp in Hp. st_inv Hp; simplify_eq.
  match goal with He : ensure _ _ _ = _ |- _ => unfold ensure in He; injection He as _ He end.
  unfold fnn_provisioner in *.
  match goal with He : (EnsureProviderLiquidity ?env _ _ ?input []).2 = _ |- _ =>
    exists input, (ext_provisioned (ext a1)), (EnsureProviderLiquidity env fuel cfg input []).1;
    assert (Hrun : EnsureProviderLiquidity env fuel cfg input [] = ((EnsureProviderLiquidity env fuel cfg input []).1, Ok result))
      by (by apply run_result) end.
  unfold reserve_commit in Hc. st_inv Hc. subst. cbn. split_and!; [done..|].
  by apply ensure_backed in Hrun.
Qed.
End platform.

#[local] Existing Instance plain_order.
(** A provider verified on a platform that provisions over the demonstration nodes. *)
Definition demo_envs (asked : list EnsureProviderLiquidityInput) : FnnEnv := demo_env 2.
Definition fnn_onboarding : M ProviderSettlementBinding :=
  _ ← SetProviderSettlementProvisioner (Some (fnn_provisioner 5 demo_fnn_config demo_envs));
  _ ← RegisterCarrierBinding (demo_carrier "p1");
  _ ← VerifyCarrierBinding "pcb_1";
  _ ← RegisterProviderSettlementBinding demo_binding;
  VerifyProviderSettlementBinding "psb_1".
Definition fnn_onboarded : App := (fnn_onboarding demo_app).1.
Definition fnn_reserved : App * result (option ProviderLiquidityReservation) :=
  maybeReserveProviderSettlementLiquidity "p1" 500 fnn_onboarded.

Definition demo_reservation : ProviderLiquidityReservation :=
  mkProviderLiquidityReservation "plr_1" "" "psb_1" "p1" 550 "0xc1" ReuseNewChannel "reserved" 1004 None.
Lemma fnn_reserved_run : maybeReserveProviderSettlementLiquidity "p1" 500 fnn_onboarded
  = (fnn_reserved.1, Ok (Some demo_reservation)).
Proof. apply run_result. vm_compute. reflexivity. Qed.
Lemma fnn_onboarded_provisioner :
  settlementProvisioner fnn_onboarded = Some (fnn_provisioner 5 demo_fnn_config demo_envs).
Proof. cbv -[fnn_provisioner demo_fnn_config demo_envs]. reflexivity. Qed.
Lemma reservations_have_channels_witness :
  ∃ input asked h, epi_Binding input ∈ settlementBindings fnn_onboarded
    ∧ backed (demo_envs asked) demo_fnn_config input h (plr_ChannelID demo_reservation).
Proof.
  destruct (reservations_have_channels 5 demo_fnn_config demo_envs "p1" 500 fnn_onboarded
    fnn_reserved.1 demo_reservation eq_refl fnn_onboarded_provisioner fnn_reserved_run)
    as (input & asked & h & Hin & _ & _ & _ & Hb).
  exists input, asked, h. exact (conj Hin Hb).
Defined.
