(* ===== verification/FiberNode.v ===== *)
(** * Raw FNN nodes behind the Fiber adapter (fiberadapter/server.go, [rpcNode])

    The calls the adapter makes of a node and what it reads from the answers:
    invoices and their states, payments, amounts as hexadecimal quantities, the script
    of the USDI asset.  Nodes, environment variables, the clock and the random numbers
    are functions, of what was asked before where that matters; parsing a text as JSON
    is one too. *)

From Stdlib Require Import Ascii.
From S2P Require Import Prelude GoNum GoText GoFloat Core Http GoBytes Signatures Fnn.

(** What the adapter asks of the world. *)
Inductive AdapterEvent :=
  | ANode (endpoint method : string) (params : list json)
  | ARandom
  | ANow.
(** [ae_node]: the status and the JSON value of the answer, or the request's failure.
    [ae_random]: eight bytes, unless reading them fails. *)
Record AdapterEnv := mkAdapterEnv {
  ae_getenv : string → string;
  ae_json : string → option json;
  ae_node : list AdapterEvent → string → string → list json → result (Z * option json);
  ae_random : list AdapterEvent → option (list Z);
  ae_clock : list AdapterEvent → Time;
}.

(** ** Maps of decoded values *)

(** [value, _ := m[key].(string)] and the like. *)
Definition string_at (m : Payload) (key : string) : string :=
  match m !! key with Some (JStr s) => s | _ => "" end.
Definition object_at (m : Payload) (key : string) : Payload :=
  match m !! key with Some (JObj fields) => into_map fields ∅ | _ => ∅ end.
Definition array_at (m : Payload) (key : string) : list json :=
  match m !! key with Some (JArr l) => l | _ => [] end.

(** ** Amounts, currencies, states *)

Definition integer_amounts : error :=
  Errf "adapter currently requires integer amounts for raw fnn calls".
Definition hex_quantity (z : Z) : string :=
  "0x" +:+ (if z =? 0 then "0" else hex_text 16 z "").
Definition toHexQuantity (value : string) : result string :=
  let trimmed := TrimSpace value in
  if HasPrefix (ToLower trimmed) "0x" then Ok (ToLower trimmed)
  else
    number ← match cut_at "." trimmed with
             | (before, Some after) =>
                 if String.eqb (Trim "0" after) "" then Ok before else Err integer_amounts
             | (_, None) => Ok trimmed
             end;
    match ParseInt number with
    | (parsed, None) => if parsed <? 0 then Err integer_amounts else Ok (hex_quantity parsed)
    | (_, Some _) => Err integer_amounts
    end.

Definition mapInvoiceState (value : string) : string :=
  let value := ToLower (TrimSpace value) in
  if existsb (String.eqb value) ["paid"; "settled"] then "SETTLED"
  else if existsb (String.eqb value) ["cancelled"; "expired"; "failed"] then "FAILED"
  else "UNPAID".

Definition pickTxEvidence (result : Payload) : string :=
  default "" (List.find (λ value, negb (blank value))
    (string_at result <$> ["tx_hash"; "txHash"; "payment_hash"; "paymentHash"; "hash"])).

(** The script of an asset, as nodes have it. *)
Record RpcScript := mkRpcScript { us_CodeHash : string; us_HashType : string; us_Args : string }.
Definition script_valid (s : RpcScript) : bool :=
  negb (String.eqb (us_CodeHash s) "") && negb (String.eqb (us_HashType s) "")
  && negb (String.eqb (us_Args s) "").
Definition empty_script : RpcScript := mkRpcScript "" "" "".

Section node.
Context (env : AdapterEnv).
Abbreviation N := (ST (list AdapterEvent)).

(** [os.Getenv], trimmed. *)
Definition setting (key : string) : string := TrimSpace (ae_getenv env key).

Definition ckb_currency : string :=
  let scoped := setting "FIBER_INVOICE_CURRENCY_CKB" in
  if negb (String.eqb scoped "") then scoped
  else
    let global := setting "FIBER_INVOICE_CURRENCY" in
    if negb (String.eqb global "") then global else "Fibt".
Definition mapAssetToCurrency (asset : string) : string :=
  if EqualFold (TrimSpace asset) "CKB" then ckb_currency
  else
    let scoped := setting "FIBER_INVOICE_CURRENCY_USDI" in
    if negb (String.eqb scoped "") then scoped else ckb_currency.

(** ** The call of a node *)

Definition node_error (fields : list (string * json)) : option (option (Z * string)) :=
  decode_field None (λ v, f ← as_object v; c ← int_field "code" f; m ← string_field "message" f;
    Some (Some (c, m))) "error" fields.
(** [call] and [callNoParams], the parameters a list of one or of none. *)
Definition node_call (endpoint method : string) (params : list json) : N Payload :=
  if blank endpoint then throw (Errf "fnn rpc endpoint is not configured")
  else λ h, (h ++ [ANode endpoint method params],
    '(status, body) ← ae_node env h endpoint method params;
    if StatusBadRequest <=? status then Err (Errf ("fnn rpc returned " +:+ pretty status))
    else match f ← body_fields body; r ← payload_field "result" f; e ← node_error f; Some (r, e) with
         | None => Err (Errf "invalid json")
         | Some (_, Some (code, message)) =>
             Err (Errf ("fnn rpc error " +:+ pretty code +:+ ": " +:+ message))
         | Some (r, None) => Ok r
         end).
Definition call (endpoint method : string) (params : json) : N Payload :=
  node_call endpoint method [params].
Definition NodeInfo (endpoint : string) : N Payload := node_call endpoint "node_info" [].

Definition invoicePaymentHash (endpoint invoice : string) : N string :=
  result ← call endpoint "parse_invoice" (string_json [("invoice", invoice)]);
  let hash := string_at (object_at (object_at result "invoice") "data") "payment_hash" in
  if blank hash then throw (Errf "parse_invoice response is missing invoice.data.payment_hash")
  else mret hash.

(** ** The script of USDI *)

Definition text_of (value : option json) : string :=
  match value with Some (JStr s) => s | _ => "" end.
Definition normalizeOptionalAssetName (value : option json) : string :=
  ToLower (TrimSpace (text_of value)).

(** [json.Unmarshal] into a script that may hold something: a field of another type is
    left alone, and is an error. *)
Definition keep_string (key : string) (fields : list (string * json)) (old : string) : string :=
  foldl (λ old f, if EqualFold f.1 key then match f.2 with JStr s => s | _ => old end else old) old fields.
Definition fill_script (s : RpcScript) (v : option json) : RpcScript * bool :=
  match v ≫= as_object with
  | None => (s, false)
  | Some f =>
      (mkRpcScript (keep_string "code_hash" f (us_CodeHash s)) (keep_string "hash_type" f (us_HashType s))
         (keep_string "args" f (us_Args s)),
       bool_decide (is_Some (string_field "code_hash" f ≫= λ _, string_field "hash_type" f ≫= λ _,
         string_field "args" f)))
  end.
Definition quote_char : ascii := ascii_of_nat 34.
(** [strings.Contains] and [strings.ReplaceAll] of an escaped quote. *)
Fixpoint has_escaped_quote (s : string) : bool :=
  match s with
  | String a s =>
      Ascii.eqb a "\" && match s with String b _ => Ascii.eqb b quote_char | _ => false end
      || has_escaped_quote s
  | EmptyString => false
  end.
Fixpoint bare_quotes (s : string) : string :=
  match s with
  | String a s' =>
      match s' with
      | String b s'' => if Ascii.eqb a "\" && Ascii.eqb b quote_char then String b (bare_quotes s'')
                        else String a (bare_quotes s')
      | EmptyString => s
      end
  | EmptyString => ""
  end.
Definition parseRPCUdtTypeScriptJSON (raw : string) : option RpcScript :=
  let trimmed := TrimSpace raw in
  match fill_script empty_script (ae_json env trimmed) with
  | (script, true) => Some script
  | (script, false) =>
      if has_escaped_quote trimmed then
        match fill_script script (ae_json env (bare_quotes trimmed)) with
        | (script, true) => Some script
        | (_, false) => None
        end
      else None
  end.

Definition parseRPCUdtTypeScript (value : option json) : RpcScript :=
  match value with
  | Some (JObj fields) =>
      let record := into_map fields ∅ in
      mkRpcScript (TrimSpace (string_at record "code_hash")) (TrimSpace (string_at record "hash_type"))
        (TrimSpace (string_at record "args"))
  | _ => empty_script
  end.
(** The loop over the assets a node is configured with. *)
Fixpoint pick_script (preferredName : string) (fallback : RpcScript) (infos : list json) : RpcScript :=
  match infos with
  | [] => fallback
  | item :: infos =>
      let record := match item with JObj fields => into_map fields ∅ | _ => ∅ end in
      let script := parseRPCUdtTypeScript (record !! "script") in
      if bool_decide (record = ∅) || negb (script_valid script)
      then pick_script preferredName fallback infos
      else
        let fallback := if script_valid fallback then fallback else script in
        let name := normalizeOptionalAssetName (record !! "name") in
        if negb (String.eqb preferredName "")
        then if String.eqb name preferredName then script else pick_script preferredName fallback infos
        else if String.eqb name "usdi" || String.eqb name "rusd" then script
        else pick_script preferredName fallback infos
  end.
Definition pickUSDIUdtTypeScript (nodeInfo : Payload) : RpcScript :=
  let result := object_at nodeInfo "result" in
  let result := if bool_decide (result = ∅) then nodeInfo else result in
  pick_script (normalizeOptionalAssetName (Some (JStr (ae_getenv env "FIBER_USDI_UDT_NAME"))))
    empty_script (array_at result "udt_cfg_infos").

Definition resolveUSDIUdtTypeScript (endpoint : string) : N RpcScript :=
  let envJSON := setting "FIBER_USDI_UDT_TYPE_SCRIPT_JSON" in
  if negb (String.eqb envJSON "") then
    match parseRPCUdtTypeScriptJSON envJSON with
    | None => throw (Errf "FIBER_USDI_UDT_TYPE_SCRIPT_JSON must be valid JSON")
    | Some script =>
        if script_valid script then mret script
        else throw (Errf "FIBER_USDI_UDT_TYPE_SCRIPT_JSON must include code_hash/hash_type/args")
    end
  else
    nodeInfo ← NodeInfo endpoint;
    let script := pickUSDIUdtTypeScript nodeInfo in
    if script_valid script then mret script
    else throw (Errf "node_info does not expose a usable USDI udt_type_script").

(** ** Invoices and payments *)

Definition CreateInvoice (endpoint asset amount : string) : N string :=
  hexAmount ← lift (toHexQuantity amount);
  script ← (if EqualFold (TrimSpace asset) "USDI"
            then s ← resolveUSDIUdtTypeScript endpoint;
                 mret [("udt_type_script", string_json [("code_hash", us_CodeHash s);
                          ("hash_type", us_HashType s); ("args", us_Args s)])]
            else mret []);
  result ← call endpoint "new_invoice"
    (JObj ([("amount", JStr hexAmount); ("currency", JStr (mapAssetToCurrency asset))] ++ script));
  let invoice := string_at result "invoice_address" in
  if blank invoice then throw (Errf "new_invoice response is missing invoice_address")
  else mret invoice.
Definition GetInvoiceStatus (endpoint invoice : string) : N string :=
  paymentHash ← invoicePaymentHash endpoint invoice;
  result ← call endpoint "get_invoice" (string_json [("payment_hash", paymentHash)]);
  let status := string_at result "status" in
  if blank status then throw (Errf "get_invoice response is missing status")
  else mret (mapInvoiceState status).
Definition ValidatePaymentRequest (endpoint invoice : string) : N () :=
  _ ← invoicePaymentHash endpoint invoice; mret tt.
Definition SendPayment (endpoint invoice amount asset requestID : string) : N string :=
  paymentHash ← invoicePaymentHash endpoint invoice;
  hexAmount ← lift (toHexQuantity amount);
  result ← call endpoint "send_payment"
    (string_json [("payment_hash", paymentHash); ("amount", hexAmount);
                  ("currency", mapAssetToCurrency asset); ("request_id", requestID);
                  ("invoice", invoice)]);
  let evidence := pickTxEvidence result in
  if String.eqb evidence "" then throw (Errf "send_payment response is missing transaction evidence")
  else mret evidence.
End node.
