(* ===== verification/FiberAdapter.v ===== *)
(** * The Fiber adapter (fiberadapter/server.go)

    The service between the platform's Fiber client and raw FNN nodes: signed JSON-RPC
    requests over HTTP, the tips it remembers in memory, withdrawals.  Requests are
    handled one at a time, and their bodies fit the megabyte that is read.  The result of
    an RPC is the JSON the handler writes; the identifier of a request is handed back as
    it was read. *)

From Stdlib Require Import Ascii.
From S2P Require Import Prelude GoNum GoText GoFloat GoTime Core Repo Funding Amounts Deposits Http GoBytes.
From S2P Require Import Signatures Settlement Fnn FiberNode.

(** ** State *)

Record tipRecord := mkTip {
  tp_Invoice : string;
  tp_PostID : string;
  tp_FromUserID : string;
  tp_ToUserID : string;
  tp_Asset : string;
  tp_Amount : string;
  tp_Message : string;
  tp_State : string;
  tp_SettledAt : string;
}.
#[export] Instance eta_tipRecord : Eta tipRecord := λ t,
  mkTip (tp_Invoice t) (tp_PostID t) (tp_FromUserID t) (tp_ToUserID t) (tp_Asset t) (tp_Amount t)
    (tp_Message t) (tp_State t) (tp_SettledAt t).

(** [Options] with the nodes given by their addresses. *)
Record AdapterOptions := mkAdapterOptions {
  ao_InvoiceRPCURL : string;
  ao_PayerRPCURL : string;
  ao_AppID : string;
  ao_HMACSecret : string;
}.
Record AdapterConfig := mkAdapterConfig {
  ac_invoiceNode : string;
  ac_payerNode : string;
  ac_appID : string;
  ac_hmacSecret : string;
}.
(** The server's state and what was asked of the world.  [withdrawalsByID] is written
    and never read. *)
Record AdapterState := mkAdapterState {
  as_tipSeq : Z;
  as_withdrawalSeq : Z;
  as_tips : gmap string tipRecord;
  as_withdrawals : list WithdrawalStatusItem;
  as_withdrawalsByID : gmap string WithdrawalStatusItem;
  as_asked : list AdapterEvent;
}.
#[export] Instance eta_AdapterState : Eta AdapterState := λ s,
  mkAdapterState (as_tipSeq s) (as_withdrawalSeq s) (as_tips s) (as_withdrawals s)
    (as_withdrawalsByID s) (as_asked s).
Definition new_state : AdapterState := mkAdapterState 0 0 ∅ [] ∅ [].

(** What is written: the JSON of an object, or a page of text. *)
Inductive AdapterBody :=
  | AJson (v : json)
  | AText (s : string).
Abbreviation Reply := (Response AdapterBody).

Definition rpc_result (id result : json) : Reply :=
  mkResponse StatusOK (AJson (JObj [("jsonrpc", JStr "2.0"); ("id", id); ("result", result)])).
Definition writeRPCError (id : json) (code : Z) (message : string) : Reply :=
  mkResponse StatusOK (AJson (JObj [("jsonrpc", JStr "2.0"); ("id", id);
    ("error", JObj [("code", JInt code); ("message", JStr message)])])).

(** ** Payloads *)

Definition decode_destination (f : list (string * json)) : option WithdrawalDestination :=
  k ← string_field "kind" f; a ← string_field "address" f; p ← string_field "paymentRequest" f;
  Some (mkDestination k a p).
Definition decode_create (f : list (string * json)) : option CreateInvoiceInput :=
  p ← string_field "postId" f; u ← string_field "fromUserId" f; t ← string_field "toUserId" f;
  a ← string_field "asset" f; n ← string_field "amount" f; m ← string_field "message" f;
  Some (mkInvoiceInput p u t a n m).
Definition decode_payout_input (f : list (string * json)) : option PayoutInput :=
  u ← string_field "userId" f; a ← string_field "asset" f; n ← string_field "amount" f;
  d ← object_field "destination" f; d ← decode_destination d;
  Some (mkPayoutInput u a n d).
Definition decode_cursor (v : json) : option SettledFeedCursor :=
  f ← as_object v; s ← string_field "settledAt" f; i ← string_field "id" f; Some (mkFeedCursor s i).
Definition decode_feed (f : list (string * json)) : option SettledFeedInput :=
  l ← int_field "limit" f; a ← decode_field None (λ v, Some <$> decode_cursor v) "after" f;
  Some (mkFeedInput l a).

(** [omitempty] *)
Definition unless_empty (key value : string) : list (string * json) :=
  if String.eqb value "" then [] else [(key, JStr value)].
Definition feed_item_json (i : SettledFeedItem) : json :=
  JObj ([("tipIntentId", JStr (si_TipIntentID i)); ("postId", JStr (si_PostID i));
         ("invoice", JStr (si_Invoice i)); ("amount", JStr (si_Amount i)); ("asset", JStr (si_Asset i));
         ("fromUserId", JStr (si_FromUserID i)); ("toUserId", JStr (si_ToUserID i))]
        ++ unless_empty "message" (si_Message i) ++ [("settledAt", JStr (si_SettledAt i))]).
Definition status_item_json (i : WithdrawalStatusItem) : json :=
  string_json [("id", wi_ID i); ("userId", wi_UserID i); ("asset", wi_Asset i);
               ("amount", wi_Amount i); ("state", wi_State i)].
Definition quote_json (q : QuotePayoutResult) : json :=
  JObj [("asset", JStr (qp_Asset q)); ("amount", JStr (qp_Amount q));
        ("minimumAmount", JStr (qp_MinimumAmount q)); ("availableBalance", JStr (qp_AvailableBalance q));
        ("lockedBalance", JStr (qp_LockedBalance q)); ("networkFee", JStr (qp_NetworkFee q));
        ("receiveAmount", JStr (qp_ReceiveAmount q)); ("destinationValid", JBool (qp_DestinationValid q));
        ("validationMessage", match qp_ValidationMessage q with Some m => JStr m | None => JNull end)].

Definition makeTipIntentID (invoice : string) : string :=
  "tip_" +:+ hex_encode (take 8 (sha256 (bytes_of invoice))).

Section adapter.
Context `{MapOrder} (env : AdapterEnv) (cfg : AdapterConfig).
Abbreviation A := (ST AdapterState).

(** [NewServerWithOptions], of the server's addresses and credentials. *)
Definition first_set (candidates : list string) : string :=
  default "" (List.find (λ s, negb (String.eqb s "")) candidates).
Definition NewServerWithOptions (options : AdapterOptions) : AdapterConfig :=
  let invoice := TrimSpace (ao_InvoiceRPCURL options) in
  let fallback := [setting env "FNN_INVOICE_RPC_URL"; setting env "FNN_RPC_URL"] in
  mkAdapterConfig (first_set (invoice :: fallback))
    (first_set (TrimSpace (ao_PayerRPCURL options) :: setting env "FNN_PAYER_RPC_URL" :: invoice :: fallback))
    (TrimSpace (ao_AppID options)) (TrimSpace (ao_HMACSecret options)).
Definition NewServer : AdapterConfig :=
  NewServerWithOptions (mkAdapterOptions "" "" (setting env "FIBER_APP_ID") (setting env "FIBER_HMAC_SECRET")).

Definition on_node {T} (m : ST (list AdapterEvent) T) : A T :=
  zoom as_asked (λ h s, s <| as_asked := h |>) m.
(** [time.Now()] *)
Definition adapter_now : A Time := on_node (λ h, (h ++ [ANow], Ok (ae_clock env h))).
Definition nextID (prefix : string) : A string :=
  buf ← on_node (λ h, (h ++ [ARandom], Ok (ae_random env h)));
  match buf with
  | Some buf => mret (prefix +:+ "_" +:+ hex_encode buf)
  | None => now ← adapter_now; mret (prefix +:+ "_" +:+ pretty now)
  end.

(** The failure of a call on a node. *)
Definition node_failure (id : json) (e : error) : Reply := writeRPCError id (-32000) (error_text e).
Definition invalid_params (id : json) : Reply := writeRPCError id (-32602) "invalid params".
Definition missing_fields (id : json) : Reply := writeRPCError id (-32602) "missing required fields".

Definition updateTipState (invoice state : string) : A (option tipRecord) :=
  s ← get_st;
  match as_tips s !! invoice with
  | None => mret None
  | Some record =>
      let record := record <| tp_State := state |> in
      record ← (if String.eqb state "SETTLED" && String.eqb (tp_SettledAt record) ""
                then now ← adapter_now; mret (record <| tp_SettledAt := FormatRFC3339 now |>)
                else mret record);
      _ ← modify (λ s, s <| as_tips ::= <[invoice := record]> |>);
      mret (Some record)
  end.
(** [snapshotTips] *)
Definition snapshotTips : A (list tipRecord) :=
  s ← get_st; mret (snd <$> map_order (map_to_list (as_tips s))).

Definition handleCreate (id : json) (raw : option json) : A Reply :=
  match f ← body_fields raw; decode_create f with
  | None => mret (invalid_params id)
  | Some input =>
      if existsb (String.eqb "") [ci_PostID input; ci_FromUserID input; ci_ToUserID input;
           ci_Asset input; ci_Amount input]
      then mret (missing_fields id)
      else
        let? invoice := on_node (FiberNode.CreateInvoice env (ac_invoiceNode cfg) (ci_Asset input)
                                   (ci_Amount input)) orelse node_failure id in
        _ ← modify (λ s, s <| as_tipSeq ::= (λ n, n +w 1) |>
              <| as_tips ::= <[invoice := mkTip invoice (ci_PostID input) (ci_FromUserID input)
                   (ci_ToUserID input) (ci_Asset input) (ci_Amount input) (ci_Message input) "UNPAID" ""]> |>);
        mret (rpc_result id (string_json [("invoice", invoice)]))
  end.

Definition handleStatus (id : json) (raw : option json) : A Reply :=
  match f ← body_fields raw; string_field "invoice" f with
  | None => mret (invalid_params id)
  | Some invoice =>
      if blank invoice then mret (writeRPCError id (-32602) "missing invoice")
      else
        let? state := on_node (FiberNode.GetInvoiceStatus env (ac_invoiceNode cfg) invoice)
          orelse node_failure id in
        _ ← updateTipState invoice state;
        mret (rpc_result id (string_json [("state", state)]))
  end.

Definition feed_item (t : tipRecord) : SettledFeedItem :=
  mkFeedItem (makeTipIntentID (tp_Invoice t)) (tp_PostID t) (tp_Invoice t) (tp_Amount t) (tp_Asset t)
    (tp_FromUserID t) (tp_ToUserID t) (tp_Message t) (tp_SettledAt t).
(** The loop over the records. *)
Fixpoint settled_items (records : list tipRecord) : A (list SettledFeedItem) :=
  match records with
  | [] => mret []
  | record :: records =>
      state ← on_node (FiberNode.GetInvoiceStatus env (ac_invoiceNode cfg) (tp_Invoice record));
      updated ← updateTipState (tp_Invoice record) state;
      items ← settled_items records;
      match updated with
      | Some t => mret (if String.eqb (tp_State t) "SETTLED" then feed_item t :: items else items)
      | None => mret items
      end
  end.
(** [len(raw) > 0 && string(raw) != "null"] *)
Definition given (raw : option json) : bool :=
  match raw with None | Some JNull => false | _ => true end.
Definition feed_input_of (raw : option json) : option SettledFeedInput :=
  if given raw then f ← body_fields raw; decode_feed f else Some (mkFeedInput 0 None).
Definition limited {T} (limit : Z) (items : list T) : list T :=
  if (0 <? limit) && (limit <? Z.of_nat (length items)) then take (Z.to_nat limit) items else items.
Definition handleSettledFeed (id : json) (raw : option json) : A Reply :=
  match feed_input_of raw with
  | None => mret (invalid_params id)
  | Some input =>
      records ← snapshotTips;
      let? items := settled_items records orelse node_failure id in
      mret (rpc_result id (JObj [("items", JArr (feed_item_json <$> limited (fi_Limit input) items))]))
  end.

(** The fields a withdrawal must have. *)
Definition payout_missing (input : PayoutInput) : bool :=
  existsb (String.eqb "") [po_UserID input; po_Asset input; po_Amount input;
    wd_Kind (po_Destination input)].
Definition handleQuoteWithdrawal (id : json) (raw : option json) : A Reply :=
  match f ← body_fields raw; decode_payout_input f with
  | None => mret (invalid_params id)
  | Some input =>
      if payout_missing input then mret (missing_fields id)
      else
        validationMessage ← (if String.eqb (wd_Kind (po_Destination input)) "PAYMENT_REQUEST" then
            r ← attempt (on_node (ValidatePaymentRequest env (ac_payerNode cfg)
                                    (wd_PaymentRequest (po_Destination input))));
            mret (match r with Ok _ => None | Err e => Some (error_text e) end)
          else mret None);
        let amount := po_Amount input in
        mret (rpc_result id (quote_json (mkQuote (po_Asset input) amount amount amount "0" "0" amount
          (bool_decide (validationMessage = None)) validationMessage)))
  end.
Definition handleRequestWithdrawal (id : json) (raw : option json) : A Reply :=
  match f ← body_fields raw; decode_payout_input f with
  | None => mret (invalid_params id)
  | Some input =>
      if payout_missing input then mret (missing_fields id)
      else if negb (String.eqb (wd_Kind (po_Destination input)) "PAYMENT_REQUEST")
      then mret (writeRPCError id (-32602) "only PAYMENT_REQUEST is currently supported")
      else
        requestID ← nextID "wdreq";
        let? externalID := on_node (SendPayment env (ac_payerNode cfg)
            (wd_PaymentRequest (po_Destination input)) (po_Amount input) (po_Asset input) requestID)
          orelse node_failure id in
        let withdrawal := mkStatusItem externalID (po_UserID input) (po_Asset input) (po_Amount input)
                            "COMPLETED" in
        _ ← modify (λ s, s <| as_withdrawalSeq ::= (λ n, n +w 1) |>
              <| as_withdrawals ::= (λ l, l ++ [withdrawal]) |>
              <| as_withdrawalsByID ::= <[externalID := withdrawal]> |>);
        mret (rpc_result id (string_json [("id", externalID); ("state", "COMPLETED")]))
  end.

(** An error of decoding is ignored: fields of another type are left as they are. *)
Definition summary_user (raw : option json) : string :=
  match raw with Some (JObj f) => keep_string "userId" f "" | _ => "" end.
Definition handleDashboardSummary (id : json) (raw : option json) : A Reply :=
  let userID := summary_user raw in
  s ← get_st;
  let withdrawals := List.filter (λ w, String.eqb userID "" || String.eqb (wi_UserID w) userID)
                       (as_withdrawals s) in
  mret (rpc_result id (JObj [("admin", JObj [("withdrawals", JArr (status_item_json <$> withdrawals))])])).

(** ** Requests *)

(** The text a signature is of. *)
Definition signed_text (ts nonce body : string) : string :=
  ts +:+ "." +:+ nonce +:+ "." +:+ body.
Definition verifyHMAC (r : Request) : result () :=
  if String.eqb (ac_hmacSecret cfg) "" then Ok tt
  else
    let appID := TrimSpace (rq_Header r "x-app-id") in
    let ts := TrimSpace (rq_Header r "x-ts") in
    let nonce := TrimSpace (rq_Header r "x-nonce") in
    let signature := TrimSpace (rq_Header r "x-signature") in
    if existsb (String.eqb "") [signature; ts; nonce] then Err (Errf "missing signature headers")
    else if negb (String.eqb (ac_appID cfg) "") && negb (String.eqb appID (ac_appID cfg))
    then Err (Errf "app id mismatch")
    else if String.eqb (hmac_sha256 (ac_hmacSecret cfg) (signed_text ts nonce (rq_RawBody r))) signature
    then Ok tt else Err (Errf "invalid signature").

Record Envelope := mkRpcEnvelope { en_ID : json; en_Method : string; en_Params : option json }.
(** The identifier that was read, though another field may have failed. *)
Definition read_id (f : list (string * json)) : json :=
  foldl (λ old e, if EqualFold e.1 "id" && decodes e.2 then e.2 else old) JNull f.
Definition decode_envelope (f : list (string * json)) : option Envelope :=
  _ ← string_field "jsonrpc" f; _ ← any_field "id" f; m ← string_field "method" f;
  Some (mkRpcEnvelope (read_id f) m (raw_field "params" f)).
Definition dispatch (e : Envelope) : A Reply :=
  let m := en_Method e in
  if String.eqb m "tip.create" then handleCreate (en_ID e) (en_Params e)
  else if String.eqb m "tip.status" then handleStatus (en_ID e) (en_Params e)
  else if String.eqb m "tip.settled_feed" then handleSettledFeed (en_ID e) (en_Params e)
  else if String.eqb m "withdrawal.quote" then handleQuoteWithdrawal (en_ID e) (en_Params e)
  else if String.eqb m "withdrawal.request" then handleRequestWithdrawal (en_ID e) (en_Params e)
  else if String.eqb m "dashboard.summary" then handleDashboardSummary (en_ID e) (en_Params e)
  else mret (writeRPCError (en_ID e) (-32601) "method not found").
Definition ServeHTTP (r : Request) : A Reply :=
  if String.eqb (rq_Method r) "GET" && String.eqb (rq_Path r) "/healthz"
  then mret (mkResponse StatusOK (AJson (string_json [("status", "ok"); ("service", "fiber-adapter")])))
  else if negb (String.eqb (rq_Method r) "POST") || negb (String.eqb (rq_Path r) "/")
  then mret (mkResponse StatusNotFound (AText "404 page not found"))
  else match verifyHMAC r with
       | Err e => mret (mkResponse StatusUnauthorized (AJson (string_json [("error", error_text e)])))
       | Ok _ =>
           let fields := body_fields (rq_Body r) in
           match fields ≫= decode_envelope with
           | None => mret (writeRPCError (default JNull (read_id <$> fields)) (-32700) "invalid json")
           | Some e => dispatch e
           end
       end.
End adapter.
