(* ===== verification/FiberClient.v ===== *)
(** * The Fiber client (integrations/fiber/client.go), and the client over the adapter

    The client's calls as signed requests and what it reads from the answers; the
    transport is a parameter.  Then the transport that is the adapter of [FiberAdapter]:
    the Fiber client of the settlement service whose answers come from raw nodes.

    [marshal] is [json.Marshal] on the payloads that are sent. *)

From Stdlib Require Import Ascii.
From S2P Require Import Prelude GoNum GoText GoFloat GoTime Core Repo Funding Amounts Deposits Http GoBytes.
From S2P Require Import Signatures Settlement Fnn FiberNode FiberAdapter.

Definition ErrNotConfigured : error := Errf "fiber client is not configured".

Record FiberConfig := mkFiberConfig { fb_endpoint : string; fb_appID : string; fb_secret : string }.
(** [None]: a client whose calls all fail. *)
Definition NewClientFromEnv (env : string → string) : option FiberConfig :=
  let endpoint := TrimSpace (env "FIBER_RPC_URL") in
  let appID := TrimSpace (env "FIBER_APP_ID") in
  let secret := TrimSpace (env "FIBER_HMAC_SECRET") in
  if existsb (String.eqb "") [endpoint; appID; secret] then None
  else Some (mkFiberConfig endpoint appID secret).

(** [missingClient]: every call fails. *)
Definition missing_client : FiberClient :=
  mkFiber (λ _ _, Err ErrNotConfigured) (λ _ _, Err ErrNotConfigured) (λ _ _, Err ErrNotConfigured)
    (λ _ _, Err ErrNotConfigured) (λ _ _, Err ErrNotConfigured) (λ _ _, Err ErrNotConfigured).

(** What a call draws: the clock's readings and the nonce's random bytes. *)
Record Draw := mkDraw { dr_now : Time; dr_random : option (list Z) }.
Definition newNonce (d : Draw) : string :=
  match dr_random d with
  | Some raw => hex_encode raw
  | None => "nonce-" +:+ pretty (dr_now d)
  end.
Definition newRPCID (d : Draw) : string := "req_" +:+ pretty (dr_now d).
Definition unix (t : Time) : Z := t / 1000000000.

Definition signPayload (secret payload ts nonce : string) : string :=
  hmac_sha256 secret (signed_text ts nonce payload).

Section client.
Context (marshal : json → string) (c : FiberConfig).

(** The request of a call. *)
Definition payload_of (d : Draw) (method : string) (params : json) : json :=
  JObj [("id", JStr (newRPCID d)); ("jsonrpc", JStr "2.0"); ("method", JStr method); ("params", params)].
Definition call_headers (d : Draw) (payload : string) (key : string) : string :=
  let ts := pretty (unix (dr_now d)) in
  if String.eqb key "x-app-id" then fb_appID c
  else if String.eqb key "x-ts" then ts
  else if String.eqb key "x-nonce" then newNonce d
  else if String.eqb key "x-signature" then signPayload (fb_secret c) payload ts (newNonce d)
  else "".
Definition call_request (d : Draw) (method : string) (params : json) : Request :=
  let payload := payload_of d method params in
  mkRequest "POST" "/" (call_headers d (marshal payload)) (λ _, []) (Some payload) (marshal payload).

(** What is read from an answer: its status, text and JSON value. *)
Definition client_error (f : list (string * json)) : option (option (Z * string)) := node_error f.
Definition read_answer {T} (target : json → option T) (status : Z) (text : string) (value : option json)
    : result T :=
  if StatusBadRequest <=? status
  then Err (Errf ("fiber rpc returned " +:+ pretty status +:+ ": " +:+ TrimSpace text))
  else match f ← body_fields value; e ← client_error f; Some (f, e) with
       | None => Err (Errf "invalid json")
       | Some (_, Some (code, message)) =>
           Err (Errf ("fiber rpc error " +:+ pretty code +:+ ": " +:+ message))
       | Some (f, None) =>
           match raw_field "result" f with
           | None => Err (Errf "fiber rpc response missing result")
           | Some v => match target v with Some x => Ok x | None => Err (Errf "invalid json") end
           end
       end.

Definition struct_of {T} (dec : list (string * json) → option T) (v : json) : option T :=
  f ← as_object v; dec f.
Definition decode_quote (f : list (string * json)) : option QuotePayoutResult :=
  a ← string_field "asset" f; n ← string_field "amount" f; m ← string_field "minimumAmount" f;
  b ← string_field "availableBalance" f; l ← string_field "lockedBalance" f;
  w ← string_field "networkFee" f; r ← string_field "receiveAmount" f;
  v ← bool_field "destinationValid" f;
  g ← decode_field None (λ v, Some <$> as_string v) "validationMessage" f;
  Some (mkQuote a n m b l w r v g).
Definition decode_payout_result (f : list (string * json)) : option RequestPayoutResult :=
  i ← string_field "id" f; s ← string_field "state" f; Some (mkPayoutResult i s).
Definition decode_feed_item (v : json) : option SettledFeedItem :=
  f ← as_object v;
  t ← string_field "tipIntentId" f; p ← string_field "postId" f; i ← string_field "invoice" f;
  n ← string_field "amount" f; a ← string_field "asset" f; u ← string_field "fromUserId" f;
  w ← string_field "toUserId" f; m ← string_field "message" f; s ← string_field "settledAt" f;
  Some (mkFeedItem t p i n a u w m s).
Definition decode_feed_result (f : list (string * json)) : option SettledFeedResult :=
  i ← decode_field [] (as_list (mkFeedItem "" "" "" "" "" "" "" "" "") decode_feed_item) "items" f;
  n ← decode_field None (λ v, Some <$> decode_cursor v) "nextCursor" f;
  Some (mkFeedResult i n).
Definition decode_status_item (v : json) : option WithdrawalStatusItem :=
  f ← as_object v;
  i ← string_field "id" f; u ← string_field "userId" f; a ← string_field "asset" f;
  n ← string_field "amount" f; s ← string_field "state" f; Some (mkStatusItem i u a n s).
Definition decode_statuses (f : list (string * json)) : option (list WithdrawalStatusItem) :=
  a ← object_field "admin" f;
  decode_field [] (as_list (mkStatusItem "" "" "" "" "") decode_status_item) "withdrawals" a.

(** ** What the calls send *)

Definition create_json (i : CreateInvoiceInput) : json :=
  JObj ([("postId", JStr (ci_PostID i)); ("fromUserId", JStr (ci_FromUserID i));
         ("toUserId", JStr (ci_ToUserID i)); ("asset", JStr (ci_Asset i)); ("amount", JStr (ci_Amount i))]
        ++ unless_empty "message" (ci_Message i)).
Definition payout_json (i : PayoutInput) : json :=
  let d := po_Destination i in
  JObj [("userId", JStr (po_UserID i)); ("asset", JStr (po_Asset i)); ("amount", JStr (po_Amount i));
        ("destination", JObj ([("kind", JStr (wd_Kind d))] ++ unless_empty "address" (wd_Address d)
                              ++ unless_empty "paymentRequest" (wd_PaymentRequest d)))].
Definition feed_json (i : SettledFeedInput) : json :=
  JObj ((if fi_Limit i =? 0 then [] else [("limit", JInt (fi_Limit i))])
        ++ match fi_After i with
           | None => []
           | Some a => [("after", string_json [("settledAt", fc_SettledAt a); ("id", fc_ID a)])]
           end).
Definition statuses_json (userID : string) : json :=
  JObj [("filters", string_json [("settlementState", "ALL"); ("withdrawalState", "ALL")]);
        ("includeAdmin", JBool true); ("userId", JStr userID)].

(** ** The calls, over a transport *)

Section calls.
Context {S : Type} (do : Request → ST S (Z * string * option json)) (d : Draw).
Definition call {T} (method : string) (params : json) (target : json → option T) : ST S T :=
  _ ← fail_if (blank (fb_endpoint c) || blank (fb_appID c) || blank (fb_secret c)) ErrNotConfigured;
  '(status, text, value) ← do (call_request d method params);
  lift (read_answer target status text value).
Definition client_CreateInvoice (i : CreateInvoiceInput) : ST S string :=
  call "tip.create" (create_json i) (struct_of (string_field "invoice")).
Definition client_GetInvoiceStatus (invoice : string) : ST S string :=
  call "tip.status" (string_json [("invoice", invoice)]) (struct_of (string_field "state")).
Definition client_QuotePayout (i : PayoutInput) : ST S QuotePayoutResult :=
  call "withdrawal.quote" (payout_json i) (struct_of decode_quote).
Definition client_RequestPayout (i : PayoutInput) : ST S RequestPayoutResult :=
  call "withdrawal.request" (payout_json i) (struct_of decode_payout_result).
Definition client_ListSettledFeed (i : SettledFeedInput) : ST S SettledFeedResult :=
  call "tip.settled_feed" (feed_json i) (struct_of decode_feed_result).
Definition client_ListWithdrawalStatuses (userID : string) : ST S (list WithdrawalStatusItem) :=
  call "dashboard.summary" (statuses_json userID) (struct_of decode_statuses).
End calls.
End client.

(** ** The client over the adapter *)

Section over_adapter.
Context `{MapOrder} (env : AdapterEnv) (cfg : AdapterConfig) (marshal : json → string)
  (c : FiberConfig) (draws : nat → Draw).

(** The adapter as the transport; [marshal] writes the body of its answer. *)
Definition to_adapter (r : Request) : ST AdapterState (Z * string * option json) :=
  res ← ServeHTTP env cfg r;
  mret (rs_Status res, match rs_Body res with AJson v => marshal v | AText s => s end,
        match rs_Body res with AJson v => Some v | AText _ => None end).

(** A call of the client, the result left out. *)
Definition ignore {T} (m : ST AdapterState T) : AdapterState → AdapterState := λ s, (m s).1.
Definition perform (n : nat) (fc : FiberCall) : AdapterState → AdapterState :=
  let d := draws n in
  match fc with
  | FCreateInvoice i => ignore (client_CreateInvoice marshal c to_adapter d i)
  | FInvoiceStatus invoice => ignore (client_GetInvoiceStatus marshal c to_adapter d invoice)
  | FQuote i => ignore (client_QuotePayout marshal c to_adapter d i)
  | FPayout i => ignore (client_RequestPayout marshal c to_adapter d i)
  | FFeed i => ignore (client_ListSettledFeed marshal c to_adapter d i)
  | FStatuses userID => ignore (client_ListWithdrawalStatuses marshal c to_adapter d userID)
  end.
(** The adapter once the calls have been made, the first on a new adapter. *)
Fixpoint after_calls (n : nat) (calls : list FiberCall) (s : AdapterState) : AdapterState :=
  match calls with
  | [] => s
  | fc :: calls => after_calls (S n) calls (perform n fc s)
  end.
Definition reached (calls : list FiberCall) : AdapterState := after_calls 0 calls new_state.

(** The Fiber client the settlement service is configured with. *)
Definition adapter_client : FiberClient :=
  let at_ {T} (h : list FiberCall) (m : Draw → ST AdapterState T) : result T :=
    (m (draws (length h)) (reached h)).2 in
  mkFiber
    (λ h i, at_ h (λ d, client_CreateInvoice marshal c to_adapter d i))
    (λ h invoice, at_ h (λ d, client_GetInvoiceStatus marshal c to_adapter d invoice))
    (λ h i, at_ h (λ d, client_QuotePayout marshal c to_adapter d i))
    (λ h i, at_ h (λ d, client_RequestPayout marshal c to_adapter d i))
    (λ h i, at_ h (λ d, client_ListSettledFeed marshal c to_adapter d i))
    (λ h userID, at_ h (λ d, client_ListWithdrawalStatuses marshal c to_adapter d userID)).
End over_adapter.
