(* ===== verification/FiberAccess.v ===== *)
(** * What the Fiber client, the adapter and the nodes promise together

    Signatures are accepted and pin down what was sent; amounts keep their value; the
    settled feed is the settled invoices that were issued, whatever cursor is sent; a
    recorded request that is presented again pays again. *)

From Stdlib Require Import Ascii.
From S2P Require Import Prelude GoNum GoText GoFloat GoTime Core Repo Funding Amounts Deposits Http GoBytes.
From S2P Require Import CodeAgent Signatures Settlement Fnn FiberNode FiberAdapter FiberClient.

(** ** Payloads are read as they were sent *)

Lemma create_sent i : decode_create (match create_json i with JObj f => f | _ => [] end) = Some i.
Proof.
  destruct i as [p u t a n m]. unfold create_json, unless_empty. cbn [ci_Message ci_PostID ci_FromUserID ci_ToUserID ci_Asset ci_Amount].
  destruct (String.eqb_spec m "") as [->|]; reflexivity.
Qed.
Lemma payout_sent i : decode_payout_input (match payout_json i with JObj f => f | _ => [] end) = Some i.
Proof.
  destruct i as [u a n [k ad p]]. unfold payout_json, unless_empty.
  cbn [po_UserID po_Asset po_Amount po_Destination wd_Kind wd_Address wd_PaymentRequest].
  destruct (String.eqb_spec ad "") as [->|], (String.eqb_spec p "") as [->|]; reflexivity.
Qed.
Lemma feed_sent i : in64 (fi_Limit i) →
  decode_feed (match feed_json i with JObj f => f | _ => [] end) = Some i.
Proof.
  destruct i as [l a]. cbn [fi_Limit]. intros Hl. unfold feed_json. cbn [fi_Limit fi_After].
  destruct (Z.eqb_spec l 0) as [->|]; destruct a as [[s i]|]; try reflexivity.
  all: unfold decode_feed, int_field, decode_field; cbn -[in64]; rewrite bool_decide_true by done;
    reflexivity.
Qed.

Lemma feed_item_read i : decode_feed_item (feed_item_json i) = Some i.
Proof.
  destruct i as [t p v n a u w m s]. unfold feed_item_json, unless_empty.
  cbn [si_Message]. destruct (String.eqb_spec m "") as [->|]; reflexivity.
Qed.
Lemma status_item_read i : decode_status_item (status_item_json i) = Some i.
Proof. by destruct i. Qed.
Lemma quote_read q : decode_quote (match quote_json q with JObj f => f | _ => [] end) = Some q.
Proof. destruct q as [? ? ? ? ? ? ? ? [m|]]; reflexivity. Qed.
Lemma list_read {T} zero (dec : json → option T) enc l : (∀ x, dec (enc x) = Some x) →
  (∀ x, enc x ≠ JNull) → as_list zero dec (JArr (enc <$> l)) = Some l.
Proof.
  intros Hd Hn. cbn. induction l as [|x l IH]; [done|]. cbn.
  assert (He : match enc x with JNull => Some zero | _ => dec (enc x) end = Some x).
  { specialize (Hn x). specialize (Hd x). by destruct (enc x). }
  rewrite He. cbn. by rewrite IH.
Qed.

(** ** Signatures *)

(** Random bytes, when there are any, are bytes, and there is at least one. *)
Definition draw_ok (d : Draw) : Prop :=
  match dr_random d with Some raw => Forall is_byte raw ∧ raw ≠ [] | None => True end.

Lemma hmac_visible key msg : all_bytes visible (hmac_sha256 key msg) = true.
Proof. apply hex_visible, sha256_bytes. Qed.
Lemma hmac_nonempty key msg : hmac_sha256 key msg ≠ "".
Proof. intros H. pose proof (hmac_not_blank key msg) as Hb. by rewrite H in Hb. Qed.
Lemma nonce_visible d : draw_ok d → all_bytes visible (newNonce d) = true ∧ newNonce d ≠ "".
Proof.
  unfold draw_ok, newNonce. destruct (dr_random d) as [raw|].
  - intros [Hb Hne]. split; [by apply hex_visible|]. by destruct raw.
  - intros _. rewrite all_bytes_app, pretty_visible. done.
Qed.
Lemma pretty_nonempty (z : Z) : pretty z ≠ "".
Proof.
  destruct (decide (0 ≤ z)); [rewrite pretty_nonneg by done|by rewrite pretty_neg by lia].
  destruct (pretty_N_spec (Z.to_N z)) as (_ & (a & t & -> & _) & _). done.
Qed.

Section signatures.
Context (marshal : json → string) (cfg : AdapterConfig) (c : FiberConfig).

(** The two ends are configured alike. *)
Definition same_credentials : Prop :=
  ac_hmacSecret cfg = fb_secret c ∧ (ac_appID cfg = "" ∨ ac_appID cfg = TrimSpace (fb_appID c)).

Lemma call_verifies d method params : same_credentials → draw_ok d →
  verifyHMAC cfg (call_request marshal c d method params) = Ok tt.
Proof.
  intros [Hsecret Happ] Hd. unfold verifyHMAC.
  destruct (String.eqb_spec (ac_hmacSecret cfg) "") as [|Hne]; [done|].
  destruct (nonce_visible d Hd) as [Hv Hn].
  change (rq_Header (call_request marshal c d method params) "x-app-id") with (fb_appID c).
  change (rq_Header (call_request marshal c d method params) "x-ts") with (pretty (unix (dr_now d))).
  change (rq_Header (call_request marshal c d method params) "x-nonce") with (newNonce d).
  set (text := rq_RawBody _).
  change (rq_Header (call_request marshal c d method params) "x-signature") with
    (signPayload (fb_secret c) text (pretty (unix (dr_now d))) (newNonce d)).
  rewrite (TrimSpace_all_visible (pretty _)) by apply pretty_visible.
  rewrite (TrimSpace_all_visible (newNonce d)) by done. unfold signPayload.
  rewrite (TrimSpace_all_visible (hmac_sha256 _ _)) by apply hmac_visible.
  rewrite Hsecret, String.eqb_refl. cbn [existsb].
  assert (He : ∀ s, s ≠ "" → String.eqb "" s = false) by (intros s Hs; by apply String.eqb_neq).
  rewrite !He; [|done|apply pretty_nonempty|apply hmac_nonempty]. cbn [orb].
  destruct Happ as [->| ->]; [done|]. rewrite String.eqb_refl. by rewrite andb_false_r.
Qed.

(** C35. The adapter accepts every call of a client configured with its secret and
    application, whatever the clock and the nonce; and what it accepts carries the
    HMAC of its own body, under that secret, with the time and the nonce it names. *)
Theorem signatures_match : same_credentials → ac_hmacSecret cfg ≠ "" →
  (∀ d method params, draw_ok d → verifyHMAC cfg (call_request marshal c d method params) = Ok tt)
  ∧ (∀ r, verifyHMAC cfg r = Ok tt →
      TrimSpace (rq_Header r "x-signature")
      = hmac_sha256 (fb_secret c) (signed_text (TrimSpace (rq_Header r "x-ts"))
          (TrimSpace (rq_Header r "x-nonce")) (rq_RawBody r))).
Proof.
  intros Hsame Hne. split; [intros; by apply call_verifies|]. intros r Hr. destruct Hsame as [Hs _].
  unfold verifyHMAC in Hr. rewrite (proj2 (String.eqb_neq _ _) Hne), Hs in Hr.
  destruct (existsb _ _); [done|]. destruct (_ && _); [done|].
  destruct (String.eqb_spec (hmac_sha256 (fb_secret c) (signed_text (TrimSpace (rq_Header r "x-ts"))
    (TrimSpace (rq_Header r "x-nonce")) (rq_RawBody r))) (TrimSpace (rq_Header r "x-signature"))); done.
Qed.
End signatures.

Definition demo_credentials : FiberConfig := mkFiberConfig "http://adapter" "app_1" "secret".
Definition demo_adapter : AdapterConfig := mkAdapterConfig "http://invoices" "http://payer" "app_1" "secret".
Definition demo_draw (n : nat) : Draw := mkDraw (1000000000 * Z.of_nat n) (Some [1; 2; 3; 4; 5; 6; 7; 255]).
Lemma signatures_match_witness :
  same_credentials demo_adapter demo_credentials ∧
  verifyHMAC demo_adapter (call_request (λ _, "{}") demo_credentials (demo_draw 5) "tip.status" (JObj [])) = Ok tt.
Proof.
  assert (Hs : same_credentials demo_adapter demo_credentials) by (split; [done|by right]).
  split; [exact Hs|].
  apply (proj1 (signatures_match (λ _, "{}") demo_adapter demo_credentials Hs ltac:(done))).
  split; [repeat constructor; done|done].
Defined.

(** ** Amounts *)

(** The digits [hex_text] writes in front of [acc] are read as the number. *)
Lemma digit_of_hex d : 0 ≤ d < 16 → digit_of (hex_digit d) = Some d.
Proof.
  intros Hd. assert (Hall : forallb (λ k, bool_decide (digit_of (hex_digit (Z.of_nat k)) = Some (Z.of_nat k)))
    (seq 0 16) = true) by (vm_compute; reflexivity).
  rewrite forallb_forall in Hall. specialize (Hall (Z.to_nat d)). rewrite Z2Nat.id in Hall by lia.
  eapply bool_decide_eq_true_1, Hall, in_seq. lia.
Qed.
Lemma parse_hex_text fuel z acc : 0 ≤ z < 16 ^ Z.of_nat fuel → z ≤ max_uint64 →
  parse_digits 16 0 (hex_text fuel z acc) = parse_digits 16 z acc.
Proof.
  revert z acc. induction fuel as [|fuel IH]; intros z acc Hz Hm; [by replace z with 0 by (cbn in Hz; lia)|].
  rewrite Nat2Z.inj_succ, Z.pow_succ_r in Hz by lia. cbn [hex_text].
  destruct (Z.leb_spec z 0); [by replace z with 0 by lia|].
  pose proof (Z.div_mod z 16 ltac:(lia)) as Hdiv. pose proof (Z.mod_pos_bound z 16 ltac:(lia)) as Hmod.
  assert (Hq : 0 ≤ z / 16 ≤ max_uint64 / 16).
  { split; [apply Z.div_pos; lia|]. by apply Z.div_le_mono. }
  rewrite IH; [|split; [lia|apply Z.div_lt_upper_bound; lia]|unfold max_uint64 in *; lia].
  cbn [parse_digits]. rewrite digit_of_hex by lia.
  destruct (Z.leb_spec 16 (z mod 16)); [lia|].
  destruct (Z.leb_spec (max_uint64 / 16 + 1) (z / 16)); [lia|].
  replace (z / 16 * 16 + z mod 16) with z by lia.
  destruct (Z.ltb_spec max_uint64 z); [lia|done].
Qed.
Lemma hex_text_acc fuel z a s : hex_text fuel z (String a s) ≠ "".
Proof. revert z a s. induction fuel as [|fuel IH]; intros; [done|]. cbn [hex_text]. by case_match. Qed.
Lemma hex_text_nonempty fuel z acc : 0 < z → hex_text (S fuel) z acc ≠ "".
Proof. intros Hz. cbn [hex_text]. rewrite (proj2 (Z.leb_gt z 0)) by done. apply hex_text_acc. Qed.
Lemma hex_quantity_value z : in64 z → 0 ≤ z →
  ∃ digits, hex_quantity z = "0x" +:+ digits ∧ ParseUint 16 digits = (z, None).
Proof.
  intros Hin Hz. unfold hex_quantity. eexists. split; [done|].
  destruct (Z.eqb_spec z 0) as [->|Hne]; [done|]. unfold ParseUint.
  destruct (hex_text 16 z "") as [|a s] eqn:Ht; [by destruct (hex_text_nonempty 15 z "" ltac:(lia))|].
  rewrite <- Ht, parse_hex_text; [done|in64_lia|unfold max_uint64; in64_lia].
Qed.

(** A decimal number, perhaps negative, perhaps with a point. *)
Definition decimal_byte (a : ascii) : bool := is_digit a || Ascii.eqb a "-" || Ascii.eqb a ".".
Lemma decimal_lower a : decimal_byte a = true → Ascii.eqb "x" (lower_ascii a) = false.
Proof.
  intros Ha. assert (H := all_ascii (λ a, negb (decimal_byte a) || negb (Ascii.eqb "x" (lower_ascii a)))
    ltac:(vm_compute; reflexivity) a). cbn beta in H. rewrite Ha in H. by apply negb_true_iff in H.
Qed.
Lemma decimal_no_hex s : all_bytes decimal_byte s = true → HasPrefix (ToLower s) "0x" = false.
Proof.
  destruct s as [|a [|b s]]; [done| |].
  - intros _. unfold HasPrefix. cbn [ToLower strip_prefix]. by destruct (Ascii.eqb "0" (lower_ascii a)).
  - cbn [all_bytes]. intros [_ [Hb _]%andb_true_iff]%andb_true_iff. unfold HasPrefix.
    cbn [ToLower strip_prefix]. rewrite (decimal_lower b Hb). by destruct (Ascii.eqb "0" (lower_ascii a)).
Qed.
Lemma decimal_visible a : decimal_byte a = true → visible a = true.
Proof.
  intros Ha. assert (H := all_ascii (λ a, negb (decimal_byte a) || visible a)
    ltac:(vm_compute; reflexivity) a). cbn beta in H. by rewrite Ha in H.
Qed.
Lemma pretty_decimal (z : Z) : all_bytes decimal_byte (pretty z) = true ∧ has_byte "." (pretty z) = false.
Proof.
  assert (Hd : ∀ x : N, all_bytes decimal_byte (pretty x) = true ∧ has_byte "." (pretty x) = false).
  { intros x. destruct (pretty_N_spec x) as [Hx _]. split.
    - eapply all_bytes_impl; [|exact Hx]. intros a Ha. unfold decimal_byte. by rewrite Ha.
    - by apply (has_byte_all _ is_digit). }
  destruct (decide (0 ≤ z)); [by rewrite pretty_nonneg|].
  rewrite pretty_neg by lia. cbn [all_bytes has_byte]. destruct (Hd (Z.to_N (- z))) as [-> ->]. done.
Qed.
(** [n] zeros. *)
Fixpoint zeros (n : nat) : string := match n with O => "" | S n => String "0" (zeros n) end.
Lemma Trim_zeros n : Trim "0" (zeros n) = "".
Proof. unfold Trim. induction n as [|n IH]; [done|exact IH]. Qed.
Lemma zeros_decimal n : all_bytes decimal_byte (zeros n) = true.
Proof. by induction n. Qed.

Lemma toHexQuantity_decimal (z : Z) suffix : (suffix = "" ∨ ∃ n, suffix = "." +:+ zeros n) → in64 z →
  toHexQuantity (pretty z +:+ suffix) = if z <? 0 then Err integer_amounts else Ok (hex_quantity z).
Proof.
  intros Hs Hz. destruct (pretty_decimal z) as [Hd Hp].
  assert (Hall : all_bytes decimal_byte (pretty z +:+ suffix) = true).
  { rewrite all_bytes_app, Hd. destruct Hs as [->|[n ->]]; [done|]. exact (zeros_decimal n). }
  unfold toHexQuantity. rewrite TrimSpace_all_visible by (eapply all_bytes_impl; [apply decimal_visible|done]).
  rewrite decimal_no_hex by done.
  assert (Hn : match cut_at "." (pretty z +:+ suffix) with
    | (before, Some after) => if String.eqb (Trim "0" after) "" then Ok before else Err integer_amounts
    | (_, None) => Ok (pretty z +:+ suffix) end = Ok (pretty z)).
  { destruct Hs as [->|[n ->]].
    - rewrite app_empty_r, cut_at_none by done. done.
    - change ("." +:+ zeros n) with (String "." (zeros n)). rewrite cut_at_app by done. by rewrite Trim_zeros. }
  rewrite Hn. cbn. by rewrite ParseInt_pretty.
Qed.

(** An amount the settlement service sends reaches a node as the same number: the
    hexadecimal quantity of a decimal integer, with or without a fraction of zeros,
    reads back as the integer, over the whole range of [int64]; a negative amount is
    refused. *)
Theorem amounts_keep_their_value (z : Z) (n : nat) : in64 z →
  if z <? 0 then toHexQuantity (pretty z) = Err integer_amounts
  else ∃ digits, toHexQuantity (pretty z) = Ok ("0x" +:+ digits)
    ∧ toHexQuantity (pretty z +:+ "." +:+ zeros n) = Ok ("0x" +:+ digits)
    ∧ ParseUint 16 digits = (z, None).
Proof.
  intros Hz. assert (H1 := toHexQuantity_decimal z "" (or_introl eq_refl) Hz). rewrite app_empty_r in H1.
  assert (H2 := toHexQuantity_decimal z _ (or_intror (ex_intro _ n eq_refl)) Hz).
  destruct (Z.ltb_spec z 0); [done|]. destruct (hex_quantity_value z Hz) as (ds & Hq & Hp); [done|].
  exists ds. rewrite H1, H2, Hq. done.
Qed.
Lemma amounts_keep_their_value_witness :
  ∃ digits, toHexQuantity "250" = Ok ("0x" +:+ digits) ∧ toHexQuantity "250.00" = Ok ("0x" +:+ digits)
    ∧ ParseUint 16 digits = (250, None).
Proof. exact (amounts_keep_their_value 250 2 ltac:(by vm_compute)). Defined.

(** ** A call over the adapter *)

Definition remote_error (code : Z) (message : string) : error :=
  Errf ("fiber rpc error " +:+ pretty code +:+ ": " +:+ message).
Lemma read_result {T} (target : json → option T) text id v :
  read_answer target StatusOK text (Some (JObj [("jsonrpc", JStr "2.0"); ("id", id); ("result", v)]))
  = match target v with Some x => Ok x | None => Err (Errf "invalid json") end.
Proof. reflexivity. Qed.
Lemma read_error {T} (target : json → option T) text id code message : in64 code →
  read_answer target StatusOK text (Some (JObj [("jsonrpc", JStr "2.0"); ("id", id);
    ("error", JObj [("code", JInt code); ("message", JStr message)])]))
  = Err (remote_error code message).
Proof.
  intros Hc. unfold read_answer, client_error, node_error, decode_field. cbn -[in64 StatusBadRequest StatusOK].
  unfold int_field, decode_field. cbn -[in64 StatusBadRequest StatusOK].
  by rewrite bool_decide_true.
Qed.

Section over.
Context `{MapOrder} (env : AdapterEnv) (cfg : AdapterConfig) (marshal : json → string) (c : FiberConfig).
Context (Hsame : same_credentials cfg c)
  (Hset : blank (fb_endpoint c) || blank (fb_appID c) || blank (fb_secret c) = false).
Abbreviation invoices := (ac_invoiceNode cfg).
Abbreviation transport := (to_adapter env cfg marshal).

(** What the client reads from a reply of the adapter. *)
Definition read_reply {T} (target : json → option T) (res : Response AdapterBody) : result T :=
  read_answer target (rs_Status res) (match rs_Body res with AJson v => marshal v | AText s => s end)
    (match rs_Body res with AJson v => Some v | AText _ => None end).
Lemma call_over {T} d method params (target : json → option T) s : draw_ok d →
  call marshal c transport d method params target s
  = (dispatch env cfg (mkRpcEnvelope (JStr (newRPCID d)) method (Some params)) ≫=
      λ res, lift (read_reply target res)) s.
Proof using Hsame Hset.
  intros Hd. unfold call. rewrite Hset. unfold to_adapter, ServeHTTP.
  change (rq_Method (call_request marshal c d method params)) with "POST".
  change (rq_Path (call_request marshal c d method params)) with "/".
  rewrite (call_verifies marshal cfg c) by done. cbn [String.eqb Ascii.eqb Bool.eqb andb orb negb].
  change (body_fields (rq_Body (call_request marshal c d method params)) ≫= decode_envelope)
    with (Some (mkRpcEnvelope (JStr (newRPCID d)) method (Some params))).
  unfold mbind, st_bind. cbn. destruct (dispatch _ _ _ s) as [s' [res|e]]; done.
Qed.

(** The error a node's failure becomes. *)
Definition node_refusal (e : error) : error := remote_error (-32000) (error_text e).
Lemma read_node_failure {T} (target : json → option T) id e :
  read_reply target (node_failure id e) = Err (node_refusal e).
Proof. by apply read_error. Qed.
Lemma read_rpc_result {T} (target : json → option T) id v :
  read_reply target (rpc_result id v) = match target v with Some x => Ok x | None => Err (Errf "invalid json") end.
Proof. reflexivity. Qed.

(** A tip as it is entered. *)
Definition new_tip (invoice : string) (i : CreateInvoiceInput) : tipRecord :=
  mkTip invoice (ci_PostID i) (ci_FromUserID i) (ci_ToUserID i) (ci_Asset i) (ci_Amount i) (ci_Message i)
    "UNPAID" "".
Definition create_missing (i : CreateInvoiceInput) : bool :=
  existsb (String.eqb "") [ci_PostID i; ci_FromUserID i; ci_ToUserID i; ci_Asset i; ci_Amount i].

(** An invoice is created by the node, and entered. *)
Lemma create_over d i s : draw_ok d →
  client_CreateInvoice marshal c transport d i s
  = if create_missing i then (s, Err (remote_error (-32602) "missing required fields"))
    else match FiberNode.CreateInvoice env invoices (ci_Asset i) (ci_Amount i) (as_asked s) with
         | (h, Ok invoice) =>
             (s <| as_asked := h |> <| as_tipSeq ::= (λ n, n +w 1) |>
                <| as_tips ::= <[invoice := new_tip invoice i]> |>, Ok invoice)
         | (h, Err e) => (s <| as_asked := h |>, Err (node_refusal e))
         end.
Proof using Hsame Hset.
  intros Hd. unfold client_CreateInvoice. rewrite call_over by done.
  change (dispatch env cfg (mkRpcEnvelope (JStr (newRPCID d)) "tip.create" (Some (create_json i))))
    with (handleCreate env cfg (JStr (newRPCID d)) (Some (create_json i))).
  assert (Hdec : (f ← body_fields (Some (create_json i)); decode_create f) = Some i) by exact (create_sent i).
  unfold handleCreate. rewrite Hdec. fold (create_missing i). destruct (create_missing i).
  { unfold mbind, st_bind, mret, st_ret, lift, missing_fields, writeRPCError.
    reflexivity. }
  unfold mbind at 1, st_bind at 1. rewrite or_respond_eq. unfold on_node, zoom.
  destruct (FiberNode.CreateInvoice env invoices (ci_Asset i) (ci_Amount i) (as_asked s)) as [h [inv|e]].
  - reflexivity.
  - reflexivity.
Qed.

(** The state of an invoice is the node's, and is remembered. *)
Lemma status_over d invoice s : draw_ok d → blank invoice = false →
  client_GetInvoiceStatus marshal c transport d invoice s
  = (state ← attempt (on_node (FiberNode.GetInvoiceStatus env invoices invoice));
     match state with
     | Ok state => _ ← updateTipState env invoice state; mret state
     | Err e => throw (node_refusal e)
     end) s.
Proof using Hsame Hset.
  intros Hd Hb. unfold client_GetInvoiceStatus. rewrite call_over by done.
  change (dispatch env cfg (mkRpcEnvelope (JStr (newRPCID d)) "tip.status" (Some (string_json [("invoice", invoice)]))))
    with (handleStatus env cfg (JStr (newRPCID d)) (Some (string_json [("invoice", invoice)]))).
  unfold handleStatus.
  change (f ← body_fields (Some (string_json [("invoice", invoice)])); string_field "invoice" f) with (Some invoice).
  cbv beta iota. rewrite Hb. unfold or_respond, mbind, st_bind.
  destruct (attempt _ s) as [s' [[state|e]|e]]; [|reflexivity|done].
  destruct (updateTipState env invoice state s') as [s'' [u|e]]; reflexivity.
Qed.

(** A payout is the node's payment, and is recorded. *)
Lemma payout_over d i s : draw_ok d → payout_missing i = false →
  wd_Kind (po_Destination i) = "PAYMENT_REQUEST" →
  client_RequestPayout marshal c transport d i s
  = (requestID ← nextID env "wdreq";
     paid ← attempt (on_node (SendPayment env (ac_payerNode cfg) (wd_PaymentRequest (po_Destination i))
                                (po_Amount i) (po_Asset i) requestID));
     match paid with
     | Ok id =>
         let w := mkStatusItem id (po_UserID i) (po_Asset i) (po_Amount i) "COMPLETED" in
         _ ← modify (λ s, s <| as_withdrawalSeq ::= (λ n, n +w 1) |> <| as_withdrawals ::= (λ l, l ++ [w]) |>
                            <| as_withdrawalsByID ::= <[id := w]> |>);
         mret (mkPayoutResult id "COMPLETED")
     | Err e => throw (node_refusal e)
     end) s.
Proof using Hsame Hset.
  intros Hd Hm Hk. unfold client_RequestPayout. rewrite call_over by done.
  change (dispatch env cfg (mkRpcEnvelope (JStr (newRPCID d)) "withdrawal.request" (Some (payout_json i))))
    with (handleRequestWithdrawal env cfg (JStr (newRPCID d)) (Some (payout_json i))).
  assert (Hdec : (f ← body_fields (Some (payout_json i)); decode_payout_input f) = Some i) by exact (payout_sent i).
  unfold handleRequestWithdrawal. rewrite Hdec, Hm, Hk. cbn [String.eqb Ascii.eqb Bool.eqb andb negb].
  unfold or_respond, mbind, st_bind.
  destruct (nextID env "wdreq" s) as [s' [id|e]]; [|done].
  destruct (attempt _ s') as [s'' [[paid|e]|e]]; reflexivity.
Qed.
End over.

(** ** Nodes to evaluate on *)

(** Every invoice is paid, and every payment goes through. *)
Definition demo_answer (h : list AdapterEvent) (method : string) : json :=
  if String.eqb method "new_invoice" then string_json [("invoice_address", "fibt" +:+ pretty (length h))]
  else if String.eqb method "parse_invoice"
  then JObj [("invoice", JObj [("data", string_json [("payment_hash", "0xabc")])])]
  else if String.eqb method "get_invoice" then string_json [("status", "Paid")]
  else if String.eqb method "send_payment" then string_json [("payment_hash", "0xabc")]
  else JNull.
Definition demo_nodes : AdapterEnv := mkAdapterEnv (λ _, "") (λ _, None)
  (λ h _ method _, Ok (StatusOK, Some (JObj [("result", demo_answer h method)])))
  (λ _, Some [0; 1; 2; 3; 4; 5; 6; 7]) (λ h, 1000000000 * Z.of_nat (length h)).
Definition demo_marshal (v : json) : string := "{}".
Lemma demo_draws n : draw_ok (demo_draw n).
Proof. split; [repeat constructor; done|done]. Qed.
Lemma demo_same : same_credentials demo_adapter demo_credentials.
Proof. split; [done|by right]. Qed.
Definition demo_payout : PayoutInput := mkPayoutInput "u1" "CKB" "25" (mkDestination "PAYMENT_REQUEST" "" "fibt1").
Definition demo_invoice (post : string) : CreateInvoiceInput := mkInvoiceInput post "buyer" "seller" "CKB" "100" "".
