(* ===== verification/FiberFeed.v ===== *)
(** * What the Fiber client over the adapter lists: the settled feed, the payouts

    What the client of [FiberClient] reads after any calls: the feed is the settled
    invoices among those that were issued, and does not follow its cursor. *)

From Stdlib Require Import Ascii Morphisms.
From S2P Require Import Prelude GoNum GoText GoFloat GoTime Core Repo Funding Amounts Deposits Http GoBytes.
From S2P Require Import Signatures Settlement Fnn FiberNode FiberAdapter FiberClient FiberAccess.

(** ** Tips *)

(** What never changes of a tip. *)
Definition static (t : tipRecord) : tipRecord := t <| tp_State := "" |> <| tp_SettledAt := "" |>.
Definition tips_kept (s s' : AdapterState) : Prop := static <$> as_tips s' = static <$> as_tips s.
#[export] Instance tips_kept_preorder : PreOrder tips_kept.
Proof. split; red; unfold tips_kept; congruence. Qed.

Section tips.
Context `{MapOrder} (env : AdapterEnv) (cfg : AdapterConfig).

Lemma on_node_kept {T} (m : ST (list AdapterEvent) T) : frames tips_kept (on_node m).
Proof. intros s. unfold on_node, zoom. by destruct (m (as_asked s)). Qed.
Hint Resolve on_node_kept : frames.
Lemma nextID_kept prefix : frames tips_kept (nextID env prefix).
Proof. unfold nextID, adapter_now. solve_frames. Qed.
Lemma adapter_now_kept : frames tips_kept (adapter_now env).
Proof. apply on_node_kept. Qed.
Hint Resolve nextID_kept adapter_now_kept : frames.

Lemma update_kept invoice state : frames tips_kept (updateTipState env invoice state).
Proof.
  intros s. unfold updateTipState. unfold mbind at 1, st_bind at 1, get_st.
  destruct (as_tips s !! invoice) as [t|] eqn:Ht; [|done].
  assert (Hin : ∀ s' t', as_tips s' = as_tips s → static t' = static t →
    tips_kept s (s' <| as_tips ::= <[invoice := t']> |>)).
  { intros s' t' Hs Ht'. unfold tips_kept. cbn. rewrite fmap_insert, Hs, Ht'. apply insert_id.
    by rewrite lookup_fmap, Ht. }
  destruct (String.eqb state "SETTLED" && _); unfold mbind, st_bind; cbn; by apply Hin.
Qed.
Hint Resolve update_kept : frames.
Opaque updateTipState.

Lemma settled_items_kept records : frames tips_kept (settled_items env cfg records).
Proof. induction records as [|t records IH]; cbn; solve_frames. Qed.
Hint Resolve settled_items_kept : frames.

Lemma or_respond_kept {T R} (m : ST AdapterState T) (h : error → R) (k : T → ST AdapterState R) :
  frames tips_kept m → (∀ x, frames tips_kept (k x)) → frames tips_kept (or_respond m h k).
Proof. intros Hm Hk. unfold or_respond. solve_frames. Qed.
Hint Resolve or_respond_kept : frames.

(** Only creating an invoice enters a tip. *)
Lemma dispatch_kept e : en_Method e ≠ "tip.create" → frames tips_kept (dispatch env cfg e).
Proof.
  intros Hm. unfold dispatch. rewrite (proj2 (String.eqb_neq _ _) Hm).
  assert (Hmod : ∀ f : AdapterState → AdapterState, (∀ s, as_tips (f s) = as_tips s) →
    frames tips_kept (modify f)).
  { intros f Hf. apply frames_modify. intros s. unfold tips_kept. by rewrite Hf. }
  repeat case_match; [unfold handleStatus|unfold handleSettledFeed, snapshotTips|
    unfold handleQuoteWithdrawal|unfold handleRequestWithdrawal|unfold handleDashboardSummary|];
    solve_frames; apply or_respond_kept; solve_frames; apply Hmod; done.
Qed.
Transparent updateTipState.
End tips.

(** ** Issued invoices *)

Section feed.
Context `{MapOrder} (env : AdapterEnv) (cfg : AdapterConfig) (marshal : json → string)
  (c : FiberConfig) (draws : nat → Draw).
Context (Hsame : same_credentials cfg c)
  (Hset : blank (fb_endpoint c) || blank (fb_appID c) || blank (fb_secret c) = false)
  (Hdraws : ∀ n, draw_ok (draws n)).
Abbreviation invoices := (ac_invoiceNode cfg).
Abbreviation client := (adapter_client env cfg marshal c draws).
Abbreviation reached := (reached env cfg marshal c draws).
Abbreviation perform := (perform env cfg marshal c draws).

Lemma reached_snoc calls fc : reached (calls ++ [fc]) = perform (length calls) fc (reached calls).
Proof.
  unfold FiberClient.reached. change (length calls) with (0 + length calls)%nat.
  generalize 0%nat new_state. induction calls as [|fc' calls IH]; intros n s; cbn.
  - by rewrite Nat.add_0_r.
  - rewrite IH. by rewrite Nat.add_succ_r.
Qed.

Lemma call_kept {T} d method params (target : json → option T) : draw_ok d → method ≠ "tip.create" →
  frames tips_kept (call marshal c (to_adapter env cfg marshal) d method params target).
Proof using Hsame Hset.
  intros Hd Hm s. rewrite (call_over env cfg marshal c Hsame Hset) by done.
  revert s. apply frames_bind; [apply _|by apply dispatch_kept|]. intros res s. reflexivity.
Qed.
Lemma perform_kept n fc s : (∀ i, fc ≠ FCreateInvoice i) → tips_kept s (perform n fc s).
Proof using Hsame Hset Hdraws.
  intros Hfc. destruct fc; cbn; unfold ignore; [by edestruct Hfc|apply call_kept; done..].
Qed.

(** The [calls] got the invoice from the node, for this input. *)
Definition issued (calls : list FiberCall) (invoice : string) (i : CreateInvoiceInput) : Prop :=
  ∃ before after, calls = before ++ FCreateInvoice i :: after
    ∧ Settlement.CreateInvoice client before i = Ok invoice.
Lemma issued_snoc calls fc invoice i : issued (calls ++ [fc]) invoice i ↔
  issued calls invoice i ∨ fc = FCreateInvoice i ∧ Settlement.CreateInvoice client calls i = Ok invoice.
Proof.
  split.
  - intros (before & after & He & Hr). destruct after as [|x after _] using rev_ind.
    + apply app_inj_tail in He as [-> ->]. by right.
    + left. exists before, after. split; [|done].
      change (before ++ FCreateInvoice i :: after ++ [x]) with (before ++ (FCreateInvoice i :: after) ++ [x]) in He.
      rewrite app_assoc in He. by apply app_inj_tail in He as [-> _].
  - intros [(before & after & -> & Hr)|[-> Hr]].
    + exists before, (after ++ [fc]). by rewrite <- app_assoc.
    + by exists calls, [].
Qed.

(** The tips the adapter remembers are the invoices that were issued. *)
Lemma tips_issued calls invoice :
  (∀ t, as_tips (reached calls) !! invoice = Some t →
     ∃ i, issued calls invoice i ∧ static t = static (new_tip invoice i))
  ∧ (∀ i, issued calls invoice i → is_Some (as_tips (reached calls) !! invoice)).
Proof using Hsame Hset Hdraws.
  induction calls as [|fc calls [IH1 IH2]] using rev_ind.
  { split; [by intros t Ht|]. intros i (before & after & He & _). by destruct before. }
  rewrite reached_snoc.
  assert (Hcase : (∃ i, fc = FCreateInvoice i) ∨ ¬ ∃ i, fc = FCreateInvoice i).
  { destruct fc; [left; by eexists|right; by intros []..]. }
  destruct Hcase as [[i ->]|Hfc].
  2:{ assert (Hk : tips_kept (reached calls) (perform (length calls) fc (reached calls))).
      { apply perform_kept. intros i ->. apply Hfc. by exists i. }
      unfold tips_kept in Hk. apply (f_equal (.!! invoice)) in Hk. rewrite !lookup_fmap in Hk.
      setoid_rewrite issued_snoc. split.
      - intros t Ht. rewrite Ht in Hk. cbn in Hk. destruct (as_tips (reached calls) !! invoice) as [t'|] eqn:Ht'; [|done].
        apply (inj Some) in Hk. destruct (IH1 _ eq_refl) as (i & Hi & Hs). exists i. rewrite Hk. auto.
      - intros i [Hi|[-> _]]; [|by destruct Hfc; exists i]. destruct (IH2 i Hi) as [t Ht]. rewrite Ht in Hk.
        destruct (as_tips (perform _ _ _) !! invoice); [by eexists|done]. }
  setoid_rewrite issued_snoc.
  assert (Hnow : ∀ i0, FCreateInvoice i = FCreateInvoice i0 ∧ Settlement.CreateInvoice client calls i0 = Ok invoice
    ↔ i0 = i ∧ (client_CreateInvoice marshal c (to_adapter env cfg marshal) (draws (length calls)) i (reached calls)).2
               = Ok invoice).
  { intros i0. split; [by intros [[= ->] Hr]|by intros [-> Hr]]. }
  setoid_rewrite Hnow. clear Hnow. cbn [FiberClient.perform]. unfold ignore.
  rewrite (create_over env cfg marshal c Hsame Hset) by done.
  assert (Hkeep : ∀ (m : gmap string tipRecord) e, m = as_tips (reached calls) →
    (∀ t, m !! invoice = Some t → ∃ i0, (issued calls invoice i0 ∨ i0 = i ∧ Err e = Ok invoice)
        ∧ static t = static (new_tip invoice i0))
    ∧ (∀ i0, issued calls invoice i0 ∨ i0 = i ∧ Err e = Ok invoice → is_Some (m !! invoice))).
  { intros m e ->. split.
    - intros t Ht. destruct (IH1 t Ht) as (i0 & ? & ?). exists i0. auto.
    - intros i0 [Hi|[_ ?]]; [by eapply IH2|done]. }
  destruct (create_missing i); [by apply Hkeep|].
  destruct (FiberNode.CreateInvoice env _ _ _ _) as [h [inv|e]]; [|by apply Hkeep]. cbn.
  destruct (decide (inv = invoice)) as [->|Hne].
  - rewrite lookup_insert_eq. split; [|by intros; eexists]. intros t Ht. exists i. apply (inj Some) in Ht as <-. auto.
  - rewrite lookup_insert_ne by done. split.
    + intros t Ht. destruct (IH1 t Ht) as (i0 & ? & ?). exists i0. auto.
    + intros i0 [Hi|[_ [= ?]]]; [by eapply IH2|done].
Qed.

(** ** The loop of the feed *)

Lemma node_call_grows endpoint method params : frames prefix (node_call env endpoint method params).
Proof. intros h. unfold node_call. case_match; [done|]. cbn. by eexists. Qed.
Lemma status_grows invoice : frames prefix (FiberNode.GetInvoiceStatus env invoices invoice).
Proof.
  unfold FiberNode.GetInvoiceStatus, invoicePaymentHash, FiberNode.call.
  repeat first [apply frames_bind; [apply _|apply node_call_grows || idtac|intros ?]
    | apply frames_throw; apply _ | apply frames_ret; apply _ | case_match].
Qed.

(** The item of a tip, some time noted. *)
Definition item_of (t : tipRecord) (item : SettledFeedItem) : Prop :=
  ∃ settledAt, item = feed_item (t <| tp_SettledAt := settledAt |>).
Lemma item_static t u : static u = static t → item_of t (feed_item u).
Proof.
  intros Hs. exists (tp_SettledAt u). destruct t, u. cbv in Hs. injection Hs as -> -> -> -> -> -> ->.
  reflexivity.
Qed.

(** An update remembers the state and keeps the rest. *)
Lemma update_run invoice state s t : as_tips s !! invoice = Some t →
  ∃ s' t', updateTipState env invoice state s = (s', Ok (Some t')) ∧ static t' = static t
    ∧ tp_State t' = state ∧ as_asked s `prefix_of` as_asked s'.
Proof.
  intros Ht. unfold updateTipState. unfold mbind at 1, st_bind at 1, get_st. rewrite Ht.
  destruct (String.eqb state "SETTLED" && _); cbn; eexists _, _; (split; [reflexivity|]); cbn;
    split_and!; try done. by eexists.
Qed.

Section stable.
Context (status : string → result string) (h0 : list AdapterEvent)
  (Hstatus : ∀ h invoice, h0 `prefix_of` h →
     (FiberNode.GetInvoiceStatus env invoices invoice h).2 = status invoice).

Definition settled (t : tipRecord) : bool := bool_decide (status (tp_Invoice t) = Ok "SETTLED").
Lemma settled_items_spec records s s' r : settled_items env cfg records s = (s', r) →
  h0 `prefix_of` as_asked s →
  (∀ t, t ∈ records → static <$> (as_tips s !! tp_Invoice t) = Some (static t)) →
  match r with
  | Ok items => (∀ t, t ∈ records → is_ok (status (tp_Invoice t)) = true)
      ∧ Forall2 item_of (List.filter settled records) items
  | Err e => ∃ t, t ∈ records ∧ status (tp_Invoice t) = Err e
  end.
Proof using Hstatus.
  revert s s' r. induction records as [|t records IH]; intros s s' r Hr Hh Hin.
  { injection Hr as <- <-. split; [|by constructor]. intros t Ht. by apply elem_of_nil in Ht. }
  cbn [settled_items] in Hr. unfold mbind, st_bind at 1, on_node, zoom in Hr.
  pose proof (Hstatus (as_asked s) (tp_Invoice t) Hh) as Hst.
  pose proof (status_grows (tp_Invoice t) (as_asked s)) as Hg.
  destruct (FiberNode.GetInvoiceStatus env invoices (tp_Invoice t) (as_asked s)) as [h1 [state|e]];
    cbn in Hst, Hg; [|injection Hr as <- <-; exists t; by split; [left|]].
  set (s1 := s <| as_asked := h1 |>) in *.
  assert (Ht : static <$> as_tips s1 !! tp_Invoice t = Some (static t)) by (apply Hin; by left).
  destruct (as_tips s1 !! tp_Invoice t) as [u|] eqn:Hu; [|done]. cbn in Ht. apply (inj Some) in Ht.
  destruct (update_run (tp_Invoice t) state s1 u Hu) as (s2 & t' & Hup & Hs' & Hstate & Hg2).
  pose proof (frames_result tips_kept _ _ _ _ (update_kept env (tp_Invoice t) state) Hup) as Hk.
  unfold st_bind in Hr. rewrite Hup in Hr.
  destruct (settled_items env cfg records s2) as [s3 r3] eqn:Hrec.
  apply IH in Hrec.
  - destruct r3 as [items|e]; [|injection Hr as <- <-; destruct Hrec as (x & Hx & He); exists x; by split; [right|]].
    injection Hr as <- <-. destruct Hrec as [Hok Hf]. split.
    + intros x [->|Hx]%elem_of_cons; [by rewrite <- Hst|by apply Hok].
    + cbn [List.filter]. unfold settled at 1. rewrite <- Hst, Hstate.
      destruct (String.eqb_spec state "SETTLED") as [->|Hne].
      * rewrite bool_decide_true by done. constructor; [|done]. apply item_static. congruence.
      * rewrite bool_decide_false by congruence. done.
  - etransitivity; [exact Hh|]. etransitivity; [exact Hg|exact Hg2].
  - intros x Hx. unfold tips_kept in Hk. apply (f_equal (.!! tp_Invoice x)) in Hk. rewrite !lookup_fmap in Hk.
    rewrite Hk. apply Hin. by right.
Qed.
End stable.

(** ** The feed *)

Definition snapshot (s : AdapterState) : list tipRecord := snd <$> map_order (map_to_list (as_tips s)).
Lemma feed_over d i s : draw_ok d → in64 (fi_Limit i) →
  client_ListSettledFeed marshal c (to_adapter env cfg marshal) d i s
  = (items ← attempt (settled_items env cfg (snapshot s));
     match items with
     | Ok items => mret (mkFeedResult (limited (fi_Limit i) items) None)
     | Err e => throw (node_refusal e)
     end) s.
Proof using Hsame Hset.
  intros Hd Hl. unfold client_ListSettledFeed. rewrite (call_over env cfg marshal c Hsame Hset) by done.
  change (dispatch env cfg (mkRpcEnvelope (JStr (newRPCID d)) "tip.settled_feed" (Some (feed_json i))))
    with (handleSettledFeed env cfg (JStr (newRPCID d)) (Some (feed_json i))).
  assert (Hin : feed_input_of (Some (feed_json i)) = Some i) by exact (feed_sent i Hl).
  unfold handleSettledFeed. rewrite Hin. unfold or_respond, snapshotTips, mbind, st_bind, get_st, mret, st_ret.
  fold (snapshot s). destruct (attempt _ s) as [s' [[items|e]|e]]; [|reflexivity|done].
  unfold lift. f_equal. rewrite (read_rpc_result marshal).
  set (l := limited (fi_Limit i) items). unfold struct_of. cbn [as_object mbind option_bind].
  unfold decode_feed_result, decode_field. cbn -[as_list].
  rewrite (list_read _ decode_feed_item feed_item_json); [done|apply feed_item_read|done].
Qed.

(** What an item tells of an invoice is what it was created with. *)
Definition tells (item : SettledFeedItem) (i : CreateInvoiceInput) : Prop :=
  si_PostID item = ci_PostID i ∧ si_FromUserID item = ci_FromUserID i ∧ si_ToUserID item = ci_ToUserID i
  ∧ si_Asset item = ci_Asset i ∧ si_Amount item = ci_Amount i ∧ si_Message item = ci_Message i.

Lemma snapshot_issued calls t : t ∈ snapshot (reached calls) →
  as_tips (reached calls) !! tp_Invoice t = Some t
  ∧ ∃ i, issued calls (tp_Invoice t) i ∧ static t = static (new_tip (tp_Invoice t) i).
Proof using Hsame Hset Hdraws.
  unfold snapshot. intros ([k t'] & -> & Ht)%list_elem_of_fmap. rewrite map_order_perm in Ht.
  apply elem_of_map_to_list in Ht. cbn. destruct (tips_issued calls k) as [Hi _].
  destruct (Hi t' Ht) as (i & Hi' & Hs).
  assert (Hk : tp_Invoice t' = k) by (apply (f_equal tp_Invoice) in Hs; exact Hs).
  rewrite Hk. split; [done|]. by exists i.
Qed.
Lemma snapshot_nodup calls : NoDup (tp_Invoice <$> snapshot (reached calls)).
Proof using Hsame Hset Hdraws.
  unfold snapshot. rewrite <- list_fmap_compose.
  assert (He : tp_Invoice ∘ snd <$> map_order (map_to_list (as_tips (reached calls)))
    = fst <$> map_order (map_to_list (as_tips (reached calls)))).
  { apply Forall_fmap_ext_1, Forall_forall. intros [k t] Ht. cbn.
    assert (Hin : t ∈ snapshot (reached calls)) by (apply list_elem_of_fmap; by exists (k, t)).
    rewrite map_order_perm in Ht. apply elem_of_map_to_list in Ht. destruct (tips_issued calls k) as [Hi _].
    destruct (Hi t Ht) as (i & _ & Hs). apply (f_equal tp_Invoice) in Hs. exact Hs. }
  rewrite He, map_order_perm. apply NoDup_fst_map_to_list.
Qed.
Lemma item_of_invoice t item : item_of t item → si_Invoice item = tp_Invoice t.
Proof. by intros [at_ ->]. Qed.
Lemma take_limited {T} limit (items : list T) : limited limit items `prefix_of` items
  ∧ (limit ≤ 0 → limited limit items = items) ∧ (0 < limit → Z.of_nat (length (limited limit items)) ≤ limit).
Proof.
  unfold limited. destruct (Z.ltb_spec 0 limit) as [Hp|Hp]; cbn; [|split; [done|split; [done|lia]]].
  destruct (Z.ltb_spec limit (Z.of_nat (length items))); [|split; [done|split; [lia|lia]]].
  split; [apply prefix_take|]. split; [lia|]. rewrite length_take. lia.
Qed.

(** C19. What the settled feed tells, read by the settlement service's client through the
    adapter while the node's answers stay the same, is true: each item is an invoice issued
    by the calls before that the node has as settled, told once and with the fields it was
    created with.  Read without a limit the feed is all of them; with one it holds no more
    than the limit, and there is no further page to ask for the rest.  When the node does
    not answer about one issued invoice, the feed fails. *)
Theorem settled_feed_is_the_settled_invoices status calls i :
  in64 (fi_Limit i) →
  (∀ h invoice, as_asked (reached calls) `prefix_of` h →
     (FiberNode.GetInvoiceStatus env invoices invoice h).2 = status invoice) →
  match ListSettledFeed client calls i with
  | Ok feed =>
      sf_NextCursor feed = None ∧ NoDup (si_Invoice <$> sf_Items feed)
      ∧ (∀ item, item ∈ sf_Items feed → status (si_Invoice item) = Ok "SETTLED"
           ∧ ∃ ci, issued calls (si_Invoice item) ci ∧ tells item ci)
      ∧ (fi_Limit i ≤ 0 → ∀ invoice ci, issued calls invoice ci → status invoice = Ok "SETTLED" →
           invoice ∈ si_Invoice <$> sf_Items feed)
      ∧ (0 < fi_Limit i → Z.of_nat (length (sf_Items feed)) ≤ fi_Limit i)
  | Err e => ∃ invoice ci e', issued calls invoice ci ∧ status invoice = Err e' ∧ e = node_refusal e'
  end.
Proof using Hsame Hset Hdraws.
  intros Hl Hst. change (ListSettledFeed client calls i)
    with (client_ListSettledFeed marshal c (to_adapter env cfg marshal) (draws (length calls)) i (reached calls)).2.
  rewrite feed_over by done. set (s := reached calls) in *.
  destruct (settled_items env cfg (snapshot s) s) as [s' r] eqn:Hrun.
  pose proof (settled_items_spec status (as_asked s) Hst _ _ _ _ Hrun ltac:(done)) as Hspec.
  assert (Hsnap : ∀ t, t ∈ snapshot s → static <$> (as_tips s !! tp_Invoice t) = Some (static t)).
  { intros t Ht. destruct (snapshot_issued calls t Ht) as [Hx _]. fold s in Hx. by rewrite Hx. }
  specialize (Hspec Hsnap).
  unfold mbind, st_bind, attempt. rewrite Hrun. destruct r as [items|e]; cbn.
  2:{ destruct Hspec as (t & Ht & He). destruct (snapshot_issued calls t Ht) as (_ & ci & Hi & _).
      by exists (tp_Invoice t), ci, e. }
  destruct Hspec as [_ Hf]. destruct (take_limited (fi_Limit i) items) as (Hpre & Hall & Hlen).
  assert (Hinv : si_Invoice <$> items = tp_Invoice <$> List.filter (settled status) (snapshot s)).
  { clear -Hf. induction Hf as [|t item ts items Ht _ IH]; [done|]. cbn.
    by rewrite IH, (item_of_invoice t item Ht). }
  split; [done|]. split_and!; [| | |exact Hlen].
  - apply (sublist_NoDup _ (si_Invoice <$> items)).
    + rewrite Hinv. eapply sublist_NoDup; [apply (snapshot_nodup calls)|].
      apply fmap_sublist. fold s. generalize (snapshot s) as l. clear. intros l.
      induction l as [|t l IH]; [done|]. cbn. destruct (settled status t); by constructor.
    + apply fmap_sublist. destruct Hpre as [k Hk]. rewrite Hk at 2. by apply sublist_inserts_r.
  - intros item Hin. assert (Hitem : item ∈ items) by (by eapply elem_of_prefix).
    destruct (Forall2_elem_r _ _ _ item Hf Hitem) as (t & Ht & Hof).
    apply list_elem_of_In, filter_In in Ht as [Ht Hs]. apply list_elem_of_In in Ht.
    apply bool_decide_eq_true in Hs. rewrite (item_of_invoice t item Hof).
    destruct (snapshot_issued calls t Ht) as (_ & ci & Hi & Hstat). split; [done|].
    exists ci. split; [done|]. destruct Hof as [at_ ->]. destruct t. cbv in Hstat. injection Hstat as -> -> -> -> -> ->.
    by repeat split.
  - intros Hle invoice ci Hi Hs. rewrite Hall, Hinv by done.
    destruct (proj2 (tips_issued calls invoice) ci Hi) as [t Ht].
    assert (Hk : tp_Invoice t = invoice).
    { destruct (proj1 (tips_issued calls invoice) t Ht) as (ci' & _ & Hstat). by apply (f_equal tp_Invoice) in Hstat. }
    apply list_elem_of_fmap. exists t. split; [done|]. apply list_elem_of_In, filter_In.
    split; [|by rewrite <- Hk in Hs; apply bool_decide_true].
    apply list_elem_of_In. unfold snapshot. apply list_elem_of_fmap. exists (invoice, t).
    split; [done|]. rewrite map_order_perm. by apply elem_of_map_to_list.
Qed.

(** The feed has one page.  The cursor a caller goes on from is decoded and then not
    used: with a limit below the number of settled invoices, every page is the first. *)
Theorem feed_ignores_the_cursor calls limit after after' : in64 limit →
  ListSettledFeed client calls (mkFeedInput limit after)
  = ListSettledFeed client calls (mkFeedInput limit after').
Proof using Hsame Hset Hdraws.
  intros Hl. cbn [adapter_client ListSettledFeed]. by rewrite !feed_over.
Qed.

End feed.

(** Two invoices, both paid, read with a limit of one. *)
#[local] Existing Instance plain_order.
Definition demo_feed_calls : list FiberCall :=
  [FCreateInvoice (demo_invoice "p1"); FInvoiceStatus "other"; FCreateInvoice (demo_invoice "p2")].
Abbreviation demo_client := (adapter_client demo_nodes demo_adapter demo_marshal demo_credentials demo_draw).
Lemma settled_feed_is_the_settled_invoices_witness :
  match ListSettledFeed demo_client demo_feed_calls (mkFeedInput 1 None) with
  | Ok feed => sf_NextCursor feed = None ∧ length (sf_Items feed) = 1%nat
      ∧ (∀ item, item ∈ sf_Items feed → ∃ ci,
           issued demo_nodes demo_adapter demo_marshal demo_credentials demo_draw demo_feed_calls
             (si_Invoice item) ci ∧ tells item ci)
  | Err _ => False
  end.
Proof.
  pose proof (settled_feed_is_the_settled_invoices demo_nodes demo_adapter demo_marshal demo_credentials
    demo_draw demo_same eq_refl demo_draws (λ _, Ok "SETTLED") demo_feed_calls (mkFeedInput 1 None)
    ltac:(by vm_compute) ltac:(intros h invoice _; reflexivity)) as H.
  assert (Hok : ∃ feed, ListSettledFeed demo_client demo_feed_calls (mkFeedInput 1 None) = Ok feed
    ∧ length (sf_Items feed) = 1%nat).
  { eexists. split; vm_compute; reflexivity. }
  destruct Hok as (feed & Hfeed & Hlen). rewrite Hfeed in H |- *. destruct H as (Hc & _ & Hi & _).
  split; [exact Hc|]. split; [exact Hlen|]. intros item Hin. exact (proj2 (Hi item Hin)).
Defined.
Lemma feed_ignores_the_cursor_witness :
  ListSettledFeed demo_client demo_feed_calls (mkFeedInput 1 None)
  = ListSettledFeed demo_client demo_feed_calls (mkFeedInput 1 (Some (mkFeedCursor "2024-01-01T00:00:00Z" "tip_1"))).
Proof.
  apply (feed_ignores_the_cursor demo_nodes demo_adapter demo_marshal demo_credentials demo_draw demo_same
    eq_refl demo_draws). by vm_compute.
Defined.

(** * Payouts of the Fiber client over the adapter

    A payout is a payment of the payer's node; what is listed of a user's payouts is
    those that succeeded, in order; a request that is presented again pays again. *)

Section payouts.
Context `{MapOrder} (env : AdapterEnv) (cfg : AdapterConfig) (marshal : json → string)
  (c : FiberConfig) (draws : nat → Draw).
Context (Hsame : same_credentials cfg c)
  (Hset : blank (fb_endpoint c) || blank (fb_appID c) || blank (fb_secret c) = false)
  (Hdraws : ∀ n, draw_ok (draws n)).
Abbreviation payer := (ac_payerNode cfg).
Abbreviation client := (adapter_client env cfg marshal c draws).
Abbreviation reached := (reached env cfg marshal c draws).
Abbreviation perform := (perform env cfg marshal c draws).

(** ** What changes the list of withdrawals *)

Definition same_withdrawals (s s' : AdapterState) : Prop := as_withdrawals s' = as_withdrawals s.
#[local] Instance same_withdrawals_preorder : PreOrder same_withdrawals.
Proof. split; red; unfold same_withdrawals; congruence. Qed.
Lemma on_node_withdrawals {T} (m : ST (list AdapterEvent) T) : frames same_withdrawals (on_node m).
Proof. intros s. unfold on_node, zoom. by destruct (m (as_asked s)). Qed.
Hint Resolve on_node_withdrawals : frames.
Lemma nextID_withdrawals prefix : frames same_withdrawals (nextID env prefix).
Proof. unfold nextID, adapter_now. solve_frames. Qed.
Lemma modify_withdrawals f : (∀ s, as_withdrawals (f s) = as_withdrawals s) →
  frames same_withdrawals (modify f).
Proof. intros Hf. apply frames_modify. exact Hf. Qed.
Lemma update_withdrawals invoice state : frames same_withdrawals (updateTipState env invoice state).
Proof. unfold updateTipState, adapter_now. solve_frames; by apply modify_withdrawals. Qed.
Hint Resolve nextID_withdrawals update_withdrawals : frames.
Lemma or_respond_withdrawals {T R} (m : ST AdapterState T) (h : error → R) (k : T → ST AdapterState R) :
  frames same_withdrawals m → (∀ x, frames same_withdrawals (k x)) → frames same_withdrawals (or_respond m h k).
Proof. intros Hm Hk. unfold or_respond. solve_frames. Qed.
Opaque updateTipState.
Lemma items_withdrawals records : frames same_withdrawals (settled_items env cfg records).
Proof. induction records as [|t records IH]; cbn; solve_frames. Qed.
Hint Resolve items_withdrawals : frames.
Lemma dispatch_withdrawals e : en_Method e ≠ "withdrawal.request" →
  frames same_withdrawals (dispatch env cfg e).
Proof.
  intros Hm. unfold dispatch. rewrite (proj2 (String.eqb_neq _ _) Hm).
  repeat case_match; [unfold handleCreate|unfold handleStatus|unfold handleSettledFeed, snapshotTips|
    unfold handleQuoteWithdrawal|unfold handleDashboardSummary|];
    solve_frames; try (apply or_respond_withdrawals; solve_frames); by apply modify_withdrawals.
Qed.
Transparent updateTipState.

Lemma call_withdrawals {T} d method params (target : json → option T) : draw_ok d →
  method ≠ "withdrawal.request" →
  frames same_withdrawals (call marshal c (to_adapter env cfg marshal) d method params target).
Proof using Hsame Hset.
  intros Hd Hm s. rewrite (call_over env cfg marshal c Hsame Hset) by done.
  revert s. apply frames_bind; [apply _|by apply dispatch_withdrawals|]. intros res s. reflexivity.
Qed.

(** A payout, as it is recorded. *)
Definition recorded (i : PayoutInput) (id : string) : WithdrawalStatusItem :=
  mkStatusItem id (po_UserID i) (po_Asset i) (po_Amount i) "COMPLETED".
Lemma payout_refused d i s : draw_ok d →
  payout_missing i = true ∨ wd_Kind (po_Destination i) ≠ "PAYMENT_REQUEST" →
  ∃ e, client_RequestPayout marshal c (to_adapter env cfg marshal) d i s = (s, Err e).
Proof using Hsame Hset.
  intros Hd Hbad. unfold client_RequestPayout. rewrite (call_over env cfg marshal c Hsame Hset) by done.
  change (dispatch env cfg (mkRpcEnvelope (JStr (newRPCID d)) "withdrawal.request" (Some (payout_json i))))
    with (handleRequestWithdrawal env cfg (JStr (newRPCID d)) (Some (payout_json i))).
  assert (Hdec : (f ← body_fields (Some (payout_json i)); decode_payout_input f) = Some i) by exact (payout_sent i).
  unfold handleRequestWithdrawal. rewrite Hdec. destruct (payout_missing i); [by eexists|].
  destruct Hbad as [|Hk]; [done|]. rewrite (proj2 (String.eqb_neq _ _) Hk). by eexists.
Qed.
Lemma payout_records d i s : draw_ok d →
  let '(s', r) := client_RequestPayout marshal c (to_adapter env cfg marshal) d i s in
  as_withdrawals s' = as_withdrawals s ++ match r with Ok p => [recorded i (pr_ID p)] | Err _ => [] end.
Proof using Hsame Hset.
  intros Hd. destruct (decide (payout_missing i = false ∧ wd_Kind (po_Destination i) = "PAYMENT_REQUEST"))
    as [[Hm Hk]|Hbad].
  2:{ destruct (payout_refused d i s Hd) as [e ->]; [|by rewrite app_nil_r].
      destruct (payout_missing i); [by left|right]. intros Hk. by apply Hbad. }
  rewrite payout_over by done. unfold mbind, st_bind.
  pose proof (nextID_withdrawals "wdreq" s) as Hn. unfold same_withdrawals in Hn.
  destruct (nextID env "wdreq" s) as [s1 [rid|e]]; cbn in Hn; [|by rewrite app_nil_r].
  unfold attempt, on_node, zoom. destruct (SendPayment _ _ _ _ _ _ _) as [h [id|e]]; cbn; rewrite <- Hn; [done|].
  by rewrite app_nil_r.
Qed.

(** The payouts that succeeded among the calls, the ones [before] them already made. *)
Fixpoint payouts (before calls : list FiberCall) : list WithdrawalStatusItem :=
  match calls with
  | [] => []
  | fc :: calls =>
      match fc with
      | FPayout i => match RequestPayout client before i with Ok p => [recorded i (pr_ID p)] | Err _ => [] end
      | _ => []
      end ++ payouts (before ++ [fc]) calls
  end.
Lemma withdrawals_are_payouts calls before :
  as_withdrawals (reached (before ++ calls)) = as_withdrawals (reached before) ++ payouts before calls.
Proof using Hsame Hset Hdraws.
  revert before. induction calls as [|fc calls IH]; intros before; cbn [payouts]; [by rewrite !app_nil_r|].
  replace (before ++ fc :: calls) with ((before ++ [fc]) ++ calls) by (by rewrite <- app_assoc).
  rewrite IH, app_assoc. f_equal. rewrite (reached_snoc env cfg marshal c draws).
  destruct fc; cbn [FiberClient.perform]; unfold ignore; try (rewrite app_nil_r; by apply call_withdrawals).
  pose proof (payout_records (draws (length before)) i (reached before) (Hdraws _)) as Hp.
  change (RequestPayout client before i) with
    (client_RequestPayout marshal c (to_adapter env cfg marshal) (draws (length before)) i (reached before)).2.
  by destruct (client_RequestPayout _ _ _ _ _ _).
Qed.

(** C20. What the settlement service is told of the withdrawals of a user is the user's
    payouts that succeeded, each once, in the order they were made, with the identifier
    of the payment, all completed; asked about no user, everybody's. *)
Theorem listed_withdrawals_are_payouts calls userID :
  ListWithdrawalStatuses client calls userID
  = Ok (List.filter (λ w, String.eqb userID "" || String.eqb (wi_UserID w) userID) (payouts [] calls)).
Proof using Hsame Hset Hdraws.
  change (ListWithdrawalStatuses client calls userID) with
    (client_ListWithdrawalStatuses marshal c (to_adapter env cfg marshal) (draws (length calls)) userID (reached calls)).2.
  unfold client_ListWithdrawalStatuses. rewrite (call_over env cfg marshal c Hsame Hset) by done.
  change (dispatch env cfg (mkRpcEnvelope (JStr (newRPCID (draws (length calls)))) "dashboard.summary"
      (Some (statuses_json userID))))
    with (handleDashboardSummary (JStr (newRPCID (draws (length calls)))) (Some (statuses_json userID))).
  unfold handleDashboardSummary. change (summary_user (Some (statuses_json userID))) with userID.
  unfold mbind, st_bind, get_st, mret, st_ret, lift. cbn [snd]. rewrite (read_rpc_result marshal).
  assert (Hw : as_withdrawals (reached calls) = payouts [] calls) by exact (withdrawals_are_payouts calls []).
  rewrite Hw. set (l := List.filter _ _).
  change (struct_of decode_statuses (JObj [("admin", JObj [("withdrawals", JArr (status_item_json <$> l))])]))
    with (as_list (mkStatusItem "" "" "" "" "") decode_status_item (JArr (status_item_json <$> l))).
  by rewrite (list_read _ decode_status_item status_item_json); [|apply status_item_read|].
Qed.
End payouts.

(** ** Presenting a request again *)

(** The payments a trace asks for. *)
Definition pays (e : AdapterEvent) : bool :=
  match e with ANode _ method _ => String.eqb method "send_payment" | _ => false end.
Definition payments (h : list AdapterEvent) : nat := length (List.filter pays h).
#[local] Arguments payments : simpl never.
Lemma payments_app h t : payments (h ++ t) = (payments h + payments t)%nat.
Proof. unfold payments. by rewrite List.filter_app, length_app. Qed.

Section replay.
Context `{MapOrder} (env : AdapterEnv) (cfg : AdapterConfig).

Lemma node_call_adds endpoint method params h h' r :
  node_call env endpoint method params h = (h', r) → is_ok r = true →
  h' = h ++ [ANode endpoint method params].
Proof. unfold node_call. case_match; intros [= <- <-]; done. Qed.
(** A payment that was made was asked of the node once. *)
Lemma SendPayment_once endpoint invoice amount asset requestID h h' id :
  SendPayment env endpoint invoice amount asset requestID h = (h', Ok id) →
  payments h' = S (payments h).
Proof.
  intros Hs. unfold SendPayment, invoicePaymentHash, FiberNode.call in Hs.
  apply bind_Ok in Hs as (h1 & hash & Hp & Hs). apply bind_Ok in Hp as (h2 & res & Hc & Hp).
  apply node_call_adds in Hc as ->; [|done]. destruct (blank _); [done|]. injection Hp as <- _.
  apply bind_Ok in Hs as (h3 & hex & Hx & Hs). injection Hx as <- _.
  apply bind_Ok in Hs as (h4 & res' & Hc & Hs). apply node_call_adds in Hc as ->; [|done].
  destruct (String.eqb _ ""); [done|]. injection Hs as <- _. rewrite !payments_app.
  change (payments [ANode endpoint "parse_invoice" [string_json [("invoice", invoice)]]]) with 0%nat.
  change (payments [ANode endpoint "send_payment" _]) with 1%nat. lia.
Qed.
Lemma nextID_free prefix s : ∃ s' id, nextID env prefix s = (s', Ok id)
  ∧ payments (as_asked s') = payments (as_asked s) ∧ as_withdrawals s' = as_withdrawals s.
Proof.
  unfold nextID, adapter_now, on_node, zoom, mbind, st_bind. cbn.
  destruct (ae_random env (as_asked s)); cbn; eexists _, _; (split; [reflexivity|]); cbn;
    rewrite ?payments_app; change (payments [ARandom]) with 0%nat; change (payments [ANow]) with 0%nat; split; (lia || done).
Qed.

(** The request, presented a number of times. *)
Fixpoint present (n : nat) (r : Request) (s : AdapterState) : AdapterState :=
  match n with O => s | S n => present n r (ServeHTTP env cfg r s).1 end.

(** A payout request of the client, once it has been signed, pays every time it
    arrives: the check of a signature looks at neither the age of the time it names nor
    the nonce, so whoever records the request has the payer's node asked for the same
    payment as often as they like, and each payment is recorded as a withdrawal. *)
Theorem replays_pay_again marshal c d i n s :
  same_credentials cfg c → draw_ok d →
  payout_missing i = false → wd_Kind (po_Destination i) = "PAYMENT_REQUEST" →
  (∀ requestID h, is_ok (SendPayment env (ac_payerNode cfg) (wd_PaymentRequest (po_Destination i))
      (po_Amount i) (po_Asset i) requestID h).2 = true) →
  let s' := present n (call_request marshal c d "withdrawal.request" (payout_json i)) s in
  payments (as_asked s') = (payments (as_asked s) + n)%nat
  ∧ length (as_withdrawals s') = (length (as_withdrawals s) + n)%nat.
Proof.
  intros Hsame Hd Hm Hk Hpay. cbv zeta. revert s. induction n as [|n IH]; intros s; cbn [present]; [lia|].
  set (r := call_request _ _ _ _ _) in *.
  assert (Hrun : ServeHTTP env cfg r s
    = handleRequestWithdrawal env cfg (JStr (newRPCID d)) (Some (payout_json i)) s).
  { unfold ServeHTTP. change (rq_Method r) with "POST". change (rq_Path r) with "/".
    unfold r at 1. rewrite call_verifies by done. reflexivity. }
  assert (Hone : payments (as_asked (ServeHTTP env cfg r s).1) = S (payments (as_asked s))
    ∧ length (as_withdrawals (ServeHTTP env cfg r s).1) = S (length (as_withdrawals s))).
  { rewrite Hrun.
    assert (Hdec : (f ← body_fields (Some (payout_json i)); decode_payout_input f) = Some i) by exact (payout_sent i).
    unfold handleRequestWithdrawal. rewrite Hdec, Hm, Hk. cbn [String.eqb Ascii.eqb Bool.eqb andb negb].
    destruct (nextID_free "wdreq" s) as (s1 & rid & Hid & Hp1 & Hw1).
    rewrite !(bind_run _ _ _ _ _ Hid), !or_respond_eq. unfold on_node, zoom.
    specialize (Hpay rid (as_asked s1)).
    destruct (SendPayment _ _ _ _ _ _ _) as [h [id|e]] eqn:Hs; [|done].
    apply SendPayment_once in Hs. unfold mbind, st_bind, modify, mret, st_ret. cbn.
    rewrite Hs, Hp1, length_app, Hw1. cbn. lia. }
  destruct (IH (ServeHTTP env cfg r s).1) as [-> ->]. lia.
Qed.
End replay.

#[local] Existing Instance plain_order.
Lemma listed_withdrawals_are_payouts_witness :
  ListWithdrawalStatuses (adapter_client demo_nodes demo_adapter demo_marshal demo_credentials demo_draw)
    [FPayout demo_payout; FQuote demo_payout; FPayout (mkPayoutInput "u2" "CKB" "7" (mkDestination "PAYMENT_REQUEST" "" "fibt2"))] "u1"
  = Ok [mkStatusItem "0xabc" "u1" "CKB" "25" "COMPLETED"].
Proof.
  rewrite (listed_withdrawals_are_payouts demo_nodes demo_adapter demo_marshal demo_credentials demo_draw
    demo_same eq_refl demo_draws).
  vm_compute. reflexivity.
Defined.
Lemma replays_pay_again_witness :
  payments (as_asked (present demo_nodes demo_adapter 3
    (call_request demo_marshal demo_credentials (demo_draw 5) "withdrawal.request" (payout_json demo_payout))
    new_state)) = (payments [] + 3)%nat.
Proof.
  refine (proj1 (replays_pay_again demo_nodes demo_adapter demo_marshal demo_credentials (demo_draw 5) demo_payout 3
    new_state demo_same (demo_draws 5) eq_refl eq_refl _)).
  intros requestID h. reflexivity.
Defined.
