(* ===== verification/CkbWallet.v ===== *)
(** * The deposit wallet on CKB (services/settlement/buyer_deposit_wallet_ckb.go)

    Deposit addresses derived from a master seed, the balance of the cells that carry
    the deposited token, and the transaction that sweeps them to the treasury.

    The CKB SDK, the curve and the address encoding are the parameter [CkbSdk]; the
    node of the chain is a function of what was asked of it before.  Amounts of the
    chain are uint64, those of a deposit int64; [big.Int.Int64] keeps the low 64 bits,
    which is what it does, though it only documents the values that fit. *)

From Stdlib Require Import Ascii.
From S2P Require Import Prelude GoNum GoText Core Repo App Amounts Deposits Http GoBytes Traces Fnn.
From S2P Require Import FiberNode.

(** ** Chain data *)

Inductive Network := NetworkMain | NetworkTest | NetworkPreview | NetworkOther (n : Z).
#[export] Instance Network_eq_dec : EqDecision Network.
Proof. solve_decision. Defined.
Inductive Encoding := BECH32 | BECH32M.
#[export] Instance Encoding_eq_dec : EqDecision Encoding.
Proof. solve_decision. Defined.
Inductive DepType := DepTypeCode | DepTypeDepGroup.

Section types.
Context {Hash : Type}.
Record Script := mkScript { sc_CodeHash : Hash; sc_HashType : string; sc_Args : list Z }.
Record OutPoint := mkOutPoint { op_TxHash : Hash; op_Index : Z }.
Record CellOutput := mkCellOutput {
  co_Capacity : Z;
  co_Lock : option Script;
  co_Type : option Script;
}.
(** [PreviousOutput] is never nil: cells without an out point are left out before. *)
Record CellInput := mkCellInput { in_Since : Z; in_PreviousOutput : OutPoint }.
Record CellDep := mkCellDep { cd_OutPoint : OutPoint; cd_DepType : DepType }.
Record Transaction := mkTransaction {
  tx_Version : Z;
  tx_CellDeps : list CellDep;
  tx_HeaderDeps : list Hash;
  tx_Inputs : list CellInput;
  tx_Outputs : list CellOutput;
  tx_OutputsData : list (list Z);
  tx_Witnesses : list (list Z);
}.
#[export] Instance Transaction_eta : Eta Transaction := λ t,
  mkTransaction (tx_Version t) (tx_CellDeps t) (tx_HeaderDeps t) (tx_Inputs t) (tx_Outputs t)
    (tx_OutputsData t) (tx_Witnesses t).
#[export] Instance CellOutput_eta : Eta CellOutput := λ o,
  mkCellOutput (co_Capacity o) (co_Lock o) (co_Type o).
End types.
Arguments Script : clear implicits.
Arguments OutPoint : clear implicits.
Arguments CellOutput : clear implicits.
Arguments CellInput : clear implicits.
Arguments CellDep : clear implicits.
Arguments Transaction : clear implicits.

(** What is used of ckb-sdk-go and btcec.  [sdk_serialize_lock] is the serialization
    of a [WitnessArgs] with that lock; [sdk_out_point] and [sdk_cell_output] decode
    JSON into what a pointer holds; a private key is its bytes. *)
Class CkbSdk := {
  Hash : Type;
  HexToHash : string → Hash;
  Hash_Hex : Hash → string;
  Hash_Bytes : Hash → list Z;
  BytesToHash : list Z → Hash;
  HashTypeData : string;
  HashTypeData1 : string;
  HashTypeData2 : string;
  HashTypeType : string;
  SerializeHashTypeByte : string → result Z;
  DeserializeHashTypeByte : Z → result string;
  bech32_Decode : string → result (Encoding * string * list Z);
  ConvertBits : list Z → Z → Z → bool → result (list Z);
  EncodeWithBech32m : string → list Z → result string;
  Blake256 : list Z → list Z;
  Blake160 : list Z → list Z;
  curve_order : Z;
  SerializeCompressed : list Z → list Z;
  SignCompact : list Z → list Z → result (list Z);
  OccupiedCapacity : CellOutput Hash → list Z → Z;
  CalculateFee : Transaction Hash → Z → Z;
  ComputeHash : Transaction Hash → Hash;
  sdk_serialize_lock : list Z → list Z;
  sdk_out_point : option (OutPoint Hash) → json → option (OutPoint Hash);
  sdk_cell_output : option (CellOutput Hash) → json → option (CellOutput Hash);
}.

(** ** Configuration *)

Definition defaultBuyerDepositCKBQueryPageLimit : Z := 100.
Definition defaultBuyerDepositCKBQueryMaxPages : Z := 20.
Definition defaultBuyerDepositCKBFeeRate : Z := 1000.
Definition defaultBuyerDepositKeyRetryLimit : nat := 256.

Record CKBBuyerDepositWalletConfig := mkCkbConfig {
  cw_RPCURL : string;
  cw_MasterSeed : string;
  cw_Network : Network;
  cw_UDTTypeScript : UDTTypeScript;
  cw_UDTCellDepTxHash : string;
  cw_UDTCellDepIndex : Z;
  cw_QueryPageLimit : Z;
  cw_QueryMaxPages : Z;
  cw_ConfirmationBlocks : Z;
  cw_RawUnitsPerWholeUSDI : Z;
}.
Definition known_network (n : Network) : Network :=
  if bool_decide (n = NetworkMain) || bool_decide (n = NetworkTest) || bool_decide (n = NetworkPreview)
  then n else NetworkTest.
Definition NewCKBBuyerDepositWallet (cfg : CKBBuyerDepositWalletConfig)
    : result CKBBuyerDepositWalletConfig :=
  let script := cw_UDTTypeScript cfg in
  if blank (cw_RPCURL cfg) then Err (Errf "buyer deposit ckb rpc url is required")
  else if blank (cw_MasterSeed cfg) then Err (Errf "buyer deposit wallet master seed is required")
  else if blank (udt_CodeHash script) || blank (udt_HashType script) || blank (udt_Args script)
  then Err (Errf "buyer deposit udt type script is required")
  else if blank (cw_UDTCellDepTxHash cfg)
  then Err (Errf "buyer deposit udt cell dep tx hash is required")
  else Ok (mkCkbConfig (cw_RPCURL cfg) (cw_MasterSeed cfg) (known_network (cw_Network cfg)) script
    (cw_UDTCellDepTxHash cfg) (cw_UDTCellDepIndex cfg)
    (if_positive (cw_QueryPageLimit cfg) defaultBuyerDepositCKBQueryPageLimit)
    (if_positive (cw_QueryMaxPages cfg) defaultBuyerDepositCKBQueryMaxPages)
    (cw_ConfirmationBlocks cfg)
    (if_positive (cw_RawUnitsPerWholeUSDI cfg) defaultBuyerDepositRawUnitsPerWholeUSDI)).

(** ** Numbers *)

(** uint64 *)
Definition wrapu (z : Z) : Z := z mod 2 ^ 64.
Notation "a +u b" := (wrapu (a + b)) (at level 50, left associativity) : go_scope.
Notation "a -u b" := (wrapu (a - b)) (at level 50, left associativity) : go_scope.

Definition parseHexUint64 (raw : string) : Z :=
  let raw := TrimSpace raw in
  if String.eqb raw "" then 0
  else
    match (if HasPrefix (ToLower raw) "0x"
           then ParseUint 16 (String.substring 2 (String.length raw - 2) raw)
           else ParseUint 10 raw) with
    | (value, None) => value
    | (_, Some _) => 0
    end.
Definition decodeHexBytes (raw : string) : result (list Z) :=
  let raw := TrimSpace (TrimPrefix (TrimPrefix raw "0x") "0X") in
  if String.eqb raw "" then Ok [] else hex_decode raw.

(** Sixteen bytes, the lowest first; the token's amounts are uint128. *)
Definition parseXUDTAmount (outputData : string) : Z :=
  let data := TrimPrefix (TrimSpace outputData) "0x" in
  if (String.length data <? 32)%nat then 0
  else match hex_decode (prefix_bytes 32 data) with
       | Err _ => 0
       | Ok raw => wrap64 (number_of (rev raw))
       end.
Definition encodeBuyerDepositSudtAmount (amount : Z) : list Z := rev (big_endian 16 amount).

Definition isBuyerDepositCellConfirmed (tipNumber : Z) (blockNumber : string)
    (confirmationBlocks : Z) : bool :=
  if confirmationBlocks =? 0 then true
  else
    let height := parseHexUint64 blockNumber in
    if height =? 0 then false else height +u confirmationBlocks <=? tipNumber.

(** ** Addresses *)

Section addresses.
Context `{CkbSdk}.

Definition buyerDepositAddressHRP (network : Network) : result string :=
  match network with
  | NetworkMain => Ok "ckb"
  | NetworkTest | NetworkPreview => Ok "ckt"
  | NetworkOther n => Err (Errf ("unsupported buyer deposit network " +:+ pretty n))
  end.
Definition buyerDepositNetworkFromHRP (hrp : string) : result Network :=
  if String.eqb hrp "ckb" then Ok NetworkMain
  else if String.eqb hrp "ckt" then Ok NetworkTest
  else Err (Errf ("unsupported buyer deposit address hrp " +:+ quoted hrp)).

Definition secp_code_hash : Hash :=
  HexToHash "0x9bd7e06f3ecf4be0f2fcd2188b23f1b9fcc88e5d4b65a8637b17723bbda3cce8".
Definition buyerDepositSecp256k1LockScript (compressedPubKey : list Z) : Script Hash :=
  mkScript secp_code_hash HashTypeType (Blake160 compressedPubKey).
Definition buyerDepositSecpCellDep (network : Network) : result (CellDep Hash) :=
  let dep txHash := Ok (mkCellDep (mkOutPoint (HexToHash txHash) 0) DepTypeDepGroup) in
  match network with
  | NetworkMain => dep "0x71a7ba8fc96349fea0ed3a5c47992e3b4084b031a42264a018e0072e8172e46c"
  | NetworkTest | NetworkPreview =>
      dep "0xf8de3bb47d055cdf460d93a2a6e1b05f7432f9777c8c474abf4eec1d4aee5d37"
  | NetworkOther n => Err (Errf ("unsupported buyer deposit network " +:+ pretty n))
  end.
Definition buyerDepositShortCodeHash (network : Network) (codeHashIndex : Z)
    : result (Hash * string) :=
  if codeHashIndex =? 0 then Ok (secp_code_hash, HashTypeType)
  else if codeHashIndex =? 1 then
    Ok (HexToHash "0x5c5069eb0857efc65e1bca0c07df34c31663b3622fd3876c876320fc9634e2a8", HashTypeType)
  else if codeHashIndex =? 2 then
    if bool_decide (network = NetworkMain)
    then Ok (HexToHash "0xd369597ff47f29fbc0d47d2e3775370d1250b85140c670e4718af712983a2354", HashTypeType)
    else Ok (HexToHash "0x3419a1c09eb2567f6552ee7a8ecffd64155cffe0f1796e6e61ec088d740c1356", HashTypeType)
  else Err (Errf ("unsupported buyer deposit short code hash index " +:+ hex_quantity codeHashIndex)).

Definition encodeBuyerDepositAddress (script : Script Hash) (network : Network) : result string :=
  hashType ← SerializeHashTypeByte (sc_HashType script);
  payload ← ConvertBits ([0] ++ Hash_Bytes (sc_CodeHash script) ++ [hashType] ++ sc_Args script) 8 5 true;
  hrp ← buyerDepositAddressHRP network;
  EncodeWithBech32m hrp payload.

(** The payload by its first byte: the full format, the short one, the old full ones. *)
Definition decode_payload (encoding : Encoding) (network : Network) (payload : list Z)
    : result (Script Hash) :=
  match payload with
  | [] => Err (Errf "buyer deposit address payload is empty")
  | header :: rest =>
      if header =? 0 then
        if bool_decide (encoding ≠ BECH32M)
        then Err (Errf "payload header 0x00 must use bech32m")
        else if (length payload <? 34)%nat
        then Err (Errf "buyer deposit full address payload is too short")
        else
          hashType ← DeserializeHashTypeByte (nth 33 payload 0);
          Ok (mkScript (BytesToHash (take 32 rest)) hashType (drop 34 payload))
      else if header =? 1 then
        if bool_decide (encoding ≠ BECH32)
        then Err (Errf "payload header 0x01 must use bech32")
        else if (length payload <? 2)%nat
        then Err (Errf "buyer deposit short address payload is too short")
        else
          '(codeHash, hashType) ← buyerDepositShortCodeHash network (nth 1 payload 0);
          Ok (mkScript codeHash hashType (drop 2 payload))
      else if (header =? 2) || (header =? 4) then
        if bool_decide (encoding ≠ BECH32)
        then Err (Errf "payload header 0x02 or 0x04 must use bech32")
        else if (length payload <? 33)%nat
        then Err (Errf "buyer deposit full bech32 payload is too short")
        else Ok (mkScript (BytesToHash (take 32 rest))
                   (if header =? 4 then HashTypeType else HashTypeData) (drop 33 payload))
      else Err (Errf ("unsupported buyer deposit address payload header " +:+ hex_quantity header))
  end.
Definition decodeBuyerDepositAddressScript (encoded : string) : result (Script Hash) :=
  '(encoding, hrp, decoded) ← bech32_Decode encoded;
  network ← buyerDepositNetworkFromHRP hrp;
  payload ← ConvertBits decoded 5 8 false;
  decode_payload encoding network payload.

Definition lockScriptForRecord (record : BuyerDepositAddress) : result UDTTypeScript :=
  addr ← decodeBuyerDepositAddressScript (da_Address record);
  Ok (mkUDTTypeScript (Hash_Hex (sc_CodeHash addr)) (sc_HashType addr)
        ("0x" +:+ hex_encode (sc_Args addr))).
Definition parseCKBHashType (raw : string) : string :=
  let raw := ToLower (TrimSpace raw) in
  if String.eqb raw "data" then HashTypeData
  else if String.eqb raw "data1" then HashTypeData1
  else if String.eqb raw "data2" then HashTypeData2
  else HashTypeType.

(** ** Keys *)

(** The loop of [deriveKey]: the attempts from this one on. *)
Fixpoint derive_attempts (tries : nat) (seed : string) (index attempt : Z) : option (list Z) :=
  match tries with
  | O => None
  | S tries =>
      let hash := Blake256 (bytes_of (seed +:+ ":" +:+ pretty index +:+ ":" +:+ pretty attempt)) in
      let scalar := number_of hash in
      if (scalar <=? 0) || (curve_order <=? scalar)
      then derive_attempts tries seed index (attempt + 1)
      else Some hash
  end.
Definition deriveKey (cfg : CKBBuyerDepositWalletConfig) (index : Z) : result (list Z) :=
  match derive_attempts defaultBuyerDepositKeyRetryLimit (TrimSpace (cw_MasterSeed cfg)) index 0 with
  | Some key => Ok key
  | None => Err (Errf ("unable to derive valid buyer deposit key for index " +:+ pretty index))
  end.
Definition ckb_DeriveAddress (cfg : CKBBuyerDepositWalletConfig) (index : Z) : result string :=
  key ← deriveKey cfg index;
  encodeBuyerDepositAddress (buyerDepositSecp256k1LockScript (SerializeCompressed key)) (cw_Network cfg).

(** ** Signatures *)

(** The recovery id moves from the front to the back; byte arithmetic. *)
Definition key_Sign (key data : list Z) : result (list Z) :=
  compact ← SignCompact key data;
  if negb (Nat.eqb (length compact) 65)
  then Err (Errf ("unexpected compact signature length " +:+ pretty (Z.of_nat (length compact))))
  else
    let recoveryID := (hd 0 compact - 27) mod 256 in
    let recoveryID := if 4 <=? recoveryID then recoveryID - 4 else recoveryID in
    Ok (tail compact ++ [recoveryID]).

(** [binary.LittleEndian.PutUint64] of a length, and the bytes. *)
Definition with_length (data : list Z) : list Z :=
  rev (big_endian 8 (Z.of_nat (length data))) ++ data.
(** The check of the group: the message about the first index out of order or range. *)
Fixpoint group_error (inputsLen : Z) (previous : option Z) (group : list Z) : option string :=
  match group with
  | [] => None
  | i :: group =>
      if match previous with Some p => i <=? p | None => false end
      then Some "group index is not in ascending order"
      else if inputsLen <? i
      then Some ("group index " +:+ pretty i +:+ " is greater than input length " +:+ pretty inputsLen)
      else group_error inputsLen (Some i) group
  end.
Definition witness_at (tx : Transaction Hash) (i : Z) : result (list Z) :=
  match tx_Witnesses tx !! Z.to_nat i with
  | Some w => Ok w
  | None => Err (Errf "runtime error: index out of range")
  end.
Definition signBuyerDepositTransaction (tx : Transaction Hash) (group : list Z)
    (witnessPlaceholder key : list Z) : result (list Z) :=
  let inputsLen := Z.of_nat (length (tx_Inputs tx)) in
  match group_error inputsLen None group with
  | Some message => Err (Errf message)
  | None =>
      witnesses ← mapM (witness_at tx)
        (tail group ++ seqZ inputsLen (Z.of_nat (length (tx_Witnesses tx)) - inputsLen));
      key_Sign key (Blake256 (Hash_Bytes (ComputeHash tx) ++ with_length witnessPlaceholder
                                ++ (witnesses ≫= with_length)))
  end.
End addresses.

(** ** The node of the chain *)

Section events.
Context `{CkbSdk}.
Inductive WalletEvent :=
  | VCall (endpoint method : string) (params : json)
  | VDial (endpoint : string)
  | VSend (tx : Transaction Hash).
(** [we_call] as [fe_call]; [we_send]: the hash the node answers with, nil possible. *)
Record WalletEnv := mkWalletEnv {
  we_call : list WalletEvent → string → string → json → result (option json);
  we_dial : list WalletEvent → string → result ();
  we_send : list WalletEvent → Transaction Hash → result (option Hash);
}.

Record Cell := mkCell {
  ce_BlockNumber : string;
  ce_OutPoint : option (OutPoint Hash);
  ce_Output : option (CellOutput Hash);
  ce_OutputData : string;
}.
(** A pointer: null makes it nil, another value is decoded into what it holds. *)
Definition pointer_field {T} (dec : option T → json → option T) (key : string)
    (fields : list (string * json)) : option (option T) :=
  foldl (λ acc f,
    old ← acc;
    if EqualFold f.1 key
    then match f.2 with JNull => Some None | v => Some <$> dec old v end
    else Some old) (Some None) fields.
Definition decode_cell (v : json) : option Cell :=
  f ← as_object v; b ← string_field "block_number" f; p ← pointer_field sdk_out_point "out_point" f;
  o ← pointer_field sdk_cell_output "output" f; d ← string_field "output_data" f;
  Some (mkCell b p o d).
Definition decode_page (f : list (string * json)) : option (list Cell * string) :=
  objects ← decode_field [] (as_list (mkCell "" None None "") decode_cell) "objects" f;
  last_cursor ← string_field "last_cursor" f;
  Some (objects, last_cursor).
End events.
Arguments WalletEvent {_}.
Arguments WalletEnv {_}.
Arguments Cell {_}.

Section node.
Context `{CkbSdk} (env : WalletEnv).
Abbreviation W := (ST (list WalletEvent)).

Definition ckb_Call {T} (endpoint method : string) (params : json) (target : json → option T) : W T :=
  λ h, (h ++ [VCall endpoint method params],
    body ← we_call env h endpoint method params; rpc_answer method target body).
Definition Dial (endpoint : string) : W () := λ h, (h ++ [VDial endpoint], we_dial env h endpoint).
Definition SendTransaction (tx : Transaction Hash) : W (option Hash) :=
  λ h, (h ++ [VSend tx], we_send env h tx).

(** A string decoded on its own: null leaves it empty. *)
Definition target_string (v : json) : option string :=
  match v with JNull => Some "" | _ => as_string v end.
Definition tipBlockNumber (endpoint : string) : W Z :=
  result ← ckb_Call endpoint "get_tip_block_number" (JArr []) target_string;
  mret (parseHexUint64 result).

Definition script_json (script : UDTTypeScript) : json :=
  string_json [("args", udt_Args script); ("code_hash", udt_CodeHash script);
               ("hash_type", udt_HashType script)].
(** The loop over the pages; [pages] are those still to be asked for. *)
Fixpoint get_cells (pages : nat) (endpoint : string) (search : json) (keep : Cell → bool)
    (pageLimit : Z) (cursor : string) (cells : list Cell) : W (list Cell) :=
  match pages with
  | O => mret cells
  | S pages =>
      '(objects, last_cursor) ← ckb_Call endpoint "get_cells"
        (JArr ([search; JStr "asc"; JStr (hex_quantity pageLimit)]
               ++ (if String.eqb cursor "0x" then [] else [JStr cursor])))
        (target_struct decode_page);
      let cells := cells ++ List.filter keep objects in
      if bool_decide (objects = []) || blank last_cursor || String.eqb last_cursor cursor
      then mret cells
      else get_cells pages endpoint search keep pageLimit last_cursor cells
  end.
Definition listSUDTCells (endpoint : string) (lockScript typeScript : UDTTypeScript)
    (pageLimit maxPages : Z) : W (list Cell) :=
  get_cells (Z.to_nat maxPages) endpoint
    (JObj [("filter", JObj [("script", script_json typeScript)]);
           ("script", script_json lockScript); ("script_type", JStr "lock")])
    (λ _, true) pageLimit "0x" [].
(** A cell without a type script. *)
Definition is_pure (cell : Cell) : bool :=
  match ce_Output cell with Some output => bool_decide (co_Type output = None) | None => false end.
Definition listPureCKBCells (endpoint : string) (lockScript : UDTTypeScript)
    (pageLimit maxPages : Z) : W (list Cell) :=
  get_cells (Z.to_nat maxPages) endpoint
    (JObj [("script", script_json lockScript); ("script_type", JStr "lock")])
    is_pure pageLimit "0x" [].

(** ** Balance *)

Context (cfg : CKBBuyerDepositWalletConfig).

Definition raw_endpoint : string := TrimRight "/" (TrimSpace (cw_RPCURL cfg)).
Definition isCellConfirmed (tipNumber : Z) (blockNumber : string) : bool :=
  if cw_ConfirmationBlocks cfg =? 0 then true
  else isBuyerDepositCellConfirmed tipNumber blockNumber (cw_ConfirmationBlocks cfg).
Definition deposit_cells (lockScript : UDTTypeScript) : W (list Cell) :=
  listSUDTCells raw_endpoint lockScript (cw_UDTTypeScript cfg) (cw_QueryPageLimit cfg)
    (cw_QueryMaxPages cfg).
Definition cell_amount (cell : Cell) : Z := parseXUDTAmount (ce_OutputData cell).

Definition ckb_QueryBalance (record : BuyerDepositAddress) : W BuyerDepositChainBalance :=
  lockScript ← lift (lockScriptForRecord record);
  tipNumber ← tipBlockNumber raw_endpoint;
  cells ← deposit_cells lockScript;
  let '(onChain, confirmed) := foldl (λ totals cell,
    let amount := cell_amount cell in
    (totals.1 +w amount,
     if isCellConfirmed tipNumber (ce_BlockNumber cell) then totals.2 +w amount else totals.2))
    (0, 0) cells in
  mret (mkChainBalance (da_Address record) onChain confirmed (cw_ConfirmationBlocks cfg)).

(** ** Sweeps *)

(** What the loop over the cells gathers: inputs, token units, capacity. *)
Record Confirmed := mkConfirmed {
  cf_inputs : list (CellInput Hash);
  cf_RawUnits : Z;
  cf_Capacity : Z;
}.
Definition confirm_cell (requiredConfirmations tipNumber : Z) (acc : Confirmed) (cell : Cell)
    : Confirmed :=
  match ce_OutPoint cell, ce_Output cell with
  | Some outPoint, Some output =>
      if (0 <? requiredConfirmations)
         && negb (isBuyerDepositCellConfirmed tipNumber (ce_BlockNumber cell) requiredConfirmations)
      then acc
      else
        let amount := cell_amount cell in
        if amount <=? 0 then acc
        else mkConfirmed (cf_inputs acc ++ [mkCellInput 0 outPoint]) (cf_RawUnits acc +w amount)
               (cf_Capacity acc +u co_Capacity output)
  | _, _ => acc
  end.
Definition confirmed_cells (requiredConfirmations tipNumber : Z) (cells : list Cell) : Confirmed :=
  foldl (confirm_cell requiredConfirmations tipNumber) (mkConfirmed [] 0 0) cells.

Definition outPointKey (outPoint : OutPoint Hash) : string :=
  Hash_Hex (op_TxHash outPoint) +:+ ":" +:+ pretty (op_Index outPoint).

(** The transaction while it is being funded, with what its inputs hold and its fee. *)
Record FundedSweep := mkFunded {
  fu_tx : Transaction Hash;
  fu_inputCapacity : Z;
  fu_fee : Z;
}.
Definition tx_fee (tx : Transaction Hash) : Z := CalculateFee tx defaultBuyerDepositCKBFeeRate.
(** The loop over the cells that may pay the fee; [needed] is the capacity for a fee. *)
Fixpoint add_fee_cells (needed : Z → Z) (existingInputs : gset string) (feeCells : list Cell)
    (f : FundedSweep) : FundedSweep :=
  match feeCells with
  | [] => f
  | cell :: feeCells =>
      match ce_OutPoint cell, ce_Output cell with
      | Some outPoint, Some output =>
          if bool_decide (outPointKey outPoint ∈ existingInputs)
          then add_fee_cells needed existingInputs feeCells f
          else
            let tx := fu_tx f <| tx_Inputs ::= (λ l, l ++ [mkCellInput 0 outPoint]) |>
                              <| tx_Witnesses ::= (λ l, l ++ [[]]) |> in
            let total := fu_inputCapacity f +u co_Capacity output in
            let fee := tx_fee tx in
            if needed fee <=? total then mkFunded tx total fee
            else add_fee_cells needed ({[outPointKey outPoint]} ∪ existingInputs) feeCells
                   (mkFunded tx total fee)
      | _, _ => add_fee_cells needed existingInputs feeCells f
      end
  end.

Definition isBuyerDepositDuplicateTransactionError (err : error) : bool :=
  Contains (error_text err) "PoolRejectedDuplicatedTransaction"
  || Contains (error_text err) "already exists in transaction_pool".

(** What the sweep knows when it starts to build its transaction. *)
Record SweepPlan := mkSweepPlan {
  sp_lockScript : UDTTypeScript;
  sp_confirmed : Confirmed;
  sp_senderScript : Script Hash;
  sp_treasuryScript : Script Hash;
  sp_udtScript : Script Hash;
  sp_secpDep : CellDep Hash;
}.
(** [OccupiedCapacity] is asked before the capacity is set. *)
Definition treasury_data (p : SweepPlan) : list Z :=
  encodeBuyerDepositSudtAmount (cf_RawUnits (sp_confirmed p)).
Definition treasury_output (p : SweepPlan) : CellOutput Hash :=
  let o := mkCellOutput 0 (Some (sp_treasuryScript p)) (Some (sp_udtScript p)) in
  o <| co_Capacity := OccupiedCapacity o (treasury_data p) |>.
Definition change_output (p : SweepPlan) : CellOutput Hash :=
  mkCellOutput 0 (Some (sp_senderScript p)) None.
Definition change_occupied (p : SweepPlan) : Z := OccupiedCapacity (change_output p) [].
Definition needed_capacity (p : SweepPlan) (fee : Z) : Z :=
  co_Capacity (treasury_output p) +u fee +u change_occupied p.

(** The witnesses: a placeholder for the signature, and an empty one per input more. *)
Definition placeholder : list Z := sdk_serialize_lock (replicate 65 0).
Definition first_tx (p : SweepPlan) : Transaction Hash :=
  let inputs := cf_inputs (sp_confirmed p) in
  mkTransaction 0
    [sp_secpDep p;
     mkCellDep (mkOutPoint (HexToHash (cw_UDTCellDepTxHash cfg)) (cw_UDTCellDepIndex cfg)) DepTypeCode]
    [] inputs [treasury_output p; change_output p] [treasury_data p; []]
    (placeholder :: replicate (length inputs - 1) []).

Definition fund_sweep (p : SweepPlan) : W FundedSweep :=
  let tx := first_tx p in
  let f := mkFunded tx (cf_Capacity (sp_confirmed p)) (tx_fee tx) in
  if fu_inputCapacity f <? needed_capacity p (fu_fee f) then
    feeCells ← listPureCKBCells raw_endpoint (sp_lockScript p) (cw_QueryPageLimit cfg)
      (cw_QueryMaxPages cfg);
    mret (add_fee_cells (needed_capacity p)
            (list_to_set (outPointKey ∘ in_PreviousOutput <$> tx_Inputs tx)) feeCells f)
  else mret f.
(** The [switch]: with change, without, or not at all. *)
Definition with_outputs (p : SweepPlan) (f : FundedSweep) : result (Transaction Hash) :=
  let capacity := co_Capacity (treasury_output p) in
  if needed_capacity p (fu_fee f) <=? fu_inputCapacity f then
    Ok (fu_tx f <| tx_Outputs := [treasury_output p;
          change_output p <| co_Capacity := fu_inputCapacity f -u capacity -u fu_fee f |>] |>)
  else if capacity +u fu_fee f <=? fu_inputCapacity f then
    Ok (fu_tx f <| tx_Outputs := [treasury_output p] |> <| tx_OutputsData := [treasury_data p] |>)
  else Err (Errf "buyer deposit sweep: insufficient ckb capacity to sweep confirmed usdi").
Definition signed_tx (tx : Transaction Hash) (key : list Z) : result (Transaction Hash) :=
  signature ← signBuyerDepositTransaction tx (seqZ 0 (Z.of_nat (length (tx_Inputs tx))))
    (hd [] (tx_Witnesses tx)) key;
  Ok (tx <| tx_Witnesses ::= (λ l, sdk_serialize_lock signature :: tail l) |>).
(** A nil hash and a duplicate stand for the hash that was computed. *)
Definition send_sweep (tx : Transaction Hash) : W Hash :=
  r ← attempt (SendTransaction tx);
  match r with
  | Ok (Some txHash) => mret txHash
  | Ok None => mret (ComputeHash tx)
  | Err e => if isBuyerDepositDuplicateTransactionError e then mret (ComputeHash tx) else throw e
  end.

(** From the cells to the transaction: the scripts and the dependencies it needs. *)
Definition plan_sweep (senderAddress treasuryAddress : string) (lockScript : UDTTypeScript)
    (confirmed : Confirmed) : result SweepPlan :=
  senderScript ← decodeBuyerDepositAddressScript senderAddress;
  treasuryScript ← decodeBuyerDepositAddressScript treasuryAddress;
  match decodeHexBytes (udt_Args (cw_UDTTypeScript cfg)) with
  | Err e => Err (EPrefix "buyer deposit udt args" e)
  | Ok udtArgs =>
      let udtScript := mkScript (HexToHash (udt_CodeHash (cw_UDTTypeScript cfg)))
                         (parseCKBHashType (udt_HashType (cw_UDTTypeScript cfg))) udtArgs in
      match buyerDepositSecpCellDep (cw_Network cfg) with
      | Err _ => Err (Errf
          "buyer deposit secp256k1 sighash-all dep is unavailable for configured network")
      | Ok secpDep =>
          Ok (mkSweepPlan lockScript confirmed senderScript treasuryScript udtScript secpDep)
      end
  end.

Definition ckb_SweepToTreasury (record : BuyerDepositAddress) (treasuryAddress : string)
    (confirmationBlocks : Z) : W BuyerDepositSweepResult :=
  _ ← fail_if (blank treasuryAddress) (Errf "buyer deposit treasury address is required");
  key ← lift (deriveKey cfg (da_DerivationIndex record));
  senderAddress ← lift (ckb_DeriveAddress cfg (da_DerivationIndex record));
  _ ← fail_if (negb (EqualFold (TrimSpace senderAddress) (TrimSpace (da_Address record))))
        (Errf "buyer deposit address derivation mismatch");
  lockScript ← lift (lockScriptForRecord record);
  tipNumber ← tipBlockNumber raw_endpoint;
  cells ← deposit_cells lockScript;
  let requiredConfirmations :=
    if 0 <? confirmationBlocks then confirmationBlocks else cw_ConfirmationBlocks cfg in
  let confirmed := confirmed_cells requiredConfirmations tipNumber cells in
  if (cf_RawUnits confirmed <=? 0) || bool_decide (cf_inputs confirmed = [])
  then mret (mkSweepResult "" 0 treasuryAddress)
  else
    _ ← Dial (cw_RPCURL cfg);
    plan ← lift (plan_sweep senderAddress treasuryAddress lockScript confirmed);
    funded ← fund_sweep plan;
    tx ← lift (with_outputs plan funded);
    tx ← lift (signed_tx tx key);
    txHash ← send_sweep tx;
    mret (mkSweepResult (Hash_Hex txHash) (cf_RawUnits confirmed) treasuryAddress).
End node.

(** The wallet of the deposit service: the node a call meets may depend on the calls
    made before. *)
Definition ckb_wallet `{CkbSdk} (cfg : CKBBuyerDepositWalletConfig)
    (envs : list WalletCall → WalletEnv) : BuyerDepositWallet :=
  mkWallet (λ _ index, ckb_DeriveAddress cfg index)
    (λ calls record, (ckb_QueryBalance (envs calls) cfg record []).2)
    (λ calls record treasury confirmations,
       (ckb_SweepToTreasury (envs calls) cfg record treasury confirmations []).2).

(** ** The service from the environment *)

Section environment.
Context `{CkbSdk} (getenv : string → string) (parse : string → option json) (env : WalletEnv).
Abbreviation W := (ST (list WalletEvent)).

Abbreviation trimmed_env := (trimmed_env getenv).
Abbreviation firstNonEmptyEnv := (firstNonEmptyEnv getenv).
(** [envInt64WithFallback] too. *)
Definition envIntWithFallback : string → Z → Z := env_int getenv.
Definition envUint64WithFallback (key : string) (fallback : Z) : Z :=
  let value := trimmed_env key in
  if String.eqb value "" then fallback
  else match ParseUint 10 value with (parsed, None) => parsed | (_, Some _) => fallback end.
Definition envBoolTruthy : string → bool := env_bool getenv.
Definition envCKBNetwork (key : string) (fallback : Network) : Network :=
  let value := ToLower (trimmed_env key) in
  if existsb (String.eqb value) ["main"; "mainnet"] then NetworkMain
  else if String.eqb value "preview" then NetworkPreview
  else if existsb (String.eqb value) ["test"; "testnet"] then NetworkTest
  else fallback.
(** internal/runtimeconfig *)
Definition RequireExternalDependencies : bool := env_bool getenv "ONE_TOK_REQUIRE_EXTERNALS".

Definition buyerDepositEnvEnabled : bool :=
  envBoolTruthy "BUYER_DEPOSIT_ENABLE"
  || negb (String.eqb (firstNonEmptyEnv
             ["BUYER_DEPOSIT_WALLET_MASTER_SEED"; "BUYER_DEPOSIT_WALLET_SEED"]) "").

(** The object in a text, or in what the text is with its escaped quotes bare. *)
Definition script_payload (trimmed : string) : option (list (string * json)) :=
  match parse trimmed ≫= as_object with
  | Some fields => Some fields
  | None => if has_escaped_quote trimmed then parse (bare_quotes trimmed) ≫= as_object else None
  end.
(** [readString]: the first key that holds a string. *)
Definition read_string (fields : list (string * json)) (keys : list string) : string :=
  TrimSpace (default "" (head (omap (λ key, string_entry key fields) keys))).
Definition parseBuyerDepositUDTTypeScriptJSON (raw : string) : result UDTTypeScript :=
  match script_payload (TrimSpace raw) with
  | None => Err decode_error
  | Some fields =>
      let script := mkUDTTypeScript (read_string fields ["codeHash"; "code_hash"])
        (read_string fields ["hashType"; "hash_type"]) (read_string fields ["args"]) in
      if hasProviderSettlementUDTScript script then Ok script
      else Err (Errf "missing code hash, hash type, or args")
  end.

Definition decode_lock (f : list (string * json)) : option RawUDTTypeScript :=
  s ← object_field "default_funding_lock_script" f; decode_script s.
Definition discoverBuyerDepositTreasuryAddressFromRPC (endpoint : string) (network : Network)
    : W string :=
  lock ← ckb_Call env (TrimRight "/" (TrimSpace endpoint)) "node_info" (JArr [])
           (target_struct decode_lock);
  _ ← fail_if (blank (rs_CodeHash lock) || blank (rs_Args lock))
        (Errf "node_info missing default_funding_lock_script");
  args ← lift match decodeHexBytes (rs_Args lock) with
              | Ok args => Ok args
              | Err e => Err (EPrefix "decode treasury lock args" e)
              end;
  lift (encodeBuyerDepositAddress
    (mkScript (HexToHash (rs_CodeHash lock)) (parseCKBHashType (rs_HashType lock)) args) network).
Definition resolveBuyerDepositTreasuryAddress (network : Network) : W string :=
  let treasuryAddress := trimmed_env "BUYER_DEPOSIT_TREASURY_ADDRESS" in
  if negb (String.eqb treasuryAddress "") then mret treasuryAddress
  else
    let rpcURL := firstNonEmptyEnv ["BUYER_DEPOSIT_TREASURY_RPC_URL";
      "PROVIDER_SETTLEMENT_FNN_TREASURY_RPC_URL"; "FNN_PAYER_RPC_URL"] in
    if String.eqb rpcURL "" then throw (Errf "BUYER_DEPOSIT_TREASURY_ADDRESS is required")
    else or_fail (discoverBuyerDepositTreasuryAddressFromRPC rpcURL network)
           ("resolve buyer deposit treasury address from " +:+ rpcURL).

(** What the service is made of, when it is enabled: the wallet's configuration and the
    options; a treasury address that has to be asked for is asked for at last. *)
Definition min_sweep_raw (rawUnitsPerWhole : Z) : Z :=
  let raw := trimmed_env "BUYER_DEPOSIT_MIN_USDI" in
  if String.eqb raw "" then rawUnitsPerWhole *w 10
  else (parseAmountToCents64 raw *w rawUnitsPerWhole) /w 100.
(** [defaultSettlementAsset] of settlement/server.go. *)
Definition deposit_asset : string :=
  let asset := firstNonEmptyEnv ["BUYER_DEPOSIT_ASSET"; "MARKETPLACE_SETTLEMENT_ASSET"] in
  if String.eqb asset "" then "USDI" else asset.
Definition wallet_config (network : Network) (script : UDTTypeScript)
    (confirmationBlocks rawUnitsPerWhole : Z) : result CKBBuyerDepositWalletConfig :=
  NewCKBBuyerDepositWallet (mkCkbConfig
    (firstNonEmptyEnv ["BUYER_DEPOSIT_CKB_RPC_URL"; "FNN_CKB_RPC_URL"; "FNN2_CKB_RPC_URL"])
    (firstNonEmptyEnv ["BUYER_DEPOSIT_WALLET_MASTER_SEED"; "BUYER_DEPOSIT_WALLET_SEED"])
    network script
    (trimmed_env "BUYER_DEPOSIT_UDT_CELL_DEP_TX_HASH")
    (envIntWithFallback "BUYER_DEPOSIT_UDT_CELL_DEP_INDEX" 0 mod 2 ^ 32)
    (envIntWithFallback "BUYER_DEPOSIT_CKB_QUERY_PAGE_LIMIT" defaultBuyerDepositCKBQueryPageLimit)
    (envIntWithFallback "BUYER_DEPOSIT_CKB_QUERY_MAX_PAGES" defaultBuyerDepositCKBQueryMaxPages)
    confirmationBlocks rawUnitsPerWhole).
Definition loadBuyerDepositServiceOptionsFromEnv (envs : list WalletCall → WalletEnv)
    (now : nat → Time) : W (option BuyerDepositService) :=
  if negb buyerDepositEnvEnabled then mret None
  else
    let rawUnitsPerWhole := envIntWithFallback "BUYER_DEPOSIT_RAW_UNITS_PER_WHOLE_USDI"
                              defaultBuyerDepositRawUnitsPerWholeUSDI in
    let network := envCKBNetwork "BUYER_DEPOSIT_CKB_NETWORK" NetworkTest in
    let confirmationBlocks := envUint64WithFallback "BUYER_DEPOSIT_CONFIRMATION_BLOCKS" 24 in
    let udtTypeScriptRaw := firstNonEmptyEnv ["BUYER_DEPOSIT_UDT_TYPE_SCRIPT_JSON";
                                              "FIBER_USDI_UDT_TYPE_SCRIPT_JSON"] in
    if blank udtTypeScriptRaw then
      if RequireExternalDependencies
      then throw (Errf "BUYER_DEPOSIT_UDT_TYPE_SCRIPT_JSON or FIBER_USDI_UDT_TYPE_SCRIPT_JSON is required")
      else mret None
    else
      udtTypeScript ← or_fail (lift (parseBuyerDepositUDTTypeScriptJSON udtTypeScriptRaw))
        "parse buyer deposit udt type script";
      cfg ← lift (wallet_config network udtTypeScript confirmationBlocks rawUnitsPerWhole);
      treasuryAddress ← resolveBuyerDepositTreasuryAddress network;
      mret (Some (mkDepositService (Some (ckb_wallet cfg envs)) deposit_asset treasuryAddress
        (min_sweep_raw rawUnitsPerWhole) confirmationBlocks rawUnitsPerWhole now)).
(** [repositories]: whether the stores of addresses and sweeps could be opened. *)
Definition NewBuyerDepositServiceFromEnvE (repositories : result ())
    (envs : list WalletCall → WalletEnv) (now : nat → Time) : W (option BuyerDepositService) :=
  options ← loadBuyerDepositServiceOptionsFromEnv envs now;
  match options with
  | None => mret None
  | Some options => _ ← lift repositories; mret (Some (NewBuyerDepositService options))
  end.
End environment.
