(* ===== verification/CkbSweeps.v ===== *)
(** * What the CKB deposit wallet does with deposits

    Amounts written to a cell are read back; the addresses handed out are those that
    can be swept; a sweep pays what it reports to the treasury and keeps the rest with
    the buyer's script; a sweep makes a bounded number of requests.  The wallet is run
    on a concrete SDK and chain. *)

From Stdlib Require Import Ascii.
From S2P Require Import Prelude GoNum GoText Core Repo App Amounts Deposits Http GoBytes Traces Fnn.
From S2P Require Import FiberNode CkbWallet.

(** ** Bytes and hexadecimal text *)

Lemma foldl_big_endian n z acc :
  foldl (λ v b, v * 256 + b) acc (big_endian n z) = acc * 256 ^ Z.of_nat n + z mod 256 ^ Z.of_nat n.
Proof.
  revert acc. induction n as [|n IH]; intros acc; [cbn; rewrite Z.mod_1_r; lia|].
  cbn [big_endian foldl]. rewrite IH, Nat2Z.inj_succ, Z.pow_succ_r by lia.
  change 255 with (Z.ones 8). rewrite Z.land_ones, Z.shiftr_div_pow2 by lia.
  replace (2 ^ (8 * Z.of_nat n)) with (256 ^ Z.of_nat n)
    by (change 256 with (2 ^ 8); by rewrite <- Z.pow_mul_r by lia).
  change (2 ^ 8) with 256. set (p := 256 ^ Z.of_nat n).
  assert (0 < p) by (apply Z.pow_pos_nonneg; lia).
  rewrite (Z.mul_comm 256 p), Z.rem_mul_r by lia. lia.
Qed.
Lemma number_of_big_endian n z : 0 ≤ z < 256 ^ Z.of_nat n → number_of (big_endian n z) = z.
Proof. intros Hz. unfold number_of. rewrite foldl_big_endian, Z.mod_small by done. lia. Qed.
Lemma length_big_endian n z : length (big_endian n z) = n.
Proof. induction n as [|n IH]; [done|]. cbn. by rewrite IH. Qed.

Lemma hex_nibble_digit b : 0 ≤ b < 16 → hex_nibble (hex_digit b) = Some b.
Proof.
  intros Hb. assert (Hall : forallb (λ k, bool_decide (hex_nibble (hex_digit (Z.of_nat k)) = Some (Z.of_nat k)))
    (seq 0 16) = true) by (vm_compute; reflexivity).
  rewrite forallb_forall in Hall. specialize (Hall (Z.to_nat b)).
  rewrite Z2Nat.id, bool_decide_eq_true in Hall by lia. apply Hall, in_seq. lia.
Qed.
Lemma hex_decode_encode l : Forall is_byte l → hex_decode (hex_encode l) = Ok l.
Proof.
  unfold is_byte. induction 1 as [|b l Hb _ IH]; [done|]. cbn [hex_encode hex_decode].
  rewrite !hex_nibble_digit by (Z.div_mod_to_equations; lia). rewrite IH. cbn.
  do 2 f_equal. Z.div_mod_to_equations; lia.
Qed.
Lemma length_hex_encode l : String.length (hex_encode l) = (2 * length l)%nat.
Proof. induction l as [|b l IH]; [done|]. cbn. rewrite IH. lia. Qed.
Lemma prefix_bytes_app s t : prefix_bytes (String.length s) (s +:+ t) = s.
Proof. unfold prefix_bytes. induction s as [|a s IH]; [by destruct t|]. rewrite app_cons.
  cbn [String.length String.substring]. by rewrite IH. Qed.

(** ** Amounts *)

(** The data of a token cell and its amount: what is written for an amount is read
    back as that amount, whatever visible text follows it in the cell, and every other
    amount of 128 bits is read as its low 64 bits with their sign. *)
Theorem cell_amounts_roundtrip amount extra :
  0 ≤ amount < 2 ^ 128 → all_bytes visible extra = true →
  parseXUDTAmount ("0x" +:+ hex_encode (encodeBuyerDepositSudtAmount amount) +:+ extra) = wrap64 amount
  ∧ (amount ≤ max_int64 → wrap64 amount = amount).
Proof.
  intros Ha Hextra. split; [|intros; apply wrap64_id; in64_lia].
  unfold parseXUDTAmount, encodeBuyerDepositSudtAmount.
  pose proof (Forall_rev (big_endian_bytes 16 amount)) as Hbytes. set (data := rev _) in *.
  assert (Hlen : length data = 16%nat) by (unfold data; by rewrite length_rev, length_big_endian).
  rewrite TrimSpace_all_visible by (rewrite !all_bytes_app, Hextra, hex_visible; done).
  change (TrimPrefix ("0x" +:+ ?s) "0x") with s.
  rewrite length_app_string, length_hex_encode, Hlen, (proj2 (Nat.ltb_ge _ _)) by lia.
  replace 32%nat with (String.length (hex_encode data)) by (by rewrite length_hex_encode, Hlen).
  rewrite prefix_bytes_app, hex_decode_encode by done. unfold data. rewrite rev_involutive.
  by rewrite number_of_big_endian.
Qed.

Lemma cell_amounts_roundtrip_witness :
  0 ≤ 1234567 < 2 ^ 128 ∧
  parseXUDTAmount ("0x" +:+ hex_encode (encodeBuyerDepositSudtAmount 1234567) +:+ "00") = 1234567.
Proof.
  assert (H : 0 ≤ 1234567 < 2 ^ 128) by lia. split; [exact H|].
  destruct (cell_amounts_roundtrip 1234567 "00" H eq_refl) as [Hp Hw].
  rewrite Hp. apply Hw. in64_lia.
Defined.

(** ** Addresses *)

(** What the SDK documents: bech32m texts of a lower-case prefix decode to what was
    encoded, bits converted with padding are converted back, hashes are 32 bytes, hash
    types and their bytes correspond, and a blake160 digest is made of bytes. *)
Class CkbSdkLaws `{CkbSdk} := {
  bech32m_decoded hrp data text : ToLower hrp = hrp → EncodeWithBech32m hrp data = Ok text →
    bech32_Decode text = Ok (BECH32M, hrp, data);
  bits_converted data five : Forall is_byte data → ConvertBits data 8 5 true = Ok five →
    ConvertBits five 5 8 false = Ok data;
  hash_bytes hash : length (Hash_Bytes hash) = 32%nat ∧ Forall is_byte (Hash_Bytes hash);
  hash_of_bytes hash : BytesToHash (Hash_Bytes hash) = hash;
  hash_type_byte hashType b : SerializeHashTypeByte hashType = Ok b →
    is_byte b ∧ DeserializeHashTypeByte b = Ok hashType;
  blake160_bytes data : Forall is_byte (Blake160 data);
}.

Section addresses.
Context `{CkbSdkLaws}.

Lemma hrp_network network hrp : buyerDepositAddressHRP network = Ok hrp →
  ToLower hrp = hrp ∧ is_Some (match buyerDepositNetworkFromHRP hrp with Ok n => Some n | Err _ => None end).
Proof. by destruct network; intros [= <-]. Qed.

Lemma full_payload network hash b args :
  decode_payload BECH32M network ([0] ++ Hash_Bytes hash ++ [b] ++ args)
    = (hashType ← DeserializeHashTypeByte b; Ok (mkScript (BytesToHash (Hash_Bytes hash)) hashType args)).
Proof.
  destruct (hash_bytes hash) as [Hlen _]. cbn [app decode_payload]. rewrite Z.eqb_refl.
  rewrite bool_decide_false by tauto.
  rewrite (proj2 (Nat.ltb_ge _ _)) by (cbn; rewrite length_app; cbn; lia).
  assert (Hb : nth 33 (0 :: Hash_Bytes hash ++ b :: args) 0 = b)
    by (cbn [nth]; rewrite app_nth2 by lia; by rewrite Hlen).
  assert (Ht : take 32 (Hash_Bytes hash ++ b :: args) = Hash_Bytes hash) by by rewrite take_app_length'.
  assert (Hd : drop 34 (0 :: Hash_Bytes hash ++ b :: args) = args).
  { cbn [drop]. rewrite (cons_middle b), app_assoc. apply drop_app_length'.
    rewrite length_app, Hlen. done. }
  by rewrite Hb, Ht, Hd.
Qed.

Lemma decode_encoded script network address : Forall is_byte (sc_Args script) →
  encodeBuyerDepositAddress script network = Ok address →
  decodeBuyerDepositAddressScript address = Ok script.
Proof.
  intros Hargs Henc. unfold encodeBuyerDepositAddress in Henc.
  destruct (SerializeHashTypeByte _) as [b|] eqn:Hb; [|done]. apply hash_type_byte in Hb as [Hbyte Hb].
  cbn [mbind result_bind] in Henc.
  destruct (ConvertBits _ 8 5 true) as [five|] eqn:Hc; [|done]. cbn [mbind result_bind] in Henc.
  destruct (buyerDepositAddressHRP network) as [hrp|] eqn:Hhrp; [|done]. cbn [mbind result_bind] in Henc.
  apply hrp_network in Hhrp as [Hlow [n Hn]]. apply (bech32m_decoded _ _ _ Hlow) in Henc.
  apply bits_converted in Hc.
  2:{ rewrite !Forall_app, !Forall_singleton. by pose proof (hash_bytes (sc_CodeHash script)) as [_ ?]. }
  unfold decodeBuyerDepositAddressScript. rewrite Henc. cbn [mbind result_bind].
  destruct (buyerDepositNetworkFromHRP hrp); [|done]. cbn [mbind result_bind].
  rewrite Hc. cbn [mbind result_bind]. rewrite full_payload, Hb, hash_of_bytes. by destruct script.
Qed.

(** An address handed out is the script it was made of, on every network that has
    addresses: decoding gives it back, so that two scripts never share an address, and
    the cells looked for and swept at a derived address are those locked by the derived
    key. *)
Theorem addresses_name_scripts script network address :
  Forall is_byte (sc_Args script) → encodeBuyerDepositAddress script network = Ok address →
  decodeBuyerDepositAddressScript address = Ok script ∧
  (∀ script' network', Forall is_byte (sc_Args script') →
     encodeBuyerDepositAddress script' network' = Ok address → script' = script) ∧
  (∀ cfg index key record, deriveKey cfg index = Ok key →
     ckb_DeriveAddress cfg index = Ok (da_Address record) →
     lockScriptForRecord record = Ok (mkUDTTypeScript (Hash_Hex secp_code_hash) HashTypeType
       ("0x" +:+ hex_encode (Blake160 (SerializeCompressed key))))).
Proof.
  intros Hargs Henc. pose proof (decode_encoded _ _ _ Hargs Henc) as Hdec. split_and!; [done|..].
  - intros script' network' Hargs' Henc'.
    pose proof (decode_encoded _ _ _ Hargs' Henc') as Hdec'. rewrite Hdec in Hdec'. by injection Hdec'.
  - intros cfg index key record Hkey Haddr. unfold ckb_DeriveAddress in Haddr. rewrite Hkey in Haddr.
    apply decode_encoded in Haddr; [|apply blake160_bytes].
    unfold lockScriptForRecord. by rewrite Haddr.
Qed.
End addresses.

(** ** The cells of a sweep *)



Section cells.
Context `{CkbSdk}.

Definition cell_input (cell : Cell) : list (CellInput Hash) :=
  match ce_OutPoint cell with Some outPoint => [mkCellInput 0 outPoint] | None => [] end.
Definition cell_capacity (cell : Cell) : Z :=
  match ce_Output cell with Some output => co_Capacity output | None => 0 end.
Definition capacity_of (cells : list Cell) : Z := sumZ (cell_capacity <$> cells).
(** The cell can be an input. *)
Definition usable (cell : Cell) : bool :=
  match ce_OutPoint cell, ce_Output cell with Some _, Some _ => true | _, _ => false end.
(** A confirmed deposit: a positive amount in a cell deep enough in the chain. *)
Definition deposited (requiredConfirmations tipNumber : Z) (cell : Cell) : bool :=
  usable cell
  && (negb (0 <? requiredConfirmations)
      || isBuyerDepositCellConfirmed tipNumber (ce_BlockNumber cell) requiredConfirmations)
  && (0 <? cell_amount cell).
Definition keys_of (inputs : list (CellInput Hash)) : list string :=
  outPointKey ∘ in_PreviousOutput <$> inputs.


End cells.

(** ** The requests of a sweep *)

Section requests.
Context `{CkbSdk} (env : WalletEnv) (counted : WalletEvent → bool).
Abbreviation spends := (Traces.spends counted).
Variable cost : nat.
Hypothesis Hcost : ∀ endpoint method params,
  ((if counted (VCall endpoint method params) then 1 else 0) ≤ cost)%nat.

Lemma Call_spends {T} endpoint method params (target : json → option T) :
  spends cost (ckb_Call env endpoint method params target).
Proof using Hcost.
  eapply spends_weaken; [apply (spends_event counted (VCall endpoint method params))|apply Hcost].
Qed.
Lemma tip_spends endpoint : spends cost (tipBlockNumber env endpoint).
Proof using Hcost.
  eapply spends_weaken; [eapply spends_bind; [apply Call_spends|intros; apply spends_ret]|lia].
Qed.
Lemma get_cells_spends pages endpoint search keep limit cursor cells :
  spends (pages * cost) (get_cells env pages endpoint search keep limit cursor cells).
Proof using Hcost.
  revert cursor cells. induction pages as [|pages IH]; intros; cbn [get_cells]; [apply spends_ret|].
  eapply spends_weaken; [eapply spends_bind; [apply Call_spends|]|apply Nat.le_refl].
  intros [objects last_cursor]. case_match; [|apply IH].
  eapply spends_weaken; [apply spends_ret|lia].
Qed.
Lemma deposit_cells_spends cfg lock :
  spends (Z.to_nat (cw_QueryMaxPages cfg) * cost) (deposit_cells env cfg lock).
Proof using Hcost. apply get_cells_spends. Qed.
Lemma fund_sweep_spends cfg plan :
  spends (Z.to_nat (cw_QueryMaxPages cfg) * cost) (fund_sweep env cfg plan).
Proof using Hcost.
  unfold fund_sweep. case_match; [|eapply spends_weaken; [apply spends_ret|lia]].
  eapply spends_weaken; [eapply spends_bind; [apply get_cells_spends|intros; apply spends_ret]|lia].
Qed.
End requests.


Definition is_send `{CkbSdk} (e : WalletEvent) : bool :=
  match e with VSend _ => true | _ => false end.

Section bounds.
Context `{CkbSdk} (env : WalletEnv) (cfg : CKBBuyerDepositWalletConfig).

(** A sweep, with what the requests of each kind cost at most. *)
Lemma sweep_spends (counted : WalletEvent → bool) (call dial send : nat) record treasury confirmations :
  (∀ endpoint method params, (if counted (VCall endpoint method params) then 1 else 0) ≤ call)%nat →
  (∀ endpoint, (if counted (VDial endpoint) then 1 else 0) ≤ dial)%nat →
  (∀ tx, (if counted (VSend tx) then 1 else 0) ≤ send)%nat →
  spends counted (call + 2 * (Z.to_nat (cw_QueryMaxPages cfg) * call) + dial + send)
    (ckb_SweepToTreasury env cfg record treasury confirmations).
Proof.
  intros Hcall Hdial Hsend. unfold ckb_SweepToTreasury.
  do 5 (apply spends_bind0; [auto with spends|intros ?]).
  set (m := Z.to_nat (cw_QueryMaxPages cfg)).
  eapply spends_weaken with (k := (call + (m * call + (dial + (0 + (m * call + (0 + (0 + (send + 0))))))))%nat);
    [|lia].
  apply spends_bind; [by apply tip_spends|intros tip].
  apply spends_bind; [by apply deposit_cells_spends|intros cells].
  case_match; [eapply spends_weaken; [apply spends_ret|lia]|].
  apply spends_bind; [eapply spends_weaken; [apply spends_event|apply Hdial]|intros _].
  apply spends_bind; [apply spends_lift|intros plan].
  apply spends_bind; [by apply fund_sweep_spends|intros funded].
  apply spends_bind; [apply spends_lift|intros tx].
  apply spends_bind; [apply spends_lift|intros tx'].
  apply spends_bind; [|intros; apply spends_ret]. unfold send_sweep.
  eapply spends_weaken; [apply (spends_bind _ send 0)|lia].
  - apply spends_attempt. eapply spends_weaken; [apply spends_event|apply Hsend].
  - intros [[]|e]; [auto with spends..|].
    destruct (isBuyerDepositDuplicateTransactionError e); auto with spends.
Qed.

(** However the node of the chain behaves, a sweep makes at most one request for the
    tip, two page limits of requests for cells, one connection and one transaction, and
    a failed sweep no more. *)
Theorem sweeps_are_bounded record treasury confirmations :
  let h := (ckb_SweepToTreasury env cfg record treasury confirmations []).1 in
  (length h ≤ 2 * Z.to_nat (cw_QueryMaxPages cfg) + 3)%nat ∧ (count is_send h ≤ 1)%nat.
Proof.
  cbv zeta. split.
  - destruct (sweep_spends (λ _, true) 1 1 1 record treasury confirmations) with (h := @nil WalletEvent)
      as (t & -> & Ht); [intros; cbn; lia..|]. cbn [app].
    rewrite count_all in Ht by done. lia.
  - destruct (sweep_spends is_send 0 0 1 record treasury confirmations) with (h := @nil WalletEvent)
      as (t & -> & Ht); [intros; cbn; lia..|]. cbn [app]. lia.
Qed.
End bounds.

(** ** What a sweep sends *)

Section sent.
Context `{CkbSdk} (env : WalletEnv) (cfg : CKBBuyerDepositWalletConfig).

(** The token, as the configuration has it. *)
Definition token_script (udtArgs : list Z) : Script Hash :=
  mkScript (HexToHash (udt_CodeHash (cw_UDTTypeScript cfg)))
    (parseCKBHashType (udt_HashType (cw_UDTTypeScript cfg))) udtArgs.






(** The transaction its fee was calculated on: not yet signed, with an output for the
    change, whose capacity is set later. *)
Definition change_cell (from : Script Hash) (capacity : Z) : CellOutput Hash :=
  mkCellOutput capacity (Some from) None.
Definition draft (from : Script Hash) (tx : Transaction Hash) : Transaction Hash :=
  tx <| tx_Outputs := take 1 (tx_Outputs tx) ++ [change_cell from 0] |>
     <| tx_OutputsData := take 1 (tx_OutputsData tx) ++ [[]] |>
     <| tx_Witnesses := placeholder :: tail (tx_Witnesses tx) |>.

(** What a sweep's transaction is to be.  [swept] are the deposits it spends, [extra] the
    cells that pay its fee, [from] the script of the buyer's address, [to] the treasury's. *)
Record good_sweep (from to token : Script Hash) (key : list Z) (units : Z)
    (swept extra : list Cell) (tx : Transaction Hash) : Prop := {
  (* every deposit is an input, and so is each fee cell, once *)
  gs_inputs : tx_Inputs tx = (swept ++ extra) ≫= cell_input;
  gs_extra : Forall (λ c, usable c = true ∧ is_pure c = true) extra;
  gs_once : NoDup (keys_of (extra ≫= cell_input))
            ∧ ∀ k, k ∈ keys_of (extra ≫= cell_input) → k ∉ keys_of (swept ≫= cell_input);
  (* the units go to the treasury, in the token; what is left returns, without a token *)
  gs_outputs : ∃ capacity change,
    tx_Outputs tx = mkCellOutput capacity (Some to) (Some token) :: change
    ∧ tx_OutputsData tx = encodeBuyerDepositSudtAmount units :: ((λ _, []) <$> change)
    ∧ Forall (λ o, co_Lock o = Some from ∧ co_Type o = None) change ∧ (length change ≤ 1)%nat;
  (* the key's signature stands in the first witness, the others are empty *)
  gs_witnesses : ∃ unsigned signature,
    unsigned = tx <| tx_Witnesses := placeholder :: tail (tx_Witnesses tx) |>
    ∧ signBuyerDepositTransaction unsigned (seqZ 0 (Z.of_nat (length (tx_Inputs tx)))) placeholder key
      = Ok signature
    ∧ tx_Witnesses tx = sdk_serialize_lock signature :: replicate (length (tx_Inputs tx) - 1) [];
  (* what the treasury's output and the fee leave returns in full, unless it is too little
     for a cell *)
  gs_capacity : (∀ t, 0 ≤ tx_fee t < 2 ^ 62) → (∀ o d, 0 ≤ OccupiedCapacity o d < 2 ^ 62) →
    0 ≤ capacity_of (swept ++ extra) < 2 ^ 64 →
    ∃ paid, head (tx_Outputs tx) = Some paid ∧
    let rest := capacity_of (swept ++ extra) - co_Capacity paid - tx_fee (draft from tx) in
    0 ≤ rest ∧ tail (tx_Outputs tx) =
      if OccupiedCapacity (change_cell from 0) [] <=? rest then [change_cell from rest] else [];
}.






(** A sweep that paid: the answers it worked from, and the one transaction it sent. *)
Definition paid (record : BuyerDepositAddress) (treasury : string) (required : Z)
    (h : list WalletEvent) (r : BuyerDepositSweepResult) : Prop :=
  ∃ key sender from to udtArgs lock tip cells extra h1 h2 h' tx,
    deriveKey cfg (da_DerivationIndex record) = Ok key
    ∧ ckb_DeriveAddress cfg (da_DerivationIndex record) = Ok sender
    ∧ decodeBuyerDepositAddressScript sender = Ok from
    ∧ decodeBuyerDepositAddressScript treasury = Ok to
    ∧ decodeHexBytes (udt_Args (cw_UDTTypeScript cfg)) = Ok udtArgs
    ∧ lockScriptForRecord record = Ok lock
    ∧ tipBlockNumber env (raw_endpoint cfg) [] = (h1, Ok tip)
    ∧ deposit_cells env cfg lock h1 = (h2, Ok cells)
    ∧ h = h' ++ [VSend tx] ∧ count is_send h' = 0%nat
    ∧ let swept := List.filter (deposited required tip) cells in
      good_sweep from to (token_script udtArgs) key (sr_SweptRawUnits r) swept extra tx
      ∧ sr_SweptRawUnits r = wrap64 (sumZ (cell_amount <$> swept)) ∧ 0 < sr_SweptRawUnits r
      ∧ sr_TreasuryAddress r = treasury.

End sent.

(** ** A concrete SDK and chain *)

Definition hash_ok (l : list Z) : bool :=
  Nat.eqb (length l) 32 && forallb (λ b, (0 <=? b) && (b <? 256)) l.
Definition DemoHash : Type := { l : list Z | hash_ok l = true }.
Lemma big_endian_hash z : hash_ok (big_endian 32 z) = true.
Proof.
  unfold hash_ok. rewrite length_big_endian, Nat.eqb_refl. apply forallb_forall. intros b Hb.
  pose proof (big_endian_bytes 32 z) as Hall. rewrite List.Forall_forall in Hall. specialize (Hall b Hb).
  unfold is_byte in Hall. rewrite andb_true_iff, Z.leb_le, Z.ltb_lt. lia.
Qed.
Definition demo_hash (z : Z) : DemoHash := big_endian 32 z ↾ big_endian_hash z.
Definition hash_from (l : list Z) : DemoHash :=
  match decide (hash_ok l = true) with left Hl => l ↾ Hl | right _ => demo_hash 0 end.

Definition demo_capacity (v : option json) : Z :=
  match v with Some (JInt z) => z | _ => 0 end.
Definition demo_field (key : string) (v : json) : option json :=
  fields ← as_object v; raw_field key fields.
#[export] Instance DemoSdk : CkbSdk := {
  Hash := DemoHash;
  HexToHash s := match decodeHexBytes s with Ok l => hash_from l | Err _ => demo_hash 0 end;
  Hash_Hex h := "0x" +:+ hex_encode (`h);
  Hash_Bytes h := `h;
  BytesToHash := hash_from;
  HashTypeData := "data"; HashTypeData1 := "data1"; HashTypeData2 := "data2"; HashTypeType := "type";
  SerializeHashTypeByte t :=
    if String.eqb t "data" then Ok 0 else if String.eqb t "type" then Ok 1
    else if String.eqb t "data1" then Ok 2 else if String.eqb t "data2" then Ok 4
    else Err (Errf "hash type");
  DeserializeHashTypeByte b :=
    if b =? 0 then Ok "data" else if b =? 1 then Ok "type" else if b =? 2 then Ok "data1"
    else if b =? 4 then Ok "data2" else Err (Errf "hash type");
  bech32_Decode s :=
    match cut_at "1" s with
    | (hrp, Some data) => l ← hex_decode data; Ok (BECH32M, hrp, l)
    | (_, None) => Err (Errf "bech32")
    end;
  ConvertBits data _ _ _ :=
    if forallb (λ b, (0 <=? b) && (b <? 256)) data then Ok data else Err (Errf "bits");
  EncodeWithBech32m hrp data :=
    if has_byte "1" hrp || negb (forallb (λ b, (0 <=? b) && (b <? 256)) data) then Err (Errf "bech32")
    else Ok (hrp +:+ "1" +:+ hex_encode data);
  Blake256 := sha256;
  Blake160 data := take 20 (sha256 data);
  curve_order := 2 ^ 256 - 432420386565659656852420866394968145599;
  SerializeCompressed key := 2 :: key;
  SignCompact key data := Ok (31 :: sha256 key ++ sha256 data);
  OccupiedCapacity o data :=
    100000000 * (61 + match co_Type o with Some _ => 65 | None => 0 end + Z.of_nat (length data));
  CalculateFee tx rate := rate * Z.of_nat (length (tx_Inputs tx)) / 2;
  ComputeHash tx := demo_hash (sumZ (co_Capacity <$> tx_Outputs tx));
  sdk_serialize_lock l := 16 :: l;
  sdk_out_point _ v :=
    match demo_field "index" v with Some (JInt i) => Some (mkOutPoint (demo_hash i) i) | _ => None end;
  sdk_cell_output _ v :=
    Some (mkCellOutput (demo_capacity (demo_field "capacity" v)) None
            (match demo_field "type" v with
             | Some (JObj _) => Some (mkScript (demo_hash 1) "type" [1])
             | _ => None
             end));
}.

Lemma forallb_bytes l : forallb (λ b, (0 <=? b) && (b <? 256)) l = true ↔ Forall is_byte l.
Proof.
  rewrite forallb_forall, List.Forall_forall. unfold is_byte.
  apply forall_proper. intros b. rewrite andb_true_iff, Z.leb_le, Z.ltb_lt. done.
Qed.
#[export] Instance DemoSdk_laws : CkbSdkLaws.
Proof.
  split; cbn.
  - intros hrp data text _ Henc. destruct (has_byte "1" hrp) eqn:Hh; [done|].
    destruct (forallb _ data) eqn:Hd; [|done]. injection Henc as <-.
    change ("1" +:+ ?s) with (String "1" s). rewrite cut_at_app by done.
    rewrite hex_decode_encode by by apply forallb_bytes. done.
  - intros data five Hb Hc. apply forallb_bytes in Hb. rewrite Hb in Hc. injection Hc as <-. by rewrite Hb.
  - intros [l Hl]. cbn. unfold hash_ok in Hl. apply andb_true_iff in Hl as [Hn Hl].
    apply Nat.eqb_eq in Hn. by rewrite forallb_bytes in Hl.
  - intros [l Hl]. cbn. unfold hash_from. destruct (decide _) as [Hl'|]; [|done].
    f_equal. apply (proof_irrel Hl' Hl).
  - intros t b Hs. repeat case_match; simplify_eq; (split; [unfold is_byte; lia|]); cbn;
      by match goal with Ht : String.eqb _ _ = true |- _ => apply String.eqb_eq in Ht; subst end.
  - intros data. apply Forall_take, sha256_bytes.
Qed.

(** A chain at block 100: two deposits, the second not deep enough, and a cell that can
    pay the fee, which the node lists on a second page, after a first deposit it takes
    for such a cell. *)
Definition cell_json (block : string) (index capacity : Z) (token : bool) (data : string) : json :=
  JObj [("block_number", JStr block); ("out_point", JObj [("index", JInt index)]);
        ("output", JObj [("capacity", JInt capacity); ("type", if token then JObj [] else JNull)]);
        ("output_data", JStr data)].
Definition amount_data (amount : Z) : string := "0x" +:+ hex_encode (encodeBuyerDepositSudtAmount amount).
Definition answer (v : json) : result (option json) := Ok (Some (JObj [("result", v)])).
Definition page (cells : list json) (cursor : string) : result (option json) :=
  answer (JObj [("objects", JArr cells); ("last_cursor", JStr cursor)]).
(** The search is for cells of the token. *)
Definition for_token (params : json) : bool :=
  match params with JArr (JObj ((key, _) :: _) :: _) => String.eqb key "filter" | _ => false end.
Definition second_page (params : json) : bool :=
  match params with JArr l => Nat.eqb (length l) 4 | _ => false end.
Definition demo_chain (deposits : list json) (sent : result (option Hash)) : WalletEnv := {|
  we_call _ _ method params :=
    if String.eqb method "get_tip_block_number" then answer (JStr "0x64")
    else if for_token params then page (if second_page params then [] else deposits) "0x1"
    else if second_page params then page [cell_json "0x3" 7 20000000000 false "0x"] ""
    else page [cell_json "0x10" 1 14200000000 false "0x"] "0x1";
  we_dial _ _ := Ok tt;
  we_send _ _ := sent;
|}.
Definition demo_ckb_config : CKBBuyerDepositWalletConfig :=
  mkCkbConfig "http://ckb" "seed" NetworkTest (mkUDTTypeScript "0x01" "type" "0x0a") "0x02" 0 100 20 24 1000000.
Definition demo_address (index : Z) : string :=
  match ckb_DeriveAddress demo_ckb_config index with Ok a => a | Err _ => "" end.
Definition demo_deposit_record : BuyerDepositAddress :=
  mkDepositAddress "dep_1" "buyer_1" "USDI" (demo_address 0) 0 0 0.
Definition demo_deposits (amount : Z) : list json :=
  [cell_json "0x10" 1 14200000000 true (amount_data amount);
   cell_json "0x60" 2 14200000000 true (amount_data 9)].


(** An amount over 64 bits: the treasury is given what is left of it in the low bits, and
    the rest of the input is not an output of the transaction. *)
Example large_deposits_are_burnt :
  parseXUDTAmount (amount_data (2 ^ 64 + 5)) = 5 ∧
  (ckb_SweepToTreasury (demo_chain (demo_deposits (2 ^ 64 + 5)) (Ok None)) demo_ckb_config
     demo_deposit_record (demo_address 1) 0 []).2
  = Ok (mkSweepResult (Hash_Hex (demo_hash 34199999000)) 5 (demo_address 1)).
Proof. split; vm_compute; reflexivity. Qed.

Lemma addresses_name_scripts_witness :
  ∃ script, encodeBuyerDepositAddress script NetworkTest = Ok (demo_address 0) ∧
    decodeBuyerDepositAddressScript (demo_address 0) = Ok script.
Proof.
  set (script := buyerDepositSecp256k1LockScript
    (SerializeCompressed (match deriveKey demo_ckb_config 0 with Ok k => k | Err _ => [] end))).
  assert (Hargs : Forall is_byte (sc_Args script)) by apply (Forall_take _ 20), sha256_bytes.
  assert (Henc : encodeBuyerDepositAddress script NetworkTest = Ok (demo_address 0))
    by (vm_compute; reflexivity).
  exists script. split; [exact Henc|].
  exact (proj1 (addresses_name_scripts script NetworkTest (demo_address 0) Hargs Henc)).
Defined.

