(* ===== verification/ClientAddress.v ===== *)
(** * Who is limited, and what a limited client is told (internal/ratelimit/service.go)

    The address a request is counted under, behind proxies that append to
    X-Forwarded-For; the headers of a decision; the decision read from the answer of the
    Redis script, which is a parameter here and in [Limits] is run on a server.  Behind as many proxies as the configuration
    trusts and one more, the address is the client's, whatever the client forges. *)

From Stdlib Require Import Ascii.
From S2P Require Import Prelude GoNum GoText GoBytes RateLimit Fnn.

(** ** Addresses *)

(** [net.SplitHostPort]: the host, for a text with a port. *)
Definition last_colon (s : string) : option (string * string) :=
  match cut_at ":" (String.rev s) with
  | (port, Some host) => Some (String.rev host, String.rev port)
  | (_, None) => None
  end.
Definition SplitHost (hostport : string) : option string :=
  match last_colon hostport with
  | None => None
  | Some (before, port) =>
      if has_byte "[" port || has_byte "]" port then None
      else
        match strip_prefix "[" before with
        | Some inner =>
            match cut_at "]" inner with
            | (host, Some "") => if has_byte "[" host then None else Some host
            | _ => None
            end
        | None => if has_byte ":" before || has_byte "[" before || has_byte "]" before then None
                  else Some before
        end
  end.

Section client.
Context (getenv : string → string).
Definition envInt : string → Z → Z := env_int getenv.
Definition envBool : string → bool := env_bool getenv.

(** The entries of the header that are not blank. *)
Definition forwarded_addresses (header : string) : list string :=
  List.filter (λ s, negb (String.eqb s "")) (TrimSpace <$> Split "," header).
(** [clean[index]], for an index [len(clean) - 1 - hops] on int64, zero at least; past
    the end for a negative number of hops, which is a panic. *)
Definition forwarded_client (clean : list string) : option string :=
  let index := (Z.of_nat (length clean) - 1) -w envInt "RATE_LIMIT_TRUSTED_HOPS" 1 in
  clean !! Z.to_nat (if index <? 0 then 0 else index).
(** [ClientIP] of a request, by its X-Forwarded-For and remote address; [None]: it
    panics. *)
Definition ClientIP (header remoteAddr : string) : option string :=
  let clean := if envBool "RATE_LIMIT_TRUST_PROXY" then forwarded_addresses header else [] in
  if negb (bool_decide (clean = [])) then forwarded_client clean
  else
    match SplitHost (TrimSpace remoteAddr) with
    | Some host => if String.eqb host "" then Some (TrimSpace remoteAddr) else Some host
    | None => Some (TrimSpace remoteAddr)
    end.
End client.

(** ** Headers *)

(** [d.Round(time.Second)] in seconds, half a second rounded up, for a duration that is
    not negative and far from the largest. *)
Definition rounded_seconds (d : Duration) : Z :=
  let r := d mod second in
  (if r + r <? second then d - r else d + second - r) / second.
Definition Decision_Headers (d : Decision) (now : Time) : list (string * string) :=
  (if 0 <? Limit d then [("X-RateLimit-Limit", pretty (Limit d))] else [])
  ++ [("X-RateLimit-Remaining", pretty (maxInt (Remaining d) 0))]
  ++ (if ResetAt d =? 0 then [] else [("X-RateLimit-Reset", pretty (ResetAt d / second))])
  ++ (if 0 <? RetryAfter d then [("Retry-After", pretty (rounded_seconds (RetryAfter d)))]
      else if ResetAt d =? 0 then []
      else [("Retry-After", pretty (rounded_seconds (maxDuration (ResetAt d - now) 0)))]).

(** ** Redis *)

(** A value of the script's answer. *)
Inductive RedisValue := RInt (z : Z) | RText (s : string) | ROther.
Definition toInt64 (values : list RedisValue) (index : nat) : Z :=
  match values !! index with
  | Some (RInt z) => z
  | Some (RText s) => (ParseInt s).1
  | _ => 0
  end.
(** [script] runs the script for a key, a limit and a window in milliseconds; an answer
    that is not a list reads as an empty one. *)
Definition redis_Allow {S} (script : string → Z → Z → ST S (list RedisValue))
    (key : string) (limit : Z) (window : Duration) (now : Time) : ST S Decision :=
  values ← script key limit (window /w millisecond);
  let current := toInt64 values 0 in
  let ttl := toInt64 values 1 *w millisecond in
  let remaining := limit -w current in
  mret (mkDecision (current <=? limit) limit (if remaining <? 0 then 0 else remaining)
          (now + ttl) (maxDuration ttl 0)).

(** The part after the last [@], up to the first slash. *)
Definition parseRedisAddr (redisURL : string) : string :=
  let trimmed := TrimPrefix (TrimPrefix (TrimSpace redisURL) "redis://") "rediss://" in
  let trimmed := match cut_at "@" (String.rev trimmed) with
                 | (host, Some _) => String.rev host
                 | (_, None) => trimmed
                 end in
  (cut_at "/" trimmed).1.

Example ClientIP_ex :
  let env s := if String.eqb s "RATE_LIMIT_TRUST_PROXY" then "true" else "" in
  ClientIP env "203.0.113.5, 10.0.0.9" "10.0.0.9:1234" = Some "203.0.113.5" ∧
  ClientIP (λ _, "") "203.0.113.5" "192.168.1.1:12345" = Some "192.168.1.1" ∧
  ClientIP (λ _, "") "" "[::1]:80" = Some "::1" ∧ ClientIP (λ _, "") "" " ::1 " = Some "::1" ∧
  parseRedisAddr "redis://:pw@localhost:6379/0" = "localhost:6379".
Proof. split_and!; vm_compute; reflexivity. Qed.

(** ** Forged headers *)

(** What proxies make of a header: each appends the address it was connected from. *)
Definition append_hop (header address : string) : string :=
  if String.eqb header "" then address else header +:+ ", " +:+ address.
Definition forwarded (header : string) (addresses : list string) : string :=
  foldl append_hop header addresses.
(** An address as a proxy writes it. *)
Definition is_address (s : string) : Prop :=
  s ≠ "" ∧ TrimSpace s = s ∧ has_byte "," s = false.

Lemma Split_cut c s t : Split c (s +:+ String c t) = Split c s ++ Split c t.
Proof.
  induction s as [|a s IH].
  - change ("" +:+ String c t) with (String c t). cbn [Split]. by rewrite Ascii.eqb_refl.
  - rewrite app_cons. cbn [Split]. rewrite IH. destruct (Ascii.eqb a c); [done|].
    pose proof (Split_nonempty c s). by destruct (Split c s).
Qed.
Lemma forwarded_one address : is_address address → forwarded_addresses address = [address].
Proof.
  intros (Hne & Htrim & Hcomma). unfold forwarded_addresses. rewrite Split_none by done. cbn.
  rewrite Htrim. by destruct (String.eqb_spec address "").
Qed.
Lemma append_hop_addresses header address : is_address address →
  forwarded_addresses (append_hop header address) = forwarded_addresses header ++ [address].
Proof.
  intros Ha. unfold append_hop. destruct (String.eqb_spec header "") as [->|_]; [by apply forwarded_one|].
  unfold forwarded_addresses. change (", " +:+ address) with (String "," (" " +:+ address)).
  rewrite Split_cut, fmap_app, List.filter_app. f_equal. destruct Ha as (Hne & Htrim & Hcomma).
  rewrite Split_none by done. cbn [fmap list_fmap List.filter]. rewrite TrimSpace_space, Htrim.
  by destruct (String.eqb_spec address "").
Qed.
Lemma forwarded_spec header addresses : Forall is_address addresses →
  forwarded_addresses (forwarded header addresses) = forwarded_addresses header ++ addresses.
Proof.
  intros Hall. revert header. induction Hall as [|a addresses Ha _ IH]; intros header.
  { cbn. by rewrite app_nil_r. }
  change (forwarded header (a :: addresses)) with (forwarded (append_hop header a) addresses).
  rewrite IH, append_hop_addresses by done. by rewrite <- app_assoc.
Qed.

(** A request as it reaches the service. *)
Record Attempt := mkAttempt {
  at_header : string;
  at_remote : string;
  at_time : Time;
}.

Section proxies.
Context (getenv : string → string) (client : string) (proxies : list string).
Hypothesis Htrust : envBool getenv "RATE_LIMIT_TRUST_PROXY" = true.
Hypothesis Hclient : is_address client.
Hypothesis Hproxies : Forall is_address proxies.

Definition trusted_hops : Z := envInt getenv "RATE_LIMIT_TRUSTED_HOPS" 1.
(** The header of a request of the client, past its proxies. *)
Definition seen_header (forged : string) : string := forwarded forged (client :: proxies).

Lemma seen_addresses forged :
  forwarded_addresses (seen_header forged) = forwarded_addresses forged ++ client :: proxies.
Proof using Hclient Hproxies. apply forwarded_spec. by constructor. Qed.

(** As many addresses as an int counts. *)
Definition countable (forged : string) : Prop :=
  Z.of_nat (length (forwarded_addresses forged) + S (length proxies)) ≤ max_int64.
(** The address [k] places before the last. *)
Lemma ClientIP_seen forged remote k : trusted_hops = Z.of_nat k → countable forged →
  (k ≤ length (forwarded_addresses forged) + length proxies)%nat →
  ClientIP getenv (seen_header forged) remote =
    (forwarded_addresses forged ++ client :: proxies) !!
      (length (forwarded_addresses forged) + length proxies - k)%nat.
Proof using Htrust Hclient Hproxies.
  unfold countable. intros Hk Hfit Hle. unfold ClientIP. rewrite Htrust, seen_addresses.
  rewrite bool_decide_false by (intros [_ ?]%app_eq_nil; done). cbn [negb].
  unfold forwarded_client. fold trusted_hops. rewrite Hk. set (clean := _ ++ _).
  assert (Hlen : length clean = (length (forwarded_addresses forged) + S (length proxies))%nat)
    by (unfold clean; rewrite length_app; done).
  f_equal. rewrite Hlen, sub64_exact by in64_lia. rewrite (proj2 (Z.ltb_ge _ _)) by lia. lia.
Qed.

(** The key a request is counted under for a policy on addresses, and the calls of a
    store that requests make; one that panics makes none. *)
Definition key_of (policy : Policy) (config : PolicyConfig) (q : Attempt) : option string :=
  (λ ip, buildKey policy (pc_Scope config) (mkMeta ip "" "" ""))
    <$> ClientIP getenv (at_header q) (at_remote q).
Definition attempts policy config : list Attempt → list (string * Time) :=
  omap (λ q, (λ key, (key, at_time q)) <$> key_of policy config q).
(** A request of the client, past its proxies: the client wrote [forged]. *)
Definition from_client (q : Attempt) : Prop :=
  ∃ forged, at_header q = seen_header forged ∧ countable forged.

(** C29. Behind proxies that each append the address they are connected from, of which all
    but the first to see the client are configured as trusted, a client's requests are
    counted under the client's address whatever it writes in the header: however it forges
    them and whoever else makes requests, at most twice the limit of a policy on addresses
    is let through in any window of it, by the in-memory store. *)
Theorem forged_headers_do_not_count policy config from (requests : list Attempt) :
  trusted_hops = Z.of_nat (length proxies) →
  pc_Scope config = [ScopeIP] → 0 ≤ pc_Limit config → 0 < pc_Window config →
  0 ≤ from → chronological 0 (attempts policy config requests) →
  let key := "rate:" +:+ policy_string policy +:+ ":ip:" +:+ client in
  Forall (λ q, from_client q → key_of policy config q = Some key) requests
  ∧ hits key from (from + pc_Window config)
      (allowed_calls (pc_Limit config) (pc_Window config) (attempts policy config requests) ∅)
    ≤ 2 * pc_Limit config.
Proof using Htrust Hclient Hproxies.
  intros Hhops Hscope Hlimit Hwindow Hstart Hchron. cbv zeta. split.
  - apply Forall_forall. intros q _ (forged & Hq & Hfit). unfold key_of.
    rewrite Hq, (ClientIP_seen _ _ (length proxies)) by (done || lia).
    rewrite Nat.add_sub, list_lookup_middle by done. rewrite Hscope. cbn. unfold fallback.
    destruct Hclient as (Hne & Htrim & _). unfold blank. rewrite Htrim.
    by destruct (String.eqb_spec client "").
  - by apply (hits_bound _ _ Hlimit Hwindow _ _ Hstart) with (from := 0).
Qed.

(** With one hop trusted too many, which is one for a service behind one proxy, a
    request is counted under the last address the client wrote, if it wrote any. *)
Theorem a_hop_too_many forged remote :
  trusted_hops = Z.of_nat (S (length proxies)) → countable forged →
  ∀ address, last (forwarded_addresses forged) = Some address →
  ClientIP getenv (seen_header forged) remote = Some address.
Proof using Htrust Hclient Hproxies.
  intros Hhops Hfit address Hlast.
  apply last_Some in Hlast as [l Hl]. pose proof (f_equal length Hl) as Hlen. rewrite length_app in Hlen.
  cbn in Hlen. rewrite (ClientIP_seen _ _ (S (length proxies))) by (done || lia).
  rewrite Hl, length_app. cbn [length].
  replace (length l + 1 + length proxies - S (length proxies))%nat with (length l) by lia.
  rewrite <- app_assoc. by apply list_lookup_middle.
Qed.
End proxies.

Definition one_hop (key : string) : string :=
  if String.eqb key "RATE_LIMIT_TRUST_PROXY" then "true" else "".
Lemma demo_client : is_address "203.0.113.5".
Proof. unfold is_address. split_and!; [done|by vm_compute..]. Qed.
Lemma demo_proxy : Forall is_address ["10.0.0.9"].
Proof. repeat constructor; [done|by vm_compute..]. Qed.

Lemma forged_headers_do_not_count_witness :
  let q := mkAttempt (seen_header "203.0.113.5" ["10.0.0.9"] "198.51.100.7, 1.1.1.1") "" 7 in
  key_of one_hop PolicyIAMLoginIP (default_policy PolicyIAMLoginIP) q
    = Some "rate:iam.login.ip:ip:203.0.113.5"
  ∧ hits "rate:iam.login.ip:ip:203.0.113.5" 1 (1 + 5 * minute) (allowed_calls 10 (5 * minute)
      (attempts one_hop PolicyIAMLoginIP (default_policy PolicyIAMLoginIP) [q; q]) ∅) ≤ 20.
Proof.
  cbv zeta. set (q := mkAttempt _ _ _).
  assert (Hchron : chronological 0 (attempts one_hop PolicyIAMLoginIP
    (default_policy PolicyIAMLoginIP) [q; q])) by (vm_compute; split_and!; discriminate || done).
  destruct (forged_headers_do_not_count one_hop "203.0.113.5" ["10.0.0.9"] eq_refl demo_client demo_proxy
    PolicyIAMLoginIP (default_policy PolicyIAMLoginIP) 1 [q; q] eq_refl eq_refl
    ltac:(cbn; lia) ltac:(reflexivity) ltac:(lia) Hchron) as [Hkeys Hhits].
  split; [|exact Hhits]. rewrite Forall_forall in Hkeys. apply (Hkeys q); [by left|].
  exists "198.51.100.7, 1.1.1.1". split; [reflexivity|vm_compute; discriminate].
Defined.

Lemma a_hop_too_many_witness :
  ClientIP one_hop (seen_header "203.0.113.5" [] "198.51.100.7, 1.1.1.1") "10.0.0.9:80" = Some "1.1.1.1".
Proof.
  apply (a_hop_too_many one_hop "203.0.113.5" [] eq_refl demo_client (Forall_nil_2 _)
    "198.51.100.7, 1.1.1.1" "10.0.0.9:80" eq_refl); [by vm_compute|reflexivity].
Defined.
