(* ===== verification/Bech32.v ===== *)
(** * Addresses of CKB wallets in the release tooling (internal/release/demo_fnn_funding.go)

    The short address of a lock's arguments in bech32, checksum included, and the
    reading of an address into the script it names.  The decoder of the SDK is a
    parameter: a text with a valid checksum decodes to its symbols, and bits are
    regrouped as here. *)

From Stdlib Require Import Ascii Btauto.
From S2P Require Import Prelude GoNum GoText GoBytes Fnn FiberNode CkbWallet CkbSweeps.

(** ** Regrouping bits *)

(** The inner loop: a group leaves the accumulator per turn, at most [bits] of them. *)
Fixpoint emit_groups (fuel : nat) (toBits acc bits : Z) (ret : list Z) : Z * list Z :=
  match fuel with
  | O => (bits, ret)
  | S fuel =>
      if toBits <=? bits
      then let bits := bits - toBits in
           emit_groups fuel toBits acc bits
             (ret ++ [Z.land (Z.land (Z.shiftr acc bits) (Z.shiftl 1 toBits - 1)) 255])
      else (bits, ret)
  end.
Fixpoint convert_loop (data : list Z) (fromBits toBits acc bits : Z) (ret : list Z)
    : result (Z * Z * list Z) :=
  match data with
  | [] => Ok (acc, bits, ret)
  | value :: data =>
      if negb (Z.shiftr value fromBits =? 0) then Err (Errf "invalid bech32 data range")
      else
        let acc := Z.lor (wrap64 (Z.shiftl acc fromBits)) value in
        let bits := bits + fromBits in
        let '(bits, ret) := emit_groups (Z.to_nat bits) toBits acc bits ret in
        convert_loop data fromBits toBits acc bits ret
  end.
Definition convertBits (data : list Z) (fromBits toBits : Z) (pad : bool) : result (list Z) :=
  let maxv := Z.shiftl 1 toBits - 1 in
  '(acc, bits, ret) ← convert_loop data fromBits toBits 0 0 [];
  let rest := Z.land (wrap64 (Z.shiftl acc (toBits - bits))) maxv in
  if pad then Ok (if 0 <? bits then ret ++ [Z.land rest 255] else ret)
  else if (fromBits <=? bits) || negb (rest =? 0)
  then Err (Errf "invalid incomplete bech32 group")
  else Ok ret.

(** ** The checksum *)

Definition bech32Charset : string := "qpzry9x8gf2tvdw0s3jn54khce6mua7l".
Definition generators : list Z := [996825010; 642813549; 513874426; 1027748829; 705979059].

(** One round: the low bits move up, what falls out at the top selects generators. *)
Definition selected (top : Z) : list Z :=
  imap (λ i g, if Z.testbit top (Z.of_nat i) then g else 0) generators.
Definition polymod_step (chk value : Z) : Z :=
  foldl Z.lxor (Z.lxor (Z.shiftl (Z.land chk 33554431) 5) value) (selected (Z.shiftr chk 25)).
Definition bech32Polymod (values : list Z) : Z := foldl polymod_step 1 values.

Definition bech32HrpExpand (hrp : string) : list Z :=
  ((λ char, Z.land (Z.shiftr char 5) 255) <$> runes hrp) ++ [0] ++
  ((λ char, Z.land (Z.land char 31) 255) <$> runes hrp).
Definition bech32CreateChecksum (hrp : string) (data : list Z) : list Z :=
  let values := bech32HrpExpand hrp ++ data ++ [0; 0; 0; 0; 0; 0] in
  let polymod := Z.lxor (bech32Polymod values) 1 in
  (λ i, Z.land (Z.land (Z.shiftr polymod (5 * (5 - i))) 31) 255) <$> [0; 1; 2; 3; 4; 5].

Definition deriveCKBTestnetAddressFromLockArgs (lockArgs : string) : result string :=
  let lockArgs := TrimSpace lockArgs in
  if negb (HasPrefix (ToLower lockArgs) "0x") then Err (Errf "lock args must be hex")
  else
    argsBytes ← hex_decode (String.substring 2 (String.length lockArgs - 2) lockArgs);
    if negb (Nat.eqb (length argsBytes) 20)
    then Err (Errf ("lock args must be 20 bytes, got " +:+ pretty (Z.of_nat (length argsBytes))))
    else
      data ← convertBits ([1; 0] ++ argsBytes) 8 5 true;
      let combined := data ++ bech32CreateChecksum "ckt" data in
      match mapM (λ value, String.get (Z.to_nat value) bech32Charset) combined with
      | Some chars => Ok ("ckt1" +:+ String.string_of_list_ascii chars)
      | None => Err (Errf "bech32 value out of range")
      end.

(** ** Reading an address *)

Abbreviation rawScript := RawUDTTypeScript.

Definition releaseNetworkFromAddressHRP (hrp : string) : result Network :=
  let hrp := TrimSpace hrp in
  if String.eqb hrp "ckb" then Ok NetworkMain
  else if String.eqb hrp "ckt" then Ok NetworkTest
  else Err (Errf ("unsupported ckb address hrp " +:+ quoted hrp)).
Definition releaseShortCodeHash (network : Network) (codeHashIndex : Z) : result (string * string) :=
  if codeHashIndex =? 0
  then Ok ("0x9bd7e06f3ecf4be0f2fcd2188b23f1b9fcc88e5d4b65a8637b17723bbda3cce8", "type")
  else if codeHashIndex =? 1
  then Ok ("0x5c5069eb0857efc65e1bca0c07df34c31663b3622fd3876c876320fc9634e2a8", "type")
  else if codeHashIndex =? 2
  then Ok (if bool_decide (network = NetworkMain)
           then "0xd369597ff47f29fbc0d47d2e3775370d1250b85140c670e4718af712983a2354"
           else "0x3419a1c09eb2567f6552ee7a8ecffd64155cffe0f1796e6e61ec088d740c1356", "type")
  else Err (Errf ("unsupported short code hash index " +:+ hex_quantity codeHashIndex)).

Section reading.
(** What is used of the SDK: bech32 and bech32m, and the bytes of hash types. *)
Context (bech32_Decode : string → result (Encoding * string * list Z)).
Context (sdk_ConvertBits : list Z → Z → Z → bool → result (list Z)).
Context (DeserializeHashTypeByte : Z → result string).

Definition hex_text_of (l : list Z) : string := "0x" +:+ hex_encode l.
Definition read_payload (encoding : Encoding) (network : Network) (payload : list Z)
    : result rawScript :=
  match payload with
  | [] => Err (Errf "ckb address payload is empty")
  | header :: rest =>
      if header =? 0 then
        if bool_decide (encoding ≠ BECH32M) then Err (Errf "payload header 0x00 must use bech32m")
        else if (length payload <? 34)%nat then Err (Errf "full ckb address payload is too short")
        else
          hashType ← DeserializeHashTypeByte (nth 33 payload 0);
          Ok (mkRawScript (hex_text_of (take 32 rest)) hashType (hex_text_of (drop 34 payload)))
      else if header =? 1 then
        if bool_decide (encoding ≠ BECH32) then Err (Errf "payload header 0x01 must use bech32")
        else if (length payload <? 2)%nat then Err (Errf "short ckb address payload is too short")
        else
          '(codeHash, hashType) ← releaseShortCodeHash network (nth 1 payload 0);
          Ok (mkRawScript codeHash hashType (hex_text_of (drop 2 payload)))
      else if (header =? 2) || (header =? 4) then
        if bool_decide (encoding ≠ BECH32)
        then Err (Errf "payload header 0x02 or 0x04 must use bech32")
        else if (length payload <? 33)%nat
        then Err (Errf "full bech32 ckb address payload is too short")
        else Ok (mkRawScript (hex_text_of (take 32 rest)) (if header =? 4 then "type" else "data")
                   (hex_text_of (drop 33 payload)))
      else Err (Errf ("unsupported ckb address payload header " +:+ hex_quantity header))
  end.
Definition decodeCKBAddressToRawScript (encoded : string) : result rawScript :=
  '(encoding, hrp, decoded) ← bech32_Decode (TrimSpace encoded);
  network ← releaseNetworkFromAddressHRP hrp;
  payload ← sdk_ConvertBits decoded 5 8 false;
  read_payload encoding network payload.
End reading.

(** ** The checksum is a linear code *)

Lemma pick_lxor (a b : bool) g :
  (if xorb a b then g else 0) = Z.lxor (if a then g else 0) (if b then g else 0).
Proof. destruct a, b; cbn [xorb]; by rewrite ?Z.lxor_nilpotent, ?Z.lxor_0_r, ?Z.lxor_0_l. Qed.
Lemma land_lxor a b m : Z.land (Z.lxor a b) m = Z.lxor (Z.land a m) (Z.land b m).
Proof. apply Z.bits_inj'. intros n _. rewrite !Z.lxor_spec, !Z.land_spec, Z.lxor_spec. btauto. Qed.

(** What the top bits select. *)
Definition chosen (top : Z) : Z := foldl Z.lxor 0 (selected top).
Lemma foldl_lxor l a : foldl Z.lxor a l = Z.lxor a (foldl Z.lxor 0 l).
Proof.
  revert a. induction l as [|x l IH]; intros a; cbn [foldl]; [by rewrite Z.lxor_0_r|].
  rewrite IH, (IH (Z.lxor 0 x)), Z.lxor_0_l. by rewrite Z.lxor_assoc.
Qed.
Lemma polymod_step_eq c v :
  polymod_step c v = Z.lxor (Z.lxor (Z.shiftl (Z.land c 33554431) 5) v) (chosen (Z.shiftr c 25)).
Proof. unfold polymod_step, chosen. by rewrite foldl_lxor. Qed.
Lemma chosen_lxor a b : chosen (Z.lxor a b) = Z.lxor (chosen a) (chosen b).
Proof.
  unfold chosen, selected, generators. cbn [imap foldl compose Nat.add Z.of_nat].
  rewrite !Z.lxor_spec, !pick_lxor, !Z.lxor_0_l.
  apply Z.bits_inj'. intros n _. rewrite !Z.lxor_spec. btauto.
Qed.
Lemma polymod_step_lxor c d v w :
  polymod_step (Z.lxor c d) (Z.lxor v w) = Z.lxor (polymod_step c v) (polymod_step d w).
Proof.
  rewrite !polymod_step_eq, land_lxor, Z.shiftl_lxor, Z.shiftr_lxor, chosen_lxor.
  apply Z.bits_inj'. intros n _. rewrite !Z.lxor_spec. btauto.
Qed.
Lemma polymod_lxor vs ws c d : length vs = length ws →
  foldl polymod_step (Z.lxor c d) (zip_with Z.lxor vs ws) =
  Z.lxor (foldl polymod_step c vs) (foldl polymod_step d ws).
Proof.
  revert ws c d. induction vs as [|v vs IH]; intros [|w ws] c d Hl; [done..|]. cbn [zip_with foldl].
  rewrite polymod_step_lxor, IH; [done|]. by injection Hl.
Qed.

(** Below 2^25 nothing falls out: a symbol is appended. *)
Lemma polymod_step_small c v : 0 ≤ c < 2 ^ 25 → 0 ≤ v < 32 → polymod_step c v = 32 * c + v.
Proof.
  intros Hc Hv. rewrite polymod_step_eq. rewrite (Z.shiftr_div_pow2 c 25), Z.div_small by lia.
  replace (chosen 0) with 0 by reflexivity. rewrite Z.lxor_0_r.
  change 33554431 with (Z.ones 25). rewrite Z.land_ones, Z.mod_small by lia.
  rewrite <- Z.add_nocarry_lxor; [rewrite Z.shiftl_mul_pow2 by lia; lia|].
  apply Z.bits_inj'. intros n Hn. rewrite Z.land_spec, Z.bits_0, Z.shiftl_spec by done.
  destruct (Z.testbit v n) eqn:Hb; [|by rewrite andb_false_r].
  rewrite (Z.testbit_neg_r c) by (destruct (decide (n < 5)); [lia|];
    exfalso; rewrite Z.testbit_true in Hb by done; rewrite Z.div_small in Hb; [done|];
    split; [lia|]; eapply Z.lt_le_trans; [apply Hv|]; change 32 with (2 ^ 5); apply Z.pow_le_mono_r; lia).
  done.
Qed.

Definition symbol (v : Z) : Prop := 0 ≤ v < 32.
Definition base32 (l : list Z) : Z := foldl (λ n v, 32 * n + v) 0 l.
Lemma foldl_base32 l c : foldl (λ n v, 32 * n + v) c l = c * 32 ^ Z.of_nat (length l) + base32 l.
Proof.
  unfold base32. revert c. induction l as [|v l IH]; intros c; cbn [foldl length].
  - rewrite Z.pow_0_r. lia.
  - rewrite IH, (IH (32 * 0 + v)). rewrite Nat2Z.inj_succ, Z.pow_succ_r by lia. lia.
Qed.
Lemma base32_bound l : Forall symbol l → 0 ≤ base32 l < 32 ^ Z.of_nat (length l).
Proof.
  induction l as [|v l IH] using rev_ind; intros Hl; [cbn; lia|].
  apply Forall_app in Hl as [Hl Hv]. rewrite Forall_singleton in Hv. specialize (IH Hl). unfold symbol in Hv.
  unfold base32 in *. rewrite foldl_app, length_app. cbn [foldl length].
  rewrite Nat2Z.inj_add, Z.pow_add_r by lia. change (32 ^ Z.of_nat 1) with 32.
  lia.
Qed.
Lemma polymod_short l : Forall symbol l → (length l ≤ 6)%nat → foldl polymod_step 0 l = base32 l.
Proof.
  induction l as [|v l IH] using rev_ind; intros Hl Hn; [done|].
  apply Forall_app in Hl as [Hl Hv]. rewrite Forall_singleton in Hv. rewrite length_app in Hn. cbn in Hn.
  unfold base32. rewrite !foldl_app. cbn [foldl]. rewrite IH by (done || lia). fold (base32 l).
  apply polymod_step_small; [|done]. pose proof (base32_bound l Hl) as [H0 H1]. split; [done|].
  eapply Z.lt_le_trans; [exact H1|]. change (2 ^ 25) with (32 ^ 5). apply Z.pow_le_mono_r; lia.
Qed.

(** The six symbols of 30 bits. *)
Definition six_symbols (p : Z) : list Z :=
  (λ i, Z.land (Z.land (Z.shiftr p (5 * (5 - i))) 31) 255) <$> [0; 1; 2; 3; 4; 5].
Lemma six_symbols_spec p : 0 ≤ p < 2 ^ 30 → Forall symbol (six_symbols p) ∧ base32 (six_symbols p) = p.
Proof.
  intros Hp.
  assert (Hs : ∀ i, 0 ≤ i ≤ 5 → Z.land (Z.land (Z.shiftr p (5 * (5 - i))) 31) 255 =
    p / 2 ^ (5 * (5 - i)) mod 32).
  { intros i Hi. change 31 with (Z.ones 5). change 255 with (Z.ones 8). rewrite !Z.land_ones by lia.
    rewrite Z.shiftr_div_pow2 by lia. change (2 ^ 5) with 32. apply Z.mod_small.
    pose proof (Z.mod_pos_bound (p / 2 ^ (5 * (5 - i))) 32 ltac:(lia)). lia. }
  unfold six_symbols, symbol, base32. cbn [fmap list_fmap]. rewrite !Hs by lia. split.
  - repeat constructor; apply Z.mod_pos_bound; lia.
  - cbn [foldl Z.mul Z.sub Z.add Z.opp Z.pos_sub Pos.mul]. 
    change (2 ^ (5 * (5 - 0))) with (2 ^ 25). change (2 ^ (5 * (5 - 1))) with (2 ^ 20).
    change (2 ^ (5 * (5 - 2))) with (2 ^ 15). change (2 ^ (5 * (5 - 3))) with (2 ^ 10).
    change (2 ^ (5 * (5 - 4))) with (2 ^ 5). change (2 ^ (5 * (5 - 5))) with 1.
    Z.div_mod_to_equations. lia.
Qed.

Definition fits30 (c : Z) : Prop := 0 ≤ c < 2 ^ 30.
Lemma fits30_bits c : fits30 c ↔ Z.land c (Z.ones 30) = c.
Proof. rewrite Z.land_ones by lia. unfold fits30. split; [apply Z.mod_small|]. 
  intros <-. apply Z.mod_pos_bound. lia. Qed.
Lemma fits30_lxor a b : fits30 a → fits30 b → fits30 (Z.lxor a b).
Proof. rewrite !fits30_bits. intros Ha Hb. by rewrite land_lxor, Ha, Hb. Qed.
Lemma chosen_range top : fits30 (chosen top).
Proof.
  unfold chosen, selected, generators. cbn [imap foldl compose].
  repeat apply fits30_lxor; try (case_match; unfold fits30; lia). unfold fits30. lia.
Qed.
Lemma polymod_step_range c v : is_byte v → fits30 (polymod_step c v).
Proof.
  intros Hv. rewrite polymod_step_eq. apply fits30_lxor; [apply fits30_lxor|apply chosen_range].
  - change 33554431 with (Z.ones 25). rewrite Z.land_ones, Z.shiftl_mul_pow2 by lia.
    pose proof (Z.mod_pos_bound c (2 ^ 25) ltac:(lia)). unfold fits30. lia.
  - unfold is_byte in Hv. unfold fits30. lia.
Qed.
Lemma polymod_range vs c : fits30 c → Forall is_byte vs → fits30 (foldl polymod_step c vs).
Proof.
  intros Hc Hvs. revert c Hc. induction Hvs as [|v vs Hv _ IH]; intros c Hc; [done|].
  apply IH. by apply polymod_step_range.
Qed.
Lemma symbol_byte v : symbol v → is_byte v.
Proof. unfold symbol, is_byte. lia. Qed.

(** Rounds lose nothing: only a zero state is taken to zero. *)
Lemma chosen_low top : 0 ≤ top < 32 → Z.land (chosen top) 31 = 0 → top = 0.
Proof.
  intros Ht Hlow.
  assert (Hall : forallb (λ i, negb (Z.land (chosen (Z.of_nat i)) 31 =? 0) || Nat.eqb i 0) (seq 0 32) = true)
    by (vm_compute; reflexivity).
  rewrite forallb_forall in Hall. specialize (Hall (Z.to_nat top)). rewrite Z2Nat.id in Hall by lia.
  rewrite Hlow in Hall. cbn [Z.eqb negb orb] in Hall.
  assert (Hin : In (Z.to_nat top) (seq 0 32)) by (apply in_seq; lia).
  apply Hall, Nat.eqb_eq in Hin. lia.
Qed.
Lemma polymod_step_zero e : fits30 e → polymod_step e 0 = 0 → e = 0.
Proof.
  intros He Hz. rewrite polymod_step_eq, Z.lxor_0_r in Hz. apply Z.lxor_eq in Hz.
  change 33554431 with (Z.ones 25) in Hz. rewrite Z.land_ones, Z.shiftl_mul_pow2 in Hz by lia.
  assert (Htop : Z.shiftr e 25 = 0).
  { rewrite Z.shiftr_div_pow2 in * by lia. apply chosen_low; unfold fits30 in He.
    - split; [apply Z.div_pos; lia|apply Z.div_lt_upper_bound; lia].
    - change 31 with (Z.ones 5). rewrite Z.land_ones, <- Hz by lia. apply Z.mod_mul. lia. }
  rewrite Htop in Hz. replace (chosen 0) with 0 in Hz by reflexivity.
  rewrite Z.shiftr_div_pow2 in Htop by lia. pose proof (Z.div_mod e (2 ^ 25)). lia.
Qed.
Lemma polymod_zeros_zero n e : fits30 e → foldl polymod_step e (replicate n 0) = 0 → e = 0.
Proof.
  revert e. induction n as [|n IH]; intros e He; [done|]. cbn [replicate foldl]. intros Hz.
  apply polymod_step_zero; [done|]. apply IH; [|done]. by apply polymod_step_range.
Qed.

Lemma zip_lxor_zeros l : zip_with Z.lxor (replicate (length l) 0) l = l.
Proof. induction l as [|v l IH]; [done|]. cbn. by rewrite IH. Qed.
Lemma zip_lxor_self l : zip_with Z.lxor l l = replicate (length l) 0.
Proof. induction l as [|v l IH]; [done|]. cbn. by rewrite Z.lxor_nilpotent, IH. Qed.

Lemma checksum_completes vs : Forall is_byte vs →
  bech32Polymod (vs ++ six_symbols (Z.lxor (bech32Polymod (vs ++ replicate 6 0)) 1)) = 1.
Proof.
  intros Hvs. set (p := Z.lxor _ 1).
  assert (Hp : fits30 p).
  { apply fits30_lxor; [|unfold fits30; lia]. apply polymod_range; [unfold fits30; lia|].
    apply Forall_app. split; [done|]. apply Forall_replicate. unfold is_byte. lia. }
  destruct (six_symbols_spec p Hp) as [Hs Hv]. unfold bech32Polymod in *. rewrite foldl_app.
  replace (six_symbols p) with (zip_with Z.lxor (replicate 6 0) (six_symbols p)) by (apply (zip_lxor_zeros (six_symbols p))).
  rewrite <- (Z.lxor_0_r (foldl polymod_step 1 vs)), polymod_lxor by done.
  rewrite (polymod_short (six_symbols p)) by done. rewrite Hv. rewrite <- foldl_app.
  subst p. rewrite <- Z.lxor_assoc, Z.lxor_nilpotent. done.
Qed.

(** Up to six neighbouring symbols changed are noticed. *)
Lemma burst_changes pre mid mid' post c : Forall is_byte (pre ++ mid ++ post) → Forall symbol mid →
  Forall symbol mid' → length mid = length mid' → (length mid ≤ 6)%nat → mid ≠ mid' →
  foldl polymod_step c (pre ++ mid ++ post) ≠ foldl polymod_step c (pre ++ mid' ++ post).
Proof.
  intros Hb Hm Hm' Hlen H6 Hne Heq. rewrite !foldl_app in Heq.
  set (s := foldl polymod_step c pre) in *.
  apply (Z.lxor_eq_0_iff) in Heq. rewrite <- !foldl_app, <- polymod_lxor in Heq
    by (rewrite !length_app; lia).
  rewrite Z.lxor_nilpotent, zip_with_app in Heq by done. rewrite zip_lxor_self, foldl_app in Heq.
  assert (Hd : Forall symbol (zip_with Z.lxor mid mid')).
  { clear -Hm Hm'. revert mid' Hm'. induction Hm as [|v l Hv _ IH]; intros mid' Hm'; [constructor|].
    destruct Hm' as [|w l' Hw Hl']; [constructor|]. constructor; [|by apply IH].
    unfold symbol in *. assert (H : ∀ x, 0 ≤ x < 32 ↔ Z.land x (Z.ones 5) = x).
    { intros x. rewrite Z.land_ones by lia. split; [apply Z.mod_small|]. intros <-. apply Z.mod_pos_bound. lia. }
    apply H. rewrite land_lxor. by rewrite (proj1 (H v) Hv), (proj1 (H w) Hw). }
  apply polymod_zeros_zero in Heq.
  2:{ apply polymod_range; [unfold fits30; lia|]. eapply Forall_impl; [exact Hd|apply symbol_byte]. }
  rewrite polymod_short in Heq; [|done|rewrite length_zip_with; lia].
  apply Hne. clear -Hd Heq Hlen Hm Hm'.
  assert (Hz : ∀ l, Forall symbol l → base32 l = 0 → Forall (eq 0) l).
  { induction l as [|v l IH] using rev_ind; intros Hl Hz; [constructor|].
    apply Forall_app in Hl as [Hl Hv]. pose proof (base32_bound l Hl). rewrite Forall_singleton in Hv.
    unfold base32, symbol in *. rewrite foldl_app in Hz. cbn [foldl] in Hz.
    apply Forall_app. split; [apply IH; [done|lia]|]. repeat constructor. lia. }
  specialize (Hz _ Hd Heq). clear -Hz Hlen. revert mid' Hlen Hz.
  induction mid as [|v l IH]; intros [|w l'] Hl Hz; [done..|]. cbn in Hz. injection Hl as Hl.
  inversion Hz as [|? ? H0 Hz']; subst. f_equal; [by apply Z.lxor_eq|by apply IH].
Qed.

(** ** Regrouping loses nothing *)

Section groups.
Context (w : Z) (w_range : 0 < w ≤ 8).
Definition group (v : Z) : Prop := 0 ≤ v < 2 ^ w.
Definition grouped (l : list Z) : Z := foldl (λ n v, n * 2 ^ w + v) 0 l.

Lemma grouped_snoc l v : grouped (l ++ [v]) = grouped l * 2 ^ w + v.
Proof. unfold grouped. by rewrite foldl_app. Qed.
Lemma grouped_inj l k : Forall group l → Forall group k → length l = length k →
  grouped l = grouped k → l = k.
Proof using w_range.
  revert k. induction l as [|v l IH] using rev_ind; intros k Hl Hk Hlen Heq; [by destruct k|].
  destruct k as [|u k _] using rev_ind; [by rewrite length_app in Hlen; cbn in Hlen; lia|].
  rewrite !length_app in Hlen. cbn in Hlen. rewrite !grouped_snoc in Heq.
  apply Forall_app in Hl as [Hl Hv], Hk as [Hk Hu]. rewrite Forall_singleton in Hv, Hu.
  unfold group in Hv, Hu. assert (Hgk : grouped l = grouped k ∧ v = u).
  { destruct (Z.div_mod_unique (2 ^ w) (grouped l) (grouped k) v u); [lia|lia|lia|done]. }
  f_equal; [apply IH; (done || lia)|]. by destruct Hgk as [_ ->].
Qed.
End groups.

Lemma low_bits a N k : eqm64 a N → 0 ≤ k ≤ 64 → a mod 2 ^ k = N mod 2 ^ k.
Proof.
  unfold eqm64. intros Ha Hk. replace (2 ^ 64) with (2 ^ k * 2 ^ (64 - k)) in Ha
    by (rewrite <- Z.pow_add_r by lia; f_equal; lia).
  rewrite !Z.rem_mul_r in Ha by (lia || (apply Z.pow_nonzero; lia)).
  pose proof (Z.mod_pos_bound a (2 ^ k) ltac:(lia)). pose proof (Z.mod_pos_bound N (2 ^ k) ltac:(lia)).
  eapply (Z.div_mod_unique (2 ^ k)); [left; eassumption|left; eassumption|].
  rewrite Z.add_comm, (Z.add_comm (_ * _) (N mod _)). exact Ha.
Qed.
Lemma mid_bits a N k t : eqm64 a N → 0 ≤ k → 0 ≤ t → k + t ≤ 64 →
  (a / 2 ^ k) mod 2 ^ t = (N / 2 ^ k) mod 2 ^ t.
Proof.
  intros Ha Hk Ht Hkt. pose proof (low_bits a N (k + t) Ha ltac:(lia)) as Hl.
  rewrite !Z.pow_add_r in Hl by lia. rewrite !Z.rem_mul_r in Hl by (lia || (apply Z.pow_nonzero; lia)).
  rewrite (low_bits a N k Ha) in Hl by lia. nia.
Qed.
Lemma ones_eq t : Z.shiftl 1 t - 1 = Z.ones t.
Proof. unfold Z.ones. lia. Qed.
Lemma low_byte x t : 0 ≤ t ≤ 8 → Z.land (Z.land x (Z.shiftl 1 t - 1)) 255 = x mod 2 ^ t.
Proof.
  intros Ht. rewrite ones_eq. change 255 with (Z.ones 8). rewrite !Z.land_ones by lia.
  apply Z.mod_small. pose proof (Z.mod_pos_bound x (2 ^ t) ltac:(lia)).
  pose proof (Z.pow_le_mono_r 2 t 8). lia.
Qed.

Section convert.
Context (f t : Z) (f_range : 0 < f ≤ 8) (t_range : 0 < t ≤ 8).

(** What the loop keeps: the groups written so far are what was read, but for the last
    bits, which are the lowest of the accumulator whatever was shifted out of it. *)
Record converted (consumed : list Z) (acc bits : Z) (ret : list Z) : Prop := {
  cv_bits : 0 ≤ bits < t;
  cv_acc : eqm64 acc (grouped f consumed);
  cv_ret : grouped t ret = grouped f consumed / 2 ^ bits;
  cv_length : t * Z.of_nat (length ret) + bits = f * Z.of_nat (length consumed);
  cv_groups : Forall (group t) ret;
}.

Lemma emit_groups_spec fuel acc bits ret N : bits ≤ Z.of_nat fuel → 0 ≤ bits ≤ 64 →
  eqm64 acc N → grouped t ret = N / 2 ^ bits → Forall (group t) ret →
  ∃ bits' ret', emit_groups fuel t acc bits ret = (bits', ret') ∧ 0 ≤ bits' < t ∧
    grouped t ret' = N / 2 ^ bits' ∧ Forall (group t) ret' ∧
    t * Z.of_nat (length ret') + bits' = t * Z.of_nat (length ret) + bits.
Proof using t_range.
  revert bits ret. induction fuel as [|fuel IH]; intros bits ret Hf Hb Ha Hr Hg; cbn [emit_groups].
  { exists bits, ret. split_and!; done || lia. }
  destruct (Z.leb_spec t bits) as [Hle|Hlt]; [|exists bits, ret; split_and!; done || lia].
  rewrite low_byte, Z.shiftr_div_pow2 by lia. set (g := (acc / 2 ^ (bits - t)) mod 2 ^ t).
  assert (Hgr : 0 ≤ g < 2 ^ t) by (apply Z.mod_pos_bound; lia).
  destruct (IH (bits - t) (ret ++ [g])) as (bits' & ret' & -> & Hb' & Hr' & Hg' & Hl'); [lia|lia|done| |..].
  - rewrite grouped_snoc, Hr. unfold g. rewrite (mid_bits acc N) by (done || lia).
    rewrite (Z.div_mod (N / 2 ^ (bits - t)) (2 ^ t)) at 2 by lia.
    rewrite Z.div_div, <- Z.pow_add_r by lia. replace (bits - t + t) with bits by lia. lia.
  - apply Forall_app. split; [done|]. by apply Forall_singleton.
  - exists bits', ret'. rewrite Hl', length_app. cbn. split_and!; done || lia.
Qed.

Lemma append_bits acc N v : eqm64 acc N → 0 ≤ v < 2 ^ f →
  eqm64 (Z.lor (wrap64 (Z.shiftl acc f)) v) (N * 2 ^ f + v).
Proof using f_range.
  intros Ha Hv. pose proof (wrap64_eqm (Z.shiftl acc f)) as Hw. set (x := wrap64 _) in *.
  assert (Hlow : Z.land x v = 0).
  { replace v with (Z.land (Z.ones f) v) by (rewrite Z.land_comm, Z.land_ones, Z.mod_small by lia; done).
    rewrite Z.land_assoc, Z.land_ones, (low_bits x _ f Hw), Z.shiftl_mul_pow2, Z.mod_mul by lia. done. }
  pose proof (Z.add_lor_land x v) as Hadd. rewrite Hlow in Hadd. replace (Z.lor x v) with (x + v) by lia.
  rewrite Hw, Z.shiftl_mul_pow2, Ha by lia. done.
Qed.

Lemma convert_loop_spec data consumed acc bits ret : Forall (group f) data →
  converted consumed acc bits ret → ∃ acc' bits' ret',
    convert_loop data f t acc bits ret = Ok (acc', bits', ret') ∧
    converted (consumed ++ data) acc' bits' ret'.
Proof using f_range t_range.
  intros Hd. revert consumed acc bits ret.
  induction Hd as [|v data Hv _ IH]; intros consumed acc bits ret [Hb Ha Hr Hl Hg]; cbn [convert_loop].
  { rewrite app_nil_r. by exists acc, bits, ret. }
  unfold group in Hv. rewrite Z.shiftr_div_pow2, Z.div_small by lia. cbn [negb Z.eqb].
  destruct (emit_groups_spec (Z.to_nat (bits + f)) (Z.lor (wrap64 (Z.shiftl acc f)) v) (bits + f) ret
    (grouped f (consumed ++ [v]))) as (bits' & ret' & -> & Hb' & Hr' & Hg' & Hl'); [lia|lia|..|done|].
  - rewrite grouped_snoc. by apply append_bits.
  - rewrite grouped_snoc, Hr, (Z.add_comm bits f), Z.pow_add_r, <- Z.div_div by lia.
    by rewrite Z.div_add_l, (Z.div_small v), Z.add_0_r by lia.
  - replace (consumed ++ v :: data) with ((consumed ++ [v]) ++ data) by (by rewrite <- app_assoc).
    apply IH. split; [done| |done| |done].
    + rewrite grouped_snoc. by apply append_bits.
    + rewrite Hl', length_app. cbn. lia.
Qed.

Lemma converted_start : converted [] 0 0 [].
Proof using t_range. split; cbn; done || lia. Qed.
Lemma left_over consumed acc bits ret : converted consumed acc bits ret →
  Z.land (wrap64 (Z.shiftl acc (t - bits))) (Z.shiftl 1 t - 1) =
  (grouped f consumed mod 2 ^ bits) * 2 ^ (t - bits).
Proof using t_range.
  intros [Hb Ha _ _ _]. rewrite ones_eq, Z.land_ones by lia.
  rewrite (low_bits _ (grouped f consumed * 2 ^ (t - bits)) t); [|rewrite wrap64_eqm, Z.shiftl_mul_pow2, Ha by lia; done|lia].
  replace (2 ^ t) with (2 ^ bits * 2 ^ (t - bits)) by (rewrite <- Z.pow_add_r by lia; f_equal; lia).
  by rewrite Z.mul_mod_distr_r by lia.
Qed.

(** With padding: the number the groups spell is shifted to fill the last one. *)
Lemma convertBits_padded data : Forall (group f) data → ∃ out pad,
  convertBits data f t true = Ok out ∧ 0 ≤ pad < t ∧ Forall (group t) out ∧
  grouped t out = grouped f data * 2 ^ pad ∧
  t * Z.of_nat (length out) = f * Z.of_nat (length data) + pad.
Proof using f_range t_range.
  intros Hd. destruct (convert_loop_spec data [] 0 0 [] Hd converted_start) as (acc & bits & ret & Hc & Hi).
  unfold convertBits. rewrite Hc. cbn [mbind result_bind]. rewrite (left_over _ _ _ _ Hi). cbn [app] in Hi |- *.
  destruct Hi as [Hb Ha Hr Hl Hg]. destruct (Z.ltb_spec 0 bits) as [Hpos|Hzero].
  - set (r := _ * 2 ^ (t - bits)).
    assert (Hrange : 0 ≤ r < 2 ^ t).
    { unfold r. pose proof (Z.mod_pos_bound (grouped f data) (2 ^ bits) ltac:(lia)).
      replace (2 ^ t) with (2 ^ bits * 2 ^ (t - bits)) by (rewrite <- Z.pow_add_r by lia; f_equal; lia).
      pose proof (Z.pow_pos_nonneg 2 (t - bits) ltac:(lia) ltac:(lia)). nia. }
    assert (H8 : 2 ^ t ≤ 2 ^ 8) by (apply Z.pow_le_mono_r; lia).
    replace (Z.land r 255) with r by (change 255 with (Z.ones 8); rewrite Z.land_ones, Z.mod_small by lia; done).
    exists (ret ++ [r]), (t - bits). split_and!; [done|lia|lia| | |].
    + apply Forall_app. split; [done|]. by apply Forall_singleton.
    + rewrite grouped_snoc, Hr. unfold r.
      replace (2 ^ t) with (2 ^ bits * 2 ^ (t - bits)) by (rewrite <- Z.pow_add_r by lia; f_equal; lia).
      rewrite (Z.div_mod (grouped f data) (2 ^ bits)) at 3 by lia. lia.
    + rewrite length_app. cbn. lia.
  - replace bits with 0 in * by lia. exists ret, 0. rewrite Z.pow_0_r, Z.div_1_r in Hr. split_and!; done || lia.
Qed.
End convert.

(** Bytes regrouped into symbols are read back, however many: bits that leave the
    accumulator at its top are no longer needed. *)
Lemma convertBits_inverse data : Forall is_byte data → ∃ symbols,
  convertBits data 8 5 true = Ok symbols ∧ Forall symbol symbols ∧ convertBits symbols 5 8 false = Ok data.
Proof.
  intros Hd. destruct (convertBits_padded 8 5 ltac:(lia) ltac:(lia) data Hd)
    as (out & pad & Hout & Hpad & Hg & Hv & Hl).
  exists out. split_and!; [done|done|].
  destruct (convert_loop_spec 5 8 ltac:(lia) ltac:(lia) out [] 0 0 [] Hg (converted_start 5 8 ltac:(lia)))
    as (acc & bits & ret & Hc & Hi).
  unfold convertBits. rewrite Hc. cbn [mbind result_bind].
  rewrite (left_over 5 8 ltac:(lia) _ _ _ _ Hi). cbn [app] in Hi |- *. destruct Hi as [Hb Ha Hr Hl' Hg'].
  assert (Hbits : bits = pad ∧ length ret = length data) by lia. destruct Hbits as [-> Hlen].
  rewrite Hv in Hr |- *. rewrite Z.mod_mul, Z.mul_0_l by lia. rewrite Z.div_mul in Hr by lia.
  destruct (Z.leb_spec 5 pad); [lia|]. cbn [negb orb Z.eqb]. f_equal.
  by apply (grouped_inj 8 ltac:(lia)).
Qed.

(** ** Addresses *)

(** The character of a symbol, and an address's text. *)
Definition bech32_char (v : Z) : ascii := default "q"%char (String.get (Z.to_nat v) bech32Charset).
Definition bech32_text (hrp : string) (symbols : list Z) : string :=
  hrp +:+ "1" +:+ String.string_of_list_ascii (bech32_char <$> symbols).
Definition valid_symbols (hrp : string) (symbols : list Z) : Prop :=
  bech32Polymod (bech32HrpExpand hrp ++ symbols) = 1.

(** What the SDK is documented to do. *)
Record Bip173 (bech32_Decode : string → result (Encoding * string * list Z))
    (sdk_ConvertBits : list Z → Z → Z → bool → result (list Z)) : Prop := {
  decodes_valid hrp data checksum : has_byte "1" hrp = false → Forall symbol (data ++ checksum) →
    length checksum = 6%nat → valid_symbols hrp (data ++ checksum) →
    bech32_Decode (bech32_text hrp (data ++ checksum)) = Ok (BECH32, hrp, data);
  regroups symbols : sdk_ConvertBits symbols 5 8 false = convertBits symbols 5 8 false;
}.

Lemma charset_get v : symbol v → String.get (Z.to_nat v) bech32Charset = Some (bech32_char v).
Proof.
  intros Hv. unfold bech32_char. destruct (String.get _ _) eqn:Hg; [done|]. exfalso.
  assert (Hall : forallb (λ i, bool_decide (String.get i bech32Charset ≠ None)) (seq 0 32) = true)
    by (vm_compute; reflexivity).
  rewrite forallb_forall in Hall. specialize (Hall (Z.to_nat v)). rewrite bool_decide_eq_true in Hall.
  apply Hall; [apply in_seq; unfold symbol in Hv; lia|done].
Qed.
Lemma charset_visible v : symbol v → visible (bech32_char v) = true.
Proof.
  intros Hv. assert (Hall : forallb (λ i, visible (bech32_char (Z.of_nat i))) (seq 0 32) = true)
    by (vm_compute; reflexivity).
  rewrite forallb_forall in Hall. specialize (Hall (Z.to_nat v)). unfold symbol in Hv.
  rewrite Z2Nat.id in Hall by lia. apply Hall, in_seq. lia.
Qed.
Lemma bech32_text_trimmed symbols : Forall symbol symbols →
  TrimSpace (bech32_text "ckt" symbols) = bech32_text "ckt" symbols.
Proof.
  intros Hs. apply TrimSpace_all_visible. unfold bech32_text. rewrite !all_bytes_app.
  replace (all_bytes visible "ckt") with true by reflexivity.
  replace (all_bytes visible "1") with true by reflexivity. cbn [andb].
  induction Hs as [|v l Hv _ IH]; [done|].
  cbn [fmap list_fmap String.string_of_list_ascii all_bytes] in *. by rewrite charset_visible.
Qed.

Lemma hex_decode_bytes_len n s l : (String.length s ≤ n)%nat → hex_decode s = Ok l → Forall is_byte l.
Proof.
  revert s l. induction n as [|n IH]; intros [|a [|b s]] l Hn; cbn in *; try (intros [= <-]; constructor);
    try lia; try (by destruct (hex_nibble a)).
  destruct (hex_nibble a) as [hi|] eqn:Ha; [|done]. destruct (hex_nibble b) as [lo|] eqn:Hb; [|done].
  destruct (hex_decode s) as [rest|] eqn:Hr; [|done]. intros [= <-].
  constructor; [|by apply (IH s); [lia|]].
  unfold hex_nibble, digit_of in Ha, Hb. unfold is_byte. repeat case_match; simplify_eq; lia.
Qed.
Lemma hex_decode_bytes s l : hex_decode s = Ok l → Forall is_byte l.
Proof. by apply (hex_decode_bytes_len (String.length s)). Qed.

(** The address of twenty bytes. *)
Lemma derived_text lockArgs args : HasPrefix (ToLower (TrimSpace lockArgs)) "0x" = true →
  hex_decode (String.substring 2 (String.length (TrimSpace lockArgs) - 2) (TrimSpace lockArgs)) = Ok args →
  length args = 20%nat → ∃ data,
    convertBits ([1; 0] ++ args) 8 5 true = Ok data ∧ Forall symbol data ∧
    Forall symbol (data ++ bech32CreateChecksum "ckt" data) ∧
    valid_symbols "ckt" (data ++ bech32CreateChecksum "ckt" data) ∧
    deriveCKBTestnetAddressFromLockArgs lockArgs =
      Ok (bech32_text "ckt" (data ++ bech32CreateChecksum "ckt" data)).
Proof.
  intros Hp Hargs Hlen. pose proof (hex_decode_bytes _ _ Hargs) as Hbytes.
  destruct (convertBits_inverse ([1; 0] ++ args)) as (data & Hdata & Hsym & _).
  { constructor; [unfold is_byte; lia|]. constructor; [unfold is_byte; lia|done]. }
  assert (Hexp : Forall is_byte (bech32HrpExpand "ckt" ++ data)).
  { apply Forall_app. split; [vm_compute; repeat constructor; done|].
    eapply Forall_impl; [exact Hsym|apply symbol_byte]. }
  pose proof (checksum_completes _ Hexp) as Hvalid.
  set (p := Z.lxor _ 1) in Hvalid.
  assert (Hck : bech32CreateChecksum "ckt" data = six_symbols p).
  { unfold bech32CreateChecksum, six_symbols, p. by rewrite <- app_assoc. }
  assert (Hall : Forall symbol (data ++ bech32CreateChecksum "ckt" data)).
  { apply Forall_app. split; [done|]. rewrite Hck. apply six_symbols_spec. subst p.
    apply fits30_lxor; [|unfold fits30; lia]. apply polymod_range; [unfold fits30; lia|].
    apply Forall_app. split; [done|]. repeat constructor; unfold is_byte; lia. }
  exists data. split_and!; [done..| |].
  { unfold valid_symbols. by rewrite Hck, app_assoc. }
  unfold deriveCKBTestnetAddressFromLockArgs. rewrite Hp, Hargs. cbn [negb mbind result_bind].
  rewrite Hlen. cbn [Nat.eqb negb]. rewrite Hdata. cbn [mbind result_bind].
  rewrite (proj2 (mapM_Some _ _ (bech32_char <$> (data ++ bech32CreateChecksum "ckt" data)))); [done|].
  clear -Hall. induction Hall as [|v l Hv _ IH]; constructor; [by apply charset_get|done].
Qed.

(** C36. An address derived from a lock's twenty bytes of arguments is read back as the
    script of that lock, and deriving from what was read gives the address again. *)
Theorem derived_addresses_name_scripts bech32_Decode sdk_ConvertBits DeserializeHashTypeByte
    lockArgs args :
  Bip173 bech32_Decode sdk_ConvertBits →
  HasPrefix (ToLower (TrimSpace lockArgs)) "0x" = true →
  hex_decode (String.substring 2 (String.length (TrimSpace lockArgs) - 2) (TrimSpace lockArgs)) = Ok args →
  length args = 20%nat →
  ∃ address script, deriveCKBTestnetAddressFromLockArgs lockArgs = Ok address
    ∧ decodeCKBAddressToRawScript bech32_Decode sdk_ConvertBits DeserializeHashTypeByte address = Ok script
    ∧ script = mkRawScript "0x9bd7e06f3ecf4be0f2fcd2188b23f1b9fcc88e5d4b65a8637b17723bbda3cce8" "type"
        (hex_text_of args)
    ∧ deriveCKBTestnetAddressFromLockArgs (rs_Args script) = Ok address.
Proof.
  intros [Hdec Hregroup] Hp Hargs Hlen. pose proof (hex_decode_bytes _ _ Hargs) as Hbytes.
  destruct (derived_text lockArgs args Hp Hargs Hlen) as (data & Hdata & Hsym & Hall & Hvalid & Haddr).
  exists (bech32_text "ckt" (data ++ bech32CreateChecksum "ckt" data)). eexists.
  split_and!; [done| |reflexivity|]; cbn [rs_Args].
  - unfold decodeCKBAddressToRawScript. rewrite bech32_text_trimmed by done.
    rewrite Hdec by done. cbn [mbind result_bind]. replace (releaseNetworkFromAddressHRP "ckt")
      with (Ok NetworkTest) by (vm_compute; reflexivity). cbn [mbind result_bind].
    destruct (convertBits_inverse ([1; 0] ++ args)) as (data' & Hdata' & _ & Hback).
    { constructor; [unfold is_byte; lia|]. constructor; [unfold is_byte; lia|done]. }
    rewrite Hdata in Hdata'. injection Hdata' as <-. rewrite Hregroup, Hback. done.
  - assert (Htrim : TrimSpace (hex_text_of args) = hex_text_of args).
    { apply TrimSpace_all_visible. unfold hex_text_of. rewrite all_bytes_app, hex_visible by done. done. }
    assert (Hlower : HasPrefix (ToLower (hex_text_of args)) "0x" = true) by done.
    assert (Hsub : String.substring 2 (String.length (hex_text_of args) - 2) (hex_text_of args) = hex_encode args).
    { unfold hex_text_of. change ("0x" +:+ ?s) with (String "0" (String "x" s)). cbn [String.length Nat.sub].
      cbn [String.substring]. rewrite Nat.sub_0_r. clear.
      generalize (hex_encode args). intros s. induction s as [|a s IH]; [done|]. cbn. by rewrite IH. }
    destruct (derived_text (hex_text_of args) args) as (data' & Hdata' & _ & _ & _ & ->); rewrite ?Htrim; try done.
    { rewrite Hsub. by apply hex_decode_encode. }
    rewrite Hdata in Hdata'. by injection Hdata' as <-.
Qed.

(** The checksum of a derived address notices a misreading: an address is the text of
    symbols that check, and after a change of up to six neighbouring ones they do not. *)
Theorem misread_addresses_are_noticed lockArgs address :
  deriveCKBTestnetAddressFromLockArgs lockArgs = Ok address →
  ∃ symbols, address = bech32_text "ckt" symbols ∧ length symbols = 42%nat ∧ valid_symbols "ckt" symbols
    ∧ ∀ before read misread after, symbols = before ++ read ++ after →
      length misread = length read → (length read ≤ 6)%nat → Forall symbol misread → misread ≠ read →
      ¬ valid_symbols "ckt" (before ++ misread ++ after).
Proof.
  intros Hd. unfold deriveCKBTestnetAddressFromLockArgs in Hd.
  destruct (HasPrefix _ _) eqn:Hp; [|done]. cbn [negb] in Hd.
  destruct (hex_decode _) as [args|] eqn:Hargs; [|done]. cbn [mbind result_bind] in Hd.
  destruct (Nat.eqb_spec (length args) 20) as [Hlen|]; [|done]. cbn [negb] in Hd.
  destruct (derived_text lockArgs args Hp Hargs Hlen) as (data & Hdata & Hsym & Hall & Hvalid & Haddr).
  unfold deriveCKBTestnetAddressFromLockArgs in Haddr. rewrite Hp, Hargs in Haddr.
  cbn [negb mbind result_bind] in Haddr. rewrite Hlen in Haddr. cbn [Nat.eqb negb] in Haddr.
  assert (Hd' : @Ok string address = Ok (bech32_text "ckt" (data ++ bech32CreateChecksum "ckt" data)))
    by (by rewrite <- Hd).
  injection Hd' as ->. set (symbols := data ++ _) in *. exists symbols. split_and!; [done| |done|].
  - destruct (convertBits_padded 8 5 ltac:(lia) ltac:(lia) ([1; 0] ++ args)) as (out & pad & Ho & Hpad & _ & _ & Hl).
    { constructor; [unfold group; lia|]. constructor; [unfold group; lia|]. exact (hex_decode_bytes _ _ Hargs). }
    rewrite Hdata in Ho. injection Ho as <-. unfold symbols. rewrite length_app in Hl |- *. cbn in Hl |- *. lia.
  - intros before read misread after Hsplit Hlm H6 Hm Hne Hbad. unfold valid_symbols in *.
    rewrite Hsplit in Hvalid, Hall. apply Forall_app in Hall as [Hb Hall]. apply Forall_app in Hall as [Hr Ha].
    apply (burst_changes (bech32HrpExpand "ckt" ++ before) read misread after 1); try done.
    + apply Forall_app. split; [apply Forall_app; split; [vm_compute; repeat constructor; done|]|apply Forall_app; split];
        (eapply Forall_impl; [eassumption|apply symbol_byte]).
    + rewrite <- !app_assoc. unfold bech32Polymod in *. by rewrite Hvalid, Hbad.
Qed.

(** A decoder as BIP-173 describes it. *)
Definition symbol_of (a : ascii) : option Z :=
  i ← list_find (eq a) (String.list_ascii_of_string bech32Charset); Some (Z.of_nat i.1).
Definition bip173_decode (s : string) : result (Encoding * string * list Z) :=
  match cut_at "1" s with
  | (hrp, Some text) =>
      match mapM symbol_of (String.list_ascii_of_string text) with
      | Some symbols =>
          if bech32Polymod (bech32HrpExpand hrp ++ symbols) =? 1
          then Ok (BECH32, hrp, take (length symbols - 6) symbols) else Err (Errf "invalid checksum")
      | None => Err (Errf "invalid character")
      end
  | (_, None) => Err (Errf "no separator")
  end.
Lemma symbol_of_char v : symbol v → symbol_of (bech32_char v) = Some v.
Proof.
  intros Hv. assert (Hall : forallb (λ i, bool_decide (symbol_of (bech32_char (Z.of_nat i)) = Some (Z.of_nat i)))
    (seq 0 32) = true) by (vm_compute; reflexivity).
  rewrite forallb_forall in Hall. specialize (Hall (Z.to_nat v)). unfold symbol in Hv.
  rewrite Z2Nat.id, bool_decide_eq_true in Hall by lia. apply Hall, in_seq. lia.
Qed.
Lemma bip173_decode_ok : Bip173 bip173_decode convertBits.
Proof.
  split; [|done]. intros hrp data checksum Hh Hs Hl Hv. unfold bip173_decode, bech32_text.
  change ("1" +:+ ?s) with (String "1" s). rewrite cut_at_app by done.
  rewrite String.list_ascii_of_string_of_list_ascii.
  rewrite (proj2 (mapM_Some symbol_of _ (data ++ checksum))).
  - rewrite (proj2 (Z.eqb_eq _ _) Hv). rewrite length_app, Hl. do 3 f_equal.
    replace (length data + 6 - 6)%nat with (length data) by lia. apply take_app_length.
  - clear -Hs. induction Hs as [|v l Hv _ IH]; constructor; [by apply symbol_of_char|done].
Qed.
Definition demo_lock_args : string := " 0x00112233445566778899AABBccddeeff00112233 ".
Definition demo_lock_bytes : list Z :=
  [0; 17; 34; 51; 68; 85; 102; 119; 136; 153; 170; 187; 204; 221; 238; 255; 0; 17; 34; 51].

Lemma derived_addresses_name_scripts_witness : ∃ address script,
  deriveCKBTestnetAddressFromLockArgs demo_lock_args = Ok address
    ∧ decodeCKBAddressToRawScript bip173_decode convertBits (λ _, Err ErrUnauthorized) address = Ok script
    ∧ script = mkRawScript "0x9bd7e06f3ecf4be0f2fcd2188b23f1b9fcc88e5d4b65a8637b17723bbda3cce8" "type"
        (hex_text_of demo_lock_bytes)
    ∧ deriveCKBTestnetAddressFromLockArgs (rs_Args script) = Ok address.
Proof.
  apply (derived_addresses_name_scripts bip173_decode convertBits (λ _, Err ErrUnauthorized)
    demo_lock_args demo_lock_bytes); [apply bip173_decode_ok|vm_compute; reflexivity..].
Defined.

Definition demo_address : string := "ckt1qyqqqyfzxdz92enh3zv64w7vmhh07qq3yges5mjhvh".
Lemma misread_addresses_are_noticed_witness :
  ∃ symbols, demo_address = bech32_text "ckt" symbols ∧ length symbols = 42%nat ∧ valid_symbols "ckt" symbols
    ∧ ∀ before read misread after, symbols = before ++ read ++ after →
      length misread = length read → (length read ≤ 6)%nat → Forall symbol misread → misread ≠ read →
      ¬ valid_symbols "ckt" (before ++ misread ++ after).
Proof. apply (misread_addresses_are_noticed demo_lock_args demo_address). vm_compute. reflexivity. Defined.
