(* ===== verification/ReleaseClient.v ===== *)
(** * The client of the release tooling (internal/release/smoke.go, idgen.go)

    The requests with which the release checks drive the running services, and what is
    read of the answers.  A check runs over the history of what it did: the requests
    it sent, its readings of the clock, its pauses.  The services, the clock and the
    end of the context are functions of that history; an answer is a status, a body's
    text and the JSON value it parses to.  An address that is no URL is a request that
    fails; the clock is in UTC.  Settings are read from the environment. *)

From Stdlib Require Import Ascii.
From S2P Require Import Prelude GoNum GoText Core GoTime Http CodeAgent Traces Fnn.

Abbreviation Time := Z (only parsing).

(** ** What happens during a check *)

Record Outgoing := mkOutgoing {
  og_Method : string;
  og_Base : string;
  og_Path : string;
  og_Query : list (string * string);   (* in the order of [url.Values.Encode] *)
  og_Headers : list (string * string);
  og_Body : option json;
}.
Inductive Event :=
  | Sent (o : Outgoing)
  | Posted (r : Request)  (* by the client of the Fiber adapter *)
  | Looked                (* [time.Now] *)
  | Waited (delay : Z).   (* a timer, or the end of the context *)

Record World := mkWorld {
  wd_answer : list Event → Outgoing → Reply;
  wd_post : list Event → Request → Reply;
  wd_now : list Event → Time;
  wd_fires : list Event → bool;
}.
Abbreviation R := (ST (list Event)).

(** ** Errors *)

(** [errors.As] for a [statusError] *)
Fixpoint status_of (e : error) : option Z :=
  match e with
  | statusError code => Some code
  | EWrap e _ | EPrefix _ e => status_of e
  | _ => None
  end.
Definition isStatusCode (e : error) (statusCode : Z) : bool :=
  bool_decide (status_of e = Some statusCode).
Definition isRetryableReleaseStatus (e : error) : bool :=
  match status_of e with Some code => StatusInternalServerError <=? code | None => false end.
Definition errorContainsFold (e : error) (fragment : string) : bool :=
  Contains (ToLower (error_text e)) (ToLower fragment).

(** ** Values *)

Record actorIdentity := mkIdentity {
  ai_Token : string;
  ai_OrgID : string;
  ai_Email : string;
  ai_Password : string;
}.
Definition org_only (orgID : string) : actorIdentity := mkIdentity "" orgID "" "".

Definition bearer (token : string) : string := "Bearer " +:+ TrimSpace token.
Definition authHeaders (token : string) : list (string * string) :=
  if blank token then [] else [("Authorization", bearer token)].
Definition service_header (token : string) : list (string * string) :=
  [(HeaderName, TrimSpace token)].
Definition if_blank (token key value : string) : list (string * json) :=
  if blank token then [(key, JStr value)] else [].
(** The first that is not blank, trimmed. *)
Fixpoint firstNonEmptyString (values : list string) : string :=
  match values with
  | [] => ""
  | value :: values =>
      let trimmed := TrimSpace value in
      if String.eqb trimmed "" then firstNonEmptyString values else trimmed
  end.

(** Fields of answers: a string in an object, or deeper. *)
Definition inner_string (outer key : string) (body : option json) : option string :=
  f ← body_fields body; o ← object_field outer f; string_field key o.
Definition top_string (key : string) (body : option json) : option string :=
  f ← body_fields body; string_field key f.
Definition policy_decision (body : option json) : option string :=
  f ← body_fields body; run ← object_field "run" f; result ← object_field "result" run;
  string_field "policy_decision" result.
(** [[]json.RawMessage]: as many as there are; null is none. *)
Definition record_count (body : option json) : option nat :=
  f ← body_fields body;
  l ← decode_field [] (λ v, match v with JArr l => Some l | _ => None end) "records" f;
  Some (length l).

Section client.
Context (w : World).

Definition time_now : R Time := λ h, (h ++ [Looked], Ok (wd_now w h)).
Definition Do (o : Outgoing) : R (Z * string * option json) :=
  λ h, (h ++ [Sent o], wd_answer w h o).
Definition sleepWithContext (delay : Z) : R () :=
  λ h, (h ++ [Waited delay], if wd_fires w h then Ok tt else Err (Errf "context canceled")).
Definition nanoSuffix : R string := now ← time_now; mret (pretty now).

Definition service_base (baseURL : string) : string := TrimRight "/" baseURL.
Definition get (baseURL path : string) (query headers : list (string * string)) : Outgoing :=
  mkOutgoing "GET" (service_base baseURL) path query headers None.
Definition decoded {A} (target : option json → option A) (body : option json) : R A :=
  match target body with Some x => mret x | None => throw (Errf "invalid json") end.
(** A GET that wants the status 200. *)
Definition get_ok {A} (refused : string) (o : Outgoing) (target : option json → option A) : R A :=
  '(status, _, body) ← Do o;
  if negb (status =? StatusOK) then throw (Errf (refused +:+ " status " +:+ pretty status))
  else decoded target body.

Definition json_headers : list (string * string) :=
  [("Content-Type", "application/json"); ("Accept", "application/json")].
Definition nothing (_ : option json) : option () := Some tt.
Definition postJSONWithHeaders {A} (baseURL path : string) (headers : list (string * string))
    (payload : json) (target : option json → option A) : R A :=
  '(status, _, body) ← Do (mkOutgoing "POST" (service_base baseURL) path []
    (json_headers ++ filter (λ kv, blank kv.2 = false) headers) (Some payload));
  if StatusBadRequest <=? status then throw (statusError status) else decoded target body.
Definition postJSON {A} (baseURL path : string) (payload : json)
    (target : option json → option A) : R A :=
  postJSONWithHeaders baseURL path [] payload target.

(** A created thing and its identifier, which must be there. *)
Definition created (what missing : string) (m : R string) : R string :=
  id ← or_fail m what;
  if String.eqb id "" then throw (Errf (what +:+ ": missing " +:+ missing)) else mret id.

(** ** The calls of smoke.go *)

Definition health (baseURL : string) : R () :=
  get_ok "unexpected" (get baseURL "/healthz" [] []) nothing.

Definition smoke_milestones : json :=
  JArr [JObj [("id", JStr "ms_1"); ("title", JStr "smoke milestone");
              ("basePriceCents", JInt 1200); ("budgetCents", JInt 1800)]].
Definition createOrder (baseURL : string) (buyer : actorIdentity) (providerOrgID : string) : R string :=
  created "create order" "order id"
    (postJSONWithHeaders baseURL "/api/v1/orders" (authHeaders (ai_Token buyer))
      (JObj ([("providerOrgId", JStr providerOrgID); ("title", JStr "release smoke order");
              ("fundingMode", JStr "credit"); ("creditLineId", JStr "credit_1");
              ("milestones", smoke_milestones)]
             ++ if_blank (ai_Token buyer) "buyerOrgId" (ai_OrgID buyer)))
      (inner_string "order" "id")).

Definition createRFQ (baseURL : string) (buyer : actorIdentity) : R string :=
  now ← time_now;
  created "create rfq" "rfq id"
    (postJSONWithHeaders baseURL "/api/v1/rfqs" (authHeaders (ai_Token buyer))
      (JObj ([("title", JStr "release smoke rfq"); ("category", JStr "agent-ops");
              ("scope", JStr "Need a carrier-ready operator to run a one-step smoke order.");
              ("budgetCents", JInt 1800);
              ("responseDeadlineAt", JStr (FormatRFC3339 (now + day_ns)))]
             ++ if_blank (ai_Token buyer) "buyerOrgId" (ai_OrgID buyer)))
      (inner_string "rfq" "id")).
Definition createBid (baseURL : string) (provider : actorIdentity) (rfqID : string) : R string :=
  created "create bid" "bid id"
    (postJSONWithHeaders baseURL ("/api/v1/rfqs/" +:+ rfqID +:+ "/bids")
      (authHeaders (ai_Token provider))
      (JObj ([("message", JStr "release smoke provider bid"); ("quoteCents", JInt 1200);
              ("milestones", smoke_milestones)]
             ++ if_blank (ai_Token provider) "providerOrgId" (ai_OrgID provider)))
      (inner_string "bid" "id")).
Definition award_with (baseURL token rfqID : string) (payload : list (string * json)) : R string :=
  created "award rfq" "order id"
    (postJSONWithHeaders baseURL ("/api/v1/rfqs/" +:+ rfqID +:+ "/award") (authHeaders token)
      (JObj payload) (inner_string "order" "id")).
Definition awardRFQ (baseURL token rfqID bidID : string) : R string :=
  award_with baseURL token rfqID
    [("bidId", JStr bidID); ("fundingMode", JStr "credit"); ("creditLineId", JStr "credit_1")].
Definition createMarketplaceOrder (baseURL : string) (buyer provider : actorIdentity) : R string :=
  rfqID ← createRFQ baseURL buyer;
  bidID ← createBid baseURL provider rfqID;
  awardRFQ baseURL (ai_Token buyer) rfqID bidID.

Definition settle_payload (orderID : string) : json :=
  JObj [("orderId", JStr orderID); ("milestoneId", JStr "ms_1");
        ("eventType", JStr "milestone_ready"); ("summary", JStr "release smoke settlement")].
Definition settleViaExecution (baseURL token orderID : string) : R () :=
  postJSONWithHeaders baseURL "/v1/carrier/events" (service_header token)
    (settle_payload orderID) nothing.
Definition invoice_payload (orderID buyerOrgID providerOrgID : string) : json :=
  JObj [("orderId", JStr orderID); ("milestoneId", JStr "ms_1"); ("buyerOrgId", JStr buyerOrgID);
        ("providerOrgId", JStr providerOrgID); ("asset", JStr "CKB"); ("amount", JStr "12.5")].
Definition createInvoice (baseURL token orderID buyerOrgID providerOrgID : string) : R string :=
  created "create invoice" "invoice"
    (postJSONWithHeaders baseURL "/v1/invoices" (service_header token)
      (invoice_payload orderID buyerOrgID providerOrgID) (top_string "invoice")).
Definition syncSettledFeed (baseURL token : string) : R () :=
  get_ok "settled feed"
    (get baseURL "/v1/settled-feed" [] (if blank token then [] else service_header token)) nothing.

Definition requestWithdrawal (baseURL : string) (provider : actorIdentity) : R string :=
  created "request withdrawal" "id"
    (postJSONWithHeaders baseURL "/v1/withdrawals" (authHeaders (ai_Token provider))
      (JObj ([("asset", JStr "USDI"); ("amount", JStr "10");
              ("destination", JObj [("kind", JStr "PAYMENT_REQUEST");
                                    ("paymentRequest", JStr "fiber:invoice:example")])]
             ++ if_blank (ai_Token provider) "providerOrgId" (ai_OrgID provider)))
      (top_string "id")).
Definition syncWithdrawals (baseURL : string) (provider : actorIdentity) : R () :=
  get_ok "withdrawal status sync"
    (get baseURL "/v1/withdrawals/status"
      (if blank (ai_Token provider) then [("providerOrgId", ai_OrgID provider)] else [])
      (authHeaders (ai_Token provider))) nothing.

Definition verify_carrier (baseURL : string) (hostID agentID backend workspaceRoot : string) : R string :=
  _ ← get_ok "codeagent health" (get baseURL
    ("/v1/carrier/codeagent/health?hostId=" +:+ hostID +:+ "&agentId=" +:+ agentID +:+ "&backend=" +:+
     backend +:+ "&workspaceRoot=" +:+ workspaceRoot) [] []) nothing;
  created "carrier run" "policy decision"
    (postJSON baseURL "/v1/carrier/codeagent/run"
      (JObj [("hostId", JStr hostID); ("agentId", JStr agentID); ("backend", JStr backend);
             ("workspaceRoot", JStr workspaceRoot); ("capability", JStr "run_shell");
             ("command", JStr "pwd")]) policy_decision).
Definition verifyCarrier (baseURL : string) : R string :=
  verify_carrier baseURL "host_1" "agent_1" "codex" "/workspace".

(** Filters are given in the order of their keys; blank ones are left out. *)
Definition funding_records (baseURL token : string) (filters : list (string * string)) : Outgoing :=
  get baseURL "/v1/funding-records" (filter (λ kv, blank kv.2 = false) filters) (authHeaders token).
Definition countFundingRecords (baseURL token : string) (filters : list (string * string)) : R nat :=
  get_ok "funding records" (funding_records baseURL token filters) record_count.

Definition capitalized (kind : string) : string :=
  ToUpper (String.substring 0 1 kind) +:+ String.substring 1 (String.length kind - 1) kind.
Definition session_of (body : option json) : option (string * string) :=
  f ← body_fields body; org ← object_field "organization" f; session ← object_field "session" f;
  id ← string_field "id" org; token ← string_field "token" session; Some (token, id).
Definition smoke_password : string := "correct horse battery staple 123".
Definition createIAMUser (baseURL kind suffix : string) : R actorIdentity :=
  let email := kind +:+ "-" +:+ suffix +:+ "@example.com" in
  '(token, orgID) ← postJSON baseURL "/v1/signup"
    (JObj [("email", JStr email); ("password", JStr smoke_password);
           ("name", JStr (capitalized kind +:+ " User"));
           ("organizationName", JStr (capitalized kind +:+ " Org " +:+ suffix));
           ("organizationKind", JStr kind)]) session_of;
  if blank token then throw (Errf "missing iam session token")
  else if blank orgID then throw (Errf "missing iam organization id")
  else mret (mkIdentity token orgID email smoke_password).
End client.

(** ** Settings *)

Section settings.
Context (getenv : string → string).
Definition envBool (key : string) : bool :=
  existsb (String.eqb (ToLower (TrimSpace (getenv key)))) ["1"; "true"; "yes"; "on"].
Definition envIntOrDefault (key : string) (fallback : Z) : Z :=
  let raw := TrimSpace (getenv key) in
  if String.eqb raw "" then fallback
  else match ParseInt raw with
       | (parsed, None) => if parsed <=? 0 then fallback else parsed
       | (_, Some _) => fallback
       end.
Definition splitCSV (value : string) : list string :=
  let trimmed := TrimSpace value in
  if String.eqb trimmed "" then []
  else filter (λ item, item ≠ "") (TrimSpace <$> Split "," trimmed).
End settings.

(** ** Polling until a deadline *)

Inductive Polled (A : Type) := Done (x : A) | Again (late : error).
Arguments Done {A}.
Arguments Again {A}.

(** The loop of the waits: look, and pause unless the deadline has passed, when what was
    missing is the error.  The deadline ends it before the fuel, see [polls_end]. *)
Fixpoint poll {A} (w : World) (fuel : nat) (deadline delay : Z) (look : R (Polled A)) : R A :=
  match fuel with
  | O => throw out_of_fuel
  | S fuel =>
      p ← look;
      match p with
      | Done x => mret x
      | Again late =>
          now ← time_now w;
          if deadline <? now then throw late
          else _ ← sleepWithContext w delay; poll w fuel deadline delay look
      end
  end.

(** ** What the client sends, and what its results rest on *)

Definition sends (Q : Outgoing → Prop) {A} (m : R A) : Prop :=
  emits (λ e, match e with Sent o => Q o | _ => True end) m.

Section requests.
Context (w : World) (Q : Outgoing → Prop).
Lemma sends_bind {A B} (m : R A) (f : A → R B) : sends Q m → (∀ x, sends Q (f x)) → sends Q (m ≫= f).
Proof. apply emits_bind. Qed.
Lemma sends_now : sends Q (time_now w).
Proof. by apply emits_event. Qed.
Lemma sends_sleep d : sends Q (sleepWithContext w d).
Proof. by apply emits_event. Qed.
Lemma sends_Do o : Q o → sends Q (Do w o).
Proof. intros Ho. by apply emits_event. Qed.
Lemma sends_decoded {A} (target : option json → option A) body : sends Q (decoded target body).
Proof. unfold decoded. destruct (target body); [apply emits_ret|apply emits_throw]. Qed.
Lemma sends_get {A} refused o (target : option json → option A) : Q o → sends Q (get_ok w refused o target).
Proof.
  intros Ho. apply sends_bind; [by apply sends_Do|]. intros [[status text] body].
  destruct (negb _); [apply emits_throw|apply sends_decoded].
Qed.
Definition post_request (baseURL path : string) (headers : list (string * string)) (payload : json) : Outgoing :=
  mkOutgoing "POST" (service_base baseURL) path []
    (json_headers ++ filter (λ kv, blank kv.2 = false) headers) (Some payload).
Lemma sends_post {A} baseURL path headers payload (target : option json → option A) :
  Q (post_request baseURL path headers payload) →
  sends Q (postJSONWithHeaders w baseURL path headers payload target).
Proof.
  intros Ho. apply sends_bind; [by apply sends_Do|]. intros [[status text] body].
  destruct (_ <=? _); [apply emits_throw|apply sends_decoded].
Qed.
Lemma sends_created what missing m : sends Q m → sends Q (created what missing m).
Proof.
  intros Hm. apply sends_bind; [by apply emits_or_fail|]. intros id.
  destruct (String.eqb id ""); [apply emits_throw|apply emits_ret].
Qed.
End requests.
Section plain.
Context (Q : Outgoing → Prop).
Lemma sends_ret {A} (x : A) : sends Q (mret x).
Proof. apply emits_ret. Qed.
Lemma sends_throw {A} e : sends Q (throw e : R A).
Proof. apply emits_throw. Qed.
Lemma sends_lift {A} (r : result A) : sends Q (lift r).
Proof. apply emits_lift. Qed.
Lemma sends_fail_if b e : sends Q (fail_if b e).
Proof. apply emits_fail_if. Qed.
Lemma sends_attempt {A} (m : R A) : sends Q m → sends Q (attempt m).
Proof. apply emits_attempt. Qed.
Lemma sends_or_fail {A} (m : R A) msg : sends Q m → sends Q (or_fail m msg).
Proof. apply emits_or_fail. Qed.
Lemma sends_for_each {A} (l : list A) (f : A → R ()) : (∀ x, sends Q (f x)) → sends Q (for_each l f).
Proof.
  intros Hf. induction l as [|x l IH]; [apply emits_ret|]. by apply sends_bind.
Qed.
Lemma sends_run {A} (m : R A) h h' r : sends Q m → m h = (h', r) →
  ∃ t, h' = h ++ t ∧ ∀ o, Sent o ∈ t → Q o.
Proof.
  intros Hs Hr. destruct (emits_run _ _ _ _ _ Hs Hr) as (t & -> & Ht). exists t. split; [done|].
  intros o Ho. rewrite Forall_forall in Ht. exact (Ht _ Ho).
Qed.
Lemma sends_prefix {A} (m : R A) h h' r : sends Q m → m h = (h', r) → h `prefix_of` h'.
Proof. apply emits_prefix. Qed.
Lemma sends_weaken {A} (Q' : Outgoing → Prop) (m : R A) : sends Q m → (∀ o, Q o → Q' o) → sends Q' m.
Proof. intros Hm HQ. eapply emits_weaken; [exact Hm|]. intros []; auto. Qed.
End plain.
Create HintDb sends.
#[export] Hint Resolve sends_ret sends_throw sends_lift sends_fail_if sends_now sends_sleep
  sends_decoded : sends.
(** The requests of a computation, by its structure; what is known of a part is a hint. *)
Ltac solve_sends :=
  unfold postJSON;
  repeat match goal with
  | |- ∀ _, _ => intro
  | |- sends _ _ => solve [auto with sends nocore]
  | |- sends _ (get_ok _ _ _ _) => apply sends_get
  | |- sends _ (postJSONWithHeaders _ _ _ _ _ _) => apply sends_post
  | |- sends _ (created _ _ _) => apply sends_created
  | |- sends _ (Do _ _) => apply sends_Do
  | |- sends _ (attempt _) => apply sends_attempt
  | |- sends _ (or_fail _ _) => apply sends_or_fail
  | |- sends _ (for_each _ _) => apply sends_for_each
  | |- sends _ (_ ≫= _) => apply sends_bind
  | |- sends _ (match ?x with _ => _ end) => destruct x
  end.

(** A request of the history was answered so. *)
Definition answered (w : World) (h : list Event) (o : Outgoing) (P : Z → option json → Prop) : Prop :=
  ∃ before status text body, (before ++ [Sent o]) `prefix_of` h
    ∧ wd_answer w before o = Ok (status, text, body) ∧ P status body.

Section answers.
Context (w : World).
Lemma answered_later h h' o P : answered w h o P → h `prefix_of` h' → answered w h' o P.
Proof.
  intros (before & status & text & body & Hb & Hr & HP) Hh. exists before, status, text, body.
  split; [by etransitivity|done].
Qed.
Lemma decoded_Ok {A} (target : option json → option A) body h h' x :
  decoded target body h = (h', Ok x) → h' = h ∧ target body = Some x.
Proof. unfold decoded. destruct (target body); [|done]. by intros [= -> ->]. Qed.
Lemma get_ok_Ok {A} refused o (target : option json → option A) h h' x :
  get_ok w refused o target h = (h', Ok x) →
  h' = h ++ [Sent o] ∧ answered w h' o (λ status body, status = StatusOK ∧ target body = Some x).
Proof.
  intros (h1 & [[status text] body] & Hd & Hk)%bind_Ok. injection Hd as <- Hd.
  destruct (Z.eqb_spec status StatusOK) as [->|]; cbn [negb] in Hk; [|done].
  apply decoded_Ok in Hk as [-> Hx]. split; [done|].
  by exists h, StatusOK, text, body.
Qed.
Lemma post_Ok {A} baseURL path headers payload (target : option json → option A) h h' x :
  postJSONWithHeaders w baseURL path headers payload target h = (h', Ok x) →
  h' = h ++ [Sent (post_request baseURL path headers payload)] ∧
  answered w h' (post_request baseURL path headers payload)
    (λ status body, status < StatusBadRequest ∧ target body = Some x).
Proof.
  intros (h1 & [[status text] body] & Hd & Hk)%bind_Ok. injection Hd as <- Hd.
  destruct (Z.leb_spec StatusBadRequest status) as [|Hs]; [done|].
  apply decoded_Ok in Hk as [-> Hx]. split; [done|]. by exists h, status, text, body.
Qed.
(** A refusal is a [statusError], and nothing else is. *)
Lemma post_status {A} baseURL path headers payload (target : option json → option A) h h' code :
  (∀ h o e, wd_answer w h o = Err e → status_of e = None) →
  (∃ e, postJSONWithHeaders w baseURL path headers payload target h = (h', Err e) ∧ status_of e = Some code) →
  StatusBadRequest ≤ code ∧ ∃ text body,
    wd_answer w h (post_request baseURL path headers payload) = Ok (code, text, body).
Proof.
  intros Hplain (e & [Hd|([[status text] body] & h1 & Hd & Hk)]%bind_Err & He).
  { injection Hd as _ Hd. by rewrite (Hplain _ _ _ Hd) in He. }
  injection Hd as <- Hd. destruct (Z.leb_spec StatusBadRequest status) as [Hs|].
  - injection Hk as _ <-. injection He as ->. split; [done|]. by exists text, body.
  - unfold decoded in Hk. destruct (target body); [done|]. by injection Hk as _ <-.
Qed.
Lemma created_Ok what missing m h h' id : created what missing m h = (h', Ok id) →
  m h = (h', Ok id) ∧ id ≠ "".
Proof.
  intros (h1 & x & Hm & Hk)%bind_Ok. apply or_fail_Ok in Hm.
  destruct (String.eqb_spec x "") as [|Hx]; [done|]. by injection Hk as <- <-.
Qed.
End answers.

(** ** Waits end *)

(** What is documented of the clock and of timers: time does not go back, and a timer
    that fires does so after its delay. *)
Record clock_ok (w : World) : Prop := {
  clock_forward h h' : h `prefix_of` h' → wd_now w h ≤ wd_now w h';
  timers_wait h h' delay : wd_fires w h = true → (h ++ [Waited delay]) `prefix_of` h' →
    wd_now w h + delay ≤ wd_now w h';
}.
(** A look that always comes to an end, and forgets nothing. *)
Definition looks_end {A} (m : R A) : Prop := ∀ h,
  h `prefix_of` (m h).1 ∧ (m h).2 ≠ Err out_of_fuel.

Lemma throw_not_fuel (w : World) h h' delay : sleepWithContext w delay h = (h', Err out_of_fuel) → False.
Proof. unfold sleepWithContext. destruct (wd_fires w h); by intros [= _ ?]. Qed.

Lemma polls_end_from {A} w delay deadline (look : R (Polled A)) : clock_ok w → 0 < delay → looks_end look →
  (∀ h h' late, look h = (h', Ok (Again late)) → late ≠ out_of_fuel) →
  ∀ fuel h, deadline - wd_now w h < delay * Z.of_nat fuel - delay → (0 < fuel)%nat →
  (poll w fuel deadline delay look h).2 ≠ Err out_of_fuel.
Proof.
  intros [Hfwd Htimer] Hdelay Hlook Hlate fuel. induction fuel as [|fuel IH]; intros h Hfuel Hpos; [lia|].
  cbn [poll]. unfold mbind, st_bind at 1. destruct (Hlook h) as [Hp Hne].
  destruct (look h) as [h1 [[x|late]|e]] eqn:Hl; cbn in Hp, Hne; [done| |cbn; congruence].
  cbn -[poll sleepWithContext]. destruct (Z.ltb_spec deadline (wd_now w h1)) as [|Hin].
  { cbn. intros Heq. injection Heq as Heq. by apply (Hlate h h1 late Hl). }
  unfold st_bind, sleepWithContext at 1. destruct (wd_fires w (h1 ++ [Looked])) eqn:Hf; [|done].
  assert (H1 : wd_now w h ≤ wd_now w h1) by by apply Hfwd.
  assert (H2 : wd_now w h1 ≤ wd_now w (h1 ++ [Looked])) by (apply Hfwd; by apply prefix_app_r).
  pose proof (Htimer (h1 ++ [Looked]) _ delay Hf (reflexivity _)) as H3.
  apply IH; [lia|]. destruct fuel; [|lia]. lia.
Qed.

(** A deadline set now, and one try more than there are pauses before it. *)
Lemma polls_end {A} w timeout delay (look : R (Polled A)) fuel h : clock_ok w → 0 < delay → looks_end look →
  (∀ h h' late, look h = (h', Ok (Again late)) → late ≠ out_of_fuel) → 0 ≤ timeout →
  (Z.to_nat (timeout / delay) + 1 < fuel)%nat →
  (poll w fuel (wd_now w h + timeout) delay look (h ++ [Looked])).2 ≠ Err out_of_fuel.
Proof.
  intros Hc Hd Hl Hlate Ht Hf. apply polls_end_from; try done; [|lia].
  pose proof (clock_forward w Hc h (h ++ [Looked]) (prefix_app_r _ _ _ (reflexivity _))).
  pose proof (Z.div_mod timeout delay). pose proof (Z.mod_pos_bound timeout delay Hd).
  assert (0 ≤ timeout / delay) by (apply Z.div_pos; lia). nia.
Qed.

(** The requests of a poll are those of its looks. *)
Lemma sends_poll {A} w Q fuel deadline delay (look : R (Polled A)) :
  sends Q look → sends Q (poll w fuel deadline delay look).
Proof.
  intros Hl. induction fuel as [|fuel IH]; [apply sends_throw|]. cbn. solve_sends.
Qed.
(** What a poll returns is what a look found. *)
Lemma poll_Ok {A} w (P : A → Prop) fuel deadline delay (look : R (Polled A)) h h' x :
  (∀ h h' x, look h = (h', Ok (Done x)) → P x) → poll w fuel deadline delay look h = (h', Ok x) → P x.
Proof.
  intros HP. revert h. induction fuel as [|fuel IH]; intros h; [done|]. cbn [poll].
  intros (h1 & [y|late] & Hl & Hk)%bind_Ok.
  - injection Hk as <- <-. by eapply HP.
  - apply bind_Ok in Hk as (h2 & now & _ & Hk). destruct (deadline <? now); [done|].
    apply bind_Ok in Hk as (h3 & [] & _ & Hk). by eapply IH.
Qed.
