(* ===== verification/ReleaseSmoke.v ===== *)
(** * The smoke check of a release, and its abuse check (internal/release/smoke.go,
      abuse_smoke.go, external_preflight.go)

    The whole of [RunSmoke]: the services are up, an order goes from a request for
    quotes to a settled milestone, an invoice is made for it, and what the settlement
    service recorded is counted.  Which secret goes to which service, and what a
    passed check rests on. *)

From Stdlib Require Import Ascii.
From S2P Require Import Prelude GoNum GoText Http CodeAgent Traces ReleaseClient Core Signatures Fnn.

Record Config := mkSmokeConfig {
  sc_APIBaseURL : string;
  sc_IAMBaseURL : string;
  sc_SettlementBaseURL : string;
  sc_SettlementServiceToken : string;
  sc_ExecutionBaseURL : string;
  sc_ExecutionEventToken : string;
  sc_IncludeWithdrawal : bool;
  sc_IncludeCarrierProbe : bool;
}.
Definition ConfigFromEnv (getenv : string → string) : Config :=
  mkSmokeConfig
    (envOrDefault getenv "RELEASE_SMOKE_API_BASE_URL" "http://127.0.0.1:8080")
    (envOrDefault getenv "RELEASE_SMOKE_IAM_BASE_URL" "")
    (envOrDefault getenv "RELEASE_SMOKE_SETTLEMENT_BASE_URL" "http://127.0.0.1:8083")
    (envOrDefault getenv "RELEASE_SMOKE_SETTLEMENT_SERVICE_TOKEN" "")
    (envOrDefault getenv "RELEASE_SMOKE_EXECUTION_BASE_URL" "http://127.0.0.1:8085")
    (envOrDefault getenv "RELEASE_SMOKE_EXECUTION_EVENT_TOKEN" "")
    (envBool getenv "RELEASE_SMOKE_INCLUDE_WITHDRAWAL")
    (envBool getenv "RELEASE_SMOKE_INCLUDE_CARRIER_PROBE").

Record Summary := mkSummary {
  sm_OrderID : string;
  sm_Invoice : string;
  sm_WithdrawalID : string;
  sm_FundingRecordCount : nat;
  sm_CodeAgentPolicy : string;
}.
#[export] Instance Summary_eta : Eta Summary := λ s,
  mkSummary (sm_OrderID s) (sm_Invoice s) (sm_WithdrawalID s) (sm_FundingRecordCount s)
    (sm_CodeAgentPolicy s).

Section smoke.
Context (w : World).

(** A buyer and a provider: signed up, where an identity service is given. *)
Definition smoke_actors (iamBaseURL : string) : R (actorIdentity * actorIdentity) :=
  if blank iamBaseURL then mret (org_only "buyer_1", org_only "provider_1")
  else
    suffix ← nanoSuffix w;
    buyer ← or_fail (createIAMUser w iamBaseURL "buyer" suffix) "iam buyer signup";
    provider ← or_fail (createIAMUser w iamBaseURL "provider" suffix) "iam provider signup";
    mret (buyer, provider).
(** A service without a market gives the order directly. *)
Definition smoke_order (c : Config) (buyer provider : actorIdentity) : R string :=
  r ← attempt (createMarketplaceOrder w (sc_APIBaseURL c) buyer provider);
  match r with
  | Ok orderID => mret orderID
  | Err e =>
      if isStatusCode e StatusNotFound
      then createOrder w (sc_APIBaseURL c) buyer (ai_OrgID provider) else throw e
  end.
Definition smoke_withdrawal (c : Config) (provider : actorIdentity) (summary : Summary) : R Summary :=
  if negb (sc_IncludeWithdrawal c) then mret summary
  else
    withdrawalID ← requestWithdrawal w (sc_SettlementBaseURL c) provider;
    _ ← syncWithdrawals w (sc_SettlementBaseURL c) provider;
    fundingCount ← countFundingRecords w (sc_SettlementBaseURL c) (ai_Token provider) [];
    mret (summary <| sm_WithdrawalID := withdrawalID |> <| sm_FundingRecordCount := fundingCount |>).
Definition smoke_probe (c : Config) (summary : Summary) : R Summary :=
  if negb (sc_IncludeCarrierProbe c) then mret summary
  else policy ← verifyCarrier w (sc_ExecutionBaseURL c);
       mret (summary <| sm_CodeAgentPolicy := policy |>).

Definition healths (api settlement execution : string) : R () :=
  _ ← or_fail (health w api) "api health";
  _ ← or_fail (health w settlement) "settlement health";
  or_fail (health w execution) "execution health".

Definition RunSmoke (c : Config) : R Summary :=
  _ ← healths (sc_APIBaseURL c) (sc_SettlementBaseURL c) (sc_ExecutionBaseURL c);
  '(buyer, provider) ← smoke_actors (sc_IAMBaseURL c);
  orderID ← smoke_order c buyer provider;
  _ ← settleViaExecution w (sc_ExecutionBaseURL c) (sc_ExecutionEventToken c) orderID;
  invoice ← createInvoice w (sc_SettlementBaseURL c) (sc_SettlementServiceToken c) orderID
    (ai_OrgID buyer) (ai_OrgID provider);
  _ ← syncSettledFeed w (sc_SettlementBaseURL c) (sc_SettlementServiceToken c);
  fundingCount ← countFundingRecords w (sc_SettlementBaseURL c) (ai_Token provider)
    [("kind", "invoice"); ("orderId", orderID)];
  summary ← smoke_withdrawal c provider (mkSummary orderID invoice "" fundingCount "");
  smoke_probe c summary.

(** ** Secrets *)

(** Where the two service tokens and the sessions of users may go. *)
Record at_home (c : Config) (o : Outgoing) : Prop := {
  service_tokens_home v : (HeaderName, v) ∈ og_Headers o →
    og_Base o = service_base (sc_SettlementBaseURL c) ∧ v = TrimSpace (sc_SettlementServiceToken c) ∨
    og_Base o = service_base (sc_ExecutionBaseURL c) ∧ v = TrimSpace (sc_ExecutionEventToken c);
  sessions_home v : ("Authorization", v) ∈ og_Headers o →
    og_Base o = service_base (sc_APIBaseURL c) ∨ og_Base o = service_base (sc_SettlementBaseURL c);
  signups_home : og_Path o = "/v1/signup" → og_Base o = service_base (sc_IAMBaseURL c);
}.

Lemma auth_header token k v : (k, v) ∈ authHeaders token → k = "Authorization".
Proof.
  unfold authHeaders. destruct (blank token); [by intros ?%elem_of_nil|].
  by intros [= -> _]%list_elem_of_singleton.
Qed.
Lemma posted_header headers k v :
  (k, v) ∈ json_headers ++ filter (λ kv : string * string, blank kv.2 = false) headers →
  (k, v) ∈ headers ∨ k = "Content-Type" ∨ k = "Accept".
Proof.
  intros [Hj|[_ Hf]%list_elem_of_filter]%elem_of_app; [right|by left].
  unfold json_headers in Hj. rewrite !elem_of_cons in Hj.
  destruct Hj as [[= -> _]|[[= -> _]|[]%elem_of_nil]]; auto.
Qed.
End smoke.

(** A header of a request, to where it comes from. *)
Ltac header_cases :=
  repeat match goal with
  | H : (_, _) ∈ og_Headers _ |- _ => progress cbn [og_Headers post_request get funding_records] in H
  | H : (_, _) ∈ _ ++ filter _ _ |- _ => apply posted_header in H as [H|[H|H]]
  | H : (_, _) ∈ authHeaders _ |- _ => apply auth_header in H
  | H : (_, _) ∈ service_header _ |- _ => apply list_elem_of_singleton in H
  | H : (_, _) ∈ [] |- _ => inversion H
  | H : (_, _) = (_, _) |- _ => simplify_eq
  | H : (_, _) ∈ (if ?b then _ else _) |- _ => destruct b
  end.

Section secrets.
Context (w : World) (c : Config).

(** A request keeps to the rule, by its headers and its path. *)
Ltac at_home :=
  split; intros; header_cases; unfold HeaderName in *; try discriminate; cbn in *; try discriminate; auto.

Lemma sends_health base : sends (at_home c) (health w base).
Proof. unfold health. solve_sends. at_home. Qed.
Lemma sends_signup kind suffix : sends (at_home c) (createIAMUser w (sc_IAMBaseURL c) kind suffix).
Proof. unfold createIAMUser. solve_sends. at_home. Qed.
Lemma sends_market buyer provider : sends (at_home c) (createMarketplaceOrder w (sc_APIBaseURL c) buyer provider).
Proof.
  unfold createMarketplaceOrder, createRFQ, createBid, awardRFQ, award_with. solve_sends; at_home.
Qed.
Lemma sends_order buyer orgID : sends (at_home c) (createOrder w (sc_APIBaseURL c) buyer orgID).
Proof. unfold createOrder. solve_sends. at_home. Qed.
Lemma sends_settle orderID :
  sends (at_home c) (settleViaExecution w (sc_ExecutionBaseURL c) (sc_ExecutionEventToken c) orderID).
Proof. unfold settleViaExecution. solve_sends. at_home. Qed.
Lemma sends_invoice orderID b p : sends (at_home c)
  (createInvoice w (sc_SettlementBaseURL c) (sc_SettlementServiceToken c) orderID b p).
Proof. unfold createInvoice. solve_sends. at_home. Qed.
Lemma sends_feed : sends (at_home c) (syncSettledFeed w (sc_SettlementBaseURL c) (sc_SettlementServiceToken c)).
Proof. unfold syncSettledFeed. solve_sends. at_home. Qed.
Lemma sends_count token filters :
  sends (at_home c) (countFundingRecords w (sc_SettlementBaseURL c) token filters).
Proof. unfold countFundingRecords. solve_sends. at_home. Qed.
Lemma sends_withdrawal provider summary : sends (at_home c) (smoke_withdrawal w c provider summary).
Proof.
  unfold smoke_withdrawal, requestWithdrawal, syncWithdrawals.
  solve_sends; first [apply sends_count|at_home].
Qed.
Lemma sends_probe summary : sends (at_home c) (smoke_probe w c summary).
Proof. unfold smoke_probe, verifyCarrier, verify_carrier. solve_sends; at_home. Qed.
End secrets.
#[local] Hint Resolve sends_health sends_signup sends_market sends_order sends_settle sends_invoice
  sends_feed sends_count sends_withdrawal sends_probe : sends.

(** In a smoke check the token of the settlement service is shown to that service
    only, that of the execution service to that one only, a user's session to the
    platform and the settlement service only, and passwords of new users to the
    identity service. *)
Theorem smoke_keeps_secrets_home w c h h' r : RunSmoke w c h = (h', r) →
  ∃ t, h' = h ++ t ∧ ∀ o, Sent o ∈ t → at_home c o.
Proof.
  intros Hr. assert (Hs : sends (at_home c) (RunSmoke w c)).
  { unfold RunSmoke, healths, smoke_actors, smoke_order, nanoSuffix. solve_sends. }
  exact (sends_run _ _ _ _ _ Hs Hr).
Qed.

(** ** What a passed check rests on *)

Section passed.
Context (w : World) (c : Config).

Lemma health_Ok base h h' : health w base h = (h', Ok ()) →
  answered w h' (get base "/healthz" [] []) (λ status _, status = StatusOK).
Proof.
  intros (_ & b & s & t & v & Hb & Hr & -> & _)%get_ok_Ok. by exists b, StatusOK, t, v.
Qed.
Lemma healths_Ok api settlement execution h h' : healths w api settlement execution h = (h', Ok ()) →
  ∀ base, base ∈ [api; settlement; execution] →
  answered w h' (get base "/healthz" [] []) (λ status _, status = StatusOK).
Proof.
  intros (h1 & [] & H1%or_fail_Ok & (h2 & [] & H2%or_fail_Ok & H3%or_fail_Ok)%bind_Ok)%bind_Ok base Hb.
  pose proof (proj1 (get_ok_Ok _ _ _ _ _ _ _ H2)) as Hh2.
  pose proof (proj1 (get_ok_Ok _ _ _ _ _ _ _ H3)) as Hh3. subst h2 h'.
  rewrite !elem_of_cons in Hb. destruct Hb as [->|[->|[->|[]%elem_of_nil]]].
  - eapply answered_later; [eapply health_Ok, H1|]. rewrite <- app_assoc. by apply prefix_app_r.
  - eapply answered_later; [eapply health_Ok, H2|]. by apply prefix_app_r.
  - eapply health_Ok, H3.
Qed.

(** The order was answered with its identifier. *)
Definition order_given (h : list Event) (orderID : string) : Prop :=
  ∃ o, answered w h o (λ status body, status < StatusBadRequest ∧ inner_string "order" "id" body = Some orderID).
Lemma createOrder_Ok base buyer orgID h h' id : createOrder w base buyer orgID h = (h', Ok id) →
  order_given h' id ∧ id ≠ "".
Proof. intros [(_ & Ha)%post_Ok Hid]%created_Ok. split; [by eexists|done]. Qed.
Lemma award_Ok base token rfqID payload h h' id : award_with w base token rfqID payload h = (h', Ok id) →
  order_given h' id ∧ id ≠ "".
Proof. intros [(_ & Ha)%post_Ok Hid]%created_Ok. split; [by eexists|done]. Qed.
Lemma smoke_order_Ok buyer provider h h' id : smoke_order w c buyer provider h = (h', Ok id) →
  order_given h' id ∧ id ≠ "".
Proof.
  intros (h1 & r & Ha & Hk)%bind_Ok. rewrite attempt_Ok in Ha. destruct r as [id'|e].
  - injection Hk as <- <-.
    apply bind_Ok in Ha as (h2 & rfq & _ & (h3 & bid & _ & Ha)%bind_Ok). by apply award_Ok in Ha.
  - destruct (isStatusCode e StatusNotFound); [|done]. by apply createOrder_Ok in Hk.
Qed.

Definition counted_records (h : list Event) (n : nat) : Prop := ∃ token filters,
  answered w h (funding_records (sc_SettlementBaseURL c) token filters)
    (λ status body, status = StatusOK ∧ record_count body = Some n).
Lemma count_Ok token filters h h' n :
  countFundingRecords w (sc_SettlementBaseURL c) token filters h = (h', Ok n) → counted_records h' n.
Proof. intros (_ & Ha)%get_ok_Ok. by exists token, filters. Qed.
Lemma withdrawal_Ok provider s h h' s' : smoke_withdrawal w c provider s h = (h', Ok s') →
  counted_records h (sm_FundingRecordCount s) →
  counted_records h' (sm_FundingRecordCount s') ∧ sm_OrderID s' = sm_OrderID s ∧ sm_Invoice s' = sm_Invoice s
    ∧ (sc_IncludeWithdrawal c = true → sm_WithdrawalID s' ≠ "") ∧ h `prefix_of` h'.
Proof.
  intros Hr Hc. pose proof (sends_prefix _ _ _ _ _ (sends_withdrawal w c provider s) Hr) as Hp.
  unfold smoke_withdrawal in Hr. destruct (sc_IncludeWithdrawal c); cbn [negb] in Hr.
  - apply bind_Ok in Hr as (h1 & id & [_ Hid]%created_Ok & (h2 & [] & _ & (h3 & n & Hn & Hs)%bind_Ok)%bind_Ok).
    injection Hs as <- <-. apply count_Ok in Hn. done.
  - by injection Hr as <- <-.
Qed.
Lemma probe_Ok s h h' s' : smoke_probe w c s h = (h', Ok s') →
  sm_FundingRecordCount s' = sm_FundingRecordCount s ∧ sm_OrderID s' = sm_OrderID s
    ∧ sm_Invoice s' = sm_Invoice s ∧ sm_WithdrawalID s' = sm_WithdrawalID s
    ∧ (sc_IncludeCarrierProbe c = true → sm_CodeAgentPolicy s' ≠ "") ∧ h `prefix_of` h'.
Proof.
  intros Hr. pose proof (sends_prefix _ _ _ _ _ (sends_probe w c s) Hr) as Hp.
  unfold smoke_probe in Hr. destruct (sc_IncludeCarrierProbe c); cbn [negb] in Hr.
  - apply bind_Ok in Hr as (h1 & id & (h2 & [] & _ & [_ Hid]%created_Ok)%bind_Ok & Hs).
    by injection Hs as <- <-.
  - by injection Hr as <- <-.
Qed.
End passed.

(** A smoke check passes only if the three services answered that they are well, an
    order was given, its milestone's event and its invoice were accepted, and the
    records it reports were counted in an answer; it does not ask that there are any. *)
Theorem passed_smoke_means w c h h' s : RunSmoke w c h = (h', Ok s) →
  (∀ base, base ∈ [sc_APIBaseURL c; sc_SettlementBaseURL c; sc_ExecutionBaseURL c] →
     answered w h' (get base "/healthz" [] []) (λ status _, status = StatusOK))
  ∧ order_given w h' (sm_OrderID s) ∧ sm_OrderID s ≠ "" ∧ sm_Invoice s ≠ ""
  ∧ answered w h' (post_request (sc_ExecutionBaseURL c) "/v1/carrier/events"
      (service_header (sc_ExecutionEventToken c)) (settle_payload (sm_OrderID s)))
      (λ status _, status < StatusBadRequest)
  ∧ (∃ buyer provider, answered w h' (post_request (sc_SettlementBaseURL c) "/v1/invoices"
      (service_header (sc_SettlementServiceToken c)) (invoice_payload (sm_OrderID s) buyer provider))
      (λ status body, status < StatusBadRequest ∧ top_string "invoice" body = Some (sm_Invoice s)))
  ∧ counted_records w c h' (sm_FundingRecordCount s)
  ∧ (sc_IncludeWithdrawal c = true → sm_WithdrawalID s ≠ "")
  ∧ (sc_IncludeCarrierProbe c = true → sm_CodeAgentPolicy s ≠ "").
Proof.
  intros (h1 & [] & H1 & (h2 & [buyer provider] & H2 & (h3 & id & H3 & (h4 & [] & H4 & (h5 & invoice & H5 &
    (h6 & [] & H6 & (h7 & n & H7 & (h8 & s8 & H8 & H9)%bind_Ok)%bind_Ok)%bind_Ok)%bind_Ok)%bind_Ok)%bind_Ok)%bind_Ok)%bind_Ok.
  assert (P12 : h1 `prefix_of` h2).
  { refine (sends_prefix (at_home c) _ _ _ _ _ H2). unfold smoke_actors, nanoSuffix. solve_sends. }
  assert (P23 : h2 `prefix_of` h3).
  { refine (sends_prefix (at_home c) _ _ _ _ _ H3). unfold smoke_order. solve_sends. }
  pose proof (sends_prefix _ _ _ _ _ (sends_settle w c id) H4) as P34.
  pose proof (sends_prefix _ _ _ _ _ (sends_invoice w c id _ _) H5) as P45.
  pose proof (sends_prefix _ _ _ _ _ (sends_feed w c) H6) as P56.
  pose proof (sends_prefix _ _ _ _ _ (sends_count w c _ _) H7) as P67.
  apply withdrawal_Ok in H8 as (Hn & Ho & Hi & Hw & P78); [|cbn; by eapply count_Ok].
  apply probe_Ok in H9 as (Hn' & Ho' & Hi' & Hw' & Hpolicy & P89). cbn [sm_OrderID sm_Invoice] in Ho, Hi.
  apply smoke_order_Ok in H3 as [(o & Hgiven) Hid].
  apply post_Ok in H4 as [_ (b4 & st4 & t4 & v4 & Hb4 & Hr4 & Hlt & _)].
  apply created_Ok in H5 as [[_ Ha5]%post_Ok Hinv].
  rewrite Ho', Ho, Hi', Hi, Hn', Hw'.
  assert (P3 : h3 `prefix_of` h') by (do 5 (etransitivity; [eassumption|]); done).
  assert (P5 : h5 `prefix_of` h') by (do 3 (etransitivity; [eassumption|]); done).
  split_and!; [|by exists o; eapply answered_later|done|done| | | |done|done].
  - intros base Hbase. eapply answered_later; [by eapply healths_Ok|]. do 2 (etransitivity; [eassumption|]). done.
  - exists b4, st4, t4, v4. split; [|done]. etransitivity; [exact Hb4|]. by etransitivity.
  - exists (ai_OrgID buyer), (ai_OrgID provider). by eapply answered_later.
  - destruct Hn as (token & filters & Hn). exists token, filters. by eapply answered_later.
Qed.

(** ** A check that passes, with nothing recorded *)

Definition demo_answer : json :=
  JObj [("rfq", JObj [("id", JStr "rfq_1")]); ("bid", JObj [("id", JStr "bid_1")]);
        ("order", JObj [("id", JStr "ord_1")]); ("invoice", JStr "inv_1"); ("id", JStr "wd_1");
        ("organization", JObj [("id", JStr "org_1")]); ("session", JObj [("token", JStr "tok_1")]);
        ("run", JObj [("result", JObj [("policy_decision", JStr "allow")])]); ("records", JArr [])].
Definition demo_world : World :=
  mkWorld (λ _ _, Ok (200, "", Some demo_answer)) (λ _ _, Err (Errf "no adapter")) (λ h, 1700000000000000000 + Z.of_nat (length h)) (λ _, true).
Definition demo_smoke : Config :=
  mkSmokeConfig "http://api/" "http://iam" "http://settlement" " st " "http://execution" "et" true true.

Definition demo_run := RunSmoke demo_world demo_smoke [].
Definition demo_summary : Summary := mkSummary "ord_1" "inv_1" "wd_1" 0 "allow".

Lemma smoke_keeps_secrets_home_witness :
  demo_run = (demo_run.1, Ok demo_summary) ∧
  ∃ t, demo_run.1 = [] ++ t ∧ ∀ o, Sent o ∈ t → at_home demo_smoke o.
Proof.
  split; [vm_compute; reflexivity|].
  apply (smoke_keeps_secrets_home demo_world demo_smoke [] demo_run.1 demo_run.2). vm_compute. reflexivity.
Defined.

Lemma passed_smoke_means_witness :
  sm_FundingRecordCount demo_summary = 0%nat ∧
  answered demo_world demo_run.1 (post_request "http://execution" "/v1/carrier/events"
      (service_header "et") (settle_payload "ord_1")) (λ status _, status < StatusBadRequest).
Proof.
  split; [done|].
  assert (Hr : RunSmoke demo_world demo_smoke [] = (demo_run.1, Ok demo_summary)) by (vm_compute; reflexivity).
  exact (proj1 (proj2 (proj2 (proj2 (proj2 (passed_smoke_means demo_world demo_smoke [] demo_run.1 demo_summary Hr)))))).
Defined.

(** * The abuse check and the preflight (internal/release/abuse_smoke.go,
      external_preflight.go)

    A flood of logins that must be refused and reported, and the health of the services
    a release depends on.  How many requests they send, and what their passing rests
    on. *)

Record AbuseConfig := mkAbuse { ab_IAMBaseURL : string; ab_SentryBaseURL : string; ab_ForwardedIP : string }.
Record AbuseSummary := mkAbuseSummary { as_Attempts : Z; as_RateLimited : bool; as_SentryEventCount : Z }.
Definition AbuseConfigFromEnv (getenv : string → string) : AbuseConfig :=
  mkAbuse (envOrDefault getenv "RELEASE_ABUSE_IAM_BASE_URL" "http://127.0.0.1:8081")
    (envOrDefault getenv "RELEASE_ABUSE_SENTRY_BASE_URL" "http://127.0.0.1:8092")
    (envOrDefault getenv "RELEASE_ABUSE_FORWARDED_IP" "203.0.113.10").
Definition with_forwarded (c : AbuseConfig) : AbuseConfig :=
  mkAbuse (ab_IAMBaseURL c) (ab_SentryBaseURL c)
    (if blank (ab_ForwardedIP c) then "203.0.113.10" else ab_ForwardedIP c).

(** Requests of the flood name the address they were forwarded for. *)
Definition abuse_request (base path forwardedIP : string) (fields : list (string * string)) : Outgoing :=
  mkOutgoing "POST" (service_base base) path []
    (("Content-Type", "application/json") :: if blank forwardedIP then [] else [("X-Forwarded-For", forwardedIP)])
    (Some (string_json fields)).
Definition abuse_email (suffix : string) : string := "abuse-" +:+ suffix +:+ "@example.com".
Definition abuse_signup (c : AbuseConfig) (email : string) : Outgoing :=
  abuse_request (ab_IAMBaseURL c) "/v1/signup" (ab_ForwardedIP c)
    [("email", email); ("name", "Abuse Smoke"); ("organizationKind", "buyer");
     ("organizationName", "Abuse Buyer"); ("password", smoke_password)].
Definition abuse_login (c : AbuseConfig) (email : string) : Outgoing :=
  abuse_request (ab_IAMBaseURL c) "/v1/sessions" (ab_ForwardedIP c)
    [("email", email); ("password", smoke_password)].
Definition sentry_events (c : AbuseConfig) : Outgoing := get (ab_SentryBaseURL c) "/events" [] [].
Definition decode_count (body : option json) : option Z := f ← body_fields body; int_field "count" f.

Section abuse.
Context (w : World).

Definition signupAbuseUser (c : AbuseConfig) (email : string) : R () :=
  '(status, _, _) ← Do w (abuse_signup c email);
  fail_if (negb (status =? StatusCreated)) (Errf ("signup status " +:+ pretty status)).
Definition loginAttempt (c : AbuseConfig) (email : string) : R Z :=
  '(status, _, _) ← Do w (abuse_login c email); mret status.
Definition sentryEventCount (c : AbuseConfig) : R Z :=
  get_ok w "sentry events" (sentry_events c) decode_count.
(** [tries] more attempts; how many there were, and whether the last was refused. *)
Fixpoint login_flood (tries : nat) (c : AbuseConfig) (email : string) (attempts : Z) : R (Z * bool) :=
  match tries with
  | O => mret (attempts, false)
  | S tries =>
      status ← loginAttempt c email;
      if status =? StatusTooManyRequests then mret (attempts + 1, true)
      else if negb (status =? StatusCreated) then throw (Errf ("unexpected login status " +:+ pretty status))
      else login_flood tries c email (attempts + 1)
  end.
Fixpoint sentry_wait (tries : nat) (c : AbuseConfig) : R Z :=
  match tries with
  | O => throw (Errf "abuse smoke: expected sentry event after rate limit")
  | S tries =>
      count ← sentryEventCount c;
      if 0 <? count then mret count else _ ← sleepWithContext w (250 * 1000000); sentry_wait tries c
  end.
Definition waitForSentryEvents (c : AbuseConfig) : R Z := sentry_wait 10 c.

Definition RunAbuseSmoke (c : AbuseConfig) : R AbuseSummary :=
  _ ← fail_if (blank (ab_IAMBaseURL c) || blank (ab_SentryBaseURL c)) (Errf "iam and sentry base urls are required");
  let c := with_forwarded c in
  _ ← or_fail (health w (ab_IAMBaseURL c)) "iam health";
  _ ← or_fail (health w (ab_SentryBaseURL c)) "sentry health";
  suffix ← nanoSuffix w;
  let email := abuse_email suffix in
  _ ← signupAbuseUser c email;
  '(attempts, limited) ← login_flood 11 c email 0;
  _ ← fail_if (negb limited) (Errf "abuse smoke: login flood did not return 429");
  count ← waitForSentryEvents c;
  mret (mkAbuseSummary attempts true count).

(** ** The preflight *)

Definition externalHealthcheckURL (baseURL override : string) : string :=
  if blank override then TrimRight "/" (TrimSpace baseURL) +:+ "/healthz" else TrimSpace override.
Definition runHealthcheck (target : string) : R () :=
  '(status, _, _) ← Do w (mkOutgoing "GET" target "" [] [] None);
  fail_if (negb (status =? StatusOK)) (Errf ("unexpected status " +:+ pretty status +:+ " from " +:+ target)).
Record ExternalDependencyConfig := mkExternal {
  ed_FiberRPCURL : string;
  ed_FiberHealthcheckURL : string;
  ed_CarrierGatewayURL : string;
  ed_CarrierHealthcheckURL : string;
  ed_CarrierGatewayToken : string;
}.
Definition ExternalDependencyConfigFromEnv (getenv : string → string) : ExternalDependencyConfig :=
  mkExternal (trimmed_env getenv "DEPENDENCY_FIBER_RPC_URL") (trimmed_env getenv "DEPENDENCY_FIBER_HEALTHCHECK_URL")
    (trimmed_env getenv "DEPENDENCY_CARRIER_GATEWAY_URL") (trimmed_env getenv "DEPENDENCY_CARRIER_HEALTHCHECK_URL")
    (trimmed_env getenv "DEPENDENCY_CARRIER_GATEWAY_API_TOKEN").
Definition RunExternalDependencyPreflight (c : ExternalDependencyConfig) : R () :=
  _ ← fail_if (blank (ed_FiberRPCURL c)) (Errf "DEPENDENCY_FIBER_RPC_URL is required");
  _ ← fail_if (blank (ed_CarrierGatewayURL c)) (Errf "DEPENDENCY_CARRIER_GATEWAY_URL is required");
  _ ← fail_if (blank (ed_CarrierGatewayToken c)) (Errf "DEPENDENCY_CARRIER_GATEWAY_API_TOKEN is required");
  for_each [("fiber", externalHealthcheckURL (ed_FiberRPCURL c) (ed_FiberHealthcheckURL c));
            ("carrier", externalHealthcheckURL (ed_CarrierGatewayURL c) (ed_CarrierHealthcheckURL c))]
    (λ check, or_fail (runHealthcheck check.2) (check.1 +:+ " preflight failed")).

(** ** What a passed flood rests on *)

Definition login_answered (c : AbuseConfig) (email : string) (h : list Event) (status : Z) : Prop :=
  ∃ text body, wd_answer w h (abuse_login c email) = Ok (status, text, body).
Lemma login_Ok c email h h' status : loginAttempt c email h = (h', Ok status) →
  h' = h ++ [Sent (abuse_login c email)] ∧ login_answered c email h status.
Proof.
  intros (h1 & [[s text] body] & [= <- Ha] & [= <- <-])%bind_Ok. split; [done|]. by exists text, body.
Qed.
(** The attempts that were let through, and the one that was not. *)
Lemma flood_Ok tries c email attempts h h' n : login_flood tries c email attempts h = (h', Ok (n, true)) →
  ∃ t, h' = h ++ replicate (S t) (Sent (abuse_login c email)) ∧ n = attempts + Z.of_nat (S t) ∧ (S t ≤ tries)%nat ∧
    login_answered c email (h ++ replicate t (Sent (abuse_login c email))) StatusTooManyRequests ∧
    ∀ i, (i < t)%nat → login_answered c email (h ++ replicate i (Sent (abuse_login c email))) StatusCreated.
Proof.
  revert attempts h. induction tries as [|tries IH]; intros attempts h; cbn [login_flood]; [done|].
  intros (h1 & status & [-> Ha]%login_Ok & Hk)%bind_Ok. destruct (Z.eqb_spec status StatusTooManyRequests) as [->|].
  { injection Hk as <- <-. exists 0%nat. cbn [replicate]. rewrite app_nil_r. split_and!; [done|lia|lia|done|lia]. }
  destruct (Z.eqb_spec status StatusCreated) as [->|]; cbn [negb] in Hk; [|done].
  apply IH in Hk as (t & -> & -> & Ht & Hlast & Hthrough). exists (S t).
  assert (Hmove : ∀ i, (h ++ [Sent (abuse_login c email)]) ++ replicate i (Sent (abuse_login c email))
    = h ++ replicate (S i) (Sent (abuse_login c email))) by (intros; by rewrite <- app_assoc).
  rewrite !Hmove in Hlast |- *. split_and!; [done|lia|lia|done|].
  intros [|i] Hi; [by rewrite app_nil_r|]. rewrite <- Hmove. apply Hthrough. lia.
Qed.
Lemma sentry_Ok tries c h h' n : sentry_wait tries c h = (h', Ok n) → 0 < n ∧
  answered w h' (sentry_events c) (λ s body, s = StatusOK ∧ decode_count body = Some n).
Proof.
  revert h. induction tries as [|tries IH]; intros h; [done|]. cbn [sentry_wait].
  intros (h1 & count & [_ Ha]%get_ok_Ok & Hk)%bind_Ok. destruct (Z.ltb_spec 0 count).
  - by injection Hk as <- <-.
  - apply bind_Ok in Hk as (h2 & [] & _ & Hk). by eapply IH.
Qed.
Lemma sends_sentry (Q : Outgoing → Prop) tries c : Q (sentry_events c) → sends Q (sentry_wait tries c).
Proof.
  intros HQ. induction tries as [|tries IH]; cbn [sentry_wait]; [solve_sends|]. unfold sentryEventCount.
  apply sends_bind; [by apply sends_get|]. intros count. destruct (0 <? count); solve_sends.
Qed.

(** What a passed abuse check saw: an account was opened, its logins (at most eleven,
    one after the other and nothing between them) were all let through but the last, which was
    refused with a 429, and then the error reporter said it had counted an event, and nothing
    but its count was asked for after the refusal. *)
Theorem passed_floods_were_refused c h h' s : RunAbuseSmoke c h = (h', Ok s) →
  ∃ email before t after,
    let f := with_forwarded c in let login := Sent (abuse_login f email) in
    h' = before ++ [Sent (abuse_signup f email)] ++ replicate (S t) login ++ after
    ∧ as_Attempts s = Z.of_nat (S t) ∧ 1 ≤ as_Attempts s ≤ 11 ∧ as_RateLimited s = true
    ∧ answered w (before ++ [Sent (abuse_signup f email)]) (abuse_signup f email) (λ status _, status = StatusCreated)
    ∧ (∀ i, (i < t)%nat → login_answered f email (before ++ [Sent (abuse_signup f email)] ++ replicate i login) StatusCreated)
    ∧ login_answered f email (before ++ [Sent (abuse_signup f email)] ++ replicate t login) StatusTooManyRequests
    ∧ 0 < as_SentryEventCount s
    ∧ answered w h' (sentry_events f) (λ status body, status = StatusOK ∧ decode_count body = Some (as_SentryEventCount s))
    ∧ (∀ o, Sent o ∈ after → o = sentry_events f).
Proof.
  intros (h1 & [] & _ & (h2 & [] & _ & (h3 & [] & _ & (h4 & suffix & _ & (h5 & [] & H5 & (h6 & [n limited] & H6 &
    (h7 & [] & H7 & (h8 & k & H8 & [= <- <-])%bind_Ok)%bind_Ok)%bind_Ok)%bind_Ok)%bind_Ok)%bind_Ok)%bind_Ok)%bind_Ok.
  apply fail_if_Ok in H7 as [Hl ->]. apply negb_false_iff in Hl as ->.
  apply flood_Ok in H6 as (t & -> & -> & Ht & Hlast & Hthrough). apply sentry_Ok in H8 as H8'. destruct H8' as [Hk Hs].
  apply (sends_run (λ o, o = sentry_events (with_forwarded c))) in H8 as (after & -> & Hafter); [|by apply sends_sentry].
  apply bind_Ok in H5 as (h9 & [[st text] body] & [= <- Ha] & [Hst ->]%fail_if_Ok).
  apply negb_false_iff, Z.eqb_eq in Hst. exists (abuse_email suffix), h4, t, after. cbn zeta.
  rewrite <- !(app_assoc h4) in Hs, Hlast |- *. cbn [as_Attempts as_SentryEventCount as_RateLimited].
  split_and!; try done; try lia.
  - by rewrite <- !app_assoc.
  - by exists h4, st, text, body; rewrite Ha, Hst.
  - intros i Hi. specialize (Hthrough i Hi). by rewrite <- app_assoc in Hthrough.
Qed.
End abuse.

(** An account service that refuses the sixth login, as the default limit has it. *)
Definition logins (h : list Event) : nat :=
  length (List.filter (λ e, match e with Sent o => String.eqb (og_Path o) "/v1/sessions" | _ => false end) h).
Definition guarded_world : World :=
  mkWorld (λ h o,
      Ok (if String.eqb (og_Path o) "/v1/sessions" then if (logins h <? 5)%nat then 201 else 429
          else if String.eqb (og_Path o) "/v1/signup" then 201 else 200,
          "", Some (JObj [("count", JInt 1)])))
    (λ _ _, Err (Errf "no adapter")) (λ h, 1700000000000000000 + Z.of_nat (length h)) (λ _, true).
Definition flooded := mkAbuse "http://iam" "http://sentry" "".
Definition flooded_run := RunAbuseSmoke guarded_world flooded [].
Lemma passed_floods_were_refused_witness :
  flooded_run = (flooded_run.1, Ok (mkAbuseSummary 6 true 1)) ∧
  ∃ email before t after, flooded_run.1 = before ++ [Sent (abuse_signup (with_forwarded flooded) email)]
    ++ replicate (S t) (Sent (abuse_login (with_forwarded flooded) email)) ++ after ∧ 6 = Z.of_nat (S t).
Proof.
  assert (Hr : RunAbuseSmoke guarded_world flooded [] = (flooded_run.1, Ok (mkAbuseSummary 6 true 1)))
    by (vm_compute; reflexivity).
  split; [exact Hr|].
  destruct (passed_floods_were_refused guarded_world flooded [] flooded_run.1 (mkAbuseSummary 6 true 1) Hr)
    as (email & before & t & after & Hh & Ha & _).
  exists email, before, t, after. exact (conj Hh Ha).
Defined.
