(* ===== verification/ReleaseFnn.v ===== *)
(** * Checks of FNN nodes and the funding of wallets (internal/release/
      fnn_dual_node_smoke.go, fnn_adapter_smoke.go, demo_fnn_funding.go)

    The raw client of a node, a channel opened from one node to another and waited for,
    and the check of the Fiber adapter: an invoice, its state, a quote and, only where
    the quote is valid, a payout that must then be listed.

    The node identifier becomes a peer identifier as in [Fnn].  [draws] is what the
    adapter's client draws for a call: the clock and random bytes. *)

From Stdlib Require Import Ascii.
From S2P Require Import Prelude GoNum GoText GoFloat Core Repo App Http Settlement GoBytes DemoEnv.
From S2P Require Import CodeAgent Traces Fnn FiberNode FiberClient CkbWallet Bech32 ReleaseClient.

(** ** Amounts *)

(** [big.Int.SetString(s, base)] *)
Fixpoint digits_value (base acc : Z) (s : string) : option Z :=
  match s with
  | EmptyString => Some acc
  | String a s =>
      match digit_of a with
      | Some d => if d <? base then digits_value base (acc * base + d) s else None
      | None => None
      end
  end.
Definition big_int (base : Z) (s : string) : option Z :=
  let '(negative, digits) := split_sign s in
  if String.eqb digits "" then None
  else n ← digits_value base 0 digits; Some (if negative : bool then - n else n).
Definition releaseHexQuantity (value : string) : result string :=
  let trimmed := TrimSpace value in
  let invalid := Errf ("invalid positive integer amount " +:+ quoted value) in
  if String.eqb trimmed "" then Err (Errf "amount is required")
  else if HasPrefix (ToLower trimmed) "0x" then Ok (ToLower trimmed)
  else
    trimmed ← match cut_at "." trimmed with
              | (before, Some after) => if String.eqb (Trim "0" after) "" then Ok before else Err invalid
              | (_, None) => Ok trimmed
              end;
    match big_int 10 trimmed with
    | Some amount =>
        if amount <=? 0 then Err invalid
        else Ok ("0x" +:+ hex_text (String.length trimmed) amount "")
    | None => Err invalid
    end.

(** ** The raw client *)

Record rawNodeInfo := mkRawInfo {
  ri_NodeID : string;
  ri_AutoAcceptChannelCKBFundingAmount : string;
  ri_DefaultFundingLockScript : RawUDTTypeScript;
  ri_UDTCfgInfos : list NodeUDTCfgInfo;
}.
Definition decode_raw_info (f : list (string * json)) : option rawNodeInfo :=
  n ← string_field "node_id" f; a ← string_field "auto_accept_channel_ckb_funding_amount" f;
  s ← object_field "default_funding_lock_script" f; s ← decode_script s;
  u ← decode_field [] (as_list (mkUDTCfgInfo "" no_script "") decode_cfg) "udt_cfg_infos" f;
  Some (mkRawInfo n a s u).
(** A channel's state is any value. *)
Definition decode_raw_channel (v : json) : option json :=
  f ← as_object v; s ← decode_field JNull Some "state" f; _ ← bool_field "enabled" f; Some s.
Definition decode_raw_channels (f : list (string * json)) : option (list json) :=
  decode_field [] (as_list JNull decode_raw_channel) "channels" f.

Definition coded_error (fields : list (string * json)) : option (option string) :=
  match node_error fields with Some e => Some (snd <$> e) | None => None end.
(** The answer to a call, its error read by [error_of]. *)
Definition release_answer {T} (error_of : list (string * json) → option (option string))
    (method : string) (target : json → option T) (body : option json) : result T :=
  match fields ← body_fields body; e ← error_of fields; Some (fields, e) with
  | None => Err decode_error
  | Some (_, Some message) => Err (Errf (method +:+ ": " +:+ message))
  | Some (fields, None) =>
      match raw_field "result" fields with
      | None => Err (Errf "unexpected end of JSON input")
      | Some v => match target v with Some x => Ok x | None => Err decode_error end
      end
  end.
Definition rpc_request (endpoint id method : string) (params : json) : Outgoing :=
  mkOutgoing "POST" (TrimRight "/" (TrimSpace endpoint)) "" [] json_headers
    (Some (JObj [("jsonrpc", JStr "2.0"); ("id", JStr id); ("method", JStr method); ("params", params)])).

Section nodes.
Context (w : World) (getenv : string → string).

Definition requestID : R string := suffix ← nanoSuffix w; mret ("req_" +:+ suffix).
Definition raw_Call {T} (endpoint method : string) (params : json) (target : json → option T) : R T :=
  id ← requestID;
  '(_, _, body) ← Do w (rpc_request endpoint id method params);
  lift (release_answer coded_error method target body).

Definition raw_NodeInfo (node : string) : R rawNodeInfo :=
  raw_Call node "node_info" (JArr []) (target_struct decode_raw_info).
Definition raw_ConnectPeer (node address : string) : R () :=
  raw_Call node "connect_peer" (JArr [string_json [("address", address)]]) target_any.
Definition raw_OpenChannel (node peerID fundingAmountHex : string) : R string :=
  raw_Call node "open_channel"
    (JArr [string_json [("peer_id", peerID); ("funding_amount", fundingAmountHex);
                        ("tlc_fee_proportional_millionths", "0x4B0")]])
    (target_struct (string_field "temporary_channel_id")).

(** The currency of an asset, asked again for CKB where the asset has none of its own. *)
Definition releaseMapAssetToCurrency (asset : string) : string :=
  let setting key := trimmed_env getenv key in
  let ckb :=
    if negb (String.eqb (setting "FIBER_INVOICE_CURRENCY_CKB") "") then setting "FIBER_INVOICE_CURRENCY_CKB"
    else if negb (String.eqb (setting "FIBER_INVOICE_CURRENCY") "") then setting "FIBER_INVOICE_CURRENCY"
    else "Fibt" in
  if EqualFold (TrimSpace asset) "CKB" then ckb
  else if negb (String.eqb (setting "FIBER_INVOICE_CURRENCY_USDI") "") then setting "FIBER_INVOICE_CURRENCY_USDI"
  else ckb.
Definition raw_CreateInvoice (node asset amount : string) (script : list (string * string)) : R string :=
  hexAmount ← lift (releaseHexQuantity amount);
  let udt := if EqualFold (TrimSpace asset) "USDI" then [("udt_type_script", string_json script)] else [] in
  invoice ← raw_Call node "new_invoice"
    (JArr [JObj ([("amount", JStr hexAmount); ("currency", JStr (releaseMapAssetToCurrency asset))] ++ udt)])
    (target_struct (string_field "invoice_address"));
  mret (TrimSpace invoice).
Definition raw_AcceptChannel (node temporaryChannelID fundingAmountHex : string) : R () :=
  raw_Call node "accept_channel"
    (JArr [string_json [("temporary_channel_id", temporaryChannelID); ("funding_amount", fundingAmountHex)]])
    target_any.
Definition raw_ListChannels (node peerID : string) : R (list json) :=
  raw_Call node "list_channels" (JArr [string_json [("peer_id", peerID)]]) (target_struct decode_raw_channels).

Definition firstChannelReady (channels : list json) : bool :=
  match channels with
  | state :: _ => String.eqb (normalizeProviderSettlementChannelState state) "CHANNEL_READY"
  | [] => false
  end.
Definition isPeerInitPendingError (e : error) : bool :=
  mentions e ["waiting for peer to send init message"]
  || mentions e ["feature not found"] && mentions e ["peer"].
Definition isDualNodeAlreadyConnected (e : error) : bool :=
  mentions e ["already connected"; "already exists"].
Definition isAcceptChannelPendingError (e : error) : bool :=
  mentions e ["no channel with temp id"]
  || mentions e ["temporary_channel_id"] && mentions e ["not found"].

(** A connection that is there already is one. *)
Definition connect_peer (what node address : string) : R () :=
  r ← attempt (raw_ConnectPeer node address);
  match r with
  | Err e => if isDualNodeAlreadyConnected e then mret tt else throw (EPrefix what e)
  | Ok _ => mret tt
  end.
Definition connectDualNodePeers (payerNode invoiceNode invoiceAddress payerAddress : string) : R () :=
  _ ← connect_peer "connect payer -> invoice" payerNode invoiceAddress;
  connect_peer "connect invoice -> payer" invoiceNode payerAddress.

(** [attempts] is positive where it is called; the last failure is the error. *)
Fixpoint openChannelWithRetry (attempts : nat) (payerNode peerID fundingAmountHex : string)
    (delay : Z) (reconnect : R ()) : R string :=
  match attempts with
  | O => mret ""
  | S attempts =>
      r ← attempt (raw_OpenChannel payerNode peerID fundingAmountHex);
      match r with
      | Ok id => mret id
      | Err e =>
          if negb (isPeerInitPendingError e) || Nat.eqb attempts 0 then throw e
          else
            _ ← reconnect; _ ← sleepWithContext w delay;
            openChannelWithRetry attempts payerNode peerID fundingAmountHex delay reconnect
      end
  end.
Fixpoint acceptChannelWithRetry (attempts : nat) (invoiceNode temporaryChannelID fundingAmountHex : string)
    (delay : Z) : R () :=
  match attempts with
  | O => mret tt
  | S attempts =>
      r ← attempt (raw_AcceptChannel invoiceNode temporaryChannelID fundingAmountHex);
      match r with
      | Ok _ => mret tt
      | Err e =>
          if negb (isAcceptChannelPendingError e) || Nat.eqb attempts 0 then throw e
          else
            _ ← sleepWithContext w delay;
            acceptChannelWithRetry attempts invoiceNode temporaryChannelID fundingAmountHex delay
      end
  end.

(** The ticks come until the context's deadline, which bounds the fuel that is needed. *)
Fixpoint waitForChannelReady (fuel : nat) (invoiceNode payerNode invoicePeerID payerPeerID : string)
    (pollInterval : Z) : R () :=
  match fuel with
  | O => throw out_of_fuel
  | S fuel =>
      payerChannels ← or_fail (raw_ListChannels payerNode invoicePeerID) "list payer channels";
      invoiceChannels ← or_fail (raw_ListChannels invoiceNode payerPeerID) "list invoice channels";
      if firstChannelReady payerChannels && firstChannelReady invoiceChannels then mret tt
      else
        tick ← attempt (sleepWithContext w pollInterval);
        match tick with
        | Err _ => throw (Errf "timeout waiting dual fnn channel to reach CHANNEL_READY")
        | Ok _ => waitForChannelReady fuel invoiceNode payerNode invoicePeerID payerPeerID pollInterval
        end
  end.
End nodes.

(** ** The check of the adapter *)

Record FNNAdapterSmokeConfig := mkAdapterSmokeConfig {
  as_BaseURL : string;
  as_AppID : string;
  as_HMACSecret : string;
  as_IncludePayment : bool;
}.
Record FNNAdapterSmokeSummary := mkAdapterSummary {
  ads_Invoice : string;
  ads_Status : string;
  ads_QuoteValid : bool;
  ads_ValidationReason : string;
  ads_WithdrawalID : string;
}.
Definition no_adapter : FNNAdapterSmokeSummary := mkAdapterSummary "" "" false "" "".
Definition FNNAdapterSmokeConfigFromEnv (getenv : string → string) : FNNAdapterSmokeConfig :=
  mkAdapterSmokeConfig
    (envOrDefault getenv "RELEASE_FNN_ADAPTER_BASE_URL" "http://127.0.0.1:8091")
    (envOrDefault getenv "RELEASE_FNN_ADAPTER_APP_ID" "app_local")
    (envOrDefault getenv "RELEASE_FNN_ADAPTER_HMAC_SECRET" "secret_local")
    (envBool getenv "RELEASE_FNN_ADAPTER_INCLUDE_PAYMENT").

Section adapter.
Context (w : World) (marshal : json → string) (draws : list Event → Draw).
Context (cfg : FNNAdapterSmokeConfig).

(** A call of the client, which reads the clock and random bytes when it is made. *)
Definition post (r : Request) : R (Z * string * option json) := λ h, (h ++ [Posted r], wd_post w h r).
Definition drawn {T} (m : FiberConfig → Draw → R T) : R T := λ h,
  m (mkFiberConfig (TrimRight "/" (as_BaseURL cfg)) (as_AppID cfg) (as_HMACSecret cfg)) (draws h) h.
Definition smoke_payout (invoice : string) : PayoutInput :=
  mkPayoutInput "provider_smoke" "CKB" "12" (mkDestination "PAYMENT_REQUEST" "" invoice).
Definition smoke_invoice : CreateInvoiceInput :=
  mkInvoiceInput "fnn_adapter_smoke:ms_1" "buyer_smoke" "provider_smoke" "CKB" "12" "fnn adapter smoke".

Definition adapter_health : R () :=
  r ← attempt (Do w (get (as_BaseURL cfg) "/healthz" [] []));
  match r with
  | Err e => throw (EPrefix "adapter health" e)
  | Ok (status, _, _) =>
      fail_if (negb (status =? StatusOK)) (Errf ("adapter health returned " +:+ pretty status))
  end.
(** The payment, and the listing it must be found in. *)
Definition adapter_payment (summary : FNNAdapterSmokeSummary) : R FNNAdapterSmokeSummary :=
  _ ← fail_if (negb (ads_QuoteValid summary)) (Errf "quote payout is invalid; refusing to request payment");
  payout ← or_fail (drawn (λ c d, client_RequestPayout marshal c post d (smoke_payout (ads_Invoice summary))))
    "request payout";
  _ ← fail_if (blank (pr_ID payout)) (Errf "request payout returned empty id");
  withdrawals ← or_fail (drawn (λ c d, client_ListWithdrawalStatuses marshal c post d "provider_smoke"))
    "list withdrawal statuses";
  _ ← fail_if (negb (existsb (λ i, String.eqb (wi_ID i) (pr_ID payout)) withdrawals))
    (Errf ("requested payout " +:+ quoted (pr_ID payout) +:+ " not present in dashboard summary"));
  mret (mkAdapterSummary (ads_Invoice summary) (ads_Status summary) (ads_QuoteValid summary)
    (ads_ValidationReason summary) (pr_ID payout)).
Definition RunFNNAdapterSmoke : R FNNAdapterSmokeSummary :=
  _ ← fail_if (String.eqb (TrimRight "/" (as_BaseURL cfg)) "") (Errf "adapter base url is required");
  _ ← adapter_health;
  invoice ← or_fail (drawn (λ c d, client_CreateInvoice marshal c post d smoke_invoice)) "create invoice";
  _ ← fail_if (blank invoice) (Errf "create invoice returned empty invoice");
  state ← or_fail (drawn (λ c d, client_GetInvoiceStatus marshal c post d invoice)) "get invoice status";
  _ ← fail_if (blank state) (Errf "get invoice status returned empty state");
  quote ← or_fail (drawn (λ c d, client_QuotePayout marshal c post d (smoke_payout invoice))) "quote payout";
  let summary := mkAdapterSummary invoice state (qp_DestinationValid quote)
    (default "" (qp_ValidationMessage quote)) "" in
  if as_IncludePayment cfg then adapter_payment summary else mret summary.
End adapter.

(** ** The check of two nodes *)

Record FNNDualNodeSmokeConfig := mkDualConfig {
  dn_InvoiceRPCURL : string;
  dn_PayerRPCURL : string;
  dn_InvoiceP2PHost : string;
  dn_PayerP2PHost : string;
  dn_P2PPort : Z;
  dn_FundingAmount : string;
  dn_AcceptFundingAmount : string;
  dn_PollInterval : Z;
  dn_WaitTimeout : Z;
  dn_OpenChannelRetries : Z;
  dn_Adapter : FNNAdapterSmokeConfig;
}.
Record FNNDualNodeSmokeSummary := mkDualSummary {
  dns_InvoicePeerID : string;
  dns_PayerPeerID : string;
  dns_ChannelTemporaryID : string;
  dns_InvoiceAddress : string;
  dns_PayerAddress : string;
  dns_Adapter : FNNAdapterSmokeSummary;
}.
Definition FNNDualNodeSmokeConfigFromEnv (getenv : string → string) : FNNDualNodeSmokeConfig :=
  let adapter := FNNAdapterSmokeConfigFromEnv getenv in
  mkDualConfig
    (envOrDefault getenv "RELEASE_FNN_DUAL_INVOICE_RPC_URL" "http://fnn:8227")
    (envOrDefault getenv "RELEASE_FNN_DUAL_PAYER_RPC_URL" "http://fnn2:8227")
    (envOrDefault getenv "RELEASE_FNN_DUAL_INVOICE_P2P_HOST" "fnn")
    (envOrDefault getenv "RELEASE_FNN_DUAL_PAYER_P2P_HOST" "fnn2")
    (envIntOrDefault getenv "RELEASE_FNN_DUAL_P2P_PORT" 8228)
    (envOrDefault getenv "RELEASE_FNN_DUAL_FUNDING_AMOUNT" "10000000000")
    (TrimSpace (envOrDefault getenv "RELEASE_FNN_DUAL_ACCEPT_FUNDING_AMOUNT" ""))
    (envIntOrDefault getenv "RELEASE_FNN_DUAL_POLL_INTERVAL_MILLISECONDS" 2000 *w millisecond)
    (envIntOrDefault getenv "RELEASE_FNN_DUAL_WAIT_TIMEOUT_SECONDS" 90 *w second)
    (envIntOrDefault getenv "RELEASE_FNN_DUAL_OPEN_CHANNEL_RETRIES" 10)
    (mkAdapterSmokeConfig (as_BaseURL adapter) (as_AppID adapter) (as_HMACSecret adapter) true).
(** What is not set is filled in. *)
Definition dual_defaults (c : FNNDualNodeSmokeConfig) : FNNDualNodeSmokeConfig :=
  mkDualConfig (dn_InvoiceRPCURL c) (dn_PayerRPCURL c)
    (if blank (dn_InvoiceP2PHost c) then "fnn" else dn_InvoiceP2PHost c)
    (if blank (dn_PayerP2PHost c) then "fnn2" else dn_PayerP2PHost c)
    (if dn_P2PPort c =? 0 then 8228 else dn_P2PPort c)
    (if blank (dn_FundingAmount c) then "10000000000" else dn_FundingAmount c)
    (dn_AcceptFundingAmount c)
    (if dn_PollInterval c <=? 0 then 2 * second else dn_PollInterval c)
    (if dn_WaitTimeout c <=? 0 then 90 * second else dn_WaitTimeout c)
    (if dn_OpenChannelRetries c <=? 0 then 10 else dn_OpenChannelRetries c)
    (dn_Adapter c).

(** [derivePeerIDFromNodeID] and [multiaddrForP2P] are those of the provisioner. *)
Definition derivePeerIDFromNodeID (nodeID : string) : result string :=
  deriveProviderSettlementPeerIDFromNodeID nodeID.
Definition multiaddrForP2P (host : string) (port : Z) (peerID : string) : string :=
  "/dns4/" +:+ host +:+ "/tcp/" +:+ pretty port +:+ "/p2p/" +:+ peerID.
(** The amount the invoice node is to put in: what is set, what it accepts, or the same. *)
Definition accept_funding (c : FNNDualNodeSmokeConfig) (info : rawNodeInfo) (fundingAmountHex : string)
    : result string :=
  let configured := TrimSpace (dn_AcceptFundingAmount c) in
  let hex := if String.eqb configured "" then TrimSpace (ri_AutoAcceptChannelCKBFundingAmount info)
             else configured in
  if String.eqb hex "" then Ok fundingAmountHex
  else if HasPrefix (ToLower hex) "0x" then Ok hex
  else match releaseHexQuantity hex with
       | Ok hex => Ok hex
       | Err e => Err (EPrefix "accept funding amount" e)
       end.

Definition RunFNNDualNodeSmoke (w : World) (marshal : json → string) (draws : list Event → Draw)
    (fuel : nat) (cfg : FNNDualNodeSmokeConfig) : R FNNDualNodeSmokeSummary :=
  _ ← fail_if (blank (dn_InvoiceRPCURL cfg)) (Errf "invoice rpc url is required");
  _ ← fail_if (blank (dn_PayerRPCURL cfg)) (Errf "payer rpc url is required");
  let c := dual_defaults cfg in
  let invoiceNode := dn_InvoiceRPCURL c in
  let payerNode := dn_PayerRPCURL c in
  invoiceInfo ← or_fail (raw_NodeInfo w invoiceNode) "invoice node info";
  payerInfo ← or_fail (raw_NodeInfo w payerNode) "payer node info";
  invoicePeerID ← or_fail (lift (derivePeerIDFromNodeID (ri_NodeID invoiceInfo))) "derive invoice peer id";
  payerPeerID ← or_fail (lift (derivePeerIDFromNodeID (ri_NodeID payerInfo))) "derive payer peer id";
  let invoiceAddress := multiaddrForP2P (dn_InvoiceP2PHost c) (dn_P2PPort c) invoicePeerID in
  let payerAddress := multiaddrForP2P (dn_PayerP2PHost c) (dn_P2PPort c) payerPeerID in
  let connect := connectDualNodePeers w payerNode invoiceNode invoiceAddress payerAddress in
  _ ← connect;
  fundingAmountHex ← or_fail (lift (releaseHexQuantity (dn_FundingAmount c))) "funding amount";
  acceptFundingHex ← lift (accept_funding c invoiceInfo fundingAmountHex);
  temporaryChannelID ← or_fail (openChannelWithRetry w (Z.to_nat (dn_OpenChannelRetries c)) payerNode
    invoicePeerID fundingAmountHex (dn_PollInterval c) connect) "open channel";
  _ ← fail_if (blank temporaryChannelID) (Errf "open channel returned empty temporary channel id");
  _ ← or_fail (acceptChannelWithRetry w (Z.to_nat (dn_OpenChannelRetries c)) invoiceNode temporaryChannelID
    acceptFundingHex (dn_PollInterval c)) "accept channel";
  _ ← waitForChannelReady w fuel invoiceNode payerNode invoicePeerID payerPeerID (dn_PollInterval c);
  adapter ← (if blank (as_BaseURL (dn_Adapter c)) then mret no_adapter
             else or_fail (RunFNNAdapterSmoke w marshal draws (dn_Adapter c)) "adapter smoke");
  mret (mkDualSummary invoicePeerID payerPeerID temporaryChannelID invoiceAddress payerAddress adapter).

(** * Funding the demonstration's wallets (internal/release/demo_fnn_funding.go)

    The balances of wallets on the chain, the faucets that fill them and the waits for a
    balance to be there; the function that does it for the demonstration's three nodes
    is in [DemoReady].  Addresses are in [Bech32].  Parsing a text as JSON is the
    parameter [parse]. *)

Definition demoTopUpPayerMinimumCKBShannons : Z := 10000000000.
Definition demoFaucetAmountCKB : string := "100000".
Definition demoFaucetWait : Z := 20 * second.
Definition demoFaucetRetryDelay : Z := 5 * second.
Definition demoBalancePollInterval : Z := 5 * second.
Definition demoBalanceWaitTimeout : Z := 120 * second.
Definition demoFaucetMaxAttempts : nat := 2.
Definition demoUSDIFaucetRequestAttempts : nat := 3.
Definition demoCKBBalanceMaxPages : nat := 20.
Definition demoCentsPerFNNUnit : Z := 100.
Definition demoMinFNNFundingUnits : Z := 1.

(** ** Amounts *)

(** [big.Int.Int64] keeps the low 64 bits. *)
Definition parseHexQuantityToInt64 (raw : string) : Z :=
  let raw := TrimSpace raw in
  if String.eqb raw "" then 0
  else if HasPrefix (ToLower raw) "0x"
  then match big_int 16 (String.substring 2 (String.length raw - 2) raw) with
       | Some value => wrap64 value
       | None => 0
       end
  else match ParseInt raw with (value, None) => value | (_, Some _) => 0 end.
(** The amount of a token's cell; the same reading as the wallet's of the settlement service. *)
Definition release_parseXUDTAmount (outputData : string) : Z := parseXUDTAmount outputData.
Definition demoMaxInt64 (left right : Z) : Z := if right <=? left then left else right.
Definition demoNeededReserveToFundingUnits (neededReserveCents centsPerUnit minFundingUnits : Z) : Z :=
  if neededReserveCents <=? 0 then minFundingUnits
  else
    let centsPerUnit := if centsPerUnit <=? 0 then demoCentsPerFNNUnit else centsPerUnit in
    let units := neededReserveCents /w centsPerUnit in
    let units := if Z.rem neededReserveCents centsPerUnit =? 0 then units else units +w 1 in
    if units <? minFundingUnits then minFundingUnits else units.
Definition parseDemoAmountToCents (raw : string) : Z :=
  let raw := TrimSpace raw in
  if String.eqb raw "" then 0
  else match ParseFloat raw with
       | None => 0
       | Some parsed => f64_to_int64 (f64_mul parsed (f64_of_int 100))
       end.

Definition rawNodeUDTAutoAcceptAmount (info : rawNodeInfo) (udtTypeScript : UDTTypeScript) : Z :=
  match List.find (λ cfg, same_script EqualFold (uc_Script cfg) udtTypeScript) (ri_UDTCfgInfos info) with
  | Some cfg => parseHexQuantityToInt64 (uc_AutoAcceptAmount cfg)
  | None => 0
  end.

(** [parseProviderSettlementUDTTypeScriptJSON]; the payload is read as the wallet reads its own. *)
Definition parseProviderSettlementUDTTypeScriptJSON (parse : string → option json) (raw : string)
    : result UDTTypeScript :=
  match script_payload parse (TrimSpace raw) with
  | None => Err decode_error
  | Some fields =>
      let script := mkUDTTypeScript (read_string fields ["codeHash"; "code_hash"])
        (read_string fields ["hashType"; "hash_type"]) (read_string fields ["args"]) in
      if blank (udt_CodeHash script) || blank (udt_HashType script) || blank (udt_Args script)
      then Err (Errf "missing code hash, hash type, or args") else Ok script
  end.

(** The faucets and the chain's node, of [USDIMarketplaceE2EConfig]. *)
Record FaucetConfig := mkFaucets {
  fa_CKBFaucetAPIBase : string;
  fa_CKBFaucetFallbackAPIBase : string;
  fa_USDIFaucetAPIBase : string;
}.

Section chain.
Context (w : World).

(** [releaseCKBRPCClient.Call] *)
Definition ckb_rpc {T} (endpoint method : string) (params : json) (target : json → option T) : R T :=
  id ← nanoSuffix w;
  '(_, _, body) ← Do w (rpc_request endpoint id method params);
  lift (release_answer rpc_error method target body).

Definition postDemoJSON (endpoint path : string) (payload : json) : R () :=
  '(status, _, _) ← Do w (mkOutgoing "POST" endpoint path [] json_headers (Some payload));
  fail_if ((status <? StatusOK) || (300 <=? status)) (Errf ("status " +:+ pretty status)).

(** ** Balances *)

(** A page of cells: what they are worth, how many they are, and the cursor after them. *)
Definition decode_page (worth : list (string * json) → option Z) (f : list (string * json))
    : option (list Z * string) :=
  cells ← decode_field [] (as_list 0 (λ v, o ← as_object v; worth o)) "objects" f;
  cursor ← string_field "last_cursor" f; Some (cells, cursor).
Definition ckb_worth (o : list (string * json)) : option Z :=
  output ← object_field "output" o; c ← string_field "capacity" output; Some (parseHexQuantityToInt64 c).
Definition usdi_worth (o : list (string * json)) : option Z :=
  d ← string_field "output_data" o; Some (release_parseXUDTAmount d).
Fixpoint query_pages (pages : nat) (endpoint : string) (search : json)
    (worth : list (string * json) → option Z) (cursor : string) (total : Z) : R Z :=
  match pages with
  | O => mret total
  | S pages =>
      '(cells, last) ← ckb_rpc endpoint "get_cells"
        (JArr ([search; JStr "asc"; JStr "0x64"]
               ++ if String.eqb cursor "0x" then [] else [JStr cursor]))
        (target_struct (decode_page worth));
      let total := foldl add64 total cells in
      if bool_decide (cells = []) || blank last || String.eqb last cursor then mret total
      else query_pages pages endpoint search worth last total
  end.
Definition script_json (s : RawUDTTypeScript) : json :=
  string_json [("code_hash", rs_CodeHash s); ("hash_type", rs_HashType s); ("args", rs_Args s)].
Definition queryCKBBalanceForLockScript (endpoint : string) (lockScript : RawUDTTypeScript) : R Z :=
  query_pages demoCKBBalanceMaxPages endpoint
    (JObj [("script", script_json lockScript); ("script_type", JStr "lock")]) ckb_worth "0x" 0.
Definition queryUSDIBalanceForLockScript (endpoint : string) (lockScript : RawUDTTypeScript)
    (typeScript : UDTTypeScript) : R Z :=
  query_pages demoCKBBalanceMaxPages endpoint
    (JObj [("script", script_json lockScript); ("script_type", JStr "lock");
           ("filter", JObj [("script", string_json [("code_hash", udt_CodeHash typeScript);
             ("hash_type", udt_HashType typeScript); ("args", udt_Args typeScript)])])])
    usdi_worth "0x" 0.

(** The waits for a balance: a failed query is tried again, and is the error at the end. *)
Definition balance_look (what : string) (query : R Z) (requiredAmount : Z) : R (Polled ()) :=
  r ← attempt query;
  mret match r with
       | Ok balance =>
           if requiredAmount <=? balance then Done ()
           else Again (Errf (what +:+ " balance still below required threshold (" +:+ pretty balance +:+
                             " < " +:+ pretty requiredAmount +:+ ")"))
       | Err e => Again e
       end.
Definition wait_for_balance (fuel : nat) (what : string) (query : R Z) (requiredAmount : Z) : R () :=
  now ← time_now w;
  poll w fuel (now + demoBalanceWaitTimeout) demoBalancePollInterval (balance_look what query requiredAmount).
Definition waitForCKBBalanceThreshold (fuel : nat) (endpoint : string) (lockScript : RawUDTTypeScript)
    (requiredAmount : Z) : R () :=
  wait_for_balance fuel "ckb" (queryCKBBalanceForLockScript endpoint lockScript) requiredAmount.
Definition waitForUSDIBalanceThreshold (fuel : nat) (endpoint : string) (lockScript : RawUDTTypeScript)
    (typeScript : UDTTypeScript) (requiredAmount : Z) : R () :=
  wait_for_balance fuel "usdi" (queryUSDIBalanceForLockScript endpoint lockScript typeScript) requiredAmount.

(** ** Faucets *)

Section faucets.
Context (f : FaucetConfig).
Definition requestCKBFaucet (address label : string) : R () :=
  primary ← attempt (postDemoJSON
    (TrimRight "/" (firstNonEmptyString [fa_CKBFaucetAPIBase f; "https://faucet-api.nervos.org"]))
    "/claim_events"
    (JObj [("claim_event", string_json [("address_hash", address); ("amount", demoFaucetAmountCKB)])]));
  match primary with
  | Ok _ => sleepWithContext w demoFaucetWait
  | Err _ =>
      _ ← or_fail (postDemoJSON
        (TrimRight "/" (firstNonEmptyString
          [fa_CKBFaucetFallbackAPIBase f; "https://ckb-utilities.random-walk.co.jp/api"])) "/faucet"
        (string_json [("address", address); ("token", "ckb")])) ("request ckb faucet for " +:+ label);
      sleepWithContext w demoFaucetWait
  end.

(** One request after another; [tries] is how many there may still be. *)
Fixpoint usdi_faucet_attempts (tries : nat) (address label : string) (retryDelay settleWait : Z) : R () :=
  match tries with
  | O => mret tt
  | S tries =>
      r ← attempt (postDemoJSON
        (TrimRight "/" (firstNonEmptyString
          [fa_USDIFaucetAPIBase f; "https://ckb-utilities.random-walk.co.jp/api"])) "/faucet"
        (string_json [("address", address); ("token", "usdi")]));
      match r with
      | Ok _ => sleepWithContext w settleWait
      | Err e =>
          if Nat.eqb tries 0 then throw (EPrefix ("request usdi faucet for " +:+ label) e)
          else
            _ ← (if 0 <? retryDelay then sleepWithContext w retryDelay else mret tt);
            usdi_faucet_attempts tries address label retryDelay settleWait
      end
  end.
Definition requestUSDIFaucetWithRetry (address label : string) (maxAttempts : nat)
    (retryDelay settleWait : Z) : R () :=
  usdi_faucet_attempts (Nat.max 1 maxAttempts) address label retryDelay settleWait.
Definition requestUSDIFaucet (address label : string) : R () :=
  requestUSDIFaucetWithRetry address label demoUSDIFaucetRequestAttempts demoFaucetRetryDelay demoFaucetWait.

Definition enough (r : result Z) (requiredAmount : Z) : bool :=
  match r with Ok current => requiredAmount <=? current | Err _ => false end.
Definition ensureCKBBalanceOrRequestFaucet (fuel : nat) (endpoint address : string)
    (lockScript : RawUDTTypeScript) (requiredAmount : Z) (label : string) : R () :=
  if requiredAmount <=? 0 then mret tt
  else
    current ← attempt (queryCKBBalanceForLockScript endpoint lockScript);
    if enough current requiredAmount then mret tt
    else _ ← requestCKBFaucet address label;
         waitForCKBBalanceThreshold fuel endpoint lockScript requiredAmount.
(** Two rounds of a faucet and a wait; the failure of the last is the error. *)
Fixpoint usdi_rounds (rounds fuel : nat) (endpoint address : string) (lockScript : RawUDTTypeScript)
    (typeScript : UDTTypeScript) (requiredAmount : Z) (label : string) (lastErr : option error) : R () :=
  match rounds with
  | O => throw (default (Errf ("usdi balance still below required threshold for " +:+ label)) lastErr)
  | S rounds =>
      r ← attempt (_ ← requestUSDIFaucet address label;
                   waitForUSDIBalanceThreshold fuel endpoint lockScript typeScript requiredAmount);
      match r with
      | Ok _ => mret tt
      | Err e => usdi_rounds rounds fuel endpoint address lockScript typeScript requiredAmount label (Some e)
      end
  end.
Definition ensureUSDIBalanceOrRequestFaucet (fuel : nat) (endpoint address : string)
    (lockScript : RawUDTTypeScript) (typeScript : UDTTypeScript) (requiredAmount : Z) (label : string) : R () :=
  if requiredAmount <=? 0 then mret tt
  else
    current ← attempt (queryUSDIBalanceForLockScript endpoint lockScript typeScript);
    if enough current requiredAmount then mret tt
    else usdi_rounds demoFaucetMaxAttempts fuel endpoint address lockScript typeScript requiredAmount label None.
End faucets.
End chain.
