(* ===== verification/ReleaseUsdi.v ===== *)
(** * The marketplace run and its calls (internal/release/usdi_marketplace_e2e.go)

    Its settings, the carrier it prepares, the buyer's deposit and the wait for its
    credit, the bindings of the provider, payouts, reservations, callbacks and waits
    for records and orders.  Parsing a text as JSON, writing JSON as text and the
    resolver of host names are parameters. *)

From Stdlib Require Import Ascii.
From S2P Require Import Prelude GoNum GoText GoFloat Core GoTime Repo App CarrierEvents Amounts.
From S2P Require Import Http GoBytes Signatures DemoEnv CodeAgent Traces Fnn FiberNode CkbWallet.
From S2P Require Import Bech32 ReleaseClient ReleaseSmoke ReleaseFnn.

Record USDIMarketplaceE2EConfig := mkUsdiConfig {
  uc_APIBaseURL : string;
  uc_IAMBaseURL : string;
  uc_SettlementBaseURL : string;
  uc_SettlementServiceToken : string;
  uc_ExecutionBaseURL : string;
  uc_ExecutionEventToken : string;
  uc_GatewayServiceToken : string;
  uc_FiberAdapterBaseURL : string;
  uc_FiberAdapterAppID : string;
  uc_FiberAdapterHMACSecret : string;
  uc_CarrierBaseURL : string;
  uc_CarrierGatewayToken : string;
  uc_CarrierIntegrationToken : string;
  uc_CarrierHostID : string;
  uc_CarrierAgentID : string;
  uc_CarrierBackend : string;
  uc_CarrierWorkspaceRoot : string;
  uc_CarrierRemoteHostName : string;
  uc_CarrierRemoteHostHost : string;
  uc_CarrierRemoteHostPort : Z;
  uc_CarrierRemoteHostUser : string;
  uc_CarrierRemoteKeyPath : string;
  uc_CarrierAuthConfigured : bool;
  uc_CarrierCallbackSecret : string;
  uc_CarrierCallbackKeyID : string;
  uc_IncludeCarrierProbe : bool;
  uc_FaucetTxHash : string;
  uc_ExplorerProofURLs : list string;
  uc_CKBRPCURL : string;
  uc_Faucets : FaucetConfig;
  uc_PayerRPCURL : string;
  uc_BuyerTopUpInvoiceRPCURL : string;
  uc_BuyerTopUpInvoiceP2PHost : string;
  uc_BuyerTopUpInvoiceP2PPort : Z;
  uc_BuyerTopUpUDTTypeScriptJSON : string;
  uc_ProviderSettlementRPCURL : string;
  uc_ProviderSettlementP2PHost : string;
  uc_ProviderSettlementP2PPort : Z;
  uc_ProviderSettlementUDTTypeScriptJSON : string;
}.
(** The host and the agent the preparation of the carrier settles on. *)
Definition on_host (hostID agentID : string) (c : USDIMarketplaceE2EConfig) : USDIMarketplaceE2EConfig :=
  mkUsdiConfig (uc_APIBaseURL c) (uc_IAMBaseURL c) (uc_SettlementBaseURL c) (uc_SettlementServiceToken c)
    (uc_ExecutionBaseURL c) (uc_ExecutionEventToken c) (uc_GatewayServiceToken c) (uc_FiberAdapterBaseURL c)
    (uc_FiberAdapterAppID c) (uc_FiberAdapterHMACSecret c) (uc_CarrierBaseURL c) (uc_CarrierGatewayToken c)
    (uc_CarrierIntegrationToken c) hostID agentID (uc_CarrierBackend c)
    (uc_CarrierWorkspaceRoot c) (uc_CarrierRemoteHostName c) (uc_CarrierRemoteHostHost c)
    (uc_CarrierRemoteHostPort c) (uc_CarrierRemoteHostUser c) (uc_CarrierRemoteKeyPath c)
    (uc_CarrierAuthConfigured c) (uc_CarrierCallbackSecret c) (uc_CarrierCallbackKeyID c)
    (uc_IncludeCarrierProbe c) (uc_FaucetTxHash c) (uc_ExplorerProofURLs c) (uc_CKBRPCURL c) (uc_Faucets c)
    (uc_PayerRPCURL c) (uc_BuyerTopUpInvoiceRPCURL c) (uc_BuyerTopUpInvoiceP2PHost c)
    (uc_BuyerTopUpInvoiceP2PPort c) (uc_BuyerTopUpUDTTypeScriptJSON c) (uc_ProviderSettlementRPCURL c)
    (uc_ProviderSettlementP2PHost c) (uc_ProviderSettlementP2PPort c)
    (uc_ProviderSettlementUDTTypeScriptJSON c).

Definition USDIMarketplaceE2EConfigFromEnv (getenv : string → string) : USDIMarketplaceE2EConfig :=
  let env := envOrDefault getenv in
  mkUsdiConfig
    (env "RELEASE_USDI_E2E_API_BASE_URL" (env "RELEASE_SMOKE_API_BASE_URL" "http://127.0.0.1:8080"))
    (env "RELEASE_USDI_E2E_IAM_BASE_URL" (env "RELEASE_SMOKE_IAM_BASE_URL" ""))
    (env "RELEASE_USDI_E2E_SETTLEMENT_BASE_URL" (env "RELEASE_SMOKE_SETTLEMENT_BASE_URL" "http://127.0.0.1:8083"))
    (env "RELEASE_USDI_E2E_SETTLEMENT_SERVICE_TOKEN" (env "RELEASE_SMOKE_SETTLEMENT_SERVICE_TOKEN" ""))
    (env "RELEASE_USDI_E2E_EXECUTION_BASE_URL" (env "RELEASE_SMOKE_EXECUTION_BASE_URL" "http://127.0.0.1:8085"))
    (env "RELEASE_USDI_E2E_EXECUTION_EVENT_TOKEN" (env "RELEASE_SMOKE_EXECUTION_EVENT_TOKEN" ""))
    (env "RELEASE_USDI_E2E_GATEWAY_SERVICE_TOKEN" (env "EXECUTION_GATEWAY_TOKEN" ""))
    (env "RELEASE_USDI_E2E_FIBER_ADAPTER_BASE_URL" (env "FIBER_RPC_URL" ""))
    (env "RELEASE_USDI_E2E_FIBER_ADAPTER_APP_ID" (env "FIBER_APP_ID" ""))
    (env "RELEASE_USDI_E2E_FIBER_ADAPTER_HMAC_SECRET" (env "FIBER_HMAC_SECRET" ""))
    (env "RELEASE_USDI_E2E_CARRIER_BASE_URL" (env "CARRIER_GATEWAY_URL" "http://127.0.0.1:8787"))
    (env "RELEASE_USDI_E2E_CARRIER_GATEWAY_TOKEN" (env "CARRIER_GATEWAY_API_TOKEN" ""))
    (env "RELEASE_USDI_E2E_CARRIER_INTEGRATION_TOKEN" (env "CARRIER_GATEWAY_API_TOKEN" ""))
    (env "RELEASE_USDI_E2E_CARRIER_HOST_ID" "host_1")
    (env "RELEASE_USDI_E2E_CARRIER_AGENT_ID" "main")
    (env "RELEASE_USDI_E2E_CARRIER_BACKEND" "codex")
    (env "RELEASE_USDI_E2E_CARRIER_WORKSPACE_ROOT" "/workspace")
    (env "RELEASE_USDI_E2E_CARRIER_REMOTE_HOST_NAME" "")
    (env "RELEASE_USDI_E2E_CARRIER_REMOTE_HOST_HOST" "")
    (envIntOrDefault getenv "RELEASE_USDI_E2E_CARRIER_REMOTE_HOST_PORT" 22)
    (env "RELEASE_USDI_E2E_CARRIER_REMOTE_HOST_USER" "carrier")
    (env "RELEASE_USDI_E2E_CARRIER_REMOTE_KEY_PATH" "/keys/id_ed25519")
    (negb (blank (env "OPENAI_API_KEY" "")) || negb (blank (env "OPENAI_CODEX_TOKEN" "")))
    (env "RELEASE_USDI_E2E_CARRIER_CALLBACK_SECRET" "usdi-e2e-callback-secret")
    (env "RELEASE_USDI_E2E_CARRIER_CALLBACK_KEY_ID" "usdi-e2e-key")
    (envBool getenv "RELEASE_USDI_E2E_INCLUDE_CARRIER_PROBE")
    (TrimSpace (env "RELEASE_USDI_E2E_FAUCET_TX_HASH" ""))
    (splitCSV (env "RELEASE_USDI_E2E_EXPLORER_PROOF_URLS" ""))
    (env "RELEASE_USDI_E2E_CKB_RPC_URL" (env "FNN_CKB_RPC_URL" (env "FNN2_CKB_RPC_URL" "https://testnet.ckbapp.dev/")))
    (mkFaucets (env "RELEASE_USDI_E2E_CKB_FAUCET_API_BASE" "https://faucet-api.nervos.org")
      (env "RELEASE_USDI_E2E_CKB_FAUCET_FALLBACK_API_BASE" "https://ckb-utilities.random-walk.co.jp/api")
      (env "RELEASE_USDI_E2E_USDI_FAUCET_API_BASE" "https://ckb-utilities.random-walk.co.jp/api"))
    (env "RELEASE_USDI_E2E_PAYER_RPC_URL" (env "PROVIDER_SETTLEMENT_FNN_TREASURY_RPC_URL" "http://fnn2:8227"))
    (env "RELEASE_USDI_E2E_TOPUP_INVOICE_RPC_URL" (env "FNN_INVOICE_RPC_URL" "http://fnn:8227"))
    (env "RELEASE_USDI_E2E_TOPUP_INVOICE_P2P_HOST" "fnn")
    (envIntOrDefault getenv "RELEASE_USDI_E2E_TOPUP_INVOICE_P2P_PORT" 8228)
    (env "RELEASE_USDI_E2E_TOPUP_UDT_TYPE_SCRIPT_JSON" (env "FIBER_USDI_UDT_TYPE_SCRIPT_JSON" ""))
    (env "RELEASE_USDI_E2E_PROVIDER_SETTLEMENT_RPC_URL" "http://provider-fnn:8227")
    (env "RELEASE_USDI_E2E_PROVIDER_SETTLEMENT_P2P_HOST" "provider-fnn")
    (envIntOrDefault getenv "RELEASE_USDI_E2E_PROVIDER_SETTLEMENT_P2P_PORT" 8228)
    (env "RELEASE_USDI_E2E_PROVIDER_SETTLEMENT_UDT_TYPE_SCRIPT_JSON" (env "FIBER_USDI_UDT_TYPE_SCRIPT_JSON" "")).

Definition marketplaceTreasuryUserID : string := "platform_treasury".
Definition minutes (n : Z) : Z := n * (60 * second).
Definition usdiMarketplaceProviderPayoutRetryAttempts : nat := 3.
Definition usdiMarketplaceProviderPayoutRetryDelay : Z := 2 * second.
Definition usdiMarketplaceBuyerTopUpAmount : string := "10.00".
Definition usdiMarketplaceBuyerDepositCreditWaitFloor : Z := minutes 3.
Definition usdiMarketplaceBuyerDepositBlockIntervalEstimate : Z := 12 * second.
Definition usdiMarketplaceBuyerDepositConfirmationGrace : Z := minutes 2.
Definition usdiMarketplaceBuyerDepositSweepCKBThreshold : Z := 20000000000.
Definition waitBuyerDepositCreditPollInterval : Z := 3 * second.
Definition waitBuyerDepositCreditFaucetRetryDelay : Z := 10 * second.

(** ** What answers hold *)

Definition as_uint (v : json) : option Z :=
  match v with JInt z => if bool_decide (0 ≤ z ≤ max_uint64) then Some z else None | _ => None end.
Definition as_time (v : json) : option Z := s ← as_string v; ParseJSONTime s.
Definition time_field : string → list (string * json) → option Z := decode_field 0 as_time.

Record buyerDepositSummaryResponse := mkDepositSummary {
  bd_Address : string;
  bd_CreditedBalanceCents : Z;
  bd_ConfirmationBlocks : Z;
  bd_RawOnChainUnits : Z;
  bd_RawConfirmedUnits : Z;
  bd_RawMinimumSweepUnits : Z;
}.
Definition decode_deposit_summary (body : option json) : option buyerDepositSummaryResponse :=
  f ← body_fields body;
  _ ← string_field "buyerOrgId" f; _ ← string_field "asset" f; a ← string_field "address" f;
  _ ← string_field "onChainBalance" f; _ ← string_field "confirmedBalance" f;
  _ ← string_field "creditedBalance" f; c ← int_field "creditedBalanceCents" f;
  _ ← string_field "minimumSweepAmount" f; b ← decode_field 0 as_uint "confirmationBlocks" f;
  o ← int_field "rawOnChainUnits" f; k ← int_field "rawConfirmedUnits" f;
  m ← int_field "rawMinimumSweepUnits" f; Some (mkDepositSummary a c b o k m).

(** What is used of a [ProviderLiquidityReservation], of a [ProviderLiquidityPool] and of
    a [ProviderCarrierBinding]; the other fields must have their types too. *)
Record reservationAnswer := mkReservationAnswer {
  ra_ID : string; ra_ChannelID : string; ra_ReuseSource : string; ra_Status : string;
}.
Definition decode_reservation (body : option json) : option reservationAnswer :=
  f ← body_fields body; r ← object_field "reservation" f;
  i ← string_field "id" r; _ ← string_field "orderId" r;
  _ ← string_field "providerSettlementBindingId" r; _ ← string_field "providerOrgId" r;
  _ ← int_field "reservedCents" r; c ← string_field "channelId" r; u ← string_field "reuseSource" r;
  s ← string_field "status" r; _ ← time_field "createdAt" r; _ ← time_field "releasedAt" r;
  Some (mkReservationAnswer i c u s).
Record poolAnswer := mkPoolAnswer {
  pa_Status : string; pa_ReadyChannelCount : Z; pa_ReservedOutstandingCents : Z;
  pa_AvailableToAllocateCents : Z;
}.
Definition decode_pool (body : option json) : option poolAnswer :=
  f ← body_fields body; p ← object_field "pool" f;
  _ ← string_field "providerSettlementBindingId" p; _ ← string_field "providerOrgId" p;
  _ ← string_field "asset" p; s ← string_field "status" p; n ← int_field "readyChannelCount" p;
  _ ← int_field "totalSpendableCents" p; o ← int_field "reservedOutstandingCents" p;
  a ← int_field "availableToAllocateCents" p; _ ← time_field "lastHealthyAt" p;
  _ ← time_field "lastFailureAt" p; _ ← time_field "warmUntil" p; _ ← string_field "disconnectReason" p;
  Some (mkPoolAnswer s n o a).

Record fundingRecordAnswer := mkRecordAnswer { fr_ID : string; fr_State : string }.
Definition decode_records (body : option json) : option (list fundingRecordAnswer) :=
  f ← body_fields body;
  decode_field [] (as_list (mkRecordAnswer "" "") (λ v, r ← as_object v; i ← string_field "id" r;
    s ← string_field "state" r; Some (mkRecordAnswer i s))) "records" f.
Definition decode_sync (body : option json) : option (Z * Z) :=
  f ← body_fields body; c ← int_field "creditedCents" f; n ← int_field "sweepCount" f; Some (c, n).

(** [fmt.Sprint] of a list of strings *)
Definition listed (l : list string) : string := "[" +:+ Join " " l +:+ "]".

(** ** Amounts *)

(** [strconv.FormatFloat(x, 'f', 2, 64)] is [fmt_2f]. *)
Definition amountFromCents (cents : Z) : string :=
  fmt_2f (f64_div (f64_of_int cents) (f64_of_int 100)).

Section calls.
Context (w : World).

(** ** The carrier's host *)

Definition carrier_headers (token : string) : list (string * string) :=
  [("Accept", "application/json"); ("Content-Type", "application/json"); ("Authorization", bearer token)].
(** A request whose refusal is told with the body's text. *)
Definition carrier_post (what baseURL path token : string) (payload : json) : R (option json) :=
  '(status, text, body) ← Do w (mkOutgoing "POST" (service_base baseURL) path [] (carrier_headers token)
    (Some payload));
  if StatusBadRequest <=? status
  then throw (Errf (what +:+ " status " +:+ pretty status +:+ ": " +:+ TrimSpace text))
  else mret body.
Definition createCarrierRemoteHost (baseURL token : string) (payload : json) : R string :=
  body ← carrier_post "carrier remote host create" baseURL "/api/v1/remote/hosts" token payload;
  id ← decoded (inner_string "host" "id") body;
  if blank id then throw (Errf "carrier remote host create: missing host id") else mret id.
Definition installCarrierCodeAgent (baseURL token hostID agentID backend workspaceRoot : string) : R () :=
  _ ← carrier_post "carrier codeagent install" baseURL
    ("/api/v1/remote/hosts/" +:+ hostID +:+ "/instances/" +:+ agentID +:+ "/codeagent/install") token
    (JObj [("backend", JStr (firstNonEmptyString [backend; "codex"]));
           ("workspaceRoot", JStr (firstNonEmptyString [workspaceRoot; "/workspace"]))]);
  mret tt.
(** The settings with the host that was made, where one is to be made. *)
Definition bootstrapCarrierTarget (cfg : USDIMarketplaceE2EConfig) : R USDIMarketplaceE2EConfig :=
  if blank (uc_CarrierBaseURL cfg) || blank (uc_CarrierGatewayToken cfg) || blank (uc_CarrierRemoteHostHost cfg)
  then mret cfg
  else
    hostID ← or_fail (createCarrierRemoteHost (uc_CarrierBaseURL cfg) (uc_CarrierGatewayToken cfg)
      (JObj [("name", JStr (firstNonEmptyString [uc_CarrierRemoteHostName cfg; "usdi-remote"]));
             ("host", JStr (TrimSpace (uc_CarrierRemoteHostHost cfg)));
             ("port", JInt (uc_CarrierRemoteHostPort cfg));
             ("user", JStr (firstNonEmptyString [uc_CarrierRemoteHostUser cfg; "carrier"]));
             ("authMode", JStr "private_key");
             ("keyPath", JStr (firstNonEmptyString [uc_CarrierRemoteKeyPath cfg; "/keys/id_ed25519"]));
             ("runtimeMode", JStr "on_demand")])) "bootstrap carrier remote host";
    let cfg := on_host hostID (if blank (uc_CarrierAgentID cfg) then "main" else uc_CarrierAgentID cfg) cfg in
    _ ← or_fail (installCarrierCodeAgent (uc_CarrierBaseURL cfg) (uc_CarrierGatewayToken cfg)
      (uc_CarrierHostID cfg) (uc_CarrierAgentID cfg) (uc_CarrierBackend cfg) (uc_CarrierWorkspaceRoot cfg))
      "bootstrap carrier codeagent";
    mret cfg.

(** ** Deposits of the buyer *)

(** A buyer without a session is told by the service's token, where there is one. *)
Definition buyer_headers (buyer : actorIdentity) (serviceToken : string) : list (string * string) :=
  if blank (ai_Token buyer) && negb (blank serviceToken) then service_header serviceToken
  else authHeaders (ai_Token buyer).
Definition createBuyerTopUp (baseURL : string) (buyer : actorIdentity) (serviceToken : string)
    : R buyerDepositSummaryResponse :=
  summary ← or_fail (postJSONWithHeaders w baseURL "/v1/topups" (buyer_headers buyer serviceToken)
    (JObj ([("asset", JStr "USDI")] ++ if_blank (ai_Token buyer) "buyerOrgId" (ai_OrgID buyer)))
    decode_deposit_summary) "create buyer topup";
  if String.eqb (bd_Address summary) "" then throw (Errf "create buyer topup: missing deposit address")
  else mret summary.
Definition getBuyerDepositSummary (baseURL : string) (buyer : actorIdentity) (serviceToken : string)
    : R buyerDepositSummaryResponse :=
  '(status, _, body) ← Do w (get baseURL "/v1/buyer/deposit-address"
    (if blank (ai_Token buyer) then [("buyerOrgId", ai_OrgID buyer)] else [])
    (buyer_headers buyer serviceToken));
  if StatusBadRequest <=? status then throw (statusError status) else decoded decode_deposit_summary body.
Definition syncBuyerDeposits (baseURL serviceToken : string) : R (Z * Z) :=
  or_fail (postJSONWithHeaders w baseURL "/v1/buyer/deposits/sync" (service_header serviceToken) (JObj [])
    decode_sync) "sync buyer deposits".

(** A duration is an int64 of nanoseconds. *)
Definition buyerDepositCreditWaitTimeout (summary : buyerDepositSummaryResponse) : Z :=
  let timeout := usdiMarketplaceBuyerDepositCreditWaitFloor in
  if bd_ConfirmationBlocks summary =? 0 then timeout
  else
    let estimated := wrap64 (bd_ConfirmationBlocks summary) *w usdiMarketplaceBuyerDepositBlockIntervalEstimate
                     +w usdiMarketplaceBuyerDepositConfirmationGrace in
    if timeout <? estimated then estimated else timeout.
Definition extendBuyerDepositDeadline (deadline : option Z) (now : Z)
    (summary : buyerDepositSummaryResponse) : Z :=
  let candidate := now + buyerDepositCreditWaitTimeout summary in
  match deadline with
  | None => candidate
  | Some deadline => if deadline <? candidate then candidate else deadline
  end.

Section deposits.
Context (bech32_Decode : string → result (Encoding * string * list Z)).
Context (sdk_ConvertBits : list Z → Z → Z → bool → result (list Z)).
Context (DeserializeHashTypeByte : Z → result string).
Context (fuel : nat) (cfg : USDIMarketplaceE2EConfig).

Definition ensureBuyerDepositSweepCKBFeeBalance (ckbRPCURL address : string) : R () :=
  lockScript ← or_fail (lift (decodeCKBAddressToRawScript bech32_Decode sdk_ConvertBits
    DeserializeHashTypeByte address)) "decode buyer deposit address for ckb fee balance";
  or_fail (ensureCKBBalanceOrRequestFaucet w (uc_Faucets cfg) fuel ckbRPCURL address lockScript
    usdiMarketplaceBuyerDepositSweepCKBThreshold "buyer-topup-fee") "ensure buyer deposit sweep fee balance".

(** What the wait for the credit keeps from one round to the next; [None] is a zero time. *)
Record CreditWait := mkCreditWait {
  wc_deadline : option Z;
  wc_rounds : nat;
  wc_feeReady : bool;
  wc_nextFaucet : option Z;
  wc_faucetErr : option error;
}.
Definition fresh_wait : CreditWait := mkCreditWait None 0 false None None.

Definition faucet_due (s : CreditWait) (now : Z) (summary : buyerDepositSummaryResponse) : bool :=
  (bd_RawOnChainUnits summary <? bd_RawMinimumSweepUnits summary) && (wc_rounds s <? 3)%nat
  && match wc_nextFaucet s with None => true | Some next => negb (now <? next) end.
Definition credit_faucet (s : CreditWait) (now : Z) (summary : buyerDepositSummaryResponse) : R CreditWait :=
  if negb (faucet_due s now summary) then mret s
  else
    r ← attempt (requestUSDIFaucet w (uc_Faucets cfg) (bd_Address summary) "buyer-topup");
    mret match r with
         | Err e => mkCreditWait (wc_deadline s) (wc_rounds s) (wc_feeReady s)
                      (Some (now + waitBuyerDepositCreditFaucetRetryDelay)) (Some e)
         | Ok _ => mkCreditWait (Some (extendBuyerDepositDeadline (wc_deadline s) now summary))
                     (S (wc_rounds s)) (wc_feeReady s) None None
         end.
Definition fee_ready (s : CreditWait) : CreditWait :=
  mkCreditWait (wc_deadline s) (wc_rounds s) true (wc_nextFaucet s) (wc_faucetErr s).
(** The sweep; [true] for another round at once, after the service failed. *)
Definition credit_sync (ckbRPCURL : string) (s : CreditWait) (summary : buyerDepositSummaryResponse)
    : R (bool * CreditWait) :=
  if bd_RawConfirmedUnits summary <? bd_RawMinimumSweepUnits summary then mret (false, s)
  else
    _ ← (if wc_feeReady s then mret tt
         else ensureBuyerDepositSweepCKBFeeBalance ckbRPCURL (bd_Address summary));
    let s := fee_ready s in
    r ← attempt (syncBuyerDeposits (uc_SettlementBaseURL cfg) (uc_SettlementServiceToken cfg));
    match r with
    | Ok _ => mret (false, s)
    | Err e =>
        if isStatusCode e StatusInternalServerError then
          fee ← attempt (ensureBuyerDepositSweepCKBFeeBalance ckbRPCURL (bd_Address summary));
          match fee with
          | Ok _ => mret (true, s)
          | Err e => throw (EPrefix "sync buyer deposits after rechecking fee balance"
                              (Errf (error_text e +:+ " (fee balance: " +:+ error_text e +:+ ")")))
          end
        else throw e
    end.
Definition credit_timeout (s : CreditWait) (amount : string) : error :=
  let late := "timeout waiting buyer deposit credit >= " +:+ amount in
  match wc_faucetErr s with
  | Some e => EPrefix (late +:+ " after faucet error") e
  | None => Errf late
  end.
Fixpoint credit_rounds (rounds : nat) (ckbRPCURL : string) (buyer : actorIdentity) (amount : string)
    (s : CreditWait) : R buyerDepositSummaryResponse :=
  match rounds with
  | O => throw out_of_fuel
  | S rounds =>
      summary ← getBuyerDepositSummary (uc_SettlementBaseURL cfg) buyer (uc_SettlementServiceToken cfg);
      deadline ← (match wc_deadline s with
                  | Some deadline => mret deadline
                  | None => now ← time_now w; mret (extendBuyerDepositDeadline None now summary)
                  end);
      let s := mkCreditWait (Some deadline) (wc_rounds s) (wc_feeReady s) (wc_nextFaucet s) (wc_faucetErr s) in
      if parseDemoAmountToCents amount <=? bd_CreditedBalanceCents summary then mret summary
      else
        now ← time_now w;
        s ← credit_faucet s now summary;
        '(again, s) ← credit_sync ckbRPCURL s summary;
        if (again : bool) then credit_rounds rounds ckbRPCURL buyer amount s
        else
          now ← time_now w;
          if default 0 (wc_deadline s) <? now then throw (credit_timeout s amount)
          else
            _ ← sleepWithContext w waitBuyerDepositCreditPollInterval;
            credit_rounds rounds ckbRPCURL buyer amount s
  end.
Definition waitBuyerDepositCredit (rounds : nat) (buyer : actorIdentity) (amount : string)
    : R buyerDepositSummaryResponse :=
  credit_rounds rounds (firstNonEmptyString [uc_CKBRPCURL cfg; "https://testnet.ckbapp.dev/"]) buyer amount
    fresh_wait.
End deposits.
End calls.

Section provider.
Context (w : World) (getenv : string → string) (parse : string → option json).
Context (resolve : list Event → string → result (list (option string))) (marshal : json → string).

(** ** The provider's bindings *)

Definition carrier_binding_payload (providerOrgID : string) (cfg : USDIMarketplaceE2EConfig) : json :=
  JObj [("providerOrgId", JStr providerOrgID); ("carrierBaseUrl", JStr (uc_CarrierBaseURL cfg));
        ("integrationToken", JStr (uc_CarrierIntegrationToken cfg));
        ("hostId", JStr (uc_CarrierHostID cfg)); ("agentId", JStr (uc_CarrierAgentID cfg));
        ("backend", JStr (uc_CarrierBackend cfg)); ("workspaceRoot", JStr (uc_CarrierWorkspaceRoot cfg));
        ("callbackSecret", JStr (uc_CarrierCallbackSecret cfg));
        ("callbackKeyId", JStr (uc_CarrierCallbackKeyID cfg))].
Definition registerProviderCarrierBinding (baseURL providerOrgID : string) (cfg : USDIMarketplaceE2EConfig)
    : R string :=
  created "register provider carrier binding" "binding id"
    (postJSON w baseURL "/api/v1/carrier-bindings" (carrier_binding_payload providerOrgID cfg)
      (inner_string "binding" "id")).
Definition verifyProviderCarrierBinding (baseURL bindingID : string) : R () :=
  postJSON w baseURL ("/api/v1/carrier-bindings/" +:+ bindingID +:+ "/verify") (JObj []) nothing.

(** An address that names a host by DNS is given its IPv4 address; the lookup is no event. *)
Definition releaseNormalizeP2PAddress (address : string) : R string :=
  let trimmed := TrimSpace address in
  let unsupported := Errf ("unsupported dns4 multiaddr " +:+ quoted address) in
  if negb (HasPrefix trimmed "/dns4/") then mret trimmed
  else match Split "/" trimmed with
       | _ :: dns4 :: host :: tcp :: port :: p2p :: peer :: _ =>
           if negb (String.eqb dns4 "dns4" && String.eqb tcp "tcp" && String.eqb p2p "p2p")
           then throw unsupported
           else
             h ← get_st;
             match resolve h (TrimSpace host) with
             | Err e => throw (EPrefix ("resolve host " +:+ quoted host) e)
             | Ok addresses =>
                 match omap id addresses with
                 | ipv4 :: _ => mret ("/ip4/" +:+ ipv4 +:+ "/tcp/" +:+ port +:+ "/p2p/" +:+ peer)
                 | [] => throw (Errf ("resolve host " +:+ quoted host +:+ ": no ipv4 address found"))
                 end
             end
       | _ => throw unsupported
       end.
Definition registerProviderSettlementBinding (baseURL providerOrgID : string)
    (cfg : USDIMarketplaceE2EConfig) : R string :=
  _ ← fail_if (blank (uc_ProviderSettlementRPCURL cfg)) (Errf "provider settlement rpc url is required");
  _ ← fail_if (blank (uc_ProviderSettlementP2PHost cfg)) (Errf "provider settlement p2p host is required");
  _ ← fail_if (blank (uc_ProviderSettlementUDTTypeScriptJSON cfg))
        (Errf "provider settlement udt type script json is required");
  info ← or_fail (raw_NodeInfo w (uc_ProviderSettlementRPCURL cfg)) "provider settlement node info";
  peerID ← or_fail (lift (derivePeerIDFromNodeID (ri_NodeID info))) "provider settlement peer id";
  script ← or_fail (lift (parseProviderSettlementUDTTypeScriptJSON parse
    (uc_ProviderSettlementUDTTypeScriptJSON cfg))) "provider settlement udt type script";
  p2pAddress ← or_fail (releaseNormalizeP2PAddress (multiaddrForP2P (uc_ProviderSettlementP2PHost cfg)
    (uc_ProviderSettlementP2PPort cfg) peerID)) "provider settlement p2p address";
  id ← created "register provider settlement binding" "binding id"
    (postJSON w baseURL "/api/v1/provider-settlement-bindings"
      (JObj [("providerOrgId", JStr providerOrgID); ("asset", JStr "USDI"); ("peerId", JStr peerID);
             ("p2pAddress", JStr p2pAddress); ("nodeRpcUrl", JStr (uc_ProviderSettlementRPCURL cfg));
             ("udtTypeScript", string_json [("codeHash", udt_CodeHash script);
                ("hashType", udt_HashType script); ("args", udt_Args script)]);
             ("ownershipProof", JStr "release-usdi-e2e")]) (inner_string "binding" "id"));
  _ ← or_fail (postJSON w baseURL ("/api/v1/provider-settlement-bindings/" +:+ id +:+ "/verify") (JObj [])
    nothing) "verify provider settlement binding";
  mret id.

(** ** Orders and payouts *)

Definition awardRFQPrepaid (baseURL token rfqID bidID : string) : R string :=
  award_with w baseURL token rfqID [("bidId", JStr bidID); ("fundingMode", JStr "prepaid")].
Definition createProviderInvoiceViaProviderSettlementNode (cfg : USDIMarketplaceE2EConfig) (amount : string)
    : R string :=
  _ ← fail_if (blank (uc_ProviderSettlementRPCURL cfg))
        (Errf "provider settlement rpc url is required for provider invoice creation");
  _ ← fail_if (blank (uc_ProviderSettlementUDTTypeScriptJSON cfg))
        (Errf "provider settlement udt type script json is required for provider invoice creation");
  script ← or_fail (lift (parseProviderSettlementUDTTypeScriptJSON parse
    (uc_ProviderSettlementUDTTypeScriptJSON cfg))) "provider settlement udt type script";
  invoice ← or_fail (raw_CreateInvoice w getenv (uc_ProviderSettlementRPCURL cfg) "USDI" amount
    [("code_hash", udt_CodeHash script); ("hash_type", udt_HashType script); ("args", udt_Args script)])
    "create provider invoice via provider settlement node";
  if blank invoice
  then throw (Errf "create provider invoice via provider settlement node: missing invoice")
  else mret invoice.
Definition payout_payload (orderID buyerOrgID providerOrgID amount paymentRequest : string) : json :=
  JObj [("orderId", JStr orderID); ("milestoneId", JStr "ms_1"); ("buyerOrgId", JStr buyerOrgID);
        ("providerOrgId", JStr providerOrgID); ("asset", JStr "USDI"); ("amount", JStr amount);
        ("paymentRequest", JStr paymentRequest)].
Definition requestProviderPayout (baseURL serviceToken orderID buyerOrgID providerOrgID amount paymentRequest
    : string) : R string :=
  created "request provider payout" "record id"
    (postJSONWithHeaders w baseURL "/v1/provider-payouts" (service_header serviceToken)
      (payout_payload orderID buyerOrgID providerOrgID amount paymentRequest) (top_string "recordId")).
(** A new invoice for every try; only a failure of the service is tried again. *)
Fixpoint payout_tries (tries : nat) (cfg : USDIMarketplaceE2EConfig)
    (orderID buyerOrgID providerOrgID amount : string) (delay : Z) : R string :=
  match tries with
  | O => mret ""
  | S tries =>
      paymentRequest ← createProviderInvoiceViaProviderSettlementNode cfg amount;
      r ← attempt (requestProviderPayout (uc_SettlementBaseURL cfg) (uc_SettlementServiceToken cfg) orderID
        buyerOrgID providerOrgID amount paymentRequest);
      match r with
      | Ok recordID => mret recordID
      | Err e =>
          if negb (isRetryableReleaseStatus e) || Nat.eqb tries 0 then throw e
          else
            _ ← sleepWithContext w delay;
            payout_tries tries cfg orderID buyerOrgID providerOrgID amount delay
      end
  end.
Definition requestProviderPayoutWithRetry (cfg : USDIMarketplaceE2EConfig)
    (orderID buyerOrgID providerOrgID amount : string) (attempts : nat) (delay : Z) : R string :=
  payout_tries (Nat.max 1 attempts) cfg orderID buyerOrgID providerOrgID amount delay.

Definition getOrderProviderSettlementReservation (baseURL token orderID : string) : R reservationAnswer :=
  reservation ← get_ok w "provider settlement reservation"
    (get baseURL ("/api/v1/orders/" +:+ orderID +:+ "/provider-settlement-reservation") [] (authHeaders token))
    decode_reservation;
  if blank (ra_ID reservation) then throw (Errf "provider settlement reservation missing id")
  else mret reservation.
Definition binding_route (providerOrgID action : string) : string :=
  "/api/v1/provider-settlement-bindings/" +:+ providerOrgID +:+ "/" +:+ action.
Definition reportProviderSettlementDisconnect (baseURL gatewayToken providerOrgID reason : string)
    : R poolAnswer :=
  or_fail (postJSONWithHeaders w baseURL (binding_route providerOrgID "disconnect")
    (service_header gatewayToken) (JObj [("reason", JStr reason)]) decode_pool)
    "report provider settlement disconnect".
Definition recoverProviderSettlement (baseURL gatewayToken providerOrgID : string) : R poolAnswer :=
  or_fail (postJSONWithHeaders w baseURL (binding_route providerOrgID "recover")
    (service_header gatewayToken) (JObj []) decode_pool) "recover provider settlement".

Definition milestone_route (orderID milestoneID action : string) : string :=
  "/api/v1/orders/" +:+ orderID +:+ "/milestones/" +:+ milestoneID +:+ "/" +:+ action.
Definition bindOrderCarrier (baseURL gatewayToken orderID milestoneID carrierID : string) : R string :=
  created "bind order carrier" "binding id"
    (postJSONWithHeaders w baseURL (milestone_route orderID milestoneID "bind-carrier")
      (service_header gatewayToken)
      (JObj [("carrierId", JStr carrierID);
             ("capabilities", JArr [JStr "carrier"; JStr "token_metering"; JStr "artifact_delivery"])])
      (inner_string "binding" "id")).
Definition createCarrierJob (baseURL gatewayToken orderID milestoneID bindingID input : string) : R string :=
  created "create carrier job" "job id"
    (postJSONWithHeaders w baseURL (milestone_route orderID milestoneID "jobs") (service_header gatewayToken)
      (JObj [("bindingId", JStr bindingID); ("input", JStr input)]) (inner_string "job" "id")).

(** ** Callbacks *)

Record usageReportedStep := mkUsageStep {
  us_EventID : string; us_Sequence : Z; us_Kind : string; us_AmountCents : Z; us_ProofRef : string;
}.
Definition usage_proof (executionID milestoneID : string) (step : usageReportedStep) (eventAt : Z)
    (signature : string) : Proof_ :=
  mkProof executionID milestoneID (if blank (us_Kind step) then "step" else us_Kind step)
    (us_AmountCents step) (FormatRFC3339 eventAt) signature.
(** The keys of a map are in the order in which they are written. *)
Definition buildUsageReportedEnvelope (bindingID executionID milestoneID callbackSecret : string)
    (step : usageReportedStep) (eventAt : Z) : IntegrationCallbackEnvelope :=
  let kind := if blank (us_Kind step) then "step" else us_Kind step in
  let proofRef := firstNonEmptyString [us_ProofRef step;
    "fiber:proof:" +:+ firstNonEmptyString [us_EventID step; executionID]] in
  let proofTS := FormatRFC3339 eventAt in
  let signature := Sign (TrimSpace callbackSecret) (usage_proof executionID milestoneID step eventAt "") in
  mkEnvelope (us_EventID step) (us_Sequence step) "usage.reported" bindingID executionID "" proofTS
    (JObj [("amountCents", JInt (us_AmountCents step)); ("jobId", JStr executionID); ("kind", JStr kind);
           ("proofRef", JStr proofRef); ("proofSignature", JStr signature);
           ("proofTimestamp", JStr proofTS)]).
Definition unless_empty_string (key value : string) : list (string * json) :=
  if String.eqb value "" then [] else [(key, JStr value)].
Definition envelope_json (e : IntegrationCallbackEnvelope) : json :=
  JObj ([("eventId", JStr (ie_EventID e)); ("sequence", JInt (ie_Sequence e));
         ("eventType", JStr (ie_EventType e)); ("bindingId", JStr (ie_BindingID e));
         ("carrierExecutionId", JStr (ie_CarrierExecutionID e))]
        ++ unless_empty_string "attemptId" (ie_AttemptID e)
        ++ unless_empty_string "createdAt" (ie_CreatedAt e)
        ++ match ie_Payload e with JNull => [] | payload => [("payload", payload)] end).
Definition stamped (now : Z) (e : IntegrationCallbackEnvelope) : IntegrationCallbackEnvelope :=
  mkEnvelope (ie_EventID e) (ie_Sequence e) (ie_EventType e) (ie_BindingID e) (ie_CarrierExecutionID e)
    (ie_AttemptID e) (FormatRFC3339 now) (ie_Payload e).
Definition callback_request (baseURL : string) (cfg : USDIMarketplaceE2EConfig)
    (e : IntegrationCallbackEnvelope) : Outgoing :=
  mkOutgoing "POST" (service_base baseURL) "/api/v1/carrier/callbacks/events" []
    [("Accept", "application/json"); ("Content-Type", "application/json");
     ("X-Carrier-Key-Id", uc_CarrierCallbackKeyID cfg); ("X-Carrier-Event-Id", ie_EventID e);
     ("X-Carrier-Event-Sequence", pretty (ie_Sequence e));
     ("X-Carrier-Signature", SignIntegrationCallbackBody (uc_CarrierCallbackSecret cfg) (marshal (envelope_json e)))]
    (Some (envelope_json e)).
Definition sendCarrierIntegrationCallback (baseURL : string) (cfg : USDIMarketplaceE2EConfig)
    (envelope : IntegrationCallbackEnvelope) : R () :=
  envelope ← (if blank (ie_CreatedAt envelope) then now ← time_now w; mret (stamped now envelope)
              else mret envelope);
  get_ok w "carrier integration callback" (callback_request baseURL cfg envelope) nothing.

(** ** Waits *)

Definition listFundingRecords (baseURL token : string) (filters : list (string * string))
    : R (list fundingRecordAnswer) :=
  get_ok w "funding records" (funding_records baseURL token filters) decode_records.
Definition record_state (r : fundingRecordAnswer) : string := ToUpper (TrimSpace (fr_State r)).
Definition records_look (baseURL token : string) (filters : list (string * string)) (accepted : list string)
    : R (Polled string) :=
  records ← listFundingRecords baseURL token filters;
  mret match List.find (λ state, existsb (λ a, String.eqb (ToUpper (TrimSpace a)) state) accepted)
               (record_state <$> records) with
       | Some state => Done state
       | None => Again (Errf ("timeout waiting funding record state " +:+ listed accepted))
       end.
Definition waitFundingRecordState (fuel : nat) (baseURL token : string) (filters : list (string * string))
    (timeout : Z) (acceptedStates : list string) : R string :=
  now ← time_now w;
  poll w fuel (now + timeout) (2 * second) (records_look baseURL token filters acceptedStates).

Definition getOrderStatus (baseURL token orderID : string) : R string :=
  status ← get_ok w "order detail" (get baseURL ("/api/v1/orders/" +:+ orderID) [] (authHeaders token))
    (inner_string "order" "status");
  if String.eqb status "" then throw (Errf "order detail missing status") else mret status.
(** A status that cannot be read is waited for. *)
Definition status_look (baseURL token orderID : string) (accepted : list string) : R (Polled string) :=
  r ← attempt (getOrderStatus baseURL token orderID);
  let late := Again (Errf ("timeout waiting order status " +:+ listed accepted)) in
  mret match r with
       | Ok status =>
           if existsb (λ a, String.eqb (ToLower (TrimSpace a)) (ToLower (TrimSpace status))) accepted
           then Done status else late
       | Err _ => late
       end.
Definition waitOrderStatus (fuel : nat) (baseURL token orderID : string) (timeout : Z)
    (acceptedStatuses : list string) : R string :=
  now ← time_now w;
  poll w fuel (now + timeout) (2 * second) (status_look baseURL token orderID acceptedStatuses).

Definition verifyCarrierWithConfig (baseURL : string) (cfg : USDIMarketplaceE2EConfig) : R string :=
  verify_carrier w baseURL (uc_CarrierHostID cfg) (uc_CarrierAgentID cfg) (uc_CarrierBackend cfg)
    (uc_CarrierWorkspaceRoot cfg).
End provider.

(** * The marketplace run (internal/release/usdi_marketplace_e2e.go)

    The whole of [RunUSDIMarketplaceE2E]: a buyer's deposit, the provider's bindings,
    and three orders from a request for quotes to a settled milestone, one of them
    through a lost channel, with signed callbacks and payouts on the way.  What is paid
    out for an order and where the run's waits end is in [RunPayouts]; that its callbacks
    are those the platform accepts, in [RunCallbacks].

    [fuel] bounds the polls of a wait, [rounds] those of the wait for the deposit. *)

Record FlowResult := mkFlow {
  of_RFQID : string;
  of_BidID : string;
  of_OrderID : string;
  of_CarrierBindingID : string;
  of_CarrierExecutionID : string;
  of_InitialReservationID : string;
  of_InitialReservationChannelID : string;
  of_InitialReservationReuse : string;
  of_ReservationID : string;
  of_ReservationChannelID : string;
  of_ReservationReuse : string;
  of_ReservationStatus : string;
  of_UsageChargeCount : Z;
  of_PayoutRecordIDs : list string;
  of_DisconnectStatus : string;
  of_RecoveredStatus : string;
  of_FinalOrderStatus : string;
}.

Definition validateUSDIMarketplaceOrderScenarios (bootstrapOrder reuseOrder disconnectOrder : FlowResult)
    : result () :=
  let want (what got wanted : string) := Errf (what +:+ " = " +:+ got +:+ ", want " +:+ wanted) in
  if negb (EqualFold (of_ReservationStatus bootstrapOrder) "released")
  then Err (want "bootstrap order reservation status" (of_ReservationStatus bootstrapOrder) "released")
  else if negb (String.eqb (of_InitialReservationReuse reuseOrder) "reused")
  then Err (want "reuse order reuse source" (of_InitialReservationReuse reuseOrder) "reused")
  else if negb (String.eqb (of_InitialReservationReuse disconnectOrder) "reused")
  then Err (want "disconnect order reuse source" (of_InitialReservationReuse disconnectOrder) "reused")
  else if negb (String.eqb (of_DisconnectStatus disconnectOrder) "awaiting_payment_rail")
  then Err (want "disconnect order status" (of_DisconnectStatus disconnectOrder) "awaiting_payment_rail")
  else if negb (String.eqb (of_RecoveredStatus disconnectOrder) "running")
  then Err (want "recovered order status" (of_RecoveredStatus disconnectOrder) "running")
  else Ok tt.

Record USDIMarketplaceE2ESummary := mkE2ESummary {
  es_IntegrationIssues : list string;
  es_Buyer : actorIdentity;
  es_Provider : actorIdentity;
  es_BuyerDepositAddress : string;
  es_BuyerTopUpFundingRecordID : string;
  es_Bootstrap : FlowResult;
  es_Reuse : FlowResult;
  es_Disconnect : FlowResult;
  es_CarrierProviderBindingID : string;
  es_ProviderSettlementBindingID : string;
  es_CodeAgentPolicy : string;
}.

Section run.
Context (w : World) (getenv : string → string) (parse : string → option json).
Context (resolve : list Event → string → result (list (option string))) (marshal : json → string).
Context (bech32_Decode : string → result (Encoding * string * list Z)).
Context (sdk_ConvertBits : list Z → Z → Z → bool → result (list Z)).
Context (DeserializeHashTypeByte : Z → result string).
Context (fuel rounds : nat).

(** ** The events of an order *)

(** The keys of a map are in the order in which they are written. *)
Definition flow_event (label name : string) (sequence : Z) (eventType bindingID executionID : string)
    (now : Z) (payload : list (string * json)) : IntegrationCallbackEnvelope :=
  mkEnvelope ("evt-" +:+ label +:+ "-" +:+ name) sequence eventType bindingID executionID ""
    (FormatRFC3339 now) (JObj payload).
Definition flow_artifact (name type url : string) (sizeBytes : Z) : string * json :=
  ("artifacts", JArr [JObj [("name", JStr name); ("sizeBytes", JInt sizeBytes); ("type", JStr type);
                            ("url", JStr url)]]).
Definition started_event (label bindingID executionID : string) (now : Z) : IntegrationCallbackEnvelope :=
  flow_event label "start" 1 "execution.started" bindingID executionID now [("jobId", JStr executionID)].
Definition artifact_event (label bindingID executionID : string) (now : Z) : IntegrationCallbackEnvelope :=
  flow_event label "artifact" 4 "artifact.ready" bindingID executionID now
    [flow_artifact "delivery-summary" "report"
       ("https://example.test/artifacts/" +:+ label +:+ "-delivery-summary.json") 128;
     ("jobId", JStr executionID); ("summary", JStr "delivery evidence bundle ready");
     ("usageReport", JObj [("apiCallCount", JInt 2); ("stepCount", JInt 2); ("tokenCount", JInt 120);
                           ("totalCostCents", JInt 300)])].
Definition ready_event (label bindingID executionID : string) (now : Z) : IntegrationCallbackEnvelope :=
  flow_event label "ready" 5 "milestone.ready" bindingID executionID now
    [flow_artifact "delivery-archive" "archive"
       ("https://example.test/artifacts/" +:+ label +:+ "-delivery-archive.zip") 256;
     ("jobId", JStr executionID); ("output", JStr "milestone completed successfully");
     ("summary", JStr "milestone completed successfully")].
Definition usage_step (label : string) (n : Z) (sequence amountCents : Z) : usageReportedStep :=
  mkUsageStep ("evt-" +:+ label +:+ "-usage-" +:+ pretty n) sequence "step" amountCents
    ("fiber:proof:" +:+ label +:+ ":usage-" +:+ pretty n).
Definition usage_steps (label : string) : list usageReportedStep :=
  [usage_step label 1 2 100; usage_step label 2 3 200].

(** ** One order *)

Definition send_event (cfg : USDIMarketplaceE2EConfig) (event : Z → IntegrationCallbackEnvelope) : R () :=
  now ← time_now w; sendCarrierIntegrationCallback w marshal (uc_APIBaseURL cfg) cfg (event now).
Definition flow_payout (cfg : USDIMarketplaceE2EConfig) (orderID : string) (buyer provider : actorIdentity)
    (amount : string) : R string :=
  requestProviderPayoutWithRetry w getenv parse cfg orderID (ai_OrgID buyer) (ai_OrgID provider) amount
    usdiMarketplaceProviderPayoutRetryAttempts usdiMarketplaceProviderPayoutRetryDelay.
(** A reported step and its payout. *)
Definition flow_usage (cfg : USDIMarketplaceE2EConfig) (orderID bindingID executionID : string)
    (buyer provider : actorIdentity) (step : usageReportedStep) : R string :=
  _ ← send_event cfg (buildUsageReportedEnvelope bindingID executionID "ms_1" (uc_CarrierCallbackSecret cfg) step);
  flow_payout cfg orderID buyer provider (amountFromCents (us_AmountCents step)).
(** The channel is lost and found again. *)
Definition flow_disconnect (cfg : USDIMarketplaceE2EConfig) (orderID : string) (buyer provider : actorIdentity)
    : R (string * string) :=
  _ ← reportProviderSettlementDisconnect w (uc_APIBaseURL cfg) (uc_GatewayServiceToken cfg)
        (ai_OrgID provider) "provider closed channel";
  disconnectStatus ← or_fail (waitOrderStatus w fuel (uc_APIBaseURL cfg) (ai_Token buyer) orderID
    (30 * second) ["awaiting_payment_rail"]) "wait awaiting payment rail";
  _ ← recoverProviderSettlement w (uc_APIBaseURL cfg) (uc_GatewayServiceToken cfg) (ai_OrgID provider);
  recoveredStatus ← or_fail (waitOrderStatus w fuel (uc_APIBaseURL cfg) (ai_Token buyer) orderID
    (30 * second) ["running"]) "wait recovered order status";
  mret (disconnectStatus, recoveredStatus).

Definition runUSDIMarketplaceOrderFlow (cfg : USDIMarketplaceE2EConfig) (buyer provider : actorIdentity)
    (providerCarrierBindingID label : string) (disconnectAfterFirstStep : bool) : R FlowResult :=
  let label := firstNonEmptyString [label; "primary"] in
  let api := uc_APIBaseURL cfg in
  rfqID ← createRFQ w api buyer;
  bidID ← createBid w api provider rfqID;
  orderID ← awardRFQPrepaid w api (ai_Token buyer) rfqID bidID;
  reservation ← or_fail (getOrderProviderSettlementReservation w api (ai_Token buyer) orderID)
    ("get provider settlement reservation for " +:+ label +:+ " order");
  bindingID ← bindOrderCarrier w api (uc_GatewayServiceToken cfg) orderID "ms_1" providerCarrierBindingID;
  executionID ← createCarrierJob w api (uc_GatewayServiceToken cfg) orderID "ms_1" bindingID
    ("run usdi marketplace e2e " +:+ label);
  _ ← send_event cfg (started_event label bindingID executionID);
  first ← flow_usage cfg orderID bindingID executionID buyer provider (usage_step label 1 2 100);
  '(disconnectStatus, recoveredStatus) ←
    (if disconnectAfterFirstStep then flow_disconnect cfg orderID buyer provider else mret ("", ""));
  second_ ← flow_usage cfg orderID bindingID executionID buyer provider (usage_step label 2 3 200);
  _ ← send_event cfg (artifact_event label bindingID executionID);
  _ ← send_event cfg (ready_event label bindingID executionID);
  last ← flow_payout cfg orderID buyer provider "9.00";
  _ ← waitFundingRecordState w fuel (uc_SettlementBaseURL cfg) (ai_Token provider)
        [("kind", "provider_payout"); ("orderId", orderID)] (30 * second)
        ["COMPLETED"; "SETTLED"; "PROCESSING"; "PENDING"];
  finalOrderStatus ← waitOrderStatus w fuel api (ai_Token buyer) orderID (30 * second) ["completed"];
  final ← or_fail (getOrderProviderSettlementReservation w api (ai_Token buyer) orderID)
    "get provider settlement reservation after completion";
  mret (mkFlow rfqID bidID orderID bindingID executionID (ra_ID reservation) (ra_ChannelID reservation)
    (ra_ReuseSource reservation) (firstNonEmptyString [ra_ID final; ra_ID reservation])
    (firstNonEmptyString [ra_ChannelID final; ra_ChannelID reservation])
    (firstNonEmptyString [ra_ReuseSource final; ra_ReuseSource reservation]) (ra_Status final) 2
    [first; second_; last] disconnectStatus recoveredStatus finalOrderStatus).

(** ** The whole run *)

Definition e2e_topup (cfg : USDIMarketplaceE2EConfig) (buyer : actorIdentity) : R (string * string) :=
  _ ← createBuyerTopUp w (uc_SettlementBaseURL cfg) buyer (uc_SettlementServiceToken cfg);
  summary ← waitBuyerDepositCredit w bech32_Decode sdk_ConvertBits DeserializeHashTypeByte fuel cfg rounds
    buyer usdiMarketplaceBuyerTopUpAmount;
  let filters := [("buyerOrgId", ai_OrgID buyer); ("kind", "buyer_topup")] in
  _ ← or_fail (waitFundingRecordState w fuel (uc_SettlementBaseURL cfg) (ai_Token buyer) filters
        (30 * second) ["SETTLED"]) "buyer topup not settled";
  records ← attempt (listFundingRecords w (uc_SettlementBaseURL cfg) (ai_Token buyer) filters);
  mret (bd_Address summary,
        match records with Ok records => default "" (fr_ID <$> last records) | Err _ => "" end).
Definition e2e_probe (cfg : USDIMarketplaceE2EConfig) (issues : list string) : R (string * list string) :=
  if negb (uc_IncludeCarrierProbe cfg) then mret ("", issues)
  else if uc_CarrierAuthConfigured cfg
  then policy ← verifyCarrierWithConfig w (uc_ExecutionBaseURL cfg) cfg; mret (policy, issues)
  else mret ("", issues ++ ["carrier codeagent run probe skipped: missing carrier provider credentials"]).
Definition RunUSDIMarketplaceE2E (cfg : USDIMarketplaceE2EConfig) : R USDIMarketplaceE2ESummary :=
  _ ← healths w (uc_APIBaseURL cfg) (uc_SettlementBaseURL cfg) (uc_ExecutionBaseURL cfg);
  cfg ← bootstrapCarrierTarget w cfg;
  '(buyer, provider) ← smoke_actors w (uc_IAMBaseURL cfg);
  '(address, topUpRecordID) ← e2e_topup cfg buyer;
  carrierBindingID ← registerProviderCarrierBinding w (uc_APIBaseURL cfg) (ai_OrgID provider) cfg;
  _ ← verifyProviderCarrierBinding w (uc_APIBaseURL cfg) carrierBindingID;
  settlementBindingID ← registerProviderSettlementBinding w parse resolve (uc_APIBaseURL cfg)
    (ai_OrgID provider) cfg;
  '(policy, issues) ← e2e_probe cfg ["https://github.com/Keith-CY/carrier/issues/1595"];
  bootstrapOrder ← runUSDIMarketplaceOrderFlow cfg buyer provider carrierBindingID "bootstrap" false;
  reuseOrder ← runUSDIMarketplaceOrderFlow cfg buyer provider carrierBindingID "reuse" false;
  disconnectOrder ← runUSDIMarketplaceOrderFlow cfg buyer provider carrierBindingID "disconnect" true;
  _ ← lift (validateUSDIMarketplaceOrderScenarios bootstrapOrder reuseOrder disconnectOrder);
  mret (mkE2ESummary issues buyer provider address topUpRecordID bootstrapOrder reuseOrder disconnectOrder
    carrierBindingID settlementBindingID policy).
End run.
