(* ===== verification/RunCallbacks.v ===== *)
(** * The callbacks of a release run, as the gateway receives them

    First the calendar they are dated by: the date of a day is the date that day falls
    on, and a time written in RFC 3339 is read back as that time, to the second.  Then
    the callbacks. *)

From Stdlib Require Import Ascii.
From S2P Require Import Prelude GoNum GoText GoFloat Core GoTime Repo MemoryRepo App Providers.
From S2P Require Import Orders RateLimit CarrierService CarrierEvents Http Web GoBytes Signatures.
From S2P Require Import Gateway GatewayOrders GatewayCallbacks GatewayServe GatewayDelivery Traces.
From S2P Require Import FiberAccess ReleaseClient ReleaseUsdi.

(** ** Years and months *)

(** A year begins where the one before it ends. *)
Lemma year_of_spec days : year_days (year_of days) ≤ days < year_days (year_of days + 1).
Proof.
  unfold year_of. set (y := days * 400 / 146097 + 1).
  assert (Hlow : year_days (y - 1) ≤ days).
  { unfold year_days, y. pose proof (Z.mul_div_le (days * 400) 146097 ltac:(lia)).
    Z.to_euclidean_division_equations. lia. }
  assert (Hup : days < year_days (y + 2)).
  { unfold year_days, y. pose proof (Z.mul_succ_div_gt (days * 400) 146097 ltac:(lia)).
    Z.to_euclidean_division_equations. lia. }
  destruct (Z.ltb_spec days (year_days y)); [|destruct (Z.leb_spec (year_days (y + 1)) days)].
  - replace (y - 1 + 1) with y by lia. lia.
  - replace (y + 1 + 1) with (y + 2) by lia. lia.
  - lia.
Qed.
Lemma year_days_mono y y' : y ≤ y' → year_days y ≤ year_days y'.
Proof. unfold year_days. intros. Z.to_euclidean_division_equations. lia. Qed.
Lemma year_of_range days : 0 ≤ days < year_days 10000 → 1 ≤ year_of days ≤ 9999.
Proof.
  intros Hd. pose proof (year_of_spec days) as Hy. split.
  - destruct (Z.le_gt_cases 1 (year_of days)) as [|Hlt]; [done|].
    pose proof (year_days_mono (year_of days + 1) 1 ltac:(lia)). change (year_days 1) with 0 in *. lia.
  - destruct (Z.le_gt_cases (year_of days) 9999) as [|Hlt]; [done|].
    pose proof (year_days_mono 10000 (year_of days) ltac:(lia)). lia.
Qed.
(** A year is as long as its months. *)
Lemma year_length y : year_days (y + 1) = year_days y + sumZ (month_lengths y).
Proof.
  assert (Hm : sumZ (month_lengths y) = if is_leap y then 366 else 365).
  { unfold month_lengths. by destruct (is_leap y). }
  rewrite Hm. unfold year_days, is_leap. replace (y + 1 - 1) with y by lia.
  destruct (Z.eqb_spec (y mod 4) 0), (Z.eqb_spec (y mod 100) 0), (Z.eqb_spec (y mod 400) 0);
    cbn [negb andb orb]; Z.to_euclidean_division_equations; lia.
Qed.

Lemma month_of_spec lengths m day : 0 ≤ day < sumZ lengths → Forall (λ n, 0 < n) lengths →
  ∃ k n, lengths !! k = Some n ∧ 0 ≤ day - sumZ (take k lengths) < n ∧
    month_of lengths m day = (m + Z.of_nat k, day - sumZ (take k lengths) + 1).
Proof.
  revert m day. induction lengths as [|n lengths IH]; intros m day; cbn; [lia|].
  intros Hd [Hn Hl]%Forall_cons. destruct (Z.ltb_spec day n).
  - exists 0%nat, n. cbn. split; [done|]. split; [lia|]. f_equal; lia.
  - destruct (IH (m + 1) (day - n)) as (k & n' & Hk & Hin & ->); [lia|done|].
    exists (S k), n'. cbn. split; [done|]. split; [lia|]. f_equal; lia.
Qed.

(** The date of a day: a day of the calendar, and that day. *)
Lemma civil_of_spec days y m d : civil_of days = (y, m, d) →
  y = year_of days ∧ civil_days y m d = days ∧ 1 ≤ m ≤ 12 ∧ 1 ≤ d ≤ days_in y m.
Proof.
  unfold civil_of. pose proof (year_of_spec days) as Hy. set (yr := year_of days) in *.
  rewrite year_length in Hy.
  destruct (month_of_spec (month_lengths yr) 1 (days - year_days yr)) as (k & n & Hk & Hin & ->); [lia| |].
  { unfold month_lengths. destruct (is_leap yr); repeat constructor. }
  intros [= <- <- <-]. apply lookup_lt_Some in Hk as Hlt. change (length (month_lengths yr)) with 12%nat in Hlt.
  unfold civil_days, month_days, days_in. replace (Z.to_nat (1 + Z.of_nat k - 1)) with k by lia.
  rewrite Hk. change (default 0 (Some n)) with n. fold yr.
  split; [done|]. split; [lia|]. lia.
Qed.
Lemma days_in_most y m : days_in y m ≤ 31.
Proof.
  unfold days_in, month_lengths. destruct (Z.to_nat (m - 1)) as [|k]; [done|].
  do 11 (destruct k as [|k]; [cbn; destruct (is_leap y); done|]). done.
Qed.

(** ** Digits *)

Lemma take_digits_app n acc s v rest :
  take_digits n acc s = Some (v, "") → take_digits n acc (s +:+ rest) = Some (v, rest).
Proof.
  revert acc s. induction n as [|n IH]; intros acc s.
  - cbn. intros [= -> ->]. done.
  - destruct s as [|a s]; [done|]. change (String a s +:+ rest) with (String a (s +:+ rest)).
    cbn [take_digits]. destruct (digit a) as [d|]; [|done]. apply IH.
Qed.
Lemma padded_digits width bound z rest :
  forallb (λ n, bool_decide (take_digits width 0 (padded width (Z.of_nat n)) = Some (Z.of_nat n, "")))
    (seq 0 bound) = true → 0 ≤ z < Z.of_nat bound →
  take_digits width 0 (padded width z +:+ rest) = Some (z, rest).
Proof.
  intros Hall Hz. apply take_digits_app. rewrite forallb_forall in Hall.
  specialize (Hall (Z.to_nat z) ltac:(apply in_seq; lia)). apply bool_decide_eq_true in Hall.
  by rewrite Z2Nat.id in Hall by lia.
Qed.
Lemma two_digits z rest : 0 ≤ z < 100 → take_digits 2 0 (padded 2 z +:+ rest) = Some (z, rest).
Proof. apply (padded_digits 2 100). vm_compute. reflexivity. Qed.
Lemma four_digits z rest : 0 ≤ z < 10000 → take_digits 4 0 (padded 4 z +:+ rest) = Some (z, rest).
Proof. apply (padded_digits 4 (100 * 100)). vm_compute. reflexivity. Qed.
Lemma expect_head c s : expect c (String c "" +:+ s) = Some s.
Proof. change (String c "" +:+ s) with (String c s). cbn. by rewrite Ascii.eqb_refl. Qed.

(** ** Times *)

(** The years that have four digits. *)
Definition four_digit_year (t : Time) : Prop := 0 ≤ t < year_days 10000 * day_ns.

(** A time in RFC 3339 is read back as that time to the second, by both of the readers,
    from the year 1 to the year 9999. *)
Lemma times_roundtrip t strict : four_digit_year t →
  parse_time strict (FormatRFC3339 t) = Some (t - t mod second_ns).
Proof.
  intros Ht. unfold FormatRFC3339, FormatDate.
  assert (Hdays : 0 ≤ t / day_ns < year_days 10000).
  { unfold four_digit_year in Ht. split; [apply Z.div_pos|apply Z.div_lt_upper_bound]; unfold day_ns, second_ns in *; lia. }
  destruct (civil_of (t / day_ns)) as [[y m] d] eqn:Hc. apply civil_of_spec in Hc as (Hy & Hday & Hm & Hd).
  pose proof (days_in_most y m). pose proof (year_of_range _ Hdays) as Hyr. rewrite <- Hy in Hyr.
  set (clock := t mod day_ns / second_ns).
  assert (Hclock : 0 ≤ clock < 86400).
  { unfold clock. pose proof (Z.mod_pos_bound t day_ns ltac:(done)).
    split; [apply Z.div_pos|apply Z.div_lt_upper_bound]; unfold day_ns, second_ns in *; lia. }
  rewrite <- !string_app_assoc. unfold parse_time, take_hour. unfold mbind, option_bind.
  repeat (first [rewrite four_digits by lia | rewrite two_digits by (Z.to_euclidean_division_equations; lia)];
          cbv beta iota; rewrite ?expect_head; cbv beta iota).
  assert (Hf : take_fraction strict "Z" = (0, "Z")) by (by destruct strict). rewrite Hf.
  cbn [take_zone]. cbv beta iota. change (String.eqb "" "") with true. cbn [negb orb].
  repeat match goal with |- context [?a <? ?b] => destruct (Z.ltb_spec a b); [exfalso; Z.to_euclidean_division_equations; lia|] end.
  cbn [orb]. f_equal. rewrite Hday.
  assert (Hsec : t - t mod second_ns = (t / day_ns * 86400 + clock) * second_ns).
  { unfold clock, day_ns, second_ns. clear. Z.to_euclidean_division_equations. lia. }
  rewrite Hsec. unfold second_ns. clearbody clock. clear -Hclock. Z.to_euclidean_division_equations. lia.
Qed.

(** ** The text has no white space *)

Lemma padded_visible width z : all_bytes GoText.visible (padded width z) = true.
Proof.
  unfold padded. induction (width - String.length (pretty z))%nat as [|k IH]; [apply pretty_visible|].
  exact IH.
Qed.
Lemma time_visible t : all_bytes GoText.visible (FormatRFC3339 t) = true.
Proof.
  unfold FormatRFC3339, FormatDate. destruct (civil_of _) as [[y m] d].
  rewrite !all_bytes_app, !padded_visible. reflexivity.
Qed.
Lemma visible_not_blank s : all_bytes GoText.visible s = true → s ≠ "" → blank s = false.
Proof.
  intros Hs Hne. unfold blank. rewrite TrimSpace_all_visible by done. by apply String.eqb_neq.
Qed.
Lemma time_not_blank t : blank (FormatRFC3339 t) = false.
Proof.
  apply visible_not_blank; [apply time_visible|]. unfold FormatRFC3339.
  destruct (FormatDate t) as [|x s]; intros Hnil; discriminate Hnil.
Qed.

(** * The callbacks of a run, received by the platform

    The release check signs callbacks as a carrier would, and proofs of usage with
    them.  What the gateway makes of them: they are authentic under the secret the
    check registered, their proofs are good, and in their order the ledger takes them
    in, so that each is acted on. *)

(** ** Envelopes as they are read *)


Definition payload_map (e : IntegrationCallbackEnvelope) : Payload :=
  match ie_Payload e with JObj fields => into_map fields ∅ | _ => ∅ end.

Lemma lookup_unless_blank key value key' p : key ≠ key' →
  set_unless_blank key value p !! key' = p !! key'.
Proof. unfold set_unless_blank. destruct (blank value); [done|]. intros. by rewrite lookup_insert_ne. Qed.

Lemma ToCallbackEvent_fields e x : blank (ie_EventID e) = false → 0 < ie_Sequence e →
  payload_map e !! "jobId" = Some (JStr x) → blank x = false →
  let e' := ToCallbackEvent e in
  event_id e' = TrimSpace (ie_EventID e) ∧
  payload_float (ce_Payload e') "sequence" = Some (f64_of_int (ie_Sequence e)) ∧
  ce_JobID e' = TrimSpace x ∧ ce_BindingID e' = TrimSpace (ie_BindingID e) ∧
  ce_Type e' = NormalizeEventName (ie_EventType e).
Proof.
  intros Hid Hseq Hjob Hx. unfold ToCallbackEvent. fold (payload_map e). cbv zeta.
  apply Z.ltb_lt in Hseq as ->. set (p := payload_map e) in *.
  set (q := set_unless_blank "carrierExecutionId" _ _).
  assert (H : q !! "eventId" = Some (JStr (TrimSpace (ie_EventID e)))
              ∧ q !! "sequence" = Some (JFloat (f64_of_int (ie_Sequence e))) ∧ q !! "jobId" = Some (JStr x)).
  { unfold q. split_and!; rewrite 2!lookup_unless_blank by done.
    - rewrite lookup_insert_ne by done. unfold set_unless_blank. by rewrite Hid, lookup_insert_eq.
    - by rewrite lookup_insert_eq.
    - rewrite lookup_insert_ne by done. by rewrite lookup_unless_blank. }
  destruct H as (H1 & H2 & H3). unfold event_id, payload_string, payload_float.
  cbn [ce_Payload ce_JobID ce_BindingID ce_Type firstNonEmptyPayloadValue]. unfold payload_string.
  rewrite H1, H2, H3, Hx. done.
Qed.

(** ** The callbacks of an order *)

(** The five of them, as they are sent after one another, each at its own time. *)
Definition flow_callbacks (cfg : USDIMarketplaceE2EConfig) (label bindingID executionID : string)
    : list (Z → IntegrationCallbackEnvelope) :=
  [started_event label bindingID executionID]
  ++ (buildUsageReportedEnvelope bindingID executionID "ms_1" (uc_CarrierCallbackSecret cfg) <$> usage_steps label)
  ++ [artifact_event label bindingID executionID; ready_event label bindingID executionID].
Definition flow_labels : list string := ["bootstrap"; "reuse"; "disconnect"].


(** ** What the gateway is given *)

Definition header_of (headers : list (string * string)) (name : string) : string :=
  default "" (snd <$> List.find (λ h, String.eqb h.1 name) headers).
(** A request as it arrives; [marshal] writes JSON and [parse] reads it. *)
Definition received (marshal : json → string) (parse : string → option json) (o : Outgoing) : Request :=
  let text := match og_Body o with Some v => marshal v | None => "" end in
  mkRequest (og_Method o) (og_Path o) (header_of (og_Headers o)) (λ _, [])
    (match og_Body o with Some _ => parse text | None => None end) text.

Section platform.
Context `{Storage} {L : Type} (c : GatewayConfig L) (cfg : USDIMarketplaceE2EConfig).
Context (marshal : json → string) (parse : string → option json).


(** The gateway knows the secret that the check signs with, under its key or under none. *)
Definition shares_secret (b : ProviderCarrierBinding) : Prop :=
  pcb_CallbackSecret b = uc_CarrierCallbackSecret cfg ∧ blank (uc_CarrierCallbackSecret cfg) = false ∧
  (pcb_CallbackKeyID b = "" ∨ pcb_CallbackKeyID b = TrimSpace (uc_CarrierCallbackKeyID cfg)).





Definition same_sequences (g g' : Gateway L) : Prop :=
  el_lastSequence (gw_ledger g') = el_lastSequence (gw_ledger g).
#[local] Instance same_sequences_preorder : PreOrder same_sequences.
Proof. unfold same_sequences. split; [done|]. intros g g1 g2. congruence. Qed.


(** ** Proofs of usage *)

(** What a usage report of the run says once it has arrived. *)
Lemma usage_report_fields secret bindingID executionID step now :
  0 < us_Sequence step → us_Kind step = "step" →
  us_ProofRef step ≠ "" → all_bytes GoText.visible (us_ProofRef step) = true →
  f64_to_int64 (f64_of_int (us_AmountCents step)) = us_AmountCents step → four_digit_year now →
  let p := ce_Payload (ToCallbackEvent
    (buildUsageReportedEnvelope bindingID executionID "ms_1" secret step now)) in
  jobInputDefaultUsageKind p = "step" ∧ getPayloadInt64 p "amountCents" = Some (us_AmountCents step) ∧
  parseUsageProofPayload p = Ok (us_ProofRef step,
    Sign (TrimSpace secret) (usage_proof executionID "ms_1" step now ""), FormatRFC3339 now) ∧
  payload_map (buildUsageReportedEnvelope bindingID executionID "ms_1" secret step now) !! "jobId"
    = Some (JStr executionID).
Proof.
  intros Hseq Hkind Href Hrefv Hamount Hnow p.
  set (signature := Sign (TrimSpace secret) (usage_proof executionID "ms_1" step now "")).
  set (q := payload_map (buildUsageReportedEnvelope bindingID executionID "ms_1" secret step now)).
  assert (Hp : ∀ key, key ≠ "eventId" → key ≠ "sequence" → key ≠ "attemptId" → key ≠ "carrierExecutionId" →
    p !! key = q !! key).
  { intros key H1 H2 H3 H4.
    unfold p, ToCallbackEvent. cbn [ce_Payload]. fold (payload_map (buildUsageReportedEnvelope bindingID
      executionID "ms_1" secret step now)). fold q. cbv zeta. cbn [ie_Sequence buildUsageReportedEnvelope].
    apply Z.ltb_lt in Hseq as ->. rewrite 2!lookup_unless_blank by done.
    rewrite lookup_insert_ne by done. by rewrite lookup_unless_blank. }
  assert (Hb : blank (us_ProofRef step) = false) by by apply visible_not_blank.
  assert (Hlook : q !! "usageKind" = None ∧ q !! "kind" = Some (JStr "step")
    ∧ q !! "amountCents" = Some (JInt (us_AmountCents step))
    ∧ q !! "proofRef" = Some (JStr (us_ProofRef step)) ∧ q !! "proofSignature" = Some (JStr signature)
    ∧ q !! "proofTimestamp" = Some (JStr (FormatRFC3339 now)) ∧ q !! "jobId" = Some (JStr executionID)).
  { unfold q, payload_map, buildUsageReportedEnvelope. rewrite Hkind.
    change (blank "step") with false. cbn [firstNonEmptyString].
    pose proof Hb as Hb'. unfold blank in Hb'. rewrite Hb'. rewrite (TrimSpace_all_visible _ Hrefv).
    cbn [ie_Payload into_map foldl fst snd].
    split_and!; repeat first [rewrite lookup_insert_eq; reflexivity|rewrite lookup_insert_ne by discriminate].
    apply lookup_empty. }
  destruct Hlook as (L1 & L2 & L3 & L4 & L5 & L6 & L7). split_and!; [| | |exact L7].
  - unfold jobInputDefaultUsageKind, payload_string. rewrite !Hp by discriminate. by rewrite L1, L2.
  - unfold getPayloadInt64, payload_float. rewrite !Hp by discriminate. rewrite L3. by rewrite Hamount.
  - unfold parseUsageProofPayload, payload_string. rewrite !Hp by discriminate.
    rewrite L4, L5, L6. cbv zeta. cbn [from_option id].
    assert (Hs : all_bytes GoText.visible signature = true) by apply hmac_visible.
    pose proof (time_visible now) as Ht.
    assert (Hsb : blank signature = false) by apply hmac_not_blank.
    pose proof (time_not_blank now) as Htb.
    rewrite Hb, Hsb, Htb. unfold ParseRFC3339. rewrite times_roundtrip by done.
    rewrite !TrimSpace_all_visible by done. done.
Qed.

Lemma own_proof_verifies secret executionID step at_ now : blank secret = false →
  four_digit_year at_ → now ≤ at_ - at_ mod second_ns + MaxProofAge →
  Verify secret (usage_proof executionID "ms_1" step at_
    (Sign secret (usage_proof executionID "ms_1" step at_ ""))) now = Ok tt.
Proof.
  intros Hs Hat Hage. unfold Verify. rewrite Hs.
  change (Sign secret (usage_proof executionID "ms_1" step at_ (Sign secret (usage_proof executionID "ms_1" step at_ ""))))
    with (Sign secret (usage_proof executionID "ms_1" step at_ "")).
  cbn [usage_proof pf_Signature pf_Timestamp]. rewrite String.eqb_refl. cbn [negb].
  unfold Sign at 1. rewrite hmac_not_blank. unfold ParseRFC3339. rewrite times_roundtrip by done.
  unfold expired. destruct (Z.ltb_spec MaxProofAge (now - (at_ - at_ mod second_ns))); [lia|done].
Qed.

(** C32. A usage report of a run is charged as it was reported.  When the job it names is
    the run's and the provider's binding holds the secret the check signs with, the
    proof is accepted for five minutes from the second it was made in, and the order is
    charged the amount of the step, for the job's milestone, with the proof. *)
Theorem usage_reports_are_charged label step at_ bindingID executionID job binding order b a' (g : Gateway L) :
  label ∈ flow_labels → step ∈ usage_steps label → four_digit_year at_ →
  TrimSpace executionID = executionID → executionID ≠ "" →
  GetJob executionID (gw_carrier g) = Ok job → ej_ID job = executionID → ej_MilestoneID job = "ms_1" →
  GetBindingByID (ej_BindingID job) (gw_carrier g) = Ok binding →
  order_Get (cb_OrderID binding) (orders (gw_app g)) = Ok order →
  GetProviderCarrierBinding (o_ProviderOrgID order) (gw_app g) = (a', Ok b) → shares_secret b →
  gc_now c (gw_ticks g) ≤ at_ - at_ mod second_ns + 5 * 60 * second_ns →
  let secret := uc_CarrierCallbackSecret cfg in
  recordUsageFromCallback c (ToCallbackEvent
    (buildUsageReportedEnvelope bindingID executionID "ms_1" secret step at_)) g
  = on_app (Orders.RecordUsageCharge (cb_OrderID binding)
      (mkRecordUsageChargeInput "ms_1" "step" (us_AmountCents step) (us_ProofRef step)
         (Sign (TrimSpace secret) (usage_proof executionID "ms_1" step at_ "")) (FormatRFC3339 at_)))
      (g <| gw_app := a' |> <| gw_ticks ::= S |>).
Proof.
  intros Hl Hstep Hat Htrim Hx Hjob Hjid Hms Hbind Horder Hpcb (Hsecret & Hblank & _) Hage secret.
  assert (Hstep' : blank (us_EventID step) = false ∧ 0 < us_Sequence step ∧ us_Kind step = "step" ∧ us_ProofRef step ≠ "" ∧
    all_bytes GoText.visible (us_ProofRef step) = true ∧
    f64_to_int64 (f64_of_int (us_AmountCents step)) = us_AmountCents step).
  { unfold flow_labels in Hl. unfold usage_steps in Hstep.
    rewrite !elem_of_cons, elem_of_nil in Hl. rewrite !elem_of_cons, elem_of_nil in Hstep.
    destruct Hl as [->|[->|[->|[]]]], Hstep as [->|[->|[]]];
      (split_and!; [vm_compute; reflexivity|vm_compute; reflexivity|done|done|vm_compute; reflexivity|vm_compute; reflexivity]). }
  destruct Hstep' as (Hid & Hseq & Hkind & Href & Hrefv & Hamount).
  destruct (usage_report_fields secret bindingID executionID step at_ Hseq Hkind Href Hrefv Hamount Hat)
    as (F1 & F2 & F3 & F4).
  set (e := ToCallbackEvent (buildUsageReportedEnvelope bindingID executionID "ms_1" secret step at_)) in *.
  assert (Hxb : blank executionID = false) by (unfold blank; rewrite Htrim; by apply String.eqb_neq).
  destruct (ToCallbackEvent_fields
    (buildUsageReportedEnvelope bindingID executionID "ms_1" secret step at_) executionID Hid Hseq F4 Hxb) as (_ & _ & Fjob & _ & _).
  fold e in Fjob. rewrite Htrim in Fjob.
  unfold recordUsageFromCallback. rewrite Fjob.
  rewrite (bind_run _ _ g g job) by (unfold ask_carrier, query; by rewrite Hjob).
  rewrite (bind_run _ _ g g binding) by (unfold ask_carrier, query; by rewrite Hbind).
  rewrite F1, F2, F3.
  rewrite (bind_run _ _ g g (us_AmountCents step)) by done.
  set (signature := Sign (TrimSpace secret) (usage_proof executionID "ms_1" step at_ "")).
  rewrite (bind_run _ _ g g (us_ProofRef step, signature, FormatRFC3339 at_)) by done.
  rewrite (bind_run _ _ g (g <| gw_app := a' |> <| gw_ticks ::= S |>) tt).
  { rewrite Hms. reflexivity. }
  unfold verifyUsageProofBindingSecret.
  assert (Hr : String.eqb (us_ProofRef step) "" = false) by by apply String.eqb_neq.
  rewrite Hr. cbn [andb].
  rewrite (attempt_run _ _ g (g <| gw_app := a' |>) (Ok b)).
  2:{ unfold mbind, st_bind, ask_app, query. rewrite Horder. unfold on_app, zoom. by rewrite Hpcb. }
  cbv iota. rewrite Hsecret. cbv zeta. pose proof Hblank as Hb'. unfold blank in Hb'. rewrite Hb'.
  cbv zeta. rewrite Hb'. unfold mbind, st_bind, Gateway.time_now, lift. rewrite Hjid, Hms.
  pose proof (own_proof_verifies (TrimSpace secret) executionID step at_ (gc_now c (gw_ticks g))) as Hv.
  unfold usage_proof in Hv at 1. rewrite Hkind in Hv. f_equal. apply Hv; [|done|].
  - unfold blank. by rewrite TrimSpace_idem.
  - assert (MaxProofAge = 5 * 60 * second_ns) by reflexivity. lia.
Qed.
End platform.

(** ** A run against a platform *)

Definition run_secret : USDIMarketplaceE2EConfig :=
  USDIMarketplaceE2EConfigFromEnv (λ _, "").
(** A text for a value, and back; what is signed is the text. *)
Definition demo_marshal (v : json) : string := "text".
Definition carrier_registration : Request :=
  request_as "" "" "POST" "/api/v1/carrier-bindings" (Some
    (JObj [("providerOrgId", JStr "p1"); ("carrierBaseUrl", JStr (uc_CarrierBaseURL run_secret));
           ("integrationToken", JStr (uc_CarrierIntegrationToken run_secret));
           ("hostId", JStr (uc_CarrierHostID run_secret)); ("agentId", JStr (uc_CarrierAgentID run_secret));
           ("backend", JStr (uc_CarrierBackend run_secret)); ("workspaceRoot", JStr (uc_CarrierWorkspaceRoot run_secret));
           ("callbackSecret", JStr (uc_CarrierCallbackSecret run_secret));
           ("callbackKeyId", JStr (uc_CarrierCallbackKeyID run_secret))])).
Definition registered : Gateway () :=
  demo_serve_all
    [carrier_registration; request_as "" "" "POST" "/api/v1/carrier-bindings/pcb_1/verify" (Some (JObj []));
     first_order; carrier_route "bind-carrier" (JObj [("carrierId", JStr "pcb_1")]);
     carrier_route "jobs" (JObj [("bindingId", JStr "bind_1"); ("input", JStr "do")])]
    demo_gateway.
Definition run_requests : list Request :=
  (λ event, let e := event 1000000000 in
     received demo_marshal (λ _, Some (envelope_json e)) (callback_request demo_marshal "http://api" run_secret e))
  <$> flow_callbacks run_secret "bootstrap" "bind_1" "job_1".

(** The three kinds of callbacks, authenticated, recorded and acted on by the gateway as
    it runs: two charges, evidence, and the milestone settled in full. *)
Definition serve_run (rs : list Request) (g : Gateway ()) : Gateway () * list Z :=
  fold_left (λ acc r, let out := demo_serve r acc.1 in (out.1, acc.2 ++ [GatewayDelivery.status_of out]))
    rs (g, []).
Definition charged (g : Gateway ()) (id : string) : list (Z * list (string * Z)) :=
  match order_Get id (orders (gw_app g)) with
  | Ok o => (λ m, (ms_SettledCents m, (λ u, (uc_Kind u, uc_AmountCents u)) <$> ms_UsageCharges m)) <$> o_Milestones o
  | Err _ => []
  end.
Example run_completes_the_order :
  let out := serve_run run_requests registered in
  (out.2, order_1_status out.1, charged out.1 "ord_1")
  = ([200; 200; 200; 200; 200], Some OrderStatusCompleted, [(1000, [("step", 100); ("step", 200)])]).
Proof. vm_compute. reflexivity. Qed.

Definition registered_binding : ProviderCarrierBinding :=
  mkProviderCarrierBinding "pcb_1" "p1" "http://127.0.0.1:8787" "" "host_1" "main" "codex" "/workspace"
    "usdi-e2e-callback-secret" "usdi-e2e-key" "active" 1000 (Some 1001).

Lemma secret_shared : shares_secret run_secret registered_binding.
Proof. vm_compute. split; [done|]. split; [done|]. by right. Qed.


Lemma usage_reports_are_charged_witness : ∃ input g,
  recordUsageFromCallback demo_config (ToCallbackEvent
    (buildUsageReportedEnvelope "bind_1" "job_1" "ms_1" (uc_CarrierCallbackSecret run_secret)
      (usage_step "bootstrap" 1 2 100) 1000000000)) registered
  = on_app (Orders.RecordUsageCharge "ord_1" input) g ∧ rui_AmountCents input = 100.
Proof.
  assert (Hbinding : ∃ binding, GetBindingByID "bind_1" (gw_carrier registered) = Ok binding ∧ cb_OrderID binding = "ord_1")
    by (eexists; split; [vm_compute; reflexivity|reflexivity]).
  assert (Hjob : ∃ job, GetJob "job_1" (gw_carrier registered) = Ok job ∧ ej_ID job = "job_1" ∧
    ej_MilestoneID job = "ms_1" ∧ ej_BindingID job = "bind_1")
    by (eexists; split; [vm_compute; reflexivity|done]).
  assert (Horder : ∃ order, order_Get "ord_1" (orders (gw_app registered)) = Ok order ∧ o_ProviderOrgID order = "p1")
    by (eexists; split; [vm_compute; reflexivity|done]).
  assert (Hpcb : ∃ a, GetProviderCarrierBinding "p1" (gw_app registered) = (a, Ok registered_binding))
    by (eexists; apply run_result; vm_compute; reflexivity).
  destruct Hbinding as (binding & Hb & Ho), Hjob as (job & Hj & Hid & Hms & Hjb),
    Horder as (order & Hord & Hp), Hpcb as (a & Ha).
  assert (Hat : four_digit_year 1000000000) by (split; vm_compute; congruence).
  assert (Ht : TrimSpace "job_1" = "job_1") by (vm_compute; reflexivity).
  assert (Hnow : gc_now demo_config (gw_ticks registered)
    ≤ 1000000000 - 1000000000 mod second_ns + 5 * 60 * second_ns) by (vm_compute; congruence).
  rewrite <- Hjb in Hb. rewrite <- Ho in Hord. rewrite <- Hp in Ha.
  pose proof (usage_reports_are_charged demo_config run_secret "bootstrap" (usage_step "bootstrap" 1 2 100)
    1000000000 "bind_1" "job_1" job binding order registered_binding a registered
    (list_elem_of_here _ _) (list_elem_of_here _ _) Hat Ht ltac:(discriminate) Hj Hid Hms Hb Hord Ha
    secret_shared Hnow) as Hr.
  cbv zeta in Hr. rewrite Ho in Hr. eexists _, _. split; [exact Hr|reflexivity].
Defined.

(** Event ids are made of the label alone, so a second run meets those of the first. *)
Definition again : Gateway () :=
  let route name := request_as "" "exec" "POST" ("/api/v1/orders/ord_2/milestones/ms_1/" +:+ name) in
  demo_serve_all
    [create_order "bo" "credit" 1000; route "bind-carrier" (Some (JObj [("carrierId", JStr "pcb_1")]));
     route "jobs" (Some (JObj [("bindingId", JStr "bind_2"); ("input", JStr "do")]))]
    (serve_run run_requests registered).1.
Definition requests_again : list Request :=
  (λ event, let e := event 1000000000 in
     received demo_marshal (λ _, Some (envelope_json e)) (callback_request demo_marshal "http://api" run_secret e))
  <$> flow_callbacks run_secret "bootstrap" "bind_2" "job_2".

(** A second run against the same platform cannot pass: each of its callbacks is
    answered 200 like a redelivery of the first run's, so its job is never started,
    nothing is charged, and its order stays as it was and is never completed. *)
Theorem second_runs_are_replays :
  let out := serve_run requests_again again in
  GetJob "job_2" (gw_carrier again) = GetJob "job_2" (gw_carrier out.1) ∧
  is_ok (GetJob "job_2" (gw_carrier again)) = true ∧
  (out.2, order_1_status out.1, order_Get "ord_2" (orders (gw_app out.1)), charged out.1 "ord_2")
  = ([200; 200; 200; 200; 200], Some OrderStatusCompleted, order_Get "ord_2" (orders (gw_app again)), [(0, [])]).
Proof. vm_compute. split_and!; reflexivity. Qed.
