(* ===== verification/RunPayouts.v ===== *)
(** * What a run pays, and where it waits

    An order that came through the marketplace run was paid for in three payouts that
    make up its quote.  A payout is asked for at most three times; the waits for orders
    and records end by themselves, the wait for a deposit does not while the service
    that is to sweep it fails. *)

From Stdlib Require Import Ascii.
From S2P Require Import Prelude GoNum GoText GoFloat Core GoTime Repo App Amounts Http GoBytes.
From S2P Require Import Signatures DemoEnv CodeAgent Traces Fnn FiberNode CkbWallet Bech32.
From S2P Require Import ReleaseClient ReleaseSmoke ReleaseFnn ReleaseUsdi RunCallbacks.

Section payouts.
Context (w : World) (getenv : string → string) (parse : string → option json) (marshal : json → string).
Context (cfg : USDIMarketplaceE2EConfig) (buyer provider : actorIdentity).

(** ** Payouts *)

Definition payout_request (orderID amount invoice : string) : Outgoing :=
  post_request (uc_SettlementBaseURL cfg) "/v1/provider-payouts" (service_header (uc_SettlementServiceToken cfg))
    (payout_payload orderID (ai_OrgID buyer) (ai_OrgID provider) amount invoice).
(** A payout of the amount was accepted and given the identifier. *)
Definition paid_out (h : list Event) (orderID amount id : string) : Prop := ∃ invoice,
  answered w h (payout_request orderID amount invoice)
    (λ status body, status < StatusBadRequest ∧ top_string "recordId" body = Some id).

Lemma payout_tries_Ok tries orderID amount delay h h' id : (0 < tries)%nat →
  payout_tries w getenv parse tries cfg orderID (ai_OrgID buyer) (ai_OrgID provider) amount delay h = (h', Ok id) →
  paid_out h' orderID amount id.
Proof.
  revert h. induction tries as [|tries IH]; intros h Ht; [lia|]. cbn [payout_tries].
  intros (h1 & invoice & _ & (h2 & r & Ha & Hk)%bind_Ok)%bind_Ok. rewrite attempt_Ok in Ha.
  destruct r as [id'|e].
  - injection Hk as <- <-. apply created_Ok in Ha as [[_ Ha]%post_Ok _]. by exists invoice.
  - destruct (negb (isRetryableReleaseStatus e) || Nat.eqb tries 0) eqn:Hretry; [done|].
    apply bind_Ok in Hk as (h3 & [] & _ & Hk). apply (IH h3); [|done].
    destruct tries; [by rewrite orb_true_r in Hretry|lia].
Qed.
Lemma flow_payout_Ok orderID amount h h' id :
  flow_payout w getenv parse cfg orderID buyer provider amount h = (h', Ok id) →
  paid_out h' orderID amount id.
Proof. apply payout_tries_Ok. unfold usdiMarketplaceProviderPayoutRetryAttempts. lia. Qed.

(** ** Callbacks *)

Lemma created_now label bindingID executionID n event now :
  flow_callbacks cfg label bindingID executionID !! n = Some event →
  ie_CreatedAt (event now) = FormatRFC3339 now.
Proof. destruct n as [|[|[|[|[|n]]]]]; intros Hn; [injection Hn as <-; reflexivity..|done]. Qed.
Definition confirmed (h : list Event) (event : Z → IntegrationCallbackEnvelope) : Prop := ∃ now,
  answered w h (callback_request marshal (uc_APIBaseURL cfg) cfg (event now)) (λ status _, status = StatusOK).
Lemma send_event_Ok label bindingID executionID n event h h' :
  flow_callbacks cfg label bindingID executionID !! n = Some event →
  send_event w marshal cfg event h = (h', Ok ()) → confirmed h' event.
Proof.
  intros Hn (h1 & now & _ & (h2 & e & He & (_ & b & s & t & v & Hb & Hr & -> & _)%get_ok_Ok)%bind_Ok)%bind_Ok.
  exists now, b, StatusOK, t, v. rewrite (created_now _ _ _ _ _ now Hn), time_not_blank in He.
  injection He as <- <-. done.
Qed.

(** ** What is read of the order *)

Definition order_read (h : list Event) (token orderID status : string) : Prop :=
  answered w h (get (uc_APIBaseURL cfg) ("/api/v1/orders/" +:+ orderID) [] (authHeaders token))
    (λ code body, code = StatusOK ∧ inner_string "order" "status" body = Some status).
Lemma getOrderStatus_Ok token orderID h h' status :
  getOrderStatus w (uc_APIBaseURL cfg) token orderID h = (h', Ok status) → order_read h' token orderID status.
Proof.
  intros (h1 & s & [-> Ha]%get_ok_Ok & Hk)%bind_Ok. destruct (String.eqb s ""); [done|].
  by injection Hk as <- <-.
Qed.
(** What the wait for a status ends with was read of the order, and is what it waits for. *)
Lemma waitOrderStatus_Ok fuel token orderID timeout wanted h h' status :
  waitOrderStatus w fuel (uc_APIBaseURL cfg) token orderID timeout [wanted] h = (h', Ok status) →
  order_read h' token orderID status ∧ ToLower (TrimSpace status) = ToLower (TrimSpace wanted).
Proof.
  intros (h1 & now & _ & Hp)%bind_Ok. revert Hp. generalize (now + timeout) as deadline. intros deadline.
  revert h1. induction fuel as [|fuel IH]; intros h1; [done|]. cbn [poll].
  intros (h2 & p & (h3 & r & Ha & Hl)%bind_Ok & Hk)%bind_Ok. rewrite attempt_Ok in Ha.
  cbv zeta in Hl. injection Hl as <- Hl. destruct r as [s|e].
  - cbn [existsb] in Hl. rewrite orb_false_r in Hl.
    destruct (String.eqb_spec (ToLower (TrimSpace wanted)) (ToLower (TrimSpace s))) as [He|].
    + subst p. injection Hk as <- <-. split; [by eapply getOrderStatus_Ok|done].
    + subst p. apply bind_Ok in Hk as (h4 & t & _ & Hk). destruct (deadline <? t); [done|].
      apply bind_Ok in Hk as (h5 & [] & _ & Hk). by eapply IH.
  - subst p. apply bind_Ok in Hk as (h4 & t & _ & Hk). destruct (deadline <? t); [done|].
    apply bind_Ok in Hk as (h5 & [] & _ & Hk). by eapply IH.
Qed.
End payouts.

(** ** Nothing is forgotten *)

Abbreviation grows := (sends (λ _, True)).
Section grows.
Context (w : World) (getenv : string → string) (parse : string → option json) (marshal : json → string).
Context (cfg : USDIMarketplaceE2EConfig).

Lemma grows_invoice amount : grows (createProviderInvoiceViaProviderSettlementNode w getenv parse cfg amount).
Proof.
  unfold createProviderInvoiceViaProviderSettlementNode, raw_CreateInvoice, raw_Call, requestID, nanoSuffix.
  solve_sends; done.
Qed.
#[local] Hint Resolve grows_invoice : sends.
Lemma grows_payout orderID buyer provider amount : grows (flow_payout w getenv parse cfg orderID buyer provider amount).
Proof.
  unfold flow_payout, requestProviderPayoutWithRetry. induction (Nat.max 1 _) as [|tries IH]; [apply sends_ret|].
  cbn [payout_tries]. unfold requestProviderPayout. solve_sends. done.
Qed.
Lemma grows_event event : grows (send_event w marshal cfg event).
Proof. unfold send_event, sendCarrierIntegrationCallback. solve_sends; done. Qed.
Lemma grows_status fuel base token orderID timeout wanted :
  grows (waitOrderStatus w fuel base token orderID timeout wanted).
Proof.
  unfold waitOrderStatus. apply sends_bind; [apply sends_now|]. intros now. apply sends_poll.
  unfold status_look, getOrderStatus. solve_sends. done.
Qed.
Lemma grows_records fuel base token filters timeout wanted :
  grows (waitFundingRecordState w fuel base token filters timeout wanted).
Proof.
  unfold waitFundingRecordState. apply sends_bind; [apply sends_now|]. intros now. apply sends_poll.
  unfold records_look, listFundingRecords. solve_sends. done.
Qed.
Lemma grows_reservation base token orderID : grows (getOrderProviderSettlementReservation w base token orderID).
Proof. unfold getOrderProviderSettlementReservation. solve_sends; done. Qed.
End grows.
#[local] Hint Resolve grows_payout grows_event grows_status grows_records grows_reservation : sends.

Section flow.
Context (w : World) (getenv : string → string) (parse : string → option json) (marshal : json → string).
Context (fuel : nat) (cfg : USDIMarketplaceE2EConfig) (buyer provider : actorIdentity).
Abbreviation paid := (paid_out w cfg buyer provider).

Lemma grows_usage orderID bindingID executionID step :
  grows (flow_usage w getenv parse marshal cfg orderID bindingID executionID buyer provider step).
Proof. unfold flow_usage. solve_sends. Qed.
Lemma grows_disconnect orderID : grows (flow_disconnect w fuel cfg orderID buyer provider).
Proof.
  unfold flow_disconnect, reportProviderSettlementDisconnect, recoverProviderSettlement. solve_sends; done.
Qed.
Lemma flow_usage_Ok label bindingID executionID orderID n h h' id :
  flow_usage w getenv parse marshal cfg orderID bindingID executionID buyer provider
    (default (usage_step label 1 2 100) (usage_steps label !! n)) h = (h', Ok id) → (n < 2)%nat →
  (∃ event, flow_callbacks cfg label bindingID executionID !! S n = Some event ∧ confirmed w marshal cfg h' event)
  ∧ paid h' orderID (default "1.00" (["1.00"; "2.00"] !! n)) id.
Proof.
  intros (h1 & [] & He & Hp)%bind_Ok Hn.
  pose proof (sends_prefix _ _ _ _ _ (grows_payout w getenv parse cfg _ _ _ _) Hp) as Hpre.
  apply flow_payout_Ok in Hp.
  destruct n as [|[|n]]; [| |lia].
  - split; [|exact Hp]. eexists. split; [reflexivity|].
    pose proof (send_event_Ok w marshal cfg label bindingID executionID 1 _ _ _ eq_refl He) as (now & Ha).
    exists now. by eapply answered_later.
  - split; [|exact Hp]. eexists. split; [reflexivity|].
    pose proof (send_event_Ok w marshal cfg label bindingID executionID 2 _ _ _ eq_refl He) as (now & Ha).
    exists now. by eapply answered_later.
Qed.
Lemma confirmed_later h h' event : confirmed w marshal cfg h event → h `prefix_of` h' →
  confirmed w marshal cfg h' event.
Proof. intros (now & Ha) Hp. exists now. by eapply answered_later. Qed.
Lemma paid_later h h' orderID amount id : paid h orderID amount id → h `prefix_of` h' → paid h' orderID amount id.
Proof. intros (invoice & Ha) Hp. exists invoice. by eapply answered_later. Qed.

Definition run_amounts : list string := ["1.00"; "2.00"; "9.00"].

(** C13. An order that came through a run was paid for in full.  Its three payouts were
    accepted under the identifiers that are reported, and make up the quote; its five
    callbacks were all answered 200; and at the end the order was read as completed,
    after it had been read as waiting for its payment rail, and as running again, when
    the channel was cut on the way. *)
Theorem passed_orders_are_paid carrierBindingID label disconnect h h' f : label ∈ flow_labels →
  runUSDIMarketplaceOrderFlow w getenv parse marshal fuel cfg buyer provider carrierBindingID label disconnect h
    = (h', Ok f) →
  Forall2 (paid h' (of_OrderID f)) run_amounts (of_PayoutRecordIDs f)
  ∧ sumZ (parseDemoAmountToCents <$> run_amounts) = 1200
  ∧ Forall (confirmed w marshal cfg h') (flow_callbacks cfg label (of_CarrierBindingID f) (of_CarrierExecutionID f))
  ∧ order_read w cfg h' (ai_Token buyer) (of_OrderID f) (of_FinalOrderStatus f)
  ∧ ToLower (TrimSpace (of_FinalOrderStatus f)) = "completed"
  ∧ (disconnect = true →
       ToLower (TrimSpace (of_DisconnectStatus f)) = "awaiting_payment_rail" ∧
       ToLower (TrimSpace (of_RecoveredStatus f)) = "running").
Proof.
  intros Hl Hr. unfold runUSDIMarketplaceOrderFlow in Hr.
  assert (Hlabel : firstNonEmptyString [label; "primary"] = label).
  { unfold flow_labels in Hl. rewrite !elem_of_cons, elem_of_nil in Hl.
    destruct Hl as [->|[->|[->|[]]]]; vm_compute; reflexivity. }
  cbv zeta in Hr. rewrite Hlabel in Hr.
  revert Hr. intros (h1 & rfqID & _ & (h2 & bidID & _ & (h3 & orderID & _ & (h4 & r & _ & (h5 & bindingID & _ & (h6 & executionID
    & _ & (h7 & [] & E1 & (h8 & p1 & E2 & (h9 & [d1 d2] & E3 & (h10 & p2 & E4 & (h11 & [] & E5 & (h12 & [] & E6 &
    (h13 & p3 & E7 & (h14 & state & E8 & (h15 & final & E9 & (h16 & fr & E10 &
    E11)%bind_Ok)%bind_Ok)%bind_Ok)%bind_Ok)%bind_Ok)%bind_Ok)%bind_Ok)%bind_Ok)%bind_Ok)%bind_Ok)%bind_Ok)%bind_Ok)%bind_Ok)%bind_Ok)%bind_Ok)%bind_Ok.
  injection E11 as <- <-. cbn [of_OrderID of_PayoutRecordIDs of_CarrierBindingID of_CarrierExecutionID
    of_FinalOrderStatus of_DisconnectStatus of_RecoveredStatus].
  assert (P16 : h15 `prefix_of` h16) by (apply (sends_prefix (λ _, True)) in E10; [done|solve_sends]).
  assert (P15 : h14 `prefix_of` h16) by (etransitivity; [eapply sends_prefix; [apply grows_status|exact E9]|done]).
  assert (P14 : h13 `prefix_of` h16) by (etransitivity; [eapply sends_prefix; [apply grows_records|exact E8]|done]).
  assert (P13 : h12 `prefix_of` h16) by (etransitivity; [eapply sends_prefix; [apply grows_payout|exact E7]|done]).
  assert (P12 : h11 `prefix_of` h16) by (etransitivity; [eapply sends_prefix; [apply grows_event|exact E6]|done]).
  assert (P11 : h10 `prefix_of` h16) by (etransitivity; [eapply sends_prefix; [apply grows_event|exact E5]|done]).
  assert (P10 : h9 `prefix_of` h16) by (etransitivity; [eapply sends_prefix; [apply grows_usage|exact E4]|done]).
  assert (P9 : h8 `prefix_of` h16).
  { etransitivity; [|exact P10]. apply (sends_prefix (λ _, True)) in E3; [done|].
    destruct disconnect; [apply grows_disconnect|apply sends_ret]. }
  assert (P8 : h7 `prefix_of` h16) by (etransitivity; [eapply sends_prefix; [apply grows_usage|exact E2]|done]).
  destruct (flow_usage_Ok label bindingID executionID orderID 0 _ _ _ E2 ltac:(lia)) as [(e1 & He1 & C1) Q1].
  destruct (flow_usage_Ok label bindingID executionID orderID 1 _ _ _ E4 ltac:(lia)) as [(e2 & He2 & C2) Q2].
  apply flow_payout_Ok in E7. injection He1 as <-. injection He2 as <-.
  pose proof (send_event_Ok w marshal cfg label bindingID executionID 0 _ _ _ eq_refl E1) as C0.
  pose proof (send_event_Ok w marshal cfg label bindingID executionID 3 _ _ _ eq_refl E5) as C3.
  pose proof (send_event_Ok w marshal cfg label bindingID executionID 4 _ _ _ eq_refl E6) as C4.
  apply waitOrderStatus_Ok in E9 as [R1 R2]. split_and!.
  - repeat constructor; by eapply paid_later.
  - vm_compute. reflexivity.
  - repeat (constructor; [by eapply confirmed_later|]). constructor.
  - by eapply answered_later.
  - exact R2.
  - intros ->. revert E3.
    intros (k1 & [] & _ & (k2 & s1 & [_ D1]%or_fail_Ok%waitOrderStatus_Ok & (k3 & [] & _ &
      (k4 & s2 & [_ D2]%or_fail_Ok%waitOrderStatus_Ok & [= _ <- <-])%bind_Ok)%bind_Ok)%bind_Ok)%bind_Ok.
    done.
Qed.
End flow.

(** ** An order that comes through *)

Definition paying_env (key : string) : string :=
  if String.eqb key "RELEASE_USDI_E2E_PROVIDER_SETTLEMENT_UDT_TYPE_SCRIPT_JSON" then "script" else "".
Definition paying_config : USDIMarketplaceE2EConfig := USDIMarketplaceE2EConfigFromEnv paying_env.
Definition paying_parse (text : string) : option json :=
  Some (JObj [("code_hash", JStr "0x01"); ("hash_type", JStr "type"); ("args", JStr "0x02")]).
Definition paying_answer : json :=
  JObj [("rfq", JObj [("id", JStr "rfq_1")]); ("bid", JObj [("id", JStr "bid_1")]);
        ("order", JObj [("id", JStr "ord_1"); ("status", JStr "completed")]);
        ("reservation", JObj [("id", JStr "plr_1"); ("status", JStr "released")]);
        ("binding", JObj [("id", JStr "bind_1")]); ("job", JObj [("id", JStr "job_1")]);
        ("recordId", JStr "fr_1"); ("records", JArr [JObj [("id", JStr "fr_1"); ("state", JStr "SETTLED")]]);
        ("result", JObj [("invoice_address", JStr "fibt1")])].
Definition paying_world : World :=
  mkWorld (λ _ _, Ok (200, "", Some paying_answer)) (λ _ _, Err (Errf "no adapter"))
    (λ h, 1700000000000000000 + Z.of_nat (length h)) (λ _, true).
Definition paying_run := runUSDIMarketplaceOrderFlow paying_world paying_env paying_parse (λ _, "text") 1
  paying_config (org_only "buyer_1") (org_only "provider_1") "pcb_1" "reuse" false [].

Lemma passed_orders_are_paid_witness : ∃ f, paying_run = (paying_run.1, Ok f) ∧
  Forall2 (paid_out paying_world paying_config (org_only "buyer_1") (org_only "provider_1") paying_run.1 "ord_1")
    run_amounts ["fr_1"; "fr_1"; "fr_1"].
Proof.
  eexists.
  assert (Hr : paying_run = (paying_run.1, Ok (mkFlow "rfq_1" "bid_1" "ord_1" "bind_1" "job_1" "plr_1" "" "" "plr_1" ""
    "" "released" 2 ["fr_1"; "fr_1"; "fr_1"] "" "" "completed"))) by (vm_compute; reflexivity).
  split; [exact Hr|].
  exact (proj1 (passed_orders_are_paid paying_world paying_env paying_parse (λ _, "text") 1 paying_config
    (org_only "buyer_1") (org_only "provider_1") "pcb_1" "reuse" false [] paying_run.1 _
    (list_elem_of_further _ _ _ (list_elem_of_here _ _)) Hr)).
Defined.

(** ** How often a payout is asked for *)

Definition is_payout (e : Event) : bool :=
  match e with
  | Sent o => String.eqb (og_Method o) "POST" && String.eqb (og_Path o) "/v1/provider-payouts"
  | _ => false
  end.
Abbreviation no_payout := (sends (λ o, is_payout (Sent o) = false)).

Lemma no_payout_spends {A} (m : R A) : no_payout m → spends is_payout 0 m.
Proof.
  intros Hm h. destruct (Hm h) as (t & Ht & Hall). exists t. split; [done|].
  clear Ht. unfold count. induction Hall as [|[o|r| |d] t He Hall IH]; [done|..]; cbn [List.filter];
    [rewrite He|..]; exact IH.
Qed.
Ltac solve_no_payout := apply no_payout_spends; solve_sends; reflexivity.

Section asked.
Context (w : World) (getenv : string → string) (parse : string → option json) (marshal : json → string).
Context (fuel : nat) (cfg : USDIMarketplaceE2EConfig) (buyer provider : actorIdentity).

Lemma payout_spends orderID amount :
  spends is_payout 3 (flow_payout w getenv parse cfg orderID buyer provider amount).
Proof.
  unfold flow_payout, requestProviderPayoutWithRetry. change (Nat.max 1 _) with 3%nat.
  generalize 3%nat as tries. induction tries as [|tries IH]; [apply spends_ret|]. cbn [payout_tries].
  apply spends_bind0.
  { unfold createProviderInvoiceViaProviderSettlementNode, raw_CreateInvoice, raw_Call, requestID, nanoSuffix.
    solve_no_payout. }
  intros invoice. apply (spends_bind _ 1 tries).
  - apply spends_attempt. unfold requestProviderPayout, created, postJSONWithHeaders.
    apply (spends_weaken _ (1 + 0)); [|lia]. apply spends_bind.
    + apply spends_or_fail. apply (spends_weaken _ (1 + 0)); [|lia]. apply spends_bind; [apply spends_event|].
      intros [[status text] body]. solve_no_payout.
    + intros id. solve_no_payout.
  - intros [id|e]; [eapply spends_weaken; [apply spends_ret|lia]|].
    destruct (_ || _); [eapply spends_weaken; [apply spends_throw|lia]|].
    apply spends_bind0; [solve_no_payout|done].
Qed.
Lemma usage_spends orderID bindingID executionID step : spends is_payout 3
  (flow_usage w getenv parse marshal cfg orderID bindingID executionID buyer provider step).
Proof.
  unfold flow_usage. apply spends_bind0; [|intros []; apply payout_spends].
  unfold send_event, sendCarrierIntegrationCallback. solve_no_payout.
Qed.

(** Whatever the services answer, a run of an order asks for at most nine payouts,
    three tries for each of its three. *)
Theorem payouts_are_asked_thrice carrierBindingID label disconnect h :
  let h' := (runUSDIMarketplaceOrderFlow w getenv parse marshal fuel cfg buyer provider carrierBindingID label
               disconnect h).1 in
  h `prefix_of` h' ∧ (count is_payout h' ≤ count is_payout h + 9)%nat.
Proof.
  cbv zeta.
  assert (Hs : spends is_payout 9 (runUSDIMarketplaceOrderFlow w getenv parse marshal fuel cfg buyer provider
    carrierBindingID label disconnect)).
  2:{ destruct (Hs h) as (t & -> & Ht). split; [by exists t|]. rewrite counted_app. lia. }
  unfold runUSDIMarketplaceOrderFlow. cbv zeta.
  apply spends_bind0; [unfold createRFQ; solve_no_payout|intros rfqID].
  apply spends_bind0; [unfold createBid; solve_no_payout|intros bidID].
  apply spends_bind0; [unfold awardRFQPrepaid, award_with; solve_no_payout|intros orderID].
  apply spends_bind0; [unfold getOrderProviderSettlementReservation; solve_no_payout|intros r].
  apply spends_bind0; [unfold bindOrderCarrier; solve_no_payout|intros bindingID].
  apply spends_bind0; [unfold createCarrierJob; solve_no_payout|intros executionID].
  apply spends_bind0; [unfold send_event, sendCarrierIntegrationCallback; solve_no_payout|intros _].
  apply (spends_bind _ 3 6); [apply usage_spends|intros p1].
  apply spends_bind0.
  { destruct disconnect; [|apply spends_ret].
    unfold flow_disconnect, reportProviderSettlementDisconnect, recoverProviderSettlement, waitOrderStatus,
      status_look, getOrderStatus. apply no_payout_spends. solve_sends; try reflexivity;
      apply sends_poll; solve_sends; reflexivity. }
  intros [d1 d2]. apply (spends_bind _ 3 3); [apply usage_spends|intros p2].
  do 2 (apply spends_bind0; [unfold send_event, sendCarrierIntegrationCallback; solve_no_payout|intros _]).
  apply (spends_bind _ 3 0); [apply payout_spends|intros p3].
  apply no_payout_spends. unfold waitFundingRecordState, records_look, listFundingRecords, waitOrderStatus,
    status_look, getOrderStatus, getOrderProviderSettlementReservation.
  solve_sends; try reflexivity; apply sends_poll; solve_sends; reflexivity.
Qed.
End asked.

(** ** Waits for orders and records *)

Section waits.
Context (w : World) (fuel : nat) (base token : string) (timeout : Z).

(** The services' own failures are not taken for the end of the model's fuel. *)
Definition plain_failures : Prop := ∀ h o, wd_answer w h o ≠ Err out_of_fuel.

Lemma status_looks_end orderID accepted : looks_end (status_look w base token orderID accepted).
Proof.
  intros h. assert (Hs : grows (status_look w base token orderID accepted)).
  { unfold status_look, getOrderStatus. solve_sends; done. }
  destruct (status_look w base token orderID accepted h) as [h' r] eqn:Hr. split.
  - by eapply sends_prefix.
  - cbn. intros ->. apply bind_Err in Hr as [Hr|(r & h1 & _ & Hr)]; [|by unfold mret, st_ret in Hr].
    unfold attempt in Hr. by destruct (getOrderStatus w base token orderID h).
Qed.
Lemma records_looks_end filters accepted : plain_failures → looks_end (records_look w base token filters accepted).
Proof.
  intros Hw h. assert (Hs : grows (records_look w base token filters accepted)).
  { unfold records_look, listFundingRecords. solve_sends; done. }
  destruct (records_look w base token filters accepted h) as [h' r] eqn:Hr. split.
  - by eapply sends_prefix.
  - cbn. intros ->.
    apply bind_Err in Hr as [Hr|(records & h1 & _ & Hr)]; [|by unfold mret, st_ret in Hr].
    apply bind_Err in Hr as [Hr|([[status text] body] & h2 & _ & Hr)].
    + injection Hr as _ Hr. by apply Hw in Hr.
    + destruct (negb (status =? StatusOK)); [done|]. unfold decoded in Hr. by destruct (decode_records body).
Qed.

(** The waits of a run end by their own deadline: a poll every two seconds from the
    start, and one after the deadline, is all that a wait for an order or for a record
    can make, so that seventeen polls are enough for the thirty seconds it is given. *)
Theorem order_and_record_waits_end h orderID filters accepted : clock_ok w → plain_failures →
  0 ≤ timeout → (Z.to_nat (timeout / (2 * second)) + 1 < fuel)%nat →
  (waitOrderStatus w fuel base token orderID timeout accepted h).2 ≠ Err out_of_fuel ∧
  (waitFundingRecordState w fuel base token filters timeout accepted h).2 ≠ Err out_of_fuel.
Proof.
  intros Hc Hw Ht Hf. split.
  - apply polls_end; [done|done|apply status_looks_end| |done|done].
    intros h1 h2 late (h3 & r & _ & Hl)%bind_Ok. unfold mret, st_ret in Hl. destruct r as [s|e]; [destruct (existsb _ _)|]; by simplify_eq.
  - apply polls_end; [done|done|by apply records_looks_end| |done|done].
    intros h1 h2 late (h3 & r & _ & Hl)%bind_Ok. unfold mret, st_ret in Hl. destruct (List.find _ _); by simplify_eq.
Qed.
End waits.

(** A clock that a pause of two seconds moves by as much. *)
Fixpoint elapsed (h : list Event) : Z :=
  match h with [] => 0 | Waited d :: h => Z.max 0 d + elapsed h | _ :: h => elapsed h end.
Lemma elapsed_app h h' : elapsed (h ++ h') = elapsed h + elapsed h'.
Proof. induction h as [|[] h IH]; cbn; lia. Qed.
Lemma elapsed_nonneg h : 0 ≤ elapsed h.
Proof. induction h as [|[] h IH]; cbn; lia. Qed.
Definition timed_world : World := mkWorld (wd_answer paying_world) (wd_post paying_world) elapsed (λ _, true).
Lemma timed_clock : clock_ok timed_world.
Proof.
  split; cbn.
  - intros h h' [k ->]. rewrite elapsed_app. pose proof (elapsed_nonneg k). lia.
  - intros h h' d _ [k ->]. rewrite !elapsed_app. cbn. pose proof (elapsed_nonneg k). lia.
Qed.
Lemma order_and_record_waits_end_witness :
  (waitOrderStatus timed_world 17 "http://api" "" "ord_1" (30 * second) ["cancelled"] []).2 ≠ Err out_of_fuel.
Proof.
  apply (order_and_record_waits_end timed_world 17 "http://api" "" (30 * second) [] "ord_1" [] ["cancelled"]
    timed_clock); [by intros h o|done|vm_compute; lia].
Defined.

(** ** The wait for a deposit *)

Definition never_pauses (e : Event) : Prop := match e with Waited _ => False | _ => True end.

Section deposit.
Context (w : World) (bech32_Decode : string → result (Encoding * string * list Z)).
Context (sdk_ConvertBits : list Z → Z → Z → bool → result (list Z)).
Context (DeserializeHashTypeByte : Z → result string).
Context (fuel : nat) (cfg : USDIMarketplaceE2EConfig) (buyer : actorIdentity).
Context (summary : buyerDepositSummaryResponse) (script : RawUDTTypeScript).
Abbreviation rpc := (firstNonEmptyString [uc_CKBRPCURL cfg; "https://testnet.ckbapp.dev/"]).

(** A deposit is confirmed and the fee for its sweep is there, but the service fails. *)
Record failing_sweep : Prop := {
  fs_summary h : ∃ h', getBuyerDepositSummary w (uc_SettlementBaseURL cfg) buyer (uc_SettlementServiceToken cfg) h
    = (h', Ok summary);
  fs_confirmed : bd_RawMinimumSweepUnits summary ≤ bd_RawConfirmedUnits summary ∧
    bd_RawMinimumSweepUnits summary ≤ bd_RawOnChainUnits summary;
  fs_address : decodeCKBAddressToRawScript bech32_Decode sdk_ConvertBits DeserializeHashTypeByte
    (bd_Address summary) = Ok script;
  fs_fee h : ∃ h' balance, queryCKBBalanceForLockScript w rpc script h = (h', Ok balance) ∧
    usdiMarketplaceBuyerDepositSweepCKBThreshold ≤ balance;
  fs_sync h : ∃ h' e, syncBuyerDeposits w (uc_SettlementBaseURL cfg) (uc_SettlementServiceToken cfg) h = (h', Err e)
    ∧ isStatusCode e StatusInternalServerError = true;
}.

Lemma pauseless_Do o : emits never_pauses (Do w o).
Proof. by apply emits_event. Qed.
Lemma pauseless_now : emits never_pauses (time_now w).
Proof. by apply emits_event. Qed.
Lemma pauseless_decoded {A} (target : option json → option A) body : emits never_pauses (decoded target body).
Proof. unfold decoded. destruct (target body); [apply emits_ret|apply emits_throw]. Qed.
#[local] Hint Resolve pauseless_Do pauseless_now pauseless_decoded : emits.
Lemma pauseless_summary base token : emits never_pauses (getBuyerDepositSummary w base buyer token).
Proof. unfold getBuyerDepositSummary. solve_emits. Qed.
Lemma pauseless_sync base token : emits never_pauses (syncBuyerDeposits w base token).
Proof. unfold syncBuyerDeposits, postJSONWithHeaders. solve_emits. Qed.
Lemma pauseless_balance endpoint lock : emits never_pauses (queryCKBBalanceForLockScript w endpoint lock).
Proof.
  unfold queryCKBBalanceForLockScript. generalize demoCKBBalanceMaxPages "0x" 0. intros pages.
  induction pages as [|pages IH]; intros cursor total; [apply emits_ret|]. cbn [query_pages]. unfold ckb_rpc, nanoSuffix.
  solve_emits.
Qed.

Lemma fee_balance_there : failing_sweep → ∀ h, ∃ t,
  ensureBuyerDepositSweepCKBFeeBalance w bech32_Decode sdk_ConvertBits DeserializeHashTypeByte fuel cfg rpc
    (bd_Address summary) h = (h ++ t, Ok tt) ∧ Forall never_pauses t.
Proof.
  intros Hf h. destruct (fs_fee Hf h) as (h' & balance & Hq & Hb).
  destruct (emits_run _ _ _ _ _ (pauseless_balance _ _) Hq) as (t & -> & Ht). exists t. split; [|done].
  unfold ensureBuyerDepositSweepCKBFeeBalance. rewrite (fs_address Hf).
  rewrite (bind_run _ _ h h script) by (by rewrite (or_fail_run _ _ h h script)).
  apply or_fail_run. unfold ensureCKBBalanceOrRequestFaucet. change (_ <=? 0) with false. cbv iota.
  rewrite (attempt_run _ _ _ _ _ Hq). unfold enough. apply Z.leb_le in Hb as ->. done.
Qed.

Lemma sync_tried_again : failing_sweep → ∀ s h, ∃ t s',
  credit_sync w bech32_Decode sdk_ConvertBits DeserializeHashTypeByte fuel cfg rpc s summary h
    = (h ++ t, Ok (true, s')) ∧ Forall never_pauses t.
Proof.
  intros Hf s h. unfold credit_sync. destruct (fs_confirmed Hf) as [Hc _].
  apply Z.ltb_ge in Hc as ->.
  assert (H1 : ∃ t, (if wc_feeReady s then mret tt
    else ensureBuyerDepositSweepCKBFeeBalance w bech32_Decode sdk_ConvertBits DeserializeHashTypeByte fuel cfg rpc
           (bd_Address summary)) h = (h ++ t, Ok tt) ∧ Forall never_pauses t).
  { destruct (wc_feeReady s); [|by apply fee_balance_there]. exists []. by rewrite app_nil_r. }
  destruct H1 as (t1 & H1 & P1). rewrite (bind_run _ _ _ _ _ H1). cbv zeta.
  destruct (fs_sync Hf (h ++ t1)) as (h2 & e & H2 & He).
  destruct (emits_run _ _ _ _ _ (pauseless_sync _ _) H2) as (t2 & -> & P2).
  rewrite (attempt_run _ _ _ _ _ H2), He.
  destruct (fee_balance_there Hf ((h ++ t1) ++ t2)) as (t3 & H3 & P3).
  rewrite (attempt_run _ _ _ _ _ H3). exists (t1 ++ t2 ++ t3), (fee_ready s).
  split; [by rewrite <- !app_assoc|]. by rewrite !Forall_app.
Qed.

(** The wait for a deposit never ends while the service that is to sweep it fails.
    The deadline is only looked at after a sweep that did not fail: however many rounds
    it makes, the check asks again at once, without a pause, however late it is. *)
Theorem failing_sweeps_spin : failing_sweep → ∀ amount,
  bd_CreditedBalanceCents summary < parseDemoAmountToCents amount → ∀ rounds h, ∃ t,
  waitBuyerDepositCredit w bech32_Decode sdk_ConvertBits DeserializeHashTypeByte fuel cfg rounds buyer amount h
    = (h ++ t, Err out_of_fuel)
  ∧ (∀ delay, Waited delay ∉ t) ∧ (rounds ≤ length t)%nat.
Proof.
  intros Hf amount Hamount rounds h. unfold waitBuyerDepositCredit. generalize fresh_wait as s.
  assert (Hmain : ∀ s, ∃ t, credit_rounds w bech32_Decode sdk_ConvertBits DeserializeHashTypeByte fuel cfg
    rounds rpc buyer amount s h = (h ++ t, Err out_of_fuel) ∧ Forall never_pauses t ∧ (rounds ≤ length t)%nat).
  2:{ intros s. destruct (Hmain s) as (t & -> & Ht & Hl). exists t. split; [done|]. split; [|done].
      intros delay Hin. rewrite Forall_forall in Ht. exact (Ht _ Hin). }
  revert h. induction rounds as [|rounds IH]; intros h s.
  { exists []. rewrite app_nil_r. split; [done|]. split; [constructor|done]. }
  cbn [credit_rounds].
  destruct (fs_summary Hf h) as (h1 & H1).
  destruct (emits_run _ _ _ _ _ (pauseless_summary _ _) H1) as (t1 & -> & P1).
  rewrite (bind_run _ _ _ _ _ H1).
  set (look := match wc_deadline s with Some deadline => _ | None => _ end).
  assert (H2 : ∃ t2 deadline, look (h ++ t1) = ((h ++ t1) ++ t2, Ok deadline) ∧ Forall never_pauses t2).
  { unfold look. destruct (wc_deadline s); [exists []|exists [Looked]]; eexists; [rewrite app_nil_r|];
      (split; [reflexivity|by repeat constructor]). }
  destruct H2 as (t2 & deadline & H2 & P2). rewrite (bind_run _ _ _ _ _ H2). cbv zeta.
  apply Z.leb_gt in Hamount as Hlow. rewrite Hlow.
  rewrite (bind_run _ _ _ (((h ++ t1) ++ t2) ++ [Looked]) (wd_now w ((h ++ t1) ++ t2))) by done.
  unfold credit_faucet, faucet_due. destruct (fs_confirmed Hf) as [_ Hon]. apply Z.ltb_ge in Hon as ->.
  cbn [andb negb]. set (s1 := mkCreditWait _ _ _ _ _).
  rewrite (bind_run _ _ _ (((h ++ t1) ++ t2) ++ [Looked]) s1) by done.
  destruct (sync_tried_again Hf s1 (((h ++ t1) ++ t2) ++ [Looked])) as (t3 & s3 & H3 & P3).
  rewrite (bind_run _ _ _ _ _ H3). cbv iota.
  destruct (IH ((((h ++ t1) ++ t2) ++ [Looked]) ++ t3) s3) as (t4 & -> & P4 & Hl).
  exists (t1 ++ t2 ++ [Looked] ++ t3 ++ t4). rewrite !app_assoc. split; [done|]. split.
  - rewrite !Forall_app. repeat split; try done. by repeat constructor.
  - rewrite !length_app. cbn. lia.
Qed.
End deposit.

Definition stuck_summary : buyerDepositSummaryResponse := mkDepositSummary demo_address 0 24 1000 1000 500.
Definition stuck_answer (o : Outgoing) : Z * string * option json :=
  if String.eqb (og_Path o) "/v1/buyer/deposits/sync" then (500, "", None)
  else if String.eqb (og_Path o) "/v1/buyer/deposit-address"
  then (200, "", Some (JObj [("address", JStr demo_address); ("creditedBalanceCents", JInt 0);
          ("confirmationBlocks", JInt 24); ("rawOnChainUnits", JInt 1000); ("rawConfirmedUnits", JInt 1000);
          ("rawMinimumSweepUnits", JInt 500)]))
  else (200, "", Some (JObj [("result", JObj [("objects", JArr [JObj [("output",
          JObj [("capacity", JStr "0x4a817c800")])]]); ("last_cursor", JStr "")])])).
(** An hour passes with every event. *)
Definition stuck_world : World :=
  mkWorld (λ _ o, Ok (stuck_answer o)) (λ _ _, Err (Errf "no adapter"))
    (λ h, Z.of_nat (length h) * minutes 60) (λ _, true).

Lemma failing_sweeps_spin_witness : ∃ t,
  waitBuyerDepositCredit stuck_world bip173_decode convertBits (λ _, Err ErrUnauthorized) 1 paying_config 1000
    (org_only "buyer_1") "10.00" [] = ([] ++ t, Err out_of_fuel)
  ∧ (∀ delay, Waited delay ∉ t) ∧ (1000 ≤ length t)%nat.
Proof.
  apply (failing_sweeps_spin stuck_world bip173_decode convertBits (λ _, Err ErrUnauthorized) 1 paying_config
    (org_only "buyer_1") stuck_summary
    (mkRawScript "0x9bd7e06f3ecf4be0f2fcd2188b23f1b9fcc88e5d4b65a8637b17723bbda3cce8" "type"
       (hex_text_of demo_lock_bytes))).
  - split.
    + intros h. eexists. vm_compute. reflexivity.
    + done.
    + vm_compute. reflexivity.
    + intros h. eexists _, _. split; [vm_compute; reflexivity|vm_compute; discriminate].
    + intros h. eexists _, _. split; [vm_compute; reflexivity|vm_compute; reflexivity].
  - vm_compute. reflexivity.
Defined.
