(* ===== verification/DemoReady.v ===== *)
(** * Preparing and verifying the demonstration (internal/release/demo_ready.go)

    The check that the demonstration can be given, and the preparation that makes it
    so: its actors, the bindings of its provider, the liquidity of its nodes
    (demo_fnn_funding.go), the buyer's top-up and the provider's pool.  What a
    verification may send, what a verdict rests on, and where a preparation reports
    what it has not seen.

    The summary is returned with the error, so both are the result. *)

From Stdlib Require Import Ascii.
From S2P Require Import Prelude GoNum GoText GoFloat Core GoTime Market Repo App Http GoBytes.
From S2P Require Import Signatures DemoEnv CodeAgent Traces Fnn FiberNode CkbWallet Bech32.
From S2P Require Import ReleaseClient ReleaseSmoke ReleaseFnn ReleaseUsdi RunCallbacks RunPayouts.

Record DemoRunConfig := mkDemoRun { dr_Demo : demoenv_Config; dr_USDI : USDIMarketplaceE2EConfig }.
Definition DemoRunConfigFromEnv (getenv : string → string) : DemoRunConfig :=
  mkDemoRun (demoenv_ConfigFromEnv getenv) (USDIMarketplaceE2EConfigFromEnv getenv).

(** The [demoenv.Status] of a summary that has none yet. *)
Definition no_status : demoenv_Status :=
  mkDemoStatus None "" None [] [] [] (mkBuyerBalance "" 0 0 0 0 false)
    (mkProviderStatus "" "" "" "" 0 0 0 0 false).
Record DemoRunSummary := mkDemoSummary {
  ds_Status : demoenv_Status;
  ds_Actions : list string;
  ds_BuyerOrgID : string;
  ds_ProviderOrgID : string;
  ds_OpsOrgID : string;
  ds_BuyerEmail : string;
  ds_ProviderEmail : string;
  ds_OpsEmail : string;
  ds_DepositAddress : string;
  ds_TopUpRecordID : string;
}.
#[export] Instance DemoRunSummary_eta : Eta DemoRunSummary := λ s,
  mkDemoSummary (ds_Status s) (ds_Actions s) (ds_BuyerOrgID s) (ds_ProviderOrgID s) (ds_OpsOrgID s)
    (ds_BuyerEmail s) (ds_ProviderEmail s) (ds_OpsEmail s) (ds_DepositAddress s) (ds_TopUpRecordID s).
Definition acted (what : string) (s : DemoRunSummary) : DemoRunSummary :=
  s <| ds_Actions ::= (λ l, l ++ [what]) |>.

(** ** What answers hold *)

Definition decode_memberships (body : option json) : option (list (string * string)) :=
  f ← body_fields body;
  decode_field [] (as_list ("", "") (λ v, m ← as_object v; o ← object_field "organization" m;
    i ← string_field "id" o; k ← string_field "kind" o; Some (i, k))) "memberships" f.
Definition organization_session (body : option json) : option (string * string) :=
  f ← body_fields body; o ← object_field "organization" f; s ← object_field "session" f;
  i ← string_field "id" o; t ← string_field "token" s; Some (i, t).

Definition decode_service (v : json) : option ServiceStatus :=
  f ← as_object v; i ← string_field "id" f; l ← string_field "label" f; b ← string_field "baseUrl" f;
  h ← bool_field "healthy" f; d ← string_field "detail" f; Some (mkServiceStatus i l b h d).
Definition decode_actor_status (v : json) : option ActorStatus :=
  f ← as_object v; r ← string_field "role" f; e ← string_field "email" f; o ← string_field "orgId" f;
  b ← bool_field "ready" f; d ← string_field "detail" f; Some (mkActorStatus r e o b d).
Definition decode_buyer_balance (f : list (string * json)) : option BuyerBalanceStatus :=
  o ← string_field "buyerOrgId" f; c ← int_field "settledTopUpCents" f; n ← int_field "settledTopUpCount" f;
  p ← int_field "pendingTopUpCount" f; m ← int_field "minimumRequiredCents" f;
  b ← bool_field "meetsMinimumThreshold" f; Some (mkBuyerBalance o c n p m b).
Definition decode_provider_status (f : list (string * json)) : option ProviderSettlementStatus :=
  o ← string_field "providerOrgId" f; c ← string_field "carrierBindingStatus" f;
  s ← string_field "settlementBindingStatus" f; p ← string_field "poolStatus" f;
  n ← int_field "readyChannelCount" f; a ← int_field "availableToAllocateCents" f;
  r ← int_field "reservedOutstandingCents" f; m ← int_field "minimumRequiredCents" f;
  b ← bool_field "meetsMinimumThreshold" f; Some (mkProviderStatus o c s p n a r m b).
(** A verdict that is neither of the two is none. *)
Definition verdict_of (text : string) : option Verdict :=
  if String.eqb text "ready" then Some VerdictReady
  else if String.eqb text "blocked" then Some VerdictBlocked else None.
Definition decode_demo_status (body : option json) : option demoenv_Status :=
  f ← body_fields body; s ← object_field "status" f;
  t ← time_field "checkedAt" s; p ← string_field "resourcePrefix" s; v ← string_field "verdict" s;
  b ← strings_field "blockerReasons" s;
  services ← decode_field [] (as_list (mkServiceStatus "" "" "" false "") decode_service) "services" s;
  actors ← decode_field [] (as_list (mkActorStatus "" "" "" false "") decode_actor_status) "actors" s;
  buyer ← (o ← object_field "buyerBalance" s; decode_buyer_balance o);
  provider ← (o ← object_field "providerSettlement" s; decode_provider_status o);
  Some (mkDemoStatus (if t =? 0 then None else Some t) p (verdict_of v) b services actors buyer provider).

(** What is used of the provider's bindings; the other fields must have their types too. *)
Record carrierBindingAnswer := mkBindingAnswer {
  cba_ID : string;
  cba_CarrierBaseURL : string;
  cba_HostID : string;
  cba_AgentID : string;
  cba_Backend : string;
  cba_WorkspaceRoot : string;
  cba_Status : string;
}.
Definition carrier_binding_of (body : option json) : option carrierBindingAnswer :=
  f ← body_fields body; b ← object_field "binding" f;
  i ← string_field "id" b; _ ← string_field "providerOrgId" b; u ← string_field "carrierBaseUrl" b;
  _ ← string_field "integrationToken" b; h ← string_field "hostId" b; a ← string_field "agentId" b;
  k ← string_field "backend" b; w ← string_field "workspaceRoot" b; _ ← string_field "callbackSecret" b;
  _ ← string_field "callbackKeyId" b; s ← string_field "status" b; _ ← time_field "createdAt" b;
  _ ← time_field "verifiedAt" b; Some (mkBindingAnswer i u h a k w s).
Definition decode_settlement_status (body : option json) : option string :=
  f ← body_fields body; b ← object_field "binding" f;
  _ ← string_field "id" b; _ ← string_field "providerOrgId" b; _ ← string_field "asset" b;
  _ ← string_field "peerId" b; _ ← string_field "p2pAddress" b; _ ← string_field "nodeRpcUrl" b;
  _ ← string_field "paymentRequestBaseUrl" b;
  script ← object_field "udtTypeScript" b; _ ← string_field "codeHash" script;
  _ ← string_field "hashType" script; _ ← string_field "args" script;
  _ ← string_field "ownershipProof" b; s ← string_field "status" b; _ ← time_field "createdAt" b;
  _ ← time_field "verifiedAt" b; _ ← time_field "lastIncidentAt" b; Some s.

Definition carrierBindingMatchesConfig (b : carrierBindingAnswer) (cfg : USDIMarketplaceE2EConfig) : bool :=
  let same fallback x y := String.eqb (firstNonEmptyString [TrimSpace x; fallback])
                                      (firstNonEmptyString [TrimSpace y; fallback]) in
  String.eqb (TrimSpace (cba_CarrierBaseURL b)) (TrimSpace (uc_CarrierBaseURL cfg))
  && String.eqb (TrimSpace (cba_HostID b)) (TrimSpace (uc_CarrierHostID cfg))
  && same "main" (cba_AgentID b) (uc_CarrierAgentID cfg)
  && same "codex" (cba_Backend b) (uc_CarrierBackend cfg)
  && same "/workspace" (cba_WorkspaceRoot b) (uc_CarrierWorkspaceRoot cfg).

(** A run keeps its summary beside the history. *)
Abbreviation D := (ST (list Event * DemoRunSummary)).
Definition asks {A} (m : R A) : D A := zoom fst (λ h s, (h, s.2)) m.
Definition notes (f : DemoRunSummary → DemoRunSummary) : D () := modify (λ s, (s.1, f s.2)).

Section ready.
Context (w : World) (parse : string → option json).
Context (resolve : list Event → string → result (list (option string))).

(** A GET whose refusals are those from 400 on. *)
Definition get_below {A} (refused : Z → error) (o : Outgoing) (target : option json → option A) : R A :=
  '(status, _, body) ← Do w o;
  if StatusBadRequest <=? status then throw (refused status) else decoded target body.

(** ** Actors *)

Definition lookupIAMOrgID (baseURL token organizationKind : string) : R string :=
  memberships ← get_below (λ status, Errf ("iam me status " +:+ pretty status))
    (get baseURL "/v1/me" [] (authHeaders token)) decode_memberships;
  match List.find (λ m, EqualFold m.2 organizationKind) memberships with
  | Some (id, _) => mret id
  | None => throw (Errf ("iam me missing " +:+ organizationKind +:+ " organization"))
  end.
Definition session_token (body : option json) : option string :=
  f ← body_fields body; s ← object_field "session" f; string_field "token" s.
Definition loginIAMUser (baseURL : string) (cfg : ActorConfig) : R actorIdentity :=
  token ← or_fail (postJSON w baseURL "/v1/sessions"
    (string_json [("email", acf_Email cfg); ("password", acf_Password cfg)]) session_token) "iam login";
  orgID ← lookupIAMOrgID baseURL token (acf_OrganizationKind cfg);
  mret (mkIdentity token orgID (acf_Email cfg) (acf_Password cfg)).
Definition signupIAMUser (baseURL : string) (cfg : ActorConfig) : R actorIdentity :=
  '(orgID, token) ← or_fail (postJSON w baseURL "/v1/signup"
    (string_json [("email", acf_Email cfg); ("password", acf_Password cfg); ("name", acf_Name cfg);
                  ("organizationName", acf_OrganizationName cfg);
                  ("organizationKind", acf_OrganizationKind cfg)]) organization_session) "iam signup";
  mret (mkIdentity token orgID (acf_Email cfg) (acf_Password cfg)).
Definition validateDemoActorIdentity (cfg : ActorConfig) (actor : actorIdentity) : result () :=
  let expected := TrimSpace (acf_OrganizationID cfg) in
  if negb (String.eqb expected "") && negb (String.eqb expected (TrimSpace (ai_OrgID actor)))
  then Err (Errf ("org id mismatch: expected " +:+ expected +:+ " got " +:+ ai_OrgID actor)) else Ok tt.
(** The actor, and whether it was signed up. *)
Definition ensureDemoActor (baseURL : string) (cfg : ActorConfig) (allowSignup : bool)
    : R (actorIdentity * bool) :=
  if blank baseURL then mret (mkIdentity "" (acf_OrganizationID cfg) (acf_Email cfg) "", false)
  else
    r ← attempt (loginIAMUser baseURL cfg);
    match r with
    | Ok actor => _ ← lift (validateDemoActorIdentity cfg actor); mret (actor, false)
    | Err e =>
        if negb allowSignup then throw e
        else
          actor ← signupIAMUser baseURL cfg;
          _ ← lift (validateDemoActorIdentity cfg actor); mret (actor, true)
    end.

(** ** Bindings *)

Definition getProviderCarrierBinding (baseURL providerOrgID : string) : R carrierBindingAnswer :=
  get_below statusError (get baseURL ("/api/v1/carrier-bindings/" +:+ providerOrgID) [] []) carrier_binding_of.
Definition getProviderSettlementBinding (baseURL providerOrgID : string) : R string :=
  get_below statusError (get baseURL ("/api/v1/provider-settlement-bindings/" +:+ providerOrgID) [] [])
    decode_settlement_status.
Definition suspendProviderCarrierBinding (baseURL bindingID : string) : R () :=
  postJSON w baseURL ("/api/v1/carrier-bindings/" +:+ bindingID +:+ "/suspend") (JObj []) nothing.
Definition activeCarrierBindingAlreadyExistsMessage : string := "active binding already exists".
Definition activeSettlementBindingAlreadyExistsMessage : string := "active settlement binding already exists".
Definition register_and_verify (baseURL providerOrgID : string) (cfg : USDIMarketplaceE2EConfig) : R () :=
  r ← attempt (registerProviderCarrierBinding w baseURL providerOrgID cfg);
  bindingID ← match r with
              | Ok id => mret id
              | Err e =>
                  if negb (errorContainsFold e activeCarrierBindingAlreadyExistsMessage) then throw e
                  else binding ← getProviderCarrierBinding baseURL providerOrgID; mret (cba_ID binding)
              end;
  verifyProviderCarrierBinding w baseURL bindingID.
Definition ensureProviderCarrierBinding (baseURL providerOrgID : string) (cfg : USDIMarketplaceE2EConfig)
    : R () :=
  r ← attempt (getProviderCarrierBinding baseURL providerOrgID);
  match r with
  | Ok binding =>
      if EqualFold (cba_Status binding) "active" && carrierBindingMatchesConfig binding cfg then mret tt
      else
        _ ← (if EqualFold (cba_Status binding) "active"
             then suspendProviderCarrierBinding baseURL (cba_ID binding) else mret tt);
        register_and_verify baseURL providerOrgID cfg
  | Err e =>
      if negb (isStatusCode e StatusNotFound) then throw e else register_and_verify baseURL providerOrgID cfg
  end.
Definition ensureProviderSettlementBinding (baseURL providerOrgID : string) (cfg : USDIMarketplaceE2EConfig)
    : R () :=
  let register : R () :=
    r ← attempt (registerProviderSettlementBinding w parse resolve baseURL providerOrgID cfg);
    match r with
    | Ok _ => mret tt
    | Err e => if negb (errorContainsFold e activeSettlementBindingAlreadyExistsMessage) then throw e else mret tt
    end in
  r ← attempt (getProviderSettlementBinding baseURL providerOrgID);
  match r with
  | Ok status => if EqualFold status "active" then mret tt else register
  | Err e => if negb (isStatusCode e StatusNotFound) then throw e else register
  end.

(** ** Status and warm-up *)

Definition getDemoStatus (baseURL opsToken : string) : R demoenv_Status :=
  get_below (λ status, Errf ("demo status status " +:+ pretty status))
    (get baseURL "/api/v1/ops/demo/status" [] (authHeaders opsToken)) decode_demo_status.
Definition warmDemoProviderLiquidity (baseURL opsToken providerOrgID : string) (minimumAvailableCents : Z)
    : R poolAnswer :=
  or_fail (postJSONWithHeaders w baseURL "/api/v1/ops/demo/warmup" (authHeaders opsToken)
    (JObj [("minimumAvailableCents", JInt minimumAvailableCents); ("providerOrgId", JStr providerOrgID)])
    decode_pool) "demo warmup".

(** ** Statuses of its own *)

Definition blockedDemoStatus (cfg : DemoRunConfig) (blockers : list string) (now : Time) : demoenv_Status :=
  let d := dr_Demo cfg in
  let unready role (a : ActorConfig) := mkActorStatus role (acf_Email a) (acf_OrganizationID a) false "" in
  FinalizeStatus now (mkDemoStatus None (dc_ResourcePrefix d) None blockers []
    [unready "buyer" (dc_Buyer d); unready "provider" (dc_Provider d); unready "ops" (dc_Ops d)]
    (mkBuyerBalance (acf_OrganizationID (dc_Buyer d)) 0 0 0 (dc_MinBuyerBalanceCents d) false)
    (mkProviderStatus (acf_OrganizationID (dc_Provider d)) "" "" "" 0 0 0 (dc_MinProviderLiquidityCents d) false)).
Definition preparedDemoActorStatus (role email orgID : string) : ActorStatus :=
  mkActorStatus role email orgID (negb (blank orgID)) "resolved during demo prepare".
(** The balance after a top-up of [topUp] cents. *)
Definition prepared_balance (cfg : DemoRunConfig) (orgID : string) (topUp : Z) (b : BuyerBalanceStatus)
    : BuyerBalanceStatus :=
  let minimum := dc_MinBuyerBalanceCents (dr_Demo cfg) in
  let settled := if 0 <? topUp then bb_SettledTopUpCents b +w topUp else bb_SettledTopUpCents b in
  mkBuyerBalance orgID settled
    (if 0 <? topUp then bb_SettledTopUpCount b +w 1 else bb_SettledTopUpCount b)
    (if (0 <? topUp) && (0 <? bb_PendingTopUpCount b) then bb_PendingTopUpCount b - 1 else bb_PendingTopUpCount b)
    minimum (minimum <=? settled).
Definition prepared_provider (cfg : DemoRunConfig) (orgID : string) (warmed : option poolAnswer)
    (p : ProviderSettlementStatus) : ProviderSettlementStatus :=
  let minimum := dc_MinProviderLiquidityCents (dr_Demo cfg) in
  let carrier := firstNonEmptyString [pss_CarrierBindingStatus p; "active"] in
  let settlement := firstNonEmptyString [pss_SettlementBindingStatus p; "active"] in
  let '(pool, channels, available, reserved) :=
    match warmed with
    | Some a => (pa_Status a, pa_ReadyChannelCount a, pa_AvailableToAllocateCents a, pa_ReservedOutstandingCents a)
    | None => (pss_PoolStatus p, pss_ReadyChannelCount p, pss_AvailableToAllocateCents p,
               pss_ReservedOutstandingCents p)
    end in
  mkProviderStatus orgID carrier settlement pool channels available reserved minimum
    (EqualFold carrier "active" && EqualFold settlement "active"
     && EqualFold pool (pool_status_text PoolStatusHealthy) && (minimum <=? available)).
Definition buildPreparedDemoStatus (cfg : DemoRunConfig) (summary : DemoRunSummary) (current : demoenv_Status)
    (topUp : Z) (warmed : option poolAnswer) (now : Time) : demoenv_Status :=
  FinalizeStatus now (mkDemoStatus None
    (firstNonEmptyString [st_ResourcePrefix current; dc_ResourcePrefix (dr_Demo cfg)]) None []
    (st_Services current)
    [preparedDemoActorStatus "buyer" (ds_BuyerEmail summary) (ds_BuyerOrgID summary);
     preparedDemoActorStatus "provider" (ds_ProviderEmail summary) (ds_ProviderOrgID summary);
     preparedDemoActorStatus "ops" (ds_OpsEmail summary) (ds_OpsOrgID summary)]
    (prepared_balance cfg (ds_BuyerOrgID summary) topUp (st_BuyerBalance current))
    (prepared_provider cfg (ds_ProviderOrgID summary) warmed (st_ProviderSettlement current))).

(** ** The whole run *)

Context (bech32_Decode : string → result (Encoding * string * list Z)).
Context (sdk_ConvertBits : list Z → Z → Z → bool → result (list Z)).
Context (DeserializeHashTypeByte : Z → result string).
Context (fuel rounds : nat).

(** The wallets of the three nodes: CKB for each, and the token for what is to be paid
    and what the nodes put in of themselves. *)
Definition ensureDemoFNNBootstrapLiquidity (cfg : DemoRunConfig) : R () :=
  let d := dr_Demo cfg in
  let c := dr_USDI cfg in
  let udtRaw := firstNonEmptyString [uc_BuyerTopUpUDTTypeScriptJSON c; uc_ProviderSettlementUDTTypeScriptJSON c] in
  _ ← fail_if (blank udtRaw) (Errf "demo fnn bootstrap udt type script json is required");
  udtTypeScript ← or_fail (lift (parseProviderSettlementUDTTypeScriptJSON parse udtRaw))
    "parse demo fnn bootstrap udt type script";
  payerInfo ← or_fail (raw_NodeInfo w (firstNonEmptyString [uc_PayerRPCURL c; "http://fnn2:8227"]))
    "payer node info";
  invoiceInfo ← or_fail (raw_NodeInfo w (firstNonEmptyString [uc_BuyerTopUpInvoiceRPCURL c; "http://fnn:8227"]))
    "invoice node info";
  providerInfo ← or_fail
    (raw_NodeInfo w (firstNonEmptyString [uc_ProviderSettlementRPCURL c; "http://provider-fnn:8227"]))
    "provider node info";
  let address info := lift (deriveCKBTestnetAddressFromLockArgs (rs_Args (ri_DefaultFundingLockScript info))) in
  payerAddress ← or_fail (address payerInfo) "derive payer ckb address";
  invoiceAddress ← or_fail (address invoiceInfo) "derive invoice ckb address";
  providerAddress ← or_fail (address providerInfo) "derive provider ckb address";
  let topUp := parseDemoAmountToCents (dc_BuyerTopUpAmount d) in
  let buyerTopUpNeededCents := if dc_MinBuyerBalanceCents d <? topUp then topUp else dc_MinBuyerBalanceCents d in
  let units cents := demoNeededReserveToFundingUnits cents demoCentsPerFNNUnit demoMinFNNFundingUnits in
  let payerRequiredUSDI :=
    if 0 <? dc_MinProviderLiquidityCents d
    then units buyerTopUpNeededCents +w units (dc_MinProviderLiquidityCents d)
    else units buyerTopUpNeededCents in
  let accepted info := demoMaxInt64 (parseHexQuantityToInt64 (ri_AutoAcceptChannelCKBFundingAmount info)) 1 in
  let endpoint := firstNonEmptyString [uc_CKBRPCURL c; "https://testnet.ckbapp.dev/"] in
  let ckb info address required label :=
    ensureCKBBalanceOrRequestFaucet w (uc_Faucets c) fuel endpoint address (ri_DefaultFundingLockScript info)
      required label in
  let usdi info address required label :=
    ensureUSDIBalanceOrRequestFaucet w (uc_Faucets c) fuel endpoint address (ri_DefaultFundingLockScript info)
      udtTypeScript required label in
  _ ← or_fail (ckb payerInfo payerAddress demoTopUpPayerMinimumCKBShannons "payer-bootstrap") "ensure payer ckb";
  _ ← or_fail (ckb invoiceInfo invoiceAddress (accepted invoiceInfo) "invoice-bootstrap") "ensure invoice ckb";
  _ ← or_fail (ckb providerInfo providerAddress (accepted providerInfo) "provider-bootstrap") "ensure provider ckb";
  _ ← or_fail (usdi payerInfo payerAddress payerRequiredUSDI "payer-bootstrap") "ensure payer usdi";
  let node info address what :=
    let required := rawNodeUDTAutoAcceptAmount info udtTypeScript in
    if 0 <? required
    then or_fail (usdi info address required (what +:+ "-bootstrap")) ("ensure " +:+ what +:+ " usdi")
    else mret tt in
  _ ← node invoiceInfo invoiceAddress "invoice";
  node providerInfo providerAddress "provider".

Definition ErrDemoNotReady : error := Errf "demo environment is not ready".

Definition demo_actor (cfg : DemoRunConfig) (role : string) (actor : ActorConfig) (mutate : bool)
    : D actorIdentity :=
  r ← attempt (asks (ensureDemoActor (dc_IAMBaseURL (dr_Demo cfg)) actor mutate));
  match r with
  | Ok (identity, changed) =>
      _ ← (if (changed : bool) then notes (acted (role +:+ " account created")) else mret tt);
      mret identity
  | Err e =>
      now ← asks (time_now w);
      _ ← notes (λ s, s <| ds_Status :=
            blockedDemoStatus cfg [role +:+ " actor setup failed: " +:+ error_text e] now |>);
      throw ErrDemoNotReady
  end.
(** The buyer's top-up, when its balance was found below the threshold; its cents. *)
Definition demo_topup (cfg : DemoRunConfig) (buyer : actorIdentity) (buyerOrgID : string) : D Z :=
  let d := dr_Demo cfg in
  let filters := [("buyerOrgId", buyerOrgID); ("kind", "buyer_topup")] in
  topUpSummary ← asks (createBuyerTopUp w (dc_SettlementBaseURL d) buyer (dc_SettlementServiceToken d));
  _ ← notes (λ s, s <| ds_DepositAddress := bd_Address topUpSummary |>);
  _ ← asks (waitBuyerDepositCredit w bech32_Decode sdk_ConvertBits DeserializeHashTypeByte fuel (dr_USDI cfg)
        rounds buyer (dc_BuyerTopUpAmount d));
  _ ← asks (waitFundingRecordState w fuel (dc_SettlementBaseURL d) (ai_Token buyer) filters (90 * second)
        ["SETTLED"]);
  records ← attempt (asks (listFundingRecords w (dc_SettlementBaseURL d) (ai_Token buyer) filters));
  _ ← notes (λ s, match records with
                  | Ok records => match last records with
                                  | Some record => s <| ds_TopUpRecordID := fr_ID record |>
                                  | None => s
                                  end
                  | Err _ => s
                  end);
  _ ← notes (acted "buyer top-up settled");
  mret (parseDemoAmountToCents (dc_BuyerTopUpAmount d)).
Definition demo_warmup (cfg : DemoRunConfig) (ops : actorIdentity) (providerOrgID : string) : D poolAnswer :=
  let d := dr_Demo cfg in
  pool ← asks (warmDemoProviderLiquidity (dc_APIBaseURL d) (ai_Token ops) providerOrgID
                 (dc_MinProviderLiquidityCents d));
  _ ← notes (acted "provider liquidity warmed"); mret pool.

(** What a preparation does about the status it found. *)
Definition demo_prepare (cfg : DemoRunConfig) (buyer ops : actorIdentity) (status : demoenv_Status) : D () :=
  let poor := negb (bb_MeetsMinimumThreshold (st_BuyerBalance status)) in
  let dry := negb (pss_MeetsMinimumThreshold (st_ProviderSettlement status)) in
  summary ← query snd Ok;
  _ ← (if poor || dry
       then or_fail (asks (ensureDemoFNNBootstrapLiquidity cfg)) "ensure demo fnn funding" else mret tt);
  topUp ← (if poor then demo_topup cfg buyer (ds_BuyerOrgID summary) else mret 0);
  warmed ← (if dry then pool ← demo_warmup cfg ops (ds_ProviderOrgID summary); mret (Some pool) else mret None);
  now ← asks (time_now w);
  notes (λ s, s <| ds_Status := buildPreparedDemoStatus cfg s status topUp warmed now |>).
Definition demo_bindings (cfg : DemoRunConfig) (providerOrgID : string) : R () :=
  let api := dc_APIBaseURL (dr_Demo cfg) in
  _ ← ensureProviderCarrierBinding api providerOrgID (dr_USDI cfg);
  ensureProviderSettlementBinding api providerOrgID (dr_USDI cfg).
Definition demo_checked : D () :=
  summary ← query snd Ok;
  fail_if (bool_decide (st_Verdict (ds_Status summary) ≠ Some VerdictReady)) ErrDemoNotReady.

Definition demo_steps (cfg : DemoRunConfig) (mutate : bool) : D () :=
  cfg ← (if mutate then c ← asks (bootstrapCarrierTarget w (dr_USDI cfg)); mret (mkDemoRun (dr_Demo cfg) c)
         else mret cfg);
  let d := dr_Demo cfg in
  buyer ← demo_actor cfg "buyer" (dc_Buyer d) mutate;
  provider ← demo_actor cfg "provider" (dc_Provider d) mutate;
  ops ← demo_actor cfg "ops" (dc_Ops d) mutate;
  let providerOrgID := firstNonEmptyString [acf_OrganizationID (dc_Provider d); ai_OrgID provider] in
  _ ← notes (λ s, s <| ds_BuyerOrgID := firstNonEmptyString [acf_OrganizationID (dc_Buyer d); ai_OrgID buyer] |>
                    <| ds_ProviderOrgID := providerOrgID |>
                    <| ds_OpsOrgID := firstNonEmptyString [acf_OrganizationID (dc_Ops d); ai_OrgID ops] |>);
  _ ← (if mutate then asks (demo_bindings cfg providerOrgID) else mret tt);
  status ← asks (getDemoStatus (dc_APIBaseURL d) (ai_Token ops));
  _ ← notes (λ s, s <| ds_Status := status |>);
  _ ← (if mutate then demo_prepare cfg buyer ops status else mret tt);
  demo_checked.
Definition demo_start (cfg : DemoRunConfig) : DemoRunSummary :=
  let d := dr_Demo cfg in
  mkDemoSummary no_status [] (acf_OrganizationID (dc_Buyer d)) (acf_OrganizationID (dc_Provider d))
    (acf_OrganizationID (dc_Ops d)) (acf_Email (dc_Buyer d)) (acf_Email (dc_Provider d)) (acf_Email (dc_Ops d))
    "" "".
Definition runDemoReady (cfg : DemoRunConfig) (mutate : bool) : R (DemoRunSummary * result ()) :=
  λ h, let '((h', summary), r) := demo_steps cfg mutate (h, demo_start cfg) in (h', Ok (summary, r)).
Definition RunDemoPrepare (cfg : DemoRunConfig) : R (DemoRunSummary * result ()) := runDemoReady cfg true.
Definition RunDemoVerify (cfg : DemoRunConfig) : R (DemoRunSummary * result ()) := runDemoReady cfg false.
End ready.

(** ** What runs send *)

Lemma asks_Ok {A} (m : R A) x x' v : asks m x = (x', Ok v) → m x.1 = (x'.1, Ok v) ∧ x'.2 = x.2.
Proof. unfold asks, zoom. destruct (m x.1) as [h r] eqn:Hm. by intros [= <- ->]. Qed.
Lemma notes_Ok f x x' v : notes f x = (x', Ok v) → x' = (x.1, f x.2).
Proof. by intros [= <- _]. Qed.

Section runs.
Context (Q : Outgoing → Prop).
Definition runs {A} (m : D A) : Prop := ∀ x, ∃ t, (m x).1.1 = x.1 ++ t ∧ ∀ o, Sent o ∈ t → Q o.
Lemma runs_idle {A} (m : D A) : (∀ x, (m x).1.1 = x.1) → runs m.
Proof. intros Hm x. exists []. rewrite app_nil_r, Hm. split; [done|]. by intros o ?%elem_of_nil. Qed.
Lemma runs_asks {A} (m : R A) : sends Q m → runs (asks m).
Proof.
  intros Hm x. destruct (m x.1) as [h r] eqn:Hr. destruct (sends_run _ _ _ _ _ Hm Hr) as (t & -> & Ht).
  exists t. unfold asks, zoom. by rewrite Hr.
Qed.
Lemma runs_bind {A B} (m : D A) (f : A → D B) : runs m → (∀ v, runs (f v)) → runs (m ≫= f).
Proof.
  intros Hm Hf x. unfold mbind, st_bind. destruct (Hm x) as (t & Ht & Ho).
  destruct (m x) as [x1 [v|e]]; cbn in Ht; [|by exists t].
  destruct (Hf v x1) as (t' & -> & Ho'). exists (t ++ t'). rewrite Ht, app_assoc. split; [done|].
  intros o [Hi|Hi]%elem_of_app; eauto.
Qed.
Lemma runs_attempt {A} (m : D A) : runs m → runs (attempt m).
Proof. intros Hm x. destruct (Hm x) as (t & Ht). exists t. unfold attempt. by destruct (m x). Qed.
Lemma runs_prefix {A} (m : D A) x x' r : runs m → m x = (x', r) → x.1 `prefix_of` x'.1.
Proof. intros Hm Hr. destruct (Hm x) as (t & Ht & _). rewrite Hr in Ht. by exists t. Qed.
End runs.
Ltac solve_runs :=
  repeat match goal with
  | |- ∀ _, _ => intro
  | |- runs _ (_ ≫= _) => apply runs_bind
  | |- runs _ (attempt _) => apply runs_attempt
  | |- runs _ (or_fail _ _) => apply runs_bind
  | |- runs _ (asks _) => apply runs_asks; auto with sends nocore
  | |- runs _ (match ?x with _ => _ end) => destruct x
  | |- runs _ _ => apply runs_idle; reflexivity
  end.

(** A verification logs its actors in, asks who they are, and asks how things stand. *)
Definition looks_only (cfg : DemoRunConfig) (o : Outgoing) : Prop :=
  let d := dr_Demo cfg in
  (∃ a, a ∈ [dc_Buyer d; dc_Provider d; dc_Ops d] ∧ o = post_request (dc_IAMBaseURL d) "/v1/sessions" []
     (string_json [("email", acf_Email a); ("password", acf_Password a)]))
  ∨ (∃ token, o = get (dc_IAMBaseURL d) "/v1/me" [] (authHeaders token))
  ∨ (∃ token, o = get (dc_APIBaseURL d) "/api/v1/ops/demo/status" [] (authHeaders token)).

Section verifies.
Context (w : World) (parse : string → option json).
Context (resolve : list Event → string → result (list (option string))).
Context (bech32_Decode : string → result (Encoding * string * list Z)).
Context (sdk_ConvertBits : list Z → Z → Z → bool → result (list Z)).
Context (DeserializeHashTypeByte : Z → result string) (fuel rounds : nat).

Lemma sends_get_below {A} (Q : Outgoing → Prop) refused o (target : option json → option A) :
  Q o → sends Q (get_below w refused o target).
Proof. intros Ho. unfold get_below. solve_sends. done. Qed.
Lemma looks_login cfg a : a ∈ [dc_Buyer (dr_Demo cfg); dc_Provider (dr_Demo cfg); dc_Ops (dr_Demo cfg)] →
  sends (looks_only cfg) (ensureDemoActor w (dc_IAMBaseURL (dr_Demo cfg)) a false).
Proof.
  intros Ha. unfold ensureDemoActor, loginIAMUser, lookupIAMOrgID. cbn [negb]. solve_sends.
  - left. by exists a.
  - apply sends_get_below. right. left. by eexists.
Qed.
Lemma looks_actor cfg role a : a ∈ [dc_Buyer (dr_Demo cfg); dc_Provider (dr_Demo cfg); dc_Ops (dr_Demo cfg)] →
  runs (looks_only cfg) (demo_actor w cfg role a false).
Proof. intros Ha. pose proof (looks_login cfg a Ha). unfold demo_actor. solve_runs. Qed.

Lemma blocked_verdict cfg reason now : reason ≠ "" →
  st_Verdict (blockedDemoStatus cfg [reason] now) = Some VerdictBlocked.
Proof.
  intros Hr. unfold blockedDemoStatus. set (status := mkDemoStatus _ _ _ _ _ _ _ _).
  destruct (demo_verdict now status) as (_ & _ & Hin & Hb). apply Hb. intros Hn.
  specialize (Hin reason Hr). rewrite Hn in Hin. apply (not_elem_of_nil reason), Hin, list_elem_of_here.
Qed.
(** Until the status is there, a verification has nothing to report. *)
Definition calm (x : list Event * DemoRunSummary) : Prop :=
  ds_Actions x.2 = [] ∧ st_Verdict (ds_Status x.2) ≠ Some VerdictReady.
Definition told_verdict (y : (list Event * DemoRunSummary) * result ()) : Prop :=
  ds_Actions y.1.2 = [] ∧ (y.2 = Ok tt ↔ st_Verdict (ds_Status y.1.2) = Some VerdictReady).
Lemma calm_bind {A} (m : D A) (f : A → D ()) x : (calm x → calm (m x).1) →
  (∀ v x, calm x → told_verdict (f v x)) → calm x → told_verdict ((m ≫= f) x).
Proof.
  intros Hm Hf Hx. specialize (Hm Hx). unfold mbind, st_bind. destruct (m x) as [x1 [v|e]]; [by apply Hf|].
  destruct Hm as [Ha Hv]. split; [done|]. by split.
Qed.
Lemma calm_asks {A} (m : R A) x : calm x → calm (asks m x).1.
Proof. intros Hx. unfold asks, zoom. by destruct (m x.1). Qed.
Lemma calm_actor cfg role a x : calm x → calm (demo_actor w cfg role a false x).1.
Proof.
  intros [Ha Hv]. unfold demo_actor, mbind, st_bind, attempt, asks, zoom, notes, modify. cbn -[ensureDemoActor].
  assert (Hc : ∀ h h' i b, ensureDemoActor w (dc_IAMBaseURL (dr_Demo cfg)) a false h = (h', Ok (i, b)) → b = false).
  { intros h0 h1 i b. unfold ensureDemoActor. destruct (blank _); [by intros [= _ _ <-]|].
    intros (h2 & [i'|e] & _ & Hk)%bind_Ok; cbn [negb] in Hk; [|done].
    apply bind_Ok in Hk as (h3 & [] & _ & Hk). by injection Hk. }
  destruct (ensureDemoActor _ _ _ _ x.1) as [h1 [[i b]|e]] eqn:Hd; cbn; [by rewrite (Hc _ _ _ _ Hd)|].
  split; [done|]. intros Hr. pose proof (blocked_verdict cfg (role +:+ (" actor setup failed: " +:+ error_text e))
    (wd_now w h1)) as Hb. cbn in Hr, Hb. rewrite Hb in Hr; [done|]. by apply append_nonempty.
Qed.

(** A verification changes nothing: whatever the services answer, all it sends is each
    actor's login, to the identity service alone, the question who the session is, and
    the question how the demonstration stands; no action is reported.  It passes exactly
    when the verdict it returns is that the demonstration is ready. *)
Theorem verifications_only_look cfg h h' r :
  RunDemoVerify w parse resolve bech32_Decode sdk_ConvertBits DeserializeHashTypeByte fuel rounds cfg h = (h', r) →
  (∃ t, h' = h ++ t ∧ ∀ o, Sent o ∈ t → looks_only cfg o) ∧
  ∃ s outcome, r = Ok (s, outcome) ∧ ds_Actions s = [] ∧
    (outcome = Ok tt ↔ st_Verdict (ds_Status s) = Some VerdictReady).
Proof.
  unfold RunDemoVerify, runDemoReady.
  assert (Hs : runs (looks_only cfg) (demo_steps w parse resolve bech32_Decode sdk_ConvertBits
    DeserializeHashTypeByte fuel rounds cfg false)).
  { pose proof looks_actor as Hactor. unfold demo_steps. cbn iota. change (mret cfg ≫= ?f) with (f cfg).
    apply runs_bind; [apply Hactor; set_solver|intros buyer].
    apply runs_bind; [apply Hactor; set_solver|intros provider].
    apply runs_bind; [apply Hactor; set_solver|intros ops].
    assert (sends (looks_only cfg) (getDemoStatus w (dc_APIBaseURL (dr_Demo cfg)) (ai_Token ops))).
    { apply sends_get_below. do 2 right. by eexists. }
    unfold demo_checked, fail_if. solve_runs. }
  destruct (Hs (h, demo_start cfg)) as (t & Ht & Ho).
  assert (Hj : told_verdict (demo_steps w parse resolve bech32_Decode sdk_ConvertBits
    DeserializeHashTypeByte fuel rounds cfg false (h, demo_start cfg))).
  { unfold demo_steps. cbn iota. change (mret cfg ≫= ?f) with (f cfg).
    apply calm_bind; [apply calm_actor|intros buyer x1 H1|done].
    apply calm_bind; [apply calm_actor|intros provider x2 H2|done].
    apply calm_bind; [apply calm_actor|intros ops x3 H3|done].
    apply calm_bind; [done|intros _ x4 H4|done]. apply calm_bind; [done|intros _ x5 H5|done].
    apply calm_bind; [apply calm_asks|intros status x6 [Ha _]|done].
    change (told_verdict (fail_if (bool_decide (st_Verdict status ≠ Some VerdictReady)) ErrDemoNotReady
      (x6.1, x6.2 <| ds_Status := status |>))).
    case_bool_decide as Hv; by split. }
  destruct (demo_steps _ _ _ _ _ _ _ _ _ _ _) as [[h1 s] outcome] eqn:Hr. cbn in Ht.
  intros [= <- <-]. split; [by exists t|]. exists s, outcome. split; [done|exact Hj].
Qed.
End verifies.

(** * What a preparation of the demonstration rests on

    A preparation that reports the demonstration ready (internal/release/demo_ready.go)
    has seen the services well, the credit of the top-up and the pool it warmed; the
    top-up it adds to the buyer's balance need not have been made.  A binding refused as
    already there ends it. *)

(** ** Runs only add to the history *)

Section grow.
Context (w : World).
Lemma grows_do {B} o (f : Z * string * option json → R B) : (∀ x, grows (f x)) → grows (Do w o ≫= f).
Proof. intros Hf. apply sends_bind; [by apply sends_Do|done]. Qed.
Lemma grows_rpc {T} endpoint method params (target : json → option T) :
  grows (ckb_rpc w endpoint method params target).
Proof. unfold ckb_rpc, nanoSuffix. solve_sends. done. Qed.
Lemma grows_pages pages endpoint search worth cursor total :
  grows (query_pages w pages endpoint search worth cursor total).
Proof.
  revert cursor total. induction pages as [|pages IH]; intros cursor total; [apply sends_ret|].
  cbn [query_pages]. pose proof (@grows_rpc). solve_sends.
Qed.
#[local] Hint Resolve grows_pages : sends.
Lemma grows_balance fuel what query required : grows query → grows (wait_for_balance w fuel what query required).
Proof.
  intros Hq. unfold wait_for_balance. apply sends_bind; [apply sends_now|]. intros now. apply sends_poll.
  unfold balance_look. solve_sends.
Qed.
#[local] Hint Resolve grows_balance : sends.
Lemma grows_demo_post endpoint path payload : grows (postDemoJSON w endpoint path payload).
Proof. unfold postDemoJSON. solve_sends. done. Qed.
#[local] Hint Resolve grows_demo_post : sends.
Lemma grows_ensure_ckb f fuel endpoint address lock required label :
  grows (ensureCKBBalanceOrRequestFaucet w f fuel endpoint address lock required label).
Proof.
  unfold ensureCKBBalanceOrRequestFaucet, requestCKBFaucet, waitForCKBBalanceThreshold,
    queryCKBBalanceForLockScript. solve_sends.
Qed.
Lemma grows_usdi_faucet f address label : grows (requestUSDIFaucet w f address label).
Proof.
  unfold requestUSDIFaucet, requestUSDIFaucetWithRetry. induction (Nat.max 1 _) as [|tries IH]; [apply sends_ret|].
  cbn [usdi_faucet_attempts]. solve_sends.
Qed.
#[local] Hint Resolve grows_ensure_ckb grows_usdi_faucet : sends.
Lemma grows_ensure_usdi f fuel endpoint address lock script required label :
  grows (ensureUSDIBalanceOrRequestFaucet w f fuel endpoint address lock script required label).
Proof.
  assert (Hr : ∀ rounds late, grows (usdi_rounds w f rounds fuel endpoint address lock script required label late)).
  { induction rounds as [|rounds IH]; intros late; [apply sends_throw|]. cbn [usdi_rounds].
    unfold waitForUSDIBalanceThreshold, queryUSDIBalanceForLockScript. solve_sends. }
  unfold ensureUSDIBalanceOrRequestFaucet, queryUSDIBalanceForLockScript. solve_sends.
Qed.
#[local] Hint Resolve grows_ensure_usdi : sends.
Lemma grows_node_info node : grows (raw_NodeInfo w node).
Proof. unfold raw_NodeInfo, raw_Call, requestID, nanoSuffix. solve_sends. done. Qed.
#[local] Hint Resolve grows_node_info : sends.
Lemma grows_bootstrap parse fuel cfg : grows (ensureDemoFNNBootstrapLiquidity w parse fuel cfg).
Proof. unfold ensureDemoFNNBootstrapLiquidity. solve_sends. Qed.

Section credit.
Context (bech32_Decode : string → result (Encoding * string * list Z)).
Context (sdk_ConvertBits : list Z → Z → Z → bool → result (list Z)).
Context (DeserializeHashTypeByte : Z → result string).
Lemma grows_list base token filters : grows (listFundingRecords w base token filters).
Proof. unfold listFundingRecords. solve_sends. done. Qed.
Lemma grows_credit fuel cfg rounds buyer amount : grows (waitBuyerDepositCredit w bech32_Decode sdk_ConvertBits
  DeserializeHashTypeByte fuel cfg rounds buyer amount).
Proof.
  unfold waitBuyerDepositCredit. generalize fresh_wait. induction rounds as [|rounds IH]; intros s; [apply sends_throw|].
  cbn [credit_rounds]. unfold getBuyerDepositSummary, credit_faucet, credit_sync, syncBuyerDeposits,
    ensureBuyerDepositSweepCKBFeeBalance. solve_sends; done.
Qed.
Lemma credit_Ok fuel cfg rounds buyer amount h h' deposit : waitBuyerDepositCredit w bech32_Decode sdk_ConvertBits
    DeserializeHashTypeByte fuel cfg rounds buyer amount h = (h', Ok deposit) →
  parseDemoAmountToCents amount ≤ bd_CreditedBalanceCents deposit ∧
  answered w h' (get (uc_SettlementBaseURL cfg) "/v1/buyer/deposit-address"
      (if blank (ai_Token buyer) then [("buyerOrgId", ai_OrgID buyer)] else [])
      (buyer_headers buyer (uc_SettlementServiceToken cfg)))
    (λ status body, status < StatusBadRequest ∧ decode_deposit_summary body = Some deposit).
Proof.
  unfold waitBuyerDepositCredit. revert h. generalize fresh_wait.
  induction rounds as [|rounds IH]; intros s h; [done|]. cbn [credit_rounds].
  intros (h1 & summary & Hs & (h2 & deadline & Hd & Hk)%bind_Ok)%bind_Ok.
  assert (P12 : h1 `prefix_of` h2).
  { destruct (wc_deadline s); [by injection Hd as -> _|]. injection Hd as <- _. by apply prefix_app_r. }
  destruct (Z.leb_spec (parseDemoAmountToCents amount) (bd_CreditedBalanceCents summary)) as [Hle|_].
  - injection Hk as <- <-. split; [done|]. eapply answered_later; [|exact P12].
    apply bind_Ok in Hs as (h3 & [[status text] body] & [= <- Ha] & Hs).
    destruct (Z.leb_spec StatusBadRequest status) as [|Hlt]; [done|].
    apply decoded_Ok in Hs as [-> Hs]. by exists h, status, text, body.
  - apply bind_Ok in Hk as (h3 & now & _ & (h4 & s4 & _ & (h5 & [again s5] & _ & Hk)%bind_Ok)%bind_Ok).
    destruct again; [by eapply IH|]. apply bind_Ok in Hk as (h6 & now' & _ & Hk).
    destruct (_ <? _); [done|]. apply bind_Ok in Hk as (h7 & [] & _ & Hk). by eapply IH.
Qed.
End credit.
End grow.

Lemma attempt_asks {A} (m : R A) x : attempt (asks m) x = asks (attempt m) x.
Proof. unfold attempt, asks, zoom. by destruct (m x.1). Qed.

(** ** What is seen before a demonstration is ready *)

Section prepared.
Context (w : World) (parse : string → option json).
Context (resolve : list Event → string → result (list (option string))).
Context (bech32_Decode : string → result (Encoding * string * list Z)).
Context (sdk_ConvertBits : list Z → Z → Z → bool → result (list Z)).
Context (DeserializeHashTypeByte : Z → result string) (fuel rounds : nat).
Context (cfg : DemoRunConfig).
Abbreviation demo := (dr_Demo cfg).

Definition found_status (h : list Event) (token : string) (found : demoenv_Status) : Prop :=
  answered w h (get (dc_APIBaseURL demo) "/api/v1/ops/demo/status" [] (authHeaders token))
    (λ status body, status < StatusBadRequest ∧ decode_demo_status body = Some found).
(** A credit of at least the top-up was told, by the settlement service the run is set to. *)
Definition credit_seen (h : list Event) : Prop := ∃ base query headers deposit,
  answered w h (get base "/v1/buyer/deposit-address" query headers)
    (λ status body, status < StatusBadRequest ∧ decode_deposit_summary body = Some deposit) ∧
  parseDemoAmountToCents (dc_BuyerTopUpAmount demo) ≤ bd_CreditedBalanceCents deposit.
Definition warmed_pool (h : list Event) (token providerOrgID : string) (pool : poolAnswer) : Prop :=
  answered w h (post_request (dc_APIBaseURL demo) "/api/v1/ops/demo/warmup" (authHeaders token)
      (JObj [("minimumAvailableCents", JInt (dc_MinProviderLiquidityCents demo));
             ("providerOrgId", JStr providerOrgID)]))
    (λ status body, status < StatusBadRequest ∧ decode_pool body = Some pool).
(** Balance and pool, as found or as made. *)
Definition buyer_funded (h : list Event) (found : BuyerBalanceStatus) : Prop :=
  let topUp := parseDemoAmountToCents (dc_BuyerTopUpAmount demo) in
  let settled := bb_SettledTopUpCents found in
  if bb_MeetsMinimumThreshold found then dc_MinBuyerBalanceCents demo ≤ settled
  else credit_seen h ∧ dc_MinBuyerBalanceCents demo ≤ (if 0 <? topUp then settled +w topUp else settled).
Definition provider_funded (h : list Event) (token providerOrgID : string) (found : ProviderSettlementStatus)
    : Prop :=
  if pss_MeetsMinimumThreshold found
  then EqualFold (pss_PoolStatus found) "healthy" = true
       ∧ dc_MinProviderLiquidityCents demo ≤ pss_AvailableToAllocateCents found
  else ∃ pool, warmed_pool h token providerOrgID pool ∧ EqualFold (pa_Status pool) "healthy" = true
       ∧ dc_MinProviderLiquidityCents demo ≤ pa_AvailableToAllocateCents pool.

Lemma getDemoStatus_Ok token h h' found : getDemoStatus w (dc_APIBaseURL demo) token h = (h', Ok found) →
  found_status h' token found.
Proof.
  intros (h1 & [[status text] body] & [= <- Ha] & Hk)%bind_Ok.
  destruct (Z.leb_spec StatusBadRequest status) as [|Hlt]; [done|].
  apply decoded_Ok in Hk as [-> Hd]. by exists h, status, text, body.
Qed.

Definition orgs (s : DemoRunSummary) : string * string * string :=
  (ds_BuyerOrgID s, ds_ProviderOrgID s, ds_OpsOrgID s).
Abbreviation topup := (demo_topup w bech32_Decode sdk_ConvertBits DeserializeHashTypeByte fuel rounds).
Lemma runs_topup buyer orgID : runs (λ _, True) (topup cfg buyer orgID).
Proof.
  pose proof grows_credit. pose proof grows_records.
  pose proof grows_list.
  assert (grows (createBuyerTopUp w (dc_SettlementBaseURL demo) buyer (dc_SettlementServiceToken demo))).
  { unfold createBuyerTopUp. solve_sends. done. }
  unfold demo_topup. solve_runs.
Qed.
Lemma topup_Ok buyer orgID x x' cents : topup cfg buyer orgID x = (x', Ok cents) →
  cents = parseDemoAmountToCents (dc_BuyerTopUpAmount demo) ∧ orgs x'.2 = orgs x.2 ∧ credit_seen x'.1.
Proof.
  unfold demo_topup. intros (x1 & deposit & H1 & (x2 & [] & H2 & (x3 & summary & H3 & (x4 & state & H4 &
    (x5 & records & H5 & (x6 & [] & H6 & (x7 & [] & H7 & Hk)%bind_Ok)%bind_Ok)%bind_Ok)%bind_Ok)%bind_Ok)%bind_Ok)%bind_Ok.
  injection Hk as <- <-. split; [done|].
  apply asks_Ok in H1 as [_ E1]. apply notes_Ok in H2 as ->. apply asks_Ok in H3 as [Hc E3].
  apply asks_Ok in H4 as [Hs E4]. apply notes_Ok in H6 as ->. apply notes_Ok in H7 as ->.
  rewrite attempt_asks in H5. apply asks_Ok in H5 as [Hl E5]. cbn [fst snd] in *.
  split.
  { rewrite E5, E4, E3, E1. destruct records as [records|]; [|done]. by destruct (last records). }
  apply credit_Ok in Hc as [Hle Ha]. do 3 eexists. exists summary. split; [|exact Hle].
  eapply answered_later; [exact Ha|].
  pose proof (sends_prefix _ _ _ _ _ (grows_records w _ _ _ _ _ _) Hs) as P4.
  etransitivity; [exact P4|]. refine (sends_prefix (λ _, True) _ _ _ _ _ Hl). apply sends_attempt, grows_list.
Qed.
Lemma runs_warmup ops orgID : runs (λ _, True) (demo_warmup w cfg ops orgID).
Proof.
  assert (grows (warmDemoProviderLiquidity w (dc_APIBaseURL demo) (ai_Token ops) orgID
    (dc_MinProviderLiquidityCents demo))) by (unfold warmDemoProviderLiquidity; solve_sends; done).
  unfold demo_warmup. solve_runs.
Qed.
Lemma warmup_Ok ops orgID x x' pool : demo_warmup w cfg ops orgID x = (x', Ok pool) →
  orgs x'.2 = orgs x.2 ∧ warmed_pool x'.1 (ai_Token ops) orgID pool.
Proof.
  unfold demo_warmup. intros (x1 & pool' & [H1 E1]%asks_Ok & (x2 & [] & ->%notes_Ok & Hk)%bind_Ok)%bind_Ok.
  injection Hk as <- <-. cbn [fst snd]. rewrite E1. split; [done|].
  apply or_fail_Ok in H1. by apply post_Ok in H1 as [_ Ha].
Qed.

Abbreviation prepare := (demo_prepare w parse bech32_Decode sdk_ConvertBits DeserializeHashTypeByte fuel rounds).
(** The status a preparation ends with is its own, of what it found and of what it made. *)
Lemma prepare_Ok buyer ops found x x' : prepare cfg buyer ops found x = (x', Ok tt) →
  x.1 `prefix_of` x'.1 ∧ orgs x'.2 = orgs x.2 ∧ ∃ topUp warmed now,
    ds_Status x'.2 = buildPreparedDemoStatus cfg x'.2 found topUp warmed now ∧
    (if bb_MeetsMinimumThreshold (st_BuyerBalance found) then topUp = 0
     else topUp = parseDemoAmountToCents (dc_BuyerTopUpAmount demo) ∧ credit_seen x'.1) ∧
    (if pss_MeetsMinimumThreshold (st_ProviderSettlement found) then warmed = None
     else ∃ pool, warmed = Some pool ∧ warmed_pool x'.1 (ai_Token ops) (ds_ProviderOrgID x'.2) pool).
Proof.
  unfold demo_prepare. change (query snd Ok ≫= ?f) with (λ y : list Event * DemoRunSummary, f y.2 y). cbn beta.
  intros (x1 & [] & H1 & (x2 & topUp & H2 & (x3 & warmed & H3 & (x4 & now & [H4 E4]%asks_Ok & ->%notes_Ok)%bind_Ok)%bind_Ok)%bind_Ok)%bind_Ok.
  cbn [fst snd]. assert (P4 : x3.1 `prefix_of` x4.1) by (injection H4 as <- _; by apply prefix_app_r).
  assert (H1' : x.1 `prefix_of` x1.1 ∧ x1.2 = x.2).
  { destruct (_ || _); [|by injection H1 as <-]. apply or_fail_Ok, asks_Ok in H1 as [H1 E1]. split; [|done].
    exact (sends_prefix _ _ _ _ _ (grows_bootstrap w parse fuel cfg) H1). }
  destruct H1' as [P1 E1].
  assert (H2' : x1.1 `prefix_of` x2.1 ∧ orgs x2.2 = orgs x1.2 ∧
    if bb_MeetsMinimumThreshold (st_BuyerBalance found) then topUp = 0
    else topUp = parseDemoAmountToCents (dc_BuyerTopUpAmount demo) ∧ credit_seen x2.1).
  { destruct (bb_MeetsMinimumThreshold _); cbn [negb] in H2; [by injection H2 as <- <-|].
    split; [exact (runs_prefix _ _ _ _ _ (runs_topup _ _) H2)|]. apply topup_Ok in H2 as (-> & E2 & Hc). done. }
  destruct H2' as (P2 & E2 & Hb).
  assert (H3' : x2.1 `prefix_of` x3.1 ∧ orgs x3.2 = orgs x2.2 ∧
    if pss_MeetsMinimumThreshold (st_ProviderSettlement found) then warmed = None
    else ∃ pool, warmed = Some pool ∧ warmed_pool x3.1 (ai_Token ops) (ds_ProviderOrgID x.2) pool).
  { destruct (pss_MeetsMinimumThreshold _); cbn [negb] in H3; [by injection H3 as <- <-|].
    apply bind_Ok in H3 as (x5 & pool & H3 & [= <- <-]).
    split; [exact (runs_prefix _ _ _ _ _ (runs_warmup _ _) H3)|]. apply warmup_Ok in H3 as [E3 Hw]. by eauto. }
  destruct H3' as (P3 & E3 & Hp).
  assert (Eo : orgs x4.2 = orgs x.2) by congruence.
  split; [by do 3 (etransitivity; [eassumption|])|]. split; [done|]. exists topUp, warmed, now.
  split; [done|]. split.
  - destruct (bb_MeetsMinimumThreshold _); [done|]. destruct Hb as [-> (base & query & headers & deposit & Ha & Hle)].
    split; [done|]. exists base, query, headers, deposit. split; [|done]. eapply answered_later; [exact Ha|].
    by etransitivity.
  - destruct (pss_MeetsMinimumThreshold _); [done|]. destruct Hp as (pool & -> & Ha). exists pool. split; [done|].
    change (warmed_pool x4.1 (ai_Token ops) (ds_ProviderOrgID x4.2) pool).
    injection Eo as _ -> _. eapply answered_later; [exact Ha|]. by etransitivity.
Qed.
End prepared.

Section ready.
Context (w : World) (parse : string → option json).
Context (resolve : list Event → string → result (list (option string))).
Context (bech32_Decode : string → result (Encoding * string * list Z)).
Context (sdk_ConvertBits : list Z → Z → Z → bool → result (list Z)).
Context (DeserializeHashTypeByte : Z → result string) (fuel rounds : nat).

(** A status that was built and is ready has all it takes. *)
Lemma built_ready cfg s found topUp warmed now :
  st_Verdict (buildPreparedDemoStatus cfg s found topUp warmed now) = Some VerdictReady →
  (∀ service, service ∈ st_Services found → ss_Healthy service = true) ∧
  blank (ds_BuyerOrgID s) = false ∧ blank (ds_ProviderOrgID s) = false ∧ blank (ds_OpsOrgID s) = false ∧
  dc_MinBuyerBalanceCents (dr_Demo cfg) ≤
    (let settled := bb_SettledTopUpCents (st_BuyerBalance found) in if 0 <? topUp then settled +w topUp else settled) ∧
  match warmed with
  | None => EqualFold (pss_PoolStatus (st_ProviderSettlement found)) "healthy" = true ∧
      dc_MinProviderLiquidityCents (dr_Demo cfg) ≤ pss_AvailableToAllocateCents (st_ProviderSettlement found)
  | Some pool => EqualFold (pa_Status pool) "healthy" = true ∧
      dc_MinProviderLiquidityCents (dr_Demo cfg) ≤ pa_AvailableToAllocateCents pool
  end.
Proof.
  unfold buildPreparedDemoStatus. set (status := mkDemoStatus _ _ _ _ _ _ _ _). intros Hv.
  apply (proj1 (proj1 (demo_verdict now status))) in Hv as (_ & Hs & Ha & Hb & Hp).
  unfold status in Hs, Ha, Hb, Hp. cbn [st_Services st_Actors st_BuyerBalance st_ProviderSettlement] in *.
  assert (Hact : ∀ role email org, preparedDemoActorStatus role email org ∈ st_Actors status → blank org = false).
  { intros role email org Hin%Ha. by apply negb_true_iff in Hin. }
  split_and!; [done| | | |by apply Z.leb_le in Hb|].
  1: by eapply Hact, list_elem_of_here.
  1: by eapply Hact, list_elem_of_further, list_elem_of_here.
  1: by eapply Hact, list_elem_of_further, list_elem_of_further, list_elem_of_here.
  unfold prepared_provider in Hp.
  destruct warmed as [pool|]; cbn [pss_MeetsMinimumThreshold] in Hp;
    apply andb_true_iff in Hp as [Hp Hl%Z.leb_le]; apply andb_true_iff in Hp as [_ Hp]; by split.
Qed.

Lemma actor_grows cfg role a mutate : runs (λ _, True) (demo_actor w cfg role a mutate).
Proof.
  assert (grows (ensureDemoActor w (dc_IAMBaseURL (dr_Demo cfg)) a mutate)).
  { unfold ensureDemoActor, loginIAMUser, lookupIAMOrgID, get_below, signupIAMUser. solve_sends; done. }
  unfold demo_actor. solve_runs.
Qed.

(** C38. What a preparation that ends with the demonstration ready was told: the status the
    gateway gave the operator, in which every service was healthy; an organization for
    each actor; a buyer's balance that met the threshold when it was found, or one that
    meets it with the top-up added, and some credit of at least the top-up (which need not
    be the one this run asked for: [unmade_topups_are_counted]); and a healthy pool with
    enough to allocate, found or warmed for the provider. *)
Theorem prepared_demos_were_funded cfg h h' s :
  RunDemoPrepare w parse resolve bech32_Decode sdk_ConvertBits DeserializeHashTypeByte fuel rounds cfg h
    = (h', Ok (s, Ok tt)) →
  st_Verdict (ds_Status s) = Some VerdictReady ∧
  blank (ds_BuyerOrgID s) = false ∧ blank (ds_ProviderOrgID s) = false ∧ blank (ds_OpsOrgID s) = false ∧
  ∃ token found, found_status w cfg h' token found ∧
    (∀ service, service ∈ st_Services found → ss_Healthy service = true) ∧
    buyer_funded w cfg h' (st_BuyerBalance found) ∧
    provider_funded w cfg h' token (ds_ProviderOrgID s) (st_ProviderSettlement found).
Proof.
  unfold RunDemoPrepare, runDemoReady. destruct (demo_steps _ _ _ _ _ _ _ _ _ _ _) as [[h1 s1] outcome] eqn:Hr.
  intros [= <- <- ->]. revert Hr. unfold demo_steps.
  intros (x0 & cfg' & H0 & (x1 & buyer & _ & (x2 & provider & _ & (x3 & ops & _ & (x4 & [] & _ & (x5 & [] & _ &
    (x6 & found & H6 & (x7 & [] & H7 & (x8 & [] & H8 & H9)%bind_Ok)%bind_Ok)%bind_Ok)%bind_Ok)%bind_Ok)%bind_Ok)%bind_Ok)%bind_Ok)%bind_Ok.
  assert (Hd : dr_Demo cfg' = dr_Demo cfg) by (by apply bind_Ok in H0 as (x9 & c & _ & [= _ <-])).
  apply asks_Ok in H6 as [H6%getDemoStatus_Ok _]. apply notes_Ok in H7 as ->.
  apply prepare_Ok in H8 as (P8 & _ & topUp & warmed & now & Hstatus & Hb & Hp). cbn [fst] in P8.
  unfold demo_checked in H9. change (query snd Ok ≫= ?f) with (λ y : list Event * DemoRunSummary, f y.2 y) in H9.
  cbn beta in H9. apply fail_if_Ok in H9 as [Hready%bool_decide_eq_false <-]. cbn [fst snd] in *.
  apply dec_stable in Hready. split; [done|].
  rewrite Hstatus in Hready. apply built_ready in Hready as (Hservices & Ho1 & Ho2 & Ho3 & Hbal & Hpool).
  split_and!; [done..|]. exists (ai_Token ops), found.
  unfold found_status, buyer_funded, provider_funded, credit_seen, warmed_pool in *. rewrite Hd in *.
  split_and!; [by eapply answered_later|done| |].
  - destruct (bb_MeetsMinimumThreshold _); [by subst topUp|]. by destruct Hb as [-> Hc].
  - destruct (pss_MeetsMinimumThreshold _); [by subst warmed|]. destruct Hp as (pool & -> & Hw). by exists pool.
Qed.
End ready.

(** ** A binding that is already there *)

Lemma refusals_say_little code : 400 ≤ code < 600 →
  errorContainsFold (EPrefix "register provider carrier binding" (statusError code))
    activeCarrierBindingAlreadyExistsMessage = false.
Proof.
  intros Hc. assert (Hall : forallb (λ code, negb (errorContainsFold
    (EPrefix "register provider carrier binding" (statusError code)) activeCarrierBindingAlreadyExistsMessage))
    (seqZ 400 200) = true) by (vm_compute; reflexivity).
  rewrite forallb_forall in Hall. apply negb_true_iff, Hall, list_elem_of_In, elem_of_seqZ. lia.
Qed.

(** A refused registration is never taken for a binding that is already there: an error
    of a request holds the status of the answer and not its text, so that whatever the
    gateway says of an active binding, a preparation that found none and is refused
    ends there; the binding is not read again, and none is verified. *)
Theorem refused_bindings_end_preparations w base providerOrgID cfg h code text body notFound :
  let asked := get base ("/api/v1/carrier-bindings/" +:+ providerOrgID) [] [] in
  let registration := post_request base "/api/v1/carrier-bindings" [] (carrier_binding_payload providerOrgID cfg) in
  wd_answer w h asked = Ok (StatusNotFound, notFound, None) → 400 ≤ code < 600 →
  wd_answer w (h ++ [Sent asked]) registration = Ok (code, text, body) →
  ensureProviderCarrierBinding w base providerOrgID cfg h =
    ((h ++ [Sent asked]) ++ [Sent registration],
     Err (EPrefix "register provider carrier binding" (statusError code))).
Proof.
  intros asked registration Ha Hc Hr.
  assert (Hget : getProviderCarrierBinding w base providerOrgID h = (h ++ [Sent asked], Err (statusError StatusNotFound))).
  { unfold getProviderCarrierBinding, get_below, mbind, st_bind, Do. fold asked. by rewrite Ha. }
  assert (Hreg : registerProviderCarrierBinding w base providerOrgID cfg (h ++ [Sent asked]) =
    ((h ++ [Sent asked]) ++ [Sent registration], Err (EPrefix "register provider carrier binding" (statusError code)))).
  { unfold registerProviderCarrierBinding, created, or_fail, attempt, postJSON, postJSONWithHeaders, mbind, st_bind, Do.
    change (mkOutgoing "POST" _ _ _ _ _) with registration. rewrite Hr.
    destruct (Z.leb_spec StatusBadRequest code) as [|Hlt]; [done|]. unfold StatusBadRequest in Hlt. lia. }
  unfold ensureProviderCarrierBinding, register_and_verify, mbind, st_bind, attempt. rewrite Hget.
  change (isStatusCode _ _) with true. cbn [negb]. rewrite Hreg. by rewrite (refusals_say_little code Hc).
Qed.
Definition refusing_world : World :=
  mkWorld (λ _ o, Ok (if String.eqb (og_Method o) "GET" then 404 else 409, "active binding already exists", None))
    (λ _ _, Err (Errf "no adapter")) (λ h, Z.of_nat (length h)) (λ _, true).
Definition refused_config : USDIMarketplaceE2EConfig := USDIMarketplaceE2EConfigFromEnv (λ _, "").
Lemma refused_bindings_end_preparations_witness :
  ensureProviderCarrierBinding refusing_world "http://api" "org_1" refused_config [] =
    ([Sent (get "http://api" "/api/v1/carrier-bindings/org_1" [] []);
      Sent (post_request "http://api" "/api/v1/carrier-bindings" [] (carrier_binding_payload "org_1" refused_config))],
     Err (EPrefix "register provider carrier binding" (statusError 409))).
Proof.
  apply (refused_bindings_end_preparations refusing_world "http://api" "org_1" refused_config [] 409
    "active binding already exists" None "active binding already exists"); [reflexivity|lia|reflexivity].
Defined.

(** ** A preparation that counts a top-up nobody made *)

Definition demo_setting (key : string) : string :=
  if String.eqb key "DEMO_IAM_BASE_URL" then "http://iam"
  else if String.eqb key "DEMO_MIN_BUYER_BALANCE_CENTS" then "10000"
  else if String.eqb key "FIBER_USDI_UDT_TYPE_SCRIPT_JSON" then "script" else "".
Definition prepared_config : DemoRunConfig := DemoRunConfigFromEnv demo_setting.
Definition script_value : json := string_json [("codeHash", "0x01"); ("hashType", "type"); ("args", "0x02")].
Definition member (kind : string) : json :=
  JObj [("organization", string_json [("id", "org_" +:+ kind); ("kind", kind)])].
(** What every service answers: each reads its own part. *)
Definition prepared_answer : json :=
  JObj [("session", string_json [("token", "tok")]);
        ("memberships", JArr [member "buyer"; member "provider"; member "ops"]);
        ("binding", string_json [("id", "bind_1"); ("status", "active"); ("carrierBaseUrl", "http://127.0.0.1:8787");
                                 ("hostId", "host_1")]);
        ("status", JObj [("verdict", JStr "blocked");
                         ("buyerBalance", JObj [("settledTopUpCents", JInt 6000); ("minimumRequiredCents", JInt 10000)])]);
        ("result", JObj [("node_id", JStr "node");
           ("default_funding_lock_script", string_json [("args", "0x0123456789012345678901234567890123456789")]);
           ("objects", JArr [JObj [("output", string_json [("capacity", "0xffffffffff")]);
                                   ("output_data", JStr "0xffffffff000000000000000000000000")]])]);
        ("address", JStr "ckt1_deposit"); ("creditedBalanceCents", JInt 6000);
        ("records", JArr [string_json [("id", "fund_1"); ("state", "SETTLED")]]);
        ("pool", JObj [("status", JStr "healthy"); ("availableToAllocateCents", JInt 90000)])].
Definition prepared_world : World :=
  mkWorld (λ _ _, Ok (200, "", Some prepared_answer)) (λ _ _, Err (Errf "no adapter"))
    (λ h, 1700000000000000000 + Z.of_nat (length h)) (λ _, true).
Definition prepared_run : list Event * result (DemoRunSummary * result ()) :=
  RunDemoPrepare prepared_world (λ _, Some script_value) (λ _ _, Err (Errf "no resolver"))
    (λ _, Err (Errf "no address")) (λ _ _ _ _, Err (Errf "no bits")) (λ _, Err (Errf "no hash type")) 3 3
    prepared_config [].
Strategy expand [prepared_run].
Definition prepared_summary : DemoRunSummary :=
  match prepared_run.2 with Ok (s, _) => s | Err _ => demo_start prepared_config end.
Definition wallet_path (o : Outgoing) : bool :=
  existsb (String.eqb (og_Path o)) ["/faucet"; "/claim_events"; "/v1/buyer/deposits/sync"].
Definition asks_for_funds (e : Event) : bool := match e with Sent o => wallet_path o | _ => false end.

(** What a preparation reports of the balance need not be there.  The buyer is found with
    6000 cents where 10000 are wanted, and a credit of 6000 that already covers the
    top-up of 50.00 ends the wait at once: nothing is asked of a faucet, nothing swept,
    and the report is a balance of 11000 cents, two actions done and a demonstration
    that is ready. *)
Theorem unmade_topups_are_counted :
  prepared_run.2 = Ok (prepared_summary, Ok tt) ∧
  st_Verdict (ds_Status prepared_summary) = Some VerdictReady ∧
  bb_SettledTopUpCents (st_BuyerBalance (ds_Status prepared_summary)) = 11000 ∧
  existsb asks_for_funds prepared_run.1 = false ∧
  ds_Actions prepared_summary = ["buyer top-up settled"; "provider liquidity warmed"].
Proof. split_and!; vm_compute; reflexivity. Qed.

Lemma prepared_demos_were_funded_witness :
  prepared_run = (prepared_run.1, Ok (prepared_summary, Ok tt)) ∧
  ∃ token found, found_status prepared_world prepared_config prepared_run.1 token found ∧
    (∀ service, service ∈ st_Services found → ss_Healthy service = true) ∧
    buyer_funded prepared_world prepared_config prepared_run.1 (st_BuyerBalance found) ∧
    provider_funded prepared_world prepared_config prepared_run.1 token (ds_ProviderOrgID prepared_summary)
      (st_ProviderSettlement found).
Proof.
  assert (Hr : prepared_run = (prepared_run.1, Ok (prepared_summary, Ok tt))) by (vm_compute; reflexivity).
  split; [exact Hr|].
  exact (proj2 (proj2 (proj2 (proj2 (prepared_demos_were_funded prepared_world (λ _, Some script_value)
    (λ _ _, Err (Errf "no resolver")) (λ _, Err (Errf "no address")) (λ _ _ _ _, Err (Errf "no bits"))
    (λ _, Err (Errf "no hash type")) 3 3 prepared_config [] prepared_run.1 prepared_summary Hr))))).
Defined.

Definition verified_run : list Event * result (DemoRunSummary * result ()) :=
  RunDemoVerify prepared_world (λ _, None) (λ _ _, Err (Errf "no resolver")) (λ _, Err (Errf "no address"))
    (λ _ _ _ _, Err (Errf "no bits")) (λ _, Err (Errf "no hash type")) 3 3 prepared_config [].
Strategy expand [verified_run].
Lemma verifications_only_look_witness : length verified_run.1 = 7%nat ∧
  ∃ t, verified_run.1 = [] ++ t ∧ ∀ o, Sent o ∈ t → looks_only prepared_config o.
Proof.
  split; [vm_compute; reflexivity|].
  assert (Hr : verified_run = (verified_run.1, verified_run.2)) by (vm_compute; reflexivity).
  exact (proj1 (verifications_only_look prepared_world (λ _, None) (λ _ _, Err (Errf "no resolver"))
    (λ _, Err (Errf "no address")) (λ _ _ _ _, Err (Errf "no bits")) (λ _, Err (Errf "no hash type")) 3 3
    prepared_config [] verified_run.1 verified_run.2 Hr)).
Defined.
