(* ===== verification/Notifications.v ===== *)
(** * Notifications and webhooks (internal/notifications; the notifier of
      internal/gateway/server.go)

    What the platform tells organizations: the log in memory, the delivery to
    registered addresses with the signature of the body, and the registry of addresses
    the gateway keeps.  The HTTP client is a function of what was delivered before;
    writing JSON as text is the parameter [marshal], over objects whose keys are in
    order. *)

From Stdlib Require Import Ascii.
From stdpp Require Import sorting.
From S2P Require Import Prelude GoNum GoText Core GoTime Market Repo MemoryRepo App CarrierService.
From S2P Require Import CarrierEvents Http Web GoBytes Gateway GatewayOrders GatewayDirectory.
From S2P Require Import GatewayServe.

(** ** Events *)

Definition EventOrderCreated : string := "order.created".
Definition EventMilestoneSettled : string := "milestone.settled".
Definition EventDisputeOpened : string := "dispute.opened".
Definition EventDisputeResolved : string := "dispute.resolved".
Definition EventRFQAwarded : string := "rfq.awarded".
Definition EventOrderCompleted : string := "order.completed".
Definition EventOrderRated : string := "order.rated".
Definition EventBudgetWallHit : string := "budget_wall.hit".

(** A stored notification; [no_Delivered] is always set. *)
Record StoredNotification := mkNotice {
  no_ID : string;
  no_Event : string;
  no_Target : string;
  no_Payload : payload;
  no_CreatedAt : Time;
  no_Delivered : bool;
}.

(** What a notification service promises: it is told of events and lists them; [now] is
    the reading of the clock. *)
Class Service (S : Type) := {
  Send : Time → string → string → payload → ST S ();
  ListNotices : string → S → list StoredNotification;
}.

(** ** Text of a rune *)

(** [string(rune(n))]: the conversion to a rune keeps 32 bits, and what is no code point is
    written as U+FFFD. *)
Definition wrap32 (n : Z) : Z := (n + 2147483648) mod 4294967296 - 2147483648.
Definition byte_of (n : Z) : ascii := ascii_of_nat (Z.to_nat n).
Definition is_code_point (n : Z) : bool := (0 <=? n) && (n <=? 1114111) && negb (between 55296 57343 n).
Definition encode_rune (n : Z) : string :=
  let tail k := byte_of (128 + (n / k) mod 64) in
  if n <? 128 then String (byte_of n) ""
  else if n <? 2048 then String (byte_of (192 + n / 64)) (String (tail 1) "")
  else if n <? 65536 then String (byte_of (224 + n / 4096)) (String (tail 64) (String (tail 1) ""))
  else String (byte_of (240 + n / 262144)) (String (tail 4096) (String (tail 64) (String (tail 1) ""))).
Definition rune_string (n : Z) : string :=
  let r := wrap32 n in if is_code_point r then encode_rune r else encode_rune RuneError.

(** ** In memory *)

Record InMemoryService := mkMemory { ms_seq : Z; ms_data : list StoredNotification }.
Definition NewInMemoryService : InMemoryService := mkMemory 0 [].
Definition notice_id (seq : Z) : string := "notif_" +:+ rune_string (48 + seq).
Definition memory_Send (now : Time) (event target : string) (p : payload) : ST InMemoryService () := λ s,
  let seq := ms_seq s +w 1 in
  (mkMemory seq (ms_data s ++ [mkNotice (notice_id seq) event target p now true]), Ok tt).
Definition memory_List (target : string) (s : InMemoryService) : list StoredNotification :=
  filter (λ n, no_Target n = target ∨ target = "") (ms_data s).
Definition memory_Count (s : InMemoryService) : nat := length (ms_data s).
#[export] Instance memory_service : Service InMemoryService :=
  {| Send := memory_Send; ListNotices := memory_List |}.

(** ** Webhooks *)

Record Delivery := mkDelivery {
  dl_URL : string;
  dl_Headers : list (string * string);
  dl_Body : string;
}.
(** What becomes of a delivery: an address that is no URL is no request. *)
Inductive Delivered := NoRequest (e : error) | NoAnswer (e : error) | Answered (status : Z).

(** [json.Marshal]; a year that has not four digits has no JSON. *)
Definition value_json (v : value) : option json :=
  match v with
  | VStr s => Some (JStr s)
  | VInt z => Some (JInt z)
  | VTime t => if between 0 9999 (year_of (t / day_ns)) then Some (JStr (FormatRFC3339Nano t)) else None
  | VStrs l => Some (JArr (JStr <$> l))
  end.
Definition key_before (a b : string * json) : Prop := String.leb a.1 b.1 = true.
#[export] Instance key_before_dec : RelDecision key_before.
Proof. intros a b. unfold key_before. apply _. Defined.
Definition payload_json (p : payload) : option json :=
  fields ← mapM (λ kv, v ← value_json kv.2; Some (kv.1, v)) p; Some (JObj (merge_sort key_before fields)).
Definition WebhookPayload (now : Time) (event target : string) (p : payload) : option json :=
  fields ← payload_json p;
  Some (JObj [("event", JStr event); ("target", JStr target); ("payload", fields);
              ("timestamp", JStr (FormatRFC3339 now))]).
Definition unmarshalable : error := Errf "json: error calling MarshalJSON for type time.Time".

Record WebhookService (F : Type) := mkWebhooks {
  ws_urls : gmap string string;
  ws_secret : string;
  ws_fallback : option F;
  ws_log : list Delivery;  (* what was sent *)
}.
Arguments mkWebhooks {F}.
Arguments ws_urls {F}.
Arguments ws_secret {F}.
Arguments ws_fallback {F}.
Arguments ws_log {F}.
#[export] Instance WebhookService_eta F : Eta (WebhookService F) := λ s,
  mkWebhooks (ws_urls s) (ws_secret s) (ws_fallback s) (ws_log s).

Section webhooks.
Context {F : Type} `{!Service F} (marshal : json → string) (client : list Delivery → Delivery → Delivered).

Definition NewWebhookService (secret : string) (fallback : option F) : WebhookService F :=
  mkWebhooks ∅ secret fallback [].
Definition webhook_Register (target url : string) (s : WebhookService F) : WebhookService F :=
  s <| ws_urls ::= <[target := url]> |>.
Definition webhook_Unregister (target : string) (s : WebhookService F) : WebhookService F :=
  s <| ws_urls ::= delete target |>.
Definition signPayload (secret body : string) : string := hmac_sha256 secret body.
Definition webhook_headers (event secret body : string) : list (string * string) :=
  [("Content-Type", "application/json"); ("X-1Tok-Event", event)]
  ++ (if String.eqb secret "" then [] else [("X-1Tok-Signature", signPayload secret body)]).
Definition post_delivery (d : Delivery) : ST (WebhookService F) () := λ s,
  match client (ws_log s) d with
  | NoRequest e => (s, Err (EPrefix "create webhook request" e))
  | NoAnswer e => (s <| ws_log ::= (λ l, l ++ [d]) |>, Err (EPrefix "webhook delivery failed" e))
  | Answered status =>
      (s <| ws_log ::= (λ l, l ++ [d]) |>,
       if 400 <=? status then Err (Errf ("webhook returned status " +:+ pretty status)) else Ok tt)
  end.
(** The fallback is told first; its error is dropped. *)
Definition tell_fallback (now : Time) (event target : string) (p : payload) : ST (WebhookService F) () :=
  modify (λ s, s <| ws_fallback ::= fmap (λ f, (Send now event target p f).1) |>).
Definition webhook_Send (now : Time) (event target : string) (p : payload) : ST (WebhookService F) () :=
  _ ← tell_fallback now event target p;
  s ← get_st;
  match ws_urls s !! target with
  | None => mret tt
  | Some url =>
      match WebhookPayload now event target p with
      | None => throw (EPrefix "marshal webhook payload" unmarshalable)
      | Some wp =>
          let body := marshal wp in
          post_delivery (mkDelivery url (webhook_headers event (ws_secret s) body) body)
      end
  end.
Definition webhook_List (target : string) (s : WebhookService F) : list StoredNotification :=
  match ws_fallback s with Some f => ListNotices target f | None => [] end.
#[export] Instance webhook_service : Service (WebhookService F) :=
  {| Send := webhook_Send; ListNotices := webhook_List |}.
End webhooks.

(** ** The registry *)

Record Registry (F : Type) := mkRegistry { rg_regs : gmap string string; rg_svc : option (WebhookService F) }.
Arguments mkRegistry {F}.
Arguments rg_regs {F}.
Arguments rg_svc {F}.
Section registry.
Context {F : Type}.
Definition NewRegistry (svc : option (WebhookService F)) : Registry F := mkRegistry ∅ svc.
Definition registry_Register (target url : string) (r : Registry F) : Registry F :=
  mkRegistry (<[target := url]> (rg_regs r)) (webhook_Register target url <$> rg_svc r).
Definition registry_Unregister (target : string) (r : Registry F) : Registry F :=
  mkRegistry (delete target (rg_regs r)) (webhook_Unregister target <$> rg_svc r).
(** In any order. *)
Definition registry_List (r : Registry F) : list (string * string) := map_to_list (rg_regs r).
Definition registry_Get (target : string) (r : Registry F) : option (string * string) :=
  url ← rg_regs r !! target; Some (target, url).
End registry.

(** ** Runes are read back *)

Lemma byte_val_of n : 0 ≤ n < 256 → byte_val (byte_of n) = n.
Proof. intros Hn. unfold byte_val, byte_of. rewrite nat_ascii_embedding; lia. Qed.
Lemma lor_shifted a b k : 0 ≤ k → 0 ≤ b < 2 ^ k → Z.lor (Z.shiftl a k) b = a * 2 ^ k + b.
Proof.
  intros Hk Hb.
  assert (Hl : Z.land (Z.shiftl a k) b = 0).
  { apply Z.bits_inj'. intros n Hn. rewrite Z.land_spec, Z.bits_0, Z.shiftl_spec by done.
    destruct (Z.lt_ge_cases n k) as [Hlt|Hge]; [by rewrite (Z.testbit_neg_r a) by lia|].
    rewrite <- (Z.mod_small b (2 ^ k)) by done. by rewrite Z.mod_pow2_bits_high, andb_false_r by lia. }
  rewrite <- Z.lxor_lor, <- Z.add_nocarry_lxor by done. by rewrite Z.shiftl_mul_pow2.
Qed.
Lemma six_low_bits n k : 0 ≤ k → Z.land n (Z.ones k) = n mod 2 ^ k.
Proof. intros. by apply Z.land_ones. Qed.
Lemma low6_tail n : low6 (byte_of (128 + n mod 64)) = n mod 64.
Proof.
  pose proof (Z.mod_pos_bound n 64 ltac:(lia)). unfold low6. rewrite byte_val_of by lia.
  rewrite (six_low_bits _ 6) by lia. change (2 ^ 6) with 64. rewrite <- (Z.add_mod_idemp_l 128 (n mod 64)) by lia.
  rewrite Z.mod_small by (change (128 mod 64) with 0; lia). done.
Qed.
Lemma tail_continues n : continues (byte_of (128 + n mod 64)) = true.
Proof.
  pose proof (Z.mod_pos_bound n 64 ltac:(lia)). unfold continues, between. rewrite byte_val_of by lia. lia.
Qed.
(** A rune's text is that rune. *)
Lemma encode_rune_runes n : is_code_point n = true → runes (encode_rune n) = [n].
Proof.
  unfold is_code_point. intros Hn. apply andb_true_iff in Hn as [Hrange Hs].
  assert (Hn : 0 ≤ n ≤ 1114111 ∧ ¬ 55296 ≤ n ≤ 57343) by (unfold between in Hs; lia). clear Hrange Hs.
  unfold encode_rune. assert (Hd := Z.div_1_r n).
  destruct (Z.ltb_spec n 128) as [H1|H1]; [|destruct (Z.ltb_spec n 2048) as [H2|H2];
    [|destruct (Z.ltb_spec n 65536) as [H3|H3]]]; cbn [runes]; rewrite ?Hd.
  - rewrite byte_val_of by lia. destruct (Z.ltb_spec n 128); [done|lia].
  - set (a := 192 + n / 64). assert (Ha : 194 ≤ a < 224) by (unfold a; Z.to_euclidean_division_equations; lia).
    rewrite tail_continues, byte_val_of, low6_tail by lia. unfold between.
    replace (a <? 128) with false by lia. replace ((194 <=? a) && (a <=? 223)) with true by lia. cbn [andb].
    rewrite (six_low_bits _ 5), lor_shifted by (try apply Z.mod_pos_bound; lia).
    f_equal. unfold a. change (2 ^ 5) with 32. change (2 ^ 6) with 64. Z.to_euclidean_division_equations; lia.
  - set (a := 224 + n / 4096). assert (Ha : 224 ≤ a < 240) by (unfold a; Z.to_euclidean_division_equations; lia).
    assert (Hsecond : second_of_three (byte_of a) (byte_of (128 + (n / 64) mod 64)) = true).
    { unfold second_of_three, continues, between. rewrite !byte_val_of
        by (pose proof (Z.mod_pos_bound (n / 64) 64 ltac:(lia)); lia).
      destruct (Z.eqb_spec a 224); [|destruct (Z.eqb_spec a 237)]; unfold a in *;
        Z.to_euclidean_division_equations; lia. }
    rewrite Hsecond, tail_continues, !low6_tail, byte_val_of by lia. unfold between.
    replace (a <? 128) with false by lia. replace ((194 <=? a) && (a <=? 223)) with false by lia. cbn [andb].
    rewrite (six_low_bits _ 4) by lia. rewrite (lor_shifted ((n / 64) mod 64) (n mod 64) 6)
      by (try apply Z.mod_pos_bound; lia).
    rewrite lor_shifted by (try (Z.to_euclidean_division_equations; lia); lia).
    f_equal. unfold a. change (2 ^ 4) with 16. change (2 ^ 6) with 64. change (2 ^ 12) with 4096.
    Z.to_euclidean_division_equations; lia.
  - set (a := 240 + n / 262144).
    assert (Ha : 240 ≤ a < 245) by (unfold a; Z.to_euclidean_division_equations; lia).
    assert (Hsecond : second_of_four (byte_of a) (byte_of (128 + (n / 4096) mod 64)) = true).
    { unfold second_of_four, continues, between. rewrite !byte_val_of
        by (pose proof (Z.mod_pos_bound (n / 4096) 64 ltac:(lia)); lia).
      destruct (Z.eqb_spec a 240); [|destruct (Z.eqb_spec a 244)]; unfold a in *;
        Z.to_euclidean_division_equations; lia. }
    assert (Hthree : second_of_three (byte_of a) (byte_of (128 + (n / 4096) mod 64)) = false).
    { unfold second_of_three, between. rewrite !byte_val_of
        by (pose proof (Z.mod_pos_bound (n / 4096) 64 ltac:(lia)); lia).
      replace (a =? 224) with false by lia. replace (a =? 237) with false by lia.
      by replace ((225 <=? a) && (a <=? 239)) with false by lia. }
    rewrite Hsecond, Hthree, !tail_continues, !low6_tail, byte_val_of by lia. unfold between.
    replace (a <? 128) with false by lia. replace ((194 <=? a) && (a <=? 223)) with false by lia. cbn [andb].
    rewrite (six_low_bits _ 3) by lia. rewrite (lor_shifted ((n / 64) mod 64) (n mod 64) 6)
      by (try apply Z.mod_pos_bound; lia).
    rewrite (lor_shifted ((n / 4096) mod 64)) by (try (Z.to_euclidean_division_equations; lia); lia).
    rewrite lor_shifted by (try (Z.to_euclidean_division_equations; lia); lia).
    f_equal. unfold a. change (2 ^ 3) with 8. change (2 ^ 6) with 64. change (2 ^ 12) with 4096.
    change (2 ^ 18) with 262144. Z.to_euclidean_division_equations; lia.
Qed.
Lemma rune_string_inj m n : is_code_point m = true → is_code_point n = true → rune_string m = rune_string n → m = n.
Proof.
  intros Hm Hn. assert (Hw : ∀ k, is_code_point k = true → wrap32 k = k).
  { intros k Hk. unfold is_code_point in Hk. unfold wrap32. rewrite Z.mod_small; lia. }
  unfold rune_string. rewrite !Hw, Hm, Hn by done. intros Heq%(f_equal runes).
  rewrite !encode_rune_runes in Heq by done. by injection Heq.
Qed.

(** ** The log *)

Abbreviation notice := (Time * string * string * payload)%type.
Definition log_notice (s : InMemoryService) (n : notice) : InMemoryService :=
  let '(now, event, target, p) := n in (Send now event target p s).1.
Definition told (n : StoredNotification) : notice := (no_CreatedAt n, no_Event n, no_Target n, no_Payload n).

Lemma logged sent : Z.of_nat (length sent) ≤ max_int64 →
  let s := foldl log_notice NewInMemoryService sent in
  ms_seq s = Z.of_nat (length sent) ∧ told <$> ms_data s = sent ∧
  no_ID <$> ms_data s = notice_id <$> seqZ 1 (Z.of_nat (length sent)).
Proof.
  induction sent as [|[[[now event] target] p] sent IH] using rev_ind; [done|].
  rewrite length_app, foldl_app. cbn [length foldl]. intros Hlen.
  destruct IH as (Hseq & Hdata & Hid); [lia|]. set (s := foldl _ _ sent) in *.
  unfold log_notice. cbn [Send memory_service memory_Send fst ms_seq ms_data]. rewrite !fmap_app, Hdata, Hid, Hseq.
  assert (Hadd : Z.of_nat (length sent) +w 1 = Z.of_nat (length sent + 1)).
  { unfold add64. rewrite wrap64_id; [lia|]. unfold in64, min_int64. lia. }
  rewrite Hadd. split_and!; [done..|].
  replace (Z.of_nat (length sent + 1)) with (Z.of_nat (length sent) + 1) by lia.
  rewrite seqZ_app, fmap_app by lia. f_equal. rewrite seqZ_cons, seqZ_nil by lia.
  by rewrite Z.add_comm.
Qed.

Lemma notice_id_inj x y : is_code_point (48 + x) = true → is_code_point (48 + y) = true →
  notice_id x = notice_id y → x = y.
Proof. intros Hx Hy Heq%(inj (String.append "notif_")). apply rune_string_inj in Heq; [lia|done..]. Qed.
Lemma surrogate_apart x : 1 ≤ x < 55248 → notice_id x ≠ notice_id 55248.
Proof.
  intros Hx. change (notice_id 55248) with (notice_id 65485). intros Heq.
  apply notice_id_inj in Heq; [lia|unfold is_code_point, between; lia..].
Qed.

(** The log keeps every notification in the order it was sent in, under the identifiers
    notif_1, notif_2 and on through the runes after the digit zero; they tell the
    notifications apart exactly while there are at most 55248 of them: the one after
    that has the identifier of the one before it. *)
Theorem notices_told_apart_to_55248 sent : Z.of_nat (length sent) ≤ max_int64 →
  let s := foldl log_notice NewInMemoryService sent in
  (∀ target, told <$> ListNotices target s =
     filter (λ n, n.1.2 = target ∨ target = "") sent) ∧
  (NoDup (no_ID <$> ms_data s) ↔ Z.of_nat (length sent) ≤ 55248).
Proof.
  intros Hlen s. destruct (logged sent Hlen) as (_ & Hdata & Hid). fold s in Hdata, Hid. split.
  { intros target. rewrite <- Hdata. cbn [ListNotices memory_service]. unfold memory_List.
    clear. induction (ms_data s) as [|n l IH]; [done|]. rewrite fmap_cons, !filter_cons. cbn [told fst snd].
    destruct (decide (no_Target n = target ∨ target = "")); [|done]. by rewrite fmap_cons, IH. }
  rewrite Hid. set (len := Z.of_nat (length sent)) in *. split.
  - intros Hnd. destruct (Z.le_gt_cases len 55248) as [|Hgt]; [done|]. exfalso.
    assert (Heq : notice_id 55248 = notice_id 55249) by (vm_compute; reflexivity).
    assert (Hsplit : seqZ 1 len = seqZ 1 55247 ++ 55248 :: 55249 :: seqZ 55250 (len - 55249)).
    { replace len with (55247 + (1 + (1 + (len - 55249)))) at 1 by lia.
      rewrite seqZ_app by lia. f_equal. rewrite !seqZ_cons by lia. f_equal. f_equal. f_equal; lia. }
    rewrite Hsplit, fmap_app, !fmap_cons, Heq in Hnd.
    apply NoDup_app in Hnd as (_ & _ & Hnd). apply NoDup_cons in Hnd as [Hin _]. by apply Hin, list_elem_of_here.
  - intros Hle. apply NoDup_fmap_2_strong; [|apply NoDup_seqZ].
    intros x y Hx%elem_of_seqZ Hy%elem_of_seqZ Heq.
    destruct (decide (x = 55248)) as [->|Hx']; [|destruct (decide (y = 55248)) as [->|Hy']].
    + destruct (decide (y = 55248)) as [->|Hy']; [done|]. exfalso. by apply (surrogate_apart y); [lia|].
    + exfalso. apply (surrogate_apart x); [lia|done].
    + apply notice_id_inj; [unfold is_code_point, between; lia..|done].
Qed.

(** ** Deliveries follow registrations *)

Inductive HookOp :=
  | Registers (target url : string)
  | Unregisters (target : string)
  | Notifies (now : Time) (event target : string) (p : payload).

(** The address last registered for a target, unless it was taken back. *)
Definition about (target : string) (op : HookOp) : option (option string) :=
  match op with
  | Registers t url => if String.eqb t target then Some (Some url) else None
  | Unregisters t => if String.eqb t target then Some None else None
  | Notifies _ _ _ _ => None
  end.
Definition registered_url (before : list HookOp) (target : string) : option string :=
  mjoin (last (omap (about target) before)).

Section deliveries.
Context {F : Type} `{!Service F} (marshal : json → string) (client : list Delivery → Delivery → Delivered).

Definition hook_op (r : Registry F) (op : HookOp) : Registry F :=
  match op with
  | Registers target url => registry_Register target url r
  | Unregisters target => registry_Unregister target r
  | Notifies now event target p =>
      mkRegistry (rg_regs r) ((λ s, (webhook_Send marshal client now event target p s).1) <$> rg_svc r)
  end.
(** What is to be sent after what came before. *)
Definition delivery_due (secret : string) (before : list HookOp) (op : HookOp) : option Delivery :=
  match op with
  | Notifies now event target p =>
      url ← registered_url before target;
      wp ← WebhookPayload now event target p;
      Some (mkDelivery url (webhook_headers event secret (marshal wp)) (marshal wp))
  | _ => None
  end.
Fixpoint deliveries_due (secret : string) (before ops : list HookOp) : list Delivery :=
  match ops with
  | [] => []
  | op :: ops => option_list (delivery_due secret before op) ++ deliveries_due secret (before ++ [op]) ops
  end.

Lemma registered_later before op target : registered_url (before ++ [op]) target =
  match about target op with Some url => url | None => registered_url before target end.
Proof.
  unfold registered_url. rewrite omap_app. cbn [omap list_omap]. destruct (about target op); [|by rewrite app_nil_r].
  by rewrite last_snoc.
Qed.
Lemma post_delivery_log d (s : WebhookService F) : ∃ l, ws_log (post_delivery client d s).1 = ws_log s ++ l ∧
  ws_urls (post_delivery client d s).1 = ws_urls s ∧ ws_secret (post_delivery client d s).1 = ws_secret s ∧
  sublist l [d] ∧ ((∀ e, client (ws_log s) d ≠ NoRequest e) → l = [d]).
Proof.
  unfold post_delivery. destruct (client (ws_log s) d) as [e|e|status] eqn:Hc.
  - exists []. rewrite app_nil_r. split_and!; [done..|apply sublist_nil_l|by intros []%(λ H, H e eq_refl)].
  - by exists [d].
  - by exists [d].
Qed.
Lemma send_log now event target p before (s : WebhookService F) :
  (∀ t, ws_urls s !! t = registered_url before t) →
  let s' := (webhook_Send marshal client now event target p s).1 in
  let due := option_list (delivery_due (ws_secret s) before (Notifies now event target p)) in
  ws_urls s' = ws_urls s ∧ ws_secret s' = ws_secret s ∧ ∃ l, ws_log s' = ws_log s ++ l ∧ sublist l due ∧
    ((∀ h d e, client h d ≠ NoRequest e) → l = due).
Proof.
  intros Hurls s' due. unfold s', due, webhook_Send, delivery_due.
  change (tell_fallback now event target p ≫= ?f) with (λ s : WebhookService F, f tt (tell_fallback now event target p s).1).
  cbn beta. set (s1 := (tell_fallback now event target p s).1).
  change (get_st ≫= ?f) with (λ s : WebhookService F, f s s). cbn beta.
  change (ws_urls s1) with (ws_urls s). change (ws_secret s1) with (ws_secret s). rewrite <- Hurls.
  destruct (ws_urls s !! target) as [url|]; cbn [mbind option_bind].
  2: { split_and!; [done..|]. exists []. by rewrite app_nil_r. }
  destruct (WebhookPayload now event target p) as [wp|]; cbn [mbind option_bind].
  2: { split_and!; [done..|]. exists []. by rewrite app_nil_r. }
  set (d := mkDelivery _ _ _). destruct (post_delivery_log d s1) as (l & Hl & Hu & Hs & Hsub & Hall).
  split_and!; [done..|]. exists l. split_and!; [done|done|]. intros Hc. apply Hall. intros e. apply Hc.
Qed.

Lemma hooks_agree secret ops : ∀ before r s, rg_svc r = Some s → ws_urls s = rg_regs r → ws_secret s = secret →
  (∀ t, rg_regs r !! t = registered_url before t) →
  let r' := foldl hook_op r ops in ∃ s', rg_svc r' = Some s' ∧ ws_urls s' = rg_regs r' ∧
    (∀ t, rg_regs r' !! t = registered_url (before ++ ops) t) ∧
    ∃ l, ws_log s' = ws_log s ++ l ∧ sublist l (deliveries_due secret before ops) ∧
      ((∀ h d e, client h d ≠ NoRequest e) → l = deliveries_due secret before ops).
Proof.
  induction ops as [|op ops IH]; intros before r s Hs Hu Hk Hr; cbn [foldl deliveries_due].
  { exists s. rewrite app_nil_r. split_and!; [done..|]. exists []. by rewrite app_nil_r. }
  assert (Hstep : ∃ s1 l1, rg_svc (hook_op r op) = Some s1 ∧ ws_urls s1 = rg_regs (hook_op r op) ∧
    ws_secret s1 = secret ∧ (∀ t, rg_regs (hook_op r op) !! t = registered_url (before ++ [op]) t) ∧
    ws_log s1 = ws_log s ++ l1 ∧ sublist l1 (option_list (delivery_due secret before op)) ∧
    ((∀ h d e, client h d ≠ NoRequest e) → l1 = option_list (delivery_due secret before op))).
  { destruct op as [target url|target|now event target p]; cbn [hook_op]; unfold registry_Register, registry_Unregister;
      cbn [rg_svc rg_regs]; rewrite Hs; cbn [fmap option_fmap option_map].
    - eexists _, []. rewrite app_nil_r. split_and!; [reflexivity|cbn; by rewrite Hu|done| |done..].
      intros t. rewrite registered_later. cbn [about]. destruct (String.eqb_spec target t) as [->|Hne].
      + apply lookup_insert_eq.
      + rewrite lookup_insert_ne by done. apply Hr.
    - eexists _, []. rewrite app_nil_r. split_and!; [reflexivity|cbn; by rewrite Hu|done| |done..].
      intros t. rewrite registered_later. cbn [about]. destruct (String.eqb_spec target t) as [->|Hne].
      + apply lookup_delete_eq.
      + rewrite lookup_delete_ne by done. apply Hr.
    - destruct (send_log now event target p before s) as (Hu1 & Hk1 & l1 & Hl1 & Hsub & Hall); [by rewrite Hu|].
      rewrite Hk in Hsub, Hall. eexists _, l1. split_and!; [reflexivity|by rewrite Hu1|by rewrite Hk1| |done..].
      intros t. rewrite registered_later. apply Hr. }
  destruct Hstep as (s1 & l1 & Hs1 & Hu1 & Hk1 & Hr1 & Hl1 & Hsub1 & Hall1).
  destruct (IH _ _ _ Hs1 Hu1 Hk1 Hr1) as (s2 & Hs2 & Hu2 & Hr2 & l2 & Hl2 & Hsub2 & Hall2).
  exists s2. split_and!; [done..| |].
  { intros t. rewrite Hr2. by rewrite <- app_assoc. }
  exists (l1 ++ l2). rewrite Hl2, Hl1, app_assoc. split_and!; [done|by apply sublist_app|].
  intros Hc. by rewrite Hall1, Hall2.
Qed.
End deliveries.

(** C21. Whatever is registered, taken back and notified, in whatever order: the registry and
    the service behind it agree, the address of a target is the one last registered
    for it unless it was taken back since, and the deliveries are, in order, one for
    each notification whose target had an address then, to that address, with the body
    of that notification and, where there is a secret, its signature; only an address
    that is no URL is passed over. *)
Theorem deliveries_follow_registrations {F} `{!Service F} marshal client secret (fallback : option F) ops :
  let r := foldl (hook_op marshal client) (NewRegistry (Some (NewWebhookService secret fallback))) ops in
  ∃ s, rg_svc r = Some s ∧ ws_urls s = rg_regs r ∧
    (∀ target, registry_Get target r = (λ url, (target, url)) <$> registered_url ops target) ∧
    sublist (ws_log s) (deliveries_due marshal secret [] ops) ∧
    ((∀ h d e, client h d ≠ NoRequest e) → ws_log s = deliveries_due marshal secret [] ops).
Proof.
  intros r. destruct (hooks_agree marshal client secret ops [] (NewRegistry (Some (NewWebhookService secret fallback)))
    (NewWebhookService secret fallback)) as (s & Hs & Hu & Hr & l & Hl & Hsub & Hall); [done..| |].
  { intros t. apply lookup_empty. }
  exists s. cbn [ws_log NewWebhookService app] in Hl. rewrite Hl. split_and!; [done|done| |done|done].
  intros target. unfold registry_Get. fold r in Hr. rewrite Hr. cbn [app]. by destruct (registered_url ops target).
Qed.

Definition two_notices : list notice :=
  [(0, "order.created", "org_1", []); (1, "order.rated", "org_2", [("orderId", VStr "ord_1")])].
Lemma notices_told_apart_to_55248_witness :
  NoDup (no_ID <$> ms_data (foldl log_notice NewInMemoryService two_notices)).
Proof.
  apply (proj2 (notices_told_apart_to_55248 two_notices ltac:(vm_compute; discriminate))).
  vm_compute. discriminate.
Defined.
(** A registered address is told, a taken back one is not. *)
Example told_while_registered :
  length (deliveries_due (λ _, "{}") "k" [] [Registers "org_1" "http://a"; Registers "org_1" "http://b";
    Notifies 0 "order.created" "org_1" []; Unregisters "org_1"; Notifies 0 "order.created" "org_1" []]) = 1%nat.
Proof. vm_compute. reflexivity. Qed.

(** * Who hears of an organization (internal/gateway/server.go over internal/notifications)

    The notifier of the gateway hands what the platform notifies to the webhooks that
    were registered with it.  It signs nothing, and a registration is open to everybody
    who has a session. *)

(** The service behind the gateway's registry: it has no secret and no fallback, and by
    [deliveries_follow_registrations] its addresses are those of the registry. *)
Definition gateway_hooks `{Storage} {L} (g : Gateway L) : WebhookService InMemoryService :=
  mkWebhooks (gw_webhooks g) "" None [].
(** [webhookNotifierAdapter.Send], for a notification of the platform. *)
Definition adapter_Send (marshal : json → string) (client : list Delivery → Delivery → Delivered)
    (now : Time) (n : Notification) : ST (WebhookService InMemoryService) () :=
  webhook_Send marshal client now (nt_event n) (nt_target n) (nt_payload n).

(** Everybody with a session hears of everybody: an actor of any organization, or of
    none, registers an address of its own for any other organization, and whatever the
    platform then notifies that organization of is posted to that address, with its
    payload and without a signature. *)
Theorem strangers_can_listen `{Storage} {L} (c : GatewayConfig L) (iam : nat → string → result Actor) r
    (g : Gateway L) token actor target url :
  gc_auth c = Some iam → gw_actor g = None → bearerToken (rq_Header r "Authorization") = Some token →
  iam (gw_actor_calls g) token = Ok actor → decode decode_webhook r = Ok (target, url) →
  target ≠ "" → url ≠ "" →
  ∃ g', handleRegisterWebhook c r g = (g', Ok (created (GStatus "registered"))) ∧
    ∀ marshal client now n wp, nt_target n = target →
      WebhookPayload now (nt_event n) target (nt_payload n) = Some wp →
      (∀ d e, client [] d ≠ NoRequest e) →
      ws_log (adapter_Send marshal client now n (gateway_hooks g')).1 =
        [mkDelivery url [("Content-Type", "application/json"); ("X-1Tok-Event", nt_event n)] (marshal wp)].
Proof.
  intros Hauth Hnone Ht Hi Hd Htarget Hurl.
  set (g1 := g <| gw_actor_calls ::= S |> <| gw_actor := Some actor |>).
  exists (g1 <| gw_webhooks ::= <[target := url]> |>). split.
  - assert (Ha : authenticate c r g = (g1, Ok tt)).
    { unfold authenticate, authenticatedActor, GetActor, no_auth. rewrite Hauth. unfold mbind, st_bind, get_st.
      rewrite Hnone, Ht, Hi. done. }
    unfold handleRegisterWebhook, or_respond. unfold mbind, st_bind, attempt, lift. rewrite Ha, Hd.
    apply String.eqb_neq in Htarget, Hurl. cbn [fst snd]. by rewrite Htarget, Hurl.
  - intros marshal client now n wp <- Hwp Hc. unfold adapter_Send, webhook_Send, tell_fallback, modify.
    unfold mbind, st_bind, get_st. cbn -[WebhookPayload]. rewrite lookup_insert_eq, Hwp. unfold post_delivery. cbn.
    destruct (client _ _) as [e|e|status] eqn:Hcl; [|done|done]. by apply Hc in Hcl.
Qed.

(** Pat, of the provider p1, listens to what the buyer is told. *)
Definition pat_listens : Request :=
  request_as "pat" "" "POST" "/api/v1/webhooks"
    (Some (JObj [("target", JStr "buyer"); ("url", JStr "http://pat")])).
Definition listened : Gateway () := (handleRegisterWebhook demo_config pat_listens demo_gateway).1.
Definition settled_notice : Notification := mkNotification "milestone.settled" "buyer" [("orderId", VStr "ord_1")].
Lemma strangers_can_listen_witness : ∃ g' body,
  handleRegisterWebhook demo_config pat_listens demo_gateway = (g', Ok (created (GStatus "registered"))) ∧
  ws_log (adapter_Send (λ _, "text") (λ _ _, Answered 200) 0 settled_notice (gateway_hooks g')).1 =
    [mkDelivery "http://pat" [("Content-Type", "application/json"); ("X-1Tok-Event", "milestone.settled")] body].
Proof.
  destruct (strangers_can_listen demo_config demo_iam pat_listens demo_gateway "pat" pat "buyer" "http://pat"
    eq_refl eq_refl ltac:(vm_compute; reflexivity) eq_refl ltac:(vm_compute; reflexivity) ltac:(discriminate)
    ltac:(discriminate)) as (g' & Hr & Hd).
  exists g', "text". split; [exact Hr|].
  apply (Hd (λ _, "text") (λ _ _, Answered 200) 0 settled_notice _ eq_refl (proj2_sig
    (ltac:(eexists; vm_compute; reflexivity) : {wp | WebhookPayload 0 "milestone.settled" "buyer" [("orderId", VStr "ord_1")] = Some wp}))).
  by intros d e.
Defined.
