(* ===== verification/Discord.v ===== *)
(** * The Discord bot (internal/discord)

    Interactions and their signature, the slash commands over the platform, what is
    shown of it, and the messages its events are pushed as.  The check of an Ed25519
    signature, the parsing of a text as JSON and the text of a float that is not a small
    integer are parameters; an answer holds the response that is encoded. *)

From Stdlib Require Import Ascii SpecFloat.
From stdpp Require Import sorting.
From S2P Require Import Prelude GoNum GoText GoFloat Core GoTime Market Repo MemoryRepo App Orders.
From S2P Require Import Bidding Directory SettlementLedger Credit Http Fnn.

(** ** Interactions *)

Definition InteractionPing : Z := 1.
Definition InteractionApplicationCommand : Z := 2.
Definition ResponsePong : Z := 1.
Definition ResponseChannelMessage : Z := 4.

Record InteractionOption := mkOption { io_Name : string; io_Value : json }.
Record InteractionData := mkInteractionData { id_Name : string; id_Options : list InteractionOption }.
Record Interaction := mkInteraction { in_Type : Z; in_Data : InteractionData }.

Record EmbedField := mkEmbedField { ef_Name : string; ef_Value : string; ef_Inline : bool }.
Record Embed := mkEmbed {
  em_Title : string;
  em_Description : string;
  em_Color : Z;
  em_Fields : list EmbedField;
}.
Record InteractionResponseData := mkResponseData { rd_Content : string; rd_Embeds : list Embed }.
Record InteractionResponse := mkResponse { ir_Type : Z; ir_Data : option InteractionResponseData }.

Definition decode_option (v : json) : option InteractionOption :=
  f ← as_object v; n ← string_field "name" f; x ← decode_field JNull Some "value" f; Some (mkOption n x).
Definition decode_interaction (body : option json) : option Interaction :=
  f ← body_fields body; t ← int_field "type" f; d ← object_field "data" f; n ← string_field "name" d;
  o ← decode_field [] (as_list (mkOption "" JNull) decode_option) "options" d;
  Some (mkInteraction t (mkInteractionData n o)).

Definition TextResponse (content : string) : InteractionResponse :=
  mkResponse ResponseChannelMessage (Some (mkResponseData content [])).
Definition EmbedResponse (embeds : list Embed) : InteractionResponse :=
  mkResponse ResponseChannelMessage (Some (mkResponseData "" embeds)).

(** ** The bot *)

Definition CommandHandler : Type := InteractionData → InteractionResponse.
Record Bot := mkBot { bot_publicKey : option (list Z); bot_commands : list (string * CommandHandler) }.
Definition PublicKeySize : nat := 32.
Definition NewBot (publicKeyHex : string) : result Bot :=
  match hex_decode publicKeyHex with
  | Err e => Err (EPrefix "invalid public key" e)
  | Ok key =>
      if negb (Nat.eqb (length key) PublicKeySize)
      then Err (Errf ("public key must be " +:+ pretty (Z.of_nat PublicKeySize) +:+ " bytes"))
      else Ok (mkBot (Some key) [])
  end.
Definition NewBotWithoutVerification : Bot := mkBot None [].
(** The handler last registered under a name counts. *)
Definition Register (name : string) (handler : CommandHandler) (b : Bot) : Bot :=
  mkBot (bot_publicKey b) ((name, handler) :: bot_commands b).
Definition handleCommand (b : Bot) (data : InteractionData) : InteractionResponse :=
  match List.find (λ c, String.eqb c.1 (id_Name data)) (bot_commands b) with
  | Some (_, handler) => handler data
  | None => TextResponse ("Unknown command: " +:+ id_Name data)
  end.

Record BotRequest := mkBotRequest { br_Header : string → string; br_Body : result string }.
Inductive BotAnswer := Refused (status : Z) (text : string) | Replied (response : InteractionResponse).
Definition body_limit : Z := 1048576.
Definition limited (body : string) : string :=
  if Z.of_nat (String.length body) <=? body_limit then body else String.substring 0 (Z.to_nat body_limit) body.

Section bot.
Context (parse : string → option json) (ed25519_Verify : list Z → string → list Z → bool).

Definition verifySignature (key : list Z) (signatureHex timestamp body : string) : bool :=
  match hex_decode signatureHex with
  | Err _ => false
  | Ok signature => ed25519_Verify key (timestamp +:+ body) signature
  end.
Definition signature_ok (b : Bot) (r : BotRequest) (body : string) : bool :=
  match bot_publicKey b with
  | None => true
  | Some key =>
      verifySignature key (br_Header r "X-Signature-Ed25519") (br_Header r "X-Signature-Timestamp") body
  end.
Definition HandleInteraction (b : Bot) (r : BotRequest) : BotAnswer :=
  match limited <$> br_Body r with
  | Err _ => Refused StatusBadRequest "bad request"
  | Ok body =>
      if negb (signature_ok b r body) then Refused StatusUnauthorized "invalid signature"
      else match v ← parse body; decode_interaction (Some v) with
           | None => Refused StatusBadRequest "bad request"
           | Some interaction =>
               if in_Type interaction =? InteractionPing then Replied (mkResponse ResponsePong None)
               else if in_Type interaction =? InteractionApplicationCommand
               then Replied (handleCommand b (in_Data interaction))
               else Refused StatusBadRequest "unknown interaction type"
           end
  end.
End bot.

(** ** Text of values *)

(** [fmt.Sprintf("%.1f", x)] *)
Definition fmt_1f (x : float64) : string :=
  match x with
  | S754_nan => "NaN"
  | S754_infinity s => if s then "-Inf" else "+Inf"
  | S754_zero s => (if s then "-" else "") +:+ "0.0"
  | S754_finite s m e =>
      let tenths := if e <? 0 then round_half_even (Zpos m * 10) (2 ^ (- e)) else Zpos m * 2 ^ e * 10 in
      (if s then "-" else "") +:+ pretty (tenths / 10) +:+ "." +:+ pretty (tenths mod 10)
  end.
Definition key_le (a b : string * string) : Prop := String.leb a.1 b.1 = true.
#[export] Instance key_le_dec : RelDecision key_le.
Proof. intros a b. unfold key_le. apply _. Defined.
Definition bracketed (l : list string) : string := "[" +:+ Join " " l +:+ "]".

Section values.
Context (fmt_float : float64 → string) `{MO : MapOrder}.

(** [fmt.Sprintf("%v", v)] of decoded JSON: numbers are floats, maps are in the order of
    their keys, the last of each. *)
Fixpoint Sprint_v (v : json) : string :=
  match v with
  | JNull => "<nil>"
  | JBool b => if b then "true" else "false"
  | JInt z => if Z.abs z <=? 2 ^ 53 then pretty z else fmt_float (f64_of_int z)
  | JFloat x => fmt_float x
  | JStr s => s
  | JArr l => bracketed (List.map Sprint_v l)
  | JObj fields =>
      let entries := List.map (λ '(k, v), (k, Sprint_v v)) fields in
      let entries := map_to_list (list_to_map (rev entries) : gmap string string) in
      "map[" +:+ Join " " ((λ '(k, v), k +:+ ":" +:+ v) <$> merge_sort key_le entries) +:+ "]"
  end.

Definition GetOptionString (options : list InteractionOption) (name : string) : string :=
  match List.find (λ o, String.eqb (io_Name o) name) options with
  | Some o => Sprint_v (io_Value o)
  | None => ""
  end.
(** An option of the name that is no number is passed over. *)
Fixpoint GetOptionInt (options : list InteractionOption) (name : string) : Z :=
  match options with
  | [] => 0
  | o :: options =>
      match String.eqb (io_Name o) name, io_Value o with
      | true, JInt z => f64_to_int64 (f64_of_int z)
      | true, JFloat x => f64_to_int64 x
      | _, _ => GetOptionInt options name
      end
  end.

(** ** Built-in commands *)

Record SlashCommandDef := mkSlashCommand { sc_Name : string; sc_Description : string; sc_Type : Z }.
Definition BuiltinCommands : list SlashCommandDef :=
  [mkSlashCommand "listings" "Browse available agent listings" 1;
   mkSlashCommand "rfq-create" "Create a new Request for Quote" 1;
   mkSlashCommand "rfq-status" "Check status of an RFQ" 1;
   mkSlashCommand "bids" "View bids on an RFQ" 1;
   mkSlashCommand "award" "Award an RFQ to a bid" 1;
   mkSlashCommand "order-status" "Check order status" 1;
   mkSlashCommand "stats" "View marketplace statistics" 1;
   mkSlashCommand "leaderboard" "View provider leaderboard" 1].

Record ListingView := mkListingView {
  lv_ID : string;
  lv_Title : string;
  lv_Category : string;
  lv_PriceCents : Z;
  lv_Tags : list string;
}.
Definition blue : Z := 5793266.
Definition FormatListings (listings : list ListingView) : Embed :=
  match listings with
  | [] => mkEmbed "📋 Listings" "No listings found." blue []
  | _ => mkEmbed "📋 Listings" "" blue
      ((λ l, mkEmbedField (lv_Title l)
         ("💰 " +:+ pretty (lv_PriceCents l) +:+ " cents | 📂 " +:+ lv_Category l +:+
          match lv_Tags l with [] => "" | tags => " | " +:+ Join ", " tags end) false) <$> listings)
  end.

(** ** The marketplace bot *)

Section marketplace.
Context `{Storage} (a : App).

Definition shown_error (e : error) : InteractionResponse := TextResponse ("❌ Error: " +:+ error_text e).
Definition handleListings : CommandHandler := λ data,
  let option_ := GetOptionString (id_Options data) in
  let tag := option_ "tag" in
  match SearchListings (mkListListingsInput (option_ "q") (option_ "category")
          (if String.eqb tag "" then [] else [tag]) "" 0 0) a with
  | Err e => shown_error e
  | Ok listings => EmbedResponse [FormatListings
      ((λ l, mkListingView (l_ID l) (l_Title l) (l_Category l) (l_BasePriceCents l) (l_Tags l)) <$> listings)]
  end.

Definition inline (name value : string) : EmbedField := mkEmbedField name value true.
Definition aside (name value : string) : EmbedField := mkEmbedField name value false.
Definition status_color (s : OrderStatus) : Z :=
  let text := order_status_string s in
  if String.eqb text "completed" then 5763719
  else if String.eqb text "awaiting_budget" then 16705372
  else if String.eqb text "disputed" then 15548997 else blue.
Definition milestone_field (ms : Milestone) : EmbedField :=
  aside ("📌 " +:+ ms_Title ms)
    ("State: " +:+ milestone_state_string (ms_State ms) +:+ " | Budget: " +:+ pretty (ms_BudgetCents ms) +:+
     "¢ | Settled: " +:+ pretty (ms_SettledCents ms) +:+ "¢").
Definition handleOrderStatus : CommandHandler := λ data,
  let orderID := GetOptionString (id_Options data) "order_id" in
  if String.eqb orderID "" then TextResponse "❌ Please provide an order_id"
  else match order_Get orderID (orders a) with
  | Err _ => TextResponse ("❌ Order not found: " +:+ orderID)
  | Ok order => EmbedResponse [mkEmbed ("📦 Order " +:+ o_ID order) "" (status_color (o_Status order))
      ([inline "Status" (order_status_string (o_Status order)); inline "Buyer" (o_BuyerOrgID order);
        inline "Provider" (o_ProviderOrgID order); inline "Funding" (o_FundingMode order)]
       ++ (milestone_field <$> o_Milestones order))]
  end.

Definition handleRFQStatus : CommandHandler := λ data,
  let rfqID := GetOptionString (id_Options data) "rfq_id" in
  if String.eqb rfqID "" then TextResponse "❌ Please provide an rfq_id"
  else match rfq_Get rfqID (rfqs a) with
  | Err _ => TextResponse ("❌ RFQ not found: " +:+ rfqID)
  | Ok rfq => EmbedResponse [mkEmbed ("📋 RFQ " +:+ rfq_ID rfq) "" blue
      ([inline "Title" (rfq_Title rfq); inline "Status" (rfq_status_string (rfq_Status rfq));
        inline "Category" (rfq_Category rfq); inline "Budget" (pretty (rfq_BudgetCents rfq) +:+ "¢");
        inline "Buyer" (rfq_BuyerOrgID rfq)]
       ++ if String.eqb (rfq_AwardedBidID rfq) "" then []
          else [inline "Awarded To" (rfq_AwardedProviderOrgID rfq)])]
  end.

Definition bid_status_text (s : BidStatus) : string :=
  match s with BidStatusOpen => "open" | BidStatusAwarded => "awarded" | BidStatusRejected => "rejected" end.
Definition bid_field (bid : Bid) : EmbedField :=
  aside (b_ProviderOrgID bid +:+ " — " +:+ bid_status_text (b_Status bid))
    ("💰 " +:+ pretty (b_QuoteCents bid) +:+ "¢ | Milestones: " +:+ Join ", " (bm_Title <$> b_Milestones bid)).
Definition handleBids : CommandHandler := λ data,
  let rfqID := GetOptionString (id_Options data) "rfq_id" in
  if String.eqb rfqID "" then TextResponse "❌ Please provide an rfq_id"
  else match ListBids rfqID a with
  | Err e => shown_error e
  | Ok [] => TextResponse ("No bids yet on RFQ " +:+ rfqID)
  | Ok bids => EmbedResponse [mkEmbed ("📊 Bids on RFQ " +:+ rfqID) "" blue (bid_field <$> bids)]
  end.

Definition handleStats : CommandHandler := λ data,
  match GetMarketplaceStats a with
  | Err e => shown_error e
  | Ok s =>
      let pair_ total open what := pretty total +:+ " total / " +:+ pretty open +:+ what in
      EmbedResponse [mkEmbed "📊 Marketplace Stats" "" blue
        [inline "Providers" (pretty (st_TotalProviders s)); inline "Listings" (pretty (st_TotalListings s));
         inline "RFQs" (pair_ (st_TotalRFQs s) (st_OpenRFQs s) " open");
         inline "Orders" (pair_ (st_TotalOrders s) (st_ActiveOrders s) " active");
         inline "Disputes" (pair_ (st_TotalDisputes s) (st_OpenDisputes s) " open");
         inline "Avg Rating" (if 0 <? st_TotalRatings s then fmt_1f (st_AverageRating s) +:+ " ⭐" else "—")]]
  end.

Definition medal (rank : nat) : string :=
  match rank with 0 => "🥇 " | 1 => "🥈 " | 2 => "🥉 " | _ => "" end%nat.
Definition leader_field (rank : nat) (e : LeaderboardEntry) : EmbedField :=
  aside (medal rank +:+ lb_Name e)
    ((if 0 <? lb_RatingCount e then fmt_1f (lb_Rating e) +:+ "⭐ (" +:+ pretty (lb_RatingCount e) +:+ ")" else "—")
     +:+ " | " +:+ pretty (lb_TotalOrders e) +:+ " orders | " +:+ lb_ReputationTier e).
Definition handleLeaderboard : CommandHandler := λ data,
  match GetProviderLeaderboard a with
  | Err e => shown_error e
  | Ok [] => TextResponse "No providers yet."
  | Ok entries => EmbedResponse [mkEmbed "🏆 Provider Leaderboard" "" 16705372 (imap leader_field entries)]
  end.

Definition registerCommands (b : Bot) : Bot :=
  Register "leaderboard" handleLeaderboard (Register "stats" handleStats (Register "bids" handleBids
    (Register "rfq-status" handleRFQStatus (Register "order-status" handleOrderStatus
      (Register "listings" handleListings b))))).
Definition NewMarketplaceBot : Bot := registerCommands NewBotWithoutVerification.
End marketplace.

(** ** Pushed events *)

(** [%v] of a payload's value; a time is in UTC, without a monotonic reading. *)
Definition FormatTime (t : Time) : string :=
  let clock := t mod day_ns / second_ns in
  let frac := t mod second_ns in
  FormatDate t +:+ " " +:+ padded 2 (clock / 3600) +:+ ":" +:+ padded 2 (clock / 60 mod 60) +:+ ":" +:+
  padded 2 (clock mod 60) +:+ (if frac =? 0 then "" else "." +:+ TrimRight "0" (padded 9 frac)) +:+ " +0000 UTC".
Definition value_text (v : value) : string :=
  match v with VStr s => s | VInt z => pretty z | VTime t => FormatTime t | VStrs l => bracketed l end.
Definition payload_text (p : payload) (key : string) : string :=
  match List.find (λ kv, String.eqb kv.1 key) p with Some (_, v) => value_text v | None => "<nil>" end.
Definition newline : string := String (ascii_of_nat 10) "".
Definition FormatEvent (event : string) (p : payload) : string :=
  let at_ := payload_text p in
  if String.eqb event "order.created" then
    "📦 **New Order** `" +:+ at_ "orderId" +:+ "`" +:+ newline +:+ "Buyer: " +:+ at_ "buyerOrgId" +:+
    " | Provider: " +:+ at_ "providerOrgId"
  else if String.eqb event "milestone.settled" then
    "✅ **Milestone Settled** Order `" +:+ at_ "orderId" +:+ "` / `" +:+ at_ "milestoneId" +:+ "`"
  else if String.eqb event "dispute.opened" then
    "⚠️ **Dispute Opened** Order `" +:+ at_ "orderId" +:+ "` / `" +:+ at_ "milestoneId" +:+ "`"
  else if String.eqb event "dispute.resolved" then
    "🤝 **Dispute Resolved** `" +:+ at_ "disputeId" +:+ "` — " +:+ at_ "resolution"
  else if String.eqb event "order.completed" then "🎉 **Order Completed** `" +:+ at_ "orderId" +:+ "`"
  else if String.eqb event "order.rated" then
    "⭐ **Order Rated** `" +:+ at_ "orderId" +:+ "` — Score: " +:+ at_ "score"
  else if String.eqb event "budget_wall.hit" then
    "🚧 **Budget Wall** Order `" +:+ at_ "orderId" +:+ "` / `" +:+ at_ "milestoneId" +:+ "` — needs top-up"
  else if String.eqb event "rfq.awarded" then
    "🏆 **RFQ Awarded** `" +:+ at_ "rfqId" +:+ "` → Order `" +:+ at_ "orderId" +:+ "`"
  else
    "📬 **" +:+ event +:+ "**" +:+
    String.concat "" ((λ kv, newline +:+ kv.1 +:+ ": " +:+ value_text kv.2) <$> map_order p).

(** [PushNotifier]: what it sends is written to a log; [None] is a nil sender. *)
Record PushNotifier := mkPush { pn_Send : option (string → string → option error); pn_DefaultChannelID : string }.
Definition Notify (p : PushNotifier) (event : string) (data : payload) : ST (list (string * string)) () :=
  match pn_Send p with
  | None => mret tt
  | Some send =>
      let channel := pn_DefaultChannelID p in
      if String.eqb channel "" then mret tt
      else
        let message := FormatEvent event data in
        _ ← modify (λ sent, sent ++ [(channel, message)]);
        match send channel message with None => mret tt | Some e => throw e end
  end.
End values.

(** ** Properties *)

(** A bot that was given a key answers an interaction only when the signature header is
    the hexadecimal text of an Ed25519 signature by that key, of 32 bytes, over the time
    header and the body, whatever commands it has; otherwise it refuses before it reads
    the interaction.  The marketplace's bot has no key: what it answers depends on the
    body alone, whoever sent it. *)
Theorem keyed_bots_check_signatures parse verify publicKeyHex (b : Bot) commands r answer :
  NewBot publicKeyHex = Ok b →
  HandleInteraction parse verify (foldl (λ b c, Register c.1 c.2 b) b commands) r = answer →
  (∃ key, hex_decode publicKeyHex = Ok key ∧ length key = 32%nat ∧
    ((∃ response, answer = Replied response) →
       ∃ body signature, br_Body r = Ok body ∧ hex_decode (br_Header r "X-Signature-Ed25519") = Ok signature ∧
         verify key (br_Header r "X-Signature-Timestamp" +:+ limited body) signature = true)) ∧
  (∀ fmt `(Storage) (a : App) header header' body,
     HandleInteraction parse verify (NewMarketplaceBot fmt a) (mkBotRequest header body) =
     HandleInteraction parse verify (NewMarketplaceBot fmt a) (mkBotRequest header' body)).
Proof.
  intros Hb Ha. split; [|done]. unfold NewBot in Hb. destruct (hex_decode publicKeyHex) as [key|e] eqn:Hk; [|done].
  destruct (Nat.eqb_spec (length key) PublicKeySize) as [Hlen|]; cbn [negb] in Hb; [|done]. injection Hb as <-.
  assert (Hkey : bot_publicKey (foldl (λ b c, Register c.1 c.2 b) (mkBot (Some key) []) commands) = Some key).
  { clear. set (b := mkBot (Some key) []). assert (Hb : bot_publicKey b = Some key) by done. clearbody b.
    revert b Hb. induction commands as [|c commands IH]; intros b Hb; [done|]. cbn [foldl]. by apply IH. }
  exists key. split_and!; [done..|]. intros [response ->]. unfold HandleInteraction, signature_ok in Ha.
  rewrite Hkey in Ha. destruct (br_Body r) as [body|e]; [|done]. cbn [fmap result_fmap] in Ha.
  destruct (verifySignature _ _ _ _ _) eqn:Hv; cbn [negb] in Ha; [|done].
  unfold verifySignature in Hv. destruct (hex_decode (br_Header r _)) as [signature|e]; [|done].
  by exists body, signature.
Qed.

Definition is_text (P : string → Prop) (r : InteractionResponse) : Prop := ∃ text, r = TextResponse text ∧ P text.
Definition unknown_command (name : string) : InteractionResponse := TextResponse ("Unknown command: " +:+ name).
Lemma texts_differ c d s t : c ≠ d → TextResponse (String c s) ≠ TextResponse (String d t).
Proof. intros Hc [= ? _]. done. Qed.
Section answers.
Context (fmt : float64 → string) `{Storage} (a : App).
Abbreviation known h := (∀ data name, h data ≠ unknown_command name).
Lemma listings_known : known (handleListings fmt a).
Proof. intros data name. unfold handleListings. by destruct (SearchListings _ a). Qed.
Lemma order_status_known : known (handleOrderStatus fmt a).
Proof. intros data name. unfold handleOrderStatus. destruct (String.eqb _ _); [done|]. by destruct (order_Get _ _). Qed.
Lemma rfq_status_known : known (handleRFQStatus fmt a).
Proof. intros data name. unfold handleRFQStatus. destruct (String.eqb _ _); [done|]. by destruct (rfq_Get _ _). Qed.
Lemma bids_known : known (handleBids fmt a).
Proof.
  intros data name. unfold handleBids. destruct (String.eqb _ _); [done|]. by destruct (ListBids _ a) as [[]|].
Qed.
Lemma stats_known : known (handleStats a).
Proof. intros data name. unfold handleStats. by destruct (GetMarketplaceStats a). Qed.
Lemma leaderboard_known : known (handleLeaderboard a).
Proof. intros data name. unfold handleLeaderboard. by destruct (GetProviderLeaderboard a) as [[]|]. Qed.
End answers.

(** Of the eight commands that are advertised the marketplace's bot answers six; the two
    that would change something, rfq-create and award, are answered as unknown, and no
    other command of any name is answered. *)
Theorem advertised_commands_unanswered fmt `{Storage} (a : App) data :
  (∃ c, c ∈ BuiltinCommands ∧ sc_Name c = id_Name data ∧ id_Name data ∉ ["rfq-create"; "award"]) ↔
  handleCommand (NewMarketplaceBot fmt a) data ≠ unknown_command (id_Name data).
Proof.
  destruct data as [name options]. cbn [id_Name]. set (data := mkInteractionData name options). unfold handleCommand.
  cbn [bot_commands NewMarketplaceBot registerCommands Register NewBotWithoutVerification List.find fst id_Name data].
  assert (Hb : ∀ known_name, known_name ∈ sc_Name <$> BuiltinCommands → known_name ∉ ["rfq-create"; "award"] →
    ∃ c, c ∈ BuiltinCommands ∧ sc_Name c = known_name ∧ known_name ∉ ["rfq-create"; "award"]).
  { intros k (c & -> & Hc)%list_elem_of_fmap Hk. by exists c. }
  assert (Hneq : ∀ x y : string, String.eqb x y = true → y = x) by (intros x y He; by apply String.eqb_eq in He).
  destruct (String.eqb "leaderboard" name) eqn:E1; [apply Hneq in E1 as ->|
  destruct (String.eqb "stats" name) eqn:E2; [apply Hneq in E2 as ->|
  destruct (String.eqb "bids" name) eqn:E3; [apply Hneq in E3 as ->|
  destruct (String.eqb "rfq-status" name) eqn:E4; [apply Hneq in E4 as ->|
  destruct (String.eqb "order-status" name) eqn:E5; [apply Hneq in E5 as ->|
  destruct (String.eqb "listings" name) eqn:E6; [apply Hneq in E6 as ->|]]]]]].
  7: { split; [|done]. intros (c & Hc & Hn & Hno). exfalso. apply String.eqb_neq in E1, E2, E3, E4, E5, E6.
       clear data Hb Hneq. subst name. revert Hno E1 E2 E3 E4 E5 E6. revert c Hc. refine (proj1 (Forall_forall _ _) _).
       unfold BuiltinCommands. repeat (apply Forall_cons; split; [cbn [sc_Name]; intros Hno; intros;
         first [congruence|by apply Hno, list_elem_of_here|by apply Hno, list_elem_of_further, list_elem_of_here]|]).
       by apply Forall_nil. }
  all: split; [intros _|intros _; apply Hb; [by repeat first [apply list_elem_of_here|apply list_elem_of_further]|
    by rewrite !elem_of_cons, elem_of_nil; intros [|[|]]]].
  - apply leaderboard_known.
  - apply stats_known.
  - apply bids_known.
  - apply rfq_status_known.
  - apply order_status_known.
  - apply listings_known.
Qed.

(** What is pushed when an order is created. *)
Definition new_order_push (id : string) : string :=
  "📦 **New Order** `" +:+ id +:+ "`" +:+ newline +:+ "Buyer: <nil> | Provider: <nil>".
Definition created_notice (id target : string) : Notification :=
  mkNotification "order.created" target [("orderId", VStr id)].

(** An order's creation is pushed without its parties: the platform tells buyer and
    provider of it with the order's identifier alone, and the message for that names
    neither of them, whoever they are. *)
Theorem new_orders_are_pushed_without_parties `{Storage} `{MapOrder} input (a a' : App) order :
  CreateOrder input a = (a', Ok order) → notifier a = true →
  ∃ sent id, ext_sent (ext a') =
      sent ++ [created_notice id (coi_BuyerOrgID input); created_notice id (coi_ProviderOrgID input)] ∧
    (∀ n, n ∈ [created_notice id (coi_BuyerOrgID input); created_notice id (coi_ProviderOrgID input)] →
       FormatEvent (nt_event n) (nt_payload n) = new_order_push id).
Proof.
  unfold CreateOrder. intros (a1 & [] & [_ ->]%fail_if_Ok & (a2 & [] & Hc & (a3 & id & Hid & (a4 & [] & Hs &
    (a5 & [] & Hp & (a6 & [] & Hn1 & (a7 & [] & Hn2 & Hg)%bind_Ok)%bind_Ok)%bind_Ok)%bind_Ok)%bind_Ok)%bind_Ok)%bind_Ok Hn.
  assert (E2 : a2 = a).
  { destruct (String.eqb _ _); [|by injection Hc]. unfold CheckCreditAvailability in Hc.
    apply bind_Ok in Hc as (b & x & [= <- <-] & Hc). destruct (creditLimits a !! _); [|by injection Hc].
    by apply fail_if_Ok in Hc as [_ ->]. }
  subst a2.
  assert (E3 : notifier a3 = true).
  { revert Hid. unfold on_orders, zoom. destruct (order_NextID (orders a)). by intros [= <- _]. }
  assert (E4 : notifier a4 = true).
  { revert Hs. unfold on_orders, zoom. destruct (order_Save _ (orders a3)). by intros [= <- _]. }
  assert (E5 : notifier a5 = true).
  { revert Hp. unfold publish. by intros [= <- _]. }
  unfold notify in Hn1. rewrite E5 in Hn1. injection Hn1 as <-. unfold notify in Hn2.
  cbn [notifier ext] in Hn2. rewrite E5 in Hn2. injection Hn2 as <-.
  unfold query in Hg. injection Hg as <- _.
  exists (ext_sent (ext a5)), (o_ID (new_order id input)). split.
  - cbn. by rewrite <- app_assoc.
  - intros n Hin. assert (He : nt_event n = "order.created" ∧ nt_payload n = [("orderId", VStr (o_ID (new_order id input)))]).
    { apply elem_of_cons in Hin as [->|Hin]; [done|]. by apply list_elem_of_singleton in Hin as ->. }
    destruct He as [-> ->]. reflexivity.
Qed.

(** ** Runs *)

(** A notified platform creates an order. *)
Definition notified_app : App := demo_app <| notifier := true |>.
Definition notified_run : App * result Order := CreateOrder demo_order_input notified_app.
Definition notified_order : Order := new_order "ord_1" demo_order_input.
Lemma new_orders_are_pushed_without_parties_witness : ∃ sent id,
  ext_sent (ext notified_run.1) = sent ++ [created_notice id "buyer"; created_notice id "p1"] ∧
  ∀ n, n ∈ [created_notice id "buyer"; created_notice id "p1"] →
    FormatEvent (MO := plain_order) (nt_event n) (nt_payload n) = new_order_push id.
Proof.
  assert (Ho : notified_run.2 = Ok notified_order) by (vm_compute; reflexivity).
  assert (Hr : notified_run = (notified_run.1, Ok notified_order))
    by (rewrite <- Ho; apply surjective_pairing).
  exact (new_orders_are_pushed_without_parties (H0 := plain_order) demo_order_input notified_app notified_run.1
    notified_order Hr eq_refl).
Defined.

(** A bot with a key, and a signature that holds for one text. *)
Definition demo_key_hex : string := String.concat "" (replicate 32 "ab").
Definition demo_verify (_ : list Z) (text : string) (signature : list Z) : bool :=
  String.eqb text "now{}" && bool_decide (signature = [1]).
Definition demo_command (_ : string) : option json :=
  Some (JObj [("type", JInt 2); ("data", JObj [("name", JStr "hello")])]).
Definition demo_greeter : list (string * CommandHandler) := [("hello", λ _, TextResponse "hi")].
Definition demo_header (key : string) : string :=
  if String.eqb key "X-Signature-Ed25519" then "01" else if String.eqb key "X-Signature-Timestamp" then "now" else "".
Definition demo_interaction : BotRequest := mkBotRequest demo_header (Ok "{}").
Definition demo_bot : Bot := mkBot (Some (replicate 32 171)) [].
Lemma keyed_bots_check_signatures_witness :
  HandleInteraction demo_command demo_verify (foldl (λ b c, Register c.1 c.2 b) demo_bot demo_greeter)
    demo_interaction = Replied (TextResponse "hi") ∧
  ∃ key, hex_decode demo_key_hex = Ok key ∧ length key = 32%nat ∧
    ((∃ response, Replied (TextResponse "hi") = Replied response) →
       ∃ body signature, br_Body demo_interaction = Ok body ∧
         hex_decode (br_Header demo_interaction "X-Signature-Ed25519") = Ok signature ∧
         demo_verify key (br_Header demo_interaction "X-Signature-Timestamp" +:+ limited body) signature = true).
Proof.
  assert (Hb : NewBot demo_key_hex = Ok demo_bot) by (vm_compute; reflexivity).
  assert (Hh : HandleInteraction demo_command demo_verify (foldl (λ b c, Register c.1 c.2 b) demo_bot demo_greeter)
    demo_interaction = Replied (TextResponse "hi")) by (vm_compute; reflexivity).
  split; [exact Hh|].
  exact (proj1 (keyed_bots_check_signatures demo_command demo_verify demo_key_hex demo_bot demo_greeter
    demo_interaction _ Hb Hh)).
Defined.
