(* ===== verification/Limits.v ===== *)
(** * Limits from the environment, and how often a password can be guessed
      (internal/ratelimit/service.go, internal/services/iam/server.go)

    The limiter a service is started with: whether it is there at all, and the limits
    and windows the environment overrides.  [getenv] is [os.Getenv].  What the service
    relies on in a store is an interface, [CountingStore], which the in-memory store and
    the script on a Redis server discharge; behind either the identity service lets at
    most twice the configured number of logins to one account through in a window. *)

From Stdlib Require Import Ascii.
From S2P Require Import GoBytes Fnn Prelude GoNum GoText GoFloat RateLimit ClientAddress Http Identity Iam.

(** ** [time.ParseDuration] *)

Definition digit_value (a : ascii) : Z := Z.of_nat (nat_of_ascii a) - 48.
(** Decimal digits up to 2^63, and the rest. *)
Fixpoint leadingInt (x : Z) (s : string) : option (Z * string) :=
  match s with
  | String a s' =>
      if is_digit a then
        if 2 ^ 63 / 10 <? x then None
        else let y := x * 10 + digit_value a in if 2 ^ 63 <? y then None else leadingInt y s'
      else Some (x, s)
  | EmptyString => Some (x, s)
  end.
(** Digits after the point, as many as fit: their number, the power of ten, the rest. *)
Fixpoint leadingFraction (x : Z) (scale : float64) (overflow : bool) (s : string) : Z * float64 * string :=
  match s with
  | String a s' =>
      if is_digit a then
        let y := x * 10 + digit_value a in
        if overflow || ((2 ^ 63 - 1) / 10 <? x) || (2 ^ 63 <? y) then leadingFraction x scale true s'
        else leadingFraction y (f64_mul scale (f64_of_int 10)) false s'
      else (x, scale, s)
  | EmptyString => (x, scale, s)
  end.
(** What comes before the next number. *)
Fixpoint span_unit (s : string) : string * string :=
  match s with
  | String a s' =>
      if is_digit a || Ascii.eqb a "." then ("", s) else let '(u, rest) := span_unit s' in (String a u, rest)
  | EmptyString => ("", "")
  end.
Definition unitMap (u : string) : option Z :=
  if String.eqb u "ns" then Some 1
  else if String.eqb u "us" || String.eqb u "µs" || String.eqb u "μs" then Some 1000
  else if String.eqb u "ms" then Some 1000000
  else if String.eqb u "s" then Some second
  else if String.eqb u "m" then Some minute
  else if String.eqb u "h" then Some hour else None.
Definition guarded {A} (b : bool) (k : option A) : option A := if b then k else None.
(** One number with its unit, in nanoseconds, and the rest. *)
Definition one_duration (s : string) : option (Z * string) :=
  '(v, s1) ← leadingInt 0 s;
  let pre := negb (String.length s =? String.length s1)%nat in
  let '(f, scale, s2, post) :=
    match s1 with
    | String "." s' => let '(f, scale, s2) := leadingFraction 0 (f64_of_int 1) false s' in
                       (f, scale, s2, negb (String.length s' =? String.length s2)%nat)
    | _ => (0, f64_of_int 1, s1, false)
    end in
  guarded (pre || post) (
    let '(u, s3) := span_unit s2 in
    guarded (negb (String.eqb u "")) (
      unit ← unitMap u;
      guarded (v <=? 2 ^ 63 / unit) (
        let w := v * unit +
          (if 0 <? f then f64_to_int64 (f64_mul (f64_of_int f) (f64_div (f64_of_int unit) scale)) else 0) in
        guarded (w <=? 2 ^ 63) (Some (w, s3))))).
(** The sum, on uint64, of at most [fuel] of them. *)
Fixpoint sum_durations (fuel : nat) (d : Z) (s : string) : option Z :=
  if String.eqb s "" then Some d
  else match fuel with
       | O => None
       | S fuel =>
           '(v, rest) ← one_duration s;
           let d := (d + v) mod 2 ^ 64 in
           guarded (d <=? 2 ^ 63) (sum_durations fuel d rest)
       end.
Definition ParseDuration (s : string) : option Duration :=
  let '(negative, rest) :=
    match s with
    | String "-" s' => (true, s')
    | String "+" s' => (false, s')
    | _ => (false, s)
    end in
  if String.eqb rest "0" then Some 0
  else if String.eqb rest "" then None
  else
    d ← sum_durations (String.length rest) 0 rest;
    if negative then Some (neg64 (wrap64 d)) else guarded (d <=? max_int64) (Some d).

Example ParseDuration_ex :
  (ParseDuration <$> ["1h30m"; "1.5s"; "-2ms"; "250µs"; "0"; "10"; "1d"; ".s"; "9223372036854775808ns";
                      "-9223372036854775808ns"; "0.3333333333333333333h"; ""])
  = [Some (90 * minute); Some (1500 * 1000000); Some (-2000000); Some 250000; Some 0; None; None; None; None;
     Some (- 2 ^ 63); Some (20 * minute); None].
Proof. vm_compute. reflexivity. Qed.

(** Every number takes a byte at least, so that the text is fuel enough. *)
Lemma leadingInt_rest x s y rest : leadingInt x s = Some (y, rest) → (String.length rest ≤ String.length s)%nat.
Proof.
  revert x. induction s as [|a s IH]; intros x; cbn [leadingInt]; [by intros [= _ <-]|].
  destruct (is_digit a); [|by intros [= _ <-]]. cbv zeta. repeat case_match; try done.
  intros Hr%IH. cbn. lia.
Qed.
Lemma leadingFraction_rest x scale o s :
  (String.length (leadingFraction x scale o s).2 ≤ String.length s)%nat.
Proof.
  revert x scale o. induction s as [|a s IH]; intros x scale o; cbn [leadingFraction]; [done|].
  destruct (is_digit a); [|done]. cbv zeta.
  destruct (_ || _); cbn [String.length]; (etransitivity; [apply IH|lia]).
Qed.
Lemma span_unit_rest s : (String.length (span_unit s).1 + String.length (span_unit s).2 = String.length s)%nat.
Proof.
  induction s as [|a s IH]; [done|]. cbn [span_unit]. destruct (_ || _); [done|].
  destruct (span_unit s). cbn in *. lia.
Qed.
Lemma one_duration_rest s v rest : one_duration s = Some (v, rest) → (String.length rest < String.length s)%nat.
Proof.
  unfold one_duration, guarded. destruct (leadingInt 0 s) as [[n s1]|] eqn:Hi; [|done]. apply leadingInt_rest in Hi.
  cbn [mbind option_bind]. destruct (match s1 with "" => _ | _ => _ end) as [[[f scale] s2] post] eqn:Hf.
  assert (Hs2 : (String.length s2 ≤ String.length s1)%nat).
  { repeat case_match; simplify_eq; try done. cbn [String.length].
    match goal with H : leadingFraction ?x ?y ?z ?s = _ |- _ => pose proof (leadingFraction_rest x y z s) as Hr; rewrite H in Hr end.
    cbn in Hr. lia. }
  clear Hf. pose proof (span_unit_rest s2) as Hu. destruct (span_unit s2) as [u s3]. cbn [fst snd] in Hu.
  destruct (_ || _); [|done]. destruct (String.eqb_spec u ""); cbn [negb]; [done|].
  destruct u; [done|]. cbn [String.length] in Hu. destruct (unitMap _); [|done]. cbn [mbind option_bind].
  repeat case_match; intros [= _ <-]; lia.
Qed.
Lemma durations_fuel n d s : (String.length s ≤ n)%nat → sum_durations n d s = sum_durations (String.length s) d s.
Proof.
  intros Hn. remember (String.length s) as k eqn:Hk. revert n d s Hk Hn.
  induction k as [k IH] using (well_founded_induction lt_wf). intros n d s -> Hn.
  destruct s as [|a s]; [by destruct n|]. destruct n as [|n]; [cbn in Hn; lia|]. cbn [sum_durations String.length String.eqb].
  destruct (one_duration (String a s)) as [[v rest]|] eqn:Ho; [|done]. cbn [mbind option_bind].
  apply one_duration_rest in Ho. cbn [String.length] in Ho, Hn. unfold guarded. cbv zeta. case_match; [|done].
  rewrite (IH (String.length rest) ltac:(cbn; lia) n _ rest) by (done || lia).
  by rewrite (IH (String.length rest) ltac:(cbn; lia) (String.length s) _ rest) by (done || lia).
Qed.

(** ** The service of the environment *)

(** A value for a byte: [strings.NewReplacer(".", "_")]. *)
Fixpoint dots_to_underscores (s : string) : string :=
  match s with
  | EmptyString => ""
  | String a s' => String (if Ascii.eqb a "." then "_" else a) (dots_to_underscores s')
  end.
Definition policy_prefix (p : Policy) : string :=
  "RATE_LIMIT_" +:+ ToUpper (dots_to_underscores (policy_string p)).
Definition limit_key (p : Policy) : string := policy_prefix p +:+ "_LIMIT".
Definition window_key (p : Policy) : string := policy_prefix p +:+ "_WINDOW".

Section environment.
Context (getenv : string → string).
Definition envDuration (key : string) (fallbackValue : Duration) : Duration :=
  let value := trimmed_env getenv key in
  if String.eqb value "" then fallbackValue else default fallbackValue (ParseDuration value).
Definition overridePolicy (p : Policy) (config : PolicyConfig) : PolicyConfig :=
  mkPolicyConfig (envInt getenv (limit_key p) (pc_Limit config))
    (envDuration (window_key p) (pc_Window config)) (pc_Scope config).
Definition DefaultPolicies (p : Policy) : option PolicyConfig := Some (overridePolicy p (default_policy p)).

(** [Now], the clock, is with the calls. *)
Definition NewServiceWithOptions {S} (enforce : bool)
    (store : option (string → Z → Duration → Time → ST S Decision))
    (policies : option (Policy → option PolicyConfig)) : Service S :=
  mkService S enforce store (default DefaultPolicies policies).
(** [redis] is the store over the server at an address. *)
Definition NewServiceFromEnv {S} (redis : string → string → Z → Duration → Time → ST S Decision)
    : result (option (Service S)) :=
  if negb (envBool getenv "RATE_LIMIT_ENFORCE") then Ok None
  else
    let redisURL := trimmed_env getenv "REDIS_URL" in
    if String.eqb redisURL "" then Err (Errf "REDIS_URL is required when RATE_LIMIT_ENFORCE=true")
    else Ok (Some (NewServiceWithOptions true (Some (redis redisURL)) (Some DefaultPolicies))).
End environment.

(** The variables of a policy are its own. *)
Lemma limit_keys_apart p q : (limit_key p = limit_key q → p = q) ∧ (window_key p = window_key q → p = q)
  ∧ limit_key p ≠ window_key q.
Proof. destruct p, q; vm_compute; split_and!; (reflexivity || discriminate || (intros; discriminate)). Qed.
Lemma limit_off {S} (store : option (string → Z → Duration → Time → ST S RateLimit.Decision)) policies p meta now config :
  policies p = Some config → pc_Limit config ≤ 0 ∨ pc_Window config ≤ 0 →
  Service_Allow (Some (mkService S true store policies)) p meta now = mret unlimited.
Proof.
  intros Hp Hoff. cbn. destruct store; [|done]. rewrite Hp.
  by replace ((pc_Limit config <=? 0) || (pc_Window config <=? 0)) with true by lia.
Qed.

(** A policy is changed by its own two variables and by no other: setting one of
    them leaves every other policy as it was; variables that are not set leave the
    default; and a limit or a window that is set to zero or less switches the limit of
    that policy off, for whatever store and whoever asks. *)
Theorem overrides_stay_apart getenv p key value : key ∈ [limit_key p; window_key p] →
  let changed := λ k, if String.eqb k key then value else getenv k in
  (∀ q, q ≠ p → DefaultPolicies changed q = DefaultPolicies getenv q) ∧
  (getenv (limit_key p) = "" → getenv (window_key p) = "" →
     DefaultPolicies getenv p = Some (default_policy p)) ∧
  (∀ n, n ≤ 0 → TrimSpace value ≠ "" →
     key = limit_key p ∧ ParseInt (TrimSpace value) = (n, None) ∨
     key = window_key p ∧ ParseDuration (TrimSpace value) = Some n →
     ∀ S (store : option (string → Z → Duration → Time → ST S RateLimit.Decision)) meta now,
     Service_Allow (Some (NewServiceWithOptions changed true store None)) p meta now = mret unlimited).
Proof.
  intros Hkey changed. split_and!.
  - intros q Hq. assert (Hsame : changed (limit_key q) = getenv (limit_key q) ∧ changed (window_key q) = getenv (window_key q)).
    { destruct (limit_keys_apart q p) as (Hl & Hw & Hlw). destruct (limit_keys_apart p q) as (_ & _ & Hwl). unfold changed.
      apply elem_of_cons in Hkey as [->|Hkey]; [|apply list_elem_of_singleton in Hkey as ->];
        split; (match goal with |- (if String.eqb ?a ?b then _ else _) = _ => destruct (String.eqb_spec a b) as [He|]; [|done] end);
        exfalso; auto. }
    unfold DefaultPolicies, overridePolicy, envDuration, envInt, env_int, trimmed_env. by destruct Hsame as [-> ->].
  - intros Hl Hw. unfold DefaultPolicies, overridePolicy, envDuration, envInt, env_int, trimmed_env.
    rewrite Hl, Hw. cbn. by destruct (default_policy p).
  - intros n Hn Hv Hset S store meta now.
    refine (limit_off _ _ _ _ _ (overridePolicy changed p (default_policy p)) eq_refl _).
    apply String.eqb_neq in Hv. destruct Hset as [[-> Hp]|[-> Hp]]; [left|right]; cbn [pc_Limit pc_Window overridePolicy].
    + unfold envInt, env_int, trimmed_env, changed. by rewrite String.eqb_refl, Hv, Hp.
    + unfold envDuration, trimmed_env, changed. by rewrite String.eqb_refl, Hv, Hp.
Qed.

(** A login limit of zero by a configuration with blanks around it. *)
Lemma overrides_stay_apart_witness :
  let off k := if String.eqb k "RATE_LIMIT_IAM_LOGIN_SUBJECT_LIMIT" then " 0 " else "" in
  DefaultPolicies off PolicyIAMLoginIP = Some (default_policy PolicyIAMLoginIP) ∧
  Service_Allow (Some (NewServiceWithOptions off true (Some memory_Allow) None)) PolicyIAMLoginSubject
    (mkMeta "" "somebody" "" "") 0 ∅ = (∅, Ok unlimited).
Proof.
  destruct (overrides_stay_apart (λ _, "") PolicyIAMLoginSubject "RATE_LIMIT_IAM_LOGIN_SUBJECT_LIMIT" " 0 "
    (list_elem_of_here _ _)) as (Hothers & _ & Hoff).
  split; [by rewrite Hothers|].
  specialize (Hoff 0 (Z.le_refl 0) ltac:(by vm_compute) (or_introl (conj eq_refl eq_refl)) _ (Some memory_Allow)
    (mkMeta "" "somebody" "" "") 0). exact (f_equal (λ m, m ∅) Hoff).
Defined.

(** ** Stores that count *)

(** A counted call at [t]: one more on the entry, or the first on a fresh one, which
    needs the old one to be over. *)
Definition counts_call (window : Duration) (t : Time) (e e' : memoryEntry) : Prop :=
  e' = counted e ∨ ¬ outlives e t ∧ e' = counted (mkMemoryEntry 0 (t + window)).

(** What the service relies on in a store: by a clock of its own, it counts the calls
    of each key on an entry, and allows what the count allows. *)
Class CountingStore {S} (clock : nat → Time)
    (allow : string → Z → Duration → Time → ST S RateLimit.Decision) := {
  (** The window as the store keeps it. *)
  cs_window : Duration → Duration;
  (** The store's time after so many readings of the service's clock, and what it
      holds for a key then. *)
  cs_time : S → nat → Time;
  cs_holds : S → nat → string → memoryEntry → Prop;
  cs_idle s n : cs_time s n ≤ cs_time s (Datatypes.S n) ∧
    ∀ k e, cs_holds s n k e → cs_holds s (Datatypes.S n) k e;
  cs_other key limit window s n :
    let out := allow key limit window (clock n) s in
    cs_time s n ≤ cs_time out.1 (Datatypes.S n) ∧
    ∀ k e, k ≠ key → cs_holds s n k e → cs_holds out.1 (Datatypes.S n) k e;
  cs_call key limit window s n e : 0 < cs_window window → cs_holds s n key e →
    let out := allow key limit window (clock n) s in
    ∃ e', cs_holds out.1 (Datatypes.S n) key e' ∧
      (e' = e ∧ is_ok out.2 = false ∨
       counts_call (cs_window window) (cs_time out.1 (Datatypes.S n)) e e' ∧
       ∀ d, out.2 = Ok d → Allowed d = true → me_count e' ≤ limit);
}.

(** The in-memory store counts by the service's own clock. *)
#[export] Instance memory_counts clock (Hclock : ∀ i j, (i ≤ j)%nat → clock i ≤ clock j) :
  CountingStore clock memory_Allow.
Proof.
  refine {| cs_window := id; cs_time := λ _ n, clock (Nat.pred n);
            cs_holds := λ m _ k e, entry_of k m = e |}.
  - intros s n. split; [apply Hclock; lia|done].
  - intros key limit window s n. cbv zeta. rewrite memory_Allow_run. split; [apply Hclock; lia|].
    intros k e Hne He. cbn [fst]. rewrite entry_of_insert. by rewrite (proj2 (String.eqb_neq _ _) (not_eq_sym Hne)).
  - intros key limit window s n e Hw He. cbv zeta. rewrite memory_Allow_run. cbn [fst snd Nat.pred].
    eexists. split; [by rewrite entry_of_insert, String.eqb_refl|]. right. rewrite He. split.
    + unfold counts_call, id. destruct (decide (outlives e (clock n))) as [Hl|Hd].
      * left. by rewrite current_entry_live.
      * right. by rewrite current_entry_reset.
    + intros d [= <-] Ha. by apply Z.leb_le in Ha.
Defined.

(** *** Redis *)

(** What the script relies on in the server: integers under keys that may expire, and a
    time in milliseconds that stands still while a script runs.  A script can fail,
    before it runs or with its answer lost; before it runs, time passes and keys whose
    time is up may go. *)
Class RedisServer (S : Type) := {
  rd_key : S → string → option (Z * option Z);
  rd_time : S → Z;
  rd_others key s s' := rd_time s' = rd_time s ∧ ∀ k, k ≠ key → rd_key s' k = rd_key s k;
  INCR : string → ST S Z;
  PEXPIRE : string → Z → ST S Z;
  PTTL : string → ST S Z;
  EVAL {A} : ST S A → ST S A;
  INCR_law key s : let '(n, expiry) := default (0, None) (rd_key s key) in
    ∃ s', INCR key s = (s', Ok (n + 1)) ∧ rd_others key s s' ∧ rd_key s' key = Some (n + 1, expiry);
  PEXPIRE_law key ms s : ∃ s' r, PEXPIRE key ms s = (s', Ok r) ∧ rd_others key s s' ∧
    ∀ n expiry, rd_key s key = Some (n, expiry) → 0 < ms →
      rd_key s' key = Some (n, Some (rd_time s + ms));
  PTTL_law key s : ∃ r, PTTL key s = (s, Ok r);
  EVAL_law {A} (m : ST S A) s : ∃ s0, rd_time s ≤ rd_time s0 ∧
    (∀ k, rd_key s0 k = rd_key s k ∨
       ∃ n t, rd_key s k = Some (n, Some t) ∧ t ≤ rd_time s0 ∧ rd_key s0 k = None) ∧
    (EVAL m s = m s0 ∨ is_ok (EVAL m s).2 = false ∧ (EVAL m s).1 ∈ [s0; (m s0).1]);
}.

Lemma in_two {A} (x a b : A) : x ∈ [a; b] → x = a ∨ x = b.
Proof. rewrite elem_of_cons, list_elem_of_singleton. done. Qed.

Section redis.
Context {S : Type} {server : RedisServer S}.
(** The script of the store. *)
Definition redis_script (key : string) (limit ms : Z) : ST S (list RedisValue) := EVAL (
  current ← INCR key;
  _ ← (if current =? 1 then _ ← PEXPIRE key ms; mret tt else mret tt);
  ttl ← PTTL key;
  mret [RInt current; RInt ttl]).

(** What the script does on the server. *)
Lemma script_run key limit ms s : ∃ s0 s1,
  rd_time s ≤ rd_time s0 ∧
  (∀ k, rd_key s0 k = rd_key s k ∨
     ∃ n t, rd_key s k = Some (n, Some t) ∧ t ≤ rd_time s0 ∧ rd_key s0 k = None) ∧
  rd_others key s0 s1 ∧
  (let '(n, expiry) := default (0, None) (rd_key s0 key) in
   (n + 1 ≠ 1 → rd_key s1 key = Some (n + 1, expiry)) ∧
   (n + 1 = 1 → 0 < ms → rd_key s1 key = Some (1, Some (rd_time s0 + ms))) ∧
   ((∃ ttl, redis_script key limit ms s = (s1, Ok [RInt (n + 1); RInt ttl])) ∨
    is_ok (redis_script key limit ms s).2 = false ∧ (redis_script key limit ms s).1 ∈ [s0; s1])).
Proof.
  unfold redis_script.
  match goal with |- context [EVAL ?m s] => set (script := m); pose proof (EVAL_law script s) as He end.
  destruct He as (s0 & Ht & Hk & Hrun). exists s0.
  pose proof (INCR_law key s0) as Hi. destruct (default (0, None) (rd_key s0 key)) as [n expiry].
  destruct Hi as (s2 & Hi & [Hit Hio] & Hik).
  assert (Hs : ∃ s1 ttl, script s0 = (s1, Ok [RInt (n + 1); RInt ttl]) ∧ rd_others key s0 s1 ∧
    (n + 1 ≠ 1 → rd_key s1 key = Some (n + 1, expiry)) ∧
    (n + 1 = 1 → 0 < ms → rd_key s1 key = Some (1, Some (rd_time s0 + ms)))).
  { unfold script. destruct (PEXPIRE_law key ms s2) as (s3 & r & Hp & [Hpt Hpo] & Hpk).
    rewrite (bind_run _ _ _ _ _ Hi). unfold mbind, st_bind.
    destruct (Z.eqb_spec (n + 1) 1) as [Hn|Hn].
    - rewrite Hp. cbn. destruct (PTTL_law key s3) as (ttl & ->). exists s3, ttl. split; [done|].
      split; [split; [congruence|intros k Hne; by rewrite Hpo, Hio]|]. split; [done|].
      intros _ Hms. rewrite Hn in Hik. by rewrite (Hpk _ _ Hik Hms), Hit.
    - cbn. destruct (PTTL_law key s2) as (ttl & ->). exists s2, ttl. split; [done|]. done. }
  destruct Hs as (s1 & ttl & Hs & Ho & Hne & Heq). exists s1. split_and!; [done..|].
  destruct Hrun as [->|[Hf Hin]]; [left; by exists ttl|right]. by rewrite Hs in Hin.
Qed.

(** An entry of the server: counted so often, until then; or one that is over. *)
Definition rd_entry (s : S) (k : string) (e : memoryEntry) : Prop :=
  match rd_key s k with
  | Some (n, Some t) => 1 ≤ n ∧ e = mkMemoryEntry n (t * millisecond)
  | Some (_, None) => False
  | None => ¬ outlives e (rd_time s * millisecond)
  end.
Lemma rd_entry_over s k e t : ¬ outlives e t → t ≤ rd_time s * millisecond → rd_key s k = None → rd_entry s k e.
Proof. unfold rd_entry, outlives. intros Ho Ht ->. lia. Qed.
(** Time passing does not change what is held. *)
Lemma rd_entry_passes s s0 k e : rd_time s ≤ rd_time s0 →
  (rd_key s0 k = rd_key s k ∨ ∃ n t, rd_key s k = Some (n, Some t) ∧ t ≤ rd_time s0 ∧ rd_key s0 k = None) →
  rd_entry s k e → rd_entry s0 k e.
Proof.
  intros Ht Hk He. unfold rd_entry in He. destruct Hk as [Hk|(n & t & Hs & Hle & Hk)].
  - destruct (rd_key s k) as [[n [t|]]|] eqn:Hs; [by unfold rd_entry; rewrite Hk|done|].
    eapply rd_entry_over; [exact He| |done]. unfold millisecond. lia.
  - rewrite Hs in He. destruct He as [_ ->]. unfold rd_entry. rewrite Hk. unfold outlives, millisecond. cbn. lia.
Qed.
Lemma rd_entry_same s s' k e : rd_time s' = rd_time s → rd_key s' k = rd_key s k → rd_entry s k e → rd_entry s' k e.
Proof. unfold rd_entry. by intros -> ->. Qed.

(** The store over Redis counts by the server's clock, in whole milliseconds. *)
#[export] Instance redis_counts clock : CountingStore clock (redis_Allow redis_script).
Proof.
  refine {| cs_window := λ w, (w /w millisecond) * millisecond; cs_time := λ s _, rd_time s * millisecond;
            cs_holds := λ s _, rd_entry s |}.
  - done.
  - intros key limit window s n. cbv zeta. destruct (script_run key limit (window /w millisecond) s)
      as (s0 & s1 & Ht & Hk & [Ht1 Ho] & Hrun).
    assert (Hout : (redis_Allow redis_script key limit window (clock n) s).1 ∈ [s0; s1]).
    { unfold redis_Allow, mbind, st_bind. destruct (default (0, None) (rd_key s0 key)) as [c expiry].
      destruct Hrun as (_ & _ & [[ttl ->]|[Hf Hin]]); [cbn; by right; left|].
      destruct (redis_script _ _ _ s) as [s' [v|e]]; [done|exact Hin]. }
    split.
    + apply in_two in Hout as [-> | ->]; rewrite ?Ht1; unfold millisecond; lia.
    + intros k e Hne He. apply (rd_entry_passes s s0) in He; [|done|apply Hk].
      apply in_two in Hout as [-> | ->]; [done|].
      eapply rd_entry_same; [exact Ht1|by apply Ho|done].
  - intros key limit window s n e Hw He. cbv zeta. cbn beta in Hw.
    destruct (script_run key limit (window /w millisecond) s) as (s0 & s1 & Ht & Hk & [Ht1 Ho] & Hrun).
    set (ms := window /w millisecond) in *. assert (Hms : 0 < ms) by (unfold millisecond in Hw; lia).
    pose proof (rd_entry_passes s s0 key e Ht (Hk key) He) as He0.
    assert (Hcount : ∃ e', rd_entry s1 key e' ∧ counts_call (ms * millisecond) (rd_time s1 * millisecond) e e' ∧
      ∃ c expiry, default (0, None) (rd_key s0 key) = (c, expiry) ∧ me_count e' = c + 1).
    { destruct (default (0, None) (rd_key s0 key)) as [c expiry] eqn:Hd. destruct Hrun as (Hlive & Hnew & _).
      unfold rd_entry in He0. rewrite Ht1. destruct (rd_key s0 key) as [[c' [t|]]|]; [|done|].
      - injection Hd as -> <-. destruct He0 as [Hc ->]. eexists. unfold rd_entry. rewrite Hlive by lia.
        split; [split; [lia|reflexivity]|]. split; [by left|]. by do 2 eexists.
      - injection Hd as <- <-. eexists. unfold rd_entry. rewrite Hnew by done.
        split; [split; [lia|reflexivity]|]. split; [|by do 2 eexists]. right. split; [done|].
        unfold counted. cbn. f_equal. lia. }
    destruct Hcount as (e' & He' & Hcc & c & expiry & Hd & Hce). rewrite Hd in Hrun. destruct Hrun as (_ & _ & Hrun).
    unfold redis_Allow, mbind, st_bind. fold ms. destruct Hrun as [[ttl ->]|[Hf Hin]].
    + exists e'. split; [exact He'|]. right. split; [exact Hcc|]. intros d [= <-] Ha. cbn in Ha.
      apply Z.leb_le in Ha. lia.
    + destruct (redis_script key limit ms s) as [s' [v|er]]; [done|]. cbn [fst snd] in *.
      apply in_two in Hin as [-> | ->].
      * exists e. split; [exact He0|]. by left.
      * exists e'. split; [exact He'|]. right. split; [exact Hcc|done].
Defined.
End redis.

(** *** Windows of an entry *)

(** Calls on one entry from a time on, and when those that were let through were made. *)
Inductive counted_calls (window limit : Z) : Time → memoryEntry → list Time → Prop :=
  | no_calls from e : counted_calls window limit from e []
  | one_call from t e e' (through : bool) l :
      from ≤ t → counts_call window t e e' → (through = true → me_count e' ≤ limit) →
      counted_calls window limit t e' l →
      counted_calls window limit from e ((if through then [t] else []) ++ l).

Section windows.
Context (window limit : Z) (Hlimit : 0 ≤ limit) (Hwindow : 0 < window) (lo : Time) (Hlo : 0 ≤ lo).
Let hi : Time := lo + window.
Definition within (l : list Time) : Z := Z.of_nat (length (List.filter (λ t, (lo <=? t) && (t <? hi)) l)).
Lemma within_step (through : bool) t l : within ((if through then [t] else []) ++ l) ≤ (if through then 1 else 0) + within l.
Proof. unfold within. destruct through; cbn; [|lia]. case_match; cbn; lia. Qed.
Lemma within_out (through : bool) t l : t < lo ∨ hi ≤ t → within ((if through then [t] else []) ++ l) = within l.
Proof. intros Ht. unfold within. destruct through; [|done]. cbn. by replace ((lo <=? t) && (t <? hi)) with false by lia. Qed.

Lemma calls_late from e l : counted_calls window limit from e l → hi ≤ from → within l = 0.
Proof.
  induction 1 as [|from t e e' through l Ht _ _ _ IH]; [done|]. intros Hfrom.
  rewrite within_out by lia. apply IH. lia.
Qed.
(** An entry that outlives the interval allows what it has left. *)
Lemma calls_outliving from e l : counted_calls window limit from e l → 0 ≤ from →
  me_resetAt e ≠ 0 → hi ≤ me_resetAt e → within l ≤ left_of limit e.
Proof.
  induction 1 as [from e|from t e e' through l Ht Hc Hroom Hl IH]; intros Hfrom Hnz Hre.
  { unfold within, left_of. cbn. lia. }
  destruct (Z.le_gt_cases hi t) as [Hlate|Hearly].
  { rewrite within_out by lia. rewrite (calls_late t e' l) by done. unfold left_of. lia. }
  destruct Hc as [->|[Ho _]]; [|exfalso; apply Ho; split; [done|lia]].
  pose proof (within_step through t l). specialize (IH ltac:(lia) Hnz Hre). unfold left_of in *. cbn in *.
  destruct through; [specialize (Hroom eq_refl)|]; lia.
Qed.
(** From the start of the interval on: what the entry has left, and one window. *)
Lemma calls_within from e l : counted_calls window limit from e l → lo ≤ from → within l ≤ left_of limit e + limit.
Proof.
  induction 1 as [from e|from t e e' through l Ht Hc Hroom Hl IH]; intros Hfrom.
  { unfold within, left_of. cbn. lia. }
  pose proof (within_step through t l). destruct Hc as [->|[_ ->]].
  - specialize (IH ltac:(lia)). unfold left_of in *. cbn in *. destruct through; [specialize (Hroom eq_refl)|]; lia.
  - pose proof (calls_outliving _ _ _ Hl ltac:(lia) ltac:(cbn; lia) ltac:(unfold hi; cbn; lia)) as Hout.
    unfold left_of in *. cbn in *. destruct through; [specialize (Hroom eq_refl)|]; lia.
Qed.
Lemma calls_bound from e l : counted_calls window limit from e l → 0 ≤ me_count e → within l ≤ 2 * limit.
Proof.
  induction 1 as [from e|from t e e' through l Ht Hc Hroom Hl IH]; intros He.
  { unfold within. cbn. lia. }
  destruct (Z.le_gt_cases lo t) as [Hin|Hearly].
  - pose proof (calls_within t e _ (one_call _ _ t t e e' through l ltac:(lia) Hc Hroom Hl) Hin) as Hw.
    unfold left_of in Hw. lia.
  - rewrite within_out by lia. apply IH. destruct Hc as [->|[_ ->]]; cbn; lia.
Qed.
End windows.

(** ** Guesses *)

(** A limiter with its store and the readings of its clock, the [t]-th now. *)
Definition clocked {S} (limiter_now : nat → Time) (s : option (Service S)) (policy : Policy) (meta : Meta)
    : ST (S * nat) RateLimit.Decision := λ st,
  let '(m, r) := Service_Allow s policy meta (limiter_now st.2) st.1 in ((m, Datatypes.S st.2), r).

Definition login_config (getenv : string → string) : PolicyConfig :=
  overridePolicy getenv PolicyIAMLoginSubject (default_policy PolicyIAMLoginSubject).
Definition subject_key (email : string) : string :=
  buildKey PolicyIAMLoginSubject [ScopeSubject] (mkMeta "" (SubjectHash email) "" "").
Lemma keys_apart p meta meta' : p ≠ PolicyIAMLoginSubject →
  buildKey p (pc_Scope (default_policy p)) meta ≠ buildKey PolicyIAMLoginSubject [ScopeSubject] meta'.
Proof. destruct p; intros Hp; try done; unfold buildKey; cbn; congruence. Qed.

Section guesses.
Context `{Unicode} `{IdentityStore} {S : Type} (getenv : string → string) (limiter_now : nat → Time)
  (allow : string → Z → Duration → Time → ST S RateLimit.Decision) {CS : CountingStore limiter_now allow}
  (c : IamConfig (S * nat)).
Abbreviation A := (ST (IamServer (S * nat))).
Definition limiter : Policy → Meta → ST (S * nat) RateLimit.Decision :=
  clocked limiter_now (Some (NewServiceWithOptions getenv true (Some allow) None)).

(** A login to an account: the addresses that are the same but for blanks and case. *)
Definition is_guess (email : string) (r : Request) : bool :=
  String.eqb (rq_Method r) "POST" && String.eqb (rq_Path r) "/v1/sessions" &&
  match decode_login r with
  | Some (e, _) => String.eqb (ToLower (TrimSpace e)) (ToLower (TrimSpace email))
  | None => false
  end.
(** It got as far as the account: it was not refused as malformed (400), nor by the
    limiter, which answers 429, or 500 where it cannot tell. *)
Definition unavailable (a : IamAnswer) : bool :=
  (rs_Status a =? StatusInternalServerError) &&
  match rs_Body a with
  | JObj [(_, JStr reason)] => String.eqb reason "rate limiter unavailable"
  | _ => false
  end.
Definition let_through (r : result IamAnswer) : bool :=
  match r with
  | Ok a => negb ((rs_Status a =? StatusBadRequest) || (rs_Status a =? StatusTooManyRequests) || unavailable a)
  | Err _ => true
  end.
(** The store's time. *)
Definition store_time (st : S * nat) : Time := cs_time st.1 st.2.
(** When, by the store's clock, logins to the account were let through. *)
Fixpoint guesses (email : string) (rs : list Request) (s : IamServer (S * nat)) : list Time :=
  match rs with
  | [] => []
  | r :: rs =>
      let '(s', answer) := ServeHTTP c r s in
      (if is_guess email r && let_through answer then [store_time (iam_limits s')] else [])
      ++ guesses email rs s'
  end.

Section one_key.
Context (Hlimiter : ic_rateLimiter c = Some limiter) (email : string).
Let K := subject_key email.
Let W := cs_window (pc_Window (login_config getenv)).
Let limit := pc_Limit (login_config getenv).
Definition holds (st : S * nat) (e : memoryEntry) : Prop := cs_holds st.1 st.2 K e.

(** A computation that does not reach the limiter, and one that leaves what is counted
    of the account as it is. *)
Definition calm {T} (m : A T) : Prop := ∀ s, iam_limits (m s).1 = iam_limits s.
Definition passes (st st' : S * nat) : Prop :=
  store_time st ≤ store_time st' ∧ ∀ e, holds st e → holds st' e.
Definition quiet {T} (m : A T) : Prop := ∀ s, passes (iam_limits s) (iam_limits (m s).1).
Lemma calm_ret {T} (x : T) : calm (mret x).
Proof. done. Qed.
Lemma calm_then {T U} (m : A T) (f : T → A U) : calm m → (∀ x, calm (f x)) → calm (m ≫= f).
Proof.
  intros Hm Hf s. specialize (Hm s). unfold mbind, st_bind. destruct (m s) as [s1 [x|e]]; [|done].
  cbn [fst] in Hm. by rewrite Hf.
Qed.
Lemma calm_attempt {T} (m : A T) : calm m → calm (attempt m).
Proof. intros Hm s. specialize (Hm s). unfold attempt. by destruct (m s). Qed.
Lemma calm_store {T} (m : ST IState T) : calm (on_store m).
Proof. intros s. unfold on_store, zoom. by destruct (m (iam_store s)). Qed.
Lemma calm_now : calm (time_now c). Proof. done. Qed.
Lemma calm_random : calm (randomToken c). Proof. done. Qed.
Lemma calm_hash p : calm (GenerateFromPassword c p). Proof. done. Qed.

Lemma passes_refl st : passes st st.
Proof. by split. Qed.
Lemma passes_trans st st' st'' : passes st st' → passes st' st'' → passes st st''.
Proof. intros [Ht Hh] [Ht' Hh']. split; [lia|auto]. Qed.
Lemma quiet_calm {T} (m : A T) : calm m → quiet m.
Proof. intros Hm s. rewrite Hm. apply passes_refl. Qed.
Lemma quiet_ret {T} (x : T) : quiet (mret x).
Proof. by apply quiet_calm. Qed.
Lemma quiet_then {T U} (m : A T) (f : T → A U) : quiet m → (∀ x, quiet (f x)) → quiet (m ≫= f).
Proof.
  intros Hm Hf s. specialize (Hm s). unfold mbind, st_bind. destruct (m s) as [s1 [x|e]]; [|done].
  eapply passes_trans; [exact Hm|apply Hf].
Qed.
Lemma quiet_attempt {T} (m : A T) : quiet m → quiet (attempt m).
Proof. intros Hm s. specialize (Hm s). unfold attempt. by destruct (m s). Qed.

Lemma limiter_other p meta st : p ≠ PolicyIAMLoginSubject → passes st (limiter p meta st).1.
Proof.
  intros Hp. unfold limiter, clocked, Service_Allow. cbn [enforce store policies NewServiceWithOptions negb default].
  unfold DefaultPolicies. destruct (_ || _).
  - cbn. unfold passes, store_time, holds. cbn [fst snd]. destruct (cs_idle st.1 st.2) as [Ht Hh]. split; [done|]. intros e. apply Hh.
  - match goal with |- context [allow ?k ?l ?w ?t ?s] => pose proof (cs_other k l w s st.2) as Ho; cbv zeta in Ho;
      destruct (allow k l w t s) as [m r] end. destruct Ho as [Ht Hh].
    split; [exact Ht|]. intros e. apply Hh. intros He. by apply eq_sym, keys_apart in He.
Qed.
(** A check asks the limiter once; it refuses with a 429, and with a 500 when the
    limiter fails. *)
Lemma check_run p meta s : let out := limiter p meta (iam_limits s) in
  ∃ s' x, iam_limits s' = out.1 ∧ applyRateLimit c p meta s = (s', Ok x) ∧
    match x with
    | Some a => let_through (Ok a) = false
    | None => ∃ d, out.2 = Ok d ∧ Allowed d = true
    end.
Proof.
  cbv zeta. unfold applyRateLimit. rewrite Hlimiter. unfold mbind, st_bind, attempt, zoom.
  destruct (limiter p meta (iam_limits s)) as [st [d|e]].
  - destruct (Allowed d) eqn:Ha; do 2 eexists; split_and!; [ | reflexivity | | | reflexivity | ]; try reflexivity. by exists d.
  - do 2 eexists. split_and!; [ | reflexivity | ]; reflexivity.
Qed.
Lemma quiet_check p meta : p ≠ PolicyIAMLoginSubject → quiet (applyRateLimit c p meta).
Proof.
  intros Hp s. destruct (check_run p meta s) as (s' & x & Hl & -> & _). cbn [fst]. rewrite Hl.
  by apply limiter_other.
Qed.
Lemma quiet_limited p meta k : p ≠ PolicyIAMLoginSubject → quiet k → quiet (limited c p meta k).
Proof. intros Hp Hk. apply quiet_then; [by apply quiet_check|]. intros []; [apply quiet_ret|done]. Qed.
Ltac solve_calm :=
  repeat first
    [ match goal with |- ∀ _, _ => intro end
    | apply calm_ret | apply calm_store | apply calm_now | apply calm_random | apply calm_hash
    | apply calm_attempt
    | apply calm_then
    | match goal with |- calm (match ?x with _ => _ end) => destruct x end
    | match goal with |- calm (let '_ := ?x in _) => destruct x end ].
Lemma calm_issue userID : calm (issueSession c userID).
Proof. unfold issueSession. solve_calm. Qed.
Hint Resolve calm_ret calm_store calm_now calm_random calm_hash calm_issue : core.
Ltac solve_quiet :=
  repeat first
    [ match goal with |- ∀ _, _ => intro end
    | apply quiet_ret
    | apply quiet_calm; solve [auto]
    | apply quiet_attempt
    | apply quiet_limited; [done|]
    | apply quiet_then
    | match goal with |- quiet (match ?x with _ => _ end) => destruct x end
    | match goal with |- quiet (let '_ := ?x in _) => destruct x end ].
Lemma quiet_signup r : quiet (handleSignup c r).
Proof. unfold handleSignup. solve_quiet. Qed.
Lemma quiet_me r : quiet (handleMe c r).
Proof. unfold handleMe. solve_quiet. Qed.
Lemma quiet_logout r : quiet (handleLogout c r).
Proof. unfold handleLogout. solve_quiet. Qed.

(** One login: what becomes of the account's entry, and what is answered when it is full. *)
Context (Hlimit : 0 < limit) (Hwindow : 0 < pc_Window (login_config getenv)) (HW : 0 < W).
(** What a request does to the account's entry: nothing, or it is counted, and let
    through only while there is room. *)
Definition step_ok (guess : bool) (s : IamServer (S * nat)) (out : IamServer (S * nat) * result IamAnswer) : Prop :=
  ∀ e, holds (iam_limits s) e → ∃ e', holds (iam_limits out.1) e' ∧
    store_time (iam_limits s) ≤ store_time (iam_limits out.1) ∧
    (e' = e ∧ guess && let_through out.2 = false ∨
     counts_call W (store_time (iam_limits out.1)) e e' ∧
     (guess && let_through out.2 = true → me_count e' ≤ limit)).
Lemma step_quiet m s : quiet m → step_ok false s (m s).
Proof. intros Hm e He. destruct (Hm s) as [Ht Hh]. exists e. split; [by apply Hh|]. split; [done|by left]. Qed.

Lemma subject_check e0 st : subject_key e0 = K → let out := limiter PolicyIAMLoginSubject (mkMeta "" (SubjectHash e0) "" "") st in
  store_time st ≤ store_time out.1 ∧ ∀ e, holds st e → ∃ e', holds out.1 e' ∧
    (e' = e ∧ is_ok out.2 = false ∨
     counts_call W (store_time out.1) e e' ∧ ∀ d, out.2 = Ok d → Allowed d = true → me_count e' ≤ limit).
Proof.
  intros HK. cbv zeta. unfold limiter, clocked, Service_Allow.
  cbn [enforce store policies NewServiceWithOptions negb default].
  unfold DefaultPolicies. fold (login_config getenv). fold limit.
  replace ((limit <=? 0) || (pc_Window (login_config getenv) <=? 0)) with false by lia.
  change (buildKey _ _ _) with (subject_key e0). rewrite HK.
  destruct (cs_other K limit (pc_Window (login_config getenv)) st.1 st.2) as [Ht _].
  pose proof (λ e, cs_call K limit (pc_Window (login_config getenv)) st.1 st.2 e HW) as Hc. cbv zeta in Ht, Hc.
  destruct (allow K limit (pc_Window (login_config getenv)) (limiter_now st.2) st.1) as [m r].
  split; [exact Ht|exact Hc].
Qed.
Lemma subject_step e0 k s : calm k →
  step_ok (String.eqb (subject_key e0) K) s (limited c PolicyIAMLoginSubject (mkMeta "" (SubjectHash e0) "" "") k s).
Proof.
  intros Hk e He. set (meta := mkMeta _ _ _ _). destruct (check_run PolicyIAMLoginSubject meta s) as (s' & x & Hs' & Hrun & Hx).
  unfold limited. rewrite (bind_run _ _ _ _ _ Hrun).
  assert (Hlim : iam_limits (match x with Some response => mret response | None => k end s').1 = iam_limits s').
  { destruct x; [done|apply Hk]. }
  rewrite Hlim, Hs'. destruct (String.eqb_spec (subject_key e0) K) as [HK|HK].
  - destruct (subject_check e0 (iam_limits s) HK) as [Ht Hc]. fold meta in Ht, Hc.
    destruct (Hc e He) as (e' & He' & Hcase). exists e'. split; [done|]. split; [done|].
    destruct x as [a|].
    + change ((mret a : A IamAnswer) s').2 with (Ok a). rewrite Hx, andb_false_r.
      destruct Hcase as [[-> _]|[Hcc _]]; [by left|right]. done.
    + destruct Hx as (d & Hd & Ha). destruct Hcase as [[_ Hf]|[Hcc Hroom]]; [by rewrite Hd in Hf|].
      right. split; [done|]. intros _. by eapply Hroom.
  - assert (Hp : passes (iam_limits s) (limiter PolicyIAMLoginSubject meta (iam_limits s)).1).
    { unfold limiter, clocked, Service_Allow. cbn [enforce store policies NewServiceWithOptions negb default].
      unfold DefaultPolicies. destruct (_ || _).
      - cbn. unfold passes, store_time, holds. cbn [fst snd]. destruct (cs_idle (iam_limits s).1 (iam_limits s).2) as [Ht Hh].
        split; [done|]. intros e1. apply Hh.
      - match goal with |- context [allow ?k ?l ?w ?t ?s0] =>
          pose proof (cs_other k l w s0 (iam_limits s).2) as Ho; cbv zeta in Ho;
          destruct (allow k l w t s0) as [m r] end. destruct Ho as [Ht Hh].
        split; [exact Ht|]. intros e1. apply Hh. intros Hke. by apply HK. }
    destruct Hp as [Ht Hh]. exists e. split; [by apply Hh|]. split; [done|by left].
Qed.
Definition guessed (r : Request) : bool :=
  match decode_login r with
  | Some (e, _) => String.eqb (ToLower (TrimSpace e)) (ToLower (TrimSpace email))
  | None => false
  end.
Lemma step_after (guess guess' : bool) s s1 out : passes (iam_limits s) (iam_limits s1) →
  (guess = true → guess' = true) → step_ok guess' s1 out → step_ok guess s out.
Proof.
  intros [Ht Hh] Hg Hs e He. destruct (Hs e (Hh e He)) as (e' & He' & Ht' & Hcase).
  exists e'. split; [done|]. split; [lia|]. destruct guess; [by rewrite Hg in Hcase|].
  destruct Hcase as [[-> _]|[Hcc _]]; [by left|by right].
Qed.
Lemma refused_step guess s s1 (a : IamAnswer) :
  passes (iam_limits s) (iam_limits s1) → let_through (Ok a) = false → step_ok guess s (s1, Ok a).
Proof.
  intros [Ht Hh] Ha e He. exists e. split; [by apply Hh|]. split; [done|]. left. split; [done|].
  cbn [snd]. by rewrite Ha, andb_false_r.
Qed.
Lemma session_step r s : step_ok (guessed r) s (handleCreateSession c r s).
Proof.
  unfold handleCreateSession, guessed. destruct (decode_login r) as [[e password]|];
    [|apply refused_step; [apply passes_refl|done]].
  destruct (_ || _); [apply refused_step; [apply passes_refl|done]|].
  destruct (check_run PolicyIAMLoginIP (ip_meta c r) s) as (s1 & x & Hs1 & Hrun & Hx). unfold limited at 1.
  rewrite (bind_run _ _ _ _ _ Hrun).
  assert (Hp : passes (iam_limits s) (iam_limits s1)) by (rewrite Hs1; by apply limiter_other).
  destruct x as [a|]; [by apply refused_step|].
  apply (step_after _ (String.eqb (subject_key e) K) s s1); [done| |].
  - intros Hsame%String.eqb_eq. apply String.eqb_eq. unfold subject_key, K, SubjectHash. by rewrite Hsame.
  - apply subject_step. solve_calm; apply calm_issue || solve_calm.
Qed.
Lemma serve_step r s : step_ok (is_guess email r) s (ServeHTTP c r s).
Proof.
  unfold ServeHTTP, is_guess. cbv zeta. fold (guessed r).
  destruct (String.eqb_spec (rq_Path r) "/healthz") as [->|]; [rewrite andb_false_r; apply step_quiet, quiet_ret|].
  destruct (String.eqb_spec (rq_Path r) "/v1/sessions") as [->|].
  - rewrite !andb_true_r. cbn [String.eqb Ascii.eqb Bool.eqb]. rewrite !andb_false_r.
    destruct (String.eqb (rq_Method r) "POST"); [apply session_step|apply step_quiet, quiet_ret].
  - rewrite !andb_false_r. cbn [andb]. repeat case_match; apply step_quiet;
      first [apply quiet_ret|apply quiet_signup|apply quiet_logout|apply quiet_me].
Qed.

Lemma counted_sooner from from' e l : from' ≤ from → counted_calls W limit from e l → counted_calls W limit from' e l.
Proof. intros Hle Hc. destruct Hc as [|? t ? e2 b l1 Ht]; [constructor|]. apply one_call with e2; [lia|done..]. Qed.
Lemma guesses_counted rs s e : holds (iam_limits s) e →
  counted_calls W limit (store_time (iam_limits s)) e (guesses email rs s).
Proof.
  revert s e. induction rs as [|r rs IH]; intros s e He; cbn [guesses]; [constructor|].
  pose proof (serve_step r s e He) as Hstep. destruct (ServeHTTP c r s) as [s' answer].
  cbn [fst snd] in Hstep. destruct Hstep as (e' & He' & Ht & [[-> ->]|[Hcc Hroom]]).
  - by eapply counted_sooner, IH.
  - apply one_call with e'; [done|done|done|by apply IH].
Qed.
End one_key.

(** C8. Passwords cannot be guessed faster than the limit allows.  Where limits are
    enforced, by the service that is made from the environment, which counts in Redis, or
    by one that counts in memory: whatever requests reach the identity service in whatever
    order, from whatever addresses and however the email is spelled, at most twice the
    configured number of logins to one account get as far as the account in any stretch
    as long as the configured window, by the clock of the store; logins that fail after
    the comparison of the password are among them.  (Limits are off unless
    RATE_LIMIT_ENFORCE is set; the login limit, five in five minutes, can be switched off.) *)
Theorem password_guesses_are_limited (service : Service S) email rs s lo e :
  NewServiceFromEnv getenv (λ _, allow) = Ok (Some service) ∨
    service = NewServiceWithOptions getenv true (Some allow) None →
  ic_rateLimiter c = Some (clocked limiter_now (Some service)) →
  let limit := pc_Limit (login_config getenv) in
  let window := cs_window (pc_Window (login_config getenv)) in
  0 < limit → 0 < pc_Window (login_config getenv) → 0 < window → 0 ≤ lo →
  cs_holds (iam_limits s).1 (iam_limits s).2 (subject_key email) e → 0 ≤ me_count e →
  Z.of_nat (length (List.filter (λ t, (lo <=? t) && (t <? lo + window)) (guesses email rs s))) ≤ 2 * limit.
Proof.
  intros Hservice Hlim limit window Hlimit Hwindow HW Hlo He Hcount.
  assert (Hs : service = NewServiceWithOptions getenv true (Some allow) None).
  { destruct Hservice as [Hs|Hs]; [|done]. unfold NewServiceFromEnv in Hs.
    destruct (negb _); [done|]. destruct (String.eqb _ ""); [done|]. by injection Hs as <-. }
  rewrite Hs in Hlim.
  pose proof (guesses_counted Hlim email Hlimit Hwindow HW rs s e He) as Hc.
  exact (calls_bound window limit ltac:(lia) HW lo Hlo _ _ _ Hc Hcount).
Qed.
End guesses.

(** ** An account under attack *)

(** A server with its keys and its time, which moves on two seconds before a script. *)
Record DemoRedis := mkDemoRedis { dr_data : gmap string (Z * option Z); dr_now : Z }.
Definition dr_over (now : Z) (v : Z * option Z) : bool :=
  match v.2 with Some t => t <=? now | None => false end.
Definition dr_arrive (s : DemoRedis) : DemoRedis :=
  let now := dr_now s + 2000 in
  mkDemoRedis (filter (λ kv, dr_over now kv.2 = false) (dr_data s)) now.
#[local] Instance demo_redis : RedisServer DemoRedis.
Proof.
  refine {| rd_key := λ s k, dr_data s !! k; rd_time := dr_now;
    INCR := λ k s, let '(n, expiry) := default (0, None) (dr_data s !! k) in
      (mkDemoRedis (<[k := (n + 1, expiry)]> (dr_data s)) (dr_now s), Ok (n + 1));
    PEXPIRE := λ k ms s, (mkDemoRedis (alter (λ v, (v.1, Some (dr_now s + ms))) k (dr_data s)) (dr_now s), Ok 1);
    PTTL := λ k s, (s, Ok (match dr_data s !! k with Some (_, Some t) => t - dr_now s | _ => -1 end));
    EVAL := λ A m s, m (dr_arrive s) |}.
  - intros key s. destruct (default _ _) as [n expiry]. eexists. split; [reflexivity|].
    split; [|apply lookup_insert_eq]. split; [done|]. intros k Hne. by apply lookup_insert_ne.
  - intros key ms s. do 2 eexists. split; [reflexivity|]. split.
    + split; [done|]. intros k Hne. by apply lookup_alter_ne.
    + intros n expiry Hk _. cbn. by rewrite lookup_alter_eq, Hk.
  - intros key s. by eexists.
  - intros A m s. exists (dr_arrive s). split; [cbn; lia|]. split; [|by left].
    intros k. unfold dr_arrive. cbn [dr_data dr_now]. set (now := dr_now s + 2000).
    destruct (dr_data s !! k) as [[n [t|]]|] eqn:Hk.
    + destruct (dr_over now (n, Some t)) eqn:Ho.
      * right. exists n, t. split; [done|]. split; [by apply Z.leb_le in Ho|].
        apply map_lookup_filter_None_2. right. intros v Hv. cbn. by replace v with (n, Some t) by congruence; rewrite Ho.
      * left. by apply map_lookup_filter_Some_2.
    + left. by apply map_lookup_filter_Some_2.
    + left. apply map_lookup_filter_None_2. by left.
Defined.

(** Twenty logins by turns from two addresses, with the email spelled in two ways, after
    the account was opened, at a service whose environment has the limits enforced. *)
#[local] Instance attack_store : IdentityStore := memory_store (λ t, Z.of_nat t).
#[local] Instance attack_unicode : Unicode := no_tables.
Definition attack_env (k : string) : string :=
  if String.eqb k "RATE_LIMIT_ENFORCE" then "true"
  else if String.eqb k "REDIS_URL" then "redis://cache:6379" else "".
Definition attack_service : Service DemoRedis :=
  NewServiceWithOptions attack_env true (Some (redis_Allow redis_script)) None.
Definition attack_clock (t : nat) : Time := 0.
Definition attacked : IamConfig (DemoRedis * nat) :=
  mkIamConfig _ defaultSessionTTL (Some (clocked attack_clock (Some attack_service))) (λ r, rq_Header r "X-Forwarded-For")
    (λ t, Z.of_nat t) (λ t, Ok (replicate 32 (Z.of_nat t))) (λ _ password, Ok ("$" +:+ password))
    (λ h password, String.eqb h ("$" +:+ password)).
Definition attack_post (path from : string) (fields : list (string * string)) : Request :=
  mkRequest "POST" path (λ h, if String.eqb h "X-Forwarded-For" then from else "") (λ _, [])
    (Some (JObj ((λ kv, (kv.1, JStr kv.2)) <$> fields))) "".
Definition attack : list Request :=
  attack_post "/v1/signup" "home"
    [("email", "eve@mail.org"); ("password", "correct horse 1"); ("name", "Eve");
     ("organizationName", "Eve"); ("organizationKind", "buyer")] ::
  concat (replicate 10
    [attack_post "/v1/sessions" "10.0.0.1" [("email", "eve@mail.org"); ("password", "guess")];
     attack_post "/v1/sessions" "10.0.0.2" [("email", " Eve@Mail.org"); ("password", "guess")]]).
Definition before_attack : IamServer (DemoRedis * nat) :=
  mkIamServer _ _ NewMemoryStore (mkDemoRedis ∅ 0, 0%nat) 0 0 0.
Lemma password_guesses_are_limited_witness :
  NewServiceFromEnv attack_env (λ _, redis_Allow redis_script) = Ok (Some attack_service) ∧
  guesses attack_clock (redis_Allow redis_script) attacked "EVE@mail.org" attack before_attack
    = (λ t, 2 * second * t) <$> [4; 6; 8; 10; 12] ∧
  Z.of_nat (length (List.filter (λ t, (0 <=? t) && (t <? 0 + 5 * minute))
    (guesses attack_clock (redis_Allow redis_script) attacked "EVE@mail.org" attack before_attack))) ≤ 10.
Proof.
  split; [reflexivity|]. split; [vm_compute; reflexivity|].
  assert (Hw : cs_window (CountingStore := redis_counts attack_clock) (pc_Window (login_config attack_env)) = 5 * minute)
    by (vm_compute; reflexivity).
  assert (Hl : pc_Limit (login_config attack_env) = 5) by (vm_compute; reflexivity).
  assert (Hp : 0 < pc_Window (login_config attack_env)) by (vm_compute; reflexivity).
  assert (Hempty : cs_holds (CountingStore := redis_counts attack_clock) (iam_limits before_attack).1
    (iam_limits before_attack).2 (subject_key "EVE@mail.org") zero_entry).
  { vm_compute. intros [Hz _]. by apply Hz. }
  assert (Hservice : NewServiceFromEnv attack_env (λ _, redis_Allow redis_script) = Ok (Some attack_service))
    by reflexivity.
  pose proof (password_guesses_are_limited attack_env attack_clock (redis_Allow redis_script) attacked attack_service
    "EVE@mail.org" attack before_attack 0 zero_entry (or_introl Hservice) eq_refl) as Hbound.
  cbv zeta in Hbound. rewrite Hw, Hl in Hbound.
  apply Hbound; [reflexivity|exact Hp|reflexivity|discriminate|exact Hempty|discriminate].
Defined.
