(* ===== verification/Startup.v ===== *)
(** * How the services are started (internal/bootstrap, internal/runtimeconfig, the
      constructors of the servers in internal/gateway and internal/services)

    What a service reads from its environment before it serves, what it opens, and when
    it refuses to start.  [getenv] is [os.Getenv]; databases and the message bus are
    opened, prepared and closed in steps that are written down with how they ended,
    and [outcome] decides that from the steps before.  A panic at the start is an
    error here. *)

From Stdlib Require Import Ascii.
From S2P Require Import Prelude GoNum GoText Market Repo MemoryRepo App Amounts Deposits Http RateLimit Settlement DemoEnv Traces FiberClient.
From S2P Require Import CkbWallet CodeAgent Limits.

(** ** Steps *)

Inductive Job := MigrateCore | SeedCatalog | VerifyCoreSchema
  | MigrateFundingRecordStore | VerifyFundingRecordStore
  | MigrateBuyerDepositStore | VerifyBuyerDepositStore.
(** What was opened is called by the number of the step that opened it. *)
Inductive Act :=
  | OpenDatabase (dsn : string)
  | ConnectBus (url : string)
  | RunJob (db : nat) (job : Job)
  | CloseDatabase (db : nat)
  | CloseBus (bus : nat).
Abbreviation Steps := (list (Act * option error)).
Abbreviation B := (ST Steps).

Section steps.
Context (outcome : Steps → Act → option error).

Definition act (a : Act) : B () := λ h,
  (h ++ [(a, outcome h a)], match outcome h a with None => Ok () | Some e => Err e end).
Definition opened (a : Act) : B nat := λ h,
  (h ++ [(a, outcome h a)], match outcome h a with None => Ok (length h) | Some e => Err e end).
(** [_ = f()] *)
Definition ignored (m : B ()) : B () := _ ← attempt m; mret tt.

(** ** The database of the core *)

(** [defer]: the database is closed whatever came before; the first error counts. *)
Definition closing (db : nat) (m : B ()) : B () :=
  r ← attempt m;
  closed ← attempt (act (CloseDatabase db));
  match r with Err e => throw e | Ok _ => lift closed end.
Definition bootstrap_jobs : list Job :=
  [MigrateCore; SeedCatalog; MigrateFundingRecordStore; MigrateBuyerDepositStore].
Definition BootstrapDatabase (dsn : string) : B () :=
  if String.eqb dsn "" then throw (Errf "DATABASE_URL is required")
  else db ← opened (OpenDatabase dsn); closing db (for_each bootstrap_jobs (λ job, act (RunJob db job))).

Section environment.
Context (getenv : string → string).
Definition RequirePersistence : bool := env_bool getenv "ONE_TOK_REQUIRE_PERSISTENCE".
Definition RequireExternals : bool := env_bool getenv "ONE_TOK_REQUIRE_EXTERNALS".
Definition RequireBootstrappedDatabase : bool := env_bool getenv "ONE_TOK_REQUIRE_BOOTSTRAP".
Definition DefaultAPIGatewayUpstream : string := "http://127.0.0.1:8080".
Definition APIGatewayUpstream : string :=
  let value := getenv "API_GATEWAY_UPSTREAM" in
  if String.eqb value "" then DefaultAPIGatewayUpstream else value.

(** ** The platform *)

(** The stores of the platform, [None] in memory, and its publisher. *)
Record Loaded := mkLoaded { ld_database : option nat; ld_publisher : option nat }.
Definition publisherCleanup (publisher : option nat) : B () :=
  match publisher with None => mret tt | Some bus => ignored (act (CloseBus bus)) end.
Definition loadPublisher : B (option nat) :=
  let url := getenv "NATS_URL" in
  if String.eqb url "" then mret None else bus ← opened (ConnectBus url); mret (Some bus).
(** A step of the start; where it fails, what was opened is closed. *)
Definition or_close {A} (m : B A) (close : list (B ())) : B A :=
  r ← attempt m;
  match r with Ok x => mret x | Err e => _ ← for_each close ignored; throw e end.
Definition LoadPlatformApp : B Loaded :=
  publisher ← loadPublisher;
  let dsn := getenv "DATABASE_URL" in
  if String.eqb dsn "" then
    if RequirePersistence then
      _ ← ignored (publisherCleanup publisher);
      throw (Errf "DATABASE_URL is required when ONE_TOK_REQUIRE_PERSISTENCE=true")
    else mret (mkLoaded None publisher)
  else
    db ← or_close (opened (OpenDatabase dsn)) [publisherCleanup publisher];
    let job j := or_close (act (RunJob db j)) [act (CloseDatabase db); publisherCleanup publisher] in
    _ ← (if RequireBootstrappedDatabase then job VerifyCoreSchema
         else _ ← job MigrateCore; job SeedCatalog);
    mret (mkLoaded (Some db) publisher).
(** The second result of [LoadPlatformApp]. *)
Definition cleanup (l : Loaded) : B () :=
  match ld_database l with
  | None => publisherCleanup (ld_publisher l)
  | Some db => _ ← act (CloseDatabase db); publisherCleanup (ld_publisher l)
  end.

(** ** The stores of the services *)

Inductive Store := InMemory | InDatabase (db : nat).
Definition database_of (keys : list string) (missing : string) : result string :=
  let dsn := firstNonEmptyEnv getenv keys in
  if String.eqb dsn "" then Err (Errf missing) else Ok dsn.
Definition open_store (keys : list string) (missing what : string) (verify migrate : Job) : B nat :=
  dsn ← lift (database_of keys missing);
  db ← or_fail (opened (OpenDatabase dsn)) ("open " +:+ what);
  let job j name := or_fail (or_close (act (RunJob db j)) [act (CloseDatabase db)]) (name +:+ what) in
  _ ← (if RequireBootstrappedDatabase then job verify "verify " else job migrate "migrate ");
  mret db.
Definition loadConfiguredStoreFromEnv : B nat :=
  open_store ["IAM_DATABASE_URL"; "DATABASE_URL"] "IAM_DATABASE_URL or DATABASE_URL is required"
    "iam store" VerifyCoreSchema MigrateCore.
Definition settlement_database : list string := ["SETTLEMENT_DATABASE_URL"; "DATABASE_URL"].
Definition loadConfiguredFundingRecordRepository : B nat :=
  open_store settlement_database "SETTLEMENT_DATABASE_URL or DATABASE_URL is required"
    "settlement funding store" VerifyFundingRecordStore MigrateFundingRecordStore.
Definition loadBuyerDepositRepositoriesE : B nat :=
  open_store settlement_database "SETTLEMENT_DATABASE_URL or DATABASE_URL is required"
    "buyer deposit store" VerifyBuyerDepositStore MigrateBuyerDepositStore.
(** A store that cannot be opened is one in memory, unless persistence is required. *)
Definition or_memory (m : B nat) : B Store :=
  r ← attempt m;
  match r with
  | Ok db => mret (InDatabase db)
  | Err e => if RequirePersistence then throw e else mret InMemory
  end.
Definition loadStoreFromEnv : B Store := or_memory loadConfiguredStoreFromEnv.
Definition loadFundingRecordRepositoryE : B Store := or_memory loadConfiguredFundingRecordRepository.
Definition loadBuyerDepositRepositoriesOrMemory : B Store := or_memory loadBuyerDepositRepositoriesE.

(** ** The servers *)

(** [url.Parse], its scheme and host, and the options of the deposit service, which
    [loadBuyerDepositServiceOptionsFromEnv] reads in [CkbWallet]. *)
Context (url_Parse : string → result (string * string)).
Context (deposit_options : result (option BuyerDepositService)).

(** [None]: a client that is not configured, [NoopClient]. *)
Definition iam_NewClientFromEnv : option string :=
  let baseURL := trimmed_env getenv "IAM_UPSTREAM" in
  if String.eqb baseURL "" then None else Some (TrimRight "/" baseURL).
Definition carrier_NewClientFromEnv : Client :=
  NewClient (getenv "CARRIER_GATEWAY_URL") (getenv "CARRIER_GATEWAY_API_TOKEN").
Definition serviceauth_FromEnv (multiKey singleKey : string) : TokenSet :=
  NewTokenSet [getenv multiKey; getenv singleKey].
(** The proxy of an address that has a scheme and a host; the texts leave it out. *)
Definition NewSingleHostE (upstream : string) : B () :=
  '(scheme, host) ← or_fail (lift (url_Parse upstream)) "parse upstream URL";
  fail_if (String.eqb scheme "" || String.eqb host "") (Errf "upstream URL must have scheme and host").
(** A setting that must be there when external services are required. *)
Definition required (key : string) : B () :=
  fail_if (RequireExternals && String.eqb (trimmed_env getenv key) "")
    (Errf (key +:+ " is required when ONE_TOK_REQUIRE_EXTERNALS=true")).
Definition required_tokens (tokens : bool) (text : string) : B () :=
  fail_if (RequireExternals && negb tokens) (Errf (text +:+ " is required when ONE_TOK_REQUIRE_EXTERNALS=true")).
(** An upstream that is given, or the one of the environment. *)
Definition some_upstream (upstream : string) : B string :=
  if String.eqb upstream "" then _ ← required "API_GATEWAY_UPSTREAM"; mret APIGatewayUpstream
  else mret upstream.
Definition some_tokens (given : TokenSet) (token multiKey singleKey : string) : TokenSet :=
  if negb (TokenSet_Empty given) then given
  else if String.eqb token "" then serviceauth_FromEnv multiKey singleKey else NewTokenSet [token].

(** *** The settlement service *)

(** A client that is not given, or one that may itself be a client not configured. *)
Record SettlementOptions := mkSettlementOptions {
  so_Upstream : string;
  so_Fiber : option (option FiberConfig);
  so_Funding : option Store;
  so_Deposits : option (BuyerDepositService * Store);
  so_Auth : option (option string);
  so_ServiceToken : string;
  so_ServiceTokens : TokenSet;
}.
Record SettlementStarted := mkSettlementStarted {
  ss_upstream : string;
  ss_fiber : option FiberConfig;
  ss_funding : Store;
  ss_deposits : option (BuyerDepositService * Store);
  ss_auth : option string;
  ss_serviceTokens : TokenSet;
}.
(** [NewBuyerDepositServiceFromEnvE]: the service with the stores of its repositories. *)
Definition NewDepositsFromEnv : B (option (BuyerDepositService * Store)) :=
  options ← lift deposit_options;
  match options with
  | None => mret None
  | Some options => stores ← loadBuyerDepositRepositoriesOrMemory;
                    mret (Some (NewBuyerDepositService options, stores))
  end.
Definition given_or {A} (given : option A) (m : B A) : B A := match given with Some x => mret x | None => m end.
Definition some_fiber (given : option (option FiberConfig)) : B (option FiberConfig) :=
  given_or given (_ ← for_each ["FIBER_RPC_URL"; "FIBER_APP_ID"; "FIBER_HMAC_SECRET"] required;
                  mret (NewClientFromEnv getenv)).
Definition settlement_NewServerWithOptionsE (o : SettlementOptions) : B SettlementStarted :=
  upstream ← some_upstream (so_Upstream o);
  fiber ← some_fiber (so_Fiber o);
  funding ← given_or (so_Funding o) (or_fail loadFundingRecordRepositoryE "funding store");
  deposits ← given_or (Some <$> so_Deposits o) (or_fail NewDepositsFromEnv "buyer deposits");
  let auth := default iam_NewClientFromEnv (so_Auth o) in
  let tokens := some_tokens (so_ServiceTokens o) (so_ServiceToken o)
                  "SETTLEMENT_SERVICE_TOKENS" "SETTLEMENT_SERVICE_TOKEN" in
  _ ← fail_if (RequireExternals && bool_decide (auth = None))
        (Errf "IAM_UPSTREAM is required when ONE_TOK_REQUIRE_EXTERNALS=true");
  _ ← required_tokens (negb (TokenSet_Empty tokens)) "SETTLEMENT_SERVICE_TOKEN or SETTLEMENT_SERVICE_TOKENS";
  _ ← NewSingleHostE upstream;
  mret (mkSettlementStarted upstream fiber funding deposits auth tokens).
Definition no_tokens : TokenSet := NewTokenSet [].
Definition no_settlement_options : SettlementOptions := mkSettlementOptions "" None None None None "" no_tokens.
(** What the program of the service starts. *)
Definition settlement_NewServer : B SettlementStarted :=
  settlement_NewServerWithOptionsE
    (mkSettlementOptions APIGatewayUpstream (Some (NewClientFromEnv getenv)) None None
       (Some iam_NewClientFromEnv) "" no_tokens).

(** *** The reconciler *)

Record ReconcilerOptions := mkReconcilerOptions {
  ro_Fiber : option (option FiberConfig);
  ro_Funding : option Store;
  ro_Deposits : option (BuyerDepositService * Store);
}.
Definition NewReconcilerE (o : ReconcilerOptions)
    : B (option FiberConfig * Store * option (BuyerDepositService * Store)) :=
  funding ← given_or (ro_Funding o) (or_fail loadFundingRecordRepositoryE "funding store");
  deposits ← given_or (Some <$> ro_Deposits o) (or_fail NewDepositsFromEnv "buyer deposits");
  mret (default (NewClientFromEnv getenv) (ro_Fiber o), funding, deposits).
(** [SETTLEMENT_RECONCILER_INTERVAL], a duration or a number of seconds. *)
Definition reconcileInterval : Z :=
  let value := trimmed_env getenv "SETTLEMENT_RECONCILER_INTERVAL" in
  match ParseDuration value with
  | Some duration => duration
  | None =>
      match ParseInt value with
      | (seconds, None) => if 0 <? seconds then seconds *w second else 30 * second
      | (_, Some _) => 30 * second
      end
  end.

(** *** The execution service *)

Record ExecutionOptions := mkExecutionOptions {
  xo_APIUpstream : string;
  xo_Carrier : option Client;
  xo_InboundToken : string;
  xo_InboundTokens : TokenSet;
  xo_GatewayToken : string;
}.
Record ExecutionStarted := mkExecutionStarted {
  es_upstream : string;
  es_carrier : Client;
  es_inboundTokens : TokenSet;
  es_gatewayToken : string;
}.
Definition some_carrier (given : option Client) : B Client :=
  given_or given (_ ← for_each ["CARRIER_GATEWAY_URL"; "CARRIER_GATEWAY_API_TOKEN"] required;
                  mret carrier_NewClientFromEnv).
Definition execution_NewServerWithOptions (o : ExecutionOptions) : B ExecutionStarted :=
  upstream ← some_upstream (xo_APIUpstream o);
  carrier ← some_carrier (xo_Carrier o);
  let inbound := some_tokens (xo_InboundTokens o) (xo_InboundToken o)
                   "EXECUTION_EVENT_TOKENS" "EXECUTION_EVENT_TOKEN" in
  let gateway := if String.eqb (xo_GatewayToken o) ""
                 then ts_primary (serviceauth_FromEnv "EXECUTION_GATEWAY_TOKENS" "EXECUTION_GATEWAY_TOKEN")
                 else xo_GatewayToken o in
  _ ← required_tokens (negb (TokenSet_Empty inbound)) "EXECUTION_EVENT_TOKEN or EXECUTION_EVENT_TOKENS";
  _ ← required_tokens (negb (blank gateway)) "EXECUTION_GATEWAY_TOKEN or EXECUTION_GATEWAY_TOKENS";
  mret (mkExecutionStarted upstream carrier inbound gateway).
Definition no_execution_options : ExecutionOptions := mkExecutionOptions "" None "" no_tokens "".
Definition execution_NewServer : B ExecutionStarted :=
  execution_NewServerWithOptions
    (mkExecutionOptions APIGatewayUpstream (Some carrier_NewClientFromEnv) "" no_tokens "").

(** *** The identity service and the gateway *)

(** The limiter of the environment; [redis] is the store over the server at an address. *)
Context {L : Type} (redis : string → string → Z → Duration → Time → ST L Decision).
Record IamOptions := mkIamOptions {
  io_Store : option Store;
  io_SessionTTL : Z;
  io_RateLimiter : option (option (RateLimit.Service L));
}.
Definition some_limiter (given : option (option (RateLimit.Service L))) : B (option (RateLimit.Service L)) :=
  given_or given (lift (NewServiceFromEnv getenv redis)).
Definition iam_NewServerWithOptions (o : IamOptions) : B (Store * Z * option (RateLimit.Service L)) :=
  store ← given_or (io_Store o) loadStoreFromEnv;
  limiter ← some_limiter (io_RateLimiter o);
  mret (store, if io_SessionTTL o <=? 0 then 30 * 24 * hour else io_SessionTTL o, limiter).
Definition iam_NewServer : B (Store * Z * option (RateLimit.Service L)) :=
  store ← loadStoreFromEnv; iam_NewServerWithOptions (mkIamOptions (Some store) 0 None).

(** The platform, [None] a new one in memory. *)
Record GatewayOptions := mkGatewayOptions {
  go_App : option Loaded;
  go_IAM : option (option string);
  go_ExecutionToken : string;
  go_ExecutionTokens : TokenSet;
  go_RateLimiter : option (option (RateLimit.Service L));
  go_DemoConfig : option demoenv_Config;
}.
Record GatewayStarted := mkGatewayStarted {
  gs_app : option Loaded;
  gs_auth : option string;
  gs_executionTokens : TokenSet;
  gs_rateLimiter : option (RateLimit.Service L);
  gs_demoConfig : demoenv_Config;
}.
(** Carriers, jobs, evidence, the event ledger and the webhooks are new, in memory. *)
Definition gateway_NewServerWithOptionsE (o : GatewayOptions) : B GatewayStarted :=
  let auth := default iam_NewClientFromEnv (go_IAM o) in
  limiter ← or_fail (some_limiter (go_RateLimiter o)) "rate limiter";
  let tokens := some_tokens (go_ExecutionTokens o) (go_ExecutionToken o)
                  "API_GATEWAY_EXECUTION_TOKENS" "API_GATEWAY_EXECUTION_TOKEN" in
  _ ← fail_if (RequireExternals && bool_decide (auth = None))
        (Errf "IAM_UPSTREAM is required when ONE_TOK_REQUIRE_EXTERNALS=true");
  _ ← required_tokens (negb (TokenSet_Empty tokens)) "API_GATEWAY_EXECUTION_TOKEN or API_GATEWAY_EXECUTION_TOKENS";
  mret (mkGatewayStarted (go_App o) auth tokens limiter
          (default (demoenv_ConfigFromEnv getenv) (go_DemoConfig o))).
(** What the program of the gateway starts, over the platform it loads; [provisioner]
    is whether that of the settlement channels could be made. *)
Definition start_gateway (provisioner : result ()) : B GatewayStarted :=
  app ← LoadPlatformApp;
  _ ← lift provisioner;
  gateway_NewServerWithOptionsE (mkGatewayOptions (Some app) None "" no_tokens None None).
(** Where the program looks whether it serves, before it prepares the demonstration. *)
Definition demo_health_url (listenAddr : string) : string :=
  if negb (has_byte ":" listenAddr) then "http://localhost:" +:+ listenAddr +:+ "/healthz"
  else "http://localhost" +:+ listenAddr +:+ "/healthz".

(** *** Services that pass requests on *)

(** What becomes of a path: an answer of its own, another path at the gateway, none. *)
Inductive Passed := OwnHealth | PassedOn (path : string) | NotPassed.
Definition api_path (path : string) : string := "/api/v1" +:+ String.substring 3 (String.length path - 3) path.
Definition marketplace_serve (path : string) : Passed :=
  if String.eqb path "/healthz" then OwnHealth
  else if String.eqb path "/v1/providers" || String.eqb path "/v1/listings"
          || HasPrefix path "/v1/rfqs" || HasPrefix path "/v1/orders" then PassedOn (api_path path)
  else NotPassed.
Definition risk_serve (path : string) : Passed :=
  if String.eqb path "/healthz" then OwnHealth
  else if String.eqb path "/v1/credits/decision" || HasPrefix path "/v1/disputes" then PassedOn (api_path path)
  else NotPassed.
Definition notification_serve (path : string) : Passed :=
  if String.eqb path "/healthz" then OwnHealth
  else if String.eqb path "/v1/messages" then PassedOn "/api/v1/messages"
  else NotPassed.
Definition shell_NewServerE (name : string) : B () :=
  or_fail (NewSingleHostE APIGatewayUpstream) (name +:+ " upstream").
End environment.
End steps.

(** ** The platform in memory *)

Definition DefaultProviderProfiles : list ProviderProfile :=
  [mkProviderProfile "provider_1" "Atlas Ops" ["carrier"; "diagnostics"; "token_metering"] "gold" (f64_of_int 0) 0].
Definition DefaultListings : list Listing :=
  [mkListing "listing_1" "provider_1" "Managed Agent Operations" "agent-ops" 1500
     ["carrier-compatible"; "milestone-ready"] ""].
(** [sys] is the system's clock. *)
Definition NewAppWithMemory (sys : Clock) : App :=
  NewApp sys (mkMemoryOrders 0 ∅) DefaultProviderProfiles DefaultListings (mkSlice 0 []) (mkSlice 0 [])
    (mkMemoryMessages 0 []) (mkSlice 0 []).
(** What a loaded platform is when it keeps its data in memory: its publisher is the one
    that was connected, or none. *)
Definition loaded_in_memory (sys : Clock) (bus : nat → Publisher) (l : Loaded) : option App :=
  match ld_database l with
  | Some _ => None
  | None => Some (SetPublisher (bus <$> ld_publisher l) (NewAppWithMemory sys)).1
  end.

(** ** What is open *)

#[local] Set Warnings "-clear-no-such-hyp".

Fixpoint held_from (n : nat) (h : Steps) (open : gset nat) : gset nat :=
  match h with
  | [] => open
  | (a, failure) :: h =>
      held_from (S n) h
        (match a, failure with
         | OpenDatabase _, None | ConnectBus _, None => {[n]} ∪ open
         | CloseDatabase i, _ | CloseBus i, _ => open ∖ {[i]}
         | _, _ => open
         end)
  end.
(** What was opened and not closed since. *)
Definition held (h : Steps) : gset nat := held_from 0 h ∅.

Lemma held_from_app n h h' o : held_from n (h ++ h') o = held_from (n + length h) h' (held_from n h o).
Proof.
  revert n o. induction h as [|[a failure] h IH]; intros n o; cbn [app held_from length]; [by rewrite Nat.add_0_r|].
  rewrite IH. f_equal. lia.
Qed.
Lemma held_app h h' : held (h ++ h') = held_from (length h) h' (held h).
Proof. apply held_from_app. Qed.
Lemma held_from_below n h o i : (∀ j, j ∈ o → (j < n)%nat) → i ∈ held_from n h o → (i < n + length h)%nat.
Proof.
  revert n o. induction h as [|[a failure] h IH]; intros n o Ho Hi; cbn [held_from length] in Hi |- *.
  { specialize (Ho i Hi). lia. }
  eapply IH in Hi; [lia|]. intros j Hj.
  assert (j ∈ o ∨ j = n) as [Hin|Heq] by (destruct a, failure; set_solver); [specialize (Ho j Hin)|]; lia.
Qed.
Lemma held_below h i : i ∈ held h → (i < length h)%nat.
Proof. intros Hi. apply held_from_below in Hi; [lia|set_solver]. Qed.

Section holding.
Context (outcome : Steps → Act → option error) (getenv : string → string).

(** A start is its steps, one by one, each with the ways it can end. *)
Ltac run_steps :=
  unfold loadPublisher, opened, act, or_close, ignored, publisherCleanup, attempt, throw, lift; cbn [for_each];
  unfold mbind, st_bind, mret, st_ret;
  repeat first
    [ progress cbn [app fst snd ld_database ld_publisher]
    | match goal with |- context [outcome ?h ?a] => destruct (outcome h a) eqn:? end ].
(** What is held after them. *)
Ltac settle := rewrite ?held_app, ?length_app; cbn [held_from length list_to_set option_list app].
Ltac solve_held :=
  let i := fresh "i" in
  first [apply set_eq; intros i|intros i];
  match goal with |- context [held ?h] => pose proof (held_below h i) end;
  set_unfold; intuition lia.

Definition taken (l : Loaded) : gset nat :=
  list_to_set (option_list (ld_database l) ++ option_list (ld_publisher l)).

(** C22. A platform that is loaded holds its database and its publisher open and nothing
    else, a database whenever persistence is required; a start that fails has closed
    everything it opened; and the clean-up closes all of it, except that a database that
    cannot be closed leaves the publisher open. *)
Theorem failed_starts_leave_nothing_open h h' r : LoadPlatformApp outcome getenv h = (h', r) →
  match r with
  | Err _ => held h' = held h
  | Ok l => held h' = held h ∪ taken l ∧ taken l ## held h ∧
      (RequirePersistence getenv = true → is_Some (ld_database l)) ∧
      ∀ h2 closed, cleanup outcome l h' = (h2, closed) →
        held h2 = match closed with Ok _ => held h | Err _ => held h ∪ list_to_set (option_list (ld_publisher l)) end
  end.
Proof.
  unfold LoadPlatformApp, loadPublisher.
  destruct (String.eqb (getenv "NATS_URL") ""), (String.eqb (getenv "DATABASE_URL") ""), (RequirePersistence getenv) eqn:Hp,
    (RequireBootstrappedDatabase getenv); run_steps; intros [= <- <-].
  all: try (settle; solve_held).
  all: split_and!; [unfold taken; settle; solve_held|unfold taken; settle; solve_held|by eauto|].
  all: intros h2 closed; unfold cleanup; run_steps; intros [= <- <-]; settle; solve_held.
Qed.

(** The bootstrap of the database closes it whatever happens, and succeeds only when each
    of its four steps did, in their order, and the closing. *)
Theorem bootstraps_run_every_step dsn h h' r : BootstrapDatabase outcome dsn h = (h', r) →
  held h' = held h ∧
  (r = Ok () → h' = h ++ (OpenDatabase dsn, None) :: ((λ job, (RunJob (length h) job, None)) <$> bootstrap_jobs)
                    ++ [(CloseDatabase (length h), None)]).
Proof.
  unfold BootstrapDatabase, closing, bootstrap_jobs. destruct (String.eqb dsn ""); run_steps; intros [= <- <-];
    (split; [settle; solve_held|]); intros [=]; subst; cbn [fmap list_fmap app]; rewrite <- ?app_assoc; done.
Qed.
End holding.

(** ** What is required is there *)

Lemma no_blank_token l : "" ∉ ts_values (NewTokenSet l).
Proof.
  unfold NewTokenSet. assert (Hts : "" ∉ ts_values (mkTokenSet "" ∅)) by set_solver. revert Hts.
  generalize (mkTokenSet "" ∅). induction (l ≫= Split ",") as [|token tokens IH]; intros ts Hts; cbn [foldl]; [done|].
  apply IH. unfold add_token. destruct (String.eqb_spec (TrimSpace token) ""); [done|]. cbn [ts_values]. set_solver.
Qed.
(** A set of tokens that a request without one does not match. *)
Definition needs_token (ts : TokenSet) : Prop :=
  ∀ r, blank (rq_Header r HeaderName) = true → MatchesRequest ts r = false.
Lemma tokens_close l : TokenSet_Empty (NewTokenSet l) = false → needs_token (NewTokenSet l).
Proof.
  intros He r Hr. unfold MatchesRequest. rewrite He. cbn [orb]. apply bool_decide_eq_false. intros Hin.
  unfold blank in Hr. apply String.eqb_eq in Hr. rewrite Hr in Hin. by apply no_blank_token in Hin.
Qed.

Section required.
Context (outcome : Steps → Act → option error) (getenv : string → string).
Context (url_Parse : string → result (string * string)) (deposit_options : result (option BuyerDepositService)).
Context {L : Type} (redis : string → string → Z → Duration → Time → ST L Decision).

Lemma or_memory_Ok m h h' store : RequirePersistence getenv = true → or_memory getenv m h = (h', Ok store) →
  ∃ db, store = InDatabase db.
Proof.
  intros Hp. unfold or_memory. intros (h1 & [db|e] & _ & Hr)%bind_Ok; [injection Hr as _ <-; by exists db|].
  by rewrite Hp in Hr.
Qed.
Lemma env_tokens multiKey singleKey : some_tokens getenv no_tokens "" multiKey singleKey
  = NewTokenSet [getenv multiKey; getenv singleKey].
Proof. done. Qed.
Lemma required_tokens_Ok tokens text h h' : RequireExternals getenv = true →
  required_tokens getenv tokens text h = (h', Ok ()) → tokens = true.
Proof. intros He [Hf _]%fail_if_Ok. rewrite He in Hf. by destruct tokens. Qed.
Lemma deposits_Ok h h' deposits : RequirePersistence getenv = true →
  NewDepositsFromEnv outcome getenv deposit_options h = (h', Ok deposits) →
  ∀ service stores, deposits = Some (service, stores) → ∃ db, stores = InDatabase db.
Proof.
  intros Hp (h1 & [options|] & _ & Hr)%bind_Ok service stores ->; [|done].
  apply bind_Ok in Hr as (h2 & s & Hs & [= _ <- <-]). by eapply or_memory_Ok.
Qed.

Lemma loaded_database h h' l : RequirePersistence getenv = true →
  LoadPlatformApp outcome getenv h = (h', Ok l) → is_Some (ld_database l).
Proof.
  intros Hp. unfold LoadPlatformApp. intros (h1 & publisher & _ & Hr)%bind_Ok. rewrite Hp in Hr.
  destruct (String.eqb _ _); [by apply bind_Ok in Hr as (h2 & [] & _ & Hr)|].
  apply bind_Ok in Hr as (h2 & db & _ & Hr). cbv zeta in Hr. apply bind_Ok in Hr as (h3 & [] & _ & [= _ <-]). done.
Qed.
Lemma settlement_start o h h' s : settlement_NewServerWithOptionsE outcome getenv url_Parse deposit_options o h = (h', Ok s) →
  so_Funding o = None → so_Deposits o = None →
  ss_auth s = default (iam_NewClientFromEnv getenv) (so_Auth o) ∧
  ss_serviceTokens s = some_tokens getenv (so_ServiceTokens o) (so_ServiceToken o)
    "SETTLEMENT_SERVICE_TOKENS" "SETTLEMENT_SERVICE_TOKEN" ∧
  (RequireExternals getenv = true → is_Some (ss_auth s) ∧ TokenSet_Empty (ss_serviceTokens s) = false) ∧
  (RequirePersistence getenv = true → (∃ db, ss_funding s = InDatabase db) ∧
     ∀ service stores, ss_deposits s = Some (service, stores) → ∃ db, stores = InDatabase db).
Proof.
  intros (h1 & upstream & _ & (h2 & fiber & _ & (h3 & funding & Hf & (h4 & deposits & Hd & Hr)%bind_Ok)%bind_Ok)%bind_Ok)%bind_Ok.
  intros Hno Hno'. rewrite Hno in Hf. rewrite Hno' in Hd. apply or_fail_Ok in Hf, Hd. cbv zeta in Hr.
  apply bind_Ok in Hr as (h5 & [] & [Ha _]%fail_if_Ok & (h6 & [] & Ht & (h7 & [] & _ & [= _ <-])%bind_Ok)%bind_Ok).
  cbn [ss_auth ss_serviceTokens ss_funding ss_deposits]. split_and!; [done|done| |].
  - intros He. rewrite He in Ha. cbn [andb] in Ha. apply bool_decide_eq_false in Ha.
    apply required_tokens_Ok in Ht; [|done]. split; [by apply not_eq_None_Some|by apply negb_true_iff].
  - intros Hp. split; [by eapply or_memory_Ok|by eapply deposits_Ok].
Qed.

(** C23. A program that starts although external services are required knows its identity
    service (the gateway and the settlement service) and has service tokens configured, in
    a set that no request without a token matches (which routes ask for one is the
    programs' matter); one that starts although persistence is required keeps what it
    stores in a database. *)
Theorem started_programs_have_what_is_required h h' :
  (∀ provisioner s, start_gateway outcome getenv redis provisioner h = (h', Ok s) →
     (RequireExternals getenv = true → is_Some (gs_auth s) ∧ needs_token (gs_executionTokens s)) ∧
     (RequirePersistence getenv = true → ∃ l, gs_app s = Some l ∧ is_Some (ld_database l))) ∧
  (∀ s, settlement_NewServer outcome getenv url_Parse deposit_options h = (h', Ok s) →
     (RequireExternals getenv = true → is_Some (ss_auth s) ∧ needs_token (ss_serviceTokens s)) ∧
     (RequirePersistence getenv = true → (∃ db, ss_funding s = InDatabase db) ∧
        ∀ service stores, ss_deposits s = Some (service, stores) → ∃ db, stores = InDatabase db)) ∧
  (∀ s, execution_NewServer getenv h = (h', Ok s) → RequireExternals getenv = true →
     needs_token (es_inboundTokens s) ∧ blank (es_gatewayToken s) = false) ∧
  (∀ store ttl limiter, iam_NewServer outcome getenv redis h = (h', Ok (store, ttl, limiter)) →
     RequirePersistence getenv = true → ∃ db, store = InDatabase db).
Proof.
  split_and!.
  - intros provisioner s (h1 & app & Happ & (h2 & [] & _ & (h3 & limiter & _ & Hr)%bind_Ok)%bind_Ok)%bind_Ok.
    cbv zeta in Hr. apply bind_Ok in Hr as (h4 & [] & [Ha _]%fail_if_Ok & (h5 & [] & Ht & [= _ <-])%bind_Ok).
    cbn [gs_auth gs_executionTokens gs_app]. split.
    + intros He. rewrite He in Ha. cbn [andb] in Ha. apply bool_decide_eq_false in Ha.
      apply required_tokens_Ok in Ht; [|done]. split; [by apply not_eq_None_Some|].
      cbn [go_ExecutionTokens go_ExecutionToken] in Ht |- *. rewrite env_tokens in Ht |- *. by apply tokens_close, negb_true_iff.
    + intros Hp. exists app. split; [done|]. by eapply loaded_database.
  - intros s (Ha & Ht & He & Hp)%settlement_start; [|done..]. split; [|done]. intros Hext.
    destruct (He Hext) as [Hauth Hempty]. split; [done|]. rewrite Ht in Hempty |- *. by apply tokens_close.
  - intros s (h1 & upstream & _ & (h2 & carrier & _ & Hr)%bind_Ok)%bind_Ok He. cbv zeta in Hr.
    apply bind_Ok in Hr as (h3 & [] & Hi & (h4 & [] & Hg & [= _ <-])%bind_Ok).
    apply required_tokens_Ok in Hi, Hg; [|done..]. apply negb_true_iff in Hi, Hg. split; [|done]. by apply tokens_close.
  - intros store ttl limiter (h1 & stored & Hs & (h2 & s & [= _ ->] & (h3 & l & _ & [= _ <- _ _])%bind_Ok)%bind_Ok)%bind_Ok Hp.
    by eapply or_memory_Ok.
Qed.
End required.

(** ** Starts *)

Fixpoint set_to (settings : list (string * string)) (key : string) : string :=
  match settings with
  | [] => ""
  | (k, v) :: settings => if String.eqb k key then v else set_to settings key
  end.
Definition all_well (_ : Steps) (_ : Act) : option error := None.
(** A disk that is full when the catalogue is seeded. *)
Definition disk_full (_ : Steps) (a : Act) : option error :=
  match a with RunJob _ SeedCatalog => Some (Errf "disk full") | _ => None end.
Definition deployed : string → string :=
  set_to [("DATABASE_URL", "postgres://db"); ("NATS_URL", "nats://bus"); ("ONE_TOK_REQUIRE_EXTERNALS", "true");
           ("ONE_TOK_REQUIRE_PERSISTENCE", "true"); ("IAM_UPSTREAM", "http://iam/"); ("API_GATEWAY_EXECUTION_TOKEN", "xt");
           ("SETTLEMENT_SERVICE_TOKEN", "st"); ("EXECUTION_EVENT_TOKEN", "et"); ("EXECUTION_GATEWAY_TOKEN", "gt")].
Definition any_url (_ : string) : result (string * string) := Ok ("http", "host").
Definition no_redis (_ _ : string) (_ : Z) (_ : Duration) (_ : Time) : ST () Decision := throw (Errf "no server").

Lemma failed_starts_leave_nothing_open_witness :
  let run := LoadPlatformApp disk_full deployed [] in
  run.2 = Err (Errf "disk full") ∧ length run.1 = 6%nat ∧ held run.1 = ∅ ∧
  (LoadPlatformApp all_well deployed []).2 = Ok (mkLoaded (Some 1%nat) (Some 0%nat)).
Proof.
  split_and!; [vm_compute; reflexivity..| |vm_compute; reflexivity].
  exact (failed_starts_leave_nothing_open disk_full deployed [] (LoadPlatformApp disk_full deployed []).1
    (Err (Errf "disk full")) ltac:(vm_compute; reflexivity)).
Defined.

Definition gateway_start := start_gateway all_well deployed no_redis (Ok tt) [].
Lemma started_programs_have_what_is_required_witness :
  ∃ s, gateway_start.2 = Ok s ∧ gs_auth s = Some "http://iam" ∧ is_Some (gs_auth s) ∧
    needs_token (gs_executionTokens s).
Proof.
  assert (Hr : ∃ s, start_gateway all_well deployed no_redis (Ok tt) [] = (gateway_start.1, Ok s) ∧ gs_auth s = Some "http://iam")
    by (eexists; split; vm_compute; reflexivity).
  destruct Hr as (s & Hr & Ha). exists s. split; [exact (f_equal snd Hr)|]. split; [done|].
  exact (proj1 (proj1 (started_programs_have_what_is_required all_well deployed any_url (Ok None) no_redis
    [] gateway_start.1) (Ok tt) s Hr) eq_refl).
Defined.

(** The settings of the payment node and of the carrier are asked for only by the
    constructors that no program uses: the programs hand a client over that was made of
    the environment, whatever it holds, so that no check is made. *)
Example node_settings_are_not_required :
  let settlement := settlement_NewServer all_well deployed any_url (Ok None) [] in
  let execution := execution_NewServer deployed [] in
  (settlement.2 ≫= λ s, Ok (ss_fiber s, ss_upstream s)) = Ok (None, "http://127.0.0.1:8080") ∧
  (execution.2 ≫= λ s, Ok (es_upstream s)) = Ok "http://127.0.0.1:8080" ∧
  (settlement_NewServerWithOptionsE all_well deployed any_url (Ok None) no_settlement_options []).2
    = Err (Errf "API_GATEWAY_UPSTREAM is required when ONE_TOK_REQUIRE_EXTERNALS=true") ∧
  (execution_NewServerWithOptions deployed no_execution_options []).2
    = Err (Errf "API_GATEWAY_UPSTREAM is required when ONE_TOK_REQUIRE_EXTERNALS=true").
Proof. split_and!; vm_compute; reflexivity. Qed.
(** An address with a host: the program looks for itself somewhere else. *)
Example demo_health_url_ex : demo_health_url ":8080" = "http://localhost:8080/healthz" ∧
  demo_health_url "8080" = "http://localhost:8080/healthz" ∧
  demo_health_url "0.0.0.0:8080" = "http://localhost0.0.0.0:8080/healthz".
Proof. split_and!; reflexivity. Qed.
Example passed_on_ex : marketplace_serve "/v1/rfqs/rfq_1/bids" = PassedOn "/api/v1/rfqs/rfq_1/bids" ∧
  risk_serve "/v1/disputes/d_1/resolve" = PassedOn "/api/v1/disputes/d_1/resolve" ∧
  notification_serve "/v1/messages" = PassedOn "/api/v1/messages" ∧ notification_serve "/v1/orders" = NotPassed.
Proof. split_and!; reflexivity. Qed.
